(* ===== verification/_CoqProject ===== *)
-Q . S2P
Prelude.v
RustStr.v
Words.v
F64.v
F64Int.v
Evidence.v
BootChecks.v
BootEngine.v
BootScore.v
DiskReader.v
Partition.v
Filesystem.v
Frame.v
Migration.v
Assessment.v
Kahn.v
Waves.v
WaveProps.v
Fleet.v
FixPlan.v
Repair.v
RepairProps.v
LiveExec.v
LiveProps.v
Passport.v
PassportProps.v
Gate.v
GateProps.v
JobSpec.v
Worker.v
WorkerProps.v
AgentRpc.v
AgentPolicy.v
AgentHandler.v
AgentProps.v
Updater.v
UpdaterProps.v
Fstab.v
FstabProps.v
Baseline.v
BaselineProps.v
Readiness.v
Cutover.v
CutoverProps.v
Snapshot.v
FileOps.v
FileOpsProps.v
ControlAuth.v
ControlAuthProps.v
Saml.v
GuestActions.v
GuestActionsProps.v
Transport.v
TransportProps.v
Integrity.v
IntegrityProps.v
Executor.v
ExecutorProps.v
AgentOps.v
AgentOpsProps.v
GuestFs.v
GuestFsProps.v
Serial.v
SerialProps.v
Offline.v
OfflineProps.v
Qga.v
QgaProps.v
Export.v
ExportProps.v
Validate.v
ValidateProps.v
Generator.v
GeneratorProps.v
Sam.v
SamProps.v
Hive.v
HiveProps.v
LvmClone.v
LvmCloneProps.v
