(* ===== verification/Prelude.v ===== *)
(** * GuestKit: a verification development

    GuestKit reads virtual-machine disk images, judges whether a guest will boot and
    whether it can be migrated to another hypervisor, plans and applies repairs, and
    issues signed documents that gate the cutover; a fleet layer orders many guests,
    a worker daemon runs such operations as jobs, an agent in each guest serves
    requests, and a control plane decides who may ask for them.  This library models the
    parts of the Rust sources that decide these things, as executable Rocq functions,
    and proves what the decisions mean.

    ** The parts and how they interact

    An image is opened by the disk reader; partition tables and file systems are
    found in its bytes.  Collectors (input/output, not modelled) turn a guest into an
    evidence snapshot, which the boot engine scores and the migration assessment
    checks, the latter on top of the boot engine's report.  The repair planner makes a
    fix plan from an assessment; the plan is sorted by its dependencies and run by the
    live executor, which snapshots, validates and rolls back, applied to an image that is
    not running, or exported as a script.  The passport bundles
    boot report, assessment and plan digest into a document, signs it, and verifies
    it; the gate and the hand-off decide on the document.  The wave planner and the
    fleet analyzer order and group many guests.  The agent protocol frames messages
    between host and guest; the agent in the guest authorizes a request, checks its age,
    nonce and idempotency key, and only then acts.  Behind it are the operations of the
    agent: its files, its own update, the freeze around a cutover or a snapshot, the
    readiness tokens, the baselines of migration and of tampering, and the helper that
    runs as root.  The control plane authenticates users, holds actions back until they
    are approved and asks the agents.  The worker executes job documents that a transport
    brings it.

    ** Files (paths from the root of the repository)

    - [Prelude]: outcomes of Rust code (value, error, panic), the overflow-checking
      build profile, sorting ([slice::sort_by] panics where the comparison is no total
      order), tactics and the lemmas on lists and maps all files share.
    - [RustStr], [Words]: [str] methods and formatting, the class [Platform]; the words and
      lines of ASCII texts.
    - [F64], [F64Int]: binary64 arithmetic and bounds on rounded results.
    - [Evidence]: src/evidence/snapshot.rs.
    - [BootChecks], [BootEngine], [BootScore]: src/boot/; the fourteen checks, the
      engine, and the theorems on the score.
    - [DiskReader], [Partition], [Filesystem]: src/disk/reader.rs, partition.rs and
      filesystem.rs, with src/core/error.rs.
    - [Frame]: crates/guestkit-agent-protocol/src/frame.rs and error.rs.
    - [Migration], [Assessment]: src/migration/readiness.rs, checks.rs, score.rs and
      src/cli/migrate/plan.rs; definitions, then theorems.
    - [Kahn], [Waves], [WaveProps], [Fleet]: the Kahn step and its invariant, and
      src/fleet/.
    - [FixPlan]: src/cli/plan/types.rs and topo_sort.rs.
    - [Repair], [RepairProps]: src/migration/repair.rs.
    - [LiveExec], [LiveProps]: src/cli/plan/executor_live.rs; the manifest is the file
      manifest.json among the backups.
    - [Passport], [PassportProps]: src/assurance/passport.rs and what it calls of
      mod.rs and copilot.rs.
    - [Gate], [GateProps]: src/cli/gate.rs, sbom_diff.rs, validate/rego.rs,
      src/assurance/handoff.rs and the commands that compose them.
    - [JobSpec]: crates/guestkit-job-spec/, the builder as chains of its calls.
    - [AgentRpc], [AgentPolicy], [AgentHandler], [AgentProps]: the methods of the in-guest
      agent (crates/guestkit-agent-protocol/src/rpc.rs, capabilities.rs), its policy
      (src/agent/policy.rs) and the choke point every request passes
      (src/agent/handler.rs, state.rs, audit.rs).
    - [Worker], [WorkerProps]: the state machine, registry, result writer, executor and
      loop of crates/guestkit-worker/src/.
    - [Transport], [TransportProps]: crates/guestkit-worker/src/transport/; the trait as
      the class [JobTransport], what it promises as [TransportSpec], three instances.
    - [Updater], [UpdaterProps]: src/agent/updater.rs.
    - [Fstab], [FstabProps]: the device inventory and the rewriting of mount tables
      (src/guestfs/device_inventory.rs, fstab.rs and fstab_rewriter.rs).
    - [Baseline], [BaselineProps]: src/migration/baseline.rs, the drift of a guest.
    - [Readiness]: the readiness tokens of src/migration/workflow.rs.
    - [Cutover], [CutoverProps], [Snapshot]: the freeze around a cutover
      (workflow.rs) and around a snapshot (src/agent/snapshot/mod.rs), with their
      watchdogs, as step functions over sequences of calls, timer firings and crashes; the
      freezes and thaws of the host, of the agent's requests and of snapshots are events of
      the cutover's runs.
    - [FileOps], [FileOpsProps]: src/agent/file_ops.rs over a tree with symbolic links.
    - [Integrity], [IntegrityProps]: src/agent/integrity.rs and inventory_cache.rs.
    - [Executor], [ExecutorProps]: src/agent/executor.rs and executor_ipc.rs, the executor
      on both sides of the helper's socket.
    - [AgentOps], [AgentOpsProps]: src/agent/storage_ops.rs, customization.rs, users.rs.
    - [Qga], [QgaProps]: src/agent/qga.rs and exec.rs, the entry of src/agent/handler.rs
      that chooses between them and the handler, and the turns of a channel (daemon.rs),
      which end with a panic or a failed write.
    - [GuestFs], [GuestFsProps]: files of a mounted guest by their guest paths
      (src/guestfs/file_ops.rs, utils.rs, metadata.rs, security_utils.rs).
    - [Serial], [SerialProps]: src/cli/plan/serial_console.rs.
    - [Offline], [OfflineProps]: src/cli/plan/apply.rs and firstboot_stage.rs, a plan on an
      image that is not running.
    - [Export], [ExportProps]: src/cli/plan/export.rs.
    - [Validate], [ValidateProps]: policy files, benchmarks and cloud profiles
      (src/cli/validate/) and the validate command of src/cli/commands/tools.rs.
    - [Generator], [GeneratorProps]: the security profile
      (src/cli/profiles/), the plans made of its findings (src/cli/plan/generator.rs) and the
      operations that install the agent (src/agent/inject.rs).
    - [Sam], [SamProps]: UTF-8 and UTF-16 texts, the password hashes of Windows accounts and the reader of
      registry hives (src/guestfs/sam_aes.rs).
    - [Hive], [HiveProps]: writing hives through libhivex and the password reset
      (src/guestfs/hivex_ffi.rs, sam_password.rs, and the reset of
      src/cli/commands/security.rs).
    - [LvmClone], [LvmCloneProps]: cloning logical volumes (src/guestfs/lvm_clone.rs), on the
      host and in a container, over the log of the programs that were run and of the files
      that were written.
    - [ControlAuth], [ControlAuthProps], [Saml]: crates/zyvor-api/src/auth/,
      config.rs, and the route table and settings of routes/.
    - [GuestActions], [GuestActionsProps]: the guest-action policy, queue and approval of
      crates/zyvor-api/src/; every command to Redis can fail, before or after it was
      carried out.

    ** Modelling conventions

    A struct is a record, an enum an inductive type, a function a Rocq function with
    the source's name (a short prefix keeps the fields of different structs apart).
    [Result] is [outcome], in which a panic is not an error.  Integers are [Z] with
    their width written out where it matters; arithmetic that can overflow takes the
    build profile [oc] (overflow checks: panic, otherwise wrap around), and theorems
    hold for both profiles unless they say so.  [f64] is the Standard Library's bit-level
    specification, so rounding is part of every score theorem.  A [HashMap] is a
    [gmap], and where the source iterates over one the order is an argument [iter]
    constrained only to list every entry once.  Files are a state that a monad passes
    on ([LiveExec.world], [Worker.wstate]); which calls fail is the environment's choice.

    Code outside the repository is an argument or a class: [Platform] (Unicode tables,
    JSON values), [System] (files, commands, SHA-256), [RepairHost] (directories, number
    formatting), the classes of [Passport] and [Gate] (serde, hex, Ed25519, clock texts,
    opa, network), [AgentEnv] (clocks, policy files, the operations behind the dispatch),
    [WorkerEnv] and [OperationHandler] (clock, file errors, handlers), [FileCrates],
    [IntegrityCrates] and [exec_crates] (base64, digests, JSON texts), [ExecEnv] (what
    commands and the bus answer), [OpsEnv], [QgaEnv], [GuestIo], [GuestChroot] and
    [OfflineEnv] (programs, failing system calls, opening an image), [ExportText],
    [ValidateEnv], [GenText], [SamCrates], [Hivex], [LvmEnv], [JwtCrate] and [ActionJson] with their laws.
    Where a theorem relies on one (a signature that verifies, a file system that keeps
    what was written) the hypothesis says so, and its witness instantiates it.

    Fuel: the two Kahn loops run with one more unit than there are nodes, and running
    out is [Panic]; [topological_sort_order] and [wave_plan_partition] show that no run
    panics, so it is enough.  The exact-read loop has one unit per missing byte, since
    a read returns at least one, and [read_line] one per byte of the stream.  Nested key
    lists of a hive are read with the depth of the stack as an argument; a deeper stack
    gives what a shallower one gave ([deeper_stack]), and [key_list_cycle] shows the hives
    for which no depth is enough.

    ** What the theorems show

    - Boot engine: the score is a number in 0..100 and tells blocked from bootable
      guests, findings are exactly the failed checks, and repairing never lowers it.
    - Disk: exact reads refine the bytes of the image, MBR layouts round-trip, a GPT
      written after the UEFI specification decodes to what was written, accepted partitions are well formed, and detection reports
      the first signature present.
    - Frames and lines round-trip, and nothing else is accepted.
    - Assessment: Linux and Windows guests are Blocked exactly under the stated
      conditions on the evidence, check ids are distinct, scores are whole numbers in
      0..100.
    - Planning: waves and fix plans respect dependencies, place everything that is not
      on or behind a cycle, and terminate; repair plans contain no risky operation
      without undo information and are sorted completely.
    - Fleet: clusters, snowflakes and quarantine are exact.
    - Live runs: every operation is accounted for, a dry run changes nothing, and a
      failed run is rolled back, within the stated limits ([backup_is_manifest] is what
      happens outside of one of them).
    - Plans on images and as scripts: validation accepts exactly the plans whose
      dependencies can be ordered, a valid plan is accounted for completely, restoring the
      backup restores the image; every boot loader file keeps its lines with the console
      added; quoted values of an exported script are the words they were.
    - Policies and generated plans: a report holds exactly the rules of the policy with
      their verdicts, a strict cloud profile implies a guest that boots; every plan
      generated from a profile validates, also with the agent's operations added, and finding texts that no rule knows become the
      commands of the plan.
    - Windows accounts: RC4, the hash formats and the account value round-trip; a password
      hash written to a SAM is the one read back; registry values read back as they were
      encoded; a failed reset leaves the guest as it was, unless the copy back fails.
    - Cloned volumes: no program of a run is given the source volume to write, and a file
      that is written is another one unless a link of the clone leads to it; a dry run only
      asks, a snapshot that was taken is removed again, and a clone that is reported was
      unmounted first; what is deleted when it was not.
    - Guest files: reads and writes stay below the mount point, except through links that
      lead nowhere yet.
    - Passport and gate: an accepted passport, and an image let through the gate,
      describe a guest without blockers; generated keys sign passports that verify;
      what an accepted signature means; hand-off and verifier agree; a build without
      signatures does not enforce them.
    - Agent: an operation is reached only through every check, a nonce is not accepted
      twice inside the replay window, a key is answered once, the window is the last
      accepted nonces, and the advertised methods are the dispatched ones.
    - Worker: which chains of builder calls yield a job document and what it holds, one successful run per idempotency key, one report
      and one answer per job, the job life cycle, the gauge of active jobs; the worker on
      any transport that keeps the promise refines the loop over the jobs it fetched, and over
      a watched directory it sorts every file by the outcome of its job.
    - Update and mount tables: an update needs the pinned signature and digest; a
      rewritten table names the same devices, round-trips, and is stable.
    - Cutover and snapshots: the freeze of a cutover is bounded by its watchdog, other
      freezes are not, an agent that dies
      between requests of a cutover ends the freeze when it starts again, and which
      interleavings leave a guest frozen.
    - Agent operations: files are served and written below the allowed paths only, whole
      or not at all; tampering is reported exactly as far as the scans reach; the helper
      does only what its policy and its checks permit, and what its verdicts mean; frames
      of the guest agent interface pass no policy, and its programs are answered for as they
      ended, whatever frames follow.
    - Control plane: every handler but the public ones is behind a token, when a token is
      accepted and revoked, what a signed SAML response does not fix, actions run once
      when decisions do not overlap and no record of a decision is lost, and what holds an
      action back.

    Lemmas and examples outside these groups record single behaviours the code has and
    its comments do not promise (lost backups, overflowing table entries, truncated
    frame lengths, result paths that leave their directory, and so on).

    ** Limits of the models

    The trees of [FileOps] and [GuestFs] hold files, directories and symbolic links; device
    nodes, through which a write would reach a device, are not in them.  [seek_start] refuses
    offsets past [i64::MAX] only, not those past the end of a block device.  The reader of a
    SAM in [HiveProps] ([stored_nt_hash]) is a specification: the sources decrypt a hash in
    their tests only.

    ** Not modelled

    The other guestfs operations that drive system tools (mounts, volumes, inspection; volumes
    inside disk images), device
    attachment, collectors, report exporters and storage back ends; the command line,
    shell and terminal interfaces; the start-up of the agent's daemon and the operations
    that only query the system; the OIDC exchange and the handlers of the control plane
    over its database and Kubernetes; the AI assistant, eBPF programs and Python bindings;
    the worker's handlers and metrics; plan previews and package staging; the profiles other than
    security; Windows branches of the agent and of the live executor; log output and progress reporting throughout. *)

From stdpp Require Import base gmap strings list sorting.
From Stdlib Require Import ZArith Lia Sorted.

Declare Scope guestkit_scope.
Delimit Scope guestkit_scope with gk.

(** ** Outcomes of Rust code

    A Rust function that returns [Result<A, E>] either returns or panics.  A
    panic is kept apart from an error: the caller's [?] does not see it. *)
Inductive outcome (E A : Type) : Type :=
  | Ok (a : A)
  | Err (e : E)
  | Panic.
Arguments Ok {E A} a.
Arguments Err {E A} e.
Arguments Panic {E A}.

#[export] Instance outcome_ret {E} : MRet (outcome E) := fun A a => Ok a.
#[export] Instance outcome_bind {E} : MBind (outcome E) := fun A B f m =>
  match m with Ok a => f a | Err e => Err e | Panic => Panic end.
#[export] Instance outcome_fmap {E} : FMap (outcome E) := fun A B f m =>
  match m with Ok a => Ok (f a) | Err e => Err e | Panic => Panic end.

Section outcome_lemmas.
Context {E A B : Type}.
Implicit Types (m : outcome E A) (f : A → outcome E B).

Lemma outcome_bind_Ok m f b :
  m ≫= f = Ok b ↔ ∃ a, m = Ok a ∧ f a = Ok b.
Proof. destruct m; cbn; naive_solver. Qed.

Lemma outcome_bind_Panic m f :
  m ≫= f = Panic ↔ m = Panic ∨ ∃ a, m = Ok a ∧ f a = Panic.
Proof. destruct m; cbn; naive_solver. Qed.

Lemma outcome_bind_Err m f e :
  m ≫= f = Err e ↔ m = Err e ∨ ∃ a, m = Ok a ∧ f a = Err e.
Proof. destruct m; cbn; naive_solver. Qed.
End outcome_lemmas.

(** a [for] loop whose body may fail. *)
Fixpoint outcome_foldl {E A B} (f : A → B → outcome E A) (a : A) (l : list B)
    : outcome E A :=
  match l with
  | [] => Ok a
  | x :: l => a ← f a x; outcome_foldl f a l
  end.

Lemma outcome_foldl_app {E A B} (f : A → B → outcome E A) a l l' :
  outcome_foldl f a (l ++ l') = outcome_foldl f a l ≫= fun a => outcome_foldl f a l'.
Proof. revert a. induction l as [|x l IH]; intros a; [done|]. cbn. by destruct (f a x); cbn. Qed.

(** [slice::sort_by]: a stable sort; on a comparison that is a total order every
    stable sort has this result. *)
Fixpoint insert_by {A} (cmp : A → A → comparison) (x : A) (l : list A) : list A :=
  match l with
  | [] => [x]
  | y :: l' => match cmp x y with Gt => y :: insert_by cmp x l' | _ => x :: l end
  end.
Definition sort_by {A} (cmp : A → A → comparison) (l : list A) : list A :=
  foldr (insert_by cmp) [] l.

(** whether a comparison is a total order on the elements of a list: the two orders of a
    pair agree, and what is not greater is transitive. *)
Definition not_gt (c : comparison) : bool := match c with Gt => false | _ => true end.
Definition total_on {A} (cmp : A → A → comparison) (l : list A) : bool :=
  forallb (fun a => forallb (fun b =>
    bool_decide (cmp b a = CompOpp (cmp a b)) &&
    forallb (fun c => negb (not_gt (cmp a b) && not_gt (cmp b c)) || not_gt (cmp a c)) l) l) l.
(** where the comparison is no total order the sort is documented to panic or to leave the
    elements in an unspecified order; this is a panic here, so that what is shown not to
    panic is shown to be ordered. *)
Definition slice_sort_by {E A} (cmp : A → A → comparison) (l : list A) : outcome E (list A) :=
  if total_on cmp l then Ok (sort_by cmp l) else Panic.
Lemma slice_sort_by_total {E A} (cmp : A → A → comparison) l :
  (∀ a b, a ∈ l → b ∈ l → cmp b a = CompOpp (cmp a b)) →
  (∀ a b c, a ∈ l → b ∈ l → c ∈ l → cmp a b ≠ Gt → cmp b c ≠ Gt → cmp a c ≠ Gt) →
  slice_sort_by (E := E) cmp l = Ok (sort_by cmp l).
Proof.
  intros Ha Ht. unfold slice_sort_by. assert (total_on cmp l = true) as ->; [|done].
  assert (∀ c, not_gt c = true ↔ c ≠ Gt) as Hn by (by intros []).
  apply forallb_forall. intros a Hia%list_elem_of_In. apply forallb_forall. intros b Hib%list_elem_of_In.
  apply andb_true_iff. split; [apply bool_decide_eq_true; by apply Ha|].
  apply forallb_forall. intros c Hic%list_elem_of_In. apply orb_true_iff.
  destruct (not_gt (cmp a b)) eqn:E1; [|by left]. destruct (not_gt (cmp b c)) eqn:E2; [|by left].
  right. apply Hn. apply (Ht a b c); [done..| |]; by apply Hn.
Qed.

Lemma insert_by_Permutation {A} (cmp : A → A → comparison) x l :
  insert_by cmp x l ≡ₚ x :: l.
Proof.
  induction l as [|y l IH]; [done|]. cbn. destruct (cmp x y); [done|done|].
  rewrite IH. apply Permutation_swap.
Qed.

Lemma sort_by_Permutation {A} (cmp : A → A → comparison) l : sort_by cmp l ≡ₚ l.
Proof. induction l as [|x l IH]; [done|]. cbn. by rewrite insert_by_Permutation, IH. Qed.

(** on elements of [D], where the comparison is a total preorder, the result is
    sorted. *)
Lemma sort_by_sorted {A} (cmp : A → A → comparison) (D : A → Prop) l :
  (∀ x y, D x → D y → cmp x y = Gt → cmp y x ≠ Gt) →
  (∀ x y z, D x → D y → D z → cmp x y ≠ Gt → cmp y z ≠ Gt → cmp x z ≠ Gt) →
  Forall D l → StronglySorted (fun x y => cmp x y ≠ Gt) (sort_by cmp l).
Proof.
  intros Htot Htrans HD. induction HD as [|x l Hx Hl IH]; [constructor|].
  cbn. fold (sort_by cmp l). assert (Forall D (sort_by cmp l)) as HDs
    by (by rewrite sort_by_Permutation).
  revert IH HDs. generalize (sort_by cmp l) as s. intros s Hs HDs.
  induction Hs as [|y s Hs IH Hy]; cbn; [by repeat constructor|].
  apply Forall_cons in HDs as [HDy HDs].
  destruct (cmp x y) eqn:E.
  1, 2: assert (cmp x y ≠ Gt) as Hxy by congruence;
    constructor; [by constructor|]; constructor; [done|];
    rewrite Forall_forall in Hy, HDs |- *; intros z Hz; eapply (Htrans x y z); auto.
  constructor; [by apply IH|]. rewrite insert_by_Permutation.
  constructor; [by apply Htot|done].
Qed.

(** ** Machine integers

    A [uN] is a [Z] in [0 .. 2^N - 1].  Arithmetic that leaves the range panics
    when the build checks overflow (the dev profile) and wraps when it does not
    (the release profile): [overflow_checks] is that build setting. *)
Definition u8_max : Z := 2 ^ 8.
Definition u32_max : Z := 2 ^ 32.
Definition u64_max : Z := 2 ^ 64.

Definition in_u (w : Z) (x : Z) : Prop := (0 ≤ x < 2 ^ w)%Z.

Definition u_arith {E} (overflow_checks : bool) (w : Z) (x : Z) : outcome E Z :=
  if (0 <=? x)%Z && (x <? 2 ^ w)%Z then Ok x
  else if overflow_checks then Panic
  else Ok (x mod 2 ^ w)%Z.

Lemma u_arith_in_range {E} oc w x :
  in_u w x → u_arith (E:=E) oc w x = Ok x.
Proof.
  unfold in_u, u_arith. intros [Hl Hr].
  apply Z.leb_le in Hl. apply Z.ltb_lt in Hr. by rewrite Hl, Hr.
Qed.

(** Without overflow checks the arithmetic never panics and stays in range. *)
Lemma u_arith_wraps {E} w x :
  (0 ≤ w)%Z → ∃ y, u_arith (E:=E) false w x = Ok y ∧ in_u w y.
Proof.
  intros Hw. unfold u_arith, in_u.
  destruct ((0 <=? x)%Z && (x <? 2 ^ w)%Z) eqn:Hb.
  - apply andb_true_iff in Hb as [Hl%Z.leb_le Hr%Z.ltb_lt]. eauto.
  - eexists; split; [done|]. apply Z.mod_pos_bound. lia.
Qed.

(** ** Bytes and little/big endian integers *)
Definition byte_ok (b : Z) : Prop := (0 ≤ b < 256)%Z.

Fixpoint le_decode (bs : list Z) : Z :=
  match bs with
  | [] => 0
  | b :: bs => b + 256 * le_decode bs
  end%Z.

Fixpoint le_encode (n : nat) (z : Z) : list Z :=
  match n with
  | O => []
  | S n => (z mod 256)%Z :: le_encode n (z / 256)%Z
  end.

Definition be_decode (bs : list Z) : Z := le_decode (reverse bs).
Definition be_encode (n : nat) (z : Z) : list Z := reverse (le_encode n z).

Lemma length_le_encode n z : length (le_encode n z) = n.
Proof. revert z. induction n as [|n IH]; intros z; cbn; [done|by rewrite IH]. Qed.

Lemma length_be_encode n z : length (be_encode n z) = n.
Proof. unfold be_encode. by rewrite length_reverse, length_le_encode. Qed.

Lemma le_decode_encode n z :
  (0 ≤ z < 256 ^ Z.of_nat n)%Z → le_decode (le_encode n z) = z.
Proof.
  revert z. induction n as [|n IH]; intros z Hz.
  - cbn in *. lia.
  - cbn [le_encode le_decode]. rewrite IH.
    + pose proof (Z.div_mod z 256). lia.
    + rewrite Nat2Z.inj_succ, Z.pow_succ_r in Hz by lia.
      split; [apply Z.div_pos; lia|]. apply Z.div_lt_upper_bound; lia.
Qed.

Lemma be_decode_encode n z :
  (0 ≤ z < 256 ^ Z.of_nat n)%Z → be_decode (be_encode n z) = z.
Proof.
  intros Hz. unfold be_decode, be_encode. rewrite reverse_involutive.
  by apply le_decode_encode.
Qed.

Lemma le_encode_bytes n z : Forall byte_ok (le_encode n z).
Proof.
  revert z. induction n as [|n IH]; intros z; cbn; constructor; [|apply IH].
  apply Z.mod_pos_bound. lia.
Qed.

Lemma be_encode_bytes n z : Forall byte_ok (be_encode n z).
Proof. apply Forall_reverse, le_encode_bytes. Qed.

Lemma le_decode_bound bs :
  Forall byte_ok bs → (0 ≤ le_decode bs < 256 ^ Z.of_nat (length bs))%Z.
Proof.
  induction 1 as [|b bs Hb _ IH]; cbn [le_decode length]; [lia|].
  rewrite Nat2Z.inj_succ, Z.pow_succ_r by lia. unfold byte_ok in Hb. lia.
Qed.

(** ** Generic lemmas on lists *)
Lemma NoDup_fmap_unique {A B} (f : A → B) (l : list A) x y :
  NoDup (f <$> l) → x ∈ l → y ∈ l → f x = f y → x = y.
Proof.
  intros Hnd (i & Hi)%list_elem_of_lookup (j & Hj)%list_elem_of_lookup Hf.
  assert (i = j) as ->; [|congruence].
  eapply NoDup_lookup; [done| |]; rewrite list_lookup_fmap.
  - by rewrite Hi.
  - by rewrite Hj, Hf.
Qed.

Lemma existsb_elem_of {A} (p : A → bool) (l : list A) :
  existsb p l = true ↔ ∃ x, x ∈ l ∧ p x = true.
Proof.
  rewrite existsb_exists. by setoid_rewrite list_elem_of_In.
Qed.

Lemma forallb_elem_of {A} (p : A → bool) (l : list A) :
  forallb p l = true ↔ ∀ x, x ∈ l → p x = true.
Proof.
  rewrite forallb_forall. by setoid_rewrite list_elem_of_In.
Qed.

Lemma elem_of_filterb {A} (p : A → bool) (l : list A) x :
  x ∈ List.filter p l ↔ x ∈ l ∧ p x = true.
Proof. by rewrite !list_elem_of_In, filter_In. Qed.

(** [b] as a goal or hypothesis: turn boolean connectives into propositions. *)
Ltac bool_solve :=
  repeat match goal with
  | H : andb _ _ = true |- _ => apply andb_true_iff in H as [? ?]
  | H : orb _ _ = false |- _ => apply orb_false_iff in H as [? ?]
  | H : negb _ = true |- _ => apply negb_true_iff in H
  | H : negb _ = false |- _ => apply negb_false_iff in H
  | H : (_ <=? _)%Z = true |- _ => apply Z.leb_le in H
  | H : (_ <=? _)%Z = false |- _ => apply Z.leb_gt in H
  | H : (_ <? _)%Z = true |- _ => apply Z.ltb_lt in H
  | H : (_ <? _)%Z = false |- _ => apply Z.ltb_ge in H
  | H : (_ =? _)%Z = true |- _ => apply Z.eqb_eq in H
  | H : (_ =? _)%Z = false |- _ => apply Z.eqb_neq in H
  end.

Create HintDb guestkit.
#[export] Hint Resolve length_le_encode length_be_encode
  le_encode_bytes be_encode_bytes : guestkit.
