(* ===== verification/RustStr.v ===== *)
(** * Rust strings

    A Rust [str] is its UTF-8 bytes, a [string].  This file models the methods
    of [str] and the formatting macros the sources use.  What they do to ASCII
    text is written out; what the Unicode tables of the Rust library do to
    non-ASCII text is the class [Platform], which also carries the JSON value
    type of the serde_json crate.  No theorem restricts either. *)
From stdpp Require Import base strings list pretty.
From Stdlib Require Import ZArith Lia Ascii Sorted.
From S2P Require Import Prelude.

Class Platform := {
  (** [str::to_lowercase] and [str::to_uppercase] on text that is not ASCII. *)
  lower_non_ascii : string → string;
  upper_non_ascii : string → string;
  (** the body of [{:?}] for a [str] that is not ASCII. *)
  debug_non_ascii : string → string;
  (** [serde_json::Value]. *)
  json_value : Type
}.

Definition byte_of (c : ascii) : Z := Z.of_N (N_of_ascii c).
Definition ascii_of_byte (b : Z) : ascii := ascii_of_N (Z.to_N b).

Definition char_is_ascii (c : ascii) : bool := (byte_of c <? 128)%Z.
Definition char_lower (c : ascii) : ascii :=
  if (65 <=? byte_of c)%Z && (byte_of c <=? 90)%Z
  then ascii_of_byte (byte_of c + 32) else c.
Definition char_upper (c : ascii) : ascii :=
  if (97 <=? byte_of c)%Z && (byte_of c <=? 122)%Z
  then ascii_of_byte (byte_of c - 32) else c.

Fixpoint str_map (f : ascii → ascii) (s : string) : string :=
  match s with
  | EmptyString => EmptyString
  | String c s => String (f c) (str_map f s)
  end.
Fixpoint str_forall (p : ascii → bool) (s : string) : bool :=
  match s with
  | EmptyString => true
  | String c s => p c && str_forall p s
  end.

Definition is_empty (s : string) : bool :=
  match s with EmptyString => true | _ => false end.
Definition is_ascii (s : string) : bool := str_forall char_is_ascii s.

Definition to_lowercase `{Platform} (s : string) : string :=
  if is_ascii s then str_map char_lower s else lower_non_ascii s.
Definition to_uppercase `{Platform} (s : string) : string :=
  if is_ascii s then str_map char_upper s else upper_non_ascii s.
(** [str::eq_ignore_ascii_case] folds ASCII letters only, whatever the text. *)
Definition eq_ignore_ascii_case (s t : string) : bool :=
  String.eqb (str_map char_lower s) (str_map char_lower t).

Definition starts_with (p s : string) : bool := String.prefix p s.

Fixpoint contains (pat s : string) : bool :=
  starts_with pat s ||
  match s with
  | EmptyString => false
  | String _ s => contains pat s
  end.

Fixpoint contains_char (c : ascii) (s : string) : bool :=
  match s with
  | EmptyString => false
  | String d s => Ascii.eqb c d || contains_char c s
  end.

Fixpoint str_drop (n : nat) (s : string) : string :=
  match n, s with
  | S n, String _ s => str_drop n s
  | _, _ => s
  end.

(** [str::trim_start_matches] drops every leading copy of the pattern; each
    copy is at least one byte, so the text's length bounds the copies. *)
Fixpoint trim_start_matches_fuel (fuel : nat) (p s : string) : string :=
  match fuel with
  | O => s
  | S fuel =>
      if negb (is_empty p) && starts_with p s
      then trim_start_matches_fuel fuel p (str_drop (String.length p) s)
      else s
  end.
Definition trim_start_matches (p s : string) : string :=
  trim_start_matches_fuel (String.length s) p s.

(** Is the text only Unicode [White_Space]?  This is [s.trim().is_empty()]. *)
Definition white_space_chars : list string :=
  map (fun l => String.string_of_list_ascii (map ascii_of_byte l))
    [[9]; [10]; [11]; [12]; [13]; [32]; [194; 133]; [194; 160];
     [225; 154; 128]; [226; 128; 128]; [226; 128; 129]; [226; 128; 130];
     [226; 128; 131]; [226; 128; 132]; [226; 128; 133]; [226; 128; 134];
     [226; 128; 135]; [226; 128; 136]; [226; 128; 137]; [226; 128; 138];
     [226; 128; 168]; [226; 128; 169]; [226; 128; 175]; [226; 129; 159];
     [227; 128; 128]]%Z.
Fixpoint trim_start_fuel (fuel : nat) (s : string) : string :=
  match fuel with
  | O => s
  | S fuel =>
      match List.find (fun w => starts_with w s) white_space_chars with
      | Some w => trim_start_fuel fuel (str_drop (String.length w) s)
      | None => s
      end
  end.
Definition trim_is_empty (s : string) : bool :=
  is_empty (trim_start_fuel (String.length s) s).

(** [str::trim]: a suffix that starts inside a character is never white space. *)
Definition trim_start (s : string) : string := trim_start_fuel (String.length s) s.
Fixpoint trim_end (s : string) : string :=
  match s with
  | EmptyString => ""
  | String c s' => if trim_is_empty s then "" else String c (trim_end s')
  end.
Definition trim (s : string) : string := trim_end (trim_start s).

(** [str::split_whitespace]; [word] is the piece being read, in reverse. *)
Definition push_word (word : list ascii) (l : list string) : list string :=
  match word with
  | [] => l
  | _ => String.string_of_list_ascii (reverse word) :: l
  end.
Fixpoint split_whitespace_fuel (fuel : nat) (word : list ascii) (s : string) : list string :=
  match fuel, s with
  | S fuel, String c s' =>
      match List.find (fun w => starts_with w s) white_space_chars with
      | Some w =>
          push_word word (split_whitespace_fuel fuel [] (str_drop (String.length w) s))
      | None => split_whitespace_fuel fuel (c :: word) s'
      end
  | _, _ => push_word word []
  end.
Definition split_whitespace (s : string) : list string :=
  split_whitespace_fuel (String.length s) [] s.

(** [str::ends_with(c)] for one ASCII character. *)
Fixpoint ends_with_char (c : ascii) (s : string) : bool :=
  match s with
  | EmptyString => false
  | String d EmptyString => Ascii.eqb c d
  | String _ s => ends_with_char c s
  end.

(** [str::replace] of each of some ASCII characters by one. *)
Definition replace_chars (cs : list ascii) (by_char : ascii) (s : string) : string :=
  str_map (fun c => if existsb (Ascii.eqb c) cs then by_char else c) s.

(** [u32::from_str_radix(s, 8)]: an optional plus sign, at least one bin_digit. *)
Fixpoint octal_digits (s : string) (acc : Z) : option Z :=
  match s with
  | EmptyString => Some acc
  | String c s =>
      let d := (byte_of c - 48)%Z in
      if ((0 <=? d) && (d <? 8))%Z then
        let acc := (acc * 8 + d)%Z in
        if (acc <? 2 ^ 32)%Z then octal_digits s acc else None
      else None
  end.
Definition parse_octal (s : string) : option Z :=
  let s := match s with
           | String c s' => if Ascii.eqb c "+"%char then s' else s
           | EmptyString => s
           end in
  if is_empty s then None else octal_digits s 0.

(** [[String]::join(sep)]. *)
Fixpoint join (sep : string) (l : list string) : string :=
  match l with
  | [] => ""
  | [s] => s
  | s :: l => s +:+ sep +:+ join sep l
  end.

(** [str::split(c)] for one ASCII character: n separators give n+1 pieces. *)
Fixpoint split_char (c : ascii) (s : string) : list string :=
  match s with
  | EmptyString => [""]
  | String d s =>
      if Ascii.eqb c d then "" :: split_char c s
      else match split_char c s with
           | [] => [String d ""]
           | p :: ps => String d p :: ps
           end
  end.

(** [str::lines]: a final line end opens no line, and a carriage return before
    a line end goes with it. *)
Fixpoint strip_cr (s : string) : string :=
  match s with
  | EmptyString => ""
  | String c EmptyString => if (byte_of c =? 13)%Z then "" else s
  | String c s' => String c (strip_cr s')
  end.
Fixpoint lines_of (pieces : list string) : list string :=
  match pieces with
  | [] => []
  | [last] => if is_empty last then [] else [last]
  | p :: ps => strip_cr p :: lines_of ps
  end.
Definition lines (s : string) : list string := lines_of (split_char (ascii_of_byte 10) s).
Definition newline_str : string := String (ascii_of_byte 10) "".

(** [str::split_once(c)] for one ASCII character. *)
Fixpoint split_once (c : ascii) (s : string) : option (string * string) :=
  match s with
  | EmptyString => None
  | String d s =>
      if Ascii.eqb c d then Some ("", s)
      else match split_once c s with
           | Some (a, b) => Some (String d a, b)
           | None => None
           end
  end.

(** ** Sorting

    [Ord] on [str] is the lexicographic order of the bytes.  A sort of a list
    whose order is total and antisymmetric has one result, so insertion sort
    stands for [slice::sort]. *)
Fixpoint str_insert (s : string) (l : list string) : list string :=
  match l with
  | [] => [s]
  | t :: l' => if String.leb s t then s :: l else t :: str_insert s l'
  end.
Definition str_sort (l : list string) : list string := foldr str_insert [] l.

(** [Vec::dedup]: drops an element equal to the one kept before it. *)
Fixpoint dedup_from (prev : string) (l : list string) : list string :=
  match l with
  | [] => []
  | s :: l => if String.eqb prev s then dedup_from prev l else s :: dedup_from s l
  end.
Definition dedup (l : list string) : list string :=
  match l with [] => [] | s :: l => s :: dedup_from s l end.

(** ** Formatting *)
Definition fmt_nat (n : nat) : string := pretty n.
Definition fmt_Z (z : Z) : string := pretty z.
Definition fmt_bool (b : bool) : string := if b then "true" else "false".

Definition hex_digit (d : Z) : string :=
  match String.get (Z.to_nat d) "0123456789abcdef" with
  | Some c => String c ""
  | None => ""
  end.
(** [{:02x}] of a byte. *)
Definition fmt_02x (b : Z) : string := hex_digit (b / 16) +:+ hex_digit (b mod 16).

(** [{:o}]. *)
Fixpoint fmt_octal_fuel (fuel : nat) (z : Z) : string :=
  match fuel with
  | O => ""
  | S fuel =>
      if (z <? 8)%Z then hex_digit z
      else fmt_octal_fuel fuel (z / 8) +:+ hex_digit (z mod 8)
  end.
Definition fmt_octal (z : Z) : string := fmt_octal_fuel 11 z.

(** [s.chars().take(n).collect()]: a character starts at a byte that is not
    [10xxxxxx]. *)
Fixpoint take_chars (n : nat) (s : string) : string :=
  match s with
  | EmptyString => ""
  | String c s' =>
      if (byte_of c / 64 =? 2)%Z then String c (take_chars n s')
      else match n with O => "" | S n => String c (take_chars n s') end
  end.

Definition dquote : string := String (ascii_of_byte 34) "".

(** [{:?}] of a [str]: quotes, with the escapes of [char::escape_debug]. *)
Definition debug_char (c : ascii) : string :=
  let b := byte_of c in
  if (b =? 34)%Z then "\" +:+ dquote
  else if (b =? 92)%Z then "\\"
  else if (b =? 9)%Z then "\t"
  else if (b =? 10)%Z then "\n"
  else if (b =? 13)%Z then "\r"
  else if (b =? 0)%Z then "\0"
  else if (b <? 32)%Z || (b =? 127)%Z
       then "\u{" +:+ (if (b <? 16)%Z then hex_digit b else fmt_02x b) +:+ "}"
  else String c "".
Fixpoint debug_ascii (s : string) : string :=
  match s with
  | EmptyString => ""
  | String c s => debug_char c +:+ debug_ascii s
  end.
Definition fmt_debug_str `{Platform} (s : string) : string :=
  dquote +:+ (if is_ascii s then debug_ascii s else debug_non_ascii s) +:+ dquote.
Definition fmt_debug_strs `{Platform} (l : list string) : string :=
  "[" +:+ join ", " (map fmt_debug_str l) +:+ "]".

(** ** Lemmas *)
Lemma str_insert_Permutation s l : str_insert s l ≡ₚ s :: l.
Proof.
  induction l as [|t l IH]; [done|]. cbn. destruct (String.leb s t); [done|].
  rewrite IH. apply Permutation_swap.
Qed.

Lemma str_sort_Permutation l : str_sort l ≡ₚ l.
Proof. induction l as [|s l IH]; [done|]. cbn. by rewrite str_insert_Permutation, IH. Qed.

Lemma ascii_compare_lt a b : Ascii.compare a b = Lt ↔ (N_of_ascii a < N_of_ascii b)%N.
Proof. unfold Ascii.compare. apply N.compare_lt_iff. Qed.

Lemma str_leb_cons a s b t :
  String.leb (String a s) (String b t) = true ↔
  (N_of_ascii a < N_of_ascii b)%N ∨ a = b ∧ String.leb s t = true.
Proof.
  unfold String.leb. cbn. destruct (Ascii.compare a b) eqn:E.
  - apply Ascii.compare_eq_iff in E as ->. split; [intros; by right|].
    intros [?|[_ ?]]; [lia|done].
  - apply ascii_compare_lt in E. split; [by left|done].
  - split; [done|]. intros [Hl|[-> _]].
    + apply ascii_compare_lt in Hl. congruence.
    + unfold Ascii.compare in E. by rewrite N.compare_refl in E.
Qed.

#[export] Instance str_leb_trans : Transitive (fun s t => String.leb s t = true).
Proof.
  intros s. induction s as [|a s IH]; intros [|b t] [|c u]; try done.
  rewrite !str_leb_cons. intros [?|[-> H1]] [?|[-> H2]]; [left; lia|by left|by left|].
  right. split; [done|]. by apply (IH t).
Qed.

Lemma str_insert_sorted s l :
  StronglySorted (fun s t => String.leb s t = true) l →
  StronglySorted (fun s t => String.leb s t = true) (str_insert s l).
Proof.
  induction 1 as [|t l Hl IH Ht]; cbn; [by repeat constructor|].
  destruct (String.leb s t) eqn:E.
  - constructor; [by constructor|]. constructor; [done|].
    eapply Forall_impl; [exact Ht|]. intros u Hu. exact (str_leb_trans _ _ _ E Hu).
  - constructor; [done|]. rewrite str_insert_Permutation. constructor; [|done].
    destruct (String.leb_total s t); congruence.
Qed.

Lemma str_sort_sorted l : StronglySorted (fun s t => String.leb s t = true) (str_sort l).
Proof. induction l; cbn; [constructor|]. by apply str_insert_sorted. Qed.

Lemma elem_of_dedup_from prev l x : x ∈ prev :: dedup_from prev l ↔ x ∈ prev :: l.
Proof.
  revert prev. induction l as [|s l IH]; intros prev; [done|]. cbn.
  destruct (String.eqb_spec prev s) as [<-|Hne].
  - rewrite IH, !elem_of_cons. tauto.
  - rewrite elem_of_cons, IH, !elem_of_cons. tauto.
Qed.

Lemma elem_of_dedup l x : x ∈ dedup l ↔ x ∈ l.
Proof. destruct l; [done|]. apply elem_of_dedup_from. Qed.

Lemma NoDup_dedup_from prev l :
  StronglySorted (fun s t => String.leb s t = true) (prev :: l) →
  NoDup (prev :: dedup_from prev l).
Proof.
  revert prev. induction l as [|s l IH]; intros prev Hs; cbn; [apply NoDup_singleton|].
  inversion Hs as [|? ? Hsl Hp]; subst. inversion Hsl as [|? ? Hl Hsp]; subst.
  inversion Hp as [|? ? Hps Hpl]; subst.
  destruct (String.eqb_spec prev s) as [<-|Hne]; [by apply IH|].
  apply NoDup_cons_2; [|by apply IH]. rewrite elem_of_dedup_from, elem_of_cons.
  intros [?|Hin]; [done|]. apply Hne. apply String.leb_antisym; [done|].
  rewrite Forall_forall in Hsp. by apply Hsp.
Qed.

Lemma NoDup_sort_dedup l : NoDup (dedup (str_sort l)).
Proof.
  pose proof (str_sort_sorted l) as Hs. destruct (str_sort l); [constructor|].
  by apply NoDup_dedup_from.
Qed.

Lemma elem_of_sort_dedup l x : x ∈ dedup (str_sort l) ↔ x ∈ l.
Proof. by rewrite elem_of_dedup, str_sort_Permutation. Qed.


Lemma is_empty_spec s : is_empty s = true ↔ s = "".
Proof. destruct s; cbn; naive_solver. Qed.

Lemma starts_with_spec p s : starts_with p s = true ↔ ∃ t, s = p +:+ t.
Proof.
  unfold starts_with. revert s. induction p as [|c p IH]; intros s.
  - split; [intros _; by exists s|]. by destruct s.
  - destruct s as [|d s]; cbn.
    + split; [done|]. by intros [t ?].
    + destruct (ascii_dec c d) as [->|Hne].
      * rewrite IH. split; intros [t Ht]; exists t.
        -- by rewrite Ht.
        -- by injection Ht.
      * split; [done|]. intros [t Ht]. by injection Ht.
Qed.

Lemma contains_spec p s : contains p s = true ↔ ∃ a b, s = a +:+ p +:+ b.
Proof.
  induction s as [|c s IH]; cbn [contains].
  - rewrite orb_false_r, starts_with_spec. split.
    + intros [t ?]. by exists "", t.
    + intros ([|? ?] & b & H); [by exists b|done].
  - rewrite orb_true_iff, starts_with_spec, IH. split.
    + intros [[t ?]|(a & b & ->)]; [by exists "", t|]. by exists (String c a), b.
    + intros ([|d a] & b & H).
      * left. by exists b.
      * right. injection H as -> H. by exists a, b.
Qed.

Lemma contains_char_spec c s :
  contains_char c s = true ↔ ∃ a b, s = a +:+ String c b.
Proof.
  induction s as [|d s IH]; cbn [contains_char].
  - split; [done|]. by intros ([|? ?] & b & H).
  - rewrite orb_true_iff, Ascii.eqb_eq, IH. split.
    + intros [->|(a & b & ->)]; [by exists "", s|]. by exists (String d a), b.
    + intros ([|e a] & b & H); injection H as -> H; [by left|].
      right. by exists a, b.
Qed.

(** [split_once] splits at the first separator. *)
Lemma split_once_spec c s a b :
  split_once c s = Some (a, b) ↔
  s = a +:+ String c b ∧ contains_char c a = false.
Proof.
  revert a b. induction s as [|d s IH]; intros a b; cbn [split_once].
  - split; [done|]. by intros [H _]; destruct a.
  - destruct (Ascii.eqb_spec c d) as [->|Hne].
    + split; [intros [= <- <-]; done|].
      intros [H Ha]. destruct a as [|e a]; [by injection H as ->|].
      injection H as -> H. cbn in Ha. by rewrite Ascii.eqb_refl in Ha.
    + destruct (split_once c s) as [[a' b']|] eqn:E.
      * destruct (proj1 (IH a' b') eq_refl) as [-> Ha'].
        split.
        -- intros [= <- <-]. cbn. split; [done|].
           destruct (Ascii.eqb_spec c d); [done|]. done.
        -- intros [H Ha]. destruct a as [|e a]; [by injection H|].
           injection H as -> H. cbn in Ha. apply orb_false_iff in Ha as [_ Ha].
           destruct (IH a b) as [_ IH2]. specialize (IH2 (conj H Ha)).
           by injection IH2 as -> ->.
      * split; [done|]. intros [H Ha]. destruct a as [|e a]; [by injection H|].
        injection H as -> H. cbn in Ha. apply orb_false_iff in Ha as [_ Ha].
        destruct (IH a b) as [_ IH2]. by specialize (IH2 (conj H Ha)).
Qed.

Lemma split_char_nonempty c s : split_char c s ≠ [].
Proof.
  destruct s as [|d s]; cbn; [done|].
  destruct (Ascii.eqb c d); [done|]. by destruct (split_char c s).
Qed.

(** Splitting and joining with the separator gives the text back. *)
Lemma join_split_char c s : join (String c "") (split_char c s) = s.
Proof.
  induction s as [|d s IH]; cbn [split_char]; [done|].
  destruct (Ascii.eqb_spec c d) as [<-|Hne].
  - pose proof (split_char_nonempty c s).
    destruct (split_char c s) as [|p ps] eqn:E; [done|].
    cbn [join]. change (String c (join (String c "") (p :: ps)) = String c s).
    by rewrite IH.
  - destruct (split_char c s) as [|p ps] eqn:E.
    + by apply split_char_nonempty in E.
    + destruct ps as [|q qs].
      * cbn in *. by rewrite IH.
      * change (String d (join (String c "") (p :: q :: qs)) = String d s).
        by rewrite IH.
Qed.

(** A platform to evaluate the definitions on ASCII inputs; not an instance, so
    that no statement picks it by itself. *)
Definition ascii_platform : Platform := {|
  lower_non_ascii s := s;
  upper_non_ascii s := s;
  debug_non_ascii s := s;
  json_value := unit
|}.

(** ** Texts in digits

    An encoding of texts for examples: a character is eight digits, the text ends with a
    full stop. *)
Definition bin_digit (b : bool) : ascii := if b then "1"%char else "0"%char.
Definition is_one (c : ascii) : bool := Ascii.eqb c "1"%char.
Fixpoint in_digits (s : string) : string :=
  match s with
  | EmptyString => "."
  | String (Ascii a b c d e f g h) s =>
      String (bin_digit a) (String (bin_digit b) (String (bin_digit c) (String (bin_digit d)
      (String (bin_digit e) (String (bin_digit f) (String (bin_digit g) (String (bin_digit h) (in_digits s))))))))
  end.
Fixpoint of_digits (s : string) : option (string * string) :=
  match s with
  | String a (String b (String c (String d (String e (String f (String g (String h s'))))))) =>
      if Ascii.eqb a "."%char then Some ("", String b (String c (String d (String e (String f (String g (String h s')))))))
      else (fun x => (String (Ascii (is_one a) (is_one b) (is_one c) (is_one d) (is_one e) (is_one f) (is_one g) (is_one h)) x.1, x.2))
        <$> of_digits s'
  | String a s' => if Ascii.eqb a "."%char then Some ("", s') else None
  | EmptyString => None
  end.
Lemma is_one_bin_digit b : is_one (bin_digit b) = b.
Proof. by destruct b. Qed.
Abbreviation is_ascii_text := (str_forall char_is_ascii).
Lemma bin_digit_text b s : is_ascii_text (String (bin_digit b) s) = is_ascii_text s.
Proof. by destruct b. Qed.
Lemma text_app_assoc s t u : (s +:+ t) +:+ u = s +:+ (t +:+ u).
Proof. induction s as [|c s IH]; [done|]. exact (f_equal (String c) IH). Qed.
Lemma text_app_nil s : s +:+ "" = s.
Proof. induction s as [|c s IH]; [done|]. exact (f_equal (String c) IH). Qed.
Lemma text_length_app s t : String.length (s +:+ t) = String.length s + String.length t.
Proof. induction s as [|c s IH]; [done|]. exact (f_equal S IH). Qed.
Lemma same_length_tails x y a b :
  String.length a = String.length b → x +:+ a = y +:+ b → x = y ∧ a = b.
Proof.
  intros Hl. revert y. induction x as [|c x IH]; intros [|c' y] E.
  - done.
  - exfalso. change ("" +:+ a) with a in E. subst a. rewrite text_length_app in Hl. cbn in Hl. lia.
  - exfalso. change ("" +:+ b) with b in E. subst b. rewrite text_length_app in Hl. cbn in Hl. lia.
  - injection E as <- E. by destruct (IH y E) as [-> ->].
Qed.
Lemma of_in_digits s t : of_digits (in_digits s +:+ t) = Some (s, t).
Proof.
  induction s as [|[a b c d e f g h] s IH].
  - change (in_digits "" +:+ t) with (String "." t). by do 8 (destruct t as [|? t]; [done|]).
  - change (in_digits (String (Ascii a b c d e f g h) s) +:+ t) with (String (bin_digit a) (String (bin_digit b)
      (String (bin_digit c) (String (bin_digit d) (String (bin_digit e) (String (bin_digit f) (String (bin_digit g)
      (String (bin_digit h) (in_digits s +:+ t))))))))).
    cbn [of_digits]. rewrite IH. replace (Ascii.eqb (bin_digit a) ".") with false by (by destruct a).
    cbn [fmap option_fmap option_map fst snd]. by rewrite !is_one_bin_digit.
Qed.
