(* ===== verification/Words.v ===== *)
(** * ASCII words and lines

    Lemmas on the text functions of [RustStr] for ASCII text: splitting the words of a
    line, trimming it, and the lines of a text put together from lines. *)
From stdpp Require Import base strings list.
From Stdlib Require Import ZArith Lia Ascii.
From S2P Require Import Prelude RustStr.

Definition is_white (c : ascii) : bool :=
  existsb (Ascii.eqb c) (ascii_of_byte <$> [9; 10; 11; 12; 13; 32]%Z).
Definition word_char (c : ascii) : bool := char_is_ascii c && negb (is_white c).
(** a non-empty text of visible ASCII characters (and of control characters that are not
    white space). *)
Definition word (s : string) : Prop := s ≠ "" ∧ str_forall word_char s = true.
Definition ascii_text (s : string) : Prop := str_forall char_is_ascii s = true.

Lemma text_forall_cons q c s :
  str_forall q (String c s) = true ↔ q c = true ∧ str_forall q s = true.
Proof. cbn. by rewrite andb_true_iff. Qed.
Lemma text_forall_app q s t :
  str_forall q (s +:+ t) = true ↔ str_forall q s = true ∧ str_forall q t = true.
Proof.
  induction s as [|c s IH]; [by cbn; naive_solver|].
  change (String c s +:+ t) with (String c (s +:+ t)). rewrite !text_forall_cons, IH. tauto.
Qed.
Lemma text_forall_impl q r s :
  (∀ c, q c = true → r c = true) → str_forall q s = true → str_forall r s = true.
Proof.
  intros Hqr. induction s as [|c s IH]; [done|]. rewrite !text_forall_cons. naive_solver.
Qed.

(** an ASCII text starts with white space when its first character is white. *)
Lemma find_white c s :
  char_is_ascii c = true →
  List.find (fun w => starts_with w (String c s)) white_space_chars =
  if is_white c then Some (String c "") else None.
Proof. destruct s; by destruct c as [[] [] [] [] [] [] [] []]. Qed.
Lemma word_char_spec c : word_char c = true ↔ char_is_ascii c = true ∧ is_white c = false.
Proof. unfold word_char. by rewrite andb_true_iff, negb_true_iff. Qed.
Lemma find_white_word c s :
  word_char c = true → List.find (fun w => starts_with w (String c s)) white_space_chars = None.
Proof. intros [Ha Hw]%word_char_spec. by rewrite find_white, Hw. Qed.
Lemma white_ascii c : is_white c = true → char_is_ascii c = true.
Proof. by destruct c as [[] [] [] [] [] [] [] []]. Qed.
Lemma find_white_white c s :
  is_white c = true →
  List.find (fun w => starts_with w (String c s)) white_space_chars = Some (String c "").
Proof. intros Hw. by rewrite find_white, Hw by by apply white_ascii. Qed.
Lemma word_ascii s : word s → ascii_text s.
Proof.
  intros [_ H]. revert H. apply text_forall_impl. intros c. by rewrite word_char_spec; intros [].
Qed.

(** ** Splitting *)
Lemma split_fuel_word w : ∀ n acc rest,
  str_forall word_char w = true →
  split_whitespace_fuel (String.length w + n) acc (w +:+ rest) =
  split_whitespace_fuel n (reverse (String.list_ascii_of_string w) ++ acc) rest.
Proof.
  induction w as [|c w IH]; intros n acc rest Hw; [done|].
  apply text_forall_cons in Hw as [Hc Hw].
  change (String c w +:+ rest) with (String c (w +:+ rest)).
  cbn [String.length Nat.add split_whitespace_fuel String.list_ascii_of_string].
  rewrite find_white_word by done. rewrite IH by done. by rewrite reverse_cons, <-app_assoc.
Qed.
Lemma push_word_text w l : w ≠ "" → push_word (reverse (String.list_ascii_of_string w)) l = w :: l.
Proof.
  intros Hw. unfold push_word. destruct (reverse _) as [|x r] eqn:E.
  - apply (f_equal reverse) in E. rewrite reverse_involutive in E. by destruct w.
  - rewrite <-E, reverse_involutive. by rewrite String.string_of_list_ascii_of_string.
Qed.
Lemma split_word w : word w → split_whitespace w = [w].
Proof.
  intros [Hne Hw]. unfold split_whitespace. pose proof (split_fuel_word w 0 [] "" Hw) as H.
  rewrite Nat.add_0_r, text_app_nil, app_nil_r in H. rewrite H. cbn [split_whitespace_fuel].
  by apply push_word_text.
Qed.
Lemma split_word_cons w c rest :
  word w → is_white c = true →
  split_whitespace (w +:+ String c rest) = w :: split_whitespace rest.
Proof.
  intros [Hne Hw] Hc. unfold split_whitespace. rewrite text_length_app, split_fuel_word by done.
  cbn [String.length split_whitespace_fuel]. rewrite find_white_white, app_nil_r by done.
  by apply push_word_text.
Qed.
Lemma split_join c ws :
  is_white c = true → Forall word ws → split_whitespace (join (String c "") ws) = ws.
Proof.
  intros Hc. induction 1 as [|w ws Hw Hws IH]; [done|]. destruct ws as [|w' ws].
  - by apply split_word.
  - change (join (String c "") (w :: w' :: ws)) with (w +:+ String c (join (String c "") (w' :: ws))).
    rewrite split_word_cons by done. by rewrite IH.
Qed.

(** the pieces of an ASCII text are words. *)
Lemma split_fuel_words n : ∀ acc s,
  ascii_text s → Forall (fun c => word_char c = true) acc →
  Forall word (split_whitespace_fuel n acc s).
Proof.
  assert (∀ acc l, Forall (fun c => word_char c = true) acc → Forall word l →
    Forall word (push_word acc l)) as Hpush.
  { intros [|c acc] l Hacc Hl; [done|]. constructor; [|done]. split.
    - rewrite reverse_cons. by destruct (reverse acc).
    - rewrite <- Forall_reverse in Hacc. revert Hacc. generalize (reverse (c :: acc)).
      induction 1; [done|]. by apply text_forall_cons. }
  induction n as [|n IH]; intros acc [|c s] Hs Hacc; cbn [split_whitespace_fuel]; try by apply Hpush.
  apply text_forall_cons in Hs as [Hc Hs]. rewrite find_white by done.
  destruct (is_white c) eqn:Hw.
  - apply Hpush; [done|]. cbn [String.length str_drop]. apply IH; [by destruct s|done].
  - apply IH; [done|]. constructor; [|done]. by apply word_char_spec.
Qed.
Lemma split_words s : ascii_text s → Forall word (split_whitespace s).
Proof. intros Hs. by apply split_fuel_words. Qed.

(** ** Trimming *)
Lemma drop_one c s : str_drop (String.length (String c "")) (String c s) = s.
Proof. by destruct s. Qed.
Lemma trim_start_ascii n : ∀ s, ascii_text s → ascii_text (trim_start_fuel n s).
Proof.
  induction n as [|n IH]; intros [|c s] Hs; try done. cbn [trim_start_fuel].
  pose proof Hs as [Hc Ht]%text_forall_cons. rewrite find_white by done.
  destruct (is_white c); [|done]. rewrite drop_one. by apply IH.
Qed.
Lemma trim_end_ascii s : ascii_text s → ascii_text (trim_end s).
Proof.
  induction s as [|c s IH]; [done|]. intros Hs. cbn [trim_end]. destruct (trim_is_empty _); [done|].
  apply text_forall_cons in Hs as [Hc Hs]. apply text_forall_cons. split; [done|by apply IH].
Qed.
Lemma trim_ascii s : ascii_text s → ascii_text (trim s).
Proof. intros Hs. by apply trim_end_ascii, trim_start_ascii. Qed.

Lemma trim_start_app_word n : ∀ s w, ascii_text s → word w → trim_start_fuel n (s +:+ w) ≠ "".
Proof.
  induction n as [|n IH]; intros s w Hs Hw; cbn [trim_start_fuel].
  - destruct s; [by destruct Hw|done].
  - destruct s as [|c s].
    + destruct Hw as [Hne Hw]. destruct w as [|c w]; [done|].
      apply text_forall_cons in Hw as [Hc _]. change ("" +:+ String c w) with (String c w).
      by rewrite find_white_word.
    + apply text_forall_cons in Hs as [Hc Hs]. change (String c s +:+ w) with (String c (s +:+ w)).
      rewrite find_white by done. destruct (is_white c); [|done]. rewrite drop_one. by apply IH.
Qed.
Lemma trim_end_app_word s w : ascii_text s → word w → trim_end (s +:+ w) = s +:+ w.
Proof.
  intros Hs Hw.
  assert (∀ t, ascii_text t → trim_is_empty (t +:+ w) = false) as Hne.
  { intros t Ht. apply not_true_iff_false. intros H%is_empty_spec. by apply trim_start_app_word in H. }
  induction s as [|c s IH].
  - change ("" +:+ w) with w. destruct Hw as [_ Hw].
    assert (∀ u, str_forall word_char u = true → trim_end u = u) as Hend; [|by auto].
    intros u. induction u as [|d u IHu]; intros Hu; [done|]. cbn [trim_end].
    pose proof (word_ascii _ (conj (ltac:(done) : String d u ≠ "") Hu)) as Ha.
    apply text_forall_cons in Hu as [Hd Hu]. unfold trim_is_empty.
    cbn [String.length trim_start_fuel]. rewrite find_white_word by done. cbn [is_empty].
    by rewrite IHu.
  - apply text_forall_cons in Hs as [Hc Hs]. change (String c s +:+ w) with (String c (s +:+ w)).
    cbn [trim_end]. change (String c (s +:+ w)) with (String c s +:+ w).
    rewrite Hne by (by apply text_forall_cons). by rewrite IH.
Qed.
Lemma trim_start_word w t : word w → trim_start (w +:+ t) = w +:+ t.
Proof.
  intros [Hne Hw]. destruct w as [|c w]; [done|]. apply text_forall_cons in Hw as [Hc _].
  unfold trim_start. change (String c w +:+ t) with (String c (w +:+ t)).
  cbn [String.length trim_start_fuel]. by rewrite find_white_word.
Qed.
Lemma trim_word w : word w → trim w = w.
Proof.
  intros Hw. unfold trim. rewrite <-(text_app_nil w), trim_start_word by done.
  rewrite text_app_nil. by apply (trim_end_app_word "" w).
Qed.

Lemma join_last c ws : Forall word ws → char_is_ascii c = true → ws ≠ [] →
  ∃ s w, join (String c "") ws = s +:+ w ∧ ascii_text s ∧ word w.
Proof.
  intros Hws Hc. induction Hws as [|w ws Hw Hws IH]; intros Hne; [done|].
  destruct ws as [|w' ws]; [by exists "", w|].
  destruct IH as (s & u & E & Hs & Hu); [done|].
  exists (w +:+ String c s), u. split_and!; [|by apply text_forall_app; split; [apply word_ascii|apply text_forall_cons]|done].
  change (join (String c "") (w :: w' :: ws)) with (w +:+ String c (join (String c "") (w' :: ws))).
  rewrite E. change (String c (s +:+ u)) with (String c s +:+ u). by rewrite text_app_assoc.
Qed.
Lemma trim_nowhite s : str_forall word_char s = true → trim s = s.
Proof. intros Hs. destruct s as [|c s]; [done|]. by apply trim_word. Qed.
Lemma trim_join c ws : Forall word ws → char_is_ascii c = true →
  trim (join (String c "") ws) = join (String c "") ws.
Proof.
  intros Hws Hc. destruct ws as [|w ws]; [done|]. unfold trim.
  assert (∃ t, join (String c "") (w :: ws) = w +:+ t) as [t Ht].
  { destruct ws; [exists ""; symmetry; apply text_app_nil|by eexists]. }
  rewrite Ht, trim_start_word by (by inversion Hws). rewrite <-Ht.
  destruct (join_last c (w :: ws)) as (s & u & -> & Hs & Hu); [done..|].
  by apply trim_end_app_word.
Qed.

(** ** Lines *)
Definition newline_char : ascii := ascii_of_byte 10.
(** a character of a line: neither a line feed nor a carriage return. *)
Definition line_char (c : ascii) : bool :=
  negb (Ascii.eqb newline_char c) && negb (byte_of c =? 13)%Z.
Definition plain_line (s : string) : Prop := str_forall line_char s = true.

Lemma line_char_spec c :
  line_char c = true ↔ Ascii.eqb newline_char c = false ∧ (byte_of c =? 13)%Z = false.
Proof. unfold line_char. by rewrite andb_true_iff, !negb_true_iff. Qed.
Lemma word_line_char c : word_char c = true → line_char c = true.
Proof. by destruct c as [[] [] [] [] [] [] [] []]. Qed.
Lemma word_plain w : word w → plain_line w.
Proof. intros [_ H]. revert H. apply text_forall_impl, word_line_char. Qed.
Lemma strip_cr_plain s : plain_line s → strip_cr s = s.
Proof.
  induction s as [|c s IH]; [done|]. intros [[_ Hc]%line_char_spec Hs]%text_forall_cons.
  cbn [strip_cr]. destruct s as [|d s]; [by rewrite Hc|]. by rewrite IH.
Qed.
(** text without the character [c]. *)
Definition without (c : ascii) (s : string) : Prop := str_forall (fun d => negb (Ascii.eqb c d)) s = true.
Lemma split_char_app c l rest :
  without c l → split_char c (l +:+ String c rest) = l :: split_char c rest.
Proof.
  induction l as [|d l IH].
  - intros _. change ("" +:+ ?x) with x. cbn [split_char]. by rewrite Ascii.eqb_refl.
  - intros [Hc%negb_true_iff Hl]%text_forall_cons.
    change (String d l +:+ ?x) with (String d (l +:+ x)). cbn [split_char]. by rewrite Hc, IH.
Qed.
Lemma split_char_whole c l : without c l → split_char c l = [l].
Proof.
  induction l as [|d l IH]; [done|]. intros [Hc%negb_true_iff Hl]%text_forall_cons.
  cbn [split_char]. by rewrite Hc, IH.
Qed.
Lemma split_char_join c ls :
  ls ≠ [] → Forall (without c) ls → split_char c (join (String c "") ls) = ls.
Proof.
  intros Hne Hls. induction Hls as [|l ls Hl Hls IH]; [done|]. destruct ls as [|l' ls].
  - by apply split_char_whole.
  - change (join (String c "") (l :: l' :: ls)) with (l +:+ String c (join (String c "") (l' :: ls))).
    by rewrite split_char_app, IH.
Qed.
Lemma plain_without l : plain_line l → without newline_char l.
Proof. apply text_forall_impl. intros c [H _]%line_char_spec. by rewrite H. Qed.
Definition ended (l : string) : string := l +:+ newline_str.
Lemma join_ended l ls : join "" (ended <$> (l :: ls)) = l +:+ String newline_char (join "" (ended <$> ls)).
Proof.
  destruct ls as [|l' ls]; [done|].
  change (join "" (ended <$> (l :: l' :: ls))) with ((l +:+ newline_str) +:+ "" +:+ join "" (ended <$> (l' :: ls))).
  by rewrite text_app_assoc.
Qed.
Lemma lines_join ls : Forall plain_line ls → lines (join "" (ended <$> ls)) = ls.
Proof.
  intros Hls. unfold lines. fold newline_char.
  assert (split_char newline_char (join "" (ended <$> ls)) = ls ++ [""]) as ->.
  { induction Hls as [|l ls Hl Hls IH]; [done|]. rewrite join_ended, split_char_app by (by apply plain_without).
    by rewrite IH. }
  induction Hls as [|l ls Hl Hls IH]; [done|]. cbn [app lines_of].
  destruct (ls ++ [""]) as [|p ps] eqn:E; [by destruct ls|]. by rewrite strip_cr_plain, IH.
Qed.

Lemma split_char_pieces c q s :
  str_forall q s = true → Forall (fun p => str_forall q p = true ∧ without c p) (split_char c s).
Proof.
  induction s as [|d s IH]; [by constructor|]. intros [Hd Hs]%text_forall_cons.
  specialize (IH Hs). cbn [split_char]. destruct (Ascii.eqb c d) eqn:E.
  - by constructor.
  - pose proof (split_char_nonempty c s). destruct (split_char c s) as [|p ps]; [done|].
    inversion IH as [|? ? [Hp Hn] Hps]; subst. constructor; [|done]. unfold without.
    rewrite !text_forall_cons. by rewrite E.
Qed.
Lemma strip_cr_forall q s : str_forall q s = true → str_forall q (strip_cr s) = true.
Proof.
  induction s as [|c s IH]; [done|]. intros [Hc Hs]%text_forall_cons. cbn [strip_cr].
  destruct s as [|d s]; [by destruct (_ =? _)%Z; [|apply text_forall_cons]|].
  apply text_forall_cons. split; [done|by apply IH].
Qed.
(** a text without carriage returns: its lines are plain, and ASCII when the text is. *)
Definition unix_text (s : string) : Prop :=
  str_forall (fun c => char_is_ascii c && negb (byte_of c =? 13)%Z) s = true.
Lemma lines_of_forall (Q : string → Prop) ps :
  (∀ s, Q s → Q (strip_cr s)) → Forall Q ps → Forall Q (lines_of ps).
Proof.
  intros Hcr. induction 1 as [|p ps Hp Hps IH]; [constructor|]. cbn [lines_of].
  destruct ps; [by destruct (is_empty p); repeat constructor|]. by constructor; [apply Hcr|].
Qed.
Lemma unix_lines s : unix_text s → Forall (fun l => plain_line l ∧ ascii_text l) (lines s).
Proof.
  intros Hs%(split_char_pieces newline_char). unfold lines. fold newline_char.
  eapply Forall_impl; [apply lines_of_forall; [|exact Hs]|].
  - intros p [H1 H2]. split; by apply strip_cr_forall.
  - intros p [H1 H2]. clear Hs. induction p as [|c p IH]; [done|].
    apply text_forall_cons in H1 as [[Ha Hc]%andb_true_iff H1]. apply text_forall_cons in H2 as [Hn H2].
    destruct (IH H1 H2). split; apply text_forall_cons; split; try done. unfold line_char. by rewrite Hn, Hc.
Qed.

(** ** Numbers as texts of binary digits, for examples of serialization *)
Fixpoint digits_of (n : positive) : string :=
  match n with xH => "" | xO n => String "0" (digits_of n) | xI n => String "1" (digits_of n) end.
Fixpoint number_of (s : string) : positive :=
  match s with
  | EmptyString => xH
  | String ch s => if Ascii.eqb ch "0"%char then xO (number_of s) else xI (number_of s)
  end.
Lemma number_of_digits n : number_of (digits_of n) = n.
Proof. induction n as [n IH|n IH|]; cbn; by rewrite ?IH. Qed.
