(* ===== verification/F64.v ===== *)
(** * IEEE 754 binary64

    Scores and weights are [f64] in the sources.  They are modelled bit for bit
    by the Standard Library's executable specification of binary64 (precision
    53, maximal exponent 1024, round to nearest even), so the theorems are about
    the rounded results the program computes and not about real numbers. *)
From stdpp Require Import base strings list pretty.
From Stdlib Require Import ZArith Lia SpecFloat.
From S2P Require Import Prelude RustStr.

Abbreviation f64 := spec_float.

Definition f64_of_Z (z : Z) : f64 := binary_normalize 53 1024 z 0 false.
Definition f64_add : f64 → f64 → f64 := SFadd 53 1024.
Definition f64_sub : f64 → f64 → f64 := SFsub 53 1024.
Definition f64_mul : f64 → f64 → f64 := SFmul 53 1024.
Definition f64_div : f64 → f64 → f64 := SFdiv 53 1024.
Definition f64_ltb : f64 → f64 → bool := SFltb.
Definition f64_leb : f64 → f64 → bool := SFleb.
(** the literal [n/d]: division is correctly rounded, and so are literals. *)
Definition f64_lit (n d : Z) : f64 := f64_div (f64_of_Z n) (f64_of_Z d).

Declare Scope f64_scope.
Delimit Scope f64_scope with f64.
Bind Scope f64_scope with spec_float.
Notation "x + y" := (f64_add x y) : f64_scope.
Notation "x - y" := (f64_sub x y) : f64_scope.
Notation "x * y" := (f64_mul x y) : f64_scope.
Notation "x / y" := (f64_div x y) : f64_scope.
Notation "x <? y" := (f64_ltb x y) : f64_scope.
Notation "x <=? y" := (f64_leb x y) : f64_scope.

Definition f64_is_nan (x : f64) : bool :=
  match x with S754_nan => true | _ => false end.

(** [f64::clamp]: two comparisons; a NaN passes through. *)
Definition f64_clamp (x lo hi : f64) : f64 :=
  let x := if (x <? lo)%f64 then lo else x in
  if (hi <? x)%f64 then hi else x.

(** [f64::min]: the other operand when one is NaN. *)
Definition f64_min (x y : f64) : f64 :=
  if f64_is_nan x then y
  else if f64_is_nan y then x
  else if (y <? x)%f64 then y else x.

(** [f64::round]: to the nearest integer, halves away from zero. *)
Definition f64_round (x : f64) : f64 :=
  match x with
  | S754_finite s m e =>
      if (0 <=? e)%Z then x
      else
        let q := ((Zpos m + 2 ^ (- e - 1)) / 2 ^ (- e))%Z in
        if (q =? 0)%Z then S754_zero s
        else f64_of_Z (if s then - q else q)%Z
  | _ => x
  end.

(** the nearest integer to [m * 2^e], halves to even; for [{:.0}]. *)
Definition round_half_even (m : Z) (e : Z) : Z :=
  if (0 <=? e)%Z then (m * 2 ^ e)%Z
  else
    let d := (2 ^ (- e))%Z in
    let q := (m / d)%Z in
    match (2 * (m mod d) ?= d)%Z with
    | Lt => q
    | Gt => q + 1
    | Eq => if Z.even q then q else q + 1
    end%Z.

(** [{:.0}] of an [f64]. *)
Definition fmt_f64_0 (x : f64) : string :=
  match x with
  | S754_nan => "NaN"
  | S754_infinity s => if s then "-inf" else "inf"
  | S754_zero s => if s then "-0" else "0"
  | S754_finite s m e =>
      (if s then "-" else "") +:+ fmt_Z (round_half_even (Zpos m) e)
  end.

(** [partial_cmp] of two [f64]. *)
Definition f64_partial_cmp (x y : f64) : option comparison := SFcompare x y.

(** ** Comparisons *)
Lemma f64_compare_swap x y :
  SFcompare y x = CompOpp <$> SFcompare x y.
Proof.
  destruct x as [[]|[]| |[] m e], y as [[]|[]| |[] m' e']; cbn; try done;
    rewrite (Z.compare_antisym e e'); destruct (e ?= e')%Z; cbn; try done;
    change (Pos.compare_cont Eq) with Pos.compare;
    rewrite (Pos.compare_antisym m m'); by destruct (m ?= m')%positive.
Qed.

Lemma f64_compare_refl x : f64_is_nan x = false → SFcompare x x = Some Eq.
Proof.
  destruct x as [[]|[]| |[] m e]; cbn; try done; intros _;
    rewrite Z.compare_refl; change (Pos.compare_cont Eq) with Pos.compare;
    by rewrite Pos.compare_refl.
Qed.

Lemma f64_leb_refl x : f64_is_nan x = false → (x <=? x)%f64 = true.
Proof. intros H. unfold f64_leb, SFleb. by rewrite f64_compare_refl. Qed.

Lemma f64_compare_nan x y :
  SFcompare x y = None ↔ f64_is_nan x = true ∨ f64_is_nan y = true.
Proof. destruct x as [[]|[]| |[]], y as [[]|[]| |[]]; cbn; naive_solver. Qed.

(** [<] and [>=] are complementary on numbers. *)
Lemma f64_ltb_false x y :
  f64_is_nan x = false → f64_is_nan y = false →
  (x <? y)%f64 = false → (y <=? x)%f64 = true.
Proof.
  intros Hx Hy. unfold f64_ltb, f64_leb, SFltb, SFleb.
  rewrite (f64_compare_swap x y).
  destruct (SFcompare x y) as [[]|] eqn:E; cbn; try done.
  apply f64_compare_nan in E as [E|E]; congruence.
Qed.

Lemma f64_leb_false x y :
  f64_is_nan x = false → f64_is_nan y = false →
  (x <=? y)%f64 = false → (y <? x)%f64 = true.
Proof.
  intros Hx Hy. unfold f64_ltb, f64_leb, SFltb, SFleb.
  rewrite (f64_compare_swap x y).
  destruct (SFcompare x y) as [[]|] eqn:E; cbn; try done.
  apply f64_compare_nan in E as [E|E]; congruence.
Qed.

Lemma f64_ltb_leb x y : (x <? y)%f64 = true → (x <=? y)%f64 = true.
Proof.
  unfold f64_ltb, f64_leb, SFltb, SFleb. by destruct (SFcompare x y) as [[]|].
Qed.

Lemma f64_ltb_leb_excl x y : (x <? y)%f64 = true → (y <=? x)%f64 = false.
Proof.
  unfold f64_ltb, f64_leb, SFltb, SFleb. rewrite (f64_compare_swap x y).
  by destruct (SFcompare x y) as [[]|].
Qed.

(** [clamp] lands in the interval unless its argument is NaN. *)
Lemma f64_clamp_bounds x lo hi :
  f64_is_nan x = false → f64_is_nan lo = false → f64_is_nan hi = false →
  (lo <=? hi)%f64 = true →
  f64_is_nan (f64_clamp x lo hi) = false ∧
  (lo <=? f64_clamp x lo hi)%f64 = true ∧
  (f64_clamp x lo hi <=? hi)%f64 = true.
Proof.
  intros Hx Hlo Hhi Hle. unfold f64_clamp.
  destruct (x <? lo)%f64 eqn:E1; destruct (hi <? _)%f64 eqn:E2.
  - by rewrite (f64_leb_refl hi).
  - rewrite (f64_leb_refl lo) by done. eauto.
  - by rewrite (f64_leb_refl hi).
  - eauto using f64_ltb_false.
Qed.

(** ** Rounding never makes a NaN

    [binary_round_aux] has a NaN branch for a negative significand; on the
    significands the operations build it is dead. *)
Lemma shr_1_nonneg r : (0 ≤ shr_m r)%Z → (0 ≤ shr_m (shr_1 r))%Z.
Proof. destruct r as [m ? ?]; cbn. destruct m as [|[]|[]]; cbn; lia. Qed.

Lemma iter_shr_1_nonneg p : ∀ r,
  (0 ≤ shr_m r)%Z → (0 ≤ shr_m (iter_pos shr_1 p r))%Z.
Proof. induction p; cbn; eauto using shr_1_nonneg. Qed.

Lemma shr_fexp_nonneg p emx m e l :
  (0 ≤ m)%Z → (0 ≤ shr_m (shr_fexp p emx m e l).1)%Z.
Proof.
  intros Hm. unfold shr_fexp, shr.
  assert (0 ≤ shr_m (shr_record_of_loc m l))%Z as Hr
    by (destruct l as [|[]]; done).
  destruct (_ - e)%Z; cbn; eauto using iter_shr_1_nonneg.
Qed.

Lemma round_nearest_even_nonneg m l : (0 ≤ m)%Z → (0 ≤ round_nearest_even m l)%Z.
Proof. destruct l as [|[]]; cbn; try destruct (Z.even m); lia. Qed.

(** the sign of a rounded number is the sign asked for. *)
Definition f64_has_sign (s : bool) (x : f64) : Prop :=
  match x with
  | S754_zero s' | S754_infinity s' | S754_finite s' _ _ => s' = s
  | S754_nan => False
  end.

Lemma binary_round_aux_sign p emx s m e l :
  (0 ≤ m)%Z → f64_has_sign s (binary_round_aux p emx s m e l).
Proof.
  intros Hm. unfold binary_round_aux.
  pose proof (shr_fexp_nonneg p emx m e l Hm) as H1.
  destruct (shr_fexp p emx m e l) as [r1 e1]; cbn in H1.
  pose proof (shr_fexp_nonneg p emx
    (round_nearest_even (shr_m r1) (loc_of_shr_record r1)) e1 loc_Exact
    (round_nearest_even_nonneg _ _ H1)) as H2.
  destruct (shr_fexp p emx (round_nearest_even _ _) e1 loc_Exact) as [r2 e2];
    cbn in H2.
  destruct (shr_m r2); [done| |lia]. by destruct (_ <=? _)%Z.
Qed.

Lemma binary_round_sign p emx s m e :
  f64_has_sign s (binary_round p emx s m e).
Proof.
  unfold binary_round. destruct (shl_align _ _ _).
  by apply binary_round_aux_sign.
Qed.

(** A number that is not NaN and not below zero; minus zero counts. *)
Definition f64_nonneg (x : f64) : Prop :=
  match x with
  | S754_zero _ | S754_infinity false | S754_finite false _ _ => True
  | _ => False
  end.

Lemma f64_has_sign_nonneg x : f64_has_sign false x → f64_nonneg x.
Proof. destruct x as [[]|[]| |[]]; cbn; done. Qed.

Lemma f64_nonneg_not_nan x : f64_nonneg x → f64_is_nan x = false.
Proof. by destruct x. Qed.

Lemma f64_nonneg_le x : f64_nonneg x → (f64_of_Z 0 <=? x)%f64 = true.
Proof. by destruct x as [[]|[]| |[]]. Qed.

Lemma f64_of_Z_nonneg z : (0 ≤ z)%Z → f64_nonneg (f64_of_Z z).
Proof.
  intros Hz. unfold f64_of_Z, binary_normalize. destruct z; [done| |lia].
  apply f64_has_sign_nonneg, binary_round_sign.
Qed.

Lemma f64_add_nonneg x y :
  f64_nonneg x → f64_nonneg y → f64_nonneg (x + y)%f64.
Proof.
  unfold f64_add.
  destruct x as [[]|[]| |[] mx ex], y as [[]|[]| |[] my ey]; try done.
  intros _ _. cbn [SFadd cond_Zopp].
  destruct (shl_align mx ex _) as [a ?], (shl_align my ey _) as [b ?]; cbn.
  apply f64_has_sign_nonneg, binary_round_sign.
Qed.

(** a finite factor: no [0 * inf]. *)
Definition f64_finite (x : f64) : Prop :=
  match x with S754_zero _ | S754_finite _ _ _ => True | _ => False end.

Lemma f64_mul_nonneg x y :
  f64_nonneg x → f64_finite x → f64_nonneg y → f64_finite y →
  f64_nonneg (x * y)%f64.
Proof.
  unfold f64_mul.
  destruct x as [[]|[]| |[] mx ex], y as [[]|[]| |[] my ey]; try done.
  intros _ _ _ _. cbn [SFmul xorb].
  by apply f64_has_sign_nonneg, binary_round_aux_sign.
Qed.

Lemma SFdiv_core_nonneg p emx m1 e1 m2 e2 :
  (0 ≤ (SFdiv_core_binary p emx (Zpos m1) e1 (Zpos m2) e2).1.1)%Z.
Proof.
  unfold SFdiv_core_binary.
  set (s := (e1 - e2 - _)%Z).
  set (m' := match s with 0 => Zpos m1 | Zpos _ => Z.shiftl (Zpos m1) s
             | Zneg _ => 0 end%Z).
  assert (0 ≤ m')%Z as Hm'.
  { unfold m'. destruct s; try lia. by apply Z.shiftl_nonneg. }
  pose proof (Z.div_pos m' (Zpos m2) Hm' ltac:(lia)) as Hq.
  unfold Z.div in Hq. by destruct (Z.div_eucl m' (Zpos m2)).
Qed.

(** a positive finite divisor: no [0/0] and no [inf/inf]. *)
Definition f64_pos_finite (x : f64) : Prop :=
  match x with S754_finite false _ _ => True | _ => False end.

Lemma f64_div_nonneg x y :
  f64_nonneg x → f64_pos_finite y → f64_nonneg (x / y)%f64.
Proof.
  unfold f64_div.
  destruct x as [[]|[]| |[] mx ex], y as [[]|[]| |[] my ey]; try done.
  intros _ _. cbn [SFdiv xorb].
  pose proof (SFdiv_core_nonneg 53 1024 mx ex my ey) as Hq.
  destruct (SFdiv_core_binary _ _ _ _ _ _) as [[q e] l]; cbn in Hq.
  by apply f64_has_sign_nonneg, binary_round_aux_sign.
Qed.

Lemma f64_round_nonneg x : f64_nonneg x → f64_nonneg (f64_round x).
Proof.
  destruct x as [[]|[]| |[] m e]; try done. intros _. cbn.
  destruct (0 <=? e)%Z eqn:He; [done|].
  apply Z.leb_gt in He.
  destruct (_ =? 0)%Z; [done|]. apply f64_of_Z_nonneg.
  apply Z.div_pos; [|apply Z.pow_pos_nonneg; lia].
  pose proof (Z.pow_nonneg 2 (- e - 1)). lia.
Qed.

Lemma f64_has_sign_not_nan s x : f64_has_sign s x → f64_is_nan x = false.
Proof. by destruct x. Qed.

Lemma binary_normalize_not_nan p emx m e s :
  f64_is_nan (binary_normalize p emx m e s) = false.
Proof.
  unfold binary_normalize. destruct m; [done| |];
    eapply f64_has_sign_not_nan, binary_round_sign.
Qed.

Lemma f64_sub_not_nan x y :
  f64_is_nan x = false → f64_finite y → f64_is_nan (x - y)%f64 = false.
Proof.
  unfold f64_sub.
  destruct x as [[]|[]| |[] mx ex], y as [[]|[]| |[] my ey]; try done; intros _ _;
    apply binary_normalize_not_nan.
Qed.

#[export] Hint Resolve f64_nonneg_not_nan f64_add_nonneg f64_div_nonneg
  f64_round_nonneg : guestkit.

(** ** Order and equality *)
Definition f64_eqb (x y : f64) : bool :=
  match x, y with
  | S754_zero s, S754_zero s' | S754_infinity s, S754_infinity s' => Bool.eqb s s'
  | S754_nan, S754_nan => true
  | S754_finite s m e, S754_finite s' m' e' =>
      Bool.eqb s s' && Pos.eqb m m' && Z.eqb e e'
  | _, _ => false
  end.

Lemma f64_eqb_eq x y : f64_eqb x y = true → x = y.
Proof.
  destruct x, y; cbn; try done; rewrite ?andb_true_iff.
  - by intros ->%Bool.eqb_prop.
  - by intros ->%Bool.eqb_prop.
  - by intros [[->%Bool.eqb_prop ->%Pos.eqb_eq] ->%Z.eqb_eq].
Qed.

Lemma f64_compare_eq_finite s m e y :
  SFcompare (S754_finite s m e) y = Some Eq → y = S754_finite s m e.
Proof.
  destruct y as [[]|[]| |[] m' e'], s; cbn; try done;
    destruct (Z.compare_spec e e') as [->| |]; try done;
    change (Pos.compare_cont Eq m m') with (m ?= m')%positive;
    destruct (Pos.compare_spec m m') as [->| |]; done.
Qed.

Lemma f64_leb_spec_finite m e m' e' :
  (S754_finite false m e <=? S754_finite false m' e')%f64 = true ↔
  (e < e')%Z ∨ (e = e' ∧ (m ≤ m')%positive).
Proof.
  unfold f64_leb, SFleb. cbn.
  change (Pos.compare_cont Eq m m') with (m ?= m')%positive.
  destruct (Z.compare_spec e e') as [->|?|?], (Pos.compare_spec m m') as [->|?|?];
    split; try done; try lia.
Qed.

(** transitivity, on the numbers a score can be. *)
Lemma f64_leb_trans x y z :
  f64_nonneg x → f64_nonneg y → f64_nonneg z →
  (x <=? y)%f64 = true → (y <=? z)%f64 = true → (x <=? z)%f64 = true.
Proof.
  destruct x as [sx|[]| |[] mx ex], y as [sy|[]| |[] my ey], z as [sz|[]| |[] mz ez];
    cbn [f64_nonneg]; intros ? ? ?; try done.
  rewrite !f64_leb_spec_finite. lia.
Qed.

Lemma f64_clamp_nonneg x lo hi :
  f64_nonneg x → f64_nonneg lo → f64_nonneg hi → f64_nonneg (f64_clamp x lo hi).
Proof.
  intros ? ? ?. unfold f64_clamp.
  destruct (x <? lo)%f64; by destruct (hi <? _)%f64.
Qed.

Lemma f64_leb_ltb_trans x y z :
  f64_nonneg x → f64_nonneg y → f64_nonneg z →
  (x <=? y)%f64 = true → (y <? z)%f64 = true → (x <? z)%f64 = true.
Proof.
  intros Hx Hy Hz Hxy Hyz. apply f64_leb_false; auto with guestkit.
  destruct (z <=? x)%f64 eqn:E; [|done].
  pose proof (f64_leb_trans z x y Hz Hx Hy E Hxy) as Hzy.
  by rewrite (f64_ltb_leb_excl _ _ Hyz) in Hzy.
Qed.

Lemma f64_le_nonneg x : (f64_of_Z 0 <=? x)%f64 = true → f64_nonneg x.
Proof. by destruct x as [[]|[]| |[]]. Qed.
