(* ===== verification/F64Int.v ===== *)
(** * binary64 numbers below an integer

    A correctly rounded operation does not step over a representable number.
    [le_int x K] says that [x] is a positive number or zero, of value at most the
    integer [K]; the sum, the product and the quotient of such numbers stay below
    the sum, the product and the quotient of their bounds although they are
    rounded, and [f64::round] brings them to an integer between 0 and the bound. *)
From stdpp Require Import base list.
From Stdlib Require Import ZArith SpecFloat Lia.
From S2P Require Import Prelude F64.
#[local] Open Scope Z_scope.

Definition int_range : Z := 2 ^ 50.

Definition le_int (x : f64) (K : Z) : Prop :=
  match x with
  | S754_zero false => True
  | S754_finite false m e => e < 0 ∧ Zpos m ≤ K * 2 ^ (- e)
  | _ => False
  end.

Lemma pow2_split a b : 0 ≤ a → 0 ≤ b → 2 ^ (a + b) = 2 ^ a * 2 ^ b.
Proof. intros. by apply Z.pow_add_r. Qed.

Lemma pow2_pos a : 0 ≤ a → 0 < 2 ^ a.
Proof. intros. by apply Z.pow_pos_nonneg. Qed.

(** ** Digits *)
Lemma digits2_pos_bounds p :
  2 ^ (Zpos (digits2_pos p) - 1) ≤ Zpos p < 2 ^ Zpos (digits2_pos p).
Proof.
  induction p as [p IH|p IH|]; cbn [digits2_pos]; [| |by cbn];
    rewrite Pos2Z.inj_succ; unfold Z.succ;
    replace (Zpos (digits2_pos p) + 1 - 1) with (1 + (Zpos (digits2_pos p) - 1)) by lia;
    rewrite (Z.add_comm _ 1), !pow2_split by lia; lia.
Qed.

Lemma Zdigits2_le m k : 0 ≤ m → 0 ≤ k → m < 2 ^ k → Zdigits2 m ≤ k.
Proof.
  intros Hm Hk Hlt. destruct m as [|p|p]; cbn; [done| |lia].
  destruct (digits2_pos_bounds p) as [Hlo _].
  destruct (Z.le_gt_cases (Zpos (digits2_pos p)) k) as [|Hgt]; [done|].
  pose proof (Z.pow_le_mono_r 2 k (Zpos (digits2_pos p) - 1)). lia.
Qed.

(** ** Shifting out digits *)
Definition up (r : shr_record) : Z :=
  shr_m r + (if shr_r r || shr_s r then 1 else 0).

Lemma up_shr_1 r K : 0 ≤ shr_m r → up r ≤ 2 * K → up (shr_1 r) ≤ K.
Proof.
  destruct r as [m r s]; unfold up; cbn. intros Hm.
  destruct m as [|[p|p|]|p]; cbn; destruct r, s; cbn; lia.
Qed.

Lemma up_iter p : ∀ r K, 0 ≤ shr_m r → up r ≤ 2 ^ Zpos p * K →
  up (iter_pos shr_1 p r) ≤ K.
Proof.
  induction p as [p IH|p IH|]; intros r K Hm Hr; cbn [iter_pos].
  - apply IH; [apply iter_shr_1_nonneg; by apply shr_1_nonneg|].
    apply IH; [by apply shr_1_nonneg|]. apply up_shr_1; [done|].
    replace (Zpos p~1) with (1 + (Zpos p + Zpos p)) in Hr by lia.
    rewrite !pow2_split in Hr by lia. lia.
  - apply IH; [by apply iter_shr_1_nonneg|]. apply IH; [done|].
    replace (Zpos p~0) with (Zpos p + Zpos p) in Hr by lia.
    rewrite !pow2_split in Hr by lia. lia.
  - by apply up_shr_1.
Qed.

Lemma up_of_loc m l :
  up (shr_record_of_loc m l) = m + match l with loc_Exact => 0 | _ => 1 end.
Proof. by destruct l as [|[]]. Qed.

Lemma shr_m_of_loc m l : shr_m (shr_record_of_loc m l) = m.
Proof. by destruct l as [|[]]. Qed.

Lemma round_le_up r : round_nearest_even (shr_m r) (loc_of_shr_record r) ≤ up r.
Proof. destruct r as [m [] []]; unfold up; cbn; try destruct (Z.even m); lia. Qed.

Lemma fexp_neg m e K :
  0 ≤ m → e < 0 → K ≤ int_range → m ≤ K * 2 ^ (- e) → fexp 53 1024 (Zdigits2 m + e) < 0.
Proof.
  intros Hm He HK Hle. unfold fexp, emin, int_range in *.
  assert (Zdigits2 m ≤ 51 - e); [|lia]. apply Zdigits2_le; [done|lia|].
  replace (51 - e) with (1 + 50 + - e) by lia. rewrite !pow2_split by lia.
  pose proof (pow2_pos (- e)). nia.
Qed.

Lemma shr_fexp_le m e l K :
  0 ≤ m → e < 0 → 0 ≤ K ≤ int_range → up (shr_record_of_loc m l) ≤ K * 2 ^ (- e) →
  let '(r, e') := shr_fexp 53 1024 m e l in e' < 0 ∧ up r ≤ K * 2 ^ (- e').
Proof.
  intros Hm He HK Hup. unfold shr_fexp, shr.
  assert (m ≤ K * 2 ^ (- e)) as Hle.
  { rewrite up_of_loc in Hup. destruct l; lia. }
  pose proof (fexp_neg m e K Hm He ltac:(lia) Hle) as Hf.
  destruct (fexp 53 1024 (Zdigits2 m + e) - e) as [|p|p] eqn:Hn; [done| |done].
  split; [lia|]. apply up_iter; [by rewrite shr_m_of_loc|].
  replace (- e) with (Zpos p + - (e + Zpos p)) in Hup by lia.
  rewrite pow2_split in Hup by lia. lia.
Qed.

(** ** Rounding *)
Lemma binary_round_aux_le m e l K :
  0 ≤ m → e < 0 → 0 ≤ K ≤ int_range → up (shr_record_of_loc m l) ≤ K * 2 ^ (- e) →
  le_int (binary_round_aux 53 1024 false m e l) K.
Proof.
  intros Hm He HK Hup. unfold binary_round_aux.
  pose proof (shr_fexp_le m e l K Hm He HK Hup) as H1.
  pose proof (shr_fexp_nonneg 53 1024 m e l Hm) as Hn1.
  destruct (shr_fexp 53 1024 m e l) as [r1 e1]; cbn in Hn1. destruct H1 as [He1 H1].
  set (m1 := round_nearest_even _ _).
  assert (0 ≤ m1) as Hm1 by (by apply round_nearest_even_nonneg).
  pose proof (shr_fexp_le m1 e1 loc_Exact K Hm1 He1 HK) as H2.
  pose proof (shr_fexp_nonneg 53 1024 m1 e1 loc_Exact Hm1) as Hn2.
  destruct (shr_fexp 53 1024 m1 e1 loc_Exact) as [r2 e2]; cbn in Hn2.
  destruct H2 as [He2 H2].
  { rewrite up_of_loc. pose proof (round_le_up r1). fold m1 in H. lia. }
  assert (shr_m r2 ≤ K * 2 ^ (- e2)) as Hr2.
  { unfold up in H2. destruct (shr_r r2 || shr_s r2); lia. }
  destruct (shr_m r2) as [|p|p]; [done| |lia].
  rewrite (proj2 (Z.leb_le _ _)) by lia. done.
Qed.

Lemma iter_xO m d : Zpos (Pos.iter xO m d) = Zpos m * 2 ^ Zpos d.
Proof.
  induction d as [|d IH] using Pos.peano_ind; [cbn; lia|].
  rewrite Pos.iter_succ, Pos2Z.inj_succ, Z.pow_succ_r by lia. lia.
Qed.

Lemma shl_align_val m e e' :
  let '(m1, e1) := shl_align m e e' in
  e1 = Z.min e e' ∧ Zpos m1 = Zpos m * 2 ^ (e - e1).
Proof.
  unfold shl_align. destruct (e' - e) as [|d|d] eqn:Hd.
  - split; [lia|]. rewrite Z.sub_diag. lia.
  - split; [lia|]. rewrite Z.sub_diag. lia.
  - split; [lia|]. rewrite iter_xO. do 2 f_equal. lia.
Qed.

Lemma binary_round_le m e K :
  e ≤ 0 → 0 ≤ K ≤ int_range → Zpos m ≤ K * 2 ^ (- e) →
  le_int (binary_round 53 1024 false m e) K.
Proof.
  intros He HK Hm. unfold binary_round.
  set (f := fexp 53 1024 (Zpos (digits2_pos m) + e)).
  assert (f < 0) as Hf.
  { unfold f, fexp, emin, int_range in *.
    assert (Zdigits2 (Zpos m) ≤ 51 - e); [|cbn in *; lia]. apply Zdigits2_le; [done|lia|].
    replace (51 - e) with (1 + 50 + - e) by lia. rewrite !pow2_split by lia.
    pose proof (pow2_pos (- e)). nia. }
  pose proof (shl_align_val m e f) as Ha. destruct (shl_align m e f) as [m1 e1].
  destruct Ha as [-> Hm1]. apply binary_round_aux_le; [lia|lia|done|].
  rewrite up_of_loc, Hm1.
  replace (- Z.min e f) with (- e + (e - Z.min e f)) by lia.
  rewrite pow2_split by lia. pose proof (pow2_pos (e - Z.min e f)). nia.
Qed.

(** ** Operations *)
Lemma le_int_weaken x K L : le_int x K → K ≤ L → le_int x L.
Proof.
  destruct x as [[]| | |[] m e]; try done. intros [He Hm] HL. split; [done|].
  pose proof (pow2_pos (- e)). nia.
Qed.

Lemma le_int_of_Z z : 0 ≤ z ≤ int_range → le_int (f64_of_Z z) z.
Proof.
  intros Hz. unfold f64_of_Z, binary_normalize. destruct z as [|p|p]; [done| |lia].
  apply binary_round_le; [done|done|]. cbn. lia.
Qed.

Lemma le_int_add x y K L :
  le_int x K → le_int y L → 0 ≤ K → 0 ≤ L → K + L ≤ int_range → le_int (x + y)%f64 (K + L).
Proof.
  intros Hx Hy HK HL HKL. unfold f64_add.
  destruct x as [[]| | |[] mx ex], y as [[]| | |[] my ey]; try done; cbn [SFadd].
  - by apply (le_int_weaken _ L); [|lia].
  - by apply (le_int_weaken _ K); [|lia].
  - destruct Hx as [Hex Hx], Hy as [Hey Hy]. cbn [cond_Zopp].
    pose proof (shl_align_val mx ex (Z.min ex ey)) as Hax.
    pose proof (shl_align_val my ey (Z.min ex ey)) as Hay.
    destruct (shl_align mx ex (Z.min ex ey)) as [a ea], (shl_align my ey (Z.min ex ey)) as [b eb].
    destruct Hax as [-> Ha], Hay as [-> Hb]. cbn [fst]. rewrite <-Pos2Z.inj_add.
    cbn [binary_normalize]. apply binary_round_le; [lia|lia|].
    rewrite Pos2Z.inj_add, Ha, Hb.
    replace (Z.min ex (Z.min ex ey)) with (Z.min ex ey) by lia.
    replace (Z.min ey (Z.min ex ey)) with (Z.min ex ey) by lia. set (e := Z.min ex ey).
    assert (2 ^ (- e) = 2 ^ (- ex) * 2 ^ (ex - e)) as E1.
    { rewrite <-pow2_split by lia. f_equal. lia. }
    assert (2 ^ (- e) = 2 ^ (- ey) * 2 ^ (ey - e)) as E2.
    { rewrite <-pow2_split by lia. f_equal. lia. }
    pose proof (pow2_pos (ex - e)). pose proof (pow2_pos (ey - e)).
    rewrite Z.mul_add_distr_r. apply Z.add_le_mono; [rewrite E1|rewrite E2]; nia.
Qed.

Lemma le_int_mul x y K L :
  le_int x K → le_int y L → 0 ≤ K → 0 ≤ L → K * L ≤ int_range → le_int (x * y)%f64 (K * L).
Proof.
  intros Hx Hy HK HL HKL. unfold f64_mul.
  destruct x as [[]| | |[] mx ex], y as [[]| | |[] my ey]; try done; cbn [SFmul xorb].
  destruct Hx as [Hex Hx], Hy as [Hey Hy].
  apply binary_round_aux_le; [lia|lia|nia|]. rewrite up_of_loc, Z.add_0_r, Pos2Z.inj_mul.
  replace (- (ex + ey)) with (- ex + - ey) by lia. rewrite pow2_split by lia.
  replace (K * L * (2 ^ (- ex) * 2 ^ (- ey))) with (K * 2 ^ (- ex) * (L * 2 ^ (- ey))) by ring.
  apply Z.mul_le_mono_nonneg; lia.
Qed.

Lemma le_int_finite x K : le_int x K → f64_finite x.
Proof. by destruct x as [[]| | |[]]. Qed.

(** [x] is the integer [K] in binary64. *)
Definition is_int (x : f64) (K : Z) : Prop :=
  match x with
  | S754_finite false m e => e < 0 ∧ Zpos m = K * 2 ^ (- e)
  | _ => False
  end.

Lemma new_location_up q n r :
  0 ≤ r → up (shr_record_of_loc q (new_location n r)) = q + (if r =? 0 then 0 else 1).
Proof.
  intros Hr. rewrite up_of_loc. unfold new_location, new_location_even, new_location_odd.
  destruct (Z.even n), (r =? 0); done.
Qed.

Lemma le_int_div x y K : le_int x K → is_int y K → 0 < K → le_int (x / y)%f64 1.
Proof.
  intros Hx Hy HK. unfold f64_div.
  destruct x as [[]| | |[] m1 e1], y as [[]| | |[] m2 e2]; try done.
  destruct Hx as [He1 H1], Hy as [He2 H2]. cbn [SFdiv xorb]. unfold SFdiv_core_binary.
  set (d := Zdigits2 (Zpos m1) + e1 - (Zdigits2 (Zpos m2) + e2)).
  assert (d ≤ 0) as Hd.
  { destruct (digits2_pos_bounds m2) as [_ Hm2].
    assert (- e2 < Zpos (digits2_pos m2)) as Hk.
    { apply (Z.pow_lt_mono_r_iff 2); [lia|lia|]. pose proof (pow2_pos (- e2)). nia. }
    assert (K < 2 ^ (Zpos (digits2_pos m2) + e2)) as HK'.
    { replace (Zpos (digits2_pos m2)) with (- e2 + (Zpos (digits2_pos m2) + e2)) in Hm2 by lia.
      rewrite pow2_split in Hm2 by lia. pose proof (pow2_pos (- e2)). nia. }
    unfold d. assert (Zdigits2 (Zpos m1) ≤ (Zpos (digits2_pos m2) + e2) + - e1);
      [|cbn in *; lia].
    apply Zdigits2_le; [lia|lia|]. rewrite pow2_split by lia. pose proof (pow2_pos (- e1)). nia. }
  set (e := Z.min (fexp 53 1024 d) (e1 - e2)).
  assert (e < 0) as He by (unfold e, fexp, emin; lia).
  set (s := e1 - e2 - e). assert (0 ≤ s) as Hs by (unfold s, e; lia).
  replace (match s with 0 => Zpos m1 | Zpos _ => Z.shiftl (Zpos m1) s | Zneg _ => 0 end)
    with (Zpos m1 * 2 ^ s); cycle 1.
  { destruct s; [lia|by rewrite Z.shiftl_mul_pow2|lia]. }
  pose proof (Z_div_mod (Zpos m1 * 2 ^ s) (Zpos m2) ltac:(lia)) as Hq.
  destruct (Z.div_eucl (Zpos m1 * 2 ^ s) (Zpos m2)) as [q r]. destruct Hq as [Hq Hr].
  assert (Zpos m1 * 2 ^ s ≤ Zpos m2 * 2 ^ (- e)) as Hle.
  { rewrite H2. transitivity (K * 2 ^ (- e1) * 2 ^ s); [pose proof (pow2_pos s); nia|].
    apply Z.eq_le_incl. rewrite <-!Z.mul_assoc, <-!pow2_split by lia.
    do 2 f_equal. unfold s. lia. }
  pose proof (pow2_pos s Hs).
  apply binary_round_aux_le; [nia|done|unfold int_range; lia|].
  rewrite new_location_up, Z.mul_1_l by lia. destruct (Z.eqb_spec r 0); nia.
Qed.

(** [f64::round]. *)
Lemma le_int_round x K :
  le_int x K → 0 ≤ K → ∃ z, 0 ≤ z ≤ K ∧ f64_round x = f64_of_Z z.
Proof.
  destruct x as [[]| | |[] m e]; try done; intros Hx HK.
  { exists 0. split; [lia|done]. }
  destruct Hx as [He Hm]. cbn [f64_round]. rewrite (proj2 (Z.leb_gt _ _)) by done.
  set (q := (Zpos m + 2 ^ (- e - 1)) / 2 ^ (- e)).
  assert (2 ^ (- e) = 2 * 2 ^ (- e - 1)) as E.
  { rewrite <-Z.pow_succ_r by lia. f_equal. lia. }
  pose proof (pow2_pos (- e - 1) ltac:(lia)) as Hp.
  exists q. assert (0 ≤ q ≤ K) as Hq.
  { unfold q. split; [apply Z.div_pos; lia|].
    apply Z.lt_succ_r, Z.div_lt_upper_bound; lia. }
  split; [done|]. destruct (Z.eqb_spec q 0) as [->|]; done.
Qed.

(** ** Small integers are exact *)
Lemma small_ints_exact :
  forallb (fun z => match f64_of_Z z with
    | S754_finite false m e => (e <? 0) && (Zpos m =? z * 2 ^ (- e))
    | _ => false end) (seqZ 1 120) = true.
Proof. vm_cast_no_check (eq_refl true). Qed.

Lemma is_int_of_Z z : 1 ≤ z ≤ 120 → is_int (f64_of_Z z) z.
Proof.
  intros Hz. pose proof (proj1 (forallb_elem_of _ _) small_ints_exact z) as H.
  cbv beta in H. specialize (H ltac:(apply elem_of_seqZ; lia)).
  destruct (f64_of_Z z) as [| | |[] m e]; try done. cbn. bool_solve. lia.
Qed.

Lemma small_sums_exact :
  forallb (fun a => forallb (fun b =>
    f64_eqb (f64_of_Z a + f64_of_Z b)%f64 (f64_of_Z (a + b))) (seqZ 0 41)) (seqZ 0 121) = true.
Proof. vm_cast_no_check (eq_refl true). Qed.

Lemma f64_of_Z_add a b :
  0 ≤ a ≤ 120 → 0 ≤ b ≤ 40 → (f64_of_Z a + f64_of_Z b)%f64 = f64_of_Z (a + b).
Proof.
  intros Ha Hb. pose proof (proj1 (forallb_elem_of _ _) small_sums_exact a) as H.
  cbv beta in H. specialize (H ltac:(apply elem_of_seqZ; lia)).
  rewrite forallb_elem_of in H. specialize (H b ltac:(apply elem_of_seqZ; lia)).
  by apply f64_eqb_eq.
Qed.
