(* ===== verification/Evidence.v ===== *)
(** * The evidence snapshot

    [src/evidence/snapshot.rs]: what the collectors read from a guest disk, the
    only input of the boot and migration engines.  Every struct is a record and
    every enum an inductive type, field by field in the source's order; a
    field's name carries a short prefix of its struct ([fe_device] is
    [FstabEntry::device]) because record projections share one name space.
    Integers are [Z], [f32] is a binary float, and serde_json's [Value] is the
    platform's [json_value].  [default_X] is the derived [Default]. *)
From stdpp Require Import base gmap strings list.
From Stdlib Require Import ZArith SpecFloat Ascii.
From S2P Require Import Prelude RustStr.

Definition SCHEMA_VERSION : Z := 5.

Record OsEvidence : Type := mk_OsEvidence {
  os_os_type : string;
  os_distribution : string;
  os_version : string;
  os_architecture : string;
  os_hostname : string;
  os_init_system : string;
  os_package_manager : string
}.
Definition default_OsEvidence : OsEvidence :=
  mk_OsEvidence EmptyString EmptyString EmptyString EmptyString EmptyString
    EmptyString EmptyString.

Record FstabEntry : Type := mk_FstabEntry {
  fe_device : string;
  fe_mountpoint : string;
  fe_fstype : string;
  fe_options : string
}.

Record CrypttabEntry : Type := mk_CrypttabEntry {
  ce_name : string;
  ce_device : string;
  ce_keyfile : string
}.

Record PartitionUuid : Type := mk_PartitionUuid {
  pu_device : string;
  pu_uuid : string;
  pu_fstype : string
}.

Record StorageEvidence : Type := mk_StorageEvidence {
  st_fstab_entries : list FstabEntry;
  st_crypttab_entries : list CrypttabEntry;
  st_swap_devices : list string;
  st_root_filesystem : string;
  st_partition_uuids : list PartitionUuid;
  st_free_space_root_mb : option Z;
  st_boot_disk : option string;
  st_disk_controller : option string
}.
Definition default_StorageEvidence : StorageEvidence :=
  mk_StorageEvidence [] [] [] EmptyString [] None None None.

Record BootEvidence : Type := mk_BootEvidence {
  be_bootloader : string;
  be_default_entry : string;
  be_kernel_cmdline : string;
  be_kernel_paths : list string;
  be_initramfs_paths : list string;
  be_efi_present : bool;
  be_grub_cfg_path : option string;
  be_loaded_modules : list string;
  be_pending_relabel : bool;
  be_cloud_init_present : bool;
  be_initramfs_modules : list string;
  be_secure_boot : option bool;
  be_firmware : string;
  be_serial_console_configured : bool
}.
Definition default_BootEvidence : BootEvidence :=
  mk_BootEvidence EmptyString EmptyString EmptyString [] [] false None []
    false false [] None EmptyString false.

Record NetworkInterfaceLive : Type := mk_NetworkInterfaceLive {
  ni_name : string;
  ni_state : string;
  ni_mac : string;
  ni_addresses : list string;
  ni_carrier : bool;
  ni_rx_bytes : option Z;
  ni_tx_bytes : option Z
}.
Definition default_NetworkInterfaceLive : NetworkInterfaceLive :=
  mk_NetworkInterfaceLive EmptyString EmptyString EmptyString [] false None
    None.

Record NetworkEvidence : Type := mk_NetworkEvidence {
  ne_interfaces : list string;
  ne_dns_servers : list string;
  ne_udev_persistent_net : list string;
  ne_live_interfaces : list NetworkInterfaceLive;
  ne_default_gateway : option string;
  ne_network_stack : string;
  ne_routes : list string
}.
Definition default_NetworkEvidence : NetworkEvidence :=
  mk_NetworkEvidence [] [] [] [] None EmptyString [].

Record PackageEvidence : Type := mk_PackageEvidence {
  pe_count : Z;
  pe_kernels : list string;
  pe_sample_packages : list string
}.
Definition default_PackageEvidence : PackageEvidence :=
  mk_PackageEvidence 0%Z [] [].

Record SecurityEvidence : Type := mk_SecurityEvidence {
  se_selinux : string;
  se_apparmor : bool;
  se_firewall_enabled : bool;
  se_ssh_root_login : option bool;
  se_auditd : bool;
  se_open_ports : list Z;
  se_pending_security_updates : bool
}.
Definition default_SecurityEvidence : SecurityEvidence :=
  mk_SecurityEvidence EmptyString false false None false [] false.

Record VmToolsEvidence : Type := mk_VmToolsEvidence {
  vt_detected : list string
}.
Definition default_VmToolsEvidence : VmToolsEvidence :=
  mk_VmToolsEvidence [].

Inductive SystemdUnitState : Set :=
  | UnitDisabled | UnitEnabled | UnitMasked | UnitStatic.
Definition default_SystemdUnitState : SystemdUnitState := UnitDisabled.

Record SystemdUnitSection : Type := mk_SystemdUnitSection {
  sus_name : string;
  sus_keys : gmap string string
}.
Definition default_SystemdUnitSection : SystemdUnitSection :=
  mk_SystemdUnitSection EmptyString ∅.

Record SystemdUnit : Type := mk_SystemdUnit {
  su_name : string;
  su_unit_type : string;
  su_path : string;
  su_state : SystemdUnitState;
  su_description : option string;
  su_exec_start : option string;
  su_service_type : option string;
  su_restart : option string;
  su_remain_after_exit : option bool;
  su_user : option string;
  su_group : option string;
  su_after : list string;
  su_before : list string;
  su_requires : list string;
  su_wants : list string;
  su_wanted_by : list string;
  su_on_calendar : option string;
  su_sections : list SystemdUnitSection
}.
Definition default_SystemdUnit : SystemdUnit :=
  mk_SystemdUnit EmptyString EmptyString EmptyString
    default_SystemdUnitState None None None None None None None [] [] [] []
    [] None [].

Inductive SystemdProblemSeverity : Set :=
  | HintInfo | HintWarning | HintCritical.

Record SystemdProblemHint : Type := mk_SystemdProblemHint {
  sph_unit : string;
  sph_code : string;
  sph_severity : SystemdProblemSeverity;
  sph_message : string;
  sph_path : string
}.

Record SystemdBootTimestamps : Type := mk_SystemdBootTimestamps {
  sbt_firmware_us : option Z;
  sbt_loader_us : option Z;
  sbt_kernel_us : option Z;
  sbt_initrd_us : option Z;
  sbt_userspace_us : option Z;
  sbt_finish_us : option Z;
  sbt_security_start_us : option Z;
  sbt_security_finish_us : option Z;
  sbt_units_load_start_us : option Z;
  sbt_units_load_finish_us : option Z
}.
Definition default_SystemdBootTimestamps : SystemdBootTimestamps :=
  mk_SystemdBootTimestamps None None None None None None None None None
    None.

Record SystemdManagerInfo : Type := mk_SystemdManagerInfo {
  sm_system_state : string;
  sm_n_failed_units : Z;
  sm_n_jobs : Z;
  sm_architecture : string;
  sm_virtualization : string;
  sm_boot_timestamps : SystemdBootTimestamps
}.
Definition default_SystemdManagerInfo : SystemdManagerInfo :=
  mk_SystemdManagerInfo EmptyString 0%Z 0%Z EmptyString EmptyString
    default_SystemdBootTimestamps.

Record SystemdRuntimeUnit : Type := mk_SystemdRuntimeUnit {
  sru_name : string;
  sru_description : string;
  sru_load_state : string;
  sru_active_state : string;
  sru_sub_state : string;
  sru_unit_file_state : string;
  sru_fragment_path : string;
  sru_main_pid : Z;
  sru_n_restarts : Z;
  sru_exec_main_start_timestamp : option string;
  sru_exec_main_exit_timestamp : option string;
  sru_exec_main_status : option Z;
  sru_cgroup_path : option string;
  sru_following : option string;
  sru_source_path : option string;
  sru_drop_in_paths : list string;
  sru_need_daemon_reload : bool;
  sru_can_start : bool;
  sru_can_stop : bool;
  sru_can_reload : bool;
  sru_control_pid : option Z;
  sru_exec_main_code : option Z;
  sru_restart : option string;
  sru_restart_usec : option Z;
  sru_timeout_start_usec : option Z;
  sru_timeout_stop_usec : option Z;
  sru_watchdog_usec : option Z;
  sru_oom_policy : option string;
  sru_result : option string;
  sru_reload_result : option string;
  sru_clean_result : option string
}.
Definition default_SystemdRuntimeUnit : SystemdRuntimeUnit :=
  mk_SystemdRuntimeUnit EmptyString EmptyString EmptyString EmptyString
    EmptyString EmptyString EmptyString 0%Z 0%Z None None None None None
    None [] false false false false None None None None None None None None
    None None None.

Record SystemdJob : Type := mk_SystemdJob {
  sj_id : Z;
  sj_unit : string;
  sj_job_type : string;
  sj_state : string
}.
Definition default_SystemdJob : SystemdJob :=
  mk_SystemdJob 0%Z EmptyString EmptyString EmptyString.

Record SystemdRuntimeInfo : Type := mk_SystemdRuntimeInfo {
  sr_manager_state : string;
  sr_failed_unit_count : Z;
  sr_manager : option SystemdManagerInfo;
  sr_units : list SystemdRuntimeUnit;
  sr_jobs : list SystemdJob
}.
Definition default_SystemdRuntimeInfo : SystemdRuntimeInfo :=
  mk_SystemdRuntimeInfo EmptyString 0%Z None [] [].

Record SystemdInfo : Type := mk_SystemdInfo {
  sd_version : option string;
  sd_unit_count : Z;
  sd_service_count : Z;
  sd_timer_count : Z;
  sd_units : list SystemdUnit;
  sd_problem_hints : list SystemdProblemHint;
  sd_runtime : option SystemdRuntimeInfo
}.
Definition default_SystemdInfo : SystemdInfo :=
  mk_SystemdInfo None 0%Z 0%Z 0%Z [] [] None.

Record SystemReservedPartition : Type := mk_SystemReservedPartition {
  srp_device : string;
  srp_fstype : string;
  srp_role : string;
  srp_has_bootmgr : bool;
  srp_has_bcd : bool;
  srp_size_bytes : option Z
}.
Definition default_SystemReservedPartition : SystemReservedPartition :=
  mk_SystemReservedPartition EmptyString EmptyString EmptyString false false
    None.

Inductive WindowsStartType : Set :=
  | StartBoot | StartSystem | StartAutomatic | StartManual | StartDisabled | StartUnknown.
Definition default_WindowsStartType : WindowsStartType := StartUnknown.

Inductive WindowsServiceType : Set :=
  | SvcKernelDriver | SvcFileSystemDriver | SvcWin32 | SvcUnknown.
Definition default_WindowsServiceType : WindowsServiceType := SvcUnknown.

Record WindowsServiceEntry : Type := mk_WindowsServiceEntry {
  ws_name : string;
  ws_display_name : option string;
  ws_image_path : option string;
  ws_start_type : WindowsStartType;
  ws_service_type : WindowsServiceType;
  ws_object_name : option string;
  ws_description : option string;
  ws_kernel_driver : bool;
  ws_auto_start : bool
}.
Definition default_WindowsServiceEntry : WindowsServiceEntry :=
  mk_WindowsServiceEntry EmptyString None None default_WindowsStartType
    default_WindowsServiceType None None false false.

Record WindowsAppEntry : Type := mk_WindowsAppEntry {
  wa_name : string;
  wa_version : string;
  wa_publisher : string;
  wa_install_location : option string
}.
Definition default_WindowsAppEntry : WindowsAppEntry :=
  mk_WindowsAppEntry EmptyString EmptyString EmptyString None.

Record WindowsPersistenceEntry : Type := mk_WindowsPersistenceEntry {
  wpe_location : string;
  wpe_name : string;
  wpe_command : string
}.
Definition default_WindowsPersistenceEntry : WindowsPersistenceEntry :=
  mk_WindowsPersistenceEntry EmptyString EmptyString EmptyString.

Record WindowsPersistenceEvidence : Type := mk_WindowsPersistenceEvidence {
  wp_run_keys : list WindowsPersistenceEntry;
  wp_scheduled_tasks : list string
}.
Definition default_WindowsPersistenceEvidence : WindowsPersistenceEvidence :=
  mk_WindowsPersistenceEvidence [] [].

Record WindowsForensicEvent : Type := mk_WindowsForensicEvent {
  wfe_event_id : Z;
  wfe_channel : string;
  wfe_source : string;
  wfe_level : string;
  wfe_time_created : string;
  wfe_summary : string
}.

Record WindowsForensicProfile : Type := mk_WindowsForensicProfile {
  wf_failed_logons : Z;
  wf_successful_logons : Z;
  wf_service_failures : Z;
  wf_unexpected_shutdowns : Z;
  wf_privilege_escalations : Z;
  wf_suspicious_event_ids : list Z;
  wf_recent_critical : list WindowsForensicEvent
}.
Definition default_WindowsForensicProfile : WindowsForensicProfile :=
  mk_WindowsForensicProfile 0%Z 0%Z 0%Z 0%Z 0%Z [] [].

Record WindowsEventLogSummary : Type := mk_WindowsEventLogSummary {
  wl_log_count : Z;
  wl_total_bytes : Z;
  wl_forensic : option WindowsForensicProfile
}.
Definition default_WindowsEventLogSummary : WindowsEventLogSummary :=
  mk_WindowsEventLogSummary 0%Z 0%Z None.

Record WindowsDriverEntry : Type := mk_WindowsDriverEntry {
  wd_name : string;
  wd_version : option string;
  wd_start_type : string;
  wd_boot_critical : bool;
  wd_present : bool;
  wd_sys_present : option bool
}.
Definition default_WindowsDriverEntry : WindowsDriverEntry :=
  mk_WindowsDriverEntry EmptyString None EmptyString false false None.

Record WindowsHotfixEntry : Type := mk_WindowsHotfixEntry {
  wh_kb : string;
  wh_source : string;
  wh_title : option string
}.
Definition default_WindowsHotfixEntry : WindowsHotfixEntry :=
  mk_WindowsHotfixEntry EmptyString EmptyString None.

Record BitLockerVolume : Type := mk_BitLockerVolume {
  blv_mount_point : string;
  blv_protection : string;
  blv_source : option string
}.
Definition default_BitLockerVolume : BitLockerVolume :=
  mk_BitLockerVolume EmptyString EmptyString None.

Record BitLockerState : Type := mk_BitLockerState {
  bl_any_protected : bool;
  bl_offline_uncertain : bool;
  bl_volumes : list BitLockerVolume
}.
Definition default_BitLockerState : BitLockerState :=
  mk_BitLockerState false false [].

Record VssHealth : Type := mk_VssHealth {
  vs_writers_total : Z;
  vs_writers_failed : list string;
  vs_healthy : bool;
  vs_offline_inferred : bool
}.
Definition default_VssHealth : VssHealth :=
  mk_VssHealth 0%Z [] false false.

Record GhostNicEntry : Type := mk_GhostNicEntry {
  gn_instance_id : string;
  gn_description : string
}.
Definition default_GhostNicEntry : GhostNicEntry :=
  mk_GhostNicEntry EmptyString EmptyString.

Record WindowsNicConfig : Type := mk_WindowsNicConfig {
  wn_name : string;
  wn_mac : string;
  wn_ip_addresses : list string;
  wn_gateway : option string;
  wn_dns : list string;
  wn_dhcp : bool
}.
Definition default_WindowsNicConfig : WindowsNicConfig :=
  mk_WindowsNicConfig EmptyString EmptyString [] None [] false.

Record ActivationInfo : Type := mk_ActivationInfo {
  ai_licensed : bool;
  ai_channel : string;
  ai_product_id : option string;
  ai_edition_id : option string
}.
Definition default_ActivationInfo : ActivationInfo :=
  mk_ActivationInfo false EmptyString None None.

Record WindowsEvidence : Type := mk_WindowsEvidence {
  we_systemroot : string;
  we_product_name : string;
  we_version : string;
  we_domain_joined : bool;
  we_domain_name : option string;
  we_rdp_enabled : bool;
  we_pending_reboot : bool;
  we_bitlocker_detected : bool;
  we_installed_apps_count : Z;
  we_services_count : Z;
  we_drivers_count : Z;
  we_hypervisor_remnants : list string;
  we_av_edr : list string;
  we_minidump_count : Z;
  we_bcd_store_found : bool;
  we_bootmgr_found : bool;
  we_system_reserved : option SystemReservedPartition;
  we_services : list WindowsServiceEntry;
  we_installed_apps : list WindowsAppEntry;
  we_persistence : WindowsPersistenceEvidence;
  we_event_logs : WindowsEventLogSummary;
  we_virtio_drivers : list WindowsDriverEntry;
  we_hotfixes : list WindowsHotfixEntry;
  we_hotfix_count : Z;
  we_hf_mig_present : bool;
  we_bitlocker : option BitLockerState;
  we_vss : option VssHealth;
  we_ghost_nics : list GhostNicEntry;
  we_static_nic_configs : list WindowsNicConfig;
  we_driver_signature_enforcement : option bool;
  we_esp_present : option bool;
  we_activation : option ActivationInfo
}.
Definition default_WindowsEvidence : WindowsEvidence :=
  mk_WindowsEvidence EmptyString EmptyString EmptyString false None false
    false false 0%Z 0%Z 0%Z [] [] 0%Z false false None [] []
    default_WindowsPersistenceEvidence default_WindowsEventLogSummary [] []
    0%Z false None None [] [] None None None.

Record VirtioDiskEntry : Type := mk_VirtioDiskEntry {
  vd_device : string;
  vd_serial : string;
  vd_mountpoints : list string
}.
Definition default_VirtioDiskEntry : VirtioDiskEntry :=
  mk_VirtioDiskEntry EmptyString EmptyString [].

Record KubevirtEvidence : Type := mk_KubevirtEvidence {
  kv_hostname : string;
  kv_virtio_channel_present : bool;
  kv_virtio_channel_path : string;
  kv_cloud_init_config_present : bool;
  kv_config_drive_mounted : bool;
  kv_agent_service_active : bool;
  kv_guestkit_version : string;
  kv_virtio_disks : list VirtioDiskEntry
}.
Definition default_KubevirtEvidence : KubevirtEvidence :=
  mk_KubevirtEvidence EmptyString false EmptyString false false false
    EmptyString [].

Record CloudInitEvidence : Type := mk_CloudInitEvidence {
  ci_installed : bool;
  ci_status : string;
  ci_datasource : string;
  ci_boot_finished : bool;
  ci_errors : list string;
  ci_last_log_line : option string
}.
Definition default_CloudInitEvidence : CloudInitEvidence :=
  mk_CloudInitEvidence false EmptyString EmptyString false [] None.

Record NetworkProbeEvidence : Type := mk_NetworkProbeEvidence {
  np_dns_servers : list string;
  np_cluster_dns_reachable : bool;
  np_api_service_reachable : bool;
  np_internet_reachable : bool;
  np_probe_details : list string
}.
Definition default_NetworkProbeEvidence : NetworkProbeEvidence :=
  mk_NetworkProbeEvidence [] false false false [].

Record SnapshotReadinessEvidence : Type := mk_SnapshotReadinessEvidence {
  sn_fs_frozen : bool;
  sn_guest_agent_connected : bool;
  sn_quiesce_supported : bool;
  sn_fstrim_recommended : bool;
  sn_notes : list string
}.
Definition default_SnapshotReadinessEvidence : SnapshotReadinessEvidence :=
  mk_SnapshotReadinessEvidence false false false false [].

Record ProcessSummary : Type := mk_ProcessSummary {
  ps_pid : Z;
  ps_name : string;
  ps_cpu_percent : spec_float;
  ps_memory_kb : Z;
  ps_state : string;
  ps_unit : option string
}.
Definition default_ProcessSummary : ProcessSummary :=
  mk_ProcessSummary 0%Z EmptyString (S754_zero false) 0%Z EmptyString None.

Record ListeningPort : Type := mk_ListeningPort {
  lp_port : Z;
  lp_pid : Z;
  lp_process : string;
  lp_unit : option string
}.
Definition default_ListeningPort : ListeningPort :=
  mk_ListeningPort 0%Z 0%Z EmptyString None.

Record ProcessEvidence : Type := mk_ProcessEvidence {
  pr_top_cpu : list ProcessSummary;
  pr_top_memory : list ProcessSummary;
  pr_zombie_count : Z;
  pr_d_state_count : Z;
  pr_listening_ports : list ListeningPort;
  pr_pressure_cpu : option string;
  pr_pressure_memory : option string;
  pr_pressure_io : option string
}.
Definition default_ProcessEvidence : ProcessEvidence :=
  mk_ProcessEvidence [] [] 0%Z 0%Z [] None None None.

Record HardwareEvidence : Type := mk_HardwareEvidence {
  hw_dmi_manufacturer : string;
  hw_dmi_product : string;
  hw_dmi_uuid : string;
  hw_machine_id : string;
  hw_virtio_net_count : Z;
  hw_virtio_blk_count : Z;
  hw_block_devices : list string;
  hw_zeus_vm_uid : option string
}.
Definition default_HardwareEvidence : HardwareEvidence :=
  mk_HardwareEvidence EmptyString EmptyString EmptyString EmptyString 0%Z
    0%Z [] None.

Record LinuxMigrationEvidence : Type := mk_LinuxMigrationEvidence {
  lm_predictable_nic_names : option bool;
  lm_static_ip_configs : list string;
  lm_hypervisor_modules : list string
}.
Definition default_LinuxMigrationEvidence : LinuxMigrationEvidence :=
  mk_LinuxMigrationEvidence None [] [].

Record EvidenceSnapshot `{Platform} : Type := mk_EvidenceSnapshot {
  ev_schema_version : Z;
  ev_image_path : string;
  ev_collected_at : string;
  ev_root : string;
  ev_os : OsEvidence;
  ev_storage : StorageEvidence;
  ev_boot : BootEvidence;
  ev_network : NetworkEvidence;
  ev_packages : PackageEvidence;
  ev_security : SecurityEvidence;
  ev_vm_tools : VmToolsEvidence;
  ev_systemd : option SystemdInfo;
  ev_windows : option WindowsEvidence;
  ev_kubevirt : option KubevirtEvidence;
  ev_cloud_init : option CloudInitEvidence;
  ev_network_probes : option NetworkProbeEvidence;
  ev_snapshot_readiness : option SnapshotReadinessEvidence;
  ev_process : option ProcessEvidence;
  ev_hardware : option HardwareEvidence;
  ev_linux_migration : option LinuxMigrationEvidence;
  ev_online_cache : option json_value
}.

(** [EvidenceSnapshot::get_field]. *)
Definition get_field `{Platform} (self : EvidenceSnapshot) (path : string)
    : option string :=
  match split_char "."%char path with
  | ["os"; "distribution"] => Some (os_distribution (ev_os self))
  | ["os"; "version"] => Some (os_version (ev_os self))
  | ["os"; "hostname"] => Some (os_hostname (ev_os self))
  | ["security"; "selinux"] => Some (se_selinux (ev_security self))
  | ["security"; "ssh"; "root_login"] =>
      fmt_bool <$> se_ssh_root_login (ev_security self)
  | ["boot"; "bootloader"] => Some (be_bootloader (ev_boot self))
  | ["packages"; "count"] => Some (fmt_Z (pe_count (ev_packages self)))
  | ["systemd"; "service_count"] =>
      (fun s => fmt_Z (sd_service_count s)) <$> ev_systemd self
  | ["systemd"; "problem_count"] =>
      (fun s => fmt_nat (length (sd_problem_hints s))) <$> ev_systemd self
  | _ => None
  end.

(** A snapshot with nothing collected, to build concrete inputs from. *)
Definition blank_snapshot `{Platform} (os : OsEvidence) (st : StorageEvidence)
    (be : BootEvidence) (vt : VmToolsEvidence) (sd : option SystemdInfo)
    (we : option WindowsEvidence) (lm : option LinuxMigrationEvidence)
    : EvidenceSnapshot :=
  mk_EvidenceSnapshot _ SCHEMA_VERSION "vm.qcow2" "2026-01-01" "/" os st be
    default_NetworkEvidence default_PackageEvidence default_SecurityEvidence
    vt sd we None None None None None None lm None.
