(* ===== verification/BootChecks.v ===== *)
(** * Boot checks

    [src/boot/report.rs] and [src/boot/checks.rs]: the report types and the
    fourteen checks of the boot engine.  The trait [BootCheck] is a record of
    its methods, an [impl] is a value of it, and [all_checks] is the vector of
    trait objects in the source's order. *)
From stdpp Require Import base gmap strings list.
From Stdlib Require Import ZArith SpecFloat Ascii.
From S2P Require Import Prelude RustStr F64 Evidence.

(** ** Report types *)
Inductive CheckSeverity : Set := Blocker | Warning | Info.
#[export] Instance CheckSeverity_eq_dec : EqDecision CheckSeverity.
Proof. solve_decision. Defined.

Record CheckResult : Type := mk_CheckResult {
  cr_id : string;
  cr_name : string;
  cr_passed : bool;
  cr_severity : CheckSeverity;
  cr_message : string;
  cr_weight : f64
}.

Record Finding : Type := mk_Finding {
  fi_check_id : string;
  fi_title : string;
  fi_message : string;
  fi_remediation : option string
}.

Record BootabilityReport : Type := mk_BootabilityReport {
  br_score : f64;
  br_confidence : f64;
  br_target : string;
  br_blockers : list Finding;
  br_warnings : list Finding;
  br_checks : list CheckResult;
  br_summary : string
}.

(** [BootabilityReport::assurance_score_message]. *)
Definition assurance_score_message (self : BootabilityReport) : string :=
  fmt_f64_0 (br_score self) +:+ "% boot assurance score on " +:+ br_target self
  +:+ " (confidence: " +:+ fmt_f64_0 (br_confidence self * f64_of_Z 100)%f64
  +:+ "%)".

Section checks.
Context `{P : Platform}.
Implicit Types evidence : EvidenceSnapshot.

(** The trait: an implementation's id, name, weight and [run]. *)
Record BootCheck : Type := mk_BootCheck {
  bc_id : string;
  bc_name : string;
  bc_weight : f64;
  bc_run : EvidenceSnapshot → string → CheckResult
}.

Definition is_windows_guest evidence : bool :=
  match ev_windows evidence with Some _ => true | None => false end
  || contains "windows" (to_lowercase (os_os_type (ev_os evidence))).

Definition na_windows (id name : string) (weight : f64) : CheckResult :=
  mk_CheckResult id name true Info "Not applicable — Windows guest" weight.

(** [matches!(target, ...)]. *)
Definition one_of (l : list string) (s : string) : bool :=
  existsb (String.eqb s) l.

Definition FstabUuidCheck : BootCheck :=
  let id := "BOOT-001" in
  let name := "Fstab UUID consistency" in
  let weight := f64_of_Z 15 in
  mk_BootCheck id name weight (fun evidence _ =>
    let known_uuids :=
      map (fun p => to_lowercase (pu_uuid p))
        (st_partition_uuids (ev_storage evidence)) in
    let mismatches :=
      map fe_device (List.filter (fun entry =>
        starts_with "UUID=" (fe_device entry) &&
        (let uuid := to_lowercase (trim_start_matches "UUID=" (fe_device entry)) in
         negb (match known_uuids with [] => true | _ => false end)
         && negb (existsb (String.eqb uuid) known_uuids)))
        (st_fstab_entries (ev_storage evidence))) in
    let passed := match mismatches with [] => true | _ => false end in
    mk_CheckResult id name passed
      (if passed then Info else Blocker)
      (if passed then "All fstab UUID references match partition table"
       else "Fstab UUID mismatches: " +:+ join ", " mismatches)
      weight).

Definition CrypttabCheck : BootCheck :=
  let id := "BOOT-002" in
  let name := "Crypttab validation" in
  let weight := f64_of_Z 10 in
  mk_BootCheck id name weight (fun evidence _ =>
    let issues :=
      map (fun e => ce_name e +:+ ":" +:+ ce_device e)
        (List.filter (fun e => is_empty (ce_device e) || is_empty (ce_name e))
          (st_crypttab_entries (ev_storage evidence))) in
    let passed := match issues with [] => true | _ => false end in
    mk_CheckResult id name passed
      (if passed then Info else Blocker)
      (if passed then "Crypttab entries appear valid"
       else "Invalid crypttab entries: " +:+ join ", " issues)
      weight).

Definition InitramfsCheck : BootCheck :=
  let id := "BOOT-003" in
  let name := "Initramfs presence" in
  let weight := f64_of_Z 12 in
  mk_BootCheck id name weight (fun evidence _ =>
    if is_windows_guest evidence then na_windows id name weight
    else
      let boot := ev_boot evidence in
      let has_initramfs :=
        match be_initramfs_paths boot with [] => false | _ => true end in
      let has_kernel :=
        match be_kernel_paths boot with [] => false | _ => true end in
      let passed := has_initramfs && has_kernel in
      mk_CheckResult id name passed
        (if passed then Info else if negb has_kernel then Blocker else Warning)
        (if passed then
           "Found " +:+ fmt_nat (length (be_kernel_paths boot))
           +:+ " kernel(s) and " +:+ fmt_nat (length (be_initramfs_paths boot))
           +:+ " initramfs"
         else if negb has_kernel then "No kernel images found in /boot"
         else "Kernel found but no initramfs detected")
        weight).

Definition GrubConsistencyCheck : BootCheck :=
  let id := "BOOT-004" in
  let name := "GRUB configuration" in
  let weight := f64_of_Z 10 in
  mk_BootCheck id name weight (fun evidence _ =>
    if is_windows_guest evidence then na_windows id name weight
    else
      let boot := ev_boot evidence in
      let has_grub :=
        match be_grub_cfg_path boot with Some _ => true | None => false end
        || contains "grub" (to_lowercase (be_bootloader boot)) in
      let passed := has_grub in
      mk_CheckResult id name passed
        (if passed then Info else Warning)
        (if passed then
           "Bootloader: " +:+ be_bootloader boot +:+ " (default: "
           +:+ be_default_entry boot +:+ ")"
         else "No GRUB configuration detected")
        weight).

Definition EfiCheck : BootCheck :=
  let id := "BOOT-005" in
  let name := "EFI boot support" in
  let weight := f64_of_Z 5 in
  mk_BootCheck id name weight (fun evidence _ =>
    mk_CheckResult id name true Info
      (if be_efi_present (ev_boot evidence) then "EFI system partition detected"
       else "Legacy BIOS boot mode (no EFI partition detected)")
      weight).

(** proprietary VMware Tools, not the OSS open-vm-tools. *)
Definition is_vmware_tools (t : string) : bool :=
  String.eqb t "vmware-tools" || starts_with "vmware-tools-" t.

Definition VirtioReadinessCheck : BootCheck :=
  let id := "BOOT-006" in
  let name := "Virtio driver readiness" in
  let weight := f64_of_Z 15 in
  mk_BootCheck id name weight (fun evidence target =>
    if negb (one_of ["kvm"; "proxmox"; "qemu"; "kubevirt"] target) then
      mk_CheckResult id name true Info "Virtio check skipped for non-KVM target"
        (f64_of_Z 0)
    else
      let modules := be_loaded_modules (ev_boot evidence) in
      let has_virtio_blk := existsb (contains "virtio_blk") modules in
      let has_virtio_net := existsb (contains "virtio_net") modules in
      let has_virtio :=
        has_virtio_blk || has_virtio_net || existsb (contains "virtio") modules in
      let vmware_tools :=
        existsb is_vmware_tools (vt_detected (ev_vm_tools evidence)) in
      let passed := has_virtio || negb vmware_tools in
      mk_CheckResult id name passed
        (if passed then Info else Warning)
        (if has_virtio then "Virtio modules available"
         else if vmware_tools then
           "VMware tools detected but no virtio modules — driver injection may be required"
         else "Virtio modules not detected in module tree")
        weight).

Definition NicRenameCheck : BootCheck :=
  let id := "BOOT-007" in
  let name := "NIC rename prediction" in
  let weight := f64_of_Z 5 in
  mk_BootCheck id name weight (fun evidence target =>
    if negb (one_of ["kvm"; "proxmox"; "cloud"; "kubevirt"] target) then
      mk_CheckResult id name true Info "NIC rename check skipped" (f64_of_Z 0)
    else
      let has_persistent :=
        match ne_udev_persistent_net (ev_network evidence) with
        | [] => false | _ => true end in
      mk_CheckResult id name true Info
        (if has_persistent then
           "Persistent udev net rules present — interface names may change on new hardware"
         else "No persistent net rules — predict ens3/eth0 rename on migration")
        weight).

Definition CloudInitCheck : BootCheck :=
  let id := "BOOT-008" in
  let name := "Cloud-init conflicts" in
  let weight := f64_of_Z 8 in
  mk_BootCheck id name weight (fun evidence _ =>
    if negb (be_cloud_init_present (ev_boot evidence)) then
      mk_CheckResult id name true Info "Cloud-init not configured" weight
    else
      mk_CheckResult id name true Warning
        "Cloud-init present — verify instance-id and datasource on target platform"
        weight).

Definition SelinuxRelabelCheck : BootCheck :=
  let id := "BOOT-009" in
  let name := "SELinux relabel requirement" in
  let weight := f64_of_Z 8 in
  mk_BootCheck id name weight (fun evidence _ =>
    let pending := be_pending_relabel (ev_boot evidence) in
    let needs_relabel :=
      pending || String.eqb (to_lowercase (se_selinux (ev_security evidence)))
                   "enforcing" in
    mk_CheckResult id name (negb pending)
      (if pending then Warning else Info)
      (if pending then
         "/.autorelabel present — first boot will trigger SELinux relabel"
       else if needs_relabel then
         "SELinux enforcing — disk UUID changes may require relabel"
       else "No SELinux relabel pending")
      weight).

Definition VmToolsRemnantsCheck : BootCheck :=
  let id := "BOOT-010" in
  let name := "Hypervisor remnants" in
  let weight := f64_of_Z 7 in
  mk_BootCheck id name weight (fun evidence target =>
    if negb (one_of ["kvm"; "proxmox"; "kubevirt"] target) then
      mk_CheckResult id name true Info "Hypervisor remnant check skipped"
        (f64_of_Z 0)
    else
      let remnants :=
        List.filter (fun t =>
          is_vmware_tools t || contains "hyper-v" t || contains "virtualbox" t)
          (vt_detected (ev_vm_tools evidence)) in
      let win_remnants :=
        match ev_windows evidence with
        | Some w => we_hypervisor_remnants w
        | None => []
        end in
      let all := remnants ++ win_remnants in
      let passed := match all with [] => true | _ => false end in
      mk_CheckResult id name passed
        (if passed then Info else Warning)
        (if passed then "No source hypervisor tools detected"
         else "Hypervisor remnants: " +:+ join ", " all)
        weight).

(** up to three hints, [unit (code)]. *)
Definition hint_sample (hints : list SystemdProblemHint) : string :=
  join ", " (map (fun h => sph_unit h +:+ " (" +:+ sph_code h +:+ ")")
    (take 3 hints)).

Definition hint_has (s : SystemdProblemSeverity) (h : SystemdProblemHint) : bool :=
  match sph_severity h, s with
  | HintInfo, HintInfo | HintWarning, HintWarning
  | HintCritical, HintCritical => true
  | _, _ => false
  end.

Definition SystemdStaticCheck : BootCheck :=
  let id := "BOOT-011" in
  let name := "Systemd static analysis" in
  let weight := f64_of_Z 8 in
  mk_BootCheck id name weight (fun evidence _ =>
    match ev_systemd evidence with
    | None =>
        mk_CheckResult id name true Info "No systemd evidence collected"
          (f64_of_Z 0)
    | Some systemd =>
        let critical := List.filter (hint_has HintCritical) (sd_problem_hints systemd) in
        let warnings := List.filter (hint_has HintWarning) (sd_problem_hints systemd) in
        let no_critical := match critical with [] => true | _ => false end in
        let no_warnings := match warnings with [] => true | _ => false end in
        let passed := no_critical in
        mk_CheckResult id name passed
          (if negb no_critical then Blocker
           else if negb no_warnings then Warning else Info)
          (if negb no_critical then
             fmt_nat (length critical) +:+ " critical systemd issue(s): "
             +:+ hint_sample critical
           else if negb no_warnings then
             fmt_nat (length warnings) +:+ " systemd warning(s): "
             +:+ hint_sample warnings
           else
             "No systemd static issues in " +:+ fmt_Z (sd_unit_count systemd)
             +:+ " units")
          weight
    end).

Definition WindowsEfiBootCheck : BootCheck :=
  let id := "BOOT-012" in
  let name := "Windows EFI boot chain" in
  let weight := f64_of_Z 12 in
  mk_BootCheck id name weight (fun evidence _ =>
    if negb (is_windows_guest evidence) then
      mk_CheckResult id name true Info "Skipped for non-Windows guest" (f64_of_Z 0)
    else
      let windows := ev_windows evidence in
      let esp_present := windows ≫= we_esp_present in
      let system_reserved := windows ≫= we_system_reserved in
      let efi_layout :=
        be_efi_present (ev_boot evidence)
        || default false esp_present
        || match system_reserved with
           | Some s => String.eqb (srp_role s) "esp"
           | None => false
           end in
      let efi_ready := efi_layout && default false (we_bootmgr_found <$> windows) in
      let esp_ok := default efi_layout esp_present in
      let passed := (efi_ready && esp_ok) || negb efi_layout in
      mk_CheckResult id name passed
        (if passed then Info else Blocker)
        (if negb efi_layout then
           "Legacy BIOS boot — EFI bootmgr check not required"
         else if efi_ready && esp_ok then
           match system_reserved with
           | Some sr =>
               if String.eqb (srp_role sr) "esp" then
                 "EFI system partition on " +:+ srp_device sr
                 +:+ " with Windows bootmgr"
               else "EFI system partition and Windows bootmgr present"
           | None => "EFI system partition and Windows bootmgr present"
           end
         else if negb esp_ok then
           "EFI firmware path expected but no ESP / EFI Microsoft Boot volume found"
         else "EFI partition detected but Windows bootmgfw.efi not found")
        weight).

Definition WindowsBcdCheck : BootCheck :=
  let id := "BOOT-013" in
  let name := "Windows BCD store" in
  let weight := f64_of_Z 10 in
  mk_BootCheck id name weight (fun evidence _ =>
    if negb (is_windows_guest evidence) then
      mk_CheckResult id name true Info "Skipped for non-Windows guest" (f64_of_Z 0)
    else
      let windows := ev_windows evidence in
      let systemroot_ok :=
        default false ((fun w => negb (trim_is_empty (we_systemroot w))) <$> windows) in
      let bcd_ok := default false (we_bcd_store_found <$> windows) in
      let pending_reboot := default false (we_pending_reboot <$> windows) in
      let passed := systemroot_ok && bcd_ok in
      mk_CheckResult id name passed
        (if negb passed then Blocker else if pending_reboot then Warning else Info)
        (if negb systemroot_ok then "Windows SYSTEMROOT not detected"
         else if negb bcd_ok then
           "BCD store not found (checked OS volume, EFI Microsoft Boot, and System Reserved)"
         else if pending_reboot then
           match windows ≫= we_system_reserved with
           | Some sr =>
               if srp_has_bcd sr then
                 "BCD on " +:+ srp_device sr +:+ " (" +:+ srp_role sr
                 +:+ "); pending reboot flag set in registry"
               else "BCD store present; pending reboot flag set in registry"
           | None => "BCD store present; pending reboot flag set in registry"
           end
         else
           match windows ≫= we_system_reserved with
           | Some sr =>
               if srp_has_bcd sr then
                 "Windows BCD store located on " +:+ srp_device sr +:+ " ("
                 +:+ srp_role sr +:+ ")"
               else "Windows BCD store located"
           | None => "Windows BCD store located"
           end)
        weight).

Definition WindowsSystemReservedCheck : BootCheck :=
  let id := "BOOT-014" in
  let name := "Windows System Reserved / ESP layout" in
  let weight := f64_of_Z 4 in
  mk_BootCheck id name weight (fun evidence _ =>
    if negb (is_windows_guest evidence) then
      mk_CheckResult id name true Info "Skipped for non-Windows guest" (f64_of_Z 0)
    else
      match ev_windows evidence ≫= we_system_reserved with
      | None =>
          mk_CheckResult id name true Info
            "No separate System Reserved / ESP boot volume (boot files on OS volume or not detected)"
            weight
      | Some sr =>
          let esp := String.eqb (srp_role sr) "esp" in
          let healthy := srp_has_bcd sr && (srp_has_bootmgr sr || esp) in
          mk_CheckResult id name healthy
            (if healthy then Info else Warning)
            (if healthy then
               (if esp then "EFI System Partition" else "System Reserved partition")
               +:+ " on " +:+ srp_device sr +:+ " (" +:+ srp_fstype sr
               +:+ ", bootmgr=" +:+ fmt_bool (srp_has_bootmgr sr)
               +:+ ", BCD=" +:+ fmt_bool (srp_has_bcd sr) +:+ ")"
             else
               "Boot volume " +:+ srp_device sr +:+ " (" +:+ srp_role sr
               +:+ ") incomplete — bootmgr=" +:+ fmt_bool (srp_has_bootmgr sr)
               +:+ " BCD=" +:+ fmt_bool (srp_has_bcd sr)
               +:+ " (multi-partition layout must ship intact)")
            weight
      end).

Definition all_checks : list BootCheck :=
  [FstabUuidCheck; CrypttabCheck; InitramfsCheck; GrubConsistencyCheck; EfiCheck;
   VirtioReadinessCheck; NicRenameCheck; CloudInitCheck; SelinuxRelabelCheck;
   VmToolsRemnantsCheck; SystemdStaticCheck; WindowsEfiBootCheck; WindowsBcdCheck;
   WindowsSystemReservedCheck].
End checks.
