(* ===== verification/BootEngine.v ===== *)
(** * The bootability engine

    [src/boot/engine.rs]: the target names, the loop that tallies the check
    results into blockers, warnings and weights, and the score.  The loop's
    mutable variables are the fields of [tally]; one iteration is [tally_step].
    The theorems are in [BootScore]. *)
From stdpp Require Import base gmap strings list.
From Stdlib Require Import ZArith SpecFloat Lia.
From S2P Require Import Prelude RustStr F64 Evidence BootChecks.

Inductive BootTarget : Set := Generic | Kvm | KubeVirt | Proxmox | HyperV | Cloud.
#[export] Instance BootTarget_eq_dec : EqDecision BootTarget.
Proof. solve_decision. Defined.

(** [BootTarget::parse]. *)
Definition BootTarget_parse `{Platform} (s : string) : BootTarget :=
  let s := to_lowercase s in
  if one_of ["kvm"; "qemu"] s then Kvm
  else if one_of ["kubevirt"] s then KubeVirt
  else if one_of ["proxmox"] s then Proxmox
  else if one_of ["hyperv"; "hyper-v"] s then HyperV
  else if one_of ["cloud"; "aws"; "azure"; "gcp"] s then Cloud
  else Generic.

(** [BootTarget::as_str]. *)
Definition BootTarget_as_str (t : BootTarget) : string :=
  match t with
  | Generic => "generic"
  | Kvm => "kvm"
  | KubeVirt => "kubevirt"
  | Proxmox => "proxmox"
  | HyperV => "hyper-v"
  | Cloud => "cloud"
  end.

Definition remediation_for (check_id : string) : string :=
  if String.eqb check_id "BOOT-001" then
    "Update /etc/fstab UUIDs to match current partition table"
  else if String.eqb check_id "BOOT-002" then
    "Fix /etc/crypttab device references"
  else if String.eqb check_id "BOOT-003" then
    "Regenerate initramfs: dracut --force or update-initramfs -u"
  else if String.eqb check_id "BOOT-004" then
    "Run grub-install and grub-mkconfig"
  else if String.eqb check_id "BOOT-006" then
    "Install virtio drivers and rebuild initramfs before migration"
  else if String.eqb check_id "BOOT-009" then
    "Allow SELinux relabel on first boot or run fixfiles onboot"
  else if String.eqb check_id "BOOT-010" then
    "Remove VMware/Hyper-V guest tools and install qemu-guest-agent"
  else if String.eqb check_id "BOOT-012" then
    "Repair EFI boot chain: verify bootmgfw.efi and run bcdboot from WinPE"
  else if String.eqb check_id "BOOT-013" then
    "Rebuild BCD from WinPE: bcdboot %WINDIR% or bootrec /rebuildbcd"
  else if String.eqb check_id "BOOT-014" then
    "Preserve System Reserved / ESP with the OS disk; do not convert C: alone"
  else "Review check output and apply fix plan".

(** ** The tally loop *)
Record tally : Type := mk_tally {
  tl_blockers : list Finding;
  tl_warnings : list Finding;
  tl_total_weight : f64;
  tl_earned_weight : f64;
  tl_executed : nat
}.

Definition tally_init : tally := mk_tally [] [] (f64_of_Z 0) (f64_of_Z 0) 0.

Definition finding_of (check : CheckResult) : Finding :=
  mk_Finding (cr_id check) (cr_name check) (cr_message check)
    (Some (remediation_for (cr_id check))).

Definition tally_step (s : tally) (check : CheckResult) : tally :=
  if (cr_weight check <=? f64_of_Z 0)%f64 then s
  else
    let executed := S (tl_executed s) in
    let total := (tl_total_weight s + cr_weight check)%f64 in
    if cr_passed check then
      mk_tally (tl_blockers s) (tl_warnings s) total
        (tl_earned_weight s + cr_weight check)%f64 executed
    else
      match cr_severity check with
      | Blocker =>
          mk_tally (tl_blockers s ++ [finding_of check]) (tl_warnings s) total
            (tl_earned_weight s) executed
      | Warning =>
          mk_tally (tl_blockers s) (tl_warnings s ++ [finding_of check]) total
            (tl_earned_weight s + cr_weight check * f64_lit 1 2)%f64 executed
      | Info =>
          mk_tally (tl_blockers s) (tl_warnings s) total
            (tl_earned_weight s + cr_weight check)%f64 executed
      end.

Definition tally_checks (checks : list CheckResult) : tally :=
  foldl tally_step tally_init checks.

Definition score_of_tally (s : tally) : f64 :=
  let no_blockers := match tl_blockers s with [] => true | _ => false end in
  if no_blockers && (f64_of_Z 0 <? tl_total_weight s)%f64 then
    f64_clamp (tl_earned_weight s / tl_total_weight s * f64_of_Z 100)%f64
      (f64_of_Z 0) (f64_of_Z 100)
  else if negb no_blockers then
    f64_clamp (tl_earned_weight s / tl_total_weight s * f64_of_Z 50)%f64
      (f64_of_Z 0) (f64_of_Z 49)
  else f64_of_Z 100.

(** the [if]/[else if] on [executed]; the counter starts at 0. *)
Definition confidence_of (executed : nat) : f64 :=
  if Nat.leb 8 executed then f64_lit 91 100
  else if Nat.leb 5 executed then f64_lit 75 100
  else f64_lit 1 2.

Definition summary_of (s : tally) (score confidence : f64) (target : string) : string :=
  match tl_blockers s with
  | [] =>
      fmt_f64_0 score +:+ "% chance of successful first boot on " +:+ target
      +:+ " (confidence: " +:+ fmt_f64_0 (confidence * f64_of_Z 100)%f64 +:+ "%)"
  | _ =>
      "Boot blocked by " +:+ fmt_nat (length (tl_blockers s))
      +:+ " issue(s). Score: " +:+ fmt_f64_0 score +:+ "% on " +:+ target
  end.

(** the checks run against one snapshot. *)
Definition run_checks `{Platform} (evidence : EvidenceSnapshot) (target : string)
    : list CheckResult :=
  map (fun c => bc_run c evidence target) all_checks.

(** the engine on check results already computed. *)
Definition report_of (checks : list CheckResult) (target_str : string)
    : BootabilityReport :=
  let s := tally_checks checks in
  let score := score_of_tally s in
  let confidence := confidence_of (tl_executed s) in
  mk_BootabilityReport score confidence target_str (tl_blockers s) (tl_warnings s)
    checks (summary_of s score confidence target_str).

Definition analyze_bootability `{Platform} (evidence : EvidenceSnapshot)
    (target : BootTarget) : BootabilityReport :=
  let target_str := BootTarget_as_str target in
  report_of (run_checks evidence target_str) target_str.

(** ** What the tally computes

    A check result counts when its weight is positive. *)
Definition counts (c : CheckResult) : bool :=
  negb (cr_weight c <=? f64_of_Z 0)%f64.
Definition fails_with (sev : CheckSeverity) (c : CheckResult) : bool :=
  counts c && negb (cr_passed c) && bool_decide (cr_severity c = sev).

Lemma tally_step_blockers s c :
  tl_blockers (tally_step s c) =
  tl_blockers s ++ (if fails_with Blocker c then [finding_of c] else []).
Proof.
  unfold tally_step, fails_with, counts.
  destruct (_ <=? _)%f64; cbn; [by rewrite app_nil_r|].
  destruct (cr_passed c); cbn; [by rewrite app_nil_r|].
  by destruct (cr_severity c); cbn; rewrite ?app_nil_r.
Qed.

Lemma tally_step_warnings s c :
  tl_warnings (tally_step s c) =
  tl_warnings s ++ (if fails_with Warning c then [finding_of c] else []).
Proof.
  unfold tally_step, fails_with, counts.
  destruct (_ <=? _)%f64; cbn; [by rewrite app_nil_r|].
  destruct (cr_passed c); cbn; [by rewrite app_nil_r|].
  by destruct (cr_severity c); cbn; rewrite ?app_nil_r.
Qed.

Lemma tally_step_executed s c :
  tl_executed (tally_step s c) = (tl_executed s + if counts c then 1 else 0)%nat.
Proof.
  unfold tally_step, counts. destruct (_ <=? _)%f64; cbn; [lia|].
  destruct (cr_passed c); cbn; [lia|]. destruct (cr_severity c); cbn; lia.
Qed.

Lemma tally_findings cs : ∀ s,
  tl_blockers (foldl tally_step s cs) =
    tl_blockers s ++ map finding_of (List.filter (fails_with Blocker) cs) ∧
  tl_warnings (foldl tally_step s cs) =
    tl_warnings s ++ map finding_of (List.filter (fails_with Warning) cs) ∧
  tl_executed (foldl tally_step s cs) =
    (tl_executed s + length (List.filter counts cs))%nat.
Proof.
  induction cs as [|c cs IH]; intros s; cbn.
  - rewrite !app_nil_r. eauto with lia.
  - destruct (IH (tally_step s c)) as (-> & -> & ->).
    rewrite tally_step_blockers, tally_step_warnings, tally_step_executed.
    destruct (fails_with Blocker c), (fails_with Warning c), (counts c);
      cbn; rewrite <-?app_assoc; cbn; rewrite ?app_nil_r; auto with lia.
Qed.
