(* ===== verification/BootScore.v ===== *)
(** * Correctness of the boot score

    Weights are small whole numbers and a warning earns half of its weight, so
    both sums of the tally are whole numbers of half units, and the binary64
    additions are exact.  The first part proves that; the second lists the
    totals the fourteen checks can reach; the third proves the score's
    properties from a table of the (at most 260) quotients per total. *)
From stdpp Require Import base gmap strings list.
From Stdlib Require Import ZArith SpecFloat Lia.
From S2P Require Import Prelude RustStr F64 Evidence BootChecks BootEngine.

(** ** Half units *)
Definition hf (k : nat) : f64 := binary_normalize 53 1024 (Z.of_nat k) (-1) false.

Definition unit_weights : list nat := [4; 5; 7; 8; 10; 12; 15].
Definition unit_credits : list nat := unit_weights ++ map (Nat.mul 2) unit_weights.
Definition max_half_units : nat := 258.

Lemma sums_exact :
  forallb (fun j =>
    forallb (fun i => f64_eqb (hf i + hf j)%f64 (hf (i + j)))
      (seq 0 (S max_half_units))) unit_credits = true.
Proof. vm_cast_no_check (eq_refl true). Qed.

Lemma hf_add i j :
  i ≤ max_half_units → j ∈ unit_credits → (hf i + hf j)%f64 = hf (i + j).
Proof.
  intros Hi Hj. pose proof sums_exact as H.
  rewrite forallb_elem_of in H. specialize (H j Hj). rewrite forallb_elem_of in H.
  apply f64_eqb_eq, H, elem_of_seq. lia.
Qed.

Lemma weights_exact :
  forallb (fun w =>
    f64_eqb (f64_of_Z (Z.of_nat w)) (hf (2 * w)) &&
    f64_eqb (f64_of_Z (Z.of_nat w) * f64_lit 1 2)%f64 (hf w) &&
    negb (f64_of_Z (Z.of_nat w) <=? f64_of_Z 0)%f64) unit_weights = true.
Proof. vm_cast_no_check (eq_refl true). Qed.

Lemma weight_units w :
  w ∈ unit_weights →
  f64_of_Z (Z.of_nat w) = hf (2 * w) ∧
  (f64_of_Z (Z.of_nat w) * f64_lit 1 2)%f64 = hf w ∧
  (f64_of_Z (Z.of_nat w) <=? f64_of_Z 0)%f64 = false.
Proof.
  intros Hw. pose proof weights_exact as H. rewrite forallb_elem_of in H.
  specialize (H w Hw). bool_solve. eauto using f64_eqb_eq.
Qed.

Lemma hf_pos k : k ≠ 0 → f64_nonneg (hf k).
Proof.
  intros Hk. unfold hf, binary_normalize. destruct k; [done|].
  apply f64_has_sign_nonneg, binary_round_sign.
Qed.

(** ** The tally in half units *)
Definition credit (c : CheckResult) (w : nat) : nat :=
  if cr_passed c then 2 * w
  else match cr_severity c with Blocker => 0 | Warning => w | Info => 2 * w end.

Definition weighs (c : CheckResult) (w : nat) : Prop :=
  cr_weight c = f64_of_Z (Z.of_nat w) ∧ (w = 0 ∨ w ∈ unit_weights).

Definition credits (cs : list CheckResult) (ws : list nat) : nat :=
  sum_list (zip_with credit cs ws).

Lemma credit_le c w : credit c w ≤ 2 * w.
Proof. unfold credit. destruct (cr_passed c), (cr_severity c); lia. Qed.

Lemma unit_weights_credits w : w ∈ unit_weights → w ∈ unit_credits ∧ 2 * w ∈ unit_credits.
Proof.
  intros Hw. unfold unit_credits. split; apply elem_of_app; [by left|right].
  apply list_elem_of_fmap. eauto.
Qed.

Lemma credit_0 c : credit c 0 = 0.
Proof. unfold credit. by destruct (cr_passed c), (cr_severity c). Qed.

Lemma tally_step_units s c w e t :
  weighs c w → tl_earned_weight s = hf e → tl_total_weight s = hf t →
  e ≤ t → t + 2 * w ≤ max_half_units →
  tl_earned_weight (tally_step s c) = hf (e + credit c w) ∧
  tl_total_weight (tally_step s c) = hf (t + 2 * w).
Proof.
  intros [Hc [->|Hw]] He Ht Het Hmax.
  - unfold tally_step. rewrite Hc, credit_0. cbn. by rewrite !Nat.add_0_r.
  - destruct (weight_units w Hw) as (H2w & H1w & Hpos).
    destruct (unit_weights_credits w Hw) as [Hcw Hc2w].
    unfold tally_step, credit. rewrite Hc, Hpos.
    destruct (cr_passed c), (cr_severity c);
      cbn [tl_earned_weight tl_total_weight];
      rewrite ?He, ?Ht, ?H1w, ?H2w, ?Nat.add_0_r; rewrite ?hf_add by (done || lia);
      done.
Qed.

Lemma tally_units cs ws : ∀ s e t,
  Forall2 weighs cs ws → tl_earned_weight s = hf e → tl_total_weight s = hf t →
  e ≤ t → t + 2 * sum_list ws ≤ max_half_units →
  tl_earned_weight (foldl tally_step s cs) = hf (e + credits cs ws) ∧
  tl_total_weight (foldl tally_step s cs) = hf (t + 2 * sum_list ws).
Proof.
  unfold credits. intros s e t H. revert s e t.
  induction H as [|c w cs ws Hcw _ IH]; intros s e t He Ht Het Hmax; cbn.
  - by rewrite !Nat.add_0_r.
  - pose proof (credit_le c w). cbn in Hmax.
    destruct (tally_step_units s c w e t) as [He' Ht']; try (done || lia).
    destruct (IH _ _ _ He' Ht') as [-> ->]; [lia..|]. split; f_equal; lia.
Qed.

(** ** Ascending tables *)
Fixpoint ascending (l : list f64) : bool :=
  match l with
  | x :: ((y :: _) as l) => (x <=? y)%f64 && ascending l
  | _ => true
  end.

Lemma ascending_head l : ∀ x y,
  Forall f64_nonneg (x :: l) → ascending (x :: l) = true → y ∈ x :: l →
  (x <=? y)%f64 = true.
Proof.
  induction l as [|z l IH]; intros x y Hn Ha Hy.
  - apply list_elem_of_singleton in Hy as ->. apply Forall_inv in Hn.
    auto using f64_leb_refl with guestkit.
  - apply Forall_cons in Hn as [Hx Hn].
    cbn [ascending] in Ha. apply andb_true_iff in Ha as [Hxz Ha].
    apply elem_of_cons in Hy as [->|Hy]; [auto using f64_leb_refl with guestkit|].
    eapply f64_leb_trans; [done| | |exact Hxz|by eapply IH].
    + by apply Forall_inv in Hn.
    + rewrite Forall_forall in Hn. by apply Hn.
Qed.

Lemma ascending_lookup l i j x y :
  Forall f64_nonneg l → ascending l = true →
  l !! i = Some x → l !! j = Some y → i ≤ j → (x <=? y)%f64 = true.
Proof.
  revert i j. induction l as [|z l IH]; intros i j Hn Ha Hi Hj Hij; [done|].
  destruct i as [|i].
  - injection Hi as ->. eapply ascending_head; [done..|].
    by eapply list_elem_of_lookup_2.
  - destruct j as [|j]; [lia|].
    apply Forall_cons in Hn as [_ Hn].
    assert (ascending l = true) as Ha'.
    { destruct l; [done|]. cbn [ascending] in Ha. by bool_solve. }
    by eapply (IH i j); [done..|lia].
Qed.

(** the quotient of the engine, in half units out of [2 * w]. *)
Definition ratio_score (scale top : Z) (w e : nat) : f64 :=
  f64_clamp (hf e / hf (2 * w) * f64_of_Z scale)%f64 (f64_of_Z 0) (f64_of_Z top).
Definition score_table (scale top : Z) (w : nat) : list f64 :=
  ratio_score scale top w <$> seq 0 (S (2 * w)).

(** ** The totals the checks reach *)
Definition reachable_totals : list nat :=
  [68; 73; 95; 76; 81; 103; 94; 99; 121; 102; 107; 129].

Definition target_weights (target : BootTarget) : nat * nat * nat :=
  match target with
  | Kvm | Proxmox | KubeVirt => (15, 5, 7)
  | Cloud => (0, 5, 0)
  | Generic | HyperV => (0, 0, 0)
  end.

Definition check_weights `{Platform} (ev : EvidenceSnapshot) (target : BootTarget)
    : list nat :=
  let '(virtio, nic, tools) := target_weights target in
  let windows := is_windows_guest ev in
  [15; 10; 12; 10; 5; virtio; nic; 8; 8; tools;
   match ev_systemd ev with Some _ => 8 | None => 0 end;
   if windows then 12 else 0; if windows then 10 else 0; if windows then 4 else 0].

Section boot_score.
Context `{P : Platform}.

Local Ltac weigh := split; [done|first [by left|right; repeat constructor]].

Lemma run_checks_weigh ev target :
  Forall2 weighs (run_checks ev (BootTarget_as_str target)) (check_weights ev target).
Proof.
  unfold run_checks, check_weights, all_checks.
  destruct (target_weights target) as [[virtio nic] tools] eqn:Htw.
  cbn [map]. repeat first [apply Forall2_cons; split|apply Forall2_nil_2].
  all: cbn [bc_run FstabUuidCheck CrypttabCheck InitramfsCheck GrubConsistencyCheck
    EfiCheck VirtioReadinessCheck NicRenameCheck CloudInitCheck SelinuxRelabelCheck
    VmToolsRemnantsCheck SystemdStaticCheck WindowsEfiBootCheck WindowsBcdCheck
    WindowsSystemReservedCheck].
  1-5: try destruct (is_windows_guest ev); weigh.
  1-2: destruct target; injection Htw as <- <- <-; weigh.
  1: destruct (be_cloud_init_present (ev_boot ev)); weigh.
  1: weigh.
  1: destruct target; injection Htw as <- <- <-; weigh.
  1: destruct (ev_systemd ev); weigh.
  1-2: destruct (is_windows_guest ev); weigh.
  1: destruct (is_windows_guest ev); cbn [negb]; [|weigh];
     destruct (ev_windows ev ≫= we_system_reserved); weigh.
Qed.

Lemma check_weights_sum ev target :
  sum_list (check_weights ev target) ∈ reachable_totals.
Proof.
  unfold check_weights, reachable_totals.
  destruct target, (ev_systemd ev), (is_windows_guest ev); cbn [target_weights];
    repeat constructor.
Qed.

(** the tables of the bootable (scale 100) and of the blocked (scale 50) scores. *)
Lemma tables_ascend :
  forallb (fun w => ascending (score_table 100 100 w) && ascending (score_table 50 49 w)
    && (f64_of_Z 50 <=? ratio_score 100 100 w w)%f64
    && (ratio_score 100 100 w (2 * w - 1) <? f64_of_Z 100)%f64
    && f64_eqb (ratio_score 100 100 w (2 * w)) (f64_of_Z 100)
    && (f64_of_Z 0 <? hf (2 * w))%f64
    && forallb (fun e => negb (f64_is_nan (hf e / hf (2 * w) * f64_of_Z 100)%f64)
         && negb (f64_is_nan (hf e / hf (2 * w) * f64_of_Z 50)%f64))
         (seq 0 (S (2 * w)))) reachable_totals = true.
Proof. vm_cast_no_check (eq_refl true). Qed.

(** what the tables give for one total and one number of half units. *)
Lemma ratio_score_facts w e :
  w ∈ reachable_totals → e ≤ 2 * w →
  f64_nonneg (ratio_score 100 100 w e) ∧
  (ratio_score 100 100 w e <=? f64_of_Z 100)%f64 = true ∧
  f64_nonneg (ratio_score 50 49 w e) ∧
  (ratio_score 50 49 w e <=? f64_of_Z 49)%f64 = true.
Proof.
  intros Hw He. pose proof tables_ascend as H.
  rewrite forallb_elem_of in H. specialize (H w Hw).
  apply andb_true_iff in H as [_ H]. rewrite forallb_elem_of in H.
  specialize (H e ltac:(apply elem_of_seq; lia)). bool_solve.
  unfold ratio_score.
  destruct (f64_clamp_bounds (hf e / hf (2 * w) * f64_of_Z 100)%f64
    (f64_of_Z 0) (f64_of_Z 100)) as (_ & ? & ?); [done..|].
  destruct (f64_clamp_bounds (hf e / hf (2 * w) * f64_of_Z 50)%f64
    (f64_of_Z 0) (f64_of_Z 49)) as (_ & ? & ?); [done..|].
  repeat split; auto using f64_le_nonneg.
Qed.

#[local] Opaque ratio_score.

Lemma score_table_lookup scale top w e :
  e ≤ 2 * w → score_table scale top w !! e = Some (ratio_score scale top w e).
Proof.
  intros He. unfold score_table. rewrite list_lookup_fmap, lookup_seq_lt by lia. done.
Qed.

Lemma score_table_nonneg w :
  w ∈ reachable_totals →
  Forall f64_nonneg (score_table 100 100 w) ∧ Forall f64_nonneg (score_table 50 49 w).
Proof.
  intros Hw. unfold score_table.
  split; rewrite Forall_fmap, Forall_forall; intros e He%elem_of_seq;
    unfold compose; apply ratio_score_facts; (done || lia).
Qed.

(** the score grows with the half units earned. *)
Lemma ratio_score_mono w e e' :
  w ∈ reachable_totals → e ≤ e' → e' ≤ 2 * w →
  (ratio_score 100 100 w e <=? ratio_score 100 100 w e')%f64 = true ∧
  (ratio_score 50 49 w e <=? ratio_score 50 49 w e')%f64 = true.
Proof.
  intros Hw Hee He'. pose proof tables_ascend as H.
  rewrite forallb_elem_of in H. specialize (H w Hw). bool_solve.
  destruct (score_table_nonneg w Hw).
  split;
    [eapply (ascending_lookup (score_table 100 100 w) e e')
    |eapply (ascending_lookup (score_table 50 49 w) e e')];
    try done; apply score_table_lookup; lia.
Qed.

(** half of the weight earns at least 50, all of it exactly 100. *)
Lemma ratio_score_levels w e :
  w ∈ reachable_totals → e ≤ 2 * w →
  (w ≤ e → (f64_of_Z 50 <=? ratio_score 100 100 w e)%f64 = true) ∧
  (ratio_score 100 100 w e = f64_of_Z 100 ↔ e = 2 * w).
Proof.
  intros Hw He. pose proof tables_ascend as H.
  rewrite forallb_elem_of in H. specialize (H w Hw).
  apply andb_true_iff in H as [H _]. bool_solve.
  assert (w ≠ 0) by (intros ->; by repeat (apply elem_of_cons in Hw as [?|Hw])).
  split.
  - intros Hwe. eapply f64_leb_trans; [| | |done|apply ratio_score_mono; done];
      [done|..]; apply ratio_score_facts; (done || lia).
  - split; [|intros ->; by apply f64_eqb_eq].
    intros Heq. destruct (decide (e = 2 * w)) as [|Hne]; [done|exfalso].
    pose proof (f64_leb_ltb_trans (ratio_score 100 100 w e)
      (ratio_score 100 100 w (2 * w - 1)) (f64_of_Z 100)) as Hlt.
    rewrite Heq in Hlt. discriminate Hlt; try done.
    + apply ratio_score_facts; (done || lia).
    + rewrite <-Heq at 1. apply ratio_score_mono; (done || lia).
Qed.

(** ** The score of a tally *)
Definition blocked (cs : list CheckResult) : bool := existsb (fails_with Blocker) cs.

Lemma tally_blockers_nil cs :
  match tl_blockers (tally_checks cs) with [] => true | _ => false end
  = negb (blocked cs).
Proof.
  unfold tally_checks, blocked.
  destruct (tally_findings cs tally_init) as [-> _]. cbn.
  induction cs as [|c cs IH]; [done|]. cbn.
  by destruct (fails_with Blocker c).
Qed.

#[local] Transparent ratio_score.

Lemma score_units cs ws :
  Forall2 weighs cs ws → sum_list ws ∈ reachable_totals →
  score_of_tally (tally_checks cs) =
  if blocked cs then ratio_score 50 49 (sum_list ws) (credits cs ws)
  else ratio_score 100 100 (sum_list ws) (credits cs ws).
Proof.
  intros Hcs Hw. unfold score_of_tally. rewrite tally_blockers_nil.
  destruct (tally_units cs ws tally_init 0 0 Hcs) as [He Ht]; [done..| |].
  { unfold max_half_units.
    repeat (apply elem_of_cons in Hw as [->|Hw]; [lia|]). by apply elem_of_nil in Hw. }
  unfold tally_checks. rewrite He, Ht, !Nat.add_0_l.
  pose proof tables_ascend as H.
  rewrite forallb_elem_of in H. specialize (H _ Hw). bool_solve.
  unfold ratio_score. destruct (blocked cs); cbn [negb andb]; [done|].
  match goal with H : (f64_of_Z 0 <? _)%f64 = true |- _ => by rewrite H end.
Qed.

#[local] Opaque ratio_score.

Lemma credits_bounds cs ws :
  Forall2 weighs cs ws →
  credits cs ws ≤ 2 * sum_list ws ∧
  (blocked cs = false → sum_list ws ≤ credits cs ws).
Proof.
  unfold credits, blocked.
  induction 1 as [|c w cs ws [Hc Hw] _ [IH1 IH2]]; [done|]. cbn.
  pose proof (credit_le c w). split; [lia|].
  intros [Hf Hb]%orb_false_iff. specialize (IH2 Hb).
  enough (w ≤ credit c w) by lia.
  destruct Hw as [->|Hw]; [lia|]. destruct (weight_units w Hw) as (_ & _ & Hpos).
  unfold fails_with, counts in Hf. rewrite Hc, Hpos in Hf. unfold credit.
  by destruct (cr_passed c), (cr_severity c); cbn in Hf; try lia.
Qed.

(** full credit is the absence of findings. *)
Lemma credits_full cs ws :
  Forall2 weighs cs ws →
  credits cs ws = 2 * sum_list ws ↔
  blocked cs = false ∧ existsb (fails_with Warning) cs = false.
Proof.
  unfold credits, blocked.
  induction 1 as [|c w cs ws [Hc Hw] Hcs IH]; [done|]. cbn.
  pose proof (credit_le c w).
  pose proof (proj1 (credits_bounds cs ws Hcs)) as Hle. unfold credits in Hle.
  rewrite !orb_false_iff.
  enough (credit c w = 2 * w ↔
    fails_with Blocker c = false ∧ fails_with Warning c = false) by
    (split; [intros ?; assert (credit c w = 2 * w) by lia;
             assert (sum_list (zip_with credit cs ws) = 2 * sum_list ws) by lia;
             naive_solver|naive_solver lia]).
  unfold fails_with, counts. rewrite Hc.
  destruct Hw as [->|Hw]; [by rewrite credit_0|].
  destruct (weight_units w Hw) as (_ & _ & Hpos). rewrite Hpos.
  assert (w ≠ 0) by (intros ->; by repeat (apply elem_of_cons in Hw as [?|Hw])).
  unfold credit. destruct (cr_passed c), (cr_severity c); cbn; naive_solver lia.
Qed.

Lemma analyze_units ev target :
  let cs := run_checks ev (BootTarget_as_str target) in
  let ws := check_weights ev target in
  br_score (analyze_bootability ev target) =
  (if blocked cs then ratio_score 50 49 (sum_list ws) (credits cs ws)
   else ratio_score 100 100 (sum_list ws) (credits cs ws)) ∧
  sum_list ws ∈ reachable_totals ∧ Forall2 weighs cs ws.
Proof.
  intros cs ws. pose proof (run_checks_weigh ev target) as Hcs.
  pose proof (check_weights_sum ev target) as Hws.
  split; [|done]. cbn [br_score analyze_bootability report_of].
  by apply score_units.
Qed.

Lemma analyze_blocked ev target :
  br_blockers (analyze_bootability ev target) = [] ↔
  blocked (run_checks ev (BootTarget_as_str target)) = false.
Proof.
  cbn [br_blockers analyze_bootability report_of].
  set (cs := run_checks _ _). pose proof (tally_blockers_nil cs) as Hn.
  destruct (tl_blockers (tally_checks cs)), (blocked cs); cbn in Hn; done.
Qed.

Lemma analyze_warnings ev target :
  br_warnings (analyze_bootability ev target) = [] ↔
  existsb (fails_with Warning) (run_checks ev (BootTarget_as_str target)) = false.
Proof.
  cbn [br_warnings analyze_bootability report_of].
  generalize (run_checks ev (BootTarget_as_str target)) as cs. intros cs.
  unfold tally_checks. destruct (tally_findings cs tally_init) as (_ & -> & _). cbn.
  induction cs as [|c cs IH]; [done|]. cbn. by destruct (fails_with Warning c).
Qed.

Lemma boot_score_facts ev target :
  let r := analyze_bootability ev target in
  f64_is_nan (br_score r) = false ∧
  (f64_of_Z 0 <=? br_score r)%f64 = true ∧
  (br_score r <=? f64_of_Z 100)%f64 = true ∧
  (br_blockers r = [] ↔ (f64_of_Z 50 <=? br_score r)%f64 = true) ∧
  (br_blockers r ≠ [] ↔ (br_score r <=? f64_of_Z 49)%f64 = true).
Proof.
  intros r. unfold r. destruct (analyze_units ev target) as (-> & Hw & Hcs).
  rewrite analyze_blocked. set (cs := run_checks _ _) in *.
  set (ws := check_weights _ _) in *.
  destruct (credits_bounds cs ws Hcs) as [Hle Hge].
  destruct (ratio_score_facts _ _ Hw Hle) as (Hn1 & Ht1 & Hn2 & Ht2).
  assert (∀ x, f64_nonneg x → (x <=? f64_of_Z 49)%f64 = true →
    (x <=? f64_of_Z 100)%f64 = true ∧ (f64_of_Z 50 <=? x)%f64 = false) as Hlow.
  { intros x Hx Hx49. split; [by eapply f64_leb_trans; [..|done|]|].
    apply f64_ltb_leb_excl. by eapply f64_leb_ltb_trans; [..|done|]. }
  destruct (blocked cs).
  - destruct (Hlow _ Hn2 Ht2) as [? Hno]. rewrite Ht2, Hno.
    repeat split; auto using f64_nonneg_le with guestkit; done.
  - destruct (ratio_score_levels _ _ Hw Hle) as [H50 _]. specialize (H50 (Hge eq_refl)).
    repeat split; auto using f64_nonneg_le with guestkit; try done.
    intros H49. destruct (Hlow _ Hn1 H49) as [_ Hno]. by rewrite Hno in H50.
Qed.

(** C3: for every snapshot and every target the boot score is a number (never
    NaN) between 0 and 100; it is at least 50 exactly when the report has no
    blocker and at most 49 exactly when it has one, so the score alone tells a
    blocked guest from a bootable one. *)
Theorem boot_score_separates ev target :
  let r := analyze_bootability ev target in
  f64_is_nan (br_score r) = false ∧
  (f64_of_Z 0 <=? br_score r)%f64 = true ∧
  (br_score r <=? f64_of_Z 100)%f64 = true ∧
  (br_blockers r = [] ↔ (f64_of_Z 50 <=? br_score r)%f64 = true) ∧
  (br_blockers r ≠ [] ↔ (br_score r <=? f64_of_Z 49)%f64 = true).
Proof. exact (boot_score_facts ev target). Qed.

(** the score is exactly 100 precisely when the report has neither a
    blocker nor a warning. *)
Theorem boot_score_perfect ev target :
  let r := analyze_bootability ev target in
  br_score r = f64_of_Z 100 ↔ br_blockers r = [] ∧ br_warnings r = [].
Proof.
  intros r. unfold r. rewrite analyze_blocked, analyze_warnings.
  destruct (analyze_units ev target) as (-> & Hw & Hcs).
  set (cs := run_checks _ _) in *. set (ws := check_weights _ _) in *.
  pose proof (credits_full cs ws Hcs) as Hfull.
  destruct (credits_bounds cs ws Hcs) as [Hle _].
  destruct (ratio_score_levels _ _ Hw Hle) as [_ H100].
  destruct (ratio_score_facts _ _ Hw Hle) as (_ & _ & _ & H49).
  destruct (blocked cs); [|by rewrite H100, Hfull].
  split; [|by intros [? _]]. intros Heq. by rewrite Heq in H49.
Qed.

(** A check result no worse than another of the same weight: it passes when the
    other passes, and its severity is no graver when both fail. *)
Definition severity_rank (s : CheckSeverity) : nat :=
  match s with Blocker => 0 | Warning => 1 | Info => 2 end.
Definition verdict_rank (c : CheckResult) : nat :=
  if cr_passed c then 2 else severity_rank (cr_severity c).
Definition no_worse (c c' : CheckResult) : Prop :=
  cr_weight c = cr_weight c' ∧ verdict_rank c ≤ verdict_rank c'.

Lemma credit_mono c c' w : no_worse c c' → credit c w ≤ credit c' w.
Proof.
  intros [_ Hr]. unfold credit, verdict_rank, severity_rank in *.
  destruct (cr_passed c), (cr_passed c'), (cr_severity c), (cr_severity c'); lia.
Qed.

Lemma no_worse_blocked cs cs' :
  Forall2 no_worse cs cs' → blocked cs = false → blocked cs' = false.
Proof.
  unfold blocked. induction 1 as [|c c' cs cs' [Hw Hr] _ IH]; [done|]. cbn.
  rewrite !orb_false_iff. intros [Hf Hb]. split; [|by apply IH].
  unfold fails_with, counts, verdict_rank, severity_rank in *. rewrite <-Hw.
  destruct (_ <=? _)%f64; [done|].
  destruct (cr_passed c), (cr_passed c'), (cr_severity c), (cr_severity c');
    cbn in *; (done || lia).
Qed.

Lemma no_worse_units cs cs' ws :
  Forall2 no_worse cs cs' → Forall2 weighs cs ws →
  Forall2 weighs cs' ws ∧ credits cs ws ≤ credits cs' ws.
Proof.
  intros Hn. revert ws. unfold credits.
  induction Hn as [|c c' cs cs' Hc _ IH]; intros ws Hws; inversion_clear Hws; [done|].
  destruct (IH l') as [? ?]; [done|]. split.
  - constructor; [|done]. destruct Hc as [Hc _]. unfold weighs in *. by rewrite <-Hc.
  - cbn. pose proof (credit_mono c c' y Hc). lia.
Qed.

(** repairing a guest never lowers its score: when every check of a second
    snapshot is no worse than the same check of the first (and the same checks
    apply), the second score is at least the first. *)
Theorem boot_score_monotone ev ev' target :
  Forall2 no_worse (run_checks ev (BootTarget_as_str target))
    (run_checks ev' (BootTarget_as_str target)) →
  (br_score (analyze_bootability ev target)
   <=? br_score (analyze_bootability ev' target))%f64 = true.
Proof.
  intros Hn. destruct (analyze_units ev target) as (-> & Hw & Hcs).
  cbn [br_score analyze_bootability report_of].
  set (cs := run_checks ev _) in *. set (cs' := run_checks ev' _) in *.
  set (ws := check_weights ev target) in *.
  destruct (no_worse_units cs cs' ws Hn Hcs) as [Hcs' Hcr].
  rewrite (score_units cs' ws Hcs' Hw).
  destruct (credits_bounds cs ws Hcs) as [Hle _].
  destruct (credits_bounds cs' ws Hcs') as [Hle' Hge'].
  destruct (ratio_score_mono _ _ _ Hw Hcr Hle') as [H100 H50].
  destruct (ratio_score_facts _ _ Hw Hle) as (_ & _ & Hn2 & Ht2).
  destruct (ratio_score_facts _ _ Hw Hle') as (Hn1 & _ & _ & _).
  destruct (blocked cs) eqn:Hb, (blocked cs') eqn:Hb'; [done| |..].
  - destruct (ratio_score_levels _ _ Hw Hle') as [Hl _].
    specialize (Hl (Hge' eq_refl)).
    eapply f64_leb_trans; [done| |done|exact Ht2|]; [done|].
    by eapply (f64_leb_trans _ (f64_of_Z 50)).
  - by rewrite (no_worse_blocked cs cs' Hn Hb) in Hb'.
  - done.
Qed.
End boot_score.

(** the findings of the report are exactly the failed checks: a blocker
    (warning) for every check of positive weight that failed with severity
    Blocker (Warning), in check order, with its id, name, message and
    remediation, and the confidence is a function of how many checks ran. *)
Theorem boot_findings_exact `{P : Platform} ev target :
  let r := analyze_bootability ev target in
  br_checks r = map (fun c => bc_run c ev (BootTarget_as_str target)) all_checks ∧
  br_blockers r = map finding_of (List.filter (fails_with Blocker) (br_checks r)) ∧
  br_warnings r = map finding_of (List.filter (fails_with Warning) (br_checks r)) ∧
  br_confidence r = confidence_of (length (List.filter counts (br_checks r))).
Proof.
  intros r. unfold r. cbn [br_checks br_blockers br_warnings br_confidence
    analyze_bootability report_of]. unfold tally_checks.
  destruct (tally_findings (run_checks ev (BootTarget_as_str target)) tally_init)
    as (-> & -> & ->). done.
Qed.

(** ** Concrete guests *)
Definition linux_os : OsEvidence :=
  mk_OsEvidence "linux" "rhel" "9.6" "x86_64" "db1" "systemd" "dnf".

Definition boot_evidence (kernels initrds modules : list string) : BootEvidence :=
  mk_BootEvidence "grub2" "0" "" kernels initrds true None modules false false []
    None "uefi" true.

(** no kernel at all, and the same guest repaired. *)
Definition broken_guest : @EvidenceSnapshot ascii_platform :=
  @blank_snapshot ascii_platform linux_os default_StorageEvidence
    (boot_evidence [] [] []) default_VmToolsEvidence None None None.
Definition repaired_guest : @EvidenceSnapshot ascii_platform :=
  @blank_snapshot ascii_platform linux_os default_StorageEvidence
    (boot_evidence ["/boot/vmlinuz"] ["/boot/initramfs.img"] ["virtio_blk"])
    default_VmToolsEvidence None None None.

Example broken_guest_score :
  let r := @analyze_bootability ascii_platform broken_guest Kvm in
  map fi_check_id (br_blockers r) = ["BOOT-003"] ∧
  fmt_f64_0 (br_score r) = "44" ∧
  br_summary r = "Boot blocked by 1 issue(s). Score: 44% on kvm".
Proof. vm_compute. repeat split. Qed.

Lemma boot_score_monotone_witness :
  Forall2 no_worse (@run_checks ascii_platform broken_guest "kvm")
    (@run_checks ascii_platform repaired_guest "kvm") ∧
  (br_score (@analyze_bootability ascii_platform broken_guest Kvm)
   <=? br_score (@analyze_bootability ascii_platform repaired_guest Kvm))%f64 = true.
Proof.
  assert (Forall2 no_worse (@run_checks ascii_platform broken_guest "kvm")
    (@run_checks ascii_platform repaired_guest "kvm")) as Hn.
  { vm_compute. repeat constructor. }
  split; [exact Hn|].
  exact (@boot_score_monotone ascii_platform broken_guest repaired_guest Kvm Hn).
Defined.
