(* ===== verification/DiskReader.v ===== *)
(** * The disk image reader

    [src/core/error.rs], the image formats of [src/core/types.rs] and
    [src/disk/reader.rs].  A file is its length and its bytes; what one [read]
    returns is up to the operating system: it may fail, and it may return fewer
    bytes than asked (but at least one before the end of the file).  The choice
    is the field [dr_io] of the reader. *)
From stdpp Require Import base strings list list_numbers.
From Stdlib Require Import ZArith Lia Ascii.
From S2P Require Import Prelude RustStr.

(** ** Errors *)
Inductive io_error : Set :=
  | UnexpectedEof (msg : string)
  | InvalidInput            (** [EINVAL] of [lseek] past [i64::MAX] *)
  | OsError (code : Z).     (** any other operating system error *)

Inductive Error : Set :=
  | Io (e : io_error)
  | Conversion (msg : string)
  | Detection (msg : string)
  | CommandFailed (msg : string)
  | InvalidFormat (msg : string)
  | NotFound (msg : string)
  | PermissionDenied (msg : string)
  | Unsupported (msg : string)
  | Config (msg : string)
  | Ffi (msg : string)
  | InvalidState (msg : string)
  | InvalidOperation (msg : string)
  | SecurityViolation (msg : string)
  | PathValidation (msg : string)
  | InputValidation (msg : string)
  | ResourceLimit (msg : string)
  | Unknown (msg : string).

(** ** Image formats *)
Inductive DiskFormat : Set := Qcow2 | Raw | Vmdk | Vhd | Vhdx | Vdi | UnknownFormat.
#[export] Instance DiskFormat_eq_dec : EqDecision DiskFormat.
Proof. solve_decision. Defined.

Definition DiskFormat_as_str (f : DiskFormat) : string :=
  match f with
  | Qcow2 => "qcow2"
  | Raw => "raw"
  | Vmdk => "vmdk"
  | Vhd => "vhd"
  | Vhdx => "vhdx"
  | Vdi => "vdi"
  | UnknownFormat => "unknown"
  end.

Definition DiskFormat_from_str (s : string) : DiskFormat :=
  if eq_ignore_ascii_case s "qcow2" then Qcow2
  else if eq_ignore_ascii_case s "raw" then Raw
  else if eq_ignore_ascii_case s "vmdk" then Vmdk
  else if eq_ignore_ascii_case s "vhd" then Vhd
  else if eq_ignore_ascii_case s "vhdx" then Vhdx
  else if eq_ignore_ascii_case s "vdi" then Vdi
  else UnknownFormat.

(** ** Files *)
Record image : Type := mk_image {
  img_len : Z;
  img_byte : Z → Z
}.

Definition image_ok (f : image) : Prop :=
  (0 ≤ img_len f < 2 ^ 63)%Z ∧ ∀ i, byte_ok (img_byte f i).

(** the [n] bytes from position [pos]. *)
Definition img_slice (f : image) (pos n : Z) : list Z := img_byte f <$> seqZ pos n.

Record DiskReader : Type := mk_DiskReader {
  dr_file : image;
  dr_format : DiskFormat;
  dr_size : Z;
  (** [dr_io pos n]: an error code, or how many of the [n] bytes asked for at
      position [pos] the system is willing to return. *)
  dr_io : Z → Z → Z + Z
}.

(** one [read(2)] of at most [n > 0] bytes at [pos]. *)
Definition os_read (f : image) (io : Z → Z → Z + Z) (pos n : Z) : Z + list Z :=
  match io pos n with
  | inl code => inl code
  | inr k =>
      let avail := (img_len f - pos)%Z in
      if (avail <=? 0)%Z then inr []
      else inr (img_slice f pos (Z.max 1 (Z.min k (Z.min n avail))))
  end.

(** [lseek] takes an [i64]: an offset past its maximum is refused. *)
Definition seek_start (offset : Z) : outcome Error Z :=
  if (offset <? 2 ^ 63)%Z then Ok offset else Err (Io InvalidInput).

Definition detect_format (f : image) (io : Z → Z → Z + Z) : outcome Error DiskFormat :=
  pos ← seek_start 0;
  match os_read f io pos 4 with
  | inl code => Err (Io (OsError code))
  | inr magic =>
      if (length magic <? 4)%nat then Ok Raw
      else if bool_decide (magic = [81; 70; 73; 251]%Z) then Ok Qcow2
      else if bool_decide (take 3 magic = [75; 68; 77]%Z)
              || bool_decide (take 3 magic = [67; 79; 87]%Z) then Ok Vmdk
      else Ok Raw
  end.

(** [DiskReader::open] on a regular file: the size is the file's length. *)
Definition DiskReader_open (f : image) (io : Z → Z → Z + Z) : outcome Error DiskReader :=
  format ← detect_format f io;
  _ ← seek_start 0;
  Ok (mk_DiskReader f format (img_len f) io).

Definition read_at (r : DiskReader) (offset len : Z) : outcome Error (list Z) :=
  pos ← seek_start offset;
  match os_read (dr_file r) (dr_io r) pos len with
  | inl code => Err (Io (OsError code))
  | inr bytes => Ok bytes
  end.

Definition eof_message (len offset total_read : Z) : string :=
  "Failed to read " +:+ fmt_Z len +:+ " bytes at offset " +:+ fmt_Z offset
  +:+ ", only got " +:+ fmt_Z total_read +:+ " bytes".

(** the loop of [read_exact_at]; [acc] is the part of the buffer filled so far.
    Every round but the last reads a byte at least, so [len] rounds are enough
    ([read_loop_total]). *)
Fixpoint read_loop (fuel : nat) (r : DiskReader) (offset len : Z) (acc : list Z)
    : outcome Error (list Z) :=
  let total_read := Z.of_nat (length acc) in
  if (len <=? total_read)%Z then Ok acc
  else match fuel with
  | O => Panic
  | S fuel =>
      match os_read (dr_file r) (dr_io r) (offset + total_read) (len - total_read) with
      | inl code => Err (Io (OsError code))
      | inr [] => Err (Io (UnexpectedEof (eof_message len offset total_read)))
      | inr bytes => read_loop fuel r offset len (acc ++ bytes)
      end
  end.

Definition read_exact_at (r : DiskReader) (offset len : Z) : outcome Error (list Z) :=
  pos ← seek_start offset;
  read_loop (Z.to_nat len) r pos len [].

(** ** Lemmas *)
Lemma length_img_slice f pos n : length (img_slice f pos n) = Z.to_nat n.
Proof. unfold img_slice. by rewrite length_fmap, length_seqZ. Qed.

Lemma img_slice_0 f pos : img_slice f pos 0 = [].
Proof. done. Qed.

Lemma img_slice_app f pos a b :
  (0 ≤ a)%Z → (0 ≤ b)%Z →
  img_slice f pos a ++ img_slice f (pos + a) b = img_slice f pos (a + b).
Proof. intros ? ?. unfold img_slice. by rewrite <-fmap_app, <-seqZ_app. Qed.

Lemma img_slice_lookup f pos n i :
  (i < Z.to_nat n)%nat → img_slice f pos n !! i = Some (img_byte f (pos + Z.of_nat i)).
Proof.
  intros Hi. unfold img_slice. rewrite list_lookup_fmap, lookup_seqZ_lt by lia. done.
Qed.

Lemma img_slice_bytes f pos n : image_ok f → Forall byte_ok (img_slice f pos n).
Proof. intros [_ Hb]. apply Forall_fmap, Forall_true. intros i. apply Hb. Qed.

(** what one system read returns when it does not fail. *)
Lemma os_read_spec f io pos n bytes :
  (0 < n)%Z → os_read f io pos n = inr bytes →
  ∃ k, bytes = img_slice f pos k ∧
    ((k = 0 ∧ img_len f ≤ pos) ∨ (0 < k ≤ n ∧ pos + k ≤ img_len f))%Z.
Proof.
  unfold os_read. intros Hn. destruct (io pos n) as [|k]; [done|].
  destruct (_ <=? 0)%Z eqn:Ha; intros [= <-]; bool_solve.
  - exists 0%Z. split; [done|]. left. lia.
  - eexists. split; [done|]. right. lia.
Qed.

(** The loop returns, whatever the operating system does, and what it returns
    is the whole slice. *)
Lemma read_loop_spec r offset len : ∀ fuel total,
  (0 ≤ total ≤ len)%Z → (Z.to_nat (len - total) ≤ fuel)%nat →
  match read_loop fuel r offset len (img_slice (dr_file r) offset total) with
  | Ok bytes => bytes = img_slice (dr_file r) offset len ∧
                ((total < len)%Z → (offset + len ≤ img_len (dr_file r))%Z)
  | Err (Io (UnexpectedEof _)) => (img_len (dr_file r) < offset + len)%Z
  | Err (Io (OsError code)) => ∃ pos n, dr_io r pos n = inl code
  | _ => False
  end.
Proof.
  induction fuel as [|fuel IH]; intros total Ht Hf; cbn [read_loop];
    rewrite length_img_slice, Z2Nat.id by lia.
  - destruct (_ <=? _)%Z eqn:E; bool_solve; [|lia].
    assert (total = len) as -> by lia. split; [done|lia].
  - destruct (_ <=? _)%Z eqn:E; bool_solve.
    { assert (total = len) as -> by lia. split; [done|lia]. }
    destruct (os_read _ _ _ _) as [code|bytes] eqn:Hread.
    { unfold os_read in Hread. destruct (dr_io r _ _) eqn:Hio; [|by case_match].
      injection Hread as ->. eauto. }
    assert (0 < len - total)%Z as Hpos by lia.
    destruct (os_read_spec _ _ _ _ _ Hpos Hread) as (k & -> & [[-> Hk]|Hk]).
    { rewrite img_slice_0. lia. }
    destruct (img_slice (dr_file r) (offset + total) k) eqn:Hs.
    { apply (f_equal length) in Hs. rewrite length_img_slice in Hs. cbn in Hs. lia. }
    rewrite <-Hs, img_slice_app by lia.
    specialize (IH (total + k)%Z ltac:(lia) ltac:(lia)).
    destruct (read_loop _ _ _ _ _) as [bs|[[]| | | | | | | | | | | | | | | |]|];
      try done. destruct IH as [-> IH]. split; [done|]. intros _.
    destruct (decide (total + k < len)%Z); [by apply IH|]. lia.
Qed.

(** An operating system that never fails a read. *)
Definition reliable (r : DiskReader) : Prop := ∀ pos n, ∃ k, dr_io r pos n = inr k.

(** C32: on a system that does not fail reads, and however it splits them,
    [read_exact_at] returns exactly the bytes at the offset when they are in the
    image, the end-of-file error when they are not, and the seek error past
    [i64::MAX]. *)
Theorem read_exact_at_spec r offset len :
  reliable r → (0 ≤ offset)%Z → (0 < len)%Z →
  if (offset <? 2 ^ 63)%Z then
    if (offset + len <=? img_len (dr_file r))%Z
    then read_exact_at r offset len = Ok (img_slice (dr_file r) offset len)
    else ∃ msg, read_exact_at r offset len = Err (Io (UnexpectedEof msg))
  else read_exact_at r offset len = Err (Io InvalidInput).
Proof.
  intros Hr Ho Hl. unfold read_exact_at, seek_start.
  destruct (offset <? 2 ^ 63)%Z; [|done]. cbn.
  pose proof (read_loop_spec r offset len (Z.to_nat len) 0 ltac:(lia) ltac:(lia)) as H.
  rewrite img_slice_0 in H.
  destruct (read_loop _ _ _ _ _) as [bs|[[]| | | | | | | | | | | | | | | |]|];
    try done; destruct (_ <=? _)%Z eqn:E; bool_solve.
  - by destruct H as [-> _].
  - destruct H as [_ H]. specialize (H ltac:(lia)). lia.
  - lia.
  - eauto.
  - destruct H as (pos & n & H). destruct (Hr pos n) as [k Hk]. congruence.
  - destruct H as (pos & n & H). destruct (Hr pos n) as [k Hk]. congruence.
Qed.

(** what a successful read says, on any system. *)
Lemma read_exact_at_Ok r offset len bytes :
  (0 < len)%Z → read_exact_at r offset len = Ok bytes →
  bytes = img_slice (dr_file r) offset len ∧ (offset < 2 ^ 63)%Z ∧
  (offset + len ≤ img_len (dr_file r))%Z.
Proof.
  unfold read_exact_at, seek_start. intros Hl.
  destruct (offset <? 2 ^ 63)%Z eqn:Eo; [|done]. cbn. intros Hb. bool_solve.
  pose proof (read_loop_spec r offset len (Z.to_nat len) 0 ltac:(lia) ltac:(lia)) as H.
  rewrite img_slice_0 in H.
  rewrite Hb in H. destruct H as [-> H]. split; [done|]. split; [done|]. apply H. lia.
Qed.

Lemma read_exact_at_no_panic r offset len :
  (0 ≤ len)%Z → read_exact_at r offset len ≠ Panic.
Proof.
  unfold read_exact_at, seek_start. intros Hl.
  destruct (offset <? 2 ^ 63)%Z; [|done]. cbn.
  pose proof (read_loop_spec r offset len (Z.to_nat len) 0 ltac:(lia) ltac:(lia)) as H.
  rewrite img_slice_0 in H.
  intros Hp. by rewrite Hp in H.
Qed.

(** the reliable reads, as an equation for the parsers. *)
Lemma read_exact_at_in r offset len :
  reliable r → (0 ≤ offset)%Z → (0 < len)%Z → (offset < 2 ^ 63)%Z →
  (offset + len ≤ img_len (dr_file r))%Z →
  read_exact_at r offset len = Ok (img_slice (dr_file r) offset len).
Proof.
  intros Hr Ho Hl H63 Hin. pose proof (read_loop_spec r offset len (Z.to_nat len) 0
    ltac:(lia) ltac:(lia)) as H.
  rewrite img_slice_0 in H.
  unfold read_exact_at, seek_start. apply Z.ltb_lt in H63. rewrite H63. cbn.
  destruct (read_loop _ _ _ _ _) as [bs|[[]| | | | | | | | | | | | | | | |]|];
    try done; [by destruct H as [-> _]|lia|].
  destruct H as (pos & n & H). destruct (Hr pos n) as [k Hk]. congruence.
Qed.

Lemma read_exact_at_out r offset len :
  (0 < len)%Z → (img_len (dr_file r) < offset + len)%Z →
  ∀ bytes, read_exact_at r offset len ≠ Ok bytes.
Proof.
  intros Hl Hout bytes H. apply read_exact_at_Ok in H as (_ & _ & ?); lia.
Qed.

(** ** The formats *)
(** Printing a format and parsing it back, in any letter case, is the identity. *)
Lemma DiskFormat_roundtrip f : DiskFormat_from_str (DiskFormat_as_str f) = f.
Proof. by destruct f. Qed.

(** ** A concrete reader: one byte per read *)
Definition one_byte_io : Z → Z → Z + Z := fun _ _ => inr 1%Z.
Definition image_of (bytes : list Z) : image :=
  mk_image (Z.of_nat (length bytes))
    (fun i => if (0 <=? i)%Z then default 0%Z (bytes !! Z.to_nat i) else 0%Z).
Definition reader_of (bytes : list Z) : DiskReader :=
  mk_DiskReader (image_of bytes) Raw (Z.of_nat (length bytes)) one_byte_io.

Lemma reader_of_reliable bytes : reliable (reader_of bytes).
Proof. intros pos n. by exists 1%Z. Qed.

Lemma img_slice_image_of bytes :
  img_slice (image_of bytes) 0 (Z.of_nat (length bytes)) = bytes.
Proof.
  apply list_eq. intros i. destruct (decide (i < length bytes)%nat) as [Hi|Hi].
  - rewrite img_slice_lookup by lia. cbn.
    destruct (lookup_lt_is_Some_2 bytes i Hi) as [x Hx].
    destruct (_ <=? _)%Z eqn:E; bool_solve; [|lia].
    replace (Z.to_nat (0 + Z.of_nat i)) with i by lia. by rewrite Hx.
  - rewrite !lookup_ge_None_2; [done|lia|]. rewrite length_img_slice. lia.
Qed.

Lemma read_exact_at_spec_witness :
  let r := reader_of [10; 20; 30; 40; 50]%Z in
  read_exact_at r 1 3 = Ok [20; 30; 40]%Z ∧
  ∃ msg, read_exact_at r 3 3 = Err (Io (UnexpectedEof msg)).
Proof.
  intros r. split.
  - pose proof (read_exact_at_spec r 1 3 (reader_of_reliable _) ltac:(lia) ltac:(lia)) as H.
    exact H.
  - pose proof (read_exact_at_spec r 3 3 (reader_of_reliable _) ltac:(lia) ltac:(lia)) as H.
    exact H.
Defined.
