(* ===== verification/Partition.v ===== *)
(** * Partition tables

    [src/disk/partition.rs]: MBR and GPT parsing.  [overflow_checks] is the
    build profile (see [Prelude]).  The slices of a sector are [take]/[drop] of
    a buffer whose length is the one read, so every index is in range
    ([read_exact_at_Ok], and [entry_size >= 48] for GPT entries). *)
From stdpp Require Import base strings list list_numbers sorting.
From Stdlib Require Import ZArith Lia.
From S2P Require Import Prelude RustStr DiskReader.

Inductive PartitionType : Set := MBR | GPT | UnknownTable.
#[export] Instance PartitionType_eq_dec : EqDecision PartitionType.
Proof. solve_decision. Defined.

Record Partition : Type := mk_Partition {
  pt_number : Z;
  pt_start_lba : Z;
  pt_size_sectors : Z;
  pt_type_id : Z;
  pt_bootable : bool;
  pt_type_guid : option string
}.

Record PartitionTable : Type := mk_PartitionTable {
  ptt_partitions : list Partition;
  ptt_table_type : PartitionType
}.

Definition idx (bs : list Z) (i : nat) : Z := default 0%Z (bs !! i).
Definition sub (bs : list Z) (from n : nat) : list Z := take n (drop from bs).

Definition is_gpt (mbr : list Z) : bool :=
  if (length mbr <? 512)%nat then false
  else if negb (idx mbr 510 =? 85)%Z || negb (idx mbr 511 =? 170)%Z then false
  else existsb (fun i => (idx mbr (446 + i * 16 + 4) =? 238)%Z) (seq 0 4).

Definition is_mbr (mbr : list Z) : bool :=
  if (length mbr <? 512)%nat then false
  else (idx mbr 510 =? 85)%Z && (idx mbr 511 =? 170)%Z.

(** one iteration of the MBR loop. *)
Definition mbr_entry (mbr : list Z) (i : nat) : option Partition :=
  let entry := sub mbr (446 + i * 16) 16 in
  let type_id := idx entry 4 in
  if (type_id =? 0)%Z then None
  else Some (mk_Partition (Z.of_nat i + 1)
    (le_decode (sub entry 8 4)) (le_decode (sub entry 12 4))
    type_id (idx entry 0 =? 128)%Z None).

Definition parse_mbr (mbr : list Z) : outcome Error PartitionTable :=
  Ok (mk_PartitionTable (omap (mbr_entry mbr) (seq 0 4)) MBR).

(** the mixed-endian text of a type GUID. *)
Definition fmt_bytes (bs : list Z) (ixs : list nat) : string :=
  foldr (fun i s => fmt_02x (idx bs i) +:+ s) "" ixs.
Definition fmt_guid (entry : list Z) : string :=
  fmt_bytes entry [3; 2; 1; 0] +:+ "-" +:+ fmt_bytes entry [5; 4] +:+ "-"
  +:+ fmt_bytes entry [7; 6] +:+ "-" +:+ fmt_bytes entry [8; 9] +:+ "-"
  +:+ fmt_bytes entry [10; 11; 12; 13; 14; 15].

(** one iteration of the GPT loop, after the entry has been read. *)
Definition gpt_entry (overflow_checks : bool) (entry : list Z) (i : Z)
    : outcome Error (option Partition) :=
  if forallb (fun b => b =? 0)%Z (take 16 entry) then Ok None
  else
    let type_guid := fmt_guid entry in
    let start_lba := le_decode (sub entry 32 8) in
    let end_lba := le_decode (sub entry 40 8) in
    if (start_lba =? 0)%Z && (end_lba =? 0)%Z then Ok None
    else if (end_lba <? start_lba)%Z then Ok None
    else
      size_sectors ← u_arith overflow_checks 64 (end_lba - start_lba + 1)%Z;
      Ok (Some (mk_Partition (i + 1) start_lba size_sectors 0 false (Some type_guid))).

(** the GPT loop over the entry numbers [ixs]. *)
Fixpoint gpt_loop (overflow_checks : bool) (r : DiskReader)
    (entries_offset entry_size : Z) (ixs : list Z) : outcome Error (list Partition) :=
  match ixs with
  | [] => Ok []
  | i :: ixs =>
      offset ← u_arith overflow_checks 64 (entries_offset + i * entry_size)%Z;
      entry ← read_exact_at r offset entry_size;
      p ← gpt_entry overflow_checks entry i;
      ps ← gpt_loop overflow_checks r entries_offset entry_size ixs;
      Ok (match p with Some p => p :: ps | None => ps end)
  end.

Definition efi_part : list Z := [69; 70; 73; 32; 80; 65; 82; 84]%Z.

Definition parse_gpt (overflow_checks : bool) (r : DiskReader)
    : outcome Error PartitionTable :=
  gpt_header ← read_exact_at r 512 512;
  if negb (bool_decide (take 8 gpt_header = efi_part)) then
    Err (Detection "Invalid GPT signature")
  else
    let partition_entries_lba := le_decode (sub gpt_header 72 8) in
    let num_entries := le_decode (sub gpt_header 80 4) in
    let entry_size := le_decode (sub gpt_header 84 4) in
    if negb ((48 <=? entry_size)%Z && (entry_size <=? 8192)%Z) then
      Err (Detection ("Invalid GPT entry size: " +:+ fmt_Z entry_size))
    else
      entries_offset ← u_arith overflow_checks 64 (partition_entries_lba * 512)%Z;
      partitions ← gpt_loop overflow_checks r entries_offset entry_size
        (seqZ 0 (Z.min num_entries 128));
      Ok (mk_PartitionTable partitions GPT).

(** [PartitionTable::parse]. *)
Definition parse (overflow_checks : bool) (r : DiskReader)
    : outcome Error PartitionTable :=
  mbr_sector ← read_exact_at r 0 512;
  if is_gpt mbr_sector then parse_gpt overflow_checks r
  else if is_mbr mbr_sector then parse_mbr mbr_sector
  else Ok (mk_PartitionTable [] UnknownTable).

(** ** Lemmas on sectors *)
Lemma sub_app_l a b from n :
  (from + n ≤ length a)%nat → sub (a ++ b) from n = sub a from n.
Proof.
  intros H. unfold sub. rewrite drop_app_le by lia. rewrite take_app_le; [done|].
  rewrite length_drop. lia.
Qed.

Lemma sub_app_r a b from n :
  sub (a ++ b) (length a + from) n = sub b from n.
Proof. unfold sub. rewrite drop_app_ge by lia. do 3 f_equal. lia. Qed.

Lemma idx_sub bs from n i : (i < n)%nat → idx (sub bs from n) i = idx bs (from + i).
Proof. intros Hi. unfold idx, sub. by rewrite lookup_take_lt, lookup_drop. Qed.

(** ** MBR layout

    The on-disk layout, as an encoder: boot code, four 16-byte slots, signature. *)
Record mbr_slot : Type := mk_mbr_slot {
  sl_active : bool;
  sl_chs_first : Z * Z * Z;
  sl_type : Z;
  sl_chs_last : Z * Z * Z;
  sl_start : Z;
  sl_size : Z
}.

Definition encode_slot (s : mbr_slot) : list Z :=
  let '(a, b, c) := sl_chs_first s in
  let '(d, e, f) := sl_chs_last s in
  [if sl_active s then 128 else 0; a; b; c; sl_type s; d; e; f]%Z
  ++ le_encode 4 (sl_start s) ++ le_encode 4 (sl_size s).

Definition encode_mbr (code : list Z) (slots : list mbr_slot) : list Z :=
  code ++ concat (encode_slot <$> slots) ++ [85; 170]%Z.

Definition slot_ok (s : mbr_slot) : Prop :=
  sl_type s ≠ 238%Z ∧ in_u 32 (sl_start s) ∧ in_u 32 (sl_size s).

(** the partition a slot describes. *)
Definition slot_partition (i : nat) (s : mbr_slot) : option Partition :=
  if (sl_type s =? 0)%Z then None
  else Some (mk_Partition (Z.of_nat i + 1) (sl_start s) (sl_size s) (sl_type s)
    (sl_active s) None).

Lemma length_encode_slot s : length (encode_slot s) = 16.
Proof.
  unfold encode_slot. destruct (sl_chs_first s) as [[? ?] ?],
    (sl_chs_last s) as [[? ?] ?].
  by rewrite !length_app, !length_le_encode.
Qed.

Lemma length_encode_slots slots :
  length (concat (encode_slot <$> slots)) = 16 * length slots.
Proof.
  induction slots as [|s slots IH]; [done|].
  rewrite fmap_cons. cbn [concat length]. rewrite length_app, IH, length_encode_slot. lia.
Qed.

Lemma sub_encode_slots slots i s :
  slots !! i = Some s → sub (concat (encode_slot <$> slots)) (i * 16) 16 = encode_slot s.
Proof.
  revert i. induction slots as [|s' slots IH]; intros i Hi; [done|].
  rewrite fmap_cons. cbn [concat]. pose proof (length_encode_slot s') as Hl.
  destruct i as [|i]; cbn in Hi.
  - injection Hi as ->. unfold sub. cbn [Nat.mul]. rewrite drop_0.
    by rewrite take_app_length'.
  - replace (S i * 16) with (length (encode_slot s') + i * 16) by (rewrite Hl; lia).
    rewrite sub_app_r. by apply IH.
Qed.

Section mbr.
Context (code : list Z) (slots : list mbr_slot).
Context (Hcode : length code = 446) (Hslots : length slots = 4).

Lemma length_encode_mbr : length (encode_mbr code slots) = 512.
Proof.
  unfold encode_mbr. rewrite !length_app, length_encode_slots, Hcode, Hslots. done.
Qed.

Lemma sub_encode_mbr i s :
  slots !! i = Some s → sub (encode_mbr code slots) (446 + i * 16) 16 = encode_slot s.
Proof.
  intros Hi. unfold encode_mbr. rewrite <-Hcode, sub_app_r.
  pose proof (lookup_lt_Some _ _ _ Hi). rewrite sub_app_l.
  - by apply sub_encode_slots.
  - rewrite length_encode_slots. lia.
Qed.

Lemma encode_mbr_signature :
  idx (encode_mbr code slots) 510 = 85%Z ∧ idx (encode_mbr code slots) 511 = 170%Z.
Proof.
  unfold encode_mbr, idx. rewrite app_assoc.
  assert (length (code ++ concat (encode_slot <$> slots)) = 510) as Hl
    by (rewrite length_app, length_encode_slots, Hcode, Hslots; done).
  rewrite !lookup_app_r by (rewrite Hl; lia). by rewrite Hl.
Qed.

Lemma mbr_entry_encode i s :
  slots !! i = Some s → in_u 32 (sl_start s) → in_u 32 (sl_size s) →
  mbr_entry (encode_mbr code slots) i = slot_partition i s.
Proof.
  intros Hi Hs Hz. unfold mbr_entry. rewrite (sub_encode_mbr i s Hi).
  unfold slot_partition, encode_slot.
  destruct (sl_chs_first s) as [[a b] c], (sl_chs_last s) as [[d e] f].
  unfold idx, sub. cbn -[le_encode]. destruct (sl_type s =? 0)%Z; [done|].
  rewrite drop_0, take_app_length' by (by rewrite length_le_encode).
  rewrite drop_app_length' by (by rewrite length_le_encode).
  rewrite take_ge by (rewrite length_le_encode; lia).
  unfold in_u in *. rewrite !le_decode_encode by lia.
  by destruct (sl_active s).
Qed.
End mbr.

(** a sector laid out as an MBR (any boot code, four slots, none of type
    0xEE) parses back to the partitions its slots describe: the used slots in
    order, numbered by their slot, with their type, start, size and boot flag. *)
Theorem mbr_roundtrip oc r code slots :
  length code = 446 → length slots = 4 → Forall slot_ok slots →
  reliable r → (512 ≤ img_len (dr_file r))%Z →
  img_slice (dr_file r) 0 512 = encode_mbr code slots →
  parse oc r = Ok (mk_PartitionTable
    (omap (fun i => slots !! i ≫= slot_partition i) (seq 0 4)) MBR).
Proof.
  intros Hcode Hslots Hok Hr Hlen Hslice. unfold parse.
  rewrite read_exact_at_in by (done || lia). rewrite Hslice. cbn [mbind outcome_bind].
  pose proof (length_encode_mbr code slots Hcode Hslots) as Hl.
  destruct (encode_mbr_signature code slots Hcode Hslots) as [H510 H511].
  assert (∀ i, (i < 4)%nat → ∃ s, slots !! i = Some s ∧ slot_ok s) as Hlk.
  { intros i Hi. destruct (lookup_lt_is_Some_2 slots i) as [s Hs]; [lia|].
    exists s. split; [done|]. by eapply Forall_lookup_1. }
  assert (is_gpt (encode_mbr code slots) = false) as ->.
  { unfold is_gpt. rewrite Hl, H510, H511, !Z.eqb_refl.
    change (512 <? 512)%nat with false. cbn [negb orb].
    apply not_true_is_false. rewrite existsb_elem_of. intros (i & Hi & Heq).
    apply elem_of_seq in Hi. destruct (Hlk i ltac:(lia)) as (s & Hs & Hsk & _).
    rewrite <-idx_sub with (n := 16) in Heq by lia.
    rewrite (sub_encode_mbr code slots Hcode Hslots i s Hs) in Heq.
    unfold encode_slot in Heq. destruct (sl_chs_first s) as [[? ?] ?],
      (sl_chs_last s) as [[? ?] ?]. unfold idx in Heq. cbn in Heq. bool_solve. done. }
  unfold is_mbr. rewrite Hl, H510, H511, !Z.eqb_refl.
  change (512 <? 512)%nat with false. cbn [andb].
  unfold parse_mbr. do 2 f_equal. apply list_omap_ext, Forall_Forall2_diag, Forall_forall.
  intros i Hi%elem_of_seq. destruct (Hlk i ltac:(lia)) as (s & Hs & _ & ? & ?).
  rewrite Hs. cbn. by apply mbr_entry_encode.
Qed.

Lemma mbr_roundtrip_witness :
  let code := replicate 446 0%Z in
  let slots :=
    [mk_mbr_slot true (32, 33, 0)%Z 131 (170, 40, 130)%Z 2048 1048576;
     mk_mbr_slot false (0, 0, 0)%Z 0 (0, 0, 0)%Z 0 0;
     mk_mbr_slot false (0, 0, 0)%Z 130 (0, 0, 0)%Z 1050624 4096;
     mk_mbr_slot false (0, 0, 0)%Z 0 (0, 0, 0)%Z 0 0] in
  parse true (reader_of (encode_mbr code slots)) =
  Ok (mk_PartitionTable
    [mk_Partition 1 2048 1048576 131 true None;
     mk_Partition 3 1050624 4096 130 false None] MBR).
Proof.
  intros code slots.
  assert (length (encode_mbr code slots) = 512) as Hl by (by vm_compute).
  exact (mbr_roundtrip true (reader_of (encode_mbr code slots)) code slots
    eq_refl eq_refl
    ltac:(unfold slots, slot_ok, in_u; repeat constructor; cbn; lia)
    (reader_of_reliable _)
    ltac:(cbn [reader_of dr_file image_of img_len]; rewrite Hl; lia)
    ltac:(cbn [reader_of dr_file]; rewrite <-(img_slice_image_of (encode_mbr code slots)) at 2;
          by rewrite Hl)).
Defined.

(** ** GPT *)
(** What one entry decodes to when no arithmetic overflows: the reference the
    loop is compared with. *)
Definition gpt_entry_ref (f : image) (entries_offset entry_size i : Z)
    : option Partition :=
  let entry := img_slice f (entries_offset + i * entry_size) entry_size in
  let first := le_decode (sub entry 32 8) in
  let last := le_decode (sub entry 40 8) in
  if forallb (fun b => b =? 0)%Z (take 16 entry) then None
  else if ((first =? 0) && (last =? 0) || (last <? first))%Z then None
  else Some (mk_Partition (i + 1) first (last - first + 1) 0 false
    (Some (fmt_guid entry))).

Lemma sub_bytes bs from n : Forall byte_ok bs → Forall byte_ok (sub bs from n).
Proof. intros H. by apply Forall_take, Forall_drop. Qed.

Lemma sub_le_decode_bound bs from n :
  Forall byte_ok bs → (0 ≤ le_decode (sub bs from n) < 256 ^ Z.of_nat n)%Z.
Proof.
  intros H. pose proof (le_decode_bound (sub bs from n) (sub_bytes _ _ _ H)) as Hb.
  assert (length (sub bs from n) ≤ n)%nat.
  { unfold sub. rewrite length_take. lia. }
  pose proof (Z.pow_le_mono_r 256 (Z.of_nat (length (sub bs from n))) (Z.of_nat n)). lia.
Qed.

(** every entry [0 .. n-1] lies in the image, and none spans all of [u64]. *)
Definition gpt_entries_ok (f : image) (entries_offset entry_size n : Z) : Prop :=
  (entries_offset + n * entry_size ≤ img_len f)%Z ∧
  ∀ i, (0 ≤ i < n)%Z →
    let entry := img_slice f (entries_offset + i * entry_size) entry_size in
    ¬ (le_decode (sub entry 32 8) = 0 ∧ le_decode (sub entry 40 8) = 2 ^ 64 - 1)%Z.

Lemma gpt_entry_decodes oc f entries_offset entry_size i :
  image_ok f →
  let entry := img_slice f (entries_offset + i * entry_size) entry_size in
  ¬ (le_decode (sub entry 32 8) = 0 ∧ le_decode (sub entry 40 8) = 2 ^ 64 - 1)%Z →
  gpt_entry oc entry i = Ok (gpt_entry_ref f entries_offset entry_size i).
Proof.
  intros Hf entry Hspan. unfold gpt_entry, gpt_entry_ref. fold entry.
  destruct (forallb _ _); [done|].
  assert (Forall byte_ok entry) as Hb by (by apply img_slice_bytes).
  pose proof (sub_le_decode_bound entry 32 8 Hb) as H1.
  pose proof (sub_le_decode_bound entry 40 8 Hb) as H2.
  set (first := le_decode (sub entry 32 8)) in *.
  set (last := le_decode (sub entry 40 8)) in *.
  destruct ((first =? 0)%Z && (last =? 0)%Z); [done|]. cbn [orb].
  destruct (last <? first)%Z eqn:E; [done|]. bool_solve.
  rewrite u_arith_in_range; [done|]. unfold in_u. lia.
Qed.

Lemma gpt_loop_decodes oc r entries_offset entry_size n : ∀ k,
  reliable r → image_ok (dr_file r) → (48 ≤ entry_size)%Z → (0 ≤ entries_offset)%Z →
  (0 ≤ k ≤ n)%Z → gpt_entries_ok (dr_file r) entries_offset entry_size n →
  gpt_loop oc r entries_offset entry_size (seqZ (n - k) k) =
  Ok (omap (gpt_entry_ref (dr_file r) entries_offset entry_size) (seqZ (n - k) k)).
Proof.
  intros k Hr Hf He Ho Hk [Hin Hspan].
  assert (0 ≤ k)%Z as Hpos by lia. revert Hk. pattern k.
  apply natlike_ind with (x := k); [| |done].
  - intros _. by rewrite Z.sub_0_r.
  - clear k Hpos. intros k Hk0 IH Hk.
    rewrite !(seqZ_cons (n - Z.succ k)) by lia.
    replace (Z.succ (n - Z.succ k)) with (n - k)%Z by lia.
    replace (Z.pred (Z.succ k)) with k by lia.
    cbn [gpt_loop]. destruct Hf as [Hlen Hbytes].
    assert ((n - Z.succ k) * entry_size + entry_size ≤ n * entry_size)%Z by nia.
    assert (0 ≤ (n - Z.succ k) * entry_size)%Z by nia.
    rewrite u_arith_in_range by (unfold in_u; lia). cbn [mbind outcome_bind].
    rewrite read_exact_at_in by (done || lia). cbn [mbind outcome_bind].
    rewrite gpt_entry_decodes; [|done|apply Hspan; lia]. cbn [mbind outcome_bind].
    rewrite IH by lia. cbn [mbind outcome_bind omap list_omap].
    by destruct (gpt_entry_ref _ _ _ _).
Qed.

(** the table in terms of the slices of the image: the two arithmetic operations stay in
    range, every read is inside. *)
Lemma gpt_slices oc r :
  reliable r → image_ok (dr_file r) → (1024 ≤ img_len (dr_file r))%Z →
  let hdr := img_slice (dr_file r) 512 512 in
  let entries_offset := (le_decode (sub hdr 72 8) * 512)%Z in
  let entry_size := le_decode (sub hdr 84 4) in
  let n := Z.min (le_decode (sub hdr 80 4)) 128 in
  take 8 hdr = efi_part → (48 ≤ entry_size ≤ 8192)%Z → (entries_offset < 2 ^ 64)%Z →
  gpt_entries_ok (dr_file r) entries_offset entry_size n →
  parse_gpt oc r = Ok (mk_PartitionTable
    (omap (gpt_entry_ref (dr_file r) entries_offset entry_size) (seqZ 0 n)) GPT).
Proof.
  intros Hr Hf Hlen hdr entries_offset entry_size n Hsig Hsize Hoff Hin.
  unfold parse_gpt. rewrite read_exact_at_in by (done || lia). cbn [mbind outcome_bind].
  fold hdr. rewrite bool_decide_eq_true_2 by done. cbn [negb].
  fold entry_size. destruct Hsize as [H48 H8192].
  assert (Forall byte_ok hdr) as Hb by (by apply img_slice_bytes).
  pose proof (sub_le_decode_bound hdr 72 8 Hb).
  pose proof (sub_le_decode_bound hdr 80 4 Hb).
  rewrite (proj2 (Z.leb_le 48 entry_size)), (proj2 (Z.leb_le entry_size 8192)) by done.
  cbn [negb andb]. rewrite u_arith_in_range by (unfold in_u; unfold entries_offset in Hoff; lia).
  cbn [mbind outcome_bind]. fold entries_offset. fold n.
  pose proof (gpt_loop_decodes oc r entries_offset entry_size n n) as Hloop.
  rewrite Z.sub_diag in Hloop. rewrite Hloop; [done|..]; try done; lia.
Qed.

(** *** The layout as the UEFI specification writes it
    A GUID is five numbers; on the disk the first three are little-endian and the other
    two big-endian, in text all five are hexadecimal with the most significant digit
    first. *)
Record Guid := mk_Guid {
  gd_time_low : Z;
  gd_time_mid : Z;
  gd_time_high : Z;
  gd_clock : Z;
  gd_node : Z
}.
#[export] Instance Guid_eq : EqDecision Guid.
Proof. solve_decision. Defined.

Fixpoint hex_fixed (k : nat) (z : Z) : string :=
  match k with
  | O => ""
  | S k => hex_fixed k (z / 16) +:+ hex_digit (z mod 16)
  end.
Definition guid_text (g : Guid) : string :=
  hex_fixed 8 (gd_time_low g) +:+ "-" +:+ hex_fixed 4 (gd_time_mid g) +:+ "-"
  +:+ hex_fixed 4 (gd_time_high g) +:+ "-" +:+ hex_fixed 4 (gd_clock g) +:+ "-"
  +:+ hex_fixed 12 (gd_node g).
Definition encode_guid (g : Guid) : list Z :=
  le_encode 4 (gd_time_low g) ++ le_encode 2 (gd_time_mid g)
  ++ le_encode 2 (gd_time_high g) ++ be_encode 2 (gd_clock g) ++ be_encode 6 (gd_node g).
Definition guid_ok (g : Guid) : Prop :=
  in_u 32 (gd_time_low g) ∧ in_u 16 (gd_time_mid g) ∧ in_u 16 (gd_time_high g) ∧
  in_u 16 (gd_clock g) ∧ in_u 48 (gd_node g).
(** the type of an unused entry. *)
Definition unused_guid : Guid := mk_Guid 0 0 0 0 0.

Record gpt_slot := mk_gpt_slot {
  gs_type : Guid;
  gs_unique : list Z;   (** the partition's own GUID *)
  gs_first : Z;
  gs_last : Z;
  gs_rest : list Z      (** attributes, name and whatever the entry size adds *)
}.
Definition encode_gpt_slot (s : gpt_slot) : list Z :=
  encode_guid (gs_type s) ++ gs_unique s ++ le_encode 8 (gs_first s)
  ++ le_encode 8 (gs_last s) ++ gs_rest s.
Definition gpt_slot_ok (entry_size : Z) (s : gpt_slot) : Prop :=
  guid_ok (gs_type s) ∧ length (gs_unique s) = 16 ∧
  in_u 64 (gs_first s) ∧ in_u 64 (gs_last s) ∧
  Z.of_nat (length (gs_rest s)) = (entry_size - 48)%Z ∧
  ¬ (gs_first s = 0 ∧ gs_last s = 2 ^ 64 - 1)%Z.
Definition gpt_partition (i : Z) (s : gpt_slot) : option Partition :=
  if bool_decide (gs_type s = unused_guid) then None
  else if bool_decide (gs_first s = 0 ∧ gs_last s = 0)%Z then None
  else if bool_decide (gs_last s < gs_first s)%Z then None
  else Some (mk_Partition (i + 1) (gs_first s) (gs_last s - gs_first s + 1) 0 false
    (Some (guid_text (gs_type s)))).
Definition encode_gpt_header (mid : list Z) (lba num size : Z) (tail : list Z) : list Z :=
  efi_part ++ mid ++ le_encode 8 lba ++ le_encode 4 num ++ le_encode 4 size ++ tail.

(** one byte is two digits; a little-endian number read backwards is its text. *)
Lemma hex_fixed_byte k z :
  hex_fixed (S (S k)) z = hex_fixed k (z / 256) +:+ fmt_02x (z mod 256).
Proof.
  cbn [hex_fixed]. unfold fmt_02x. rewrite text_app_assoc, Z.div_div by lia.
  change (16 * 16)%Z with 256%Z. do 2 f_equal; f_equal; Z.div_mod_to_equations; lia.
Qed.

Lemma fmt_le n z :
  hex_fixed (2 * n) z = foldr (fun b s => s +:+ fmt_02x b) "" (le_encode n z).
Proof.
  revert z. induction n as [|n IH]; intros z; [done|].
  replace (2 * S n) with (S (S (2 * n))) by lia.
  by rewrite hex_fixed_byte, IH.
Qed.

(** the texts the code formats byte by byte. *)
Lemma fmt_guid_encode g rest : fmt_guid (encode_guid g ++ rest) = guid_text g.
Proof.
  unfold guid_text.
  rewrite (fmt_le 4), (fmt_le 6), !(fmt_le 2).
  unfold fmt_guid, encode_guid, be_encode. cbn.
  by rewrite !text_app_assoc, !text_app_nil.
Qed.

Lemma length_encode_guid g : length (encode_guid g) = 16.
Proof.
  unfold encode_guid.
  by rewrite !length_app, !length_le_encode, !length_be_encode.
Qed.

Lemma all_zero_decode l :
  forallb (fun b => b =? 0)%Z l = true → le_decode l = 0%Z.
Proof.
  induction l as [|b l IH]; [done|]. cbn. intros [->%Z.eqb_eq Hl]%andb_true_iff.
  rewrite IH by done. done.
Qed.

Lemma all_zero_reverse l :
  forallb (fun b => b =? 0)%Z (reverse l) = forallb (fun b => b =? 0)%Z l.
Proof.
  induction l as [|b l IH]; [done|].
  rewrite reverse_cons, forallb_app, IH. cbn [forallb]. by rewrite andb_true_r, andb_comm.
Qed.

Lemma all_zero_le n z :
  (0 ≤ z < 256 ^ Z.of_nat n)%Z →
  forallb (fun b => b =? 0)%Z (le_encode n z) = true → z = 0%Z.
Proof.
  intros Hz H%all_zero_decode. by rewrite le_decode_encode in H.
Qed.

Lemma guid_unused g rest :
  guid_ok g →
  forallb (fun b => b =? 0)%Z (take 16 (encode_guid g ++ rest)) =
  bool_decide (g = unused_guid).
Proof.
  intros (H1 & H2 & H3 & H4 & H5). destruct g as [a b c d e].
  cbn in H1, H2, H3, H4, H5.
  rewrite take_app_length' by (by rewrite length_encode_guid).
  apply eq_true_iff_eq. rewrite bool_decide_eq_true.
  split; [|intros [= -> -> -> -> ->]; by vm_compute].
  unfold encode_guid, be_encode. cbn [gd_time_low gd_time_mid gd_time_high gd_clock gd_node].
  rewrite !forallb_app, !all_zero_reverse, !andb_true_iff.
  intros (Ha & Hb & Hc & Hd & He). unfold in_u in *.
  apply all_zero_le in Ha, Hb, Hc, Hd, He; try (cbn; lia). by subst.
Qed.

(** the fields of an encoded entry, at the offsets the parser uses. *)
Lemma gpt_slot_fields es s :
  gpt_slot_ok es s →
  sub (encode_gpt_slot s) 32 8 = le_encode 8 (gs_first s) ∧
  sub (encode_gpt_slot s) 40 8 = le_encode 8 (gs_last s).
Proof.
  intros (_ & Hu & _). pose proof (length_encode_guid (gs_type s)) as Hg.
  unfold encode_gpt_slot, sub. rewrite (app_assoc (encode_guid _)).
  split.
  - rewrite drop_app_length' by (rewrite length_app; lia).
    by rewrite take_app_length' by (by rewrite length_le_encode).
  - rewrite (app_assoc (_ ++ _)).
    rewrite drop_app_length' by (rewrite !length_app, length_le_encode; lia).
    by rewrite take_app_length' by (by rewrite length_le_encode).
Qed.

Lemma length_gpt_slot es s :
  gpt_slot_ok es s → Z.of_nat (length (encode_gpt_slot s)) = es.
Proof.
  intros (_ & Hu & _ & _ & Hr & _). unfold encode_gpt_slot.
  rewrite !length_app, length_encode_guid, !length_le_encode. lia.
Qed.

(** entries written one after the other are found again at their offsets. *)
Lemma gpt_slots_slices f es slots : ∀ off i s,
  (0 ≤ es)%Z → Forall (gpt_slot_ok es) slots →
  img_slice f off (Z.of_nat (length slots) * es) = concat (encode_gpt_slot <$> slots) →
  slots !! i = Some s →
  img_slice f (off + Z.of_nat i * es) es = encode_gpt_slot s.
Proof.
  induction slots as [|s0 slots IH]; intros off i s Hes Hok Hf Hi; [done|].
  apply Forall_cons in Hok as [H0 Hok]. cbn [fmap list_fmap concat length] in Hf.
  replace (Z.of_nat (S (length slots)) * es)%Z with (es + Z.of_nat (length slots) * es)%Z
    in Hf by lia.
  rewrite <-img_slice_app in Hf by nia.
  apply app_inj_1 in Hf as [Hhd Htl].
  2: { rewrite length_img_slice. pose proof (length_gpt_slot _ _ H0). lia. }
  destruct i as [|i]; cbn in Hi; [simplify_eq; by rewrite Z.mul_0_l, Z.add_0_r|].
  replace (off + Z.of_nat (S i) * es)%Z with (off + es + Z.of_nat i * es)%Z by lia.
  by eapply IH.
Qed.

Lemma gpt_entry_ref_slot f off es i s :
  gpt_slot_ok es s → img_slice f (off + i * es) es = encode_gpt_slot s →
  gpt_entry_ref f off es i = gpt_partition i s.
Proof.
  intros Hs Hf. unfold gpt_entry_ref, gpt_partition. rewrite Hf.
  destruct (gpt_slot_fields es s Hs) as [-> ->].
  destruct Hs as (Hg & _ & H1 & H2 & _). unfold in_u in H1, H2.
  rewrite !le_decode_encode by (cbn; lia).
  unfold encode_gpt_slot. rewrite guid_unused, fmt_guid_encode by done.
  destruct (bool_decide (gs_type s = _)); [done|].
  repeat case_bool_decide; repeat case_match; bool_solve; try done; lia.
Qed.

Lemma gpt_header_fields mid lba num size tail :
  length mid = 64 →
  let hdr := encode_gpt_header mid lba num size tail in
  take 8 hdr = efi_part ∧ sub hdr 72 8 = le_encode 8 lba ∧
  sub hdr 80 4 = le_encode 4 num ∧ sub hdr 84 4 = le_encode 4 size.
Proof.
  intros Hm hdr. unfold hdr, encode_gpt_header, sub.
  split; [done|]. rewrite (app_assoc efi_part).
  split; [|split].
  - rewrite drop_app_length' by (rewrite length_app; cbn; lia).
    by rewrite take_app_length' by (by rewrite length_le_encode).
  - rewrite (app_assoc (_ ++ _)).
    rewrite drop_app_length' by (rewrite !length_app, length_le_encode; cbn; lia).
    by rewrite take_app_length' by (by rewrite length_le_encode).
  - rewrite (app_assoc (_ ++ _)), (app_assoc (_ ++ _)).
    rewrite drop_app_length' by (rewrite !length_app, !length_le_encode; cbn; lia).
    by rewrite take_app_length' by (by rewrite length_le_encode).
Qed.

(** C28: a GPT written as the UEFI specification lays it out is read back, in either
    build profile, when reads are reliable and the entry array lies in the image.  The
    writer is a reference of its own: a header with the signature, the array's LBA [lba],
    the number [num] of entries and the entry size (48 to 8192 bytes); then the entries,
    each a type GUID as five numbers (three little-endian, two big-endian), 16 bytes of
    identity, first and last LBA and the rest.  No entry may span the LBAs from 0 to
    [u64::MAX] (see [gpt_size_overflow]).  Parsing returns, in order, one partition for
    each of the first [min(num, 128)] entries whose type is not the zero GUID, whose LBAs
    are not both zero and do not run backwards, with its 1-based index, first LBA, sector
    count, and the GUID's text: the five numbers in hexadecimal with the most significant
    digit first. *)
Theorem gpt_decodes oc r mid lba num size tail slots :
  reliable r → image_ok (dr_file r) →
  length mid = 64 → length tail = 424 → in_u 64 lba → in_u 32 num → (48 ≤ size ≤ 8192)%Z →
  (1024 ≤ img_len (dr_file r))%Z →
  img_slice (dr_file r) 512 512 = encode_gpt_header mid lba num size tail →
  Z.of_nat (length slots) = Z.min num 128 → Forall (gpt_slot_ok size) slots →
  (lba * 512 + Z.min num 128 * size ≤ img_len (dr_file r))%Z →
  img_slice (dr_file r) (lba * 512) (Z.min num 128 * size) =
    concat (encode_gpt_slot <$> slots) →
  parse_gpt oc r = Ok (mk_PartitionTable
    (omap (fun i => slots !! Z.to_nat i ≫= gpt_partition i) (seqZ 0 (Z.min num 128))) GPT).
Proof.
  intros Hr Hf Hm _ Hlba Hnum Hsize Hlen Hhdr Hn Hok Hin Hslots.
  unfold in_u in Hlba, Hnum. destruct (gpt_header_fields mid lba num size tail Hm)
    as (Hsig & H72 & H80 & H84). rewrite <-Hhdr in Hsig, H72, H80, H84.
  pose proof (gpt_slices oc r Hr Hf Hlen) as H. cbv zeta in H.
  rewrite H72, H80, H84, !le_decode_encode in H by (cbn; lia).
  assert (∀ i, (0 ≤ i < Z.min num 128)%Z → ∃ s, slots !! Z.to_nat i = Some s ∧
    gpt_slot_ok size s ∧
    img_slice (dr_file r) (lba * 512 + i * size) size = encode_gpt_slot s) as Hlk.
  { intros i Hi. destruct (lookup_lt_is_Some_2 slots (Z.to_nat i)) as [s Hs]; [lia|].
    exists s. split; [done|]. split; [by eapply Forall_lookup_1|].
    rewrite <-(Z2Nat.id i) by lia. apply (gpt_slots_slices _ _ slots); [lia|done| |done].
    by rewrite Hn. }
  rewrite H; [|done|done| |split; [done|]].
  - do 2 f_equal. apply list_omap_ext, Forall_Forall2_diag, Forall_forall.
    intros i Hi%elem_of_seqZ. destruct (Hlk i) as (s & Hs & Hs1 & Hs2); [lia|].
    rewrite Hs. by apply gpt_entry_ref_slot.
  - destruct Hf. lia.
  - intros i Hi entry. destruct (Hlk i Hi) as (s & _ & Hs1 & Hs2).
    unfold entry. rewrite Hs2. destruct (gpt_slot_fields _ _ Hs1) as [-> ->].
    destruct Hs1 as (_ & _ & H1 & H2 & _ & Hspan). unfold in_u in H1, H2.
    by rewrite !le_decode_encode by (cbn; lia).
Qed.

(** a partition entry read from GPT, on any disk and any system. *)
Definition partition_ok (p : Partition) : Prop :=
  (1 ≤ pt_number p ≤ 128)%Z ∧ (0 ≤ pt_start_lba p)%Z ∧ (1 ≤ pt_size_sectors p)%Z ∧
  (pt_start_lba p + pt_size_sectors p ≤ 2 ^ 64)%Z ∧ pt_type_id p = 0%Z ∧
  pt_bootable p = false ∧ is_Some (pt_type_guid p).

Lemma gpt_entry_ok r offset entry_size i entry p :
  image_ok (dr_file r) → (48 ≤ entry_size)%Z → (0 ≤ i < 128)%Z →
  read_exact_at r offset entry_size = Ok entry →
  gpt_entry true entry i = Ok (Some p) → partition_ok p ∧ pt_number p = (i + 1)%Z.
Proof.
  intros Hf He Hi Hread Hp. apply read_exact_at_Ok in Hread as (-> & _ & _); [|lia].
  assert (Forall byte_ok (img_slice (dr_file r) offset entry_size)) as Hb
    by (by apply img_slice_bytes).
  set (entry := img_slice _ _ _) in *. unfold gpt_entry in Hp.
  pose proof (sub_le_decode_bound entry 32 8 Hb).
  pose proof (sub_le_decode_bound entry 40 8 Hb).
  destruct (forallb _ _); [done|]. destruct (_ && _) in Hp; [done|].
  destruct (_ <? _)%Z eqn:E in Hp; [done|]. bool_solve.
  unfold u_arith in Hp. destruct (_ && _) eqn:Er in Hp; [|done]. bool_solve.
  injection Hp as <-. unfold partition_ok. cbn. repeat split; (done || lia).
Qed.

Lemma gpt_loop_ok r entries_offset entry_size : ∀ ixs ps,
  image_ok (dr_file r) → (48 ≤ entry_size)%Z →
  Forall (fun i => 0 ≤ i < 128)%Z ixs → StronglySorted Z.lt ixs →
  gpt_loop true r entries_offset entry_size ixs = Ok ps →
  Forall partition_ok ps ∧ StronglySorted Z.lt (pt_number <$> ps) ∧
  Forall (fun p => pt_number p - 1 ∈ ixs)%Z ps.
Proof.
  intros ixs. induction ixs as [|i ixs IH]; intros ps Hf He Hi Hs Hps.
  - injection Hps as <-. repeat constructor.
  - cbn [gpt_loop] in Hps.
    apply Forall_cons in Hi as [Hi Hixs]. apply StronglySorted_inv in Hs as [Hs Hlt].
    apply outcome_bind_Ok in Hps as (offset & _ & Hps).
    apply outcome_bind_Ok in Hps as (entry & Hread & Hps).
    apply outcome_bind_Ok in Hps as (p & Hp & Hps).
    apply outcome_bind_Ok in Hps as (ps' & Hps' & Hps).
    destruct (IH ps') as (Hok & Hsort & Hin); [done..|].
    assert (Forall (fun p => pt_number p - 1 ∈ i :: ixs)%Z ps') as Hin'.
    { eapply Forall_impl; [done|]. intros q ?. by apply elem_of_cons; right. }
    destruct p as [p|]; injection Hps as <-; [|done].
    destruct (gpt_entry_ok r offset entry_size i entry p) as [Hp1 Hp2]; [done..|].
    split; [by constructor|]. split.
    + rewrite fmap_cons. constructor; [done|]. apply Forall_fmap.
      eapply Forall_impl; [exact Hin|]. intros q Hq. cbn in *.
      rewrite Forall_forall in Hlt. specialize (Hlt _ Hq). lia.
    + constructor; [|done]. rewrite Hp2. apply elem_of_cons. left. lia.
Qed.

Lemma seqZ_sorted n : ∀ m, StronglySorted Z.lt (seqZ m n).
Proof.
  intros m. unfold seqZ. generalize (Z.to_nat n) as k. intros k.
  generalize 0 as a. induction k as [|k IH]; intros a; cbn; constructor; [apply IH|].
  apply Forall_fmap, Forall_forall. intros x [Hx _]%elem_of_seq. cbn. lia.
Qed.

(** whatever the disk holds and however the system splits or fails reads, a
    GPT accepted by the overflow-checked build has at most 128 partitions with
    strictly increasing numbers in 1..128, at least one sector each, and no
    partition reaches past the 64-bit sector range. *)
Theorem gpt_partitions_ok r t :
  image_ok (dr_file r) → parse_gpt true r = Ok t →
  Forall partition_ok (ptt_partitions t) ∧
  StronglySorted Z.lt (pt_number <$> ptt_partitions t) ∧
  ptt_table_type t = GPT.
Proof.
  intros Hf Ht. unfold parse_gpt in Ht.
  apply outcome_bind_Ok in Ht as (hdr & _ & Ht).
  destruct (negb (bool_decide _)) in Ht; [done|].
  destruct (negb _) eqn:Hsize in Ht; [done|]. bool_solve.
  apply outcome_bind_Ok in Ht as (off & _ & Ht).
  apply outcome_bind_Ok in Ht as (ps & Hps & Ht). injection Ht as <-. cbn.
  eapply gpt_loop_ok in Hps as (? & ? & _); [done..| |apply seqZ_sorted].
  apply Forall_forall. intros i Hi%elem_of_seqZ. lia.
Qed.

(** ** Concrete GPT disks *)
Definition gpt_header_bytes (lba num size : Z) : list Z :=
  efi_part ++ replicate 64 0%Z ++ le_encode 8 lba ++ le_encode 4 num
  ++ le_encode 4 size ++ replicate 424 0%Z.
Definition gpt_entry_bytes (guid : list Z) (first last : Z) : list Z :=
  guid ++ replicate 16 7%Z ++ le_encode 8 first ++ le_encode 8 last
  ++ replicate 80 0%Z.
Definition linux_guid : list Z :=
  [175; 61; 198; 15; 131; 132; 114; 71; 142; 121; 61; 105; 216; 71; 125; 228]%Z.
(** a disk of two sectors and one entry; the header points at [lba]. *)
Definition gpt_disk (lba first last : Z) : DiskReader :=
  reader_of (replicate 512 0%Z ++ gpt_header_bytes lba 1 128
             ++ gpt_entry_bytes linux_guid first last).

Lemma image_of_ok bytes :
  Forall byte_ok bytes → (Z.of_nat (length bytes) < 2 ^ 63)%Z → image_ok (image_of bytes).
Proof.
  intros Hb Hl. split; [cbn; lia|]. intros i. cbn.
  destruct (0 <=? i)%Z; [|unfold byte_ok; lia].
  destruct (bytes !! Z.to_nat i) eqn:E; cbn; [|unfold byte_ok; lia].
  by eapply Forall_lookup_1.
Qed.

Lemma gpt_disk_ok lba first last : image_ok (dr_file (gpt_disk lba first last)).
Proof.
  apply image_of_ok.
  - unfold gpt_header_bytes, gpt_entry_bytes, efi_part, linux_guid.
    rewrite !Forall_app. repeat split; try apply le_encode_bytes;
      try (apply Forall_replicate; unfold byte_ok; lia);
      repeat constructor; lia.
  - unfold gpt_header_bytes, gpt_entry_bytes.
    rewrite !length_app, !length_replicate, !length_le_encode. cbn. lia.
Qed.

Example gpt_disk_parses :
  parse_gpt true (gpt_disk 2 2048 4095) = Ok (mk_PartitionTable
    [mk_Partition 1 2048 2048 0 false
       (Some "0fc63daf-8483-4772-8e79-3d69d8477de4")] GPT).
Proof. by vm_compute. Qed.

(** a disk with two of three slots used, one of them a Linux filesystem. *)
Definition linux_type : Guid := mk_Guid 0x0FC63DAF 0x8483 0x4772 0x8E79 0x3D69D8477DE4.
Definition three_slots : list gpt_slot :=
  [mk_gpt_slot linux_type (replicate 16 7%Z) 2048 4095 (replicate 80 0%Z);
   mk_gpt_slot unused_guid (replicate 16 0%Z) 0 0 (replicate 80 0%Z);
   mk_gpt_slot (mk_Guid 0xC12A7328 0xF81F 0x11D2 0xBA4B 0x00A0C93EC93B)
     (replicate 16 8%Z) 4096 8191 (replicate 80 0%Z)].
Definition three_disk : list Z :=
  replicate 512 0%Z
  ++ encode_gpt_header (replicate 64 0%Z) 2 3 128 (replicate 424 0%Z)
  ++ concat (encode_gpt_slot <$> three_slots).

Lemma gpt_decodes_witness :
  parse_gpt false (reader_of three_disk) = Ok (mk_PartitionTable
    [mk_Partition 1 2048 2048 0 false (Some "0fc63daf-8483-4772-8e79-3d69d8477de4");
     mk_Partition 3 4096 4096 0 false (Some "c12a7328-f81f-11d2-ba4b-00a0c93ec93b")] GPT).
Proof.
  assert (image_ok (dr_file (reader_of three_disk))) as Hok.
  { apply image_of_ok; [|by vm_compute].
    apply (bool_decide_unpack _). by vm_compute. }
  exact (gpt_decodes false (reader_of three_disk) (replicate 64 0%Z) 2 3 128
    (replicate 424 0%Z) three_slots (reader_of_reliable _) Hok eq_refl eq_refl
    ltac:(unfold in_u; lia) ltac:(unfold in_u; lia) ltac:(lia) ltac:(by vm_compute)
    ltac:(by vm_compute) eq_refl
    ltac:(unfold three_slots, gpt_slot_ok, guid_ok, in_u; repeat constructor; cbn; lia)
    ltac:(by vm_compute) ltac:(by vm_compute)).
Defined.

Lemma gpt_partitions_ok_witness :
  ∃ t, parse_gpt true (gpt_disk 2 2048 4095) = Ok t ∧
    Forall partition_ok (ptt_partitions t) ∧
    StronglySorted Z.lt (pt_number <$> ptt_partitions t) ∧ ptt_table_type t = GPT.
Proof.
  eexists. split; [exact gpt_disk_parses|].
  exact (gpt_partitions_ok (gpt_disk 2 2048 4095) _ (gpt_disk_ok _ _ _) gpt_disk_parses).
Defined.

(** an entry that spans the whole 64-bit sector range (first LBA 0, last LBA
    [u64::MAX]) passes every check of the loop, and the sector count overflows:
    the dev build panics on the image, the release build reports a partition of
    zero sectors. *)
Theorem gpt_size_overflow :
  ∃ r, reliable r ∧ image_ok (dr_file r) ∧
    parse_gpt true r = Panic ∧
    ∃ p, parse_gpt false r = Ok (mk_PartitionTable [p] GPT) ∧ pt_size_sectors p = 0%Z.
Proof.
  exists (gpt_disk 2 0 (2 ^ 64 - 1)).
  split; [apply reader_of_reliable|]. split; [apply gpt_disk_ok|].
  split; [by vm_compute|]. eexists. split; [by vm_compute|done].
Qed.

(** the entry array's byte offset is [lba * 512] without a check (the
    filesystem detector checks the same product): an LBA of [2^55 + 2] makes the
    dev build panic and the release build read the entries at LBA 2. *)
Theorem gpt_offset_overflow :
  ∃ r lba, reliable r ∧ image_ok (dr_file r) ∧ in_u 64 lba ∧ lba ≠ 2%Z ∧
    sub (img_slice (dr_file r) 512 512) 72 8 = le_encode 8 lba ∧
    parse_gpt true r = Panic ∧
    parse_gpt false r = parse_gpt false (gpt_disk 2 2048 4095).
Proof.
  exists (gpt_disk (2 ^ 55 + 2) 2048 4095), (2 ^ 55 + 2)%Z.
  split; [apply reader_of_reliable|]. split; [apply gpt_disk_ok|].
  split; [unfold in_u; lia|]. split; [done|]. split; [by vm_compute|].
  split; by vm_compute.
Qed.
