(* ===== verification/Filesystem.v ===== *)
(** * Filesystem detection

    [src/disk/filesystem.rs]: twelve detectors tried in order on the bytes of a
    partition.  A detector that fails, for whatever reason, is skipped; a panic
    (an overflowing addition in the dev build) is not. *)
From stdpp Require Import base strings list list_numbers.
From Stdlib Require Import ZArith Lia Ascii.
From S2P Require Import Prelude RustStr DiskReader Partition.

Inductive FileSystemType : Set :=
  | Ext | Ntfs | Fat32 | ExFat | Xfs | Btrfs | Zfs | Ufs | HfsPlus | Apfs
  | Iso9660 | Swap | UnknownFs.
#[export] Instance FileSystemType_eq_dec : EqDecision FileSystemType.
Proof. solve_decision. Defined.

Record FileSystem : Type := mk_FileSystem {
  fs_type : FileSystemType;
  fs_label : option string;
  fs_uuid : option string
}.

(** a filesystem recognised by its signature alone. *)
Definition plain_fs (t : FileSystemType) : FileSystem := mk_FileSystem t None None.

(** ** [String::from_utf8_lossy]

    Invalid sequences become U+FFFD, one per maximal invalid prefix.  [utf8_step]
    looks at the first bytes: how many it consumes, and whether they are valid. *)
Definition is_cont (b : Z) : bool := (128 <=? b)%Z && (b <=? 191)%Z.
Definition in_bytes (lo hi b : Z) : bool := (lo <=? b)%Z && (b <=? hi)%Z.

Definition utf8_step (bs : list Z) : nat * bool :=
  let b0 := idx bs 0 in
  let b1 := idx bs 1 in
  let b2 := idx bs 2 in
  let b3 := idx bs 3 in
  if (b0 <? 128)%Z then (1, true)
  else if in_bytes 194 223 b0 then
    if is_cont b1 then (2, true) else (1, false)
  else if in_bytes 224 239 b0 then
    if negb (if (b0 =? 224)%Z then in_bytes 160 191 b1
             else if (b0 =? 237)%Z then in_bytes 128 159 b1
             else is_cont b1) then (1, false)
    else if is_cont b2 then (3, true) else (2, false)
  else if in_bytes 240 244 b0 then
    if negb (if (b0 =? 240)%Z then in_bytes 144 191 b1
             else if (b0 =? 244)%Z then in_bytes 128 143 b1
             else is_cont b1) then (1, false)
    else if negb (is_cont b2) then (2, false)
    else if is_cont b3 then (4, true) else (3, false)
  else (1, false).

Fixpoint utf8_lossy_fuel (fuel : nat) (bs : list Z) : list Z :=
  match fuel, bs with
  | S fuel, _ :: _ =>
      let '(n, ok) := utf8_step bs in
      (if ok then take n bs else [239; 191; 189]%Z)
      ++ utf8_lossy_fuel fuel (drop n bs)
  | _, _ => []
  end.
Definition from_utf8_lossy (bs : list Z) : string :=
  String.string_of_list_ascii (ascii_of_byte <$> utf8_lossy_fuel (length bs) bs).

(** [trim_end_matches('\0')]. *)
Fixpoint trim_end_nul (s : string) : string :=
  match s with
  | EmptyString => EmptyString
  | String c s =>
      match trim_end_nul s with
      | EmptyString => if (byte_of c =? 0)%Z then EmptyString else String c EmptyString
      | s => String c s
      end
  end.

(** the bytes of an ASCII literal [b"..."]. *)
Definition lit (s : string) : list Z := byte_of <$> String.list_ascii_of_string s.

(** ** The detectors

    [offset + k] is a [u64] addition. *)
Definition detect_ext (oc : bool) (r : DiskReader) (partition_offset : Z)
    : outcome Error FileSystem :=
  superblock_offset ← u_arith oc 64 (partition_offset + 1024)%Z;
  superblock ← read_exact_at r superblock_offset 264;
  if (idx superblock 56 =? 83)%Z && (idx superblock 57 =? 239)%Z then
    let label := trim_end_nul (from_utf8_lossy (sub superblock 120 16)) in
    let label := if is_empty label then None else Some label in
    let uuid_bytes := sub superblock 104 16 in
    let uuid :=
      fmt_bytes uuid_bytes [0; 1; 2; 3] +:+ "-" +:+ fmt_bytes uuid_bytes [4; 5]
      +:+ "-" +:+ fmt_bytes uuid_bytes [6; 7] +:+ "-" +:+ fmt_bytes uuid_bytes [8; 9]
      +:+ "-" +:+ fmt_bytes uuid_bytes [10; 11; 12; 13; 14; 15] in
    Ok (mk_FileSystem Ext label (Some uuid))
  else Err (Detection "Not an ext filesystem").

Definition detect_ntfs (oc : bool) (r : DiskReader) (partition_offset : Z)
    : outcome Error FileSystem :=
  boot_sector ← read_exact_at r partition_offset 512;
  if bool_decide (sub boot_sector 3 8 = lit "NTFS    ") then Ok (plain_fs Ntfs)
  else Err (Detection "Not an NTFS filesystem").

Definition detect_fat32 (oc : bool) (r : DiskReader) (partition_offset : Z)
    : outcome Error FileSystem :=
  boot_sector ← read_exact_at r partition_offset 512;
  if (90 <=? length boot_sector)%nat
     && bool_decide (sub boot_sector 82 8 = lit "FAT32   ") then Ok (plain_fs Fat32)
  else Err (Detection "Not a FAT32 filesystem").

Definition detect_exfat (oc : bool) (r : DiskReader) (partition_offset : Z)
    : outcome Error FileSystem :=
  sector ← read_exact_at r partition_offset 512;
  if (11 <=? length sector)%nat
     && bool_decide (sub sector 3 8 = lit "EXFAT   ") then Ok (plain_fs ExFat)
  else Err (Detection "Not an exFAT filesystem").

Definition detect_xfs (oc : bool) (r : DiskReader) (partition_offset : Z)
    : outcome Error FileSystem :=
  superblock ← read_exact_at r partition_offset 512;
  if bool_decide (sub superblock 0 4 = lit "XFSB") then Ok (plain_fs Xfs)
  else Err (Detection "Not an XFS filesystem").

Definition detect_btrfs (oc : bool) (r : DiskReader) (partition_offset : Z)
    : outcome Error FileSystem :=
  superblock_offset ← u_arith oc 64 (partition_offset + 65536)%Z;
  superblock ← read_exact_at r superblock_offset 512;
  if bool_decide (sub superblock 64 8 = lit "_BHRfS_M") then Ok (plain_fs Btrfs)
  else Err (Detection "Not a Btrfs filesystem").

Definition detect_zfs (oc : bool) (r : DiskReader) (partition_offset : Z)
    : outcome Error FileSystem :=
  label_offset ← u_arith oc 64 (partition_offset + 131072)%Z;
  buffer ← read_exact_at r label_offset 4;
  if bool_decide (sub buffer 0 4 = [12; 177; 186; 0]%Z) then Ok (plain_fs Zfs)
  else Err (Detection "Not a ZFS filesystem").

Definition detect_ufs (oc : bool) (r : DiskReader) (partition_offset : Z)
    : outcome Error FileSystem :=
  superblock_offset ← u_arith oc 64 (partition_offset + 65536)%Z;
  superblock ← read_exact_at r superblock_offset 1376;
  if (1376 <=? length superblock)%nat
     && (le_decode (sub superblock 1372 4) =? 424935705)%Z then Ok (plain_fs Ufs)
  else
    superblock_offset ← u_arith oc 64 (partition_offset + 8192)%Z;
    superblock ← read_exact_at r superblock_offset 1376;
    let magic := le_decode (sub superblock 1372 4) in
    if (1376 <=? length superblock)%nat
       && ((magic =? 72020)%Z || (magic =? 424935705)%Z) then Ok (plain_fs Ufs)
    else Err (Detection "Not a UFS filesystem").

Definition detect_hfsplus (oc : bool) (r : DiskReader) (partition_offset : Z)
    : outcome Error FileSystem :=
  header_offset ← u_arith oc 64 (partition_offset + 1024)%Z;
  header ← read_exact_at r header_offset 512;
  if (2 <=? length header)%nat && (idx header 0 =? 72)%Z
     && ((idx header 1 =? 43)%Z || (idx header 1 =? 88)%Z) then Ok (plain_fs HfsPlus)
  else Err (Detection "Not an HFS+ filesystem").

Definition detect_apfs (oc : bool) (r : DiskReader) (partition_offset : Z)
    : outcome Error FileSystem :=
  superblock ← read_exact_at r partition_offset 4096;
  if (36 <=? length superblock)%nat
     && (bool_decide (sub superblock 32 4 = lit "NXSB")
         || bool_decide (sub superblock 32 4 = lit "APSB")) then Ok (plain_fs Apfs)
  else Err (Detection "Not an APFS filesystem").

Definition detect_iso9660 (oc : bool) (r : DiskReader) (partition_offset : Z)
    : outcome Error FileSystem :=
  offset ← u_arith oc 64 (partition_offset + 32768)%Z;
  buf ← read_exact_at r offset 2048;
  if (6 <=? length buf)%nat && bool_decide (sub buf 1 5 = lit "CD001")
  then Ok (plain_fs Iso9660)
  else Err (Detection "Not an ISO9660 filesystem").

Definition detect_swap (oc : bool) (r : DiskReader) (partition_offset : Z)
    : outcome Error FileSystem :=
  buf ← read_exact_at r partition_offset 4096;
  if (4096 <=? length buf)%nat
     && (bool_decide (sub buf 4086 10 = lit "SWAPSPACE2")
         || bool_decide (sub buf 4086 10 = lit "SWAP-SPACE")) then Ok (plain_fs Swap)
  else Err (Detection "Not a swap partition").

Definition detector : Type := bool → DiskReader → Z → outcome Error FileSystem.

Definition detectors : list detector :=
  [detect_ext; detect_ntfs; detect_fat32; detect_exfat; detect_xfs; detect_btrfs;
   detect_zfs; detect_ufs; detect_hfsplus; detect_apfs; detect_iso9660; detect_swap].

(** the dispatch loop: the first [Ok] wins, an error moves on. *)
Fixpoint try_detectors (ds : list detector) (oc : bool) (r : DiskReader) (offset : Z)
    : outcome Error FileSystem :=
  match ds with
  | [] => Ok (plain_fs UnknownFs)
  | d :: ds =>
      match d oc r offset with
      | Ok fs => Ok fs
      | Err _ => try_detectors ds oc r offset
      | Panic => Panic
      end
  end.

(** [FileSystem::detect]. *)
Definition detect (oc : bool) (r : DiskReader) (partition : Partition)
    : outcome Error FileSystem :=
  let offset := (pt_start_lba partition * 512)%Z in
  if negb (offset <? 2 ^ 64)%Z then
    Err (Detection ("Integer overflow computing partition offset: start_lba="
      +:+ fmt_Z (pt_start_lba partition) +:+ " * 512"))
  else if negb (offset + (65536 + 1376) <? 2 ^ 64)%Z then
    Err (Detection ("Partition offset " +:+ fmt_Z offset
      +:+ " is too large, would overflow during filesystem detection"))
  else try_detectors detectors oc r offset.

(** [FileSystem::read_file] always refuses. *)
Definition read_file (self : FileSystem) (r : DiskReader) (partition : Partition)
    (path : string) : outcome Error (list Z) :=
  Err (Detection ("Direct file reading not supported for path: " +:+ path
    +:+ " — use guestfs mount-based access instead")).

(** ** Reference: signatures

    A signature is where a filesystem's magic bytes live in the partition.  The
    requirement [need] is how many bytes from the partition's start must be in
    the image for its detector to look. *)
Record signature : Type := mk_signature {
  sg_type : FileSystemType;
  sg_need : Z;
  sg_match : image → Z → bool
}.

Definition magic_at (f : image) (pos : Z) (bs : list Z) : bool :=
  bool_decide (img_slice f pos (Z.of_nat (length bs)) = bs).

Definition signatures : list signature :=
  [mk_signature Ext 1288 (fun f o => magic_at f (o + 1080) [83; 239]%Z);
   mk_signature Ntfs 512 (fun f o => magic_at f (o + 3) (lit "NTFS    "));
   mk_signature Fat32 512 (fun f o => magic_at f (o + 82) (lit "FAT32   "));
   mk_signature ExFat 512 (fun f o => magic_at f (o + 3) (lit "EXFAT   "));
   mk_signature Xfs 512 (fun f o => magic_at f o (lit "XFSB"));
   mk_signature Btrfs 66048 (fun f o => magic_at f (o + 65600) (lit "_BHRfS_M"));
   mk_signature Zfs 131076 (fun f o => magic_at f (o + 131072) [12; 177; 186; 0]%Z);
   mk_signature Ufs 66912 (fun f o =>
     magic_at f (o + 66908) [25; 1; 84; 25]%Z || magic_at f (o + 9564) [84; 25; 1; 0]%Z
     || magic_at f (o + 9564) [25; 1; 84; 25]%Z);
   mk_signature HfsPlus 1536 (fun f o =>
     magic_at f (o + 1024) (lit "H+") || magic_at f (o + 1024) (lit "HX"));
   mk_signature Apfs 4096 (fun f o =>
     magic_at f (o + 32) (lit "NXSB") || magic_at f (o + 32) (lit "APSB"));
   mk_signature Iso9660 34816 (fun f o => magic_at f (o + 32769) (lit "CD001"));
   mk_signature Swap 4096 (fun f o =>
     magic_at f (o + 4086) (lit "SWAPSPACE2") || magic_at f (o + 4086) (lit "SWAP-SPACE"))].

Definition sig_accepts (f : image) (offset : Z) (s : signature) : bool :=
  (offset + sg_need s <=? img_len f)%Z && sg_match s f offset.

(** the first signature of the table that accepts. *)
Definition detect_ref (f : image) (offset : Z) : FileSystemType :=
  match List.find (sig_accepts f offset) signatures with
  | Some s => sg_type s
  | None => UnknownFs
  end.

(** ** The detectors implement the signatures *)
Lemma sub_img_slice f pos n from k :
  (Z.of_nat (from + k) ≤ n)%Z →
  sub (img_slice f pos n) from k = img_slice f (pos + Z.of_nat from) (Z.of_nat k).
Proof.
  intros H. apply list_eq. intros i. unfold sub.
  destruct (decide (i < k)%nat) as [Hi|Hi].
  - rewrite lookup_take_lt, lookup_drop, !img_slice_lookup by lia. do 2 f_equal. lia.
  - rewrite !lookup_ge_None_2; [done|rewrite length_img_slice; lia|].
    rewrite length_take. lia.
Qed.

Lemma idx_img_slice f pos n i :
  (Z.of_nat i < n)%Z → idx (img_slice f pos n) i = img_byte f (pos + Z.of_nat i).
Proof. intros H. unfold idx. by rewrite img_slice_lookup by lia. Qed.

Lemma magic_at_cons f pos b bs :
  magic_at f pos (b :: bs) = (img_byte f pos =? b)%Z && magic_at f (pos + 1) bs.
Proof.
  unfold magic_at. cbn [length]. rewrite Nat2Z.inj_succ.
  replace (Z.succ (Z.of_nat (length bs))) with (1 + Z.of_nat (length bs))%Z by lia.
  rewrite <-img_slice_app by lia. change (img_slice f pos 1) with [img_byte f (0 + pos)].
  rewrite Z.add_0_l. apply eq_bool_prop_intro.
  rewrite andb_True, !bool_decide_spec, Is_true_true, Z.eqb_eq. cbn [app].
  split; [by intros [= -> ->]|]. by intros [-> ->].
Qed.

Lemma le_decode_inj bs : ∀ bs',
  Forall byte_ok bs → Forall byte_ok bs' → length bs = length bs' →
  le_decode bs = le_decode bs' → bs = bs'.
Proof.
  induction bs as [|b bs IH]; intros [|b' bs'] H H' Hl Hd; try done.
  apply Forall_cons in H as [Hb H]. apply Forall_cons in H' as [Hb' H'].
  cbn [le_decode] in Hd. unfold byte_ok in Hb, Hb'.
  assert (b = b' ∧ le_decode bs = le_decode bs') as [-> Hd'] by lia.
  f_equal. apply IH; (done || (cbn in Hl; lia)).
Qed.

(** comparing a decoded integer is comparing its bytes. *)
Lemma le_decode_magic f pos bs :
  image_ok f → Forall byte_ok bs →
  (le_decode (img_slice f pos (Z.of_nat (length bs))) =? le_decode bs)%Z
  = magic_at f pos bs.
Proof.
  intros Hf Hbs. unfold magic_at. apply eq_bool_prop_intro.
  rewrite bool_decide_spec, Is_true_true, Z.eqb_eq. split; [|by intros ->].
  intros H. eapply le_decode_inj; try done; [by apply img_slice_bytes|].
  rewrite length_img_slice. lia.
Qed.

Lemma read_or_err r pos len :
  reliable r → image_ok (dr_file r) → (0 ≤ pos)%Z → (0 < len)%Z →
  if (pos + len <=? img_len (dr_file r))%Z
  then read_exact_at r pos len = Ok (img_slice (dr_file r) pos len)
  else ∃ e, read_exact_at r pos len = Err e.
Proof.
  intros Hr [Hf _] Hp Hl. destruct (_ <=? _)%Z eqn:E; bool_solve.
  - apply read_exact_at_in; (done || lia).
  - destruct (read_exact_at r pos len) as [bs|e|] eqn:Hread; [|eauto|].
    + apply read_exact_at_Ok in Hread; lia.
    + by apply read_exact_at_no_panic in Hread; [|lia].
Qed.

Definition implements (d : detector) (s : signature) : Prop :=
  ∀ oc r offset,
    reliable r → image_ok (dr_file r) → (0 ≤ offset)%Z → (offset + 131072 < 2 ^ 64)%Z →
    if sig_accepts (dr_file r) offset s
    then ∃ fs, d oc r offset = Ok fs ∧ fs_type fs = sg_type s
    else ∃ e, d oc r offset = Err e.

(** read at a fixed place, then test: the shape of eleven of the detectors. *)
Lemma implements_simple (d : detector) s k n (test : list Z → bool)
    (ok : list Z → FileSystem) (msg : string) :
  (0 ≤ k ≤ 131072)%Z → (0 < n)%Z → sg_need s = (k + n)%Z →
  (∀ oc r offset, (0 ≤ offset)%Z → (offset + 131072 < 2 ^ 64)%Z →
    d oc r offset = (bytes ← read_exact_at r (offset + k) n;
      if test bytes then Ok (ok bytes) else Err (Detection msg))) →
  (∀ bytes, fs_type (ok bytes) = sg_type s) →
  (∀ f offset, image_ok f → test (img_slice f (offset + k) n) = sg_match s f offset) →
  implements d s.
Proof.
  intros Hk Hn Hneed Hd Hok Htest oc r offset Hr Hf Ho Hb. unfold sig_accepts.
  rewrite Hd by done. pose proof (read_or_err r (offset + k) n Hr Hf) as Hread.
  rewrite Hneed, Z.add_assoc. rewrite <-(Htest (dr_file r) offset Hf).
  specialize (Hread ltac:(lia) Hn). destruct (_ <=? _)%Z; cbn [andb].
  - rewrite Hread. cbn. destruct (test _); eauto.
  - destruct Hread as [e ->]. cbn. eauto.
Qed.

Lemma length_in_slice f pos n m :
  (Z.of_nat m ≤ n)%Z → (m <=? length (img_slice f pos n))%nat = true.
Proof. intros H. rewrite length_img_slice. apply Nat.leb_le. lia. Qed.

(** the offset a detector adds does not overflow. *)
Local Ltac no_overflow :=
  intros oc r offset ? ?; lazymatch goal with
  | |- ?d oc r offset = _ => unfold d
  end; try (rewrite u_arith_in_range by (unfold in_u; lia)); cbn [mbind outcome_bind];
  rewrite ?Z.add_0_r; reflexivity.

(** a test on the slice read is a test on the image. *)
Local Ltac by_magic :=
  intros f offset Hf; cbn beta;
  rewrite ?length_in_slice by (cbn; lia); rewrite ?andb_true_l;
  rewrite ?idx_img_slice by (cbn; lia); rewrite ?sub_img_slice by (cbn; lia);
  cbn [sg_match]; rewrite ?Z.add_0_r;
  first [solve [unfold magic_at; rewrite <-?Z.add_assoc; cbn; reflexivity]
        |solve [rewrite ?magic_at_cons; unfold magic_at; rewrite <-?Z.add_assoc;
                cbn; rewrite ?andb_true_r; reflexivity]
        |idtac].

(** the first [n] signatures of the table, by position. *)
Definition sig (i : nat) : signature :=
  default (mk_signature UnknownFs 0 (fun _ _ => false)) (signatures !! i).

Local Ltac show_sig :=
  lazymatch goal with
  | |- implements _ (sig ?i) => let s := eval hnf in (sig i) in change (sig i) with s
  end.

Local Ltac implement k n :=
  show_sig; eapply (implements_simple _ _ k n); try done; [no_overflow|done|by_magic].

Lemma detect_ext_implements : implements detect_ext (sig 0).
Proof. implement 1024%Z 264%Z. Qed.
Lemma detect_ntfs_implements : implements detect_ntfs (sig 1).
Proof. implement 0%Z 512%Z. Qed.
Lemma detect_fat32_implements : implements detect_fat32 (sig 2).
Proof. implement 0%Z 512%Z. Qed.
Lemma detect_exfat_implements : implements detect_exfat (sig 3).
Proof. implement 0%Z 512%Z. Qed.
Lemma detect_xfs_implements : implements detect_xfs (sig 4).
Proof. implement 0%Z 512%Z. Qed.
Lemma detect_btrfs_implements : implements detect_btrfs (sig 5).
Proof. implement 65536%Z 512%Z. Qed.
Lemma detect_zfs_implements : implements detect_zfs (sig 6).
Proof. implement 131072%Z 4%Z. Qed.
Lemma detect_hfsplus_implements : implements detect_hfsplus (sig 8).
Proof.
  implement 1024%Z 512%Z.
  change (lit "H+") with [72; 43]%Z. change (lit "HX") with [72; 88]%Z.
  rewrite !magic_at_cons. unfold magic_at.
  rewrite <-!Z.add_assoc. cbn. rewrite !andb_true_r. by destruct (_ =? 72)%Z.
Qed.
Lemma detect_apfs_implements : implements detect_apfs (sig 9).
Proof. implement 0%Z 4096%Z. Qed.
Lemma detect_iso9660_implements : implements detect_iso9660 (sig 10).
Proof. implement 32768%Z 2048%Z. Qed.
Lemma detect_swap_implements : implements detect_swap (sig 11).
Proof. implement 0%Z 4096%Z. Qed.

Lemma ufs_magics f pos :
  image_ok f →
  (le_decode (img_slice f pos (Z.of_nat 4)) =? 424935705)%Z
    = magic_at f pos [25; 1; 84; 25]%Z ∧
  (le_decode (img_slice f pos (Z.of_nat 4)) =? 72020)%Z
    = magic_at f pos [84; 25; 1; 0]%Z.
Proof.
  intros Hf. split;
    [apply (le_decode_magic f pos [25; 1; 84; 25]%Z Hf)
    |apply (le_decode_magic f pos [84; 25; 1; 0]%Z Hf)];
    repeat (constructor; [unfold byte_ok; lia|]); constructor.
Qed.

(** UFS looks twice: at 64 KiB, and when that superblock has no UFS2 magic at 8
    KiB; the first read must succeed. *)
Lemma detect_ufs_implements : implements detect_ufs (sig 7).
Proof.
  show_sig. intros oc r offset Hr Hf Ho Hb. unfold detect_ufs, sig_accepts.
  cbn [sg_need sg_match sg_type].
  rewrite !u_arith_in_range by (unfold in_u; lia). cbn [mbind outcome_bind].
  pose proof (read_or_err r (offset + 65536) 1376 Hr Hf ltac:(lia) ltac:(lia)) as H1.
  pose proof (read_or_err r (offset + 8192) 1376 Hr Hf ltac:(lia) ltac:(lia)) as H2.
  replace (offset + 65536 + 1376)%Z with (offset + 66912)%Z in H1 by lia.
  destruct (offset + 66912 <=? _)%Z eqn:E; cbn [andb];
    [|destruct H1 as [e ->]; cbn; eauto].
  rewrite H1. cbn [mbind outcome_bind].
  rewrite length_in_slice, sub_img_slice, andb_true_l by (cbn; lia).
  rewrite (proj1 (ufs_magics _ _ Hf)).
  replace (offset + 65536 + Z.of_nat 1372)%Z with (offset + 66908)%Z by lia.
  destruct (magic_at _ (offset + 66908) _); cbn [orb]; [eauto|].
  bool_solve. rewrite (proj2 (Z.leb_le _ _)) in H2 by lia.
  rewrite H2. cbn [mbind outcome_bind].
  rewrite length_in_slice, sub_img_slice, andb_true_l by (cbn; lia).
  rewrite (proj1 (ufs_magics _ _ Hf)), (proj2 (ufs_magics _ _ Hf)).
  replace (offset + 8192 + Z.of_nat 1372)%Z with (offset + 9564)%Z by lia.
  destruct (_ || _); eauto.
Qed.

Lemma detectors_implement : Forall2 implements detectors signatures.
Proof.
  repeat constructor.
  - exact detect_ext_implements.
  - exact detect_ntfs_implements.
  - exact detect_fat32_implements.
  - exact detect_exfat_implements.
  - exact detect_xfs_implements.
  - exact detect_btrfs_implements.
  - exact detect_zfs_implements.
  - exact detect_ufs_implements.
  - exact detect_hfsplus_implements.
  - exact detect_apfs_implements.
  - exact detect_iso9660_implements.
  - exact detect_swap_implements.
Qed.

Lemma try_detectors_first ds ss oc r offset :
  Forall2 implements ds ss → reliable r → image_ok (dr_file r) →
  (0 ≤ offset)%Z → (offset + 131072 < 2 ^ 64)%Z →
  ∃ fs, try_detectors ds oc r offset = Ok fs ∧
    fs_type fs = match List.find (sig_accepts (dr_file r) offset) ss with
                 | Some s => sg_type s | None => UnknownFs end.
Proof.
  intros H Hr Hf Ho Hb. induction H as [|d s ds ss Hd _ IH]; cbn; [by eexists|].
  specialize (Hd oc r offset Hr Hf Ho Hb).
  destruct (sig_accepts _ _ s).
  - destruct Hd as (fs & -> & ?). eauto.
  - by destruct Hd as [e ->].
Qed.

(** on a readable image, for every partition whose probes stay in the
    64-bit range, detection returns in either build, and the type it reports is
    that of the first signature of the table present in the image ([UnknownFs]
    when none is). *)
Theorem detect_first_signature oc r p :
  reliable r → image_ok (dr_file r) → (0 ≤ pt_start_lba p)%Z →
  (pt_start_lba p * 512 + 131072 < 2 ^ 64)%Z →
  ∃ fs, detect oc r p = Ok fs ∧
    fs_type fs = detect_ref (dr_file r) (pt_start_lba p * 512).
Proof.
  intros Hr Hf Ho Hb. unfold detect.
  rewrite (proj2 (Z.ltb_lt _ (2 ^ 64))) by lia. cbn [negb].
  rewrite (proj2 (Z.ltb_lt _ (2 ^ 64))) by lia. cbn [negb].
  apply try_detectors_first; try done; [apply detectors_implement|lia].
Qed.

(** An XFS volume at LBA 1 of a small disk. *)
Definition xfs_disk : DiskReader :=
  reader_of (replicate 512 0%Z ++ lit "XFSB" ++ replicate 508 0%Z).
Definition partition_at (lba : Z) : Partition := mk_Partition 1 lba 1 131 false None.

Lemma detect_first_signature_witness :
  ∃ fs, detect true xfs_disk (partition_at 1) = Ok fs ∧ fs_type fs = Xfs.
Proof.
  exact (detect_first_signature true xfs_disk (partition_at 1) (reader_of_reliable _)
    ltac:(apply image_of_ok; [|done];
          rewrite !Forall_app; repeat split; try (apply Forall_replicate);
          unfold byte_ok; repeat constructor; done)
    ltac:(done) ltac:(done)).
Defined.

(** the guard before the detectors allows for [65536 + 1376] bytes after the
    partition offset, but the ZFS probe adds 131072: for a partition starting at
    sector [2^55 - 256] the guard passes, the dev build panics, and the release
    build wraps to offset 0 and reports ZFS from the disk's first bytes. *)
Theorem detect_zfs_offset_overflow :
  ∃ r p, reliable r ∧ in_u 64 (pt_start_lba p) ∧
    (pt_start_lba p * 512 + (65536 + 1376) < 2 ^ 64)%Z ∧
    detect true r p = Panic ∧ detect false r p = Ok (plain_fs Zfs).
Proof.
  exists (reader_of [12; 177; 186; 0]%Z), (partition_at (2 ^ 55 - 256)).
  split; [apply reader_of_reliable|]. split; [unfold in_u; cbn; lia|].
  split; [cbn; lia|]. split; by vm_compute.
Qed.
