(* ===== verification/Frame.v ===== *)
(** * Agent protocol framing

    [crates/guestkit-agent-protocol/src/frame.rs] and [error.rs].  A reader is
    the list of bytes still to come, a writer the list of bytes written; a read
    returns what it read with the rest of the stream.  Lengths are [u32], with
    the truncation of [as u32] written out. *)
From stdpp Require Import base strings list list_numbers.
From Stdlib Require Import ZArith Lia.
From S2P Require Import Prelude RustStr.

Inductive RpcErrorCode : Set :=
  | RpcParseError | RpcInvalidRequest | RpcMethodNotFound | RpcInvalidParams
  | RpcInternalError | RpcNotImplemented | RpcCapabilityDenied | RpcPlanApplyFailed
  | RpcRequestExpired | RpcReplayDetected | RpcPolicyDenied.

Definition as_i32 (c : RpcErrorCode) : Z :=
  match c with
  | RpcParseError => -32700
  | RpcInvalidRequest => -32600
  | RpcMethodNotFound => -32601
  | RpcInvalidParams => -32602
  | RpcInternalError => -32603
  | RpcNotImplemented => -32000
  | RpcCapabilityDenied => -32001
  | RpcPlanApplyFailed => -32002
  | RpcRequestExpired => -32003
  | RpcReplayDetected => -32004
  | RpcPolicyDenied => -32005
  end%Z.

(** the I/O errors, by kind. *)
Inductive io_kind : Set := IoUnexpectedEof | IoOther (code : Z).

Inductive AgentError : Set :=
  | AeParse (msg : string)
  | AeInvalidRequest (msg : string)
  | AeMethodNotFound (msg : string)
  | AeInvalidParams (msg : string)
  | AeInternal (msg : string)
  | AeNotImplemented (msg : string)
  | AeCapabilityDenied (msg : string)
  | AeRequestExpired (msg : string)
  | AeReplayDetected (msg : string)
  | AePolicyDenied (msg : string)
  | AeIo (kind : io_kind).

Definition rpc_code (e : AgentError) : RpcErrorCode :=
  match e with
  | AeParse _ => RpcParseError
  | AeInvalidRequest _ => RpcInvalidRequest
  | AeMethodNotFound _ => RpcMethodNotFound
  | AeInvalidParams _ => RpcInvalidParams
  | AeInternal _ => RpcInternalError
  | AeNotImplemented _ => RpcNotImplemented
  | AeCapabilityDenied _ => RpcCapabilityDenied
  | AeRequestExpired _ => RpcRequestExpired
  | AeReplayDetected _ => RpcReplayDetected
  | AePolicyDenied _ => RpcPolicyDenied
  | AeIo IoUnexpectedEof => RpcParseError
  | AeIo (IoOther _) => RpcInternalError
  end.

Definition MAX_FRAME_SIZE : Z := (16 * 1024 * 1024)%Z.

Definition sync_byte : Z := 255.
Definition newline : Z := 10.
Definition carriage_return : Z := 13.

(** [usize as u32]. *)
Definition as_u32 (n : Z) : Z := (n mod 2 ^ 32)%Z.

(** [Read::read_exact] of [n] bytes. *)
Definition read_exact (n : nat) (stream : list Z) : outcome AgentError (list Z * list Z) :=
  if (n <=? length stream)%nat then Ok (take n stream, drop n stream)
  else Err (AeIo IoUnexpectedEof).

(** the body of the loop once a byte that is not the sync byte was read. *)
Definition read_frame_body (first : Z) (stream : list Z)
    : outcome AgentError (list Z * list Z) :=
  '(len_rest, stream) ← read_exact 3 stream;
  let len := be_decode (first :: len_rest) in
  if (len =? 0)%Z then Err (AeInvalidRequest "empty frame")
  else if (MAX_FRAME_SIZE <? len)%Z then
    Err (AeInvalidRequest ("frame too large: " +:+ fmt_Z len +:+ " bytes (max "
      +:+ fmt_Z MAX_FRAME_SIZE +:+ ")"))
  else read_exact (Z.to_nat len) stream.

(** [read_frame]: the payload and the rest of the stream. *)
Fixpoint read_frame (stream : list Z) : outcome AgentError (list Z * list Z) :=
  match stream with
  | [] => Err (AeIo IoUnexpectedEof)
  | first :: stream =>
      if (first =? sync_byte)%Z then read_frame stream
      else read_frame_body first stream
  end.

(** [write_frame]: the bytes written. *)
Definition write_frame (payload : list Z) : outcome AgentError (list Z) :=
  if bool_decide (payload = []) then Err (AeInvalidRequest "empty payload")
  else if (MAX_FRAME_SIZE <? as_u32 (Z.of_nat (length payload)))%Z then
    Err (AeInvalidRequest ("payload too large: " +:+ fmt_nat (length payload)
      +:+ " bytes"))
  else Ok (be_encode 4 (as_u32 (Z.of_nat (length payload))) ++ payload).

(** ** Lines *)
(** [BufRead::read_until(b'\n')]: the line with its newline, and the rest. *)
Fixpoint read_until_newline (stream : list Z) : list Z * list Z :=
  match stream with
  | [] => ([], [])
  | b :: stream =>
      if (b =? newline)%Z then ([b], stream)
      else let '(line, rest) := read_until_newline stream in (b :: line, rest)
  end.

(** [while line.first() == Some(&0xFF) { line.remove(0) }]. *)
Fixpoint strip_sync (line : list Z) : list Z :=
  match line with
  | b :: line => if (b =? sync_byte)%Z then strip_sync line else b :: line
  | [] => []
  end.

(** [if line.last() == Some(&b) { line.pop() }]. *)
Definition pop_if (b : Z) (line : list Z) : list Z :=
  if bool_decide (last line = Some b) then take (length line - 1) line else line.

(** one round reads a line and trims it; an empty one is skipped.  Each round
    consumes a byte at least ([read_line_total]). *)
Fixpoint read_line_fuel (fuel : nat) (stream : list Z)
    : outcome AgentError (list Z * list Z) :=
  let '(line, rest) := read_until_newline stream in
  match line with
  | [] => Err (AeIo IoUnexpectedEof)
  | _ =>
      let line := pop_if carriage_return (pop_if newline (strip_sync line)) in
      match line, fuel with
      | [], S fuel => read_line_fuel fuel rest
      | [], O => Panic
      | _, _ => Ok (line, rest)
      end
  end.
Definition read_line (stream : list Z) : outcome AgentError (list Z * list Z) :=
  read_line_fuel (length stream) stream.

Definition write_line (payload : list Z) : outcome AgentError (list Z) :=
  if bool_decide (payload = []) then Err (AeInvalidRequest "empty payload")
  else Ok (payload ++ if bool_decide (last payload = Some newline) then [] else [newline]).

(** on an error the sentinel has been written already. *)
Definition write_delimited_line (payload : list Z) : outcome AgentError (list Z) :=
  (fun out => sync_byte :: out) <$> write_line payload.

(** ** Frames *)
Lemma read_exact_app bs rest :
  read_exact (length bs) (bs ++ rest) = Ok (bs, rest).
Proof.
  unfold read_exact. rewrite length_app, (proj2 (Nat.leb_le _ _)) by lia.
  by rewrite take_app_length, drop_app_length.
Qed.

Lemma read_exact_Ok n stream bs rest :
  read_exact n stream = Ok (bs, rest) → stream = bs ++ rest ∧ length bs = n.
Proof.
  unfold read_exact. destruct (n <=? length stream)%nat eqn:E; [|done].
  intros [= <- <-]. apply Nat.leb_le in E.
  rewrite take_drop, length_take. split; [done|lia].
Qed.

Lemma read_frame_sync k stream : read_frame (replicate k sync_byte ++ stream) = read_frame stream.
Proof. induction k as [|k IH]; [done|]. cbn [replicate app read_frame]. by rewrite IH. Qed.

Lemma be_encode_4_head z :
  (0 < z ≤ MAX_FRAME_SIZE)%Z →
  ∃ b rest, be_encode 4 z = b :: rest ∧ length rest = 3 ∧ (b =? sync_byte)%Z = false.
Proof.
  intros Hz. unfold be_encode. cbn [le_encode reverse rev_append].
  eexists _, _. split; [reflexivity|]. split; [done|].
  apply Z.eqb_neq. unfold sync_byte, MAX_FRAME_SIZE in *.
  assert (0 ≤ z / 256 / 256 / 256 < 2)%Z; [|rewrite Z.mod_small; lia].
  rewrite !Z.div_div by lia. split; [apply Z.div_pos; lia|].
  apply Z.div_lt_upper_bound; lia.
Qed.

(** a frame header followed by enough bytes reads back. *)
Lemma read_frame_header len payload rest :
  (0 < len ≤ MAX_FRAME_SIZE)%Z → Z.of_nat (length payload) = len →
  read_frame (be_encode 4 len ++ payload ++ rest) = Ok (payload, rest).
Proof.
  intros Hlen Hp. destruct (be_encode_4_head len Hlen) as (b & l & He & Hl & Hb).
  rewrite He. cbn [app read_frame]. rewrite Hb. unfold read_frame_body.
  rewrite <-Hl, read_exact_app. cbn [mbind outcome_bind].
  rewrite <-He, be_decode_encode by (unfold MAX_FRAME_SIZE in Hlen; cbn; lia).
  rewrite (proj2 (Z.eqb_neq _ _)), (proj2 (Z.ltb_ge _ _)) by lia.
  rewrite <-Hp, Nat2Z.id. apply read_exact_app.
Qed.

(** C26: a payload of 1 byte to 16 MiB written as a frame is read back whole, in
    front of any number of QGA sync bytes and of any further traffic, which stays
    in the stream. *)
Theorem frame_roundtrip payload rest k :
  payload ≠ [] → (Z.of_nat (length payload) ≤ MAX_FRAME_SIZE)%Z →
  ∃ out, write_frame payload = Ok out ∧
    read_frame (replicate k sync_byte ++ out ++ rest) = Ok (payload, rest).
Proof.
  intros Hne Hlen. unfold write_frame. rewrite bool_decide_eq_false_2 by done.
  assert (0 < Z.of_nat (length payload))%Z by (destruct payload; [done|cbn; lia]).
  assert (as_u32 (Z.of_nat (length payload)) = Z.of_nat (length payload)) as ->.
  { unfold as_u32, MAX_FRAME_SIZE in *. apply Z.mod_small. lia. }
  rewrite (proj2 (Z.ltb_ge _ _)) by lia. eexists. split; [done|].
  rewrite read_frame_sync, <-app_assoc. by apply read_frame_header.
Qed.

Lemma frame_roundtrip_witness :
  ∃ out, write_frame [123; 125]%Z = Ok out ∧
    read_frame (replicate 2 sync_byte ++ out ++ [1]%Z) = Ok ([123; 125]%Z, [1]%Z).
Proof. exact (frame_roundtrip [123; 125]%Z [1]%Z 2 ltac:(done) ltac:(done)). Defined.

(** [read_frame] accepts nothing else: an accepted stream of bytes is a run
    of sync bytes, a big-endian length between 1 and 16 MiB, that many payload
    bytes, and the rest; in particular no declared length makes it allocate more
    than 16 MiB. *)
Theorem read_frame_accepts stream payload rest :
  Forall byte_ok stream → read_frame stream = Ok (payload, rest) →
  ∃ k hdr, stream = replicate k sync_byte ++ hdr ++ payload ++ rest ∧
    length hdr = 4 ∧ be_decode hdr = Z.of_nat (length payload) ∧
    (1 ≤ Z.of_nat (length payload) ≤ MAX_FRAME_SIZE)%Z.
Proof.
  induction stream as [|b stream IH]; intros Hb Hread; [done|].
  cbn [read_frame] in Hread. apply Forall_cons in Hb as [Hb Hs].
  destruct (b =? sync_byte)%Z eqn:E; bool_solve.
  { subst b. destruct (IH Hs Hread) as (k & hdr & -> & ?). by exists (S k), hdr. }
  unfold read_frame_body in Hread.
  apply outcome_bind_Ok in Hread as ([l s] & Hl & Hread).
  apply read_exact_Ok in Hl as [-> Hl].
  set (len := be_decode (b :: l)) in *.
  destruct (len =? 0)%Z eqn:E0; [done|]. destruct (_ <? len)%Z eqn:Em; [done|]. bool_solve.
  apply read_exact_Ok in Hread as [-> Hlen].
  assert (0 ≤ len)%Z.
  { unfold len, be_decode. apply le_decode_bound, Forall_reverse.
    constructor; [done|]. by apply Forall_app in Hs as [? _]. }
  exists 0, (b :: l). split; [done|]. split; [cbn; by rewrite Hl|]. fold len. lia.
Qed.

Lemma read_frame_accepts_witness :
  ∃ k hdr, [255; 0; 0; 0; 2; 65; 66; 9]%Z
    = replicate k sync_byte ++ hdr ++ [65; 66]%Z ++ [9]%Z ∧
    length hdr = 4 ∧ be_decode hdr = 2%Z ∧ (1 ≤ 2 ≤ MAX_FRAME_SIZE)%Z.
Proof.
  exact (read_frame_accepts [255; 0; 0; 0; 2; 65; 66; 9]%Z [65; 66]%Z [9]%Z
    ltac:(unfold byte_ok; repeat (constructor; [lia|]); constructor) eq_refl).
Defined.

(** the size guard of [write_frame] tests the length after [as u32]: a
    payload of [2^32 + 1] bytes is accepted, its header says 1, and the receiver
    gets one byte and takes the rest of the payload for frames. *)
Theorem write_frame_truncates :
  ∃ payload out, Z.of_nat (length payload) = (2 ^ 32 + 1)%Z ∧
    write_frame payload = Ok out ∧
    ∃ rest, read_frame out = Ok ([65]%Z, rest) ∧ length rest = Z.to_nat (2 ^ 32).
Proof.
  assert (∃ tail : list Z, length tail = Z.to_nat (2 ^ 32)) as [tail Ht].
  { exists (replicate (Z.to_nat (2 ^ 32)) 65%Z). apply length_replicate. }
  assert (Z.of_nat (length ([65]%Z ++ tail)) = (2 ^ 32 + 1)%Z) as Hl.
  { rewrite length_app, Ht. cbn [length]. lia. }
  exists ([65]%Z ++ tail), (be_encode 4 1 ++ [65]%Z ++ tail).
  split; [exact Hl|]. split.
  - unfold write_frame. rewrite bool_decide_eq_false_2 by done.
    rewrite Hl. reflexivity.
  - exists tail. split; [|exact Ht].
    apply (read_frame_header 1 [65]%Z); [unfold MAX_FRAME_SIZE; lia|reflexivity].
Qed.

(** ** Lines *)
Lemma read_until_newline_app line rest :
  newline ∉ line →
  read_until_newline (line ++ newline :: rest) = (line ++ [newline], rest).
Proof.
  induction line as [|b line IH]; intros Hn; [done|].
  apply not_elem_of_cons in Hn as [Hb Hn]. cbn [app read_until_newline].
  rewrite (proj2 (Z.eqb_neq _ _)) by done. by rewrite IH.
Qed.

Lemma read_until_newline_split stream line rest :
  read_until_newline stream = (line, rest) →
  stream = line ++ rest ∧
  (newline ∉ line ∨ ∃ pre, line = pre ++ [newline] ∧ newline ∉ pre).
Proof.
  revert line rest. induction stream as [|b stream IH]; intros line rest H; cbn in H.
  - injection H as <- <-. split; [done|]. left. apply not_elem_of_nil.
  - destruct (b =? newline)%Z eqn:E; bool_solve.
    + injection H as <- <-. subst b. split; [done|]. right. exists []. split; [done|].
      apply not_elem_of_nil.
    + destruct (read_until_newline stream) as [l r] eqn:Hr. injection H as <- <-.
      destruct (IH l r eq_refl) as [-> Hl]. split; [done|].
      destruct Hl as [Hl|(pre & -> & Hl)]; [left|right; exists (b :: pre); split; [done|]];
        apply not_elem_of_cons; done.
Qed.

Lemma strip_sync_suffix line : ∃ k, line = replicate k sync_byte ++ strip_sync line.
Proof.
  induction line as [|b line [k IH]]; [by exists 0|]. cbn.
  destruct (b =? sync_byte)%Z eqn:E; bool_solve; [|by exists 0].
  exists (S k). subst b. cbn. by rewrite <-IH.
Qed.

Lemma strip_sync_prefix k line :
  head line ≠ Some sync_byte → strip_sync (replicate k sync_byte ++ line) = line.
Proof.
  intros Hh. induction k as [|k IH]; [|done]. cbn.
  destruct line as [|b line]; [done|]. cbn. rewrite (proj2 (Z.eqb_neq _ _)); [done|].
  intros ->. done.
Qed.

Lemma pop_if_snoc b line : pop_if b (line ++ [b]) = line.
Proof.
  unfold pop_if. rewrite last_snoc, bool_decide_eq_true_2 by done.
  rewrite length_app. cbn. rewrite Nat.add_sub. apply take_app_length.
Qed.

Lemma pop_if_other b line : last line ≠ Some b → pop_if b line = line.
Proof. intros H. unfold pop_if. by rewrite bool_decide_eq_false_2. Qed.

Lemma read_line_app k payload rest :
  payload ≠ [] → newline ∉ payload → head payload ≠ Some sync_byte →
  last payload ≠ Some carriage_return →
  read_line (replicate k sync_byte ++ payload ++ newline :: rest) = Ok (payload, rest).
Proof.
  intros Hne Hnl Hff Hcr. unfold read_line. generalize (length
    (replicate k sync_byte ++ payload ++ newline :: rest)) as fuel. intros fuel.
  assert (newline ∉ replicate k sync_byte ++ payload) as Hn.
  { rewrite elem_of_app. intros [[H _]%elem_of_replicate|]; done. }
  rewrite app_assoc.
  assert (∃ b l, (replicate k sync_byte ++ payload) ++ [newline] = b :: l) as (b & l & E).
  { destruct (replicate k sync_byte ++ payload); cbn; eauto. }
  assert (strip_sync (b :: l) = payload ++ [newline]) as Hs.
  { rewrite <-E, <-app_assoc. apply strip_sync_prefix. by destruct payload. }
  destruct fuel; cbn [read_line_fuel]; rewrite read_until_newline_app, E by done;
    rewrite Hs, pop_if_snoc, pop_if_other by done; by destruct payload.
Qed.

(** a JSON payload (no newline inside, not starting with the sync byte, not
    ending in a carriage return) written as a line, plain or with the QGA sync
    sentinel, is read back whole, and the following traffic stays in the
    stream. *)
Theorem line_roundtrip payload rest :
  payload ≠ [] → newline ∉ payload → head payload ≠ Some sync_byte →
  last payload ≠ Some carriage_return →
  ∃ out out', write_line payload = Ok out ∧ write_delimited_line payload = Ok out' ∧
    read_line (out ++ rest) = Ok (payload, rest) ∧
    read_line (out' ++ rest) = Ok (payload, rest).
Proof.
  intros Hne Hnl Hff Hcr.
  assert (write_line payload = Ok (payload ++ [newline])) as Hw.
  { unfold write_line. rewrite bool_decide_eq_false_2 by done.
    rewrite bool_decide_eq_false_2; [done|]. intros Hl. apply Hnl.
    apply last_Some_elem_of in Hl. done. }
  exists (payload ++ [newline]), (sync_byte :: payload ++ [newline]).
  split; [done|]. split; [unfold write_delimited_line; by rewrite Hw|].
  pose proof (read_line_app 0 payload rest Hne Hnl Hff Hcr) as H0.
  pose proof (read_line_app 1 payload rest Hne Hnl Hff Hcr) as H1.
  cbn [replicate app] in *. rewrite <-app_assoc. done.
Qed.

Lemma line_roundtrip_witness :
  ∃ out out', write_line [123; 125]%Z = Ok out ∧
    write_delimited_line [123; 125]%Z = Ok out' ∧
    read_line (out ++ [7]%Z) = Ok ([123; 125]%Z, [7]%Z) ∧
    read_line (out' ++ [7]%Z) = Ok ([123; 125]%Z, [7]%Z).
Proof.
  exact (line_roundtrip [123; 125]%Z [7]%Z ltac:(done)
    ltac:(rewrite !not_elem_of_cons; split_and!; [done|done|apply not_elem_of_nil])
    ltac:(done) ltac:(done)).
Defined.

Lemma pop_if_incl b line : ∃ suf, line = pop_if b line ++ suf.
Proof.
  unfold pop_if. case_bool_decide; [|by exists []; rewrite app_nil_r].
  exists (drop (length line - 1) line). by rewrite take_drop.
Qed.

(** [read_line] terminates on every stream, and a line it returns is a
    non-empty run of stream bytes with no newline in it. *)
Theorem read_line_total stream :
  match read_line stream with
  | Ok (line, rest) =>
      line ≠ [] ∧ (newline ∉ line) ∧ ∃ pre suf, stream = pre ++ line ++ suf ++ rest
  | Err e => e = AeIo IoUnexpectedEof
  | Panic => False
  end.
Proof.
  unfold read_line. assert (length stream ≤ length stream)%nat as Hf by lia.
  revert Hf. generalize (length stream) at 2 3 as fuel. intros fuel.
  revert stream. induction fuel as [|fuel IH]; intros stream Hf; cbn [read_line_fuel].
  { destruct stream; cbn in *; [done|lia]. }
  destruct (read_until_newline stream) as [line rest] eqn:Hl.
  apply read_until_newline_split in Hl as [-> Hnl].
  destruct line as [|b line]; [done|]. set (l := b :: line) in *.
  destruct (strip_sync_suffix l) as [k Hk].
  destruct (pop_if_incl newline (strip_sync l)) as [s1 H1].
  destruct (pop_if_incl carriage_return (pop_if newline (strip_sync l))) as [s2 H2].
  set (r := pop_if carriage_return (pop_if newline (strip_sync l))) in *.
  destruct r as [|c r'] eqn:Hr.
  - specialize (IH rest). unfold l in Hf. cbn in Hf. rewrite length_app in Hf.
    specialize (IH ltac:(lia)). destruct (read_line_fuel fuel rest) as [[ln rs]| |]; try done.
    destruct IH as (? & ? & pre & suf & ->). split; [done|]. split; [done|].
    exists (l ++ pre), suf. by rewrite <-app_assoc.
  - rewrite <-Hr in *. assert (l = replicate k sync_byte ++ r ++ s2 ++ s1) as Heq.
    { rewrite Hk at 1. f_equal. rewrite H1 at 1. rewrite H2 at 1. by rewrite <-app_assoc. }
    split; [by rewrite Hr|]. split.
    + intros Hin. destruct Hnl as [Hnl|(pre & Hpre & Hnl)].
      * apply Hnl. rewrite Heq, !elem_of_app. tauto.
      * assert (newline ∉ pop_if newline (strip_sync l)) as Hp; [|apply Hp; rewrite H2; apply elem_of_app; by left].
        assert (∃ q, strip_sync l = q ++ [newline] ∧ newline ∉ q) as (q & -> & Hq).
        { destruct (decide (strip_sync l = [])) as [He|He].
          - exfalso. rewrite He, app_nil_r in Hk. rewrite Hk in Hpre.
            assert (newline ∈ replicate k sync_byte) as [? _]%elem_of_replicate; [|done].
            rewrite Hpre. apply elem_of_app. right. by apply list_elem_of_singleton.
          - destruct (exists_last He) as (q & x & Hq). exists q.
            rewrite Hq in Hk. rewrite Hpre, app_assoc in Hk.
            apply app_inj_tail in Hk as [Hpq Hx]. split; [by rewrite Hq, <-Hx|].
            intros Hin'. apply Hnl. rewrite Hpq. apply elem_of_app. by right. }
        by rewrite pop_if_snoc.
    + exists (replicate k sync_byte), (s2 ++ s1). rewrite Heq at 1. by rewrite <-!app_assoc.
Qed.
