(* ===== verification/Migration.v ===== *)
(** * Migration assessment

    [src/migration/readiness.rs], [src/migration/checks.rs],
    [src/migration/score.rs] and [src/cli/migrate/plan.rs]: the check results
    and repair hints, the MIG-G, MIG-L and MIG-W checks, the per-category scores
    with the readiness level, and the older flat score the assessment embeds.

    Each [out.push(..)] of the source is one list of zero or one results, and a
    check function is their concatenation in the source's order.  The sum of
    [compute_migration_score] that is a [u32] is checked or wraps with the build
    profile ([overflow_checks]); nothing else in these files can panic. *)
From stdpp Require Import base gmap strings list.
From Stdlib Require Import ZArith SpecFloat Ascii Lia.
From S2P Require Import Prelude RustStr F64 Evidence BootChecks BootEngine.

(** ** Results (readiness.rs) *)
Inductive ReadinessCategory : Set :=
  | CatBoot | CatStorage | CatNetwork | CatDriver | CatApplication | CatSecurity.
#[export] Instance ReadinessCategory_eq_dec : EqDecision ReadinessCategory.
Proof. solve_decision. Defined.
Definition ReadinessCategory_ALL : list ReadinessCategory :=
  [CatBoot; CatStorage; CatNetwork; CatDriver; CatApplication; CatSecurity].

Inductive RemediationHint : Type :=
  | AddVirtioToInitramfs
  | ConvertFstabToUuid
  | RepairBootloader
  | EnableSerialConsole
  | RemoveHypervisorTools (packages : list string)
  | ScheduleSelinuxRelabel
  | InjectWindowsDriver (driver : string)
  | RegisterBootCritical (driver : string)
  | SuspendBitLocker
  | RemoveGhostNics (instance_ids : list string)
  | PreserveStaticIp
  | Manual (instructions : string).

(** the derived [Debug]. *)
Definition fmt_debug_hint `{Platform} (h : RemediationHint) : string :=
  match h with
  | AddVirtioToInitramfs => "AddVirtioToInitramfs"
  | ConvertFstabToUuid => "ConvertFstabToUuid"
  | RepairBootloader => "RepairBootloader"
  | EnableSerialConsole => "EnableSerialConsole"
  | RemoveHypervisorTools packages =>
      "RemoveHypervisorTools { packages: " +:+ fmt_debug_strs packages +:+ " }"
  | ScheduleSelinuxRelabel => "ScheduleSelinuxRelabel"
  | InjectWindowsDriver driver =>
      "InjectWindowsDriver { driver: " +:+ fmt_debug_str driver +:+ " }"
  | RegisterBootCritical driver =>
      "RegisterBootCritical { driver: " +:+ fmt_debug_str driver +:+ " }"
  | SuspendBitLocker => "SuspendBitLocker"
  | RemoveGhostNics instance_ids =>
      "RemoveGhostNics { instance_ids: " +:+ fmt_debug_strs instance_ids +:+ " }"
  | PreserveStaticIp => "PreserveStaticIp"
  | Manual instructions =>
      "Manual { instructions: " +:+ fmt_debug_str instructions +:+ " }"
  end.

Record MigrationCheckResult : Type := mk_MigrationCheckResult {
  mc_id : string;
  mc_name : string;
  mc_category : ReadinessCategory;
  mc_passed : bool;
  mc_severity : CheckSeverity;
  mc_message : string;
  mc_weight : f64;
  mc_remediation : option RemediationHint
}.

(** [MigrationCheckResult::pass] and [::fail]; the weights are whole numbers. *)
Definition Check_pass (id name : string) (category : ReadinessCategory) (weight : Z)
    (message : string) : MigrationCheckResult :=
  mk_MigrationCheckResult id name category true Info message (f64_of_Z weight) None.
Definition Check_fail (id name : string) (category : ReadinessCategory) (weight : Z)
    (severity : CheckSeverity) (message : string)
    (remediation : option RemediationHint) : MigrationCheckResult :=
  mk_MigrationCheckResult id name category false severity message (f64_of_Z weight)
    remediation.

Record AssessContext : Type := mk_AssessContext {
  ac_target : BootTarget;
  ac_target_name : string;
  ac_live : bool;
  ac_boot_report : BootabilityReport
}.

(** [AssessContext::boot_check]. *)
Definition boot_check (self : AssessContext) (boot_id mig_id : string)
    (category : ReadinessCategory) (weight : Z) (remediation : option RemediationHint)
    : option MigrationCheckResult :=
  (fun src =>
     mk_MigrationCheckResult mig_id (cr_name src) category (cr_passed src)
       (if cr_passed src then Info else cr_severity src) (cr_message src)
       (f64_of_Z weight) (if cr_passed src then None else remediation))
  <$> List.find (fun c => String.eqb (cr_id c) boot_id) (br_checks (ac_boot_report self)).

(** [if let Some(check) = .. { out.push(check) }]. *)
Definition push_opt {A} (o : option A) : list A :=
  match o with Some x => [x] | None => [] end.
Definition not_empty {A} (l : list A) : bool :=
  match l with [] => false | _ => true end.

(** ** Checks (checks.rs) *)
Section checks.
Context `{P : Platform}.
Implicit Types (ev : EvidenceSnapshot) (ctx : AssessContext) (win : WindowsEvidence).

Definition is_windows ev : bool :=
  contains "windows" (to_lowercase (os_os_type (ev_os ev))).

Definition mig_g_001 ev : list MigrationCheckResult :=
  let os := ev_os ev in
  [if is_empty (os_os_type os) then
     Check_fail "MIG-G-001" "OS identification" CatBoot 8 Blocker
       "operating system could not be identified" None
   else
     Check_pass "MIG-G-001" "OS identification" CatBoot 8
       (os_distribution os +:+ " " +:+ os_version os +:+ " (" +:+ os_os_type os +:+ ")")].

Definition mig_g_002 ev : list MigrationCheckResult :=
  let fw := be_firmware (ev_boot ev) in
  if bool_decide (be_secure_boot (ev_boot ev) = Some true) then
    [Check_fail "MIG-G-002" "Firmware / Secure Boot" CatSecurity 4 Warning
       "Secure Boot is enabled — destination must provide a matching UEFI+SecureBoot configuration"
       (Some (Manual "provision the destination VM with UEFI firmware and Secure Boot, or disable Secure Boot in the guest"))]
  else if negb (is_empty fw) then
    [Check_pass "MIG-G-002" "Firmware / Secure Boot" CatSecurity 4
       (fw +:+ " firmware, Secure Boot not enforcing")]
  else [].

Definition mig_g_003 ev : list MigrationCheckResult :=
  match st_free_space_root_mb (ev_storage ev) with
  | Some mb =>
      if (mb <? 500)%Z then
        [Check_fail "MIG-G-003" "Free disk space" CatStorage 5 Warning
           ("only " +:+ fmt_Z mb +:+ " MB free on root — driver/package installation may fail")
           (Some (Manual "free at least 500 MB on the root filesystem before migration"))]
      else
        [Check_pass "MIG-G-003" "Free disk space" CatStorage 5
           (fmt_Z mb +:+ " MB free on root")]
  | None => []
  end.

Definition mig_g_004 ev : list MigrationCheckResult :=
  match ev_windows ev with
  | Some win =>
      [if we_pending_reboot win then
         Check_fail "MIG-G-004" "Pending reboot" CatBoot 3 Warning
           "a reboot is pending — finish it before cutover so first boot on the target is clean"
           (Some (Manual "reboot the guest before the migration window"))
       else Check_pass "MIG-G-004" "Pending reboot" CatBoot 3 "no pending reboot"]
  | None => []
  end.

(** the closure of the [filter] on remnants. *)
Definition is_foreign_tool (t : string) : bool :=
  let t := to_lowercase t in
  if String.eqb t "open-vm-tools" || starts_with "open-vm-tools" t then false
  else contains "vmware" t || contains "hyper-v" t || contains "hyperv" t
       || contains "xen" t.
Definition foreign_tools ev : list string :=
  let remnants :=
    vt_detected (ev_vm_tools ev) ++
    match ev_windows ev with Some win => we_hypervisor_remnants win | None => [] end in
  List.filter is_foreign_tool (dedup (str_sort remnants)).
Definition mig_g_005 ev : list MigrationCheckResult :=
  [match foreign_tools ev with
   | [] =>
       Check_pass "MIG-G-005" "Source hypervisor tooling" CatApplication 5
         "no competing hypervisor tools detected"
   | foreign =>
       Check_fail "MIG-G-005" "Source hypervisor tooling" CatApplication 5 Warning
         ("source-hypervisor tooling present: " +:+ join ", " foreign)
         (Some (RemoveHypervisorTools foreign))
   end].

Definition general_checks ev : list MigrationCheckResult :=
  mig_g_001 ev ++ mig_g_002 ev ++ mig_g_003 ev ++ mig_g_004 ev ++ mig_g_005 ev.

(** *** Linux *)
Definition mig_l_001 ev ctx : list MigrationCheckResult :=
  let ram_mods := be_initramfs_modules (ev_boot ev) in
  if not_empty ram_mods then
    let has_blk :=
      existsb (fun m => String.eqb m "virtio_blk" || String.eqb m "virtio_scsi") ram_mods in
    [if has_blk then
       Check_pass "MIG-L-001" "VirtIO in initramfs" CatDriver 10
         ("initramfs bundles: " +:+ join ", " ram_mods)
     else
       Check_fail "MIG-L-001" "VirtIO in initramfs" CatDriver 10 Blocker
         "no virtio block/SCSI module inside the initramfs — the guest will not find its root disk on KVM"
         (Some AddVirtioToInitramfs)]
  else
    push_opt (boot_check ctx "BOOT-006" "MIG-L-001" CatDriver 10
      (Some AddVirtioToInitramfs)).

(** the array of the loop over wrapped boot checks. *)
Definition linux_wrapped
    : list (string * string * ReadinessCategory * Z * option RemediationHint) :=
  [("BOOT-001", "MIG-L-002", CatStorage, 8%Z, Some ConvertFstabToUuid);
   ("BOOT-003", "MIG-L-003", CatBoot, 8%Z, Some AddVirtioToInitramfs);
   ("BOOT-004", "MIG-L-004", CatBoot, 8%Z, Some RepairBootloader);
   ("BOOT-005", "MIG-L-005", CatBoot, 5%Z, Some RepairBootloader);
   ("BOOT-009", "MIG-L-006", CatSecurity, 3%Z, Some ScheduleSelinuxRelabel)].
Definition wrapped_checks ctx
    (l : list (string * string * ReadinessCategory * Z * option RemediationHint))
    : list MigrationCheckResult :=
  List.flat_map (fun '(boot_id, mig_id, cat, weight, hint) =>
    push_opt (boot_check ctx boot_id mig_id cat weight hint)) l.

Definition mig_l_007_008 ev : list MigrationCheckResult :=
  match ev_linux_migration ev with
  | Some lm =>
      [if not_empty (lm_static_ip_configs lm) then
         let renaming_risk := bool_decide (lm_predictable_nic_names lm = Some true) in
         Check_fail "MIG-L-007" "Static IP × NIC naming" CatNetwork 6
           (if renaming_risk then Warning else Info)
           ("static IP configuration in " +:+ fmt_nat (length (lm_static_ip_configs lm))
            +:+ " file(s)"
            +:+ if renaming_risk
                then " and predictable NIC names may change on new virtual hardware (e.g. ens192 → enp1s0)"
                else "")
           (Some PreserveStaticIp)
       else
         Check_pass "MIG-L-007" "Static IP × NIC naming" CatNetwork 6
           "no static IP configuration detected";
       if not_empty (lm_hypervisor_modules lm) then
         Check_fail "MIG-L-008" "Hypervisor kernel modules" CatDriver 4 Warning
           ("loaded: " +:+ join ", " (lm_hypervisor_modules lm))
           (Some (RemoveHypervisorTools ["open-vm-tools"]))
       else
         Check_pass "MIG-L-008" "Hypervisor kernel modules" CatDriver 4
           "no foreign hypervisor modules loaded"]
  | None => []
  end.

Definition mig_l_009 ev : list MigrationCheckResult :=
  [if be_serial_console_configured (ev_boot ev) then
     Check_pass "MIG-L-009" "Serial console" CatBoot 2 "console=ttyS* configured"
   else
     Check_fail "MIG-L-009" "Serial console" CatBoot 2 Info
       "no serial console on the kernel command line — first-boot logs will be unavailable if boot fails"
       (Some EnableSerialConsole)].

Definition linux_checks ev ctx : list MigrationCheckResult :=
  mig_l_001 ev ctx ++ wrapped_checks ctx linux_wrapped ++ mig_l_007_008 ev
  ++ mig_l_009 ev.

(** *** Windows *)
Definition mig_w_001 win : list MigrationCheckResult :=
  let storage :=
    List.find (fun d =>
      (String.eqb (wd_name d) "viostor" || String.eqb (wd_name d) "vioscsi")
      && wd_present d) (we_virtio_drivers win) in
  [match storage with
   | Some d =>
       if wd_boot_critical d then
         Check_pass "MIG-W-001" "VirtIO storage driver" CatDriver 12
           (wd_name d +:+ " installed, boot-critical")
       else
         Check_fail "MIG-W-001" "VirtIO storage driver" CatDriver 12 Blocker
           (wd_name d +:+ " installed but start type is '" +:+ wd_start_type d
            +:+ "', not Boot — Windows will 0x7B on virtio storage")
           (Some (RegisterBootCritical (wd_name d)))
   | None =>
       if negb (not_empty (we_virtio_drivers win)) then
         Check_fail "MIG-W-001" "VirtIO storage driver" CatDriver 12 Warning
           "virtio driver state could not be determined" None
       else
         Check_fail "MIG-W-001" "VirtIO storage driver" CatDriver 12 Blocker
           "no virtio storage driver (viostor/vioscsi) installed"
           (Some (InjectWindowsDriver "vioscsi"))
   end].

Definition mig_w_002 win : list MigrationCheckResult :=
  if not_empty (we_virtio_drivers win) then
    let fail :=
      Check_fail "MIG-W-002" "VirtIO network driver" CatDriver 6 Warning
        "netkvm not installed — no network after cutover until drivers are added"
        (Some (InjectWindowsDriver "netkvm")) in
    [match List.find (fun d => String.eqb (wd_name d) "netkvm") (we_virtio_drivers win) with
     | Some d =>
         if wd_present d then
           Check_pass "MIG-W-002" "VirtIO network driver" CatDriver 6 "netkvm installed"
         else fail
     | None => fail
     end]
  else [].

Definition windows_wrapped
    : list (string * string * ReadinessCategory * Z * option RemediationHint) :=
  [("BOOT-013", "MIG-W-003", CatBoot, 8%Z, Some RepairBootloader);
   ("BOOT-012", "MIG-W-004", CatBoot, 6%Z, Some RepairBootloader);
   ("BOOT-014", "MIG-W-011", CatBoot, 4%Z, Some RepairBootloader)].

Definition mig_w_005 win : list MigrationCheckResult :=
  let fail := Check_fail "MIG-W-005" "BitLocker" CatSecurity 10 in
  match we_bitlocker win with
  | Some bl =>
      if bl_any_protected bl then
        [fail Blocker
           "BitLocker protection is active (BootStatus/On) — hardware change will trigger recovery mode"
           (Some SuspendBitLocker)]
      else if bl_offline_uncertain bl
              || existsb (fun v => one_of ["artifacts"; "unknown"] (blv_protection v))
                   (bl_volumes bl) then
        let detail := default "FVE artifacts" (head (bl_volumes bl) ≫= blv_source) in
        [fail Warning
           ("BitLocker artifacts present offline (" +:+ detail
            +:+ ") — confirm ProtectionStatus and escrow the recovery key")
           (Some SuspendBitLocker)]
      else
        [Check_pass "MIG-W-005" "BitLocker" CatSecurity 10 "no active BitLocker protection"]
  | None =>
      if we_bitlocker_detected win then
        [fail Warning
           "BitLocker artifacts detected; verify protection state and escrow the recovery key"
           (Some SuspendBitLocker)]
      else []
  end.

Definition mig_w_006 win : list MigrationCheckResult :=
  [if not_empty (we_ghost_nics win) then
     Check_fail "MIG-W-006" "Ghost NICs" CatNetwork 3 Warning
       (fmt_nat (length (we_ghost_nics win))
        +:+ " disconnected NIC(s) hold stale configuration")
       (Some (RemoveGhostNics (map gn_instance_id (we_ghost_nics win))))
   else Check_pass "MIG-W-006" "Ghost NICs" CatNetwork 3 "no disconnected NICs"].

Definition mig_w_007 win : list MigrationCheckResult :=
  if not_empty (we_static_nic_configs win) then
    [Check_fail "MIG-W-007" "Static NIC configuration" CatNetwork 6 Warning
       (fmt_nat (length (we_static_nic_configs win))
        +:+ " adapter(s) use static IPs bound to source hardware — capture and re-apply on the destination adapter")
       (Some PreserveStaticIp)]
  else [].

Definition mig_w_008 win : list MigrationCheckResult :=
  match we_activation win with
  | Some act =>
      let oem := contains "OEM" (to_uppercase (ai_channel act)) in
      let detail :=
        match ai_edition_id act, ai_product_id act with
        | Some ed, Some pid => " edition=" +:+ ed +:+ " product_id=" +:+ pid
        | Some ed, None => " edition=" +:+ ed
        | None, Some pid => " product_id=" +:+ pid
        | None, None => ""
        end in
      [if oem then
         Check_fail "MIG-W-008" "Windows activation" CatApplication 3 Warning
           ("OEM-channel license (" +:+ ai_channel act +:+ ")" +:+ detail
            +:+ " is tied to source hardware and may deactivate")
           (Some (Manual "prepare a KMS/MAK key or plan re-activation after migration"))
       else
         Check_pass "MIG-W-008" "Windows activation" CatApplication 3
           ("licensed=" +:+ fmt_bool (ai_licensed act) +:+ " channel="
            +:+ (if is_empty (ai_channel act) then "unknown" else ai_channel act)
            +:+ detail)]
  | None =>
      [Check_pass "MIG-W-008" "Windows activation" CatApplication 1
         "activation markers not present in SOFTWARE hive"]
  end.

Definition mig_w_009 win : list MigrationCheckResult :=
  match we_vss win with
  | Some vss =>
      let suffix := if vs_offline_inferred vss then " (offline inference)" else "" in
      [if vs_healthy vss then
         Check_pass "MIG-W-009" "VSS writers" CatApplication 4
           (fmt_Z (vs_writers_total vss) +:+ " writers/services stable" +:+ suffix)
       else
         Check_fail "MIG-W-009" "VSS writers" CatApplication 4 Warning
           ("VSS not ready" +:+ suffix +:+ ": "
            +:+ if not_empty (vs_writers_failed vss)
                then join ", " (vs_writers_failed vss)
                else "System Volume Information missing or VSS stack incomplete")
           (Some (Manual "ensure VSS + Software Shadow Copy Provider are enabled; fix failed writers before consistent snapshot"))]
  | None => []
  end.

Definition mig_w_010 win : list MigrationCheckResult :=
  match we_driver_signature_enforcement win with
  | Some enforced =>
      [if negb enforced then
         Check_fail "MIG-W-010" "Driver signature enforcement" CatSecurity 2 Info
           "test-signing or nointegritychecks is enabled — remember to re-enable enforcement after driver work"
           None
       else
         Check_pass "MIG-W-010" "Driver signature enforcement" CatSecurity 2
           "signature enforcement active (signed virtio-win drivers required)"]
  | None => []
  end.

Definition mig_w_012 win : list MigrationCheckResult :=
  let sample := map wh_kb (take 5 (we_hotfixes win)) in
  let sample_txt := if not_empty sample then join ", " sample else "none sampled" in
  [if we_hf_mig_present win then
     Check_fail "MIG-W-012" "Windows hotfixes / servicing" CatApplication 3 Warning
       ("$hf_mig$ present with " +:+ fmt_Z (we_hotfix_count win) +:+ " KB(s) tracked ("
        +:+ sample_txt
        +:+ ") — incomplete hotfix migration data; reboot/CBS cleanup before cutover")
       (Some (Manual "complete pending Windows Update / CBS operations and reboot before migration"))
   else if (0 <? we_hotfix_count win)%Z then
     Check_pass "MIG-W-012" "Windows hotfixes / servicing" CatApplication 3
       (fmt_Z (we_hotfix_count win) +:+ " hotfix/KB entries tracked (sample: "
        +:+ sample_txt +:+ ")")
   else
     Check_pass "MIG-W-012" "Windows hotfixes / servicing" CatApplication 2
       "no hotfix / CBS sample collected (legacy HotFix key empty or not probed)"].

(** registered drivers whose [.sys] file is missing. *)
Definition sys_mismatch (d : WindowsDriverEntry) : bool :=
  bool_decide (wd_sys_present d = Some false) && wd_present d
  && one_of ["viostor"; "vioscsi"; "netkvm"] (wd_name d).
Definition mig_w_013 win : list MigrationCheckResult :=
  let drivers := we_virtio_drivers win in
  if not_empty drivers then
    let mismatches := map wd_name (List.filter sys_mismatch drivers) in
    let on_disk :=
      map wd_name (List.filter (fun d => bool_decide (wd_sys_present d = Some true)) drivers) in
    let probed :=
      existsb (fun d => match wd_sys_present d with Some _ => true | None => false end)
        drivers in
    if not_empty mismatches then
      [Check_fail "MIG-W-013" "VirtIO driver files" CatDriver 6 Blocker
         ("SCM lists " +:+ join ", " mismatches
          +:+ " but System32\drivers\*.sys is missing — inject virtio-win before cutover")
         (Some (InjectWindowsDriver (default "vioscsi" (head mismatches))))]
    else if not_empty on_disk then
      [Check_pass "MIG-W-013" "VirtIO driver files" CatDriver 4
         ("VirtIO .sys on disk: " +:+ join ", " on_disk)]
    else if probed then
      [Check_fail "MIG-W-013" "VirtIO driver files" CatDriver 6 Warning
         "no VirtIO .sys files found under System32\drivers — plan DriverInject from virtio-win"
         (Some (InjectWindowsDriver "vioscsi"))]
    else []
  else [].

Definition windows_checks ev ctx : list MigrationCheckResult :=
  match ev_windows ev with
  | None => []
  | Some win =>
      mig_w_001 win ++ mig_w_002 win ++ wrapped_checks ctx windows_wrapped
      ++ mig_w_005 win ++ mig_w_006 win ++ mig_w_007 win ++ mig_w_008 win
      ++ mig_w_009 win ++ mig_w_010 win ++ mig_w_012 win ++ mig_w_013 win
  end.

Definition run_all_checks ev ctx : list MigrationCheckResult :=
  general_checks ev
  ++ if is_windows ev then windows_checks ev ctx else linux_checks ev ctx.

(** ** The flat score (cli/migrate/plan.rs) *)
Record MigrationScoreReport : Type := mk_MigrationScoreReport {
  ms_score : f64;
  ms_driver_injections : list string;
  ms_required_changes : list string;
  ms_licensing_warnings : list string;
  ms_estimated_downtime_minutes : Z
}.

(** the mutable variables of [compute_migration_score]. *)
Record score_state : Type := mk_score_state {
  ss_score : f64;
  ss_driver_injections : list string;
  ss_required_changes : list string;
  ss_licensing_warnings : list string
}.
Definition penalty (n : Z) (s : score_state) : score_state :=
  mk_score_state (ss_score s - f64_of_Z n)%f64 (ss_driver_injections s)
    (ss_required_changes s) (ss_licensing_warnings s).
Definition inject (ds : list string) (s : score_state) : score_state :=
  mk_score_state (ss_score s) (ss_driver_injections s ++ ds) (ss_required_changes s)
    (ss_licensing_warnings s).
Definition require (c : string) (s : score_state) : score_state :=
  mk_score_state (ss_score s) (ss_driver_injections s) (ss_required_changes s ++ [c])
    (ss_licensing_warnings s).
Definition license (w : string) (s : score_state) : score_state :=
  mk_score_state (ss_score s) (ss_driver_injections s) (ss_required_changes s)
    (ss_licensing_warnings s ++ [w]).

Definition score_kvm ev (s : score_state) : score_state :=
  let s :=
    if existsb (contains "vmware") (vt_detected (ev_vm_tools ev)) then
      penalty 5 (require "Remove VMware Tools; install qemu-guest-agent" s)
    else s in
  let s :=
    if negb (existsb (contains "virtio") (be_loaded_modules (ev_boot ev))) then
      penalty 10 (inject ["virtio_blk"; "virtio_net"; "virtio_pci"] s)
    else s in
  require "Set network model to virtio-net"
    (require "Set disk bus to virtio-scsi or virtio-blk" s).

Definition score_cloud ev (s : score_state) : score_state :=
  let s := license "Verify OS license portability to cloud (BYOL vs pay-as-you-go)" s in
  if be_cloud_init_present (ev_boot ev) then
    require "Reconfigure cloud-init datasource for target cloud" s
  else penalty 5 (require "Install and configure cloud-init for cloud target" s).

Definition score_windows win (s : score_state) : score_state :=
  let s :=
    if we_bitlocker_detected win then
      penalty 20 (license "BitLocker encryption must be suspended before migration" s)
    else s in
  if we_pending_reboot win then
    penalty 5 (require "Complete pending Windows reboot before migration" s)
  else s.

Definition score_passes ev (target_lower : string) (s : score_state) : score_state :=
  let s := if one_of ["kvm"; "proxmox"; "qemu"; "kubevirt"] target_lower
           then score_kvm ev s else s in
  let s := if one_of ["aws"; "azure"; "gcp"] target_lower then score_cloud ev s else s in
  let s := match ev_windows ev with Some win => score_windows win s | None => s end in
  if be_pending_relabel (ev_boot ev)
  then require "Allow SELinux relabel on first boot after migration" s else s.

(** [len() as u32]. *)
Definition len_u32 {A} (l : list A) : Z := (Z.of_nat (length l) mod 2 ^ 32)%Z.

Definition downtime_of (overflow_checks : bool) (blockers injections changes : Z)
    : outcome Empty_set Z :=
  b ← u_arith overflow_checks 32 (blockers * 15);
  s ← u_arith overflow_checks 32 (30 + b);
  i ← u_arith overflow_checks 32 (injections * 10);
  s ← u_arith overflow_checks 32 (s + i);
  c ← u_arith overflow_checks 32 (changes * 5);
  u_arith overflow_checks 32 (s + c).

Definition compute_migration_score (overflow_checks : bool) ev
    (boot : BootabilityReport) (target : string)
    : outcome Empty_set MigrationScoreReport :=
  let s := score_passes ev (to_lowercase target) (mk_score_state (br_score boot) [] [] []) in
  let blocker_penalty := (f64_of_Z (Z.of_nat (length (br_blockers boot))) * f64_of_Z 8)%f64 in
  let score := f64_clamp (ss_score s - blocker_penalty)%f64 (f64_of_Z 0) (f64_of_Z 100) in
  downtime ← downtime_of overflow_checks (len_u32 (br_blockers boot))
    (len_u32 (ss_driver_injections s)) (len_u32 (ss_required_changes s));
  mret (mk_MigrationScoreReport score (ss_driver_injections s) (ss_required_changes s)
    (ss_licensing_warnings s) downtime).

(** ** The assessment (score.rs) *)
Inductive ReadinessLevel : Set := Ready | ReadyWithWarnings | Blocked.

Record MigrationSubScores : Type := mk_MigrationSubScores {
  sub_boot : f64;
  sub_storage : f64;
  sub_network : f64;
  sub_driver : f64;
  sub_application : f64;
  sub_security : f64
}.

Record MigrationAssessment : Type := mk_MigrationAssessment {
  ma_target : string;
  ma_live : bool;
  ma_assessed_at : string;
  ma_overall_score : f64;
  ma_sub_scores : MigrationSubScores;
  ma_readiness : ReadinessLevel;
  ma_critical_blockers : list Finding;
  ma_recommended_actions : list string;
  ma_checks : list MigrationCheckResult;
  ma_online_correlation : option json_value;
  ma_legacy : MigrationScoreReport
}.

(** the credit of one check: what the loop adds to [entry.0]. *)
Definition check_credit (check : MigrationCheckResult) : f64 :=
  if mc_passed check then mc_weight check
  else match mc_severity check with
       | Blocker => f64_of_Z 0
       | Warning => (mc_weight check * f64_lit 4 10)%f64
       | Info => (mc_weight check * f64_lit 8 10)%f64
       end.

(** the [BTreeMap] as a function from a category to its entry, if it has one. *)
Definition cat_map : Type := ReadinessCategory → option (f64 * f64).
Definition cat_step (m : cat_map) (check : MigrationCheckResult) : cat_map :=
  fun cat =>
    if bool_decide (cat = mc_category check) then
      let '(p, t) := default (f64_of_Z 0, f64_of_Z 0) (m cat) in
      Some ((p + check_credit check)%f64, (t + mc_weight check)%f64)
    else m cat.
Definition per_cat (checks : list MigrationCheckResult) : cat_map :=
  foldl cat_step (fun _ => None) checks.

Definition cat_score (m : cat_map) (cat : ReadinessCategory) : f64 :=
  match m cat with
  | Some (p, t) =>
      if (f64_of_Z 0 <? t)%f64 then f64_round (p / t * f64_of_Z 100)%f64
      else f64_of_Z 100
  | None => f64_of_Z 100
  end.
Definition sub_scores (m : cat_map) : MigrationSubScores :=
  mk_MigrationSubScores (cat_score m CatBoot) (cat_score m CatStorage)
    (cat_score m CatNetwork) (cat_score m CatDriver) (cat_score m CatApplication)
    (cat_score m CatSecurity).

(** [per_cat.values()] visits the categories in their declaration order. *)
Definition cat_totals (m : cat_map) : f64 * f64 :=
  foldl (fun '(ws, wt) '(p, t) => ((ws + p)%f64, (wt + t)%f64))
    (f64_of_Z 0, f64_of_Z 0) (List.flat_map (fun c => push_opt (m c)) ReadinessCategory_ALL).
Definition overall_score (m : cat_map) (boot_report : BootabilityReport) : f64 :=
  let '(weighted_sum, weight_total) := cat_totals m in
  if (f64_of_Z 0 <? weight_total)%f64
  then f64_round (weighted_sum / weight_total * f64_of_Z 100)%f64
  else br_score boot_report.

Definition failed_with (sev : CheckSeverity) (c : MigrationCheckResult) : bool :=
  negb (mc_passed c) && bool_decide (mc_severity c = sev).

Definition critical_blockers (checks : list MigrationCheckResult) : list Finding :=
  map (fun c =>
      mk_Finding (mc_id c) (mc_name c) (mc_message c)
        (match mc_remediation c with
         | Some h => Some (fmt_debug_hint h)
         | None => Some "manual intervention required"
         end))
    (List.filter (failed_with Blocker) checks).

Definition recommended_actions (checks : list MigrationCheckResult) : list string :=
  map (fun c => "[" +:+ mc_id c +:+ "] " +:+ mc_name c +:+ ": " +:+ mc_message c)
    (List.filter (fun c =>
       negb (mc_passed c) && match mc_remediation c with Some _ => true | None => false end)
       checks).

Definition readiness_of (checks : list MigrationCheckResult) : ReadinessLevel :=
  if not_empty (critical_blockers checks) then Blocked
  else if existsb (failed_with Warning) checks then ReadyWithWarnings
  else Ready.

Definition assess_context (boot_report : BootabilityReport) (target : string)
    (live : bool) : AssessContext :=
  mk_AssessContext (BootTarget_parse target) target live boot_report.

(** [now] is the clock's reading. *)
Definition assess_migration (overflow_checks : bool) (now : string) ev
    (boot_report : BootabilityReport) (target : string) (live : bool)
    : outcome Empty_set MigrationAssessment :=
  let ctx := assess_context boot_report target live in
  let checks := run_all_checks ev ctx in
  let m := per_cat checks in
  legacy ← compute_migration_score overflow_checks ev boot_report target;
  mret (mk_MigrationAssessment target live now (overall_score m boot_report)
    (sub_scores m) (readiness_of checks) (critical_blockers checks)
    (recommended_actions checks) checks (ev_online_cache ev) legacy).
End checks.
