(* ===== verification/Assessment.v ===== *)
(** * What the migration assessment concludes

    Theorems on [Migration]: the identifiers of an assessment's checks are
    distinct, the readiness level is exactly the stated condition on the evidence
    (for Linux and for Windows guests, through the boot engine), the assessment
    never panics on the boot engine's report, its flat score stays between 0 and
    100 and its scores are numbers. *)
From stdpp Require Import base gmap strings list.
From Stdlib Require Import ZArith SpecFloat Ascii Lia.
From S2P Require Import Prelude RustStr F64 F64Int Evidence BootChecks BootEngine BootScore Migration.

Section assessment.
Context `{P : Platform}.
Implicit Types (ev : EvidenceSnapshot) (ctx : AssessContext) (win : WindowsEvidence).
Implicit Types (cs : list MigrationCheckResult) (r : BootabilityReport).

(** ** Identifiers, categories and weights

    What the source says of each check: its identifier, its category and the
    largest weight it is given. *)
Record check_spec : Type := mk_check_spec {
  sp_id : string;
  sp_category : ReadinessCategory;
  sp_weight : Z
}.

Definition fits (c : MigrationCheckResult) (sp : check_spec) : Prop :=
  mc_id c = sp_id sp ∧ mc_category c = sp_category sp ∧
  ∃ w, (1 ≤ w ≤ sp_weight sp)%Z ∧ mc_weight c = f64_of_Z w.

(** the results are those of some of the specified checks, in their order. *)
Definition covers cs (sps : list check_spec) : Prop :=
  ∃ sps', sps' `sublist_of` sps ∧ Forall2 fits cs sps'.

Lemma covers_app cs cs' sps sps' :
  covers cs sps → covers cs' sps' → covers (cs ++ cs') (sps ++ sps').
Proof.
  intros (l & Hl & Hc) (l' & Hl' & Hc'). exists (l ++ l').
  split; [by apply sublist_app|by apply Forall2_app].
Qed.

Lemma covers_nil sps : covers [] sps.
Proof. exists []. split; [apply sublist_nil_l|constructor]. Qed.

Lemma covers_cons c cs sp sps : fits c sp → covers cs sps → covers (c :: cs) (sp :: sps).
Proof. intros Hc Hcs. apply (covers_app [c] cs [sp] sps); [|done]. exists [sp]. auto. Qed.

Lemma covers_one c sp : fits c sp → covers [c] [sp].
Proof. intros Hc. apply covers_cons; [done|apply covers_nil]. Qed.

Lemma covers_map_id cs sps : covers cs sps → map mc_id cs `sublist_of` map sp_id sps.
Proof.
  intros (l & Hl & Hc). replace (map mc_id cs) with (sp_id <$> l).
  - by apply fmap_sublist.
  - clear Hl. induction Hc as [|c sp cs' l' [H _] _ IH]; [done|]. cbn. by rewrite H, IH.
Qed.

(** the literal checks of the source fit their specification. *)
Ltac fits_literal :=
  split; [reflexivity|split; [reflexivity|eexists; split; [|reflexivity]; cbn; lia]].
Ltac covers_cases := repeat case_match;
  first [apply covers_nil | apply covers_one; fits_literal
        | apply covers_cons; [fits_literal|apply covers_one; fits_literal]].

Definition wrapped_spec (x : string * string * ReadinessCategory * Z * option RemediationHint)
    : check_spec :=
  let '(_, mig_id, cat, w, _) := x in mk_check_spec mig_id cat w.

Lemma boot_check_covers ctx boot_id mig_id cat w h :
  (1 ≤ w)%Z →
  covers (push_opt (boot_check ctx boot_id mig_id cat w h)) [mk_check_spec mig_id cat w].
Proof.
  intros Hw. unfold boot_check. destruct (List.find _ _) as [src|]; [|apply covers_nil].
  apply covers_one. split; [done|]. split; [done|]. exists w. split; [cbn; lia|done].
Qed.

Lemma wrapped_covers ctx l :
  Forall (fun x => 1 ≤ x.1.2)%Z l → covers (wrapped_checks ctx l) (map wrapped_spec l).
Proof.
  induction 1 as [|[[[[b g] c] w] h] l Hw Hl IH]; [apply covers_nil|].
  apply (covers_app _ _ [mk_check_spec g c w]); [by apply boot_check_covers|exact IH].
Qed.

Definition general_specs : list check_spec :=
  [mk_check_spec "MIG-G-001" CatBoot 8; mk_check_spec "MIG-G-002" CatSecurity 4;
   mk_check_spec "MIG-G-003" CatStorage 5; mk_check_spec "MIG-G-004" CatBoot 3;
   mk_check_spec "MIG-G-005" CatApplication 5].
Definition linux_specs : list check_spec :=
  [mk_check_spec "MIG-L-001" CatDriver 10; mk_check_spec "MIG-L-002" CatStorage 8;
   mk_check_spec "MIG-L-003" CatBoot 8; mk_check_spec "MIG-L-004" CatBoot 8;
   mk_check_spec "MIG-L-005" CatBoot 5; mk_check_spec "MIG-L-006" CatSecurity 3;
   mk_check_spec "MIG-L-007" CatNetwork 6; mk_check_spec "MIG-L-008" CatDriver 4;
   mk_check_spec "MIG-L-009" CatBoot 2].
Definition windows_specs : list check_spec :=
  [mk_check_spec "MIG-W-001" CatDriver 12; mk_check_spec "MIG-W-002" CatDriver 6;
   mk_check_spec "MIG-W-003" CatBoot 8; mk_check_spec "MIG-W-004" CatBoot 6;
   mk_check_spec "MIG-W-011" CatBoot 4; mk_check_spec "MIG-W-005" CatSecurity 10;
   mk_check_spec "MIG-W-006" CatNetwork 3; mk_check_spec "MIG-W-007" CatNetwork 6;
   mk_check_spec "MIG-W-008" CatApplication 3; mk_check_spec "MIG-W-009" CatApplication 4;
   mk_check_spec "MIG-W-010" CatSecurity 2; mk_check_spec "MIG-W-012" CatApplication 3;
   mk_check_spec "MIG-W-013" CatDriver 6].
Definition all_specs ev : list check_spec :=
  general_specs ++ if is_windows ev then windows_specs else linux_specs.

Lemma general_checks_covers ev : covers (general_checks ev) general_specs.
Proof.
  unfold general_checks.
  apply (covers_app _ _ (take 1 general_specs)); [unfold mig_g_001; covers_cases|].
  apply (covers_app _ _ [_]); [unfold mig_g_002; covers_cases|].
  apply (covers_app _ _ [_]); [unfold mig_g_003; covers_cases|].
  apply (covers_app _ _ [_]); [unfold mig_g_004; covers_cases|].
  unfold mig_g_005; covers_cases.
Qed.

Lemma linux_checks_covers ev ctx : covers (linux_checks ev ctx) linux_specs.
Proof.
  unfold linux_checks.
  apply (covers_app _ _ (take 1 linux_specs)).
  { unfold mig_l_001. case_match; [covers_cases|by apply boot_check_covers]. }
  apply (covers_app _ _ [_; _; _; _; _]).
  { apply (wrapped_covers ctx linux_wrapped). by repeat constructor. }
  apply (covers_app _ _ [_; _]); [unfold mig_l_007_008; covers_cases|].
  unfold mig_l_009; covers_cases.
Qed.

Lemma windows_checks_covers ev ctx : covers (windows_checks ev ctx) windows_specs.
Proof.
  unfold windows_checks. destruct (ev_windows ev) as [win|]; [|apply covers_nil].
  apply (covers_app _ _ (take 1 windows_specs)); [unfold mig_w_001; covers_cases|].
  apply (covers_app _ _ [_]); [unfold mig_w_002; covers_cases|].
  apply (covers_app _ _ [_; _; _]).
  { apply (wrapped_covers ctx windows_wrapped). by repeat constructor. }
  apply (covers_app _ _ [_]); [unfold mig_w_005; covers_cases|].
  apply (covers_app _ _ [_]); [unfold mig_w_006; covers_cases|].
  apply (covers_app _ _ [_]); [unfold mig_w_007; covers_cases|].
  apply (covers_app _ _ [_]); [unfold mig_w_008; covers_cases|].
  apply (covers_app _ _ [_]); [unfold mig_w_009; covers_cases|].
  apply (covers_app _ _ [_]); [unfold mig_w_010; covers_cases|].
  apply (covers_app _ _ [_]); [unfold mig_w_012; covers_cases|].
  unfold mig_w_013; covers_cases.
Qed.

Lemma run_all_checks_covers ev ctx : covers (run_all_checks ev ctx) (all_specs ev).
Proof.
  apply covers_app; [apply general_checks_covers|].
  destruct (is_windows ev); [apply windows_checks_covers|apply linux_checks_covers].
Qed.

(** ** Which checks block *)
Lemma readiness_blocked cs :
  readiness_of cs = Blocked ↔ existsb (failed_with Blocker) cs = true.
Proof.
  unfold readiness_of, critical_blockers. induction cs as [|c cs IH]; [done|].
  cbn. destruct (failed_with Blocker c); [done|]. cbn. rewrite <-IH. clear IH.
  destruct (not_empty _); [done|]. destruct (failed_with Warning c), (existsb _ cs); done.
Qed.

(** the boot check of this id is in the report and failed as a blocker. *)
Definition boot_blocks r (id : string) : bool :=
  match List.find (fun c => String.eqb (cr_id c) id) (br_checks r) with
  | Some c => negb (cr_passed c) && bool_decide (cr_severity c = Blocker)
  | None => false
  end.

Lemma boot_check_blocks ctx boot_id mig_id cat w h :
  existsb (failed_with Blocker) (push_opt (boot_check ctx boot_id mig_id cat w h)) =
  boot_blocks (ac_boot_report ctx) boot_id.
Proof.
  unfold boot_check, boot_blocks. destruct (List.find _ _) as [c|]; [|done]. cbn.
  unfold failed_with. cbn. rewrite orb_false_r. by destruct (cr_passed c).
Qed.

Lemma wrapped_blocks ctx l :
  existsb (failed_with Blocker) (wrapped_checks ctx l) =
  existsb (boot_blocks (ac_boot_report ctx)) (map (fun x => x.1.1.1.1) l).
Proof.
  induction l as [|[[[[b g] c] w] h] l IH]; [done|].
  change (wrapped_checks ctx ((b, g, c, w, h) :: l)) with
    (push_opt (boot_check ctx b g c w h) ++ wrapped_checks ctx l).
  by rewrite existsb_app, boot_check_blocks, IH.
Qed.

Ltac never_blocks := repeat case_match; reflexivity.

Lemma general_blocks ev :
  existsb (failed_with Blocker) (general_checks ev) = is_empty (os_os_type (ev_os ev)).
Proof.
  unfold general_checks. rewrite !existsb_app.
  replace (existsb _ (mig_g_002 ev)) with false by (unfold mig_g_002; never_blocks).
  replace (existsb _ (mig_g_003 ev)) with false by (unfold mig_g_003; never_blocks).
  replace (existsb _ (mig_g_004 ev)) with false by (unfold mig_g_004; never_blocks).
  replace (existsb _ (mig_g_005 ev)) with false by (unfold mig_g_005; never_blocks).
  rewrite !orb_false_r. unfold mig_g_001. by destruct (is_empty _).
Qed.

(** the initramfs contents are known and no virtio disk driver is among them. *)
Definition initramfs_lacks_virtio ev : bool :=
  not_empty (be_initramfs_modules (ev_boot ev))
  && negb (existsb (fun m => String.eqb m "virtio_blk" || String.eqb m "virtio_scsi")
             (be_initramfs_modules (ev_boot ev))).

Lemma not_empty_false {A} (l : list A) : negb (not_empty l) = true ↔ l = [].
Proof. by destruct l. Qed.

Lemma initramfs_lacks_virtio_spec ev :
  initramfs_lacks_virtio ev = true ↔
  be_initramfs_modules (ev_boot ev) ≠ [] ∧
  ("virtio_blk" ∉ be_initramfs_modules (ev_boot ev)) ∧
  ("virtio_scsi" ∉ be_initramfs_modules (ev_boot ev)).
Proof.
  unfold initramfs_lacks_virtio. generalize (be_initramfs_modules (ev_boot ev)) as l. intros l.
  rewrite andb_true_iff, negb_true_iff, <-(not_true_iff_false (existsb _ _)), existsb_elem_of.
  setoid_rewrite orb_true_iff. setoid_rewrite String.eqb_eq.
  destruct l; cbn [not_empty]; naive_solver.
Qed.

Lemma linux_blocks ev ctx :
  existsb (failed_with Blocker) (linux_checks ev ctx) =
  initramfs_lacks_virtio ev
  || negb (not_empty (be_initramfs_modules (ev_boot ev)))
     && boot_blocks (ac_boot_report ctx) "BOOT-006"
  || existsb (boot_blocks (ac_boot_report ctx))
       ["BOOT-001"; "BOOT-003"; "BOOT-004"; "BOOT-005"; "BOOT-009"].
Proof.
  unfold linux_checks. rewrite !existsb_app, wrapped_blocks.
  replace (existsb _ (mig_l_007_008 ev)) with false by (unfold mig_l_007_008; never_blocks).
  replace (existsb _ (mig_l_009 ev)) with false by (unfold mig_l_009; never_blocks).
  rewrite !orb_false_r. f_equal. unfold mig_l_001, initramfs_lacks_virtio.
  destruct (not_empty _); cbn [andb negb orb].
  - rewrite orb_false_r. case_match; done.
  - apply boot_check_blocks.
Qed.

(** the virtio drivers were probed, and the first present storage driver is not
    boot-critical or there is none. *)
Definition storage_driver_missing win : bool :=
  not_empty (we_virtio_drivers win)
  && match List.find (fun d =>
         (String.eqb (wd_name d) "viostor" || String.eqb (wd_name d) "vioscsi")
         && wd_present d) (we_virtio_drivers win) with
     | Some d => negb (wd_boot_critical d)
     | None => true
     end.
Definition bitlocker_active win : bool :=
  match we_bitlocker win with Some bl => bl_any_protected bl | None => false end.

Lemma windows_blocks ev ctx win :
  ev_windows ev = Some win →
  existsb (failed_with Blocker) (windows_checks ev ctx) =
  storage_driver_missing win
  || existsb (boot_blocks (ac_boot_report ctx)) ["BOOT-013"; "BOOT-012"; "BOOT-014"]
  || bitlocker_active win
  || existsb sys_mismatch (we_virtio_drivers win).
Proof.
  intros Hw. unfold windows_checks. rewrite Hw, !existsb_app, wrapped_blocks.
  replace (existsb _ (mig_w_002 win)) with false by (unfold mig_w_002; never_blocks).
  replace (existsb _ (mig_w_006 win)) with false by (unfold mig_w_006; never_blocks).
  replace (existsb _ (mig_w_007 win)) with false by (unfold mig_w_007; never_blocks).
  replace (existsb _ (mig_w_008 win)) with false by (unfold mig_w_008; never_blocks).
  replace (existsb _ (mig_w_009 win)) with false by (unfold mig_w_009; never_blocks).
  replace (existsb _ (mig_w_010 win)) with false by (unfold mig_w_010; never_blocks).
  replace (existsb _ (mig_w_012 win)) with false by (unfold mig_w_012; never_blocks).
  replace (existsb _ (mig_w_001 win)) with (storage_driver_missing win); cycle 1.
  { unfold mig_w_001, storage_driver_missing. destruct (we_virtio_drivers win) as [|d l];
      [done|]. cbn [not_empty]. destruct (List.find _ _) as [d'|]; [|done].
    by destruct (wd_boot_critical d'). }
  replace (existsb _ (mig_w_005 win)) with (bitlocker_active win); cycle 1.
  { unfold mig_w_005, bitlocker_active. destruct (we_bitlocker win) as [bl|]; [|by case_match].
    destruct (bl_any_protected bl); [done|]. by case_match. }
  replace (existsb _ (mig_w_013 win)) with (existsb sys_mismatch (we_virtio_drivers win));
    cycle 1.
  { unfold mig_w_013. generalize (we_virtio_drivers win) as ds. intros ds.
    replace (existsb sys_mismatch ds) with (not_empty (map wd_name (List.filter sys_mismatch ds)));
      cycle 1.
    { induction ds as [|d ds IH]; [done|]. cbn. by destruct (sys_mismatch d). }
    destruct ds as [|d ds]; [done|]. cbn [not_empty]. destruct (map wd_name _); cbn [not_empty];
      [|done]. by repeat case_match. }
  rewrite !orb_false_l, <-!orb_assoc. reflexivity.
Qed.

(** ** The boot engine's blockers *)
Lemma all_checks_id :
  Forall (fun c => ∀ ev target, cr_id (bc_run c ev target) = bc_id c) all_checks.
Proof. repeat constructor; intros ev target; cbn; repeat case_match; reflexivity. Qed.

Lemma find_map {A B} (f : A → B) (p : B → bool) l :
  List.find p (map f l) = f <$> List.find (fun x => p (f x)) l.
Proof. induction l as [|x l IH]; [done|]. cbn. by destruct (p (f x)). Qed.

Lemma find_ext_Forall {A} (p q : A → bool) l :
  Forall (fun x => p x = q x) l → List.find p l = List.find q l.
Proof. induction 1 as [|x l Hx Hl IH]; [done|]. cbn. rewrite Hx, IH. done. Qed.

Definition blocks_by (c : CheckResult) : bool :=
  negb (cr_passed c) && bool_decide (cr_severity c = Blocker).

Lemma analyze_boot_blocks ev bt id :
  boot_blocks (analyze_bootability ev bt) id =
  match List.find (fun c => String.eqb (bc_id c) id) all_checks with
  | Some c => blocks_by (bc_run c ev (BootTarget_as_str bt))
  | None => false
  end.
Proof.
  unfold boot_blocks. cbn [br_checks analyze_bootability report_of].
  unfold run_checks. rewrite find_map.
  rewrite (find_ext_Forall _ (fun c => String.eqb (bc_id c) id)).
  - by destruct (List.find _ _).
  - eapply Forall_impl; [exact all_checks_id|]. intros c Hc. cbn. by rewrite Hc.
Qed.

(** an fstab entry names a UUID no partition of the (known) table has. *)
Definition fstab_mismatch ev : Prop :=
  ∃ e, e ∈ st_fstab_entries (ev_storage ev) ∧ starts_with "UUID=" (fe_device e) = true ∧
    st_partition_uuids (ev_storage ev) ≠ [] ∧
    ∀ p, p ∈ st_partition_uuids (ev_storage ev) →
      to_lowercase (pu_uuid p) ≠ to_lowercase (trim_start_matches "UUID=" (fe_device e)).

Lemma uuid_unknown (f : PartitionUuid → string) u ps :
  negb (match map f ps with [] => true | _ => false end)
  && negb (existsb (String.eqb u) (map f ps)) = true ↔
  ps ≠ [] ∧ ∀ p, p ∈ ps → f p ≠ u.
Proof.
  rewrite andb_true_iff, !negb_true_iff, <-(not_true_iff_false (existsb _ _)).
  rewrite existsb_elem_of. apply ZifyClasses.and_morph; [by destruct ps|].
  setoid_rewrite String.eqb_eq. setoid_rewrite list_elem_of_fmap. naive_solver.
Qed.

Lemma boot_001_blocks ev bt :
  boot_blocks (analyze_bootability ev bt) "BOOT-001" = true ↔ fstab_mismatch ev.
Proof.
  rewrite analyze_boot_blocks. cbn -[map]. unfold fstab_mismatch, blocks_by.
  cbn -[map]. set (bad := fun entry : FstabEntry => _).
  transitivity (∃ e, e ∈ List.filter bad (st_fstab_entries (ev_storage ev))).
  { destruct (List.filter bad _) as [|e l]; cbn; [|split; [|done]].
    - split; [done|]. intros [e He]. by apply not_elem_of_nil in He.
    - intros _. exists e. apply elem_of_cons. by left. }
  setoid_rewrite elem_of_filterb. unfold bad. setoid_rewrite andb_true_iff at 1.
  by setoid_rewrite uuid_unknown.
Qed.

Lemma boot_003_blocks ev bt :
  boot_blocks (analyze_bootability ev bt) "BOOT-003" =
  negb (is_windows_guest ev) && negb (not_empty (be_kernel_paths (ev_boot ev))).
Proof.
  rewrite analyze_boot_blocks. cbn. unfold blocks_by. destruct (is_windows_guest ev); [done|].
  cbn. by destruct (be_kernel_paths _), (be_initramfs_paths _).
Qed.

(** the other wrapped checks of the Linux list only ever warn. *)
Lemma boot_warn_only ev bt id :
  id ∈ ["BOOT-004"; "BOOT-005"; "BOOT-006"; "BOOT-009"; "BOOT-014"] →
  boot_blocks (analyze_bootability ev bt) id = false.
Proof.
  intros Hid. rewrite analyze_boot_blocks.
  repeat (apply elem_of_cons in Hid as [->|Hid]; [cbn; by repeat case_match|]).
  by apply not_elem_of_nil in Hid.
Qed.

(** the EFI chain of a Windows guest is incomplete. *)
Definition efi_layout ev win : bool :=
  be_efi_present (ev_boot ev) || default false (we_esp_present win)
  || match we_system_reserved win with
     | Some s => String.eqb (srp_role s) "esp" | None => false end.
Definition efi_chain_broken ev win : bool :=
  efi_layout ev win
  && negb (we_bootmgr_found win && default (efi_layout ev win) (we_esp_present win)).

Lemma boot_012_blocks ev bt win :
  ev_windows ev = Some win →
  boot_blocks (analyze_bootability ev bt) "BOOT-012" = efi_chain_broken ev win.
Proof.
  intros Hw. rewrite analyze_boot_blocks. cbn. unfold blocks_by, is_windows_guest. rewrite Hw.
  cbn. fold (efi_layout ev win). unfold efi_chain_broken.
  generalize (efi_layout ev win) as layout. intros layout.
  by destruct layout, (we_bootmgr_found win), (we_esp_present win) as [[]|].
Qed.

Lemma boot_013_blocks ev bt win :
  ev_windows ev = Some win →
  boot_blocks (analyze_bootability ev bt) "BOOT-013" =
  trim_is_empty (we_systemroot win) || negb (we_bcd_store_found win).
Proof.
  intros Hw. rewrite analyze_boot_blocks. cbn. unfold blocks_by, is_windows_guest. rewrite Hw.
  cbn. by destruct (trim_is_empty _), (we_bcd_store_found win), (we_pending_reboot win).
Qed.

(** ** Scores *)
Definition carries (c : MigrationCheckResult) (x : ReadinessCategory * Z) : Prop :=
  mc_category c = x.1 ∧ mc_weight c = f64_of_Z x.2 ∧ (1 ≤ x.2 ≤ 12)%Z.

Fixpoint cat_sum (cat : ReadinessCategory) (cw : list (ReadinessCategory * Z)) : Z :=
  match cw with
  | [] => 0
  | x :: cw => (if bool_decide (x.1 = cat) then x.2 else 0) + cat_sum cat cw
  end.
Definition cat_sum_all (cw : list (ReadinessCategory * Z)) : Z :=
  foldr (fun cat n => cat_sum cat cw + n)%Z 0%Z ReadinessCategory_ALL.
Definition spec_pair (sp : check_spec) : ReadinessCategory * Z :=
  (sp_category sp, sp_weight sp).

Lemma cat_sum_sublist cat l l' :
  l `sublist_of` l' → Forall (fun x => 0 ≤ x.2)%Z l' → (cat_sum cat l ≤ cat_sum cat l')%Z.
Proof.
  induction 1 as [|x l l' _ IH|x l l' _ IH]; intros Hf; [done| |];
    apply Forall_cons in Hf as [? ?]; cbn in *; specialize (IH ltac:(done)); case_bool_decide; lia.
Qed.

Lemma covers_weights cs sps :
  covers cs sps → Forall (fun sp => 1 ≤ sp_weight sp ≤ 12)%Z sps →
  ∃ cw, Forall2 carries cs cw ∧
    ∀ cat, (cat_sum cat cw ≤ cat_sum cat (map spec_pair sps))%Z.
Proof.
  intros (l & Hl & Hc) Hw.
  assert (Forall (fun x => 0 ≤ x.2)%Z (map spec_pair sps)) as Hpos.
  { apply Forall_fmap. eapply Forall_impl; [exact Hw|]. cbn. lia. }
  assert (Forall (fun sp => 1 ≤ sp_weight sp ≤ 12)%Z l) as Hwl
    by (rewrite Forall_forall in Hw |- *; eauto using elem_of_sublist).
  assert (∃ cw, Forall2 carries cs cw ∧
    ∀ cat, (cat_sum cat cw ≤ cat_sum cat (map spec_pair l))%Z) as (cw & Hcw & Hs).
  { clear Hl. induction Hc as [|c sp cs l (Hi & Hcat & w & Hsp & Hmw) _ IH].
    - exists []. split; [constructor|done].
    - inversion Hwl; subst. destruct IH as (cw & Hcw & Hs); [done|].
      exists ((sp_category sp, w) :: cw). split.
      + constructor; [|done]. split; [done|]. split; [done|]. cbn. lia.
      + intros cat. specialize (Hs cat). cbn. case_bool_decide; lia. }
  exists cw. split; [done|]. intros cat. specialize (Hs cat).
  pose proof (cat_sum_sublist cat (map spec_pair l) (map spec_pair sps)) as H.
  specialize (H ltac:(by apply fmap_sublist) Hpos). lia.
Qed.

Lemma all_specs_sums ev :
  Forall (fun sp => 1 ≤ sp_weight sp ≤ 12)%Z (all_specs ev) ∧
  (∀ cat, (cat_sum cat (map spec_pair (all_specs ev)) ≤ 40)%Z) ∧
  (cat_sum_all (map spec_pair (all_specs ev)) ≤ 120)%Z.
Proof.
  unfold all_specs. destruct (is_windows ev); (split; [|split]).
  1, 4: repeat (constructor; [cbn; lia|]); constructor.
  1, 3: by intros [].
  all: done.
Qed.

(** what the loop has accumulated for a category of total weight [S]. *)
Definition entry_ok (S : Z) (entry : option (f64 * f64)) : Prop :=
  match entry with
  | None => S = 0%Z
  | Some (p, t) => (1 ≤ S)%Z ∧ t = f64_of_Z S ∧ le_int p S
  end.

Lemma check_credit_le c w :
  mc_weight c = f64_of_Z w → (1 ≤ w ≤ 12)%Z → le_int (check_credit c) w.
Proof.
  intros Hw Hr. assert (le_int (f64_of_Z w) w) as Hle
    by (apply le_int_of_Z; unfold int_range; lia).
  unfold check_credit. rewrite Hw. destruct (mc_passed c); [done|].
  destruct (mc_severity c); [done| |]; replace w with (w * 1)%Z at 2 by lia;
    (apply le_int_mul; [done| |lia|lia|unfold int_range; lia]); by vm_compute.
Qed.

Lemma cat_sum_nonneg cat cw :
  Forall (fun x => 1 ≤ x.2)%Z cw → (0 ≤ cat_sum cat cw)%Z.
Proof. induction 1; cbn; [done|]. case_bool_decide; lia. Qed.

Lemma cat_sum_app cat l l' : cat_sum cat (l ++ l') = (cat_sum cat l + cat_sum cat l')%Z.
Proof. induction l as [|x l IH]; cbn; [lia|]. rewrite IH. lia. Qed.

Lemma per_cat_ok cs cw cat :
  Forall2 carries cs cw → (cat_sum cat cw ≤ 120)%Z →
  entry_ok (cat_sum cat cw) (per_cat cs cat).
Proof.
  revert cw. induction cs as [|c cs IH] using rev_ind; intros cw Hcw Hs.
  { inversion Hcw; subst. done. }
  apply Forall2_app_inv_l in Hcw as (cw1 & cw2 & Hcw1 & Hcw2 & ->).
  inversion Hcw2 as [|? [k w] ? ? (Hcat & Hw & Hr) Hnil]; subst. inversion Hnil; subst.
  unfold per_cat in *. rewrite foldl_app, cat_sum_app in *. cbn in *.
  assert (Forall (fun x => 1 ≤ x.2)%Z cw1) as Hp1.
  { apply Forall_forall. intros x Hx. apply list_elem_of_lookup in Hx as [i Hi].
    destruct (Forall2_lookup_r _ _ _ _ _ Hcw1 Hi) as (y & _ & _ & _ & ?). lia. }
  pose proof (cat_sum_nonneg cat cw1 Hp1) as Hn1.
  specialize (IH cw1 Hcw1). unfold cat_step at 1. rewrite Hcat.
  destruct (decide (cat = k)) as [->|Hne].
  - rewrite !bool_decide_eq_true_2 in * by done. specialize (IH ltac:(lia)).
    pose proof (check_credit_le c w Hw Hr) as Hcr.
    destruct (foldl cat_step (fun _ => None) cs k) as [[p t]|]; cbn in *.
    + destruct IH as (H1 & -> & Hp). split; [lia|]. rewrite Z.add_0_r. split.
      * rewrite Hw. apply f64_of_Z_add; lia.
      * apply le_int_add; [done|done|lia|lia|unfold int_range; lia].
    + rewrite IH. split; [lia|]. split.
      * rewrite Hw. etransitivity; [exact (f64_of_Z_add 0 w ltac:(lia) ltac:(lia))|].
        f_equal. lia.
      * replace (0 + (w + 0))%Z with (0 + w)%Z by lia.
        apply (le_int_add (f64_of_Z 0)); [done|done|lia|lia|unfold int_range; lia].
  - rewrite !bool_decide_eq_false_2 in * by congruence.
    rewrite Z.add_0_r in *. apply IH. lia.
Qed.

Definition score_ok (x : f64) : Prop := ∃ z, (0 ≤ z ≤ 100)%Z ∧ x = f64_of_Z z.

Lemma f64_pos_int S : (1 ≤ S ≤ 120)%Z → (f64_of_Z 0 <? f64_of_Z S)%f64 = true.
Proof.
  intros HS. pose proof (is_int_of_Z S HS). by destruct (f64_of_Z S) as [| | |[]].
Qed.

Lemma ratio_score_ok p S :
  (1 ≤ S ≤ 120)%Z → le_int p S →
  score_ok (f64_round (p / f64_of_Z S * f64_of_Z 100)%f64).
Proof.
  intros HS Hp. apply le_int_round; [|lia].
  apply (le_int_mul _ _ 1 100); [|apply le_int_of_Z| | |]; try (unfold int_range; lia).
  apply (le_int_div _ _ S); [done|by apply is_int_of_Z|lia].
Qed.

Lemma cat_score_ok (m : cat_map) cat S :
  entry_ok S (m cat) → (S ≤ 120)%Z → score_ok (cat_score m cat).
Proof.
  intros He HS. unfold cat_score. destruct (m cat) as [[p t]|].
  - destruct He as (H1 & -> & Hp). rewrite f64_pos_int by lia. by apply ratio_score_ok.
  - exists 100%Z. split; [lia|done].
Qed.

Lemma cat_totals_ok (f : ReadinessCategory → Z) (m : cat_map) l ws wt S :
  Forall (fun c => entry_ok (f c) (m c)) l → Forall (fun c => 0 ≤ f c ≤ 40)%Z l →
  wt = f64_of_Z S → le_int ws S → (0 ≤ S)%Z →
  (S + foldr (fun c n => f c + n)%Z 0%Z l ≤ 120)%Z →
  ∃ ws', foldl (fun '(ws, wt) '(p, t) => ((ws + p)%f64, (wt + t)%f64)) (ws, wt)
      (List.flat_map (fun c => push_opt (m c)) l) =
    (ws', f64_of_Z (S + foldr (fun c n => f c + n)%Z 0%Z l)) ∧
    le_int ws' (S + foldr (fun c n => f c + n)%Z 0%Z l).
Proof.
  revert ws wt S. induction l as [|c l IH]; intros ws wt S He Hf -> Hws HS Hle.
  { cbn. rewrite Z.add_0_r. by exists ws. }
  inversion He as [|? ? Hec Hel]; subst. inversion Hf as [|? ? Hfc Hfl]; subst. cbn in *.
  assert (0 ≤ foldr (fun c n => f c + n)%Z 0%Z l)%Z as Hn.
  { clear -Hfl. induction Hfl; cbn in *; lia. }
  rewrite Z.add_assoc. destruct (m c) as [[p t]|] eqn:Hm; cbn in Hec.
  - destruct Hec as (H1 & -> & Hp). cbn [push_opt app foldl]. apply IH; try done; try lia.
    + apply f64_of_Z_add; lia.
    + apply le_int_add; try done; try lia. unfold int_range. lia.
  - cbn [push_opt app]. rewrite Hec, Z.add_0_r in *. apply IH; try done; lia.
Qed.

Lemma carries_pos cs cw : Forall2 carries cs cw → Forall (fun x => 1 ≤ x.2)%Z cw.
Proof. induction 1 as [|c x cs cw (_ & _ & ?) _ IH]; constructor; [lia|done]. Qed.

Lemma cat_sum_all_pos x cw :
  Forall (fun x => 1 ≤ x.2)%Z (x :: cw) → (1 ≤ cat_sum_all (x :: cw))%Z.
Proof.
  intros Hp. pose proof (fun cat => cat_sum_nonneg cat _ Hp) as Hn.
  assert (1 ≤ cat_sum x.1 (x :: cw))%Z as H1.
  { apply Forall_cons in Hp as [Hx Hp]. cbn. rewrite bool_decide_eq_true_2 by done.
    pose proof (cat_sum_nonneg x.1 cw Hp). lia. }
  unfold cat_sum_all. cbn [ReadinessCategory_ALL foldr].
  pose proof (Hn CatBoot). pose proof (Hn CatStorage). pose proof (Hn CatNetwork).
  pose proof (Hn CatDriver). pose proof (Hn CatApplication). pose proof (Hn CatSecurity).
  destruct (x.1); lia.
Qed.

Lemma run_all_checks_scores ev ctx r :
  let m := per_cat (run_all_checks ev ctx) in
  score_ok (overall_score m r) ∧ ∀ cat, score_ok (cat_score m cat).
Proof.
  intros m. destruct (all_specs_sums ev) as (Hw & Hcat & Htot).
  destruct (covers_weights _ _ (run_all_checks_covers ev ctx) Hw) as (cw & Hcw & Hs).
  pose proof (carries_pos _ _ Hcw) as Hp.
  assert (∀ cat, 0 ≤ cat_sum cat cw ≤ 40)%Z as Hc.
  { intros cat. pose proof (Hs cat). pose proof (Hcat cat).
    pose proof (cat_sum_nonneg cat cw Hp). lia. }
  assert (∀ cat, entry_ok (cat_sum cat cw) (m cat)) as He.
  { intros cat. apply per_cat_ok; [done|]. pose proof (Hc cat). lia. }
  assert (1 ≤ cat_sum_all cw ≤ 120)%Z as Ht.
  { split.
    - destruct cw as [|x cw]; [by apply Forall2_nil_inv_r in Hcw|]. by apply cat_sum_all_pos.
    - etransitivity; [|exact Htot]. unfold cat_sum_all. cbn [ReadinessCategory_ALL foldr].
      pose proof (Hs CatBoot). pose proof (Hs CatStorage). pose proof (Hs CatNetwork).
      pose proof (Hs CatDriver). pose proof (Hs CatApplication). pose proof (Hs CatSecurity).
      lia. }
  split.
  - unfold overall_score, cat_totals.
    destruct (cat_totals_ok (fun c => cat_sum c cw) m ReadinessCategory_ALL (f64_of_Z 0)
      (f64_of_Z 0) 0) as (ws & -> & Hws);
      [by apply Forall_true|by apply Forall_true|done|done|done| |].
    + change (0 + cat_sum_all cw ≤ 120)%Z. lia.
    + change (le_int ws (cat_sum_all cw)) in Hws.
      change (0 + foldr _ _ _)%Z with (cat_sum_all cw).
      rewrite f64_pos_int by lia. by apply ratio_score_ok.
  - intros cat. apply (cat_score_ok m cat _ (He cat)). pose proof (Hc cat). lia.
Qed.

(** ** The flat score *)
Lemma penalty_not_nan n s :
  (0 ≤ n ≤ int_range)%Z →
  f64_is_nan (ss_score s) = false → f64_is_nan (ss_score (penalty n s)) = false.
Proof.
  intros Hn Hs. apply f64_sub_not_nan; [done|].
  by eapply le_int_finite, le_int_of_Z.
Qed.

(** what the passes keep: the score is a number and the lists are short. *)
Definition passes_ok (d c : nat) (s : score_state) : Prop :=
  f64_is_nan (ss_score s) = false ∧ length (ss_driver_injections s) ≤ d ∧
  length (ss_required_changes s) ≤ c.

Lemma score_kvm_ok ev d c s : passes_ok d c s → passes_ok (d + 3) (c + 3) (score_kvm ev s).
Proof.
  intros (Hn & Hd & Hc). unfold score_kvm.
  destruct (existsb (contains "vmware") _), (negb _);
    (split; [repeat (apply penalty_not_nan; [unfold int_range; lia|]); done|]);
    cbn; rewrite ?length_app; cbn; lia.
Qed.

Lemma score_cloud_ok ev d c s : passes_ok d c s → passes_ok d (c + 1) (score_cloud ev s).
Proof.
  intros (Hn & Hd & Hc). unfold score_cloud. destruct (be_cloud_init_present _);
    (split; [try apply penalty_not_nan; first [done|unfold int_range; lia]|]);
    cbn; rewrite ?length_app; cbn; lia.
Qed.

Lemma score_windows_ok win d c s : passes_ok d c s → passes_ok d (c + 1) (score_windows win s).
Proof.
  intros (Hn & Hd & Hc). unfold score_windows.
  destruct (we_bitlocker_detected win), (we_pending_reboot win);
    (split; [repeat (apply penalty_not_nan; [unfold int_range; lia|]); done|]);
    cbn; rewrite ?length_app; cbn; lia.
Qed.

Lemma score_passes_ok ev t s :
  passes_ok 0 0 s → passes_ok 3 6 (score_passes ev t s).
Proof.
  intros Hs. unfold score_passes.
  set (s1 := if one_of ["kvm"; "proxmox"; "qemu"; "kubevirt"] t then _ else _).
  set (s2 := if one_of ["aws"; "azure"; "gcp"] t then _ else _).
  set (s3 := match ev_windows ev with Some _ => _ | None => _ end).
  assert (passes_ok 3 3 s1) as H1.
  { unfold s1. case_match; [by apply (score_kvm_ok _ 0 0)|]. destruct Hs as (? & ? & ?).
    repeat split; [done|lia|lia]. }
  assert (passes_ok 3 4 s2) as H2.
  { unfold s2. case_match; [by apply (score_cloud_ok _ _ 3)|]. destruct H1 as (? & ? & ?).
    repeat split; [done|lia|lia]. }
  assert (passes_ok 3 5 s3) as H3.
  { unfold s3. case_match; [by apply (score_windows_ok _ _ 4)|]. destruct H2 as (? & ? & ?).
    repeat split; [done|lia|lia]. }
  destruct H3 as (? & ? & ?). case_match; repeat split; cbn; rewrite ?length_app; cbn;
    try done; lia.
Qed.

Lemma downtime_of_ok oc b i c :
  (0 ≤ b ≤ 1000)%Z → (0 ≤ i ≤ 1000)%Z → (0 ≤ c ≤ 1000)%Z →
  downtime_of oc b i c = Ok (30 + b * 15 + i * 10 + c * 5)%Z.
Proof.
  intros Hb Hi Hc. unfold downtime_of.
  do 5 (rewrite u_arith_in_range by (unfold in_u; lia); cbn [mbind outcome_bind]).
  rewrite u_arith_in_range by (unfold in_u; lia). done.
Qed.

Lemma len_u32_small {A} (l : list A) :
  length l ≤ 1000 → len_u32 l = Z.of_nat (length l).
Proof. intros. unfold len_u32. apply Z.mod_small. lia. Qed.

Definition legacy_ok (boot : BootabilityReport) (m : MigrationScoreReport) : Prop :=
  (f64_of_Z 0 <=? ms_score m)%f64 = true ∧ (ms_score m <=? f64_of_Z 100)%f64 = true ∧
  ms_estimated_downtime_minutes m =
    (30 + Z.of_nat (length (br_blockers boot)) * 15
     + Z.of_nat (length (ms_driver_injections m)) * 10
     + Z.of_nat (length (ms_required_changes m)) * 5)%Z ∧
  (30 ≤ ms_estimated_downtime_minutes m ≤ 300)%Z.

Lemma compute_migration_score_ok oc ev boot target :
  f64_is_nan (br_score boot) = false → length (br_blockers boot) ≤ 14 →
  ∃ m, compute_migration_score oc ev boot target = Ok m ∧ legacy_ok boot m.
Proof.
  intros Hn Hb. unfold compute_migration_score.
  set (s0 := mk_score_state _ _ _ _).
  assert (passes_ok 0 0 s0) as H0 by (repeat split; cbn; [done|lia|lia]).
  destruct (score_passes_ok ev (to_lowercase target) s0 H0) as (Hs & Hd & Hc).
  set (s := score_passes _ _ _) in *.
  rewrite downtime_of_ok, !len_u32_small by (rewrite ?len_u32_small by lia; lia).
  cbn [mbind outcome_bind mret outcome_ret]. eexists. split; [reflexivity|].
  unfold legacy_ok. cbn [ms_score ms_driver_injections ms_required_changes
    ms_estimated_downtime_minutes]. split; [|split; [|split; [done|lia]]];
    (eapply f64_clamp_bounds; [|done|done|done]; apply f64_sub_not_nan; [done|];
     eapply le_int_finite, le_int_mul;
       [apply le_int_of_Z|apply le_int_of_Z| | |]; unfold int_range; lia).
Qed.

(** ** The assessment of the boot engine's report *)
Lemma analyze_score_number ev bt :
  f64_is_nan (br_score (analyze_bootability ev bt)) = false.
Proof.
  destruct (analyze_units ev bt) as (-> & Hw & Hcs).
  destruct (credits_bounds _ _ Hcs) as [Hle _].
  destruct (ratio_score_facts _ _ Hw Hle) as (Hn1 & _ & Hn2 & _).
  destruct (blocked _); by apply f64_nonneg_not_nan.
Qed.

Lemma analyze_blockers_length ev bt :
  length (br_blockers (analyze_bootability ev bt)) ≤ 14.
Proof.
  cbn [br_blockers analyze_bootability report_of]. unfold tally_checks.
  destruct (tally_findings (run_checks ev (BootTarget_as_str bt)) tally_init) as (-> & _).
  cbn [tl_blockers tally_init app]. rewrite length_map.
  etransitivity; [apply List.filter_length_le|]. unfold run_checks. by rewrite length_map.
Qed.

Lemma assess_Ok oc now ev bt target live :
  let r := analyze_bootability ev bt in
  let ctx := assess_context r target live in
  ∃ legacy, legacy_ok r legacy ∧
    assess_migration oc now ev r target live =
    Ok (mk_MigrationAssessment target live now
      (overall_score (per_cat (run_all_checks ev ctx)) r)
      (sub_scores (per_cat (run_all_checks ev ctx))) (readiness_of (run_all_checks ev ctx))
      (critical_blockers (run_all_checks ev ctx)) (recommended_actions (run_all_checks ev ctx))
      (run_all_checks ev ctx) (ev_online_cache ev) legacy).
Proof.
  intros r ctx. destruct (compute_migration_score_ok oc ev r target) as (m & Hm & Hok).
  { apply analyze_score_number. }
  { apply analyze_blockers_length. }
  exists m. split; [done|]. unfold assess_migration. by rewrite Hm.
Qed.

(** C9: the assessment of a Linux guest on the boot engine's report is Blocked
    exactly when the operating system was not identified, the initramfs contents
    are known and hold neither virtio_blk nor virtio_scsi, the UUIDs of the
    partitions are known (at least one) and an fstab entry names a UUID that none of
    them is, whatever the case of the letters, or there is no kernel in /boot; it
    always returns. *)
Theorem linux_blocked_exact oc now ev bt target live :
  is_windows_guest ev = false →
  ∃ a, assess_migration oc now ev (analyze_bootability ev bt) target live = Ok a ∧
    (ma_readiness a = Blocked ↔
       os_os_type (ev_os ev) = "" ∨
       (be_initramfs_modules (ev_boot ev) ≠ [] ∧
        ("virtio_blk" ∉ be_initramfs_modules (ev_boot ev)) ∧
        ("virtio_scsi" ∉ be_initramfs_modules (ev_boot ev))) ∨
       fstab_mismatch ev ∨ be_kernel_paths (ev_boot ev) = []).
Proof.
  intros Hg. destruct (assess_Ok oc now ev bt target live) as (legacy & _ & ->).
  eexists. split; [reflexivity|]. cbn [ma_readiness]. rewrite readiness_blocked.
  assert (is_windows ev = false) as Hw.
  { unfold is_windows_guest in Hg. by apply orb_false_iff in Hg as [_ ?]. }
  unfold run_all_checks. rewrite Hw, existsb_app, general_blocks, linux_blocks.
  cbn [existsb ac_boot_report assess_context]. rewrite boot_003_blocks, Hg.
  rewrite (boot_warn_only _ _ "BOOT-004"), (boot_warn_only _ _ "BOOT-005"),
    (boot_warn_only _ _ "BOOT-006"), (boot_warn_only _ _ "BOOT-009")
    by (by refine (bool_decide_eq_true_1 _ _)).
  rewrite andb_false_r, !orb_false_r, !orb_true_iff, is_empty_spec, boot_001_blocks.
  rewrite initramfs_lacks_virtio_spec. cbn [negb andb]. rewrite not_empty_false. tauto.
Qed.

(** the assessment of a Windows guest with Windows evidence is Blocked
    exactly when its virtio drivers were probed and the first storage driver
    present is not boot-critical (or none is), BitLocker protection is active, a
    registered virtio driver lacks its file, the BCD store or SYSTEMROOT is
    missing, or the EFI boot chain is incomplete; it always returns. *)
Theorem windows_blocked_exact oc now ev win bt target live :
  is_windows ev = true → ev_windows ev = Some win →
  ∃ a, assess_migration oc now ev (analyze_bootability ev bt) target live = Ok a ∧
    (ma_readiness a = Blocked ↔
       storage_driver_missing win = true ∨ bitlocker_active win = true ∨
       (∃ d, d ∈ we_virtio_drivers win ∧ sys_mismatch d = true) ∨
       trim_is_empty (we_systemroot win) = true ∨ we_bcd_store_found win = false ∨
       efi_chain_broken ev win = true).
Proof.
  intros Hw Hwin. destruct (assess_Ok oc now ev bt target live) as (legacy & _ & ->).
  eexists. split; [reflexivity|]. cbn [ma_readiness]. rewrite readiness_blocked.
  unfold run_all_checks. rewrite Hw, existsb_app, general_blocks, (windows_blocks _ _ win) by done.
  assert (is_empty (os_os_type (ev_os ev)) = false) as ->.
  { apply not_true_iff_false. intros He%is_empty_spec. unfold is_windows in Hw.
    by rewrite He in Hw. }
  cbn [existsb ac_boot_report assess_context].
  rewrite (boot_012_blocks _ _ win), (boot_013_blocks _ _ win) by done.
  rewrite (boot_warn_only _ _ "BOOT-014") by (by refine (bool_decide_eq_true_1 _ _)).
  rewrite !orb_false_r, !orb_true_iff, negb_true_iff, existsb_elem_of. intuition congruence.
Qed.

(** every assessment on the boot engine's report returns, and its six
    category scores and its overall score are whole numbers from 0 to 100, in
    binary64, whatever was rounded on the way; so the flat score also lies in
    [0, 100] and the estimated downtime is 30 minutes plus 15 per blocker, 10 per
    injected driver and 5 per required change, at most 300. *)
Theorem assessment_scores oc now ev bt target live :
  ∃ a, assess_migration oc now ev (analyze_bootability ev bt) target live = Ok a ∧
    score_ok (ma_overall_score a) ∧
    score_ok (sub_boot (ma_sub_scores a)) ∧ score_ok (sub_storage (ma_sub_scores a)) ∧
    score_ok (sub_network (ma_sub_scores a)) ∧ score_ok (sub_driver (ma_sub_scores a)) ∧
    score_ok (sub_application (ma_sub_scores a)) ∧
    score_ok (sub_security (ma_sub_scores a)) ∧
    legacy_ok (analyze_bootability ev bt) (ma_legacy a).
Proof.
  destruct (assess_Ok oc now ev bt target live) as (legacy & Hl & ->).
  eexists. split; [reflexivity|].
  destruct (run_all_checks_scores ev (assess_context (analyze_bootability ev bt) target live)
    (analyze_bootability ev bt)) as [Ho Hc].
  split; [exact Ho|]. repeat (split; [apply Hc|]). exact Hl.
Qed.

Lemma all_specs_NoDup ev : NoDup (map sp_id (all_specs ev)).
Proof.
  unfold all_specs. destruct (is_windows ev); by refine (bool_decide_eq_true_1 _ _).
Qed.

(** the checks of an assessment have distinct identifiers, so a finding
    names one check: they are some of the checks the source lists for the kind of
    guest, in that order, and the critical blockers are exactly the checks that
    failed as blockers, in the same order, each with a remediation. *)
Theorem assessment_checks oc now ev bt target live :
  ∃ a, assess_migration oc now ev (analyze_bootability ev bt) target live = Ok a ∧
    map mc_id (ma_checks a) `sublist_of` map sp_id (all_specs ev) ∧
    NoDup (map mc_id (ma_checks a)) ∧
    map fi_check_id (ma_critical_blockers a) =
      map mc_id (List.filter (failed_with Blocker) (ma_checks a)) ∧
    Forall (fun f => is_Some (fi_remediation f)) (ma_critical_blockers a).
Proof.
  destruct (assess_Ok oc now ev bt target live) as (legacy & _ & ->).
  eexists. split; [reflexivity|]. cbn [ma_checks ma_critical_blockers].
  set (cs := run_all_checks ev _).
  assert (map mc_id cs `sublist_of` map sp_id (all_specs ev)) as Hs
    by apply covers_map_id, run_all_checks_covers.
  split; [done|]. split; [by eapply sublist_NoDup, Hs; apply all_specs_NoDup|].
  unfold critical_blockers. rewrite map_map. split; [done|].
  apply Forall_fmap, Forall_forall. intros c _. cbn. destruct (mc_remediation c); by eexists.
Qed.

(** ** What the assessment leaves out *)
Lemma blockers_of_failed ev bt c :
  c ∈ all_checks → blocks_by (bc_run c ev (BootTarget_as_str bt)) = true →
  counts (bc_run c ev (BootTarget_as_str bt)) = true →
  bc_id c ∈ map fi_check_id (br_blockers (analyze_bootability ev bt)).
Proof.
  intros Hc Hb Hw. cbn [br_blockers analyze_bootability report_of]. unfold tally_checks.
  destruct (tally_findings (run_checks ev (BootTarget_as_str bt)) tally_init) as (-> & _).
  cbn [tl_blockers tally_init app]. rewrite map_map.
  apply list_elem_of_fmap. exists (bc_run c ev (BootTarget_as_str bt)). split.
  - cbn. symmetry. pose proof all_checks_id as Hi. rewrite Forall_forall in Hi. by apply Hi.
  - apply elem_of_filterb. split; [apply list_elem_of_fmap; eauto|].
    unfold blocks_by in Hb. unfold fails_with. apply andb_true_iff in Hb as [H1 H2].
    rewrite Hw, H1. cbn. apply bool_decide_eq_true_1 in H2. by rewrite H2.
Qed.

Lemma cat_step_other (m : cat_map) cs cat :
  existsb (fun c => bool_decide (cat = mc_category c)) cs = false →
  foldl cat_step m cs cat = m cat.
Proof.
  revert m. induction cs as [|c cs IH]; intros m Hcs; [done|]. cbn in *.
  apply orb_false_iff in Hcs as [Hc Hcs]. rewrite IH by done. unfold cat_step. by rewrite Hc.
Qed.

(** a guest whose OS type says Windows but for which no Windows evidence was
    collected is never Blocked: [windows_checks] returns before it reads the boot
    report, whose BOOT-013 (SYSTEMROOT not detected) is a blocker for every such
    guest, and the boot category scores 100. *)
Theorem windows_without_evidence oc now ev bt target live :
  is_windows ev = true → ev_windows ev = None →
  "BOOT-013" ∈ map fi_check_id (br_blockers (analyze_bootability ev bt)) ∧
  ∃ a, assess_migration oc now ev (analyze_bootability ev bt) target live = Ok a ∧
    ma_readiness a ≠ Blocked ∧ ma_critical_blockers a = [] ∧
    sub_boot (ma_sub_scores a) = f64_of_Z 100.
Proof.
  intros Hw Hwin. split.
  { apply (blockers_of_failed ev bt WindowsBcdCheck).
    - unfold all_checks. repeat (apply elem_of_cons; first [by left|right]).
    - unfold blocks_by. cbn. unfold is_windows_guest. rewrite Hwin. unfold is_windows in Hw.
      by rewrite Hw.
    - unfold counts. cbn. unfold is_windows_guest. rewrite Hwin. unfold is_windows in Hw.
      by rewrite Hw. }
  destruct (assess_Ok oc now ev bt target live) as (legacy & _ & ->).
  eexists. split; [reflexivity|]. cbn [ma_readiness ma_critical_blockers ma_sub_scores].
  set (ctx := assess_context _ _ _).
  assert (run_all_checks ev ctx = general_checks ev) as ->.
  { unfold run_all_checks, windows_checks. rewrite Hw, Hwin. apply app_nil_r. }
  assert (is_empty (os_os_type (ev_os ev)) = false) as He.
  { apply not_true_iff_false. intros He%is_empty_spec. unfold is_windows in Hw.
    by rewrite He in Hw. }
  assert (existsb (failed_with Blocker) (general_checks ev) = false) as Hb
    by (by rewrite general_blocks).
  split; [rewrite readiness_blocked; congruence|]. split.
  { unfold critical_blockers. destruct (List.filter _ _) as [|c l] eqn:E; [done|].
    exfalso. assert (c ∈ List.filter (failed_with Blocker) (general_checks ev)) as Hc
      by (rewrite E; apply elem_of_cons; by left).
    apply elem_of_filterb in Hc. rewrite <-not_true_iff_false, existsb_elem_of in Hb. eauto. }
  cbn [sub_boot sub_scores]. unfold cat_score, per_cat, general_checks, mig_g_004, mig_g_001.
  rewrite Hwin, He, foldl_app, cat_step_other; [by vm_compute|].
  rewrite !existsb_app, !orb_false_iff.
  split; [unfold mig_g_002; never_blocks|]. split; [unfold mig_g_003; never_blocks|].
  split; [done|unfold mig_g_005; never_blocks].
Qed.

(** the competing tools of MIG-G-005 are exactly the detected tools (and the
    hypervisor remnants of a Windows guest) whose name contains vmware, hyper-v,
    hyperv or xen and does not start with open-vm-tools, each listed once; the
    check fails, as a warning whose repair hint is that list, exactly when there
    is one. *)
Theorem foreign_tools_exact ev :
  NoDup (foreign_tools ev) ∧
  (∀ t, t ∈ foreign_tools ev ↔
     (t ∈ vt_detected (ev_vm_tools ev) ∨
      ∃ win, ev_windows ev = Some win ∧ t ∈ we_hypervisor_remnants win) ∧
     starts_with "open-vm-tools" (to_lowercase t) = false ∧
     ∃ n, n ∈ ["vmware"; "hyper-v"; "hyperv"; "xen"] ∧ contains n (to_lowercase t) = true) ∧
  ∃ c, mig_g_005 ev = [c] ∧
    (mc_passed c = true ↔ foreign_tools ev = []) ∧
    (mc_passed c = false → failed_with Warning c = true ∧
       mc_remediation c = Some (RemoveHypervisorTools (foreign_tools ev))).
Proof.
  split; [|split].
  - unfold foreign_tools. apply NoDup_ListNoDup, List.NoDup_filter, NoDup_ListNoDup.
    apply NoDup_sort_dedup.
  - intros t. unfold foreign_tools. rewrite elem_of_filterb, elem_of_sort_dedup, elem_of_app.
    apply ZifyClasses.and_morph.
    + apply or_iff_compat_l. destruct (ev_windows ev) as [win|]; [naive_solver|].
      split; [intros H; by apply not_elem_of_nil in H|naive_solver].
    + unfold is_foreign_tool. destruct (starts_with "open-vm-tools" (to_lowercase t)) eqn:E.
      * rewrite orb_true_r. naive_solver.
      * destruct (String.eqb_spec (to_lowercase t) "open-vm-tools") as [Ht|Ht].
        { exfalso. rewrite Ht in E. by vm_compute in E. }
        transitivity (existsb (fun n => contains n (to_lowercase t))
          ["vmware"; "hyper-v"; "hyperv"; "xen"] = true).
        { cbn [orb existsb]. by rewrite orb_false_r, <-!orb_assoc. }
        rewrite existsb_elem_of. naive_solver.
  - unfold mig_g_005. eexists. split; [reflexivity|].
    destruct (foreign_tools ev); (split; [done|]); done.
Qed.
End assessment.

(** ** Concrete guests *)
Definition windows_os : OsEvidence :=
  mk_OsEvidence "windows" "windows" "2022" "x86_64" "ad1" "" "".

Definition windows_guest (we : option WindowsEvidence) : @EvidenceSnapshot ascii_platform :=
  @blank_snapshot ascii_platform windows_os default_StorageEvidence default_BootEvidence
    default_VmToolsEvidence None we None.

(** a Linux guest that boots but for a crypttab line without a device. *)
Definition crypttab_guest : @EvidenceSnapshot ascii_platform :=
  @blank_snapshot ascii_platform linux_os
    (mk_StorageEvidence [] [mk_CrypttabEntry "luks-root" "" "none"] [] EmptyString [] None None None)
    (mk_BootEvidence "grub2" "0" "" ["/boot/vmlinuz"] ["/boot/initramfs.img"] true None
       ["virtio_blk"] false false [] None "uefi" true)
    default_VmToolsEvidence None None None.

Lemma linux_blocked_exact_witness :
  ∃ a, @assess_migration ascii_platform true "now" broken_guest
      (@analyze_bootability ascii_platform broken_guest Kvm) "kvm" false = Ok a ∧
    ma_readiness a = Blocked.
Proof.
  destruct (@linux_blocked_exact ascii_platform true "now" broken_guest Kvm "kvm" false
    ltac:(reflexivity)) as (a & Ha & Hiff).
  exists a. split; [exact Ha|]. apply Hiff. right. right. right. reflexivity.
Defined.

Lemma windows_blocked_exact_witness :
  ∃ a, @assess_migration ascii_platform true "now"
      (windows_guest (Some default_WindowsEvidence))
      (@analyze_bootability ascii_platform (windows_guest (Some default_WindowsEvidence)) Kvm)
      "kvm" false = Ok a ∧ ma_readiness a = Blocked.
Proof.
  destruct (@windows_blocked_exact ascii_platform true "now"
    (windows_guest (Some default_WindowsEvidence)) default_WindowsEvidence Kvm "kvm" false
    ltac:(reflexivity) ltac:(reflexivity)) as (a & Ha & Hiff).
  exists a. split; [exact Ha|]. apply Hiff. right. right. right. left. reflexivity.
Defined.

Lemma windows_without_evidence_witness :
  "BOOT-013" ∈ map fi_check_id
    (br_blockers (@analyze_bootability ascii_platform (windows_guest None) Kvm)) ∧
  ∃ a, @assess_migration ascii_platform true "now" (windows_guest None)
      (@analyze_bootability ascii_platform (windows_guest None) Kvm) "kvm" false = Ok a ∧
    ma_readiness a ≠ Blocked ∧ ma_critical_blockers a = [] ∧
    sub_boot (ma_sub_scores a) = f64_of_Z 100.
Proof.
  exact (@windows_without_evidence ascii_platform true "now" (windows_guest None) Kvm "kvm"
    false ltac:(reflexivity) ltac:(reflexivity)).
Defined.

(** the boot engine's BOOT-002 (crypttab) has no migration check: a guest the
    engine calls blocked by it is assessed Ready, with every category and the
    overall score at 100. *)
Theorem crypttab_blocker_assessed_ready :
  let r := @analyze_bootability ascii_platform crypttab_guest Kvm in
  map fi_check_id (br_blockers r) = ["BOOT-002"] ∧
  ∃ a, @assess_migration ascii_platform true "now" crypttab_guest r "kvm" false = Ok a ∧
    ma_readiness a = Ready ∧ ma_overall_score a = f64_of_Z 100.
Proof.
  split; [by vm_compute|]. eexists. split; [by vm_compute|]. split; by vm_compute.
Qed.
