(* ===== verification/Kahn.v ===== *)
(** * Kahn's algorithm

    The step the wave planner ([src/fleet/wave.rs]) and the fix-plan sorter
    ([src/cli/plan/topo_sort.rs]) share: when a node is placed, the in-degree of
    each of its dependents is decremented, and a dependent whose in-degree
    becomes 0 joins the queue.  In-degrees are [usize]: the decrement is checked
    or wraps with the build profile.

    The graph is the list of its edges [(dependency, dependent)], with
    multiplicity.  [kahn_inv] relates the in-degree map to the edges whose source
    has not been placed; from it follow that no decrement underflows, that a node
    is queued once, and that it is queued after its dependencies. *)
From stdpp Require Import base gmap strings list.
From Stdlib Require Import ZArith Lia.
From S2P Require Import Prelude.

Abbreviation deg_map := (gmap string Z).
Abbreviation adj_map := (gmap string (list string)).

(** [if let Some(deg) = in_degree.get_mut(v)] and its body. *)
Definition decrement (oc : bool) (st : deg_map * list string) (v : string)
    : outcome Empty_set (deg_map * list string) :=
  let '(deg, next) := st in
  match deg !! v with
  | None => Ok st
  | Some d =>
      d ← u_arith oc 64 (d - 1);
      mret (<[v := d]> deg, if (d =? 0)%Z then next ++ [v] else next)
  end.

(** the loop over the dependents of a placed node. *)
Definition release (oc : bool) (adj : adj_map) (st : deg_map * list string) (u : string)
    : outcome Empty_set (deg_map * list string) :=
  outcome_foldl (decrement oc) st (default [] (adj !! u)).

(** [map.entry(k).or_default().push(x)]. *)
Definition push_entry (m : adj_map) (k x : string) : adj_map :=
  <[k := default [] (m !! k) ++ [x]]> m.

(** the nodes of in-degree 0, in the iteration order of the map. *)
Definition zero_nodes (iter : deg_map → list (string * Z)) (deg : deg_map) : list string :=
  map fst (List.filter (fun x => (x.2 =? 0)%Z) (iter deg)).

(** ** Building the maps *)
Lemma list_to_set_size_le (l : list string) : size (list_to_set l : gset string) ≤ length l.
Proof.
  induction l as [|x l IH]; [done|]. cbn [list_to_set length].
  rewrite size_union_alt, size_singleton.
  assert (size ((list_to_set l : gset string) ∖ {[x]}) ≤ size (list_to_set l : gset string)).
  { apply subseteq_size. set_solver. }
  lia.
Qed.

Lemma foldl_flat_map {A B C} (f : C → B → C) (g : A → list B) l c :
  foldl f c (List.flat_map g l) = foldl (fun c x => foldl f c (g x)) c l.
Proof. revert c. induction l as [|x l IH]; intros c; [done|]. cbn. by rewrite foldl_app, IH. Qed.

Lemma foldl_map' {A B C} (f : C → B → C) (g : A → B) l c :
  foldl f c (map g l) = foldl (fun c x => f c (g x)) c l.
Proof. revert c. induction l as [|x l IH]; intros c; [done|]. cbn. by rewrite IH. Qed.

Lemma foldl_ext' {A B} (f g : A → B → A) l a :
  (∀ a x, x ∈ l → f a x = g a x) → foldl f a l = foldl g a l.
Proof.
  revert a. induction l as [|x l IH]; intros a H; [done|]. cbn.
  rewrite H by (by left). apply IH. intros. apply H. by right.
Qed.

Lemma push_entry_lookup adj k x u :
  default [] (push_entry adj k x !! u) =
  default [] (adj !! u) ++ if decide (k = u) then [x] else [].
Proof.
  unfold push_entry. destruct (decide (k = u)) as [->|Hne].
  - by rewrite lookup_insert_eq.
  - by rewrite lookup_insert_ne, app_nil_r.
Qed.

Section zero_nodes.
Context (iter : deg_map → list (string * Z)).
(** [HashMap::iter]: every entry once, in arbitrary order. *)
Hypothesis iter_ok : ∀ deg, iter deg ≡ₚ map_to_list deg.

Lemma elem_of_zero_nodes deg v : v ∈ zero_nodes iter deg ↔ deg !! v = Some 0%Z.
Proof.
  unfold zero_nodes. rewrite list_elem_of_fmap. setoid_rewrite elem_of_filterb. split.
  - intros ([x d] & -> & Hin & Hd). cbn in *. apply Z.eqb_eq in Hd as ->.
    rewrite iter_ok in Hin. by apply elem_of_map_to_list in Hin.
  - intros H. exists (v, 0%Z). split; [done|]. split; [|done].
    rewrite iter_ok. by apply elem_of_map_to_list.
Qed.

Lemma NoDup_zero_nodes deg : NoDup (zero_nodes iter deg).
Proof.
  unfold zero_nodes. assert (NoDup (iter deg).*1) as Hn.
  { rewrite iter_ok. apply NoDup_fst_map_to_list. }
  induction (iter deg) as [|[x d] l IH]; cbn in *; [constructor|].
  apply NoDup_cons in Hn as [Hx Hn]. specialize (IH Hn). destruct (d =? 0)%Z; [|done].
  cbn. constructor; [|done]. rewrite list_elem_of_fmap. intros ([y e] & -> & Hy).
  apply elem_of_filterb in Hy as [Hy _]. apply Hx, list_elem_of_fmap. by exists (y, e).
Qed.
End zero_nodes.

(** ** The graph *)
Section graph.
Context (E : list (string * string)).

Definition targets (u : string) : list string :=
  snd <$> filter (fun e => e.1 = u) E.
(** edges into [v] from a node not in [done]. *)
Definition unmet (done : list string) (v : string) : nat :=
  length (filter (fun e => e.2 = v ∧ e.1 ∉ done) E).
Definition count (v : string) (l : list string) : nat := length (filter (fun x => x = v) l).

Lemma unmet_le done v : unmet done v ≤ length E.
Proof. apply length_filter. Qed.

Lemma unmet_zero done v : unmet done v = 0 ↔ ∀ x, (x, v) ∈ E → x ∈ done.
Proof.
  unfold unmet. rewrite length_zero_iff_nil. split.
  - intros Hf x Hx. destruct (decide (x ∈ done)) as [|Hn]; [done|].
    assert ((x, v) ∈ filter (fun e => e.2 = v ∧ e.1 ∉ done) E) as Hin
      by (by apply list_elem_of_filter).
    rewrite Hf in Hin. by apply not_elem_of_nil in Hin.
  - intros H. destruct (filter _ E) as [|[x y] l] eqn:Ef; [done|]. exfalso.
    assert ((x, y) ∈ filter (fun e => e.2 = v ∧ e.1 ∉ done) E) as Hin
      by (rewrite Ef; apply elem_of_cons; by left).
    apply list_elem_of_filter in Hin as [[Hy Hn] Hin]. cbn in *. subst y. by apply Hn, H.
Qed.

Lemma unmet_place done u v :
  u ∉ done → unmet done v = unmet (done ++ [u]) v + count v (targets u).
Proof.
  intros Hu. unfold unmet, count, targets. induction E as [|[x y] E' IH]; [done|].
  rewrite !filter_cons. cbn [fst snd]. destruct (decide (x = u)) as [->|Hx].
  - rewrite (decide_False (P := y = v ∧ u ∉ done ++ [u])) by set_solver.
    cbn [fmap list_fmap snd]. rewrite filter_cons. destruct (decide (y = v)) as [->|Hy].
    + rewrite decide_True by done. cbn. lia.
    + rewrite decide_False by tauto. done.
  - destruct (decide (y = v ∧ x ∉ done)) as [H|H].
    + rewrite decide_True by set_solver. cbn. lia.
    + rewrite decide_False by set_solver. done.
Qed.

(** the adjacency lists built from the edges, in their order. *)
Lemma adj_of_edges adj u :
  (∀ v, default [] (adj !! v) = []) →
  default [] (foldl (fun adj e => push_entry adj e.1 e.2) adj E !! u) = targets u.
Proof.
  intros H0. unfold targets. induction E as [|[x y] E' IH] using rev_ind; [apply H0|].
  rewrite foldl_app. cbn [foldl]. rewrite push_entry_lookup, IH, filter_app, fmap_app.
  f_equal. rewrite filter_cons. cbn [fst snd]. by destruct (decide (x = u)).
Qed.

(** ** Releasing one node *)
Lemma count_cons v x l : count v (x :: l) = (if decide (x = v) then 1 else 0) + count v l.
Proof. unfold count. rewrite filter_cons. by destruct (decide (x = v)). Qed.

Lemma decrement_all oc es : ∀ deg next,
  (∀ v d, deg !! v = Some d → Z.of_nat (count v es) ≤ d < 2 ^ 64)%Z →
  ∃ new, NoDup new ∧
    (∀ v, v ∈ new ↔ ∃ d, deg !! v = Some d ∧ d = Z.of_nat (count v es) ∧ 0 < count v es) ∧
    ∃ deg', outcome_foldl (decrement oc) (deg, next) es = Ok (deg', next ++ new) ∧
      ∀ v, deg' !! v = (fun d => d - Z.of_nat (count v es))%Z <$> deg !! v.
Proof.
  induction es as [|x es IH]; intros deg next Hd.
  { exists []. split; [constructor|]. split.
    - intros v. split; [intros H; by apply not_elem_of_nil in H|cbn; lia || naive_solver lia].
    - exists deg. split; [by rewrite app_nil_r|]. intros v. destruct (deg !! v); cbn; [|done].
      f_equal. lia. }
  cbn [outcome_foldl decrement]. destruct (deg !! x) as [d|] eqn:Hx.
  - pose proof (Hd x d Hx) as Hdx. rewrite count_cons, decide_True in Hdx by done.
    rewrite u_arith_in_range by (unfold in_u; lia). cbn [mbind outcome_bind mret outcome_ret].
    edestruct (IH (<[x := (d - 1)%Z]> deg)
      (if (d - 1 =? 0)%Z then next ++ [x] else next)) as (new & Hnd & Hnew & deg' & Hf & Hdeg').
    { intros v e He. apply lookup_insert_Some in He as [[<- <-]|[Hne He]]; [lia|].
      specialize (Hd v e He). rewrite count_cons, decide_False in Hd by done. lia. }
    exists ((if (d - 1 =? 0)%Z then [x] else []) ++ new). split; [|split].
    + destruct (Z.eqb_spec (d - 1) 0) as [Hz|]; [|done]. cbn. constructor; [|done].
      rewrite Hnew, lookup_insert_eq. intros (d' & [= <-] & Hc & ?). lia.
    + intros v. rewrite elem_of_app, Hnew, count_cons.
      destruct (decide (x = v)) as [<-|Hne].
      * rewrite lookup_insert_eq, Hx. destruct (Z.eqb_spec (d - 1) 0) as [Hz|Hz].
        -- split; [|intros _; left; by apply list_elem_of_singleton].
           intros _. exists d. split; [done|]. lia.
        -- split; [intros [H|(e & [= <-] & ? & ?)]; [by apply not_elem_of_nil in H|]|].
           ++ exists d. split; [done|]. lia.
           ++ intros (e & [= <-] & ? & ?). right. exists (d - 1)%Z. split; [done|]. lia.
      * rewrite lookup_insert_ne by done. cbn [Nat.add]. split; [|by right].
        intros [H|H]; [|done]. destruct (d - 1 =? 0)%Z; [|by apply not_elem_of_nil in H].
        apply list_elem_of_singleton in H. congruence.
    + exists deg'. split; [rewrite Hf; destruct (d - 1 =? 0)%Z; by rewrite <-?app_assoc|].
      intros v. rewrite Hdeg', count_cons. destruct (decide (x = v)) as [<-|Hne].
      * rewrite lookup_insert_eq, Hx. cbn. f_equal. lia.
      * by rewrite lookup_insert_ne.
  - destruct (IH deg next) as (new & Hnd & Hnew & deg' & Hf & Hdeg').
    { intros v e He. specialize (Hd v e He). rewrite count_cons in Hd. lia. }
    cbn [mbind outcome_bind]. exists new. split; [done|]. split.
    + intros v. rewrite Hnew, count_cons. destruct (decide (x = v)) as [<-|]; [|done].
      rewrite Hx. naive_solver.
    + exists deg'. split; [done|]. intros v. rewrite Hdeg', count_cons.
      destruct (decide (x = v)) as [<-|]; [by rewrite Hx|done].
Qed.

(** ** The invariant

    [placed] are the nodes already placed, [queue] those waiting; the map holds
    for every known node the number of its unmet edges, and the nodes with none
    are exactly the placed and the waiting ones. *)
Record kahn_inv (deg : deg_map) (placed queue : list string) : Prop := mk_kahn_inv {
  ki_nodup : NoDup (placed ++ queue);
  ki_deg : ∀ v d, deg !! v = Some d → d = Z.of_nat (unmet placed v);
  ki_ready : ∀ v, v ∈ placed ++ queue ↔ deg !! v = Some 0%Z
}.

Lemma kahn_inv_queue deg placed q q' :
  q ≡ₚ q' → kahn_inv deg placed q → kahn_inv deg placed q'.
Proof.
  intros Hq [Hn Hd Hr]. split; [by rewrite <-Hq|done|]. intros v. by rewrite <-Hq.
Qed.

Lemma kahn_inv_init iter deg :
  (∀ deg, iter deg ≡ₚ map_to_list deg) →
  (∀ v d, deg !! v = Some d → d = Z.of_nat (unmet [] v)) →
  kahn_inv deg [] (zero_nodes iter deg).
Proof.
  intros Hit Hd. split; [by apply NoDup_zero_nodes|done|].
  intros v. by apply elem_of_zero_nodes.
Qed.

Context (oc : bool) (adj : adj_map).
Hypothesis adj_ok : ∀ u, default [] (adj !! u) = targets u.
Hypothesis edges_usize : (Z.of_nat (length E) < 2 ^ 64)%Z.

Lemma release_inv deg placed q next u :
  kahn_inv deg placed (u :: q) →
  ∃ deg' new, release oc adj (deg, next) u = Ok (deg', next ++ new) ∧
    kahn_inv deg' (placed ++ [u]) (q ++ new) ∧ dom deg' = dom deg ∧
    ∀ v, v ∈ new → (u, v) ∈ E.
Proof.
  intros [Hn Hd Hr]. assert (u ∉ placed) as Hu.
  { apply NoDup_app in Hn as (_ & Hn & _). intros Hin. by eapply Hn; [|by left]. }
  pose proof (fun v => unmet_place placed u v Hu) as Hp.
  destruct (decrement_all oc (targets u) deg next) as (new & Hnew & Hmem & deg' & Hf & Hdeg').
  { intros v d Hv. pose proof (Hd v d Hv) as ->. pose proof (Hp v).
    pose proof (unmet_le placed v). lia. }
  assert (∀ v, v ∈ new → v ∉ placed ++ u :: q) as Hfresh.
  { intros v Hv Hin. apply Hmem in Hv as (d & Hdv & Hc & Hpos). apply Hr in Hin.
    rewrite Hin in Hdv. injection Hdv as <-. lia. }
  exists deg', new. unfold release. rewrite adj_ok. split; [done|]. split; [|split].
  - assert (placed ++ u :: q ≡ₚ (placed ++ [u]) ++ q) as Hperm by (by rewrite <-app_assoc).
    split.
    + rewrite app_assoc. apply NoDup_app. split; [by rewrite <-app_assoc|].
      split; [|done]. intros v Hin Hv. apply (Hfresh v Hv). by rewrite Hperm.
    + intros v d Hv. rewrite Hdeg' in Hv. apply fmap_Some in Hv as (d0 & Hv & ->).
      pose proof (Hd v d0 Hv). pose proof (Hp v). lia.
    + intros v. rewrite app_assoc, elem_of_app, <-Hperm, Hr, Hmem, Hdeg'. split.
      * intros [Hv|(d & Hv & -> & _)]; rewrite Hv; cbn; f_equal; [|lia].
        pose proof (Hd v 0%Z Hv). pose proof (Hp v). lia.
      * intros Hv. apply fmap_Some in Hv as (d & Hv & Hz). pose proof (Hd v d Hv) as Hdv.
        destruct (decide (count v (targets u) = 0)) as [H0|H0]; [left|right].
        -- rewrite Hv. f_equal. lia.
        -- exists d. split; [done|]. lia.
  - apply set_eq. intros v. rewrite !elem_of_dom, Hdeg'. by rewrite fmap_is_Some.
  - intros v Hv. apply Hmem in Hv as (_ & _ & _ & Hpos). unfold count in Hpos.
    destruct (filter _ (targets u)) as [|y l] eqn:Ef; [cbn in Hpos; lia|].
    assert (y ∈ filter (fun x => x = v) (targets u)) as Hy
      by (rewrite Ef; apply elem_of_cons; by left).
    apply list_elem_of_filter in Hy as [-> Hy]. unfold targets in Hy.
    apply list_elem_of_fmap in Hy as ([x y] & -> & Hy).
    by apply list_elem_of_filter in Hy as [<- Hy].
Qed.

Lemma release_all_inv fs : ∀ deg placed next,
  kahn_inv deg placed (fs ++ next) →
  ∃ deg' new, outcome_foldl (release oc adj) (deg, next) fs = Ok (deg', next ++ new) ∧
    kahn_inv deg' (placed ++ fs) (next ++ new) ∧ dom deg' = dom deg ∧
    ∀ v, v ∈ new → ∃ u, u ∈ fs ∧ (u, v) ∈ E.
Proof.
  induction fs as [|u fs IH]; intros deg placed next Hi.
  { exists deg, []. rewrite !app_nil_r. split; [done|]. split; [done|]. split; [done|].
    intros v Hv. by apply not_elem_of_nil in Hv. }
  destruct (release_inv deg placed (fs ++ next) next u Hi)
    as (deg1 & new1 & Hr & Hi1 & Hdom1 & He1).
  destruct (IH deg1 (placed ++ [u]) (next ++ new1)) as (deg2 & new2 & Hf & Hi2 & Hdom2 & He2).
  { by rewrite app_assoc. }
  exists deg2, (new1 ++ new2). cbn [outcome_foldl]. rewrite Hr.
  cbn [mbind outcome_bind]. rewrite Hf, <-!app_assoc in *. split; [done|].
  split; [done|]. split; [congruence|]. intros v Hv.
  apply elem_of_app in Hv as [Hv|Hv].
  - exists u. split; [by left|by apply He1].
  - destruct (He2 v Hv) as (x & Hx & He). exists x. split; [by right|done].
Qed.

(** ** What the order means *)
Lemma kahn_inv_closed deg placed q v x :
  kahn_inv deg placed q → v ∈ placed ++ q → (x, v) ∈ E → x ∈ placed.
Proof.
  intros [_ Hd Hr] Hv Hx. apply Hr in Hv. pose proof (Hd v 0%Z Hv) as H0.
  apply (proj1 (unmet_zero placed v)); [lia|done].
Qed.

Lemma kahn_inv_stuck deg placed v :
  kahn_inv deg placed [] → v ∈ dom deg → v ∉ placed → ∃ x, (x, v) ∈ E ∧ x ∉ placed.
Proof.
  intros [_ Hd Hr] Hv Hn. apply elem_of_dom in Hv as [d Hv].
  assert (unmet placed v ≠ 0) as Hu.
  { intros H0. apply Hn. rewrite app_nil_r in Hr. apply Hr. rewrite Hv. f_equal.
    pose proof (Hd v d Hv). lia. }
  unfold unmet in Hu. destruct (filter _ E) as [|[x y] l] eqn:Ef; [done|].
  assert ((x, y) ∈ filter (fun e => e.2 = v ∧ e.1 ∉ placed) E) as Hin
    by (rewrite Ef; apply elem_of_cons; by left).
  apply list_elem_of_filter in Hin as [[Hy Hx] Hin]. cbn in *. subst y. by exists x.
Qed.

Lemma kahn_inv_size deg placed q :
  kahn_inv deg placed q → length placed + length q ≤ size (dom deg).
Proof.
  intros [Hn _ Hr]. rewrite <-length_app.
  rewrite <-(size_list_to_set (C := gset string)) by done.
  apply subseteq_size. intros v Hv. apply elem_of_list_to_set in Hv.
  apply elem_of_dom. exists 0%Z. by apply Hr.
Qed.
End graph.
