(* ===== verification/Waves.v ===== *)
(** * Migration waves

    [src/fleet/wave.rs]: the role and the storage dependencies of each VM of a
    fleet, the topological levels ("waves") of the dependency graph, and the
    groups of VMs that could not be placed.

    A [HashMap] is a [gmap]; where the source iterates over one, the order is the
    argument [iter], constrained only to list the entries (its hypothesis is that
    of [HashMap::iter]: every entry once, in arbitrary order).  Running out of
    fuel is [Panic], so that a theorem that a plan is returned also says that the
    loops end. *)
From stdpp Require Import base gmap strings list.
From Stdlib Require Import ZArith Lia Ascii SpecFloat.
From S2P Require Import Prelude RustStr F64 Evidence Kahn.

Inductive VmRole : Set := Database | Standard.
#[export] Instance VmRole_eq_dec : EqDecision VmRole.
Proof. solve_decision. Defined.

Record WaveMember : Type := mk_WaveMember {
  wm_image : string;
  wm_hostname : string;
  wm_role : VmRole;
  wm_depends_on : list string
}.

Record MigrationWave : Type := mk_MigrationWave {
  mw_wave : nat;
  mw_images : list string
}.

Record WavePlan : Type := mk_WavePlan {
  wp_members : list WaveMember;
  wp_waves : list MigrationWave;
  wp_cycles : list (list string)
}.

Definition DB_UNIT_HINTS : list string :=
  ["postgresql"; "mysql"; "mariadb"; "mongod"; "redis"; "cassandra"].

(** [collect] into a [HashMap]: a later entry replaces an earlier one. *)
Definition collect {V} (l : list (string * V)) : gmap string V :=
  foldl (fun m kv => <[kv.1 := kv.2]> m) ∅ l.

Section model.
Context `{P : Platform}.
Abbreviation snapshot := (string * EvidenceSnapshot * f64)%type.

Definition detect_role (ev : EvidenceSnapshot) : VmRole :=
  match ev_systemd ev with
  | None => Standard
  | Some systemd =>
      let is_db :=
        existsb (fun u =>
          let lname := to_lowercase (su_name u) in
          existsb (fun hint => contains hint lname) DB_UNIT_HINTS) (sd_units systemd) in
      if is_db then Database else Standard
  end.

(** one iteration of the loop over the fstab entries. *)
Definition storage_dep (image : string) (hosts : gmap string string)
    (deps : list string) (entry : FstabEntry) : list string :=
  if negb (eq_ignore_ascii_case (fe_fstype entry) "nfs")
     && negb (eq_ignore_ascii_case (fe_fstype entry) "nfs4") then deps
  else match split_once ":"%char (fe_device entry) with
       | None => deps
       | Some (server, _export) =>
           match hosts !! server with
           | Some dep_image =>
               if bool_decide (dep_image ≠ image) && negb (existsb (String.eqb dep_image) deps)
               then deps ++ [dep_image] else deps
           | None => deps
           end
       end.
Definition detect_storage_deps (image : string) (ev : EvidenceSnapshot)
    (hostname_to_image : gmap string string) : list string :=
  foldl (storage_dep image hostname_to_image) [] (st_fstab_entries (ev_storage ev)).

Definition hostname_to_image (snapshots : list snapshot) : gmap string string :=
  collect (map (fun s => (os_hostname (ev_os s.1.2), s.1.1))
    (List.filter (fun s => negb (is_empty (os_hostname (ev_os s.1.2)))) snapshots)).

Definition member_of (hosts : gmap string string) (s : snapshot) : WaveMember :=
  mk_WaveMember s.1.1 (os_hostname (ev_os s.1.2)) (detect_role s.1.2)
    (detect_storage_deps s.1.1 s.1.2 hosts).
Definition wave_members (snapshots : list snapshot) : list WaveMember :=
  map (member_of (hostname_to_image snapshots)) snapshots.
Definition wave_scores (snapshots : list snapshot) : gmap string f64 :=
  collect (map (fun s => (s.1.1, s.2)) snapshots).
End model.

(** ** Waves *)
Definition in_degree (members : list WaveMember) : deg_map :=
  collect (map (fun m => (wm_image m, Z.of_nat (length (wm_depends_on m)))) members).

Definition dependents (members : list WaveMember) : adj_map :=
  foldl (fun adj m => foldl (fun adj dep => push_entry adj dep (wm_image m)) adj
    (wm_depends_on m)) ∅ members.

Definition by_image (members : list WaveMember) : gmap string WaveMember :=
  collect (map (fun m => (wm_image m, m)) members).

(** [Option<&f64>::partial_cmp]. *)
Definition opt_partial_cmp (x y : option f64) : option comparison :=
  match x, y with
  | None, None => Some Eq
  | None, Some _ => Some Lt
  | Some _, None => Some Gt
  | Some x, Some y => f64_partial_cmp x y
  end.

(** the comparison of [frontier.sort_by]; every image of the frontier is a key of
    [by_image], whose index never panics.  A score that is not a number equals every
    score, and then this is no total order. *)
Definition wave_cmp (roles : gmap string WaveMember) (scores : gmap string f64)
    (a b : string) : comparison :=
  match wm_role <$> roles !! a, wm_role <$> roles !! b with
  | Some Database, Some Standard => Lt
  | Some Standard, Some Database => Gt
  | _, _ => default Eq (opt_partial_cmp (scores !! b) (scores !! a))
  end.

(** the [while] loop; [fuel] bounds the number of waves. *)
Fixpoint wave_loop (oc : bool) (sort : list string → outcome Empty_set (list string)) (adj : adj_map)
    (fuel : nat) (deg : deg_map) (frontier : list string) (wave_num : nat)
    : outcome Empty_set (list MigrationWave) :=
  match frontier with
  | [] => Ok []
  | _ =>
      match fuel with
      | O => Panic
      | S fuel =>
          frontier ← sort frontier;
          '(deg, next_frontier) ← outcome_foldl (release oc adj) (deg, []) frontier;
          waves ← wave_loop oc sort adj fuel deg next_frontier (S wave_num);
          mret (mk_MigrationWave wave_num frontier :: waves)
      end
  end.

Section hashmap_order.
Context (iter : deg_map → list (string * Z)).

Definition topo_waves (oc : bool) (members : list WaveMember) (scores : gmap string f64)
    : outcome Empty_set (list MigrationWave) :=
  let deg := in_degree members in
  let frontier := zero_nodes iter deg in
  wave_loop oc (slice_sort_by (wave_cmp (by_image members) scores)) (dependents members)
    (S (length members)) deg frontier 0.
End hashmap_order.

(** ** Groups of unplaced VMs *)
Definition cycle_adjacency (stuck : list WaveMember) (placed : gset string) : adj_map :=
  foldl (fun adj m => foldl (fun adj dep =>
    if bool_decide (dep ∈ placed) then adj
    else push_entry (push_entry adj (wm_image m) dep) dep (wm_image m)) adj
    (wm_depends_on m)) ∅ stuck.

(** the breadth-first search from one queue: the nodes newly visited, in order. *)
Fixpoint bfs (fuel : nat) (adj : adj_map) (queue : list string) (visited : gset string)
    (component : list string) : option (gset string * list string) :=
  match queue with
  | [] => Some (visited, component)
  | node :: queue =>
      match fuel with
      | O => None
      | S fuel =>
          if bool_decide (node ∈ visited) then bfs fuel adj queue visited component
          else
            let visited := {[node]} ∪ visited in
            let queue :=
              queue ++ List.filter (fun n => negb (bool_decide (n ∈ visited)))
                (default [] (adj !! node)) in
            bfs fuel adj queue visited (component ++ [node])
      end
  end.

(** entries in the adjacency lists. *)
Definition adj_size (adj : adj_map) : nat :=
  sum_list (length <$> (map_to_list adj).*2).

Fixpoint components (adj : adj_map) (stuck : list WaveMember) (visited : gset string)
    : option (list (list string)) :=
  match stuck with
  | [] => Some []
  | m :: stuck =>
      if bool_decide (wm_image m ∈ visited) then components adj stuck visited
      else
        '(visited, component) ← bfs (S (adj_size adj)) adj [wm_image m] visited [];
        cs ← components adj stuck visited;
        mret (str_sort component :: cs)
  end.

(** [Ord] on [Vec<String>]. *)
Fixpoint strs_compare (a b : list string) : comparison :=
  match a, b with
  | [], [] => Eq
  | [], _ => Lt
  | _, [] => Gt
  | x :: a, y :: b =>
      match String.compare x y with Eq => strs_compare a b | c => c end
  end.

Definition find_cycles (members : list WaveMember) (placed : gset string)
    : outcome Empty_set (list (list string)) :=
  let stuck := List.filter (fun m => negb (bool_decide (wm_image m ∈ placed))) members in
  match stuck with
  | [] => Ok []
  | _ =>
      match components (cycle_adjacency stuck placed) stuck ∅ with
      | Some cs => Ok (sort_by strs_compare cs)
      | None => Panic
      end
  end.

Definition plan_waves `{Platform} (iter : deg_map → list (string * Z)) (oc : bool)
    (snapshots : list (string * EvidenceSnapshot * f64)) : outcome Empty_set WavePlan :=
  let members := wave_members snapshots in
  waves ← topo_waves iter oc members (wave_scores snapshots);
  let placed : gset string := list_to_set (List.flat_map mw_images waves) in
  cycles ← find_cycles members placed;
  mret (mk_WavePlan members waves cycles).
