(* ===== verification/WaveProps.v ===== *)
(** * What a wave plan guarantees

    Theorems on [Waves]: a plan is returned for every fleet of distinct images,
    every image is in exactly one wave or one group of unplaced VMs, an image's
    dependencies are in earlier waves, an image is in the earliest wave it can be
    in, and an unplaced image depends on another unplaced image of its group. *)
From stdpp Require Import base gmap strings list sorting.
From Stdlib Require Import ZArith Lia Ascii SpecFloat Sorted.
From S2P Require Import Prelude RustStr F64 Evidence Kahn Waves.

(** ** Maps *)
Lemma collect_app {V} (l : list (string * V)) k v :
  collect (l ++ [(k, v)]) = <[k := v]> (collect l).
Proof. unfold collect. by rewrite foldl_app. Qed.

Lemma collect_dom {V} (l : list (string * V)) k : k ∈ dom (collect l) ↔ k ∈ l.*1.
Proof.
  induction l as [|[k' v] l IH] using rev_ind; [cbn; set_solver|].
  rewrite collect_app, dom_insert, fmap_app. cbn. set_solver.
Qed.

Lemma collect_elem {V} (l : list (string * V)) k v : collect l !! k = Some v → (k, v) ∈ l.
Proof.
  induction l as [|[k' v'] l IH] using rev_ind; [done|].
  rewrite collect_app, elem_of_app, list_elem_of_singleton.
  intros [[-> ->]|[Hne H]]%lookup_insert_Some; [by right|left; by apply IH].
Qed.

Lemma collect_lookup {V} (l : list (string * V)) k v :
  NoDup l.*1 → (k, v) ∈ l → collect l !! k = Some v.
Proof.
  intros Hn Hin. assert (k ∈ dom (collect l)) as Hk.
  { apply collect_dom, list_elem_of_fmap. by exists (k, v). }
  apply elem_of_dom in Hk as [v' Hv]. rewrite Hv. f_equal.
  assert ((k, v') = (k, v)) as [= ->]; [|done].
  eapply (NoDup_fmap_unique fst); [exact Hn|by apply collect_elem|done|done].
Qed.

(** ** The dependency graph of the members *)
Definition member_edges (m : WaveMember) : list (string * string) :=
  map (fun d => (d, wm_image m)) (wm_depends_on m).
Definition wave_edges (members : list WaveMember) : list (string * string) :=
  List.flat_map member_edges members.

Lemma dependents_edges members :
  dependents members = foldl (fun adj e => push_entry adj e.1 e.2) ∅ (wave_edges members).
Proof.
  unfold dependents, wave_edges. rewrite foldl_flat_map. apply foldl_ext'.
  intros adj m _. unfold member_edges. by rewrite foldl_map'.
Qed.

Lemma dependents_targets members u :
  default [] (dependents members !! u) = targets (wave_edges members) u.
Proof.
  rewrite dependents_edges. by apply adj_of_edges.
Qed.

Lemma elem_of_wave_edges members x v :
  (x, v) ∈ wave_edges members ↔
  ∃ m, m ∈ members ∧ wm_image m = v ∧ x ∈ wm_depends_on m.
Proof.
  unfold wave_edges. rewrite list_elem_of_In, in_flat_map. setoid_rewrite <-list_elem_of_In.
  unfold member_edges. setoid_rewrite list_elem_of_fmap. naive_solver.
Qed.

Lemma unmet_member members m :
  NoDup (map wm_image members) → m ∈ members →
  unmet (wave_edges members) [] (wm_image m) = length (wm_depends_on m).
Proof.
  unfold unmet, wave_edges.
  assert (∀ v l, length (filter (fun e : string * string => e.2 = v ∧ e.1 ∉ []) (member_edges l)) =
    if decide (wm_image l = v) then length (wm_depends_on l) else 0) as Hone.
  { intros v l. unfold member_edges. induction (wm_depends_on l) as [|d ds IH]; cbn [map length].
    - by destruct (decide (wm_image l = v)).
    - rewrite filter_cons. cbn [fst snd]. destruct (decide (wm_image l = v)) as [Hv|Hv].
      + rewrite decide_True by (split; [done|apply not_elem_of_nil]). cbn [length]. by rewrite IH.
      + by rewrite decide_False by tauto. }
  induction members as [|m' members IH]; intros Hn Hm; [by apply not_elem_of_nil in Hm|].
  cbn [List.flat_map]. rewrite filter_app, length_app, Hone. cbn in Hn.
  apply NoDup_cons in Hn as [Hnm Hn]. apply elem_of_cons in Hm as [->|Hm].
  - rewrite decide_True by done. rewrite <-Nat.add_0_r. f_equal.
    clear -Hnm Hone. induction members as [|l members IH]; [done|].
    cbn in *. rewrite filter_app, length_app, Hone, IH by set_solver.
    rewrite decide_False; [done|]. set_solver.
  - rewrite decide_False; [by apply IH|]. intros Heq. apply Hnm. rewrite Heq.
    apply list_elem_of_fmap. by exists m.
Qed.

Section kahn.
Context (members : list WaveMember).
Hypothesis images_distinct : NoDup (map wm_image members).

Lemma in_degree_lookup v d :
  in_degree members !! v = Some d ↔
  ∃ m, m ∈ members ∧ wm_image m = v ∧ d = Z.of_nat (length (wm_depends_on m)).
Proof.
  unfold in_degree. set (l := map _ members).
  assert (NoDup l.*1) as Hn.
  { unfold l. by rewrite <-list_fmap_compose. }
  split.
  - intros H%collect_elem. apply list_elem_of_fmap in H as (m & [= -> ->] & Hm). eauto.
  - intros (m & Hm & <- & ->). apply collect_lookup; [done|]. apply list_elem_of_fmap. eauto.
Qed.

Lemma in_degree_unmet v d :
  in_degree members !! v = Some d → d = Z.of_nat (unmet (wave_edges members) [] v).
Proof. intros (m & Hm & <- & ->)%in_degree_lookup. by rewrite unmet_member. Qed.
End kahn.

(** ** The wave loop *)
Definition placed_images (ws : list MigrationWave) : list string :=
  List.flat_map mw_images ws.

(** the waves [ws], numbered from [n], that follow the images [placed]: an image's
    dependencies are placed before its wave, and in a later wave it has one in the
    wave just before. *)
Record waves_ok (E : list (string * string)) (n : nat) (placed : list string)
    (ws : list MigrationWave) : Prop := mk_waves_ok {
  wo_number : ∀ i w, ws !! i = Some w → mw_wave w = n + i;
  wo_before : ∀ i w v x, ws !! i = Some w → v ∈ mw_images w → (x, v) ∈ E →
    x ∈ placed ++ placed_images (take i ws);
  wo_tight : ∀ i w v, ws !! S i = Some w → v ∈ mw_images w →
    ∃ w' u, ws !! i = Some w' ∧ u ∈ mw_images w' ∧ (u, v) ∈ E
}.

Section loop.
Context (E : list (string * string)) (oc : bool) (adj : adj_map).
Hypothesis adj_ok : ∀ u, default [] (adj !! u) = targets E u.
Hypothesis edges_usize : (Z.of_nat (length E) < 2 ^ 64)%Z.
Context (sort : list string → outcome Empty_set (list string)) (D : gset string) (Q : list string → Prop).
(** the sort of images of the fleet returns them in an order that [Q] describes. *)
Hypothesis sort_ok : ∀ l, (∀ v, v ∈ l → v ∈ D) → ∃ l', sort l = Ok l' ∧ l' ≡ₚ l ∧ Q l'.

Lemma waves_ok_cons n placed fr ws :
  (∀ v x, v ∈ fr → (x, v) ∈ E → x ∈ placed) →
  waves_ok E (S n) (placed ++ fr) ws →
  (∀ w v, ws !! 0 = Some w → v ∈ mw_images w → ∃ u, u ∈ fr ∧ (u, v) ∈ E) →
  waves_ok E n placed (mk_MigrationWave n fr :: ws).
Proof.
  intros Hfr [Hn Hb Ht] H0. split.
  - intros [|i] w Hw; cbn in Hw; [injection Hw as <-; cbn; lia|].
    rewrite (Hn i w Hw). lia.
  - intros [|i] w v x Hw Hv Hx; cbn in Hw.
    + injection Hw as <-. apply elem_of_app. left. by eapply Hfr.
    + cbn. rewrite app_assoc. by eapply Hb.
  - intros [|i] w v Hw Hv; cbn in Hw.
    + destruct (H0 w v Hw Hv) as (u & Hu & He).
      by exists (mk_MigrationWave n fr), u.
    + destruct (Ht i w v Hw Hv) as (w' & u & ?). by exists w', u.
Qed.

Lemma wave_loop_spec fuel : ∀ deg placed fr n,
  kahn_inv E deg placed fr → dom deg = D → size (dom deg) ≤ length placed + fuel →
  ∃ ws deg', wave_loop oc sort adj fuel deg fr n = Ok ws ∧
    kahn_inv E deg' (placed ++ placed_images ws) [] ∧ dom deg' = dom deg ∧
    waves_ok E n placed ws ∧
    (∀ w, w ∈ ws → Q (mw_images w)) ∧
    (∀ w v, ws !! 0 = Some w → v ∈ mw_images w → v ∈ fr).
Proof.
  induction fuel as [|fuel IH]; intros deg placed fr n Hi HD Hf.
  - assert (fr = []) as ->.
    { pose proof (kahn_inv_size _ _ _ _ Hi). destruct fr; [done|cbn in *; lia]. }
    exists [], deg. cbn. rewrite app_nil_r. split; [done|]. split; [done|]. split; [done|].
    split; [by split|]. split; [intros w Hw; by apply not_elem_of_nil in Hw|done].
  - destruct fr as [|f fr].
    { exists [], deg. cbn. rewrite app_nil_r. split; [done|]. split; [done|]. split; [done|].
      split; [by split|]. split; [intros w Hw; by apply not_elem_of_nil in Hw|done]. }
    destruct (sort_ok (f :: fr)) as (fs & Hsort & Hp & Hq).
    { intros v Hv. rewrite <- HD. destruct Hi as [_ _ Hr]. eapply elem_of_dom_2, Hr, elem_of_app. by right. }
    assert (kahn_inv E deg placed (fs ++ [])) as Hi0.
    { rewrite app_nil_r. by eapply kahn_inv_queue, Hi. }
    destruct (release_all_inv E oc adj adj_ok edges_usize fs deg placed [] Hi0)
      as (deg1 & new & Hr & Hi1 & Hd1 & He1). cbn [app] in *.
    destruct (IH deg1 (placed ++ fs) new (S n) Hi1) as (ws & deg2 & Hl & Hi2 & Hd2 & Hw & Hs & H0).
    { congruence. }
    { rewrite Hd1, length_app, Hp. cbn. lia. }
    exists (mk_MigrationWave n fs :: ws), deg2. cbn [wave_loop]. rewrite Hsort. cbn [mbind outcome_bind]. rewrite Hr.
    cbn [mbind outcome_bind]. rewrite Hl. cbn [mbind outcome_bind].
    split; [done|]. split; [by rewrite <-app_assoc in Hi2|]. split; [congruence|].
    split; [|split].
    + apply waves_ok_cons; [|done|].
      * intros v x Hv. apply (kahn_inv_closed _ _ _ _ _ _ Hi). apply elem_of_app. right.
        by rewrite <-Hp.
      * intros w v Hw0 Hv. apply He1. by eapply H0.
    + intros w [->|Hin]%elem_of_cons; [done|by apply Hs].
    + intros w v [= <-] Hv. cbn in Hv. by rewrite <-Hp.
Qed.
End loop.

(** the loop on the members of a fleet, from the initial in-degrees. *)
Lemma topo_waves_spec iter members scores oc (Q : list string → Prop) :
  (∀ deg, iter deg ≡ₚ map_to_list deg) → NoDup (map wm_image members) →
  (Z.of_nat (length (wave_edges members)) < 2 ^ 64)%Z →
  (∀ l, (∀ v, v ∈ l → v ∈ map wm_image members) →
     ∃ l', slice_sort_by (E := Empty_set) (wave_cmp (by_image members) scores) l = Ok l' ∧ l' ≡ₚ l ∧ Q l') →
  ∃ ws deg', topo_waves iter oc members scores = Ok ws ∧
    kahn_inv (wave_edges members) deg' (placed_images ws) [] ∧
    dom deg' = dom (in_degree members) ∧ waves_ok (wave_edges members) 0 [] ws ∧
    ∀ w, w ∈ ws → Q (mw_images w).
Proof.
  intros Hit Hn Hu Hsort. unfold topo_waves.
  assert (∀ v, v ∈ dom (in_degree members) → v ∈ map wm_image members) as Hdom.
  { intros v Hv. unfold in_degree in Hv. apply collect_dom in Hv. by rewrite <-list_fmap_compose in Hv. }
  destruct (wave_loop_spec (wave_edges members) oc (dependents members)
    (dependents_targets members) Hu (slice_sort_by (wave_cmp (by_image members) scores))
    (dom (in_degree members)) Q (fun l Hl => Hsort l (fun v Hv => Hdom v (Hl v Hv)))
    (S (length members)) (in_degree members) []
    (zero_nodes iter (in_degree members)) 0
    (kahn_inv_init _ _ _ Hit (in_degree_unmet members Hn)) eq_refl)
    as (ws & deg' & Hl & Hi & Hd & Hw & Hs & _).
  { cbn. assert (size (dom (in_degree members)) ≤ length members); [|lia].
    rewrite <-(length_map wm_image members).
    rewrite <-(size_list_to_set (C := gset string)) by done. apply subseteq_size.
    intros v Hv%Hdom. by apply elem_of_list_to_set. }
  by exists ws, deg'.
Qed.

(** ** Groups of unplaced images *)
Section search.
Context (adj : adj_map).
Abbreviation next u := (default [] (adj !! u)).
(** [v] is a neighbour of [u]. *)
Definition adjacent (u v : string) : Prop := v ∈ next u.
Definition closed (S : string → Prop) : Prop := ∀ u v, S u → adjacent u v → S v.

(** entries of the lists of the nodes not visited yet: with the queue, the steps
    the search has left. *)
Definition weight_of (V : gset string) (l : list (string * list string)) : nat :=
  sum_list (map (fun kl => if decide (kl.1 ∈ V) then 0 else length kl.2) l).
Definition weight (V : gset string) : nat := weight_of V (map_to_list adj).

Lemma weight_of_cons V k ns l :
  weight_of V ((k, ns) :: l) = (if decide (k ∈ V) then 0 else length ns) + weight_of V l.
Proof. done. Qed.

Lemma weight_visit u V : u ∉ V → weight ({[u]} ∪ V) + length (next u) = weight V.
Proof.
  intros Hu. unfold weight. pose proof (NoDup_fst_map_to_list adj) as Hn.
  assert (∀ l, NoDup l.*1 → weight_of ({[u]} ∪ V) l +
    length (default [] ((list_to_map l : adj_map) !! u)) = weight_of V l) as Hl.
  { induction l as [|[k ns] l IH]; intros Hk; [done|]. cbn in Hk.
    apply NoDup_cons in Hk as [Hkl Hk]. rewrite !weight_of_cons. cbn [list_to_map foldr uncurry].
    specialize (IH Hk). destruct (decide (k = u)) as [->|Hne].
    - rewrite (decide_False (P := u ∈ V)) by done.
      rewrite decide_True by set_solver. cbn [list_to_map]. rewrite lookup_insert_eq.
      rewrite (not_elem_of_list_to_map_1 l u Hkl) in IH. cbn in *. lia.
    - rewrite lookup_insert_ne by done. destruct (decide (k ∈ V)) as [Hv|Hv].
      + rewrite decide_True by set_solver. lia.
      + rewrite decide_False by set_solver. lia. }
  rewrite <-(Hl (map_to_list adj) Hn). by rewrite list_to_map_to_list.
Qed.

Lemma weight_empty : weight ∅ = adj_size adj.
Proof.
  unfold weight, weight_of, adj_size. f_equal. rewrite <-list_fmap_compose.
  apply list_fmap_ext. intros i [k l] _. cbn. by rewrite decide_False by set_solver.
Qed.

Lemma weight_le V : weight V ≤ adj_size adj.
Proof.
  rewrite <-weight_empty. unfold weight. induction (map_to_list adj) as [|[k ns] l IH]; [done|].
  rewrite !weight_of_cons. rewrite (decide_False (P := k ∈ ∅)) by set_solver.
  destruct (decide (k ∈ V)); lia.
Qed.

(** what a search from [queue] adds to [V]. *)
Record search_ok (queue : list string) (V V' : gset string) (comp : list string) : Prop :=
  mk_search_ok {
  so_visited : ∀ v, v ∈ V' ↔ v ∈ V ∨ v ∈ comp;
  so_nodup : NoDup comp;
  so_new : ∀ v, v ∈ comp → v ∉ V;
  so_queue : ∀ v, v ∈ queue → v ∈ V';
  so_next : ∀ u v, u ∈ comp → adjacent u v → v ∈ V';
  so_within : ∀ S, closed S → (∀ v, v ∈ queue → S v) → ∀ v, v ∈ comp → S v
}.

Lemma search_ok_nil V : search_ok [] V V [].
Proof.
  split; [|constructor|..].
  - intros v. rewrite elem_of_nil. tauto.
  - intros v Hv. by apply not_elem_of_nil in Hv.
  - intros v Hv. by apply not_elem_of_nil in Hv.
  - intros u v Hu. by apply not_elem_of_nil in Hu.
  - intros S _ _ v Hv. by apply not_elem_of_nil in Hv.
Qed.

Lemma bfs_spec fuel : ∀ queue V acc,
  length queue + weight V ≤ fuel →
  ∃ V' comp, bfs fuel adj queue V acc = Some (V', acc ++ comp) ∧ search_ok queue V V' comp.
Proof.
  induction fuel as [|fuel IH]; intros [|u queue] V acc Hf; cbn [bfs].
  1, 3: exists V, []; rewrite app_nil_r; split; [done|apply search_ok_nil].
  { cbn in Hf. lia. }
  case_bool_decide as Hu.
  - destruct (IH queue V acc) as (V' & comp & Hb & [Hv Hn Hnew Hq Hx Hw]).
    { cbn in Hf. lia. }
    exists V', comp. split; [done|]. split; try done.
    + intros v [->|Hin]%elem_of_cons; [apply Hv; by left|by apply Hq].
    + intros S HS HSq. apply Hw; [done|]. intros v Hin. apply HSq. by right.
  - set (V1 := {[u]} ∪ V). set (ns := List.filter _ (next u)).
    assert (∀ v, v ∈ ns ↔ adjacent u v ∧ v ∉ V1) as Hns.
    { intros v. unfold ns. rewrite elem_of_filterb, negb_true_iff, bool_decide_eq_false. done. }
    assert (length ns ≤ length (next u)) as Hlen by apply List.filter_length_le.
    destruct (IH (queue ++ ns) V1 (acc ++ [u])) as (V' & comp & Hb & [Hv Hn Hnew Hq Hx Hw]).
    { pose proof (weight_visit u V Hu). rewrite length_app. cbn in Hf.
      change (length queue + length ns + weight V1 ≤ fuel). unfold V1. lia. }
    exists V', (u :: comp). split; [by rewrite <-app_assoc in Hb|].
    assert (∀ v, v ∈ V1 ↔ v = u ∨ v ∈ V) as HV1 by (unfold V1; set_solver).
    split.
    + intros v. rewrite Hv, HV1, elem_of_cons. tauto.
    + constructor; [|done]. intros Hin. apply (Hnew u Hin), HV1. by left.
    + intros v [->|Hin]%elem_of_cons; [done|]. intros HV. apply (Hnew v Hin), HV1. by right.
    + intros v [->|Hin]%elem_of_cons; [apply Hv; left; apply HV1; by left|].
      apply Hq, elem_of_app. by left.
    + intros x v [->|Hin]%elem_of_cons Hadj; [|by eapply Hx].
      destruct (decide (v ∈ V1)) as [|HvV]; [apply Hv; by left|].
      apply Hq, elem_of_app. right. by apply Hns.
    + intros S HS HSq. assert (S u) as Su by (apply HSq; by left).
      intros v [->|Hin]%elem_of_cons; [done|]. apply Hw; [done| |done].
      intros w [Hw'|Hw']%elem_of_app; [apply HSq; by right|].
      apply Hns in Hw' as [Ha _]. by eapply HS.
Qed.
End search.

Section groups.
Context (adj : adj_map).
Hypothesis adj_sym : ∀ u v, adjacent adj u v → adjacent adj v u.

(** the groups found after [V]: disjoint, closed under neighbourhood, each
    connected, and covering the given images. *)
Record groups_ok (V : gset string) (images : list string) (cs : list (list string))
    : Prop := mk_groups_ok {
  go_nodup : NoDup (concat cs);
  go_new : ∀ v, v ∈ concat cs → v ∉ V;
  go_cover : ∀ v, v ∈ images → v ∈ V ∨ v ∈ concat cs;
  go_within : ∀ S, closed adj S → (∀ v, v ∈ images → S v) → ∀ v, v ∈ concat cs → S v;
  go_closed : ∀ c u v, c ∈ cs → u ∈ c → adjacent adj u v → v ∈ c;
  go_connected : ∀ c, c ∈ cs → ∃ r, r ∈ c ∧ ∀ v, v ∈ c → rtc (adjacent adj) r v
}.

Lemma groups_ok_skip V v images cs :
  v ∈ V → groups_ok V images cs → groups_ok V (v :: images) cs.
Proof.
  intros Hv [Hn Hnew Hc Hw Hcl Hcn]. split; try done.
  - intros x [->|Hx]%elem_of_cons; [by left|by apply Hc].
  - intros S HS Hi. apply Hw; [done|]. intros x Hx. apply Hi. by right.
Qed.

Lemma groups_ok_cons V V' r images comp cs :
  closed adj (fun v => v ∈ V) → r ∉ V → search_ok adj [r] V V' comp →
  groups_ok V' images cs → groups_ok V (r :: images) (str_sort comp :: cs).
Proof.
  intros HV Hr [Hv Hcn Hcnew Hq Hx Hcw] [Hn Hnew Hc Hw Hcl Hgc].
  assert (∀ v, v ∈ str_sort comp ↔ v ∈ comp) as Hs by (intros; by rewrite str_sort_Permutation).
  assert (r ∈ comp) as Hrc.
  { destruct (proj1 (Hv r)) as [?|?]; [apply Hq; by left|done|done]. }
  split.
  - cbn. apply NoDup_app. split; [by rewrite str_sort_Permutation|]. split; [|done].
    intros v Hin. rewrite Hs in Hin. intros Hin'. apply (Hnew v Hin'), Hv. by right.
  - cbn. intros v [Hin|Hin]%elem_of_app; [apply Hcnew; by apply Hs|].
    intros HvV. apply (Hnew v Hin), Hv. by left.
  - cbn. intros v [->|Hin]%elem_of_cons; rewrite elem_of_app, Hs; [by right; left|].
    destruct (Hc v Hin) as [HvV|?]; [|by right; right].
    apply Hv in HvV. tauto.
  - cbn. intros S HS Hi v [Hin|Hin]%elem_of_app.
    + apply (Hcw S HS); [|by apply Hs]. intros x ->%list_elem_of_singleton. apply Hi. by left.
    + apply (Hw S HS); [|done]. intros x Hin'. apply Hi. by right.
  - intros c u v [->|Hin]%elem_of_cons; [|by apply Hcl]. rewrite !Hs. intros Hu Ha.
    destruct (proj1 (Hv v)) as [HvV|?]; [by eapply Hx| |done].
    exfalso. apply (Hcnew u Hu). by eapply HV, adj_sym.
  - intros c [->|Hin]%elem_of_cons; [|by apply Hgc]. exists r. split; [by apply Hs|].
    intros v. rewrite Hs. apply (Hcw (rtc (adjacent adj) r)).
    + intros a b Hab Hadj. by eapply rtc_r.
    + intros x ->%list_elem_of_singleton. constructor.
Qed.

Lemma components_spec stuck : ∀ V,
  closed adj (fun v => v ∈ V) →
  ∃ cs, components adj stuck V = Some cs ∧ groups_ok V (map wm_image stuck) cs.
Proof.
  induction stuck as [|m stuck IH]; intros V HV; cbn [components map].
  { exists []. split; [done|]. split; cbn; [constructor|..];
      intros; set_solver. }
  case_bool_decide as Hm.
  { destruct (IH V HV) as (cs & Hcs & Hok). exists cs. split; [done|].
    by apply groups_ok_skip. }
  destruct (bfs_spec adj (S (adj_size adj)) [wm_image m] V []) as (V' & comp & -> & Hok).
  { cbn. pose proof (weight_le adj V). lia. }
  cbn [mbind option_bind app]. destruct (IH V') as (cs & -> & Hcs).
  { intros u v Hu Ha. destruct Hok as [Hv _ _ _ Hx _]. apply Hv in Hu as [Hu|Hu].
    - apply Hv. left. by eapply HV.
    - by eapply Hx. }
  exists (str_sort comp :: cs). split; [done|]. by eapply groups_ok_cons.
Qed.
End groups.

(** ** The adjacency of the unplaced images *)
Definition stuck_edges (placed : gset string) (stuck : list WaveMember)
    : list (string * string) :=
  List.flat_map (fun m => List.flat_map (fun dep =>
    if bool_decide (dep ∈ placed) then [] else [(wm_image m, dep); (dep, wm_image m)])
    (wm_depends_on m)) stuck.

Lemma cycle_adjacency_edges stuck placed :
  cycle_adjacency stuck placed =
  foldl (fun adj e => push_entry adj e.1 e.2) ∅ (stuck_edges placed stuck).
Proof.
  unfold cycle_adjacency, stuck_edges. rewrite foldl_flat_map. apply foldl_ext'.
  intros adj m _. rewrite foldl_flat_map. apply foldl_ext'. intros adj' dep _.
  by case_bool_decide.
Qed.

Lemma stuck_adjacent placed stuck u v :
  adjacent (cycle_adjacency stuck placed) u v ↔
  ∃ m dep, m ∈ stuck ∧ dep ∈ wm_depends_on m ∧ (dep ∉ placed) ∧
    (u = wm_image m ∧ v = dep ∨ u = dep ∧ v = wm_image m).
Proof.
  unfold adjacent. rewrite cycle_adjacency_edges, adj_of_edges by done. unfold targets, stuck_edges.
  rewrite list_elem_of_fmap. setoid_rewrite list_elem_of_filter.
  setoid_rewrite list_elem_of_In at 1. setoid_rewrite in_flat_map.
  setoid_rewrite in_flat_map. setoid_rewrite <-list_elem_of_In. split.
  - intros ([x y] & -> & <- & m & Hm & dep & Hdep & Hin). case_bool_decide.
    + by apply not_elem_of_nil in Hin.
    + exists m, dep. cbn in *. set_solver.
  - intros (m & dep & Hm & Hdep & Hn & Huv). exists (u, v). split; [done|]. split; [done|].
    exists m. split; [done|]. exists dep. split; [done|].
    rewrite bool_decide_eq_false_2 by done. set_solver.
Qed.

(** every image the waves left out is in one group, and the groups hold nothing
    else; [images] bounds the dependencies. *)
Lemma find_cycles_spec members placed :
  NoDup (map wm_image members) →
  (∀ m x, m ∈ members → x ∈ wm_depends_on m → x ∈ map wm_image members) →
  ∃ cs, find_cycles members placed = Ok cs ∧
    NoDup (concat cs) ∧
    (∀ v, v ∈ concat cs ↔ v ∈ map wm_image members ∧ v ∉ placed) ∧
    (∀ c m x, c ∈ cs → m ∈ members → wm_image m ∈ c → x ∈ wm_depends_on m → x ∉ placed →
       x ∈ c) ∧
    (∀ c, c ∈ cs → ∃ r, r ∈ c ∧ ∀ v, v ∈ c →
       rtc (fun a b => ∃ m, m ∈ members ∧
         (wm_image m = a ∧ b ∈ wm_depends_on m ∨ wm_image m = b ∧ a ∈ wm_depends_on m)) r v).
Proof.
  intros Hn Hdeps.
  set (stuck := List.filter (fun m => negb (bool_decide (wm_image m ∈ placed))) members).
  assert (∀ m, m ∈ stuck ↔ m ∈ members ∧ wm_image m ∉ placed) as Hst.
  { intros m. unfold stuck. by rewrite elem_of_filterb, negb_true_iff, bool_decide_eq_false. }
  set (adj := cycle_adjacency stuck placed).
  assert (∀ u v, adjacent adj u v → adjacent adj v u) as Hsym.
  { intros u v (m & dep & H1 & H2 & H3 & H4)%stuck_adjacent. apply stuck_adjacent.
    exists m, dep. naive_solver. }
  destruct (components_spec adj Hsym stuck ∅) as (cs & Hcs & [Hnd _ Hcov Hw Hcl Hcn]).
  { intros u v Hu. set_solver. }
  assert (∃ cs', find_cycles members placed = Ok cs' ∧ cs' ≡ₚ cs) as (cs' & Hf & Hp).
  { unfold find_cycles. fold stuck. fold adj. rewrite Hcs. destruct stuck as [|m l] eqn:E.
    - cbn in Hcs. injection Hcs as <-. by exists [].
    - eexists. split; [done|]. apply sort_by_Permutation. }
  exists cs'. split; [done|].
  assert (concat cs' ≡ₚ concat cs) as Hpc by (by rewrite Hp).
  assert (∀ v, v ∈ concat cs ↔ v ∈ map wm_image members ∧ v ∉ placed) as Hmem.
  { intros v. split.
    - apply (Hw (fun v => v ∈ map wm_image members ∧ v ∉ placed)).
      + intros u x [Hu _] (m & dep & Hm & Hd & Hnp & Hux)%stuck_adjacent.
        apply Hst in Hm as [Hm Hmp]. destruct Hux as [[-> ->]|[-> ->]].
        * split; [by eapply Hdeps|done].
        * split; [apply list_elem_of_fmap; by exists m|done].
      + intros x Hx. apply list_elem_of_fmap in Hx as (m & -> & Hm).
        apply Hst in Hm as [Hm Hmp]. split; [apply list_elem_of_fmap; by exists m|done].
    - intros [Hv Hp']. apply list_elem_of_fmap in Hv as (m & -> & Hm).
      destruct (Hcov (wm_image m)) as [H|H]; [|set_solver|done].
      apply list_elem_of_fmap. exists m. split; [done|]. by apply Hst. }
  split; [by rewrite Hpc|]. split; [intros v; by rewrite Hpc|]. split.
  - intros c m x Hc Hm Hmc Hx Hxp. rewrite Hp in Hc. apply (Hcl c (wm_image m)); [done|done|].
    apply stuck_adjacent. exists m, x. split; [|split; [done|split; [done|by left]]].
    apply Hst. split; [done|]. apply Hmem, list_elem_of_In, in_concat. exists c.
    by rewrite <-!list_elem_of_In.
  - intros c Hc. rewrite Hp in Hc. destruct (Hcn c Hc) as (r & Hr & Hrv). exists r.
    split; [done|]. intros v Hv. eapply rtc_subrel; [|by apply Hrv].
    intros x y (m & dep & Hm & Hd & _ & Hxy)%stuck_adjacent. exists m.
    apply Hst in Hm as [Hm _]. split; [done|]. naive_solver.
Qed.

(** ** Plans *)
Section plans.
Context `{P : Platform}.
Abbreviation snapshot := (string * EvidenceSnapshot * f64)%type.
Implicit Types snapshots : list snapshot.

Definition images snapshots : list string := map (fun s => s.1.1) snapshots.

Lemma wave_members_images snapshots : map wm_image (wave_members snapshots) = images snapshots.
Proof. unfold wave_members. by rewrite map_map. Qed.

Lemma storage_deps_ok image hosts entries : ∀ deps,
  NoDup deps → (∀ x, x ∈ deps → x ≠ image ∧ ∃ h, hosts !! h = Some x) →
  let deps' := foldl (storage_dep image hosts) deps entries in
  NoDup deps' ∧ ∀ x, x ∈ deps' → x ≠ image ∧ ∃ h, hosts !! h = Some x.
Proof.
  induction entries as [|e entries IH]; intros deps Hn Hd; [done|]. cbn [foldl]. apply IH.
  all: unfold storage_dep; case_match; [done|]; case_match; [|done];
    match goal with |- context [let '(_, _) := ?p in _] => destruct p as [server export] end;
    destruct (hosts !! server) as [dep|] eqn:Hh; [|done];
    destruct (bool_decide (dep ≠ image)) eqn:Hne; [|done];
    destruct (existsb (String.eqb dep) deps) eqn:Hex; [done|]; cbn [andb negb].
  - apply NoDup_app. split; [done|]. split; [|apply NoDup_singleton].
    intros x Hx ->%list_elem_of_singleton. rewrite <-not_true_iff_false, existsb_elem_of in Hex.
    apply Hex. exists dep. split; [done|apply String.eqb_refl].
  - intros x [Hx|Hx]%elem_of_app; [by apply Hd|]. apply list_elem_of_singleton in Hx as ->.
    apply bool_decide_eq_true_1 in Hne. split; [done|by exists server].
Qed.

(** the dependencies of a member are other images of the fleet, each once. *)
Lemma member_deps snapshots m :
  m ∈ wave_members snapshots →
  NoDup (wm_depends_on m) ∧
  ∀ x, x ∈ wm_depends_on m → x ≠ wm_image m ∧ x ∈ images snapshots.
Proof.
  unfold wave_members. rewrite list_elem_of_fmap. intros (s & -> & Hs). cbn.
  destruct (storage_deps_ok s.1.1 (hostname_to_image snapshots)
    (st_fstab_entries (ev_storage s.1.2)) []) as [Hn Hd]; [constructor| |].
  { intros x Hx. by apply not_elem_of_nil in Hx. }
  split; [done|]. intros x Hx. destruct (Hd x Hx) as [Hne [h Hh]]. split; [done|].
  unfold hostname_to_image in Hh. apply collect_elem, list_elem_of_fmap in Hh as (s' & [= _ ->] & Hs').
  apply elem_of_filterb in Hs' as [Hs' _]. apply list_elem_of_fmap. by exists s'.
Qed.

(** *** Sorting a wave *)
Lemma f64_cmp_nonneg x y :
  f64_nonneg x → f64_nonneg y →
  ∃ c, f64_partial_cmp x y = Some c ∧ (c ≠ Gt ↔ (x <=? y)%f64 = true).
Proof.
  intros Hx Hy. unfold f64_leb, SFleb, f64_partial_cmp.
  destruct (SFcompare x y) as [c|] eqn:E.
  - exists c. split; [done|]. by destruct c.
  - by destruct x as [[]|[]| |[]], y as [[]|[]| |[]].
Qed.

(** what [wave_cmp] compares of an image. *)
Definition ranked snapshots (a : string) (role : VmRole) (score : f64) : Prop :=
  ∃ s, s ∈ snapshots ∧ s.1.1 = a ∧ detect_role s.1.2 = role ∧ s.2 = score.

(** an image may come before another in a wave. *)
Definition may_precede (ra rb : VmRole) (sa sb : f64) : Prop :=
  ra = Database ∧ rb = Standard ∨ ra = rb ∧ (sb <=? sa)%f64 = true.

Lemma ranked_lookup snapshots v r x : NoDup (images snapshots) → ranked snapshots v r x →
  wm_role <$> by_image (wave_members snapshots) !! v = Some r ∧ wave_scores snapshots !! v = Some x.
Proof.
  intros Hn (s & Hs & <- & <- & <-). split.
  - unfold by_image. rewrite (collect_lookup _ _ (member_of (hostname_to_image snapshots) s)); [done| |].
    + by rewrite <-list_fmap_compose, <-wave_members_images in *.
    + apply list_elem_of_fmap. eexists. split; [|apply list_elem_of_fmap; by exists s]. done.
  - unfold wave_scores. apply collect_lookup; [by rewrite <-list_fmap_compose|].
    apply list_elem_of_fmap. by exists s.
Qed.
Lemma wave_cmp_ranked snapshots a b ra rb sa sb :
  NoDup (images snapshots) → ranked snapshots a ra sa → ranked snapshots b rb sb →
  f64_nonneg sa → f64_nonneg sb →
  wave_cmp (by_image (wave_members snapshots)) (wave_scores snapshots) a b ≠ Gt ↔
  may_precede ra rb sa sb.
Proof.
  intros Hn Ha Hb Hna Hnb.
  destruct (ranked_lookup _ _ _ _ Hn Ha) as [Hra Hsa], (ranked_lookup _ _ _ _ Hn Hb) as [Hrb Hsb].
  unfold wave_cmp, may_precede. rewrite Hra, Hrb, Hsa, Hsb. cbn [opt_partial_cmp].
  destruct (f64_cmp_nonneg sb sa Hnb Hna) as (c & -> & Hc). cbn [default].
  destruct ra, rb; naive_solver.
Qed.

Lemma may_precede_total ra rb sa sb :
  f64_nonneg sa → f64_nonneg sb → ¬ may_precede ra rb sa sb → may_precede rb ra sb sa.
Proof.
  intros Ha Hb Hn. unfold may_precede in *.
  assert ((sb <=? sa)%f64 = true ∨ (sa <=? sb)%f64 = true) as Ht.
  { destruct (sb <=? sa)%f64 eqn:E; [by left|right].
    apply f64_ltb_leb. by apply f64_leb_false; auto with guestkit. }
  destruct ra, rb; naive_solver.
Qed.

Lemma may_precede_trans ra rb rc sa sb sc :
  f64_nonneg sa → f64_nonneg sb → f64_nonneg sc →
  may_precede ra rb sa sb → may_precede rb rc sb sc → may_precede ra rc sa sc.
Proof.
  intros Ha Hb Hc. unfold may_precede.
  pose proof (f64_leb_trans sc sb sa Hc Hb Ha). destruct ra, rb, rc; naive_solver.
Qed.

Lemma partial_cmp_swap x y c : f64_partial_cmp x y = Some c → f64_partial_cmp y x = Some (CompOpp c).
Proof.
  unfold f64_partial_cmp, SFcompare.
  destruct x as [sx|sx| |sx mx ex], y as [sy|sy| |sy my ey]; try done; try destruct sx; try destruct sy; try (by intros [= <-]).
  all: intros [= <-]; rewrite (Z.compare_antisym ex ey).
  all: assert (PosDef.Pos.compare_cont Eq my mx = CompOpp (PosDef.Pos.compare_cont Eq mx my)) as ->
    by exact (Pos.compare_antisym mx my).
  all: destruct (ex ?= ey)%Z; cbn; by rewrite ?CompOpp_involutive.
Qed.

Section sorting.
Context snapshots (Hn : NoDup (images snapshots)) (Hsc : Forall (fun s => f64_nonneg s.2) snapshots).
Abbreviation cmp := (wave_cmp (by_image (wave_members snapshots)) (wave_scores snapshots)).

Lemma image_ranked v : v ∈ images snapshots → ∃ r x, ranked snapshots v r x ∧ f64_nonneg x.
Proof.
  intros (s & -> & Hin)%list_elem_of_fmap. exists (detect_role s.1.2), s.2.
  rewrite Forall_forall in Hsc. split; [by exists s|by apply Hsc].
Qed.
Lemma wave_cmp_swap a b : a ∈ images snapshots → b ∈ images snapshots → cmp b a = CompOpp (cmp a b).
Proof.
  intros (ra & sa & Ha & Hna)%image_ranked (rb & sb & Hb & Hnb)%image_ranked.
  destruct (ranked_lookup _ _ _ _ Hn Ha) as [Hra Hsa], (ranked_lookup _ _ _ _ Hn Hb) as [Hrb Hsb].
  unfold wave_cmp. rewrite Hra, Hrb, Hsa, Hsb. cbn [opt_partial_cmp].
  destruct (f64_cmp_nonneg sb sa Hnb Hna) as (c & E & _). rewrite E, (partial_cmp_swap _ _ _ E).
  by destruct ra, rb.
Qed.
Lemma wave_cmp_trans a b c : a ∈ images snapshots → b ∈ images snapshots → c ∈ images snapshots →
  cmp a b ≠ Gt → cmp b c ≠ Gt → cmp a c ≠ Gt.
Proof.
  intros (ra & sa & Ha & Hna)%image_ranked (rb & sb & Hb & Hnb)%image_ranked (rc & sc & Hc & Hnc)%image_ranked.
  rewrite (wave_cmp_ranked _ _ _ _ _ _ _ Hn Ha Hb), (wave_cmp_ranked _ _ _ _ _ _ _ Hn Hb Hc),
    (wave_cmp_ranked _ _ _ _ _ _ _ Hn Ha Hc) by done.
  by apply may_precede_trans.
Qed.
(** with scores that are numbers the comparison is a total order, and the sort returns. *)
Lemma wave_sort l : (∀ v, v ∈ l → v ∈ map wm_image (wave_members snapshots)) →
  ∃ l', slice_sort_by (E := Empty_set) cmp l = Ok l' ∧ l' ≡ₚ l ∧ StronglySorted (fun x y => cmp x y ≠ Gt) l'.
Proof.
  rewrite wave_members_images. intros Hl. exists (sort_by cmp l). split; [|split; [apply sort_by_Permutation|]].
  - apply slice_sort_by_total; [intros; apply wave_cmp_swap; auto|]. intros a b c ? ? ?. apply wave_cmp_trans; auto.
  - apply (sort_by_sorted cmp (fun v => v ∈ images snapshots)).
    + intros x y Hx Hy Hgt. by rewrite (wave_cmp_swap x y), Hgt.
    + intros x y z. apply wave_cmp_trans.
    + apply Forall_forall. exact Hl.
Qed.
End sorting.

(** the hypotheses of the theorems on plans. *)
Record fleet_ok (iter : deg_map → list (string * Z)) snapshots : Prop := mk_fleet_ok {
  (** [HashMap::iter]: every entry once, in arbitrary order *)
  fo_iter : ∀ deg, iter deg ≡ₚ map_to_list deg;
  fo_images : NoDup (images snapshots);
  (** the scores are numbers and not negative, as the boot engine's are *)
  fo_scores : Forall (fun s => f64_nonneg s.2) snapshots;
  (** the edges fit a [usize] *)
  fo_edges : (Z.of_nat (length (wave_edges (wave_members snapshots))) < 2 ^ 64)%Z
}.

Lemma plan_waves_spec iter oc snapshots :
  fleet_ok iter snapshots →
  ∃ plan deg', plan_waves iter oc snapshots = Ok plan ∧
    wp_members plan = wave_members snapshots ∧
    kahn_inv (wave_edges (wave_members snapshots)) deg' (placed_images (wp_waves plan)) [] ∧
    dom deg' = dom (in_degree (wave_members snapshots)) ∧
    waves_ok (wave_edges (wave_members snapshots)) 0 [] (wp_waves plan) ∧
    (∀ w, w ∈ wp_waves plan → StronglySorted (fun x y =>
       wave_cmp (by_image (wave_members snapshots)) (wave_scores snapshots) x y ≠ Gt) (mw_images w)) ∧
    find_cycles (wave_members snapshots)
      (list_to_set (placed_images (wp_waves plan))) = Ok (wp_cycles plan).
Proof.
  intros [Hit Hn Hsc Hu]. pose proof (wave_sort snapshots Hn Hsc) as Hsort. rewrite <-wave_members_images in Hn.
  destruct (topo_waves_spec iter (wave_members snapshots) (wave_scores snapshots) oc _ Hit Hn Hu Hsort)
    as (ws & deg' & Hw & Hi & Hd & Hok & Hs).
  destruct (find_cycles_spec (wave_members snapshots) (list_to_set (placed_images ws)) Hn)
    as (cs & Hc & _).
  { intros m x Hm Hx. rewrite wave_members_images. by apply (member_deps _ m Hm). }
  exists (mk_WavePlan (wave_members snapshots) ws cs), deg'. split; [|done].
  unfold plan_waves. rewrite Hw. cbn [mbind outcome_bind].
  fold (placed_images ws). rewrite Hc. done.
Qed.

(** C24: for a fleet of distinct images with scores that are numbers and not negative (and
    fewer than 2^64 dependencies) a plan is returned, with or without
    overflow checks and in whatever order the hash map iterates, and every image is
    in it exactly once: in one wave or in one group of unplaced images. *)
Theorem wave_plan_partition iter oc snapshots :
  fleet_ok iter snapshots →
  ∃ plan, plan_waves iter oc snapshots = Ok plan ∧
    placed_images (wp_waves plan) ++ concat (wp_cycles plan) ≡ₚ images snapshots.
Proof.
  intros Hf. destruct (plan_waves_spec iter oc snapshots Hf)
    as (plan & deg' & Hp & _ & [Hn _ Hr] & Hd & _ & _ & Hc).
  exists plan. split; [done|]. destruct Hf as [_ Hni _].
  rewrite <-wave_members_images in *. rewrite app_nil_r in *.
  destruct (find_cycles_spec (wave_members snapshots)
    (list_to_set (placed_images (wp_waves plan))) Hni) as (cs & Hc' & Hcn & Hcm & _).
  { intros m x Hm Hx. rewrite wave_members_images. by apply (member_deps _ m Hm). }
  rewrite Hc in Hc'. injection Hc' as <-.
  apply NoDup_Permutation; [|done|].
  - apply NoDup_app. split; [done|]. split; [|done]. intros v Hv Hv'.
    apply Hcm in Hv' as [_ Hv']. apply Hv'. by apply elem_of_list_to_set.
  - intros v. rewrite elem_of_app, Hcm, elem_of_list_to_set. split; [|tauto || idtac].
    + intros [Hv|[Hv _]]; [|done]. apply Hr, elem_of_dom_2 in Hv. rewrite Hd in Hv.
      unfold in_degree in Hv. apply collect_dom in Hv.
      by rewrite <-list_fmap_compose in Hv.
    + intros Hv. destruct (decide (v ∈ placed_images (wp_waves plan))); tauto.
Qed.

(** C10: for a fleet of distinct images with scores that are numbers and not negative, a plan
    is returned in which wave numbers count from 0; the dependencies of an image are in
    strictly earlier waves, so a wave can migrate in parallel; and an image of a later wave
    has a dependency in the wave just before, so no image waits longer than it must. *)
Theorem wave_plan_order iter oc snapshots :
  fleet_ok iter snapshots →
  ∃ plan, plan_waves iter oc snapshots = Ok plan ∧
    ∀ i w m, wp_waves plan !! i = Some w → m ∈ wp_members plan → wm_image m ∈ mw_images w →
      mw_wave w = i ∧
      (∀ x, x ∈ wm_depends_on m → ∃ j w', j < i ∧ wp_waves plan !! j = Some w' ∧
         x ∈ mw_images w') ∧
      (0 < i → ∃ x w', x ∈ wm_depends_on m ∧ wp_waves plan !! (i - 1) = Some w' ∧
         x ∈ mw_images w').
Proof.
  intros Hf. destruct (plan_waves_spec iter oc snapshots Hf)
    as (plan & deg' & Hp & Hm' & _ & _ & [Hno Hb Ht] & _).
  exists plan. split; [done|]. intros i w m Hw Hm Hmw. rewrite Hm' in Hm.
  split; [by apply Hno|]. split.
  - intros x Hx. assert (x ∈ placed_images (take i (wp_waves plan))) as Hin.
    { apply (Hb i w (wm_image m) x Hw Hmw). apply elem_of_wave_edges. by exists m. }
    unfold placed_images in Hin. apply list_elem_of_In, in_flat_map in Hin as (w' & Hw' & Hx').
    apply list_elem_of_In, list_elem_of_lookup in Hw' as [j Hj].
    apply lookup_take_Some in Hj as [Hj Hji]. exists j, w'. split; [done|]. split; [done|].
    by apply list_elem_of_In.
  - intros Hi. destruct i as [|i]; [lia|]. cbn. rewrite Nat.sub_0_r.
    destruct (Ht i w (wm_image m) Hw Hmw) as (w' & u & Hw' & Hu & He).
    apply elem_of_wave_edges in He as (m' & Hm1 & Himg & Hdep).
    assert (m' = m) as ->; [|by exists u, w'].
    destruct Hf as [_ Hni _]. rewrite <-wave_members_images in Hni.
    by eapply (NoDup_fmap_unique wm_image).
Qed.

(** an image left out of the waves depends on another image of its own
    group, and a group is connected by dependencies; so an image is left out only
    because of a cycle. *)
Theorem wave_plan_cycles iter oc snapshots :
  fleet_ok iter snapshots →
  ∃ plan, plan_waves iter oc snapshots = Ok plan ∧
    (∀ c m, c ∈ wp_cycles plan → m ∈ wp_members plan → wm_image m ∈ c →
       ∃ x, x ∈ wm_depends_on m ∧ x ≠ wm_image m ∧ x ∈ c) ∧
    (∀ c, c ∈ wp_cycles plan → ∃ r, r ∈ c ∧ ∀ v, v ∈ c →
       rtc (fun a b => ∃ m, m ∈ wp_members plan ∧
         (wm_image m = a ∧ b ∈ wm_depends_on m ∨ wm_image m = b ∧ a ∈ wm_depends_on m)) r v).
Proof.
  intros Hf. destruct (plan_waves_spec iter oc snapshots Hf)
    as (plan & deg' & Hp & Hmem & Hi & Hd & _ & _ & Hc).
  exists plan. split; [done|]. rewrite Hmem. pose proof (fo_images _ _ Hf) as Hni.
  rewrite <-wave_members_images in Hni.
  destruct (find_cycles_spec (wave_members snapshots)
    (list_to_set (placed_images (wp_waves plan))) Hni) as (cs & Hc' & _ & Hcm & Hcd & Hcc).
  { intros m x Hm Hx. rewrite wave_members_images. by apply (member_deps _ m Hm). }
  rewrite Hc in Hc'. injection Hc' as <-. split; [|done].
  intros c m Hcin Hm Hmc.
  assert (wm_image m ∉ placed_images (wp_waves plan)) as Hnp.
  { intros Hin. destruct (proj1 (Hcm (wm_image m))) as [_ Hn].
    - apply list_elem_of_In, in_concat. exists c. by rewrite <-!list_elem_of_In.
    - apply Hn. by apply elem_of_list_to_set. }
  destruct (kahn_inv_stuck _ _ _ (wm_image m) Hi) as (x & He & Hx); [|done|].
  { rewrite Hd. apply collect_dom. rewrite <-list_fmap_compose.
    apply list_elem_of_fmap. by exists m. }
  apply elem_of_wave_edges in He as (m' & Hm' & Himg & Hdep).
  assert (m' = m) as -> by (by eapply (NoDup_fmap_unique wm_image)).
  exists x. split; [done|]. split; [by apply (member_deps _ m Hm)|].
  apply (Hcd c m x); try done. by rewrite elem_of_list_to_set.
Qed.

(** ** The order inside a wave *)
Lemma StronglySorted_lookup {A} (R : A → A → Prop) l i j x y :
  StronglySorted R l → i < j → l !! i = Some x → l !! j = Some y → R x y.
Proof.
  intros Hs. revert i j. induction Hs as [|z l Hs IH Hz]; intros i j Hij Hi Hj; [done|].
  destruct j as [|j]; [lia|]. cbn in Hj. destruct i as [|i]; cbn in Hi.
  - injection Hi as ->. rewrite Forall_forall in Hz. apply Hz. by eapply list_elem_of_lookup_2.
  - by eapply (IH i j); [lia|..].
Qed.

(** inside a wave database VMs come first, and among VMs of one role the boot
    scores descend. *)
Theorem wave_plan_priority iter oc snapshots :
  fleet_ok iter snapshots →
  ∃ plan, plan_waves iter oc snapshots = Ok plan ∧
    ∀ w i j sa sb, w ∈ wp_waves plan → i < j → sa ∈ snapshots → sb ∈ snapshots →
      mw_images w !! i = Some sa.1.1 → mw_images w !! j = Some sb.1.1 →
      may_precede (detect_role sa.1.2) (detect_role sb.1.2) sa.2 sb.2.
Proof.
  intros Hf. pose proof (fo_scores _ _ Hf) as Hsc. rewrite Forall_forall in Hsc. pose proof (fo_images _ _ Hf) as Hn.
  destruct (plan_waves_spec iter oc snapshots Hf) as (plan & deg' & Hp & _ & _ & _ & _ & Hs & _).
  exists plan. split; [done|]. intros w i j sa sb Hw Hij Hsa Hsb Hi Hj.
  pose proof (StronglySorted_lookup _ _ i j _ _ (Hs w Hw) Hij Hi Hj) as Hc.
  assert (∀ s, s ∈ snapshots → ranked snapshots s.1.1 (detect_role s.1.2) s.2) as Hrk
    by (intros s Hin; by exists s).
  exact (proj1 (wave_cmp_ranked _ _ _ _ _ _ _ Hn (Hrk _ Hsa) (Hrk _ Hsb) (Hsc _ Hsa)
    (Hsc _ Hsb)) Hc).
Qed.
End plans.

(** ** Concrete fleets *)
Definition host_evidence (hostname : string) (servers : list string)
    : @EvidenceSnapshot ascii_platform :=
  @blank_snapshot ascii_platform
    (mk_OsEvidence "linux" "rhel" "9" "x86_64" hostname "systemd" "dnf")
    (mk_StorageEvidence (map (fun s => mk_FstabEntry (s +:+ ":/export/data") "/mnt/data" "nfs4"
       "defaults") servers) [] [] EmptyString [] None None None)
    default_BootEvidence default_VmToolsEvidence None None None.
Definition host (hostname : string) (servers : list string) (score : Z)
    : string * @EvidenceSnapshot ascii_platform * f64 :=
  (hostname +:+ ".qcow2", host_evidence hostname servers, f64_of_Z score).

(** an application server and a web server behind a storage server. *)
Definition small_fleet : list (string * @EvidenceSnapshot ascii_platform * f64) :=
  [host "web" ["app"] 90; host "app" ["storage"] 85; host "storage" [] 95;
   host "batch" [] 70]%Z.

Lemma small_fleet_ok : @fleet_ok ascii_platform map_to_list small_fleet.
Proof.
  split; [done|by refine (bool_decide_eq_true_1 _ _); vm_compute|by repeat constructor|by vm_compute].
Qed.

Lemma wave_plan_partition_witness :
  ∃ plan, @plan_waves ascii_platform map_to_list true small_fleet = Ok plan ∧
    placed_images (wp_waves plan) ++ concat (wp_cycles plan) ≡ₚ
      ["web.qcow2"; "app.qcow2"; "storage.qcow2"; "batch.qcow2"].
Proof.
  exact (@wave_plan_partition ascii_platform map_to_list true small_fleet small_fleet_ok).
Defined.

Lemma wave_plan_order_witness :
  ∃ plan, @plan_waves ascii_platform map_to_list true small_fleet = Ok plan ∧
    ∀ i w m, wp_waves plan !! i = Some w → m ∈ wp_members plan → wm_image m ∈ mw_images w →
      mw_wave w = i ∧
      (∀ x, x ∈ wm_depends_on m → ∃ j w', j < i ∧ wp_waves plan !! j = Some w' ∧
         x ∈ mw_images w') ∧
      (0 < i → ∃ x w', x ∈ wm_depends_on m ∧ wp_waves plan !! (i - 1) = Some w' ∧
         x ∈ mw_images w').
Proof.
  exact (@wave_plan_order ascii_platform map_to_list true small_fleet small_fleet_ok).
Defined.

(** two VMs that mount each other's exports, and one that mounts from the first. *)
Definition cyclic_fleet : list (string * @EvidenceSnapshot ascii_platform * f64) :=
  [host "a" ["b"] 90; host "b" ["a"] 90; host "c" ["a"] 80; host "d" [] 70]%Z.

Lemma cyclic_fleet_ok : @fleet_ok ascii_platform map_to_list cyclic_fleet.
Proof.
  split; [done|by refine (bool_decide_eq_true_1 _ _); vm_compute|by repeat constructor|by vm_compute].
Qed.

Lemma wave_plan_cycles_witness :
  ∃ plan, @plan_waves ascii_platform map_to_list true cyclic_fleet = Ok plan ∧
    ∀ c m, c ∈ wp_cycles plan → m ∈ wp_members plan → wm_image m ∈ c →
      ∃ x, x ∈ wm_depends_on m ∧ x ≠ wm_image m ∧ x ∈ c.
Proof.
  destruct (@wave_plan_cycles ascii_platform map_to_list true cyclic_fleet cyclic_fleet_ok)
    as (plan & Hp & Hc & _).
  exists plan. split; [exact Hp|exact Hc].
Defined.

Lemma wave_plan_priority_witness :
  ∃ plan, @plan_waves ascii_platform map_to_list true small_fleet = Ok plan ∧
    ∀ w i j sa sb, w ∈ wp_waves plan → i < j → sa ∈ small_fleet → sb ∈ small_fleet →
      mw_images w !! i = Some sa.1.1 → mw_images w !! j = Some sb.1.1 →
      may_precede (detect_role sa.1.2) (detect_role sb.1.2) sa.2 sb.2.
Proof.
  exact (@wave_plan_priority ascii_platform map_to_list true small_fleet small_fleet_ok).
Defined.

Example small_fleet_plan :
  (fun plan => (map mw_images (wp_waves plan), wp_cycles plan)) <$>
    @plan_waves ascii_platform map_to_list true small_fleet =
  Ok ([["storage.qcow2"; "batch.qcow2"]; ["app.qcow2"]; ["web.qcow2"]], []).
Proof. by vm_compute. Qed.

(** when one image is listed twice and has a dependency in the fleet, its
    in-degree is counted once and decremented twice: the build that checks overflow
    panics on [*deg -= 1]. *)
Theorem duplicate_image_underflows :
  @plan_waves ascii_platform map_to_list true
    [host "app" ["storage"] 85; host "app" ["storage"] 85; host "storage" [] 95]%Z = Panic.
Proof. by vm_compute. Qed.

(** a score that is not a number equals every other: the comparison is no total order. *)
Example nan_score_unordered :
  let fleet := [host "a" [] 90; (("b.qcow2", host_evidence "b" []), S754_nan); host "c" [] 95]%Z in
  total_on (wave_cmp (by_image (wave_members fleet)) (wave_scores fleet)) (images fleet) = false.
Proof. by vm_compute. Qed.

(** a group of [cycles] also holds images that are on no cycle: [c] depends on
    the cycle of [a] and [b], and no image depends on [c]. *)
Theorem cycle_group_has_dependents :
  ∃ plan, @plan_waves ascii_platform map_to_list true cyclic_fleet = Ok plan ∧
    wp_cycles plan = [["a.qcow2"; "b.qcow2"; "c.qcow2"]] ∧
    forallb (fun m => negb (existsb (String.eqb "c.qcow2") (wm_depends_on m)))
      (wp_members plan) = true.
Proof. eexists. split; [by vm_compute|]. split; by vm_compute. Qed.
