(* ===== verification/Fleet.v ===== *)
(** * Fleet analysis and quarantine

    [src/fleet/analyzer.rs], [src/fleet/report.rs], [src/fleet/quarantine.rs] and
    the part of [fleet_quarantine_command] ([src/cli/commands/assurance.rs]) that
    composes them: VMs with the same operating system and package fingerprint form
    a cluster, a VM alone in its cluster is a snowflake, and a fleet is split into
    the images that may be shipped and the quarantined ones.

    The SHA-256 of the [sha2] crate, as lower-case hexadecimal text, is the argument
    [digest]; the iteration order of a [HashMap] is the argument [iter].  An index
    out of range is [Panic]. *)
From stdpp Require Import base gmap strings list sorting.
From Stdlib Require Import ZArith Lia Ascii SpecFloat Sorted.
From S2P Require Import Prelude RustStr F64 Evidence Kahn.

(** ** Data *)
Record FleetFailedVm : Type := mk_FleetFailedVm { fv_image : string; fv_error : string }.
Record VmCluster : Type := mk_VmCluster {
  vc_id : nat;
  vc_count : nat;
  vc_label : string;
  vc_members : list string;
  vc_os : string;
  vc_kernel : string
}.
Record SnowflakeVm : Type := mk_SnowflakeVm {
  sf_image : string;
  sf_reason : string;
  sf_similarity : f64
}.
Record MigrationBlocker : Type := mk_MigrationBlocker {
  mb_image : string;
  mb_issue : string;
  mb_boot_score : f64
}.
Record FleetAnalysisReport : Type := mk_FleetAnalysisReport {
  fr_total_vms : nat;
  fr_clusters : list VmCluster;
  fr_snowflakes : list SnowflakeVm;
  fr_migration_blockers : list MigrationBlocker;
  fr_golden_image_candidates : list string;
  fr_failed_vms : list FleetFailedVm
}.
Record VmFingerprint : Type := mk_VmFingerprint {
  fp_image : string;
  fp_os_key : string;
  fp_pkg_hash : string;
  fp_boot_score : f64
}.

Inductive QuarantineReason : Set := LowScore | AnalyzerBlocker | CollectFailed.
#[export] Instance QuarantineReason_eq_dec : EqDecision QuarantineReason.
Proof. solve_decision. Defined.
Record QuarantineMember : Type := mk_QuarantineMember {
  qm_image : string;
  qm_score : option f64;
  qm_reasons : list QuarantineReason;
  qm_detail : option string
}.
Record QuarantineReport : Type := mk_QuarantineReport {
  qr_threshold : f64;
  qr_total : nat;
  qr_allowed : list string;
  qr_quarantined : list QuarantineMember
}.
Definition all_clear (self : QuarantineReport) : bool :=
  match qr_quarantined self with [] => true | _ => false end.

(** ** The analyzer *)

(** [l[0]]. *)
Definition index_0 {A} (l : list A) : outcome Empty_set A :=
  match l with x :: _ => Ok x | [] => Panic end.
Fixpoint outcome_map {E A B} (f : A → outcome E B) (l : list A) : outcome E (list B) :=
  match l with
  | [] => Ok []
  | x :: l => y ← f x; ys ← outcome_map f l; mret (y :: ys)
  end.

Section model.
Context `{P : Platform}.
Context (digest : string → string).
Abbreviation snapshot := (string * EvidenceSnapshot * f64)%type.
Implicit Types (snapshots : list snapshot).

Definition string_of_bytes (bs : list Z) : string :=
  String.string_of_list_ascii (map ascii_of_byte bs).
Definition fingerprint_packages (ev : EvidenceSnapshot) : string :=
  String.substring 0 12 (digest
    (string_of_bytes (le_encode 8 (pe_count (ev_packages ev)))
     +:+ join "" (take 20 (pe_sample_packages (ev_packages ev))))).
Definition fingerprint_of (s : snapshot) : VmFingerprint :=
  let '(path, ev, score) := s in
  mk_VmFingerprint path (os_distribution (ev_os ev) +:+ ":" +:+ os_version (ev_os ev))
    (fingerprint_packages ev) score.
Definition cluster_key (fp : VmFingerprint) : string := fp_os_key fp +:+ ":" +:+ fp_pkg_hash fp.
Definition cluster_map (fingerprints : list VmFingerprint) : adj_map :=
  foldl (fun m fp => push_entry m (cluster_key fp) (fp_image fp)) ∅ fingerprints.

Definition cluster_of snapshots (id : nat) (entry : string * list string)
    : outcome Empty_set VmCluster :=
  let '(key, members) := entry in
  first ← index_0 members;
  mret (mk_VmCluster id (length members)
    (if (1 <? length members)%nat
     then "Cluster " +:+ fmt_nat (id + 1) +:+ " (" +:+ fmt_nat (length members) +:+ " nodes)"
     else "Unique")
    members
    (match split_once ":"%char key with Some (os, _) => os | None => key end)
    (default "" (List.find (fun s => String.eqb s.1.1 first) snapshots
                 ≫= fun s => head (pe_kernels (ev_packages s.1.2))))).
(** [sort_by_key(|b| Reverse(b.count))]. *)
Definition by_count_desc (a b : VmCluster) : comparison := Nat.compare (vc_count b) (vc_count a).
Definition fleet_clusters (iter : adj_map → list (string * list string)) snapshots
    : outcome Empty_set (list VmCluster) :=
  let fingerprints := map fingerprint_of snapshots in
  clusters ← outcome_map (fun e => cluster_of snapshots e.1 e.2)
    (imap pair (iter (cluster_map fingerprints)));
  mret (sort_by by_count_desc clusters).

Definition is_snowflake (clusters : list VmCluster) (fp : VmFingerprint) : bool :=
  match List.find (fun c => existsb (String.eqb (fp_image fp)) (vc_members c)) clusters with
  | Some c => (vc_count c =? 1)%nat
  | None => true
  end.
Definition snowflake_of (fp : VmFingerprint) : SnowflakeVm :=
  mk_SnowflakeVm (fp_image fp) "No matching cluster — unique configuration" (f64_of_Z 0).
Definition low_score (fp : VmFingerprint) : bool := (fp_boot_score fp <? f64_of_Z 60)%f64.
Definition blocker_of (fp : VmFingerprint) : MigrationBlocker :=
  mk_MigrationBlocker (fp_image fp)
    ("Low boot assurance score: " +:+ fmt_f64_0 (fp_boot_score fp) +:+ "%") (fp_boot_score fp).
Definition golden_of (c : VmCluster) : outcome Empty_set string :=
  first ← index_0 (vc_members c);
  mret (first +:+ " (" +:+ fmt_nat (vc_count c) +:+ " identical nodes)").

Definition analyze_fleet (iter : adj_map → list (string * list string)) snapshots
    : outcome Empty_set FleetAnalysisReport :=
  let fingerprints := map fingerprint_of snapshots in
  clusters ← fleet_clusters iter snapshots;
  golden ← outcome_map golden_of (List.filter (fun c => (3 <=? vc_count c)%nat) clusters);
  mret (mk_FleetAnalysisReport (length snapshots) clusters
    (map snowflake_of (List.filter (is_snowflake clusters) fingerprints))
    (map blocker_of (List.filter low_score fingerprints)) golden []).

(** ** Quarantine *)
Definition blocker_for (blockers : list MigrationBlocker) (image : string)
    : option MigrationBlocker :=
  List.find (fun b => String.eqb (mb_image b) image) blockers.
(** one iteration of the loop over the scored images: allowed or quarantined. *)
Definition classify (blockers : list MigrationBlocker) (threshold : f64) (s : string * f64)
    : string + QuarantineMember :=
  let '(image, score) := s in
  let low := (score <? threshold)%f64 in
  let blocker := blocker_for blockers image in
  let reasons :=
    (if low then [LowScore] else []) ++
    (match blocker with Some _ => [AnalyzerBlocker] | None => [] end) in
  let detail :=
    (if low then ["score " +:+ fmt_f64_0 score +:+ " < " +:+ fmt_f64_0 threshold] else []) ++
    (match blocker with Some b => [mb_issue b] | None => [] end) in
  match reasons with
  | [] => inl image
  | _ => inr (mk_QuarantineMember image (Some score) reasons (Some (join "; " detail)))
  end.
Definition lefts {A B} (l : list (A + B)) : list A :=
  omap (fun x => match x with inl a => Some a | inr _ => None end) l.
Definition rights {A B} (l : list (A + B)) : list B :=
  omap (fun x => match x with inl _ => None | inr b => Some b end) l.
Definition failed_member (f : FleetFailedVm) : QuarantineMember :=
  mk_QuarantineMember (fv_image f) None [CollectFailed] (Some (fv_error f)).
Definition quarantine_fleet (scored : list (string * f64)) (analysis : FleetAnalysisReport)
    (failed : list FleetFailedVm) (threshold : f64) : QuarantineReport :=
  let classified := map (classify (fr_migration_blockers analysis) threshold) scored in
  mk_QuarantineReport threshold (length scored + length failed)
    (str_sort (lefts classified))
    (sort_by (fun a b => String.compare (qm_image a) (qm_image b))
       (rights classified ++ map failed_member failed)).

(** [fleet_quarantine_command], from the collected snapshots to the report. *)
Definition fleet_quarantine (iter : adj_map → list (string * list string)) (images : nat)
    snapshots (failed_vms : list FleetFailedVm) (threshold : f64)
    : outcome Empty_set QuarantineReport :=
  analysis ← analyze_fleet iter snapshots;
  let analysis :=
    mk_FleetAnalysisReport images (fr_clusters analysis) (fr_snowflakes analysis)
      (fr_migration_blockers analysis) (fr_golden_image_candidates analysis) failed_vms in
  let scored := map (fun s => (s.1.1, s.2)) snapshots in
  mret (quarantine_fleet scored analysis failed_vms threshold).
End model.

(** ** Clusters *)
Section lemmas.
Context `{P : Platform}.
Context (digest : string → string).
Abbreviation snapshot := (string * EvidenceSnapshot * f64)%type.
Implicit Types (snapshots : list snapshot) (fps : list VmFingerprint).

Lemma outcome_map_total {E A B} (f : A → outcome E B) l :
  (∀ x, x ∈ l → ∃ y, f x = Ok y) → ∃ ys, outcome_map f l = Ok ys ∧
    Forall2 (fun x y => f x = Ok y) l ys.
Proof.
  induction l as [|x l IH]; intros Hf; [by exists []|].
  destruct (Hf x) as [y Hy]; [by left|].
  destruct IH as (ys & Hys & Hall); [intros z Hz; apply Hf; by right|].
  exists (y :: ys). cbn. rewrite Hy. cbn. rewrite Hys. split; [done|by constructor].
Qed.

(** the images whose key is [k], in order. *)
Definition with_key (k : string) fps : list string :=
  map fp_image (List.filter (fun fp => String.eqb (cluster_key fp) k) fps).

Lemma with_key_app k fps fp :
  with_key k (fps ++ [fp]) =
  with_key k fps ++ if String.eqb (cluster_key fp) k then [fp_image fp] else [].
Proof.
  unfold with_key. rewrite List.filter_app, map_app. f_equal. cbn. by case_match.
Qed.

Lemma cluster_map_app fps fp :
  cluster_map (fps ++ [fp]) = push_entry (cluster_map fps) (cluster_key fp) (fp_image fp).
Proof. unfold cluster_map. by rewrite foldl_app. Qed.

Lemma cluster_map_lookup fps k :
  cluster_map fps !! k = match with_key k fps with [] => None | l => Some l end.
Proof.
  induction fps as [|fp fps IH] using rev_ind; [done|].
  rewrite cluster_map_app, with_key_app. unfold push_entry.
  destruct (String.eqb_spec (cluster_key fp) k) as [<-|Hne].
  - rewrite lookup_insert_eq, IH. by destruct (with_key _ fps).
  - rewrite lookup_insert_ne, app_nil_r by done. exact IH.
Qed.

Lemma cluster_map_Some fps k l :
  cluster_map fps !! k = Some l ↔ l = with_key k fps ∧ l ≠ [].
Proof. rewrite cluster_map_lookup. destruct (with_key k fps); naive_solver. Qed.

Lemma concat_map_snd_insert (m : adj_map) k x :
  concat (map snd (map_to_list (push_entry m k x))) ≡ₚ x :: concat (map snd (map_to_list m)).
Proof.
  unfold push_entry. destruct (m !! k) as [l|] eqn:E; cbn [default].
  - rewrite <-insert_delete_eq. rewrite map_to_list_insert by apply lookup_delete_eq.
    rewrite <-(map_to_list_delete m k l E). cbn. rewrite <-app_assoc.
    cbn. by rewrite <-Permutation_middle.
  - rewrite map_to_list_insert by done. done.
Qed.

Lemma concat_Permutation {A} (l l' : list (list A)) : l ≡ₚ l' → concat l ≡ₚ concat l'.
Proof.
  induction 1 as [|x l l' _ IH|x y l|l1 l2 l3 _ IH1 _ IH2]; cbn.
  - done.
  - by rewrite IH.
  - by rewrite !app_assoc, (Permutation_app_comm x y).
  - by rewrite IH1.
Qed.

Lemma cluster_map_partition fps :
  concat (map snd (map_to_list (cluster_map fps))) ≡ₚ map fp_image fps.
Proof.
  induction fps as [|fp fps IH] using rev_ind; [done|].
  rewrite cluster_map_app, concat_map_snd_insert, IH, map_app. cbn.
  by rewrite Permutation_cons_append.
Qed.

(** what the cluster list is, whatever the iteration order. *)
Record clusters_ok snapshots (cs : list VmCluster) : Prop := mk_clusters_ok {
  co_members : map vc_members cs ≡ₚ
    map snd (map_to_list (cluster_map (map (fingerprint_of digest) snapshots)));
  co_count : ∀ c, c ∈ cs → vc_count c = length (vc_members c);
  co_sorted : StronglySorted (fun a b => vc_count b ≤ vc_count a) cs
}.

Context (iter : adj_map → list (string * list string)).
Hypothesis iter_entries : ∀ m, iter m ≡ₚ map_to_list m.

Lemma cluster_of_ok snapshots e :
  e.2.2 ≠ [] → ∃ c, cluster_of snapshots e.1 e.2 = Ok c ∧
    vc_members c = e.2.2 ∧ vc_count c = length e.2.2.
Proof. destruct e as [id [k [|x l]]]; [done|]. intros _. by eexists. Qed.

Lemma by_count_desc_le a b : by_count_desc a b ≠ Gt ↔ vc_count b ≤ vc_count a.
Proof. unfold by_count_desc. by rewrite Nat.compare_le_iff. Qed.

Lemma fleet_clusters_ok snapshots :
  ∃ cs, fleet_clusters digest iter snapshots = Ok cs ∧ clusters_ok snapshots cs.
Proof.
  unfold fleet_clusters. set (m := cluster_map _). set (es := imap pair (iter m)).
  assert (∀ e, e ∈ es → m !! e.2.1 = Some e.2.2) as Hm.
  { intros [i [k l]] He. apply elem_of_lookup_imap in He as (j & [k' l'] & [= -> -> ->] & Hj).
    apply list_elem_of_lookup_2 in Hj. rewrite iter_entries in Hj. by apply elem_of_map_to_list. }
  assert (map snd es = iter m) as Hes.
  { unfold es. change (snd <$> imap pair (iter m) = iter m). rewrite fmap_imap.
    transitivity (imap (const id) (iter m)); [done|]. rewrite (imap_const id). apply list_fmap_id. }
  destruct (outcome_map_total (fun e => cluster_of snapshots e.1 e.2) es) as (cs & -> & Hall).
  { intros e He. destruct (cluster_of_ok snapshots e) as (c & ? & _); [|by eexists].
    by apply Hm, cluster_map_Some in He as [_ ?]. }
  exists (sort_by by_count_desc cs). split; [done|].
  assert (map vc_members cs = map snd (map snd es) ∧
    ∀ c, c ∈ cs → vc_count c = length (vc_members c)) as [Hmem Hcount].
  { clear Hes. revert Hm. induction Hall as [|e c es' cs' Hc _ IH]; intros Hm;
      [split; [done|by intros c ?%not_elem_of_nil]|].
    destruct IH as [IH1 IH2]; [intros; apply Hm; by right|].
    destruct (cluster_of_ok snapshots e) as (c' & Hc' & Hmb & Hct).
    { by eapply cluster_map_Some, Hm; left. }
    rewrite Hc in Hc'. injection Hc' as <-. cbn. split; [by rewrite Hmb, IH1|].
    intros c0 [->|Hin]%elem_of_cons; [congruence|by apply IH2]. }
  split.
  - rewrite (Permutation_map vc_members (sort_by_Permutation _ cs)), Hmem, Hes.
    by apply Permutation_map.
  - intros c Hc. rewrite sort_by_Permutation in Hc. by apply Hcount.
  - assert (StronglySorted (fun a b => by_count_desc a b ≠ Gt) (sort_by by_count_desc cs)) as Hs.
    { apply (sort_by_sorted _ (fun _ => True)).
    + intros a b _ _ Hab%Nat.compare_gt_iff. apply by_count_desc_le. lia.
    + intros a b c _ _ _. rewrite !by_count_desc_le. lia.
    + by apply Forall_true. }
    induction Hs as [|a l Hs IH Ha]; constructor; [done|].
    eapply Forall_impl; [exact Ha|]. intros b. apply by_count_desc_le.
Qed.

Section clusters.
Context snapshots (cs : list VmCluster).
Hypothesis Hcs : clusters_ok snapshots cs.
Let fps := map (fingerprint_of digest) snapshots.

Lemma cluster_members c :
  c ∈ cs → ∃ k, vc_members c = with_key k fps ∧ vc_members c ≠ [].
Proof.
  intros Hc. assert (vc_members c ∈ map vc_members cs) as Hin
    by (apply list_elem_of_fmap; by exists c).
  rewrite (co_members _ _ Hcs) in Hin. apply list_elem_of_fmap in Hin as ([k l] & Hl & Hin).
  exists k. rewrite Hl. by apply cluster_map_Some, elem_of_map_to_list.
Qed.

Lemma cluster_exists fp :
  fp ∈ fps → ∃ c, c ∈ cs ∧ vc_members c = with_key (cluster_key fp) fps.
Proof.
  intros Hfp. assert (with_key (cluster_key fp) fps ∈ map vc_members cs) as Hin.
  { rewrite (co_members _ _ Hcs). apply list_elem_of_fmap.
    exists (cluster_key fp, with_key (cluster_key fp) fps). split; [done|].
    apply elem_of_map_to_list, cluster_map_Some. split; [done|].
    intros Hn. assert (fp_image fp ∈ with_key (cluster_key fp) fps) as Hi.
    { apply list_elem_of_fmap. exists fp. split; [done|]. apply elem_of_filterb.
      by rewrite String.eqb_refl. }
    rewrite Hn in Hi. by apply not_elem_of_nil in Hi. }
  apply list_elem_of_fmap in Hin as (c & Hc & Hin). by exists c.
Qed.

Hypothesis Hnd : NoDup (map fp_image fps).

Lemma in_with_key fp k : fp ∈ fps → fp_image fp ∈ with_key k fps ↔ cluster_key fp = k.
Proof.
  intros Hfp. unfold with_key. rewrite list_elem_of_fmap. setoid_rewrite elem_of_filterb.
  setoid_rewrite String.eqb_eq. split; [|by exists fp].
  intros (fp' & Hi & Hin & <-). f_equal.
  by eapply (NoDup_fmap_unique fp_image fps).
Qed.

Lemma with_key_unique fp :
  fp ∈ fps → length (with_key (cluster_key fp) fps) = 1 ↔
  ∀ fp', fp' ∈ fps → cluster_key fp' = cluster_key fp → fp' = fp.
Proof.
  intros Hfp. set (l := with_key _ _). assert (NoDup l) as Hl.
  { unfold l, with_key. eapply sublist_NoDup; [exact Hnd|].
    clear. induction fps as [|a l IH]; [done|]. cbn. case_match; by constructor. }
  assert (fp_image fp ∈ l) as Hin by (by apply in_with_key). split.
  - intros H1 fp' Hfp' Hk. apply (NoDup_fmap_unique fp_image fps); [done..|].
    apply in_with_key in Hk; [|done]. fold l in Hk.
    destruct l as [|x [|]]; [done| |done]. apply list_elem_of_singleton in Hin, Hk. congruence.
  - intros Hu. assert (∀ x, x ∈ l → x = fp_image fp) as Hall.
    { intros x Hx. apply list_elem_of_fmap in Hx as (fp' & -> & Hx).
      apply elem_of_filterb in Hx as [Hx Hk%String.eqb_eq]. by rewrite (Hu fp'). }
    destruct l as [|x [|y l]]; [by apply not_elem_of_nil in Hin|done|].
    apply NoDup_cons in Hl as [Hx _]. destruct Hx.
    rewrite (Hall x), (Hall y) by (by repeat constructor). by left.
Qed.

Lemma is_snowflake_iff fp :
  fp ∈ fps → is_snowflake cs fp = true ↔
  ∀ fp', fp' ∈ fps → cluster_key fp' = cluster_key fp → fp' = fp.
Proof.
  intros Hfp. unfold is_snowflake.
  destruct (List.find _ cs) as [c|] eqn:E.
  - apply find_some in E as [Hc Hm%existsb_elem_of]. rewrite <-list_elem_of_In in Hc.
    destruct Hm as (x & Hx & <-%String.eqb_eq). rewrite Nat.eqb_eq, (co_count _ _ Hcs c Hc).
    destruct (cluster_members c Hc) as (k & Hk & _). rewrite Hk in Hx |- *.
    apply in_with_key in Hx as <-; [|done]. by apply with_key_unique.
  - destruct (cluster_exists fp Hfp) as (c & Hc & Hm).
    rewrite list_elem_of_In in Hc. apply (find_none _ _ E) in Hc.
    apply not_true_iff_false in Hc as []. apply existsb_elem_of. exists (fp_image fp).
    rewrite String.eqb_refl, Hm. split; [|done]. by apply in_with_key.
Qed.
End clusters.

(** the analysis always returns. *)
Lemma analyze_fleet_ok snapshots :
  ∃ cs golden, clusters_ok snapshots cs ∧
    analyze_fleet digest iter snapshots =
    Ok (mk_FleetAnalysisReport (length snapshots) cs
      (map snowflake_of (List.filter (is_snowflake cs) (map (fingerprint_of digest) snapshots)))
      (map blocker_of (List.filter low_score (map (fingerprint_of digest) snapshots)))
      golden []).
Proof.
  destruct (fleet_clusters_ok snapshots) as (cs & Hcs & Hok).
  destruct (outcome_map_total golden_of (List.filter (fun c => (3 <=? vc_count c)%nat) cs))
    as (golden & Hg & _).
  { intros c [Hc _]%elem_of_filterb. destruct (cluster_members _ _ Hok c Hc) as (_ & _ & Hn).
    unfold golden_of. destruct (vc_members c); [done|]. by eexists. }
  exists cs, golden. split; [done|]. unfold analyze_fleet. rewrite Hcs.
  unfold mbind, outcome_bind. by rewrite Hg.
Qed.

Lemma fingerprint_images snapshots :
  map fp_image (map (fingerprint_of digest) snapshots) = map (fun s => s.1.1) snapshots.
Proof. rewrite map_map. apply map_ext. by intros [[]]. Qed.
End lemmas.

(** ** Quarantine *)
Section quarantine.
Context `{P : Platform}.
Context (digest : string → string).
Abbreviation snapshot := (string * EvidenceSnapshot * f64)%type.
Implicit Types (snapshots : list snapshot).

Lemma lefts_rights_images blockers threshold scored :
  lefts (map (classify blockers threshold) scored)
    ++ map qm_image (rights (map (classify blockers threshold) scored)) ≡ₚ scored.*1.
Proof.
  induction scored as [|[image score] scored IH]; [done|].
  cbn -[classify]. assert (classify blockers threshold (image, score) = inl image ∨
    ∃ m, classify blockers threshold (image, score) = inr m ∧ qm_image m = image) as Hc.
  { unfold classify. case_match; [by left|right; by eexists]. }
  destruct Hc as [->|(m & -> & Hm)]; cbn.
  - by constructor.
  - rewrite <-Permutation_middle, Hm. by constructor.
Qed.

Lemma blocker_for_iff snapshots image :
  is_Some (blocker_for (map blocker_of (List.filter low_score
    (map (fingerprint_of digest) snapshots))) image) ↔
  ∃ ev score, (image, ev, score) ∈ snapshots ∧ (score <? f64_of_Z 60)%f64 = true.
Proof.
  unfold blocker_for. split.
  - intros [b [Hb Hi%String.eqb_eq]%find_some]. rewrite <-list_elem_of_In in Hb.
    apply list_elem_of_fmap in Hb as (fp & -> & Hb).
    apply elem_of_filterb in Hb as [Hb Hlow].
    apply list_elem_of_fmap in Hb as ([[p ev] sc] & -> & Hb). cbn in Hi. subst p. eauto.
  - intros (ev & score & Hin & Hlow). destruct (List.find _ _) eqn:E; [done|exfalso].
    pose proof (find_none _ _ E (blocker_of (fingerprint_of digest (image, ev, score)))) as Hn.
    change (In (blocker_of (fingerprint_of digest (image, ev, score)))
      (map blocker_of (List.filter low_score (map (fingerprint_of digest) snapshots))) →
      String.eqb image image = false) in Hn.
    rewrite String.eqb_refl in Hn. enough (true = false) by done. apply Hn.
    apply list_elem_of_In, list_elem_of_fmap. eexists. split; [reflexivity|].
    apply elem_of_filterb. split; [|done]. by apply list_elem_of_fmap_2.
Qed.

Lemma classify_left blockers threshold image score x :
  classify blockers threshold (image, score) = inl x ↔
  x = image ∧ (score <? threshold)%f64 = false ∧ ¬ is_Some (blocker_for blockers image).
Proof.
  unfold classify. destruct (score <? threshold)%f64, (blocker_for blockers image) as [b|];
    cbn; naive_solver.
Qed.

Lemma elem_of_lefts {A B} (l : list (A + B)) a : a ∈ lefts l ↔ inl a ∈ l.
Proof.
  unfold lefts. rewrite list_elem_of_omap. split; [|by exists (inl a)].
  intros ([a'|b] & Hin & [= ->]). done.
Qed.
Lemma elem_of_rights {A B} (l : list (A + B)) b : b ∈ rights l ↔ inr b ∈ l.
Proof.
  unfold rights. rewrite list_elem_of_omap. split; [|by exists (inr b)].
  intros ([a|b'] & Hin & [= ->]). done.
Qed.

Lemma classify_right blockers threshold image score m :
  classify blockers threshold (image, score) = inr m →
  qm_image m = image ∧ qm_score m = Some score ∧
  (LowScore ∈ qm_reasons m ↔ (score <? threshold)%f64 = true) ∧
  (AnalyzerBlocker ∈ qm_reasons m ↔ is_Some (blocker_for blockers image)) ∧
  (CollectFailed ∉ qm_reasons m).
Proof.
  unfold classify. destruct (score <? threshold)%f64, (blocker_for blockers image) as [b|];
    cbn; intros [= <-]; cbn; split_and!; try done; rewrite ?elem_of_cons; set_solver.
Qed.

(** the images and scores with a low score in the fleet. *)
Definition held_back snapshots (image : string) : Prop :=
  ∃ ev score, (image, ev, score) ∈ snapshots ∧ (score <? f64_of_Z 60)%f64 = true.

Context (iter : adj_map → list (string * list string)).

(** the quarantine command never panics and splits the fleet exactly: the
    allowed and the quarantined images together are the scored and the failed ones,
    each as often as it was listed; an image is allowed precisely when one of its
    scores is not below the threshold and none of them is below 60; and a
    quarantined member lists exactly the reasons that hold for it. *)
Theorem quarantine_exact images snapshots failed threshold :
  (∀ m, iter m ≡ₚ map_to_list m) →
  ∃ rep, fleet_quarantine digest iter images snapshots failed threshold = Ok rep ∧
    qr_total rep = length snapshots + length failed ∧
    qr_allowed rep ++ map qm_image (qr_quarantined rep)
      ≡ₚ map (fun s => s.1.1) snapshots ++ map fv_image failed ∧
    StronglySorted (fun s t => String.leb s t = true) (qr_allowed rep) ∧
    (∀ image, image ∈ qr_allowed rep ↔
       (∃ ev score, (image, ev, score) ∈ snapshots ∧ (score <? threshold)%f64 = false) ∧
       ¬ held_back snapshots image) ∧
    (∀ m, m ∈ qr_quarantined rep →
       (∃ ev score, (qm_image m, ev, score) ∈ snapshots ∧ qm_score m = Some score ∧
          (LowScore ∈ qm_reasons m ↔ (score <? threshold)%f64 = true) ∧
          (AnalyzerBlocker ∈ qm_reasons m ↔ held_back snapshots (qm_image m)) ∧
          (CollectFailed ∉ qm_reasons m)) ∨
       (∃ error, mk_FleetFailedVm (qm_image m) error ∈ failed ∧ qm_score m = None ∧
          qm_reasons m = [CollectFailed])).
Proof.
  intros Hiter. destruct (analyze_fleet_ok digest iter Hiter snapshots) as (cs & golden & _ & Ha).
  unfold fleet_quarantine. rewrite Ha. eexists. split; [reflexivity|].
  cbn [qr_total qr_allowed qr_quarantined quarantine_fleet fr_migration_blockers].
  set (bl := map blocker_of _). set (sc := map _ snapshots).
  split_and!.
  - unfold sc. by rewrite length_map.
  - rewrite str_sort_Permutation, (Permutation_map qm_image (sort_by_Permutation _ _)).
    rewrite map_app, app_assoc, (lefts_rights_images bl threshold sc). unfold sc.
    apply Permutation_app; [|by rewrite map_map].
    change (map fst (map (fun s : snapshot => (s.1.1, s.2)) snapshots)
      ≡ₚ map (fun s => s.1.1) snapshots). by rewrite map_map.
  - apply str_sort_sorted.
  - intros image. rewrite str_sort_Permutation, elem_of_lefts.
    unfold held_back. rewrite <-blocker_for_iff. fold bl. split.
    + intros ([i s] & Hc & Hin)%list_elem_of_fmap. symmetry in Hc.
      apply classify_left in Hc as (-> & Ht & Hb).
      apply list_elem_of_fmap in Hin as ([[p ev] q] & [= -> ->] & Hin). eauto.
    + intros [(ev & score & Hin & Ht) Hb]. apply list_elem_of_fmap.
      exists (image, score). split; [symmetry; by apply classify_left|].
      apply list_elem_of_fmap. by exists (image, ev, score).
  - intros m. rewrite sort_by_Permutation, elem_of_app, elem_of_rights.
    intros [Hin|Hin]; apply list_elem_of_fmap in Hin.
    + left. destruct Hin as ([i s] & Hc & Hin). symmetry in Hc.
      apply classify_right in Hc as (-> & -> & Hlow & Hbl & Hcf).
      apply list_elem_of_fmap in Hin as ([[p ev] q] & [= -> ->] & Hin).
      exists ev, q. unfold held_back. rewrite <-blocker_for_iff. done.
    + right. destruct Hin as ([i e] & -> & Hin). by exists e.
Qed.

(** What makes two VMs alike: the distribution, the version, and the first twelve
    hexadecimal digits of the digest of the number of packages (eight bytes) and the names
    of the first twenty samples. *)
Definition package_text (s : snapshot) : string :=
  string_of_bytes (le_encode 8 (pe_count (ev_packages s.1.2)))
  +:+ join "" (take 20 (pe_sample_packages (ev_packages s.1.2))).
Definition alike (s s' : snapshot) : Prop :=
  os_distribution (ev_os s.1.2) = os_distribution (ev_os s'.1.2) ∧
  os_version (ev_os s.1.2) = os_version (ev_os s'.1.2) ∧
  String.substring 0 12 (digest (package_text s)) = String.substring 0 12 (digest (package_text s')).
Definition colon_free (s : snapshot) : Prop :=
  str_forall (fun c => negb (Ascii.eqb c ":"%char)) (os_distribution (ev_os s.1.2)) = true.

Lemma first_colon d d' v v' :
  str_forall (fun c => negb (Ascii.eqb c ":"%char)) d = true →
  str_forall (fun c => negb (Ascii.eqb c ":"%char)) d' = true →
  d +:+ (":" +:+ v) = d' +:+ (":" +:+ v') → d = d' ∧ v = v'.
Proof.
  revert d'. induction d as [|c d IH]; intros [|c' d'] Hd Hd' E.
  - split; [done|]. exact (inj (String.append ":") v v' E).
  - exfalso. by injection E as <- _.
  - exfalso. by injection E as -> _.
  - injection E as <- E. cbn in Hd, Hd'. apply andb_prop in Hd as [_ Hd], Hd' as [_ Hd'].
    by destruct (IH d' Hd Hd' E) as [-> ->].
Qed.
Lemma substring_prefix_length n s : n ≤ String.length s → String.length (String.substring 0 n s) = n.
Proof. revert s. induction n as [|n IH]; intros [|c s] H; cbn in *; try lia. rewrite IH; lia. Qed.
Lemma same_key_alike s s' :
  (∀ t, 12 ≤ String.length (digest t)) → colon_free s → colon_free s' →
  cluster_key (fingerprint_of digest s) = cluster_key (fingerprint_of digest s') ↔ alike s s'.
Proof.
  intros Hlen Hs Hs'. destruct s as [[p ev] q], s' as [[p' ev'] q'].
  unfold cluster_key, alike, fingerprint_of, fingerprint_packages, package_text. cbn [fp_os_key fp_pkg_hash fst snd].
  split; [|by intros (-> & -> & ->)]. rewrite !text_app_assoc.
  set (h := String.substring 0 12 _). set (h' := String.substring 0 12 _). intros E.
  apply first_colon in E as [Hd E]; [|done|done].
  apply same_length_tails in E as [Hv Hh]; [|rewrite !text_length_app; unfold h, h'; by rewrite !substring_prefix_length].
  split_and!; [done|done|]. exact (inj (String.append ":") h h' Hh).
Qed.

(** C34: with a digest of at least twelve characters (that of SHA-256 has 64) the analyzer
    never panics, whatever the fleet and the iteration order of its map.  For a fleet of
    distinct images whose distributions contain no colon: the clusters partition the fleet, each counts its members, they
    are in descending order of size, two VMs are in the same cluster precisely when they are
    [alike] (same distribution, same version, and the same first twelve characters of the
    digest of their package count and first twenty package names), and the snowflakes are
    exactly the VMs that no other VM is like. *)
Theorem fleet_analysis_exact snapshots :
  (∀ m, iter m ≡ₚ map_to_list m) → (∀ t, 12 ≤ String.length (digest t)) →
  ∃ r, analyze_fleet digest iter snapshots = Ok r ∧
    (NoDup (map (fun s => s.1.1) snapshots) → Forall colon_free snapshots →
     concat (map vc_members (fr_clusters r)) ≡ₚ map (fun s => s.1.1) snapshots ∧
     (∀ c, c ∈ fr_clusters r → vc_count c = length (vc_members c) ∧ vc_members c ≠ []) ∧
     StronglySorted (fun a b => vc_count b ≤ vc_count a) (fr_clusters r) ∧
     (∀ c s s', c ∈ fr_clusters r → s ∈ snapshots → s' ∈ snapshots →
        s.1.1 ∈ vc_members c → s'.1.1 ∈ vc_members c ↔ alike s' s) ∧
     (∀ s, s ∈ snapshots →
        s.1.1 ∈ map sf_image (fr_snowflakes r) ↔
        ∀ s', s' ∈ snapshots → alike s' s → s' = s)).
Proof.
  intros Hiter Hlen. destruct (analyze_fleet_ok digest iter Hiter snapshots) as (cs & golden & Hcs & Ha).
  eexists. split; [exact Ha|]. intros Hnd Hcf. rewrite Forall_forall in Hcf. cbn [fr_clusters fr_snowflakes].
  pose proof Hnd as Hnd'. rewrite <-(fingerprint_images digest) in Hnd'.
  set (fps := map (fingerprint_of digest) snapshots) in *.
  assert (∀ s, s ∈ snapshots → fingerprint_of digest s ∈ fps) as Hfp
    by (intros s Hs; apply list_elem_of_fmap; by exists s).
  assert (∀ s, fp_image (fingerprint_of digest s) = s.1.1) as Him by (by intros [[]]).
  split_and!.
  - rewrite <-(fingerprint_images digest). fold fps. rewrite <-cluster_map_partition.
    apply concat_Permutation, (co_members _ _ _ Hcs).
  - intros c Hc. split; [by apply (co_count _ _ _ Hcs)|].
    by destruct (cluster_members _ _ _ Hcs c Hc) as (_ & _ & ?).
  - apply (co_sorted _ _ _ Hcs).
  - intros c s s' Hc Hs Hs' Hin. destruct (cluster_members _ _ _ Hcs c Hc) as (k & Hk & _).
    rewrite <-same_key_alike by auto. rewrite Hk, <-Him in Hin |- *.
    apply in_with_key in Hin as <-; [|done|by apply Hfp]. apply in_with_key; [done|by apply Hfp].
  - intros s Hs. rewrite map_map. cbn.
    transitivity (is_snowflake cs (fingerprint_of digest s) = true).
    + rewrite list_elem_of_fmap. setoid_rewrite elem_of_filterb. split.
      * intros (fp & Hi & Hin & Hsn). cbn in Hi. rewrite <-Him in Hi.
        by rewrite (NoDup_fmap_unique fp_image fps (fingerprint_of digest s) fp) by auto.
      * intros Hsn. exists (fingerprint_of digest s). cbn. by rewrite Him; auto.
    + rewrite (is_snowflake_iff _ _ _ Hcs) by auto. split.
      * intros Hu s' Hs' Hk. rewrite <-same_key_alike in Hk by auto. eapply (NoDup_fmap_unique (fun s => s.1.1)); [exact Hnd|done..|].
        by rewrite <-!Him, (Hu (fingerprint_of digest s')) by auto.
      * intros Hu fp' Hin Hk. apply list_elem_of_fmap in Hin as (s' & -> & Hs').
        rewrite (Hu s'); [done|done|]. apply same_key_alike; auto.
Qed.
End quarantine.

(** ** A concrete fleet *)
Definition vm_evidence (distribution : string) : @EvidenceSnapshot ascii_platform :=
  @blank_snapshot ascii_platform
    (mk_OsEvidence "linux" distribution "9" "x86_64" "vm" "systemd" "dnf")
    default_StorageEvidence default_BootEvidence default_VmToolsEvidence None None None.
Definition mixed_fleet : list (string * @EvidenceSnapshot ascii_platform * f64) :=
  [("a.qcow2", vm_evidence "rhel", f64_of_Z 90); ("b.qcow2", vm_evidence "rhel", f64_of_Z 70);
   ("c.qcow2", vm_evidence "debian", f64_of_Z 40)]%Z.
Definition lost_vms : list FleetFailedVm := [mk_FleetFailedVm "d.qcow2" "cannot open"].
Definition mixed_quarantine : outcome Empty_set QuarantineReport :=
  @fleet_quarantine ascii_platform id map_to_list 4 mixed_fleet lost_vms (f64_of_Z 80).

Lemma quarantine_exact_witness :
  ∃ rep, mixed_quarantine = Ok rep ∧ qr_total rep = 4 ∧
    ∀ image, image ∈ qr_allowed rep ↔
      (∃ ev score, (image, ev, score) ∈ mixed_fleet ∧ (score <? f64_of_Z 80)%f64 = false) ∧
      ¬ held_back mixed_fleet image.
Proof.
  destruct (@quarantine_exact ascii_platform id map_to_list 4 mixed_fleet lost_vms
    (f64_of_Z 80) (fun _ => reflexivity _)) as (rep & Hr & Ht & _ & _ & Ha & _).
  exists rep. split; [exact Hr|]. split; [exact Ht|exact Ha].
Defined.

Lemma mixed_fleet_distinct : NoDup (map (fun s => s.1.1) mixed_fleet).
Proof. by refine (bool_decide_eq_true_1 _ _); vm_compute. Qed.

Definition long_digest (s : string) : string := "0123456789abcdef" +:+ s.
Lemma fleet_analysis_exact_witness :
  ∃ r, @analyze_fleet ascii_platform long_digest map_to_list mixed_fleet = Ok r ∧
    concat (map vc_members (fr_clusters r)) ≡ₚ ["a.qcow2"; "b.qcow2"; "c.qcow2"].
Proof.
  destruct (@fleet_analysis_exact ascii_platform long_digest map_to_list mixed_fleet
    (fun _ => reflexivity _) ltac:(intros t; unfold long_digest; rewrite text_length_app; cbn; lia))
    as (r & Hr & Hp).
  exists r. split; [exact Hr|].
  exact (proj1 (Hp mixed_fleet_distinct
    ltac:(unfold mixed_fleet; repeat constructor))).
Defined.

Example mixed_fleet_split :
  (fun rep => (qr_allowed rep, map (fun m => (qm_image m, qm_reasons m)) (qr_quarantined rep)))
    <$> mixed_quarantine =
  Ok (["a.qcow2"],
      [("b.qcow2", [LowScore]); ("c.qcow2", [LowScore; AnalyzerBlocker]);
       ("d.qcow2", [CollectFailed])]).
Proof. by vm_compute. Qed.
