(* ===== verification/FixPlan.v ===== *)
(** * Fix plans

    [src/cli/plan/types.rs] and [src/cli/plan/topo_sort.rs]: the operations of a
    fix plan and the order in which the executors run them.  The time stamp of a
    plan is its number of seconds.  The sorter's hash-map iteration order is the
    argument [iter], as in [Waves]; running out of fuel is [Panic]. *)
From stdpp Require Import base gmap strings list.
From Stdlib Require Import ZArith Lia Ascii.
From S2P Require Import Prelude RustStr Kahn.

(** ** Data *)
Inductive Priority : Set :=
  PrCritical | PrHigh | PrMedium | PrLow | PrInfo.
#[export] Instance Priority_eq_dec : EqDecision Priority.
Proof. solve_decision. Defined.

Record FileWrite : Type := mk_FileWrite {
  fw_path : string;
  fw_content : string;
  fw_mode : option string
}.
Record Symlink : Type := mk_Symlink { sl_target : string; sl_link_path : string }.
Record FileDelete : Type := mk_FileDelete { fd_path : string; fd_missing_ok : bool }.
Record DriverInject : Type := mk_DriverInject {
  di_inf_path : string;
  di_driver_name : string;
  di_boot_critical : bool;
  di_source : string;
  di_host_dir : option string
}.
Record FileChange : Type := mk_FileChange {
  fc_line : nat;
  fc_before : string;
  fc_after : string;
  fc_context : option string
}.
Record FileEdit : Type := mk_FileEdit {
  fed_file : string;
  fed_backup : bool;
  fed_changes : list FileChange
}.
Record PackageInstall : Type := mk_PackageInstall {
  pi_packages : list string;
  pi_estimated_size : option string;
  pi_host_cache : option string
}.
Record ServiceOperation : Type := mk_ServiceOperation {
  so_service : string;
  so_state : option string;
  so_start : bool;
  so_restart : bool
}.
Record SELinuxMode : Type := mk_SELinuxMode {
  sm_file : string;
  sm_current : string;
  sm_target : string;
  sm_warning : option string
}.
Record RegistryEdit `{Platform} : Type := mk_RegistryEdit {
  re_key : string;
  re_value : string;
  re_current_data : json_value;
  re_new_data : json_value;
  re_data_type : string
}.
Record CommandExec : Type := mk_CommandExec {
  cx_command : string;
  cx_expected_exit : Z;
  cx_timeout : option Z;
  cx_interpreter : option string
}.
Record FileCopy : Type := mk_FileCopy {
  cp_source : string;
  cp_destination : string;
  cp_backup : bool
}.
Record DirectoryCreate : Type := mk_DirectoryCreate { dc_path : string; dc_mode : option string }.
Record FilePermissions : Type := mk_FilePermissions {
  fp_path : string;
  fp_mode : string;
  fp_owner : option string;
  fp_group : option string
}.

Inductive OperationType `{Platform} : Type :=
  | OpFileEdit (fe : FileEdit)
  | OpPackageInstall (pi : PackageInstall)
  | OpServiceOperation (so : ServiceOperation)
  | OpSelinuxMode (sm : SELinuxMode)
  | OpRegistryEdit (re : RegistryEdit)
  | OpCommandExec (ce : CommandExec)
  | OpFileCopy (fc : FileCopy)
  | OpDirectoryCreate (dc : DirectoryCreate)
  | OpFilePermissions (fp : FilePermissions)
  | OpDriverInject (di : DriverInject)
  | OpFileWrite (fw : FileWrite)
  | OpSymlink (sl : Symlink)
  | OpFileDelete (fd : FileDelete).

Record ValidationCheck : Type := mk_ValidationCheck {
  vc_command : string;
  vc_expected_exit : Z;
  vc_expected_output : option string
}.

Inductive UndoInfo `{Platform} : Type :=
  | UndoFileChanges (changes : list FileChange)
  | UndoCommand (command : string)
  | UndoData (data : gmap string json_value).

Record Operation `{Platform} : Type := mk_Operation {
  op_id : string;
  op_type : OperationType;
  op_priority : Priority;
  op_description : string;
  op_risk : Priority;
  op_reversible : bool;
  op_depends_on : list string;
  op_validation : option ValidationCheck;
  op_undo : option UndoInfo
}.

Record PlanMetadata : Type := mk_PlanMetadata {
  pm_author : string;
  pm_review_required : bool;
  pm_reversible : bool;
  pm_description : option string;
  pm_tags : list string
}.

Inductive PostApplyAction : Type :=
  | ServiceRestart (services : list string)
  | Validation (command : string) (expected_output : option string)
  | Message (message : string)
  | RebootRequired (reason : string).

Record FixPlan `{Platform} : Type := mk_FixPlan {
  pl_version : string;
  pl_vm : string;
  pl_generated : Z;
  pl_profile : string;
  pl_overall_risk : string;
  pl_estimated_duration : string;
  pl_metadata : PlanMetadata;
  pl_operations : list Operation;
  pl_post_apply : list PostApplyAction
}.

(** the derived [Ord]: declaration order. *)
Definition priority_rank (p : Priority) : Z :=
  match p with
  | PrCritical => 0 | PrHigh => 1 | PrMedium => 2 | PrLow => 3 | PrInfo => 4
  end.
Definition Priority_as_str (p : Priority) : string :=
  match p with
  | PrCritical => "critical"
  | PrHigh => "high"
  | PrMedium => "medium"
  | PrLow => "low"
  | PrInfo => "info"
  end.

Section plans.
Context `{P : Platform}.
Implicit Types (plan : FixPlan) (op : Operation).

Definition FixPlan_new (now : Z) (vm profile : string) : FixPlan :=
  mk_FixPlan _ "1.0" vm now profile "unknown" "unknown"
    (mk_PlanMetadata "guestkit-profiles" true true None []) [] [].

Definition set_operations plan (ops : list Operation) : FixPlan :=
  mk_FixPlan _ (pl_version plan) (pl_vm plan) (pl_generated plan) (pl_profile plan)
    (pl_overall_risk plan) (pl_estimated_duration plan) (pl_metadata plan) ops
    (pl_post_apply plan).
Definition add_operation plan (operation : Operation) : FixPlan :=
  set_operations plan (pl_operations plan ++ [operation]).

(** [sort_by_key], a stable sort. *)
Definition operations_by_priority plan : list Operation :=
  sort_by (fun a b => Z.compare (priority_rank (op_priority a)) (priority_rank (op_priority b)))
    (pl_operations plan).
Definition count_by_priority plan (priority : Priority) : nat :=
  length (List.filter (fun op => bool_decide (op_priority op = priority)) (pl_operations plan)).
Definition has_critical plan : bool :=
  existsb (fun op => bool_decide (op_priority op = PrCritical)) (pl_operations plan).

(** ** Topological sort *)

(** [in_degree] after both loops; a [usize] counter of dependencies in memory. *)
Definition or_insert_zero (deg : deg_map) (id : string) : deg_map :=
  <[id := default 0%Z (deg !! id)]> deg.
Definition incr (deg : deg_map) (id : string) : deg_map :=
  <[id := (default 0 (deg !! id) + 1)%Z]> deg.
Definition ops_in_degree (ops : list Operation) : deg_map :=
  foldl (fun deg op => foldl (fun deg _ => incr deg (op_id op)) deg (op_depends_on op))
    (foldl (fun deg op => or_insert_zero deg (op_id op)) ∅ ops) ops.

(** [adj] after both loops. *)
Definition or_default (adj : adj_map) (id : string) : adj_map :=
  <[id := default [] (adj !! id)]> adj.
Definition ops_adj (ops : list Operation) : adj_map :=
  foldl (fun adj op => foldl (fun adj dep => push_entry adj dep (op_id op)) adj (op_depends_on op))
    (foldl (fun adj op => or_default adj (op_id op)) ∅ ops) ops.

Definition op_map (ops : list Operation) : gmap string Operation :=
  foldl (fun m op => <[op_id op := op]> m) ∅ ops.

(** the [while let Some(node) = queue.pop_front()] loop. *)
Fixpoint sort_loop (oc : bool) (adj : adj_map) (ops : gmap string Operation) (fuel : nat)
    (deg : deg_map) (queue : list string) : outcome Empty_set (list Operation) :=
  match queue with
  | [] => Ok []
  | node :: queue =>
      match fuel with
      | O => Panic
      | S fuel =>
          '(deg, queue) ← release oc adj (deg, queue) node;
          sorted ← sort_loop oc adj ops fuel deg queue;
          mret (match ops !! node with Some op => op :: sorted | None => sorted end)
      end
  end.

Definition topological_sort (iter : deg_map → list (string * Z)) (oc : bool) plan
    : outcome Empty_set (list Operation) :=
  match pl_operations plan with
  | [] => Ok []
  | ops =>
      let deg := ops_in_degree ops in
      let queue := zero_nodes iter deg in
      sort_loop oc (ops_adj ops) (op_map ops) (S (length ops)) deg queue
  end.

(** ** The graph of a plan *)
Definition op_edges op : list (string * string) :=
  map (fun d => (d, op_id op)) (op_depends_on op).
Definition plan_edges (ops : list Operation) : list (string * string) :=
  List.flat_map op_edges ops.
Definition ids (ops : list Operation) : list string := map op_id ops.

Lemma elem_of_plan_edges ops x v :
  (x, v) ∈ plan_edges ops ↔ ∃ op, op ∈ ops ∧ op_id op = v ∧ x ∈ op_depends_on op.
Proof.
  unfold plan_edges. rewrite list_elem_of_In, in_flat_map. setoid_rewrite <-list_elem_of_In.
  unfold op_edges. setoid_rewrite list_elem_of_fmap. naive_solver.
Qed.

Lemma zero_loop_lookup ops : ∀ deg v,
  foldl (fun deg op => or_insert_zero deg (op_id op)) deg ops !! v =
  if decide (v ∈ ids ops) then Some (default 0%Z (deg !! v)) else deg !! v.
Proof.
  induction ops as [|op ops IH]; intros deg v; cbn [foldl ids map].
  { by rewrite decide_False by apply not_elem_of_nil. }
  rewrite IH. unfold or_insert_zero. destruct (decide (op_id op = v)) as [<-|Hne].
  - rewrite lookup_insert_eq. cbn. rewrite (decide_True (P := op_id op ∈ op_id op :: _)) by (by left).
    by destruct (decide _).
  - rewrite lookup_insert_ne by done.
    destruct (decide (v ∈ ids ops)) as [Hv|Hv].
    + by rewrite decide_True by (by right).
    + by rewrite decide_False by (rewrite elem_of_cons; naive_solver).
Qed.

Lemma incr_loop_lookup (l : list string) id : ∀ deg v,
  foldl (fun deg _ => incr deg id) deg l !! v =
  if decide (id = v ∧ l ≠ []) then Some (default 0 (deg !! v) + Z.of_nat (length l))%Z
  else deg !! v.
Proof.
  induction l as [|x l IH]; intros deg v; cbn [foldl]; [by rewrite decide_False by tauto|].
  rewrite IH. unfold incr. destruct (decide (id = v)) as [->|Hne].
  - rewrite lookup_insert_eq. rewrite (decide_True (P := v = v ∧ x :: l ≠ [])) by done.
    destruct l as [|y l].
    + rewrite decide_False by tauto. cbn. f_equal.
    + rewrite decide_True by done. f_equal. cbn [from_option default id length]. lia.
  - rewrite lookup_insert_ne by done. by rewrite !decide_False by tauto.
Qed.

Lemma unmet_app E1 E2 v : unmet (E1 ++ E2) [] v = unmet E1 [] v + unmet E2 [] v.
Proof. unfold unmet. by rewrite filter_app, length_app. Qed.

Lemma unmet_op op v :
  unmet (op_edges op) [] v = if decide (op_id op = v) then length (op_depends_on op) else 0.
Proof.
  unfold unmet, op_edges. induction (op_depends_on op) as [|d ds IH]; cbn [map length].
  - by destruct (decide (op_id op = v)).
  - rewrite filter_cons. cbn [fst snd]. destruct (decide (op_id op = v)) as [Hv|Hv].
    + rewrite decide_True by (split; [done|apply not_elem_of_nil]). cbn [length]. by rewrite IH.
    + by rewrite decide_False by tauto.
Qed.

Lemma incr_ops_lookup ops : ∀ deg v,
  foldl (fun deg op => foldl (fun deg _ => incr deg (op_id op)) deg (op_depends_on op)) deg ops
    !! v =
  if decide (unmet (plan_edges ops) [] v = 0) then deg !! v
  else Some (default 0 (deg !! v) + Z.of_nat (unmet (plan_edges ops) [] v))%Z.
Proof.
  induction ops as [|op ops IH]; intros deg v; [done|]. cbn [foldl plan_edges List.flat_map].
  rewrite IH, incr_loop_lookup, unmet_app, unmet_op. fold (plan_edges ops).
  set (n := unmet (plan_edges ops) [] v).
  destruct (decide (op_id op = v)) as [->|Hne].
  - destruct (op_depends_on op) as [|d ds]; cbn [length].
    + rewrite (decide_False (P := v = v ∧ [] ≠ [])) by tauto.
      change (0 + n) with n. by destruct (decide (n = 0)).
    + rewrite (decide_True (P := v = v ∧ d :: ds ≠ [])) by done.
      rewrite (decide_False (P := S (length ds) + n = 0)) by lia.
      destruct (decide (n = 0)); f_equal; cbn [from_option Datatypes.id]; lia.
  - rewrite (decide_False (P := op_id op = v ∧ _)) by tauto. change (0 + n) with n.
    by destruct (decide (n = 0)).
Qed.

Lemma ops_in_degree_lookup ops v :
  ops_in_degree ops !! v =
  if decide (v ∈ ids ops) then Some (Z.of_nat (unmet (plan_edges ops) [] v)) else None.
Proof.
  unfold ops_in_degree. rewrite incr_ops_lookup, zero_loop_lookup, lookup_empty.
  destruct (decide (v ∈ ids ops)) as [Hv|Hv].
  - destruct (decide (unmet (plan_edges ops) [] v = 0)) as [->|]; [done|]. by f_equal.
  - rewrite decide_True; [done|]. apply unmet_zero. intros x Hx.
    apply elem_of_plan_edges in Hx as (op & Hop & <- & _). exfalso. apply Hv.
    apply list_elem_of_fmap. by exists op.
Qed.

Lemma ops_adj_targets ops u : default [] (ops_adj ops !! u) = targets (plan_edges ops) u.
Proof.
  unfold ops_adj. set (adj0 := foldl _ ∅ ops).
  assert (∀ v, default [] (adj0 !! v) = []) as H0.
  { unfold adj0. assert (∀ adj, (∀ v, default [] ((adj : adj_map) !! v) = []) → ∀ v,
      default [] (foldl (fun adj op => or_default adj (op_id op)) adj ops !! v) = []) as H.
    { induction ops as [|op ops' IH]; intros adj Ha; [done|]. cbn. apply IH. intros v.
      unfold or_default. destruct (decide (op_id op = v)) as [<-|].
      - by rewrite lookup_insert_eq, Ha.
      - by rewrite lookup_insert_ne. }
    by apply H. }
  rewrite <-(adj_of_edges _ adj0 u H0). do 2 f_equal. unfold plan_edges.
  rewrite foldl_flat_map. apply foldl_ext'. intros adj op _. unfold op_edges.
  by rewrite foldl_map'.
Qed.

Lemma op_map_app ops op : op_map (ops ++ [op]) = <[op_id op := op]> (op_map ops).
Proof. unfold op_map. by rewrite foldl_app. Qed.

Lemma op_map_lookup ops v op :
  op_map ops !! v = Some op → op ∈ ops ∧ op_id op = v.
Proof.
  induction ops as [|o ops IH] using rev_ind; [done|]. rewrite op_map_app, elem_of_app.
  intros [[<- <-]|[Hne H]]%lookup_insert_Some.
  - split; [right; by apply list_elem_of_singleton|done].
  - apply IH in H as [? ?]. by split; [left|].
Qed.

Lemma op_map_dom ops v : v ∈ ids ops → is_Some (op_map ops !! v).
Proof.
  induction ops as [|o ops IH] using rev_ind; [intros H; by apply not_elem_of_nil in H|].
  unfold ids. rewrite op_map_app, map_app, elem_of_app. cbn.
  destruct (decide (op_id o = v)) as [<-|Hne]; [by rewrite lookup_insert_eq|].
  rewrite lookup_insert_ne by done. rewrite list_elem_of_singleton. naive_solver.
Qed.

(** ** The loop *)
(** the nodes in the order the queue gives them, of which the sorter keeps the operations. *)
Fixpoint order_loop (oc : bool) (adj : adj_map) (fuel : nat) (deg : deg_map) (queue : list string)
    : outcome Empty_set (list string) :=
  match queue with
  | [] => Ok []
  | node :: queue =>
      match fuel with
      | O => Panic
      | S fuel =>
          '(deg, queue) ← release oc adj (deg, queue) node;
          order ← order_loop oc adj fuel deg queue;
          mret (node :: order)
      end
  end.
Lemma sort_loop_order oc adj ops fuel : ∀ deg q,
  sort_loop oc adj ops fuel deg q =
  match order_loop oc adj fuel deg q with
  | Ok order => Ok (omap (fun v => ops !! v) order)
  | Err e => Err e
  | Panic => Panic
  end.
Proof.
  induction fuel as [|fuel IH]; intros deg [|u q]; try done. cbn [sort_loop order_loop].
  destruct (release oc adj (deg, q) u) as [[deg' q']| |]; try done. cbn [mbind outcome_bind]. rewrite IH.
  destruct (order_loop oc adj fuel deg' q') as [order| |]; done.
Qed.

Section loop.
Context (E : list (string * string)) (oc : bool) (adj : adj_map).
Hypothesis adj_ok : ∀ u, default [] (adj !! u) = targets E u.
Hypothesis edges_usize : (Z.of_nat (length E) < 2 ^ 64)%Z.

Lemma order_loop_spec fuel : ∀ deg placed q,
  kahn_inv E deg placed q → size (dom deg) ≤ length placed + fuel →
  ∃ order deg', order_loop oc adj fuel deg q = Ok order ∧
    kahn_inv E deg' (placed ++ order) [] ∧ dom deg' = dom deg ∧
    ∀ i v x, order !! i = Some v → (x, v) ∈ E → x ∈ placed ++ take i order.
Proof.
  induction fuel as [|fuel IH]; intros deg placed [|u q] Hi Hf; cbn [order_loop].
  1, 3: exists [], deg; rewrite app_nil_r; done.
  { pose proof (kahn_inv_size _ _ _ _ Hi). cbn in *. lia. }
  destruct (release_inv E oc adj adj_ok edges_usize deg placed q q u Hi)
    as (deg1 & new & Hr & Hi1 & Hd1 & _).
  destruct (IH deg1 (placed ++ [u]) (q ++ new) Hi1) as (order & deg2 & Hl & Hi2 & Hd2 & Ho).
  { rewrite Hd1, length_app. cbn. lia. }
  exists (u :: order), deg2. rewrite Hr. cbn [mbind outcome_bind]. rewrite Hl.
  cbn [mbind outcome_bind]. rewrite <-app_assoc in Hi2.
  split; [done|]. split; [done|]. split; [congruence|].
  intros [|i] v x Hv Hx; cbn in Hv.
  - injection Hv as ->. rewrite app_nil_r. eapply (kahn_inv_closed _ _ _ _ v); [exact Hi| |done].
    apply elem_of_app. right. by left.
  - cbn. specialize (Ho i v x Hv Hx). by rewrite <-app_assoc in Ho.
Qed.
End loop.

(** the hypotheses of the theorems on the sorter: [HashMap::iter] lists every entry
    once, and the dependencies fit a [usize]. *)
Record sort_ok (iter : deg_map → list (string * Z)) plan : Prop := mk_sort_ok {
  sk_iter : ∀ deg, iter deg ≡ₚ map_to_list deg;
  sk_edges : (Z.of_nat (length (plan_edges (pl_operations plan))) < 2 ^ 64)%Z
}.

(** the ids in the order they are run. *)
Lemma plan_order_spec iter oc ops :
  (∀ deg, iter deg ≡ₚ map_to_list deg) → (Z.of_nat (length (plan_edges ops)) < 2 ^ 64)%Z →
  ∃ order, order_loop oc (ops_adj ops) (S (length ops)) (ops_in_degree ops) (zero_nodes iter (ops_in_degree ops)) =
      Ok order ∧
    NoDup order ∧ (∀ v, v ∈ order → v ∈ ids ops) ∧
    (∀ i v x, order !! i = Some v → (x, v) ∈ plan_edges ops → x ∈ take i order) ∧
    (∀ v, v ∈ ids ops → v ∉ order → ∃ x, (x, v) ∈ plan_edges ops ∧ x ∉ order).
Proof.
  intros Hit Hu.
  assert (∀ v d, ops_in_degree ops !! v = Some d → d = Z.of_nat (unmet (plan_edges ops) [] v))
    as Hdeg.
  { intros v d. rewrite ops_in_degree_lookup. destruct (decide _); naive_solver. }
  assert (∀ v, v ∈ dom (ops_in_degree ops) ↔ v ∈ ids ops) as Hdom.
  { intros v. rewrite elem_of_dom, ops_in_degree_lookup. destruct (decide (v ∈ ids ops));
      split; try done. }
  destruct (order_loop_spec (plan_edges ops) oc (ops_adj ops) (ops_adj_targets ops) Hu
    (S (length ops)) (ops_in_degree ops) [] (zero_nodes iter (ops_in_degree ops))
    (kahn_inv_init _ _ _ Hit Hdeg)) as (order & deg' & Hl & Hi & Hd & Ho).
  { cbn. assert (size (dom (ops_in_degree ops)) ≤ length ops); [|lia].
    etransitivity; [apply (subseteq_size _ (list_to_set (ids ops) : gset string))|].
    - intros v Hv. by apply elem_of_list_to_set, Hdom.
    - etransitivity; [apply list_to_set_size_le|]. unfold ids. by rewrite length_map. }
  exists order. split; [done|].
  split; [pose proof (ki_nodup _ _ _ _ Hi) as Hn; by rewrite app_nil_r in Hn|]. split.
  { intros v Hv. apply Hdom. rewrite <-Hd. apply (elem_of_dom_2 _ _ 0%Z), (ki_ready _ _ _ _ Hi).
    by rewrite app_nil_r. }
  split; [done|].
  intros v Hv Hn. apply (kahn_inv_stuck _ _ _ v Hi); [|done]. rewrite Hd. by apply Hdom.
Qed.
(** every id whose dependencies are known and lower is in the order. *)
Lemma order_all ops (order : list string) (rank : string → nat) :
  (∀ v, v ∈ ids ops → v ∉ order → ∃ x, (x, v) ∈ plan_edges ops ∧ x ∉ order) →
  (∀ op x, op ∈ ops → x ∈ op_depends_on op → x ∈ ids ops ∧ rank x < rank (op_id op)) →
  ∀ v, v ∈ ids ops → v ∈ order.
Proof.
  intros Hst Hrank. assert (∀ n v, rank v < n → v ∈ ids ops → v ∈ order) as Hall; [|by eauto].
  induction n as [|n IH]; intros v Hr Hv; [lia|].
  destruct (decide (v ∈ order)) as [|Hno]; [done|]. exfalso.
  destruct (Hst v Hv Hno) as (x & He & Hx). apply Hx.
  apply elem_of_plan_edges in He as (op & Hop & <- & Hxd).
  destruct (Hrank op x Hop Hxd) as [Hxi Hlt]. apply IH; [lia|done].
Qed.

Lemma topological_sort_spec iter oc plan :
  sort_ok iter plan →
  ∃ order, topological_sort iter oc plan =
      Ok (omap (fun v => op_map (pl_operations plan) !! v) order) ∧
    NoDup order ∧ (∀ v, v ∈ order → v ∈ ids (pl_operations plan)) ∧
    (∀ i v x, order !! i = Some v → (x, v) ∈ plan_edges (pl_operations plan) →
       x ∈ take i order) ∧
    (∀ v, v ∈ ids (pl_operations plan) → v ∉ order →
       ∃ x, (x, v) ∈ plan_edges (pl_operations plan) ∧ x ∉ order).
Proof.
  intros [Hit Hu]. destruct (plan_order_spec iter oc _ Hit Hu) as (order & Hl & Hn & Hin & Hrest).
  exists order. split_and!; [|done..|apply Hrest|apply Hrest]. unfold topological_sort.
  set (ops := pl_operations plan) in *.
  destruct ops as [|op ops'] eqn:E; [|by rewrite sort_loop_order, Hl].
  destruct order as [|v order]; [done|]. exfalso.
  assert (v ∈ ids []) as Hv by (apply Hin; by left). by apply not_elem_of_nil in Hv.
Qed.

(** the operations at the positions of their ids. *)
Lemma omap_op_map ops order :
  (∀ v, v ∈ order → v ∈ ids ops) →
  ids (omap (fun v => op_map ops !! v) order) = order ∧
  ∀ op, op ∈ omap (fun v => op_map ops !! v) order → op ∈ ops.
Proof.
  induction order as [|v order IH]; intros Hin.
  { split; [done|]. intros op Hop. by apply not_elem_of_nil in Hop. }
  destruct (IH ltac:(intros; apply Hin; by right)) as [H1 H2].
  destruct (op_map_dom ops v) as [op Hop]; [apply Hin; by left|].
  cbn. rewrite Hop. cbn. destruct (op_map_lookup _ _ _ Hop) as [Hin' <-].
  split; [by f_equal|]. intros o [->|Ho]%elem_of_cons; [done|by apply H2].
Qed.

(** the operation of an id is the last one with it. *)
Definition last_of (ops : list Operation) op : Prop :=
  ∃ pre post, ops = pre ++ op :: post ∧ op_id op ∉ ids post.
Lemma op_map_last ops v op : op_map ops !! v = Some op ↔ op_id op = v ∧ last_of ops op.
Proof.
  induction ops as [|o ops IH] using rev_ind.
  { cbn. split; [done|]. intros (_ & pre & post & E & _). by destruct pre. }
  rewrite op_map_app, lookup_insert_Some, IH. split.
  - intros [[<- <-]|[Hne [<- (pre & post & -> & Hp)]]].
    + split; [done|]. exists ops, []. split; [done|apply not_elem_of_nil].
    + split; [done|]. exists pre, (post ++ [o]). split; [by rewrite <-app_assoc|].
      unfold ids. rewrite map_app. intros [?|Hin%list_elem_of_singleton]%elem_of_app; done.
  - intros [<- (pre & post & E & Hp)]. destruct post as [|z post _] using rev_ind.
    + apply app_inj_tail in E as [-> ->]. by left.
    + rewrite app_comm_cons, app_assoc in E. apply app_inj_tail in E as [-> ->]. right.
      unfold ids in Hp. rewrite map_app in Hp. apply not_elem_of_app in Hp as [Hp Hz].
      split; [intros Heq; apply Hz; by apply list_elem_of_singleton|]. split; [done|]. by exists pre, post.
Qed.

(** C25: the sorter returns on every plan with fewer than 2^64 dependencies (no decrement
    underflows, whatever the ids and dependencies are).  What it returns has no id twice and runs after all its
    dependencies; of several operations with one id only the last can be in it; and an
    operation of the plan that is left out has a later one with its id, or the operations
    of its id have a dependency that is left out or unknown. *)
Theorem topological_sort_order iter oc plan :
  sort_ok iter plan →
  ∃ sorted, topological_sort iter oc plan = Ok sorted ∧
    NoDup (ids sorted) ∧ (∀ op, op ∈ sorted → last_of (pl_operations plan) op) ∧
    (∀ i op x, sorted !! i = Some op → x ∈ op_depends_on op →
       ∃ j op', j < i ∧ sorted !! j = Some op' ∧ op_id op' = x) ∧
    (∀ op, op ∈ pl_operations plan → op ∉ sorted →
       ¬ last_of (pl_operations plan) op ∨
       ∃ op' x, op' ∈ pl_operations plan ∧ op_id op' = op_id op ∧ x ∈ op_depends_on op' ∧ x ∉ ids sorted).
Proof.
  intros Hok. destruct (topological_sort_spec iter oc plan Hok)
    as (order & Hs & Hn & Hin & Ho & Hst).
  set (ops := pl_operations plan) in *. set (sorted := omap _ order) in *.
  destruct (omap_op_map ops order Hin) as [Hids Hsub]. fold sorted in Hids, Hsub.
  exists sorted. split; [done|]. split; [by rewrite Hids|]. split; [|split].
  - intros op (v & Hv & Hop)%list_elem_of_omap. by apply op_map_last in Hop as [_ ?].
  - intros i op x Hi Hx.
    assert (order !! i = Some (op_id op)) as Hv.
    { rewrite <-Hids. unfold ids. by rewrite list_lookup_fmap, Hi. }
    assert (op ∈ ops) as Hop by (apply Hsub; by eapply list_elem_of_lookup_2).
    assert (x ∈ take i order) as Hb.
    { eapply Ho; [exact Hv|]. apply elem_of_plan_edges. by exists op. }
    apply list_elem_of_lookup in Hb as [j Hj]. apply lookup_take_Some in Hj as [Hj Hji].
    rewrite <-Hids in Hj. unfold ids in Hj. apply list_lookup_fmap_Some in Hj as (op' & Hx' & Hj).
    by exists j, op'.
  - intros op Hop Hns. destruct (decide (op_id op ∈ order)) as [Hio|Hio].
    + left. intros Hl. apply Hns, list_elem_of_omap. exists (op_id op). split; [done|]. by apply op_map_last.
    + right. destruct (Hst (op_id op)) as (x & He & Hx); [apply list_elem_of_fmap; by exists op|done|].
      apply elem_of_plan_edges in He as (op' & Hop' & Heq & Hxd). exists op', x. by rewrite Hids.
Qed.

Lemma topological_sort_keeps iter oc plan (rank : string → nat) :
  sort_ok iter plan → NoDup (ids (pl_operations plan)) →
  (∀ op x, op ∈ pl_operations plan → x ∈ op_depends_on op →
     x ∈ ids (pl_operations plan) ∧ rank x < rank (op_id op)) →
  ∃ sorted, topological_sort iter oc plan = Ok sorted ∧ sorted ≡ₚ pl_operations plan.
Proof.
  intros Hok Hnd Hrank. destruct (topological_sort_spec iter oc plan Hok)
    as (order & Hs & Hn & Hin & _ & Hst).
  set (ops := pl_operations plan) in *. exists (omap (fun v => op_map ops !! v) order).
  split; [done|]. destruct (omap_op_map ops order Hin) as [Hids Hsub].
  pose proof (order_all ops order rank Hst Hrank) as Hall.
  apply NoDup_Permutation.
  - apply (NoDup_fmap_1 op_id).
    change (NoDup (ids (omap (fun v => op_map ops !! v) order))). by rewrite Hids.
  - by apply (NoDup_fmap_1 op_id).
  - intros op. split; [apply Hsub|]. intros Hop.
    assert (op_id op ∈ ids ops) as Hi by (apply list_elem_of_fmap; by exists op).
    assert (op_id op ∈ order) as Ho by (by apply Hall).
    apply list_elem_of_omap. exists (op_id op). split; [done|].
    destruct (op_map_dom ops (op_id op) Hi) as [op' Hop']. rewrite Hop'. f_equal.
    destruct (op_map_lookup _ _ _ Hop') as [Hin' Heq].
    by eapply (NoDup_fmap_unique op_id).
Qed.

(** on a plan with distinct ids, known dependencies and no cycle (the
    dependencies descend in some rank) the sorter keeps every operation. *)
Theorem topological_sort_complete iter oc plan (rank : string → nat) :
  sort_ok iter plan → NoDup (ids (pl_operations plan)) →
  (∀ op x, op ∈ pl_operations plan → x ∈ op_depends_on op →
     x ∈ ids (pl_operations plan) ∧ rank x < rank (op_id op)) →
  ∃ sorted, topological_sort iter oc plan = Ok sorted ∧ sorted ≡ₚ pl_operations plan.
Proof. apply topological_sort_keeps. Qed.
End plans.

(** ** A concrete plan *)
Definition command_op (op_name : string) (deps : list string) : @Operation ascii_platform :=
  mk_Operation ascii_platform op_name (OpCommandExec (mk_CommandExec "true" 0 None None))
    PrHigh "run" PrLow true deps None None.
Definition edit_of (op_name : string) : @Operation ascii_platform :=
  mk_Operation ascii_platform op_name (OpFileEdit (mk_FileEdit "/etc/fstab" true [])) PrHigh "edit" PrLow true [] None None.
Definition plan_of (ops : list (@Operation ascii_platform)) : @FixPlan ascii_platform :=
  set_operations (@FixPlan_new ascii_platform 0 "vm.qcow2" "migration") ops.
Definition chain_plan : @FixPlan ascii_platform :=
  plan_of [command_op "c" ["b"; "a"]; command_op "b" ["a"]; command_op "a" []].

Lemma chain_plan_ok : sort_ok map_to_list chain_plan.
Proof. split; [done|by vm_compute]. Qed.

Lemma topological_sort_order_witness :
  ∃ sorted, topological_sort map_to_list true chain_plan = Ok sorted ∧
    NoDup (ids sorted) ∧ (∀ op, op ∈ sorted → last_of (pl_operations chain_plan) op) ∧
    (∀ i op x, sorted !! i = Some op → x ∈ op_depends_on op →
       ∃ j op', j < i ∧ sorted !! j = Some op' ∧ op_id op' = x) ∧
    (∀ op, op ∈ pl_operations chain_plan → op ∉ sorted →
       ¬ last_of (pl_operations chain_plan) op ∨
       ∃ op' x, op' ∈ pl_operations chain_plan ∧ op_id op' = op_id op ∧ x ∈ op_depends_on op' ∧ x ∉ ids sorted).
Proof. exact (topological_sort_order map_to_list true chain_plan chain_plan_ok). Defined.

(** of two operations with one id the first is dropped. *)
Example earlier_id_dropped :
  topological_sort map_to_list true (plan_of [command_op "a" []; edit_of "a"]) = Ok [edit_of "a"].
Proof. by vm_compute. Qed.

Lemma topological_sort_complete_witness :
  ∃ sorted, topological_sort map_to_list true chain_plan = Ok sorted ∧
    sorted ≡ₚ pl_operations chain_plan.
Proof.
  apply (topological_sort_complete map_to_list true chain_plan
    (fun v => if String.eqb v "a" then 0 else if String.eqb v "b" then 1 else 2)).
  - exact chain_plan_ok.
  - by refine (bool_decide_eq_true_1 _ _); vm_compute.
  - intros op x Hop Hx. cbn in Hop.
    repeat (apply elem_of_cons in Hop as [->|Hop];
      [repeat (apply elem_of_cons in Hx as [->|Hx]; [split; [set_solver|cbn; lia]|]);
       by apply not_elem_of_nil in Hx|]).
    by apply not_elem_of_nil in Hop.
Defined.
