(* ===== verification/Repair.v ===== *)
(** * The migration repair planner

    [src/migration/repair.rs]: the failed checks of an assessment become the
    operations of a fix plan, one repair per strategy, with notes for what is left
    to do by hand; and [DriverInject::resolve_host_dir] of
    [src/cli/plan/types.rs].

    Outside the repository: the host file system ([is_dir]), the environment
    variable [GUESTKIT_VIRTIO_WIN], [Display] of an [f64] and [serde_json::json!]
    of a number, collected in the class [RepairHost].  The clock is an argument. *)
From stdpp Require Import base gmap strings list.
From Stdlib Require Import ZArith Lia Ascii SpecFloat.
From S2P Require Import Prelude RustStr F64 Evidence BootChecks BootEngine Migration Kahn FixPlan.

Class RepairHost `{Platform} := {
  is_dir : string → bool;
  virtio_win_env : option string;
  fmt_f64 : f64 → string;
  json_number : Z → json_value
}.

Record RepairOptions : Type := mk_RepairOptions {
  ro_include_destructive : bool;
  ro_virtio_win_dir : option string
}.

(** [Path::join] on Unix. *)
Definition path_join (base path : string) : string :=
  if starts_with "/" path then path
  else if is_empty base then path
  else if ends_with_char "/"%char base then base +:+ path
  else base +:+ "/" +:+ path.

(** the derived [Debug] of [Priority]. *)
Definition fmt_debug_priority (p : Priority) : string :=
  match p with
  | PrCritical => "Critical"
  | PrHigh => "High"
  | PrMedium => "Medium"
  | PrLow => "Low"
  | PrInfo => "Info"
  end.

Section model.
Context `{P : Platform} `{Host : !RepairHost}.
Implicit Types (ev : EvidenceSnapshot) (opts : RepairOptions).

(** [resolve_host_dir]. *)
Definition virtio_layouts (base driver : string) : list string :=
  let d := path_join base driver in
  [d; path_join d "amd64"; path_join (path_join d "2k22") "amd64";
   path_join (path_join d "2k19") "amd64"; path_join (path_join d "w10") "amd64";
   path_join (path_join d "w11") "amd64"].
Definition resolve_host_dir (self : DriverInject) : option string :=
  let explicit := match di_host_dir self with
                  | Some d => if is_dir d then Some d else None
                  | None => None
                  end in
  match explicit with
  | Some d => Some d
  | None =>
      if is_dir (di_source self) then Some (di_source self)
      else match virtio_win_env with
           | Some base => List.find is_dir (virtio_layouts base (di_driver_name self))
           | None => None
           end
  end.

(** the builder [op]. *)
Definition mk_op (id description : string) (op_type : OperationType) (risk : Priority)
    (reversible : bool) (undo : option UndoInfo) (validation : option ValidationCheck)
    (depends_on : list string) : Operation :=
  mk_Operation _ id op_type PrHigh description risk reversible depends_on validation undo.

Definition run_command (command : string) (timeout : Z) : OperationType :=
  OpCommandExec (mk_CommandExec command 0 (Some timeout) None).
Definition undo_command (command : string) : option UndoInfo := Some (UndoCommand command).
Definition exits_0 (command : string) (expected_output : option string)
    : option ValidationCheck := Some (mk_ValidationCheck command 0 expected_output).

Definition dracut_based ev : bool :=
  existsb (String.eqb (os_package_manager (ev_os ev))) ["dnf"; "yum"; "zypper"; "rpm"]
  || existsb (fun d => contains d (to_lowercase (os_distribution (ev_os ev))))
       ["rhel"; "fedora"; "centos"; "suse"].

(** ** Linux *)
Definition initramfs_ops (dracut : bool) : list Operation :=
  if dracut then
    [mk_op "mig-virtio-initramfs-conf" "Persist virtio modules in dracut configuration"
       (OpFileWrite (mk_FileWrite "/etc/dracut.conf.d/99-guestkit-virtio.conf"
          ("add_drivers+=" +:+ dquote +:+ " virtio_blk virtio_scsi virtio_net virtio_pci "
           +:+ dquote +:+ newline_str) (Some "0644")))
       PrMedium true (undo_command "rm -f /etc/dracut.conf.d/99-guestkit-virtio.conf") None [];
     mk_op "mig-virtio-initramfs-rebuild" "Rebuild initramfs with virtio drivers"
       (run_command "dracut -f --regenerate-all" 600) PrMedium false None
       (exits_0 "lsinitrd | grep -q virtio" None) ["mig-virtio-initramfs-conf"]]
  else
    [mk_op "mig-virtio-initramfs-conf" "Persist virtio modules in initramfs-tools configuration"
       (OpFileWrite (mk_FileWrite "/etc/initramfs-tools/modules.d/guestkit-virtio"
          ("virtio_blk" +:+ newline_str +:+ "virtio_scsi" +:+ newline_str +:+ "virtio_net"
           +:+ newline_str +:+ "virtio_pci" +:+ newline_str) (Some "0644")))
       PrMedium true (undo_command "sed -i '/^virtio_/d' /etc/initramfs-tools/modules") None [];
     mk_op "mig-virtio-initramfs-rebuild" "Rebuild initramfs with virtio drivers"
       (run_command "update-initramfs -u -k all" 600) PrMedium false None
       (exits_0 "lsinitramfs /boot/initrd.img-$(uname -r) | grep -q virtio" None)
       ["mig-virtio-initramfs-conf"]].

(** the [FileChange] of one fstab entry, if it names a disk with a known UUID. *)
Definition fstab_change ev (entry : FstabEntry) : option FileChange :=
  if negb (starts_with "/dev/sd" (fe_device entry))
     && negb (starts_with "/dev/vd" (fe_device entry)) then None
  else
    (fun uuid =>
       mk_FileChange 0
         (fe_device entry +:+ " " +:+ fe_mountpoint entry +:+ " " +:+ fe_fstype entry
          +:+ " " +:+ fe_options entry)
         ("UUID=" +:+ pu_uuid uuid +:+ " " +:+ fe_mountpoint entry +:+ " " +:+ fe_fstype entry
          +:+ " " +:+ fe_options entry) None)
    <$> List.find (fun u => String.eqb (pu_device u) (fe_device entry))
          (st_partition_uuids (ev_storage ev)).
Definition fstab_ops ev : list Operation * list string :=
  match omap (fstab_change ev) (st_fstab_entries (ev_storage ev)) with
  | [] =>
      ([], ["fstab uses device paths but no matching UUIDs were collected — manual conversion required"])
  | changes =>
      ([mk_op "mig-fstab-uuid" "Convert /etc/fstab device paths to stable UUIDs"
          (OpFileEdit (mk_FileEdit "/etc/fstab" true changes)) PrHigh true
          (undo_command "restore /etc/fstab from the plan rollback snapshot")
          (exits_0 "findmnt --verify --tab-file /etc/fstab" None) []], [])
  end.

Definition grub_ops (dracut : bool) : list Operation :=
  let '(backup_cmd, rebuild_cmd, cfg) :=
    if dracut
    then ("cp /boot/grub2/grub.cfg /boot/grub2/grub.cfg.guestkit-bak",
          "grub2-mkconfig -o /boot/grub2/grub.cfg", "/boot/grub2/grub.cfg")
    else ("cp /boot/grub/grub.cfg /boot/grub/grub.cfg.guestkit-bak",
          "update-grub", "/boot/grub/grub.cfg") in
  [mk_op "mig-grub-backup" "Back up current GRUB configuration" (run_command backup_cmd 30)
     PrLow true (undo_command ("rm -f " +:+ cfg +:+ ".guestkit-bak")) None [];
   mk_op "mig-grub-rebuild" "Regenerate GRUB configuration" (run_command rebuild_cmd 300)
     PrHigh true (undo_command ("cp " +:+ cfg +:+ ".guestkit-bak " +:+ cfg))
     (exits_0 ("test -s " +:+ cfg) None) ["mig-grub-backup"]].

Definition serial_op : Operation :=
  mk_op "mig-serial-console" "Enable serial console on all kernel entries"
    (run_command "grubby --update-kernel=ALL --args='console=ttyS0,115200 console=tty0'" 60)
    PrMedium true
    (undo_command "grubby --update-kernel=ALL --remove-args='console=ttyS0,115200'") None [].

Definition remove_tools_ops (dracut : bool) (packages : list string)
    : list Operation * list string :=
  if existsb (fun p => contains "vmware" (to_lowercase p)) packages then
    let pkgs := "open-vm-tools open-vm-tools-desktop" in
    let mgr_remove :=
      if dracut then "dnf remove -y " +:+ pkgs +:+ " || yum remove -y " +:+ pkgs
      else "apt-get remove -y " +:+ pkgs in
    ([mk_op "mig-remove-vm-tools" "Remove VMware guest tooling" (run_command mgr_remove 600)
        PrMedium true (undo_command ("reinstall with the package manager: " +:+ pkgs)) None []], [])
  else
    ([], ["hypervisor tooling " +:+ fmt_debug_strs packages +:+ " requires manual removal"]).

Definition relabel_op : Operation :=
  mk_op "mig-selinux-relabel" "Schedule SELinux relabel on next boot"
    (OpFileWrite (mk_FileWrite "/.autorelabel" "" (Some "0644"))) PrLow true
    (undo_command "rm -f /.autorelabel") None [].

Definition linux_ops (hint : RemediationHint) ev : list Operation * list string :=
  match hint with
  | AddVirtioToInitramfs => (initramfs_ops (dracut_based ev), [])
  | ConvertFstabToUuid => fstab_ops ev
  | RepairBootloader => (grub_ops (dracut_based ev), [])
  | EnableSerialConsole => ([serial_op], [])
  | RemoveHypervisorTools packages => remove_tools_ops (dracut_based ev) packages
  | ScheduleSelinuxRelabel => ([relabel_op], [])
  | PreserveStaticIp =>
      ([], ["static IP preservation is handled by baseline capture + post-migration restore, not a repair op"])
  | other => ([], ["no automated Linux repair for " +:+ fmt_debug_hint other])
  end.

(** ** Windows *)
Definition driver_inject opts (driver : string) : DriverInject * list string :=
  let inj host_dir :=
    mk_DriverInject ("C:\GuestKit\drivers\" +:+ driver +:+ "\" +:+ driver +:+ ".inf") driver
      (String.eqb driver "viostor" || String.eqb driver "vioscsi") "virtio-win" host_dir in
  let host_dir :=
    match ro_virtio_win_dir opts with
    | Some dir =>
        let candidate := path_join dir driver in
        if is_dir candidate then Some candidate else if is_dir dir then Some dir else None
    | None => None
    end in
  match host_dir with
  | Some d => (inj (Some d), [])
  | None =>
      match resolve_host_dir (inj None) with
      | Some resolved => (inj (Some resolved), [])
      | None =>
          (inj None,
           ["DriverInject '" +:+ driver +:+ "': set GUESTKIT_VIRTIO_WIN or --virtio-win to a virtio-win tree for offline plan apply"])
      end
  end.

Definition services_key (driver : string) : string :=
  "HKLM\SYSTEM\CurrentControlSet\Services\" +:+ driver.
Definition boot_critical_op (driver : string) : Operation :=
  mk_op ("mig-bootcritical-" +:+ driver)
    ("Register " +:+ driver +:+ " as boot-critical storage driver")
    (OpRegistryEdit (mk_RegistryEdit _ (services_key driver) "Start" (json_number 3)
       (json_number 0) "DWORD")) PrHigh true
    (undo_command ("reg.exe add " +:+ services_key driver +:+ " /v Start /t REG_DWORD /d 3 /f"))
    (exits_0 ("(Get-ItemProperty HKLM:\SYSTEM\CurrentControlSet\Services\" +:+ driver
              +:+ ").Start -eq 0") (Some "True")) [].
Definition inject_op opts (driver : string) : Operation :=
  mk_op ("mig-inject-" +:+ driver) ("Inject virtio driver " +:+ driver)
    (OpDriverInject (driver_inject opts driver).1) PrHigh true
    (undo_command ("pnputil /delete-driver " +:+ driver +:+ ".inf /uninstall"))
    (exits_0 ("pnputil /enum-drivers | Select-String " +:+ driver) None) [].
Definition bitlocker_op : Operation :=
  mk_op "mig-suspend-bitlocker"
    "Suspend BitLocker protection until after migration validation (2 reboots)"
    (run_command "Get-BitLockerVolume | Where-Object ProtectionStatus -eq 'On' | Suspend-BitLocker -RebootCount 2" 120)
    PrHigh true (undo_command "Get-BitLockerVolume | Resume-BitLocker")
    (exits_0 "[bool](Get-BitLockerVolume | Where-Object ProtectionStatus -eq 'Off')" (Some "True"))
    [].
Definition ghost_nic_op (i : nat) (id : string) : Operation :=
  mk_op ("mig-ghost-nic-" +:+ fmt_nat i) ("Remove disconnected NIC " +:+ id)
    (run_command ("pnputil /remove-device " +:+ dquote +:+ id +:+ dquote) 60)
    PrMedium false None None [].
Definition uninstall_op : Operation :=
  mk_op "mig-remove-vmware-tools" "Uninstall VMware Tools"
    (run_command ("$app = Get-CimInstance Win32_Product -Filter " +:+ dquote
       +:+ "Name like 'VMware Tools%'" +:+ dquote
       +:+ "; if ($app) { $app | Invoke-CimMethod -MethodName Uninstall }") 900)
    PrMedium false None None [].

Definition windows_ops (hint : RemediationHint) opts : list Operation * list string :=
  match hint with
  | InjectWindowsDriver driver => ([inject_op opts driver], (driver_inject opts driver).2)
  | RegisterBootCritical driver => ([boot_critical_op driver], [])
  | SuspendBitLocker => ([bitlocker_op], [])
  | RemoveGhostNics instance_ids =>
      if negb (ro_include_destructive opts) then
        ([], ["skipping ghost-NIC removal (" +:+ fmt_nat (length instance_ids)
              +:+ " device(s)) — destructive; requires include_destructive"])
      else (imap ghost_nic_op instance_ids, [])
  | RemoveHypervisorTools packages =>
      if negb (ro_include_destructive opts) then
        ([], ["skipping VMware Tools uninstall — destructive (can drop the NIC mid-session); requires include_destructive"])
      else ([uninstall_op], [])
  | PreserveStaticIp =>
      ([], ["static NIC configuration is captured in the pre-migration baseline and re-applied by post-migration validation"])
  | other => ([], ["no automated Windows repair for " +:+ fmt_debug_hint other])
  end.

(** ** The plan *)
Definition repair_for ev opts (hint : RemediationHint) : list Operation * list string :=
  if is_windows ev then windows_ops hint opts else linux_ops hint ev.

(** [op.risk <= Priority::High && op.undo.is_none()]. *)
Definition refused (op : Operation) : bool :=
  (priority_rank (op_risk op) <=? priority_rank PrHigh)%Z
  && match op_undo op with None => true | Some _ => false end.
Definition refusal (op : Operation) : string :=
  "refused " +:+ op_id op +:+ ": " +:+ fmt_debug_priority (op_risk op)
  +:+ " risk without undo information".

(** the variables of the loop: [seen], [plan.operations] and [notes]. *)
Record repair_state : Type := mk_repair_state {
  rs_seen : gset string;
  rs_operations : list Operation;
  rs_notes : list string
}.
Definition push_op (s : repair_state) (op : Operation) : repair_state :=
  if refused op then mk_repair_state (rs_seen s) (rs_operations s) (rs_notes s ++ [refusal op])
  else mk_repair_state (rs_seen s) (rs_operations s ++ [op]) (rs_notes s).
Definition repair_step ev opts (s : repair_state) (check : MigrationCheckResult) : repair_state :=
  if mc_passed check then s
  else
    match mc_remediation check with
    | None => s
    | Some hint =>
        let key := fmt_debug_hint hint in
        if bool_decide (key ∈ rs_seen s) then s
        else
          let '(ops, notes) := repair_for ev opts hint in
          foldl push_op
            (mk_repair_state ({[key]} ∪ rs_seen s) (rs_operations s) (rs_notes s ++ notes)) ops
    end.

(** [.map(|o| o.risk).min()]: the most severe risk. *)
Definition most_severe (ops : list Operation) : option Priority :=
  foldl (fun acc op =>
    match acc with
    | None => Some (op_risk op)
    | Some p => Some (if (priority_rank (op_risk op) <? priority_rank p)%Z then op_risk op else p)
    end) None ops.

Definition from_assessment (now : Z) (assessment : MigrationAssessment) ev opts
    : FixPlan * list string :=
  let plan := FixPlan_new now (ev_image_path ev) "migration-repair" in
  let description :=
    "migration repair plan for target " +:+ ma_target assessment +:+ " (score "
    +:+ fmt_f64 (ma_overall_score assessment) +:+ ")" in
  let s := foldl (repair_step ev opts) (mk_repair_state ∅ [] []) (ma_checks assessment) in
  let ops := rs_operations s in
  let overall_risk :=
    match most_severe ops with
    | Some r => to_lowercase (fmt_debug_priority r)
    | None => "low"
    end in
  let meta := pl_metadata plan in
  (mk_FixPlan _ (pl_version plan) (pl_vm plan) (pl_generated plan) (pl_profile plan) overall_risk
     (pl_estimated_duration plan)
     (mk_PlanMetadata (pm_author meta) (pm_review_required meta) (forallb op_reversible ops)
        (Some description) (pm_tags meta)) ops (pl_post_apply plan), rs_notes s).
End model.
