(* ===== verification/RepairProps.v ===== *)
(** * What a repair plan guarantees

    Theorems on [Repair]: no operation of high risk without undo information, every
    failed check with a remediation is answered by operations or notes, and the plan
    made from an assessment of [Migration] has distinct ids and known, acyclic
    dependencies, so the sorter of [FixPlan] keeps every operation of it. *)
From stdpp Require Import base gmap strings list pretty.
From Stdlib Require Import ZArith Lia Ascii SpecFloat.
From S2P Require Import Prelude RustStr F64 Evidence BootChecks BootEngine BootScore Migration Assessment Kahn FixPlan Repair.

Section planner.
Context `{P : Platform} `{Host : !RepairHost}.
Implicit Types (ev : EvidenceSnapshot) (opts : RepairOptions) (h : RemediationHint)
  (checks : list MigrationCheckResult).

(** ** What a hint generates *)
Ltac hint_cases h :=
  destruct h; unfold repair_for, windows_ops, linux_ops, fstab_ops, remove_tools_ops;
  repeat case_match; cbn [fst snd].

Lemma Forall_imap_ghost (Q : Operation → Prop) l :
  (∀ i id, Q (ghost_nic_op i id)) → Forall Q (imap ghost_nic_op l).
Proof.
  intros HQ. apply Forall_forall. intros op Hop.
  apply elem_of_lookup_imap in Hop as (i & id & -> & _). apply HQ.
Qed.

(** no operation that the planner can generate is refused. *)
Lemma repair_for_safe ev opts h : Forall (fun op => refused op = false) (repair_for ev opts h).1.
Proof.
  hint_cases h; try (by repeat constructor); try (by apply Forall_imap_ghost).
  all: by destruct (dracut_based ev); repeat constructor.
Qed.

Lemma foldl_push_op ops : ∀ s,
  Forall (fun op => refused op = false) ops →
  foldl push_op s ops = mk_repair_state (rs_seen s) (rs_operations s ++ ops) (rs_notes s).
Proof.
  induction ops as [|op ops IH]; intros s Hs; cbn.
  { rewrite app_nil_r. by destruct s. }
  apply Forall_cons in Hs as [H1 H2]. unfold push_op at 2. rewrite H1, IH by done.
  cbn. by rewrite <-app_assoc.
Qed.

(** ** The repairs of a list of checks *)
Definition hint_of (c : MigrationCheckResult) : option RemediationHint :=
  if mc_passed c then None else mc_remediation c.

(** the hints that are acted on. *)
Fixpoint kept (seen : gset string) (hints : list RemediationHint) : list RemediationHint :=
  match hints with
  | [] => []
  | h :: hints =>
      if bool_decide (fmt_debug_hint h ∈ seen) then kept seen hints
      else h :: kept ({[fmt_debug_hint h]} ∪ seen) hints
  end.

Lemma repair_step_eq ev opts s c :
  repair_step ev opts s c =
  match hint_of c with
  | Some h =>
      if bool_decide (fmt_debug_hint h ∈ rs_seen s) then s
      else mk_repair_state ({[fmt_debug_hint h]} ∪ rs_seen s)
             (rs_operations s ++ (repair_for ev opts h).1) (rs_notes s ++ (repair_for ev opts h).2)
  | None => s
  end.
Proof.
  unfold repair_step, hint_of. destruct (mc_passed c); [done|].
  destruct (mc_remediation c) as [h|]; [|done]. case_bool_decide; [done|].
  pose proof (repair_for_safe ev opts h) as Hs. destruct (repair_for ev opts h) as [ops notes].
  by rewrite foldl_push_op.
Qed.

Lemma repair_loop ev opts checks : ∀ s,
  let hs := kept (rs_seen s) (omap hint_of checks) in
  rs_operations (foldl (repair_step ev opts) s checks) =
    rs_operations s ++ (hs ≫= fun h => (repair_for ev opts h).1) ∧
  rs_notes (foldl (repair_step ev opts) s checks) =
    rs_notes s ++ (hs ≫= fun h => (repair_for ev opts h).2).
Proof.
  induction checks as [|c checks IH]; intros s; cbn [foldl].
  { cbn. by rewrite !app_nil_r. }
  rewrite repair_step_eq. cbn [omap list_omap]. destruct (hint_of c) as [h|]; [|apply IH].
  cbn [kept]. case_bool_decide; [apply IH|].
  match goal with |- context [foldl _ ?x checks] => destruct (IH x) as [-> ->] end.
  cbn -[repair_for]. by rewrite !app_assoc.
Qed.

Lemma kept_sub hints : ∀ seen h, h ∈ kept seen hints → h ∈ hints ∧ fmt_debug_hint h ∉ seen.
Proof.
  induction hints as [|h' hints IH]; intros seen h Hh; cbn in Hh; [by apply not_elem_of_nil in Hh|].
  case_bool_decide as Hs.
  - destruct (IH _ _ Hh). split; [by right|done].
  - apply elem_of_cons in Hh as [->|Hh]; [split; [by left|done]|].
    destruct (IH _ _ Hh) as [H1 H2]. split; [by right|set_solver].
Qed.

Lemma kept_NoDup hints : ∀ seen, NoDup (kept seen hints).
Proof.
  induction hints as [|h hints IH]; intros seen; cbn; [constructor|].
  case_bool_decide; [apply IH|]. constructor; [|apply IH].
  intros Hh%kept_sub. set_solver.
Qed.


(** ** Distinct ids *)
Definition ids_for ev opts h : list string := ids (repair_for ev opts h).1.

Lemma ids_for_NoDup ev opts h : NoDup (ids_for ev opts h).
Proof.
  unfold ids_for. hint_cases h; try solve [constructor | apply NoDup_singleton].
  1, 2: destruct (dracut_based ev); by refine (bool_decide_eq_true_1 _ _); vm_compute.
  apply NoDup_alt. intros i j x. unfold ids. rewrite !list_lookup_fmap, !list_lookup_imap.
  destruct (instance_ids !! i), (instance_ids !! j); cbn; intros Hi Hj; try done.
  injection Hi as <-. injection Hj as Hj. by apply (inj pretty).
Qed.

(** two hints give one id only when they are equal, or both ask to remove the
    hypervisor's tools or ghost NICs. *)
Definition same_family h h' : bool :=
  match h, h' with
  | RemoveHypervisorTools _, RemoveHypervisorTools _ => true
  | RemoveGhostNics _, RemoveGhostNics _ => true
  | _, _ => false
  end.

(** the shape of the ids of a hint. *)
Definition id_of h (x : string) : Prop :=
  match h with
  | AddVirtioToInitramfs => x = "mig-virtio-initramfs-conf" ∨ x = "mig-virtio-initramfs-rebuild"
  | ConvertFstabToUuid => x = "mig-fstab-uuid"
  | RepairBootloader => x = "mig-grub-backup" ∨ x = "mig-grub-rebuild"
  | EnableSerialConsole => x = "mig-serial-console"
  | RemoveHypervisorTools _ => x = "mig-remove-vm-tools" ∨ x = "mig-remove-vmware-tools"
  | ScheduleSelinuxRelabel => x = "mig-selinux-relabel"
  | InjectWindowsDriver driver => x = "mig-inject-" +:+ driver
  | RegisterBootCritical driver => x = "mig-bootcritical-" +:+ driver
  | SuspendBitLocker => x = "mig-suspend-bitlocker"
  | RemoveGhostNics _ => ∃ i : nat, x = "mig-ghost-nic-" +:+ fmt_nat i
  | PreserveStaticIp | Manual _ => False
  end.

Lemma ids_for_id_of ev opts h x : x ∈ ids_for ev opts h → id_of h x.
Proof.
  unfold ids_for, ids. intros (op & -> & Hop)%list_elem_of_fmap. revert Hop.
  apply (proj1 (Forall_forall (fun op => id_of h (op_id op)) _)).
  hint_cases h; try (by repeat constructor).
  1, 2: destruct (dracut_based ev); (apply Forall_cons; split; [by left|]);
    (apply Forall_cons; split; [by right|done]).
  apply Forall_imap_ghost. intros i id. by exists i.
Qed.

Lemma id_of_family h h' x : id_of h x → id_of h' x → h = h' ∨ same_family h h' = true.
Proof.
  destruct h, h'; cbn; try (by left); try (by right); try (by intros []); intros H1 H2;
    repeat match goal with
    | H : _ ∨ _ |- _ => destruct H as [H|H]
    | H : ∃ _, _ |- _ => destruct H as [? H]
    end; subst; try done; simplify_eq; by left.
Qed.

(** ** The hints of an assessment *)

(** the two strategies with a parameter list have one value each in an assessment,
    but for the fixed list of MIG-L-008. *)
Definition hint_fits ev (c : MigrationCheckResult) : Prop :=
  match mc_remediation c with
  | Some (RemoveHypervisorTools packages) =>
      packages = foreign_tools ev ∨ packages = ["open-vm-tools"] ∧ is_windows ev = false
  | Some (RemoveGhostNics instance_ids) =>
      ∃ win, ev_windows ev = Some win ∧ instance_ids = map gn_instance_id (we_ghost_nics win)
  | _ => True
  end.

Lemma wrapped_fits ev ctx l :
  Forall (fun x => match x.2 with
                   | Some (RemoveHypervisorTools _) | Some (RemoveGhostNics _) => False
                   | _ => True end) l →
  Forall (hint_fits ev) (wrapped_checks ctx l).
Proof.
  induction 1 as [|[[[[b m] cat] w] h] l Hh _ IH]; [constructor|].
  cbn. apply Forall_app_2; [|exact IH]. unfold boot_check.
  destruct (List.find _ _) as [src|]; cbn; [|constructor].
  apply Forall_cons. split; [|constructor]. unfold hint_fits. cbn.
  destruct (cr_passed src); [done|]. cbn in Hh. by destruct h as [[]|].
Qed.

Lemma general_fits ev : Forall (hint_fits ev) (general_checks ev).
Proof.
  unfold general_checks. repeat apply Forall_app_2.
  all: unfold mig_g_001, mig_g_002, mig_g_003, mig_g_004, mig_g_005; repeat case_match;
    repeat (apply Forall_cons; split); try constructor; try done.
Qed.

Lemma linux_fits ev ctx : is_windows ev = false → Forall (hint_fits ev) (linux_checks ev ctx).
Proof.
  intros Hw. unfold linux_checks. rewrite !Forall_app. split_and!.
  - unfold mig_l_001. case_match; [|unfold boot_check; destruct (List.find _ _) as [src|]; cbn].
    + case_match; repeat constructor.
    + apply Forall_cons. split; [|constructor]. unfold hint_fits. cbn. by destruct (cr_passed src).
    + constructor.
  - apply wrapped_fits. repeat constructor.
  - unfold mig_l_007_008. repeat case_match; repeat (apply Forall_cons; split);
      try constructor; try done; by right.
  - unfold mig_l_009. repeat case_match; repeat constructor.
Qed.

Lemma windows_fits ev ctx : Forall (hint_fits ev) (windows_checks ev ctx).
Proof.
  unfold windows_checks. destruct (ev_windows ev) as [win|] eqn:Hw; [|constructor].
  rewrite !Forall_app. split_and!; try (apply wrapped_fits; by repeat constructor).
  all: unfold mig_w_001, mig_w_002, mig_w_005, mig_w_006, mig_w_007, mig_w_008, mig_w_009,
    mig_w_010, mig_w_012, mig_w_013; repeat case_match;
    repeat (apply Forall_cons; split); try constructor; try done.
  unfold hint_fits. cbn. by exists win.
Qed.

Lemma run_all_checks_fits ev ctx : Forall (hint_fits ev) (run_all_checks ev ctx).
Proof.
  unfold run_all_checks. apply Forall_app_2; [apply general_fits|].
  destruct (is_windows ev) eqn:Hw; [apply windows_fits|by apply linux_fits].
Qed.

Lemma ids_bind (f : RemediationHint → list Operation) (hs : list RemediationHint) :
  ids (hs ≫= f) = hs ≫= fun h => ids (f h).
Proof.
  induction hs as [|h hs IH]; [done|]. cbn. unfold ids in *. rewrite map_app. by rewrite IH.
Qed.

Lemma open_vm_tools_kept ev opts :
  is_windows ev = false → ids_for ev opts (RemoveHypervisorTools ["open-vm-tools"]) = [].
Proof. intros Hw. unfold ids_for, repair_for. by rewrite Hw. Qed.

(** hints with an id in common are equal, in an assessment. *)
Lemma assessment_hints_apart ev opts ctx h h' x :
  h ∈ omap hint_of (run_all_checks ev ctx) → h' ∈ omap hint_of (run_all_checks ev ctx) →
  x ∈ ids_for ev opts h → x ∈ ids_for ev opts h' → h = h'.
Proof.
  assert (∀ h, h ∈ omap hint_of (run_all_checks ev ctx) →
    ∃ c, mc_remediation c = Some h ∧ hint_fits ev c) as Hfit.
  { intros k (c & Hc & Hk)%list_elem_of_omap. exists c.
    unfold hint_of in Hk. destruct (mc_passed c); [done|]. split; [done|].
    by eapply (proj1 (Forall_forall _ _) (run_all_checks_fits ev ctx)). }
  intros (c & Hc & Hf)%Hfit (c' & Hc' & Hf')%Hfit Hx Hx'.
  destruct (id_of_family h h' x) as [|Hs]; [by eapply ids_for_id_of..|done|].
  unfold hint_fits in Hf, Hf'. rewrite Hc in Hf. rewrite Hc' in Hf'.
  destruct h, h'; try done.
  - assert (∀ p, p = foreign_tools ev ∨ p = ["open-vm-tools"] ∧ is_windows ev = false →
      x ∈ ids_for ev opts (RemoveHypervisorTools p) → p = foreign_tools ev) as Hp.
    { intros p [?|[-> Hw]]; [done|]. rewrite open_vm_tools_kept by done.
      by intros ?%not_elem_of_nil. }
    by rewrite (Hp _ Hf Hx), (Hp _ Hf' Hx').
  - destruct Hf as (w & Hw & ->), Hf' as (w' & Hw' & ->). congruence.
Qed.

(** ** Dependencies *)
Definition rebuilds : list string := ["mig-virtio-initramfs-rebuild"; "mig-grub-rebuild"].
Definition repair_rank (x : string) : nat := if bool_decide (x ∈ rebuilds) then 1 else 0.

(** the dependencies of [op] are among [known] and descend. *)
Definition deps_ok (known : list string) (op : Operation) : Prop :=
  length (op_depends_on op) ≤ repair_rank (op_id op) ∧
  ∀ x, x ∈ op_depends_on op → x ∈ known ∧ repair_rank x < repair_rank (op_id op).

Lemma deps_none known op : op_depends_on op = [] → deps_ok known op.
Proof. intros H. unfold deps_ok. rewrite H. split; [cbn; lia|by intros x ?%not_elem_of_nil]. Qed.
Lemma deps_one known op x :
  op_depends_on op = [x] → repair_rank x = 0 → repair_rank (op_id op) = 1 → x ∈ known →
  deps_ok known op.
Proof.
  intros H H0 H1 Hx. unfold deps_ok. rewrite H, H1. split; [cbn; lia|].
  intros y ->%list_elem_of_singleton. split; [done|lia].
Qed.

Lemma repair_deps ev opts h : Forall (deps_ok (ids_for ev opts h)) (repair_for ev opts h).1.
Proof.
  unfold ids_for. hint_cases h; try (apply Forall_imap_ghost; intros; by apply deps_none);
    repeat (apply Forall_cons; split); try apply Forall_nil_2; try (by apply deps_none).
  all: destruct (dracut_based ev);
    repeat (apply Forall_cons; split); try apply Forall_nil_2; try (by apply deps_none).
  all: by eapply deps_one; [done|by vm_compute|by vm_compute|left].
Qed.

Lemma plan_edges_length ops :
  (∀ op, op ∈ ops → length (op_depends_on op) ≤ repair_rank (op_id op)) →
  NoDup (ids ops) → length (plan_edges ops) ≤ 2.
Proof.
  intros Hd Hn.
  assert (length (plan_edges ops) ≤ length (filter (fun x => x ∈ rebuilds) (ids ops))) as Hle.
  { clear Hn. induction ops as [|op ops IH]; [done|]. cbn [plan_edges List.flat_map ids map].
    rewrite length_app. fold (plan_edges ops) (ids ops).
    specialize (IH ltac:(intros; apply Hd; by right)). specialize (Hd op ltac:(by left)).
    unfold op_edges. rewrite length_map. rewrite filter_cons. unfold repair_rank in Hd.
    case_bool_decide; [rewrite decide_True by done|rewrite decide_False by done];
      cbn [length]; lia. }
  etransitivity; [exact Hle|]. apply (submseteq_length _ rebuilds), NoDup_submseteq.
  - by apply NoDup_filter.
  - intros x Hx. by apply list_elem_of_filter in Hx as [? _].
Qed.

(** ** The theorems *)
Definition plan_of_checks ev opts checks : list Operation :=
  kept ∅ (omap hint_of checks) ≫= fun h => (repair_for ev opts h).1.

Lemma from_assessment_plan now a ev opts :
  pl_operations (from_assessment now a ev opts).1 = plan_of_checks ev opts (ma_checks a) ∧
  (from_assessment now a ev opts).2 =
    (kept ∅ (omap hint_of (ma_checks a)) ≫= fun h => (repair_for ev opts h).2).
Proof. exact (repair_loop ev opts (ma_checks a) (mk_repair_state ∅ [] [])). Qed.






(** the plan made from an assessment runs completely: its ids are distinct,
    every dependency is an operation of the plan, and the sorter returns all its
    operations, whatever the iteration order of its maps and the overflow checks. *)
Theorem repair_plan_sorted_completely oc oc' now t ev boot target live a opts iter :
  assess_migration oc now ev boot target live = Ok a →
  (∀ deg, iter deg ≡ₚ map_to_list deg) →
  let plan := (from_assessment t a ev opts).1 in
  NoDup (ids (pl_operations plan)) ∧
  (∀ op x, op ∈ pl_operations plan → x ∈ op_depends_on op → x ∈ ids (pl_operations plan)) ∧
  ∃ sorted, topological_sort iter oc' plan = Ok sorted ∧ sorted ≡ₚ pl_operations plan.
Proof.
  intros Ha Hit plan.
  assert (ma_checks a = run_all_checks ev (assess_context boot target live)) as Hc.
  { unfold assess_migration in Ha. apply outcome_bind_Ok in Ha as (l & _ & [= <-]). done. }
  assert (pl_operations plan = plan_of_checks ev opts (ma_checks a)) as Hops
    by apply from_assessment_plan.
  assert (NoDup (ids (pl_operations plan))) as Hnd.
  { rewrite Hops, Hc. unfold plan_of_checks. rewrite ids_bind. apply NoDup_bind.
    - intros h h' x [Hh _]%kept_sub [Hh' _]%kept_sub. by apply (assessment_hints_apart ev opts (assess_context boot target live)).
    - intros h _. apply ids_for_NoDup.
    - apply kept_NoDup. }
  assert (∀ op, op ∈ pl_operations plan → deps_ok (ids (pl_operations plan)) op) as Hdeps.
  { intros op. rewrite Hops. intros (h & Hop & Hh)%list_elem_of_bind.
    destruct (proj1 (Forall_forall _ _) (repair_deps ev opts h) op Hop) as [Hl Hx].
    split; [done|]. intros x Hin. destruct (Hx x Hin) as [Hk Hr]. split; [|done].
    unfold plan_of_checks. rewrite ids_bind. apply list_elem_of_bind. by exists h. }
  split; [done|]. split; [intros op x Hop Hx; by apply (Hdeps op Hop)|].
  apply (topological_sort_keeps iter oc' plan repair_rank); [|done|].
  - split; [done|]. pose proof (plan_edges_length (pl_operations plan)
      (fun op Hop => proj1 (Hdeps op Hop)) Hnd). lia.
  - intros op x Hop Hx. by apply (Hdeps op Hop).
Qed.
End planner.

(** ** A concrete repair *)
Definition plain_host : @RepairHost ascii_platform := {|
  is_dir := fun _ => false;
  virtio_win_env := None;
  fmt_f64 := fmt_f64_0;
  json_number := (fun _ => tt) : Z → @json_value ascii_platform
|}.
Definition no_options : RepairOptions := mk_RepairOptions false None.

Lemma repair_plan_sorted_completely_witness :
  ∃ a, @assess_migration ascii_platform true "now" broken_guest
      (@analyze_bootability ascii_platform broken_guest Kvm) "kvm" false = Ok a ∧
    ∃ sorted, topological_sort map_to_list true
        (@from_assessment ascii_platform plain_host 0 a broken_guest no_options).1 = Ok sorted ∧
      sorted ≡ₚ
        pl_operations (@from_assessment ascii_platform plain_host 0 a broken_guest no_options).1.
Proof.
  destruct (@assess_Ok ascii_platform true "now" broken_guest Kvm "kvm" false)
    as (legacy & _ & Ha). eexists. split; [exact Ha|].
  exact (proj2 (proj2 (@repair_plan_sorted_completely ascii_platform plain_host true true "now" 0
    broken_guest _ "kvm" false _ no_options map_to_list Ha (fun _ => reflexivity _)))).
Defined.

(** the repairs of the guest: its initramfs is rebuilt after the configuration is
    written. *)
Example broken_guest_repairs :
  (fun a => (fun p => (ids (pl_operations p.1), pl_overall_risk p.1))
     (@from_assessment ascii_platform plain_host 0 a broken_guest no_options)) <$>
  @assess_migration ascii_platform true "now" broken_guest
    (@analyze_bootability ascii_platform broken_guest Kvm) "kvm" false =
  Ok (["mig-virtio-initramfs-conf"; "mig-virtio-initramfs-rebuild"], "medium").
Proof. by vm_compute. Qed.
