(* ===== verification/LiveExec.v ===== *)
(** * The live plan executor

    [src/cli/plan/executor_live.rs] (Unix build, root [/]): an operation is
    applied to the running system after the files it changes were copied to the
    rollback directory and entered in the manifest; a failed operation can stop
    the run ([fail_fast]) and trigger the rollback ([auto_rollback]).

    The state is [world]: the regular files, by path, with content and permission
    bits, the backups and the manifest of the rollback directory among them; whether
    that directory was made; and a counter of the calls made.
    Code outside the repository is the class [System]: [io n] says that the
    [n]-th file-system call fails and what it leaves of its file, [exec] runs a
    command, [manifest_json] and [manifest_of_json] are the text of a manifest in
    [serde_json] and its reader, [make_symlink] is [unix::fs::symlink], [make_dirs] is
    [create_dir_all], [sha256] and [fmt_json] are the digest and the text of a
    JSON value in the reports.  No theorem restricts them but where it says so.

    The paths are those of regular files: an operation on a directory or on a
    dangling link is outside the model, and so are the Windows branches and the
    roots other than [/] (tests only). *)
From stdpp Require Import base gmap strings list.
From Stdlib Require Import ZArith Lia Ascii.
From S2P Require Import Prelude RustStr Partition Filesystem Kahn FixPlan.

Record file : Type := mk_file { f_content : string; f_mode : Z }.

Record RollbackFileEntry : Type := mk_RollbackFileEntry {
  rf_original_path : string;
  rf_backup_path : string;
  rf_removed : bool
}.

#[export] Instance RollbackFileEntry_eq_dec : EqDecision RollbackFileEntry.
Proof. solve_decision. Defined.

Record world : Type := mk_world {
  w_files : gmap string file;
  w_rollback_dir : bool;
  w_calls : nat
}.

(** the result of a command: its exit code (none when a signal ended it) and its
    standard output. *)
Record cmd_result : Type := mk_cmd_result { cr_exit : option Z; cr_stdout : string }.

Class System := {
  (** a failing call leaves its file as told *)
  io : nat → option (option file → option file);
  (** [serde_json::to_string_pretty] and [serde_json::from_str] of a manifest *)
  manifest_json : list RollbackFileEntry → string;
  manifest_of_json : string → option (list RollbackFileEntry);
  (** mode bits of a new file *)
  new_file_mode : Z;
  (** [Command::new(argv[0])] with the other arguments; the error's text when it
      cannot start *)
  exec : list string → gmap string file → gmap string file * (string + cmd_result);
  make_symlink : string → string → gmap string file → gmap string file * bool;
  make_dirs : string → nat → bool;
  (** the digest of [sha2::Sha256], as bytes *)
  sha256 : string → list Z
}.
(** [Display] of a [serde_json::Value]. *)
Class JsonText `{Platform} := fmt_json : json_value → string.

(** errors of the executor: an I/O error of the numbered call, or a message. *)
Inductive exec_error : Type := ErrIo (call : nat) | ErrText (message : string).

(** ** The effect monad *)
Definition run (A : Type) : Type := world → world * outcome exec_error A.

#[export] Instance run_ret : MRet run := fun A a w => (w, Ok a).
#[export] Instance run_bind : MBind run := fun A B f m w =>
  match m w with
  | (w, Ok a) => f a w
  | (w, Err e) => (w, Err e)
  | (w, Panic) => (w, Panic)
  end.
Definition throw {A} (e : exec_error) : run A := fun w => (w, Err e).
Definition get : run world := fun w => (w, Ok w).

Definition set_files (fs : gmap string file) (w : world) : world :=
  mk_world fs (w_rollback_dir w) (w_calls w).
Definition count_call (w : world) : world :=
  mk_world (w_files w) (w_rollback_dir w) (S (w_calls w)).

(** a [Result] whose error is dropped ([let _ =], [.ok()]). *)
Definition ok_of {A} (m : run A) : run (option A) := fun w =>
  match m w with
  | (w, Ok a) => (w, Ok (Some a))
  | (w, Err _) => (w, Ok None)
  | (w, Panic) => (w, Panic)
  end.

Section executor.
Context `{P : Platform} `{J : !JsonText} `{Sys : System}.

(** [anyhow::Context]: the message of the context is the error's. *)
Definition with_context {A} (message : string) (m : run A) : run A := fun w =>
  match m w with
  | (w, Err _) => (w, Err (ErrText message))
  | r => r
  end.

(** ** File-system calls *)

(** a call on the file [p] that replaces it by [new] when it succeeds. *)
Definition fs_update (p : string) (new : gmap string file → option file) : run () := fun w =>
  let n := w_calls w in
  let w := count_call w in
  match io n with
  | None =>
      match new (w_files w) with
      | Some f => (set_files (<[p := f]> (w_files w)) w, Ok ())
      | None => (w, Err (ErrIo n))
      end
  | Some leaves =>
      (set_files (partial_alter leaves p (w_files w)) w, Err (ErrIo n))
  end.

(** [Path::exists]. *)
Definition exists_path (p : string) : run bool := fun w =>
  (w, Ok (bool_decide (is_Some (w_files w !! p)))).

(** [fs::write]: keeps the mode of an existing file. *)
Definition fs_write (p content : string) : run () :=
  fs_update p (fun fs => Some (mk_file content (default new_file_mode (f_mode <$> fs !! p)))).
(** [fs::copy]: content and permission bits. *)
Definition fs_copy (src dst : string) : run () := fs_update dst (fun fs => fs !! src).
(** [fs::set_permissions]. *)
Definition fs_chmod (p : string) (mode : Z) : run () :=
  fs_update p (fun fs =>
    (fun f => mk_file (f_content f) (Z.land mode 4095)) <$> fs !! p).
(** [fs::remove_file]. *)
Definition fs_remove (p : string) : run () := fun w =>
  let n := w_calls w in
  let w := count_call w in
  match io n, w_files w !! p with
  | None, Some _ => (set_files (delete p (w_files w)) w, Ok ())
  | None, None => (w, Err (ErrIo n))
  | Some leaves, _ => (set_files (partial_alter leaves p (w_files w)) w, Err (ErrIo n))
  end.
(** [fs::read_to_string]: the content must be UTF-8. *)
Definition utf8_valid (s : string) : bool :=
  String.eqb (from_utf8_lossy (byte_of <$> String.list_ascii_of_string s)) s.
Definition fs_read (p : string) : run string := fun w =>
  let n := w_calls w in
  let w := count_call w in
  match io n, w_files w !! p with
  | None, Some f =>
      if utf8_valid (f_content f) then (w, Ok (f_content f)) else (w, Err (ErrIo n))
  | _, _ => (w, Err (ErrIo n))
  end.
(** [fs::read]: the bytes. *)
Definition fs_bytes (p : string) : run string := fun w =>
  let n := w_calls w in
  let w := count_call w in
  match io n, w_files w !! p with
  | None, Some f => (w, Ok (f_content f))
  | _, _ => (w, Err (ErrIo n))
  end.
(** [fs::metadata]: the permission bits. *)
Definition fs_mode (p : string) : run Z := fun w =>
  let n := w_calls w in
  let w := count_call w in
  match io n, w_files w !! p with
  | None, Some f => (w, Ok (f_mode f))
  | _, _ => (w, Err (ErrIo n))
  end.
(** [fs::create_dir_all]. *)
Definition fs_create_dirs (p : string) : run () := fun w =>
  let n := w_calls w in
  (count_call w, if make_dirs p n then Ok () else Err (ErrIo n)).
(** [Command::output] / [Command::status]. *)
Definition command (argv : list string) : run (string + cmd_result) := fun w =>
  let '(fs, res) := exec argv (w_files w) in
  (set_files fs (count_call w), Ok res).

(** [Path::parent]: up to the last slash (the root has none, and [create_dir_all]
    of the empty path does nothing). *)
Fixpoint up_to_slash (s : string) : option string :=
  match s with
  | EmptyString => None
  | String c s =>
      match up_to_slash s with
      | Some p => Some (String c p)
      | None => if Ascii.eqb c "/"%char then Some "" else None
      end
  end.
Definition create_parent (p : string) : run () :=
  match up_to_slash p with
  | Some d => fs_create_dirs (if is_empty d then "/" else d)
  | None => mret ()
  end.

(** ** Snapshots *)
Definition backup_name (path : string) : string :=
  replace_chars ["/"; "\"; ":"]%char "_"%char (trim_start_matches "/" path).
Definition backup_path (rollback_dir path : string) : string :=
  rollback_dir +:+ "/" +:+ backup_name path.

(** [manifest.json] is a file of the rollback directory, beside the backups. *)
Definition manifest_path (rollback_dir : string) : string := rollback_dir +:+ "/" +:+ "manifest.json".
(** its entries, or none when there is no such file. *)
Definition load_manifest (rollback_dir : string) : run (list RollbackFileEntry) :=
  there ← exists_path (manifest_path rollback_dir);
  if negb there then mret []
  else
    text ← fs_read (manifest_path rollback_dir);
    match manifest_of_json text with
    | Some files => mret files
    | None => throw (ErrText "manifest.json is not a manifest")
    end.
Definition write_manifest (rollback_dir : string) (files : list RollbackFileEntry) : run () :=
  fs_write (manifest_path rollback_dir) (manifest_json files).

Definition snapshot_file (rollback_dir path : string) : run () :=
  there ← exists_path path;
  if negb there then mret ()
  else
    let backup_path := backup_path rollback_dir path in
    fs_copy path backup_path ;;
    files ← load_manifest rollback_dir;
    if existsb (fun f => String.eqb (rf_original_path f) path) files then mret ()
    else write_manifest rollback_dir (files ++ [mk_RollbackFileEntry path backup_path false]).

(** ** Operations *)

(** the loop over [fe.changes] on the lines of the file. *)
Fixpoint replace_first (before after : string) (ls : list string) : option (list string) :=
  match ls with
  | [] => None
  | l :: ls =>
      if String.eqb (trim l) (trim before) then Some (after :: ls)
      else cons l <$> replace_first before after ls
  end.
Definition edit_line (ls : list string) (change : FileChange) : list string :=
  match replace_first (fc_before change) (fc_after change) ls with
  | Some ls => ls
  | None =>
      if (0 <? fc_line change)%nat && (fc_line change <=? length ls)%nat
      then <[fc_line change - 1 := fc_after change]> ls else ls
  end.
Definition edit_content (changes : list FileChange) (content : string) : string :=
  join newline_str (foldl edit_line (lines content) changes) +:+ newline_str.

Definition selinux_line (sm : SELinuxMode) (line : string) : string :=
  let trimmed := trim_start line in
  if negb (starts_with "#" trimmed) && starts_with ("SELINUX=" +:+ sm_current sm) trimmed
  then "SELINUX=" +:+ sm_target sm else line.
Definition selinux_content (sm : SELinuxMode) (content : string) : string :=
  join newline_str (map (selinux_line sm) (lines content)) +:+ newline_str.

Definition apply_file_edit (rd : string) (fe : FileEdit) : run bool :=
  snapshot_file rd (fed_file fe) ;;
  content ← with_context ("read " +:+ fed_file fe) (fs_read (fed_file fe));
  fs_write (fed_file fe) (edit_content (fed_changes fe) content) ;;
  mret true.

Definition apply_file_write (rd : string) (fw : FileWrite) : run bool :=
  let path := fw_path fw in
  there ← exists_path path;
  (if there : bool then snapshot_file rd path else mret ()) ;;
  create_parent path ;;
  let content :=
    if ends_with_char (ascii_of_byte 10) (fw_content fw) then fw_content fw
    else fw_content fw +:+ newline_str in
  fs_write path content ;;
  match fw_mode fw with
  | Some mode_str => fs_chmod path (default 420%Z (parse_octal mode_str)) ;; mret true
  | None => mret true
  end.

(** [unix::fs::symlink]. *)
Definition fs_symlink (target link : string) : run bool := fun w =>
  let n := w_calls w in
  let '(fs, ok) := make_symlink target link (w_files w) in
  (set_files fs (count_call w), if ok : bool then Ok true else Err (ErrIo n)).
Definition apply_symlink (sl : Symlink) : run bool :=
  create_parent (sl_link_path sl) ;;
  there ← exists_path (sl_link_path sl);
  (if there : bool then ok_of (fs_remove (sl_link_path sl)) ;; mret () else mret ()) ;;
  fs_symlink (sl_target sl) (sl_link_path sl).

Definition apply_file_delete (rd : string) (fd : FileDelete) : run bool :=
  there ← exists_path (fd_path fd);
  if negb there then
    if fd_missing_ok fd then mret true
    else throw (ErrText ("File to delete not found: " +:+ fd_path fd))
  else
    snapshot_file rd (fd_path fd) ;;
    fs_remove (fd_path fd) ;;
    mret true.

Definition apply_command (ce : CommandExec) : run bool :=
  let argv :=
    match cx_interpreter ce with
    | Some interp =>
        match split_whitespace interp with
        | [] => ["sh"]
        | parts => parts
        end ++ [cx_command ce]
    | None => ["sh"; "-c"; cx_command ce]
    end in
  res ← command argv;
  match res with
  | inl _ => throw (ErrText ("exec " +:+ cx_command ce))
  | inr r =>
      if bool_decide (default (-1)%Z (cr_exit r) ≠ cx_expected_exit ce) then
        throw (ErrText ("command '" +:+ cx_command ce +:+ "' exited with "
          +:+ match cr_exit r with Some z => "Some(" +:+ fmt_Z z +:+ ")" | None => "None" end
          +:+ ", expected " +:+ fmt_Z (cx_expected_exit ce)))
      else mret true
  end.

Definition apply_permissions (rd : string) (fp : FilePermissions) : run bool :=
  snapshot_file rd (fp_path fp) ;;
  match parse_octal (if is_empty (fp_mode fp) then "0" else fp_mode fp) with
  | None => throw (ErrText "invalid digit found in string")
  | Some mode => fs_chmod (fp_path fp) mode ;; mret true
  end.

Definition apply_file_copy (rd : string) (fc : FileCopy) : run bool :=
  there ← exists_path (cp_destination fc);
  (if cp_backup fc && there then snapshot_file rd (cp_destination fc) else mret ()) ;;
  create_parent (cp_destination fc) ;;
  fs_copy (cp_source fc) (cp_destination fc) ;;
  mret true.

(** a failing read is ignored, a failing write is not. *)
Definition rewrite_selinux (sm : SELinuxMode) : run () :=
  content ← ok_of (fs_read (sm_file sm));
  match content with
  | Some content => fs_write (sm_file sm) (selinux_content sm content)
  | None => mret ()
  end.
Definition apply_selinux (rd : string) (sm : SELinuxMode) : run bool :=
  snapshot_file rd (sm_file sm) ;;
  rewrite_selinux sm ;;
  command ["setenforce"; if String.eqb (sm_target sm) "enforcing" then "1" else "0"] ;;
  mret true.

Definition install_packages (packages : list string) : run () :=
  match packages with
  | [] => mret ()
  | _ =>
      apt ← exists_path "/usr/bin/apt-get";
      dnf ← exists_path "/usr/bin/dnf";
      zypper ← exists_path "/usr/bin/zypper";
      let manager :=
        if apt : bool then Some "apt-get" else if dnf : bool then Some "dnf"
        else if zypper : bool then Some "zypper" else None in
      match manager with
      | None => throw (ErrText "no supported package manager found")
      | Some program =>
          res ← command (program :: "install" :: "-y" :: packages);
          match res with
          | inl e => throw (ErrText e)
          | inr r =>
              if bool_decide (cr_exit r = Some 0%Z) then mret ()
              else throw (ErrText "package install failed")
          end
      end
  end.

(** the results of the commands are ignored. *)
Definition apply_service (so : ServiceOperation) : run bool :=
  (if so_restart so then command ["systemctl"; "restart"; so_service so] ;; mret ()
   else if so_start so then command ["systemctl"; "start"; so_service so] ;; mret ()
   else mret ()) ;;
  match so_state so with
  | Some state =>
      command ["systemctl"; if String.eqb state "enabled" then "enable" else "disable";
               so_service so] ;;
      mret true
  | None => mret true
  end.

Definition apply_operation (rd : string) (op : Operation) : run bool :=
  match op_type op with
  | OpFileEdit fe => apply_file_edit rd fe
  | OpFileWrite fw => apply_file_write rd fw
  | OpSymlink sl => apply_symlink sl
  | OpFileDelete fd => apply_file_delete rd fd
  | OpCommandExec ce => apply_command ce
  | OpFilePermissions fp => apply_permissions rd fp
  | OpDirectoryCreate dc => fs_create_dirs (dc_path dc) ;; mret true
  | OpFileCopy fc => apply_file_copy rd fc
  | OpSelinuxMode sm => apply_selinux rd sm
  | OpPackageInstall pi => install_packages (pi_packages pi) ;; mret true
  | OpServiceOperation so => apply_service so
  | OpRegistryEdit _ => mret false
  | OpDriverInject _ => throw (ErrText "driver injection is a Windows operation")
  end.

(** ** Reports *)
Definition hex_encode (bytes : list Z) : string := join "" (map fmt_02x bytes).
Definition file_digest (p : string) : run (option string) :=
  bytes ← ok_of (fs_bytes p);
  mret ((fun bytes =>
    fmt_nat (String.length bytes) +:+ " bytes, sha256:" +:+ hex_encode (take 8 (sha256 bytes)))
    <$> bytes).

Definition lossy (bytes : string) : string :=
  from_utf8_lossy (byte_of <$> String.list_ascii_of_string bytes).
Definition fmt_exists (key p : string) : run string :=
  there ← exists_path p; mret (key +:+ "=" +:+ fmt_bool there).
Definition capture_before (op : Operation) : run (option string) :=
  match op_type op with
  | OpFileEdit fe => file_digest (fed_file fe)
  | OpFileWrite fw => file_digest (fw_path fw)
  | OpSymlink sl =>
      s ← fmt_exists "link" (sl_link_path sl); mret (Some (s +:+ " target=" +:+ sl_target sl))
  | OpFileDelete fd => s ← fmt_exists "exists" (fd_path fd); mret (Some s)
  | OpFileCopy fc => file_digest (cp_destination fc)
  | OpFilePermissions fp =>
      mode ← ok_of (fs_mode (fp_path fp));
      mret ((fun m => "mode " +:+ fmt_octal (Z.land m 4095)) <$> mode)
  | OpDirectoryCreate dc => s ← fmt_exists "exists" (dc_path dc); mret (Some s)
  | OpSelinuxMode sm =>
      content ← ok_of (fs_read (sm_file sm));
      mret (content ≫= fun c =>
        List.find (fun l => starts_with "SELINUX=" (trim_start l)) (lines c))
  | OpServiceOperation so =>
      res ← command ["systemctl"; "is-active"; so_service so];
      mret (match res with inr r => Some (trim (lossy (cr_stdout r))) | inl _ => None end)
  | OpRegistryEdit _ => mret None
  | OpDriverInject di =>
      mret (Some ("driver " +:+ di_driver_name di +:+ " not yet injected (source "
                  +:+ di_source di +:+ ")"))
  | OpPackageInstall _ | OpCommandExec _ => mret None
  end.

Definition describe_change (op : Operation) : string :=
  match op_type op with
  | OpFileEdit fe =>
      "edit " +:+ fed_file fe +:+ " (" +:+ fmt_nat (length (fed_changes fe)) +:+ " change(s))"
  | OpFileWrite fw => "write " +:+ fw_path fw
  | OpSymlink sl => "symlink " +:+ sl_link_path sl +:+ " -> " +:+ sl_target sl
  | OpFileDelete fd => "delete " +:+ fd_path fd
  | OpCommandExec ce => "run: " +:+ cx_command ce
  | OpFilePermissions fp => "chmod " +:+ fp_mode fp +:+ " " +:+ fp_path fp
  | OpDirectoryCreate dc => "mkdir -p " +:+ dc_path dc
  | OpFileCopy fc => "copy " +:+ cp_source fc +:+ " -> " +:+ cp_destination fc
  | OpSelinuxMode sm =>
      "SELinux " +:+ sm_current sm +:+ " -> " +:+ sm_target sm +:+ " in " +:+ sm_file sm
  | OpPackageInstall pi => "install packages: " +:+ join ", " (pi_packages pi)
  | OpServiceOperation so => "service op on " +:+ so_service so
  | OpRegistryEdit re =>
      "registry set " +:+ re_key re +:+ "\" +:+ re_value re +:+ " = " +:+ fmt_json (re_new_data re)
  | OpDriverInject di =>
      "inject driver " +:+ di_driver_name di +:+ " from " +:+ di_inf_path di
      +:+ " (boot_critical=" +:+ fmt_bool (di_boot_critical di) +:+ ")"
  end.

Definition describe_rollback (op : Operation) : string :=
  match op_undo op with
  | Some (UndoCommand command) => "run: " +:+ command
  | Some (UndoFileChanges changes) =>
      "revert " +:+ fmt_nat (length changes) +:+ " file change(s)"
  | Some (UndoData _) => "apply recorded undo data"
  | None =>
      match op_type op with
      | OpFileEdit _ | OpFileWrite _ | OpFileCopy _ | OpFilePermissions _ | OpFileDelete _
      | OpSelinuxMode _ => "restore file snapshot from rollback directory"
      | _ =>
          if negb (op_reversible op) then "NOT REVERSIBLE"
          else "no automatic rollback recorded"
      end
  end.

Definition backup_path_for (op : Operation) (rollback_dir : string) : option string :=
  backup_path rollback_dir <$>
  match op_type op with
  | OpFileEdit fe => Some (fed_file fe)
  | OpFileWrite fw => Some (fw_path fw)
  | OpFileDelete fd => Some (fd_path fd)
  | OpFileCopy fc => Some (cp_destination fc)
  | OpFilePermissions fp => Some (fp_path fp)
  | OpSelinuxMode sm => Some (sm_file sm)
  | OpSymlink sl => Some (sl_link_path sl)
  | _ => None
  end.

(** ** Validation, rollback, post-apply *)
Record ValidationOutcome : Type := mk_ValidationOutcome {
  vo_command : string;
  vo_exit_code : option Z;
  vo_passed : bool;
  vo_detail : option string
}.

Definition run_op_validation (op : Operation) : run (option ValidationOutcome) :=
  match op_validation op with
  | None => mret None
  | Some check =>
      res ← command ["sh"; "-c"; vc_command check];
      mret (Some
        match res with
        | inr out =>
            let passed := bool_decide (cr_exit out = Some (vc_expected_exit check)) in
            let stdout := lossy (cr_stdout out) in
            let passed :=
              passed && match vc_expected_output check with
                        | Some expected => contains expected stdout
                        | None => true
                        end in
            mk_ValidationOutcome (vc_command check) (cr_exit out) passed
              (if passed then None else Some (take_chars 500 stdout))
        | inl e => mk_ValidationOutcome (vc_command check) None false (Some e)
        end)
  end.

(** one entry of the manifest. *)
Definition restore_entry (entry : RollbackFileEntry) : run () :=
  there ← exists_path (rf_backup_path entry);
  if there : bool then
    create_parent (rf_original_path entry) ;;
    fs_copy (rf_backup_path entry) (rf_original_path entry)
  else if rf_removed entry then ok_of (fs_remove (rf_original_path entry)) ;; mret ()
  else mret ().
Fixpoint restore_all (files : list RollbackFileEntry) : run () :=
  match files with
  | [] => mret ()
  | entry :: files => restore_entry entry ;; restore_all files
  end.
Definition rollback_root : string := "/var/lib/guestkit/rollback".
Definition rollback (plan_id : string) : run string :=
  w ← get;
  if negb (w_rollback_dir w)
  then throw (ErrText ("rollback snapshot not found: " +:+ plan_id))
  else
    files ← load_manifest (rollback_root +:+ "/" +:+ plan_id);
    restore_all files ;;
    mret ("Rollback complete for plan " +:+ plan_id).

Fixpoint restart_services (services : list string) : run () :=
  match services with
  | [] => mret ()
  | svc :: services => command ["systemctl"; "restart"; svc] ;; restart_services services
  end.
Fixpoint run_post_apply (actions : list PostApplyAction) : run () :=
  match actions with
  | [] => mret ()
  | action :: actions =>
      match action with
      | ServiceRestart services => restart_services services
      | Validation cmd _ =>
          res ← command ["sh"; "-c"; cmd];
          match res with
          | inl _ => throw (ErrText ("validation: " +:+ cmd))
          | inr _ => mret ()
          end
      | Message _ | RebootRequired _ => mret ()
      end ;;
      run_post_apply actions
  end.

(** ** The run *)
Inductive OpStatus : Set := Applied | Skipped | Failed | RolledBack | DryRun | NotReached.
#[export] Instance OpStatus_eq_dec : EqDecision OpStatus.
Proof. solve_decision. Defined.

Record OperationOutcome : Type := mk_OperationOutcome {
  oo_op_id : string;
  oo_status : OpStatus;
  oo_before_state : option string;
  oo_planned_change : string;
  oo_executed_change : option string;
  oo_backup_path : option string;
  oo_validation : option ValidationOutcome;
  oo_rollback_procedure : string;
  oo_error : option exec_error
}.

Record ApplyResult : Type := mk_ApplyResult {
  ar_success : bool;
  ar_applied : nat;
  ar_failed : nat;
  ar_skipped : nat;
  ar_message : string;
  ar_outcomes : list OperationOutcome;
  ar_rollback_dir : option string
}.

Record LivePlanExecutor : Type := mk_LivePlanExecutor {
  le_dry_run : bool;
  le_fail_fast : bool;
  le_auto_rollback : bool
}.
Definition LivePlanExecutor_new (dry_run : bool) : LivePlanExecutor :=
  mk_LivePlanExecutor dry_run false false.
Definition LivePlanExecutor_for_migration (dry_run : bool) : LivePlanExecutor :=
  mk_LivePlanExecutor dry_run true true.

(** the mutable variables of the loop. *)
Record loop_state : Type := mk_loop_state {
  ls_outcomes : list OperationOutcome;
  ls_applied : nat;
  ls_failed : nat;
  ls_skipped : nat;
  ls_aborted : bool
}.

(** the outcome of an operation, with the fields that depend on it alone. *)
Definition outcome_of (op : Operation) (status : OpStatus) (before executed backup : option string)
    (validation : option ValidationOutcome) (error : option exec_error) : OperationOutcome :=
  mk_OperationOutcome (op_id op) status before (describe_change op) executed backup validation
    (describe_rollback op) error.

(** the operation and the arms of [match result], [before] being the captured state. *)
Definition apply_recorded (ex : LivePlanExecutor) (rd : string) (s : loop_state) (op : Operation)
    (before : option string) : run loop_state := fun w =>
  let '(w, result) := apply_operation rd op w in
  let push status executed validation error :=
    ls_outcomes s ++
      [outcome_of op status before executed (backup_path_for op rd) validation error] in
  match result with
  | Ok true =>
      match run_op_validation op w with
      | (w, Ok validation) =>
          if match validation with Some v => negb (vo_passed v) | None => false end then
            (w, Ok (mk_loop_state
               (push Failed None validation (Some (ErrText "post-operation validation failed")))
               (ls_applied s) (S (ls_failed s)) (ls_skipped s) (le_fail_fast ex)))
          else
            (w, Ok (mk_loop_state (push Applied (Some (describe_change op)) validation None)
               (S (ls_applied s)) (ls_failed s) (ls_skipped s) false))
      | (w, Err e) => (w, Err e)
      | (w, Panic) => (w, Panic)
      end
  | Ok false =>
      (w, Ok (mk_loop_state (push Skipped None None None) (ls_applied s) (ls_failed s)
                (S (ls_skipped s)) false))
  | Err e =>
      (w, Ok (mk_loop_state (push Failed None None (Some e)) (ls_applied s) (S (ls_failed s))
                (ls_skipped s) (le_fail_fast ex)))
  | Panic => (w, Panic)
  end.

Definition apply_step (ex : LivePlanExecutor) (rd : string) (s : loop_state) (op : Operation)
    : run loop_state :=
  if ls_aborted s then
    mret (mk_loop_state (ls_outcomes s ++ [outcome_of op NotReached None None None None None])
            (ls_applied s) (ls_failed s) (S (ls_skipped s)) true)
  else
    before ← capture_before op;
    apply_recorded ex rd s op before.
Fixpoint apply_loop (ex : LivePlanExecutor) (rd : string) (s : loop_state)
    (ops : list Operation) : run loop_state :=
  match ops with
  | [] => mret s
  | op :: ops => s ← apply_step ex rd s op; apply_loop ex rd s ops
  end.

Definition rolled_back (o : OperationOutcome) : OperationOutcome :=
  if bool_decide (oo_status o = Applied)
  then mk_OperationOutcome (oo_op_id o) RolledBack (oo_before_state o) (oo_planned_change o)
    (oo_executed_change o) (oo_backup_path o) (oo_validation o) (oo_rollback_procedure o)
    (oo_error o)
  else o.

Definition plan_id_for (plan : FixPlan) : string :=
  replace_chars ["/"%char] "_"%char (pl_vm plan) +:+ "-" +:+ fmt_Z (pl_generated plan).
(** [if failed > 0 && self.auto_rollback]: was the rollback done? *)
Definition auto_rollback (ex : LivePlanExecutor) (plan : FixPlan) (s : loop_state) (w : world)
    : world * bool :=
  if (0 <? ls_failed s)%nat && le_auto_rollback ex then
    match rollback (plan_id_for plan) w with
    | (w, Ok _) => (w, true)
    | (w, _) => (w, false)
    end
  else (w, false).

(** after the loop: the rollback, the post-apply actions, the report. *)
Definition finish (ex : LivePlanExecutor) (plan : FixPlan) (rd : string) (s : loop_state)
    : run ApplyResult := fun w =>
  let '(w, rolled) := auto_rollback ex plan s w in
  let outcomes := if rolled : bool then map rolled_back (ls_outcomes s) else ls_outcomes s in
  let ok := (ls_failed s =? 0)%nat in
  let applied := fmt_nat (ls_applied s) in
  let failed := fmt_nat (ls_failed s) in
  let message :=
    if ok then
      "Live plan applied (" +:+ applied +:+ " operations, rollback: " +:+ fmt_debug_str rd
      +:+ ")"
    else if rolled then
      applied +:+ " applied, " +:+ failed +:+ " failed — file snapshots restored"
    else applied +:+ " applied, " +:+ failed +:+ " failed" in
  let result :=
    mk_ApplyResult ok (ls_applied s) (ls_failed s) (ls_skipped s) message outcomes (Some rd) in
  if ok then
    match run_post_apply (pl_post_apply plan) w with
    | (w, Ok _) => (w, Ok result)
    | (w, Err e) => (w, Err e)
    | (w, Panic) => (w, Panic)
    end
  else (w, Ok result).

Definition open_rollback_dir (rd : string) : run () := fun w =>
  match with_context "create rollback directory" (fs_create_dirs rd) w with
  | (w, Ok _) => (mk_world (w_files w) true (w_calls w), Ok ())
  | r => r
  end.

(** the outcomes of a dry run. *)
Fixpoint dry_outcomes (ops : list Operation) : run (list OperationOutcome) :=
  match ops with
  | [] => mret []
  | op :: ops =>
      before ← capture_before op;
      rest ← dry_outcomes ops;
      mret (outcome_of op DryRun before None None None None :: rest)
  end.

Definition live_apply (iter : deg_map → list (string * Z)) (overflow_checks : bool)
    (ex : LivePlanExecutor) (plan : FixPlan) : run ApplyResult := fun w =>
  let rd := rollback_root +:+ "/" +:+ plan_id_for plan in
  match topological_sort iter overflow_checks plan with
  | Ok sorted =>
      if le_dry_run ex then
        (outcomes ← dry_outcomes sorted;
         mret (mk_ApplyResult true 0 0 (length sorted) "Dry run completed - no changes made"
           outcomes None)) w
      else
        (open_rollback_dir rd ;;
         s ← apply_loop ex rd (mk_loop_state [] 0 0 0 false) sorted;
         finish ex plan rd s) w
  | _ => (w, Panic)
  end.
End executor.

(** ASCII text is valid UTF-8. *)
Lemma str_forall_cons q c s :
  str_forall q (String c s) = true ↔ q c = true ∧ str_forall q s = true.
Proof. cbn. by rewrite andb_true_iff. Qed.
Lemma ascii_of_byte_of c : ascii_of_byte (byte_of c) = c.
Proof. unfold ascii_of_byte, byte_of. rewrite N2Z.id. apply ascii_N_embedding. Qed.
Lemma utf8_valid_ascii s : str_forall char_is_ascii s = true → utf8_valid s = true.
Proof.
  intros Hs. unfold utf8_valid, from_utf8_lossy. apply String.eqb_eq.
  rewrite length_fmap. induction s as [|c s IH]; [done|].
  apply str_forall_cons in Hs as [Hc Hs]. cbn. unfold char_is_ascii in Hc.
  unfold utf8_step. cbn [idx nth]. unfold idx. cbn. rewrite Hc. cbn. rewrite ascii_of_byte_of.
  f_equal. by apply IH.
Qed.
