(* ===== verification/LiveProps.v ===== *)
(** * What a live run guarantees

    Theorems on [LiveExec]: every operation of the sorted plan has one outcome and
    is counted once, [fail_fast] stops at the first failure, and after a failed
    run with [auto_rollback] the files the plan's file operations target have the
    content and mode they had before, provided each file is the target of one
    operation and no two backups share a name. *)
From stdpp Require Import base gmap strings list.
From Stdlib Require Import ZArith Lia Ascii.
From S2P Require Import Prelude RustStr Partition Filesystem Kahn FixPlan LiveExec.

Create HintDb no_panic.
Create HintDb frames.

Section accounting.
Context `{P : Platform} `{J : !JsonText} `{Sys : System}.
Implicit Types (w : world) (op : Operation) (s : loop_state).

(** ** No run panics *)
Definition no_panic {A} (m : run A) : Prop := ∀ w, (m w).2 ≠ Panic.

Lemma no_panic_ret {A} (a : A) : no_panic (mret a).
Proof. by intros w. Qed.
Lemma no_panic_bind {A B} (m : run A) (f : A → run B) :
  no_panic m → (∀ a, no_panic (f a)) → no_panic (m ≫= f).
Proof.
  intros Hm Hf w. unfold mbind, run_bind. specialize (Hm w).
  destruct (m w) as [w' [a|e|]]; [apply Hf|done|done].
Qed.
Lemma no_panic_throw {A} e : no_panic (throw (A := A) e).
Proof. by intros w. Qed.
Lemma no_panic_context {A} msg (m : run A) : no_panic m → no_panic (with_context msg m).
Proof. intros Hm w. unfold with_context. specialize (Hm w). by destruct (m w) as [? []]. Qed.
Lemma no_panic_update p new : no_panic (fs_update p new).
Proof. intros w. unfold fs_update. by repeat case_match. Qed.
Lemma no_panic_exists p : no_panic (exists_path p).
Proof. by intros w. Qed.
Lemma no_panic_read p : no_panic (fs_read p).
Proof. intros w. unfold fs_read. by repeat case_match. Qed.
Lemma no_panic_remove p : no_panic (fs_remove p).
Proof. intros w. unfold fs_remove. by repeat case_match. Qed.
Lemma no_panic_dirs p : no_panic (fs_create_dirs p).
Proof. intros w. unfold fs_create_dirs. by case_match. Qed.
Lemma no_panic_command argv : no_panic (command argv).
Proof. intros w. unfold command. by destruct (exec _ _). Qed.
Lemma no_panic_parent p : no_panic (create_parent p).
Proof. unfold create_parent. case_match; [apply no_panic_dirs|apply no_panic_ret]. Qed.
Lemma no_panic_load rd : no_panic (load_manifest rd).
Proof.
  apply no_panic_bind; [apply no_panic_exists|]. intros []; [|apply no_panic_ret].
  apply no_panic_bind; [apply no_panic_read|]. intros text.
  destruct (manifest_of_json text); [apply no_panic_ret|apply no_panic_throw].
Qed.
Lemma no_panic_write_manifest rd l : no_panic (write_manifest rd l).
Proof. apply no_panic_update. Qed.
Lemma no_panic_symlink a b : no_panic (fs_symlink a b).
Proof. intros w. unfold fs_symlink. destruct (make_symlink _ _ _) as [? []]; done. Qed.

Lemma no_panic_bytes p : no_panic (fs_bytes p).
Proof. intros w. unfold fs_bytes. by repeat case_match. Qed.
Lemma no_panic_mode p : no_panic (fs_mode p).
Proof. intros w. unfold fs_mode. by repeat case_match. Qed.
Lemma no_panic_ok_of {A} (m : run A) : no_panic m → no_panic (ok_of m).
Proof. intros Hm w. unfold ok_of. specialize (Hm w). by destruct (m w) as [? []]. Qed.

Hint Resolve no_panic_bytes no_panic_mode no_panic_ok_of no_panic_ret no_panic_throw no_panic_context no_panic_update no_panic_exists
  no_panic_read no_panic_remove no_panic_dirs no_panic_command no_panic_parent
  no_panic_load no_panic_write_manifest no_panic_symlink : no_panic.
Ltac panic_free :=
  repeat first [solve [auto with no_panic] | apply no_panic_bind; [|intros ?] | case_match].

Lemma no_panic_snapshot rd p : no_panic (snapshot_file rd p).
Proof. unfold snapshot_file, fs_copy. panic_free. Qed.
Hint Resolve no_panic_snapshot : no_panic.
Lemma no_panic_selinux sm : no_panic (rewrite_selinux sm).
Proof. unfold rewrite_selinux, fs_write. panic_free. Qed.
Hint Resolve no_panic_selinux : no_panic.

Lemma no_panic_operation rd op : no_panic (apply_operation rd op).
Proof.
  unfold apply_operation. destruct (op_type op).
  - unfold apply_file_edit, fs_write. panic_free.
  - unfold install_packages. panic_free; by intros w.
  - unfold apply_service. panic_free.
  - unfold apply_selinux. panic_free.
  - panic_free.
  - unfold apply_command. panic_free.
  - unfold apply_file_copy, fs_copy. panic_free.
  - panic_free.
  - unfold apply_permissions, fs_chmod. panic_free.
  - panic_free.
  - unfold apply_file_write, fs_write, fs_chmod. panic_free.
  - unfold apply_symlink. panic_free.
  - unfold apply_file_delete. panic_free.
Qed.

Lemma validation_ok op w : ∃ w' v, run_op_validation op w = (w', Ok v).
Proof.
  unfold run_op_validation. destruct (op_validation op) as [c|]; [|by eexists _, _].
  unfold mbind, run_bind, command. destruct (exec _ _) as [fs res]. by eexists _, _.
Qed.

(** ** Capturing the state before an operation never fails *)
Definition total {A} (m : run A) : Prop := ∀ w, ∃ w' a, m w = (w', Ok a).

Lemma total_ret {A} (a : A) : total (mret a).
Proof. intros w. by eexists _, _. Qed.
Lemma total_bind {A B} (m : run A) (f : A → run B) :
  total m → (∀ a, total (f a)) → total (m ≫= f).
Proof.
  intros Hm Hf w. unfold mbind, run_bind. destruct (Hm w) as (w1 & a & ->). apply Hf.
Qed.
Lemma total_ok_of {A} (m : run A) : no_panic m → total (ok_of m).
Proof.
  intros Hm w. unfold ok_of. specialize (Hm w). destruct (m w) as [w1 []]; [| |done];
    by eexists _, _.
Qed.
Lemma total_exists p : total (exists_path p).
Proof. intros w. by eexists _, _. Qed.
Lemma total_command argv : total (command argv).
Proof. intros w. unfold command. destruct (exec _ _). by eexists _, _. Qed.
Hint Resolve total_ret total_ok_of total_exists total_command : no_panic.

Lemma capture_total op : total (capture_before op).
Proof.
  unfold capture_before, file_digest, fmt_exists.
  destruct (op_type op);
    repeat first [solve [auto with no_panic] | apply total_bind; [|intros ?]].
Qed.

(** ** Counting outcomes *)
Definition statuses (os : list OperationOutcome) : list OpStatus := map oo_status os.
Definition ran (st : OpStatus) : Prop := st = Applied ∨ st = Skipped.

(** the counters agree with the outcomes; with [fail_fast] nothing runs after the
    first failure. *)
Record loop_ok (ex : LivePlanExecutor) s : Prop := mk_loop_ok {
  lo_sum : ls_applied s + ls_failed s + ls_skipped s = length (ls_outcomes s);
  lo_fast : le_fail_fast ex = true →
    (ls_aborted s = false ∧ ls_failed s = 0 ∧ Forall ran (statuses (ls_outcomes s))) ∨
    (ls_aborted s = true ∧ ls_failed s = 1 ∧ ∃ pre k,
       statuses (ls_outcomes s) = pre ++ Failed :: replicate k NotReached ∧ Forall ran pre);
  lo_slow : le_fail_fast ex = false → ls_aborted s = false
}.

Lemma apply_step_ok ex rd s op w :
  loop_ok ex s →
  ∃ w' s', apply_step ex rd s op w = (w', Ok s') ∧ loop_ok ex s' ∧
    map oo_op_id (ls_outcomes s') = map oo_op_id (ls_outcomes s) ++ [op_id op].
Proof.
  intros [Hsum Hfast Hslow]. unfold apply_step. destruct (ls_aborted s) eqn:Ha;
    [unfold mret, run_ret|].
  { eexists _, _. split; [reflexivity|]. split; [|cbn; by rewrite map_app]. split; cbn.
    - rewrite length_app. cbn. lia.
    - intros Hf. right. destruct (Hfast Hf) as [[? _]|(_ & H1 & pre & k & Hpre & Hr)]; [done|].
      split; [done|]. split; [done|]. exists pre, (S k). split; [|done].
      unfold statuses in *. rewrite map_app, Hpre. cbn [map oo_status].
      rewrite <-app_assoc. cbn. by rewrite replicate_cons_app.
    - intros Hf. by rewrite Hf in *; specialize (Hslow eq_refl). }
  assert (le_fail_fast ex = true → ls_failed s = 0 ∧ Forall ran (statuses (ls_outcomes s)))
    as Hclean.
  { intros Hf. destruct (Hfast Hf) as [(_ & ? & ?)|(? & _)]; done. }
  assert (∀ status before ch bk v e, ran status → loop_ok ex (mk_loop_state
    (ls_outcomes s ++ [outcome_of op status before ch bk v e])
    (if bool_decide (status = Applied) then S (ls_applied s) else ls_applied s) (ls_failed s)
    (if bool_decide (status = Applied) then ls_skipped s else S (ls_skipped s)) false)) as Hgood.
  { intros status before ch bk v e Hr.
    split; cbn; [rewrite length_app; cbn; case_bool_decide; lia| |done].
    intros Hf. left. destruct (Hclean Hf) as [H0 Hall]. split; [done|]. split; [done|].
    unfold statuses. rewrite map_app. apply Forall_app. split; [done|]. by constructor. }
  assert (∀ before ch bk v e, loop_ok ex (mk_loop_state
    (ls_outcomes s ++ [outcome_of op Failed before ch bk v e]) (ls_applied s)
    (S (ls_failed s)) (ls_skipped s) (le_fail_fast ex))) as Hbad.
  { intros before ch bk v e. split; cbn; [rewrite length_app; cbn; lia| |done].
    intros Hf. right. destruct (Hclean Hf) as [H0 Hall]. split; [done|]. split; [lia|].
    exists (statuses (ls_outcomes s)), 0. split; [|done]. unfold statuses. by rewrite map_app. }
  unfold mbind, run_bind. destruct (capture_total op w) as (w0 & before & ->).
  unfold apply_recorded. pose proof (no_panic_operation rd op w0) as Hnp.
  destruct (apply_operation rd op w0) as [w1 [[]|e|]]; [| | |done].
  - destruct (validation_ok op w1) as (w2 & v & ->).
    destruct (match v with Some v => negb (vo_passed v) | None => false end).
    + eexists _, _. split; [reflexivity|]. split; [apply Hbad|cbn; by rewrite map_app].
    + eexists _, _. split; [reflexivity|]. split; [|cbn; by rewrite map_app].
      apply (Hgood Applied). by left.
  - eexists _, _. split; [reflexivity|]. split; [|cbn; by rewrite map_app].
    apply (Hgood Skipped). by right.
  - eexists _, _. split; [reflexivity|]. split; [apply Hbad|cbn; by rewrite map_app].
Qed.

Lemma apply_loop_ok ex rd ops : ∀ s w,
  loop_ok ex s →
  ∃ w' s', apply_loop ex rd s ops w = (w', Ok s') ∧ loop_ok ex s' ∧
    map oo_op_id (ls_outcomes s') = map oo_op_id (ls_outcomes s) ++ ids ops.
Proof.
  induction ops as [|op ops IH]; intros s w Hs; cbn [apply_loop].
  { eexists _, _. split; [reflexivity|]. split; [done|]. by rewrite app_nil_r. }
  unfold mbind, run_bind.
  destruct (apply_step_ok ex rd s op w Hs) as (w1 & s1 & -> & Hs1 & Hid).
  destruct (IH s1 w1 Hs1) as (w2 & s2 & -> & Hs2 & Hid2).
  eexists _, _. split; [reflexivity|]. split; [done|].
  by rewrite Hid2, Hid, <-app_assoc.
Qed.

Lemma restart_services_ok services : ∀ w, ∃ w', restart_services services w = (w', Ok ()).
Proof.
  induction services as [|svc services IH]; intros w; [by eexists|].
  cbn. unfold mbind, run_bind, command. destruct (exec _ _) as [fs res]. apply IH.
Qed.

Lemma post_apply_result actions : ∀ w w' r,
  run_post_apply actions w = (w', r) →
  r = Ok () ∨ ∃ cmd, r = Err (ErrText ("validation: " +:+ cmd)).
Proof.
  induction actions as [|a actions IH]; intros w w' r; cbn [run_post_apply].
  { intros [= _ <-]. by left. }
  unfold mbind, run_bind. destruct a as [services|cmd out|msg|reason].
  - destruct (restart_services_ok services w) as [w1 ->]. apply IH.
  - unfold command. destruct (exec _ _) as [fs [e|res]]; cbn; [|apply IH].
    intros [= _ <-]. right. by exists cmd.
  - apply IH.
  - apply IH.
Qed.

Lemma map_rolled_back_ids os : map oo_op_id (map rolled_back os) = map oo_op_id os.
Proof.
  rewrite map_map. apply map_ext. intros o. unfold rolled_back. by case_bool_decide.
Qed.

Lemma rolled_back_statuses os pre k :
  statuses os = pre ++ Failed :: replicate k NotReached → Forall ran pre →
  ∃ pre', statuses (map rolled_back os) = pre' ++ Failed :: replicate k NotReached ∧
    Forall (fun st => ran st ∨ st = RolledBack) pre'.
Proof.
  intros Hs Hr. set (g := fun st => if bool_decide (st = Applied) then RolledBack else st).
  assert (statuses (map rolled_back os) = map g (statuses os)) as ->.
  { unfold statuses. rewrite !map_map. apply map_ext. intros o. unfold rolled_back, g.
    by destruct (bool_decide (oo_status o = Applied)). }
  exists (map g pre). rewrite Hs, map_app. split.
  - f_equal. cbn [map]. f_equal. exact (fmap_replicate g k NotReached).
  - apply Forall_fmap. eapply Forall_impl; [exact Hr|]. intros st [->| ->]; cbn.
    + by right.
    + left. by right.
Qed.

(** a live run never panics; it fails only because the rollback directory
    cannot be created or a post-apply command cannot be started; otherwise every
    operation of the sorted plan has one outcome and is counted once as applied,
    failed or skipped, success means no failure, and with [fail_fast] exactly one
    operation failed and every later one was not reached. *)
Theorem live_apply_accounting iter oc ex plan sorted w :
  topological_sort iter oc plan = Ok sorted → le_dry_run ex = false →
  match (live_apply iter oc ex plan w).2 with
  | Ok r =>
      map oo_op_id (ar_outcomes r) = ids sorted ∧
      ar_applied r + ar_failed r + ar_skipped r = length sorted ∧
      (ar_success r = true ↔ ar_failed r = 0) ∧
      (le_fail_fast ex = true → ar_failed r ≠ 0 →
         ar_failed r = 1 ∧ ∃ pre k,
           statuses (ar_outcomes r) = pre ++ Failed :: replicate k NotReached ∧
           Forall (fun st => ran st ∨ st = RolledBack) pre)
  | Err e =>
      e = ErrText "create rollback directory" ∨
      ∃ cmd, e = ErrText ("validation: " +:+ cmd)
  | Panic => False
  end.
Proof.
  intros Hs Hd. unfold live_apply. rewrite Hs, Hd. unfold mbind, run_bind.
  set (rd := rollback_root +:+ _). unfold open_rollback_dir, with_context, fs_create_dirs.
  destruct (make_dirs rd (w_calls w)); [|cbn; by left]. cbn [fst snd].
  set (w1 := mk_world _ _ _).
  destruct (apply_loop_ok ex rd sorted (mk_loop_state [] 0 0 0 false) w1)
    as (w2 & s & -> & [Hsum Hfast _] & Hids).
  { split; [done|left; by repeat split|done]. }
  cbn in Hids. assert (length (ls_outcomes s) = length sorted) as Hlen.
  { rewrite <-(length_map oo_op_id), Hids. unfold ids. by rewrite length_map. }
  unfold finish. destruct (auto_rollback ex plan s w2) as [w3 rolled].
  destruct (Nat.eqb_spec (ls_failed s) 0) as [H0|H0].
  - destruct (run_post_apply (pl_post_apply plan) w3) as [w4 res] eqn:Hp.
    destruct (post_apply_result _ _ _ _ Hp) as [->|[cmd ->]]; [|right; by exists cmd].
    cbn. rewrite H0 in *. split; [by destruct rolled; rewrite ?map_rolled_back_ids|].
    split; [lia|]. split; [done|]. done.
  - cbn. split; [by destruct rolled; rewrite ?map_rolled_back_ids|]. split; [lia|].
    split; [done|]. intros Hf _. destruct (Hfast Hf) as [(_ & ? & _)|(_ & H1 & pre & k & Hst & Hr)];
      [done|]. split; [done|]. destruct rolled.
    { destruct (rolled_back_statuses _ _ _ Hst Hr) as (pre' & ? & ?). by exists pre', k. }
    exists pre, k. split; [done|]. eapply Forall_impl; [exact Hr|]. by left.
Qed.
End accounting.

(** ** A dry run *)
Section dry_run.
Context `{P : Platform} `{J : !JsonText} `{Sys : System}.

(** equal but for the number of calls made. *)
Record same_state (w w' : world) : Prop := mk_same_state {
  ss_files : w_files w' = w_files w;
  ss_dir : w_rollback_dir w' = w_rollback_dir w
}.
Definition reads {A} (m : run A) : Prop := ∀ w, same_state w (m w).1.

Lemma reads_ret {A} (a : A) : reads (mret a).
Proof. done. Qed.
Lemma reads_bind {A B} (m : run A) (f : A → run B) :
  reads m → (∀ a, reads (f a)) → reads (m ≫= f).
Proof.
  intros Hm Hf w. unfold mbind, run_bind. destruct (Hm w) as [F D].
  destruct (m w) as [w' [a|e|]]; [|done|done]. destruct (Hf a w') as [F' D'].
  cbn in *. split; congruence.
Qed.
Lemma reads_ok_of {A} (m : run A) : reads m → reads (ok_of m).
Proof. intros Hm w. unfold ok_of. specialize (Hm w). by destruct (m w) as [? []]. Qed.
Lemma reads_exists p : reads (exists_path p).
Proof. done. Qed.
Lemma reads_bytes p : reads (fs_bytes p).
Proof. intros w. unfold fs_bytes. by repeat case_match. Qed.
Lemma reads_mode p : reads (fs_mode p).
Proof. intros w. unfold fs_mode. by repeat case_match. Qed.
Lemma reads_read p : reads (fs_read p).
Proof. intros w. unfold fs_read. by repeat case_match. Qed.
Hint Resolve reads_ret reads_ok_of reads_exists reads_bytes reads_mode reads_read : frames.

Hypothesis is_active_reads :
  ∀ service fs, (exec ["systemctl"; "is-active"; service] fs).1 = fs.

Lemma reads_is_active service : reads (command ["systemctl"; "is-active"; service]).
Proof.
  intros w. unfold command. pose proof (is_active_reads service (w_files w)) as He.
  by destruct (exec _ _) as [fs res].
Qed.
Hint Resolve reads_is_active : frames.

Lemma reads_capture op : reads (capture_before op).
Proof.
  unfold capture_before, file_digest, fmt_exists. destruct (op_type op);
    repeat first [solve [auto with frames] | apply reads_bind; [|intros ?]].
Qed.

Lemma dry_outcomes_ok ops w :
  ∃ w' os, dry_outcomes ops w = (w', Ok os) ∧ same_state w w' ∧
    map oo_op_id os = ids ops ∧ Forall (fun o => oo_status o = DryRun) os.
Proof.
  revert w. induction ops as [|op ops IH]; intros w; [by eexists _, []|].
  cbn [dry_outcomes]. unfold mbind, run_bind. pose proof (reads_capture op w) as Hc.
  destruct (capture_total op w) as (w1 & before & E). rewrite E in Hc |- *.
  destruct (IH w1) as (w2 & os & -> & Hs & Hid & Hst).
  eexists _, _. split; [reflexivity|]. destruct Hc as [F D], Hs as [F' D'].
  cbn in *. split; [split; congruence|]. split; [by rewrite Hid|by constructor].
Qed.

(** a dry run always reports success, changes no file and makes no rollback
    directory (provided asking whether a service is active changes none), and has
    one [DryRun] outcome for each operation of the sorted plan, all counted as
    skipped. *)
Theorem dry_run_changes_nothing iter oc ex plan sorted w :
  topological_sort iter oc plan = Ok sorted → le_dry_run ex = true →
  ∃ w' r, live_apply iter oc ex plan w = (w', Ok r) ∧
    w_files w' = w_files w ∧
    w_rollback_dir w' = w_rollback_dir w ∧
    ar_success r = true ∧ ar_applied r = 0 ∧ ar_failed r = 0 ∧
    ar_skipped r = length sorted ∧ ar_rollback_dir r = None ∧
    map oo_op_id (ar_outcomes r) = ids sorted ∧
    Forall (fun o => oo_status o = DryRun) (ar_outcomes r).
Proof.
  intros Hs Hd. unfold live_apply. rewrite Hs, Hd. unfold mbind, run_bind.
  destruct (dry_outcomes_ok sorted w) as (w' & os & -> & [F D] & Hid & Hst).
  eexists _, _. split; [reflexivity|]. done.
Qed.
End dry_run.

(** ** Rollback *)

(** the file an operation changes. *)
Definition target_of `{Platform} (op : Operation) : option string :=
  match op_type op with
  | OpFileEdit fe => Some (fed_file fe)
  | OpFileWrite fw => Some (fw_path fw)
  | OpFileDelete fd => Some (fd_path fd)
  | OpFileCopy fc => Some (cp_destination fc)
  | OpFilePermissions fp => Some (fp_path fp)
  | OpSelinuxMode sm => Some (sm_file sm)
  | _ => None
  end.
(** the path an operation puts a link at. *)
Definition link_of `{Platform} (op : Operation) : option string :=
  match op_type op with OpSymlink sl => Some (sl_link_path sl) | _ => None end.
(** a copy that asks for no backup is not restored. *)
Definition backed_up `{Platform} (op : Operation) : bool :=
  match op_type op with OpFileCopy fc => cp_backup fc | _ => true end.

Section restore.
Context `{P : Platform} `{J : !JsonText} `{Sys : System}.
Context (rd : string) (T : list string).
Abbreviation bp := (backup_path rd).
Abbreviation mp := (manifest_path rd).
Definition entry_of (p : string) : RollbackFileEntry := mk_RollbackFileEntry p (bp p) false.
(** the files the theorem is about: the targets, their backups and the manifest. *)
Definition protected (x : string) : Prop := x ∈ T ∨ (∃ p, p ∈ T ∧ x = bp p) ∨ x = mp.

(** the file system does not fail, commands leave the protected files alone and a
    new link every file but its own path, the backups of the targets are distinct files
    outside the plan, neither a target nor a backup is the manifest itself (the backup of a
    file [/manifest.json] would be), and a manifest of the targets reads back. *)
Record quiet : Prop := mk_quiet {
  qu_io : ∀ n, io n = None;
  qu_dirs : ∀ d n, make_dirs d n = true;
  qu_exec : ∀ argv fs x, protected x → (exec argv fs).1 !! x = fs !! x;
  qu_symlink : ∀ t l fs x, x ≠ l → (make_symlink t l fs).1 !! x = fs !! x;
  qu_inj : ∀ p q, p ∈ T → q ∈ T → bp p = bp q → p = q;
  qu_apart : ∀ p q, p ∈ T → q ∈ T → bp p ≠ q;
  qu_manifest : ∀ p, p ∈ T → p ≠ mp ∧ bp p ≠ mp;
  qu_reads : ∀ l, (∀ e, e ∈ l → ∃ p, p ∈ T ∧ e = entry_of p) →
    utf8_valid (manifest_json l) = true ∧ manifest_of_json (manifest_json l) = Some l
}.
Hypothesis Hq : quiet.

(** [w'] is [w] but for the files [X], as far as protected files go. *)
Record frame (X : string → Prop) (w w' : world) : Prop := mk_frame {
  fr_files : ∀ x, protected x → ¬ X x → w_files w' !! x = w_files w !! x;
  fr_dir : w_rollback_dir w' = w_rollback_dir w
}.
Definition frames {A} (X : string → Prop) (m : run A) : Prop := ∀ w, frame X w (m w).1.

Lemma frame_refl X w : frame X w w.
Proof. done. Qed.
Lemma frame_trans X w1 w2 w3 : frame X w1 w2 → frame X w2 w3 → frame X w1 w3.
Proof.
  intros [F1 D1] [F2 D2]. split; [|congruence].
  intros x Hx Hn. rewrite F2, F1; done.
Qed.
Lemma frames_ret {A} X (a : A) : frames X (mret a).
Proof. intros w. apply frame_refl. Qed.
Lemma frames_throw {A} X e : frames X (throw (A := A) e).
Proof. intros w. apply frame_refl. Qed.
Lemma frames_bind {A B} X (m : run A) (f : A → run B) :
  frames X m → (∀ a, frames X (f a)) → frames X (m ≫= f).
Proof.
  intros Hm Hf w. unfold mbind, run_bind. specialize (Hm w).
  destruct (m w) as [w' [a|e|]]; [|done|done]. eapply frame_trans; [exact Hm|apply Hf].
Qed.
Lemma frames_context {A} X msg (m : run A) : frames X m → frames X (with_context msg m).
Proof. intros Hm w. unfold with_context. specialize (Hm w). by destruct (m w) as [? []]. Qed.
Lemma frames_update (X : string → Prop) p new : X p → frames X (fs_update p new).
Proof.
  intros Hp w. unfold fs_update. rewrite (qu_io Hq).
  destruct (new _) as [f|]; split; try done. intros x _ Hx. cbn.
  apply lookup_insert_ne. congruence.
Qed.
Lemma frames_exists X p : frames X (exists_path p).
Proof. intros w. apply frame_refl. Qed.
Lemma frames_read X p : frames X (fs_read p).
Proof. intros w. unfold fs_read. by repeat case_match. Qed.
Lemma frames_remove (X : string → Prop) p : X p → frames X (fs_remove p).
Proof.
  intros Hp w. unfold fs_remove. rewrite (qu_io Hq). case_match; split; try done.
  intros x _ Hx. cbn. apply lookup_delete_ne. congruence.
Qed.
Lemma frames_dirs X d : frames X (fs_create_dirs d).
Proof. by intros w. Qed.
Lemma frames_parent X p : frames X (create_parent p).
Proof. unfold create_parent. case_match; [apply frames_dirs|apply frames_ret]. Qed.
Lemma frames_command X argv : frames X (command argv).
Proof.
  intros w. unfold command. pose proof (qu_exec Hq argv (w_files w)) as He.
  destruct (exec argv (w_files w)) as [fs res]. split; [|done].
  intros x Hx _. by apply He.
Qed.
Lemma frames_symlink (X : string → Prop) t l : X l → frames X (fs_symlink t l).
Proof.
  intros Hl w. unfold fs_symlink. pose proof (qu_symlink Hq t l (w_files w)) as He.
  destruct (make_symlink t l (w_files w)) as [fs ok]. split; [|done].
  intros x _ Hx. apply He. by intros ->.
Qed.
Lemma frames_bytes X p : frames X (fs_bytes p).
Proof. intros w. unfold fs_bytes. by repeat case_match. Qed.
Lemma frames_mode X p : frames X (fs_mode p).
Proof. intros w. unfold fs_mode. by repeat case_match. Qed.
Lemma frames_ok_of {A} X (m : run A) : frames X m → frames X (ok_of m).
Proof. intros Hm w. unfold ok_of. specialize (Hm w). by destruct (m w) as [? []]. Qed.
(** files outside the protected ones may change. *)
Lemma frames_unprotected {A} (m : run A) X :
  (∀ x, X x → ¬ protected x) → frames X m → frames (fun _ => False) m.
Proof.
  intros HX Hm w. destruct (Hm w) as [F D]. split; [|done].
  intros x Hx _. apply F; [done|]. intros HXx. by apply (HX x).
Qed.

(** ** One operation *)
(** the manifest lists [l]. *)
Definition listed (fs : gmap string file) (l : list RollbackFileEntry) : Prop :=
  match fs !! mp with
  | None => l = []
  | Some f => utf8_valid (f_content f) = true ∧ manifest_of_json (f_content f) = Some l
  end.
Definition of_targets (l : list RollbackFileEntry) : Prop := ∀ e, e ∈ l → ∃ p, p ∈ T ∧ e = entry_of p.

(** what an operation with target [p] does: nothing, or it creates the file, or it
    changes it after its content went to the backup and into the manifest. *)
Record op_effect (p : string) (l : list RollbackFileEntry) (w w' : world) : Prop :=
  mk_op_effect {
  oe_others : ∀ x, protected x → x ≠ p → x ≠ bp p → x ≠ mp → w_files w' !! x = w_files w !! x;
  oe_dir : w_rollback_dir w' = w_rollback_dir w;
  oe_target :
    ((w_files w !! p = None ∨ w_files w' !! p = w_files w !! p) ∧
     listed (w_files w') l ∧ w_files w' !! bp p = w_files w !! bp p) ∨
    (∃ f, w_files w !! p = Some f ∧ w_files w' !! bp p = Some f ∧ listed (w_files w') (l ++ [entry_of p]))
}.

Lemma snapshot_none p w : w_files w !! p = None → snapshot_file rd p w = (w, Ok ()).
Proof.
  intros Hp. unfold snapshot_file, mbind, run_bind, exists_path. rewrite Hp. done.
Qed.

Lemma load_listed w l : listed (w_files w) l →
  ∃ w1, load_manifest rd w = (w1, Ok l) ∧ w_files w1 = w_files w ∧ w_rollback_dir w1 = w_rollback_dir w.
Proof.
  unfold listed, load_manifest, mbind, run_bind, exists_path, fs_read. destruct (w_files w !! mp) as [f|] eqn:E.
  - intros [Hu Hj]. cbn -[manifest_path]. rewrite E, (qu_io Hq), Hu. cbn. rewrite Hj. by eexists.
  - intros ->. by eexists.
Qed.

Lemma snapshot_eval p w f l :
  p ∈ T → w_files w !! p = Some f → listed (w_files w) l → of_targets l →
  existsb (fun e => String.eqb (rf_original_path e) p) l = false →
  ∃ w1 mode, snapshot_file rd p w = (w1, Ok ()) ∧
    w_files w1 = <[mp := mk_file (manifest_json (l ++ [entry_of p])) mode]> (<[bp p := f]> (w_files w)) ∧
    w_rollback_dir w1 = w_rollback_dir w.
Proof.
  intros HT Hp Hm Hol Hl. unfold snapshot_file, mbind, run_bind, exists_path. rewrite Hp.
  cbn -[fs_copy load_manifest]. unfold fs_copy, fs_update. rewrite (qu_io Hq).
  cbn -[load_manifest]. rewrite Hp. set (w0 := set_files _ _).
  destruct (load_listed w0 l) as (w1 & -> & F1 & D1).
  { unfold listed, w0. cbn -[manifest_path]. rewrite lookup_insert_ne; [exact Hm|]. by apply (qu_manifest Hq). }
  rewrite Hl. unfold write_manifest, fs_write, fs_update. rewrite (qu_io Hq). cbn -[manifest_path].
  rewrite F1. eexists _, _. split; [reflexivity|]. done.
Qed.

Section op.
Context (p : string) (w : world) (l : list RollbackFileEntry).
Hypothesis Hp : p ∈ T.
Hypothesis Hm : listed (w_files w) l.
Hypothesis Hol : of_targets l.
Hypothesis Hl : existsb (fun e => String.eqb (rf_original_path e) p) l = false.

Lemma bp_ne : bp p ≠ p.
Proof. by apply (qu_apart Hq). Qed.
Lemma protected_target : protected p.
Proof. by left. Qed.
Lemma protected_backup : protected (bp p).
Proof. right. left. by exists p. Qed.
Lemma listed_same w' l' : w_files w' !! mp = w_files w !! mp → listed (w_files w) l' → listed (w_files w') l'.
Proof. unfold listed. by intros ->. Qed.

Lemma effect_frame w' : frame (fun _ => False) w w' → op_effect p l w w'.
Proof.
  intros [F D]. split; [intros; apply F; tauto|done|]. left.
  split; [right; apply F; [apply protected_target|tauto]|].
  split; [apply listed_same; [apply F; [right; by right|tauto]|done]|]. apply F; [apply protected_backup|tauto].
Qed.

Lemma effect_create w' :
  w_files w !! p = None → frame (fun x => x = p) w w' → op_effect p l w w'.
Proof.
  intros Hn [F D]. destruct (qu_manifest Hq p Hp) as [Hpm _]. split; [intros; by apply F|done|]. left.
  split; [by left|]. split; [apply listed_same; [apply F; [right; by right|congruence]|done]|].
  apply F; [apply protected_backup|apply bp_ne].
Qed.

Lemma effect_snapshot {A} (rest : run A) :
  frames (fun x => x = p) rest → op_effect p l w ((snapshot_file rd p ;; rest) w).1.
Proof.
  intros Hr. unfold mbind, run_bind. destruct (w_files w !! p) as [f|] eqn:Hf.
  - destruct (qu_manifest Hq p Hp) as [Hpm Hbm].
    destruct (snapshot_eval p w f l Hp Hf Hm Hol Hl) as (w1 & mode & -> & F1 & D1).
    destruct (Hr w1) as [F D]. split; [|congruence|].
    + intros x Hx Hn1 Hn2 Hn3. rewrite F by done. rewrite F1. by rewrite !lookup_insert_ne.
    + right. exists f. split; [done|]. split.
      * rewrite F; [|apply protected_backup|apply bp_ne]. rewrite F1, lookup_insert_ne by done. apply lookup_insert_eq.
      * unfold listed. rewrite F; [|right; by right|congruence]. rewrite F1, lookup_insert_eq. cbn [f_content].
        apply (qu_reads Hq). intros e [He|He%list_elem_of_singleton]%elem_of_app; [by apply Hol|by exists p].
  - rewrite snapshot_none by done. apply effect_create; [done|apply Hr].
Qed.
End op.

Hint Resolve frames_ret frames_throw frames_context frames_update frames_exists frames_read
  frames_remove frames_dirs frames_parent frames_command frames_symlink frames_bytes
  frames_mode frames_ok_of : frames.
Ltac framed :=
  repeat first [solve [auto with frames] | apply frames_bind; [|intros ?] | case_match].

Lemma frames_selinux (X : string → Prop) sm : X (sm_file sm) → frames X (rewrite_selinux sm).
Proof. intros Hp. unfold rewrite_selinux, fs_write. framed. Qed.
Hint Resolve frames_selinux : frames.
Lemma frames_capture X op : frames X (capture_before op).
Proof. unfold capture_before, file_digest, fmt_exists. framed. Qed.

(** an operation without a target leaves the protected files alone, unless it puts
    a link there. *)
Lemma apply_other op :
  target_of op = None → (∀ x, link_of op = Some x → ¬ protected x) →
  frames (fun _ => False) (apply_operation rd op).
Proof.
  unfold target_of, link_of, apply_operation. destruct (op_type op); try done; intros _ Hlink.
  all: unfold install_packages, apply_service, apply_command; try (solve [framed]).
  apply (frames_unprotected _ (fun x => x = sl_link_path sl)).
  { intros x ->. by apply Hlink. }
  unfold apply_symlink. framed.
Qed.

Lemma exists_bind {A} p (f : bool → run A) w :
  (exists_path p ≫= f) w = f (bool_decide (is_Some (w_files w !! p))) w.
Proof. done. Qed.

Lemma apply_target op p w l :
  target_of op = Some p → backed_up op = true → p ∈ T →
  listed (w_files w) l → of_targets l →
  existsb (fun e => String.eqb (rf_original_path e) p) l = false →
  op_effect p l w (apply_operation rd op w).1.
Proof.
  unfold target_of, backed_up, apply_operation. intros Ht Hb Hp Hm Hol Hl.
  destruct (op_type op) as [fe|pi|so|sm|re|ce|fc|dc|fp|di|fw|sl|fd]; try done;
    injection Ht as <-.
  - apply effect_snapshot; [done..|]. unfold fs_write. framed.
  - apply effect_snapshot; [done..|]. framed.
  - unfold apply_file_copy. rewrite exists_bind, Hb. cbn [andb].
    case_bool_decide as He.
    + apply effect_snapshot; [done..|]. unfold fs_copy. framed.
    + apply effect_create; [done|done| |].
      * destruct (w_files w !! cp_destination fc); [by destruct He|done].
      * apply frames_bind; [apply frames_ret|intros _]. unfold fs_copy. framed.
  - apply effect_snapshot; [done..|]. unfold fs_chmod. framed.
  - unfold apply_file_write. rewrite exists_bind. case_bool_decide as He.
    + apply effect_snapshot; [done..|]. unfold fs_write, fs_chmod. framed.
    + apply effect_create; [done|done| |].
      * destruct (w_files w !! fw_path fw); [by destruct He|done].
      * apply frames_bind; [apply frames_ret|intros _]. unfold fs_write, fs_chmod. framed.
  - unfold apply_file_delete. rewrite exists_bind. case_bool_decide as He; cbn [negb].
    + apply effect_snapshot; [done..|]. framed.
    + apply effect_frame; [done|done|]. destruct (fd_missing_ok fd); apply frame_refl.
Qed.

(** ** The run *)
Context (orig : gmap string file).

(** the targets [D] were operated on: each is as it was before the plan, or its
    content is in its backup, listed in the manifest. *)
Record tracked (D : list string) (w : world) (l : list RollbackFileEntry) : Prop :=
  mk_tracked {
  tr_manifest : listed (w_files w) l;
  tr_dir : w_rollback_dir w = true;
  tr_entries : ∀ e, e ∈ l → ∃ p f, p ∈ D ∧ p ∈ T ∧ e = entry_of p ∧ orig !! p = Some f ∧
    w_files w !! bp p = Some f;
  tr_done : ∀ p f, p ∈ D → orig !! p = Some f → w_files w !! p = Some f ∨ entry_of p ∈ l;
  tr_todo : ∀ p, p ∈ T → p ∉ D → w_files w !! p = orig !! p
}.

Lemma tracked_frame D w w' l :
  (∀ p, p ∈ D → p ∈ T) → frame (fun _ => False) w w' → tracked D w l → tracked D w' l.
Proof.
  intros HD [F R] [Hm Hd He Hdn Ht].
  split; [eapply listed_same; [apply F; [right; by right|tauto]|done]|congruence|..].
  - intros e (p & f & ? & ? & ? & ? & Hb)%He. exists p, f.
    split_and!; try done. rewrite F; [done|right; left; by exists p|tauto].
  - intros p f Hp Hf. rewrite F; [by apply Hdn|left; by apply HD|tauto].
  - intros p Hp Hn. rewrite F; [by apply Ht|by left|tauto].
Qed.

Lemma tracked_effect D w w' l p :
  (∀ p, p ∈ D → p ∈ T) → p ∈ T → p ∉ D → tracked D w l → op_effect p l w w' →
  ∃ l', tracked (p :: D) w' l'.
Proof.
  intros HD Hp Hn [Hm Hd He Hdn Ht] [Ho Hdir Htg].
  assert (∀ q, q ∈ D → q ≠ p) as Hqp by (intros q Hin ->; done).
  assert (∀ q, q ∈ D → w_files w' !! q = w_files w !! q) as HoD.
  { intros q Hin. apply Ho; [left; by apply HD|by apply Hqp| |apply (qu_manifest Hq); by apply HD].
    intros ->. by apply (qu_apart Hq p (bp p) Hp (HD _ Hin)). }
  assert (∀ q, q ∈ T → q ∉ p :: D → w_files w' !! q = orig !! q) as Htodo.
  { intros q Hin Hno. apply not_elem_of_cons in Hno as [Hne Hno]. rewrite Ho; [by apply Ht|by left|done| |by apply (qu_manifest Hq)].
    intros ->. by apply (qu_apart Hq p (bp p)). }
  assert (∀ e, e ∈ l → ∃ q f, q ∈ p :: D ∧ q ∈ T ∧ e = entry_of q ∧ orig !! q = Some f ∧
    w_files w' !! bp q = Some f) as Hent.
  { intros e (q & f & Hin & HqT & -> & Hf & Hb)%He. exists q, f.
    split; [by right|]. split_and!; try done. rewrite Ho; [done|right; left; by exists q| | |by apply (qu_manifest Hq)].
    - by apply (qu_apart Hq).
    - intros Heq. by apply (qu_inj Hq) in Heq; [apply (Hqp q Hin)|..]. }
  pose proof (Ht p Hp Hn) as Hwp. destruct Htg as [(Hsame & HM & _)|(f & Hf & Hb & HM)].
  - exists l. split; [done|congruence|done| |done].
    intros q f [->|Hin]%elem_of_cons Hf; [left|rewrite HoD by done; by apply Hdn].
    destruct Hsame as [Hnone|Hsame]; congruence.
  - exists (l ++ [entry_of p]). split; [done|congruence| | |done].
    + intros e [Hin|Hin]%elem_of_app; [by apply Hent|].
      apply list_elem_of_singleton in Hin as ->. exists p, f. split; [by left|].
      split_and!; try done. congruence.
    + intros q g [->|Hin]%elem_of_cons Hg.
      * right. apply elem_of_app. right. by apply list_elem_of_singleton.
      * rewrite HoD by done. destruct (Hdn q g Hin Hg); [by left|right]. apply elem_of_app. by left.
Qed.

Lemma tracked_targets D w l : tracked D w l → of_targets l.
Proof. intros [_ _ He _ _] e (p & f & _ & Hp & -> & _)%He. by exists p. Qed.
Lemma tracked_fresh D w l p :
  p ∉ D → tracked D w l → existsb (fun e => String.eqb (rf_original_path e) p) l = false.
Proof.
  intros Hn [_ _ He _ _]. apply not_true_iff_false. rewrite existsb_elem_of.
  intros (e & Hin & Heq%String.eqb_eq). destruct (He e Hin) as (q & f & HqD & _ & -> & _).
  cbn in Heq. by subst q.
Qed.

(** operations as the theorem needs them, after the targets [D]. *)
Record fit (D : list string) (ops : list Operation) : Prop := mk_fit {
  ft_nodup : NoDup (omap target_of ops);
  ft_new : ∀ p, p ∈ omap target_of ops → p ∈ T ∧ p ∉ D;
  ft_backed : ∀ op, op ∈ ops → backed_up op = true;
  ft_links : ∀ op x, op ∈ ops → link_of op = Some x → ¬ protected x
}.

Lemma frames_validation X op : frames X (run_op_validation op).
Proof. unfold run_op_validation. framed. Qed.

Lemma apply_step_world ex s op w :
  (apply_step ex rd s op w).1 = w ∨
  ∃ w0, frame (fun _ => False) w w0 ∧
    frame (fun _ => False) (apply_operation rd op w0).1 (apply_step ex rd s op w).1.
Proof.
  unfold apply_step. destruct (ls_aborted s); [by left|right].
  unfold mbind, run_bind. pose proof (frames_capture (fun _ => False) op w) as Hc.
  destruct (capture_total op w) as (w0 & before & E). rewrite E in Hc |- *.
  exists w0. split; [exact Hc|]. unfold apply_recorded.
  destruct (apply_operation rd op w0) as [w1 [[]|e|]]; try apply frame_refl. cbn [fst].
  pose proof (frames_validation (fun _ => False) op w1) as Hv.
  destruct (run_op_validation op w1) as [w2 [v|e|]]; [|done|done]. by case_match.
Qed.

Lemma tracked_weaken D w l p :
  p ∈ T → p ∉ D → tracked D w l → tracked (p :: D) w l.
Proof.
  intros Hp Hn [Hm Hd He Hdn Ht]. split; [done|done| | |].
  - intros e (q & f & Hin & ?)%He. exists q, f. split; [by right|done].
  - intros q f [->|Hin]%elem_of_cons Hf; [left; by rewrite Ht|by apply Hdn].
  - intros q Hq' Hno. apply Ht; [done|]. intros Hin. apply Hno. by right.
Qed.

Lemma apply_step_tracked ex s op w D l :
  (∀ p, p ∈ D → p ∈ T) → tracked D w l → fit D [op] →
  ∃ l', tracked (omap target_of [op] ++ D) (apply_step ex rd s op w).1 l'.
Proof.
  intros HD Htr [_ Hnew Hb Hlk].
  assert (∀ w0, tracked D w0 l →
    ∃ l', tracked (omap target_of [op] ++ D) (apply_operation rd op w0).1 l') as Hop.
  { intros w0 Htr0. cbn in *. destruct (target_of op) as [p|] eqn:Et; cbn in *.
    - destruct (Hnew p) as [Hp Hn]; [by left|]. eapply tracked_effect; [done|done|done|exact Htr0|].
      apply apply_target; [done|apply Hb; by left|done|by apply (tr_manifest _ _ _ Htr0)|by eapply tracked_targets|].
      by eapply tracked_fresh.
    - exists l. eapply tracked_frame; [done| |exact Htr0]. apply apply_other; [done|].
      intros x. apply Hlk. by left. }
  assert (∀ p, p ∈ omap target_of [op] ++ D → p ∈ T) as HD'.
  { intros p [Hin|Hin]%elem_of_app; [by apply Hnew|by apply HD]. }
  destruct (apply_step_world ex s op w) as [->|(w0 & Hc & Hf)].
  - cbn in *. destruct (target_of op) as [p|]; cbn in *; [|by exists l].
    destruct (Hnew p) as [Hp Hn]; [by left|]. exists l. by apply tracked_weaken.
  - destruct (Hop w0) as [l' Hop']; [by eapply tracked_frame|]. exists l'.
    by eapply tracked_frame.
Qed.

Lemma apply_loop_tracked ex ops : ∀ s w D l,
  (∀ p, p ∈ D → p ∈ T) → tracked D w l → fit D ops →
  ∃ D' l', (∀ p, p ∈ D' → p ∈ T) ∧ tracked D' (apply_loop ex rd s ops w).1 l'.
Proof.
  induction ops as [|op ops IH]; intros s w D l HD Htr Hfit; cbn [apply_loop].
  { by exists D, l. }
  assert (omap target_of (op :: ops) = omap target_of [op] ++ omap target_of ops) as Ho.
  { cbn. by destruct (target_of op). }
  destruct Hfit as [Hnd Hnew Hb Hlk]. rewrite Ho in Hnd, Hnew.
  apply NoDup_app in Hnd as (Hnd1 & Hdis & Hnd2).
  destruct (apply_step_tracked ex s op w D l HD Htr) as [l1 Htr1].
  { split; [done| | |].
    - intros p Hp. apply Hnew, elem_of_app. by left.
    - intros o Hin. apply list_elem_of_singleton in Hin as ->. apply Hb. by left.
    - intros o x Hin. apply list_elem_of_singleton in Hin as ->. apply Hlk. by left. }
  assert (∀ p, p ∈ omap target_of [op] ++ D → p ∈ T) as HD'.
  { intros p [Hin|Hin]%elem_of_app; [apply Hnew, elem_of_app; by left|by apply HD]. }
  unfold mbind, run_bind. destruct (apply_step ex rd s op w) as [w1 [s1|e|]].
  - eapply IH; [exact HD'|exact Htr1|]. split; [done| | |].
    + intros p Hp. destruct (Hnew p) as [HpT Hn]; [apply elem_of_app; by right|].
      split; [done|]. intros [Hin|Hin]%elem_of_app; [|done]. by apply (Hdis p).
    + intros o Hin. apply Hb. by right.
    + intros o x Hin. apply Hlk. by right.
  - by eexists _, _.
  - by eexists _, _.
Qed.

(** ** Restoring *)
Lemma create_parent_eval p w :
  ∃ w1, create_parent p w = (w1, Ok ()) ∧ w_files w1 = w_files w.
Proof.
  unfold create_parent. destruct (up_to_slash p) as [d|]; [|by eexists].
  unfold fs_create_dirs. rewrite (qu_dirs Hq). by eexists.
Qed.

Lemma restore_all_eval l : ∀ w,
  (∀ e, e ∈ l → ∃ p f, p ∈ T ∧ e = entry_of p ∧ orig !! p = Some f ∧
     w_files w !! bp p = Some f) →
  ∃ w', restore_all l w = (w', Ok ()) ∧
    (∀ p f, p ∈ T → entry_of p ∈ l → orig !! p = Some f → w_files w' !! p = Some f) ∧
    (∀ p, p ∈ T → entry_of p ∉ l → w_files w' !! p = w_files w !! p).
Proof.
  induction l as [|e l IH]; intros w He; cbn [restore_all].
  { exists w. split; [done|]. split; [|done]. intros p f _ H. by apply not_elem_of_nil in H. }
  destruct (He e) as (q & g & HqT & -> & Hg & Hb); [by left|].
  unfold mbind, run_bind, restore_entry, exists_path. cbn [rf_backup_path entry_of].
  unfold mbind, run_bind. rewrite Hb. cbn -[create_parent fs_copy restore_all].
  destruct (create_parent_eval q w) as (w1 & -> & F1).
  unfold fs_copy, fs_update. rewrite (qu_io Hq). cbn -[restore_all]. rewrite F1, Hb.
  set (w2 := set_files _ _).
  assert (∀ x, w_files w2 !! x = if decide (x = q) then Some g else w_files w !! x) as F2.
  { intros x. unfold w2. cbn. destruct (decide (x = q)) as [->|Hne].
    - apply lookup_insert_eq.
    - by rewrite lookup_insert_ne. }
  destruct (IH w2) as (w' & Hr & Hin & Hout).
  { intros e Hin. destruct (He e) as (p & f & Hp & -> & Hf & Hbp); [by right|].
    exists p, f. split_and!; try done. rewrite F2, decide_False; [done|].
    by apply (qu_apart Hq). }
  exists w'. split; [done|]. split.
  - intros p f Hp Hpl Hf. destruct (decide (entry_of p ∈ l)) as [Hl|Hl]; [by eapply Hin|].
    rewrite Hout, F2 by done. apply elem_of_cons in Hpl as [Heq|?]; [|done].
    injection Heq as ->. rewrite decide_True by done. congruence.
  - intros p Hp Hpl. apply not_elem_of_cons in Hpl as [Hne Hpl].
    rewrite Hout, F2 by done. rewrite decide_False; [done|]. intros ->. done.
Qed.

Lemma rollback_eval D w l id :
  rd = rollback_root +:+ "/" +:+ id → tracked D w l →
  ∃ w', rollback id w = (w', Ok ("Rollback complete for plan " +:+ id)) ∧
    ∀ p f, p ∈ T → orig !! p = Some f → w_files w' !! p = Some f.
Proof.
  intros Hrd [Hm Hd He Hdn Ht]. unfold rollback, mbind, run_bind, get. rewrite Hd. cbn [negb].
  rewrite <- Hrd. destruct (load_listed w l Hm) as (w1 & -> & F1 & _).
  destruct (restore_all_eval l w1) as (w' & -> & Hin & Hout).
  { intros e (p & f & _ & ?)%He. exists p, f. by rewrite F1. }
  exists w'. split; [done|]. intros p f Hp Hf.
  destruct (decide (entry_of p ∈ l)) as [Hl|Hl]; [by eapply Hin|].
  rewrite Hout, F1 by done. destruct (decide (p ∈ D)) as [HD|HD].
  - by destruct (Hdn p f HD Hf).
  - by rewrite Ht.
Qed.
End restore.

Section theorem.
Context `{P : Platform} `{J : !JsonText} `{Sys : System}.

Definition plan_dir (plan : FixPlan) : string := rollback_root +:+ "/" +:+ plan_id_for plan.

(** C2: a run with [auto_rollback] in which an operation failed leaves every file
    that existed and is the target of one of the plan's file operations with the
    content and mode it had before the run, when there is no manifest yet,
    every file is the target of one operation, copies ask for a backup, the backup
    names of the targets are distinct and none of them is a target, neither a target nor a
    backup is the manifest, no link is put at any of these, no file-system call fails, the
    commands change none of these files, and a manifest of the targets reads back from its
    JSON text. *)
Theorem rollback_restores iter oc ex plan sorted w w' r :
  topological_sort iter oc plan = Ok sorted →
  le_dry_run ex = false → le_auto_rollback ex = true →
  quiet (plan_dir plan) (omap target_of sorted) → fit (plan_dir plan) (omap target_of sorted) [] sorted →
  w_files w !! manifest_path (plan_dir plan) = None →
  live_apply iter oc ex plan w = (w', Ok r) → ar_success r = false →
  ∀ p f, p ∈ omap target_of sorted → w_files w !! p = Some f → w_files w' !! p = Some f.
Proof.
  intros Hs Hd Ha Hq Hfit Hm Hrun Hsucc p f Hp Hf. unfold live_apply in Hrun.
  rewrite Hs, Hd in Hrun. fold (plan_dir plan) in Hrun. set (rd := plan_dir plan) in *.
  unfold mbind, run_bind, open_rollback_dir, with_context, fs_create_dirs in Hrun.
  rewrite (qu_dirs _ _ Hq) in Hrun. cbn [fst snd] in Hrun.
  set (w1 := mk_world _ _ _) in Hrun.
  assert (tracked rd (omap target_of sorted) (w_files w) [] w1 []) as Ht1.
  { split; [unfold listed; cbn -[manifest_path]; by rewrite Hm|done| | |done].
    - intros e He. by apply not_elem_of_nil in He.
    - intros q g Hq' _. by apply not_elem_of_nil in Hq'. }
  destruct (apply_loop_tracked rd (omap target_of sorted) Hq (w_files w) ex sorted
    (mk_loop_state [] 0 0 0 false) w1 [] []) as (D & l & HD & Ht2); [|done|done|].
  { intros q Hq'. by apply not_elem_of_nil in Hq'. }
  destruct (apply_loop ex rd _ sorted w1) as [w2 [s|e|]]; [|done|done]. cbn [fst] in Ht2.
  unfold finish, auto_rollback in Hrun.
  destruct (Nat.eqb_spec (ls_failed s) 0) as [H0|H0].
  - rewrite H0 in Hrun. cbn -[run_post_apply] in Hrun.
    destruct (run_post_apply _ w2) as [w3 [[]|e|]]; [|done|done]. injection Hrun as <- <-. done.
  - rewrite (proj2 (Nat.ltb_lt 0 _)), Ha in Hrun by lia. cbn [andb] in Hrun.
    destruct (rollback_eval rd (omap target_of sorted) Hq (w_files w) D w2 l (plan_id_for plan) eq_refl Ht2)
      as (w3 & Hrb & Hok).
    rewrite Hrb in Hrun. injection Hrun as <- <-. by apply Hok.
Qed.
End theorem.

(** ** Concrete runs

    An encoding of manifests that reads back. *)
Fixpoint toy_manifest (l : list RollbackFileEntry) : string :=
  match l with
  | [] => ""
  | e :: l => in_digits (rf_original_path e) +:+ in_digits (rf_backup_path e) +:+ String (bin_digit (rf_removed e)) (toy_manifest l)
  end.
Fixpoint read_manifest (fuel : nat) (s : string) : option (list RollbackFileEntry) :=
  match fuel, s with
  | _, EmptyString => Some []
  | O, _ => None
  | S fuel, s =>
      o ← of_digits s; b ← of_digits o.2;
      match b.2 with
      | String c s => cons (mk_RollbackFileEntry o.1 b.1 (is_one c)) <$> read_manifest fuel s
      | EmptyString => None
      end
  end.
Lemma in_digits_app s t : is_ascii_text (in_digits s +:+ t) = is_ascii_text t.
Proof.
  induction s as [|[a b c d e f g h] s IH]; [done|].
  change (in_digits (String (Ascii a b c d e f g h) s) +:+ t) with (String (bin_digit a) (String (bin_digit b)
    (String (bin_digit c) (String (bin_digit d) (String (bin_digit e) (String (bin_digit f) (String (bin_digit g)
    (String (bin_digit h) (in_digits s +:+ t))))))))).
  by rewrite !bin_digit_text.
Qed.
Lemma toy_manifest_reads l :
  utf8_valid (toy_manifest l) = true ∧ ∀ fuel, length l ≤ fuel → read_manifest fuel (toy_manifest l) = Some l.
Proof.
  split.
  - apply utf8_valid_ascii. induction l as [|e l IH]; [done|]. cbn [toy_manifest].
    by rewrite !in_digits_app, bin_digit_text.
  - induction l as [|[o b r] l IH]; intros [|fuel] Hf; [done..|cbn in Hf; lia|].
    cbn [toy_manifest rf_original_path rf_backup_path rf_removed].
    assert (∀ s t, ∃ c u, in_digits s +:+ t = String c u) as Hs.
    { intros [|[??????? ?] s] t; by eexists _, _. }
    destruct (Hs o (in_digits b +:+ String (bin_digit r) (toy_manifest l))) as (c & u & E).
    cbn [read_manifest]. rewrite E. rewrite <- E, of_in_digits. cbn [mbind option_bind fst snd].
    rewrite of_in_digits. cbn [mbind option_bind fst snd]. rewrite IH by (cbn in Hf; lia). by rewrite is_one_bin_digit.
Qed.
Lemma toy_manifest_length l : length l ≤ String.length (toy_manifest l).
Proof.
  induction l as [|e l IH]; [done|]. cbn [toy_manifest length]. rewrite !text_length_app. cbn [String.length]. lia.
Qed.

(** *** A system

    A system whose file system never fails and whose commands change no file;
    the shell command [false] exits with 1, every other command with 0. *)
Definition plain_system : System := {|
  io := fun _ => None;
  manifest_json := toy_manifest;
  manifest_of_json := fun s => read_manifest (String.length s) s;
  new_file_mode := 420%Z;
  exec := fun argv fs =>
    (fs, inr (mk_cmd_result (Some (if existsb (String.eqb "false") argv then 1 else 0)%Z) ""));
  make_symlink := fun _ _ fs => (fs, true);
  make_dirs := fun _ _ => true;
  sha256 := fun _ => []
|}.
Definition no_json : @JsonText ascii_platform := fun _ => "null".

Definition op_of (op_name : string) (t : @OperationType ascii_platform) (deps : list string)
    : @Operation ascii_platform :=
  mk_Operation ascii_platform op_name t PrHigh "" PrLow true deps None None.
Definition edit_op (op_name path before after : string) (deps : list string) :=
  op_of op_name (OpFileEdit (mk_FileEdit path true [mk_FileChange 0 before after None])) deps.
Definition write_op (op_name path content : string) :=
  op_of op_name (OpFileWrite (mk_FileWrite path content None)) [].
Definition false_op (op_name : string) (deps : list string) :=
  op_of op_name (OpCommandExec (mk_CommandExec "false" 0 None None)) deps.

Definition text (s : string) : string := s +:+ newline_str.
Definition start_world (files : list (string * string)) : world :=
  mk_world (list_to_map (map (fun x => (x.1, mk_file (text x.2) 420)) files)) false 0.
Definition live_run (ops : list (@Operation ascii_platform)) (files : list (string * string)) :=
  @live_apply ascii_platform no_json plain_system map_to_list true
    (LivePlanExecutor_for_migration false) (plan_of ops) (start_world files).

(** the content of a file after a run, with the statuses of its operations. *)
Definition after_run (p : string) (res : world * outcome exec_error ApplyResult)
    : option string * list OpStatus :=
  (f_content <$> w_files res.1 !! p,
   match res.2 with Ok r => statuses (ar_outcomes r) | _ => [] end).

Definition console_plan : list (@Operation ascii_platform) :=
  [edit_op "grub" "/etc/default/grub" "quiet" "console=ttyS0" [];
   edit_op "fstab" "/etc/fstab" "/dev/sda1 /" "UUID=1 /" ["grub"];
   false_op "regenerate" ["fstab"]].
Definition console_files : list (string * string) :=
  [("/etc/default/grub", "quiet"); ("/etc/fstab", "/dev/sda1 /")].

Lemma console_targets :
  @omap _ _ _ _ target_of console_plan = ["/etc/default/grub"; "/etc/fstab"].
Proof. done. Qed.

Lemma console_quiet :
  @quiet plain_system (plan_dir (plan_of console_plan)) (omap target_of console_plan).
Proof.
  rewrite console_targets. split; [done|done|done|done| | | |].
  1-2: intros p q Hp Hq;
    apply elem_of_cons in Hp as [->|Hp%list_elem_of_singleton]; try subst p;
    apply elem_of_cons in Hq as [->|Hq%list_elem_of_singleton]; try subst q; by vm_compute.
  - intros p Hp. apply elem_of_cons in Hp as [->|Hp%list_elem_of_singleton]; try subst p; by vm_compute.
  - intros l _. destruct (toy_manifest_reads l) as [Hu Hr]. split; [exact Hu|]. apply Hr, toy_manifest_length.
Qed.

Lemma console_fit : fit (plan_dir (plan_of console_plan)) (omap target_of console_plan) [] console_plan.
Proof.
  split.
  - by refine (bool_decide_eq_true_1 _ _); vm_compute.
  - intros p Hp. split; [exact Hp|apply not_elem_of_nil].
  - intros op Hop. unfold console_plan in Hop.
    repeat (apply elem_of_cons in Hop as [->|Hop]; [done|]). by apply not_elem_of_nil in Hop.
  - intros op x Hop. unfold console_plan in Hop.
    repeat (apply elem_of_cons in Hop as [->|Hop]; [done|]). by apply not_elem_of_nil in Hop.
Qed.

Lemma console_sorted :
  @topological_sort ascii_platform map_to_list true (plan_of console_plan) = Ok console_plan.
Proof. by vm_compute. Qed.

Lemma console_before :
  w_files (start_world console_files) !! "/etc/fstab" = Some (mk_file (text "/dev/sda1 /") 420).
Proof. by vm_compute. Qed.

Lemma console_target : "/etc/fstab" ∈ @omap _ _ _ _ target_of console_plan.
Proof. rewrite console_targets. set_solver. Qed.

Lemma console_run :
  ∃ w' r, live_run console_plan console_files = (w', Ok r) ∧ ar_success r = false ∧
    statuses (ar_outcomes r) = [RolledBack; RolledBack; Failed].
Proof. eexists _, _. split; [by vm_compute|]. split; by vm_compute. Qed.

Lemma rollback_restores_witness :
  ∃ w' r, live_run console_plan console_files = (w', Ok r) ∧
    statuses (ar_outcomes r) = [RolledBack; RolledBack; Failed] ∧
    w_files w' !! "/etc/fstab" = Some (mk_file (text "/dev/sda1 /") 420).
Proof.
  destruct console_run as (w' & r & E & Hs & Hst). exists w', r.
  split; [exact E|]. split; [exact Hst|]. unfold live_run in E.
  exact (@rollback_restores ascii_platform no_json plain_system map_to_list true
    (LivePlanExecutor_for_migration false) (plan_of console_plan) console_plan
    (start_world console_files) w' r console_sorted eq_refl eq_refl console_quiet
    console_fit eq_refl E Hs _ _ console_target console_before).
Defined.

Lemma live_apply_accounting_witness :
  match (live_run console_plan console_files).2 with
  | Ok r => map oo_op_id (ar_outcomes r) = ids console_plan ∧
      ar_applied r + ar_failed r + ar_skipped r = length console_plan
  | _ => False
  end.
Proof.
  destruct console_run as (w' & r & E & _ & _). unfold live_run in *.
  pose proof (@live_apply_accounting ascii_platform no_json plain_system map_to_list true
    (LivePlanExecutor_for_migration false) (plan_of console_plan) console_plan
    (start_world console_files) console_sorted eq_refl) as H.
  rewrite E in H |- *. cbn [snd] in *. destruct H as (H1 & H2 & _). split; [exact H1|exact H2].
Defined.

Lemma dry_run_changes_nothing_witness :
  ∃ w' r, @live_apply ascii_platform no_json plain_system map_to_list true
      (LivePlanExecutor_for_migration true) (plan_of console_plan) (start_world console_files)
      = (w', Ok r) ∧
    w_files w' = w_files (start_world console_files) ∧
    map oo_op_id (ar_outcomes r) = ids console_plan.
Proof.
  destruct (@dry_run_changes_nothing ascii_platform no_json plain_system
    (fun _ _ => eq_refl) map_to_list true (LivePlanExecutor_for_migration true)
    (plan_of console_plan) console_plan (start_world console_files) console_sorted eq_refl)
    as (w' & r & E & F & _ & _ & _ & _ & _ & _ & Hid & _).
  exists w', r. split; [exact E|]. split; [exact F|exact Hid].
Defined.

(** when two operations change the same file, the second snapshot overwrites
    the first in the rollback directory: the rollback brings back the content after
    the first operation, while both operations are reported as rolled back. *)
Theorem second_edit_loses_original :
  after_run "/etc/default/grub"
    (live_run [edit_op "timeout" "/etc/default/grub" "a" "b" [];
               edit_op "console" "/etc/default/grub" "b" "c" ["timeout"];
               false_op "regenerate" ["console"]] [("/etc/default/grub", "a")]) =
  (Some (text "b"), [RolledBack; RolledBack; Failed]).
Proof. by vm_compute. Qed.

(** the backup name replaces every slash by an underscore, so the files
    [/etc/a/b] and [/etc/a_b] share a backup: after the rollback the first has the
    content of the second. *)
Theorem backup_names_collide :
  after_run "/etc/a/b"
    (live_run [edit_op "one" "/etc/a/b" "x" "x1" [];
               edit_op "two" "/etc/a_b" "y" "y1" ["one"];
               false_op "regenerate" ["two"]] [("/etc/a/b", "x"); ("/etc/a_b", "y")]) =
  (Some (text "y"), [RolledBack; RolledBack; Failed]).
Proof. by vm_compute. Qed.

(** the backup of a file [/manifest.json] is the manifest itself: the second backup
    overwrites the entry of the first, the rollback cannot read the manifest, and the first
    file stays changed. *)
Theorem backup_is_manifest :
  after_run "/etc/fstab"
    (live_run [edit_op "fstab" "/etc/fstab" "x" "x1" [];
               edit_op "other" "/manifest.json" "y" "y1" ["fstab"];
               false_op "regenerate" ["other"]] [("/etc/fstab", "x"); ("/manifest.json", "y")]) =
  (Some (text "x1"), [Applied; Failed; NotReached]).
Proof. by vm_compute. Qed.

(** a file the plan created is not in the manifest (no entry is ever marked
    [removed]): it is still there after the rollback, and its operation is reported
    as rolled back. *)
Theorem created_file_survives_rollback :
  after_run "/etc/dracut.conf.d/virtio.conf"
    (live_run [write_op "dracut" "/etc/dracut.conf.d/virtio.conf" "add_drivers";
               false_op "regenerate" ["dracut"]] []) =
  (Some (text "add_drivers"), [RolledBack; Failed]).
Proof. by vm_compute. Qed.

(** an operation whose dependency is not in the plan is dropped by the sorter
    and by the report: the run succeeds with no operation applied, failed or
    skipped. *)
Theorem missing_dependency_reported_success :
  match (live_run [edit_op "fstab" "/etc/fstab" "a" "b" ["no-such-op"]]
           [("/etc/fstab", "a")]).2 with
  | Ok r => ar_success r = true ∧ ar_outcomes r = [] ∧
      ar_applied r + ar_failed r + ar_skipped r = 0
  | _ => False
  end.
Proof. by vm_compute. Qed.
