(* ===== verification/Passport.v ===== *)
(** * The cutover passport

    [src/assurance/passport.rs] with the parts of [src/assurance/mod.rs] and
    [src/assurance/copilot.rs] it calls: an image is assessed and examined, the
    result becomes a signed document, and a verifier accepts or refuses it.

    File access runs in the monad of [LiveExec].  Outside the repository, and
    arguments here: collecting the evidence of an image ([collect], called once for
    the assessment and once for the doctor run), the clock (the moments at which it
    is read are arguments), [chrono]'s texts, [serde_json] and [serde_yaml], [hex],
    [ed25519_dalek], the network, and the build's [agent] feature. *)
From stdpp Require Import base gmap strings list.
From Stdlib Require Import ZArith Lia Ascii SpecFloat.
From S2P Require Import Prelude RustStr F64 Partition Filesystem Evidence BootChecks BootEngine Migration Kahn FixPlan Repair LiveExec.

(** ** The document *)
Definition PASSPORT_SCHEMA_VERSION : string := "1".

Record PassportEmitOptions : Type := mk_PassportEmitOptions {
  po_verbose : bool;
  po_content_hash : bool;
  po_virtio_win_dir : option string;
  po_live_url : option string;
  po_sign_key : option string;
  po_issuer : option string;
  po_expires_hours : option Z
}.
Record ImageFingerprint : Type := mk_ImageFingerprint {
  if_path : string;
  if_size_bytes : Z;
  if_content_sha256 : option string
}.
Record PassportScores : Type := mk_PassportScores {
  ps_boot : f64;
  ps_migration : f64;
  ps_readiness : ReadinessLevel
}.
Record PassportFinding : Type := mk_PassportFinding {
  pf_id : string;
  pf_title : string;
  pf_message : string;
  pf_severity : string
}.
Record PlanDigest : Type := mk_PlanDigest {
  pd_profile : string;
  pd_operation_count : nat;
  pd_sha256 : string;
  pd_operation_ids : list string
}.
Record PolicyVerdict : Type := mk_PolicyVerdict {
  pv_passed : bool;
  pv_summary : string;
  pv_failures : list string
}.
Record WindowsPassportFlags : Type := mk_WindowsPassportFlags {
  wp_is_windows : bool;
  wp_bitlocker_blocker : bool;
  wp_bitlocker_detected : bool;
  wp_rdp_enabled : bool;
  wp_virtio_driver_count : nat;
  wp_windows_offline_ready : bool;
  wp_system_reserved_layout : bool;
  wp_bcd_store_found : bool;
  wp_hotfix_count : Z;
  wp_hf_mig_present : bool;
  wp_driver_signature_enforcement : option bool;
  wp_activation_channel : option string;
  wp_ghost_nic_count : nat;
  wp_static_nic_count : nat;
  wp_bitlocker_uncertain : bool
}.
Record LiveAttestation `{Platform} : Type := mk_LiveAttestation {
  la_source : string;
  la_readiness_score : option f64;
  la_detail : option json_value;
  la_error : option string
}.
Record SuiteHandoff : Type := mk_SuiteHandoff {
  sh_export : string;
  sh_convert_deploy : string;
  sh_assurance : string;
  sh_next_step : string
}.
Record PassportSignature : Type := mk_PassportSignature {
  sg_algorithm : string;
  sg_public_key_hex : string;
  sg_signature_hex : string
}.
Record EvidenceDigest : Type := mk_EvidenceDigest {
  ed_os : string;
  ed_architecture : string;
  ed_bootloader : string;
  ed_root_filesystem : string;
  ed_kernel_count : nat;
  ed_fstab_entries : nat;
  ed_virtio_modules_loaded : bool;
  ed_vm_tools : list string;
  ed_selinux : string
}.
Record CutoverPassport `{Platform} : Type := mk_CutoverPassport {
  cp_schema_version : string;
  cp_kind : string;
  cp_generated_at : string;
  cp_tool_version : string;
  cp_target : string;
  cp_image : ImageFingerprint;
  cp_evidence_schema : string;
  cp_evidence_digest : EvidenceDigest;
  cp_scores : PassportScores;
  cp_critical_blockers : list PassportFinding;
  cp_recommended_actions : list string;
  cp_fix_plan : PlanDigest;
  cp_policy : option PolicyVerdict;
  cp_windows : WindowsPassportFlags;
  cp_live_attestation : option LiveAttestation;
  cp_suite : SuiteHandoff;
  cp_hard_blocked : bool;
  cp_issuer : option string;
  cp_expires_at : option string;
  cp_signature : option PassportSignature
}.
Record PassportVerifyOptions : Type := mk_PassportVerifyOptions {
  vo_fail_below : option f64;
  vo_require_signature : bool;
  vo_public_key : option string;
  vo_trust_keys_file : option string;
  vo_max_age_hours : option Z
}.

Definition set_signature `{Platform} (sig : option PassportSignature) (p : CutoverPassport)
    : CutoverPassport :=
  mk_CutoverPassport _ (cp_schema_version p) (cp_kind p) (cp_generated_at p) (cp_tool_version p)
    (cp_target p) (cp_image p) (cp_evidence_schema p) (cp_evidence_digest p) (cp_scores p)
    (cp_critical_blockers p) (cp_recommended_actions p) (cp_fix_plan p) (cp_policy p)
    (cp_windows p) (cp_live_attestation p) (cp_suite p) (cp_hard_blocked p) (cp_issuer p)
    (cp_expires_at p) sig.

Definition is_ascii_hexdigit (c : ascii) : bool :=
  let b := byte_of c in
  ((48 <=? b) && (b <=? 57) || (65 <=? b) && (b <=? 70) || (97 <=? b) && (b <=? 102))%Z.

(** ** What lies outside the repository *)

(** [chrono]; a moment is a number of nanoseconds. *)
Class Chrono := {
  to_rfc3339 : Z → string;
  parse_rfc3339 : string → option Z;
  (** [t + Duration::hours(h)]; [None]: out of range, which panics *)
  add_hours : Z → Z → option Z
}.
(** [serde_json] and [serde_yaml]; [inl] is the error's text. *)
Class Serde `{Platform} := {
  json_from_str : string → string + json_value;
  json_get : json_value → string → option json_value;
  json_pointer : json_value → string → option json_value;
  json_as_f64 : json_value → option f64;
  json_as_bool : json_value → option bool;
  json_as_str : json_value → option string;
  json_as_array : json_value → option (list json_value);
  passport_to_vec : CutoverPassport → string + string;
  passport_to_string_pretty : CutoverPassport → string + string;
  passport_from_str : string → string + CutoverPassport;
  plan_to_vec : FixPlan → string + string;
  plan_to_yaml : FixPlan → string + string
}.
(** [hex] and [ed25519_dalek]; byte strings are strings. *)
Class Crypto := {
  hex_of_bytes : string → string;
  hex_decode : string → option string;
  ed_verifying_key : string → string;
  ed_sign : string → string → string;
  (** [VerifyingKey::from_bytes]: the error's text when the bytes are no key *)
  ed_key_error : string → option string;
  (** [verify key payload signature]: the error's text when it does not hold *)
  ed_verify_error : string → string → string → option string
}.
(** a TCP connection that sends a request and reads the answer to its end. *)
Inductive tcp_error : Type := ConnectFailed | StreamFailed (text : string).
Class Network := tcp_exchange : string → Z → string → tcp_error + string.

(** what verification relies on. *)
Class CryptoLaws `{Crypto} : Prop := {
  hex_decode_of s : hex_decode (hex_of_bytes s) = Some s;
  hex_lowercase s : str_map char_lower (hex_of_bytes s) = hex_of_bytes s;
  hex_digits s : str_forall is_ascii_hexdigit (hex_of_bytes s) = true;
  hex_length s : String.length (hex_of_bytes s) = 2 * String.length s;
  verifying_key_length seed : String.length (ed_verifying_key seed) = 32;
  verifying_key_valid seed : ed_key_error (ed_verifying_key seed) = None;
  sign_length seed payload : String.length (ed_sign seed payload) = 64;
  sign_verifies seed payload :
    ed_verify_error (ed_verifying_key seed) payload (ed_sign seed payload) = None
}.

(** [Err] of a pure computation, in the monad. *)
Definition lift {A} (m : outcome string A) : run A := fun w =>
  match m with Ok a => (w, Ok a) | Err e => (w, Err (ErrText e)) | Panic => (w, Panic) end.
Definition lift_sum {A} (m : string + A) : run A :=
  lift (match m with inl e => Err e | inr a => Ok a end).

(** [&s[..n]]: panics when [n] is inside a character. *)
Definition is_char_boundary (n : nat) (s : string) : bool :=
  match String.get n s with
  | Some c => negb ((128 <=? byte_of c)%Z && (byte_of c <? 192)%Z)
  | None => true
  end.
Definition slice_to (n : nat) (s : string) : outcome string string :=
  if is_char_boundary n s then Ok (String.substring 0 n s) else Panic.

(** [str::trim_end_matches] for one character. *)
Fixpoint trim_end_char (c : ascii) (s : string) : string :=
  match s with
  | EmptyString => EmptyString
  | String d s' =>
      match trim_end_char c s' with
      | EmptyString => if Ascii.eqb d c then EmptyString else String d EmptyString
      | t => String d t
      end
  end.
Definition to_ascii_lowercase (s : string) : string := str_map char_lower s.

(** the text before and after the first occurrence of a pattern. *)
Fixpoint split_once_str (pat s : string) : option (string * string) :=
  if starts_with pat s then Some (EmptyString, str_drop (String.length pat) s)
  else match s with
       | EmptyString => None
       | String c s =>
           (fun '(a, b) => (String c a, b)) <$> split_once_str pat s
       end.
(** [str::rsplit_once] for one character. *)
Fixpoint rsplit_once (c : ascii) (s : string) : option (string * string) :=
  match s with
  | EmptyString => None
  | String d s' =>
      match rsplit_once c s' with
      | Some (a, b) => Some (String d a, b)
      | None => if Ascii.eqb d c then Some (EmptyString, s') else None
      end
  end.
Definition strip_prefix (p s : string) : option string :=
  if starts_with p s then Some (str_drop (String.length p) s) else None.
(** [str::parse] for an unsigned integer below [bound]. *)
Fixpoint parse_digits (bound : Z) (s : string) (acc : Z) : option Z :=
  match s with
  | EmptyString => Some acc
  | String c s =>
      let d := (byte_of c - 48)%Z in
      if (0 <=? d)%Z && (d <=? 9)%Z && (acc * 10 + d <? bound)%Z
      then parse_digits bound s (acc * 10 + d) else None
  end.
Definition parse_unsigned (bound : Z) (s : string) : option Z :=
  let digits := match s with String "+"%char rest => rest | _ => s end in
  if is_empty digits then None else parse_digits bound digits 0.

(** [x as i64]. *)
Definition as_i64 (x : Z) : Z :=
  let m := (x mod 2 ^ 64)%Z in if (m <? 2 ^ 63)%Z then m else (m - 2 ^ 64)%Z.

Definition crlf : string := String (ascii_of_byte 13) (String (ascii_of_byte 10) "").

Definition default_SuiteHandoff : SuiteHandoff :=
  mk_SuiteHandoff "HyperSDK (hyperctl / hypervisord)" "hyper2kvm (h2kvmctl)"
    "GuestKit Cutover Passport"
    "After passport verify passes, convert/deploy with hyper2kvm (or continue HyperSDK job pipeline). Do not skip this gate for MTV/virt-v2v imports.".
Definition default_WindowsPassportFlags : WindowsPassportFlags :=
  mk_WindowsPassportFlags false false false false 0 false false false 0%Z false None None 0 0
    false.

(** the version of [Cargo.toml]. *)
Definition VERSION : string := "1.2.5".

(** [boot_target_from_str] of [src/assurance/mod.rs]. *)
Definition boot_target_from_str `{Platform} (target : string) : BootTarget :=
  let t := to_lowercase target in
  if one_of ["kubevirt"] t then KubeVirt
  else if one_of ["proxmox"] t then Proxmox
  else if one_of ["kvm"; "qemu"] t then Kvm
  else if one_of ["hyperv"; "hyper-v"] t then HyperV
  else if one_of ["aws"; "azure"; "gcp"; "cloud"] t then Cloud
  else Generic.

Section passport.
Context `{P : Platform} `{Host : !RepairHost} `{J : !JsonText} `{Sys : System}.
Context `{Ch : Chrono} `{Sd : !Serde} `{Cr : Crypto} `{Net : Network}.
(** built with the [agent] feature? *)
Context (agent : bool).
Implicit Types (ev : EvidenceSnapshot) (p : CutoverPassport) (a : MigrationAssessment).

(** ** Parts of the document *)
Definition build_evidence_digest ev : EvidenceDigest :=
  let os := if is_empty (os_distribution (ev_os ev)) then os_os_type (ev_os ev)
            else trim (os_distribution (ev_os ev) +:+ " " +:+ os_version (ev_os ev)) in
  mk_EvidenceDigest os (os_architecture (ev_os ev)) (be_bootloader (ev_boot ev))
    (st_root_filesystem (ev_storage ev)) (length (pe_kernels (ev_packages ev)))
    (length (st_fstab_entries (ev_storage ev)))
    (existsb (contains "virtio") (be_loaded_modules (ev_boot ev)))
    (vt_detected (ev_vm_tools ev)) (se_selinux (ev_security ev)).

Definition plan_digest (plan : FixPlan) : run PlanDigest :=
  bytes ← lift_sum (plan_to_vec plan);
  mret (mk_PlanDigest (pl_profile plan) (length (pl_operations plan))
          (hex_encode (sha256 bytes)) (map op_id (pl_operations plan))).

Definition passport_finding (b : Finding) : PassportFinding :=
  mk_PassportFinding (fi_check_id b) (fi_title b) (fi_message b) "blocker".
Definition add_blocker (out : list PassportFinding) (b : Finding) : list PassportFinding :=
  if existsb (fun f => String.eqb (pf_id f) (fi_check_id b)) out then out
  else out ++ [passport_finding b].
Definition collect_blockers (boot : BootabilityReport) a : list PassportFinding :=
  foldl add_blocker (map passport_finding (br_blockers boot)) (ma_critical_blockers a).

Definition rdp_or_winrm (o : Operation) : bool :=
  contains "rdp" (op_id o) || contains "winrm" (op_id o)
  || contains "remote desktop" (to_lowercase (op_description o))
  || contains "winrm" (to_lowercase (op_description o)).
Definition is_driver_inject (o : Operation) : bool :=
  match op_type o with OpDriverInject _ => true | _ => false end.
Definition any_protected (win : WindowsEvidence) : bool :=
  match we_bitlocker win with Some b => bl_any_protected b | None => false end.
Definition bitlocker_blocks (win : WindowsEvidence) a : bool :=
  any_protected win
  || existsb (fun b => String.eqb (fi_check_id b) "MIG-W-005") (ma_critical_blockers a).

Definition windows_flags ev (plan : FixPlan) a : WindowsPassportFlags :=
  match ev_windows ev with
  | None =>
      let d := default_WindowsPassportFlags in
      mk_WindowsPassportFlags (eq_ignore_ascii_case (os_os_type (ev_os ev)) "windows")
        (wp_bitlocker_blocker d) (wp_bitlocker_detected d) (wp_rdp_enabled d)
        (wp_virtio_driver_count d) (wp_windows_offline_ready d) (wp_system_reserved_layout d)
        (wp_bcd_store_found d) (wp_hotfix_count d) (wp_hf_mig_present d)
        (wp_driver_signature_enforcement d) (wp_activation_channel d) (wp_ghost_nic_count d)
        (wp_static_nic_count d) (wp_bitlocker_uncertain d)
  | Some win =>
      let bitlocker_blocker := bitlocker_blocks win a in
      let virtio_driver_count := length (we_virtio_drivers win) in
      let plan_has_driver_inject := existsb is_driver_inject (pl_operations plan) in
      let plan_has_rdp_or_winrm := existsb rdp_or_winrm (pl_operations plan) in
      let windows_offline_ready :=
        negb bitlocker_blocker && ((0 <? virtio_driver_count)%nat || plan_has_driver_inject)
        && (we_rdp_enabled win || plan_has_rdp_or_winrm) in
      mk_WindowsPassportFlags true bitlocker_blocker
        (we_bitlocker_detected win || any_protected win) (we_rdp_enabled win)
        virtio_driver_count windows_offline_ready
        (match we_system_reserved win with Some _ => true | None => false end)
        (we_bcd_store_found win) (we_hotfix_count win) (we_hf_mig_present win)
        (we_driver_signature_enforcement win)
        (match we_activation win with
         | Some act => if is_empty (ai_channel act) then None else Some (ai_channel act)
         | None => None
         end) (length (we_ghost_nics win)) (length (we_static_nic_configs win))
        (match we_bitlocker win with Some b => bl_offline_uncertain b | None => false end)
  end.

(** ** Live attestation *)
Definition f64_at (v : json_value) (ptr : string) : option f64 :=
  json_pointer v ptr ≫= json_as_f64.
Definition or_else {A} (x y : option A) : option A :=
  match x with Some _ => x | None => y end.

Definition online_correlation_attestation a : option LiveAttestation :=
  (fun oc =>
     mk_LiveAttestation _ "guest_on_disk_cache"
       (or_else (f64_at oc "/payload/heartbeat/readiness_score")
          (f64_at oc "/payload/doctor/score")) (Some oc) None)
  <$> ma_online_correlation a.

Definition http_get_json (url : string) : string + json_value :=
  match strip_prefix "http://" url with
  | None => inl "live URL must start with http://"
  | Some rest =>
      let '(authority, path_and_query) :=
        match split_once "/"%char rest with
        | Some (a, p) => (a, "/" +:+ p)
        | None => (rest, "/")
        end in
      match match rsplit_once ":"%char authority with
            | Some (h, p) => (fun port => (h, port)) <$> parse_unsigned (2 ^ 16) p
            | None => Some (authority, 80%Z)
            end with
      | None => inl "parse live URL port"
      | Some (host, port) =>
          let req := "GET " +:+ path_and_query +:+ " HTTP/1.1" +:+ crlf +:+ "Host: " +:+ authority
            +:+ crlf +:+ "Connection: close" +:+ crlf +:+ "Accept: application/json" +:+ crlf
            +:+ crlf in
          match tcp_exchange host port req with
          | inl ConnectFailed => inl ("connect " +:+ host +:+ ":" +:+ fmt_Z port)
          | inl (StreamFailed text) => inl text
          | inr resp =>
              match split_once_str (crlf +:+ crlf) resp with
              | None => inl "HTTP response missing body"
              | Some (_, after) =>
                  let body := match split_once_str (crlf +:+ crlf) after with
                              | Some (b, _) => b
                              | None => after
                              end in
                  match json_from_str body with
                  | inl _ => inl "parse live doctor JSON"
                  | inr v => inr v
                  end
              end
          end
      end
  end.

Definition fetch_live_attestation (base_url : string) : LiveAttestation :=
  let url := trim_end_char "/"%char base_url +:+ "/doctor" in
  match http_get_json url with
  | inr detail =>
      mk_LiveAttestation _ url
        (or_else (json_get detail "score" ≫= json_as_f64)
           (or_else (json_get detail "readiness_score" ≫= json_as_f64)
              (f64_at detail "/bootability/score"))) (Some detail) None
  | inl e => mk_LiveAttestation _ url None None (Some e)
  end.

(** ** Fingerprint *)

(** [fs::metadata]: the length. *)
Definition fs_len (p : string) : run Z := fun w =>
  let n := w_calls w in
  let w := count_call w in
  match io n, w_files w !! p with
  | None, Some f => (w, Ok (Z.of_nat (String.length (f_content f))))
  | _, _ => (w, Err (ErrIo n))
  end.
(** the whole file is hashed, chunk by chunk. *)
Definition hash_file_sha256 (p : string) : run string :=
  bytes ← fs_bytes p;
  mret (hex_encode (sha256 bytes)).
Definition image_fingerprint (image : string) (content_hash : bool) : run ImageFingerprint :=
  size ← with_context ("stat image " +:+ image) (fs_len image);
  content_sha256 ← (if content_hash then h ← hash_file_sha256 image; mret (Some h)
                    else mret None);
  mret (mk_ImageFingerprint image size content_sha256).

(** ** Signatures *)
Definition signing_payload p : outcome string string :=
  match passport_to_vec (set_signature None p) with inl e => Err e | inr s => Ok s end.

Definition load_ed25519_seed (path : string) : run string :=
  raw ← with_context ("read sign key " +:+ path) (fs_bytes path);
  if (String.length raw =? 32)%nat then mret raw
  else
    let text := from_utf8_lossy (byte_of <$> String.list_ascii_of_string raw) in
    match hex_decode (trim text) with
    | None => throw (ErrText "sign key must be 32 raw bytes or 64 hex chars")
    | Some decoded =>
        if (String.length decoded =? 32)%nat then mret decoded
        else throw (ErrText "sign key hex must decode to 32 bytes")
    end.

Definition sign_passport p (key_path : string) : run PassportSignature :=
  if agent then
    seed ← load_ed25519_seed key_path;
    payload ← lift (signing_payload p);
    mret (mk_PassportSignature "ed25519" (hex_of_bytes (ed_verifying_key seed))
            (hex_of_bytes (ed_sign seed payload)))
  else
    throw (ErrText "passport signing requires guestkit built with --features agent (Ed25519)").

(** [generate_passport_signing_key]; [seed] is what the random generator gave. *)
Definition set_private (path : string) : run () :=
  fs_mode path ;; fs_chmod path 384.
Definition generate_passport_signing_key (seed seed_path public_path : string) : run string :=
  if agent then
    let pub_hex := hex_of_bytes (ed_verifying_key seed) in
    create_parent seed_path ;;
    create_parent public_path ;;
    with_context ("write seed " +:+ seed_path) (fs_write seed_path seed) ;;
    set_private seed_path ;;
    with_context ("write public key " +:+ public_path)
      (fs_write public_path (pub_hex +:+ newline_str)) ;;
    mret pub_hex
  else
    throw (ErrText "passport keygen requires guestkit built with --features agent (Ed25519)").

(** the build with the feature. *)
Definition verify_ed25519 p (public_key : option string) (trust_keys : option (list string))
    : outcome string () :=
  match cp_signature p with
  | None => Err "passport has no signature"
  | Some sig =>
      if negb (String.eqb (sg_algorithm sig) "ed25519") then
        Err ("unsupported signature algorithm " +:+ sg_algorithm sig)
      else
        let embedded := to_ascii_lowercase (sg_public_key_hex sig) in
        let untrusted := match trust_keys with
                         | Some keys => negb (existsb (String.eqb embedded) keys)
                         | None => false
                         end in
        if untrusted then
          short ← slice_to (Nat.min (String.length embedded) 16) embedded;
          Err ("passport signing key " +:+ short +:+ "… is not in --trust-keys allowlist")
        else
          let pk_hex := match public_key with
                        | Some s => to_ascii_lowercase s
                        | None => embedded
                        end in
          if match public_key with Some _ => true | None => false end
             && negb (String.eqb pk_hex embedded) then
            Err "--public-key does not match signature.public_key_hex embedded in passport"
          else
            match hex_decode pk_hex with
            | None => Err "decode public key hex"
            | Some pk =>
                if negb (String.length pk =? 32)%nat then Err "public key must be 32 bytes"
                else
                  match ed_key_error pk with
                  | Some e => Err ("invalid public key: " +:+ e)
                  | None =>
                      match hex_decode (sg_signature_hex sig) with
                      | None => Err "decode signature hex"
                      | Some sb =>
                          if negb (String.length sb =? 64)%nat then
                            Err "signature must be 64 bytes"
                          else
                            payload ← signing_payload p;
                            match ed_verify_error pk payload sb with
                            | None => Ok ()
                            | Some e => Err ("passport signature verification failed: " +:+ e)
                            end
                      end
                  end
            end
  end.
Definition verify_signature p (public_key : option string) (trust_keys : option (list string))
    : outcome string () :=
  if agent then verify_ed25519 p public_key trust_keys
  else match cp_signature p with
       | Some _ =>
           Err "passport has a signature but this build lacks --features agent to verify Ed25519"
       | None => Ok ()
       end.

(** ** Trust keys *)
Definition trust_line (path : string) (i : nat) (line : string)
    : outcome string (option string) :=
  let line := trim line in
  if is_empty line || starts_with "#" line then Ok None
  else
    let hex_key := default line (head (split_whitespace line)) in
    if negb (String.length hex_key =? 64)%nat || negb (str_forall is_ascii_hexdigit hex_key) then
      Err ("trust keys " +:+ path +:+ ":" +:+ fmt_nat (i + 1)
           +:+ ": expected 64 hex chars for Ed25519 public key")
    else Ok (Some (to_ascii_lowercase hex_key)).
Fixpoint trust_lines (path : string) (i : nat) (ls keys : list string)
    : outcome string (list string) :=
  match ls with
  | [] => Ok keys
  | l :: ls =>
      k ← trust_line path i l;
      trust_lines path (S i) ls (match k with Some k => keys ++ [k] | None => keys end)
  end.
Definition load_trust_keys (path : string) : run (list string) :=
  text ← with_context ("read trust keys " +:+ path) (fs_read path);
  keys ← lift (trust_lines path 0 (lines text) []);
  match keys with
  | [] => throw (ErrText ("trust keys file " +:+ path +:+ " has no public keys"))
  | _ => mret keys
  end.

(** ** Verification *)
Definition check_expiry (now : Z) p : outcome string () :=
  match cp_expires_at p with
  | None => Ok ()
  | Some expires =>
      match parse_rfc3339 expires with
      | None => Err ("parse expires_at '" +:+ expires +:+ "'")
      | Some exp => if (exp <? now)%Z then Err ("passport expired at " +:+ expires) else Ok ()
      end
  end.
(** [num_seconds] truncates towards zero. *)
Definition age_seconds (now generated : Z) : Z :=
  Z.max (Z.quot (now - generated) 1000000000) 0.
Definition check_age (now : Z) p (max_age_hours : option Z) : outcome string () :=
  match max_age_hours with
  | None => Ok ()
  | Some max_age =>
      match parse_rfc3339 (cp_generated_at p) with
      | None => Err ("parse generated_at '" +:+ cp_generated_at p +:+ "'")
      | Some generated =>
          let age := age_seconds now generated in
          let limit := Z.min (max_age * 3600) (2 ^ 64 - 1) in
          if (limit <? age)%Z then
            Err ("passport generated_at is " +:+ fmt_Z age +:+ "s old (max-age-hours="
                 +:+ fmt_Z max_age +:+ " → " +:+ fmt_Z limit +:+ "s)")
          else Ok ()
      end
  end.
Definition check_score p (fail_below : option f64) : outcome string () :=
  match fail_below with
  | None => Ok ()
  | Some threshold =>
      let boot := ps_boot (cp_scores p) in
      let migration := ps_migration (cp_scores p) in
      let score := f64_min boot migration in
      if (score <? threshold)%f64 then
        Err ("passport score " +:+ fmt_f64_0 score +:+ " (min of boot " +:+ fmt_f64_0 boot
             +:+ " / migration " +:+ fmt_f64_0 migration +:+ ") below --fail-below "
             +:+ fmt_f64 threshold)
      else Ok ()
  end.

(** [now_expiry] and [now_age] are the two readings of the clock. *)
Definition verify_passport (now_expiry now_age : Z) p (opts : PassportVerifyOptions) : run () :=
  if negb (String.eqb (cp_schema_version p) PASSPORT_SCHEMA_VERSION) then
    throw (ErrText ("unsupported passport schema_version " +:+ cp_schema_version p
      +:+ " (expected " +:+ PASSPORT_SCHEMA_VERSION +:+ ")"))
  else if cp_hard_blocked p then
    throw (ErrText "passport hard-blocked (BitLocker and/or boot/migration blockers) — cutover refused")
  else if wp_bitlocker_blocker (cp_windows p) then
    throw (ErrText "BitLocker protection is active — suspend/escrow before cutover")
  else
    lift (check_expiry now_expiry p) ;;
    lift (check_age now_age p (vo_max_age_hours opts)) ;;
    lift (check_score p (vo_fail_below opts)) ;;
    trust_keys ← match vo_trust_keys_file opts with
                 | Some path => keys ← load_trust_keys path; mret (Some keys)
                 | None => mret None
                 end;
    let signed := match cp_signature p with Some _ => true | None => false end in
    let listed := match trust_keys with Some _ => true | None => false end in
    if vo_require_signature opts || signed || listed then
      if listed && negb signed then
        throw (ErrText "--trust-keys requires a signed passport")
      else lift (verify_signature p (vo_public_key opts) trust_keys)
    else mret ().

(** ** Emission *)

(** [collect_assurance_data]; collecting from the image is [collected]. *)
Definition collect_assurance_data (collected : outcome string EvidenceSnapshot)
    (target : BootTarget) : outcome string (EvidenceSnapshot * BootabilityReport) :=
  ev ← collected;
  Ok (ev, analyze_bootability ev target).
Definition run_migrate_assess (oc : bool) (now : Z) (collected : outcome string EvidenceSnapshot)
    (target : string) : outcome string (EvidenceSnapshot * MigrationAssessment) :=
  '(ev, boot_report) ← collect_assurance_data collected (boot_target_from_str target);
  match assess_migration oc (to_rfc3339 now) ev boot_report target false with
  | Ok assessment => Ok (ev, assessment)
  | Err e => match e with end
  | Panic => Panic
  end.
(** the report of [run_doctor] without [explain]. *)
Definition run_doctor (collected : outcome string EvidenceSnapshot) (target : string)
    : outcome string BootabilityReport :=
  '(_, boot_report) ← collect_assurance_data collected (boot_target_from_str target);
  Ok boot_report.

(** what the environment gives one emission: the two collections and the readings of
    the clock, in the order of the calls. *)
Record emission : Type := mk_emission {
  em_assess_collected : outcome string EvidenceSnapshot;
  em_assess_now : Z;
  em_doctor_collected : outcome string EvidenceSnapshot;
  em_plan_now : Z;
  em_now : Z
}.

Definition expiry_of (generated_at : Z) (hours : option Z) : outcome string (option string) :=
  match hours with
  | None => Ok None
  | Some h =>
      match add_hours generated_at (as_i64 h) with
      | Some t => Ok (Some (to_rfc3339 t))
      | None => Panic
      end
  end.

Definition emit_passport (oc : bool) (em : emission) (image target : string)
    (opts : PassportEmitOptions) : run (CutoverPassport * FixPlan) :=
  '(evidence, assessment) ←
    lift (run_migrate_assess oc (em_assess_now em) (em_assess_collected em) target);
  bootability ← lift (run_doctor (em_doctor_collected em) target);
  let plan := (from_assessment (em_plan_now em) assessment evidence
                 (mk_RepairOptions false (po_virtio_win_dir opts))).1 in
  fingerprint ← image_fingerprint image (po_content_hash opts);
  let windows := windows_flags evidence plan assessment in
  let hard_blocked :=
    wp_bitlocker_blocker windows
    || match ma_readiness assessment with Blocked => true | _ => false end
    || match br_blockers bootability with [] => false | _ => true end in
  let live_attestation :=
    match po_live_url opts with
    | Some url => Some (fetch_live_attestation url)
    | None => online_correlation_attestation assessment
    end in
  let generated_at := em_now em in
  expires_at ← lift (expiry_of generated_at (po_expires_hours opts));
  fix_plan ← plan_digest plan;
  let passport :=
    mk_CutoverPassport _ PASSPORT_SCHEMA_VERSION "guestkit.cutover_passport"
      (to_rfc3339 generated_at) VERSION target fingerprint (fmt_Z (ev_schema_version evidence))
      (build_evidence_digest evidence)
      (mk_PassportScores (br_score bootability) (ma_overall_score assessment)
         (ma_readiness assessment)) (collect_blockers bootability assessment)
      (ma_recommended_actions assessment) fix_plan None windows live_attestation
      default_SuiteHandoff hard_blocked
      (match po_issuer opts with
       | Some s => if is_empty (trim s) then None else Some (trim s)
       | None => None
       end) expires_at None in
  match po_sign_key opts with
  | Some key_path =>
      sig ← sign_passport passport key_path;
      mret (set_signature (Some sig) passport, plan)
  | None => mret (passport, plan)
  end.
End passport.
