(* ===== verification/PassportProps.v ===== *)
(** * What a cutover passport guarantees

    Theorems on [Passport]: a passport that was emitted for an image and is accepted
    by the verifier describes a guest without boot blockers, without migration
    blockers and without active BitLocker; signatures made by the emitter verify;
    and what an accepted signature means. *)
From stdpp Require Import base gmap strings list.
From Stdlib Require Import ZArith Lia Ascii SpecFloat.
From S2P Require Import Prelude RustStr F64 Partition Filesystem Evidence BootChecks BootEngine BootScore Migration Assessment Kahn FixPlan Repair RepairProps LiveExec LiveProps Passport.

(** ** The monad, read backwards *)
Lemma run_bind_Ok {A B} (m : run A) (f : A → run B) w w' b :
  (m ≫= f) w = (w', Ok b) ↔ ∃ w1 a, m w = (w1, Ok a) ∧ f a w1 = (w', Ok b).
Proof.
  unfold mbind, run_bind. destruct (m w) as [w1 [a|e|]]; split; try done; [by eauto| |..];
    by intros (? & ? & ? & ?); simplify_eq.
Qed.
Lemma lift_Ok {A} (m : outcome string A) w w' a :
  lift m w = (w', Ok a) ↔ m = Ok a ∧ w' = w.
Proof. unfold lift. destruct m; naive_solver. Qed.
Lemma throw_Ok {A} e w w' (a : A) : throw e w ≠ (w', Ok a).
Proof. done. Qed.

(** split a successful run into its steps. *)
Ltac run_inv :=
  repeat match goal with
  | H : (_ ≫= _) _ = (_, Ok _) |- _ => apply run_bind_Ok in H as (? & ? & ? & H)
  | H : lift _ _ = (_, Ok _) |- _ => apply lift_Ok in H as [H ->]
  | H : throw _ _ = (_, Ok _) |- _ => by apply throw_Ok in H
  | H : mret _ _ = (_, Ok _) |- _ => first [injection H as ? ? | injection H as ?]; subst
  end.

(** ** Texts of hexadecimal digits *)
Lemma hexdigit_not_white c s :
  is_ascii_hexdigit c = true →
  List.find (fun w => starts_with w (String c s)) white_space_chars = None.
Proof. by destruct c as [[] [] [] [] [] [] [] []]. Qed.
Lemma hexdigit_ascii c : is_ascii_hexdigit c = true → (byte_of c < 128)%Z.
Proof. by destruct c as [[] [] [] [] [] [] [] []]. Qed.
Lemma hexdigit_plain c :
  is_ascii_hexdigit c = true →
  Ascii.eqb (ascii_of_byte 10) c = false ∧ (byte_of c =? 13)%Z = false ∧ Ascii.eqb "#" c = false.
Proof. by destruct c as [[] [] [] [] [] [] [] []]. Qed.

Section hex_text.
Variables (s : string).
Hypothesis (Hhex : str_forall is_ascii_hexdigit s = true).

Lemma trim_hex : trim s = s.
Proof.
  assert (∀ t, str_forall is_ascii_hexdigit t = true → trim_start t = t) as Hstart.
  { intros [|c t] Ht; [done|]. apply str_forall_cons in Ht as [Hc _].
    unfold trim_start. cbn [String.length trim_start_fuel]. by rewrite hexdigit_not_white. }
  unfold trim. rewrite Hstart by done. clear -Hhex Hstart.
  induction s as [|c t IH]; [done|]. pose proof Hhex as [Hc Ht]%str_forall_cons.
  cbn [trim_end]. unfold trim_is_empty. fold (trim_start (String c t)).
  rewrite Hstart by done. cbn [is_empty]. by rewrite IH.
Qed.
Lemma split_whitespace_hex : s ≠ "" → split_whitespace s = [s].
Proof.
  unfold split_whitespace. intros Hs.
  assert (∀ t word, str_forall is_ascii_hexdigit t = true → word ≠ [] ∨ t ≠ "" →
    split_whitespace_fuel (String.length t) word t =
    [String.string_of_list_ascii (reverse word) +:+ t]) as H.
  { clear. induction t as [|c t IH]; intros word Ht Hne; cbn [String.length split_whitespace_fuel].
    - destruct word as [|x word]; [naive_solver|]. cbn [push_word].
      f_equal. generalize (String.string_of_list_ascii (reverse (x :: word))).
      intros u. induction u as [|y u IH]; [done|]. exact (f_equal (String y) IH).
    - apply str_forall_cons in Ht as [Hc Ht]. rewrite hexdigit_not_white by done.
      rewrite IH by (try done; by left). f_equal. rewrite reverse_cons.
      generalize (reverse word). intros l.
      induction l as [|y l IHl]; [done|]. exact (f_equal (String y) IHl). }
  rewrite H by (by try right). done.
Qed.
Lemma lines_hex : s ≠ "" → lines (s +:+ newline_str) = [s].
Proof.
  intros Hs. unfold lines.
  assert (split_char (ascii_of_byte 10) (s +:+ newline_str) = [s; ""]) as ->.
  { clear Hs. induction s as [|c t IH]; [done|]. pose proof Hhex as [Hc Ht]%str_forall_cons.
    apply hexdigit_plain in Hc as (Hc & _).
    change (String c t +:+ newline_str) with (String c (t +:+ newline_str)).
    cbn [split_char]. by rewrite Hc, IH. }
  cbn. f_equal. clear Hs. induction s as [|c t IH]; [done|].
  pose proof Hhex as [Hc Ht]%str_forall_cons. apply hexdigit_plain in Hc as (_ & Hc & _).
  cbn [strip_cr]. destruct t; [by rewrite Hc|]. by rewrite IH.
Qed.
Lemma hex_not_comment : starts_with "#" s = false.
Proof.
  destruct s as [|c t]; [done|]. pose proof Hhex as [Hc _]%str_forall_cons.
  apply hexdigit_plain in Hc as (_ & _ & Hc%Ascii.eqb_neq). unfold starts_with.
  cbn [String.prefix]. by destruct (ascii_dec "#" c).
Qed.
End hex_text.

Section props.
Context `{P : Platform} `{Host : !RepairHost} `{J : !JsonText} `{Sys : System}.
Context `{Ch : Chrono} `{Sd : !Serde} `{Cr : Crypto} `{Net : Network}.
Implicit Types (ev : EvidenceSnapshot) (p : CutoverPassport) (a : MigrationAssessment).
Implicit Types (agent oc : bool) (em : emission) (opts : PassportEmitOptions).
Implicit Types (vopts : PassportVerifyOptions).

(** the target names of the assurance layer are those of the boot engine. *)
Theorem boot_target_names target : boot_target_from_str target = BootTarget_parse target.
Proof.
  unfold boot_target_from_str, BootTarget_parse, one_of. generalize (to_lowercase target).
  intros t. cbn [existsb].
  repeat match goal with |- context [String.eqb t ?x] => destruct (String.eqb_spec t x); [by subst|] end.
  done.
Qed.

(** ** What an emitted passport holds *)
Lemma run_migrate_assess_Ok oc now collected target ev a :
  run_migrate_assess oc now collected target = Ok (ev, a) →
  collected = Ok ev ∧
  assess_migration oc (to_rfc3339 now) ev
    (analyze_bootability ev (boot_target_from_str target)) target false = Ok a.
Proof.
  unfold run_migrate_assess. intros ([ev' r] & Hc & Ha)%outcome_bind_Ok.
  unfold collect_assurance_data in Hc. apply outcome_bind_Ok in Hc as (? & -> & [= -> <-]).
  destruct (assess_migration _ _ _ _ _ _) as [?|[]|] eqn:E; [|done].
  injection Ha as -> ->. by rewrite <-E.
Qed.
Lemma run_doctor_Ok collected target r :
  run_doctor collected target = Ok r →
  ∃ ev, collected = Ok ev ∧ r = analyze_bootability ev (boot_target_from_str target).
Proof.
  unfold run_doctor. intros ([ev' r'] & Hc & [= <-])%outcome_bind_Ok.
  unfold collect_assurance_data in Hc. apply outcome_bind_Ok in Hc as (? & -> & [= <- <-]).
  by eauto.
Qed.

(** what the document says of the two examinations of the image. *)
Definition describes p ev ev' a (target : string) (plan : FixPlan) : Prop :=
  let boot := analyze_bootability ev' (boot_target_from_str target) in
  cp_schema_version p = PASSPORT_SCHEMA_VERSION ∧
  cp_scores p = mk_PassportScores (br_score boot) (ma_overall_score a) (ma_readiness a) ∧
  cp_windows p = windows_flags ev plan a ∧
  cp_critical_blockers p = collect_blockers boot a ∧
  cp_hard_blocked p =
    wp_bitlocker_blocker (windows_flags ev plan a)
    || match ma_readiness a with Blocked => true | _ => false end
    || match br_blockers boot with [] => false | _ => true end.

Lemma emit_describes agent oc em image target opts w w' p plan :
  emit_passport agent oc em image target opts w = (w', Ok (p, plan)) →
  ∃ ev ev' a, em_assess_collected em = Ok ev ∧ em_doctor_collected em = Ok ev' ∧
    assess_migration oc (to_rfc3339 (em_assess_now em)) ev
      (analyze_bootability ev (boot_target_from_str target)) target false = Ok a ∧
    describes p ev ev' a target plan.
Proof.
  unfold emit_passport. intros H. run_inv. destruct x0 as [ev a]. run_inv.
  apply run_migrate_assess_Ok in H0 as [Hc Ha]. apply run_doctor_Ok in H1 as (ev' & Hc' & ->).
  exists ev, ev', a. do 3 (split; [done|]).
  destruct (po_sign_key opts); run_inv; unfold describes; cbn; by rewrite ?orb_assoc.
Qed.

(** a passport that is not hard-blocked describes an unblocked guest. *)
Lemma describes_unblocked p ev ev' a target plan :
  describes p ev ev' a target plan → cp_hard_blocked p = false →
  ma_readiness a ≠ Blocked ∧ (∀ win, ev_windows ev = Some win → any_protected win = false) ∧
  br_blockers (analyze_bootability ev' (boot_target_from_str target)) = [].
Proof.
  intros (_ & _ & _ & _ & Hhb) Hnb. rewrite Hhb in Hnb.
  apply orb_false_iff in Hnb as [[Hbl Hready]%orb_false_iff Hboot]. split_and!.
  - by intros E; rewrite E in Hready.
  - intros win Hw. unfold windows_flags in Hbl. rewrite Hw in Hbl. cbn in Hbl.
    unfold bitlocker_blocks in Hbl. by apply orb_false_iff in Hbl as [? _].
  - by destruct (br_blockers _).
Qed.

(** ** What acceptance means *)
Definition is_signed p : bool := match cp_signature p with Some _ => true | None => false end.

Lemma verify_passport_Ok agent now_expiry now_age p vopts w w' :
  verify_passport agent now_expiry now_age p vopts w = (w', Ok ()) →
  cp_schema_version p = PASSPORT_SCHEMA_VERSION ∧ cp_hard_blocked p = false ∧
  wp_bitlocker_blocker (cp_windows p) = false ∧ check_expiry now_expiry p = Ok () ∧
  check_age now_age p (vo_max_age_hours vopts) = Ok () ∧
  check_score p (vo_fail_below vopts) = Ok () ∧
  match vo_trust_keys_file vopts with
  | Some path =>
      is_signed p = true ∧ ∃ w1 keys, load_trust_keys path w = (w1, Ok keys) ∧
        verify_signature agent p (vo_public_key vopts) (Some keys) = Ok ()
  | None =>
      vo_require_signature vopts || is_signed p = true →
      verify_signature agent p (vo_public_key vopts) None = Ok ()
  end.
Proof.
  unfold verify_passport.
  destruct (String.eqb_spec (cp_schema_version p) PASSPORT_SCHEMA_VERSION); [|done].
  destruct (cp_hard_blocked p); [done|].
  destruct (wp_bitlocker_blocker (cp_windows p)); [done|]. cbn [negb]. intros H. run_inv.
  repeat match goal with x : unit |- _ => destruct x end.
  do 6 (split; [assumption || reflexivity|]).
  fold (is_signed p) in H. destruct (vo_trust_keys_file vopts) as [path|]; run_inv.
  - rewrite orb_true_r in H. destruct (is_signed p) eqn:Hs; cbn in H; run_inv.
    split; [done|]. eauto.
  - rewrite orb_false_r in H. intros Hr. rewrite Hr in H. cbn in H. by run_inv.
Qed.

(** neither score is below the threshold when their minimum is not. *)
Lemma f64_nonneg_ltb x t : f64_nonneg x → (x <? t)%f64 = true → f64_nonneg t.
Proof. by destruct x as [[]|[]| |[]], t as [[]|[]| |[]]. Qed.
Lemma f64_min_not_below x y t :
  f64_nonneg x → f64_nonneg y → (f64_min x y <? t)%f64 = false →
  (x <? t)%f64 = false ∧ (y <? t)%f64 = false.
Proof.
  intros Hx Hy. unfold f64_min. rewrite !f64_nonneg_not_nan by done.
  assert (∀ u v, f64_nonneg u → f64_nonneg v → (u <=? v)%f64 = true →
    (u <? t)%f64 = false → (v <? t)%f64 = false) as Hle.
  { intros u v Hu Hv Huv H. apply not_true_iff_false. intros Hlt.
    apply not_true_iff_false in H. apply H.
    by apply (f64_leb_ltb_trans u v t); [..|by apply (f64_nonneg_ltb v)| |]. }
  destruct (y <? x)%f64 eqn:E; intros H; split; try done.
  - by apply (Hle y x); [..|apply f64_ltb_leb|].
  - apply (Hle x y); auto using f64_ltb_false, f64_nonneg_not_nan.
Qed.

Lemma score_ok_nonneg x : score_ok x → f64_nonneg x.
Proof. intros (z & Hz & ->). apply f64_of_Z_nonneg. lia. Qed.

(** the scores of an examined guest are numbers from 0. *)
Lemma boot_score_nonneg ev bt : f64_nonneg (br_score (analyze_bootability ev bt)).
Proof. apply f64_le_nonneg, boot_score_facts. Qed.
Lemma migration_score_nonneg oc now ev bt target live a :
  assess_migration oc now ev (analyze_bootability ev bt) target live = Ok a →
  f64_nonneg (ma_overall_score a).
Proof.
  destruct (assess_Ok oc now ev bt target live) as (legacy & _ & ->). intros [= <-].
  apply score_ok_nonneg, run_all_checks_scores.
Qed.

Lemma assessment_unblocked oc now ev bt target live a :
  assess_migration oc now ev (analyze_bootability ev bt) target live = Ok a →
  ma_readiness a ≠ Blocked → ma_critical_blockers a = [].
Proof.
  destruct (assess_Ok oc now ev bt target live) as (legacy & _ & ->). intros [= <-].
  cbn [ma_readiness ma_critical_blockers]. unfold readiness_of.
  by destruct (critical_blockers _); [|intros []].
Qed.

(** C1: a passport that was emitted for an image and that the verifier accepts, in
    whatever build and with whatever options, was made from two collections of
    evidence that succeeded: the first gives an assessment that is not Blocked and has
    no active BitLocker, the second a boot report without blockers and a boot score of
    at least 50; the passport lists no critical blocker, neither score is below the
    verifier's threshold, the passport has not expired, and it is not older than the
    limit. *)
Theorem verified_passport_sound agent agent' oc em image target opts w w1 p plan
    now_expiry now_age vopts v v1 :
  emit_passport agent oc em image target opts w = (w1, Ok (p, plan)) →
  verify_passport agent' now_expiry now_age p vopts v = (v1, Ok ()) →
  ∃ ev ev' a, em_assess_collected em = Ok ev ∧ em_doctor_collected em = Ok ev' ∧
    assess_migration oc (to_rfc3339 (em_assess_now em)) ev
      (analyze_bootability ev (boot_target_from_str target)) target false = Ok a ∧
    ma_readiness a ≠ Blocked ∧
    (∀ win, ev_windows ev = Some win → any_protected win = false) ∧
    br_blockers (analyze_bootability ev' (boot_target_from_str target)) = [] ∧
    (f64_of_Z 50 <=? ps_boot (cp_scores p))%f64 = true ∧
    cp_critical_blockers p = [] ∧
    (∀ t, vo_fail_below vopts = Some t →
       (ps_boot (cp_scores p) <? t)%f64 = false ∧ (ps_migration (cp_scores p) <? t)%f64 = false) ∧
    (∀ e, cp_expires_at p = Some e → ∃ t, parse_rfc3339 e = Some t ∧ (now_expiry ≤ t)%Z) ∧
    (∀ h, vo_max_age_hours vopts = Some h →
       ∃ t, parse_rfc3339 (cp_generated_at p) = Some t ∧ (age_seconds now_age t ≤ h * 3600)%Z).
Proof.
  intros (ev & ev' & a & Hc & Hc' & Ha & Hd)%emit_describes
    (_ & Hnb & _ & Hexp & Hage & Hscore & _)%verify_passport_Ok.
  exists ev, ev', a. destruct (describes_unblocked _ _ _ _ _ _ Hd Hnb) as (Hr & Hbl & Hnil).
  destruct Hd as (_ & Hsc & _ & Hcb & _).
  destruct (boot_score_facts ev' (boot_target_from_str target)) as (_ & _ & _ & H50 & _).
  rewrite Hcb, Hsc in *. cbn [ps_boot ps_migration]. split_and!; try done.
  - by apply H50.
  - unfold collect_blockers. rewrite Hnil, (assessment_unblocked _ _ _ _ _ _ _ Ha Hr). done.
  - intros t Ht. unfold check_score in Hscore. rewrite Ht, Hsc in Hscore. cbn in Hscore.
    apply f64_min_not_below; [apply boot_score_nonneg|by eapply migration_score_nonneg|].
    by destruct (f64_min _ _ <? t)%f64.
  - intros e He. unfold check_expiry in Hexp. rewrite He in Hexp.
    destruct (parse_rfc3339 e) as [t|]; [|done]. exists t. split; [done|].
    destruct (t <? now_expiry)%Z eqn:E; [done|lia].
  - intros h Hh. unfold check_age in Hage. rewrite Hh in Hage.
    destruct (parse_rfc3339 (cp_generated_at p)) as [t|]; [|done]. exists t. split; [done|].
    destruct (_ <? age_seconds now_age t)%Z eqn:E; [done|]. lia.
Qed.

(** ** Signatures *)

Lemma key_listed k keys : existsb (String.eqb k) keys = true ↔ k ∈ keys.
Proof.
  rewrite existsb_elem_of. split; [by intros (x & Hx & ->%String.eqb_eq)|].
  intros H. exists k. by rewrite String.eqb_refl.
Qed.
(** the key that is used is the embedded one, or the run stops. *)
Lemma chosen_key public_key e :
  (∀ k, public_key = Some k → to_ascii_lowercase k = e) →
  match public_key with Some s => to_ascii_lowercase s | None => e end = e.
Proof. intros Hk. destruct public_key as [k|]; [by apply Hk|done]. Qed.

(** what an accepted signature is. *)
Definition signature_good p (public_key : option string) (trust_keys : option (list string))
    (sig : PassportSignature) (pk sb payload : string) : Prop :=
  cp_signature p = Some sig ∧ sg_algorithm sig = "ed25519" ∧
  (∀ keys, trust_keys = Some keys → to_ascii_lowercase (sg_public_key_hex sig) ∈ keys) ∧
  (∀ k, public_key = Some k →
     to_ascii_lowercase k = to_ascii_lowercase (sg_public_key_hex sig)) ∧
  hex_decode (to_ascii_lowercase (sg_public_key_hex sig)) = Some pk ∧
  String.length pk = 32 ∧ ed_key_error pk = None ∧
  hex_decode (sg_signature_hex sig) = Some sb ∧ String.length sb = 64 ∧
  passport_to_vec (set_signature None p) = inr payload ∧
  ed_verify_error pk payload sb = None.

Lemma signature_good_accepted p public_key trust_keys sig pk sb payload :
  signature_good p public_key trust_keys sig pk sb payload →
  verify_signature true p public_key trust_keys = Ok ().
Proof.
  intros (Hs & Ha & Hkeys & Hk & Hd & Hl & Hke & Hsb & Hsl & Hv & Hve).
  unfold verify_signature, verify_ed25519, signing_payload. rewrite Hs, Ha, String.eqb_refl.
  cbn [negb]. set (k := to_ascii_lowercase (sg_public_key_hex sig)) in *.
  replace (match trust_keys with
           | Some keys => negb (existsb (String.eqb k) keys) | None => false end) with false.
  2: { destruct trust_keys as [keys|]; [|done]. by rewrite (proj2 (key_listed _ _) (Hkeys _ eq_refl)). }
  rewrite chosen_key by done.
  rewrite String.eqb_refl, andb_false_r, Hd, Hl, Nat.eqb_refl, Hke, Hsb, Hsl, Nat.eqb_refl, Hv.
  cbn. by rewrite Hve.
Qed.
Lemma signature_accepted_good p public_key trust_keys :
  verify_signature true p public_key trust_keys = Ok () →
  ∃ sig pk sb payload, signature_good p public_key trust_keys sig pk sb payload.
Proof.
  unfold verify_signature, verify_ed25519, signing_payload.
  destruct (cp_signature p) as [sig|] eqn:Hs; [|done].
  destruct (String.eqb_spec (sg_algorithm sig) "ed25519"); [cbn [negb]|done].
  set (k := to_ascii_lowercase (sg_public_key_hex sig)). intros H.
  destruct (match trust_keys with Some _ => _ | None => _ end) eqn:Ht.
  { by apply outcome_bind_Ok in H as (? & _ & ?). }
  assert (∀ k', public_key = Some k' → to_ascii_lowercase k' = k) as Hk.
  { intros k' ->. by destruct (String.eqb_spec (to_ascii_lowercase k') k). }
  rewrite chosen_key, String.eqb_refl, andb_false_r in H by done.
  destruct (hex_decode k) as [pk|] eqn:Hd; [|done].
  destruct (Nat.eqb_spec (String.length pk) 32); [cbn [negb] in H|done].
  destruct (ed_key_error pk) eqn:Hke; [done|].
  destruct (hex_decode (sg_signature_hex sig)) as [sb|] eqn:Hsb; [|done].
  destruct (Nat.eqb_spec (String.length sb) 64); [cbn [negb] in H|done].
  destruct (passport_to_vec _) as [|payload] eqn:Hv; [done|]. cbn in H.
  destruct (ed_verify_error pk payload sb) eqn:Hve; [done|].
  exists sig, pk, sb, payload. unfold signature_good. split_and!; try done. intros keys ->.
  apply negb_false_iff in Ht. by apply key_listed.
Qed.

(** in a build with signatures, a passport's signature is accepted exactly when
    it is an Ed25519 signature whose key is in the allow-list (if there is one) and is
    the requested key (if there is one), the key is 32 bytes that make a key, the
    signature is 64 bytes, and it verifies over the document without its signature. *)
Theorem signature_accepted_exact p public_key trust_keys :
  verify_signature true p public_key trust_keys = Ok () ↔
  ∃ sig pk sb payload, cp_signature p = Some sig ∧ sg_algorithm sig = "ed25519" ∧
    (∀ keys, trust_keys = Some keys → to_ascii_lowercase (sg_public_key_hex sig) ∈ keys) ∧
    (∀ k, public_key = Some k →
       to_ascii_lowercase k = to_ascii_lowercase (sg_public_key_hex sig)) ∧
    hex_decode (to_ascii_lowercase (sg_public_key_hex sig)) = Some pk ∧
    String.length pk = 32 ∧ ed_key_error pk = None ∧
    hex_decode (sg_signature_hex sig) = Some sb ∧ String.length sb = 64 ∧
    passport_to_vec (set_signature None p) = inr payload ∧
    ed_verify_error pk payload sb = None.
Proof.
  split; [apply signature_accepted_good|].
  intros (sig & pk & sb & payload & H). exact (signature_good_accepted _ _ _ _ _ _ _ H).
Qed.

(** ** From the key pair to the verified passport *)
Lemma files_of_reads {A} (m : run A) w w' (x : A) :
  reads m → m w = (w', Ok x) → w_files w' = w_files w.
Proof. intros Hm H. destruct (Hm w) as [Hf _ _]. by rewrite H in Hf. Qed.
Lemma reads_lift {A} (m : outcome string A) : reads (lift m).
Proof. intros w. by destruct m. Qed.
Lemma reads_throw {A} e : reads (throw e : run A).
Proof. done. Qed.
Lemma reads_context {A} msg (m : run A) : reads m → reads (with_context msg m).
Proof. intros Hm w. specialize (Hm w). unfold with_context. by destruct (m w) as [? []]. Qed.
Lemma reads_len q : reads (fs_len q).
Proof. intros w. unfold fs_len. by repeat case_match. Qed.
Lemma reads_dirs q : reads (fs_create_dirs q).
Proof. done. Qed.
Lemma reads_parent q : reads (create_parent q).
Proof. unfold create_parent. destruct (up_to_slash q); [apply reads_dirs|apply reads_ret]. Qed.
Hint Resolve reads_ret reads_bytes reads_mode reads_read reads_lift reads_throw reads_context
  reads_len reads_parent : frames.
Ltac reading := repeat first [solve [auto with frames] | apply reads_bind; [|intros ?]
  | case_match].

Lemma reads_emit agent oc em image target opts :
  reads (emit_passport agent oc em image target opts).
Proof.
  unfold emit_passport, image_fingerprint, hash_file_sha256, plan_digest, sign_passport,
    load_ed25519_seed, lift_sum. reading.
Qed.

Lemma fs_update_Ok q new w w' :
  fs_update q new w = (w', Ok ()) →
  ∃ f, new (w_files w) = Some f ∧ w_files w' = <[q := f]> (w_files w).
Proof.
  unfold fs_update. destruct (io (w_calls w)); [done|]. cbn.
  destruct (new (w_files w)) as [f|]; [|done]. intros [= <-]. by exists f.
Qed.
Lemma with_context_Ok {A} msg (m : run A) w w' (x : A) :
  with_context msg m w = (w', Ok x) ↔ m w = (w', Ok x).
Proof. unfold with_context. destruct (m w) as [? []]; naive_solver. Qed.

Lemma fs_write_Ok q content w w' u :
  fs_write q content w = (w', Ok u) →
  ∃ m, w_files w' = <[q := mk_file content m]> (w_files w).
Proof. destruct u. intros (f & [= <-] & ->)%fs_update_Ok. eauto. Qed.
Lemma fs_chmod_Ok q mode w w' u :
  fs_chmod q mode w = (w', Ok u) →
  ∃ f m, w_files w !! q = Some f ∧ w_files w' = <[q := mk_file (f_content f) m]> (w_files w).
Proof. destruct u. intros (f & (g & Hg & ->)%fmap_Some & ->)%fs_update_Ok. eauto. Qed.

Lemma keygen_files seed seed_path public_path w w' pub :
  seed_path ≠ public_path →
  generate_passport_signing_key true seed seed_path public_path w = (w', Ok pub) →
  pub = hex_of_bytes (ed_verifying_key seed) ∧
  (∃ m, w_files w' !! seed_path = Some (mk_file seed m)) ∧
  (∃ m, w_files w' !! public_path = Some (mk_file (pub +:+ newline_str) m)).
Proof.
  intros Hne H. unfold generate_passport_signing_key, set_private in H. run_inv.
  split; [done|].
  repeat match goal with H : with_context _ _ _ = _ |- _ => apply with_context_Ok in H end.
  apply fs_write_Ok in H2 as (m1 & E1). apply fs_write_Ok in H4 as (m2 & E2).
  apply fs_chmod_Ok in H3 as (f & m3 & Hf & E3).
  apply files_of_reads in H5; [|apply reads_mode].
  rewrite H5, E1, lookup_insert_eq in Hf. injection Hf as <-.
  rewrite E2, E3, H5, E1. split.
  - exists m3. by rewrite lookup_insert_ne, lookup_insert_eq.
  - exists m2. by rewrite lookup_insert_eq.
Qed.

Lemma load_trust_keys_hex path w m hex :
  w_files w !! path = Some (mk_file (hex +:+ newline_str) m) → io (w_calls w) = None →
  str_forall is_ascii_hexdigit hex = true → String.length hex = 64 →
  to_ascii_lowercase hex = hex →
  load_trust_keys path w = (count_call w, Ok [hex]).
Proof.
  intros Hf Hio Hd Hl Hlow. unfold load_trust_keys, mbind, run_bind, with_context, fs_read.
  rewrite Hio. cbn [w_files count_call]. rewrite Hf. cbn [f_content].
  assert (hex ≠ "") as Hne by (by intros ->).
  rewrite utf8_valid_ascii, (lines_hex hex Hd Hne).
  - unfold trust_lines, trust_line. rewrite (trim_hex hex Hd), (hex_not_comment hex Hd).
    destruct (is_empty hex) eqn:He; [by apply is_empty_spec in He|].
    rewrite (split_whitespace_hex hex Hd Hne). cbn [orb head default from_option id].
    by rewrite Hl, Hd, Hlow.
  - clear -Hd. induction hex as [|c t IH]; [done|]. apply str_forall_cons in Hd as [Hc Ht].
    apply str_forall_cons. split; [|by apply IH].
    unfold char_is_ascii. apply Z.ltb_lt. by apply hexdigit_ascii.
Qed.

(** the signature of a signed emission. *)
Lemma emit_signature oc em image target opts w w' p plan key_path :
  po_sign_key opts = Some key_path →
  emit_passport true oc em image target opts w = (w', Ok (p, plan)) →
  ∃ q sig w1, p = set_signature (Some sig) q ∧ w_files w1 = w_files w ∧
    set_signature None q = q ∧ sign_passport true q key_path w1 = (w', Ok sig).
Proof.
  intros Hk H. unfold emit_passport in H. rewrite Hk in H. run_inv. destruct x0 as [ev a]. run_inv.
  eexists _, _, _. split; [reflexivity|]. split; [|split; [reflexivity|eassumption]].
  repeat match goal with
  | H : plan_digest _ _ = _ |- _ => apply files_of_reads in H as ->;
      [|unfold plan_digest, lift_sum; reading]
  | H : image_fingerprint _ _ _ = _ |- _ => apply files_of_reads in H as ->;
      [|unfold image_fingerprint, hash_file_sha256; reading]
  end.
  done.
Qed.

Lemma sign_passport_Ok q key_path seed m w w' sig :
  w_files w !! key_path = Some (mk_file seed m) → String.length seed = 32 →
  sign_passport true q key_path w = (w', Ok sig) →
  ∃ payload, passport_to_vec (set_signature None q) = inr payload ∧
    sig = mk_PassportSignature "ed25519" (hex_of_bytes (ed_verifying_key seed))
            (hex_of_bytes (ed_sign seed payload)).
Proof.
  intros Hf Hl H. unfold sign_passport, load_ed25519_seed in H. run_inv.
  match goal with H : with_context _ _ _ = _ |- _ => apply with_context_Ok in H; rename H into Hr end.
  match goal with H : signing_payload _ = _ |- _ => rename H into Hp end.
  unfold fs_bytes in Hr. destruct (io (w_calls w)); [done|]. cbn in Hr. rewrite Hf in Hr.
  injection Hr as _ <-. cbn [f_content] in *. rewrite Hl in *. cbn in *. run_inv.
  unfold signing_payload in Hp.
  destruct (passport_to_vec _) as [|payload]; [done|]. injection Hp as <-. eauto.
Qed.

Lemma emitted_signature_good oc em image target opts w w' p plan key_path seed m `{!CryptoLaws} :
  po_sign_key opts = Some key_path →
  w_files w !! key_path = Some (mk_file seed m) → String.length seed = 32 →
  emit_passport true oc em image target opts w = (w', Ok (p, plan)) →
  let pub := hex_of_bytes (ed_verifying_key seed) in
  ∃ sig pk sb payload, signature_good p (Some pub) (Some [pub]) sig pk sb payload.
Proof.
  intros Hk Hf Hl (q & sig & w1 & -> & Hw & _ & Hs)%(emit_signature _ _ _ _ _ _ _ _ _ _ Hk) pub.
  rewrite <-Hw in Hf. apply (sign_passport_Ok _ _ seed m) in Hs as (payload & Hv & ->); [|done..].
  assert (to_ascii_lowercase pub = pub) as Hlow by apply hex_lowercase.
  eexists _, (ed_verifying_key seed), (ed_sign seed payload), payload.
  split; [reflexivity|]. cbn [sg_algorithm sg_public_key_hex sg_signature_hex].
  fold pub. rewrite Hlow. split_and!; try done.
  - intros keys [= <-]. by left.
  - by intros k [= <-].
  - apply hex_decode_of.
  - apply verifying_key_length.
  - apply verifying_key_valid.
  - apply hex_decode_of.
  - apply sign_length.
  - apply sign_verifies.
Qed.

(** C14: from the key pair to the accepted passport: after key generation, a passport
    signed with the seed file is accepted by a verifier that trusts the public-key
    file and asks for that key, whenever the passport is not blocked, not expired, not
    too old and not below the threshold, and the trust file can be read. *)
Theorem keygen_sign_verify `{!CryptoLaws} seed seed_path public_path w w1 pub oc em image
    target opts w2 p plan now_expiry now_age vopts :
  seed_path ≠ public_path → String.length seed = 32 →
  generate_passport_signing_key true seed seed_path public_path w = (w1, Ok pub) →
  po_sign_key opts = Some seed_path →
  emit_passport true oc em image target opts w1 = (w2, Ok (p, plan)) →
  cp_hard_blocked p = false → check_expiry now_expiry p = Ok () →
  check_age now_age p (vo_max_age_hours vopts) = Ok () →
  check_score p (vo_fail_below vopts) = Ok () →
  vo_trust_keys_file vopts = Some public_path → vo_public_key vopts = Some pub →
  io (w_calls w2) = None →
  verify_passport true now_expiry now_age p vopts w2 = (count_call w2, Ok ()).
Proof.
  intros Hne Hl Hgen Hk Hem Hb Hexp Hage Hsc Htrust Hpub Hio.
  apply keygen_files in Hgen as (-> & (m & Hseed) & (m' & Hpk)); [|done].
  pose proof (files_of_reads _ _ _ _ (reads_emit _ _ _ _ _ _) Hem) as Hw.
  pose proof (emit_describes _ _ _ _ _ _ _ _ _ _ Hem) as (ev & ev' & a & _ & _ & _ & Hv & _ & Hwin & _ & Hhb).
  destruct (emitted_signature_good _ _ _ _ _ _ _ _ _ _ _ _ Hk Hseed Hl Hem)
    as (sig & pk & sb & payload & Hgood).
  unfold verify_passport. rewrite Hv, Hb, Hwin, String.eqb_refl. cbn [negb].
  rewrite Hb in Hhb. symmetry in Hhb. apply orb_false_iff in Hhb as [[Hbl _]%orb_false_iff _].
  rewrite Hbl, Hexp, Hage, Hsc, Htrust, Hpub.
  rewrite (proj1 Hgood). unfold mbind, run_bind, lift.
  cbn beta. erewrite load_trust_keys_hex by first [rewrite Hw; done | done | apply hex_digits
    | rewrite hex_length, verifying_key_length; done | apply hex_lowercase].
  rewrite !orb_true_r. cbn [andb negb mret run_ret].
  by rewrite (signature_good_accepted _ _ _ _ _ _ _ Hgood).
Qed.

(** in a build without the agent feature (the default), requiring a signature has
    no effect on an unsigned passport: whatever the options, it is accepted or refused
    as if no signature were required. *)
Theorem unsigned_without_agent now_expiry now_age p vopts w :
  cp_signature p = None →
  verify_passport false now_expiry now_age p vopts w =
  verify_passport false now_expiry now_age p
    (mk_PassportVerifyOptions (vo_fail_below vopts) (negb (vo_require_signature vopts))
       (vo_public_key vopts) (vo_trust_keys_file vopts) (vo_max_age_hours vopts)) w.
Proof.
  intros Hs. unfold verify_passport, verify_signature. rewrite Hs.
  cbn [vo_fail_below vo_require_signature vo_public_key vo_trust_keys_file vo_max_age_hours].
  do 3 (case_match; [done|]). unfold mbind, run_bind, lift.
  destruct (check_expiry _ _); [|done..]. destruct (check_age _ _ _); [|done..].
  destruct (check_score _ _); [|done..]. destruct (vo_trust_keys_file vopts) as [path|].
  - destruct (load_trust_keys path w) as [w' [keys|e|]]; [|done..].
    by destruct (vo_require_signature vopts).
  - by destruct (vo_require_signature vopts).
Qed.
End props.

(** ** A concrete build *)

(** the hexadecimal text of a byte, both ways. *)
Definition hex_char (n : Z) : ascii :=
  ascii_of_byte (if (n <? 10)%Z then 48 + n else 87 + n)%Z.
Fixpoint toy_hex (s : string) : string :=
  match s with
  | EmptyString => EmptyString
  | String c s => String (hex_char (byte_of c / 16)) (String (hex_char (byte_of c mod 16)) (toy_hex s))
  end.
Definition hex_value (c : ascii) : Z :=
  let b := byte_of c in if (b <? 58)%Z then (b - 48)%Z else (b - 87)%Z.
Fixpoint toy_unhex (s : string) : option string :=
  match s with
  | EmptyString => Some EmptyString
  | String a (String b s) =>
      String (ascii_of_byte (16 * hex_value a + hex_value b)) <$> toy_unhex s
  | _ => None
  end.
Fixpoint repeat_char (c : ascii) (n : nat) : string :=
  match n with O => EmptyString | S n => String c (repeat_char c n) end.

(** a signature scheme that signs everything alike: enough to meet the laws. *)
Definition toy_crypto : Crypto := {|
  hex_of_bytes := toy_hex;
  hex_decode := toy_unhex;
  ed_verifying_key := fun _ => repeat_char "k" 32;
  ed_sign := fun _ _ => repeat_char "s" 64;
  ed_key_error := fun pk => if String.eqb pk (repeat_char "k" 32) then None else Some "bad point";
  ed_verify_error := fun _ _ sig =>
    if String.eqb sig (repeat_char "s" 64) then None else Some "signature error"
|}.
Lemma toy_laws : @CryptoLaws toy_crypto.
Proof.
  split; try done; cbn -[Z.div Z.modulo].
  - induction s as [|c s IH]; [done|]. cbn [toy_hex toy_unhex]. rewrite IH. cbn [fmap option_fmap option_map].
    by destruct c as [[] [] [] [] [] [] [] []].
  - induction s as [|c s IH]; [done|]. cbn [toy_hex str_map]. rewrite IH.
    by destruct c as [[] [] [] [] [] [] [] []].
  - induction s as [|c s IH]; [done|]. cbn [toy_hex str_forall]. rewrite IH.
    by destruct c as [[] [] [] [] [] [] [] []].
  - induction s as [|c s IH]; [done|]. cbn [toy_hex String.length]. rewrite IH. lia.
Qed.

Definition plain_chrono : Chrono := {|
  to_rfc3339 := fmt_Z;
  parse_rfc3339 := parse_unsigned (10 ^ 30);
  add_hours := fun t h => Some (t + h * 3600 * 10 ^ 9)%Z
|}.
(** documents as opaque texts. *)
Definition plain_serde : @Serde ascii_platform := {|
  json_from_str := fun _ => inl "no parser";
  json_get := fun _ _ => None;
  json_pointer := fun _ _ => None;
  json_as_f64 := fun _ => None;
  json_as_bool := fun _ => None;
  json_as_str := fun _ => None;
  json_as_array := fun _ => None;
  passport_to_vec := fun _ => inr "{}";
  passport_to_string_pretty := fun _ => inr "{}";
  passport_from_str := fun _ => inl "no parser";
  plan_to_vec := fun _ => inr "{}";
  plan_to_yaml := fun _ => inr "{}"
|}.
Definition no_network : Network := fun _ _ _ => inl ConnectFailed.

Notation plain_keygen := (@generate_passport_signing_key plain_system toy_crypto true).
Notation plain_emit := (@emit_passport ascii_platform plain_host plain_system plain_chrono
  plain_serde toy_crypto no_network true true).
Notation plain_verify := (@verify_passport ascii_platform plain_host plain_system plain_chrono
  plain_serde toy_crypto true).

Definition seed_text : string := repeat_char "e" 32.
Definition emit_opts : PassportEmitOptions :=
  mk_PassportEmitOptions false true None None (Some "/keys/seed") (Some "ci") (Some 24%Z).
Definition verify_opts : PassportVerifyOptions :=
  mk_PassportVerifyOptions (Some (f64_of_Z 50)) true (Some (toy_hex (repeat_char "k" 32)))
    (Some "/keys/public") (Some 48%Z).
Definition image_world : world :=
  mk_world {[ "/vm.img" := mk_file "disk" 420 ]} false 0.
Definition repaired_emission : @emission ascii_platform :=
  @mk_emission ascii_platform (Ok repaired_guest) 1 (Ok repaired_guest) 2 3.
Definition keyed_world : world :=
  (plain_keygen seed_text "/keys/seed" "/keys/public" image_world).1.
Definition passport_of (r : world * outcome exec_error (@CutoverPassport ascii_platform * @FixPlan ascii_platform))
    : option (@CutoverPassport ascii_platform * @FixPlan ascii_platform) :=
  match r.2 with Ok x => Some x | _ => None end.
Notation repaired_run := (plain_emit repaired_emission "/vm.img" "kvm" emit_opts keyed_world).
Lemma repaired_run_Ok : ∃ w p plan, repaired_run = (w, Ok (p, plan)) ∧
  io (System:=plain_system) (w_calls w) = None ∧ cp_hard_blocked p = false ∧
  check_expiry (Ch:=plain_chrono) 10 p = Ok () ∧
  check_age (Ch:=plain_chrono) 10 p (Some 48%Z) = Ok () ∧
  check_score (Host:=plain_host) p (Some (f64_of_Z 50)) = Ok ().
Proof.
  assert (∃ x, passport_of repaired_run = Some x ∧ cp_hard_blocked x.1 = false ∧
    check_expiry (Ch:=plain_chrono) 10 x.1 = Ok () ∧
    check_age (Ch:=plain_chrono) 10 x.1 (Some 48%Z) = Ok () ∧
    check_score (Host:=plain_host) x.1 (Some (f64_of_Z 50)) = Ok ()) as ([p plan] & H & Hrest).
  { eexists. split; [vm_compute; reflexivity|]. by vm_compute. }
  revert H. unfold passport_of. generalize repaired_run as r.
  intros [w [x| |]] H; [|discriminate H..]. cbn in H. injection H as ->. exists w, p, plan.
  split; [reflexivity|]. split; [reflexivity|exact Hrest].
Qed.
Lemma keyed_world_Ok : plain_keygen seed_text "/keys/seed" "/keys/public" image_world =
  (keyed_world, Ok (toy_hex (repeat_char "k" 32))).
Proof. by vm_compute. Qed.

Lemma keygen_sign_verify_witness : ∃ w p plan, repaired_run = (w, Ok (p, plan)) ∧
  plain_verify 10 10 p verify_opts w = (count_call w, Ok ()).
Proof.
  destruct repaired_run_Ok as (w & p & plan & Hrun & Hio & Hb & Hexp & Hage & Hsc).
  exists w, p, plan. split; [exact Hrun|].
  exact (@keygen_sign_verify ascii_platform plain_host plain_system plain_chrono plain_serde
    toy_crypto no_network toy_laws seed_text "/keys/seed" "/keys/public" image_world keyed_world
    _ true repaired_emission "/vm.img" "kvm" emit_opts w p plan 10 10 verify_opts
    ltac:(done) eq_refl keyed_world_Ok eq_refl Hrun Hb Hexp Hage Hsc eq_refl eq_refl Hio).
Defined.

(** the same passport, verified without the key files. *)
Definition simple_opts : PassportVerifyOptions :=
  mk_PassportVerifyOptions (Some (f64_of_Z 50)) true None None (Some 48%Z).
Lemma repaired_verified : ∀ w p plan, repaired_run = (w, Ok (p, plan)) →
  plain_verify 10 10 p simple_opts image_world = (image_world, Ok ()).
Proof.
  assert (∃ x, passport_of repaired_run = Some x ∧
    plain_verify 10 10 x.1 simple_opts image_world = (image_world, Ok ())) as (x & Hx & Hv).
  { eexists. split; [vm_compute; reflexivity|]. by vm_compute. }
  intros w p plan Hrun. rewrite Hrun in Hx. cbn in Hx. injection Hx as <-. exact Hv.
Qed.
Lemma verified_passport_sound_witness : ∃ w p plan, repaired_run = (w, Ok (p, plan)) ∧
  cp_critical_blockers p = [].
Proof.
  destruct repaired_run_Ok as (w & p & plan & Hrun & _). exists w, p, plan.
  split; [exact Hrun|]. pose proof (repaired_verified w p plan Hrun) as Hv.
  destruct (@verified_passport_sound ascii_platform plain_host plain_system plain_chrono
    plain_serde toy_crypto no_network true true true repaired_emission "/vm.img" "kvm" emit_opts
    keyed_world w p plan 10 10 simple_opts image_world image_world Hrun Hv)
    as (ev & ev' & a & _ & _ & _ & _ & _ & _ & _ & H & _).
  exact H.
Defined.

(** an unsigned passport and a verifier that requires a signature. *)
Definition unsigned_run := plain_emit repaired_emission "/vm.img" "kvm"
  (mk_PassportEmitOptions false false None None None None None) image_world.
Definition unsigned_passport : @CutoverPassport ascii_platform :=
  match passport_of unsigned_run with
  | Some x => x.1
  | None => mk_CutoverPassport ascii_platform "" "" "" "" "" (mk_ImageFingerprint "" 0 None) ""
      (mk_EvidenceDigest "" "" "" "" 0 0 false [] "") (mk_PassportScores (f64_of_Z 0) (f64_of_Z 0) Blocked)
      [] [] (mk_PlanDigest "" 0 "" []) None default_WindowsPassportFlags None default_SuiteHandoff
      true None None None
  end.
Lemma unsigned_without_agent_witness :
  @verify_passport ascii_platform plain_host plain_system plain_chrono plain_serde toy_crypto false
    10 10 unsigned_passport (mk_PassportVerifyOptions None true None None None) image_world =
  (image_world, Ok ()).
Proof.
  rewrite (@unsigned_without_agent ascii_platform plain_host plain_system plain_chrono plain_serde
    toy_crypto 10 10 unsigned_passport (mk_PassportVerifyOptions None true None None None)
    image_world ltac:(by vm_compute)).
  by vm_compute.
Defined.

(** a forged key with a two-byte character across byte 16 stops the verifier. *)
Definition forged_signature : PassportSignature :=
  mk_PassportSignature "ed25519" (repeat_char "0" 15 +:+ "é") "".
Example forged_key_panics :
  @verify_signature ascii_platform plain_serde toy_crypto true
    (set_signature (Some forged_signature) unsigned_passport) None (Some ["00"]) = Panic.
Proof. by vm_compute. Qed.
