(* ===== verification/Gate.v ===== *)
(** * The cutover gate and the hand-off

    [src/cli/gate.rs], [src/cli/validate/rego.rs], [src/cli/sbom_diff.rs],
    [src/assurance/handoff.rs], the writing of passports ([write_passport_outputs] of
    [src/assurance/passport.rs]) and the commands of
    [src/cli/commands/assurance.rs] that call them.

    Outside the repository: what [Passport] lists, the [opa] program, the temporary
    directory, the process number, and whether a directory is writable. *)
From stdpp Require Import base gmap strings list.
From Stdlib Require Import ZArith Lia Ascii SpecFloat.
From S2P Require Import Prelude RustStr F64 Evidence BootChecks BootEngine Migration Kahn FixPlan Repair LiveExec Passport.

(** ** Paths *)

(** without trailing separators and [.] components. *)
Fixpoint trim_tail_fuel (fuel : nat) (s : string) : string :=
  let t := trim_end_char "/"%char s in
  match fuel, rsplit_once "/"%char t with
  | S fuel, Some (a, b) => if String.eqb b "." then trim_tail_fuel fuel (a +:+ "/") else t
  | _, _ => t
  end.
Definition trim_tail (s : string) : string := trim_tail_fuel (String.length s) s.

(** [Path::file_name], with the text before it. *)
Definition split_file_name (s : string) : option (string * string) :=
  let t := trim_tail s in
  let '(dir, name) := match rsplit_once "/"%char t with
                      | Some (a, b) => (a +:+ "/", b)
                      | None => ("", t)
                      end in
  if is_empty name || String.eqb name "." || String.eqb name ".." then None
  else Some (dir, name).
Definition file_name (s : string) : option string := snd <$> split_file_name s.
(** a file name's stem and extension. *)
Definition split_extension (name : string) : string * option string :=
  match rsplit_once "."%char name with
  | Some (stem, ext) => if is_empty stem then (name, None) else (stem, Some ext)
  | None => (name, None)
  end.
Definition file_stem (s : string) : option string :=
  (fun name => (split_extension name).1) <$> file_name s.
Definition path_extension (s : string) : option string :=
  file_name s ≫= fun name => (split_extension name).2.
Definition with_extension (s ext : string) : string :=
  match split_file_name s with
  | None => s
  | Some (dir, name) =>
      dir +:+ (split_extension name).1 +:+ (if is_empty ext then "" else "." +:+ ext)
  end.
(** [Path::parent]. *)
Definition path_parent (s : string) : option string :=
  let t := trim_tail s in
  match rsplit_once "/"%char t with
  | Some (a, _) => Some (if is_empty (trim_tail a) then "/" else trim_tail a)
  | None => if is_empty t then None else Some ""
  end.

(** ** Numbers *)
Fixpoint digits_prefix (s : string) : string * string :=
  match s with
  | EmptyString => (EmptyString, EmptyString)
  | String c s' =>
      if (48 <=? byte_of c)%Z && (byte_of c <=? 57)%Z
      then let '(d, r) := digits_prefix s' in (String c d, r)
      else (EmptyString, s)
  end.
Definition digits_value (s : string) : Z :=
  foldl (fun acc c => acc * 10 + (byte_of c - 48))%Z 0%Z (String.list_ascii_of_string s).
(** the number nearest to [m * 10 ^ e]. *)
Definition f64_decimal (negative : bool) (m : Z) (e : Z) : f64 :=
  let v :=
    match m with
    | Zpos p =>
        if (0 <=? e)%Z then binary_normalize 53 1024 (m * 10 ^ e) 0 false
        else let '(q, e', l) := SFdiv_core_binary 53 1024 (Zpos p) 0 (10 ^ (- e)) 0 in
             binary_round_aux 53 1024 false q e' l
    | _ => S754_zero false
    end in
  if negative then SFopp v else v.
(** the exponent part; [None] when it is malformed. *)
Definition parse_exponent (s : string) : option Z :=
  match s with
  | EmptyString => Some 0%Z
  | String c rest =>
      if Ascii.eqb (char_lower c) "e"%char then
        let '(neg, rest) := match rest with
                            | String "-"%char r => (true, r)
                            | String "+"%char r => (false, r)
                            | r => (false, r)
                            end in
        let '(d, r) := digits_prefix rest in
        if is_empty d || negb (is_empty r) then None
        else Some (if neg then - digits_value d else digits_value d)%Z
      else None
  end.
(** [str::parse::<f64>]. *)
Definition parse_f64 (s : string) : option f64 :=
  let '(neg, body) := match s with
                      | String "-"%char r => (true, r)
                      | String "+"%char r => (false, r)
                      | r => (false, r)
                      end in
  let low := str_map char_lower body in
  if String.eqb low "nan" then Some S754_nan
  else if String.eqb low "inf" || String.eqb low "infinity" then Some (S754_infinity neg)
  else
    let '(whole, rest) := digits_prefix body in
    let '(frac, rest) := match rest with
                         | String "."%char r => digits_prefix r
                         | r => (EmptyString, r)
                         end in
    if is_empty whole && is_empty frac then None
    else (fun e => f64_decimal neg (digits_value (whole +:+ frac))
                     (e - Z.of_nat (String.length frac))) <$> parse_exponent rest.
Definition f64_epsilon : f64 := f64_lit 1 (2 ^ 52).

Example parse_f64_tests :
  parse_f64 "80" = Some (f64_of_Z 80) ∧ parse_f64 "-0.5" = Some (SFopp (f64_lit 1 2)) ∧
  parse_f64 "1e2" = Some (f64_of_Z 100) ∧ parse_f64 "0.1" = Some (f64_lit 1 10) ∧
  parse_f64 "." = None ∧ parse_f64 "true" = None ∧ parse_f64 "1.5.2" = None ∧
  parse_f64 "5." = Some (f64_of_Z 5) ∧ parse_f64 "+.25E1" = Some (f64_lit 5 2) ∧
  parse_f64 "" = None ∧ parse_f64 "-inf" = Some (S754_infinity true).
Proof. by vm_compute. Qed.
Example path_tests :
  with_extension "/d/vm.qcow2" "gate-passport.json" = "/d/vm.gate-passport.json" ∧
  with_extension "a/b.c/" "x" = "a/b.x" ∧ with_extension "/" "x" = "/" ∧
  file_stem "/d/.hidden" = Some ".hidden" ∧ path_parent "/a" = Some "/" ∧
  path_parent "a" = Some "" ∧ path_parent "/" = None ∧ path_parent "a/./b" = Some "a" ∧
  file_name "a/.." = None ∧ path_extension "p.tar.gz" = Some "gz".
Proof. by vm_compute. Qed.

(** ** Bills of materials *)
Record Pkg : Type := mk_Pkg { pkg_name : string; pkg_version : string }.
Record PkgUpdate : Type := mk_PkgUpdate { pu_name : string; pu_from : string; pu_to : string }.
Record SbomDiffReport : Type := mk_SbomDiffReport {
  sd_before_count : nat;
  sd_after_count : nat;
  sd_added : list Pkg;
  sd_removed : list Pkg;
  sd_updated : list PkgUpdate;
  sd_unchanged : nat
}.
Definition dirty (d : SbomDiffReport) : bool :=
  not_empty (sd_added d) || not_empty (sd_removed d) || not_empty (sd_updated d).

(** the entries of a [BTreeMap], in the order of its keys. *)
Definition btree_iter {A} (m : gmap string A) : list (string * A) :=
  omap (fun k => (fun v => (k, v)) <$> m !! k) (str_sort (map fst (map_to_list m))).
Definition added_pkg (before : gmap string string) (e : string * string) : option Pkg :=
  match before !! e.1 with None => Some (mk_Pkg e.1 e.2) | Some _ => None end.
Definition updated_pkg (before : gmap string string) (e : string * string) : option PkgUpdate :=
  match before !! e.1 with
  | Some old => if String.eqb old e.2 then None else Some (mk_PkgUpdate e.1 old e.2)
  | None => None
  end.
Definition is_unchanged (before : gmap string string) (e : string * string) : bool :=
  match before !! e.1 with Some old => String.eqb old e.2 | None => false end.
Definition diff_maps (before after : gmap string string) : SbomDiffReport :=
  mk_SbomDiffReport (size before) (size after)
    (omap (added_pkg before) (btree_iter after))
    (omap (added_pkg after) (btree_iter before))
    (omap (updated_pkg before) (btree_iter after))
    (length (List.filter (is_unchanged before) (btree_iter after))).

(** [str::trim_matches] for one character. *)
Fixpoint trim_start_char (c : ascii) (s : string) : string :=
  match s with
  | String d s' => if Ascii.eqb d c then trim_start_char c s' else s
  | EmptyString => EmptyString
  end.
Definition trim_matches_char (c : ascii) (s : string) : string :=
  trim_end_char c (trim_start_char c s).
Definition dquote_char : ascii := ascii_of_byte 34.
Definition squote_char : ascii := ascii_of_byte 39.
Definition unquote (s : string) : string :=
  trim_matches_char squote_char (trim_matches_char dquote_char s).

(** ** Deny rules *)
Record DenyRule : Type := mk_DenyRule {
  dr_path : string;
  dr_op : string;
  dr_expected : string;
  dr_msg : string
}.
Record RegoReport : Type := mk_RegoReport {
  rr_package : string;
  rr_denies : list string;
  rr_engine : string;
  rr_allowed : bool
}.

Definition rule_ops : list string := [">="; "<="; "!="; "=="; ">"; "<"].
(** the first operator of the list that occurs in the text. *)
Fixpoint find_op (ops : list string) (t : string) : option (string * string * string) :=
  match ops with
  | [] => None
  | op :: ops =>
      match split_once_str op t with
      | Some (a, b) => Some (a, op, b)
      | None => find_op ops t
      end
  end.
(** [path], [op] and [expected] are set together. *)
Definition block_line (s : option (string * string * string) * string) (line : string)
    : option (string * string * string) * string :=
  let '(cond, msg) := s in
  let t := trim line in
  match strip_prefix "msg :=" t with
  | Some rest => (cond, unquote (trim rest))
  | None =>
      if negb (starts_with "input." t) then (cond, msg)
      else match find_op rule_ops t with
           | Some (a, op, b) =>
               (Some (trim_start_matches "input." (trim a), op,
                      unquote (trim_end_char ","%char (trim b))), msg)
           | None => (cond, msg)
           end
  end.
Definition parse_block (block : string) : option DenyRule :=
  let '(cond, msg) := foldl block_line (None, "denied") (lines block) in
  (fun '(path, op, expected) => mk_DenyRule path op expected msg) <$> cond.

(** the variables of the loop: [rules], [buf] and [in_deny]. *)
Definition deny_line (s : list DenyRule * string * bool) (line : string)
    : list DenyRule * string * bool :=
  let '(rules, buf, in_deny) := s in
  let t := trim line in
  if starts_with "deny[" t && contains_char "{"%char t then (rules, "", true)
  else if in_deny && String.eqb t "}" then
    (match parse_block buf with Some r => rules ++ [r] | None => rules end, "", false)
  else if in_deny then (rules, buf +:+ t +:+ newline_str, in_deny)
  else s.
Definition parse_deny_rules (src : string) : list DenyRule :=
  (foldl deny_line ([], "", false) (lines src)).1.1.

Definition compare_rule (actual : option string) (op expected : string) : bool :=
  match actual with
  | None => String.eqb op "!="
  | Some actual =>
      match parse_f64 actual, parse_f64 expected with
      | Some a, Some b =>
          let d := SFabs (a - b)%f64 in
          if String.eqb op "==" then (d <? f64_epsilon)%f64
          else if String.eqb op "!=" then (f64_epsilon <=? d)%f64
          else if String.eqb op ">" then (b <? a)%f64
          else if String.eqb op ">=" then (b <=? a)%f64
          else if String.eqb op "<" then (a <? b)%f64
          else if String.eqb op "<=" then (a <=? b)%f64
          else false
      | _, _ =>
          if String.eqb op "==" then String.eqb actual expected
          else if String.eqb op "!=" then negb (String.eqb actual expected)
          else false
      end
  end.

(** what the gate takes from its host. *)
Class GateHost `{Platform} := {
  (** the JSON answer of [opa eval], when the program can be run *)
  opa_eval : string → json_value → option json_value;
  (** can a file be created in the directory? *)
  writable_dir : string → bool;
  temp_dir : string;
  process_id : Z
}.

Section gate.
Context `{P : Platform} `{Host : !RepairHost} `{J : !JsonText} `{Sys : System}.
Context `{Ch : Chrono} `{Sd : !Serde} `{Cr : Crypto} `{Net : Network} `{GH : !GateHost}.
Context (agent : bool).
Implicit Types (v : json_value) (p : CutoverPassport).

(** [collect_arr] and [parse_packages_json]. *)
Definition collect_pkg (out : gmap string string) (q : json_value) : gmap string string :=
  let name := trim (default "" (json_get q "name" ≫= json_as_str)) in
  if is_empty name then out
  else
    let ver := default "" (or_else (json_get q "versionInfo") (json_get q "version") ≫= json_as_str) in
    <[name := ver]> out.
Definition collect_arr (arr : list json_value) : gmap string string := foldl collect_pkg ∅ arr.
Definition parse_packages_json (raw : string) : option (gmap string string) :=
  match json_from_str raw with
  | inl _ => None
  | inr v =>
      match json_get v "packages" ≫= json_as_array with
      | Some arr => Some (collect_arr arr)
      | None =>
          match json_get v "components" ≫= json_as_array with
          | Some arr => Some (collect_arr arr)
          | None => collect_arr <$> json_as_array v
          end
      end
  end.
(** the text of the I/O error is left out of the message. *)
Definition load_packages (path : string) : run (gmap string string) :=
  raw ← with_context ("read " +:+ path) (fs_read path);
  match parse_packages_json raw with
  | Some m => mret m
  | None => throw (ErrText (path +:+ " is not SPDX, CycloneDX, or inventory JSON"))
  end.
Definition diff_files (old new : string) : run SbomDiffReport :=
  before ← load_packages old;
  after ← load_packages new;
  mret (diff_maps before after).

(** [lookup]: a string as it is, any other value as its JSON text. *)
Definition lookup_path v (path : string) : option string :=
  (fun cur => match json_as_str cur with Some s => s | None => fmt_json cur end)
  <$> foldl (fun cur part => cur ≫= fun c => json_get c part) (Some v) (split_char "."%char path).
Definition matches_rule (rule : DenyRule) v : bool :=
  compare_rule (lookup_path v (dr_path rule)) (dr_op rule) (dr_expected rule).
(** [try_opa]: the strings of the answer. *)
Definition try_opa (src : string) v : option (list string) :=
  (fun out =>
     match json_pointer out "/result/0/expressions/0/value" ≫= json_as_array with
     | Some arr => omap json_as_str arr
     | None => []
     end) <$> opa_eval src v.
Definition merge_denies (denies extra : list string) : list string :=
  foldl (fun acc m => if existsb (String.eqb m) acc then acc else acc ++ [m]) denies extra.
Definition eval_source (src : string) v : RegoReport :=
  let package :=
    default "guestkit"
      (head (omap (fun l => trim <$> strip_prefix "package " (trim l)) (lines src))) in
  let denies := map dr_msg (List.filter (fun r => matches_rule r v) (parse_deny_rules src)) in
  let '(denies, engine) :=
    match try_opa src v with
    | Some extra => (merge_denies denies extra, "opa+subset")
    | None => (denies, "guestkit-subset")
    end in
  mk_RegoReport package denies engine (negb (not_empty denies)).
Definition eval_file (rego : string) v : run RegoReport :=
  src ← with_context ("read " +:+ rego) (fs_read rego);
  mret (eval_source src v).

(** ** Writing a passport *)
Definition companion_plan_path (passport_path : string) : string :=
  let stem := default "passport" (file_stem passport_path) in
  path_join (default "." (path_parent passport_path)) (stem +:+ ".fix-plan.yaml").
(** [file_name().unwrap()]. *)
Definition file_name_unwrap (s : string) : run string :=
  match file_name s with Some n => mret n | None => fun w => (w, Panic) end.
Definition write_tar_gz_bundle (bundle_path passport plan : string) : run () :=
  let dir :=
    if bool_decide (path_extension bundle_path = Some "gz")
    then with_extension (with_extension bundle_path "") "passport" else bundle_path in
  fs_create_dirs dir ;;
  passport_name ← file_name_unwrap passport;
  plan_name ← file_name_unwrap plan;
  fs_copy passport (path_join dir passport_name) ;;
  fs_copy plan (path_join dir plan_name).
Definition write_passport_outputs p (plan : FixPlan) (output : string) (bundle : bool) : run () :=
  match path_parent output with
  | Some parent => if is_empty parent then mret () else fs_create_dirs parent
  | None => mret ()
  end ;;
  json ← lift_sum (passport_to_string_pretty p);
  with_context ("write passport " +:+ output) (fs_write output json) ;;
  let plan_path := companion_plan_path output in
  plan_yaml ← lift_sum (plan_to_yaml plan);
  with_context ("write fix plan " +:+ plan_path) (fs_write plan_path plan_yaml) ;;
  if bundle then write_tar_gz_bundle (with_extension output "passport") output plan_path
  else mret ().

Definition passport_emit_command (oc : bool) (em : emission) (image target output : string)
    (bundle content_hash : bool) (virtio_win live_url sign_key issuer : option string)
    (expires_hours : option Z) (verbose : bool) : run () :=
  let opts := mk_PassportEmitOptions verbose content_hash virtio_win live_url sign_key issuer
                expires_hours in
  '(passport, plan) ← emit_passport agent oc em image target opts;
  write_passport_outputs passport plan output bundle.

(** ** The gate *)
Record GateReport : Type := mk_GateReport {
  gr_allowed : bool;
  gr_fail_below : f64;
  gr_boot : option f64;
  gr_migration : option f64;
  gr_hard_blocked : bool;
  gr_bitlocker_blocker : bool;
  gr_sbom_dirty : bool;
  gr_denies : list string;
  gr_passport : option string
}.
Record GateArgs : Type := mk_GateArgs {
  ga_passport : option string;
  ga_image : option string;
  ga_target : string;
  ga_fail_below : f64;
  ga_sbom_old : option string;
  ga_sbom_new : option string;
  ga_rego : option string;
  ga_fail : bool
}.

Definition writable_gate_passport_path (image : string) : string :=
  let sibling := with_extension image "gate-passport.json" in
  let beside := match path_parent sibling with
                | Some parent => writable_dir parent
                | None => false
                end in
  if beside then sibling
  else
    let stem := default "disk" (file_stem image) in
    path_join temp_dir ("guestkit-gate-" +:+ stem +:+ "-" +:+ fmt_Z process_id +:+ ".passport.json").

(** what the gate reads of a passport. *)
Definition bool_at (x : option json_value) : bool := default false (x ≫= json_as_bool).
Definition below (score : option f64) (floor : f64) : bool :=
  match score with Some s => (s <? floor)%f64 | None => false end.
Definition below_deny (what : string) (score : option f64) (floor : f64) : list string :=
  match score with
  | Some s =>
      if (s <? floor)%f64 then [what +:+ " " +:+ fmt_f64_0 s +:+ " < " +:+ fmt_f64 floor] else []
  | None => []
  end.
Definition passport_denies v (floor : f64) : list string :=
  (if bool_at (json_get v "hard_blocked") then ["passport hard_blocked"] else [])
  ++ (if bool_at (json_pointer v "/windows/bitlocker_blocker") then ["BitLocker blocker"] else [])
  ++ below_deny "boot" (f64_at v "/scores/boot") floor
  ++ below_deny "migration" (f64_at v "/scores/migration") floor.

Definition gate_sbom (args : GateArgs) : run (bool * list string) :=
  match ga_sbom_old args, ga_sbom_new args with
  | Some a, Some b =>
      d ← diff_files a b;
      mret (dirty d,
        if dirty d then
          ["SBOM drift +" +:+ fmt_nat (length (sd_added d)) +:+ " -"
           +:+ fmt_nat (length (sd_removed d)) +:+ " ~" +:+ fmt_nat (length (sd_updated d))]
        else [])
  | _, _ => mret (false, [])
  end.

Definition gate_run (oc : bool) (em : emission) (args : GateArgs) : run GateReport :=
  passport_path ←
    match ga_passport args, ga_image args with
    | None, Some image =>
        let tmp := writable_gate_passport_path image in
        passport_emit_command oc em image (ga_target args) tmp false false None None None
          (Some "guestkit-gate") None false ;;
        mret (Some tmp)
    | passport, _ => mret passport
    end;
  '(boot, migration, hard_blocked, bitlocker_blocker, denies) ←
    match passport_path with
    | Some pp =>
        raw ← with_context ("read " +:+ pp) (fs_read pp);
        v ← match json_from_str raw with
            | inl _ => throw (ErrText "parse passport")
            | inr v => mret v
            end;
        rego_denies ← match ga_rego args with
                      | Some rego => report ← eval_file rego v; mret (rr_denies report)
                      | None => mret []
                      end;
        mret (f64_at v "/scores/boot", f64_at v "/scores/migration",
              bool_at (json_get v "hard_blocked"),
              bool_at (json_pointer v "/windows/bitlocker_blocker"),
              passport_denies v (ga_fail_below args) ++ rego_denies)
    | None => mret (None, None, false, false, ["no passport or image"])
    end;
  '(sbom_dirty, sbom_denies) ← gate_sbom args;
  let denies := denies ++ sbom_denies in
  mret (mk_GateReport (negb (not_empty denies)) (ga_fail_below args) boot migration hard_blocked
          bitlocker_blocker sbom_dirty denies passport_path).

(** ** The hand-off *)
Definition HANDOFF_API_VERSION : string := "guestkit.zyvor.dev/v1".
Record H2kvmHandoff : Type := mk_H2kvmHandoff {
  hh_api_version : string;
  hh_kind : string;
  hh_passport : string;
  hh_image : string;
  hh_target : string;
  hh_boot : f64;
  hh_migration : f64;
  hh_hard_blocked : bool;
  hh_allowed : bool;
  hh_blockers : list string;
  hh_h2kvmctl : string
}.
Definition build_handoff (passport_path : string) p (allowed : bool)
    (extra_blockers : list string) : H2kvmHandoff :=
  mk_H2kvmHandoff HANDOFF_API_VERSION "H2kvmHandoff" passport_path (if_path (cp_image p))
    (cp_target p) (ps_boot (cp_scores p)) (ps_migration (cp_scores p)) (cp_hard_blocked p) allowed
    (map (fun f => pf_id f +:+ ": " +:+ pf_title f) (cp_critical_blockers p) ++ extra_blockers)
    ("h2kvmctl local --to-output out.qcow2 --backend guestkit --passport " +:+ passport_path).

(** [e.to_string()]; the text of an I/O error is the system's. *)
Definition fmt_exec_error (e : exec_error) : string :=
  match e with ErrText m => m | ErrIo n => "i/o error in call " +:+ fmt_nat n end.
(** a [match] on a [Result]. *)
Definition caught {A} (m : run A) : run (exec_error + A) := fun w =>
  match m w with
  | (w, Ok x) => (w, Ok (inr x))
  | (w, Err e) => (w, Ok (inl e))
  | (w, Panic) => (w, Panic)
  end.
Definition load_and_gate (now_expiry now_age : Z) (passport_path : string)
    (opts : PassportVerifyOptions) : run (CutoverPassport * bool * list string) :=
  raw ← with_context ("read passport " +:+ passport_path) (fs_read passport_path);
  passport ← match passport_from_str raw with
             | inl _ => throw (ErrText "parse Cutover Passport JSON")
             | inr p => mret p
             end;
  res ← caught (verify_passport agent now_expiry now_age passport opts);
  mret (match res with
        | inr _ => (passport, true, [])
        | inl e => (passport, false, [fmt_exec_error e])
        end).

(** [passport_verify_command] and the decision of [passport_handoff_command], whose
    document is returned instead of written. *)
Definition passport_verify_command (now_expiry now_age : Z) (passport_path : string)
    (opts : PassportVerifyOptions) : run () :=
  raw ← with_context ("read passport " +:+ passport_path) (fs_read passport_path);
  passport ← match passport_from_str raw with
             | inl _ => throw (ErrText "parse Cutover Passport JSON")
             | inr p => mret p
             end;
  verify_passport agent now_expiry now_age passport opts.
Definition handoff_document (now_expiry now_age : Z) (passport_path : string)
    (opts : PassportVerifyOptions) : run H2kvmHandoff :=
  '(passport, allowed, extra) ← load_and_gate now_expiry now_age passport_path opts;
  mret (build_handoff passport_path passport allowed extra).
End gate.
