(* ===== verification/GateProps.v ===== *)
(** * What the cutover gate decides

    Theorems on [Gate]: the comparison of two bills of materials is exact; an image
    that the gate lets through was examined and found without blockers; and the
    hand-off document allows a passport precisely when the verifier accepts it. *)
From stdpp Require Import base gmap strings list.
From Stdlib Require Import ZArith Lia Ascii SpecFloat.
From S2P Require Import Prelude RustStr F64 Partition Filesystem Evidence BootChecks BootEngine BootScore Migration Assessment Kahn FixPlan Repair RepairProps LiveExec LiveProps Passport PassportProps Gate.

(** ** Bills of materials *)
Lemma elem_of_btree_iter {A} (m : gmap string A) k (v : A) :
  (k, v) ∈ btree_iter m ↔ m !! k = Some v.
Proof.
  unfold btree_iter. rewrite list_elem_of_omap. split.
  - intros (k' & _ & (v' & Hv & [= <- <-])%fmap_Some). done.
  - intros Hm. exists k. split; [|by rewrite Hm].
    rewrite str_sort_Permutation. apply list_elem_of_In, in_map_iff. exists (k, v).
    split; [done|]. apply list_elem_of_In. by apply elem_of_map_to_list.
Qed.
Lemma length_btree_iter {A} (m : gmap string A) : length (btree_iter m) = size m.
Proof.
  unfold btree_iter. rewrite str_sort_Permutation.
  rewrite <-(length_map_to_list m).
  assert (∀ l : list (string * A), (∀ e, e ∈ l → m !! e.1 = Some e.2) →
    length (omap (fun k => (fun v => (k, v)) <$> m !! k) (map fst l)) = length l) as H.
  { induction l as [|[k v] l IH]; intros Hl; [done|]. cbn.
    rewrite (Hl (k, v) ltac:(by left) : m !! k = Some v). cbn. f_equal. apply IH. intros e He. apply Hl. by right. }
  apply H. intros [k v] He. by apply elem_of_map_to_list.
Qed.

(** every entry of the new list is counted once. *)
Lemma diff_partition before l :
  length (List.filter (is_unchanged before) l) + length (omap (added_pkg before) l)
  + length (omap (updated_pkg before) l) = length l.
Proof.
  induction l as [|[k v] l IH]; [done|]. cbn. unfold is_unchanged at 1.
  unfold added_pkg at 1, updated_pkg at 1. cbn.
  destruct (before !! k) as [old|]; cbn; [destruct (String.eqb old v)|]; cbn; lia.
Qed.

Lemma elem_of_added m m' n v :
  mk_Pkg n v ∈ omap (added_pkg m) (btree_iter m') ↔ m !! n = None ∧ m' !! n = Some v.
Proof.
  rewrite list_elem_of_omap. unfold added_pkg. split.
  - intros ([k x] & Hk%elem_of_btree_iter & He). cbn in He.
    by destruct (m !! k) eqn:E; [|injection He as -> ->].
  - intros [H1 H2]. exists (n, v). split; [by apply elem_of_btree_iter|]. cbn. by rewrite H1.
Qed.
Lemma elem_of_updated m m' n v v' :
  mk_PkgUpdate n v v' ∈ omap (updated_pkg m) (btree_iter m') ↔
  m !! n = Some v ∧ m' !! n = Some v' ∧ v ≠ v'.
Proof.
  rewrite list_elem_of_omap. unfold updated_pkg. split.
  - intros ([k x] & Hk%elem_of_btree_iter & He). cbn in He.
    destruct (m !! k) as [s|] eqn:E; [|done]. destruct (String.eqb_spec s x); [done|].
    injection He as -> -> ->. done.
  - intros (H1 & H2 & Hn). exists (n, v'). split; [by apply elem_of_btree_iter|]. cbn.
    rewrite H1. by destruct (String.eqb_spec v v').
Qed.
Lemma not_empty_none {A} (l : list A) : not_empty l = false ↔ ∀ x, x ∉ l.
Proof.
  destruct l as [|y l]; cbn; split; try done; [by intros _ x ?%not_elem_of_nil|].
  intros H. destruct (H y). by left.
Qed.
Lemma dirty_exact before after : dirty (diff_maps before after) = false ↔ before = after.
Proof.
  unfold dirty. rewrite !orb_false_iff, !not_empty_none. cbn. split.
  - intros [[Ha Hr] Hu]. apply map_eq. intros n.
    destruct (before !! n) as [v|] eqn:Eb, (after !! n) as [v'|] eqn:Ea; [|exfalso..|done].
    + f_equal. destruct (decide (v = v')); [done|]. destruct (Hu (mk_PkgUpdate n v v')).
      by apply elem_of_updated.
    + destruct (Hr (mk_Pkg n v)). by rewrite elem_of_added.
    + destruct (Ha (mk_Pkg n v')). by rewrite elem_of_added.
  - intros ->. split; [split|].
    + intros [n v] [H1 H2]%elem_of_added. congruence.
    + intros [n v] [H1 H2]%elem_of_added. congruence.
    + intros [n v v'] (H1 & H2 & Hn)%elem_of_updated. congruence.
Qed.

(** the comparison of two bills of materials is exact: the packages listed as
    added, removed and updated are those whose name is only in the new list, only in
    the old one, or has another version, each entry of the new list is counted once,
    and the report is clean exactly when the lists are equal. *)
Theorem sbom_diff_exact before after :
  let d := diff_maps before after in
  (∀ n v, mk_Pkg n v ∈ sd_added d ↔ before !! n = None ∧ after !! n = Some v) ∧
  (∀ n v, mk_Pkg n v ∈ sd_removed d ↔ before !! n = Some v ∧ after !! n = None) ∧
  (∀ n v v', mk_PkgUpdate n v v' ∈ sd_updated d ↔
     before !! n = Some v ∧ after !! n = Some v' ∧ v ≠ v') ∧
  sd_unchanged d + length (sd_added d) + length (sd_updated d) = sd_after_count d ∧
  (dirty d = false ↔ before = after).
Proof.
  intros d. split; [intros n v; apply elem_of_added|].
  split; [intros n v; unfold d; cbn; rewrite elem_of_added; tauto|].
  split; [intros n v v'; apply elem_of_updated|].
  split; [unfold d; cbn; by rewrite diff_partition, length_btree_iter|apply dirty_exact].
Qed.


Section gate_props.
Context `{P : Platform} `{Host : !RepairHost} `{J : !JsonText} `{Sys : System}.
Context `{Ch : Chrono} `{Sd : !Serde} `{Cr : Crypto} `{Net : Network} `{GH : !GateHost}.
Implicit Types (v : json_value) (p : CutoverPassport) (agent oc : bool) (em : emission).



(** ** The decision *)





(** the hand-off document allows a passport exactly when the verify command
    accepts the same file with the same options; a hard-blocked passport is never
    allowed, and a refused one always names a reason. *)
Theorem handoff_agrees_with_verify agent now_expiry now_age path opts w w' d :
  handoff_document agent now_expiry now_age path opts w = (w', Ok d) →
  (hh_allowed d = true ↔
     ∃ w1, passport_verify_command agent now_expiry now_age path opts w = (w1, Ok ())) ∧
  (hh_hard_blocked d = true → hh_allowed d = false) ∧
  (hh_allowed d = false → hh_blockers d ≠ []).
Proof.
  unfold handoff_document, load_and_gate, passport_verify_command. intros H. run_inv.
  match goal with H : with_context _ _ w = _ |- _ => rename H into Hread end.
  match goal with H : match passport_from_str ?raw with _ => _ end ?w1 = _ |- _ =>
    rename H into Hparse; destruct (passport_from_str raw) as [|p] eqn:Hraw end; [done|].
  run_inv. unfold mbind, run_bind. rewrite Hread, Hraw. cbn [mret run_ret].
  match goal with H : caught ?m ?w1 = _ |- _ => unfold caught in H;
    destruct (m w1) as [w2 [[]|e|]] eqn:Hv; [..|done]; injection H as <- <- end;
    cbn in H; injection H as <- <-; cbn.
  - split; [naive_solver|]. split; [|done]. intros Hb.
    apply verify_passport_Ok in Hv as (_ & Hnb & _). congruence.
  - split; [naive_solver|]. split; [done|]. intros _. by destruct (map _ _).
Qed.
End gate_props.

(** ** A concrete gate *)

(** documents with three fields. *)
Inductive toy_json : Type := JDoc | JBool (b : bool) | JNum (x : f64) | JEmpty.
Definition doc_platform : Platform := {|
  lower_non_ascii := fun s => s;
  upper_non_ascii := fun s => s;
  debug_non_ascii := fun s => s;
  json_value := toy_json
|}.
Definition doc_host : @RepairHost doc_platform := {|
  is_dir := fun _ => false;
  virtio_win_env := None;
  fmt_f64 := fmt_f64_0;
  json_number := (fun z => JNum (f64_of_Z z)) : Z → @json_value doc_platform
|}.
Definition perfect `{Platform} (p : CutoverPassport) : bool :=
  negb (cp_hard_blocked p) && f64_eqb (ps_boot (cp_scores p)) (f64_of_Z 100)
  && f64_eqb (ps_migration (cp_scores p)) (f64_of_Z 100).
(** only perfect passports can be printed; an empty object can be parsed. *)
Definition doc_serde : @Serde doc_platform := {|
  json_from_str := (fun s => if String.eqb s "{doc}" then inr JDoc else inr JEmpty)
    : string → string + @json_value doc_platform;
  json_get := (fun v k => match v with
    | JDoc => if String.eqb k "hard_blocked" then Some (JBool false) else None
    | _ => None end) : @json_value doc_platform → string → option (@json_value doc_platform);
  json_pointer := (fun v k => match v with
    | JDoc => if String.eqb k "/scores/boot" || String.eqb k "/scores/migration"
              then Some (JNum (f64_of_Z 100)) else None
    | _ => None end) : @json_value doc_platform → string → option (@json_value doc_platform);
  json_as_f64 := (fun v => match v with JNum x => Some x | _ => None end)
    : @json_value doc_platform → option f64;
  json_as_bool := (fun v => match v with JBool x => Some x | _ => None end)
    : @json_value doc_platform → option bool;
  json_as_str := fun _ => None;
  json_as_array := fun _ => None;
  passport_to_vec := fun _ => inr "{doc}";
  passport_to_string_pretty := fun p => if perfect p then inr "{doc}" else inl "unsupported";
  passport_from_str := fun _ => inl "no parser";
  plan_to_vec := fun _ => inr "{}";
  plan_to_yaml := fun _ => inr "{}"
|}.
Definition doc_gate_host : @GateHost doc_platform := {|
  opa_eval := fun _ _ => None;
  writable_dir := fun _ => true;
  temp_dir := "/tmp";
  process_id := 1%Z
|}.
Definition doc_guest : @EvidenceSnapshot doc_platform :=
  @blank_snapshot doc_platform linux_os default_StorageEvidence
    (boot_evidence ["/boot/vmlinuz"] ["/boot/initramfs.img"] ["virtio_blk"])
    default_VmToolsEvidence None None None.
Definition doc_emission : @emission doc_platform :=
  @mk_emission doc_platform (Ok doc_guest) 1 (Ok doc_guest) 2 3.
Definition doc_text : @JsonText doc_platform := fun _ => "null".
Notation doc_gate args := (@gate_run doc_platform doc_host doc_text plain_system plain_chrono
  doc_serde toy_crypto no_network doc_gate_host true true doc_emission args).


(** a passport file without any of the fields is let through. *)
Example gate_accepts_empty_document :
  (fun r => gr_allowed r) <$>
  (@gate_run doc_platform doc_host doc_text plain_system plain_chrono doc_serde toy_crypto
     no_network doc_gate_host true true doc_emission
     (mk_GateArgs (Some "/empty.json") None "kvm" (f64_of_Z 80) None None None true)
     (mk_world {[ "/empty.json" := mk_file "{}" 420 ]} false 0)).2 = Ok true.
Proof. by vm_compute. Qed.

(** a file that holds the passport of [PassportProps]. *)
Definition one_passport_serde : @Serde ascii_platform := {|
  json_from_str := fun _ => inl "no parser";
  json_get := fun _ _ => None;
  json_pointer := fun _ _ => None;
  json_as_f64 := fun _ => None;
  json_as_bool := fun _ => None;
  json_as_str := fun _ => None;
  json_as_array := fun _ => None;
  passport_to_vec := fun _ => inr "{}";
  passport_to_string_pretty := fun _ => inr "{}";
  passport_from_str := fun _ => inr unsigned_passport;
  plan_to_vec := fun _ => inr "{}";
  plan_to_yaml := fun _ => inr "{}"
|}.
Definition passport_world : world :=
  mk_world {[ "/p.json" := mk_file "{}" 420 ]} false 0.
Definition no_checks : PassportVerifyOptions := mk_PassportVerifyOptions None false None None None.
Notation plain_handoff := (@handoff_document ascii_platform plain_host plain_system plain_chrono
  one_passport_serde toy_crypto true 10 10 "/p.json" no_checks passport_world).
Lemma plain_handoff_Ok : ∃ w d, plain_handoff = (w, Ok d) ∧ hh_allowed d = true.
Proof.
  assert (∃ x, plain_handoff.2 = Ok x ∧ hh_allowed x = true) as (d & H & Ha)
    by (eexists; split; vm_compute; reflexivity).
  revert H. destruct plain_handoff as [w o]. intros H. cbn in H. subst o.
  exists w, d. split; [reflexivity|exact Ha].
Qed.
Lemma handoff_agrees_with_verify_witness :
  ∃ w1, @passport_verify_command ascii_platform plain_host plain_system plain_chrono
    one_passport_serde toy_crypto true 10 10 "/p.json" no_checks passport_world = (w1, Ok ()).
Proof.
  destruct plain_handoff_Ok as (w & d & Hrun & Ha).
  exact (proj1 (proj1 (@handoff_agrees_with_verify ascii_platform plain_host plain_system
    plain_chrono one_passport_serde toy_crypto true 10 10 "/p.json" no_checks passport_world w d
    Hrun)) Ha).
Defined.
