(* ===== verification/JobSpec.v ===== *)
(** * Job documents

    [crates/guestkit-job-spec]: the job document, its fluent builder and its
    validation.  A [DateTime<Utc>] is a number of nanoseconds, the clock's reading an
    argument; the warnings printed to standard error are not modelled. *)
From stdpp Require Import base gmap strings list.
From Stdlib Require Import ZArith Lia Ascii.
From S2P Require Import Prelude RustStr Words.

Definition PROTOCOL_VERSION : string := "1.0".

(** ** The document *)
Record JobMetadata : Type := mk_JobMetadata {
  jm_name : option string;
  jm_namespace : option string;
  jm_labels : option (gmap string string);
  jm_annotations : option (gmap string string)
}.
Record ExecutionPolicy : Type := mk_ExecutionPolicy {
  ep_idempotency_key : option string;
  ep_attempt : Z;
  ep_max_attempts : Z;
  ep_timeout_seconds : Z;
  ep_deadline : option Z;
  ep_priority : Z;
  ep_cancellable : bool
}.
Record Constraints : Type := mk_Constraints {
  cn_required_capabilities : option (list string);
  cn_required_features : option (list string);
  cn_minimum_worker_version : option string;
  cn_maximum_disk_size_gb : option Z;
  cn_require_privileged : option bool;
  cn_allowed_worker_pools : option (list string)
}.
Record Routing : Type := mk_Routing {
  rt_worker_id : option string;
  rt_worker_pool : option string;
  rt_affinity : option (gmap string string);
  rt_anti_affinity : option (gmap string (list string))
}.
Record Payload `{Platform} : Type := mk_Payload {
  py_payload_type : string;
  py_data : json_value
}.
Record Observability : Type := mk_Observability {
  ob_trace_id : option string;
  ob_span_id : option string;
  ob_parent_span_id : option string;
  ob_correlation_id : option string
}.
Record Authorization : Type := mk_Authorization {
  az_method : string;
  az_subject : string
}.
Record Audit : Type := mk_Audit {
  au_submitted_by : option string;
  au_submitted_from : option string;
  au_authorization : option Authorization
}.
Record JobDocument `{Platform} : Type := mk_JobDocument {
  jd_schema : option string;
  jd_version : string;
  jd_job_id : string;
  jd_created_at : Z;
  jd_kind : string;
  jd_operation : string;
  jd_metadata : option JobMetadata;
  jd_execution : option ExecutionPolicy;
  jd_constraints : option Constraints;
  jd_routing : option Routing;
  jd_payload : Payload;
  jd_observability : option Observability;
  jd_audit : option Audit
}.

(** the derived [PartialEq]. *)
#[export] Instance JobMetadata_eq_dec : EqDecision JobMetadata.
Proof. solve_decision. Defined.
#[export] Instance Constraints_eq_dec : EqDecision Constraints.
Proof. solve_decision. Defined.
#[export] Instance Routing_eq_dec : EqDecision Routing.
Proof. solve_decision. Defined.
#[export] Instance Observability_eq_dec : EqDecision Observability.
Proof. solve_decision. Defined.
#[export] Instance Authorization_eq_dec : EqDecision Authorization.
Proof. solve_decision. Defined.
#[export] Instance Audit_eq_dec : EqDecision Audit.
Proof. solve_decision. Defined.

Definition default_JobMetadata : JobMetadata := mk_JobMetadata None None None None.
Definition default_ExecutionPolicy : ExecutionPolicy :=
  mk_ExecutionPolicy None 1 1 3600 None 5 true.
Definition default_Constraints : Constraints := mk_Constraints None None None None None None.
Definition default_Routing : Routing := mk_Routing None None None None.
Definition default_Observability : Observability := mk_Observability None None None None.
Definition default_Audit : Audit := mk_Audit None None None.

(** ** Errors *)
Inductive JobError : Type :=
  | UnsupportedVersion (version : string)
  | MissingField (field : string)
  | InvalidField (field reason : string)
  | CapabilityMismatch (required available : list string).

(** ** Validation *)
Definition validate_version (version : string) : outcome JobError () :=
  if String.eqb version PROTOCOL_VERSION then Ok () else Err (UnsupportedVersion version).
Definition validate_job_id (job_id : string) : outcome JobError () :=
  if is_empty job_id then Err (MissingField "job_id")
  else if (String.length job_id <? 8)%nat then
    Err (InvalidField "job_id" "must be at least 8 characters")
  else Ok ().
Definition validate_kind (kind : string) : outcome JobError () :=
  if String.eqb kind "VMOperation" then Ok ()
  else Err (InvalidField "kind" ("must be 'VMOperation', got '" +:+ kind +:+ "'")).
Definition validate_operation (operation : string) : outcome JobError () :=
  if is_empty operation then Err (MissingField "operation")
  else if negb (contains_char "."%char operation) then
    Err (InvalidField "operation" "must be namespaced (e.g., 'guestkit.inspect')")
  else Ok ().
Definition validate_payload `{Platform} (payload : Payload) : outcome JobError () :=
  if is_empty (py_payload_type payload) then Err (MissingField "payload.type")
  else
    let parts := split_char "."%char (py_payload_type payload) in
    if (length parts <? 3)%nat then
      Err (InvalidField "payload.type"
        "must be namespaced with version (e.g., 'guestkit.inspect.v1')")
    else
      match last parts with
      | Some version_part =>
          if negb (starts_with "v" version_part) then
            Err (InvalidField "payload.type"
              ("version part must start with 'v', got '" +:+ version_part +:+ "'"))
          else Ok ()
      | None => Ok ()
      end.
Definition validate_execution_policy (policy : ExecutionPolicy) : outcome JobError () :=
  if (ep_priority policy <? 1)%Z || (10 <? ep_priority policy)%Z then
    Err (InvalidField "execution.priority" ("must be 1-10, got " +:+ fmt_Z (ep_priority policy)))
  else if (ep_max_attempts policy <? 1)%Z then
    Err (InvalidField "execution.max_attempts" "must be at least 1")
  else if (ep_max_attempts policy <? ep_attempt policy)%Z then
    Err (InvalidField "execution.attempt"
      ("attempt (" +:+ fmt_Z (ep_attempt policy) +:+ ") cannot exceed max_attempts ("
       +:+ fmt_Z (ep_max_attempts policy) +:+ ")"))
  else Ok ().
Definition validate_constraints (constraints : Constraints) : outcome JobError () :=
  match cn_minimum_worker_version constraints with
  | Some version =>
      if is_empty version then
        Err (InvalidField "constraints.minimum_worker_version" "cannot be empty")
      else Ok ()
  | None => Ok ()
  end.
Definition validate `{Platform} (job : JobDocument) : outcome JobError () :=
  _ ← validate_version (jd_version job);
  _ ← validate_job_id (jd_job_id job);
  _ ← validate_kind (jd_kind job);
  _ ← validate_operation (jd_operation job);
  _ ← validate_payload (jd_payload job);
  _ ← match jd_execution job with Some e => validate_execution_policy e | None => Ok () end;
  match jd_constraints job with Some c => validate_constraints c | None => Ok () end.

Definition check_capabilities (required available : list string) : outcome JobError () :=
  match List.filter (fun req => negb (existsb (String.eqb req) available)) required with
  | [] => Ok ()
  | _ => Err (CapabilityMismatch required available)
  end.

(** ** The builder *)
Record JobBuilder `{Platform} : Type := mk_JobBuilder {
  jb_job_id : option string;
  jb_operation : option string;
  jb_payload_type : option string;
  jb_payload_data : option json_value;
  jb_metadata : JobMetadata;
  jb_execution : ExecutionPolicy;
  jb_constraints : Constraints;
  jb_routing : Routing;
  jb_observability : Observability;
  jb_audit : Audit
}.

Section builder.
Context `{P : Platform}.
Implicit Types b : JobBuilder.

Definition JobBuilder_new : JobBuilder :=
  mk_JobBuilder _ None None None None default_JobMetadata default_ExecutionPolicy
    default_Constraints default_Routing default_Observability default_Audit.

Definition with_metadata (m : JobMetadata) b : JobBuilder :=
  mk_JobBuilder _ (jb_job_id b) (jb_operation b) (jb_payload_type b) (jb_payload_data b) m
    (jb_execution b) (jb_constraints b) (jb_routing b) (jb_observability b) (jb_audit b).
Definition with_execution (e : ExecutionPolicy) b : JobBuilder :=
  mk_JobBuilder _ (jb_job_id b) (jb_operation b) (jb_payload_type b) (jb_payload_data b)
    (jb_metadata b) e (jb_constraints b) (jb_routing b) (jb_observability b) (jb_audit b).
Definition with_constraints (c : Constraints) b : JobBuilder :=
  mk_JobBuilder _ (jb_job_id b) (jb_operation b) (jb_payload_type b) (jb_payload_data b)
    (jb_metadata b) (jb_execution b) c (jb_routing b) (jb_observability b) (jb_audit b).

Definition b_job_id (id : string) b : JobBuilder :=
  mk_JobBuilder _ (Some id) (jb_operation b) (jb_payload_type b) (jb_payload_data b)
    (jb_metadata b) (jb_execution b) (jb_constraints b) (jb_routing b) (jb_observability b)
    (jb_audit b).
(** [ulid] is the text of a fresh ULID. *)
Definition b_generate_job_id (ulid : string) b : JobBuilder := b_job_id ("job-" +:+ ulid) b.
Definition b_operation (operation : string) b : JobBuilder :=
  mk_JobBuilder _ (jb_job_id b) (Some operation) (jb_payload_type b) (jb_payload_data b)
    (jb_metadata b) (jb_execution b) (jb_constraints b) (jb_routing b) (jb_observability b)
    (jb_audit b).
Definition b_payload (payload_type : string) (data : json_value) b : JobBuilder :=
  mk_JobBuilder _ (jb_job_id b) (jb_operation b) (Some payload_type) (Some data)
    (jb_metadata b) (jb_execution b) (jb_constraints b) (jb_routing b) (jb_observability b)
    (jb_audit b).
Definition b_name (name : string) b : JobBuilder :=
  let m := jb_metadata b in
  with_metadata (mk_JobMetadata (Some name) (jm_namespace m) (jm_labels m) (jm_annotations m)) b.
Definition b_namespace (namespace : string) b : JobBuilder :=
  let m := jb_metadata b in
  with_metadata (mk_JobMetadata (jm_name m) (Some namespace) (jm_labels m) (jm_annotations m)) b.
Definition b_label (key value : string) b : JobBuilder :=
  let m := jb_metadata b in
  with_metadata (mk_JobMetadata (jm_name m) (jm_namespace m)
    (Some (<[key := value]> (default ∅ (jm_labels m)))) (jm_annotations m)) b.
Definition b_annotation (key value : string) b : JobBuilder :=
  let m := jb_metadata b in
  with_metadata (mk_JobMetadata (jm_name m) (jm_namespace m) (jm_labels m)
    (Some (<[key := value]> (default ∅ (jm_annotations m))))) b.
Definition b_idempotency_key (key : string) b : JobBuilder :=
  let e := jb_execution b in
  with_execution (mk_ExecutionPolicy (Some key) (ep_attempt e) (ep_max_attempts e)
    (ep_timeout_seconds e) (ep_deadline e) (ep_priority e) (ep_cancellable e)) b.
Definition b_priority (priority : Z) b : JobBuilder :=
  let e := jb_execution b in
  with_execution (mk_ExecutionPolicy (ep_idempotency_key e) (ep_attempt e) (ep_max_attempts e)
    (ep_timeout_seconds e) (ep_deadline e) (Z.min (Z.max priority 1) 10) (ep_cancellable e)) b.
Definition b_timeout_seconds (seconds : Z) b : JobBuilder :=
  let e := jb_execution b in
  with_execution (mk_ExecutionPolicy (ep_idempotency_key e) (ep_attempt e) (ep_max_attempts e)
    seconds (ep_deadline e) (ep_priority e) (ep_cancellable e)) b.
Definition b_max_attempts (attempts : Z) b : JobBuilder :=
  let e := jb_execution b in
  with_execution (mk_ExecutionPolicy (ep_idempotency_key e) (ep_attempt e) attempts
    (ep_timeout_seconds e) (ep_deadline e) (ep_priority e) (ep_cancellable e)) b.
Definition b_require_capability (capability : string) b : JobBuilder :=
  let c := jb_constraints b in
  with_constraints (mk_Constraints (Some (default [] (cn_required_capabilities c) ++ [capability]))
    (cn_required_features c) (cn_minimum_worker_version c) (cn_maximum_disk_size_gb c)
    (cn_require_privileged c) (cn_allowed_worker_pools c)) b.
Definition b_require_feature (feature : string) b : JobBuilder :=
  let c := jb_constraints b in
  with_constraints (mk_Constraints (cn_required_capabilities c)
    (Some (default [] (cn_required_features c) ++ [feature])) (cn_minimum_worker_version c)
    (cn_maximum_disk_size_gb c) (cn_require_privileged c) (cn_allowed_worker_pools c)) b.
Definition b_worker_pool (pool : string) b : JobBuilder :=
  let r := jb_routing b in
  mk_JobBuilder _ (jb_job_id b) (jb_operation b) (jb_payload_type b) (jb_payload_data b)
    (jb_metadata b) (jb_execution b) (jb_constraints b)
    (mk_Routing (rt_worker_id r) (Some pool) (rt_affinity r) (rt_anti_affinity r))
    (jb_observability b) (jb_audit b).
Definition with_observability (o : Observability) b : JobBuilder :=
  mk_JobBuilder _ (jb_job_id b) (jb_operation b) (jb_payload_type b) (jb_payload_data b)
    (jb_metadata b) (jb_execution b) (jb_constraints b) (jb_routing b) o (jb_audit b).
Definition b_trace_id (trace_id : string) b : JobBuilder :=
  let o := jb_observability b in
  with_observability (mk_Observability (Some trace_id) (ob_span_id o) (ob_parent_span_id o)
    (ob_correlation_id o)) b.
Definition b_correlation_id (correlation_id : string) b : JobBuilder :=
  let o := jb_observability b in
  with_observability (mk_Observability (ob_trace_id o) (ob_span_id o) (ob_parent_span_id o)
    (Some correlation_id)) b.
Definition b_submitted_by (submitter : string) b : JobBuilder :=
  let a := jb_audit b in
  mk_JobBuilder _ (jb_job_id b) (jb_operation b) (jb_payload_type b) (jb_payload_data b)
    (jb_metadata b) (jb_execution b) (jb_constraints b) (jb_routing b) (jb_observability b)
    (mk_Audit (Some submitter) (au_submitted_from a) (au_authorization a)).

Definition require_field {A} (field : string) (x : option A) : outcome JobError A :=
  match x with Some a => Ok a | None => Err (MissingField field) end.
(** a part that differs from its default. *)
Definition unless_default {A} `{EqDecision A} (d x : A) : option A :=
  if decide (x = d) then None else Some x.
Definition build (now : Z) b : outcome JobError JobDocument :=
  job_id ← require_field "job_id" (jb_job_id b);
  operation ← require_field "operation" (jb_operation b);
  payload_type ← require_field "payload.type" (jb_payload_type b);
  payload_data ← require_field "payload.data" (jb_payload_data b);
  let job :=
    mk_JobDocument _ (Some "https://guestkit.dev/schemas/job-v1.json") PROTOCOL_VERSION job_id now
      "VMOperation" operation (unless_default default_JobMetadata (jb_metadata b))
      (Some (jb_execution b)) (unless_default default_Constraints (jb_constraints b))
      (unless_default default_Routing (jb_routing b)) (mk_Payload _ payload_type payload_data)
      (unless_default default_Observability (jb_observability b))
      (unless_default default_Audit (jb_audit b)) in
  _ ← validate job;
  Ok job.
End builder.

(** ** What validation accepts *)
Lemma seq_Ok {E A B} (m : outcome E A) (k : outcome E B) b :
  (m ≫= fun _ => k) = Ok b ↔ (∃ a, m = Ok a) ∧ k = Ok b.
Proof. rewrite outcome_bind_Ok. naive_solver. Qed.
Lemma Ok_unit {E} (m : outcome E ()) : (∃ a, m = Ok a) ↔ m = Ok ().
Proof. split; [by intros ([] & ->)|eauto]. Qed.

Lemma validate_version_Ok v : validate_version v = Ok () ↔ v = PROTOCOL_VERSION.
Proof. unfold validate_version. by destruct (String.eqb_spec v PROTOCOL_VERSION). Qed.
Lemma validate_job_id_Ok i : validate_job_id i = Ok () ↔ 8 ≤ String.length i.
Proof.
  unfold validate_job_id. destruct i as [|c i]; cbn [is_empty]; [cbn; split; [done|lia]|].
  destruct (Nat.ltb_spec (String.length (String c i)) 8); split; (done || lia).
Qed.
Lemma validate_kind_Ok k : validate_kind k = Ok () ↔ k = "VMOperation".
Proof. unfold validate_kind. by destruct (String.eqb_spec k "VMOperation"). Qed.
Lemma validate_operation_Ok o : validate_operation o = Ok () ↔ contains_char "."%char o = true.
Proof.
  unfold validate_operation. destruct o as [|c o]; [done|]. cbn [is_empty].
  by destruct (contains_char "."%char (String c o)).
Qed.
Lemma validate_payload_Ok `{Platform} p :
  validate_payload p = Ok () ↔
  3 ≤ length (split_char "."%char (py_payload_type p)) ∧
  ∃ v, last (split_char "."%char (py_payload_type p)) = Some v ∧ starts_with "v" v = true.
Proof.
  unfold validate_payload. destruct (py_payload_type p) as [|c s]; cbn [is_empty].
  { split; [done|]. cbn. lia. }
  generalize (split_char "."%char (String c s)). intros l.
  destruct (Nat.ltb_spec (length l) 3); [split; [done|lia]|].
  destruct l as [|x l]; [cbn in *; lia|]. destruct (last (x :: l)) as [v|] eqn:Hl.
  - destruct (starts_with "v" v) eqn:Hv; cbn [negb]; [naive_solver|].
    split; [done|]. intros (_ & v' & [= <-] & ?). congruence.
  - by apply last_None in Hl.
Qed.
Lemma validate_policy_Ok e :
  validate_execution_policy e = Ok () ↔
  (1 ≤ ep_priority e ≤ 10 ∧ 1 ≤ ep_max_attempts e ∧ ep_attempt e ≤ ep_max_attempts e)%Z.
Proof.
  unfold validate_execution_policy.
  destruct (Z.ltb_spec (ep_priority e) 1), (Z.ltb_spec 10 (ep_priority e)); cbn [orb];
    try (split; [done|lia]).
  destruct (Z.ltb_spec (ep_max_attempts e) 1); [split; [done|lia]|].
  destruct (Z.ltb_spec (ep_max_attempts e) (ep_attempt e)); split; (done || lia).
Qed.
Lemma validate_constraints_Ok c :
  validate_constraints c = Ok () ↔ cn_minimum_worker_version c ≠ Some "".
Proof.
  unfold validate_constraints. destruct (cn_minimum_worker_version c) as [[|a s]|];
    cbn [is_empty]; split; (done || naive_solver).
Qed.
Lemma opt_validate_Ok {A} (f : A → outcome JobError ()) (Q : A → Prop) x :
  (∀ a, f a = Ok () ↔ Q a) →
  match x with Some a => f a | None => Ok () end = Ok () ↔ ∀ a, x = Some a → Q a.
Proof. intros Hf. destruct x as [a|]; [rewrite Hf|]; naive_solver. Qed.

(** a job document is valid exactly when its protocol version is 1.0, its id has
    at least 8 bytes, its kind is VMOperation, its operation has a namespace, its
    payload type has at least three parts the last of which starts with v, its
    priority is from 1 to 10 and its attempt is within its maximum of at least one
    (when a policy is given), and its minimum worker version is not empty. *)
Theorem validate_exact `{Platform} job :
  validate job = Ok () ↔
  jd_version job = PROTOCOL_VERSION ∧ 8 ≤ String.length (jd_job_id job) ∧
  jd_kind job = "VMOperation" ∧ contains_char "."%char (jd_operation job) = true ∧
  (3 ≤ length (split_char "."%char (py_payload_type (jd_payload job))) ∧
   ∃ v, last (split_char "."%char (py_payload_type (jd_payload job))) = Some v ∧
     starts_with "v" v = true) ∧
  (∀ e, jd_execution job = Some e →
     (1 ≤ ep_priority e ≤ 10 ∧ 1 ≤ ep_max_attempts e ∧ ep_attempt e ≤ ep_max_attempts e)%Z) ∧
  (∀ c, jd_constraints job = Some c → cn_minimum_worker_version c ≠ Some "").
Proof.
  unfold validate. rewrite !seq_Ok, !Ok_unit, validate_version_Ok, validate_job_id_Ok,
    validate_kind_Ok, validate_operation_Ok, validate_payload_Ok.
  by rewrite (opt_validate_Ok _ _ _ validate_policy_Ok), (opt_validate_Ok _ _ _ validate_constraints_Ok).
Qed.

(** ** What the builder makes of a chain of calls *)
Section calls.
Context `{P : Platform}.

(** the builder's methods; [generate_job_id] with the fresh ULID it draws. *)
Inductive builder_call : Type :=
  | CallJobId (id : string) | CallGenerateJobId (ulid : string)
  | CallOperation (operation : string) | CallPayload (payload_type : string) (data : json_value)
  | CallName (name : string) | CallNamespace (namespace : string)
  | CallLabel (key value : string) | CallAnnotation (key value : string)
  | CallIdempotencyKey (key : string) | CallPriority (priority : Z) | CallTimeoutSeconds (seconds : Z)
  | CallMaxAttempts (attempts : Z) | CallRequireCapability (capability : string)
  | CallRequireFeature (feature : string) | CallWorkerPool (pool : string)
  | CallTraceId (trace_id : string) | CallCorrelationId (correlation_id : string)
  | CallSubmittedBy (submitter : string).
Definition perform (b : JobBuilder) (c : builder_call) : JobBuilder :=
  match c with
  | CallJobId id => b_job_id id b
  | CallGenerateJobId ulid => b_generate_job_id ulid b
  | CallOperation o => b_operation o b
  | CallPayload t d => b_payload t d b
  | CallName n => b_name n b
  | CallNamespace n => b_namespace n b
  | CallLabel k v => b_label k v b
  | CallAnnotation k v => b_annotation k v b
  | CallIdempotencyKey k => b_idempotency_key k b
  | CallPriority n => b_priority n b
  | CallTimeoutSeconds n => b_timeout_seconds n b
  | CallMaxAttempts n => b_max_attempts n b
  | CallRequireCapability c => b_require_capability c b
  | CallRequireFeature f => b_require_feature f b
  | CallWorkerPool p => b_worker_pool p b
  | CallTraceId t => b_trace_id t b
  | CallCorrelationId c => b_correlation_id c b
  | CallSubmittedBy s => b_submitted_by s b
  end.
(** [JobBuilder::new()] followed by the calls. *)
Definition configured (calls : list builder_call) : JobBuilder := foldl perform JobBuilder_new calls.

(** what one call asks for. *)
Definition asked_id (c : builder_call) : option string :=
  match c with CallJobId id => Some id | CallGenerateJobId u => Some ("job-" +:+ u) | _ => None end.
Definition asked_operation (c : builder_call) : option string :=
  match c with CallOperation o => Some o | _ => None end.
Definition asked_payload (c : builder_call) : option (string * json_value) :=
  match c with CallPayload t d => Some (t, d) | _ => None end.
Definition asked_priority (c : builder_call) : option Z :=
  match c with CallPriority n => Some n | _ => None end.
Definition asked_attempts (c : builder_call) : option Z :=
  match c with CallMaxAttempts n => Some n | _ => None end.
Definition asked_timeout (c : builder_call) : option Z :=
  match c with CallTimeoutSeconds n => Some n | _ => None end.
Definition asked_key (c : builder_call) : option string :=
  match c with CallIdempotencyKey k => Some k | _ => None end.
Definition asked_label (key : string) (c : builder_call) : option string :=
  match c with CallLabel k v => if decide (k = key) then Some v else None | _ => None end.
Definition asked_capability (c : builder_call) : option string :=
  match c with CallRequireCapability s => Some s | _ => None end.
Definition asked_feature (c : builder_call) : option string :=
  match c with CallRequireFeature s => Some s | _ => None end.
Definition asked_pool (c : builder_call) : option string :=
  match c with CallWorkerPool s => Some s | _ => None end.
(** all that was asked for, in order, and the last of it. *)
Definition all {A} (ask : builder_call → option A) (calls : list builder_call) : list A :=
  omap ask calls.
Definition latest {A} (ask : builder_call → option A) (calls : list builder_call) : option A :=
  last (all ask calls).
(** what a document says. *)
Definition label_of (m : JobMetadata) (key : string) : option string :=
  match jm_labels m with Some ls => ls !! key | None => None end.
Definition capabilities_of (c : Constraints) : list string :=
  default [] (cn_required_capabilities c).
Definition features_of (c : Constraints) : list string := default [] (cn_required_features c).

(** the calls a document can be made of. *)
Definition acceptable (calls : list builder_call) : Prop :=
  (∃ id, latest asked_id calls = Some id ∧ 8 ≤ String.length id) ∧
  (∃ a b, latest asked_operation calls = Some (a +:+ "." +:+ b)) ∧
  (∃ a b v data, latest asked_payload calls = Some (a +:+ "." +:+ b +:+ ".v" +:+ v, data) ∧
     without "."%char v) ∧
  (1 ≤ default 1 (latest asked_attempts calls))%Z.
(** the document holds what the calls asked for. *)
Definition holds_asked (now : Z) (calls : list builder_call) (job : JobDocument) : Prop :=
  jd_version job = PROTOCOL_VERSION ∧ jd_kind job = "VMOperation" ∧ jd_created_at job = now ∧
  latest asked_id calls = Some (jd_job_id job) ∧
  latest asked_operation calls = Some (jd_operation job) ∧
  latest asked_payload calls = Some (py_payload_type (jd_payload job), py_data (jd_payload job)) ∧
  jd_execution job = Some (mk_ExecutionPolicy (latest asked_key calls) 1
    (default 1 (latest asked_attempts calls)) (default 3600 (latest asked_timeout calls)) None
    (Z.min (Z.max (default 5 (latest asked_priority calls)) 1) 10) true)%Z ∧
  (∀ key, label_of (default default_JobMetadata (jd_metadata job)) key =
     latest (asked_label key) calls) ∧
  capabilities_of (default default_Constraints (jd_constraints job)) = all asked_capability calls ∧
  features_of (default default_Constraints (jd_constraints job)) = all asked_feature calls ∧
  rt_worker_pool (default default_Routing (jd_routing job)) = latest asked_pool calls.

Lemma latest_snoc {A} (ask : builder_call → option A) cs c :
  latest ask (cs ++ [c]) = match ask c with Some x => Some x | None => latest ask cs end.
Proof.
  unfold latest, all. rewrite omap_app. cbn. destruct (ask c); [apply last_snoc|by rewrite app_nil_r].
Qed.
Lemma all_snoc {A} (ask : builder_call → option A) cs c :
  all ask (cs ++ [c]) = all ask cs ++ match ask c with Some x => [x] | None => [] end.
Proof. unfold all. rewrite omap_app. cbn. by destruct (ask c). Qed.
(** every part of the builder is the last value asked for, or all of them in order. *)
Lemma configured_parts calls :
  jb_job_id (configured calls) = latest asked_id calls ∧
  jb_operation (configured calls) = latest asked_operation calls ∧
  jb_payload_type (configured calls) = fst <$> latest asked_payload calls ∧
  jb_payload_data (configured calls) = snd <$> latest asked_payload calls ∧
  jb_execution (configured calls) = (mk_ExecutionPolicy (latest asked_key calls) 1
    (default 1 (latest asked_attempts calls)) (default 3600 (latest asked_timeout calls)) None
    (Z.min (Z.max (default 5 (latest asked_priority calls)) 1) 10) true)%Z ∧
  (∀ key, label_of (jb_metadata (configured calls)) key = latest (asked_label key) calls) ∧
  capabilities_of (jb_constraints (configured calls)) = all asked_capability calls ∧
  features_of (jb_constraints (configured calls)) = all asked_feature calls ∧
  cn_minimum_worker_version (jb_constraints (configured calls)) = None ∧
  rt_worker_pool (jb_routing (configured calls)) = latest asked_pool calls.
Proof.
  induction calls as [|c cs IH] using rev_ind; [by split_and!|].
  unfold configured in *. rewrite foldl_app. cbn [foldl]. revert IH.
  generalize (foldl perform JobBuilder_new cs). intros b (Hi & Ho & Ht & Hd & He & Hl & Hc & Hf & Hm & Hp).
  rewrite !latest_snoc, !all_snoc.
  unfold label_of, capabilities_of, features_of in *.
  destruct c; cbn; rewrite ?app_nil_r, ?He; cbn; split_and!; try done; try congruence;
    intros k; rewrite latest_snoc; cbn; try apply Hl.
  rewrite <-Hl. destruct (decide (key = k)) as [->|Hk].
  - by rewrite lookup_insert_eq.
  - rewrite lookup_insert_ne by done. by destruct (jm_labels (jb_metadata b)); cbn; rewrite ?lookup_empty.
Qed.

Lemma unless_default_default {A} `{EqDecision A} (d x : A) : default d (unless_default d x) = x.
Proof. unfold unless_default. by destruct (decide (x = d)). Qed.

(** splitting at a separator, read from the back. *)
Lemma split_char_at c a b : split_char c (a +:+ String c b) = split_char c a ++ split_char c b.
Proof.
  induction a as [|d a IH].
  - change ("" +:+ ?x) with x. cbn [split_char]. by rewrite Ascii.eqb_refl.
  - change (String d a +:+ ?x) with (String d (a +:+ x)). cbn [split_char]. rewrite IH.
    destruct (Ascii.eqb c d); [done|]. pose proof (split_char_nonempty c a).
    by destruct (split_char c a).
Qed.
Lemma last_separator c s : without c s ∨ ∃ a v, s = a +:+ String c v ∧ without c v.
Proof.
  induction s as [|d s [Hs|(a & v & -> & Hv)]]; [by left| |right; by exists (String d a), v].
  destruct (Ascii.eqb_spec c d) as [->|Hd]; [right; by exists "", s|].
  left. apply text_forall_cons. split; [|done]. by apply negb_true_iff, Ascii.eqb_neq.
Qed.
(** a versioned type name: at least two dots, the last one followed by a [v]. *)
Lemma versioned_spec t :
  3 ≤ length (split_char "."%char t) ∧
    (∃ v, last (split_char "."%char t) = Some v ∧ starts_with "v" v = true) ↔
  ∃ a b v, t = a +:+ "." +:+ b +:+ ".v" +:+ v ∧ without "."%char v.
Proof.
  split.
  - intros [Hl (w & Hw & (v & ->)%starts_with_spec)].
    destruct (last_separator "."%char t) as [Ht|(p & v' & -> & Hv)].
    { rewrite split_char_whole in Hl by done. cbn in Hl. lia. }
    rewrite split_char_at, (split_char_whole _ v') in Hl, Hw by done.
    rewrite last_snoc in Hw. injection Hw as ->.
    destruct (last_separator "."%char p) as [Hp|(a & b & -> & Hb)].
    { rewrite split_char_whole in Hl by done. cbn in Hl. lia. }
    exists a, b, v. split; [|by apply text_forall_cons in Hv as [_ Hv]].
    by rewrite text_app_assoc.
  - intros (a & b & v & -> & Hv).
    change (a +:+ "." +:+ b +:+ ".v" +:+ v)
      with (a +:+ String "."%char (b +:+ String "."%char (String "v"%char v))).
    rewrite !split_char_at, (split_char_whole _ (String _ v)) by (by apply text_forall_cons).
    rewrite app_assoc, last_snoc, !length_app.
    split; [|exists (String "v"%char v); split; [done|]; apply starts_with_spec; by exists v].
    pose proof (split_char_nonempty "."%char a). pose proof (split_char_nonempty "."%char b).
    destruct (split_char "."%char a), (split_char "."%char b); cbn; try done. lia.
Qed.
End calls.

Lemma check_no_panic {E B} (m : outcome E ()) (k : outcome E B) :
  m ≠ Panic → k ≠ Panic → (m ≫= fun _ => k) ≠ Panic.
Proof. by destruct m. Qed.
Lemma validate_no_panic `{Platform} job : validate job ≠ Panic.
Proof.
  unfold validate. repeat apply check_no_panic; repeat case_match; unfold validate_version, validate_job_id,
    validate_kind, validate_operation, validate_payload, validate_execution_policy,
    validate_constraints; repeat case_match; done.
Qed.

(** C40: a chain of builder calls yields a document exactly when the id asked for last
    has at least 8 bytes, the operation asked for last has a dot, the payload type
    asked for last has at least two dots with a [v] after the last one (what follows the
    [v] need not be a number), and the number of attempts asked for last, or 1, is at least
    1; no chain of calls panics.  The document holds the last id, operation, payload, idempotency key,
    timeout, pool and value of each label asked for, the priority asked for last forced
    into 1 to 10, every capability and feature in order, and the defaults where nothing
    was asked for. *)
Theorem built_as_asked `{Platform} now calls :
  match build now (configured calls) with
  | Ok job => acceptable calls ∧ holds_asked now calls job
  | Err _ => ¬ acceptable calls
  | Panic => False
  end.
Proof.
  destruct (configured_parts calls) as (Hi & Ho & Ht & Hd & He & Hl & Hc & Hf & Hm & Hp).
  unfold build, acceptable. rewrite Hi, Ho, Ht, Hd.
  destruct (latest asked_id calls) as [id|] eqn:Ei; [|cbn; naive_solver].
  destruct (latest asked_operation calls) as [op|] eqn:Eo; [|cbn; naive_solver].
  destruct (latest asked_payload calls) as [[ty data]|] eqn:Ep; [|cbn; naive_solver].
  cbn [require_field fmap option_fmap option_map mbind outcome_bind fst snd].
  match goal with |- context [validate ?j] => pose proof (validate_exact j) as Hv; set (job := j) in * end.
  cbn [jd_version jd_kind jd_job_id jd_operation jd_payload jd_execution jd_constraints job] in Hv.
  rewrite versioned_spec, contains_char_spec in Hv.
  assert (validate job = Ok () ↔
    8 ≤ String.length id ∧ (∃ a b, op = a +:+ "." +:+ b) ∧
    (∃ a b v, ty = a +:+ "." +:+ b +:+ ".v" +:+ v ∧ without "."%char v) ∧
    (1 ≤ default 1 (latest asked_attempts calls))%Z) as Hok.
  { rewrite Hv, He. unfold unless_default. split.
    - intros (_ & ? & _ & ? & ? & Hx & _). split_and!; try done. by apply (Hx _ eq_refl).
    - intros (? & ? & ? & ?). split_and!; try done.
      + intros ? [= <-]. cbn. lia.
      + intros c. destruct (decide _); [done|]. intros [= <-]. by rewrite Hm. }
  destruct (validate job) as [[]|e|] eqn:Ev; cbn.
  - destruct (proj1 Hok eq_refl) as (? & (a & b & ->) & (a' & b' & v & -> & ?) & ?).
    split; [split_and!; by eauto 8|].
    unfold holds_asked, job. cbn. rewrite !unless_default_default, He. by split_and!.
  - intros ((? & [= <-] & ?) & (a & b & [= ->]) & (a' & b' & v & ? & [= -> ->] & ?) & ?).
    enough (Err e = Ok () :> outcome JobError ()) by done. apply Hok. split_and!; by eauto.
  - by apply validate_no_panic in Ev.
Qed.

(** the last id and the last value of a label count, a priority of 99 becomes 10, and
    what follows the [v] of the payload type need not be a number. *)
Example chain_builds : ∃ job,
  @build ascii_platform 7 (configured
    [CallJobId "short"; CallOperation "guestkit.inspect"; CallLabel "env" "test";
     CallPayload "guestkit.inspect.vX" (tt : @json_value ascii_platform); CallLabel "env" "prod"; CallPriority 99;
     CallGenerateJobId "01ARZ3"]) = Ok job ∧ jd_job_id job = "job-01ARZ3" ∧
  option_map ep_priority (jd_execution job) = Some 10%Z ∧
  label_of (default default_JobMetadata (jd_metadata job)) "env" = Some "prod".
Proof. eexists. split; [vm_compute; reflexivity|by vm_compute]. Qed.
Example short_id_refused : ∃ e,
  @build ascii_platform 7 (configured
    [CallOperation "guestkit.inspect"; CallPayload "guestkit.inspect.v1" (tt : @json_value ascii_platform);
     CallJobId "short"]) = Err e.
Proof. eexists. vm_compute. reflexivity. Qed.
