(* ===== verification/Worker.v ===== *)
(** * The job worker

    [crates/guestkit-worker]: the job state machine ([state.rs]), the handler registry
    ([handler.rs]), result files ([result.rs]), the executor with its idempotency
    cache and metrics ([executor.rs]) and the loop of the daemon ([worker.rs]).

    Handlers, the clock, file-system errors and the expiry of a timeout are the
    environment's: the record [OperationHandler] and the class [WorkerEnv].  The
    progress channel and log output are not modelled. *)
From stdpp Require Import base gmap strings list.
From Stdlib Require Import ZArith Lia Ascii SpecFloat.
From S2P Require Import Prelude RustStr F64 Evidence BootChecks BootEngine Migration Kahn FixPlan Repair JobSpec.

(** ** The state machine *)
Inductive JobState : Set :=
  Pending | Queued | Assigned | Running | Completed | Failed | Cancelled | Timeout.
#[export] Instance JobState_eq_dec : EqDecision JobState.
Proof. solve_decision. Defined.

Definition fmt_JobState (s : JobState) : string :=
  match s with
  | Pending => "pending"
  | Queued => "queued"
  | Assigned => "assigned"
  | Running => "running"
  | Completed => "completed"
  | Failed => "failed"
  | Cancelled => "cancelled"
  | Timeout => "timeout"
  end.
Definition is_terminal (s : JobState) : bool :=
  match s with Completed | Failed | Cancelled | Timeout => true | _ => false end.
Definition is_active (s : JobState) : bool :=
  match s with Running => true | _ => false end.
Definition is_valid_transition (current target : JobState) : bool :=
  if is_terminal current then false
  else
    match current, target with
    | Pending, Queued => true
    | Pending, Failed => true
    | Queued, Assigned => true
    | Queued, Cancelled => true
    | Queued, Failed => true
    | Assigned, Running => true
    | Assigned, Cancelled => true
    | Assigned, Failed => true
    | Running, Completed => true
    | Running, Failed => true
    | Running, Cancelled => true
    | Running, Timeout => true
    | _, _ => false
    end.

(** ** Errors *)
Inductive WorkerError : Type :=
  | WJobError (e : JobError)
  | ExecutionError (message : string)
  | HandlerNotFound (operation : string)
  | InvalidStateTransition (current target : string)
  | TimeoutError (seconds : Z)
  | IoError (text : string)
  | SerializationError (text : string)
  | OtherError (text : string).

Definition fmt_JobError `{Platform} (e : JobError) : string :=
  match e with
  | UnsupportedVersion v => "Unsupported protocol version: " +:+ v
  | MissingField f => "Missing required field: " +:+ f
  | InvalidField f r => "Invalid field value: " +:+ f +:+ " - " +:+ r
  | CapabilityMismatch r a =>
      "Capability mismatch: required " +:+ fmt_debug_strs r +:+ ", available "
      +:+ fmt_debug_strs a
  end.
Definition fmt_WorkerError `{Platform} (e : WorkerError) : string :=
  match e with
  | WJobError e => "Job error: " +:+ fmt_JobError e
  | ExecutionError m => "Execution error: " +:+ m
  | HandlerNotFound o => "Handler not found for operation: " +:+ o
  | InvalidStateTransition c t => "Invalid state transition: " +:+ c +:+ " -> " +:+ t
  | TimeoutError s => "Job timeout after " +:+ fmt_Z s +:+ " seconds"
  | IoError t => "IO error: " +:+ t
  | SerializationError t => "Serialization error: " +:+ t
  | OtherError t => t
  end.

(** [JobStateMachine::transition]. *)
Definition transition (current target : JobState) : WorkerError + JobState :=
  if is_valid_transition current target then inr target
  else inl (InvalidStateTransition (fmt_JobState current) (fmt_JobState target)).

(** ** Results *)
Inductive JobStatus : Set :=
  | StatusPending | StatusAssigned | StatusRunning | StatusCompleted | StatusFailed
  | StatusCancelled | StatusTimeout.
Record ExecutionSummary : Type := mk_ExecutionSummary {
  es_started_at : Z;
  es_duration_seconds : Z;
  es_attempt : Z;
  es_idempotency_key : option string
}.
Record JobOutputs : Type := mk_JobOutputs {
  jo_primary : option string;
  jo_artifacts : option (list string)
}.
Record JobExecutionError : Type := mk_JobExecutionError {
  je_code : string;
  je_message : string;
  je_phase : option string;
  je_recoverable : bool;
  je_retry_recommended : bool
}.
(** the fields that the worker always leaves empty are left out. *)
Record JobResult `{Platform} : Type := mk_JobResult {
  jr_job_id : string;
  jr_status : JobStatus;
  jr_completed_at : option Z;
  jr_failed_at : option Z;
  jr_worker_id : string;
  jr_summary : ExecutionSummary;
  jr_outputs : option JobOutputs;
  jr_error : option JobExecutionError;
  jr_data : option json_value
}.

(** ** Handlers *)
Record HandlerContext : Type := mk_HandlerContext {
  hc_job_id : string;
  hc_worker_id : string;
  hc_work_dir : string
}.
Record HandlerResult `{Platform} : Type := mk_HandlerResult {
  hr_output_file : option string;
  hr_artifacts : list string;
  hr_data : json_value
}.
(** how a handler's run ends under a timeout. *)
Inductive run_end `{Platform} : Type :=
  | Finished (result : WorkerError + HandlerResult) (duration : f64)
  | TimedOut.
Record OperationHandler `{Platform} : Type := mk_OperationHandler {
  oh_name : string;
  oh_operations : list string;
  oh_validate : Payload → option WorkerError;
  oh_execute : HandlerContext → Payload → Z → run_end
}.

Definition HandlerRegistry `{Platform} : Type := gmap string OperationHandler.
Definition register `{Platform} (registry : HandlerRegistry) (h : OperationHandler)
    : HandlerRegistry :=
  foldl (fun r operation => <[operation := h]> r) registry (oh_operations h).
Definition supports `{Platform} (registry : HandlerRegistry) (operation : string) : bool :=
  bool_decide (is_Some (registry !! operation)).

(** ** The executor *)

(** the idempotency cache, the result files by path, the metrics (none: no registry
    is attached), the handlers run and cleaned up, by job id, and the number of calls
    to the environment. *)
Record metrics : Type := mk_metrics {
  mt_active_jobs : Z;
  mt_completions : list (string * string * f64);
  mt_handlers : list (string * string * f64)
}.
Record wstate `{Platform} : Type := mk_wstate {
  ws_cache : gmap string string;
  ws_results : gmap string JobResult;
  ws_metrics : option metrics;
  ws_ran : list string;
  ws_cleaned : list string;
  ws_calls : nat
}.

Class WorkerEnv `{Platform} := {
  utc_now : nat → Z;
  (** the error of a file-system call *)
  file_error : nat → option string;
  (** the error of serializing a result *)
  result_json_error : JobResult → option string;
  json_is_null : json_value → bool
}.

Definition worker `{Platform} (A : Type) : Type := wstate → wstate * (WorkerError + A).
#[export] Instance worker_ret `{Platform} : MRet worker := fun A a s => (s, inr a).
#[export] Instance worker_bind `{Platform} : MBind worker := fun A B f m s =>
  match m s with (s, inr a) => f a s | (s, inl e) => (s, inl e) end.

Section executor.
Context `{P : Platform} `{Env : !WorkerEnv}.
Context (worker_id work_dir output_dir : string) (registry : HandlerRegistry).
Implicit Types (job : JobDocument) (s : wstate).

Definition fail {A} (e : WorkerError) : worker A := fun s => (s, inl e).
Definition lift_w {A} (m : WorkerError + A) : worker A := fun s => (s, m).
Definition count_w s : wstate :=
  mk_wstate _ (ws_cache s) (ws_results s) (ws_metrics s) (ws_ran s) (ws_cleaned s) (S (ws_calls s)).
Definition now : worker Z := fun s => (count_w s, inr (utc_now (ws_calls s))).
Definition on_metrics (f : metrics → metrics) : worker () := fun s =>
  (mk_wstate _ (ws_cache s) (ws_results s) (f <$> ws_metrics s) (ws_ran s) (ws_cleaned s)
     (ws_calls s), inr ()).
Definition inc_active_jobs : worker () :=
  on_metrics (fun m => mk_metrics (mt_active_jobs m + 1) (mt_completions m) (mt_handlers m)).
Definition dec_active_jobs : worker () :=
  on_metrics (fun m => mk_metrics (mt_active_jobs m - 1) (mt_completions m) (mt_handlers m)).
Definition record_job_completion (operation status : string) (duration : f64) : worker () :=
  on_metrics (fun m => mk_metrics (mt_active_jobs m)
    (mt_completions m ++ [(operation, status, duration)]) (mt_handlers m)).
Definition record_handler_execution (handler status : string) (duration : f64) : worker () :=
  on_metrics (fun m => mk_metrics (mt_active_jobs m) (mt_completions m)
    (mt_handlers m ++ [(handler, status, duration)])).
Definition file_call : worker () := fun s =>
  (count_w s, match file_error (ws_calls s) with Some t => inl (IoError t) | None => inr () end).

(** [ResultWriter]. *)
Definition result_path (job_id : string) : string :=
  path_join output_dir (job_id +:+ "-result.json").
Definition put_result (path : string) (r : JobResult) : worker () := fun s =>
  (mk_wstate _ (ws_cache s) (<[path := r]> (ws_results s)) (ws_metrics s) (ws_ran s)
     (ws_cleaned s) (ws_calls s), inr ()).
Definition write_result (r : JobResult) : worker string :=
  file_call ;;
  let path := result_path (jr_job_id r) in
  match result_json_error r with
  | Some t => fail (SerializationError t)
  | None => file_call ;; put_result path r ;; mret path
  end.
(** [num_seconds() as u64]. *)
Definition seconds_between (later earlier : Z) : Z :=
  (Z.quot (later - earlier) 1000000000 mod 2 ^ 64)%Z.
Definition write_success (job_id : string) (started_at attempt : Z)
    (idempotency_key output_file : option string) (artifacts : list string)
    (data : option json_value) : worker string :=
  t ← now;
  t' ← now;
  write_result (mk_JobResult _ job_id StatusCompleted (Some t') None worker_id
    (mk_ExecutionSummary started_at (seconds_between t started_at) attempt idempotency_key)
    (Some (mk_JobOutputs output_file (match artifacts with [] => None | _ => Some artifacts end)))
    None data).
Definition write_failure (job_id : string) (started_at attempt : Z)
    (error_code error_message : string) (phase : option string) (recoverable : bool)
    : worker string :=
  t ← now;
  t' ← now;
  write_result (mk_JobResult _ job_id StatusFailed None (Some t') worker_id
    (mk_ExecutionSummary started_at (seconds_between t started_at) attempt None) None
    (Some (mk_JobExecutionError error_code error_message phase recoverable recoverable)) None).

(** [validate_job]. *)
Definition validate_job job : option WorkerError :=
  match validate job with
  | Err e => Some (WJobError e)
  | Panic => None
  | Ok _ =>
      if negb (supports registry (jd_operation job)) then
        Some (HandlerNotFound (jd_operation job))
      else match registry !! jd_operation job with
           | Some h => oh_validate h (jd_payload job)
           | None => None
           end
  end.

Definition ran (job_id : string) : worker () := fun s =>
  (mk_wstate _ (ws_cache s) (ws_results s) (ws_metrics s) (ws_ran s ++ [job_id]) (ws_cleaned s)
     (ws_calls s), inr ()).
Definition cleaned (job_id : string) : worker () := fun s =>
  (mk_wstate _ (ws_cache s) (ws_results s) (ws_metrics s) (ws_ran s) (ws_cleaned s ++ [job_id])
     (ws_calls s), inr ()).
(** [execute_with_handler] under the timeout: [None] when it expired, and then the
    metrics and the cleanup were not reached. *)
Definition execute_with_handler job (timeout : Z)
    : worker (option (WorkerError + HandlerResult)) :=
  match registry !! jd_operation job with
  | None => mret (Some (inl (HandlerNotFound (jd_operation job))))
  | Some h =>
      let context := mk_HandlerContext (jd_job_id job) worker_id work_dir in
      ran (jd_job_id job) ;;
      match oh_execute h context (jd_payload job) timeout with
      | TimedOut => mret None
      | Finished result duration =>
          record_handler_execution (oh_name h)
            (match result with inr _ => "success" | inl _ => "error" end) duration ;;
          cleaned (jd_job_id job) ;;
          mret (Some result)
      end
  end.

Definition job_key job : option string := jd_execution job ≫= ep_idempotency_key.
Definition job_attempt job : Z :=
  match jd_execution job with Some e => ep_attempt e | None => 1%Z end.
Definition job_timeout job : Z :=
  match jd_execution job with Some e => ep_timeout_seconds e | None => 3600%Z end.
Definition cached (key : option string) : worker bool := fun s =>
  (s, inr (match key with Some k => bool_decide (is_Some (ws_cache s !! k)) | None => false end)).
Definition store (key : option string) (path : string) : worker () := fun s =>
  (mk_wstate _ (match key with Some k => <[k := path]> (ws_cache s) | None => ws_cache s end)
     (ws_results s) (ws_metrics s) (ws_ran s) (ws_cleaned s) (ws_calls s), inr ()).
(** [(Utc::now() - started_at).num_milliseconds() as f64 / 1000.0]. *)
Definition elapsed (started_at : Z) : worker f64 :=
  t ← now;
  mret (f64_of_Z (Z.quot (t - started_at) 1000000) / f64_of_Z 1000)%f64.

(** [{:?}] of a [Duration] of whole seconds. *)
Definition fmt_debug_secs (seconds : Z) : string :=
  if (seconds =? 0)%Z then "0ns" else fmt_Z seconds +:+ "s".

Definition execute job : worker () :=
  started_at ← now;
  inc_active_jobs ;;
  hit ← cached (job_key job);
  if hit : bool then mret ()
  else
    state ← lift_w (transition Pending Queued);
    match validate_job job with
    | Some e =>
        write_failure (jd_job_id job) started_at 1 "VALIDATION_ERROR" (fmt_WorkerError e)
          (Some "validation") false ;;
        fail e
    | None =>
        state ← lift_w (transition state Assigned);
        state ← lift_w (transition state Running);
        let timeout := job_timeout job in
        result ← execute_with_handler job timeout;
        match result with
        | Some (inr handler_result) =>
            lift_w (transition state Completed) ;;
            duration ← elapsed started_at;
            record_job_completion (jd_operation job) "completed" duration ;;
            dec_active_jobs ;;
            result_path ← write_success (jd_job_id job) started_at (job_attempt job) (job_key job)
              (hr_output_file handler_result) (hr_artifacts handler_result)
              (if json_is_null (hr_data handler_result) then None
               else Some (hr_data handler_result));
            store (job_key job) result_path
        | Some (inl e) =>
            lift_w (transition state Failed) ;;
            duration ← elapsed started_at;
            record_job_completion (jd_operation job) "failed" duration ;;
            dec_active_jobs ;;
            write_failure (jd_job_id job) started_at (job_attempt job) "EXECUTION_ERROR"
              (fmt_WorkerError e) (Some "execution") true ;;
            fail e
        | None =>
            lift_w (transition state Timeout) ;;
            record_job_completion (jd_operation job) "timeout" (f64_of_Z timeout) ;;
            dec_active_jobs ;;
            write_failure (jd_job_id job) started_at (job_attempt job) "TIMEOUT"
              ("Job exceeded timeout of " +:+ fmt_debug_secs timeout) (Some "execution") true ;;
            fail (TimeoutError timeout)
        end
    end.

(** ** The loop *)
Inductive fetched : Type := FetchedJob (job : JobDocument) | NoJob | TransportError (text : string).
Inductive transport_call : Type := Ack (job_id : string) | Nack (job_id reason : string).

(** one turn of the loop: the calls it makes to the transport, whose errors are
    only logged. *)
Definition turn (f : fetched) s : wstate * list transport_call :=
  match f with
  | FetchedJob job =>
      match execute job s with
      | (s, inr _) => (s, [Ack (jd_job_id job)])
      | (s, inl e) => (s, [Nack (jd_job_id job) (fmt_WorkerError e)])
      end
  | NoJob | TransportError _ => (s, [])
  end.
Fixpoint run_loop (fs : list fetched) s : wstate * list transport_call :=
  match fs with
  | [] => (s, [])
  | f :: fs =>
      let '(s, calls) := turn f s in
      let '(s, calls') := run_loop fs s in
      (s, calls ++ calls')
  end.
End executor.
