(* ===== verification/WorkerProps.v ===== *)
(** * What the worker guarantees

    Theorems on [Worker]: the life of a job in the state machine, one execution per
    idempotency key, the report of every job, the gauge of active jobs, and one answer
    to the transport per fetched job. *)
From stdpp Require Import base gmap strings list.
From Stdlib Require Import ZArith Lia Ascii SpecFloat.
From S2P Require Import Prelude RustStr F64 Evidence BootChecks BootEngine Migration Kahn FixPlan Repair JobSpec Worker.

(** ** The state machine *)
Inductive job_step : JobState → JobState → Prop :=
  | step_queue : job_step Pending Queued
  | step_reject : job_step Pending Failed
  | step_assign : job_step Queued Assigned
  | step_start : job_step Assigned Running
  | step_complete : job_step Running Completed
  | step_expire : job_step Running Timeout
  | step_fail s : s = Queued ∨ s = Assigned ∨ s = Running → job_step s Failed
  | step_cancel s : s = Queued ∨ s = Assigned ∨ s = Running → job_step s Cancelled.

Lemma transition_step a b c : transition a b = inr c ↔ job_step a b ∧ c = b.
Proof.
  unfold transition. split.
  - destruct a, b; cbn; try done; intros [= <-]; split; eauto using job_step.
  - intros [Hs ->]. destruct Hs; try done; by destruct H as [->|[->| ->]].
Qed.

(** how far a job is. *)
Definition stage (s : JobState) : nat :=
  match s with Pending => 0 | Queued => 1 | Assigned => 2 | Running => 3 | _ => 4 end.
Lemma job_step_stage a b : job_step a b → stage a < stage b ∧ is_terminal a = false.
Proof. destruct 1; cbn; try (split; [lia|done]); destruct H as [->|[->| ->]]; cbn; split; (lia || done). Qed.

(** a sequence of transitions. *)
Fixpoint transitions (s : JobState) (ts : list JobState) : WorkerError + JobState :=
  match ts with
  | [] => inr s
  | t :: ts => match transition s t with inr s => transitions s ts | inl e => inl e end
  end.
Lemma transitions_cons s t ts s' :
  transitions s (t :: ts) = inr s' ↔ job_step s t ∧ transitions t ts = inr s'.
Proof.
  cbn. destruct (transition s t) as [e|u] eqn:E.
  - split; [done|]. intros [Hs _]. by rewrite (proj2 (transition_step s t t) (conj Hs eq_refl)) in E.
  - apply transition_step in E as [Hs ->]. naive_solver.
Qed.
Lemma transitions_stage ts : ∀ s s', transitions s ts = inr s' → length ts + stage s ≤ stage s'.
Proof.
  induction ts as [|t ts IH]; intros s s' H; [by injection H as ->|].
  apply transitions_cons in H as [Hs%job_step_stage H%IH]. cbn. lia.
Qed.
(** the whole way from a state to the end of a run. *)
Definition way (s : JobState) : list JobState :=
  match s with
  | Pending => [Queued; Assigned; Running]
  | Queued => [Assigned; Running]
  | Assigned => [Running]
  | _ => []
  end.
Lemma transitions_to_end e ts : e = Completed ∨ e = Timeout → ∀ s,
  transitions s ts = inr e → s = e ∧ ts = [] ∨ ts = way s ++ [e] ∧ is_terminal s = false.
Proof.
  intros He. induction ts as [|t ts IH]; intros s H; [left; by injection H as ->|].
  apply transitions_cons in H as [Hs H]. right.
  destruct (IH t H) as [[-> ->]|[-> Ht]].
  - destruct He as [->| ->]; by inversion Hs.
  - inversion Hs; subst; try done.
Qed.

(** a job passes through at most four transitions; it completes or times out
    only after it was queued, assigned and started, in this order; and the states that
    allow no transition are the four terminal ones. *)
Theorem job_lifecycle ts s :
  transitions Pending ts = inr s →
  length ts ≤ 4 ∧
  (s = Completed ∨ s = Timeout → ts = [Queued; Assigned; Running; s]) ∧
  (is_terminal s = true ↔ ∀ t, ∃ e, transition s t = inl e).
Proof.
  intros H. split; [|split].
  - apply transitions_stage in H. destruct s; cbn in H; lia.
  - intros Hs. apply (transitions_to_end s ts Hs) in H as [[E _]|[-> _]]; [|done].
    by destruct Hs; subst.
  - split.
    + intros Ht t. destruct (transition s t) as [e|u] eqn:E; [eauto|].
      apply transition_step in E as [Hs%job_step_stage _]. destruct Hs. congruence.
    + intros Hn. destruct s; try done; exfalso; destruct (Hn Failed); done.
Qed.
Lemma job_lifecycle_witness :
  transitions Pending [Queued; Assigned; Running; Timeout] = inr Timeout ∧
  ∀ t, ∃ e, transition Timeout t = inl e.
Proof.
  split; [reflexivity|].
  exact (proj1 (proj2 (proj2 (job_lifecycle [Queued; Assigned; Running; Timeout] Timeout eq_refl)))
    eq_refl).
Defined.

Section executor_props.
Context `{P : Platform} `{Env : !WorkerEnv}.
Context (worker_id work_dir output_dir : string) (registry : HandlerRegistry).
Implicit Types (job : JobDocument) (s : wstate).

Notation execute := (execute worker_id work_dir output_dir registry).
Notation write_failure := (write_failure worker_id output_dir).
Notation write_success := (write_success worker_id output_dir).
Notation execute_with_handler := (execute_with_handler worker_id work_dir registry).
Notation run_loop := (run_loop worker_id work_dir output_dir registry).
Notation result_path := (result_path output_dir).

Lemma worker_bind_eq {A B} (m : worker A) (f : A → worker B) s :
  (m ≫= f) s = match m s with (s, inr a) => f a s | (s, inl e) => (s, inl e) end.
Proof. done. Qed.

(** equal but for result files and calls. *)
Record kept (s s' : wstate) : Prop := mk_kept {
  kp_cache : ws_cache s' = ws_cache s;
  kp_metrics : ws_metrics s' = ws_metrics s;
  kp_ran : ws_ran s' = ws_ran s;
  kp_cleaned : ws_cleaned s' = ws_cleaned s
}.
(** writing a result: it is there afterwards, or the write failed. *)
Lemma write_result_spec (r : JobResult) s s' x :
  write_result output_dir r s = (s', x) →
  kept s s' ∧
  (x = inr (result_path (jr_job_id r)) ∧
     ws_results s' = <[result_path (jr_job_id r) := r]> (ws_results s) ∨
   (∃ e, x = inl e) ∧ ((∃ n t, file_error n = Some t) ∨ ∃ t, result_json_error r = Some t)).
Proof.
  unfold write_result, fail. rewrite worker_bind_eq. unfold file_call at 1.
  destruct (file_error (ws_calls s)) eqn:E1.
  { intros H; injection H as <- <-. split; [done|]. right; split; eauto. }
  cbn beta iota zeta. destruct (result_json_error r) eqn:E2.
  { intros H; injection H as <- <-. split; [done|]. right; split; eauto. }
  rewrite worker_bind_eq. unfold file_call. destruct (file_error (ws_calls (count_w s))) eqn:E3.
  { intros H; injection H as <- <-. split; [done|]. right; split; eauto. }
  intros H; injection H as <- <-. split; [done|]. by left.
Qed.

Definition failure_of (job_id : string) (attempt : Z) (err : JobExecutionError) (r : JobResult) : Prop :=
  jr_job_id r = job_id ∧ jr_status r = StatusFailed ∧ jr_error r = Some err ∧
  es_attempt (jr_summary r) = attempt.
Lemma write_failure_spec job_id st att code msg ph rec s s' x :
  write_failure job_id st att code msg ph rec s = (s', x) →
  kept s s' ∧ ∃ r, failure_of job_id att (mk_JobExecutionError code msg ph rec rec) r ∧
  (x = inr (result_path job_id) ∧
     ws_results s' = <[result_path job_id := r]> (ws_results s) ∨
   (∃ e, x = inl e) ∧ ((∃ n t, file_error n = Some t) ∨ ∃ t, result_json_error r = Some t)).
Proof.
  unfold Worker.write_failure. rewrite !worker_bind_eq. unfold now.
  intros [[K1 K2 K3 K4] H]%write_result_spec. split; [by split|]. eexists. by split; [|exact H].
Qed.
Lemma write_success_spec job_id st att key out arts data s s' x :
  write_success job_id st att key out arts data s = (s', x) →
  kept s s' ∧ ∃ r, (jr_job_id r = job_id ∧ jr_status r = StatusCompleted ∧ jr_error r = None ∧
    es_attempt (jr_summary r) = att) ∧
  (x = inr (result_path job_id) ∧
     ws_results s' = <[result_path job_id := r]> (ws_results s) ∨
   (∃ e, x = inl e) ∧ ((∃ n t, file_error n = Some t) ∨ ∃ t, result_json_error r = Some t)).
Proof.
  unfold Worker.write_success. rewrite !worker_bind_eq. unfold now.
  intros [[K1 K2 K3 K4] H]%write_result_spec. split; [by split|]. eexists. by split; [|exact H].
Qed.

Definition hit job s : bool :=
  match job_key job with Some k => bool_decide (is_Some (ws_cache s !! k)) | None => false end.

(** the state after the job was counted. *)
Definition counted s : wstate :=
  mk_wstate _ (ws_cache s) (ws_results s)
    ((fun m => mk_metrics (mt_active_jobs m + 1) (mt_completions m) (mt_handlers m)) <$> ws_metrics s)
    (ws_ran s) (ws_cleaned s) (S (ws_calls s)).
Lemma execute_hit job s : hit job s = true → execute job s = (counted s, inr ()).
Proof.
  intros Hh. unfold Worker.execute. rewrite !worker_bind_eq. unfold now, inc_active_jobs, on_metrics.
  unfold hit in Hh. unfold cached. cbn [ws_cache count_w]. rewrite !worker_bind_eq. cbn.
  by rewrite Hh.
Qed.

(** what follows the bookkeeping of the start. *)
Definition after_start job (started_at : Z) : worker () :=
  match validate_job registry job with
  | Some e =>
      write_failure (jd_job_id job) started_at 1 "VALIDATION_ERROR" (fmt_WorkerError e)
        (Some "validation") false ;; fail e
  | None =>
      result ← execute_with_handler job (job_timeout job);
      match result with
      | Some (inr hr) =>
          duration ← elapsed started_at;
          record_job_completion (jd_operation job) "completed" duration ;;
          dec_active_jobs ;;
          path ← write_success (jd_job_id job) started_at (job_attempt job) (job_key job)
            (hr_output_file hr) (hr_artifacts hr)
            (if json_is_null (hr_data hr) then None else Some (hr_data hr));
          store (job_key job) path
      | Some (inl e) =>
          duration ← elapsed started_at;
          record_job_completion (jd_operation job) "failed" duration ;;
          dec_active_jobs ;;
          write_failure (jd_job_id job) started_at (job_attempt job) "EXECUTION_ERROR"
            (fmt_WorkerError e) (Some "execution") true ;; fail e
      | None =>
          record_job_completion (jd_operation job) "timeout" (f64_of_Z (job_timeout job)) ;;
          dec_active_jobs ;;
          write_failure (jd_job_id job) started_at (job_attempt job) "TIMEOUT"
            ("Job exceeded timeout of " +:+ fmt_debug_secs (job_timeout job)) (Some "execution") true ;;
          fail (TimeoutError (job_timeout job))
      end
  end.
(** the transitions of the state machine never fail. *)
Lemma execute_miss job s :
  hit job s = false → execute job s = after_start job (utc_now (ws_calls s)) (counted s).
Proof.
  intros Hh. unfold Worker.execute. rewrite worker_bind_eq. cbn beta iota delta [now].
  rewrite worker_bind_eq. cbn beta iota delta [inc_active_jobs on_metrics].
  rewrite worker_bind_eq. unfold cached. cbn beta iota. cbn [ws_cache count_w]. unfold hit in Hh.
  rewrite Hh. cbn beta iota.
  change (lift_w (transition Pending Queued)) with (mret Queued : worker JobState).
  rewrite worker_bind_eq. cbn beta iota delta [mret worker_ret]. unfold after_start.
  destruct (validate_job registry job); [done|].
  change (lift_w (transition Queued Assigned)) with (mret Assigned : worker JobState).
  rewrite worker_bind_eq. cbn beta iota delta [mret worker_ret].
  change (lift_w (transition Assigned Running)) with (mret Running : worker JobState).
  rewrite worker_bind_eq. cbn beta iota zeta delta [mret worker_ret].
  rewrite !worker_bind_eq.
  by destruct (Worker.execute_with_handler _ _ _ _ _ _) as [s1 [e|[[e|hr]|]]].
Qed.

Lemma validated_handler job :
  validate_job registry job = None → ∃ h, registry !! jd_operation job = Some h.
Proof.
  unfold validate_job, supports. destruct (validate job) eqn:Hv; [|done|].
  - case_bool_decide as Hs; [|done]. intros _. by destruct Hs as [h Hh]; exists h.
  - exfalso. unfold validate in Hv.
    repeat match type of Hv with
    | (_ ≫= _) = Panic => apply outcome_bind_Panic in Hv as [Hv|(? & _ & Hv)]
    end; revert Hv; unfold validate_version, validate_job_id, validate_kind, validate_operation,
      validate_payload, validate_execution_policy, validate_constraints; by repeat case_match.
Qed.

Definition active s : option Z := mt_active_jobs <$> ws_metrics s.
Definition write_broken : Prop :=
  (∃ n t, file_error n = Some t) ∨ ∃ (r : JobResult) t, result_json_error r = Some t.

(** the effect of a job that was not answered from the cache. *)
Record ran_to job (e : run_end) (s s' : wstate) (r : WorkerError + ()) : Prop := mk_ran_to {
  rn_ran : ws_ran s' = ws_ran s ++ [jd_job_id job];
  rn_active : active s' = active s;
  rn_end :
    match e with
    | Finished (inr hr) _ =>
        ws_cleaned s' = ws_cleaned s ++ [jd_job_id job] ∧
        ((∃ rep, jr_job_id rep = jd_job_id job ∧ jr_status rep = StatusCompleted ∧
            jr_error rep = None ∧ es_attempt (jr_summary rep) = job_attempt job ∧ r = inr () ∧
            ws_results s' = <[result_path (jd_job_id job) := rep]> (ws_results s) ∧
            ws_cache s' = match job_key job with
                          | Some k => <[k := result_path (jd_job_id job)]> (ws_cache s)
                          | None => ws_cache s end) ∨
         (∃ e', r = inl e') ∧ write_broken ∧ ws_cache s' = ws_cache s)
    | Finished (inl e) _ =>
        ws_cleaned s' = ws_cleaned s ++ [jd_job_id job] ∧ ws_cache s' = ws_cache s ∧
        ((∃ rep, failure_of (jd_job_id job) (job_attempt job)
            (mk_JobExecutionError "EXECUTION_ERROR" (fmt_WorkerError e) (Some "execution") true true) rep ∧
            r = inl e ∧ ws_results s' = <[result_path (jd_job_id job) := rep]> (ws_results s)) ∨
         (∃ e', r = inl e') ∧ write_broken)
    | TimedOut =>
        ws_cleaned s' = ws_cleaned s ∧ ws_cache s' = ws_cache s ∧
        ((∃ rep, failure_of (jd_job_id job) (job_attempt job)
            (mk_JobExecutionError "TIMEOUT"
               ("Job exceeded timeout of " +:+ fmt_debug_secs (job_timeout job))
               (Some "execution") true true) rep ∧
            r = inl (TimeoutError (job_timeout job)) ∧
            ws_results s' = <[result_path (jd_job_id job) := rep]> (ws_results s)) ∨
         (∃ e', r = inl e') ∧ write_broken)
    end
}.

(** the simple steps of the monad, computed. *)
Lemma bind_now {B} (f : Z → worker B) s : (now ≫= f) s = f (utc_now (ws_calls s)) (count_w s).
Proof. done. Qed.
Lemma bind_metrics {B} g (f : () → worker B) s :
  (on_metrics g ≫= f) s =
  f () (mk_wstate _ (ws_cache s) (ws_results s) (g <$> ws_metrics s) (ws_ran s) (ws_cleaned s) (ws_calls s)).
Proof. done. Qed.
Lemma bind_elapsed {B} t (f : f64 → worker B) s : ∃ d, (elapsed t ≫= f) s = f d (count_w s).
Proof. by eexists. Qed.

Lemma write_broken_intro (r : JobResult) :
  (∃ n t, file_error n = Some t) ∨ (∃ t, result_json_error r = Some t) → write_broken.
Proof. intros [H|[t H]]; [by left|right; eauto]. Qed.

Lemma failure_then job_id st att code msg ph rec e s s' (r : WorkerError + ()) :
  (write_failure job_id st att code msg ph rec ;; fail e) s = (s', r) →
  kept s s' ∧
  ((∃ rep, failure_of job_id att (mk_JobExecutionError code msg ph rec rec) rep ∧ r = inl e ∧
      ws_results s' = <[result_path job_id := rep]> (ws_results s)) ∨
   (∃ e', r = inl e') ∧ write_broken).
Proof.
  rewrite worker_bind_eq. destruct (write_failure _ _ _ _ _ _ _ _) as [s1 x] eqn:Hw.
  apply write_failure_spec in Hw as (K & rep & Hrep & [[-> Hres]|[[e' ->] Hb]]);
    intros Heq; injection Heq as <- <-; (split; [done|]).
  - left. by exists rep.
  - right. split; [eauto|by eapply write_broken_intro].
Qed.
Lemma success_then job_id st att key out arts data s s' (r : WorkerError + ()) :
  (path ← write_success job_id st att key out arts data; store key path) s = (s', r) →
  ws_metrics s' = ws_metrics s ∧ ws_ran s' = ws_ran s ∧ ws_cleaned s' = ws_cleaned s ∧
  ((∃ rep, jr_job_id rep = job_id ∧ jr_status rep = StatusCompleted ∧ jr_error rep = None ∧
      es_attempt (jr_summary rep) = att ∧ r = inr () ∧
      ws_results s' = <[result_path job_id := rep]> (ws_results s) ∧
      ws_cache s' = match key with
                    | Some k => <[k := result_path job_id]> (ws_cache s) | None => ws_cache s end) ∨
   (∃ e', r = inl e') ∧ write_broken ∧ ws_cache s' = ws_cache s).
Proof.
  rewrite worker_bind_eq. destruct (write_success _ _ _ _ _ _ _ _) as [s1 x] eqn:Hw.
  apply write_success_spec in Hw as ([K1 K2 K3 K4] & rep & Hrep & [[-> Hres]|[[e' ->] Hb]]);
    intros Heq; injection Heq as <- <-; cbn; (do 3 (split; [done|])).
  - left. exists rep. rewrite K1. naive_solver.
  - right. split; [eauto|]. split; [by eapply write_broken_intro|done].
Qed.

(** the gauge is back where it was. *)
Ltac gauge H := unfold active; rewrite H; cbn;
  match goal with |- context [ws_metrics ?s] => destruct (ws_metrics s) as [m|]; [cbn; f_equal; lia|done] end.

Lemma execute_runs job s s' r h :
  hit job s = false → validate_job registry job = None → registry !! jd_operation job = Some h →
  execute job s = (s', r) →
  ran_to job (oh_execute h (mk_HandlerContext (jd_job_id job) worker_id work_dir)
    (jd_payload job) (job_timeout job)) s s' r.
Proof.
  intros Hm Hv Hh. rewrite execute_miss by done. unfold after_start. rewrite Hv, worker_bind_eq.
  unfold Worker.execute_with_handler. rewrite Hh, worker_bind_eq.
  unfold Worker.ran at 1. cbn beta iota.
  unfold record_job_completion, record_handler_execution, dec_active_jobs.
  destruct (oh_execute _ _ _ _) as [[e|hr] dur|]; rewrite ?bind_metrics, ?worker_bind_eq;
    unfold cleaned; cbn beta iota delta [mret worker_ret]; try
    match goal with |- (elapsed ?t ≫= ?f) ?s0 = _ → _ => destruct (bind_elapsed t f s0) as [d ->] end;
    rewrite ?bind_metrics.
  - intros ([K1 K2 K3 K4] & Hx)%failure_then. cbn in *.
    split; [done|gauge K2|]. by rewrite K1, K4.
  - intros (K2 & K3 & K4 & Hx)%success_then. cbn in *.
    split; [done|gauge K2|]. by rewrite K4.
  - intros ([K1 K2 K3 K4] & Hx)%failure_then. cbn in *.
    split; [done|gauge K2|]. by rewrite K1, K4.
Qed.
Lemma execute_rejected job s s' r e :
  hit job s = false → validate_job registry job = Some e → execute job s = (s', r) →
  ws_cache s' = ws_cache s ∧ ws_ran s' = ws_ran s ∧ ws_cleaned s' = ws_cleaned s ∧
  active s' = Z.succ <$> active s ∧
  ((∃ rep, failure_of (jd_job_id job) 1
      (mk_JobExecutionError "VALIDATION_ERROR" (fmt_WorkerError e) (Some "validation") false false) rep ∧
      r = inl e ∧ ws_results s' = <[result_path (jd_job_id job) := rep]> (ws_results s)) ∨
   (∃ e', r = inl e') ∧ write_broken).
Proof.
  intros Hm Hv. rewrite execute_miss by done. unfold after_start. rewrite Hv.
  intros ([K1 K2 K3 K4] & Hx)%failure_then. cbn in *. do 3 (split; [done|]).
  split; [|done]. gauge K2.
Qed.
(** what a run ends with: the verdict, the status and the error code of the report,
    and the cleanups. *)
Definition ends_as (e : run_end) job s s' (r : WorkerError + ()) (rep : JobResult) : Prop :=
  match e with
  | Finished (inr _) _ =>
      r = inr () ∧ jr_status rep = StatusCompleted ∧ jr_error rep = None ∧
      ws_cleaned s' = ws_cleaned s ++ [jd_job_id job]
  | Finished (inl e) _ =>
      r = inl e ∧ jr_status rep = StatusFailed ∧ je_code <$> jr_error rep = Some "EXECUTION_ERROR" ∧
      ws_cleaned s' = ws_cleaned s ++ [jd_job_id job]
  | TimedOut =>
      r = inl (TimeoutError (job_timeout job)) ∧ jr_status rep = StatusFailed ∧
      je_code <$> jr_error rep = Some "TIMEOUT" ∧ ws_cleaned s' = ws_cleaned s
  end.

(** when files can be written, every job that is not answered from the
    idempotency cache leaves exactly one new report under its own name.  A job the
    validation rejects is reported as such and no handler runs; any other job runs its
    handler once, and the report, the answer and the cleanup follow the end of that
    run: only a run that times out is not cleaned up. *)
Theorem execute_reports job s s' r :
  (∀ n, file_error n = None) → (∀ rep : JobResult, result_json_error rep = None) →
  hit job s = false → execute job s = (s', r) →
  ∃ rep, ws_results s' = <[result_path (jd_job_id job) := rep]> (ws_results s) ∧
    jr_job_id rep = jd_job_id job ∧
    match validate_job registry job with
    | Some e =>
        r = inl e ∧ jr_status rep = StatusFailed ∧
        je_code <$> jr_error rep = Some "VALIDATION_ERROR" ∧
        ws_ran s' = ws_ran s ∧ ws_cleaned s' = ws_cleaned s
    | None => ∃ h, registry !! jd_operation job = Some h ∧
        ws_ran s' = ws_ran s ++ [jd_job_id job] ∧
        ends_as (oh_execute h (mk_HandlerContext (jd_job_id job) worker_id work_dir)
          (jd_payload job) (job_timeout job)) job s s' r rep
    end.
Proof.
  intros Hf Hj Hm He.
  assert (¬ write_broken) as Hw by (intros [(n & t & H)|(rep & t & H)]; naive_solver congruence).
  destruct (validate_job registry job) as [e|] eqn:Hv.
  - destruct (execute_rejected _ _ _ _ _ Hm Hv He) as (_ & ? & ? & _ & [(rep & Hr & -> & ?)|[_ ?]]);
      [|done]. destruct Hr as (? & ? & Herr & ?). exists rep. by rewrite Herr.
  - destruct (validated_handler job Hv) as [h Hh].
    destruct (execute_runs _ _ _ _ _ Hm Hv Hh He) as [Hran _ Hend].
    enough (∃ rep, ws_results s' = <[result_path (jd_job_id job) := rep]> (ws_results s) ∧
      jr_job_id rep = jd_job_id job ∧
      ends_as (oh_execute h (mk_HandlerContext (jd_job_id job) worker_id work_dir)
          (jd_payload job) (job_timeout job)) job s s' r rep) as (rep & ? & ? & ?)
      by (exists rep; do 2 (split; [done|]); by exists h). unfold ends_as.
    destruct (oh_execute _ _ _ _) as [[e|hr] d|].
    + destruct Hend as (? & _ & [(rep & (? & ? & Herr & ?) & ? & ?)|[_ ?]]); [|done].
      exists rep. by rewrite Herr.
    + destruct Hend as (? & [(rep & ? & ? & ? & ? & ? & ? & _)|(_ & ? & _)]); [|done].
      by exists rep.
    + destruct Hend as (? & _ & [(rep & (? & ? & Herr & ?) & ? & ?)|[_ ?]]); [|done].
      exists rep. by rewrite Herr.
Qed.

(** ** Idempotency *)
Lemma execute_cache job s s' r :
  execute job s = (s', r) →
  (∀ k, is_Some (ws_cache s !! k) → is_Some (ws_cache s' !! k)) ∧
  (r = inr () → ∀ k, job_key job = Some k → is_Some (ws_cache s' !! k)).
Proof.
  intros He. destruct (hit job s) eqn:Hm.
  { rewrite execute_hit in He by done. injection He as <- <-. split; [done|].
    intros _ k Hk. unfold hit in Hm. rewrite Hk in Hm. by apply bool_decide_eq_true in Hm. }
  destruct (validate_job registry job) as [e|] eqn:Hv.
  { destruct (execute_rejected _ _ _ _ _ Hm Hv He) as (-> & _ & _ & _ & Hr). split; [done|].
    by destruct Hr as [(? & _ & -> & _)|[[? ->] _]]. }
  destruct (validated_handler job Hv) as [h Hh].
  destruct (execute_runs _ _ _ _ _ Hm Hv Hh He) as [_ _ Hend].
  destruct (oh_execute _ _ _ _) as [[e|hr] d|].
  - destruct Hend as (_ & -> & Hr). split; [done|].
    by destruct Hr as [(? & _ & -> & _)|[[? ->] _]].
  - destruct Hend as (_ & [(rep & _ & _ & _ & _ & -> & _ & ->)|([? ->] & _ & ->)]); [|done].
    destruct (job_key job) as [k0|]; [|done]. split.
    + intros k Hk. destruct (decide (k0 = k)) as [->|]; [by rewrite lookup_insert_eq|].
      by rewrite lookup_insert_ne.
    + intros _ k [= <-]. by rewrite lookup_insert_eq.
  - destruct Hend as (_ & -> & Hr). split; [done|].
    by destruct Hr as [(? & _ & -> & _)|[[? ->] _]].
Qed.
Lemma run_loop_cache fs : ∀ s s' calls,
  run_loop fs s = (s', calls) → ∀ k, is_Some (ws_cache s !! k) → is_Some (ws_cache s' !! k).
Proof.
  induction fs as [|f fs IH]; intros s s' calls H k Hk; cbn in H; [by injection H as <- _|].
  destruct (Worker.turn _ _ _ _ _ _) as [s1 c1] eqn:Ht.
  destruct (Worker.run_loop _ _ _ _ _ _) as [s2 c2] eqn:Hl. injection H as <- _.
  apply (IH _ _ _ Hl). destruct f as [job| |]; cbn in Ht; [|by injection Ht as <- _..].
  destruct (Worker.execute _ _ _ _ _ _) as [s3 [e|[]]] eqn:He; injection Ht as <- _;
    by apply (proj1 (execute_cache _ _ _ _ He)).
Qed.

(** C11: at most one successful run per idempotency key.  Once a job with a key has
    been answered with success, then after any further work of the daemon every job
    with the same key, whatever its id, operation and payload, is answered with success
    without running a handler, without a report and without a change of the cache. *)
Theorem run_once job fs job' k s s1 s2 calls :
  job_key job = Some k → job_key job' = Some k →
  execute job s = (s1, inr ()) → run_loop fs s1 = (s2, calls) →
  ∃ s3, execute job' s2 = (s3, inr ()) ∧ ws_ran s3 = ws_ran s2 ∧
    ws_cleaned s3 = ws_cleaned s2 ∧ ws_results s3 = ws_results s2 ∧ ws_cache s3 = ws_cache s2.
Proof.
  intros Hk Hk' He Hl. exists (counted s2). split; [|done].
  apply execute_hit. unfold hit. rewrite Hk'. apply bool_decide_eq_true.
  eapply run_loop_cache; [done|]. by eapply (proj2 (execute_cache _ _ _ _ He)).
Qed.

(** the gauge of active jobs returns to its value after every job whose handler
    ran, also one that failed or timed out, and is left one too high by every job that
    is answered from the cache or rejected by the validation. *)
Theorem active_gauge job s s' r :
  execute job s = (s', r) →
  active s' = (if hit job s || bool_decide (is_Some (validate_job registry job))
               then Z.succ <$> active s else active s).
Proof.
  intros He. destruct (hit job s) eqn:Hm; cbn.
  { rewrite execute_hit in He by done. injection He as <- <-. unfold active, counted; cbn.
    by destruct (ws_metrics s). }
  destruct (validate_job registry job) as [e|] eqn:Hv; cbn.
  - by destruct (execute_rejected _ _ _ _ _ Hm Hv He) as (_ & _ & _ & ? & _).
  - destruct (validated_handler job Hv) as [h Hh].
    by destruct (execute_runs _ _ _ _ _ Hm Hv Hh He).
Qed.

(** ** The loop *)
Definition jobs_of (fs : list fetched) : list JobDocument :=
  omap (fun f => match f with FetchedJob j => Some j | _ => None end) fs.
(** C35: the daemon answers every fetched job exactly once, in the order of the
    fetches, and a job that is acknowledged with an idempotency key has its key in the
    cache from then on. *)
Theorem loop_answers fs : ∀ s s' calls,
  run_loop fs s = (s', calls) →
  Forall2 (fun job call =>
    call = Ack (jd_job_id job) ∧ (∀ k, job_key job = Some k → is_Some (ws_cache s' !! k)) ∨
    ∃ reason, call = Nack (jd_job_id job) reason) (jobs_of fs) calls.
Proof.
  induction fs as [|f fs IH]; intros s s' calls H; cbn in H; [by injection H as _ <-|].
  destruct (Worker.turn _ _ _ _ _ _) as [s1 c1] eqn:Ht.
  destruct (Worker.run_loop _ _ _ _ _ _) as [s2 c2] eqn:Hl. injection H as <- <-.
  specialize (IH _ _ _ Hl). destruct f as [job| |]; cbn in Ht; [|by injection Ht as <- <-..].
  destruct (Worker.execute _ _ _ _ _ _) as [s3 [e|[]]] eqn:He; injection Ht as <- <-;
    (constructor; [|exact IH]); [right; eauto|left; split; [done|]].
  intros k Hk. eapply run_loop_cache; [done|]. by eapply (proj2 (execute_cache _ _ _ _ He)).
Qed.
End executor_props.

(** ** A worker that runs *)
Section example.
#[local] Instance example_env : @WorkerEnv ascii_platform := {
  utc_now n := (Z.of_nat n * 1000000000)%Z;
  file_error _ := None;
  result_json_error _ := None;
  json_is_null _ := true
}.
(** inspects, or hangs on payloads of type [guestkit.slow.v1]. *)
Definition example_handler : @OperationHandler ascii_platform := {|
  oh_name := "inspect";
  oh_operations := ["guestkit.inspect"; "guestkit.profile"];
  oh_validate _ := None;
  oh_execute _ p _ := if bool_decide (py_payload_type p = "guestkit.slow.v1") then TimedOut
    else Finished (inr (mk_HandlerResult _ (Some "out.json") [] (tt : @json_value ascii_platform)))
           (f64_of_Z 1)
|}.
Definition example_registry : @HandlerRegistry ascii_platform := register ∅ example_handler.
Definition example_start : @wstate ascii_platform :=
  @mk_wstate ascii_platform ∅ ∅ (Some (mk_metrics 0 [] [])) [] [] 0.
Definition example_job (id kind : string) (key : option string) : @JobDocument ascii_platform :=
  @mk_JobDocument ascii_platform None PROTOCOL_VERSION id 0 "VMOperation" "guestkit.inspect" None
    (Some (mk_ExecutionPolicy key 1 3 60 None 5 true)) None None
    (@mk_Payload ascii_platform kind (tt : @json_value ascii_platform)) None None.
Notation first := (example_job "job-00000001" "guestkit.inspect.v1" (Some "once")).
Notation again := (example_job "job-00000002" "guestkit.inspect.v1" (Some "once")).
Notation slow := (example_job "job-00000003" "guestkit.slow.v1" None).
Notation exec := (@execute ascii_platform example_env "w" "/work" "/out" example_registry).
Notation loop := (@run_loop ascii_platform example_env "w" "/work" "/out" example_registry).

Notation later := (loop [FetchedJob slow; NoJob] (exec first example_start).1).

Lemma first_runs : (exec first example_start).2 = inr ().
Proof. vm_compute. reflexivity. Qed.
Lemma slow_misses : hit slow example_start = false.
Proof. reflexivity. Qed.
Lemma slow_valid : validate_job example_registry slow = None.
Proof. vm_compute. reflexivity. Qed.
Lemma slow_handler : example_registry !! "guestkit.inspect" = Some example_handler.
Proof. reflexivity. Qed.

Lemma execute_reports_witness :
  ∃ rep : @JobResult ascii_platform, je_code <$> jr_error rep = Some "TIMEOUT" ∧
    ws_results (exec slow example_start).1 = <["/out/job-00000003-result.json" := rep]> (∅ : gmap string (@JobResult ascii_platform)) ∧
    ws_cleaned (exec slow example_start).1 = [].
Proof.
  destruct (@execute_reports ascii_platform example_env "w" "/work" "/out" example_registry
    slow example_start _ _ (fun _ => eq_refl) (fun _ => eq_refl) slow_misses
    (surjective_pairing _)) as (rep & Hres & _ & H).
  rewrite slow_valid in H. destruct H as (h & Hh & _ & He).
  change (example_registry !! "guestkit.inspect" = Some h) in Hh. rewrite slow_handler in Hh.
  injection Hh as <-. destruct He as (_ & _ & Hc & Hl).
  exists rep. split; [exact Hc|]. split; [exact Hres|exact Hl].
Defined.
Lemma run_once_witness :
  ∃ s, exec again later.1 = (s, inr ()).
Proof.
  destruct (@run_once ascii_platform example_env "w" "/work" "/out" example_registry first
    [FetchedJob slow; NoJob] again "once" example_start (exec first example_start).1
    later.1 later.2 eq_refl eq_refl) as (s & H & _).
  - rewrite <- first_runs. apply surjective_pairing.
  - apply surjective_pairing.
  - exists s. exact H.
Defined.
Lemma active_gauge_witness :
  active (exec again (exec first example_start).1).1 = Some 1%Z ∧
  active (exec slow example_start).1 = Some 0%Z.
Proof.
  split.
  - rewrite (@active_gauge ascii_platform example_env "w" "/work" "/out" example_registry
      again (exec first example_start).1 _ _ (surjective_pairing _)).
    vm_compute. reflexivity.
  - rewrite (@active_gauge ascii_platform example_env "w" "/work" "/out" example_registry
      slow example_start _ _ (surjective_pairing _)).
    vm_compute. reflexivity.
Defined.
Lemma loop_answers_witness :
  ∃ calls, (loop [FetchedJob first; FetchedJob slow; NoJob; FetchedJob again] example_start).2 = calls ∧
    length calls = 3.
Proof.
  eexists. split; [reflexivity|].
  rewrite <- (Forall2_length _ _ _
    (@loop_answers ascii_platform example_env "w" "/work" "/out" example_registry
       [FetchedJob first; FetchedJob slow; NoJob; FetchedJob again] example_start _ _
       (surjective_pairing _))). reflexivity.
Defined.
(** a job id is joined to the directory unchecked: an absolute one leaves it. *)
Example absolute_id_escapes : result_path "/out" "/etc/cron.d/x" = "/etc/cron.d/x-result.json".
Proof. reflexivity. Qed.
End example.
