(* ===== verification/AgentRpc.v ===== *)
(** * The agent's remote procedures

    [crates/guestkit-agent-protocol/src/rpc.rs] and [capabilities.rs]: the methods of
    the in-guest agent with their names and aliases, which of them change the guest,
    requests and responses, and the capabilities the agent advertises.  The match on
    the method's name is a table that is searched in order. *)
From stdpp Require Import base gmap strings list.
From Stdlib Require Import ZArith Lia.
From S2P Require Import Prelude RustStr Frame.

(** ** Methods *)
Inductive RpcMethod : Set :=
  | Ping | GetVersion | GetCapabilities | GetEvidence | GetStatus | Doctor | MigrateScore
  | GetMetrics | GetFilesystem | Exec | EnableRdp | DisableRdp | RunFixPlan
  | RunFixPlanRollback | GetGuestHealth | GetSystemdUnits | GetFailedUnits
  | GetBootAnalysis | GetJournalSlice | GetLoginState | GetDnsState | GetTimedateState
  | GetSnapshotReadiness | FreezeFilesystem | ThawFilesystem | RestartUnit
  | ExecuteRemediationPlan | CollectSupportBundle | GetGuestInfo | GetSystemdUnit
  | GetSystemdEvents | GetProcesses | GetAgentHealth | SubscribeEvents | UnsubscribeEvents
  | GetCpuStats | GetMemoryStats | GetPerformanceSummary | GetPerformanceHistory
  | StartUnit | StopUnit | GetProcess | NetworkTest | NetworkConnections | SecurityPosture
  | StorageRescan | StorageTrim | StorageExpand | FileRead | FileWrite | FileStat
  | FileList | FileChecksum | SetTime | TimeSyncNow | Reboot | Shutdown | SnapshotPrepare
  | SnapshotComplete | ContainersInventory | InventoryCacheWrite | IntegrityBaseline
  | IntegrityCheck | PackagesInventory | PackagesUpdates | PackagesInstall
  | CertificatesInventory | UsersInventory | SetHostname | SetTimezone | SetDns
  | MigrationAssess | MigrationPlan | MigrationRepair | MigrationPreCheck
  | MigrationCutoverEnter | MigrationCutoverExit | MigrationValidate | BaselineCapture
  | BaselineDiff | NetpolicyApply | NetpolicyStatus | LsmApply | LsmStatus
  | Unknown (name : string).
#[export] Instance RpcMethod_eq_dec : EqDecision RpcMethod.
Proof. solve_decision. Defined.

(** the wire names. *)
Definition AGENT_PROTOCOL_VERSION : string := "1.3".
Definition METHOD_PING : string := "guestkit.ping".
Definition METHOD_GET_VERSION : string := "guestkit.getVersion".
Definition METHOD_GET_CAPABILITIES : string := "guestkit.getCapabilities".
Definition METHOD_GET_EVIDENCE : string := "guestkit.getEvidence".
Definition METHOD_DOCTOR : string := "guestkit.doctor".
Definition METHOD_MIGRATE_SCORE : string := "guestkit.migrateScore".
Definition METHOD_RUN_FIX_PLAN : string := "guestkit.runFixPlan".
Definition METHOD_RUN_FIX_PLAN_ROLLBACK : string := "guestkit.runFixPlanRollback".
Definition METHOD_GET_STATUS : string := "guestkit.getStatus".
Definition METHOD_GET_METRICS : string := "guestkit.getMetrics".
Definition METHOD_GET_FILESYSTEM : string := "guestkit.getFilesystem".
Definition METHOD_EXEC : string := "guestkit.exec".
Definition METHOD_ENABLE_RDP : string := "guestkit.enableRdp".
Definition METHOD_DISABLE_RDP : string := "guestkit.disableRdp".
Definition METHOD_GET_GUEST_HEALTH : string := "guestkit.getGuestHealth".
Definition METHOD_GET_SYSTEMD_UNITS : string := "guestkit.getSystemdUnits".
Definition METHOD_GET_FAILED_UNITS : string := "guestkit.getFailedUnits".
Definition METHOD_GET_BOOT_ANALYSIS : string := "guestkit.getBootAnalysis".
Definition METHOD_GET_JOURNAL_SLICE : string := "guestkit.getJournalSlice".
Definition METHOD_GET_LOGIN_STATE : string := "guestkit.getLoginState".
Definition METHOD_GET_DNS_STATE : string := "guestkit.getDnsState".
Definition METHOD_GET_TIMEDATE_STATE : string := "guestkit.getTimedateState".
Definition METHOD_GET_SNAPSHOT_READINESS : string := "guestkit.getSnapshotReadiness".
Definition METHOD_FREEZE_FILESYSTEM : string := "guestkit.freezeFilesystem".
Definition METHOD_THAW_FILESYSTEM : string := "guestkit.thawFilesystem".
Definition METHOD_RESTART_UNIT : string := "guestkit.restartUnit".
Definition METHOD_EXECUTE_REMEDIATION_PLAN : string := "guestkit.executeRemediationPlan".
Definition METHOD_COLLECT_SUPPORT_BUNDLE : string := "guestkit.collectSupportBundle".
Definition METHOD_GET_GUEST_INFO : string := "guestkit.getGuestInfo".
Definition METHOD_GET_SYSTEMD_UNIT : string := "guestkit.getSystemdUnit".
Definition METHOD_GET_SYSTEMD_EVENTS : string := "guestkit.getSystemdEvents".
Definition METHOD_GET_PROCESSES : string := "guestkit.getProcesses".
Definition METHOD_GET_AGENT_HEALTH : string := "guestkit.getAgentHealth".
Definition METHOD_SUBSCRIBE_EVENTS : string := "guestkit.subscribeEvents".
Definition METHOD_UNSUBSCRIBE_EVENTS : string := "guestkit.unsubscribeEvents".
Definition METHOD_GET_CPU_STATS : string := "guestkit.getCpuStats".
Definition METHOD_GET_MEMORY_STATS : string := "guestkit.getMemoryStats".
Definition METHOD_GET_PERFORMANCE_SUMMARY : string := "guestkit.getPerformanceSummary".
Definition METHOD_GET_PERFORMANCE_HISTORY : string := "guestkit.getPerformanceHistory".
Definition METHOD_START_UNIT : string := "guestkit.startUnit".
Definition METHOD_STOP_UNIT : string := "guestkit.stopUnit".
Definition METHOD_GET_PROCESS : string := "guestkit.getProcess".
Definition METHOD_NETWORK_TEST : string := "guestkit.networkTest".
Definition METHOD_NETWORK_CONNECTIONS : string := "guestkit.network.connections".
Definition METHOD_SECURITY_POSTURE : string := "guestkit.security.posture".
Definition METHOD_INTEGRITY_BASELINE : string := "guestkit.integrity.baseline".
Definition METHOD_INTEGRITY_CHECK : string := "guestkit.integrity.check".
Definition METHOD_STORAGE_RESCAN : string := "guestkit.storageRescan".
Definition METHOD_STORAGE_TRIM : string := "guestkit.storageTrim".
Definition METHOD_STORAGE_EXPAND : string := "guestkit.storageExpand".
Definition METHOD_FILE_READ : string := "guestkit.fileRead".
Definition METHOD_FILE_WRITE : string := "guestkit.fileWrite".
Definition METHOD_FILE_STAT : string := "guestkit.fileStat".
Definition METHOD_FILE_LIST : string := "guestkit.fileList".
Definition METHOD_FILE_CHECKSUM : string := "guestkit.fileChecksum".
Definition METHOD_SET_TIME : string := "guestkit.setTime".
Definition METHOD_TIME_SYNC_NOW : string := "guestkit.timeSyncNow".
Definition METHOD_REBOOT : string := "guestkit.reboot".
Definition METHOD_SHUTDOWN : string := "guestkit.shutdown".
Definition METHOD_SNAPSHOT_PREPARE : string := "guestkit.snapshot.prepare".
Definition METHOD_SNAPSHOT_COMPLETE : string := "guestkit.snapshot.complete".
Definition METHOD_CONTAINERS_INVENTORY : string := "guestkit.containers.inventory".
Definition METHOD_INVENTORY_CACHE_WRITE : string := "guestkit.inventory.cacheSnapshot".
Definition METHOD_PACKAGES_INVENTORY : string := "guestkit.packages.inventory".
Definition METHOD_PACKAGES_UPDATES : string := "guestkit.packages.updates".
Definition METHOD_PACKAGES_INSTALL : string := "guestkit.packages.install".
Definition METHOD_CERTIFICATES_INVENTORY : string := "guestkit.certificates.inventory".
Definition METHOD_USERS_INVENTORY : string := "guestkit.users.inventory".
Definition METHOD_SET_HOSTNAME : string := "guestkit.system.setHostname".
Definition METHOD_SET_TIMEZONE : string := "guestkit.system.setTimezone".
Definition METHOD_SET_DNS : string := "guestkit.system.setDns".
Definition METHOD_MIGRATION_ASSESS : string := "guestkit.migration.assess".
Definition METHOD_MIGRATION_PLAN : string := "guestkit.migration.plan".
Definition METHOD_MIGRATION_REPAIR : string := "guestkit.migration.repair".
Definition METHOD_MIGRATION_PRE_CHECK : string := "guestkit.migration.preCheck".
Definition METHOD_MIGRATION_CUTOVER_ENTER : string := "guestkit.migration.cutoverEnter".
Definition METHOD_MIGRATION_CUTOVER_EXIT : string := "guestkit.migration.cutoverExit".
Definition METHOD_MIGRATION_VALIDATE : string := "guestkit.migration.validate".
Definition METHOD_BASELINE_CAPTURE : string := "guestkit.baseline.capture".
Definition METHOD_BASELINE_DIFF : string := "guestkit.baseline.diff".
Definition METHOD_NETPOLICY_APPLY : string := "guestkit.netpolicy.apply".
Definition METHOD_NETPOLICY_STATUS : string := "guestkit.netpolicy.status".
Definition METHOD_LSM_APPLY : string := "guestkit.lsm.apply".
Definition METHOD_LSM_STATUS : string := "guestkit.lsm.status".

(** the arms of [RpcMethod::parse]. *)
Definition method_table : list (string * RpcMethod) := [
  (METHOD_PING, Ping); (METHOD_GET_VERSION, GetVersion);
  (METHOD_GET_CAPABILITIES, GetCapabilities); (METHOD_GET_EVIDENCE, GetEvidence);
  (METHOD_GET_STATUS, GetStatus); (METHOD_DOCTOR, Doctor);
  (METHOD_MIGRATE_SCORE, MigrateScore); (METHOD_GET_METRICS, GetMetrics);
  (METHOD_GET_FILESYSTEM, GetFilesystem); (METHOD_EXEC, Exec);
  (METHOD_ENABLE_RDP, EnableRdp); (METHOD_DISABLE_RDP, DisableRdp);
  (METHOD_RUN_FIX_PLAN, RunFixPlan); (METHOD_RUN_FIX_PLAN_ROLLBACK, RunFixPlanRollback);
  (METHOD_GET_GUEST_HEALTH, GetGuestHealth); (METHOD_GET_SYSTEMD_UNITS, GetSystemdUnits);
  (METHOD_GET_FAILED_UNITS, GetFailedUnits); (METHOD_GET_BOOT_ANALYSIS, GetBootAnalysis);
  (METHOD_GET_JOURNAL_SLICE, GetJournalSlice); (METHOD_GET_LOGIN_STATE, GetLoginState);
  (METHOD_GET_DNS_STATE, GetDnsState); (METHOD_GET_TIMEDATE_STATE, GetTimedateState);
  (METHOD_GET_SNAPSHOT_READINESS, GetSnapshotReadiness);
  (METHOD_FREEZE_FILESYSTEM, FreezeFilesystem); (METHOD_THAW_FILESYSTEM, ThawFilesystem);
  (METHOD_RESTART_UNIT, RestartUnit);
  (METHOD_EXECUTE_REMEDIATION_PLAN, ExecuteRemediationPlan);
  (METHOD_COLLECT_SUPPORT_BUNDLE, CollectSupportBundle);
  (METHOD_GET_GUEST_INFO, GetGuestInfo); (METHOD_GET_SYSTEMD_UNIT, GetSystemdUnit);
  (METHOD_GET_SYSTEMD_EVENTS, GetSystemdEvents); (METHOD_GET_PROCESSES, GetProcesses);
  (METHOD_GET_AGENT_HEALTH, GetAgentHealth); (METHOD_SUBSCRIBE_EVENTS, SubscribeEvents);
  (METHOD_UNSUBSCRIBE_EVENTS, UnsubscribeEvents); (METHOD_GET_CPU_STATS, GetCpuStats);
  (METHOD_GET_MEMORY_STATS, GetMemoryStats);
  (METHOD_GET_PERFORMANCE_SUMMARY, GetPerformanceSummary);
  (METHOD_GET_PERFORMANCE_HISTORY, GetPerformanceHistory); (METHOD_START_UNIT, StartUnit);
  (METHOD_STOP_UNIT, StopUnit); (METHOD_GET_PROCESS, GetProcess);
  (METHOD_NETWORK_TEST, NetworkTest); (METHOD_NETWORK_CONNECTIONS, NetworkConnections);
  (METHOD_SECURITY_POSTURE, SecurityPosture); (METHOD_STORAGE_RESCAN, StorageRescan);
  (METHOD_STORAGE_TRIM, StorageTrim); (METHOD_STORAGE_EXPAND, StorageExpand);
  (METHOD_FILE_READ, FileRead); (METHOD_FILE_WRITE, FileWrite);
  (METHOD_FILE_STAT, FileStat); (METHOD_FILE_LIST, FileList);
  (METHOD_FILE_CHECKSUM, FileChecksum); (METHOD_SET_TIME, SetTime);
  (METHOD_TIME_SYNC_NOW, TimeSyncNow); (METHOD_REBOOT, Reboot);
  (METHOD_SHUTDOWN, Shutdown); (METHOD_SNAPSHOT_PREPARE, SnapshotPrepare);
  (METHOD_SNAPSHOT_COMPLETE, SnapshotComplete);
  (METHOD_CONTAINERS_INVENTORY, ContainersInventory);
  (METHOD_INTEGRITY_BASELINE, IntegrityBaseline); (METHOD_INTEGRITY_CHECK, IntegrityCheck);
  (METHOD_INVENTORY_CACHE_WRITE, InventoryCacheWrite);
  (METHOD_PACKAGES_INVENTORY, PackagesInventory);
  (METHOD_PACKAGES_UPDATES, PackagesUpdates); (METHOD_PACKAGES_INSTALL, PackagesInstall);
  (METHOD_CERTIFICATES_INVENTORY, CertificatesInventory);
  (METHOD_USERS_INVENTORY, UsersInventory); (METHOD_SET_HOSTNAME, SetHostname);
  (METHOD_SET_TIMEZONE, SetTimezone); (METHOD_SET_DNS, SetDns);
  (METHOD_MIGRATION_ASSESS, MigrationAssess); (METHOD_MIGRATION_PLAN, MigrationPlan);
  (METHOD_MIGRATION_REPAIR, MigrationRepair);
  (METHOD_MIGRATION_PRE_CHECK, MigrationPreCheck);
  (METHOD_MIGRATION_CUTOVER_ENTER, MigrationCutoverEnter);
  (METHOD_MIGRATION_CUTOVER_EXIT, MigrationCutoverExit);
  (METHOD_MIGRATION_VALIDATE, MigrationValidate);
  (METHOD_BASELINE_CAPTURE, BaselineCapture); (METHOD_BASELINE_DIFF, BaselineDiff);
  (METHOD_NETPOLICY_APPLY, NetpolicyApply); (METHOD_NETPOLICY_STATUS, NetpolicyStatus);
  (METHOD_LSM_APPLY, LsmApply); (METHOD_LSM_STATUS, LsmStatus)].
(** the arms of [parse_alias]. *)
Definition alias_table : list (string * RpcMethod) := [
  ("agent.ping", Ping); ("agent.info", GetVersion);
  ("agent.capabilities", GetCapabilities); ("agent.health", GetAgentHealth);
  ("inventory.os", GetEvidence); ("inventory.full", GetEvidence);
  ("cpu.stats", GetCpuStats); ("memory.stats", GetMemoryStats);
  ("performance.summary", GetPerformanceSummary);
  ("performance.history", GetPerformanceHistory); ("process.list", GetProcesses);
  ("process.inspect", GetProcess); ("service.list", GetSystemdUnits);
  ("service.inspect", GetSystemdUnit); ("service.start", StartUnit);
  ("service.stop", StopUnit); ("service.restart", RestartUnit);
  ("network.test", NetworkTest); ("network.connections", NetworkConnections);
  ("network.listeners", NetworkConnections); ("security.posture", SecurityPosture);
  ("containers.inventory", ContainersInventory); ("containers.list", ContainersInventory);
  ("integrity.baseline", IntegrityBaseline);
  ("security.integrity.baseline", IntegrityBaseline); ("integrity.check", IntegrityCheck);
  ("security.integrity.check", IntegrityCheck); ("inventory.cache", InventoryCacheWrite);
  ("packages.inventory", PackagesInventory); ("packages.list", PackagesInventory);
  ("packages.updates", PackagesUpdates); ("packages.install", PackagesInstall);
  ("certificates.inventory", CertificatesInventory);
  ("certificates.list", CertificatesInventory); ("users.inventory", UsersInventory);
  ("users.list", UsersInventory); ("customization.hostname", SetHostname);
  ("customization.timezone", SetTimezone); ("customization.dns", SetDns);
  ("storage.rescan", StorageRescan); ("storage.trim", StorageTrim);
  ("storage.expand", StorageExpand); ("file.read", FileRead); ("file.write", FileWrite);
  ("file.stat", FileStat); ("file.list", FileList); ("file.checksum", FileChecksum);
  ("system.time.set", SetTime); ("system.time.sync", TimeSyncNow);
  ("system.reboot", Reboot); ("system.shutdown", Shutdown);
  ("snapshot.prepare", SnapshotPrepare); ("snapshot.preflight", SnapshotPrepare);
  ("snapshot.complete", SnapshotComplete); ("snapshot.freeze", FreezeFilesystem);
  ("snapshot.thaw", ThawFilesystem); ("migration.assess", MigrationAssess);
  ("migration.plan", MigrationPlan); ("migration.validate", MigrationValidate);
  ("support.collect", CollectSupportBundle); ("netpolicy.apply", NetpolicyApply);
  ("netpolicy.status", NetpolicyStatus); ("lsm.apply", LsmApply); ("lsm.status", LsmStatus)].
Fixpoint find_method (name : string) (t : list (string * RpcMethod)) : option RpcMethod :=
  match t with
  | [] => None
  | (n, m) :: t => if String.eqb name n then Some m else find_method name t
  end.
Definition parse_alias (name : string) : RpcMethod :=
  default (Unknown name) (find_method name alias_table).
Definition RpcMethod_parse (name : string) : RpcMethod :=
  match find_method name method_table with Some m => m | None => parse_alias name end.

Definition is_mutating (m : RpcMethod) : bool :=
  match m with
  | Exec | EnableRdp | DisableRdp | RunFixPlan | RunFixPlanRollback | FreezeFilesystem
  | ThawFilesystem | RestartUnit | ExecuteRemediationPlan | StartUnit | StopUnit
  | StorageRescan | StorageTrim | StorageExpand | FileWrite | SetTime | TimeSyncNow
  | Reboot | Shutdown | MigrationRepair | SnapshotPrepare | SnapshotComplete
  | PackagesInstall | SetHostname | SetTimezone | SetDns | InventoryCacheWrite
  | IntegrityBaseline | MigrationCutoverEnter | MigrationCutoverExit | SubscribeEvents
  | UnsubscribeEvents | NetpolicyApply | LsmApply => true
  | _ => false
  end.

(** ** Requests and responses *)
Record JsonRpcRequest `{Platform} : Type := mk_JsonRpcRequest {
  rq_jsonrpc : string;
  rq_method : string;
  rq_params : json_value;
  rq_id : option json_value;
  rq_ts : option string;
  rq_ttl_ms : option Z;
  rq_nonce : option string;
  rq_idempotency_key : option string
}.
Record JsonRpcErrorObject `{Platform} : Type := mk_JsonRpcErrorObject {
  eo_code : Z;
  eo_message : string;
  eo_data : option json_value
}.
Record JsonRpcResponse `{Platform} : Type := mk_JsonRpcResponse {
  rp_jsonrpc : string;
  rp_result : option json_value;
  rp_error : option JsonRpcErrorObject;
  rp_id : option json_value
}.

Section rpc.
Context `{P : Platform}.

Definition success (id : option json_value) (result : json_value) : JsonRpcResponse :=
  mk_JsonRpcResponse _ "2.0" (Some result) None id.
Definition error (id : option json_value) (code : RpcErrorCode) (message : string)
    : JsonRpcResponse :=
  mk_JsonRpcResponse _ "2.0" None (Some (mk_JsonRpcErrorObject _ (as_i32 code) message None)) id.
(** [AgentError::message]; the text of an I/O error is the argument. *)
Definition message (io_text : io_kind → string) (e : AgentError) : string :=
  match e with
  | AeParse m => "JSON parse error: " +:+ m
  | AeInvalidRequest m => "invalid request: " +:+ m
  | AeMethodNotFound m => "method not found: " +:+ m
  | AeInvalidParams m => "invalid params: " +:+ m
  | AeInternal m => "internal error: " +:+ m
  | AeNotImplemented m => "not implemented: " +:+ m
  | AeCapabilityDenied m => "capability denied: " +:+ m
  | AeRequestExpired m => "request expired: " +:+ m
  | AeReplayDetected m => "replay detected: " +:+ m
  | AePolicyDenied m => "policy denied: " +:+ m
  | AeIo k => "I/O error: " +:+ io_text k
  end.
Definition from_agent_error (io_text : io_kind → string) (id : option json_value)
    (err : AgentError) : JsonRpcResponse :=
  error id (rpc_code err) (message io_text err).
Definition validate_request (r : JsonRpcRequest) : option AgentError :=
  if negb (String.eqb (rq_jsonrpc r) "2.0") then
    Some (AeInvalidRequest ("unsupported jsonrpc version: " +:+ rq_jsonrpc r))
  else if is_empty (rq_method r) then Some (AeInvalidRequest "missing method")
  else None.
End rpc.

(** ** Capabilities *)
Record AgentCapabilities : Type := mk_AgentCapabilities {
  ac_protocol_version : string;
  ac_agent_version : string;
  ac_platform : string;
  ac_methods : list string;
  ac_fix_apply : bool;
  ac_windows : bool;
  ac_events : bool;
  ac_categories : list string
}.
(** [os] is the target operating system of the build. *)
Definition standard_methods : list string := [
  METHOD_PING; METHOD_GET_VERSION; METHOD_GET_CAPABILITIES; METHOD_GET_EVIDENCE;
  METHOD_GET_STATUS; METHOD_DOCTOR; METHOD_MIGRATE_SCORE; METHOD_GET_METRICS;
  METHOD_GET_FILESYSTEM; METHOD_EXEC; METHOD_ENABLE_RDP; METHOD_DISABLE_RDP;
  METHOD_GET_GUEST_HEALTH; METHOD_GET_SYSTEMD_UNITS; METHOD_GET_FAILED_UNITS;
  METHOD_GET_BOOT_ANALYSIS; METHOD_GET_JOURNAL_SLICE; METHOD_GET_LOGIN_STATE;
  METHOD_GET_DNS_STATE; METHOD_GET_TIMEDATE_STATE; METHOD_GET_SNAPSHOT_READINESS;
  METHOD_FREEZE_FILESYSTEM; METHOD_THAW_FILESYSTEM; METHOD_RESTART_UNIT;
  METHOD_EXECUTE_REMEDIATION_PLAN; METHOD_COLLECT_SUPPORT_BUNDLE; METHOD_GET_GUEST_INFO;
  METHOD_GET_SYSTEMD_UNIT; METHOD_GET_SYSTEMD_EVENTS; METHOD_GET_PROCESSES;
  METHOD_RUN_FIX_PLAN; METHOD_RUN_FIX_PLAN_ROLLBACK; METHOD_GET_AGENT_HEALTH;
  METHOD_SUBSCRIBE_EVENTS; METHOD_UNSUBSCRIBE_EVENTS; METHOD_GET_CPU_STATS;
  METHOD_GET_MEMORY_STATS; METHOD_GET_PERFORMANCE_SUMMARY; METHOD_GET_PERFORMANCE_HISTORY;
  METHOD_START_UNIT; METHOD_STOP_UNIT; METHOD_GET_PROCESS; METHOD_NETWORK_TEST;
  METHOD_NETWORK_CONNECTIONS; METHOD_SECURITY_POSTURE; METHOD_TIME_SYNC_NOW; METHOD_REBOOT;
  METHOD_SHUTDOWN; METHOD_MIGRATION_ASSESS; METHOD_MIGRATION_PLAN; METHOD_MIGRATION_REPAIR;
  METHOD_MIGRATION_PRE_CHECK; METHOD_MIGRATION_CUTOVER_ENTER;
  METHOD_MIGRATION_CUTOVER_EXIT; METHOD_MIGRATION_VALIDATE; METHOD_BASELINE_CAPTURE;
  METHOD_BASELINE_DIFF; METHOD_PACKAGES_INVENTORY; METHOD_PACKAGES_UPDATES;
  METHOD_PACKAGES_INSTALL; METHOD_CERTIFICATES_INVENTORY; METHOD_USERS_INVENTORY;
  METHOD_SET_HOSTNAME; METHOD_SET_TIMEZONE; METHOD_SET_DNS; METHOD_CONTAINERS_INVENTORY;
  METHOD_INVENTORY_CACHE_WRITE; METHOD_INTEGRITY_BASELINE; METHOD_INTEGRITY_CHECK;
  METHOD_FILE_READ; METHOD_FILE_WRITE; METHOD_FILE_STAT; METHOD_FILE_LIST;
  METHOD_FILE_CHECKSUM; METHOD_SNAPSHOT_PREPARE; METHOD_SNAPSHOT_COMPLETE;
  METHOD_STORAGE_RESCAN; METHOD_STORAGE_TRIM; METHOD_STORAGE_EXPAND;
  METHOD_NETPOLICY_APPLY; METHOD_NETPOLICY_STATUS; METHOD_LSM_APPLY; METHOD_LSM_STATUS].
Definition standard (os agent_version : string) : AgentCapabilities :=
  mk_AgentCapabilities AGENT_PROTOCOL_VERSION agent_version os standard_methods true
    (String.eqb os "windows") true [].
