(* ===== verification/AgentPolicy.v ===== *)
(** * The agent's local policy

    [src/agent/policy.rs]: what the administrator of a guest lets the agent do.  The
    [serde_yaml] parser is the argument [from_yaml] and the patterns of the [glob] crate
    are [glob_new]; the environment variable and the files that [load] looks at are the
    fields of [policy_source]. *)
From stdpp Require Import base gmap strings list.
From Stdlib Require Import ZArith Lia.
From S2P Require Import Prelude RustStr Frame AgentRpc.

Record FileOpsPolicy : Type := mk_FileOpsPolicy {
  fo_enabled : bool;
  fo_allowed_paths : list string;
  fo_max_bytes : Z
}.
Record StorageOpsPolicy : Type := mk_StorageOpsPolicy {
  so_rescan : bool;
  so_trim : bool;
  so_expand : bool
}.
Record PackagePolicy : Type := mk_PackagePolicy {
  pk_inventory : bool;
  pk_updates : bool;
  pk_install : bool
}.
Record CapabilityToggles : Type := mk_CapabilityToggles {
  ct_inventory : bool;
  ct_telemetry : bool;
  ct_events : bool;
  ct_network_test : bool;
  ct_file_ops : FileOpsPolicy;
  ct_storage_ops : StorageOpsPolicy;
  ct_packages : PackagePolicy;
  ct_certificates : bool;
  ct_users : bool;
  ct_integrity : bool;
  ct_ebpf : bool
}.
Record MethodPolicy : Type := mk_MethodPolicy {
  mp_allow : list string;
  mp_deny : list string
}.
Record SecurityPolicy : Type := mk_SecurityPolicy {
  sp_require_request_expiry : bool;
  sp_max_ttl_ms : Z;
  sp_nonce_cache_size : Z
}.
Record RestartUnitPolicy : Type := mk_RestartUnitPolicy {
  ru_enabled : bool;
  ru_allowed_units : list string;
  ru_require_approval : bool
}.
Record ShellPolicy : Type := mk_ShellPolicy { sh_enabled : bool }.
Record ApprovalPolicy : Type := mk_ApprovalPolicy { ap_require_approval : bool }.
Record SelfUpdatePolicy : Type := mk_SelfUpdatePolicy {
  su_enabled : bool;
  su_auto_apply : bool
}.
Record MigrationPolicy : Type := mk_MigrationPolicy {
  mg_assess : bool;
  mg_repair : bool;
  mg_repair_destructive : bool
}.
Record CustomizationPolicy : Type := mk_CustomizationPolicy { cu_enabled : bool }.
Record PolicyActions : Type := mk_PolicyActions {
  pa_restart_unit : RestartUnitPolicy;
  pa_run_shell_command : ShellPolicy;
  pa_reboot_vm : ApprovalPolicy;
  pa_self_update : SelfUpdatePolicy;
  pa_migration : MigrationPolicy;
  pa_customization : CustomizationPolicy
}.
Record AgentPolicy : Type := mk_AgentPolicy {
  po_actions : PolicyActions;
  po_capabilities : CapabilityToggles;
  po_methods : MethodPolicy;
  po_security : SecurityPolicy
}.

(** ** Defaults *)
Definition default_FileOpsPolicy : FileOpsPolicy := mk_FileOpsPolicy false [] 0.
Definition default_StorageOpsPolicy : StorageOpsPolicy := mk_StorageOpsPolicy true true false.
Definition default_PackagePolicy : PackagePolicy := mk_PackagePolicy true true false.
Definition default_CapabilityToggles : CapabilityToggles :=
  mk_CapabilityToggles true true true true default_FileOpsPolicy default_StorageOpsPolicy
    default_PackagePolicy true true true false.
Definition default_MethodPolicy : MethodPolicy := mk_MethodPolicy [] [].
Definition default_SecurityPolicy : SecurityPolicy := mk_SecurityPolicy false 300000 4096.
Definition default_MigrationPolicy : MigrationPolicy := mk_MigrationPolicy true false false.
Definition default_PolicyActions : PolicyActions :=
  mk_PolicyActions (mk_RestartUnitPolicy false [] false) (mk_ShellPolicy false)
    (mk_ApprovalPolicy false) (mk_SelfUpdatePolicy false false) default_MigrationPolicy
    (mk_CustomizationPolicy false).
Definition default_AgentPolicy : AgentPolicy :=
  mk_AgentPolicy default_PolicyActions default_CapabilityToggles default_MethodPolicy
    default_SecurityPolicy.
Definition default_permissive_dev : AgentPolicy :=
  mk_AgentPolicy
    (mk_PolicyActions (mk_RestartUnitPolicy true [] false) (mk_ShellPolicy false)
       (mk_ApprovalPolicy true) (mk_SelfUpdatePolicy false false) default_MigrationPolicy
       (mk_CustomizationPolicy false))
    default_CapabilityToggles default_MethodPolicy default_SecurityPolicy.

(** ** Loading *)
Definition DEFAULT_POLICY_PATH : string := "/etc/zyvor/agent-policy.yaml".
Definition GUESTKIT_POLICY_PATH : string := "/etc/guestkit/agent-policy.yaml".

(** [ZYVOR_AGENT_POLICY], and the files: whether a path exists and its text when it can
    be read. *)
Record policy_source : Type := mk_policy_source {
  ps_variable : option string;
  ps_exists : string → bool;
  ps_read : string → option string
}.

Section policy.
Context (from_yaml : string → option AgentPolicy).
Context (glob_new : string → option (string → bool)).
Implicit Types (p : AgentPolicy).

Definition load (src : policy_source) : AgentPolicy :=
  let path :=
    match ps_variable src with
    | Some v => v
    | None => if ps_exists src GUESTKIT_POLICY_PATH then GUESTKIT_POLICY_PATH
              else DEFAULT_POLICY_PATH
    end in
  if ps_exists src path then default default_AgentPolicy (ps_read src path ≫= from_yaml)
  else default_permissive_dev.

(** ** Queries *)
Definition can_auto_apply_update p : bool :=
  su_enabled (pa_self_update (po_actions p)) && su_auto_apply (pa_self_update (po_actions p)).
Definition can_restart_unit p (unit : string) : bool :=
  let r := pa_restart_unit (po_actions p) in
  if negb (ru_enabled r) then false
  else match ru_allowed_units r with
       | [] => true
       | units => bool_decide (unit ∈ (list_to_set units : gset string))
       end.
Definition shell_enabled p : bool := sh_enabled (pa_run_shell_command (po_actions p)).

Definition glob_match (patterns : list string) (name : string) : bool :=
  existsb (fun q => match glob_new q with Some matches => matches name | None => false end)
    patterns.

(** ** Authorization *)
Definition denied (what : string) : option AgentError :=
  Some (AePolicyDenied (what +:+ " disabled by local policy")).
(** an arm with a guard falls through to the last arm, [_ => Ok(())]. *)
Definition guard_arm (on : bool) (what : string) : option AgentError :=
  if on then None else denied what.
Definition authorize p (method : RpcMethod) (wire_name : string) : option AgentError :=
  let caps := po_capabilities p in
  let acts := po_actions p in
  if glob_match (mp_deny (po_methods p)) wire_name then denied wire_name
  else if match mp_allow (po_methods p) with [] => false | _ => true end
          && negb (glob_match (mp_allow (po_methods p)) wire_name) then denied wire_name
  else
    match method with
    | GetEvidence | GetGuestInfo | GetStatus | GetFilesystem | GetProcesses | GetProcess
    | GetSystemdUnits | GetSystemdUnit | GetFailedUnits | GetSystemdEvents =>
        guard_arm (ct_inventory caps) "inventory"
    | GetMetrics | GetCpuStats | GetMemoryStats | GetPerformanceSummary
    | GetPerformanceHistory => guard_arm (ct_telemetry caps) "telemetry"
    | SubscribeEvents => guard_arm (ct_events caps) "events"
    | NetworkTest => guard_arm (ct_network_test caps) "network_test"
    | NetworkConnections | SecurityPosture => guard_arm (ct_inventory caps) "inventory"
    | FileRead | FileWrite | FileStat | FileList | FileChecksum =>
        guard_arm (fo_enabled (ct_file_ops caps)) "file_ops"
    | StorageRescan => guard_arm (so_rescan (ct_storage_ops caps)) "storage rescan"
    | StorageTrim => guard_arm (so_trim (ct_storage_ops caps)) "storage trim"
    | StorageExpand => guard_arm (so_expand (ct_storage_ops caps)) "storage expand"
    | StartUnit | StopUnit | RestartUnit =>
        guard_arm (ru_enabled (pa_restart_unit acts)) "service control"
    | MigrationAssess | MigrationPlan | MigrationPreCheck | MigrationValidate
    | BaselineCapture | BaselineDiff =>
        guard_arm (mg_assess (pa_migration acts)) "migration assessment"
    | MigrationRepair => guard_arm (mg_repair (pa_migration acts)) "migration repair"
    | PackagesInventory => guard_arm (pk_inventory (ct_packages caps)) "package inventory"
    | PackagesUpdates => guard_arm (pk_updates (ct_packages caps)) "package updates"
    | PackagesInstall => guard_arm (pk_install (ct_packages caps)) "package install"
    | CertificatesInventory => guard_arm (ct_certificates caps) "certificate inventory"
    | UsersInventory => guard_arm (ct_users caps) "user inventory"
    | ContainersInventory | InventoryCacheWrite => guard_arm (ct_inventory caps) "inventory"
    | IntegrityBaseline | IntegrityCheck =>
        guard_arm (ct_integrity caps) "integrity monitoring"
    | SetHostname | SetTimezone | SetDns =>
        guard_arm (cu_enabled (pa_customization acts)) "customization"
    | NetpolicyApply | NetpolicyStatus | LsmApply | LsmStatus =>
        guard_arm (ct_ebpf caps) "ebpf"
    | _ => None
    end.

Definition category_flags p : list (bool * string) :=
  let caps := po_capabilities p in
  let acts := po_actions p in
  [(ct_inventory caps, "inventory"); (ct_telemetry caps, "telemetry");
   (ct_events caps, "events"); (ct_network_test caps, "network_test");
   (fo_enabled (ct_file_ops caps), "file_ops");
   (so_rescan (ct_storage_ops caps) || so_trim (ct_storage_ops caps), "storage_ops");
   (ru_enabled (pa_restart_unit acts), "service_control");
   (sh_enabled (pa_run_shell_command acts), "shell");
   (mg_assess (pa_migration acts), "migration");
   (mg_repair (pa_migration acts), "migration_repair");
   (pk_inventory (ct_packages caps) || pk_updates (ct_packages caps), "packages");
   (pk_install (ct_packages caps), "packages_install");
   (ct_certificates caps, "certificates"); (ct_users caps, "users");
   (ct_integrity caps, "integrity"); (cu_enabled (pa_customization acts), "customization");
   (ct_ebpf caps, "ebpf")].
Definition enabled_categories p : list string :=
  omap (fun '(on, name) => if on : bool then Some name else None) (category_flags p).
End policy.
