(* ===== verification/AgentHandler.v ===== *)
(** * The agent's security choke point

    [src/agent/handler.rs] from the bytes of a request to the dispatched operation, with
    the replay cache of [src/agent/state.rs], the audit line of [src/agent/audit.rs] and
    the policy checks of the handlers that have one (with those of
    [src/agent/executor.rs]).

    The operations behind the dispatch act on the guest: they are [perform], which
    answers with a result or an error, and the state records that one was reached
    ([as_performed]).  Clocks, the policy files, the time parser of [chrono] and the JSON
    parser are the other fields of [AgentEnv]; each call reads the next moment.  All
    entries of the response cache are compared with one reading of the clock. *)
From stdpp Require Import base gmap strings list.
From Stdlib Require Import ZArith Lia.
From S2P Require Import Prelude RustStr Frame AgentRpc AgentPolicy.

(** [IDEMPOTENCY_TTL], in nanoseconds. *)
Definition IDEMPOTENCY_TTL : Z := (600 * 1000000000)%Z.

Record ReplayCache `{Platform} : Type := mk_ReplayCache {
  rc_nonce_order : list string;
  rc_nonces : gset string;
  rc_idempotent : gmap string (Z * JsonRpcResponse)
}.
Record agent_state `{Platform} : Type := mk_agent_state {
  as_replay : ReplayCache;
  as_audit : list string;
  as_performed : list (RpcMethod * json_value);
  as_calls : nat
}.

Class AgentEnv `{Platform} := {
  (** what the [n]-th call sees *)
  policy_files : nat → policy_source;
  utc_nanos : nat → Z;
  instant : nat → Z;
  perform : nat → RpcMethod → json_value → (RpcErrorCode * string) + json_value;
  (** other crates *)
  from_yaml : string → option AgentPolicy;
  glob_new : string → option (string → bool);
  utc_rfc3339 : Z → string;
  parse_ts : string → string + Z;
  (** [t + Duration::milliseconds(ms)]; [None]: out of range, which panics *)
  add_millis : Z → Z → option Z;
  request_from_slice : string → string + JsonRpcRequest;
  value_get : json_value → string → option json_value;
  value_as_bool : json_value → option bool;
  value_as_str : json_value → option string;
  io_text : io_kind → string
}.

Definition agent `{Platform} (A : Type) : Type := agent_state → agent_state * outcome Empty_set A.
#[export] Instance agent_ret `{Platform} : MRet agent := fun A a s => (s, Ok a).
#[export] Instance agent_bind `{Platform} : MBind agent := fun A B f m s =>
  match m s with
  | (s, Ok a) => f a s
  | (s, Err e) => (s, Err e)
  | (s, Panic) => (s, Panic)
  end.

Section handler.
Context `{P : Platform} `{Env : !AgentEnv}.
Implicit Types (s : agent_state) (c : ReplayCache) (req : JsonRpcRequest).

Definition crash {A} : agent A := fun s => (s, Panic).
Definition tick s : agent_state :=
  mk_agent_state _ (as_replay s) (as_audit s) (as_performed s) (S (as_calls s)).
(** a reading of the [n]-th moment. *)
Definition observe {A} (f : nat → A) : agent A := fun s => (tick s, Ok (f (as_calls s))).
Definition load_policy : agent AgentPolicy := observe (fun n => load from_yaml (policy_files n)).
Definition on_replay {A} (f : ReplayCache → ReplayCache * A) : agent A := fun s =>
  let '(c, a) := f (as_replay s) in
  (mk_agent_state _ c (as_audit s) (as_performed s) (as_calls s), Ok a).

(** ** The replay cache *)

(** [while order.len() > max]: the front is popped and forgotten. *)
Fixpoint evict (excess : nat) (order : list string) (nonces : gset string)
    : list string * gset string :=
  match excess, order with
  | S excess, old :: order => evict excess order (nonces ∖ {[old]})
  | _, _ => (order, nonces)
  end.
Definition cap_of (cap : Z) : nat := Z.to_nat (Z.max cap 1).
Definition nonce_fresh (nonce : string) (cap : Z) c : ReplayCache * bool :=
  if decide (nonce ∈ rc_nonces c) then (c, false)
  else
    let order := rc_nonce_order c ++ [nonce] in
    let '(order, nonces) :=
      evict (length order - cap_of cap) order (rc_nonces c ∪ {[nonce]}) in
    (mk_ReplayCache _ order nonces (rc_idempotent c), true).
Definition idempotent_get (now : Z) (key : string) c : ReplayCache * option JsonRpcResponse :=
  let kept := filter (fun e => (now - e.2.1 < IDEMPOTENCY_TTL)%Z) (rc_idempotent c) in
  (mk_ReplayCache _ (rc_nonce_order c) (rc_nonces c) kept, snd <$> kept !! key).
Definition idempotent_store (now : Z) (key : string) (resp : JsonRpcResponse) c : ReplayCache * () :=
  (mk_ReplayCache _ (rc_nonce_order c) (rc_nonces c) (<[key := (now, resp)]> (rc_idempotent c)), ()).

(** ** The audit trail *)
Definition audit_line (now method outcome detail : string) : string :=
  now +:+ " method=" +:+ method +:+ " outcome=" +:+ outcome +:+ " detail="
  +:+ replace_chars [ascii_of_byte 10] (ascii_of_byte 32) detail +:+ newline_str.
Definition audit (method outcome detail : string) : agent () := fun s =>
  (mk_agent_state _ (as_replay s)
     (as_audit s ++ [audit_line (utc_rfc3339 (utc_nanos (as_calls s))) method outcome detail])
     (as_performed s) (S (as_calls s)), Ok ()).

(** ** Expiry, replay protection and idempotent answers *)

(** [u64 as i64]. *)
Definition millis_as_i64 (n : Z) : Z := ((n + 2 ^ 63) mod 2 ^ 64 - 2 ^ 63)%Z.
Definition refuse req (e : AgentError) : JsonRpcResponse := from_agent_error io_text (rq_id req) e.

Definition check_expiry_window (sec : SecurityPolicy) req : agent (option JsonRpcResponse) :=
  match rq_ts req with
  | Some ts =>
      match parse_ts ts with
      | inl e => mret (Some (refuse req (AeInvalidRequest ("bad ts: " +:+ e))))
      | inr issued =>
          let ttl_ms := Z.min (default (sp_max_ttl_ms sec) (rq_ttl_ms req)) (sp_max_ttl_ms sec) in
          match add_millis issued (millis_as_i64 ttl_ms) with
          | None => crash
          | Some deadline =>
              now ← observe utc_nanos;
              if (deadline <? now)%Z then
                audit (rq_method req) "expired" "" ;;
                mret (Some (refuse req (AeRequestExpired
                  ("issued " +:+ ts +:+ ", ttl " +:+ fmt_Z ttl_ms +:+ "ms"))))
              else mret None
          end
      end
  | None =>
      if sp_require_request_expiry sec then
        mret (Some (refuse req (AeRequestExpired "policy requires ts/ttl_ms on mutating requests")))
      else mret None
  end.
Definition check_nonce (sec : SecurityPolicy) req : agent (option JsonRpcResponse) :=
  match rq_nonce req with
  | Some nonce =>
      fresh ← on_replay (nonce_fresh nonce (sp_nonce_cache_size sec));
      if fresh : bool then mret None
      else
        audit (rq_method req) "replay" "" ;;
        mret (Some (refuse req (AeReplayDetected ("nonce " +:+ nonce +:+ " already used"))))
  | None => mret None
  end.
Definition set_id (id : option json_value) (r : JsonRpcResponse) : JsonRpcResponse :=
  mk_JsonRpcResponse _ (rp_jsonrpc r) (rp_result r) (rp_error r) id.
Definition check_cached req : agent (option JsonRpcResponse) :=
  match rq_idempotency_key req with
  | Some key =>
      now ← observe instant;
      cached ← on_replay (idempotent_get now key);
      mret (set_id (rq_id req) <$> cached)
  | None => mret None
  end.
(** the answer that stops the request: a refusal or a cached response. *)
Definition enforce_security req : agent (option JsonRpcResponse) :=
  policy ← load_policy;
  let sec := po_security policy in
  stop ← check_expiry_window sec req;
  match stop with
  | Some r => mret (Some r)
  | None =>
      stop ← check_nonce sec req;
      match stop with
      | Some r => mret (Some r)
      | None => check_cached req
      end
  end.

(** ** Dispatch *)
Definition run_operation (m : RpcMethod) req : agent JsonRpcResponse := fun s =>
  (mk_agent_state _ (as_replay s) (as_audit s) (as_performed s ++ [(m, rq_params req)])
     (S (as_calls s)),
   Ok match perform (as_calls s) m (rq_params req) with
      | inr v => success (rq_id req) v
      | inl (code, text) => error (rq_id req) code text
      end).
Definition param_bool req (name : string) (d : bool) : bool :=
  default d (value_get (rq_params req) name ≫= value_as_bool).

Definition exec req : agent JsonRpcResponse :=
  policy ← load_policy;
  if negb (shell_enabled policy) then
    mret (refuse req (AeCapabilityDenied "shell exec disabled by policy"))
  else run_operation Exec req.
Definition power_action (m : RpcMethod) (action : string) req : agent JsonRpcResponse :=
  policy ← load_policy;
  let confirmed := param_bool req "confirm" false in
  if ap_require_approval (pa_reboot_vm (po_actions policy)) && negb confirmed then
    mret (refuse req (AePolicyDenied (action +:+ " requires explicit approval: pass {"
      +:+ dquote +:+ "confirm" +:+ dquote +:+ ": true}")))
  else run_operation m req.
(** the checks of [migration_repair]; making and applying the plan is the operation. *)
Definition migration_repair req : agent JsonRpcResponse :=
  policy ← load_policy;
  let dry_run := param_bool req "dry_run" true in
  let confirmed := param_bool req "confirm" false in
  let include_destructive := param_bool req "include_destructive" false in
  if negb dry_run && negb confirmed then
    mret (refuse req (AePolicyDenied ("applying repairs requires {" +:+ dquote +:+ "dry_run"
      +:+ dquote +:+ ": false, " +:+ dquote +:+ "confirm" +:+ dquote +:+ ": true}")))
  else if include_destructive && negb (mg_repair_destructive (pa_migration (po_actions policy))) then
    mret (refuse req (AePolicyDenied
      "destructive repairs disabled by local policy (migration.repair_destructive)"))
  else run_operation MigrationRepair req.
(** [restart_unit] and [control_unit] with the check of the executor. *)
Definition unit_operation (m : RpcMethod) (op : string) req : agent JsonRpcResponse :=
  match value_get (rq_params req) "unit" ≫= value_as_str with
  | None => mret (error (rq_id req) RpcInvalidParams "missing required param: unit")
  | Some unit =>
      policy ← load_policy;
      if negb (can_restart_unit policy unit) then
        mret (error (rq_id req) RpcInternalError (op +:+ "_unit denied by policy for " +:+ unit))
      else run_operation m req
  end.
(** [chan]: the channel of the request, by its [push_capable]. *)
Definition subscribe_events (chan : option bool) req : agent JsonRpcResponse :=
  match chan with
  | None => mret (error (rq_id req) RpcCapabilityDenied
      "event subscription is only available on daemon channels")
  | Some false => mret (error (rq_id req) RpcCapabilityDenied
      "push is not allowed on the QGA-shared channel; connect via the dedicated GuestKit channel")
  | Some true => run_operation SubscribeEvents req
  end.
Definition dispatch (chan : option bool) req : agent JsonRpcResponse :=
  match RpcMethod_parse (rq_method req) with
  | Exec => exec req
  | RestartUnit => unit_operation RestartUnit "restart" req
  | StartUnit => unit_operation StartUnit "start" req
  | StopUnit => unit_operation StopUnit "stop" req
  | MigrationRepair => migration_repair req
  | Reboot => power_action Reboot "reboot" req
  | Shutdown => power_action Shutdown "shutdown" req
  | SubscribeEvents => subscribe_events chan req
  | Unknown name => mret (error (rq_id req) RpcMethodNotFound ("unknown method: " +:+ name))
  | SetTime =>
      mret (error (rq_id req) RpcNotImplemented "method not implemented yet: SetTime")
  | m => run_operation m req
  end.

(** ** Requests *)
Definition negotiation (m : RpcMethod) : bool :=
  match m with Ping | GetVersion | GetCapabilities => true | _ => false end.
(** the answer of the policy; negotiation is not asked. *)
Definition authorized req : agent (option AgentError) :=
  if negotiation (RpcMethod_parse (rq_method req)) then mret None
  else
    policy ← load_policy;
    mret (authorize glob_new policy (RpcMethod_parse (rq_method req)) (rq_method req)).
Definition remember req (resp : JsonRpcResponse) : agent () :=
  match rq_idempotency_key req, rp_error resp with
  | Some key, None => now ← observe instant; on_replay (idempotent_store now key resp)
  | _, _ => mret ()
  end.
Definition handle_on (chan : option bool) (bytes : string) : agent JsonRpcResponse :=
  match request_from_slice bytes with
  | inl e => mret (from_agent_error io_text None (AeParse e))
  | inr req =>
      match validate_request req with
      | Some e => mret (refuse req e)
      | None =>
          denial ← authorized req;
          match denial with
          | Some e => audit (rq_method req) "policy_denied" "" ;; mret (refuse req e)
          | None =>
              if is_mutating (RpcMethod_parse (rq_method req)) then
                stop ← enforce_security req;
                match stop with
                | Some r => mret r
                | None =>
                    resp ← dispatch chan req;
                    remember req resp ;;
                    audit (rq_method req)
                      (match rp_error resp with None => "ok" | Some _ => "error" end)
                      (default "" (rq_idempotency_key req)) ;;
                    mret resp
                end
              else dispatch chan req
          end
      end
  end.
(** a connection: the requests in order. *)
Fixpoint handle_all (reqs : list (option bool * string)) s : agent_state :=
  match reqs with
  | [] => s
  | (chan, bytes) :: reqs => handle_all reqs (handle_on chan bytes s).1
  end.
End handler.
