(* ===== verification/AgentProps.v ===== *)
(** * What the agent lets through

    Theorems on [AgentRpc], [AgentPolicy] and [AgentHandler]: an operation is reached only
    by a request that passed every check, a nonce and an idempotency key protect against a
    second execution, the replay cache is a window over the accepted nonces, and the
    advertised methods are the ones that are dispatched. *)
From stdpp Require Import base gmap strings list.
From Stdlib Require Import ZArith Lia.
From S2P Require Import Prelude RustStr Frame AgentRpc AgentPolicy AgentHandler.

(** ** The nonce window *)
Section window.
Context `{P : Platform}.
Implicit Types (c : ReplayCache).

(** the two collections of nonces agree. *)
Definition cache_ok c : Prop :=
  NoDup (rc_nonce_order c) ∧ ∀ x, x ∈ rc_nonces c ↔ x ∈ rc_nonce_order c.

Lemma evict_spec k : ∀ order nonces,
  NoDup order → (∀ x : string, x ∈ nonces ↔ x ∈ order) →
  ∃ nonces', evict k order nonces = (drop k order, nonces') ∧ ∀ x, x ∈ nonces' ↔ x ∈ drop k order.
Proof.
  induction k as [|k IH]; intros order nonces Hnd Hs; [by exists nonces; destruct order|].
  destruct order as [|old order]; [by exists nonces|].
  apply NoDup_cons in Hnd as [Hold Hnd]. apply (IH order); [done|].
  intros x. rewrite elem_of_difference, Hs, elem_of_singleton, elem_of_cons.
  split; [naive_solver|]. intros Hx. split; [by right|]. by intros ->.
Qed.
(** the last nonces that are remembered. *)
Definition window (cap : Z) (h : list string) : list string := drop (length h - cap_of cap) h.
Lemma window_snoc cap h n : window cap (window cap h ++ [n]) = window cap (h ++ [n]).
Proof.
  unfold window. set (k := length h - cap_of cap).
  assert (Hk : k ≤ length h) by lia.
  rewrite <- (drop_app_le h [n] k) by done.
  rewrite drop_drop. f_equal. rewrite length_drop, !length_app. cbn [length]. lia.
Qed.
Lemma cap_positive cap : 1 ≤ cap_of cap.
Proof. unfold cap_of. lia. Qed.

Lemma nonce_fresh_spec n cap c c' b :
  cache_ok c → nonce_fresh n cap c = (c', b) →
  cache_ok c' ∧ rc_idempotent c' = rc_idempotent c ∧ b = bool_decide (n ∉ rc_nonce_order c) ∧
  rc_nonce_order c' = (if b then window cap (rc_nonce_order c ++ [n]) else rc_nonce_order c).
Proof.
  intros [Hnd Hs]. unfold nonce_fresh. destruct (decide _) as [Hin|Hin].
  { intros [= <- <-]. rewrite bool_decide_eq_false_2; [done|]. intros Hn. by apply Hn, Hs. }
  assert (n ∉ rc_nonce_order c) as Hn by (intros Hn; by apply Hin, Hs).
  destruct (evict_spec (length (rc_nonce_order c ++ [n]) - cap_of cap) (rc_nonce_order c ++ [n])
    (rc_nonces c ∪ {[n]})) as (ns & -> & Hns).
  - apply NoDup_app. repeat split; [done| |apply NoDup_singleton]. set_solver.
  - intros x. rewrite elem_of_union, Hs, elem_of_app, elem_of_singleton. set_solver.
  - intros [= <- <-]. cbn. rewrite bool_decide_eq_true_2 by done. repeat split; try done; [|apply Hns..].
    apply (sublist_NoDup _ (rc_nonce_order c ++ [n])); [|apply sublist_drop].
    apply NoDup_app. repeat split; [done| |apply NoDup_singleton]. set_solver.
Qed.

(** a run of the cache over nonces, and its specification on the history of accepted
    nonces. *)
Fixpoint judge (cap : Z) (ns : list string) c : list bool :=
  match ns with
  | [] => []
  | n :: ns => let '(c, b) := nonce_fresh n cap c in b :: judge cap ns c
  end.
Fixpoint judge_spec (cap : Z) (ns : list string) (accepted : list string) : list bool :=
  match ns with
  | [] => []
  | n :: ns =>
      if bool_decide (n ∈ window cap accepted) then false :: judge_spec cap ns accepted
      else true :: judge_spec cap ns (accepted ++ [n])
  end.
Definition empty_cache : ReplayCache := mk_ReplayCache _ [] ∅ ∅.

Lemma judge_window cap ns : ∀ c h,
  cache_ok c → rc_nonce_order c = window cap h → judge cap ns c = judge_spec cap ns h.
Proof.
  induction ns as [|n ns IH]; intros c h Hok Ho; [done|]. cbn.
  destruct (nonce_fresh n cap c) as [c' b] eqn:Hf.
  destruct (nonce_fresh_spec _ _ _ _ _ Hok Hf) as (Hok' & _ & Hb & Ho'). rewrite Ho in Hb, Ho'.
  destruct (decide (n ∈ window cap h)) as [Hin|Hin].
  - rewrite bool_decide_eq_false_2 in Hb by auto. subst b.
    rewrite bool_decide_eq_true_2 by done. f_equal. by apply IH.
  - rewrite bool_decide_eq_true_2 in Hb by done. subst b.
    rewrite bool_decide_eq_false_2 by done. f_equal. apply IH; [done|].
    by rewrite Ho', window_snoc.
Qed.

(** the replay cache implements its contract: over any sequence of nonces, and with
    any capacity, a nonce is refused exactly when it is among the last [max(cap, 1)]
    nonces that were accepted. *)
Theorem nonce_window cap ns : judge cap ns empty_cache = judge_spec cap ns [].
Proof.
  apply judge_window; [|done]. split; [apply NoDup_nil_2|]. intros x. set_solver.
Qed.
End window.

(** ** The checks of a request *)
Section handler_props.
Context `{P : Platform} `{Env : !AgentEnv}.
Implicit Types (s : agent_state) (req : JsonRpcRequest).

Lemma agent_bind_eq {A B} (m : agent A) (f : A → agent B) s :
  (m ≫= f) s = match m s with
               | (s, Ok a) => f a s
               | (s, Err e) => (s, Err e)
               | (s, Panic) => (s, Panic)
               end.
Proof. done. Qed.

(** the policy in force at a moment. *)
Definition policy_at (n : nat) : AgentPolicy := load from_yaml (policy_files n).
Definition during s s' (n : nat) : Prop := as_calls s ≤ n < as_calls s'.

(** equal but for the audit trail and the clock. *)
Record quiet_step s s' : Prop := mk_quiet_step {
  qs_replay : as_replay s' = as_replay s;
  qs_performed : as_performed s' = as_performed s;
  qs_calls : as_calls s ≤ as_calls s'
}.
#[global] Instance quiet_step_preorder : PreOrder quiet_step.
Proof.
  split; [by intros s|]. intros s1 s2 s3 [H1 H2 H3] [H4 H5 H6].
  split; [by rewrite H4|by rewrite H5|lia].
Qed.
Lemma during_weaken s s1 s2 s' n :
  as_calls s ≤ as_calls s1 → as_calls s2 ≤ as_calls s' → during s1 s2 n → during s s' n.
Proof. unfold during. lia. Qed.

Lemma authorized_spec req s s' r :
  authorized req s = (s', r) →
  quiet_step s s' ∧ ∃ d, r = Ok d ∧
  (d = None → negotiation (RpcMethod_parse (rq_method req)) = true ∨
     ∃ n, during s s' n ∧
       authorize glob_new (policy_at n) (RpcMethod_parse (rq_method req)) (rq_method req) = None).
Proof.
  unfold authorized. destruct (negotiation _) eqn:Hn.
  - intros [= <- <-]. split; [done|]. eauto.
  - rewrite agent_bind_eq. intros [= <- <-]. split; [split; cbn; (done || lia)|]. eexists. split; [done|].
    intros Ha. right. exists (as_calls s). split; [unfold during; cbn; lia|done].
Qed.

(** the request is in its window of validity. *)
Definition in_time (sec : SecurityPolicy) req s s' : Prop :=
  match rq_ts req with
  | Some ts => ∃ issued deadline n,
      parse_ts ts = inr issued ∧
      add_millis issued (millis_as_i64 (Z.min (default (sp_max_ttl_ms sec) (rq_ttl_ms req))
        (sp_max_ttl_ms sec))) = Some deadline ∧
      during s s' n ∧ (utc_nanos n <= deadline)%Z
  | None => sp_require_request_expiry sec = false
  end.
(** the answers that only say no. *)
Definition refused_with req (r : JsonRpcResponse) : Prop := ∃ e, r = refuse req e.

Lemma check_expiry_spec sec req s s' r :
  check_expiry_window sec req s = (s', r) →
  quiet_step s s' ∧ (r = Panic ∨ ∃ d, r = Ok d ∧ match d with
                                          | None => in_time sec req s s'
                                          | Some a => refused_with req a
                                          end).
Proof.
  unfold check_expiry_window, in_time. destruct (rq_ts req) as [ts|] eqn:Hts.
  - destruct (parse_ts ts) as [e|issued] eqn:Hp.
    { intros [= <- <-]. split; [done|]. right. eexists; split; [done|]. by eexists. }
    destruct (add_millis _ _) as [deadline|] eqn:Hd.
    2:{ intros [= <- <-]. split; [done|]. by left. }
    rewrite agent_bind_eq. cbn beta iota delta [observe].
    destruct (Z.ltb_spec deadline (utc_nanos (as_calls s))).
    + intros [= <- <-]. split; [split; cbn; (done || lia)|]. right. eexists; split; [done|]. by eexists.
    + intros [= <- <-]. split; [split; cbn; (done || lia)|]. right. eexists; split; [done|].
      exists issued, deadline, (as_calls s). unfold during. cbn. repeat split; try done; lia.
  - destruct (sp_require_request_expiry sec) eqn:Hr; intros [= <- <-]; (split; [done|]); right;
      eexists; (split; [done|]); [by eexists|done].
Qed.

(** what a request leaves in the replay cache. *)
Definition nonce_step (cap : Z) req c c' : Prop :=
  rc_idempotent c' = rc_idempotent c ∧
  (c' = c ∨ ∃ n, rq_nonce req = Some n ∧ (n ∉ rc_nonce_order c) ∧
     rc_nonce_order c' = window cap (rc_nonce_order c ++ [n])).
Lemma check_nonce_spec sec req s s' r :
  cache_ok (as_replay s) → check_nonce sec req s = (s', r) →
  as_performed s' = as_performed s ∧ as_calls s ≤ as_calls s' ∧ cache_ok (as_replay s') ∧
  nonce_step (sp_nonce_cache_size sec) req (as_replay s) (as_replay s') ∧
  ∃ d, r = Ok d ∧ match d with
    | None => ∀ n, rq_nonce req = Some n →
        (n ∉ rc_nonce_order (as_replay s)) ∧
        rc_nonce_order (as_replay s') =
          window (sp_nonce_cache_size sec) (rc_nonce_order (as_replay s) ++ [n])
    | Some a => refused_with req a
    end.
Proof.
  intros Hok. unfold check_nonce. destruct (rq_nonce req) as [n|] eqn:Hn.
  2:{ intros [= <- <-]. repeat split; try done; try lia; [apply Hok..|by left|]. by eexists. }
  rewrite agent_bind_eq. unfold on_replay.
  destruct (nonce_fresh n _ _) as [c b] eqn:Hf. cbn beta iota.
  destruct (nonce_fresh_spec _ _ _ _ _ Hok Hf) as (Hok' & Hi & Hb & Ho).
  destruct b.
  - symmetry in Hb. apply bool_decide_eq_true in Hb. intros [= <- <-]. cbn.
    repeat split; try done; try apply Hok'; [right; eauto|].
    eexists; split; [done|]. by intros ? [= <-].
  - unfold nonce_fresh in Hf. destruct (decide _); [|by destruct (evict _ _ _)].
    injection Hf as <-. intros [= <- <-]. cbn.
    repeat split; try done; try apply Hok'; try lia; [by left|].
    eexists; split; [done|]. by eexists.
Qed.

(** a cached response that has not run out at the moment [n]. *)
Definition live_response s (n : nat) (key : string) (resp : JsonRpcResponse) : Prop :=
  ∃ t, rc_idempotent (as_replay s) !! key = Some (t, resp) ∧
    (instant n - t < IDEMPOTENCY_TTL)%Z.
Lemma idempotent_get_lookup now k c e c' x :
  idempotent_get now k c = (c', x) →
  rc_nonce_order c' = rc_nonce_order c ∧ rc_nonces c' = rc_nonces c ∧
  (rc_idempotent c' !! e = None ∨ rc_idempotent c' !! e = rc_idempotent c !! e) ∧
  (∀ t r, rc_idempotent c !! e = Some (t, r) → (now - t < IDEMPOTENCY_TTL)%Z →
     rc_idempotent c' !! e = Some (t, r)) ∧
  (x = None → ∀ t r, rc_idempotent c !! k = Some (t, r) → ¬ (now - t < IDEMPOTENCY_TTL)%Z) ∧
  (∀ r, x = Some r → ∃ t, rc_idempotent c !! k = Some (t, r) ∧ (now - t < IDEMPOTENCY_TTL)%Z).
Proof.
  unfold idempotent_get. intros [= <- <-]. cbn.
  assert (Hf : ∀ j t r, rc_idempotent c !! j = Some (t, r) → (now - t < IDEMPOTENCY_TTL)%Z →
    filter (fun e => (now - e.2.1 < IDEMPOTENCY_TTL)%Z) (rc_idempotent c) !! j = Some (t, r)).
  { intros j t r Hj Ht. by apply map_lookup_filter_Some. }
  repeat split; [|by apply Hf| |].
  - destruct (filter _ _ !! e) as [v|] eqn:E; [right|by left].
    by apply map_lookup_filter_Some in E as [-> _].
  - intros Hn t r Hk Ht. by rewrite (Hf _ _ _ Hk Ht) in Hn.
  - intros r. destruct (filter _ _ !! k) as [[t r']|] eqn:E; [|done]. intros [= ->].
    apply map_lookup_filter_Some in E as [Hk Ht]. by exists t.
Qed.

(** the cache of responses after a lookup of [key], for the entry of [k]. *)
Lemma check_cached_spec req s s' r :
  check_cached req s = (s', r) →
  as_performed s' = as_performed s ∧ as_calls s ≤ as_calls s' ∧
  rc_nonce_order (as_replay s') = rc_nonce_order (as_replay s) ∧
  rc_nonces (as_replay s') = rc_nonces (as_replay s) ∧
  (∀ k t a, rc_idempotent (as_replay s) !! k = Some (t, a) →
     (∀ n, during s s' n → (instant n - t < IDEMPOTENCY_TTL)%Z) →
     rc_idempotent (as_replay s') !! k = Some (t, a)) ∧
  ∃ d, r = Ok d ∧ match d with
    | None => ∀ k, rq_idempotency_key req = Some k →
        ∃ n, during s s' n ∧ ∀ a, ¬ live_response s n k a
    | Some a => ∃ k n a', rq_idempotency_key req = Some k ∧ during s s' n ∧
        live_response s n k a' ∧ a = set_id (rq_id req) a'
    end.
Proof.
  unfold check_cached. destruct (rq_idempotency_key req) as [k|] eqn:Hk.
  2:{ intros [= <- <-]. repeat split; try done. by eexists. }
  rewrite agent_bind_eq. cbn beta iota delta [observe]. rewrite agent_bind_eq. unfold on_replay.
  cbn [tick as_replay].
  destruct (idempotent_get _ k _) as [c x] eqn:Hg. intros [= <- <-]. cbn.
  destruct (idempotent_get_lookup _ _ _ k _ _ Hg) as (Ho & Hns & _ & _ & Hn & Hs).
  repeat split; try done; [lia| |].
  - intros k' t a Hk' Ht. destruct (idempotent_get_lookup _ _ _ k' _ _ Hg) as (_ & _ & _ & Hkeep & _).
    apply Hkeep; [done|]. apply Ht. unfold during. cbn. lia.
  - eexists; split; [done|]. destruct x as [a'|]; cbn.
    + destruct (Hs a' eq_refl) as (t & Ht & Hl). exists k, (as_calls s), a'.
      repeat split; try done; [unfold during; cbn; lia..|]. by exists t.
    + intros ? [= <-]. exists (as_calls s). split; [unfold during; cbn; lia|].
      intros a (t & Ht & Hl). by apply (Hn eq_refl t a).
Qed.

(** every reading of the policy has the same size of the nonce cache. *)
Definition fixed_cap (cap : Z) : Prop :=
  ∀ n, sp_nonce_cache_size (po_security (policy_at n)) = cap.

(** what the checks do: the request may leave its nonce, and expired responses go. *)
Record checked req s s' : Prop := mk_checked {
  ck_performed : as_performed s' = as_performed s;
  ck_calls : as_calls s ≤ as_calls s';
  ck_ok : cache_ok (as_replay s');
  ck_order : rc_nonce_order (as_replay s') = rc_nonce_order (as_replay s) ∨
    ∃ n i, rq_nonce req = Some n ∧ rc_nonce_order (as_replay s') =
      window (sp_nonce_cache_size (po_security (policy_at i)))
        (rc_nonce_order (as_replay s) ++ [n]);
  ck_cached : ∀ k t a, rc_idempotent (as_replay s) !! k = Some (t, a) →
     (∀ n, during s s' n → (instant n - t < IDEMPOTENCY_TTL)%Z) →
     rc_idempotent (as_replay s') !! k = Some (t, a)
}.
(** a request that passed them. *)
Record admitted req s s' (i : nat) : Prop := mk_admitted {
  ad_during : during s s' i;
  ad_time : in_time (po_security (policy_at i)) req s s';
  ad_fresh : ∀ n, rq_nonce req = Some n →
    (n ∉ rc_nonce_order (as_replay s)) ∧
    rc_nonce_order (as_replay s') =
      window (sp_nonce_cache_size (po_security (policy_at i)))
        (rc_nonce_order (as_replay s) ++ [n]);
  ad_uncached : ∀ k, rq_idempotency_key req = Some k →
    ∃ n, during s s' n ∧ ∀ a, ¬ live_response s n k a
}.
Lemma in_time_weaken sec req s s1 s2 s' :
  as_calls s ≤ as_calls s1 → as_calls s2 ≤ as_calls s' → in_time sec req s1 s2 → in_time sec req s s'.
Proof.
  unfold in_time. destruct (rq_ts req); [|done]. intros H1 H2 (i & d & n & ? & ? & ? & ?).
  exists i, d, n. do 2 (split; [done|]). split; [by eapply during_weaken|done].
Qed.
Lemma live_response_eq s1 s2 n k a :
  rc_idempotent (as_replay s1) = rc_idempotent (as_replay s2) →
  live_response s1 n k a → live_response s2 n k a.
Proof. unfold live_response. by intros ->. Qed.

Lemma enforce_spec req s s' r :
  cache_ok (as_replay s) → enforce_security req s = (s', r) →
  checked req s s' ∧
  (r = Panic ∨ ∃ d, r = Ok d ∧ match d with
     | None => ∃ i, admitted req s s' i
     | Some a => refused_with req a ∨ ∃ k n a', rq_idempotency_key req = Some k ∧ during s s' n ∧
         live_response s n k a' ∧ a = set_id (rq_id req) a'
     end).
Proof.
  intros Hok. unfold enforce_security. rewrite agent_bind_eq. cbn beta iota delta [load_policy observe].
  set (sec := po_security _). rewrite agent_bind_eq.
  destruct (check_expiry_window sec req (tick s)) as [s1 r1] eqn:H1.
  apply check_expiry_spec in H1 as [[Hr1 Hp1 Hc1] Hx]. cbn in Hc1.
  assert (Hck : checked req s s1).
  { split; [by rewrite Hp1|lia|by rewrite Hr1|rewrite Hr1; by left|]. intros k t a Hk _. by rewrite Hr1. }
  destruct Hx as [->|(d & -> & Hd)].
  { intros [= <- <-]. split; [done|by left]. }
  destruct d as [a|]. { intros [= <- <-]. split; [done|]. right. eexists; split; [done|]. by left. }
  rewrite agent_bind_eq. destruct (check_nonce sec req s1) as [s2 r2] eqn:H2.
  assert (Hok1 : cache_ok (as_replay s1)) by by rewrite Hr1.
  destruct (check_nonce_spec _ _ _ _ _ Hok1 H2) as (Hp2 & Hc2 & Hok2 & [Hi2 Ho2] & d & -> & Hd2).
  assert (Hck2 : checked req s s2).
  { split; [by rewrite Hp2, Hp1|lia|done| |].
    - destruct Ho2 as [->|(n & Hn & _ & Hw)]; [rewrite Hr1; by left|]. right.
      exists n, (as_calls s). split; [done|]. rewrite Hw, Hr1. done.
    - intros k t a Hk _. by rewrite Hi2, Hr1. }
  destruct d as [a|]. { intros [= <- <-]. split; [done|]. right. eexists; split; [done|]. by left. }
  intros H3. apply check_cached_spec in H3 as (Hp3 & Hc3 & Ho3 & Hn3 & Hkeep & d & -> & Hd3).
  assert (Hck3 : checked req s s').
  { destruct Hck2 as [Kp Kc [Knd Ks] Ko Kk]. split; [by rewrite Hp3|lia| |by rewrite Ho3|].
    - split; [by rewrite Ho3|]. intros x. by rewrite Hn3, Ho3.
    - intros k t a Hk Ht. apply Hkeep.
      + apply Kk; [done|]. intros n Hn. apply Ht. eapply during_weaken; [| |exact Hn]; lia.
      + intros n Hn. apply Ht. eapply during_weaken; [| |exact Hn]; lia. }
  split; [done|]. right. eexists; split; [done|]. destruct d as [a|].
  - right. destruct Hd3 as (k & n & a' & ? & ? & ? & ->). exists k, n, a'. split; [done|].
    split; [eapply during_weaken; [| |done]; lia|]. split; [|done].
    eapply live_response_eq; [|done]. by rewrite Hi2, Hr1.
  - exists (as_calls s). split.
    + unfold during. lia.
    + eapply in_time_weaken; [| |exact Hd]; cbn; lia.
    + intros n Hn. destruct (Hd2 n Hn) as [Hf Hw]. rewrite Hr1 in Hf, Hw. by rewrite Ho3, Hw.
    + intros k Hk. destruct (Hd3 k Hk) as (n & Hn & Hl). exists n.
      split; [eapply during_weaken; [| |done]; lia|]. intros a Ha. apply (Hl a).
      eapply live_response_eq; [|done]. by rewrite Hi2, Hr1.
Qed.

Lemma checked_after req s s0 s' : quiet_step s s0 → checked req s0 s' → checked req s s'.
Proof.
  intros [Hr Hp Hc] [Kp Kc Ko Kd Kk]. rewrite Hr in Kd, Kk. split; [by rewrite Kp|lia|done|done|].
  intros k t a Hk Ht. apply Kk; [done|]. intros n Hn. apply Ht. eapply during_weaken; [| |exact Hn]; lia.
Qed.
Lemma admitted_after req s s0 s' i : quiet_step s s0 → admitted req s0 s' i → admitted req s s' i.
Proof.
  intros [Hr Hp Hc] [Ad At Af Au]. rewrite Hr in Af. split; [|by eapply in_time_weaken|done|].
  - eapply during_weaken; [| |exact Ad]; lia.
  - intros k Hk. destruct (Au k Hk) as (n & Hn & Hl). exists n.
    split; [eapply during_weaken; [| |exact Hn]; lia|]. intros a Ha. apply (Hl a).
    eapply live_response_eq; [|exact Ha]. by rewrite Hr.
Qed.

(** ** The checks of the handlers *)
Definition gate (chan : option bool) req s s' : Prop :=
  match RpcMethod_parse (rq_method req) with
  | Exec => ∃ n, during s s' n ∧ shell_enabled (policy_at n) = true
  | Reboot | Shutdown => ∃ n, during s s' n ∧
      (ap_require_approval (pa_reboot_vm (po_actions (policy_at n))) = false ∨
       param_bool req "confirm" false = true)
  | MigrationRepair =>
      (param_bool req "dry_run" true = true ∨ param_bool req "confirm" false = true) ∧
      (param_bool req "include_destructive" false = true →
       ∃ n, during s s' n ∧
         mg_repair_destructive (pa_migration (po_actions (policy_at n))) = true)
  | RestartUnit | StartUnit | StopUnit => ∃ unit n,
      value_get (rq_params req) "unit" ≫= value_as_str = Some unit ∧ during s s' n ∧
      can_restart_unit (policy_at n) unit = true
  | SubscribeEvents => chan = Some true
  | SetTime | Unknown _ => False
  | _ => True
  end.
Definition answered_error s s' (resp : JsonRpcResponse) : Prop :=
  as_performed s' = as_performed s ∧ rp_error resp ≠ None.


(** a handler that reaches the operation [m] only under the condition [G]. *)
Definition handler_of (m : RpcMethod) req (G : agent_state → agent_state → Prop)
    (h : agent JsonRpcResponse) : Prop :=
  ∀ s s' r, h s = (s', r) →
  as_replay s' = as_replay s ∧ as_calls s ≤ as_calls s' ∧
  ∃ resp, r = Ok resp ∧
    (as_performed s' = as_performed s ++ [(m, rq_params req)] ∧ G s s' ∨ answered_error s s' resp).

Ltac leaf := intros Heq; injection Heq as <- <-; cbn [as_replay as_calls as_performed tick];
  split; [done|]; split; [lia|]; eexists; split; [done|].
Lemma handler_run m req : handler_of m req (fun _ _ => True) (run_operation m req).
Proof. intros s s' r. leaf. by left. Qed.
Lemma handler_error m req G id code text : handler_of m req G (mret (error id code text)).
Proof. intros s s' r. leaf. by right. Qed.
Lemma handler_refuse m req G e : handler_of m req G (mret (refuse req e)).
Proof. apply handler_error. Qed.
Lemma handler_weaken m req (G G' : agent_state → agent_state → Prop) h :
  (∀ s s', G s s' → G' s s') → handler_of m req G h → handler_of m req G' h.
Proof.
  intros HG Hh s s' r Hr. destruct (Hh s s' r Hr) as (? & ? & resp & ? & [[? ?]|?]);
    (do 2 (split; [done|])); exists resp; (split; [done|]); [left; split; [done|by apply HG]|by right].
Qed.
(** a check of the policy in front of an operation. *)
Lemma handler_load m req (G : AgentPolicy → Prop) h :
  (∀ policy, handler_of m req (fun _ _ => G policy) (h policy)) →
  handler_of m req (fun s s' => ∃ n, during s s' n ∧ G (policy_at n)) (load_policy ≫= h).
Proof.
  intros Hh s s' r. rewrite agent_bind_eq. cbn beta iota delta [load_policy observe].
  intros (Hr & Hc & resp & -> & Hx)%Hh. cbn in Hc, Hx. split; [done|]. split; [lia|].
  exists resp. split; [done|]. destruct Hx as [[? ?]|?]; [left|by right]. split; [done|].
  exists (as_calls s). split; [unfold during; lia|done].
Qed.

Lemma exec_spec req :
  handler_of Exec req (fun s s' => ∃ n, during s s' n ∧ shell_enabled (policy_at n) = true) (exec req).
Proof.
  apply (handler_load _ _ (fun p => shell_enabled p = true)). intros p.
  destruct (shell_enabled p); [by eapply handler_weaken, handler_run|apply handler_refuse].
Qed.
Lemma power_spec m action req :
  handler_of m req (fun s s' => ∃ n, during s s' n ∧
    (ap_require_approval (pa_reboot_vm (po_actions (policy_at n))) = false ∨
     param_bool req "confirm" false = true)) (power_action m action req).
Proof.
  apply (handler_load _ _ (fun p => ap_require_approval (pa_reboot_vm (po_actions p)) = false ∨
     param_bool req "confirm" false = true)). intros p.
  destruct (ap_require_approval _), (param_bool _ _ _); cbn; try apply handler_refuse;
    (eapply handler_weaken, handler_run; auto).
Qed.
Lemma unit_spec m op req :
  handler_of m req (fun s s' => ∃ unit n,
    value_get (rq_params req) "unit" ≫= value_as_str = Some unit ∧ during s s' n ∧
    can_restart_unit (policy_at n) unit = true) (unit_operation m op req).
Proof.
  unfold unit_operation. destruct (value_get _ _ ≫= _) as [unit|]; [|apply handler_error].
  eapply (handler_weaken _ _ (fun s s' => ∃ n, during s s' n ∧
    can_restart_unit (policy_at n) unit = true)); [naive_solver|].
  apply (handler_load _ _ (fun p => can_restart_unit p unit = true)). intros p.
  destruct (can_restart_unit p unit); [by eapply handler_weaken, handler_run|apply handler_error].
Qed.
Lemma repair_spec req :
  handler_of MigrationRepair req (fun s s' =>
    (param_bool req "dry_run" true = true ∨ param_bool req "confirm" false = true) ∧
    (param_bool req "include_destructive" false = true →
     ∃ n, during s s' n ∧ mg_repair_destructive (pa_migration (po_actions (policy_at n))) = true))
    (migration_repair req).
Proof.
  eapply (handler_weaken _ _ (fun s s' => ∃ n, during s s' n ∧
    ((param_bool req "dry_run" true = true ∨ param_bool req "confirm" false = true) ∧
     (param_bool req "include_destructive" false = true →
      mg_repair_destructive (pa_migration (po_actions (policy_at n))) = true)))); [naive_solver|].
  apply (handler_load _ _ (fun p =>
    (param_bool req "dry_run" true = true ∨ param_bool req "confirm" false = true) ∧
    (param_bool req "include_destructive" false = true →
      mg_repair_destructive (pa_migration (po_actions p)) = true))). intros p.
  destruct (param_bool req "dry_run" true), (param_bool req "confirm" false),
    (param_bool req "include_destructive" false), (mg_repair_destructive _); cbn;
    try apply handler_refuse; (eapply handler_weaken, handler_run; auto).
Qed.

Lemma dispatch_spec chan req :
  handler_of (RpcMethod_parse (rq_method req)) req (gate chan req) (dispatch chan req).
Proof.
  unfold dispatch, gate. destruct (RpcMethod_parse (rq_method req)) eqn:Hm;
    try (eapply handler_weaken, handler_run; done); try apply handler_error.
  - apply exec_spec.
  - apply unit_spec.
  - unfold subscribe_events. destruct chan as [[]|]; [|apply handler_error..].
    by eapply handler_weaken, handler_run.
  - apply unit_spec.
  - apply unit_spec.
  - apply power_spec.
  - apply power_spec.
  - apply repair_spec.
Qed.

(** ** One request *)
Definition permitted req s s' : Prop :=
  negotiation (RpcMethod_parse (rq_method req)) = true ∨
  ∃ n, during s s' n ∧
    authorize glob_new (policy_at n) (RpcMethod_parse (rq_method req)) (rq_method req) = None.
Definition ran_or_failed (chan : option bool) req s s' (resp : JsonRpcResponse) : Prop :=
  as_performed s' = as_performed s ++ [(RpcMethod_parse (rq_method req), rq_params req)] ∧ gate chan req s s' ∨
  answered_error s s' resp.
(** the response cache after a response was remembered. *)
Definition remembered req (resp : JsonRpcResponse) s s' : Prop :=
  rc_nonce_order (as_replay s') = rc_nonce_order (as_replay s) ∧
  rc_nonces (as_replay s') = rc_nonces (as_replay s) ∧
  match rq_idempotency_key req, rp_error resp with
  | Some k, None => ∃ n, during s s' n ∧
      rc_idempotent (as_replay s') = <[k := (instant n, resp)]> (rc_idempotent (as_replay s))
  | _, _ => rc_idempotent (as_replay s') = rc_idempotent (as_replay s)
  end.

Inductive handled (chan : option bool) (bytes : string) s s' (r : outcome Empty_set JsonRpcResponse) : Prop :=
  | handled_early :
      quiet_step s s' → (∀ req, request_from_slice bytes = inr req → ∃ e, r = Ok (refuse req e)) →
      handled chan bytes s s' r
  | handled_plain req resp :
      request_from_slice bytes = inr req → permitted req s s' →
      is_mutating (RpcMethod_parse (rq_method req)) = false → as_replay s' = as_replay s →
      r = Ok resp → ran_or_failed chan req s s' resp → handled chan bytes s s' r
  | handled_stopped req :
      request_from_slice bytes = inr req → is_mutating (RpcMethod_parse (rq_method req)) = true →
      checked req s s' →
      (r = Panic ∨ ∃ a, r = Ok a ∧ (refused_with req a ∨ ∃ k n a',
         rq_idempotency_key req = Some k ∧ during s s' n ∧ live_response s n k a' ∧
         a = set_id (rq_id req) a')) → handled chan bytes s s' r
  | handled_ran req resp s1 s2 i :
      request_from_slice bytes = inr req → is_mutating (RpcMethod_parse (rq_method req)) = true →
      permitted req s s' → checked req s s1 → admitted req s s1 i →
      as_calls s1 ≤ as_calls s2 → as_replay s2 = as_replay s1 →
      ran_or_failed chan req s1 s2 resp → remembered req resp s2 s' →
      as_performed s' = as_performed s2 → as_calls s2 ≤ as_calls s' → r = Ok resp →
      handled chan bytes s s' r.

Lemma permitted_weaken req s s1 s' : as_calls s1 ≤ as_calls s' → permitted req s s1 → permitted req s s'.
Proof.
  intros Hc [H|(n & Hn & Ha)]; [by left|right]. exists n. split; [|done].
  eapply during_weaken; [| |exact Hn]; lia.
Qed.
Lemma gate_weaken chan req s s1 s' : as_calls s ≤ as_calls s1 → gate chan req s1 s' → gate chan req s s'.
Proof.
  intros Hc. unfold gate. assert (Hd : ∀ n, during s1 s' n → during s s' n).
  { intros n Hn. eapply during_weaken; [| |exact Hn]; lia. }
  destruct (RpcMethod_parse _); naive_solver.
Qed.
Lemma remember_spec req resp s s' r :
  remember req resp s = (s', r) →
  r = Ok () ∧ remembered req resp s s' ∧ as_performed s' = as_performed s ∧ as_calls s ≤ as_calls s'.
Proof.
  unfold remember, remembered. destruct (rq_idempotency_key req) as [k|], (rp_error resp).
  2:{ rewrite agent_bind_eq. intros [= <- <-]. cbn. repeat split; [|lia]. exists (as_calls s).
      split; [unfold during; cbn; lia|done]. }
  all: by intros [= <- <-].
Qed.

Lemma plain_handled chan bytes req s s0 s' r :
  request_from_slice bytes = inr req → is_mutating (RpcMethod_parse (rq_method req)) = false →
  quiet_step s s0 → permitted req s s0 → dispatch chan req s0 = (s', r) →
  handled chan bytes s s' r ∧ as_calls s ≤ as_calls s'.
Proof.
  intros Hreq Hmut [Hr0 Hp0 Hc0] Hperm Hd.
  destruct (dispatch_spec chan req _ _ _ Hd) as (Hr & Hc & resp & -> & Hx). split; [|lia].
  eapply handled_plain; try done; [by eapply permitted_weaken|by rewrite Hr|].
  destruct Hx as [[Hp Hg]|[Hp He]]; [left|right]; split; try done; [by rewrite Hp, Hp0| |by rewrite Hp].
  by eapply gate_weaken.
Qed.
Lemma handle_on_handled chan bytes s s' r :
  cache_ok (as_replay s) → handle_on chan bytes s = (s', r) →
  handled chan bytes s s' r ∧ as_calls s ≤ as_calls s'.
Proof.
  intros Hok. unfold handle_on. destruct (request_from_slice bytes) as [e|req] eqn:Hreq.
  { intros [= <- <-]. split; [|done]. apply handled_early; [done|]. congruence. }
  assert (Hearly : ∀ e s', quiet_step s s' → handled chan bytes s s' (Ok (refuse req e))).
  { intros e s0 Hq. apply handled_early; [done|]. intros req' Hr. exists e. congruence. }
  destruct (validate_request req) as [e|].
  { intros [= <- <-]. split; [by apply Hearly|done]. }
  rewrite agent_bind_eq. destruct (authorized req s) as [s0 r0] eqn:Ha.
  apply authorized_spec in Ha as (Hq & d & -> & Hperm). destruct d as [e|].
  { rewrite agent_bind_eq. intros [= <- <-]. destruct Hq as [Hr Hp Hc].
    split; [apply Hearly; split; cbn; (done || lia)|cbn; lia]. }
  specialize (Hperm eq_refl : permitted req s s0).
  assert (Hc0 : as_calls s ≤ as_calls s0) by apply Hq.
  destruct (is_mutating _) eqn:Hmut.
  2:{ by apply plain_handled. }
  rewrite agent_bind_eq. destruct (enforce_security req s0) as [s1 r1] eqn:He.
  assert (Hok0 : cache_ok (as_replay s0)) by by rewrite (qs_replay _ _ Hq).
  destruct (enforce_spec _ _ _ _ Hok0 He) as [Hck Hx].
  assert (Hc1 := ck_calls _ _ _ Hck).
  destruct Hx as [->|(d & -> & Hd)].
  { intros [= <- <-]. split; [|lia]. eapply handled_stopped; try done; [|by left].
    by eapply checked_after. }
  destruct d as [a|].
  { intros [= <- <-]. split; [|lia]. eapply handled_stopped; try done; [by eapply checked_after|].
    right. exists a. split; [done|]. destruct Hd as [?|(k & n & a' & ? & Hn & Hl & ?)]; [by left|right].
    exists k, n, a'. split; [done|]. split; [eapply during_weaken; [| |exact Hn]; lia|].
    split; [|done]. eapply live_response_eq; [|done]. by rewrite (qs_replay _ _ Hq). }
  destruct Hd as [i Had]. rewrite agent_bind_eq.
  destruct (dispatch chan req s1) as [s2 r2] eqn:Hdis.
  destruct (dispatch_spec chan req _ _ _ Hdis) as (Hr2 & Hc2 & resp & -> & Hx).
  rewrite agent_bind_eq. destruct (remember req resp s2) as [s3 r3] eqn:Hrem.
  apply remember_spec in Hrem as (-> & Hrem & Hp3 & Hc3).
  rewrite agent_bind_eq. intros [= <- <-]. cbn. split; [|lia].
  eapply handled_ran with (s1 := s1) (s2 := s2); try done; cbn; try lia.
  - eapply permitted_weaken; [|exact Hperm]. cbn. lia.
  - by eapply checked_after.
  - by eapply admitted_after.
  - unfold remembered in *. cbn. destruct Hrem as (? & ? & Hm). do 2 (split; [done|]).
    destruct (rq_idempotency_key req), (rp_error resp); try done.
    destruct Hm as (n & Hn & ?). exists n. split; [|done]. unfold during in *. cbn. lia.
Qed.

(** ** Any number of requests *)
Definition agent_start : agent_state := mk_agent_state _ empty_cache [] [] 0.

Lemma handled_ok chan bytes s s' r :
  cache_ok (as_replay s) → handled chan bytes s s' r → cache_ok (as_replay s').
Proof.
  intros Hok [[-> _ _] _|? ? _ _ _ -> _ _|? _ _ Hck _|? ? s1 s2 i _ _ _ Hck _ _ Hr _ Hm _ _ _]; try done.
  - by destruct Hck.
  - destruct Hck as [_ _ [Hnd Hs] _ _]. destruct Hm as (Ho & Hn & _). rewrite Hr in Ho, Hn.
    split; [by rewrite Ho|]. intros x. by rewrite Hn, Ho.
Qed.
Lemma handle_all_ok reqs : ∀ s, cache_ok (as_replay s) →
  cache_ok (as_replay (handle_all reqs s)) ∧ as_calls s ≤ as_calls (handle_all reqs s).
Proof.
  induction reqs as [|[chan bytes] reqs IH]; intros s Hok; [done|]. cbn.
  destruct (handle_on chan bytes s) as [s1 r] eqn:Hh. cbn.
  destruct (handle_on_handled _ _ _ _ _ Hok Hh) as [Hd Hc].
  destruct (IH s1) as [? ?]; [by eapply handled_ok|]. split; [done|lia].
Qed.
Lemma start_ok : cache_ok (as_replay agent_start).
Proof. split; [apply NoDup_nil_2|]. intros x. cbn. set_solver. Qed.



(** ** Replay *)
Lemma handled_order cap chan bytes s s' r :
  fixed_cap cap → handled chan bytes s s' r →
  rc_nonce_order (as_replay s') = rc_nonce_order (as_replay s) ∨
  ∃ x, rc_nonce_order (as_replay s') = window cap (rc_nonce_order (as_replay s) ++ [x]).
Proof.
  intros Hcap [[-> _ _] _|? ? _ _ _ -> _ _|? _ _ Hck _|? ? s1 s2 i _ _ _ Hck _ _ Hr _ Hm _ _ _];
    [by left..| |].
  - destruct Hck as [_ _ _ [->|(n & i & _ & ->)] _]; [by left|]. rewrite Hcap. eauto.
  - destruct Hm as (-> & _). rewrite Hr.
    destruct Hck as [_ _ _ [->|(n & j & _ & ->)] _]; [by left|]. rewrite Hcap. eauto.
Qed.
Lemma window_keeps cap l1 n l2 :
  S (length l2) ≤ cap_of cap → ∃ l1', window cap (l1 ++ n :: l2) = l1' ++ n :: l2.
Proof.
  intros Hl. unfold window. rewrite length_app. cbn [length].
  exists (drop (length l1 + S (length l2) - cap_of cap) l1). apply drop_app_le. lia.
Qed.
Lemma handle_all_nonce cap n reqs : fixed_cap cap → ∀ s l1 l2,
  cache_ok (as_replay s) → rc_nonce_order (as_replay s) = l1 ++ n :: l2 →
  length l2 + length reqs < cap_of cap →
  n ∈ rc_nonce_order (as_replay (handle_all reqs s)).
Proof.
  intros Hcap. induction reqs as [|[chan bytes] reqs IH]; intros s l1 l2 Hok Ho Hl; cbn in *.
  { rewrite Ho. set_solver. }
  destruct (handle_on chan bytes s) as [s1 r] eqn:Hh. cbn.
  destruct (handle_on_handled _ _ _ _ _ Hok Hh) as [Hd _].
  assert (Hok1 : cache_ok (as_replay s1)) by by eapply handled_ok.
  destruct (handled_order _ _ _ _ _ _ Hcap Hd) as [E|(x & E)]; rewrite Ho in E.
  - eapply IH; [done..|lia].
  - rewrite <- app_assoc in E. cbn in E.
    destruct (window_keeps cap l1 n (l2 ++ [x])) as [l1' E']; [rewrite length_app; cbn; lia|].
    rewrite E' in E. eapply IH; [done..|]. rewrite length_app. cbn. lia.
Qed.

(** C12: no replay inside the window.  After a mutating request with a nonce has acted on
    the guest, and at most [max(cap, 1) - 1] further requests of any kind, no mutating
    request with the same nonce acts on the guest. *)
Theorem no_replay cap before chan1 bytes1 req1 n s1 r1 reqs chan2 bytes2 req2 s3 r2 :
  let s := handle_all before agent_start in
  let s2 := handle_all reqs s1 in
  fixed_cap cap →
  request_from_slice bytes1 = inr req1 → is_mutating (RpcMethod_parse (rq_method req1)) = true →
  rq_nonce req1 = Some n → handle_on chan1 bytes1 s = (s1, r1) →
  as_performed s1 ≠ as_performed s →
  length reqs < cap_of cap →
  request_from_slice bytes2 = inr req2 → is_mutating (RpcMethod_parse (rq_method req2)) = true →
  rq_nonce req2 = Some n → handle_on chan2 bytes2 s2 = (s3, r2) →
  as_performed s3 = as_performed s2.
Proof.
  intros s s2 Hcap Hq1 Hm1 Hn1 Hh1 Hp1 Hl Hq2 Hm2 Hn2 Hh2.
  assert (Hok : cache_ok (as_replay s)) by apply (handle_all_ok _ _ start_ok).
  destruct (handle_on_handled _ _ _ _ _ Hok Hh1) as [Hd1 _].
  assert (Hok1 : cache_ok (as_replay s1)) by by eapply handled_ok.
  assert (Hin : n ∈ rc_nonce_order (as_replay s2)).
  { destruct Hd1 as [[_ ? _] _|req resp Hreq _ Hmut _ _ _|req _ _ [? _ _ _ _] _|
      req resp t1 t2 i Hreq _ _ _ Had _ Hr _ Hm _ _ _]; [done|congruence|done|].
    destruct Had as [_ _ Af _]. assert (req = req1) as -> by congruence.
    destruct (Af n Hn1) as [_ Ho]. rewrite Hcap in Ho.
    destruct (window_keeps cap (rc_nonce_order (as_replay s)) n []) as [l1 E];
      [apply cap_positive|].
    apply (handle_all_nonce cap n reqs Hcap s1 l1 []); [done| |cbn; lia].
    destruct Hm as (-> & _). by rewrite Hr, Ho. }
  assert (Hok2 : cache_ok (as_replay s2)) by apply (handle_all_ok _ _ Hok1).
  destruct (handle_on_handled _ _ _ _ _ Hok2 Hh2) as [Hd2 _].
  destruct Hd2 as [[_ ? _] _|req resp Hreq _ Hmut _ _ _|req _ _ [? _ _ _ _] _|
    req resp t1 t2 i Hreq _ _ _ Had _ _ _ _ _ _ _]; [done|congruence|done|].
  destruct Had as [_ _ Af _]. assert (req = req2) as -> by congruence.
  by destruct (Af n Hn2).
Qed.

(** ** Idempotency *)
(** the answer for [k] stays when it has not run out. *)
Lemma handled_keeps chan bytes s s' r k t a :
  handled chan bytes s s' r → rc_idempotent (as_replay s) !! k = Some (t, a) →
  (∀ n, during s s' n → (instant n - t < IDEMPOTENCY_TTL)%Z) →
  rc_idempotent (as_replay s') !! k = Some (t, a).
Proof.
  intros [[-> _ _] _|? ? _ _ _ -> _ _|? _ _ Hck _|req resp s1 s2 i _ _ _ Hck Had Hc Hr _ Hm _ Hc2 _] Hk Ht;
    try done.
  - by apply (ck_cached _ _ _ Hck).
  - assert (Hw : ∀ n, during s s1 n → during s s' n) by (unfold during; lia).
    assert (Hk1 : rc_idempotent (as_replay s1) !! k = Some (t, a)).
    { apply (ck_cached _ _ _ Hck); [done|]. intros n Hn. by apply Ht, Hw. }
    destruct Hm as (_ & _ & Hm). destruct (rq_idempotency_key req) as [k'|] eqn:Hk';
      [destruct (rp_error resp)|]; [by rewrite Hm, Hr| |by rewrite Hm, Hr].
    destruct Hm as (m & _ & ->). rewrite Hr, lookup_insert_ne; [done|]. intros ->.
    destruct (ad_uncached _ _ _ _ Had k Hk') as (n & Hn & Hl). apply (Hl a). exists t.
    split; [done|]. by apply Ht, Hw.
Qed.
Lemma handle_all_keeps k t a reqs : ∀ s,
  cache_ok (as_replay s) → rc_idempotent (as_replay s) !! k = Some (t, a) →
  (∀ n, during s (handle_all reqs s) n → (instant n - t < IDEMPOTENCY_TTL)%Z) →
  rc_idempotent (as_replay (handle_all reqs s)) !! k = Some (t, a).
Proof.
  induction reqs as [|[chan bytes] reqs IH]; intros s Hok Hk Ht; [done|]. cbn in *.
  destruct (handle_on chan bytes s) as [s1 r] eqn:Hh. cbn in *.
  destruct (handle_on_handled _ _ _ _ _ Hok Hh) as [Hd Hc].
  assert (Hok1 : cache_ok (as_replay s1)) by by eapply handled_ok.
  destruct (handle_all_ok reqs s1 Hok1) as [_ Hc1].
  apply IH; [done| |].
  - eapply handled_keeps; [done..|]. intros n Hn. apply Ht. unfold during in *. lia.
  - intros n Hn. apply Ht. unfold during in *. lia.
Qed.

(** a key is answered once.  After a mutating request with an idempotency key acted
    on the guest without error, and for as long as the clock stays within ten minutes,
    every mutating request with the same key, after any further requests, leaves the
    guest alone: it gets the same answer under its own id, a refusal, or crashes the
    handler (a time stamp that overflows). *)
Theorem idempotent_once before chan1 bytes1 req1 k resp s1 reqs chan2 bytes2 req2 s3 r2 :
  let s := handle_all before agent_start in
  let s2 := handle_all reqs s1 in
  request_from_slice bytes1 = inr req1 → is_mutating (RpcMethod_parse (rq_method req1)) = true →
  rq_idempotency_key req1 = Some k → handle_on chan1 bytes1 s = (s1, Ok resp) →
  as_performed s1 ≠ as_performed s → rp_error resp = None →
  request_from_slice bytes2 = inr req2 → is_mutating (RpcMethod_parse (rq_method req2)) = true →
  rq_idempotency_key req2 = Some k → handle_on chan2 bytes2 s2 = (s3, r2) →
  (∀ i j, as_calls s ≤ i < as_calls s3 → as_calls s ≤ j < as_calls s3 →
     (instant j - instant i < IDEMPOTENCY_TTL)%Z) →
  as_performed s3 = as_performed s2 ∧
  (r2 = Ok (set_id (rq_id req2) resp) ∨ (∃ e, r2 = Ok (refuse req2 e)) ∨ r2 = Panic).
Proof.
  intros s s2 Hq1 Hm1 Hk1 Hh1 Hp1 He Hq2 Hm2 Hk2 Hh2 Hclock.
  assert (Hok : cache_ok (as_replay s)) by apply (handle_all_ok _ _ start_ok).
  destruct (handle_on_handled _ _ _ _ _ Hok Hh1) as [Hd1 Hc1].
  assert (Hok1 : cache_ok (as_replay s1)) by by eapply handled_ok.
  destruct (handle_all_ok reqs s1 Hok1) as [Hok2 Hc2]. fold s2 in Hok2, Hc2.
  destruct (handle_on_handled _ _ _ _ _ Hok2 Hh2) as [Hd2 Hc3].
  assert (Hent : ∃ m, as_calls s ≤ m < as_calls s3 ∧
    rc_idempotent (as_replay s1) !! k = Some (instant m, resp)).
  { destruct Hd1 as [[_ ? _] _|req a Hreq _ Hmut _ _ _|req _ _ [? _ _ _ _] _|
      req a t1 t2 i Hreq _ _ Hck _ Ht12 _ _ Hm _ Ht2 [= <-]]; [done|congruence|done|].
    assert (req = req1) as -> by congruence. destruct Hm as (_ & _ & Hm). rewrite Hk1, He in Hm.
    destruct Hm as (m & Hm & E). exists m. rewrite E, lookup_insert_eq. split; [|done].
    assert (Hct := ck_calls _ _ _ Hck). unfold during in Hm. lia. }
  destruct Hent as (m & Hmr & Hent).
  assert (Hent2 : rc_idempotent (as_replay s2) !! k = Some (instant m, resp)).
  { apply handle_all_keeps; [done..|]. intros n Hn. apply Hclock; [done|]. unfold during in Hn. fold s2 in Hn. lia. }
  assert (Hlive : ∀ n, during s2 s3 n → live_response s2 n k resp).
  { intros n Hn. exists (instant m). split; [done|]. apply Hclock; [done|]. unfold during in Hn. lia. }
  destruct Hd2 as [[_ Hp _] Hr|req a Hreq _ Hmut _ _ _|req Hreq _ [Hp _ _ _ _] Hr|
    req a t1 t2 i Hreq _ _ _ Had Ht12 _ _ _ _ Ht2 _]; [|congruence| |].
  - split; [done|]. right; left. by apply Hr.
  - assert (req = req2) as -> by congruence. split; [done|].
    destruct Hr as [->|(a & -> & [[e ->]|(k' & n & a' & Hk' & Hn & Hl & ->)])]; [by right; right|eauto|].
    left. assert (k' = k) as -> by congruence. destruct Hl as (t & Hl & _). congruence.
  - exfalso. assert (req = req2) as -> by congruence.
    destruct (ad_uncached _ _ _ _ Had k Hk2) as (n & Hn & Hl). apply (Hl resp), Hlive.
    unfold during in *. lia.
Qed.
End handler_props.

(** ** Names *)
Lemma find_method_elem name t m : find_method name t = Some m → (name, m) ∈ t.
Proof.
  induction t as [|[n m'] t IH]; [done|]. cbn.
  destruct (String.eqb_spec name n) as [->|]; [intros [= ->]; left|right; auto].
Qed.
Lemma method_table_ok :
  Forall (fun '(n, m) => find_method n method_table = Some m ∧
    (n ∈ standard_methods ↔ m ≠ SetTime)) method_table.
Proof. refine (bool_decide_eq_true_1 _ _). vm_compute. reflexivity. Qed.
Lemma standard_methods_ok :
  Forall (fun n => is_Some (find_method n method_table)) standard_methods.
Proof. refine (bool_decide_eq_true_1 _ _). vm_compute. reflexivity. Qed.
Lemma alias_table_ok :
  Forall (fun '(n, m) => find_method n method_table = None ∧
    (m = SetTime ∨ Exists (fun '(n', m') => m' = m ∧ n' ∈ standard_methods) method_table)) alias_table.
Proof. refine (bool_decide_eq_true_1 _ _). vm_compute. reflexivity. Qed.
Lemma methods_distinct : NoDup (snd <$> method_table) ∧ NoDup standard_methods.
Proof. refine (bool_decide_eq_true_1 _ _). vm_compute. reflexivity. Qed.

(** the agent advertises what it dispatches: the advertised names are distinct, no
    two of them mean the same method, every one of them is a method other than [SetTime]
    (which has no handler), and every name the agent understands, alias or not, is one
    of [SetTime] or of a method with an advertised name. *)
Theorem advertised_methods :
  NoDup standard_methods ∧
  (∀ n, n ∈ standard_methods → RpcMethod_parse n ≠ SetTime ∧ ∀ name, RpcMethod_parse n ≠ Unknown name) ∧
  (∀ n n', n ∈ standard_methods → n' ∈ standard_methods → RpcMethod_parse n = RpcMethod_parse n' → n = n') ∧
  (∀ n, RpcMethod_parse n = Unknown n ∨ RpcMethod_parse n = SetTime ∨
     ∃ n', n' ∈ standard_methods ∧ RpcMethod_parse n' = RpcMethod_parse n).
Proof.
  assert (Hstd : ∀ n, n ∈ standard_methods → ∃ m, RpcMethod_parse n = m ∧ (n, m) ∈ method_table ∧ m ≠ SetTime).
  { intros n Hn. assert (Hs := proj1 (Forall_forall _ _) standard_methods_ok n Hn).
    destruct Hs as [m Hm]. exists m. unfold RpcMethod_parse. rewrite Hm.
    assert (Hin := find_method_elem _ _ _ Hm). split; [done|]. split; [done|].
    by apply (proj1 (Forall_forall _ _) method_table_ok _ Hin). }
  assert (Hknown : ∀ n m, (n, m) ∈ method_table → ∀ name, m ≠ Unknown name).
  { assert (Hf : Forall (fun '(_, m) => match m with Unknown _ => False | _ => True end) method_table)
      by (vm_compute; repeat constructor).
    intros n m Hin name ->. by apply (proj1 (Forall_forall _ _) Hf _ Hin). }
  split; [apply methods_distinct|]. split; [|split].
  - intros n Hn. destruct (Hstd n Hn) as (m & -> & Hin & Hm). split; [done|]. by eapply Hknown.
  - intros n n' Hn Hn'. destruct (Hstd n Hn) as (m & -> & Hi & _), (Hstd n' Hn') as (m' & -> & Hi' & _).
    intros ->. apply list_elem_of_lookup in Hi as [i Hi], Hi' as [j Hj].
    assert (i = j) as ->; [|congruence].
    apply (NoDup_lookup (snd <$> method_table) i j m'); [apply methods_distinct|..];
      rewrite list_lookup_fmap; [by rewrite Hi|by rewrite Hj].
  - intros n. unfold RpcMethod_parse at 1 2. destruct (find_method n method_table) as [m|] eqn:Hm.
    + right. destruct (decide (m = SetTime)) as [|Hs]; [by left|right]. exists n.
      assert (Hin := find_method_elem _ _ _ Hm). unfold RpcMethod_parse. rewrite Hm. split; [|done].
      by apply (proj1 (Forall_forall _ _) method_table_ok _ Hin).
    + unfold parse_alias. destruct (find_method n alias_table) as [m|] eqn:Ha; cbn; [|by left].
      right. assert (Hin := find_method_elem _ _ _ Ha).
      destruct (proj1 (Forall_forall _ _) alias_table_ok _ Hin) as [_ [He|He]]; [by left|].
      apply Exists_exists in He as ([n' m'] & Hin' & -> & Hn'). right. exists n'. split; [done|].
      unfold RpcMethod_parse, parse_alias. rewrite Hm, Ha.
      by rewrite (proj1 (proj1 (Forall_forall _ _) method_table_ok _ Hin')).
Qed.

(** ** What the policy does not cover *)

(** a deny pattern names a wire name: an alias of the same method is not denied. *)
Example alias_escapes_deny :
  let p := mk_AgentPolicy default_PolicyActions default_CapabilityToggles
             (mk_MethodPolicy [] [METHOD_REBOOT]) default_SecurityPolicy in
  let glob := fun q => Some (String.eqb q) in
  RpcMethod_parse "system.reboot" = RpcMethod_parse METHOD_REBOOT ∧
  authorize glob p (RpcMethod_parse METHOD_REBOOT) METHOD_REBOOT ≠ None ∧
  authorize glob p (RpcMethod_parse "system.reboot") "system.reboot" = None.
Proof. by vm_compute. Qed.
(** applying a plan that is sent along needs no permission, with repairs and shell
    commands disabled. *)
Example fix_plan_ungated :
  mg_repair (pa_migration (po_actions default_AgentPolicy)) = false ∧
  shell_enabled default_AgentPolicy = false ∧
  authorize (fun _ => None) default_AgentPolicy RunFixPlan METHOD_RUN_FIX_PLAN = None.
Proof. by vm_compute. Qed.
(** a policy file that cannot be parsed drops the approval of power actions that a missing
    file asks for. *)
Lemma unreadable_policy_needs_no_approval from_yaml src path text :
  ps_variable src = Some path → ps_exists src path = true → ps_read src path = Some text →
  from_yaml text = None →
  ap_require_approval (pa_reboot_vm (po_actions (load from_yaml src))) = false ∧
  ap_require_approval (pa_reboot_vm (po_actions
    (load from_yaml (mk_policy_source (Some path) (fun _ => false) (fun _ => None))))) = true.
Proof. intros Hv He Hr Hy. unfold load. by rewrite Hv, He, Hr; cbn; rewrite Hy. Qed.
Lemma str_append_assoc a b c : (a +:+ b) +:+ c = a +:+ b +:+ c.
Proof. induction a as [|x a IH]; [done|]. exact (f_equal (String x) IH). Qed.
(** a method's name may hold a line break: one refusal writes two audit lines. *)
Lemma audit_line_forged t t' m m' o :
  audit_line t (m +:+ " outcome=" +:+ o +:+ " detail=" +:+ newline_str +:+ t' +:+ " method=" +:+ m') o "" =
  audit_line t m o "" +:+ audit_line t' m' o "".
Proof.
  unfold audit_line. by rewrite !str_append_assoc.
Qed.

(** ** An agent that runs *)
Section example.
(** no policy file; a request's text is its nonce. *)
#[local] Instance example_env : @AgentEnv ascii_platform := {
  policy_files _ := mk_policy_source None (fun _ => false) (fun _ => None);
  utc_nanos n := Z.of_nat n;
  instant n := Z.of_nat n;
  perform _ _ _ := inr (tt : @json_value ascii_platform);
  from_yaml _ := None;
  glob_new _ := None;
  utc_rfc3339 _ := "now";
  parse_ts _ := inl "no time";
  add_millis t ms := Some (t + ms * 1000000)%Z;
  request_from_slice b := inr (@mk_JsonRpcRequest ascii_platform "2.0" METHOD_FREEZE_FILESYSTEM tt
    None None None (Some b) (Some "key"));
  value_get _ _ := None;
  value_as_bool _ := None;
  value_as_str _ := None;
  io_text _ := ""
}.
Notation start := (@agent_start ascii_platform).
Notation handle := (@handle_on ascii_platform example_env None).
Notation later := (handle_all [(None, "b")] (handle "a" start).1).
Notation example_request nonce := (@mk_JsonRpcRequest ascii_platform "2.0" METHOD_FREEZE_FILESYSTEM
  (tt : @json_value ascii_platform) None None None (Some nonce) (Some "key")).
Notation example_answer := (@success ascii_platform None (tt : @json_value ascii_platform)).

Lemma first_acts : as_performed (handle "a" start).1 ≠ as_performed start.
Proof. by vm_compute. Qed.
Lemma first_answer : handle "a" start = ((handle "a" start).1, Ok example_answer).
Proof. vm_compute. reflexivity. Qed.
Lemma later_calls : as_calls (handle "c" later).1 = 12.
Proof. vm_compute. reflexivity. Qed.

Lemma no_replay_witness :
  as_performed (handle "a" later).1 = as_performed later.
Proof.
  refine (@no_replay ascii_platform example_env 4096 [] None "a" (example_request "a") "a"
    (handle "a" start).1 (handle "a" start).2 [(None, "b")] None "a" (example_request "a")
    (handle "a" later).1 (handle "a" later).2 _ eq_refl eq_refl eq_refl (surjective_pairing _)
    first_acts _ eq_refl eq_refl eq_refl (surjective_pairing _)).
  - intros n. reflexivity.
  - unfold cap_of. cbn [length]. lia.
Defined.
Lemma idempotent_once_witness :
  as_performed (handle "c" later).1 = as_performed later.
Proof.
  refine (proj1 (@idempotent_once ascii_platform example_env [] None "a" (example_request "a") "key"
    example_answer (handle "a" start).1 [(None, "b")] None "c" (example_request "c")
    (handle "c" later).1 (handle "c" later).2 eq_refl eq_refl eq_refl first_answer first_acts
    eq_refl eq_refl eq_refl eq_refl (surjective_pairing _) _)).
  rewrite later_calls. intros i j Hi Hj. unfold IDEMPOTENCY_TTL. cbn. lia.
Defined.
(** a retry that repeats the nonce is refused before the cached answer is looked up. *)
Example verbatim_retry_refused :
  (handle "a" (handle "a" start).1).2 =
  Ok (@refuse ascii_platform example_env (example_request "a") (AeReplayDetected "nonce a already used")).
Proof. vm_compute. reflexivity. Qed.
End example.
