(* ===== verification/Updater.v ===== *)
(** * The agent's self-update

    [src/agent/updater.rs] and [src/agent/update_sign.rs] (Linux build): a bundle is
    looked up, its manifest verified, the artifact downloaded, hashed and unpacked into
    the staging directory; a privileged helper installs the staged binary.

    Files are those of [LiveExec]; the temporary directory the artifact is unpacked into
    is kept as a value ([tree], in the order of [read_dir]) since it is removed again.
    The network, the archive formats, base64, the serializers, the environment variables
    and the socket of the helper are the class [Updates]. *)
From stdpp Require Import base gmap strings list.
From Stdlib Require Import ZArith Lia Ascii SpecFloat.
From S2P Require Import Prelude RustStr F64 Partition Filesystem Evidence BootChecks BootEngine Migration Kahn FixPlan Repair LiveExec Passport AgentRpc AgentPolicy.

Definition STAGED_AGENT : string := "/var/lib/zyvor/staged/zyvor-guest-agent".
Definition STAGED_META : string := "/var/lib/zyvor/staged/update.json".

Record BundleInfo : Type := mk_BundleInfo {
  bi_version : string;
  bi_channel : string;
  bi_linux_tar_url : option string;
  bi_linux_tar_sha256 : option string;
  bi_linux_tar_signature : option string;
  bi_windows_zip_url : option string;
  bi_windows_zip_sha256 : option string;
  bi_windows_zip_signature : option string
}.
Record StagedUpdateMeta : Type := mk_StagedUpdateMeta {
  sm_version : string;
  sm_channel : string;
  sm_artifact_url : string;
  sm_sha256 : string;
  sm_staged_at : string;
  sm_platform : string
}.
Record UpdateCheckResult : Type := mk_UpdateCheckResult {
  uc_current_version : string;
  uc_remote_version : option string;
  uc_channel : string;
  uc_update_available : bool;
  uc_artifact_url : option string;
  uc_artifact_sha256 : option string;
  uc_artifact_signature : option string;
  uc_platform : string
}.
Record UpdateManifest : Type := mk_UpdateManifest {
  um_version : string;
  um_channel : string;
  um_linux_tar_sha256 : string;
  um_windows_zip_sha256 : string
}.

(** a directory. *)
Inductive tree : Type :=
  | FileEntry (name : string) (content : file)
  | DirEntry (name : string) (entries : list tree).

Class Updates := {
  update_public_key_hex : option string;
  update_signing_key_hex : option string;
  manifest_to_vec : UpdateManifest → string + string;
  base64_encode : string → string;
  base64_decode : string → option string;
  (** the [n]-th call of the network *)
  fetch_bundle_info : nat → string + BundleInfo;
  download_bytes : nat → string → string + string;
  unpack_tar_gz : string → option (list tree);
  meta_to_string : StagedUpdateMeta → string + string;
  meta_from_str : string → string + StagedUpdateMeta;
  is_symlink : string → bool;
  (** is the helper's socket there, and the error of talking to it *)
  executor_available : nat → bool;
  executor_error : nat → option string;
  now_rfc3339 : nat → string
}.

(** ** Versions *)
Definition parse_version (raw : string) : list Z :=
  map (fun part => default 0%Z (parse_unsigned (2 ^ 64) part)) (split_char "."%char raw).
(** [Ord] on [Vec<u64>]. *)
Fixpoint version_lt (a b : list Z) : bool :=
  match a, b with
  | _, [] => false
  | [], _ => true
  | x :: a, y :: b => if (x <? y)%Z then true else if (x =? y)%Z then version_lt a b else false
  end.
Definition version_greater (remote current : string) : bool :=
  version_lt (parse_version current) (parse_version remote).

(** ** Archives *)
Fixpoint find_file_recursive (name : string) (entries : list tree) : option file :=
  match entries with
  | [] => None
  | e :: rest =>
      match (fix in_entry (e : tree) : option file :=
               match e with
               | FileEntry n f => if String.eqb n name then Some f else None
               | DirEntry _ es =>
                   (fix in_dir (es : list tree) : option file :=
                      match es with
                      | [] => None
                      | e :: es => match in_entry e with Some f => Some f | None => in_dir es end
                      end) es
               end) e with
      | Some f => Some f
      | None => find_file_recursive name rest
      end
  end.

Section updater.
Context `{Sys : System} `{Cr : Crypto} `{Up : !Updates}.

Definition hex_sha256 (bytes : string) : string := hex_encode (sha256 bytes).

(** ** Signatures *)
(** the development seed, as text. *)
Definition DEV_SIGNING_SEED : string := "zyvor-guest-update-dev-seed-0001".
(** a variable that is set and not blank, trimmed. *)
Definition set_variable (v : option string) : option string :=
  match v with
  | Some hex => if is_empty (trim hex) then None else Some (trim hex)
  | None => None
  end.
Definition decode_verifying_key (hex : string) : string + string :=
  match hex_decode hex with
  | None => inl "decode public key hex"
  | Some bytes =>
      if (String.length bytes =? 32)%nat then
        match ed_key_error bytes with Some e => inl e | None => inr bytes end
      else inl "public key must be 32 bytes"
  end.
Definition load_verifying_key : string + string :=
  match set_variable update_public_key_hex with
  | Some hex => decode_verifying_key hex
  | None => inr (ed_verifying_key DEV_SIGNING_SEED)
  end.
Definition load_signing_key : string + string :=
  match set_variable update_signing_key_hex with
  | Some hex =>
      match hex_decode hex with
      | None => inl "decode signing key hex"
      | Some bytes =>
          if (String.length bytes =? 32)%nat then inr bytes else inl "signing key must be 32 bytes"
      end
  | None => inr DEV_SIGNING_SEED
  end.
Definition canonical_bytes (m : UpdateManifest) : string + string :=
  match manifest_to_vec m with inl _ => inl "serialize update manifest" | inr b => inr b end.
Definition sign_manifest (m : UpdateManifest) : string + string :=
  match load_signing_key with
  | inl e => inl e
  | inr key =>
      match canonical_bytes m with
      | inl e => inl e
      | inr bytes => inr (base64_encode (ed_sign key bytes))
      end
  end.
(** [None]: the signature verifies. *)
Definition verify_manifest (m : UpdateManifest) (signature_b64 : string) : option string :=
  match load_verifying_key with
  | inl e => Some e
  | inr key =>
      match canonical_bytes m with
      | inl e => Some e
      | inr bytes =>
          match base64_decode (trim signature_b64) with
          | None => Some "decode manifest signature"
          | Some sig =>
              if negb (String.length sig =? 64)%nat then Some "parse ed25519 signature"
              else match ed_verify_error key bytes sig with
                   | Some e => Some ("manifest signature invalid: " +:+ e)
                   | None => None
                   end
          end
      end
  end.

(** ** Checking and staging *)
Definition counted_call {A} (f : nat → A) : run A := fun w => (count_call w, Ok (f (w_calls w))).
Definition or_text {A} (m : string + A) : run A :=
  match m with inl e => throw (ErrText e) | inr a => mret a end.
Definition current_platform : string := "linux".
Definition check_update : run UpdateCheckResult :=
  answer ← counted_call fetch_bundle_info;
  bundle ← or_text answer;
  let '(url, sha, sig) :=
    if String.eqb current_platform "windows" then
      (bi_windows_zip_url bundle, bi_windows_zip_sha256 bundle, bi_windows_zip_signature bundle)
    else (bi_linux_tar_url bundle, bi_linux_tar_sha256 bundle, bi_linux_tar_signature bundle) in
  mret (mk_UpdateCheckResult VERSION (Some (bi_version bundle)) (bi_channel bundle)
    (version_greater (bi_version bundle) VERSION) url sha sig current_platform).
Definition build_update_manifest (check : UpdateCheckResult) (expected_sha : string)
    : UpdateManifest :=
  let version := default "" (uc_remote_version check) in
  if String.eqb (uc_platform check) "windows" then
    mk_UpdateManifest version (uc_channel check) "" expected_sha
  else mk_UpdateManifest version (uc_channel check) expected_sha "".
(** [.filter(|s| !s.is_empty()).with_context(..)?]. *)
Definition non_empty (o : option string) (message : string) : run string :=
  match o with
  | Some s => if is_empty s then throw (ErrText message) else mret s
  | None => throw (ErrText message)
  end.
Definition extract_agent_binary_from_tar_gz (tar_gz dest : string) : run () :=
  with_context "create extract dir" (fs_create_dirs "/var/lib/zyvor/staged/extract") ;;
  match unpack_tar_gz tar_gz with
  | None => throw (ErrText "unpack tar.gz")
  | Some entries =>
      let candidate :=
        match find_file_recursive "guestkitd" entries with
        | Some f => Some f
        | None => find_file_recursive "zyvor-guest-agent" entries
        end in
      match candidate with
      | None => throw (ErrText "agent binary (guestkitd / zyvor-guest-agent) not found in artifact")
      | Some f =>
          with_context ("copy staged binary to " +:+ dest) (fs_update dest (fun _ => Some f)) ;;
          fs_chmod dest 493
      end
  end.
Definition restart_agent_services : run () :=
  command ["systemctl"; "try-restart"; "zyvor-guest-agent.service"] ;;
  command ["systemctl"; "try-restart"; "zyvor-guest-agent-exec.service"] ;;
  mret ().
Definition install_targets : list string :=
  ["/usr/bin/guestkitd"; "/usr/local/bin/guestkitd"; "/usr/bin/zyvor-guest-agent";
   "/usr/local/bin/zyvor-guest-agent"].
(** the loop over the targets; a file's directory exists. *)
Fixpoint install (targets : list string) : run (list string) :=
  match targets with
  | [] => mret []
  | target :: targets =>
      there ← exists_path target;
      if negb there || is_symlink target then install targets
      else
        with_context ("install staged binary to " +:+ target) (fs_copy STAGED_AGENT target) ;;
        fs_chmod target 493 ;;
        rest ← install targets;
        mret (target :: rest)
  end.
Definition apply_staged_update_privileged : run string :=
  meta_raw ← with_context "read staged update metadata" (fs_read STAGED_META);
  meta ← or_text (match meta_from_str meta_raw with
                  | inl _ => inl "parse staged update metadata" | inr m => inr m end);
  there ← exists_path STAGED_AGENT;
  if negb there then throw (ErrText ("staged binary missing at " +:+ STAGED_AGENT))
  else
    bytes ← with_context "read staged binary" (fs_bytes STAGED_AGENT);
    if negb (eq_ignore_ascii_case (hex_sha256 bytes) (sm_sha256 meta)) then
      throw (ErrText "staged binary sha256 mismatch")
    else if String.eqb (sm_platform meta) "windows" then
      throw (ErrText "windows staged apply only supported on Windows")
    else
      updated ← install install_targets;
      match updated with
      | [] => throw (ErrText "no install target found for staged agent binary")
      | _ =>
          restart_agent_services ;;
          mret ("applied " +:+ sm_version meta +:+ " to " +:+ join ", " updated
            +:+ " (sha256 verified, services restarted)")
      end.

(** the request to the helper, which answers with an object. *)
Definition call_apply : run string :=
  broken ← counted_call executor_error;
  match broken with
  | Some e => throw (ErrText e)
  | None => apply_staged_update_privileged ;; mret "staged update applied via executor"
  end.
(** everything up to the metadata, for an update that is available. *)
Definition stage_artifact (check : UpdateCheckResult) : run StagedUpdateMeta :=
  url ← non_empty (uc_artifact_url check)
    ("bundle has no " +:+ uc_platform check +:+ " artifact URL");
  expected_sha ← non_empty (uc_artifact_sha256 check)
    ("bundle has no " +:+ uc_platform check +:+ " sha256; refusing unsigned download");
  sig ← non_empty (uc_artifact_signature check)
    "bundle has no artifact signature; refusing unsigned download";
  match verify_manifest (build_update_manifest check expected_sha) sig with
  | Some _ => throw (ErrText "update manifest signature verification failed")
  | None =>
      answer ← counted_call (fun n => download_bytes n url);
      bytes ← or_text answer;
      let actual_sha := hex_sha256 bytes in
      if negb (eq_ignore_ascii_case actual_sha expected_sha) then
        throw (ErrText ("artifact sha256 mismatch (expected " +:+ expected_sha +:+ ", got "
          +:+ actual_sha +:+ ")"))
      else
        with_context "create staged dir" (fs_create_dirs "/var/lib/zyvor/staged") ;;
        (if String.eqb (uc_platform check) "windows" then
           throw (ErrText "windows zip updates are only supported on Windows guests")
         else extract_agent_binary_from_tar_gz bytes STAGED_AGENT) ;;
        now ← counted_call now_rfc3339;
        let meta := mk_StagedUpdateMeta (default "" (uc_remote_version check)) (uc_channel check)
          url actual_sha now (uc_platform check) in
        text ← or_text (meta_to_string meta);
        fs_write STAGED_META text ;;
        mret meta
  end.
Definition is_current (check : UpdateCheckResult) : string :=
  "Zyvor GuestAgent " +:+ uc_current_version check +:+ " is current (channel "
  +:+ uc_channel check +:+ ")".
Definition stage_update (apply : bool) : run string :=
  check ← check_update;
  if negb (uc_update_available check) then mret (is_current check)
  else
    meta ← stage_artifact check;
    if apply then
      available ← counted_call executor_available;
      if available : bool then call_apply
      else mret ("staged " +:+ sm_version meta +:+ " to " +:+ STAGED_AGENT
        +:+ "; executor unavailable — apply via privileged helper")
    else mret ("staged " +:+ sm_version meta +:+ " (sha256 verified) at " +:+ STAGED_AGENT).
Definition run_scheduled_update (policy : AgentPolicy) : run string :=
  if negb (su_enabled (pa_self_update (po_actions policy))) then
    mret "self-update disabled by agent policy"
  else
    check ← check_update;
    if negb (uc_update_available check) then mret (is_current check)
    else if negb (can_auto_apply_update policy) then
      mret ("update " +:+ default "" (uc_remote_version check) +:+ " available on channel "
        +:+ uc_channel check +:+ " (auto_apply disabled)")
    else stage_update true.
End updater.
