(* ===== verification/UpdaterProps.v ===== *)
(** * What a self-update guarantees

    Theorems on [Updater]: no file changes before the manifest's signature and the
    artifact's digest were checked; staging alone writes two files; a signature made
    with the configured key verifies, and so does one made with the published
    development key when no key is configured; the order of versions; and what the
    privileged helper makes of a staged update. *)
From stdpp Require Import base gmap strings list.
From Stdlib Require Import ZArith Lia Ascii SpecFloat.
From S2P Require Import Prelude RustStr F64 Partition Filesystem Evidence BootChecks BootEngine Migration Kahn FixPlan Repair LiveExec LiveProps Passport PassportProps AgentRpc AgentPolicy Updater.

(** ** The files a computation may touch *)
Section only.
Context `{Sys : System}.
(** whatever fails, files outside [X] are kept. *)
Definition only {A} (X : string → Prop) (m : run A) : Prop :=
  ∀ w x, ¬ X x → w_files (m w).1 !! x = w_files w !! x.

Lemma only_ret {A} X (a : A) : only X (mret a).
Proof. by intros w x. Qed.
Lemma only_throw {A} X e : only X (throw (A := A) e).
Proof. by intros w x. Qed.
Lemma only_bind {A B} X (m : run A) (f : A → run B) :
  only X m → (∀ a, only X (f a)) → only X (m ≫= f).
Proof.
  intros Hm Hf w x Hx. unfold mbind, run_bind. specialize (Hm w x Hx).
  destruct (m w) as [w' [a|e|]]; cbn in *; [|done|done]. by rewrite (Hf a w' x Hx).
Qed.
Lemma only_context {A} X msg (m : run A) : only X m → only X (with_context msg m).
Proof. intros Hm w x Hx. unfold with_context. specialize (Hm w x Hx). by destruct (m w) as [? []]. Qed.
Lemma only_update (X : string → Prop) p new : X p → only X (fs_update p new).
Proof.
  intros Hp w x Hx. assert (x ≠ p) by congruence. unfold fs_update.
  destruct (io _); [|destruct (new _)]; cbn; rewrite ?lookup_insert_ne, ?lookup_partial_alter_ne; done.
Qed.
Lemma only_counted {A} X (f : nat → A) : only X (counted_call f).
Proof. by intros w x. Qed.
Lemma only_dirs X d : only X (fs_create_dirs d).
Proof. by intros w x. Qed.
Lemma only_or_text {A} X (m : string + A) : only X (or_text m).
Proof. intros w x _. by destruct m. Qed.
Lemma only_non_empty X o e : only X (non_empty o e).
Proof. intros w x _. unfold non_empty. destruct o as [s|]; [|done]. by destruct (is_empty s). Qed.
Lemma only_nothing {A} (m : run A) w : only (fun _ => False) m → w_files (m w).1 = w_files w.
Proof. intros Hm. apply map_eq. intros x. apply (Hm w x). by intros []. Qed.
End only.
Create HintDb only.
#[export] Hint Resolve only_ret only_throw only_update only_counted only_dirs only_or_text only_non_empty
  : only.
Ltac touching :=
  repeat first [solve [auto with only] | apply only_bind; [|intros ?] | apply only_context
    | case_match].

(** ** Versions *)
Lemma version_lt_irrefl a : version_lt a a = false.
Proof. induction a as [|x a IH]; [done|]. cbn. by rewrite Z.ltb_irrefl, Z.eqb_refl. Qed.
Lemma version_lt_trans a b c :
  version_lt a b = true → version_lt b c = true → version_lt a c = true.
Proof.
  revert b c. induction a as [|x a IH]; intros [|y b] [|z c]; try done. cbn.
  destruct (Z.ltb_spec x y), (Z.ltb_spec y z), (Z.ltb_spec x z); try done; try lia;
    destruct (Z.eqb_spec x y), (Z.eqb_spec y z); try done; try lia.
  intros Hab Hbc. rewrite (proj2 (Z.eqb_eq x z)) by lia. by apply (IH b c).
Qed.
Lemma version_lt_total a b : version_lt a b = true ∨ a = b ∨ version_lt b a = true.
Proof.
  revert b. induction a as [|x a IH]; intros [|y b]; cbn; auto.
  destruct (Z.ltb_spec x y); [by left|]. destruct (Z.ltb_spec y x); [by auto|].
  assert (x = y) as -> by lia. rewrite Z.eqb_refl. destruct (IH b) as [|[->|]]; auto.
Qed.

Section updates.
Context `{Sys : System} `{Cr : Crypto} `{Up : !Updates}.

(** ** Signatures *)
Section signing.
Context `{CL : !CryptoLaws}.
(** the encoded signature is decoded as it was, whitespace around it removed. *)
Hypothesis base64_trimmed : ∀ s, base64_decode (trim (base64_encode s)) = Some s.

Lemma signed_bytes_verify key m bytes :
  load_verifying_key = inr (ed_verifying_key key) → canonical_bytes m = inr bytes →
  verify_manifest m (base64_encode (ed_sign key bytes)) = None.
Proof.
  intros Hk Hb. unfold verify_manifest.
  by rewrite Hk, Hb, base64_trimmed, sign_length, sign_verifies.
Qed.

(** the two keys belong together: the public one is configured as the hexadecimal
    digits of the signing key's, or neither is configured. *)
Definition keys_match : Prop :=
  (set_variable update_signing_key_hex = None ∧ set_variable update_public_key_hex = None) ∨
  ∃ key, load_signing_key = inr key ∧
    set_variable update_public_key_hex = Some (hex_of_bytes (ed_verifying_key key)).

(** a manifest signed by the release tool is accepted by the agent whenever the two
    keys belong together. *)
Theorem manifest_sign_verify m sig :
  keys_match → sign_manifest m = inr sig → verify_manifest m sig = None.
Proof.
  intros Hkeys. unfold sign_manifest. destruct load_signing_key as [e|key] eqn:Hs; [done|].
  destruct (canonical_bytes m) as [e|bytes] eqn:Hb; [done|]. intros [= <-].
  apply signed_bytes_verify; [|done]. unfold load_verifying_key.
  destruct Hkeys as [[H1 H2]|(k & Hk & ->)].
  - rewrite H2. unfold load_signing_key in Hs. rewrite H1 in Hs. by injection Hs as <-.
  - assert (k = key) as -> by congruence. unfold decode_verifying_key.
    by rewrite hex_decode_of, verifying_key_length, verifying_key_valid.
Qed.

(** when no public key is configured the agent accepts any manifest signed with the
    seed that is printed in the source, so anyone can sign an update. *)
Theorem dev_key_accepted m bytes :
  set_variable update_public_key_hex = None → canonical_bytes m = inr bytes →
  verify_manifest m (base64_encode (ed_sign DEV_SIGNING_SEED bytes)) = None.
Proof.
  intros Hk. apply signed_bytes_verify. unfold load_verifying_key. by rewrite Hk.
Qed.
End signing.

(** ** Staging *)
Definition staged_paths (x : string) : Prop := x = STAGED_AGENT ∨ x = STAGED_META.
Lemma staged_agent_path : staged_paths STAGED_AGENT.
Proof. by left. Qed.
Lemma staged_meta_path : staged_paths STAGED_META.
Proof. by right. Qed.
Hint Resolve staged_agent_path staged_meta_path : only.

(** what must hold before a file is written: the offered version is newer, the manifest
    of that version, channel and digest carries a valid signature, and the downloaded
    bytes have that digest. *)
Definition vetted (n : nat) (bytes : string) : Prop :=
  ∃ bundle url sha sig,
    fetch_bundle_info n = inr bundle ∧ version_greater (bi_version bundle) VERSION = true ∧
    bi_linux_tar_url bundle = Some url ∧ bi_linux_tar_sha256 bundle = Some sha ∧
    bi_linux_tar_signature bundle = Some sig ∧
    verify_manifest (mk_UpdateManifest (bi_version bundle) (bi_channel bundle) sha "") sig = None ∧
    download_bytes (S n) url = inr bytes ∧ eq_ignore_ascii_case (hex_sha256 bytes) sha = true.

Lemma stage_only check : only staged_paths (stage_artifact check).
Proof. unfold stage_artifact, extract_agent_binary_from_tar_gz, fs_chmod, fs_write. touching. Qed.
Hint Resolve stage_only : only.

(** the file of the agent in an archive. *)
Definition agent_in (bytes : string) (f : file) : Prop :=
  ∃ entries, unpack_tar_gz bytes = Some entries ∧
    (find_file_recursive "guestkitd" entries = Some f ∨
     find_file_recursive "zyvor-guest-agent" entries = Some f).

Lemma non_empty_Ok o e w w' s : non_empty o e w = (w', Ok s) → o = Some s ∧ w' = w.
Proof. unfold non_empty. repeat case_match; [done| |done]. intros [= <- <-]. done. Qed.
Lemma non_empty_cases o e w : non_empty o e w = (w, Err (ErrText e)) ∨
  ∃ s, o = Some s ∧ non_empty o e w = (w, Ok s).
Proof. unfold non_empty. repeat case_match; eauto. Qed.
Lemma counted_Ok {A} (f : nat → A) w w' x :
  counted_call f w = (w', Ok x) → x = f (w_calls w) ∧ w' = count_call w.
Proof. by intros [= <- <-]. Qed.
Lemma or_text_Ok {A} (m : string + A) w w' x : or_text m w = (w', Ok x) → m = inr x ∧ w' = w.
Proof. destruct m; [done|]. by intros [= <- <-]. Qed.

(** the result of a look-up that succeeds. *)
Definition check_of (b : BundleInfo) : UpdateCheckResult :=
  mk_UpdateCheckResult VERSION (Some (bi_version b)) (bi_channel b)
    (version_greater (bi_version b) VERSION) (bi_linux_tar_url b) (bi_linux_tar_sha256 b)
    (bi_linux_tar_signature b) current_platform.
Lemma check_update_eval w :
  check_update w = (count_call w, match fetch_bundle_info (w_calls w) with
    | inl e => Err (ErrText e) | inr b => Ok (check_of b) end).
Proof.
  unfold check_update, mbind, run_bind. cbn [counted_call].
  by destruct (fetch_bundle_info (w_calls w)).
Qed.

(** either nothing was written yet or the artifact was vetted. *)
Lemma stage_vetted bundle n w :
  fetch_bundle_info n = inr bundle → version_greater (bi_version bundle) VERSION = true →
  w_calls w = S n →
  (∃ w' e, stage_artifact (check_of bundle) w = (w', Err e) ∧ w_files w' = w_files w) ∨
  ∃ bytes, vetted n bytes.
Proof.
  intros Hb Hv Hn. unfold stage_artifact, mbind, run_bind. set (check := check_of bundle).
  destruct (non_empty_cases (uc_artifact_url check)
    ("bundle has no " +:+ uc_platform check +:+ " artifact URL") w) as [->|(url & Hu & ->)]; [by eauto|].
  destruct (non_empty_cases (uc_artifact_sha256 check)
    ("bundle has no " +:+ uc_platform check +:+ " sha256; refusing unsigned download") w)
    as [->|(sha & Hs & ->)]; [by eauto|].
  destruct (non_empty_cases (uc_artifact_signature check)
    "bundle has no artifact signature; refusing unsigned download" w) as [->|(sig & Hg & ->)]; [by eauto|].
  destruct (verify_manifest _ sig) as [e|] eqn:Hver; [by left; eauto|].
  cbn [counted_call]. rewrite Hn.
  destruct (download_bytes (S n) url) as [e|bytes] eqn:Hd; [by left; eauto|]. cbn [or_text mret run_ret].
  destruct (eq_ignore_ascii_case (hex_sha256 bytes) sha) eqn:Hsha; [|by left; eauto].
  right. exists bytes, bundle, url, sha, sig. done.
Qed.

(** C15: the update changes no file — whether it is only staged or also applied, and
    wherever it fails — unless the offered version is newer, the manifest made of that
    version, channel and digest has a valid signature, and the downloaded artifact has
    the signed digest. *)
Theorem update_needs_signature apply w :
  w_files (stage_update apply w).1 ≠ w_files w → ∃ bytes, vetted (w_calls w) bytes.
Proof.
  intros Hch. unfold stage_update, mbind, run_bind in Hch. rewrite check_update_eval in Hch.
  destruct (fetch_bundle_info (w_calls w)) as [e|bundle] eqn:Hb; [done|].
  unfold check_of in Hch. cbn [uc_update_available] in Hch. fold (check_of bundle) in Hch.
  destruct (version_greater (bi_version bundle) VERSION) eqn:Hv; [|done]. cbn [negb] in Hch.
  destruct (stage_vetted bundle _ (count_call w) Hb Hv eq_refl) as [(w' & e & He & Hf)|]; [|done].
  by rewrite He in Hch.
Qed.

(** staging without applying writes at most the staged binary and its metadata,
    whatever fails. *)
Theorem staging_only_stages w x :
  x ≠ STAGED_AGENT → x ≠ STAGED_META → w_files (stage_update false w).1 !! x = w_files w !! x.
Proof.
  intros H1 H2. assert (only staged_paths (stage_update false)) as Ho.
  { unfold stage_update, check_update. touching. }
  apply Ho. by intros [|].
Qed.

(** ** Applying *)
Lemma extract_Ok bytes dest w w' :
  extract_agent_binary_from_tar_gz bytes dest w = (w', Ok ()) →
  ∃ f m, agent_in bytes f ∧ w_files w' = <[dest := mk_file (f_content f) m]> (w_files w).
Proof.
  unfold extract_agent_binary_from_tar_gz. intros H. run_inv.
  apply with_context_Ok, (files_of_reads _ _ _ _ (reads_dirs _)) in H0.
  destruct (unpack_tar_gz bytes) as [entries|] eqn:Hu; [|done].
  assert (∀ f, match find_file_recursive "guestkitd" entries with
    | Some f => Some f | None => find_file_recursive "zyvor-guest-agent" entries end = Some f →
    agent_in bytes f) as Hag.
  { intros f Hf. exists entries. split; [done|]. destruct (find_file_recursive "guestkitd" entries); auto. }
  destruct (match find_file_recursive "guestkitd" entries with
    | Some f => Some f | None => _ end) as [f|]; [|done]. run_inv.
  apply with_context_Ok in H1. destruct x2. apply fs_update_Ok in H1 as (f' & [= <-] & E1).
  apply fs_chmod_Ok in H as (f' & m & Hf & E2). rewrite E1, lookup_insert_eq in Hf.
  injection Hf as <-. exists f, m. split; [by apply Hag|]. by rewrite E2, E1, insert_insert_eq, H0.
Qed.

Lemma stage_Ok check w w' meta :
  stage_artifact check w = (w', Ok meta) →
  ∃ bytes f m m' text, sm_sha256 meta = hex_sha256 bytes ∧ agent_in bytes f ∧
    meta_to_string meta = inr text ∧ w_files w' !! STAGED_AGENT = Some (mk_file (f_content f) m) ∧
    w_files w' !! STAGED_META = Some (mk_file text m').
Proof.
  unfold stage_artifact. intros H. run_inv.
  destruct (verify_manifest _ _); [done|]. run_inv.
  destruct (eq_ignore_ascii_case _ _); [|done]. cbn [negb] in H. run_inv.
  destruct (String.eqb (uc_platform check) "windows"); [done|].
  apply or_text_Ok in H8 as [Hmeta ->]. injection H7 as <- <-. destruct x12.
  apply extract_Ok in H6 as (f & m & Hag & Hf). apply fs_write_Ok in H9 as (m' & Hw).
  exists x8, f, m, m', x16. rewrite Hw. do 3 (split; [done|]).
  rewrite lookup_insert_eq, lookup_insert_ne by done. cbn [w_files count_call].
  by rewrite Hf, lookup_insert_eq.
Qed.

Section refused.
Hypothesis io_succeeds : ∀ n, io n = None.
(** the metadata is read back as it was written. *)
Hypothesis meta_round_trip : ∀ m t,
  meta_to_string m = inr t → meta_from_str t = inr m ∧ utf8_valid t = true.
(** no archive has the digest of the binary inside it. *)
Hypothesis archive_differs : ∀ bytes f,
  agent_in bytes f → eq_ignore_ascii_case (hex_sha256 (f_content f)) (hex_sha256 bytes) = false.

Lemma apply_refused w text m m' meta content :
  w_files w !! STAGED_META = Some (mk_file text m) → w_files w !! STAGED_AGENT = Some (mk_file content m') →
  meta_from_str text = inr meta → utf8_valid text = true →
  eq_ignore_ascii_case (hex_sha256 content) (sm_sha256 meta) = false →
  ∃ w', apply_staged_update_privileged w = (w', Err (ErrText "staged binary sha256 mismatch")) ∧
    w_files w' = w_files w.
Proof.
  intros Hm Ha Hp Hu Hd. exists (count_call (count_call w)). split; [|done].
  unfold apply_staged_update_privileged, mbind, run_bind, with_context, fs_read, fs_bytes, exists_path.
  rewrite !io_succeeds. cbn [w_files count_call]. rewrite Hm. cbn [f_content]. rewrite Hu, Hp.
  cbn [or_text mret run_ret w_files count_call]. rewrite bool_decide_eq_true_2 by (by rewrite Ha).
  cbn [negb w_files count_call w_calls]. rewrite io_succeeds, Ha. cbn [f_content]. by rewrite Hd.
Qed.

(** the metadata holds the digest of the downloaded archive, the privileged helper
    compares it with the digest of the binary taken out of the archive: an update that
    was staged without any error is always refused by the helper, now or later, and the
    agent is never replaced. *)
Theorem staged_update_refused check w w1 meta w2 :
  stage_artifact check w = (w1, Ok meta) →
  w_files w2 !! STAGED_META = w_files w1 !! STAGED_META →
  w_files w2 !! STAGED_AGENT = w_files w1 !! STAGED_AGENT →
  ∃ w3, apply_staged_update_privileged w2 = (w3, Err (ErrText "staged binary sha256 mismatch")) ∧
    w_files w3 = w_files w2.
Proof.
  intros (bytes & f & m & m' & text & Hs & Hag & Ht & Ha & Hm)%stage_Ok E1 E2.
  destruct (meta_round_trip _ _ Ht) as [Hp Hu].
  eapply (apply_refused w2 text m' m meta (f_content f)); [congruence..|]. rewrite Hs. auto.
Qed.
End refused.
End updates.

(** the order of versions is a strict total order on the numbers of their parts: no
    version replaces itself, two updates in a row go up, and of two versions that differ
    in a number exactly one replaces the other. *)
Theorem version_order a b c :
  version_greater a a = false ∧
  (version_greater a b = true → version_greater b c = true → version_greater a c = true) ∧
  (parse_version a ≠ parse_version b → version_greater a b = negb (version_greater b a)).
Proof.
  unfold version_greater. split; [apply version_lt_irrefl|split].
  - intros Hab Hbc. by apply (version_lt_trans _ (parse_version b)).
  - intros Hne. destruct (version_lt_total (parse_version a) (parse_version b)) as [H|[H|H]]; [|done|];
      rewrite H; destruct (version_lt _ _) eqn:H' at 1; try done;
      pose proof (version_lt_trans _ _ _ H H') as Hi; by rewrite version_lt_irrefl in Hi.
Qed.
(** the text after the number of a part hides it: a release candidate is older than any
    release whose last number is not 0. *)
Example release_candidate : version_greater "1.3.1" "1.3.1-rc2" = true ∧
  version_greater "1.3.0-rc2" "1.3.0" = false ∧ version_greater "1.10.0" "1.9.9" = true.
Proof. by vm_compute. Qed.

(** ** A concrete update

    A system whose digest tells archives from other files, and a bundle whose manifest is
    signed with the toy signature of [PassportProps]. *)
Definition update_system : System := {|
  io := fun _ => None;
  manifest_json := fun _ => "";
  manifest_of_json := fun _ => None;
  new_file_mode := 420%Z;
  exec := fun _ fs => (fs, inr (mk_cmd_result (Some 0%Z) ""));
  make_symlink := fun _ _ fs => (fs, true);
  make_dirs := fun _ _ => true;
  sha256 := fun s => [if starts_with "tgz" s then 1 else 0]%Z
|}.
Definition toy_meta : StagedUpdateMeta :=
  mk_StagedUpdateMeta "9.0.0" "stable" "https://updates/a.tgz" "01" "now" "linux".
#[export] Instance StagedUpdateMeta_eq_dec : EqDecision StagedUpdateMeta.
Proof. solve_decision. Defined.
Definition toy_bundle : BundleInfo :=
  mk_BundleInfo "9.0.0" "stable" (Some "https://updates/a.tgz") (Some "01")
    (Some (toy_hex (repeat_char "s" 64))) None None None.
Definition toy_updates : Updates := {|
  update_public_key_hex := None;
  update_signing_key_hex := None;
  manifest_to_vec := fun m => inr (um_version m +:+ um_linux_tar_sha256 m);
  base64_encode := toy_hex;
  base64_decode := toy_unhex;
  fetch_bundle_info := fun _ => inr toy_bundle;
  download_bytes := fun _ _ => inr "tgz";
  unpack_tar_gz := fun s => if starts_with "tgz" s
    then Some [FileEntry "README" (mk_file "" 420); DirEntry "bin" [FileEntry "guestkitd" (mk_file "ELF" 493)]]
    else None;
  meta_to_string := fun m => if decide (m = toy_meta) then inr "meta" else inl "no text";
  meta_from_str := fun _ => inr toy_meta;
  is_symlink := fun _ => false;
  executor_available := fun _ => true;
  executor_error := fun _ => None;
  now_rfc3339 := fun _ => "now"
|}.
Definition old_agent : world :=
  mk_world {[ "/usr/bin/guestkitd" := mk_file "old" 493 ]} false 0.
Notation toy_verify := (@verify_manifest toy_crypto toy_updates).
Notation toy_sign := (@sign_manifest toy_crypto toy_updates).
Notation toy_stage_update := (@stage_update update_system toy_crypto toy_updates).
Definition toy_manifest : UpdateManifest := mk_UpdateManifest "9.0.0" "stable" "01" "".

Lemma toy_base64 s : toy_unhex (trim (toy_hex s)) = Some s.
Proof.
  rewrite trim_hex by exact (@hex_digits toy_crypto toy_laws s).
  exact (@hex_decode_of toy_crypto toy_laws s).
Qed.
Lemma manifest_sign_verify_witness : ∃ sig, toy_sign toy_manifest = inr sig ∧
  toy_verify toy_manifest sig = None.
Proof.
  eexists. split; [reflexivity|].
  exact (@manifest_sign_verify toy_crypto toy_updates toy_laws toy_base64 toy_manifest _
    ltac:(by left) eq_refl).
Defined.
Lemma dev_key_accepted_witness :
  toy_verify toy_manifest (toy_hex (@ed_sign toy_crypto DEV_SIGNING_SEED "9.0.001")) = None.
Proof.
  exact (@dev_key_accepted toy_crypto toy_updates toy_laws toy_base64 toy_manifest "9.0.001"
    eq_refl eq_refl).
Defined.
Lemma toy_update_writes : w_files (toy_stage_update true old_agent).1 ≠ w_files old_agent.
Proof. intros H. apply (f_equal (lookup STAGED_AGENT)) in H. by vm_compute in H. Qed.
Lemma update_needs_signature_witness :
  ∃ bytes, @vetted update_system toy_crypto toy_updates 0 bytes.
Proof.
  exact (@update_needs_signature update_system toy_crypto toy_updates true old_agent toy_update_writes).
Defined.
Lemma staging_only_stages_witness :
  w_files (toy_stage_update false old_agent).1 !! "/usr/bin/guestkitd" =
  Some (mk_file "old" 493).
Proof.
  rewrite (@staging_only_stages update_system toy_crypto toy_updates old_agent "/usr/bin/guestkitd"
    ltac:(done) ltac:(done)).
  reflexivity.
Defined.
Lemma toy_archive_differs bytes f : @agent_in toy_updates bytes f →
  eq_ignore_ascii_case (@hex_sha256 update_system (f_content f))
    (@hex_sha256 update_system bytes) = false.
Proof.
  intros (entries & Hu & Hf). unfold hex_sha256, sha256, update_system.
  unfold unpack_tar_gz, toy_updates in Hu. destruct (starts_with "tgz" bytes); [|done].
  injection Hu as <-. destruct Hf as [Hf|Hf]; [injection Hf as <-|done]. by vm_compute.
Qed.
Lemma toy_meta_round_trip m t :
  @meta_to_string toy_updates m = inr t →
  @meta_from_str toy_updates t = inr m ∧ utf8_valid t = true.
Proof. cbn. destruct (decide (m = toy_meta)) as [->|]; [|done]. by intros [= <-]. Qed.
Notation toy_staged := (@stage_artifact update_system toy_crypto toy_updates (check_of toy_bundle) old_agent).
Lemma toy_staged_Ok : toy_staged = (toy_staged.1, Ok toy_meta).
Proof. by vm_compute. Qed.
Lemma staged_update_refused_witness :
  ∃ w, @apply_staged_update_privileged update_system toy_updates toy_staged.1 =
    (w, Err (ErrText "staged binary sha256 mismatch")) ∧ w_files w = w_files toy_staged.1.
Proof.
  exact (@staged_update_refused update_system toy_crypto toy_updates (fun _ => eq_refl)
    toy_meta_round_trip toy_archive_differs (check_of toy_bundle) old_agent _ toy_meta _ toy_staged_Ok
    eq_refl eq_refl).
Defined.
