(* ===== verification/Fstab.v ===== *)
(** * Device inventory and mount tables

    [src/guestfs/device_inventory.rs], [src/guestfs/fstab.rs] and the inventory of
    [src/guestfs/fstab_rewriter.rs]: block devices are probed with [blkid] and [lsblk]
    and indexed by path, UUID, PARTUUID and label; the entries of [/etc/fstab] and
    [/etc/crypttab] that name an inventoried device get its portable name.

    The two tools and [fs::canonicalize] are the class [BlockTools]; the warnings on
    standard error are not modelled.  Files are those of [LiveExec]. *)
From stdpp Require Import base gmap strings list.
From Stdlib Require Import ZArith Lia Ascii.
From S2P Require Import Prelude RustStr DiskReader Partition Filesystem Kahn FixPlan LiveExec Passport.

(** ** Devices *)
Inductive BlockType : Type :=
  | BlkPart | BlkLvm | BlkCrypt | BlkRaid | BlkDisk | BlkOther (name : string).
#[export] Instance BlockType_eq_dec : EqDecision BlockType.
Proof. solve_decision. Defined.

Definition BlockType_from_str (s : string) : BlockType :=
  if String.eqb s "part" then BlkPart
  else if String.eqb s "lvm" then BlkLvm
  else if String.eqb s "crypt" then BlkCrypt
  else if String.eqb s "raid" then BlkRaid
  else if String.eqb s "disk" then BlkDisk
  else BlkOther s.

Record DevInfo : Type := mk_DevInfo {
  di_dev : string;
  di_fstype : option string;
  di_uuid : option string;
  di_label : option string;
  di_partuuid : option string;
  di_blk_type : BlockType;
  di_luks_uuid : option string
}.

Definition is_partition (d : DevInfo) : bool :=
  bool_decide (di_blk_type d = BlkPart) && bool_decide (is_Some (di_partuuid d)).
Definition is_logical_volume (d : DevInfo) : bool :=
  match di_blk_type d with BlkLvm | BlkRaid | BlkCrypt => true | _ => false end
  || starts_with "/dev/mapper/" (di_dev d).
Definition prefer_partuuid (d : DevInfo) (mountpoint : string) : bool :=
  is_partition d && existsb (String.eqb mountpoint) ["/"; "/boot"; "/boot/efi"; "/efi"].
(** [unwrap] is safe: a preferred PARTUUID is there. *)
Definition canonical_spec (d : DevInfo) (mountpoint : string) : string :=
  if prefer_partuuid d mountpoint then "PARTUUID=" +:+ default "" (di_partuuid d)
  else
    match di_uuid d, di_partuuid d, di_label d with
    | Some uuid, _, _ => "UUID=" +:+ uuid
    | None, Some partuuid, _ => "PARTUUID=" +:+ partuuid
    | None, None, Some label => "LABEL=" +:+ label
    | None, None, None => di_dev d
    end.

Record Inventory : Type := mk_Inventory {
  by_dev : gmap string DevInfo;
  by_uuid : gmap string string;
  by_partuuid : gmap string string;
  by_label : gmap string string
}.

Class BlockTools := {
  (** [blkid -o export dev] and [lsblk -no TYPE dev] *)
  run_blkid : string → string + cmd_result;
  run_lsblk : string → string + cmd_result;
  (** [fs::canonicalize], when it succeeds *)
  canonicalize : string → option string
}.

(** [or_insert_with] of a map. *)
Definition or_insert {A} (k : string) (v : A) (m : gmap string A) : gmap string A :=
  match m !! k with Some _ => m | None => <[k := v]> m end.

Section inventory.
Context `{BT : BlockTools}.

Definition canonicalize_dev_path (path : string) : option string :=
  if negb (starts_with "/dev/" path) then None else canonicalize path.

Definition succeeded (r : cmd_result) : bool := bool_decide (cr_exit r = Some 0%Z).
Definition stdout_text (r : cmd_result) : string :=
  from_utf8_lossy (byte_of <$> String.list_ascii_of_string (cr_stdout r)).
Definition blkid_line (data : gmap string string) (line : string) : gmap string string :=
  match split_once "="%char line with Some (key, value) => <[key := value]> data | None => data end.
Definition blkid_export (dev : string) : outcome Error (gmap string string) :=
  match run_blkid dev with
  | inl e => Err (CommandFailed ("Failed to run blkid: " +:+ e))
  | inr output =>
      if negb (succeeded output) then Ok ∅
      else Ok (foldl blkid_line ∅ (lines (stdout_text output)))
  end.
Definition lsblk_type (dev : string) : outcome Error BlockType :=
  match run_lsblk dev with
  | inl e => Err (CommandFailed ("Failed to run lsblk: " +:+ e))
  | inr output =>
      if negb (succeeded output) then Ok (BlkOther "unknown")
      else Ok (BlockType_from_str (trim (stdout_text output)))
  end.
Definition probe_device (dev : string) : outcome Error DevInfo :=
  data ← blkid_export dev;
  let fstype := data !! "TYPE" in
  let uuid := data !! "UUID" in
  blk_type ← lsblk_type dev;
  mret (mk_DevInfo dev fstype uuid (data !! "LABEL") (data !! "PARTUUID") blk_type
    (if bool_decide (fstype = Some "crypto_LUKS") then uuid else None)).

(** the maps while the devices are read, with the number of devices per label. *)
Record inventory_state : Type := mk_inventory_state {
  is_maps : Inventory;
  is_label_counts : gmap string Z
}.
Definition empty_inventory : inventory_state := mk_inventory_state (mk_Inventory ∅ ∅ ∅ ∅) ∅.
Definition or_insert_opt (k : option string) (v : string) (m : gmap string string) :=
  match k with Some k => or_insert k v m | None => m end.
Definition add_device (s : inventory_state) (dev : string) (info : DevInfo) : inventory_state :=
  let inv := is_maps s in
  mk_inventory_state
    (mk_Inventory (<[dev := info]> (by_dev inv)) (or_insert_opt (di_uuid info) dev (by_uuid inv))
      (or_insert_opt (di_partuuid info) dev (by_partuuid inv))
      (or_insert_opt (di_label info) dev (by_label inv)))
    (match di_label info with
     | Some label => <[label := (default 0 (is_label_counts s !! label) + 1)%Z]> (is_label_counts s)
     | None => is_label_counts s
     end).
Fixpoint read_devices (devices : list string) (s : inventory_state) : outcome Error inventory_state :=
  match devices with
  | [] => mret s
  | input_dev :: devices =>
      let dev := default input_dev (canonicalize_dev_path input_dev) in
      info ← probe_device dev;
      read_devices devices (add_device s dev info)
  end.
Definition drop_collisions (s : inventory_state) : Inventory :=
  let inv := is_maps s in
  mk_Inventory (by_dev inv) (by_uuid inv) (by_partuuid inv)
    (map_fold (fun label count m => if (1 <? count)%Z then delete label m else m)
       (by_label inv) (is_label_counts s)).
Definition build_inventory (devices : list string) : outcome Error Inventory :=
  s ← read_devices devices empty_inventory;
  mret (drop_collisions s).

(** the guest's partitions, by number, and its logical volumes when they can be listed. *)
Definition build_device_inventory (numbers : list Z) (lvs : option (list string))
    : outcome Error Inventory :=
  build_inventory (map (fun n => "/dev/sda" +:+ fmt_Z n) numbers ++ default [] lvs).

Definition indexed (inv : Inventory) (index : gmap string string) (k : string) : option DevInfo :=
  match index !! k with Some dev => by_dev inv !! dev | None => None end.
Definition find_by_spec (inv : Inventory) (spec : string) : option DevInfo :=
  let spec := trim spec in
  match strip_prefix "UUID=" spec with
  | Some uuid => indexed inv (by_uuid inv) uuid
  | None =>
  match strip_prefix "PARTUUID=" spec with
  | Some partuuid => indexed inv (by_partuuid inv) partuuid
  | None =>
  match strip_prefix "LABEL=" spec with
  | Some label => indexed inv (by_label inv) label
  | None =>
      if starts_with "/dev/" spec then
        match by_dev inv !! spec with
        | Some info => Some info
        | None =>
            match canonicalize_dev_path spec with
            | Some canonical => by_dev inv !! canonical
            | None => None
            end
        end
      else None
  end
  end
  end.
End inventory.

(** ** Entries *)
Record FstabFileEntry : Type := mk_FstabFileEntry {
  fe_spec : string;
  fe_mountpoint : string;
  fe_fstype : string;
  fe_options : string;
  fe_dump : string;
  fe_pass : string
}.
Definition tab_str : string := String (ascii_of_byte 9) "".

Definition FstabEntry_parse (line : string) : option FstabFileEntry :=
  let trimmed := trim line in
  if is_empty trimmed || starts_with "#" trimmed then None
  else
    match split_whitespace trimmed with
    | spec :: mountpoint :: fstype :: options :: rest =>
        Some (mk_FstabFileEntry spec mountpoint fstype options
          (default "0" (rest !! 0)) (default "0" (rest !! 1)))
    | _ => None
    end.
(** without the line end. *)
Definition fstab_fields (e : FstabFileEntry) : string :=
  join tab_str [fe_spec e; fe_mountpoint e; fe_fstype e; fe_options e; fe_dump e; fe_pass e].
Definition FstabEntry_format (e : FstabFileEntry) : string := fstab_fields e +:+ newline_str.
Definition needs_rewrite (e : FstabFileEntry) : bool :=
  let spec := fe_spec e in
  if starts_with "/dev/sd" spec || starts_with "/dev/vd" spec || starts_with "/dev/nbd" spec
     || starts_with "/dev/disk/by-path/" spec || starts_with "/dev/hd" spec
  then true
  else if starts_with "/dev/mapper/" spec then true
  else false.

Record CrypttabFileEntry : Type := mk_CrypttabFileEntry {
  ce_name : string;
  ce_device : string;
  ce_keyfile : string;
  ce_options : string
}.
Definition CrypttabEntry_parse (line : string) : option CrypttabFileEntry :=
  let trimmed := trim line in
  if is_empty trimmed || starts_with "#" trimmed then None
  else
    match split_whitespace trimmed with
    | name :: device :: rest =>
        Some (mk_CrypttabFileEntry name device (default "none" (rest !! 0)) (default "" (rest !! 1)))
    | _ => None
    end.
Definition crypttab_fields (e : CrypttabFileEntry) : string :=
  join " " ([ce_name e; ce_device e; ce_keyfile e]
    ++ if is_empty (ce_options e) then [] else [ce_options e]).
Definition CrypttabEntry_format (e : CrypttabFileEntry) : string := crypttab_fields e +:+ newline_str.

(** ** Mount options *)
Definition remove_mount_option (opts key : string) : string :=
  join "," (filter (fun o => negb (is_empty o) && negb (String.eqb o key || starts_with (key +:+ "=") o))
    (trim <$> split_char "," opts)).
Definition set_mount_option (opts key kv : string) : string :=
  let cleaned := remove_mount_option opts key in
  if is_empty cleaned then kv else cleaned +:+ "," +:+ kv.

(** ** Rewriting *)
Definition BtrfsSubvolMap : Type := gmap string string.

Section rewriting.
Context `{BT : BlockTools}.

Definition btrfs_options (subvols : BtrfsSubvolMap) (e : FstabFileEntry) : string :=
  match subvols !! fe_mountpoint e with
  | Some subvol =>
      remove_mount_option (set_mount_option (fe_options e) "subvol" ("subvol=" +:+ subvol)) "subvolid"
  | None => fe_options e
  end.
(** the entry for a device of the inventory. *)
Definition rewrite_entry (subvols : BtrfsSubvolMap) (d : DevInfo) (e : FstabFileEntry) : FstabFileEntry :=
  let new_spec :=
    if String.eqb (fe_fstype e) "swap" then
      match di_uuid d with
      | Some uuid => "UUID=" +:+ uuid
      | None => canonical_spec d (fe_mountpoint e)
      end
    else canonical_spec d (fe_mountpoint e) in
  if String.eqb (fe_fstype e) "btrfs" then
    let new_spec :=
      if negb (is_partition d) then
        match di_uuid d with Some uuid => "UUID=" +:+ uuid | None => new_spec end
      else new_spec in
    mk_FstabFileEntry new_spec (fe_mountpoint e) (fe_fstype e) (btrfs_options subvols e) (fe_dump e) (fe_pass e)
  else mk_FstabFileEntry new_spec (fe_mountpoint e) (fe_fstype e) (fe_options e) (fe_dump e) (fe_pass e).
Definition rewrite_fstab_line (inv : Inventory) (subvols : BtrfsSubvolMap) (line : string) : string :=
  match FstabEntry_parse line with
  | Some e =>
      match find_by_spec inv (fe_spec e) with
      | Some d => FstabEntry_format (rewrite_entry subvols d e)
      | None => if needs_rewrite e then line +:+ newline_str else line +:+ newline_str
      end
  | None => line +:+ newline_str
  end.
Definition rewrite_fstab_content (inv : Inventory) (subvols : BtrfsSubvolMap) (content : string) : string :=
  join "" (rewrite_fstab_line inv subvols <$> lines content).

Definition rewrite_crypttab_entry (d : DevInfo) (e : CrypttabFileEntry) : CrypttabFileEntry :=
  let device :=
    match di_luks_uuid d, di_uuid d with
    | Some luks_uuid, _ => "UUID=" +:+ luks_uuid
    | None, Some uuid => "UUID=" +:+ uuid
    | None, None => ce_device e
    end in
  mk_CrypttabFileEntry (ce_name e) device (ce_keyfile e) (ce_options e).
Definition rewrite_crypttab_line (inv : Inventory) (line : string) : string :=
  match CrypttabEntry_parse line with
  | Some e =>
      match find_by_spec inv (ce_device e) with
      | Some d => CrypttabEntry_format (rewrite_crypttab_entry d e)
      | None => line +:+ newline_str
      end
  | None => line +:+ newline_str
  end.
Definition rewrite_crypttab_content (inv : Inventory) (content : string) : string :=
  join "" (rewrite_crypttab_line inv <$> lines content).

Context `{Sys : System}.
Definition rewrite_fstab (fstab_path : string) (inv : Inventory) (subvols : BtrfsSubvolMap) : run () :=
  content ← with_context "Cannot read fstab" (fs_read fstab_path);
  with_context "Cannot write fstab" (fs_write fstab_path (rewrite_fstab_content inv subvols content)).
Definition rewrite_crypttab (crypttab_path : string) (inv : Inventory) : run () :=
  there ← exists_path crypttab_path;
  if negb there then mret ()
  else
    content ← with_context "Cannot read crypttab" (fs_read crypttab_path);
    with_context "Cannot write crypttab" (fs_write crypttab_path (rewrite_crypttab_content inv content)).
End rewriting.
