(* ===== verification/FstabProps.v ===== *)
(** * What rewriting the mount tables guarantees

    Theorems on [Fstab]: formatting and parsing an entry; what the inventory's indexes
    hold; a rewritten entry still names the device it named; comments, unknown entries and
    the order of lines are kept; and a second rewrite changes nothing. *)
From stdpp Require Import base gmap strings list.
From Stdlib Require Import ZArith Lia Ascii.
From S2P Require Import Prelude RustStr DiskReader Partition Filesystem Kahn FixPlan LiveExec Passport Words Fstab.

(** ** Entries *)
Definition entry_words (e : FstabFileEntry) : Prop :=
  Forall word [fe_spec e; fe_mountpoint e; fe_fstype e; fe_options e; fe_dump e; fe_pass e].

Lemma starts_hash_app w t : w ≠ "" → starts_with "#" (w +:+ t) = starts_with "#" w.
Proof.
  destruct w as [|c w]; [done|]. intros _. change (String c w +:+ t) with (String c (w +:+ t)).
  unfold starts_with. cbn [String.prefix]. destruct (ascii_dec "#" c); [|done].
  by destruct w, t.
Qed.
Lemma joined_entry c w ws :
  Forall word (w :: ws) → is_white c = true → starts_with "#" w = false →
  trim (join (String c "") (w :: ws)) = join (String c "") (w :: ws) ∧
  is_empty (join (String c "") (w :: ws)) || starts_with "#" (join (String c "") (w :: ws)) = false ∧
  split_whitespace (join (String c "") (w :: ws)) = w :: ws.
Proof.
  intros Hws Hc Hh. split_and!; [by apply trim_join; [|apply white_ascii]| |by apply split_join].
  inversion Hws as [|? ? [Hne Hw] _]; subst.
  assert (∃ t, join (String c "") (w :: ws) = w +:+ t) as [t ->].
  { destruct ws; [exists ""; symmetry; apply text_app_nil|by eexists]. }
  rewrite starts_hash_app, Hh by done. by destruct w.
Qed.

Lemma parse_fields e :
  entry_words e → starts_with "#" (fe_spec e) = false → FstabEntry_parse (fstab_fields e) = Some e.
Proof.
  intros Hw Hh. unfold FstabEntry_parse, fstab_fields, tab_str.
  destruct (joined_entry (ascii_of_byte 9) _ _ Hw eq_refl Hh) as (-> & -> & ->). by destruct e.
Qed.

Lemma parse_words line e : ascii_text line → FstabEntry_parse line = Some e → entry_words e.
Proof.
  intros Ha. unfold FstabEntry_parse. destruct (_ || _); [done|].
  pose proof (split_words (trim line) (trim_ascii _ Ha)) as Hw.
  destruct (split_whitespace (trim line)) as [|s [|m [|f [|o rest]]]]; try done. intros [= <-].
  assert (word "0") as H0 by done.
  assert (∀ i, word (default "0" (rest !! i))) as Hr.
  { intros i. destruct (rest !! i) eqn:E; [|done]. cbn. rewrite Forall_forall in Hw. apply Hw.
    by do 4 right; apply list_elem_of_lookup_2 in E. }
  unfold entry_words. cbn. repeat (apply Forall_cons in Hw as [? Hw]).
  by repeat (apply Forall_cons; split; [by auto|]).
Qed.

Definition crypt_words (e : CrypttabFileEntry) : Prop :=
  Forall word [ce_name e; ce_device e; ce_keyfile e] ∧ (ce_options e = "" ∨ word (ce_options e)).
Lemma crypt_parse_fields e :
  crypt_words e → starts_with "#" (ce_name e) = false → CrypttabEntry_parse (crypttab_fields e) = Some e.
Proof.
  intros [Hw Ho] Hh. unfold CrypttabEntry_parse, crypttab_fields. destruct e as [n d k o].
  cbn [ce_name ce_device ce_keyfile ce_options] in *. destruct Ho as [->|Ho].
  - cbn [is_empty]. rewrite app_nil_r. by destruct (joined_entry " " _ _ Hw eq_refl Hh) as (-> & -> & ->).
  - destruct (is_empty o) eqn:E; [by apply is_empty_spec in E; destruct Ho|].
    assert (Forall word ([n; d; k] ++ [o])) as Hw'.
    { apply Forall_app. split; [done|]. by apply Forall_singleton. }
    cbn [app]. by destruct (joined_entry " " _ _ Hw' eq_refl Hh) as (-> & -> & ->).
Qed.

Lemma join_plain c ws :
  Forall word ws → line_char c = true → plain_line (join (String c "") ws).
Proof.
  intros Hws Hc. induction Hws as [|w ws Hw Hws IH]; [done|]. destruct ws as [|w' ws].
  - by apply word_plain.
  - change (join (String c "") (w :: w' :: ws)) with (w +:+ String c (join (String c "") (w' :: ws))).
    apply text_forall_app. split; [by apply word_plain|by apply text_forall_cons].
Qed.
Lemma fields_plain e : entry_words e → plain_line (fstab_fields e).
Proof. intros He. by apply (join_plain (ascii_of_byte 9)). Qed.
Lemma crypt_fields_plain e : crypt_words e → plain_line (crypttab_fields e).
Proof.
  intros [Hw Ho]. apply (join_plain " "); [|done]. apply Forall_app. split; [done|].
  destruct (is_empty _) eqn:E; [done|].
  destruct Ho as [Ho|Ho]; [by rewrite Ho in E|by apply Forall_singleton].
Qed.
Lemma lines_ended l : plain_line l → lines (l +:+ newline_str) = [l].
Proof. intros Hl. by apply (lines_join [l]); constructor. Qed.

(** an entry of [fstab] or [crypttab] whose fields are visible ASCII words, and whose
    first field does not start a comment, is read back from the line that is written for it. *)
Theorem mount_entry_round_trip :
  (∀ e, entry_words e → starts_with "#" (fe_spec e) = false →
    omap FstabEntry_parse (lines (FstabEntry_format e)) = [e]) ∧
  (∀ e, crypt_words e → starts_with "#" (ce_name e) = false →
    omap CrypttabEntry_parse (lines (CrypttabEntry_format e)) = [e]).
Proof.
  split; intros e He Hh; unfold FstabEntry_format, CrypttabEntry_format.
  - rewrite lines_ended by (by apply fields_plain). cbn [omap list_omap]. by rewrite parse_fields.
  - rewrite lines_ended by (by apply crypt_fields_plain). cbn [omap list_omap]. by rewrite crypt_parse_fields.
Qed.

(** ** The inventory *)
Section inventory.
Context `{BT : BlockTools}.

Definition device_path (input : string) : string := default input (canonicalize_dev_path input).
(** does the device [k] have the value [v] for the attribute [f]? *)
Definition has (f : DevInfo → option string) (v k : string) : bool :=
  match probe_device k with Ok d => bool_decide (f d = Some v) | _ => false end.
Definition having (f : DevInfo → option string) (v : string) (ks : list string) : list string :=
  filter (has f v) ks.

(** the state after the devices [ks]. *)
Record indexed_by (ks : list string) (s : inventory_state) : Prop := {
  ib_dev : ∀ k d, by_dev (is_maps s) !! k = Some d ↔ k ∈ ks ∧ probe_device k = Ok d;
  ib_uuid : ∀ v, by_uuid (is_maps s) !! v = head (having di_uuid v ks);
  ib_partuuid : ∀ v, by_partuuid (is_maps s) !! v = head (having di_partuuid v ks);
  ib_label : ∀ v, by_label (is_maps s) !! v = head (having di_label v ks);
  ib_counts : ∀ v, default 0%Z (is_label_counts s !! v) = Z.of_nat (length (having di_label v ks))
}.

Lemma having_snoc f v ks k d :
  probe_device k = Ok d →
  having f v (ks ++ [k]) = having f v ks ++ if bool_decide (f d = Some v) then [k] else [].
Proof.
  intros Hk. assert (has f v k = bool_decide (f d = Some v)) as Hh by (unfold has; by rewrite Hk).
  unfold having. rewrite filter_app, <-Hh. f_equal. rewrite filter_cons, filter_nil.
  destruct (decide (has f v k)) as [Hd|Hd]; [apply Is_true_true in Hd|apply Is_true_false in Hd];
    by rewrite Hd.
Qed.
Lemma or_insert_head f v ks k d (m : gmap string string) :
  probe_device k = Ok d → (∀ v, m !! v = head (having f v ks)) →
  or_insert_opt (f d) k m !! v = head (having f v (ks ++ [k])).
Proof.
  intros Hk Hm. rewrite (having_snoc _ _ _ _ d) by done. unfold or_insert_opt, or_insert.
  destruct (f d) as [x|] eqn:Hx.
  - destruct (decide (x = v)) as [->|Hne].
    + rewrite bool_decide_eq_true_2 by done. rewrite (Hm v).
      destruct (having f v ks) as [|y ys] eqn:E; cbn; [by rewrite lookup_insert_eq|by rewrite Hm, E].
    + rewrite bool_decide_eq_false_2, app_nil_r by congruence.
      destruct (m !! x); [done|]. by rewrite lookup_insert_ne.
  - by rewrite bool_decide_eq_false_2, app_nil_r.
Qed.
Lemma add_device_indexed ks s k d :
  indexed_by ks s → probe_device k = Ok d → indexed_by (ks ++ [k]) (add_device s k d).
Proof.
  intros [Hd Hu Hp Hl Hc] Hk. split; cbn; [|by intros; eapply or_insert_head..|].
  - intros k' d'. rewrite elem_of_app, list_elem_of_singleton. destruct (decide (k' = k)) as [->|Hne].
    + rewrite lookup_insert_eq. naive_solver congruence.
    + rewrite lookup_insert_ne by done. rewrite Hd. naive_solver.
  - intros v. rewrite (having_snoc _ _ _ _ d) by done. rewrite length_app, Nat2Z.inj_add, <-Hc.
    destruct (di_label d) as [x|] eqn:Hx; [|rewrite bool_decide_eq_false_2 by done; cbn; lia].
    destruct (decide (x = v)) as [->|Hne].
    + rewrite lookup_insert_eq, bool_decide_eq_true_2 by done. cbn. lia.
    + rewrite lookup_insert_ne, bool_decide_eq_false_2 by congruence. cbn. lia.
Qed.
Lemma read_devices_indexed devices : ∀ ks s s',
  indexed_by ks s → read_devices devices s = Ok s' →
  indexed_by (ks ++ (device_path <$> devices)) s'.
Proof.
  induction devices as [|i devices IH]; intros ks s s' Hs H; cbn in *.
  - injection H as <-. by rewrite app_nil_r.
  - fold (device_path i) in H. apply outcome_bind_Ok in H as (d & Hd & H).
    rewrite cons_middle, app_assoc. eapply IH; [|exact H]. by apply add_device_indexed.
Qed.
Lemma drop_collisions_label s l :
  by_label (drop_collisions s) !! l =
  if (1 <? default 0 (is_label_counts s !! l))%Z then None else by_label (is_maps s) !! l.
Proof.
  cbn. generalize (by_label (is_maps s)). intros m. generalize (is_label_counts s). intros counts.
  apply (map_fold_weak_ind (fun r (c : gmap string Z) =>
    r !! l = if (1 <? default 0 (c !! l))%Z then None else m !! l)); [done|].
  intros x n c r Hx Hr. destruct (decide (x = l)) as [->|Hne].
  - rewrite lookup_insert_eq. rewrite Hx in Hr. cbn in *.
    destruct (1 <? n)%Z; [apply lookup_delete_eq|done].
  - rewrite lookup_insert_ne by done. destruct (1 <? n)%Z; [|done]. by rewrite lookup_delete_ne.
Qed.

(** what the inventory holds: every listed device with what was probed, for each UUID
    and PARTUUID the first listed device that has it, and a label exactly when one listed
    device has it. *)
Theorem build_inventory_spec devices inv :
  build_inventory devices = Ok inv →
  let ks := device_path <$> devices in
  (∀ k d, by_dev inv !! k = Some d ↔ k ∈ ks ∧ probe_device k = Ok d) ∧
  (∀ v, by_uuid inv !! v = head (having di_uuid v ks)) ∧
  (∀ v, by_partuuid inv !! v = head (having di_partuuid v ks)) ∧
  (∀ v, by_label inv !! v = match having di_label v ks with [k] => Some k | _ => None end).
Proof.
  unfold build_inventory. intros H. apply outcome_bind_Ok in H as (s & Hs & Hi).
  injection Hi as <-. set (ks := device_path <$> devices).
  apply (read_devices_indexed devices []) in Hs as [Hd Hu Hp Hl Hc].
  - split_and!; [done..|]. intros v. rewrite drop_collisions_label, Hc, Hl. fold ks.
    rewrite app_nil_l. destruct (having di_label v ks) as [|k [|k' r]]; [done..|]. cbn [length].
    by destruct (Z.ltb_spec 1 (Z.of_nat (S (S (length r))))); [|lia].
  - split; try done. intros k d. cbn. rewrite lookup_empty. split; [done|].
    intros [H _]. by apply elem_of_nil in H.
Qed.

(** ** Specs and devices *)
Lemma strip_app p s : strip_prefix p (p +:+ s) = Some s.
Proof.
  unfold strip_prefix. rewrite (proj2 (starts_with_spec p (p +:+ s))) by (by exists s).
  f_equal. induction p as [|c p IH]; [by destruct s|]. exact IH.
Qed.
Definition words_of (o : option string) : Prop := ∀ v, o = Some v → str_forall word_char v = true.
(** the names of a device are made of visible ASCII characters. *)
Record device_ok (d : DevInfo) : Prop := {
  do_path : ∃ p, di_dev d = "/dev/" +:+ p ∧ str_forall word_char p = true;
  do_uuid : words_of (di_uuid d);
  do_partuuid : words_of (di_partuuid d);
  do_label : words_of (di_label d)
}.
(** no UUID, PARTUUID or label is on two of the devices. *)
Definition distinct_ids (ks : list string) : Prop :=
  ∀ f v, f ∈ [di_uuid; di_partuuid; di_label] → length (having f v ks) ≤ 1.

Section named.
Context (devices : list string) (inv : Inventory).
Hypothesis Hinv : build_inventory devices = Ok inv.
Hypothesis Hids : distinct_ids (device_path <$> devices).
Hypothesis Hdevs : ∀ k d, by_dev inv !! k = Some d → device_ok d.

Lemma prefixed_word p v : word p → str_forall word_char v = true → word (p +:+ v).
Proof. intros [Hne Hp] Hv. split; [by destruct p|]. by apply text_forall_app. Qed.

Lemma having_one f v k d :
  f ∈ [di_uuid; di_partuuid; di_label] → by_dev inv !! k = Some d → f d = Some v →
  having f v (device_path <$> devices) = [k].
Proof.
  intros Hf Hk Hv. destruct (build_inventory_spec _ _ Hinv) as (Hd & _).
  apply Hd in Hk as [Hin Hp]. specialize (Hids f v Hf).
  assert (k ∈ having f v (device_path <$> devices)) as Hhk.
  { apply list_elem_of_filter. split; [|done]. apply Is_true_true. unfold has. rewrite Hp.
    by apply bool_decide_eq_true_2. }
  destruct (having _ _ _) as [|x [|y r]]; [by apply elem_of_nil in Hhk| |cbn in Hids; lia].
  by apply list_elem_of_singleton in Hhk as ->.
Qed.
Lemma find_uuid k d v :
  by_dev inv !! k = Some d → di_uuid d = Some v → find_by_spec inv ("UUID=" +:+ v) = Some d.
Proof.
  intros Hk Hv. destruct (build_inventory_spec _ _ Hinv) as (_ & Hu & _ & _).
  pose proof (do_uuid d (Hdevs k d Hk) v Hv) as Hw.
  unfold find_by_spec. rewrite trim_word by (by apply prefixed_word). rewrite strip_app.
  unfold indexed. by rewrite Hu, (having_one _ _ k d); [|left|..].
Qed.
Lemma find_partuuid k d v :
  by_dev inv !! k = Some d → di_partuuid d = Some v → find_by_spec inv ("PARTUUID=" +:+ v) = Some d.
Proof.
  intros Hk Hv. destruct (build_inventory_spec _ _ Hinv) as (_ & _ & Hu & _).
  pose proof (do_partuuid d (Hdevs k d Hk) v Hv) as Hw.
  unfold find_by_spec. rewrite trim_word by (by apply prefixed_word). rewrite strip_app.
  unfold indexed. by rewrite Hu, (having_one _ _ k d); [|right; left|..].
Qed.
Lemma find_label k d v :
  by_dev inv !! k = Some d → di_label d = Some v → find_by_spec inv ("LABEL=" +:+ v) = Some d.
Proof.
  intros Hk Hv. destruct (build_inventory_spec _ _ Hinv) as (_ & _ & _ & Hu).
  pose proof (do_label d (Hdevs k d Hk) v Hv) as Hw.
  unfold find_by_spec. rewrite trim_word by (by apply prefixed_word). rewrite strip_app.
  unfold indexed. by rewrite Hu, (having_one _ _ k d); [|right; right; left|..].
Qed.
Lemma find_path k d : by_dev inv !! k = Some d → find_by_spec inv (di_dev d) = Some d.
Proof.
  intros Hk. destruct (do_path d (Hdevs k d Hk)) as (p & Hp & Hw).
  assert (di_dev d = k) as Hdk.
  { destruct (build_inventory_spec _ _ Hinv) as (Hd & _). apply Hd in Hk as [_ H].
    unfold probe_device in H. apply outcome_bind_Ok in H as (? & _ & H).
    by apply outcome_bind_Ok in H as (? & _ & [= <-]). }
  unfold find_by_spec. rewrite Hp, trim_word by (by apply prefixed_word).
  change (strip_prefix "UUID=" ("/dev/" +:+ p)) with (@None string).
  change (strip_prefix "PARTUUID=" ("/dev/" +:+ p)) with (@None string).
  change (strip_prefix "LABEL=" ("/dev/" +:+ p)) with (@None string).
  rewrite (proj2 (starts_with_spec "/dev/" _)) by (by exists p). by rewrite <-Hp, Hdk, Hk.
Qed.
(** the spec that replaces the one of an entry. *)
Definition new_spec (d : DevInfo) (e : FstabFileEntry) : string := fe_spec (rewrite_entry ∅ d e).
Lemma find_inventoried spec d : find_by_spec inv spec = Some d → ∃ k, by_dev inv !! k = Some d.
Proof.
  unfold find_by_spec, indexed. repeat case_match; try done; intros; eauto; naive_solver.
Qed.
Lemma find_new_spec subvols k d e :
  by_dev inv !! k = Some d → find_by_spec inv (fe_spec (rewrite_entry subvols d e)) = Some d.
Proof.
  intros Hk. assert (∀ m, find_by_spec inv (canonical_spec d m) = Some d) as Hcan.
  { intros m. unfold canonical_spec. destruct (prefer_partuuid d m) eqn:Hp.
    - apply andb_true_iff in Hp as [Hp _]. apply andb_true_iff in Hp as [_ Hp].
      apply bool_decide_eq_true_1 in Hp as [v Hv]. rewrite Hv. by apply (find_partuuid k).
    - destruct (di_uuid d) eqn:Hu; [by apply (find_uuid k)|].
      destruct (di_partuuid d) eqn:Hpu; [by apply (find_partuuid k)|].
      destruct (di_label d) eqn:Hl; [by apply (find_label k)|]. by apply (find_path k). }
  assert (∀ v, di_uuid d = Some v → find_by_spec inv ("UUID=" +:+ v) = Some d) as Hu
    by (intros v; by apply (find_uuid k)).
  unfold rewrite_entry. destruct (String.eqb _ "swap"), (String.eqb _ "btrfs"), (is_partition d);
    cbn [fe_spec negb]; destruct (di_uuid d) as [v|]; auto.
Qed.
End named.
End inventory.

(** ** Mount options *)
Definition keep_option (key o : string) : bool :=
  negb (is_empty o) && negb (String.eqb o key || starts_with (key +:+ "=") o).
Definition comma_free (s : string) : Prop := str_forall word_char s = true ∧ without "," s.

Lemma option_pieces o : str_forall word_char o = true → Forall comma_free (split_char "," o).
Proof. apply split_char_pieces. Qed.
Lemma remove_option o key :
  str_forall word_char o = true →
  remove_mount_option o key = join "," (filter (keep_option key) (split_char "," o)).
Proof.
  intros Ho. unfold remove_mount_option. f_equal. f_equal.
  pose proof (option_pieces o Ho) as Hp. induction Hp as [|p ps [Hw _] _ IH]; [done|].
  cbn. by rewrite trim_nowhite, IH.
Qed.
Lemma join_comma_free ls :
  Forall (fun s => str_forall word_char s = true) ls → str_forall word_char (join "," ls) = true.
Proof.
  induction 1 as [|l ls Hl Hls IH]; [done|]. destruct ls as [|l' ls]; [done|].
  change (join "," (l :: l' :: ls)) with (l +:+ String "," (join "," (l' :: ls))).
  apply text_forall_app. split; [done|]. by apply text_forall_cons.
Qed.
Lemma join_snoc ls x : ls ≠ [] → join "," (ls ++ [x]) = join "," ls +:+ "," +:+ x.
Proof.
  intros Hne. induction ls as [|l ls IH]; [done|]. destruct ls as [|l' ls]; [done|].
  change (join "," ((l :: l' :: ls) ++ [x])) with (l +:+ String "," (join "," ((l' :: ls) ++ [x]))).
  rewrite IH by done.
  change (join "," (l :: l' :: ls)) with (l +:+ String "," (join "," (l' :: ls))).
  by rewrite text_app_assoc.
Qed.
Lemma join_empty ls : Forall (fun s => is_empty s = false) ls → is_empty (join "," ls) = bool_decide (ls = []).
Proof.
  destruct 1 as [|l ls Hl _]; [done|]. destruct ls as [|l' ls]; [done|].
  by destruct l.
Qed.
Lemma kept_nonempty key ls : Forall (fun s => is_empty s = false) (filter (keep_option key) ls).
Proof.
  apply Forall_forall. intros s [Hs _]%list_elem_of_filter. apply Is_true_true in Hs.
  by apply andb_true_iff in Hs as [?%negb_true_iff _].
Qed.
Lemma set_option o key kv :
  str_forall word_char o = true →
  set_mount_option o key kv = join "," (filter (keep_option key) (split_char "," o) ++ [kv]).
Proof.
  intros Ho. unfold set_mount_option. rewrite remove_option by done.
  rewrite join_empty by apply kept_nonempty. set (F := filter _ _).
  case_bool_decide as HF; [by rewrite HF|]. by rewrite join_snoc.
Qed.
Lemma comma_free_filter key ls : Forall comma_free ls → Forall comma_free (filter (keep_option key) ls).
Proof. rewrite !Forall_forall. intros H s [_ Hs]%list_elem_of_filter. by apply H. Qed.

Lemma comma_free_words ls : Forall comma_free ls → Forall (fun s => str_forall word_char s = true) ls.
Proof. intros H. eapply Forall_impl; [exact H|]. by intros ? []. Qed.
Lemma comma_free_without ls : Forall comma_free ls → Forall (without ",") ls.
Proof. intros H. eapply Forall_impl; [exact H|]. by intros ? []. Qed.

Section options.
Context (subvol : string).
Hypothesis Hsub : comma_free subvol.
Abbreviation kv := ("subvol=" +:+ subvol).
Definition subvol_options (o : string) : list string :=
  filter (keep_option "subvolid") (filter (keep_option "subvol") (split_char "," o)) ++ [kv].

Lemma kv_free : comma_free kv.
Proof. split; apply text_forall_app; split; try done; apply Hsub. Qed.
Lemma kv_subvolid : keep_option "subvolid" kv = true.
Proof. unfold keep_option. by destruct subvol. Qed.
Lemma kv_subvol : keep_option "subvol" kv = false.
Proof.
  unfold keep_option. rewrite (proj2 (starts_with_spec ("subvol" +:+ "=") kv)) by (by exists subvol).
  by rewrite orb_true_r, andb_false_r.
Qed.
Lemma subvol_options_free o : str_forall word_char o = true → Forall comma_free (subvol_options o).
Proof.
  intros Ho. apply Forall_app. split; [|by apply Forall_singleton, kv_free].
  by do 2 apply comma_free_filter; apply option_pieces.
Qed.
Lemma btrfs_options_list o :
  str_forall word_char o = true →
  remove_mount_option (set_mount_option o "subvol" kv) "subvolid" = join "," (subvol_options o).
Proof.
  intros Ho. pose proof (comma_free_filter "subvol" _ (option_pieces o Ho)) as HF.
  assert (Forall comma_free (filter (keep_option "subvol") (split_char "," o) ++ [kv])) as HF'
    by (apply Forall_app; split; [done|by apply Forall_singleton, kv_free]).
  rewrite set_option by done. rewrite remove_option by (by apply join_comma_free, comma_free_words).
  rewrite split_char_join; [|by destruct (filter _ _)|by apply comma_free_without].
  f_equal. rewrite filter_app. unfold subvol_options. f_equal.
Qed.
(** setting the subvolume twice is setting it once. *)
Lemma subvol_options_idem o :
  str_forall word_char o = true → subvol_options (join "," (subvol_options o)) = subvol_options o.
Proof.
  intros Ho. unfold subvol_options at 1.
  rewrite split_char_join; [|by unfold subvol_options; destruct (filter _ _)|
    by apply comma_free_without, subvol_options_free].
  f_equal. unfold subvol_options. rewrite !filter_app, (filter_cons _ kv), filter_nil.
  case_decide as H; [by apply Is_true_true in H; rewrite kv_subvol in H|]. rewrite app_nil_r.
  set (F := split_char "," o). induction F as [|x F IH]; [done|].
  repeat (rewrite filter_cons; case_decide); try done; cbn; rewrite ?filter_cons; repeat case_decide;
    try done; congruence.
Qed.
End options.

(** ** Rewritten tables *)
Section tables.
Context `{BT : BlockTools}.
Implicit Types (e : FstabFileEntry) (d : DevInfo) (subvols : BtrfsSubvolMap).

(** the line that is written for a line, without its end. *)
Definition table_line (inv : Inventory) subvols (line : string) : string :=
  match FstabEntry_parse line with
  | Some e =>
      match find_by_spec inv (fe_spec e) with
      | Some d => fstab_fields (rewrite_entry subvols d e)
      | None => line
      end
  | None => line
  end.
Lemma rewrite_line_ended inv subvols line :
  rewrite_fstab_line inv subvols line = ended (table_line inv subvols line).
Proof.
  unfold rewrite_fstab_line, table_line. destruct (FstabEntry_parse line) as [e|]; [|done].
  destruct (find_by_spec inv (fe_spec e)); [done|]. by destruct (needs_rewrite e).
Qed.
Lemma content_ended inv subvols content :
  rewrite_fstab_content inv subvols content = join "" (ended <$> (table_line inv subvols <$> lines content)).
Proof.
  unfold rewrite_fstab_content. f_equal. rewrite <- list_fmap_compose. apply list_fmap_ext.
  intros. apply rewrite_line_ended.
Qed.

(** an inventory that was built from devices with distinct names made of visible ASCII
    characters, and subvolume names of such characters but the comma. *)
Record clean (devices : list string) (inv : Inventory) subvols : Prop := {
  cl_built : build_inventory devices = Ok inv;
  cl_distinct : distinct_ids (device_path <$> devices);
  cl_devices : ∀ k d, by_dev inv !! k = Some d → device_ok d;
  cl_subvols : ∀ m v, subvols !! m = Some v → comma_free v
}.

Context (devices : list string) (inv : Inventory) (subvols : BtrfsSubvolMap).
Hypothesis Hclean : clean devices inv subvols.

Lemma device_specs k d : by_dev inv !! k = Some d →
  (∀ m, word (canonical_spec d m) ∧ starts_with "#" (canonical_spec d m) = false) ∧
  (∀ v, di_uuid d = Some v → word ("UUID=" +:+ v)).
Proof.
  intros Hk. destruct (cl_devices _ _ _ Hclean k d Hk) as [(p & Hp & Hpw) Hu Hpu Hl]. split.
  - intros m. unfold canonical_spec. destruct (prefer_partuuid d m) eqn:Hpref.
    + apply andb_true_iff in Hpref as [[_ Hs%bool_decide_eq_true_1]%andb_true_iff _].
      destruct Hs as [v Hv]. rewrite Hv. split; [apply prefixed_word; [done|by apply Hpu]|done].
    + destruct (di_uuid d), (di_partuuid d), (di_label d); cbn [default];
        (split; [|by try rewrite Hp]); try (apply prefixed_word; by auto).
      rewrite Hp. by apply prefixed_word.
  - intros v Hv. apply prefixed_word; [done|by apply Hu].
Qed.
Lemma rewritten_spec k d e : by_dev inv !! k = Some d →
  word (fe_spec (rewrite_entry subvols d e)) ∧
  starts_with "#" (fe_spec (rewrite_entry subvols d e)) = false.
Proof.
  intros Hk. destruct (device_specs k d Hk) as [Hc Hu]. unfold rewrite_entry.
  destruct (String.eqb _ "swap"), (String.eqb _ "btrfs"), (is_partition d);
    cbn [fe_spec negb]; destruct (di_uuid d) as [v|]; auto.
Qed.
Lemma rewritten_options e : word (fe_options e) → word (btrfs_options subvols e).
Proof.
  intros [Hne Ho]. unfold btrfs_options. destruct (subvols !! fe_mountpoint e) as [v|] eqn:Hv; [|done].
  pose proof (cl_subvols _ _ _ Hclean _ _ Hv) as Hs. rewrite btrfs_options_list by done.
  pose proof (subvol_options_free v Hs _ Ho) as Hfree. split.
  - intros H%is_empty_spec. unfold subvol_options in H.
    rewrite join_empty in H; [by apply bool_decide_eq_true_1 in H; destruct (filter _ _)|].
    apply Forall_app. split; [apply kept_nonempty|by apply Forall_singleton].
  - by apply join_comma_free, comma_free_words.
Qed.
Lemma rewritten_words k d e :
  by_dev inv !! k = Some d → entry_words e → entry_words (rewrite_entry subvols d e).
Proof.
  intros Hk He. destruct (rewritten_spec k d e Hk) as [Hs _]. unfold entry_words in *.
  repeat (apply Forall_cons in He as [? He]). unfold rewrite_entry in *.
  pose proof (rewritten_options e ltac:(done)).
  destruct (String.eqb _ "btrfs"); cbn [fe_spec fe_mountpoint fe_fstype fe_options fe_dump fe_pass] in *;
    by repeat (apply Forall_cons; split; [done|]).
Qed.
Lemma rewrite_entry_idem d e :
  word (fe_options e) →
  rewrite_entry subvols d (rewrite_entry subvols d e) = rewrite_entry subvols d e.
Proof.
  intros [_ Ho]. unfold rewrite_entry. destruct (String.eqb (fe_fstype e) "btrfs") eqn:Eb; cbn; rewrite Eb.
  - f_equal. unfold btrfs_options. cbn. destruct (subvols !! fe_mountpoint e) as [v|] eqn:Hv; [|done].
    pose proof (cl_subvols _ _ _ Hclean _ _ Hv) as Hs. rewrite (btrfs_options_list v Hs (fe_options e)) by done.
    rewrite btrfs_options_list, subvol_options_idem; try done.
    by apply join_comma_free, comma_free_words, subvol_options_free.
  - done.
Qed.

(** the entry written for an entry of a known device: what is read back from it. *)
Lemma table_line_known line e d :
  ascii_text line → FstabEntry_parse line = Some e → find_by_spec inv (fe_spec e) = Some d →
  FstabEntry_parse (table_line inv subvols line) = Some (rewrite_entry subvols d e) ∧
  find_by_spec inv (fe_spec (rewrite_entry subvols d e)) = Some d ∧
  entry_words e ∧ entry_words (rewrite_entry subvols d e).
Proof.
  intros Ha He Hd. destruct (find_inventoried _ _ _ Hd) as [k Hk].
  pose proof (parse_words _ _ Ha He) as Hw. pose proof (rewritten_words k d e Hk Hw) as Hw'.
  unfold table_line. rewrite He, Hd. split_and!; [|by eapply find_new_spec; [apply Hclean..|]|done|done].
  apply parse_fields; [done|]. by apply (rewritten_spec k).
Qed.
Lemma table_line_plain line : plain_line line → ascii_text line → plain_line (table_line inv subvols line).
Proof.
  intros Hp Ha. destruct (FstabEntry_parse line) as [e|] eqn:He; [|by unfold table_line; rewrite He].
  destruct (find_by_spec inv (fe_spec e)) as [d|] eqn:Hd; [|by unfold table_line; rewrite He, Hd].
  destruct (table_line_known line e d Ha He Hd) as (_ & _ & _ & Hw).
  unfold table_line. rewrite He, Hd. by apply fields_plain.
Qed.
Lemma table_line_idem line :
  ascii_text line → table_line inv subvols (table_line inv subvols line) = table_line inv subvols line.
Proof.
  intros Ha. destruct (FstabEntry_parse line) as [e|] eqn:He.
  - destruct (find_by_spec inv (fe_spec e)) as [d|] eqn:Hd.
    + destruct (table_line_known line e d Ha He Hd) as (Hp & Hs & Hw & _).
      unfold table_line at 1. rewrite Hp, Hs. unfold table_line. rewrite He, Hd.
      rewrite rewrite_entry_idem; [done|]. by repeat (apply Forall_cons in Hw as [? Hw]).
    + assert (table_line inv subvols line = line) as -> by (unfold table_line; by rewrite He, Hd).
      unfold table_line. by rewrite He, Hd.
  - assert (table_line inv subvols line = line) as -> by (unfold table_line; by rewrite He).
    unfold table_line. by rewrite He.
Qed.

Lemma written_lines content :
  unix_text content →
  lines (rewrite_fstab_content inv subvols content) = table_line inv subvols <$> lines content.
Proof.
  intros Hc%unix_lines. rewrite content_ended. apply lines_join, Forall_fmap.
  eapply Forall_impl; [exact Hc|]. intros l [Hp Ha]. by apply table_line_plain.
Qed.

(** rewriting keeps the table line by line: the lines that are comments, blank, too
    short or about a device that is not in the inventory are kept as they are, in place,
    and no line is lost or added. *)
Theorem fstab_lines_kept content i line :
  unix_text content → lines content !! i = Some line →
  length (lines (rewrite_fstab_content inv subvols content)) = length (lines content) ∧
  ((FstabEntry_parse line ≫= fun e => find_by_spec inv (fe_spec e)) = None →
   lines (rewrite_fstab_content inv subvols content) !! i = Some line).
Proof.
  intros Hc Hi. rewrite written_lines by done. rewrite length_fmap, list_lookup_fmap, Hi. split; [done|].
  intros Hnone. cbn. f_equal. unfold table_line. destruct (FstabEntry_parse line) as [e|]; [|done].
  cbn in Hnone. by rewrite Hnone.
Qed.

(** C16: in an ASCII table with Unix line ends, an entry of a known device is written back
    with a spec that names the same device, and with its mount point, type, dump and pass
    fields (and its options, but for the subvolume of a [btrfs] file system) as they
    were.  The inventory has to be [clean]: built from devices of which no two share a
    UUID, a PARTUUID or a label, with paths, UUIDs, PARTUUIDs and labels of visible ASCII
    characters (no blanks), and subvolume names of such characters but the comma. *)
Theorem fstab_same_device content i line e d :
  unix_text content → lines content !! i = Some line → FstabEntry_parse line = Some e →
  find_by_spec inv (fe_spec e) = Some d →
  ∃ e', FstabEntry_parse <$> lines (rewrite_fstab_content inv subvols content) !! i = Some (Some e') ∧
    find_by_spec inv (fe_spec e') = Some d ∧ fe_mountpoint e' = fe_mountpoint e ∧
    fe_fstype e' = fe_fstype e ∧ fe_dump e' = fe_dump e ∧ fe_pass e' = fe_pass e ∧
    (fe_fstype e ≠ "btrfs" ∨ subvols !! fe_mountpoint e = None → fe_options e' = fe_options e).
Proof.
  intros Hc Hi He Hd. pose proof (unix_lines _ Hc) as Hl. rewrite Forall_forall in Hl.
  destruct (Hl line) as [_ Ha]; [by eapply list_elem_of_lookup_2|].
  destruct (table_line_known line e d Ha He Hd) as (Hp & Hs & _ & _).
  exists (rewrite_entry subvols d e). rewrite written_lines by done. rewrite list_lookup_fmap, Hi. cbn.
  rewrite Hp. split; [done|]. split; [done|]. unfold rewrite_entry.
  destruct (String.eqb_spec (fe_fstype e) "btrfs"); cbn; do 4 (split; [done|]); [|done].
  intros [?|Hn]; [done|]. unfold btrfs_options. by rewrite Hn.
Qed.

(** rewriting a rewritten table changes nothing. *)
Theorem fstab_rewrite_idempotent content :
  unix_text content →
  let once := rewrite_fstab_content inv subvols content in
  rewrite_fstab_content inv subvols once = once.
Proof.
  intros Hc once. unfold once. rewrite (content_ended _ _ (rewrite_fstab_content _ _ _)), written_lines by done.
  rewrite content_ended. f_equal. f_equal. rewrite <- list_fmap_compose.
  apply unix_lines in Hc. apply list_fmap_ext. intros i l Hi. cbn.
  apply table_line_idem. rewrite Forall_forall in Hc. apply Hc. by eapply list_elem_of_lookup_2.
Qed.
End tables.

(** which specs are written: a device that has a UUID, a PARTUUID or a label is named by
    one of them, never by its path. *)
Lemma portable_spec subvols d e :
  is_Some (di_uuid d) ∨ is_Some (di_partuuid d) ∨ is_Some (di_label d) →
  ∃ p v, p ∈ ["UUID="; "PARTUUID="; "LABEL="] ∧ fe_spec (rewrite_entry subvols d e) = p +:+ v.
Proof.
  intros Hid.
  assert (∀ v, ∃ p w, p ∈ ["UUID="; "PARTUUID="; "LABEL="] ∧ "UUID=" +:+ v = p +:+ w) as Hu.
  { intros v. exists "UUID=", v. split; [by left|done]. }
  assert (∀ v, ∃ p w, p ∈ ["UUID="; "PARTUUID="; "LABEL="] ∧ "PARTUUID=" +:+ v = p +:+ w) as Hpu.
  { intros v. exists "PARTUUID=", v. split; [by right; left|done]. }
  assert (∀ m, ∃ p v, p ∈ ["UUID="; "PARTUUID="; "LABEL="] ∧ canonical_spec d m = p +:+ v) as Hc.
  { intros m. unfold canonical_spec. destruct (prefer_partuuid d m); [by auto|].
    destruct (di_uuid d), (di_partuuid d), (di_label d) as [l|]; auto.
    - exists "LABEL=", l. split; [by do 2 right; left|done].
    - exfalso. by destruct Hid as [[? [=]]|[[? [=]]|[? [=]]]]. }
  unfold rewrite_entry. destruct (String.eqb _ "swap"), (String.eqb _ "btrfs"), (is_partition d);
    cbn [fe_spec negb]; destruct (di_uuid d) as [v|]; auto.
Qed.

(** ** A concrete disk

    A root partition, a swap volume and a [btrfs] volume. *)
Definition kv_lines (l : list (string * string)) : string :=
  join "" ((fun x => ended (x.1 +:+ "=" +:+ x.2)) <$> l).
Definition toy_tools : BlockTools := {|
  run_blkid := fun dev => inr (
    if String.eqb dev "/dev/sda1" then mk_cmd_result (Some 0%Z)
      (kv_lines [("DEVNAME", dev); ("UUID", "aa-11"); ("TYPE", "ext4"); ("PARTUUID", "p-1")])
    else if String.eqb dev "/dev/dm-0" then mk_cmd_result (Some 0%Z)
      (kv_lines [("DEVNAME", dev); ("UUID", "bb-22"); ("TYPE", "swap"); ("LABEL", "swap")])
    else if String.eqb dev "/dev/dm-1" then mk_cmd_result (Some 0%Z)
      (kv_lines [("DEVNAME", dev); ("UUID", "cc-33"); ("TYPE", "btrfs")])
    else if String.eqb dev "/dev/sdb1" then mk_cmd_result (Some 0%Z)
      (kv_lines [("DEVNAME", dev); ("LABEL", "my\ data")])
    else mk_cmd_result (Some 2%Z) "");
  run_lsblk := fun dev => inr (mk_cmd_result (Some 0%Z)
    (ended (if starts_with "/dev/sd" dev then "part" else "lvm")));
  canonicalize := fun p =>
    if String.eqb p "/dev/mapper/vg-swap" then Some "/dev/dm-0"
    else if String.eqb p "/dev/mapper/vg-data" then Some "/dev/dm-1" else Some p
|}.
Definition toy_devices : list string := ["/dev/sda1"; "/dev/mapper/vg-swap"; "/dev/mapper/vg-data"].
Definition toy_subvols : BtrfsSubvolMap := {[ "/data" := "@data" ]}.
Definition toy_inventory : Inventory :=
  match @build_inventory toy_tools toy_devices with Ok inv => inv | _ => mk_Inventory ∅ ∅ ∅ ∅ end.
Definition toy_fstab : string := join "" (ended <$>
  ["# static file system information"; "/dev/sda1 / ext4 defaults 0 1"; "";
   "/dev/mapper/vg-swap none swap sw"; "  /dev/mapper/vg-data /data btrfs subvolid=5,noatime 0 0 # data";
   "/dev/vdb1 /scratch xfs defaults 0 0"]).
Definition toy_lines : list string :=
  lines (@rewrite_fstab_content toy_tools toy_inventory toy_subvols toy_fstab).

(** the device that is not in the inventory keeps its path. *)
Example toy_rewritten : omap FstabEntry_parse toy_lines =
  [mk_FstabFileEntry "PARTUUID=p-1" "/" "ext4" "defaults" "0" "1";
   mk_FstabFileEntry "UUID=bb-22" "none" "swap" "sw" "0" "0";
   mk_FstabFileEntry "UUID=cc-33" "/data" "btrfs" "noatime,subvol=@data" "0" "0";
   mk_FstabFileEntry "/dev/vdb1" "/scratch" "xfs" "defaults" "0" "0"].
Proof. by vm_compute. Qed.
(** a device that is listed under two paths loses its label. *)
Example label_listed_twice :
  (fun inv => by_label inv !! "swap") <$>
    match @build_inventory toy_tools ["/dev/dm-0"; "/dev/mapper/vg-swap"] with Ok i => Some i | _ => None end
  = Some None.
Proof. by vm_compute. Qed.
(** a label with a blank, escaped by [blkid] with a backslash, breaks the entry into other fields. *)
Example blank_in_label :
  (fun inv => FstabEntry_parse (@table_line toy_tools inv ∅ "/dev/sdb1 /data vfat defaults 0 0")) <$>
    match @build_inventory toy_tools ["/dev/sdb1"] with Ok i => Some i | _ => None end
  = Some (Some (mk_FstabFileEntry "LABEL=my\" "data" "/data" "vfat" "defaults" "0")).
Proof. by vm_compute. Qed.

Definition toy_root : DevInfo :=
  mk_DevInfo "/dev/sda1" (Some "ext4") (Some "aa-11") None (Some "p-1") BlkPart None.
Definition toy_swap : DevInfo :=
  mk_DevInfo "/dev/dm-0" (Some "swap") (Some "bb-22") (Some "swap") None BlkLvm None.
Definition toy_data : DevInfo :=
  mk_DevInfo "/dev/dm-1" (Some "btrfs") (Some "cc-33") None None BlkLvm None.
Lemma toy_probes : @probe_device toy_tools "/dev/sda1" = Ok toy_root ∧
  @probe_device toy_tools "/dev/dm-0" = Ok toy_swap ∧ @probe_device toy_tools "/dev/dm-1" = Ok toy_data.
Proof. by vm_compute. Qed.
Lemma toy_built : @build_inventory toy_tools toy_devices = Ok toy_inventory.
Proof. by vm_compute. Qed.
Lemma toy_paths : @device_path toy_tools <$> toy_devices = ["/dev/sda1"; "/dev/dm-0"; "/dev/dm-1"].
Proof. by vm_compute. Qed.
Lemma toy_distinct : @distinct_ids toy_tools (@device_path toy_tools <$> toy_devices).
Proof.
  rewrite toy_paths. intros f v Hf. destruct toy_probes as (H1 & H2 & H3).
  unfold having. rewrite !filter_cons, filter_nil.
  assert (∀ k d, @probe_device toy_tools k = Ok d → @has toy_tools f v k = bool_decide (f d = Some v)) as Hh
    by (intros k d Hk; unfold has; by rewrite Hk).
  repeat case_decide; cbn; try lia; exfalso;
    repeat match goal with H : Is_true (has _ _ _) |- _ => apply Is_true_true in H end;
    repeat match goal with
    | H : has _ _ "/dev/sda1" = _ |- _ => rewrite (Hh _ _ H1) in H; apply bool_decide_eq_true_1 in H
    | H : has _ _ "/dev/dm-0" = _ |- _ => rewrite (Hh _ _ H2) in H; apply bool_decide_eq_true_1 in H
    | H : has _ _ "/dev/dm-1" = _ |- _ => rewrite (Hh _ _ H3) in H; apply bool_decide_eq_true_1 in H
    end;
    repeat (apply elem_of_cons in Hf as [->|Hf]; [cbn in *; congruence|]); by apply elem_of_nil in Hf.
Qed.
Lemma toy_device_ok k d : by_dev toy_inventory !! k = Some d → device_ok d.
Proof.
  destruct (@build_inventory_spec toy_tools _ _ toy_built) as (Hd & _). rewrite Hd, toy_paths.
  destruct toy_probes as (H1 & H2 & H3). intros [Hk Hp].
  assert (device_ok toy_root ∧ device_ok toy_swap ∧ device_ok toy_data) as (O1 & O2 & O3).
  { split_and!; (split; [eexists; split; [reflexivity|by vm_compute]|..]); by intros v [= <-]. }
  repeat (apply elem_of_cons in Hk as [->|Hk]; [congruence|]).
  apply elem_of_nil in Hk. destruct Hk.
Qed.
Lemma toy_clean : @clean toy_tools toy_devices toy_inventory toy_subvols.
Proof.
  split; [exact toy_built|exact toy_distinct|exact toy_device_ok|].
  intros m v H. unfold toy_subvols in H. apply lookup_singleton_Some in H as [<- <-]. by vm_compute.
Qed.
Lemma toy_unix : unix_text toy_fstab.
Proof. by vm_compute. Qed.

Lemma build_inventory_spec_witness : by_uuid toy_inventory !! "bb-22" = Some "/dev/dm-0".
Proof.
  destruct (@build_inventory_spec toy_tools _ _ toy_built) as (_ & Hu & _). rewrite Hu. by vm_compute.
Defined.
Lemma fstab_lines_kept_witness :
  toy_lines !! 5 = Some "/dev/vdb1 /scratch xfs defaults 0 0".
Proof.
  exact (proj2 (@fstab_lines_kept toy_tools toy_devices toy_inventory toy_subvols toy_clean toy_fstab 5
    "/dev/vdb1 /scratch xfs defaults 0 0" toy_unix ltac:(by vm_compute)) ltac:(by vm_compute)).
Defined.
Lemma fstab_same_device_witness :
  ∃ e, FstabEntry_parse <$> toy_lines !! 1 = Some (Some e) ∧
    @find_by_spec toy_tools toy_inventory (fe_spec e) = Some toy_root.
Proof.
  destruct (@fstab_same_device toy_tools toy_devices toy_inventory toy_subvols toy_clean toy_fstab 1
    "/dev/sda1 / ext4 defaults 0 1" (mk_FstabFileEntry "/dev/sda1" "/" "ext4" "defaults" "0" "1") toy_root
    toy_unix ltac:(by vm_compute) ltac:(by vm_compute) ltac:(by vm_compute)) as (e & H1 & H2 & _).
  exact (ex_intro _ e (conj H1 H2)).
Defined.
Lemma fstab_rewrite_idempotent_witness :
  let once := @rewrite_fstab_content toy_tools toy_inventory toy_subvols toy_fstab in
  @rewrite_fstab_content toy_tools toy_inventory toy_subvols once = once.
Proof.
  exact (@fstab_rewrite_idempotent toy_tools toy_devices toy_inventory toy_subvols toy_clean toy_fstab
    toy_unix).
Defined.
