(* ===== verification/Baseline.v ===== *)
(** * Migration baselines and drift

    [src/migration/baseline.rs]: the evidence of a guest is stored before and after a
    migration and compared.  Files are those of [LiveExec]; the JSON text of a baseline
    and the clock's compact form are the class [BaselineText]. *)
From stdpp Require Import base gmap strings list.
From Stdlib Require Import ZArith Lia Ascii SpecFloat.
From S2P Require Import Prelude RustStr F64 Partition Filesystem Evidence BootChecks BootEngine Migration Kahn FixPlan Repair LiveExec Passport Words.

Inductive BaselinePhase : Type := PreMigration | PostMigration.
Record MigrationBaseline `{Platform} : Type := mk_MigrationBaseline {
  mb_id : string;
  mb_captured_at : string;
  mb_phase : BaselinePhase;
  mb_target : string;
  mb_evidence : EvidenceSnapshot
}.
Record DriftItem : Type := mk_DriftItem {
  dr_field : string;
  dr_before : string;
  dr_after : string
}.
Record DriftReport : Type := mk_DriftReport {
  dp_hardware : list DriftItem;
  dp_network : list DriftItem;
  dp_routes : list DriftItem;
  dp_ports : list DriftItem;
  dp_disks : list DriftItem;
  dp_services : list DriftItem;
  dp_summary : list string;
  dp_within_expectations : bool
}.

(** [str::ends_with] and [str::trim_end_matches] for a text. *)
Definition ends_with (p s : string) : bool :=
  (String.length p <=? String.length s)%nat
  && String.eqb (str_drop (String.length s - String.length p) s) p.
Fixpoint trim_end_matches_fuel (fuel : nat) (p s : string) : string :=
  match fuel with
  | O => s
  | S fuel =>
      if negb (is_empty p) && ends_with p s
      then trim_end_matches_fuel fuel p (String.substring 0 (String.length s - String.length p) s)
      else s
  end.
Definition trim_end_matches (p s : string) : string := trim_end_matches_fuel (String.length s) p s.

Class BaselineText `{Platform} := {
  baseline_to_vec : MigrationBaseline → string + string;
  baseline_from_slice : string → string + MigrationBaseline;
  (** [format("%Y%m%dT%H%M%SZ")] *)
  compact_stamp : Z → string
}.

(** ** The comparison *)
Definition diff_field (field before after : string) : list DriftItem :=
  if String.eqb before after then [] else [mk_DriftItem field before after].
Definition not_in (l : list string) (x : string) : bool := negb (existsb (String.eqb x) l).
Definition diff_sets (field : string) (before after : list string) : list DriftItem :=
  let removed := filter (not_in after) before in
  let added := filter (not_in before) after in
  match removed, added with
  | [], [] => []
  | _, _ => [mk_DriftItem field (join ", " removed) (join ", " added)]
  end.

Section baseline.
Context `{P : Platform}.
Implicit Types ev : EvidenceSnapshot.

Definition hypervisor_modules ev : list string :=
  from_option lm_hypervisor_modules [] (ev_linux_migration ev).
Definition iface_summary ev : list string :=
  (fun i => ni_name i +:+ " [" +:+ join " " (ni_addresses i) +:+ "]") <$> ne_live_interfaces (ev_network ev).
Definition port_summary ev : list string :=
  from_option (fun p => (fun lp => fmt_Z (lp_port lp) +:+ " (" +:+ lp_process lp +:+ ")") <$> pr_listening_ports p)
    [] (ev_process ev).
Definition fstab_summary ev : list string :=
  (fun e => fe_device e +:+ " " +:+ Evidence.fe_mountpoint e) <$> st_fstab_entries (ev_storage ev).
Definition failed_units ev : list string :=
  match ev_systemd ev ≫= sd_runtime with
  | Some r =>
      sru_name <$> filter (fun u => String.eqb (sru_active_state u) "failed"
                                    || String.eqb (sru_sub_state u) "failed") (sr_units r)
  | None => []
  end.
Definition drift_summary (counts : list (string * nat)) : list string :=
  let lines := (fun x => x.1 +:+ ": " +:+ fmt_nat x.2 +:+ " change(s)")
    <$> filter (fun x => (0 <? x.2)%nat) counts in
  match lines with [] => ["no drift detected"] | _ => lines end.
Definition diff_baselines (before : MigrationBaseline) ev : DriftReport :=
  let b := mb_evidence before in
  let hardware :=
    diff_field "firmware" (be_firmware (ev_boot b)) (be_firmware (ev_boot ev))
    ++ diff_sets "loaded_hypervisor_modules" (hypervisor_modules b) (hypervisor_modules ev) in
  let network :=
    diff_sets "interfaces" (iface_summary b) (iface_summary ev)
    ++ diff_field "default_gateway" (default "" (ne_default_gateway (ev_network b)))
         (default "" (ne_default_gateway (ev_network ev)))
    ++ diff_sets "dns_servers" (ne_dns_servers (ev_network b)) (ne_dns_servers (ev_network ev)) in
  let routes := diff_sets "routes" (ne_routes (ev_network b)) (ne_routes (ev_network ev)) in
  let ports := diff_sets "listening_ports" (port_summary b) (port_summary ev) in
  let disks :=
    diff_field "root_filesystem" (st_root_filesystem (ev_storage b)) (st_root_filesystem (ev_storage ev))
    ++ diff_sets "fstab" (fstab_summary b) (fstab_summary ev) in
  let services := diff_sets "failed_units" (failed_units b) (failed_units ev) in
  mk_DriftReport hardware network routes ports disks services
    (drift_summary [("hardware", length hardware); ("network", length network); ("routes", length routes);
       ("ports", length ports); ("disks", length disks); ("services", length services)])
    (bool_decide (length ports = 0) && bool_decide (length services = 0) && bool_decide (length disks = 0)).

(** ** Files *)
Context `{Sys : System} `{BT : !BaselineText}.
(** [state]: the variable [GUESTKIT_STATE_DIR], when it is set. *)
Definition baseline_dir (state : option string) : string :=
  match state with
  | Some dir => path_join dir "migration"
  | None => "/var/lib/guestkit/migration"
  end.
Definition phase_prefix (phase : BaselinePhase) : string :=
  match phase with PreMigration => "pre" | PostMigration => "post" end.
(** [ev] is the evidence that was collected, [now] and [now'] the two readings of the clock. *)
Definition capture_baseline `{Chrono} (state : option string) (phase : BaselinePhase) (target : string) ev
    (now now' : Z) : run MigrationBaseline :=
  let baseline := mk_MigrationBaseline _ (phase_prefix phase +:+ "-" +:+ compact_stamp now)
    (to_rfc3339 now') phase target ev in
  let dir := baseline_dir state in
  fs_create_dirs dir ;;
  text ← lift_sum (baseline_to_vec baseline);
  fs_write (path_join dir (mb_id baseline +:+ ".json")) text ;;
  mret baseline.
Definition load_baseline (state : option string) (id : string) : run MigrationBaseline :=
  let path := path_join (baseline_dir state) (id +:+ ".json") in
  bytes ← with_context ("baseline " +:+ id +:+ " not found at " +:+ path) (fs_bytes path);
  lift_sum (baseline_from_slice bytes).
(** the names in a directory, as far as the model's files go. *)
Definition names_in (dir : string) (w : world) : list string :=
  filter (fun n => negb (contains_char "/" n))
    (omap (strip_prefix (dir +:+ "/")) (fst <$> map_to_list (w_files w))).
(** [None]: the directory has no baseline, or it cannot be read. *)
Definition latest_pre_baseline (state : option string) : run (option MigrationBaseline) :=
  w ← get;
  let names := filter (fun n => starts_with "pre-" n && ends_with ".json" n) (names_in (baseline_dir state) w) in
  match last (str_sort names) with
  | None => mret None
  | Some latest => ok_of (load_baseline state (trim_end_matches ".json" latest))
  end.
End baseline.
