(* ===== verification/BaselineProps.v ===== *)
(** * What the drift report says

    Theorems on [Baseline]: which evidence the report compares and when it is empty, what
    [within_expectations] depends on, and that the baseline captured last is the one a
    later validation finds. *)
From stdpp Require Import base gmap strings list sorting.
From Stdlib Require Import ZArith Lia Ascii SpecFloat.
From S2P Require Import Prelude RustStr F64 Partition Filesystem Evidence BootChecks BootEngine BootScore Migration Kahn FixPlan Repair LiveExec LiveProps Passport PassportProps Words Baseline.

(** ** Sets of texts *)
Definition same_set (a b : list string) : Prop := ∀ x, x ∈ a ↔ x ∈ b.
Lemma not_in_spec l x : not_in l x = true ↔ x ∉ l.
Proof.
  unfold not_in. rewrite negb_true_iff, <-not_true_iff_false, existsb_exists. apply not_iff_compat.
  split; [intros (y & Hy & ->%String.eqb_eq); by apply list_elem_of_In|].
  intros Hx. exists x. split; [by apply list_elem_of_In|apply String.eqb_refl].
Qed.
Lemma filter_not_in_nil a b : filter (not_in b) a = [] ↔ ∀ x, x ∈ a → x ∈ b.
Proof.
  split.
  - intros H x Hx. destruct (decide (x ∈ b)) as [|Hn]; [done|].
    assert (x ∈ filter (not_in b) a) as Hin.
    { apply list_elem_of_filter. split; [by apply Is_true_true, not_in_spec|done]. }
    rewrite H in Hin. by apply elem_of_nil in Hin.
  - intros H. destruct (filter (not_in b) a) as [|x l] eqn:E; [done|].
    assert (x ∈ filter (not_in b) a) as [Hn Hx]%list_elem_of_filter by (rewrite E; by left).
    apply Is_true_true, not_in_spec in Hn. by destruct Hn; apply H.
Qed.
Lemma diff_sets_nil field a b : diff_sets field a b = [] ↔ same_set a b.
Proof.
  unfold diff_sets, same_set. pose proof (filter_not_in_nil a b) as H1. pose proof (filter_not_in_nil b a) as H2.
  destruct (filter (not_in b) a), (filter (not_in a) b); split; try done; intros H.
  - intros x. split; [by apply H1|by apply H2].
  - discriminate (proj2 H2 (fun x Hx => proj2 (H x) Hx)).
  - discriminate (proj2 H1 (fun x Hx => proj1 (H x) Hx)).
  - discriminate (proj2 H1 (fun x Hx => proj1 (H x) Hx)).
Qed.
Lemma diff_field_nil field a b : diff_field field a b = [] ↔ a = b.
Proof. unfold diff_field. destruct (String.eqb_spec a b); naive_solver. Qed.

Section drift.
Context `{P : Platform}.
Implicit Types (ev b : EvidenceSnapshot) (before : MigrationBaseline).

Record same_hardware b ev : Prop := {
  sh_firmware : be_firmware (ev_boot b) = be_firmware (ev_boot ev);
  sh_modules : same_set (hypervisor_modules b) (hypervisor_modules ev)
}.
Record same_network b ev : Prop := {
  sn_interfaces : same_set (iface_summary b) (iface_summary ev);
  sn_gateway : default "" (ne_default_gateway (ev_network b)) = default "" (ne_default_gateway (ev_network ev));
  sn_dns : same_set (ne_dns_servers (ev_network b)) (ne_dns_servers (ev_network ev));
  sn_routes : same_set (ne_routes (ev_network b)) (ne_routes (ev_network ev))
}.
Record same_workload b ev : Prop := {
  sw_ports : same_set (port_summary b) (port_summary ev);
  sw_root : st_root_filesystem (ev_storage b) = st_root_filesystem (ev_storage ev);
  sw_fstab : same_set (fstab_summary b) (fstab_summary ev);
  sw_failed : same_set (failed_units b) (failed_units ev)
}.

Lemma drift_summary_none counts :
  Forall (fun x => x.1 +:+ ": " +:+ fmt_nat x.2 +:+ " change(s)" ≠ "no drift detected") counts →
  drift_summary counts = ["no drift detected"] ↔ Forall (fun x => x.2 = 0) counts.
Proof.
  intros Hn. unfold drift_summary. set (F := filter _ counts).
  assert (F = [] ↔ Forall (fun x => x.2 = 0) counts) as HF.
  { unfold F. clear Hn F. induction counts as [|[s n] counts IH]; [done|]. rewrite filter_cons, Forall_cons, <-IH.
    destruct n as [|n]; cbn; [naive_solver|]. split; [done|]. by intros [? _]. }
  rewrite <-HF. split.
  - destruct F as [|x F'] eqn:E; [done|]. cbn. intros H. injection H as H _. exfalso.
    rewrite Forall_forall in Hn. apply (Hn x); [|done].
    assert (x ∈ F) as [_ Hx]%list_elem_of_filter; [|done]. fold F in E. rewrite E. by left.
  - by intros ->.
Qed.

(** the report says that nothing drifted exactly when the firmware, the hypervisor
    modules, the interfaces with their addresses, the gateway, the DNS servers, the routes,
    the listening ports, the root file system, the mount table and the failed units are
    what they were (lists compared as sets); and the drift is within expectations exactly
    when ports, disks and failed units are. *)
Theorem drift_report_exact before ev :
  let b := mb_evidence before in
  let report := diff_baselines before ev in
  (dp_summary report = ["no drift detected"] ↔
     same_hardware b ev ∧ same_network b ev ∧ same_workload b ev) ∧
  (dp_within_expectations report = true ↔ same_workload b ev).
Proof.
  intros b report. unfold report, diff_baselines. cbn [dp_summary dp_within_expectations]. fold b.
  rewrite drift_summary_none by (repeat constructor; done).
  rewrite !andb_true_iff, !bool_decide_eq_true, !Forall_cons, Forall_nil. cbn [snd].
  rewrite !length_zero_iff_nil, !app_nil, !diff_sets_nil, !diff_field_nil.
  split; (split; [intros H|intros H]).
  - split_and!; split; tauto.
  - destruct H as ([] & [] & []). tauto.
  - split; tauto.
  - destruct H. tauto.
Qed.

(** losing the network is within expectations: whatever the interfaces, addresses,
    gateway, DNS servers and routes become, the verdict is the same. *)
Theorem expectations_ignore_network before ev ev' :
  port_summary ev = port_summary ev' → ev_storage ev = ev_storage ev' → failed_units ev = failed_units ev' →
  dp_within_expectations (diff_baselines before ev) = dp_within_expectations (diff_baselines before ev').
Proof.
  intros Hp Hs Hf. unfold diff_baselines, fstab_summary. cbn [dp_within_expectations]. by rewrite Hp, Hs, Hf.
Qed.
End drift.

(** ** The latest baseline *)
Lemma last_sorted (l : list string) x :
  StronglySorted (fun s t => String.leb s t = true) l → x ∈ l → (∀ y, y ∈ l → String.leb y x = true) →
  (∀ a b, String.leb a b = true → String.leb b a = true → a = b) → last l = Some x.
Proof.
  intros Hs Hx Hmax Hanti. induction Hs as [|y l Hs IH Hy]; [by apply elem_of_nil in Hx|].
  destruct l as [|z l].
  - apply list_elem_of_singleton in Hx as ->. done.
  - change (last (y :: z :: l)) with (last (z :: l)). apply IH; [|intros u Hu; apply Hmax; by right].
    apply elem_of_cons in Hx as [->|Hx]; [|done].
    rewrite Forall_forall in Hy. assert (z ∈ z :: l) as Hz by left.
    rewrite (Hanti y z); [left|by apply Hy|apply Hmax; right; left].
Qed.
Lemma str_drop_app s t : str_drop (String.length s) (s +:+ t) = t.
Proof. induction s as [|c s IH]; [by destruct t|exact IH]. Qed.
Lemma substring_app s t : String.substring 0 (String.length s) (s +:+ t) = s.
Proof. induction s as [|c s IH]; [by destruct t|]. exact (f_equal (String c) IH). Qed.
Lemma ends_with_app s p : ends_with p (s +:+ p) = true.
Proof.
  unfold ends_with. rewrite text_length_app. replace (_ + _ - _) with (String.length s) by lia.
  rewrite str_drop_app, String.eqb_refl, andb_true_r. apply Nat.leb_le. lia.
Qed.
Lemma trim_end_once p s : p ≠ "" → ends_with p s = false → trim_end_matches p (s +:+ p) = s.
Proof.
  intros Hp Hs. unfold trim_end_matches. rewrite text_length_app.
  destruct p as [|c p]; [done|]. rewrite Nat.add_comm.
  change (String.length (String c p) + String.length s) with (S (String.length p + String.length s)).
  cbn [trim_end_matches_fuel]. rewrite ends_with_app. cbn [is_empty negb andb].
  rewrite text_length_app. replace (_ + _ - _) with (String.length s) by lia. rewrite substring_app.
  destruct (String.length p + String.length s); [done|]. cbn [trim_end_matches_fuel]. by rewrite Hs.
Qed.
Lemma contains_char_app c s t : contains_char c (s +:+ t) = contains_char c s || contains_char c t.
Proof.
  induction s as [|d s IH]; [done|]. change (String d s +:+ t) with (String d (s +:+ t)). cbn.
  by rewrite IH, orb_assoc.
Qed.
Section latest.
Context `{P : Platform} `{Sys : System} `{BT : !BaselineText} `{Ch : Chrono}.
(** a stamp is a name without slashes that does not end like a file name. *)
Hypothesis stamp_plain : ∀ t, contains_char "/" (compact_stamp t) = false ∧
  ends_with ".json" ("pre-" +:+ compact_stamp t) = false.

Lemma dir_path state name : starts_with "/" name = false →
  match state with Some d => d ≠ "" | None => True end →
  path_join (baseline_dir state) name = baseline_dir state +:+ "/" +:+ name.
Proof.
  intros Hn Hs. unfold path_join at 1. rewrite Hn. destruct state as [d|]; [|done]. cbn.
  destruct d as [|c d]; [done|]. unfold path_join. cbn [starts_with is_empty].
  change (String.prefix "/" "migration") with false. cbv iota.
  set (j := if ends_with_char _ _ then _ else _).
  assert (∃ a, j = a +:+ "migration" ∧ is_empty j = false) as (a & -> & ->).
  { unfold j. destruct (ends_with_char _ _); [by exists (String c d)|].
    exists (String c d +:+ "/"). split; [by rewrite text_app_assoc|done]. }
  assert (ends_with_char "/" (a +:+ "migration") = false) as ->; [|done].
  clear. induction a as [|x a IH]; [done|]. change (String x a +:+ ?t) with (String x (a +:+ t)).
  cbn [ends_with_char]. destruct (a +:+ "migration") eqn:E; [by destruct a|done].
Qed.

Lemma names_in_elem dir n w :
  n ∈ names_in dir w ↔ contains_char "/" n = false ∧ is_Some (w_files w !! (dir +:+ "/" +:+ n)).
Proof.
  unfold names_in. rewrite list_elem_of_filter, list_elem_of_omap.
  assert (Is_true (negb (contains_char "/" n)) ↔ contains_char "/" n = false) as ->
    by (rewrite Is_true_true; apply negb_true_iff).
  apply and_iff_compat_l. split.
  - intros (k & ((k' & f) & -> & Hk)%list_elem_of_fmap & Hs). apply elem_of_map_to_list in Hk.
    unfold strip_prefix in Hs. cbn [fst] in Hs. destruct (starts_with (dir +:+ "/") k') eqn:E; [|done].
    apply starts_with_spec in E as [t ->]. rewrite str_drop_app in Hs. injection Hs as ->.
    rewrite text_app_assoc in Hk. by eexists.
  - intros [f Hf]. exists (dir +:+ "/" +:+ n). split.
    + apply list_elem_of_fmap. exists (dir +:+ "/" +:+ n, f). split; [done|]. by apply elem_of_map_to_list.
    + rewrite <- text_app_assoc. unfold strip_prefix.
      rewrite (proj2 (starts_with_spec (dir +:+ "/") _)) by (by eexists). by rewrite str_drop_app.
Qed.

(** the baseline captured before a migration is the one a validation without an
    identifier loads afterwards, as long as no baseline in the directory has a later name
    (and its text is read back as it was written). *)
Theorem capture_then_latest state target ev now now' w w' b :
  (∀ n, io n = None) → match state with Some d => d ≠ "" | None => True end →
  capture_baseline state PreMigration target ev now now' w = (w', Ok b) →
  (∀ n, n ∈ names_in (baseline_dir state) w' → starts_with "pre-" n = true →
    String.leb n (mb_id b +:+ ".json") = true) →
  (∀ text, baseline_to_vec b = inr text → baseline_from_slice text = inr b) →
  latest_pre_baseline state w' = (count_call w', Ok (Some b)).
Proof.
  intros Hio Hst H Hmax Hround. unfold capture_baseline in H. set (id := "pre-" +:+ compact_stamp now).
  change (phase_prefix PreMigration +:+ "-" +:+ compact_stamp now) with id in H.
  run_inv. apply fs_write_Ok in H2 as (m & Hw). cbn [mb_id] in Hw, Hmax.
  unfold lift_sum in H1. apply lift_Ok in H1 as [Ht ->].
  destruct (baseline_to_vec _) as [e|text] eqn:Hvec; [done|]. injection Ht as <-.
  destruct (stamp_plain now) as [Hslash Hend]. fold id in Hend.
  rewrite dir_path in Hw by done. set (path := baseline_dir state +:+ "/" +:+ id +:+ ".json") in *.
  assert (w_files w' !! path = Some (mk_file text m)) as Hf by (by rewrite Hw, lookup_insert_eq).
  unfold latest_pre_baseline, mbind, run_bind. cbn [get].
  set (names := filter _ _). assert (last (str_sort names) = Some (id +:+ ".json")) as ->.
  { apply last_sorted; [apply str_sort_sorted| | |apply String.leb_antisym].
    - rewrite str_sort_Permutation. apply list_elem_of_filter. rewrite names_in_elem, contains_char_app. split.
      + apply Is_true_true. rewrite ends_with_app, andb_true_r. by destruct (compact_stamp now).
      + unfold id. rewrite contains_char_app, Hslash. by split; [|eexists].
    - intros y. rewrite str_sort_Permutation. intros [[Hp _]%andb_prop_elim Hy]%list_elem_of_filter.
      apply Hmax; [done|]. by apply Is_true_true. }
  rewrite trim_end_once by done. unfold ok_of, load_baseline, mbind, run_bind, with_context, fs_bytes.
  rewrite dir_path by done. fold path. rewrite Hio. cbn [w_files count_call]. rewrite Hf. cbn [f_content].
  by rewrite (Hround _ eq_refl).
Qed.
End latest.

(** ** A concrete baseline *)
Definition toy_baseline : @MigrationBaseline ascii_platform :=
  mk_MigrationBaseline ascii_platform "pre-20260102T030405Z" "2" PreMigration "kvm" repaired_guest.
Definition toy_baseline_text : @BaselineText ascii_platform := {|
  baseline_to_vec := fun _ => inr "baseline";
  baseline_from_slice := fun _ => inr toy_baseline;
  compact_stamp := fun _ => "20260102T030405Z"
|}.
Definition older_world : world :=
  mk_world {[ "/var/lib/guestkit/migration/pre-20250102T030405Z.json" := mk_file "old" 420;
              "/var/lib/guestkit/migration/post-20260102T030405Z.json" := mk_file "after" 420 ]}
    false 0.
Notation toy_capture := (@capture_baseline ascii_platform plain_system toy_baseline_text plain_chrono
  None PreMigration "kvm" repaired_guest 1 2 older_world).
Lemma toy_capture_Ok : toy_capture = (toy_capture.1, Ok toy_baseline).
Proof. reflexivity. Qed.
Lemma toy_names : names_in (baseline_dir None) toy_capture.1 ⊆
  ["pre-20250102T030405Z.json"; "pre-20260102T030405Z.json"; "post-20260102T030405Z.json"].
Proof. by refine (bool_decide_eq_true_1 _ _); vm_compute. Qed.
Lemma capture_then_latest_witness :
  @latest_pre_baseline ascii_platform plain_system toy_baseline_text None toy_capture.1 =
  (count_call toy_capture.1, Ok (Some toy_baseline)).
Proof.
  refine (@capture_then_latest ascii_platform plain_system toy_baseline_text plain_chrono
    (fun _ => conj eq_refl eq_refl) None "kvm" repaired_guest 1 2 older_world _ toy_baseline
    (fun _ => eq_refl) I toy_capture_Ok _ _).
  - intros n Hn%toy_names _.
    repeat (apply elem_of_cons in Hn as [->|Hn]; [vm_compute; reflexivity|]).
    by apply elem_of_nil in Hn.
  - intros text _. reflexivity.
Defined.
(** the same guest, its network gone. *)
Definition cut_off (ev : @EvidenceSnapshot ascii_platform) : @EvidenceSnapshot ascii_platform :=
  mk_EvidenceSnapshot ascii_platform (ev_schema_version ev) (ev_image_path ev) (ev_collected_at ev) (ev_root ev)
    (ev_os ev) (ev_storage ev) (ev_boot ev) default_NetworkEvidence (ev_packages ev) (ev_security ev)
    (ev_vm_tools ev) (ev_systemd ev) (ev_windows ev) (ev_kubevirt ev) (ev_cloud_init ev) (ev_network_probes ev)
    (ev_snapshot_readiness ev) (ev_process ev) (ev_hardware ev) (ev_linux_migration ev) (ev_online_cache ev).
Lemma expectations_ignore_network_witness :
  dp_within_expectations (diff_baselines toy_baseline (cut_off repaired_guest)) = true.
Proof.
  rewrite (@expectations_ignore_network ascii_platform toy_baseline (cut_off repaired_guest) repaired_guest
    eq_refl eq_refl eq_refl).
  vm_compute. reflexivity.
Defined.
