(* ===== verification/Readiness.v ===== *)
(** * Readiness tokens and the validation after a migration

    [src/migration/workflow.rs]: the check before a migration issues a token, an HMAC over
    score, baseline and expiry with a key kept in a file; entering the cutover asks for one
    ([cutover_enter] of [src/agent/handler.rs]); the validation compares the guest with its
    baseline.  The cutover itself is [Cutover].

    Randomness and clocks are arguments; a moment is a number of nanoseconds; [Display] of
    an [f64] is the class [DisplayF64]. *)
From stdpp Require Import base gmap strings list.
From Stdlib Require Import ZArith Lia Ascii SpecFloat.
From S2P Require Import Prelude RustStr F64 Partition Filesystem Evidence BootChecks BootEngine BootScore Migration Kahn FixPlan Repair LiveExec LiveProps Passport PassportProps Words Baseline BaselineProps.

Definition TOKEN_VALIDITY_SECS : Z := 3600.

Record ReadinessToken : Type := mk_ReadinessToken {
  rt_token : string;
  rt_score : f64;
  rt_readiness : ReadinessLevel;
  rt_baseline_id : string;
  rt_expires_at : string
}.
Record PostMigrationReport : Type := mk_PostMigrationReport {
  pm_boot_ok : bool;
  pm_network_ok : bool;
  pm_restored_ips : list string;
  pm_drift : DriftReport;
  pm_baseline_id : string
}.

Class DisplayF64 := display_f64 : f64 → string.

(** bytes and texts. *)
Definition bytes_of (s : string) : list Z := byte_of <$> String.list_ascii_of_string s.
Definition text_of (l : list Z) : string := String.string_of_list_ascii (ascii_of_byte <$> l).

(** the key, padded to a block and combined with the pad's byte. *)
Definition key_pad (key : list Z) (pad : Z) : list Z :=
  (fun i => Z.lxor pad (default 0%Z (key !! i))) <$> seq 0 64.

Section readiness.
Context `{P : Platform} `{Sys : System} `{Ch : Chrono} `{Df : DisplayF64}.

Definition hmac_sha256 (key : list Z) (message : string) : list Z :=
  let inner := sha256 (text_of (key_pad key 54 ++ bytes_of message)) in
  sha256 (text_of (key_pad key 92 ++ inner)).

Definition token_path (state : option string) : string := path_join (baseline_dir state) "token.key".
(** [fresh]: the 32 random bytes. *)
Definition token_key (state : option string) (fresh : string) : run string :=
  stored ← ok_of (fs_bytes (token_path state));
  match stored with
  | Some bytes =>
      if (String.length bytes =? 32)%nat then mret bytes
      else
        fs_create_dirs (baseline_dir state) ;;
        fs_write (token_path state) fresh ;;
        ok_of (fs_chmod (token_path state) 384) ;;
        mret fresh
  | None =>
      fs_create_dirs (baseline_dir state) ;;
      fs_write (token_path state) fresh ;;
      ok_of (fs_chmod (token_path state) 384) ;;
      mret fresh
  end.
Definition token_message (score : f64) (baseline_id expires_at : string) : string :=
  display_f64 score +:+ "|" +:+ baseline_id +:+ "|" +:+ expires_at.
Definition sign_token (state : option string) (fresh : string) (score : f64) (baseline_id expires_at : string)
    : run string :=
  key ← token_key state fresh;
  mret (hex_encode (hmac_sha256 (bytes_of key) (token_message score baseline_id expires_at))).
Definition verify_token (state : option string) (fresh : string) (now : Z) (token : ReadinessToken) : run () :=
  match parse_rfc3339 (rt_expires_at token) with
  | None => throw (ErrText "token expiry")
  | Some expires =>
      if (expires <? now)%Z then throw (ErrText ("readiness token expired at " +:+ rt_expires_at token))
      else
        expected ← sign_token state fresh (rt_score token) (rt_baseline_id token) (rt_expires_at token);
        if negb (String.eqb expected (rt_token token)) then
          throw (ErrText "readiness token signature mismatch")
        else mret ()
  end.

Context `{BT : !BaselineText}.
(** what the live collectors and the clock give during a check. *)
Record live_reading : Type := mk_live_reading {
  lr_evidence : outcome string EvidenceSnapshot;
  lr_assessed : Z;
  lr_baseline_evidence : outcome string EvidenceSnapshot;
  lr_stamp : Z;
  lr_captured : Z;
  lr_now : Z
}.
Definition pre_migration_check (oc : bool) (state : option string) (fresh : string) (live : live_reading)
    (target : string) : run ReadinessToken :=
  evidence ← lift (lr_evidence live);
  let boot_report := analyze_bootability evidence (BootTarget_parse target) in
  assessment ← lift (match assess_migration oc (to_rfc3339 (lr_assessed live)) evidence boot_report target true with
                     | Ok a => Ok a | Err e => match e with end | Panic => Panic end);
  evidence' ← lift (lr_baseline_evidence live);
  baseline ← capture_baseline state PreMigration target evidence' (lr_stamp live) (lr_captured live);
  let expires_at := to_rfc3339 (lr_now live + TOKEN_VALIDITY_SECS * 1000000000) in
  token ← sign_token state fresh (ma_overall_score assessment) (mb_id baseline) expires_at;
  mret (mk_ReadinessToken token (ma_overall_score assessment) (ma_readiness assessment) (mb_id baseline)
          expires_at).

(** the guard of [cutover_enter]; [token]: the parameter, when it can be read. *)
Definition cutover_guard (state : option string) (fresh : string) (now : Z) (token : option ReadinessToken)
    : run () :=
  match token with
  | Some token => verify_token state fresh now token
  | None => throw (ErrText "missing readiness token (run migration.preCheck first)")
  end.

Definition boot_ok (current : EvidenceSnapshot) : bool :=
  match (ev_systemd current ≫= sd_runtime) ≫= sr_manager with
  | Some m => negb (String.eqb (Evidence.sm_system_state m) "degraded")
  | None => true
  end.
Definition network_ok (current : EvidenceSnapshot) : bool :=
  bool_decide (is_Some (ne_default_gateway (ev_network current)))
  && existsb (fun i => negb (bool_decide (ni_addresses i = [])) && negb (String.eqb (ni_name i) "lo"))
       (ne_live_interfaces (ev_network current)).
Definition restored_ips (before current : EvidenceSnapshot) : list string :=
  match ev_windows before, ev_windows current with
  | Some before_win, Some _ => (we_static_nic_configs before_win : list _) ≫= wn_ip_addresses
  | _, _ => []
  end.
Definition post_migration_validate (state : option string) (baseline_id : option string)
    (live : outcome string EvidenceSnapshot) : run PostMigrationReport :=
  baseline ← match baseline_id with
             | Some id => load_baseline state id
             | None =>
                 found ← latest_pre_baseline state;
                 match found with
                 | Some b => mret b
                 | None => throw (ErrText "no pre-migration baseline found")
                 end
             end;
  current ← lift live;
  mret (mk_PostMigrationReport (boot_ok current) (network_ok current)
    (restored_ips (mb_evidence baseline) current) (diff_baselines baseline current) (mb_id baseline)).
End readiness.

(** ** What a readiness token authorises

    The token of the check before a migration is accepted for an hour by the guard of the
    cutover — whatever readiness the check found, since neither the signature nor the guard
    looks at it. *)
Section tokens.
Context `{P : Platform} `{Sys : System} `{Ch : Chrono} `{Df : DisplayF64} `{BT : !BaselineText}.
Implicit Types (state : option string) (fresh : string) (w : world).
Hypothesis io_succeeds : ∀ n, io n = None.

(** the key file holds [key]. *)
Definition has_key state (key : string) w : Prop :=
  (∃ m, w_files w !! token_path state = Some (mk_file key m)) ∧ String.length key = 32.

Lemma token_key_written state fresh w w' key :
  String.length fresh = 32 →
  (fs_create_dirs (baseline_dir state) ;; fs_write (token_path state) fresh ;;
   ok_of (fs_chmod (token_path state) 384) ;; mret fresh) w = (w', Ok key) →
  key = fresh ∧ has_key state key w'.
Proof.
  intros Hl H. run_inv. apply fs_write_Ok in H1 as (m & Hw). split; [done|].
  unfold ok_of, fs_chmod, fs_update in H2. rewrite io_succeeds in H2. cbn in H2. rewrite Hw, lookup_insert_eq in H2.
  cbn in H2. injection H2 as <- _. split; [|done]. exists 384%Z. cbn. by rewrite lookup_insert_eq.
Qed.
Lemma token_key_Ok state fresh w w' key :
  String.length fresh = 32 → token_key state fresh w = (w', Ok key) → has_key state key w'.
Proof.
  intros Hl H. unfold token_key, mbind at 1, run_bind at 1, ok_of at 1, fs_bytes in H. rewrite io_succeeds in H.
  destruct (w_files (count_call w) !! token_path state) as [f|] eqn:Ef;
    [|by eapply token_key_written in H as [_ ?]].
  cbn [f_content] in H. destruct (String.length (f_content f) =? 32)%nat eqn:El;
    [|by eapply token_key_written in H as [_ ?]].
  injection H as <- <-. apply Nat.eqb_eq in El. split; [|done]. exists (f_mode f). rewrite Ef. by destruct f.
Qed.
Lemma token_key_stored state fresh w key :
  has_key state key w → token_key state fresh w = (count_call w, Ok key).
Proof.
  intros [[m Hm] Hl]. unfold token_key, mbind, run_bind, ok_of, fs_bytes. rewrite io_succeeds.
  cbn [w_files count_call]. rewrite Hm. cbn [f_content]. by rewrite Hl.
Qed.

(** the token of a check that succeeded is accepted by the guard of the cutover up to
    its expiry, one hour after it was issued, and refused after it — with any readiness in
    it: a guest that the check found blocked is authorised all the same. *)
Theorem token_authorises_any_readiness oc state fresh fresh' live target w w1 w2 tok now r :
  String.length fresh = 32 →
  pre_migration_check oc state fresh live target w = (w1, Ok tok) →
  w_files w2 !! token_path state = w_files w1 !! token_path state →
  parse_rfc3339 (rt_expires_at tok) = Some (lr_now live + 3600 * 1000000000)%Z →
  let shown := mk_ReadinessToken (rt_token tok) (rt_score tok) r (rt_baseline_id tok) (rt_expires_at tok) in
  (cutover_guard state fresh' now (Some shown) w2).2 =
  if (now <=? lr_now live + 3600 * 1000000000)%Z then Ok ()
  else Err (ErrText ("readiness token expired at " +:+ rt_expires_at tok)).
Proof.
  intros Hl H Hw Hexp shown. unfold pre_migration_check, sign_token in H. run_inv.
  match goal with H : token_key _ _ _ = _ |- _ => apply token_key_Ok in H as [[m Hm] Hk]; [|done] end.
  cbn [rt_expires_at rt_token rt_score rt_baseline_id rt_readiness] in *.
  unfold cutover_guard, verify_token, shown. cbn [rt_expires_at]. rewrite Hexp.
  rewrite Z.leb_antisym. destruct (_ <? now)%Z; [done|]. cbn [negb].
  unfold sign_token, mbind, run_bind. rewrite (token_key_stored _ _ _ _ (conj (ex_intro _ m (eq_trans Hw Hm)) Hk)).
  cbn [rt_token rt_score rt_baseline_id mret run_ret]. by rewrite String.eqb_refl.
Qed.
End tokens.

(** ** A blocked guest *)
#[local] Instance toy_display : DisplayF64 := fmt_f64_0.
Definition blocked_live : @live_reading ascii_platform :=
  @mk_live_reading ascii_platform (Ok broken_guest) 1 (Ok broken_guest) 2 3 4.
Notation blocked_check := (@pre_migration_check ascii_platform plain_system plain_chrono toy_display
  toy_baseline_text true None seed_text blocked_live "kvm" image_world).
Lemma blocked_token : ∃ w tok, blocked_check = (w, Ok tok) ∧ rt_readiness tok = Blocked ∧
  parse_rfc3339 (Chrono:=plain_chrono) (rt_expires_at tok) = Some (4 + 3600 * 1000000000)%Z.
Proof.
  assert (∃ tok, blocked_check.2 = Ok tok ∧ rt_readiness tok = Blocked ∧
    parse_rfc3339 (Chrono:=plain_chrono) (rt_expires_at tok) = Some (4 + 3600 * 1000000000)%Z)
    as (tok & Htok & Hrest) by (eexists; split; [vm_compute; reflexivity|by vm_compute]).
  revert Htok. generalize blocked_check. intros [w o] Htok. cbn in Htok. subst o.
  exists w, tok. split; [reflexivity|exact Hrest].
Qed.
Lemma token_authorises_any_readiness_witness : ∃ w tok, blocked_check = (w, Ok tok) ∧ rt_readiness tok = Blocked ∧
  (@cutover_guard plain_system plain_chrono toy_display None "" 5 (Some tok) w).2 = Ok ().
Proof.
  destruct blocked_token as (w & tok & Hrun & Hb & Hp). exists w, tok. split; [exact Hrun|]. split; [exact Hb|].
  pose proof (@token_authorises_any_readiness ascii_platform plain_system plain_chrono toy_display
    toy_baseline_text (fun _ => eq_refl) true None seed_text "" blocked_live "kvm" image_world w w tok 5 (rt_readiness tok)
    eq_refl Hrun eq_refl Hp) as H.
  destruct tok. exact H.
Defined.
