(* ===== verification/Cutover.v ===== *)
(** * Cutover maintenance: freeze, watchdog and recovery

    The second half of [src/migration/workflow.rs] with [freeze_filesystems] and
    [thaw_filesystems] of [src/agent/snapshot_hooks.rs], the freeze commands of
    [src/agent/qga.rs] and [local_fsfreeze] of [src/agent/executor_ipc.rs] (Linux build).

    The state is a [guest]: the kernel's freeze of the root file system, the agent process
    with its two flags, its sleeping watchdog threads and the request it is serving, the
    marker file and the services that are stopped.  The agent is a state machine: an
    [event] is one atomic piece of a handler, of a watchdog thread or of the start-up, a
    command of the host to the guest agent's own interface, a freeze or a thaw by another
    operation of the agent (the [freeze_filesystem] and [thaw_filesystem] requests of
    [src/agent/handler.rs], and [prepare] and [complete] of [src/agent/snapshot/mod.rs],
    which also store the hint; [Snapshot] models these calls as a whole), a second of time,
    a crash or a restart; [deliver] runs it, or says that it cannot happen in the state.  A request is
    cut between its system calls, so that everything else can happen in between.

    [fsfreeze(8)] fails when there is nothing to do (the kernel answers EBUSY and EINVAL);
    [works] says whether the privileged helper can run it at all.  A write to a frozen file
    system blocks: with the state directory on the root file system ([on_root]) the marker
    cannot be written while the guest is frozen (a blocked clean-up of the marker is not
    completed later).  One request is served at a time, and time does not pass between the
    freeze and the start of its watchdog nor past the deadline of a watchdog. *)
From stdpp Require Import base gmap strings list.
From Stdlib Require Import ZArith Lia Ascii.
From S2P Require Import Prelude RustStr.

Definition DEFAULT_WATCHDOG_SECS : Z := 120.
Definition MAX_WATCHDOG_SECS : Z := 600.

Record CutoverState : Type := mk_CutoverState {
  cs_active : bool;
  cs_entered_at : option Z;
  cs_frozen : bool;
  cs_watchdog_deadline : option Z;
  cs_stopped_services : list string
}.
Record CutoverParams : Type := mk_CutoverParams {
  cu_stop_services : list string;
  cu_freeze : bool;
  cu_watchdog_secs : option Z
}.

(** where the request that enters the cutover stands. *)
Inductive request : Type :=
  | Idle
  | Freezing (secs : Z) (stopped : list string)
  | Arming (secs : Z) (stopped : list string)
  | Marking (frozen : bool) (deadline : option Z) (stopped : list string).

Record guest : Type := mk_guest {
  g_now : Z;
  g_frozen : bool;
  g_up : bool;
  g_hint : bool;             (** [fs_frozen_hint] of the agent's runtime *)
  g_qga : bool;              (** [FS_FROZEN] of the guest agent interface *)
  g_watchdogs : list Z;
  g_request : request;
  g_marker : option CutoverState;
  g_down : gset string       (** the services that are stopped *)
}.
Definition set_frozen (b : bool) (g : guest) : guest :=
  mk_guest (g_now g) b (g_up g) (g_hint g) (g_qga g) (g_watchdogs g) (g_request g) (g_marker g) (g_down g).
Definition set_hint (b : bool) (g : guest) : guest :=
  mk_guest (g_now g) (g_frozen g) (g_up g) b (g_qga g) (g_watchdogs g) (g_request g) (g_marker g) (g_down g).
Definition set_qga (b : bool) (g : guest) : guest :=
  mk_guest (g_now g) (g_frozen g) (g_up g) (g_hint g) b (g_watchdogs g) (g_request g) (g_marker g) (g_down g).
Definition set_watchdogs (l : list Z) (g : guest) : guest :=
  mk_guest (g_now g) (g_frozen g) (g_up g) (g_hint g) (g_qga g) l (g_request g) (g_marker g) (g_down g).
Definition set_request (r : request) (g : guest) : guest :=
  mk_guest (g_now g) (g_frozen g) (g_up g) (g_hint g) (g_qga g) (g_watchdogs g) r (g_marker g) (g_down g).
Definition set_marker (m : option CutoverState) (g : guest) : guest :=
  mk_guest (g_now g) (g_frozen g) (g_up g) (g_hint g) (g_qga g) (g_watchdogs g) (g_request g) m (g_down g).
Definition set_down (d : gset string) (g : guest) : guest :=
  mk_guest (g_now g) (g_frozen g) (g_up g) (g_hint g) (g_qga g) (g_watchdogs g) (g_request g) (g_marker g) d.

(** ** Freezing *)
Definition local_fsfreeze (works thaw : bool) (g : guest) : guest * bool :=
  if negb works then (g, false)
  else if thaw then if g_frozen g then (set_frozen false g, true) else (g, false)
  else if g_frozen g then (g, false) else (set_frozen true g, true).
Definition guest_fsfreeze_freeze (works : bool) (g : guest) : guest * bool :=
  let '(g, ok) := local_fsfreeze works false g in if ok : bool then (set_qga true g, true) else (g, false).
Definition guest_fsfreeze_thaw (works : bool) (g : guest) : guest * bool :=
  let '(g, ok) := local_fsfreeze works true g in if ok : bool then (set_qga false g, true) else (g, false).
Definition freeze_filesystems (works : bool) (g : guest) : guest * bool :=
  let '(g, ok) := guest_fsfreeze_freeze works g in if ok : bool then (set_hint true g, true) else (g, false).
Definition thaw_filesystems (works : bool) (g : guest) : guest * bool :=
  let '(g, ok) := guest_fsfreeze_thaw works g in if ok : bool then (set_hint false g, true) else (g, false).
Definition fs_frozen (g : guest) : bool := g_hint g || g_qga g.

(** [clamp(10, MAX_WATCHDOG_SECS)]. *)
Definition watchdog_secs (p : CutoverParams) : Z :=
  Z.min (Z.max (default DEFAULT_WATCHDOG_SECS (cu_watchdog_secs p)) 10) MAX_WATCHDOG_SECS.
Definition arm_watchdog (secs : Z) (g : guest) : guest := set_watchdogs (g_watchdogs g ++ [(g_now g + secs)%Z]) g.

Section cutover.
(** is the state directory on the root file system, and which services does the executor
    stop and start? *)
Context (on_root : bool) (control_unit : string → string → bool).

Definition can_write (g : guest) : bool := negb (g_frozen g && on_root).
Definition clear_marker_frozen (g : guest) : guest :=
  match g_marker g with
  | Some s =>
      if can_write g then
        set_marker (Some (mk_CutoverState (cs_active s) (cs_entered_at s) false None (cs_stopped_services s))) g
      else g
  | None => g
  end.
Definition recover_cutover_state (works : bool) (g : guest) : guest :=
  match g_marker g with
  | Some s => if cs_frozen s then clear_marker_frozen (thaw_filesystems works g).1 else g
  | None => g
  end.
(** the body of the watchdog thread, after its sleep. *)
Definition watchdog_fires (works : bool) (g : guest) : guest :=
  if fs_frozen g then clear_marker_frozen (thaw_filesystems works g).1 else g.

(** ** Entering, in pieces *)
Definition stop_services (p : CutoverParams) (g : guest) : guest * list string :=
  let stopped := filter (control_unit "stop") (cu_stop_services p) in
  (set_down (list_to_set stopped ∪ g_down g) g, stopped).
Definition begin_cutover (p : CutoverParams) (g : guest) : guest :=
  let '(g, stopped) := stop_services p g in
  set_request (if cu_freeze p then Freezing (watchdog_secs p) stopped else Marking false None stopped) g.
Definition freeze_cutover (works : bool) (secs : Z) (stopped : list string) (g : guest) : guest :=
  let '(g, ok) := freeze_filesystems works g in
  set_request (if ok : bool then Arming secs stopped else Idle) g.
Definition arm_cutover (secs : Z) (stopped : list string) (g : guest) : guest :=
  set_request (Marking true (Some (g_now g + secs)%Z) stopped) (arm_watchdog secs g).
(** [written]: does the write of the marker succeed? *)
Definition mark_cutover (written : bool) (frozen : bool) (deadline : option Z) (stopped : list string)
    (g : guest) : guest :=
  let g := set_request Idle g in
  if written then set_marker (Some (mk_CutoverState true (Some (g_now g)) frozen deadline stopped)) g else g.

(** ** Leaving *)
Definition start_services (g : guest) : guest * list string :=
  match g_marker g with
  | Some prev =>
      let restarted := filter (control_unit "start") (cs_stopped_services prev) in
      (set_down (g_down g ∖ list_to_set restarted) g, restarted)
  | None => (g, [])
  end.
Definition exit_cutover (works : bool) (g : guest) : guest * option CutoverState :=
  let entered := g_marker g ≫= cs_entered_at in
  let '(g, thawed) := if fs_frozen g then thaw_filesystems works g else (g, true) in
  if negb thawed then (g, None)
  else
    let '(g, restarted) := start_services g in
    (set_marker None g, Some (mk_CutoverState false entered false None restarted)).

(** ** Events *)
Inductive event : Type :=
  | Enter (p : CutoverParams)
  | Freeze (works : bool)
  | Arm
  | Mark (written : bool)
  | Watchdog (deadline : Z) (works : bool)
  | Exit (works : bool)
  | HostFreeze (works : bool)
  | HostThaw (works : bool)
  | Tick
  | Crash
  | Restart (works : bool)
  | AgentFreeze (works : bool)
  | AgentThaw (works : bool)
  | SnapshotHint (hint : bool).

Definition crash (g : guest) : guest :=
  mk_guest (g_now g) (g_frozen g) false false false [] Idle (g_marker g) (g_down g).
Definition restart (works : bool) (g : guest) : guest :=
  recover_cutover_state works
    (mk_guest (g_now g) (g_frozen g) true false false [] Idle (g_marker g) (g_down g)).
Definition tick (g : guest) : guest :=
  mk_guest (g_now g + 1) (g_frozen g) (g_up g) (g_hint g) (g_qga g) (g_watchdogs g) (g_request g)
    (g_marker g) (g_down g).
Fixpoint remove_one (d : Z) (l : list Z) : option (list Z) :=
  match l with
  | [] => None
  | x :: l => if (x =? d)%Z then Some l else cons x <$> remove_one d l
  end.

Definition deliver (e : event) (g : guest) : option guest :=
  match e, g_request g with
  | Crash, _ => if g_up g then Some (crash g) else None
  | Restart works, _ => if g_up g then None else Some (restart works g)
  | Tick, Arming _ _ => None
  | Tick, _ => if forallb (fun d => g_now g <? d)%Z (g_watchdogs g) then Some (tick g) else None
  | Watchdog d works, _ =>
      if (d <=? g_now g)%Z then
        l ← remove_one d (g_watchdogs g); Some (watchdog_fires works (set_watchdogs l g))
      else None
  | _, _ =>
      if negb (g_up g) then None
      else
        match e, g_request g with
        | Enter p, Idle => Some (begin_cutover p g)
        | Freeze works, Freezing secs stopped => Some (freeze_cutover works secs stopped g)
        | Arm, Arming secs stopped => Some (arm_cutover secs stopped g)
        | Mark written, Marking frozen deadline stopped =>
            if can_write g then Some (mark_cutover written frozen deadline stopped g) else None
        | Exit works, Idle => Some (exit_cutover works g).1
        | HostFreeze works, _ => Some (guest_fsfreeze_freeze works g).1
        | HostThaw works, _ => Some (guest_fsfreeze_thaw works g).1
        | AgentFreeze works, _ => Some (freeze_filesystems works g).1
        | AgentThaw works, _ => Some (thaw_filesystems works g).1
        | SnapshotHint hint, _ => Some (set_hint hint g)
        | _, _ => None
        end
  end.
Fixpoint deliver_all (es : list event) (g : guest) : option guest :=
  match es with
  | [] => Some g
  | e :: es => g ← deliver e g; deliver_all es g
  end.
(** a guest whose agent has just started for the first time. *)
Definition fresh_guest : guest := mk_guest 0 false true false false [] Idle None ∅.

(** the whole of [enter_cutover] when nothing happens in between; [None]: it blocks. *)
Definition enter_cutover (works written : bool) (p : CutoverParams) (g : guest) : option guest :=
  let g := begin_cutover p g in
  let g := match g_request g with Freezing secs stopped => freeze_cutover works secs stopped g | _ => g end in
  let g := match g_request g with Arming secs stopped => arm_cutover secs stopped g | _ => g end in
  match g_request g with
  | Marking frozen deadline stopped =>
      if can_write g then Some (mark_cutover written frozen deadline stopped g) else None
  | _ => Some g
  end.
End cutover.
