(* ===== verification/CutoverProps.v ===== *)
(** * What the cutover guarantees

    Theorems on [Cutover], by induction on runs of the agent: how long a freeze can last
    while the agent lives, when a restarted agent finds and ends it and when it cannot, why
    a request that freezes the root file system is only answered after the thaw, and what
    becomes of the services that were stopped. *)
From stdpp Require Import base gmap strings list.
From Stdlib Require Import ZArith Lia Ascii.
From S2P Require Import Prelude RustStr Cutover.

Create HintDb cutover.

Section cutover.
Context (on_root : bool) (control_unit : string → string → bool).
Abbreviation deliver := (deliver on_root control_unit).
Abbreviation deliver_all := (deliver_all on_root control_unit).
Implicit Types (g : guest) (e : event) (es : list event).

Lemma deliver_all_app es es' g :
  deliver_all (es ++ es') g = deliver_all es g ≫= deliver_all es'.
Proof.
  revert g. induction es as [|e es IH]; intros g; [done|]. cbn.
  destruct (deliver e g) as [g'|]; [apply IH|done].
Qed.
(** an invariant of the events [Q] holds along their runs. *)
Lemma run_invariant (I : guest → Prop) (Q : event → Prop) es g g' :
  (∀ e g g', Q e → I g → deliver e g = Some g' → I g') →
  Forall Q es → I g → deliver_all es g = Some g' → I g'.
Proof.
  intros Hstep HQ. revert g. induction HQ as [|e es He HQ IH]; intros g Hg H; cbn in H.
  - by injection H as <-.
  - destruct (deliver e g) as [g1|] eqn:E; [|done]. eapply IH; [by eapply Hstep|exact H].
Qed.

(** case analysis of one event. *)
Ltac event_cases e H :=
  destruct e as [p|works| |written|d works|works|works|works| | |works|works|works|hint];
  unfold Cutover.deliver in H; cbn in H.

(** ** A freeze is bounded while the agent lives *)
(** the freezes that are made without a watchdog of a cutover. *)
Definition unguarded (e : event) : bool :=
  match e with HostFreeze _ | AgentFreeze _ => true | _ => false end.
Definition quiet (e : event) : bool :=
  match e with
  | Crash | Restart _ | HostFreeze _ | AgentFreeze _ => false
  | Freeze works | Watchdog _ works | Exit works | HostThaw works | AgentThaw works => works
  | _ => true
  end.
Definition pending_secs (r : request) : option Z :=
  match r with Freezing s _ | Arming s _ => Some s | _ => None end.
Definition arming (r : request) : bool := match r with Arming _ _ => true | _ => false end.
Record guarded g : Prop := {
  gu_up : g_up g = true;
  gu_secs : ∀ s, pending_secs (g_request g) = Some s → (0 <= s <= MAX_WATCHDOG_SECS)%Z;
  gu_ahead : ∀ d, d ∈ g_watchdogs g → (g_now g <= d)%Z;
  gu_flags : g_frozen g = true → g_qga g = true;
  gu_armed : g_frozen g = true → arming (g_request g) = true ∨
    ∃ d, d ∈ g_watchdogs g ∧ (d <= g_now g + MAX_WATCHDOG_SECS)%Z
}.

Lemma watchdog_secs_bounds p : (10 <= watchdog_secs p <= MAX_WATCHDOG_SECS)%Z.
Proof. unfold watchdog_secs, MAX_WATCHDOG_SECS. lia. Qed.
Lemma remove_one_elem d l l' x : remove_one d l = Some l' → x ∈ l' → x ∈ l.
Proof.
  revert l'. induction l as [|y l IH]; intros l' H Hx; [done|]. cbn in H.
  destruct (y =? d)%Z; [injection H as <-; by right|].
  destruct (remove_one d l) as [r|]; [|done]. injection H as <-.
  apply elem_of_cons in Hx as [->|Hx]; [by left|right; by apply (IH r)].
Qed.
Lemma thaw_works g : g_frozen (thaw_filesystems true g).1 = false.
Proof. unfold thaw_filesystems, guest_fsfreeze_thaw, local_fsfreeze. by destruct (g_frozen g) eqn:E. Qed.
Lemma clear_marker_fields g :
  let g' := clear_marker_frozen on_root g in
  g_now g' = g_now g ∧ g_frozen g' = g_frozen g ∧ g_up g' = g_up g ∧ g_hint g' = g_hint g ∧
  g_qga g' = g_qga g ∧ g_watchdogs g' = g_watchdogs g ∧ g_request g' = g_request g ∧ g_down g' = g_down g.
Proof. unfold clear_marker_frozen. by repeat case_match. Qed.
Lemma thaw_fields works g :
  let g' := (thaw_filesystems works g).1 in
  g_now g' = g_now g ∧ g_up g' = g_up g ∧ g_watchdogs g' = g_watchdogs g ∧ g_request g' = g_request g ∧
  g_marker g' = g_marker g ∧ g_down g' = g_down g.
Proof.
  unfold thaw_filesystems, guest_fsfreeze_thaw, local_fsfreeze. by repeat case_match; simplify_eq.
Qed.
Lemma watchdog_fields works g :
  let g' := watchdog_fires on_root works g in
  g_now g' = g_now g ∧ g_up g' = g_up g ∧ g_watchdogs g' = g_watchdogs g ∧ g_request g' = g_request g ∧
  g_down g' = g_down g.
Proof.
  unfold watchdog_fires. destruct (fs_frozen g); [|done].
  destruct (clear_marker_fields (thaw_filesystems works g).1) as (-> & _ & -> & _ & _ & -> & -> & ->).
  by destruct (thaw_fields works g) as (-> & -> & -> & -> & _ & ->).
Qed.
Lemma watchdog_thaws g :
  (g_frozen g = true → fs_frozen g = true) → g_frozen (watchdog_fires on_root true g) = false.
Proof.
  intros Hf. unfold watchdog_fires. destruct (fs_frozen g).
  - destruct (clear_marker_fields (thaw_filesystems true g).1) as (_ & -> & _). apply thaw_works.
  - destruct (g_frozen g); [by discriminate Hf|done].
Qed.
Lemma exit_fields works g :
  let g' := (exit_cutover control_unit works g).1 in
  g_now g' = g_now g ∧ g_up g' = g_up g ∧ g_watchdogs g' = g_watchdogs g ∧ g_request g' = g_request g.
Proof.
  unfold exit_cutover. destruct (thaw_fields works g) as (H1 & H2 & H3 & H4 & _).
  destruct (fs_frozen g); [|by unfold start_services; destruct (g_marker g)].
  destruct (thaw_filesystems works g) as [g1 []]; cbn in *; [|done].
  unfold start_services. by destruct (g_marker g1).
Qed.
Lemma exit_thaws g :
  (g_frozen g = true → fs_frozen g = true) → g_frozen (exit_cutover control_unit true g).1 = false.
Proof.
  intros Hf. unfold exit_cutover. pose proof (thaw_works g) as Ht. destruct (fs_frozen g).
  - destruct (thaw_filesystems true g) as [g1 []]; cbn in *; [|done].
    unfold start_services. by destruct (g_marker g1).
  - assert (g_frozen g = false) by (destruct (g_frozen g); [by discriminate Hf|done]).
    cbn. unfold start_services. by destruct (g_marker g).
Qed.

(** a state that is not frozen is guarded when its watchdogs are. *)
Lemma guarded_thawed g :
  g_up g = true → (∀ s, pending_secs (g_request g) = Some s → (0 <= s <= MAX_WATCHDOG_SECS)%Z) →
  (∀ d, d ∈ g_watchdogs g → (g_now g <= d)%Z) → g_frozen g = false → guarded g.
Proof. intros H1 H2 H3 H4. split; try done; congruence. Qed.

Lemma tick_spec g g' :
  deliver Tick g = Some g' →
  g' = tick g ∧ arming (g_request g) = false ∧ ∀ d, d ∈ g_watchdogs g → (g_now g < d)%Z.
Proof.
  intros H. unfold Cutover.deliver in H. destruct (forallb _ _) eqn:Ef; [|by destruct (g_request g)].
  assert (Some (tick g) = Some g') as [= <-] by (by destruct (g_request g)).
  split; [done|]. split; [by destruct (g_request g)|].
  intros d Hd. rewrite forallb_forall in Ef. apply Z.ltb_lt, Ef. by apply list_elem_of_In.
Qed.
Lemma guarded_tick g g' : guarded g → deliver Tick g = Some g' → guarded g'.
Proof.
  intros [Hup Hsecs Hahead Hflags Harmed] (-> & Hna & Hlt)%tick_spec. split; cbn; try done.
  - intros d Hd. specialize (Hlt d Hd). lia.
  - intros Hfr. right. destruct (Harmed Hfr) as [Ha|(d & Hd & Hle)]; [by rewrite Hna in Ha|].
    exists d. split; [done|lia].
Qed.

Lemma guarded_fs_frozen g : guarded g → g_frozen g = true → fs_frozen g = true.
Proof. intros Hg Hf. unfold fs_frozen. by rewrite (gu_flags g Hg Hf), orb_true_r. Qed.

Lemma guarded_step e g g' : quiet e = true → guarded g → deliver e g = Some g' → guarded g'.
Proof.
  intros Hq Hg H. pose proof Hg as [Hup Hsecs Hahead Hflags Harmed].
  pose proof (guarded_fs_frozen g Hg) as Hfs.
  event_cases e H; cbn in Hq; try done; subst.
  - rewrite Hup in H. destruct (g_request g) eqn:Er; try done. injection H as <-.
    split; cbn; try done.
    + intros s. destruct (cu_freeze p); cbn; [|done]. intros [= <-]. pose proof (watchdog_secs_bounds p). lia.
    + intros Hf. destruct (Harmed Hf) as [?|?]; [done|by right].
  - rewrite Hup in H. destruct (g_request g) as [|secs st| |] eqn:Er; try done. injection H as <-.
    unfold freeze_cutover, freeze_filesystems, guest_fsfreeze_freeze, local_fsfreeze. cbn.
    destruct (g_frozen g) eqn:Ef; split; cbn; try done.
    + intros _. by apply Hflags.
    + intros _. destruct (Harmed eq_refl) as [?|?]; [done|by right].
    + intros _. by left.
  - rewrite Hup in H. destruct (g_request g) as [| |secs st|] eqn:Er; try done. injection H as <-.
    pose proof (Hsecs secs eq_refl) as Hs. split; cbn; try done.
    + intros d Hd. apply elem_of_app in Hd as [Hd|Hd]; [by apply Hahead|].
      apply list_elem_of_singleton in Hd. lia.
    + intros _. right. exists (g_now g + secs)%Z. split; [|lia]. apply elem_of_app. right. by left.
  - rewrite Hup in H. destruct (g_request g) as [| | |fr dl st] eqn:Er; try done.
    destruct (can_write on_root g); [|done]. injection H as <-.
    destruct written; split; cbn; try done; intros Hf; right; by destruct (Harmed Hf).
  - destruct (d <=? g_now g)%Z; [|done].
    destruct (remove_one d (g_watchdogs g)) as [l|] eqn:El; [|done]. injection H as <-.
    destruct (watchdog_fields true (set_watchdogs l g)) as (H1 & H2 & H3 & H4 & _).
    apply guarded_thawed; rewrite ?H1, ?H2, ?H3, ?H4; [done|done| |by apply watchdog_thaws].
    intros x Hx. apply Hahead. by eapply remove_one_elem.
  - rewrite Hup in H. destruct (g_request g) eqn:Er; try done. injection H as <-.
    destruct (exit_fields true g) as (H1 & H2 & H3 & H4).
    apply guarded_thawed; rewrite ?H1, ?H2, ?H3, ?H4, ?Er; [done|done|done|by apply exit_thaws].
  - rewrite Hup in H. injection H as <-. unfold guest_fsfreeze_thaw, local_fsfreeze. cbn.
    destruct (g_frozen g) eqn:Ef; apply guarded_thawed; cbn; done.
  - by apply (guarded_tick g).
  - rewrite Hup in H. injection H as <-. destruct (thaw_fields true g) as (H1 & H2 & H3 & H4 & _).
    apply guarded_thawed; rewrite ?H1, ?H2, ?H3, ?H4; [done|done|done|apply thaw_works].
  - rewrite Hup in H. injection H as <-. by split.
Qed.

(** all states of the run from [g] are frozen. *)
Fixpoint frozen_run es g : Prop :=
  g_frozen g = true ∧
  match es with [] => True | e :: es => ∃ g', deliver e g = Some g' ∧ frozen_run es g' end.
Lemma frozen_run_head es g : frozen_run es g → g_frozen g = true.
Proof. destruct es; by intros [H _]. Qed.
Definition is_tick e : bool := match e with Tick => true | _ => false end.
Definition seconds es : Z := Z.of_nat (length (filter is_tick es)).

Lemma seconds_cons e es : seconds (e :: es) = ((if is_tick e then 1 else 0) + seconds es)%Z.
Proof.
  unfold seconds. rewrite filter_cons. destruct (decide (is_tick e)) as [H|H].
  - apply Is_true_true in H as ->. cbn [length]. lia.
  - apply Is_true_false in H as ->. lia.
Qed.

Lemma frozen_step e g g' :
  quiet e = true → guarded g → deliver e g = Some g' → g_frozen g' = true →
  (∀ d, d ∈ g_watchdogs g → d ∈ g_watchdogs g') ∧ g_now g' = (g_now g + if is_tick e then 1 else 0)%Z ∧
  (arming (g_request g) = true → is_tick e = false).
Proof.
  intros Hq Hg H Hf. pose proof Hg as [Hup _ _ _ _]. pose proof (guarded_fs_frozen g Hg) as Hflags.
  event_cases e H; cbn in Hq; try done; subst; cbn [is_tick].
  - rewrite Hup in H. destruct (g_request g) eqn:Er; try done. injection H as <-. cbn. split_and!; [done|lia|done].
  - rewrite Hup in H. destruct (g_request g) as [|secs st| |] eqn:Er; try done. injection H as <-.
    unfold freeze_cutover, freeze_filesystems, guest_fsfreeze_freeze, local_fsfreeze. cbn.
    destruct (g_frozen g); cbn; split_and!; try done; lia.
  - rewrite Hup in H. destruct (g_request g) as [| |secs st|] eqn:Er; try done. injection H as <-. cbn.
    split_and!; [|lia|done]. intros d Hd. apply elem_of_app. by left.
  - rewrite Hup in H. destruct (g_request g) as [| | |fr dl st] eqn:Er; try done.
    destruct (can_write on_root g); [|done]. injection H as <-. destruct written; cbn; split_and!; try done; lia.
  - destruct (d <=? g_now g)%Z; [|done].
    destruct (remove_one d (g_watchdogs g)) as [l|]; [|done]. injection H as <-.
    by rewrite watchdog_thaws in Hf.
  - rewrite Hup in H. destruct (g_request g); try done. injection H as <-. by rewrite exit_thaws in Hf.
  - rewrite Hup in H. injection H as <-. unfold guest_fsfreeze_thaw, local_fsfreeze in Hf. cbn in Hf.
    by destruct (g_frozen g) eqn:Ef; cbn in Hf; rewrite ?Ef in Hf.
  - apply (tick_spec g) in H as (-> & Hna & _). split_and!; [done|done|]. by rewrite Hna.
  - rewrite Hup in H. injection H as <-. by rewrite thaw_works in Hf.
  - rewrite Hup in H. injection H as <-. cbn. split_and!; [done|lia|done].
Qed.

Lemma frozen_until d es g :
  Forall (fun e => quiet e = true) es → guarded g → frozen_run es g → d ∈ g_watchdogs g →
  (g_now g + seconds es <= d)%Z.
Proof.
  intros Hq. revert g. induction Hq as [|e es He Hq IH]; intros g Hg [Hf Hrun] Hd.
  - unfold seconds. cbn. pose proof (gu_ahead g Hg d Hd). lia.
  - destruct Hrun as (g' & H & Hrun). assert (g_frozen g' = true) as Hf' by (by eapply frozen_run_head).
    destruct (frozen_step e g g' He Hg H Hf') as (Hw & Hn & _).
    specialize (IH g' (guarded_step _ _ _ He Hg H) Hrun (Hw d Hd)). rewrite Hn in IH.
    rewrite seconds_cons. lia.
Qed.

Lemma frozen_seconds es g :
  Forall (fun e => quiet e = true) es → guarded g → frozen_run es g → (seconds es <= MAX_WATCHDOG_SECS)%Z.
Proof.
  intros Hq. revert g. induction Hq as [|e es He Hq IH]; intros g Hg Hrun; [done|].
  destruct (gu_armed g Hg (frozen_run_head _ _ Hrun)) as [Ha|(d & Hd & Hle)].
  - destruct Hrun as (_ & g' & H & Hrun).
    destruct (frozen_step e g g' He Hg H (frozen_run_head _ _ Hrun)) as (_ & _ & Ht).
    rewrite seconds_cons, (Ht Ha). specialize (IH g' (guarded_step _ _ _ He Hg H) Hrun). lia.
  - assert (Forall (fun e => quiet e = true) (e :: es)) as Hall by (by constructor).
    pose proof (frozen_until d (e :: es) g Hall Hg Hrun Hd). lia.
Qed.

(** C17: while the agent process lives, the helper can freeze and thaw, and nobody freezes
    the guest but the cutovers, no freeze lasts longer than ten minutes: a run from any
    state such runs reach, through states that are all frozen, takes at most
    [MAX_WATCHDOG_SECS] seconds.  Thaws of the host and of the agent's other operations,
    overlapping cutovers, failed marker writes and the hints that snapshots store can happen
    anywhere in the runs.  Left out are the freezes that are made without a cutover's
    watchdog ([unguarded]): the host's through the guest agent interface, the
    [freeze_filesystem] request and the one of a snapshot's [prepare]
    ([freeze_request_unbounded] shows one that does not end). *)
Theorem freeze_bounded es es' g :
  Forall (fun e => quiet e = true) (es ++ es') → deliver_all es fresh_guest = Some g →
  frozen_run es' g → (seconds es' <= MAX_WATCHDOG_SECS)%Z.
Proof.
  intros [Hq Hq']%Forall_app Hes Hrun. apply (frozen_seconds es' g Hq'); [|exact Hrun].
  eapply (run_invariant guarded); [exact guarded_step|exact Hq| |exact Hes].
  apply guarded_thawed; try done. intros d Hd. by apply elem_of_nil in Hd.
Qed.

(** ** A crash before the marker is written *)
(** frozen, and nothing in the agent or on disk knows. *)
Record stuck g : Prop := {
  sk_frozen : g_frozen g = true;
  sk_hint : g_hint g = false;
  sk_qga : g_qga g = false;
  sk_watchdogs : g_watchdogs g = [];
  sk_marker : ∀ s, g_marker g = Some s → cs_frozen s = false;
  sk_request : match g_request g with Arming _ _ | Marking true _ _ => False | _ => True end
}.
Definition host_thaw e : bool := match e with HostThaw _ | AgentThaw _ | SnapshotHint _ => true | _ => false end.
Lemma stuck_step e g g' : host_thaw e = false → stuck g → deliver e g = Some g' → stuck g'.
Proof.
  intros Hq [Hf Hh Hqg Hw Hm Hr] H. event_cases e H; cbn in Hq; try done.
  - destruct (g_up g); [|done]. destruct (g_request g) eqn:Er; try done. injection H as <-.
    split; cbn; try done. by destruct (cu_freeze p).
  - destruct (g_up g); [|done]. destruct (g_request g) eqn:Er; try done. injection H as <-.
    unfold freeze_cutover, freeze_filesystems, guest_fsfreeze_freeze, local_fsfreeze. cbn.
    rewrite Hf. by destruct works; split.
  - destruct (g_up g); [|done]. by destruct (g_request g).
  - destruct (g_up g); [|done]. destruct (g_request g) as [| | |fr dl st] eqn:Er; try done.
    destruct fr; [done|]. destruct (can_write on_root g); [|done]. injection H as <-.
    destruct written; split; cbn; try done. by intros s [= <-].
  - rewrite Hw in H. by destruct (d <=? g_now g)%Z.
  - destruct (g_up g); [|done]. destruct (g_request g) eqn:Er; try done. injection H as <-.
    unfold exit_cutover, fs_frozen. rewrite Hh, Hqg. cbn. unfold start_services.
    destruct (g_marker g); cbn; split; cbn; try done; by rewrite Er.
  - destruct (g_up g); [|done]. cbn in H. injection H as <-.
    unfold guest_fsfreeze_freeze, local_fsfreeze. rewrite Hf. by destruct works.
  - apply (tick_spec g) in H as (-> & _). done.
  - destruct (g_up g); [|done]. by injection H as <-.
  - destruct (g_up g); [done|]. injection H as <-. unfold restart, recover_cutover_state. cbn.
    destruct (g_marker g) as [s|] eqn:Em; [rewrite (Hm s eq_refl)|]; split; cbn; try done; by rewrite Em.
  - destruct (g_up g); [|done]. cbn in H. injection H as <-.
    unfold freeze_filesystems, guest_fsfreeze_freeze, local_fsfreeze. rewrite Hf. by destruct works.
Qed.

(** an agent that dies after the freeze and before the marker is written leaves the
    guest frozen for good: there is a run of a request, a crash and a restart after which
    the agent is up and the guest frozen, and stays so whatever happens next (exits,
    further cutovers, freezes, crashes and restarts included) until the host itself asks for a
    thaw, from the guest agent interface or from the agent, or takes a snapshot. *)
Theorem crash_leaves_frozen p :
  cu_freeze p = true →
  ∃ g, deliver_all [Enter p; Freeze true; Arm; Crash; Restart true] fresh_guest = Some g ∧
    g_up g = true ∧
    ∀ es g', Forall (fun e => host_thaw e = false) es → deliver_all es g = Some g' → g_frozen g' = true.
Proof.
  intros Hp. cbn. rewrite Hp. cbn. eexists. split; [reflexivity|].
  split; [done|]. intros es g' Hq Hrun. apply sk_frozen.
  eapply (run_invariant stuck); [exact stuck_step|exact Hq| |exact Hrun]. by split.
Qed.

(** ** The marker and the frozen file system *)
Definition not_host_freeze e : bool :=
  match e with AgentFreeze _ | SnapshotHint _ => false | _ => negb (unguarded e) end.
Definition holding (r : request) : bool := match r with Arming _ _ | Marking true _ _ => true | _ => false end.
Definition answered_thawed g : Prop :=
  g_up g = true → g_hint g = true → g_frozen g = true → holding (g_request g) = true.
(** a freeze that is still held after a thaw or an exit was held before. *)
Lemma thaw_held works g :
  g_hint (thaw_filesystems works g).1 = true → g_frozen (thaw_filesystems works g).1 = true →
  g_hint g = true ∧ g_frozen g = true.
Proof.
  unfold thaw_filesystems, guest_fsfreeze_thaw, local_fsfreeze.
  by destruct works; cbn; [destruct (g_frozen g) eqn:E; cbn; rewrite ?E|].
Qed.
Lemma exit_held works g :
  g_hint (exit_cutover control_unit works g).1 = true → g_frozen (exit_cutover control_unit works g).1 = true →
  g_hint g = true ∧ g_frozen g = true.
Proof.
  unfold exit_cutover. pose proof (thaw_held works g) as Ht. destruct (fs_frozen g).
  - destruct (thaw_filesystems works g) as [g1 []]; cbn in *; [|done].
    unfold start_services. by destruct (g_marker g1).
  - cbn. unfold start_services. by destruct (g_marker g).
Qed.
Lemma answered_step e g g' :
  on_root = true → not_host_freeze e = true → answered_thawed g → deliver e g = Some g' → answered_thawed g'.
Proof.
  unfold answered_thawed. intros Hr Hq Hi H. event_cases e H; cbn in Hq; try done.
  - destruct (g_up g) eqn:Eu; [|done]. destruct (g_request g) eqn:Er; try done. injection H as <-. cbn in *.
    intros _ Hh Hf. discriminate (Hi eq_refl Hh Hf).
  - destruct (g_up g) eqn:Eu; [|done]. destruct (g_request g) eqn:Er; try done. injection H as <-. cbn in *.
    unfold freeze_cutover, freeze_filesystems, guest_fsfreeze_freeze, local_fsfreeze.
    destruct works, (g_frozen g) eqn:Ef; cbn; rewrite ?Ef; auto.
  - destruct (g_up g) eqn:Eu; [|done]. destruct (g_request g) eqn:Er; try done. by injection H as <-.
  - destruct (g_up g) eqn:Eu; [|done]. destruct (g_request g) as [| | |fr dl st] eqn:Er; try done.
    unfold can_write in H. rewrite Hr, andb_true_r in H. destruct (g_frozen g) eqn:Ef; [done|]. cbn in H.
    injection H as <-. by destruct written; cbn; rewrite Ef.
  - destruct (d <=? g_now g)%Z; [|done]. destruct (remove_one d (g_watchdogs g)) as [l|]; [|done].
    injection H as <-. destruct (watchdog_fields works (set_watchdogs l g)) as (_ & H2 & _ & H4 & _).
    rewrite H2, H4. unfold watchdog_fires. destruct (fs_frozen _); [|done].
    destruct (clear_marker_fields (thaw_filesystems works (set_watchdogs l g)).1) as (_ & -> & _ & -> & _).
    intros Hu Hh Hf. destruct (thaw_held _ _ Hh Hf). by apply Hi.
  - destruct (g_up g) eqn:Eu; [|done]. destruct (g_request g) eqn:Er; try done. injection H as <-. cbn in *.
    intros _ Hh Hf. destruct (exit_held works g Hh Hf) as [Hh' Hf']. discriminate (Hi eq_refl Hh' Hf').
  - destruct (g_up g) eqn:Eu; [|done]. cbn in H. injection H as <-.
    unfold guest_fsfreeze_thaw, local_fsfreeze.
    by destruct works; cbn; [destruct (g_frozen g) eqn:E; cbn; rewrite ?E|]; auto.
  - apply (tick_spec g) in H as (-> & _). done.
  - destruct (g_up g); [|done]. by injection H as <-.
  - destruct (g_up g); [done|]. injection H as <-. unfold restart, recover_cutover_state. cbn.
    destruct (g_marker g) as [s|]; [|done]. destruct (cs_frozen s); [|done].
    match goal with |- context [clear_marker_frozen _ ?x] =>
      destruct (clear_marker_fields x) as (_ & -> & _ & -> & _) end.
    intros _ Hh Hf. by destruct (thaw_held _ _ Hh Hf).
  - destruct (g_up g) eqn:Eu; [|done]. injection H as <-.
    destruct (thaw_fields works g) as (_ & _ & _ & -> & _).
    intros _ Hh Hf. destruct (thaw_held _ _ Hh Hf). by apply Hi.
Qed.

(** with the state directory on the root file system, the request that freezes it
    blocks on its own marker: whenever the agent is up and has answered, the freeze it made
    is over, so the host never gets to work on a frozen guest (when nothing but cutovers
    freezes it). *)
Theorem cutover_answers_thawed es g :
  on_root = true → Forall (fun e => not_host_freeze e = true) es →
  deliver_all es fresh_guest = Some g → g_up g = true → g_hint g = true → g_request g = Idle →
  g_frozen g = false.
Proof.
  intros Hr Hq Hrun Hu Hh Hi. apply not_true_iff_false. intros Hf.
  assert (answered_thawed g) as Ha.
  { eapply (run_invariant answered_thawed); [|exact Hq| |exact Hrun]; [|done].
    intros e g1 g2 He. by apply answered_step. }
  specialize (Ha Hu Hh Hf). by rewrite Hi in Ha.
Qed.

(** ** Recovery *)
(** no failure, one cutover at a time, and no crash while a request is served. *)
Definition disciplined e g : Prop :=
  match e with
  | Enter _ => g_marker g = None
  | Freeze works | Watchdog _ works | Exit works | HostThaw works | Restart works | AgentThaw works => works = true
  | Mark written => written = true
  | HostFreeze _ | AgentFreeze _ => False
  | Crash => g_request g = Idle
  | _ => True
  end.
Record recoverable g : Prop := {
  rc_down : g_up g = false → g_request g = Idle ∧ g_watchdogs g = [];
  rc_flags : g_up g = true → g_frozen g = true → g_qga g = true;
  rc_marker : g_frozen g = true → match g_request g with
    | Idle => ∃ s, g_marker g = Some s ∧ cs_frozen s = true
    | r => holding r = true
    end
}.
Fixpoint disciplined_run es g : Prop :=
  match es with
  | [] => True
  | e :: es => disciplined e g ∧ ∃ g', deliver e g = Some g' ∧ disciplined_run es g'
  end.
Lemma recoverable_thawed g : g_up g = true → g_frozen g = false → recoverable g.
Proof. intros Hu Hf. split; congruence. Qed.
Lemma recover_thaws g :
  (∀ s, g_marker g = Some s → g_frozen g = true → cs_frozen s = true) → (g_marker g = None → g_frozen g = false) →
  g_frozen (recover_cutover_state on_root true g) = false.
Proof.
  intros Hs Hn. unfold recover_cutover_state. destruct (g_marker g) as [s|]; [|by apply Hn].
  destruct (cs_frozen s) eqn:Es.
  - destruct (clear_marker_fields (thaw_filesystems true g).1) as (_ & -> & _). apply thaw_works.
  - apply not_true_iff_false. intros Hf. by rewrite (Hs s eq_refl Hf) in Es.
Qed.
Lemma restart_thaws g :
  g_request g = Idle → recoverable g → g_frozen (restart on_root true g) = false.
Proof.
  intros Hr [_ _ Hm]. rewrite Hr in Hm. apply recover_thaws; cbn.
  - intros s Hs Hf. destruct (Hm Hf) as (s' & Hs' & ?). congruence.
  - intros Hn. apply not_true_iff_false. intros Hf. destruct (Hm Hf) as (s' & Hs' & _). congruence.
Qed.
Lemma recover_up works g : g_up (recover_cutover_state on_root works g) = g_up g.
Proof.
  unfold recover_cutover_state. destruct (g_marker g) as [s|]; [|done]. destruct (cs_frozen s); [|done].
  destruct (clear_marker_fields (thaw_filesystems works g).1) as (_ & _ & -> & _).
  by destruct (thaw_fields works g) as (_ & -> & _).
Qed.
Lemma recoverable_step e g g' :
  disciplined e g → recoverable g → deliver e g = Some g' → recoverable g'.
Proof.
  intros Hd Hg H. pose proof Hg as [Hdown Hqga Hm].
  assert (g_up g = true → g_frozen g = true → fs_frozen g = true) as Hfl
    by (intros Hu Hf; unfold fs_frozen; by rewrite (Hqga Hu Hf), orb_true_r).
  event_cases e H; cbn in Hd; subst; try done.
  - destruct (g_up g) eqn:Eu; [|done]. destruct (g_request g) eqn:Er; try done. injection H as <-.
    apply recoverable_thawed; [done|]. cbn. apply not_true_iff_false. intros Hf.
    destruct (Hm Hf) as (s & Hs & _). congruence.
  - destruct (g_up g) eqn:Eu; [|done]. destruct (g_request g) eqn:Er; try done. injection H as <-.
    unfold freeze_cutover, freeze_filesystems, guest_fsfreeze_freeze, local_fsfreeze. cbn.
    destruct (g_frozen g) eqn:Ef; [discriminate (Hm eq_refl)|]. split; cbn; [congruence|done|done].
  - destruct (g_up g) eqn:Eu; [|done]. destruct (g_request g) eqn:Er; try done. injection H as <-.
    split; cbn; [congruence|by rewrite Eu|done].
  - destruct (g_up g) eqn:Eu; [|done]. destruct (g_request g) as [| | |fr dl st] eqn:Er; try done.
    destruct (can_write on_root g); [|done]. injection H as <-. split; cbn; [congruence|by rewrite Eu|].
    intros Hf. eexists. split; [done|]. cbn. specialize (Hm Hf). by destruct fr.
  - destruct (d <=? g_now g)%Z; [|done]. destruct (remove_one d (g_watchdogs g)) as [l|] eqn:El; [|done].
    injection H as <-. destruct (watchdog_fields true (set_watchdogs l g)) as (_ & H2 & _).
    destruct (g_up g) eqn:Eu; [|by destruct (Hdown eq_refl) as [_ Hw]; rewrite Hw in El].
    apply recoverable_thawed; [by rewrite H2|]. apply watchdog_thaws. by apply Hfl.
  - destruct (g_up g) eqn:Eu; [|done]. destruct (g_request g) eqn:Er; try done. injection H as <-.
    destruct (exit_fields true g) as (_ & H2 & _).
    apply recoverable_thawed; [by rewrite H2|]. apply exit_thaws. by apply Hfl.
  - destruct (g_up g) eqn:Eu; [|done]. injection H as <-.
    unfold guest_fsfreeze_thaw, local_fsfreeze. cbn.
    by destruct (g_frozen g) eqn:E; apply recoverable_thawed.
  - apply (tick_spec g) in H as (-> & _). by split.
  - destruct (g_up g); [|done]. injection H as <-. rewrite Hd in Hm. by split.
  - destruct (g_up g) eqn:Eu; [done|]. injection H as <-. destruct (Hdown eq_refl) as [Hr _].
    apply recoverable_thawed; [|by apply restart_thaws]. unfold restart. by rewrite recover_up.
  - destruct (g_up g) eqn:Eu; [|done]. injection H as <-. destruct (thaw_fields true g) as (_ & H2 & _).
    apply recoverable_thawed; [by rewrite H2|apply thaw_works].
  - destruct (g_up g) eqn:Eu; [|done]. injection H as <-. split; cbn; [congruence|by rewrite Eu|done].
Qed.

(** C37: as long as cutovers do not overlap, nothing fails, nothing but cutovers freezes
    the guest (the host and the agent's other operations may thaw it) and the agent does
    not die while it serves a request, an agent that dies at any moment of a cutover is one
    that finds the freeze when it starts again, and ends it. *)
Theorem recovery_complete es g :
  disciplined_run es fresh_guest → deliver_all es fresh_guest = Some g → g_up g = false →
  ∃ g', deliver (Restart true) g = Some g' ∧ g_frozen g' = false.
Proof.
  intros Hd Hrun Hu.
  assert (∀ es g0, recoverable g0 → disciplined_run es g0 → deliver_all es g0 = Some g → recoverable g) as Hinv.
  { clear. intros es. induction es as [|e es IH]; intros g0 Hg0 Hd Hrun; cbn in *; [by injection Hrun as <-|].
    destruct Hd as (He & g1 & H & Hd). rewrite H in Hrun. cbn in Hrun.
    apply (IH g1); [by eapply recoverable_step|done|done]. }
  assert (recoverable g) as Hg by (apply (Hinv es fresh_guest); [by apply recoverable_thawed|done|done]).
  exists (restart on_root true g). unfold Cutover.deliver. rewrite Hu. split; [done|].
  apply restart_thaws; [|done]. by apply Hg.
Qed.

(** ** Services *)
Abbreviation stopped p := (filter (control_unit "stop") (cu_stop_services p)).
Lemma enter_spec p g g1 :
  g_frozen g = false → fs_frozen g = false → enter_cutover on_root control_unit true true p g = Some g1 →
  g_down g1 = list_to_set (stopped p) ∪ g_down g ∧ g_frozen g1 = fs_frozen g1 ∧
  cs_stopped_services <$> g_marker g1 = Some (stopped p).
Proof.
  intros Hf Hfs. unfold fs_frozen in Hfs. apply orb_false_iff in Hfs as [Hh Hq].
  unfold enter_cutover, begin_cutover, stop_services. generalize (list_to_set (stopped p) ∪ g_down g) as down.
  intros down. cbn. destruct (cu_freeze p); cbn.
  - unfold freeze_cutover, freeze_filesystems, guest_fsfreeze_freeze, local_fsfreeze. cbn.
    rewrite Hf. cbn. unfold can_write. cbn. destruct on_root; [done|]. by intros [= <-].
  - unfold can_write. cbn. rewrite Hf. intros [= <-]. unfold fs_frozen. cbn. by rewrite Hf, Hh, Hq.
Qed.
Lemma exit_spec g l :
  g_frozen g = fs_frozen g → cs_stopped_services <$> g_marker g = Some l →
  filter (control_unit "start") l = l →
  let '(g', st) := exit_cutover control_unit true g in
  g_down g' = g_down g ∖ list_to_set l ∧ g_frozen g' = false ∧ fs_frozen g' = false ∧ g_marker g' = None ∧
  cs_stopped_services <$> st = Some l.
Proof.
  intros Hf Hm Hl. destruct (g_marker g) as [s|] eqn:Em; [|done]. injection Hm as <-.
  unfold exit_cutover, start_services. destruct (fs_frozen g) eqn:E.
  - unfold thaw_filesystems, guest_fsfreeze_thaw, local_fsfreeze. rewrite Hf. cbn. rewrite Em. cbn.
    by rewrite Hl.
  - cbn. rewrite Em. cbn. rewrite Hl. unfold fs_frozen in *. cbn. by rewrite E, Hf.
Qed.
Lemma filter_all (f : string → bool) (l : list string) : (∀ s, s ∈ l → f s = true) → filter f l = l.
Proof.
  induction l as [|x l IH]; intros Hl; [done|]. rewrite filter_cons, decide_True.
  - f_equal. apply IH. intros s Hin. apply Hl. by right.
  - apply Is_true_true, Hl. by left.
Qed.

(** a cutover that is entered and left without a failure gives the guest back as it
    was: thawed, without a marker, and with exactly the services stopped that were stopped
    before. *)
Theorem cutover_round_trip p g g1 g2 st :
  g_frozen g = false → fs_frozen g = false →
  (∀ s, s ∈ cu_stop_services p → (s ∉ g_down g) ∧ control_unit "start" s = true) →
  enter_cutover on_root control_unit true true p g = Some g1 →
  exit_cutover control_unit true g1 = (g2, st) →
  g_down g2 = g_down g ∧ g_frozen g2 = false ∧ fs_frozen g2 = false ∧ g_marker g2 = None ∧
  cs_stopped_services <$> st = Some (stopped p).
Proof.
  intros Hf Hfs Hs (Hd1 & Hf1 & Hm1)%enter_spec Hexit; [|done..].
  pose proof (exit_spec g1 (stopped p) Hf1 Hm1) as Hx. rewrite Hexit in Hx.
  destruct Hx as (Hd2 & Hrest).
  { apply filter_all. intros s [_ Hin]%list_elem_of_filter. by apply Hs. }
  split; [|exact Hrest]. rewrite Hd2, Hd1. apply set_eq. intros s.
  rewrite elem_of_difference, elem_of_union, !elem_of_list_to_set.
  split; [naive_solver|]. intros Hin. split; [by right|]. intros [_ Hin']%list_elem_of_filter.
  by destruct (Hs s Hin').
Qed.

(** when the freeze fails, the services that were stopped before it stay stopped: no
    marker names them, and the exit starts none. *)
Theorem failed_freeze_loses_services p works g :
  g_up g = true → g_request g = Idle → fs_frozen g = false → g_marker g = None → cu_freeze p = true →
  ∃ g', deliver_all [Enter p; Freeze false; Exit works] g = Some g' ∧
    ∀ s, s ∈ cu_stop_services p → control_unit "stop" s = true → s ∈ g_down g'.
Proof.
  intros Hu Hr Hfs Hm Hp. unfold fs_frozen in Hfs. apply orb_false_iff in Hfs as [Hh Hq].
  cbn. rewrite Hr, Hu. cbn. rewrite Hu. cbn. rewrite Hp. cbn. rewrite Hu. cbn.
  eexists. split; [reflexivity|]. unfold exit_cutover, fs_frozen. cbn. rewrite Hh, Hq. cbn.
  unfold start_services. cbn. rewrite Hm. cbn. intros s Hs Hc. apply elem_of_union_l, elem_of_list_to_set.
  apply list_elem_of_filter. split; [by apply Is_true_true|done].
Qed.

(** ** A thaw by the host *)
Definition settled e : bool :=
  match e with Watchdog _ _ | Exit _ | HostThaw _ | Tick => true | _ => false end.
Record wedged (down : gset string) g : Prop := {
  wd_frozen : g_frozen g = false;
  wd_hint : g_hint g = true;
  wd_request : g_request g = Idle;
  wd_down : g_down g = down
}.
Lemma thaw_not_frozen works g : g_frozen g = false → thaw_filesystems works g = (g, false).
Proof.
  intros Hf. unfold thaw_filesystems, guest_fsfreeze_thaw, local_fsfreeze. rewrite Hf. by destruct works.
Qed.
Lemma wedged_step down e g g' : settled e = true → wedged down g → deliver e g = Some g' → wedged down g'.
Proof.
  intros Hq [Hf Hh Hr Hd] H. event_cases e H; cbn in Hq; try done.
  - destruct (d <=? g_now g)%Z; [|done]. destruct (remove_one d (g_watchdogs g)) as [l|]; [|done].
    injection H as <-. unfold watchdog_fires, fs_frozen. cbn. rewrite Hh. cbn.
    rewrite thaw_not_frozen by done. cbn.
    destruct (clear_marker_fields (set_watchdogs l g)) as (_ & H1 & _ & H2 & _ & _ & H3 & H4).
    split; by rewrite ?H1, ?H2, ?H3, ?H4.
  - destruct (g_up g); [|done]. rewrite Hr in H. injection H as <-. unfold exit_cutover, fs_frozen. rewrite Hh. cbn.
    by rewrite thaw_not_frozen.
  - destruct (g_up g); [|done]. injection H as <-. unfold guest_fsfreeze_thaw, local_fsfreeze. rewrite Hf.
    by destruct works.
  - apply (tick_spec g) in H as (-> & _). by split.
Qed.

(** once the host has ended a cutover's freeze through the guest agent interface, the
    agent still takes the guest for frozen, and its own thaw fails on a file system that is
    not: no exit succeeds any more and the stopped services stay stopped, whatever
    watchdogs, exits and host thaws follow. *)
Theorem host_thaw_wedges_exit down g es g' works :
  wedged down g → Forall (fun e => settled e = true) es → deliver_all es g = Some g' →
  g_down g' = down ∧ (exit_cutover control_unit works g').2 = None.
Proof.
  intros Hw Hq Hrun.
  assert (wedged down g') as [Hf Hh _ Hd]
    by (eapply (run_invariant (wedged down)); [exact (wedged_step down)|exact Hq|exact Hw|exact Hrun]).
  split; [done|]. unfold exit_cutover, fs_frozen. rewrite Hh. cbn. by rewrite thaw_not_frozen.
Qed.
End cutover.

(** ** Concrete runs *)
Definition every_unit (op unit : string) : bool := true.
Definition freeze_params : CutoverParams := mk_CutoverParams ["db.service"] true (Some 600%Z).
Definition entering : list event := [Enter freeze_params; Freeze true; Arm; Mark true].
Notation elsewhere := (deliver_all false every_unit).

(** a watchdog is not disarmed when the cutover is left: the one of a first cutover ends
    the freeze of a second one after five seconds of its ten minutes. *)
Example stale_watchdog :
  (fun g => (g_now g, g_frozen g, g_watchdogs g)) <$>
    elsewhere (entering ++ repeat Tick 595 ++ [Exit true] ++ entering ++ repeat Tick 5 ++ [Watchdog 600 true])
      fresh_guest = Some (600%Z, false, [1195%Z]).
Proof. by vm_compute. Qed.
(** a second cutover overwrites the marker of the first, whose services stay stopped. *)
Example second_cutover :
  (fun g => elements (g_down g)) <$>
    elsewhere [Enter (mk_CutoverParams ["db.service"] false None); Mark true;
               Enter (mk_CutoverParams ["web.service"] false None); Mark true; Exit true] fresh_guest
  = Some ["db.service"].
Proof. by vm_compute. Qed.
(** the watchdog asks for one thaw; when the helper is away the guest stays frozen, and the
    marker no longer says so. *)
Example failed_watchdog :
  (fun g => (g_frozen g, cs_frozen <$> g_marker g, g_watchdogs g)) <$>
    elsewhere (entering ++ repeat Tick 600 ++ [Watchdog 600 false]) fresh_guest = Some (true, Some false, []).
Proof. by vm_compute. Qed.
(** the agent's own [freeze_filesystem] request starts no watchdog: the guest is frozen after
    twenty minutes. *)
Example freeze_request_unbounded :
  g_frozen <$> elsewhere (AgentFreeze true :: repeat Tick 1200) fresh_guest = Some true.
Proof. by vm_compute. Qed.
(** on the root file system the request blocks on its marker. *)
Example blocked_marker :
  deliver_all true every_unit entering fresh_guest = None ∧
  enter_cutover true every_unit true true freeze_params fresh_guest = None.
Proof. by vm_compute. Qed.

Definition armed_guest : guest :=
  mk_guest 0 true true true true [600%Z] (Marking true (Some 600%Z) ["db.service"]) None {[ "db.service" ]}.
Lemma freeze_bounded_witness : (seconds [Tick; Tick] <= MAX_WATCHDOG_SECS)%Z.
Proof.
  refine (freeze_bounded false every_unit [Enter freeze_params; Freeze true; Arm] [Tick; Tick] armed_guest _ _ _).
  - apply Forall_forall. intros e He. repeat (apply elem_of_cons in He as [->|He]; [reflexivity|]).
    by apply elem_of_nil in He.
  - by vm_compute.
  - split; [reflexivity|]. eexists. split; [reflexivity|]. split; [reflexivity|].
    eexists. split; [reflexivity|]. split; [reflexivity|exact I].
Defined.
Lemma crash_leaves_frozen_witness :
  ∃ g, elsewhere [Enter freeze_params; Freeze true; Arm; Crash; Restart true] fresh_guest = Some g ∧
    g_up g = true ∧ ∀ es g', Forall (fun e => host_thaw e = false) es → elsewhere es g = Some g' → g_frozen g' = true.
Proof. exact (crash_leaves_frozen false every_unit freeze_params eq_refl). Defined.
(** entered and frozen on the root file system, thawed by the watchdog, then answered. *)
Definition late_answer : list event :=
  [Enter freeze_params; Freeze true; Arm] ++ repeat Tick 600 ++ [HostThaw true; Mark true].
Lemma late_answer_runs : ∃ g, deliver_all true every_unit late_answer fresh_guest = Some g ∧
  g_up g = true ∧ g_hint g = true ∧ g_request g = Idle.
Proof. eexists. split; [vm_compute; reflexivity|]. by vm_compute. Qed.
Lemma late_answer_events : Forall (fun e => not_host_freeze e = true) late_answer.
Proof. apply (bool_decide_eq_true_1 (Forall _ _)). by vm_compute. Qed.
Lemma cutover_answers_thawed_witness : ∃ g,
  deliver_all true every_unit late_answer fresh_guest = Some g ∧ g_frozen g = false.
Proof.
  destruct late_answer_runs as (g & Hrun & Hu & Hh & Hr). exists g. split; [exact Hrun|].
  exact (cutover_answers_thawed true every_unit late_answer g eq_refl late_answer_events Hrun Hu Hh Hr).
Defined.
Lemma recovery_complete_witness : ∃ g g', elsewhere (entering ++ [Crash]) fresh_guest = Some g ∧
  deliver false every_unit (Restart true) g = Some g' ∧ g_frozen g = true ∧ g_frozen g' = false.
Proof.
  assert (disciplined_run false every_unit (entering ++ [Crash]) fresh_guest) as Hd.
  { cbn. repeat (split; [reflexivity|]; eexists; split; [reflexivity|]). exact I. }
  destruct (elsewhere (entering ++ [Crash]) fresh_guest) as [g|] eqn:E; [|vm_compute in E; discriminate].
  assert (g_up g = false ∧ g_frozen g = true) as [Hu Hf]
    by (vm_compute in E; injection E as <-; split; reflexivity).
  destruct (recovery_complete false every_unit (entering ++ [Crash]) g Hd E Hu) as (g' & H1 & H2).
  exact (ex_intro _ g (ex_intro _ g' (conj eq_refl (conj H1 (conj Hf H2))))).
Defined.
Lemma cutover_round_trip_witness : ∃ g1 g2 st,
  enter_cutover false every_unit true true freeze_params fresh_guest = Some g1 ∧
  exit_cutover every_unit true g1 = (g2, st) ∧ g_down g2 = ∅ ∧ g_frozen g2 = false.
Proof.
  destruct (enter_cutover false every_unit true true freeze_params fresh_guest) as [g1|] eqn:E1;
    [|vm_compute in E1; discriminate].
  destruct (exit_cutover every_unit true g1) as [g2 st] eqn:E2.
  destruct (cutover_round_trip false every_unit freeze_params fresh_guest g1 g2 st eq_refl eq_refl
    (fun s _ => conj (not_elem_of_empty s) eq_refl) E1 E2) as (H1 & H2 & _).
  exact (ex_intro _ g1 (ex_intro _ g2 (ex_intro _ st (conj eq_refl (conj E2 (conj H1 H2)))))).
Defined.
Lemma failed_freeze_loses_services_witness : ∃ g,
  elsewhere [Enter freeze_params; Freeze false; Exit true] fresh_guest = Some g ∧ "db.service" ∈ g_down g.
Proof.
  destruct (failed_freeze_loses_services false every_unit freeze_params true fresh_guest eq_refl eq_refl eq_refl
    eq_refl eq_refl) as (g & H1 & H2).
  exact (ex_intro _ g (conj H1 (H2 "db.service" ltac:(by left) eq_refl))).
Defined.
(** the host thaws a cutover on a separate file system. *)
Lemma host_thaw_wedges_exit_witness : ∃ g,
  elsewhere (entering ++ [HostThaw true]) fresh_guest = Some g ∧
  (exit_cutover every_unit true g).2 = None.
Proof.
  destruct (elsewhere (entering ++ [HostThaw true]) fresh_guest) as [g|] eqn:E; [|vm_compute in E; discriminate].
  assert (wedged {[ "db.service" ]} g) as Hw.
  { vm_compute in E. injection E as <-. split; reflexivity. }
  exists g. split; [reflexivity|].
  exact (proj2 (host_thaw_wedges_exit false every_unit _ g [] g true Hw (Forall_nil_2 _) eq_refl)).
Defined.
