(* ===== verification/Snapshot.v ===== *)
(** * Application-consistent snapshots

    [src/agent/snapshot/mod.rs] (Linux build): the applications are quiesced, the file
    systems frozen with the functions of [Cutover], and undone by the host's call or by a
    watchdog.  The fields that hold times and the Windows shadow copy are left out.

    The state adds to [guest] the active snapshot, the sleeping watchdogs of snapshots, the
    applications that are quiesced and the [prepare] calls in flight.  The lock of the
    active snapshot is released between the check at the start and the entry at the end, so
    [prepare] is cut there, at the freeze and before the hint is stored; [complete] takes
    the entry at once and is one step.  What the plugins answer is an argument of the call:
    [SnapshotPlugin] is the trait with its results. *)
From stdpp Require Import base gmap strings list.
From Stdlib Require Import ZArith Lia Ascii.
From S2P Require Import Prelude RustStr Cutover CutoverProps.

Definition DEFAULT_SNAPSHOT_WATCHDOG_SECS : Z := 120.
Definition MAX_SNAPSHOT_WATCHDOG_SECS : Z := 600.

Record SnapshotPlugin : Type := mk_SnapshotPlugin {
  spl_name : string;
  spl_discover : bool;
  spl_quiesce : string + string;
  spl_resume : string + string
}.
Record PluginReport : Type := mk_PluginReport {
  plr_plugin : string;
  plr_discovered : bool;
  plr_quiesced : bool;
  plr_resumed : bool;
  plr_detail : option string
}.
Record ActiveSnapshot : Type := mk_ActiveSnapshot {
  av_snapshot_id : string;
  av_frozen : bool;
  av_quiesced_plugins : list string;
  av_app_consistent : bool
}.
Record SnapshotPrepareReport : Type := mk_SnapshotPrepareReport {
  spr_snapshot_id : string;
  spr_mechanism : string;
  spr_fs_frozen : bool;
  spr_app_consistent : bool;
  spr_plugins : list PluginReport;
  spr_watchdog_secs : Z
}.
Record SnapshotCompleteReport : Type := mk_SnapshotCompleteReport {
  scr_snapshot_id : string;
  scr_thawed : bool;
  scr_plugins_resumed : list PluginReport;
  scr_consistency : string
}.

(** a [prepare] in flight, after the guard, the plugins or the freeze, and before the
    hint is stored. *)
Inductive preparing : Type :=
  | Guarded (secs : Z) (id : string)
  | Quiesced (secs : Z) (id : string) (reports : list PluginReport) (quiesced : list string) (all_ok : bool)
  | Froze (secs : Z) (id : string) (reports : list PluginReport) (quiesced : list string) (all_ok frozen : bool)
  | Entered (report : SnapshotPrepareReport).

Record snapshots : Type := mk_snapshots {
  sn_guest : guest;
  sn_active : option ActiveSnapshot;
  sn_watchdogs : list (Z * string);
  sn_quiesced : gset string;
  sn_calls : gmap nat preparing
}.
Definition on_guest (g : guest) (s : snapshots) : snapshots :=
  mk_snapshots g (sn_active s) (sn_watchdogs s) (sn_quiesced s) (sn_calls s).
Definition set_active (a : option ActiveSnapshot) (s : snapshots) : snapshots :=
  mk_snapshots (sn_guest s) a (sn_watchdogs s) (sn_quiesced s) (sn_calls s).
Definition set_quiesced (q : gset string) (s : snapshots) : snapshots :=
  mk_snapshots (sn_guest s) (sn_active s) (sn_watchdogs s) q (sn_calls s).
Definition set_snapshot_watchdogs (l : list (Z * string)) (s : snapshots) : snapshots :=
  mk_snapshots (sn_guest s) (sn_active s) l (sn_quiesced s) (sn_calls s).
Definition set_calls (m : gmap nat preparing) (s : snapshots) : snapshots :=
  mk_snapshots (sn_guest s) (sn_active s) (sn_watchdogs s) (sn_quiesced s) m.

(** ** Plugins *)
Definition quiesce_report (p : SnapshotPlugin) : PluginReport :=
  if spl_discover p then
    match spl_quiesce p with
    | inr detail => mk_PluginReport (spl_name p) true true false (Some detail)
    | inl e => mk_PluginReport (spl_name p) true false false (Some ("quiesce failed: " +:+ e))
    end
  else mk_PluginReport (spl_name p) false false false None.
Definition quiesces (p : SnapshotPlugin) : bool :=
  spl_discover p && match spl_quiesce p with inr _ => true | inl _ => false end.
Definition quiesce_fails (p : SnapshotPlugin) : bool :=
  spl_discover p && match spl_quiesce p with inr _ => false | inl _ => true end.
Definition resume_report (p : SnapshotPlugin) : PluginReport :=
  match spl_resume p with
  | inr detail => mk_PluginReport (spl_name p) true true true (Some detail)
  | inl e => mk_PluginReport (spl_name p) true true false (Some ("resume failed: " +:+ e))
  end.
Definition resumes (p : SnapshotPlugin) : bool := match spl_resume p with inr _ => true | inl _ => false end.

(** ** Preparing, in pieces *)
Definition snapshot_watchdog_secs (secs : option Z) : Z :=
  Z.min (Z.max (default DEFAULT_SNAPSHOT_WATCHDOG_SECS secs) 10) MAX_SNAPSHOT_WATCHDOG_SECS.
(** [stamp]: the time in the name, to the second. *)
Definition guard_prepare (secs : option Z) (stamp : string) (s : snapshots) : option preparing :=
  match sn_active s with
  | Some _ => None
  | None => Some (Guarded (snapshot_watchdog_secs secs) ("snap-" +:+ stamp))
  end.
Definition quiesce_prepare (plugins : list SnapshotPlugin) (secs : Z) (id : string) (s : snapshots)
    : snapshots * preparing :=
  let quiesced := spl_name <$> filter quiesces plugins in
  (set_quiesced (list_to_set quiesced ∪ sn_quiesced s) s,
   Quiesced secs id (quiesce_report <$> plugins) quiesced (negb (existsb quiesce_fails plugins))).
Definition freeze_prepare (works : bool) (secs : Z) (id : string) (reports : list PluginReport)
    (quiesced : list string) (all_ok : bool) (s : snapshots) : snapshots * preparing :=
  let '(g, ok) := freeze_filesystems works (sn_guest s) in
  (on_guest g s, Froze secs id reports quiesced all_ok ok).
Definition enter_prepare (secs : Z) (id : string) (reports : list PluginReport) (quiesced : list string)
    (all_ok frozen : bool) (s : snapshots) : snapshots * preparing :=
  let app_consistent := all_ok && frozen in
  let s := set_active (Some (mk_ActiveSnapshot id frozen quiesced app_consistent)) s in
  (set_snapshot_watchdogs (sn_watchdogs s ++ [((g_now (sn_guest s) + secs)%Z, id)]) s,
   Entered (mk_SnapshotPrepareReport id (if frozen then "frozen" else "flush_only") frozen app_consistent
     reports secs)).
Definition hint_prepare (report : SnapshotPrepareReport) (s : snapshots) : snapshots :=
  on_guest (set_hint (spr_fs_frozen report) (sn_guest s)) s.

(** the whole call, when no other call runs at the same time. *)
Definition prepare (works : bool) (plugins : list SnapshotPlugin) (secs : option Z) (stamp : string)
    (s : snapshots) : snapshots * option SnapshotPrepareReport :=
  match guard_prepare secs stamp s with
  | Some (Guarded secs id) =>
      let '(s, p) := quiesce_prepare plugins secs id s in
      match p with
      | Quiesced secs id reports quiesced all_ok =>
          let '(s, p) := freeze_prepare works secs id reports quiesced all_ok s in
          match p with
          | Froze secs id reports quiesced all_ok frozen =>
              let '(s, p) := enter_prepare secs id reports quiesced all_ok frozen s in
              match p with
              | Entered report => (hint_prepare report s, Some report)
              | _ => (s, None)
              end
          | _ => (s, None)
          end
      | _ => (s, None)
      end
  | _ => (s, None)
  end.

(** ** Completing *)
Definition complete (works : bool) (plugins : list SnapshotPlugin) (s : snapshots)
    : snapshots * option SnapshotCompleteReport :=
  match sn_active s with
  | None => (s, None)
  | Some active =>
      let s := set_active None s in
      let '(g, thawed) := if av_frozen active then thaw_filesystems works (sn_guest s) else (sn_guest s, false) in
      let mine := filter (fun p => bool_decide (spl_name p ∈ av_quiesced_plugins active)) plugins in
      let s := set_quiesced (sn_quiesced s ∖ list_to_set (spl_name <$> filter resumes mine)) (on_guest g s) in
      let s := on_guest (set_hint false (sn_guest s)) s in
      (s, Some (mk_SnapshotCompleteReport (av_snapshot_id active) thawed (resume_report <$> mine)
        (if av_app_consistent active then "application"
         else if av_frozen active || thawed then "filesystem" else "crash")))
  end.
(** the watchdog's thread, after its sleep. *)
Definition snapshot_watchdog_fires (works : bool) (plugins : list SnapshotPlugin) (id : string) (s : snapshots)
    : snapshots :=
  match sn_active s with
  | Some a => if String.eqb (av_snapshot_id a) id then (complete works plugins s).1 else s
  | None => s
  end.

(** ** Calls at the same time *)
Inductive snapshot_event : Type :=
  | Prepare (call : nat) (secs : option Z) (stamp : string)
  | Advance (call : nat) (works : bool) (plugins : list SnapshotPlugin)
  | Complete (works : bool) (plugins : list SnapshotPlugin)
  | SnapshotWatchdog (deadline : Z) (id : string) (works : bool) (plugins : list SnapshotPlugin)
  | HostThaws (works : bool)
  | Second.

Definition advance (works : bool) (plugins : list SnapshotPlugin) (c : nat) (p : preparing) (s : snapshots)
    : snapshots :=
  let put x := let '(s, p) := x in set_calls (<[c := p]> (sn_calls s)) s in
  match p with
  | Guarded secs id => put (quiesce_prepare plugins secs id s)
  | Quiesced secs id reports quiesced all_ok => put (freeze_prepare works secs id reports quiesced all_ok s)
  | Froze secs id reports quiesced all_ok frozen => put (enter_prepare secs id reports quiesced all_ok frozen s)
  | Entered report => let s := hint_prepare report s in set_calls (delete c (sn_calls s)) s
  end.
Fixpoint remove_watchdog (x : Z * string) (l : list (Z * string)) : option (list (Z * string)) :=
  match l with
  | [] => None
  | y :: l => if bool_decide (y = x) then Some l else cons y <$> remove_watchdog x l
  end.
Definition snapshot_step (e : snapshot_event) (s : snapshots) : option snapshots :=
  match e with
  | Prepare c secs stamp =>
      match sn_calls s !! c, guard_prepare secs stamp s with
      | None, Some p => Some (set_calls (<[c := p]> (sn_calls s)) s)
      | None, None => Some s
      | Some _, _ => None
      end
  | Advance c works plugins => (fun p => advance works plugins c p s) <$> sn_calls s !! c
  | Complete works plugins => Some (complete works plugins s).1
  | SnapshotWatchdog d id works plugins =>
      if (d <=? g_now (sn_guest s))%Z then
        l ← remove_watchdog (d, id) (sn_watchdogs s);
        Some (snapshot_watchdog_fires works plugins id (set_snapshot_watchdogs l s))
      else None
  | HostThaws works => Some (on_guest (guest_fsfreeze_thaw works (sn_guest s)).1 s)
  | Second => Some (on_guest (tick (sn_guest s)) s)
  end.
Fixpoint snapshot_run (es : list snapshot_event) (s : snapshots) : option snapshots :=
  match es with
  | [] => Some s
  | e :: es => s ← snapshot_step e s; snapshot_run es s
  end.
Definition no_snapshot : snapshots := mk_snapshots fresh_guest None [] ∅ ∅.

(** ** What an orchestrated snapshot guarantees

    Theorems on [Snapshot]: a snapshot that is prepared and completed, by the host or by
    its watchdog, gives the guest back as it was and is reported at the right consistency;
    and the two ways in which the guest stays frozen: two calls of [prepare] at the same
    time, and a thaw that fails once. *)
Implicit Types (s : snapshots) (ps : list SnapshotPlugin).

(** ** One snapshot at a time *)
Lemma freeze_result works g :
  g_frozen g = false → freeze_filesystems works g =
  if works then (set_hint true (set_qga true (set_frozen true g)), true) else (g, false).
Proof.
  intros Hf. unfold freeze_filesystems, guest_fsfreeze_freeze, local_fsfreeze. rewrite Hf. by destruct works.
Qed.
Lemma thaw_result g : g_frozen g = true →
  thaw_filesystems true g = (set_hint false (set_qga false (set_frozen false g)), true).
Proof. intros Hf. unfold thaw_filesystems, guest_fsfreeze_thaw, local_fsfreeze. by rewrite Hf. Qed.

(** the state a [prepare] leaves. *)
Lemma prepare_spec works ps secs stamp s s1 rep :
  g_frozen (sn_guest s) = false → prepare works ps secs stamp s = (s1, Some rep) →
  sn_active s1 = Some (mk_ActiveSnapshot (spr_snapshot_id rep) works (spl_name <$> filter quiesces ps)
    (negb (existsb quiesce_fails ps) && works)) ∧
  g_frozen (sn_guest s1) = works ∧ g_now (sn_guest s1) = g_now (sn_guest s) ∧
  sn_quiesced s1 = list_to_set (spl_name <$> filter quiesces ps) ∪ sn_quiesced s ∧
  sn_watchdogs s1 = sn_watchdogs s ++ [((g_now (sn_guest s) + spr_watchdog_secs rep)%Z, spr_snapshot_id rep)].
Proof.
  intros Hf. unfold prepare, guard_prepare. destruct (sn_active s); [done|].
  unfold quiesce_prepare, freeze_prepare.
  generalize (list_to_set (spl_name <$> filter quiesces ps) ∪ sn_quiesced s). intros q. cbn [sn_guest set_quiesced].
  rewrite freeze_result by done. destruct works; cbn; intros [= <- <-]; cbn; done.
Qed.
Lemma complete_spec works ps s a :
  sn_active s = Some a →
  let '(g, thawed) := if av_frozen a then thaw_filesystems works (sn_guest s) else (sn_guest s, false) in
  let mine := filter (fun p => bool_decide (spl_name p ∈ av_quiesced_plugins a)) ps in
  complete works ps s =
  (mk_snapshots (set_hint false g) None (sn_watchdogs s)
     (sn_quiesced s ∖ list_to_set (spl_name <$> filter resumes mine)) (sn_calls s),
   Some (mk_SnapshotCompleteReport (av_snapshot_id a) thawed (resume_report <$> mine)
     (if av_app_consistent a then "application" else if av_frozen a || thawed then "filesystem" else "crash"))).
Proof. intros Ha. unfold complete. rewrite Ha. cbn [sn_guest set_active]. by destruct (if av_frozen a then _ else _). Qed.

(** what the snapshot is worth. *)
Definition consistency_of (works : bool) ps : string :=
  if negb (existsb quiesce_fails ps) && works then "application" else if works then "filesystem" else "crash".

Lemma resumed_all ps ps' :
  (∀ p, p ∈ ps' → resumes p = true) → (∀ p, p ∈ ps → quiesces p = true → ∃ p', p' ∈ ps' ∧ spl_name p' = spl_name p) →
  ∀ n, n ∈ spl_name <$> filter resumes
         (filter (fun p => bool_decide (spl_name p ∈ spl_name <$> filter quiesces ps)) ps') ↔
       n ∈ spl_name <$> filter quiesces ps.
Proof.
  intros Hr Hn n. rewrite !list_elem_of_fmap. split.
  - intros (p & -> & [_ [Hp _]%list_elem_of_filter]%list_elem_of_filter).
    apply bool_decide_unpack in Hp. by apply list_elem_of_fmap in Hp.
  - intros (p & -> & [Hq Hp]%list_elem_of_filter). apply Is_true_true in Hq.
    destruct (Hn p Hp Hq) as (p' & Hp' & E). exists p'. split; [done|].
    rewrite !list_elem_of_filter. split; [by apply Is_true_true, Hr|]. split; [|done].
    apply bool_decide_pack, list_elem_of_fmap. exists p. split; [done|]. apply list_elem_of_filter.
    split; [by apply Is_true_true|done].
Qed.

(** a snapshot that is prepared and completed leaves no freeze, no active snapshot and
    exactly the applications quiesced that were before; the report says "application" when
    the freeze worked and no application failed to quiesce, "filesystem" when only the
    freeze worked and "crash" otherwise. *)
Theorem snapshot_round_trip works ps ps' secs stamp s s1 rep :
  g_frozen (sn_guest s) = false →
  (∀ p, p ∈ ps' → resumes p = true) →
  (∀ p, p ∈ ps → quiesces p = true →
    (∃ p', p' ∈ ps' ∧ spl_name p' = spl_name p) ∧ spl_name p ∉ sn_quiesced s) →
  prepare works ps secs stamp s = (s1, Some rep) →
  ∃ s2 c, complete true ps' s1 = (s2, Some c) ∧ g_frozen (sn_guest s2) = false ∧ sn_active s2 = None ∧
    sn_quiesced s2 = sn_quiesced s ∧ scr_consistency c = consistency_of works ps.
Proof.
  intros Hf Hr Hn (Ha & Hf1 & _ & Hq & _)%prepare_spec; [|done].
  pose proof (complete_spec true ps' s1 _ Ha) as Hc. cbn [av_frozen av_quiesced_plugins av_app_consistent av_snapshot_id] in Hc.
  assert (sn_quiesced s1 ∖ list_to_set (spl_name <$> filter resumes
    (filter (fun p => bool_decide (spl_name p ∈ spl_name <$> filter quiesces ps)) ps')) = sn_quiesced s) as Hqs.
  { apply set_eq. intros n. rewrite Hq, elem_of_difference, elem_of_union, !elem_of_list_to_set.
    rewrite (resumed_all ps ps'); [|done|naive_solver].
    split; [naive_solver|]. intros Hin. split; [by right|].
    intros (p & -> & [Hp Hps]%list_elem_of_filter)%list_elem_of_fmap. apply Is_true_true in Hp.
    by destruct (Hn p Hps Hp). }
  rewrite Hqs in Hc. destruct works.
  - rewrite thaw_result in Hc by done. eexists _, _. split; [exact Hc|]. cbn. unfold consistency_of.
    by rewrite andb_true_r.
  - eexists _, _. split; [exact Hc|]. cbn. unfold consistency_of. by rewrite andb_false_r.
Qed.

(** ** Frozen for good *)
(** frozen, and no snapshot that is active or being prepared knows that it froze. *)
Record lost s : Prop := {
  lo_frozen : g_frozen (sn_guest s) = true;
  lo_active : ∀ a, sn_active s = Some a → av_frozen a = false;
  lo_calls : ∀ c p, sn_calls s !! c = Some p → match p with Froze _ _ _ _ _ frozen => frozen = false | _ => True end
}.
Definition is_host_thaw (e : snapshot_event) : bool := match e with HostThaws _ => true | _ => false end.
Lemma complete_lost works ps s : lost s → lost (complete works ps s).1.
Proof.
  intros Hl. destruct (sn_active s) as [a|] eqn:Ea; [|unfold complete; by rewrite Ea].
  pose proof (complete_spec works ps s a Ea) as H. rewrite (lo_active s Hl a Ea) in H. rewrite H.
  split; [apply (lo_frozen s Hl)|done|apply (lo_calls s Hl)].
Qed.
Lemma calls_insert_lost s c p : lost s →
  match p with Froze _ _ _ _ _ frozen => frozen = false | _ => True end →
  lost (set_calls (<[c := p]> (sn_calls s)) s).
Proof.
  intros [Hf Ha Hc] Hp. split; [done|done|]. intros c' p'. cbn. rewrite lookup_insert_Some.
  intros [[_ <-]|[_ H]]; [done|by eapply Hc].
Qed.
Lemma advance_lost works ps c p s : lost s → sn_calls s !! c = Some p → lost (advance works ps c p s).
Proof.
  intros Hl Hp. pose proof Hl as [Hf Ha Hc]. specialize (Hc _ _ Hp) as Hpc.
  destruct p as [secs id|secs id rs qs ok|secs id rs qs ok fr|rep]; cbn.
  - apply (calls_insert_lost (set_quiesced _ s)); [by split|done].
  - unfold freeze_prepare, freeze_filesystems, guest_fsfreeze_freeze, local_fsfreeze. rewrite Hf.
    destruct works; cbn; by apply (calls_insert_lost (on_guest _ s)).
  - apply (calls_insert_lost (set_snapshot_watchdogs _ (set_active _ s))); [|done].
    split; cbn; [done| |done]. intros a [= <-]. done.
  - split; cbn; [done|done|]. intros c' p' H%lookup_delete_Some. by eapply Hc, H.
Qed.
Lemma lost_step e s s' : is_host_thaw e = false → lost s → snapshot_step e s = Some s' → lost s'.
Proof.
  intros He Hl H. pose proof Hl as [Hf Ha Hc].
  destruct e as [c secs stamp|c works ps|works ps|d id works ps|works|]; cbn in *; try done.
  - destruct (sn_calls s !! c) eqn:Ec; [done|]. unfold guard_prepare in H.
    destruct (sn_active s) eqn:Ea; injection H as <-; [done|]. by apply calls_insert_lost.
  - destruct (sn_calls s !! c) eqn:Ec; [|done]. injection H as <-. by apply advance_lost.
  - injection H as <-. by apply complete_lost.
  - destruct (d <=? _)%Z; [|done]. destruct (remove_watchdog _ _) as [l|]; [|done]. injection H as <-.
    assert (lost (set_snapshot_watchdogs l s)) as Hl' by (by split).
    unfold snapshot_watchdog_fires. destruct (sn_active _) as [a|] eqn:Ea; [|done].
    destruct (String.eqb _ _); [by apply complete_lost|done].
  - injection H as <-. by split.
Qed.
Lemma lost_run es s s' :
  Forall (fun e => is_host_thaw e = false) es → lost s → snapshot_run es s = Some s' → g_frozen (sn_guest s') = true.
Proof.
  intros Hes. revert s. induction Hes as [|e es He Hes IH]; intros s Hl H; cbn in H.
  - injection H as <-. by apply lo_frozen.
  - destruct (snapshot_step e s) as [s1|] eqn:E; [|done]. by eapply (IH s1); [eapply lost_step|].
Qed.

(** two calls that overlap: both pass the guard, the second cannot freeze what is frozen,
    and its entry replaces the first. *)
Definition race : list snapshot_event :=
  [Prepare 1 None "a"; Prepare 2 None "b"; Advance 1 true []; Advance 2 true []; Advance 1 true [];
   Advance 1 true []; Advance 1 true []; Advance 2 true []; Advance 2 true []; Advance 2 true [];
   Complete true []].
Lemma race_lost : ∃ s, snapshot_run race no_snapshot = Some s ∧ sn_active s = None ∧ sn_calls s = ∅ ∧ lost s.
Proof.
  eexists. split; [vm_compute; reflexivity|]. split_and!; [done|reflexivity|].
  split; [done|done|]. intros c p H. change ((∅ : gmap nat preparing) !! c = Some p) in H.
  by rewrite lookup_empty in H.
Qed.
Lemma failed_thaw_lost ps s a :
  sn_active s = Some a → g_frozen (sn_guest s) = true → sn_calls s = ∅ → lost (complete false ps s).1.
Proof.
  intros Ha Hf Hc. pose proof (complete_spec false ps s a Ha) as H. cbn in H.
  assert (∀ c p, sn_calls s !! c = Some p → False) as Hn by (intros c p; by rewrite Hc, lookup_empty).
  destruct (av_frozen a); [unfold thaw_filesystems, guest_fsfreeze_thaw, local_fsfreeze in H; cbn in H|];
    rewrite H; split; cbn; try done; intros c p Hp; by destruct (Hn c p).
Qed.

(** a guest can stay frozen although every call was completed: after two [prepare] at
    the same time, or after a [complete] whose thaw failed, no further prepare, complete or
    watchdog thaws the guest, until the host does it through the guest agent interface. *)
Theorem snapshot_frozen_for_good :
  (∃ s, snapshot_run race no_snapshot = Some s ∧ sn_active s = None ∧ sn_calls s = ∅ ∧ lost s) ∧
  (∀ ps s a, sn_active s = Some a → g_frozen (sn_guest s) = true → sn_calls s = ∅ →
    lost (complete false ps s).1) ∧
  (∀ es s s', Forall (fun e => is_host_thaw e = false) es → lost s → snapshot_run es s = Some s' →
    g_frozen (sn_guest s') = true).
Proof. exact (conj race_lost (conj failed_thaw_lost lost_run)). Qed.

(** ** The watchdog *)
Lemma snapshot_run_app es es' s : snapshot_run (es ++ es') s = snapshot_run es s ≫= snapshot_run es'.
Proof. revert s. induction es as [|e es IH]; intros s; cbn; [done|]. destruct (snapshot_step e s); [apply IH|done]. Qed.
Lemma ticks_run n s :
  snapshot_run (replicate n Second) s =
  Some (on_guest (Nat.iter n tick (sn_guest s)) s).
Proof.
  revert s. induction n as [|n IH]; intros s; cbn; [by destruct s|]. rewrite IH. cbn.
  by rewrite <-Nat.iter_succ_r.
Qed.
Lemma ticks_now n g : g_now (Nat.iter n tick g) = (g_now g + Z.of_nat n)%Z.
Proof. induction n as [|n IH]; [cbn; lia|]. rewrite Nat.iter_succ. cbn [g_now tick]. lia. Qed.
Lemma ticks_frozen n g : g_frozen (Nat.iter n tick g) = g_frozen g.
Proof. induction n as [|n IH]; [done|]. by rewrite Nat.iter_succ. Qed.
Lemma remove_watchdog_last x l : ∃ l', remove_watchdog x (l ++ [x]) = Some l'.
Proof.
  induction l as [|y l [l' IH]]; cbn; [rewrite bool_decide_eq_true_2 by done; by eexists|].
  destruct (bool_decide (y = x)); [by eexists|]. rewrite IH. by eexists.
Qed.

(** a snapshot that the host never completes is undone by its watchdog: between 10 and
    600 seconds after [prepare] the thread can run, and when it does the guest is thawed and
    no snapshot is active. *)
Theorem snapshot_watchdog_unwinds works ps ps' secs stamp s s1 rep n :
  g_frozen (sn_guest s) = false → prepare works ps secs stamp s = (s1, Some rep) →
  (spr_watchdog_secs rep ≤ Z.of_nat n)%Z →
  (10 ≤ spr_watchdog_secs rep ≤ 600)%Z ∧
  ∃ s2, snapshot_run (replicate n Second ++
      [SnapshotWatchdog (g_now (sn_guest s) + spr_watchdog_secs rep) (spr_snapshot_id rep) true ps']) s1 = Some s2 ∧
    g_frozen (sn_guest s2) = false ∧ sn_active s2 = None.
Proof.
  intros Hf Hp Hn. split.
  { revert Hp. unfold prepare, guard_prepare. destruct (sn_active s); [done|]. cbn.
    unfold freeze_prepare. destruct (freeze_filesystems _ _). cbn. intros [= _ <-]. cbn.
    unfold snapshot_watchdog_secs, MAX_SNAPSHOT_WATCHDOG_SECS. lia. }
  apply prepare_spec in Hp as (Ha & Hf1 & Hnow & _ & Hw); [|done].
  rewrite snapshot_run_app, ticks_run. cbn [mbind option_bind snapshot_run snapshot_step sn_guest on_guest sn_watchdogs].
  rewrite ticks_now, Hnow, Hw. destruct (Z.leb_spec (g_now (sn_guest s) + spr_watchdog_secs rep)
    (g_now (sn_guest s) + Z.of_nat n)) as [_|Hlt]; [|lia].
  destruct (remove_watchdog_last ((g_now (sn_guest s) + spr_watchdog_secs rep)%Z, spr_snapshot_id rep)
    (sn_watchdogs s)) as [l ->]. cbn [mbind option_bind].
  eexists. split; [reflexivity|]. unfold snapshot_watchdog_fires. cbn [sn_active set_snapshot_watchdogs on_guest].
  rewrite Ha. cbn [av_snapshot_id]. rewrite String.eqb_refl.
  set (s' := set_snapshot_watchdogs _ _).
  pose proof (complete_spec true ps' s' _ Ha) as Hc. cbn [av_frozen] in Hc.
  assert (g_frozen (sn_guest s') = works) as Hf' by (cbn; by rewrite ticks_frozen).
  destruct works; [rewrite thaw_result in Hc by done|]; rewrite Hc; by split.
Qed.

(** ** Examples *)
Definition toy_db : SnapshotPlugin := mk_SnapshotPlugin "postgresql" true (inr "checkpoint") (inr "resumed").
Definition toy_cache : SnapshotPlugin := mk_SnapshotPlugin "redis" true (inl "timeout") (inr "resumed").

(** two snapshots that start in the same second have the same name, and the watchdog of the
    first, completed long ago, thaws under the second. *)
Example same_second_watchdog :
  let s1 := (prepare true [toy_db] (Some 10%Z) "20260101T000000Z" no_snapshot).1 in
  let s2 := (complete true [toy_db] s1).1 in
  let s3 := (prepare true [toy_db] (Some 600%Z) "20260101T000000Z" s2).1 in
  g_frozen (sn_guest s3) = true ∧
  (fun s => (g_now (sn_guest s), g_frozen (sn_guest s), sn_watchdogs s)) <$>
    snapshot_run (replicate 10 Second ++ [SnapshotWatchdog 10 "snap-20260101T000000Z" true [toy_db]]) s3 =
  Some (10%Z, false, [(600%Z, "snap-20260101T000000Z")]).
Proof. split; vm_compute; reflexivity. Qed.

Lemma toy_prepared : ∃ s1 rep,
  prepare true [toy_db; toy_cache] None "20260101T000000Z" no_snapshot = (s1, Some rep) ∧ spr_watchdog_secs rep = 120%Z.
Proof. eexists _, _. split; vm_compute; reflexivity. Qed.
Lemma toy_resumes : ∀ p, p ∈ [toy_db; toy_cache] → resumes p = true.
Proof. intros p Hp. rewrite !elem_of_cons in Hp. destruct Hp as [->|[->|Hp]]; [done|done|]. apply elem_of_nil in Hp. destruct Hp. Qed.
Lemma toy_known : ∀ p, p ∈ [toy_db; toy_cache] → quiesces p = true →
  (∃ p', p' ∈ [toy_db; toy_cache] ∧ spl_name p' = spl_name p) ∧ spl_name p ∉ sn_quiesced no_snapshot.
Proof. intros p Hp _. split; [by exists p|]. apply not_elem_of_empty. Qed.

Lemma snapshot_round_trip_witness : ∃ s1 s2 rep c,
  prepare true [toy_db; toy_cache] None "20260101T000000Z" no_snapshot = (s1, Some rep) ∧
  complete true [toy_db; toy_cache] s1 = (s2, Some c) ∧ scr_consistency c = "filesystem".
Proof.
  destruct toy_prepared as (s1 & rep & Hp & _).
  destruct (snapshot_round_trip true [toy_db; toy_cache] [toy_db; toy_cache] None "20260101T000000Z" no_snapshot
    s1 rep eq_refl toy_resumes toy_known Hp) as (s2 & c & Hc & _ & _ & _ & E).
  exists s1, s2, rep, c. split; [exact Hp|]. split; [exact Hc|exact E].
Defined.

Lemma snapshot_watchdog_unwinds_witness : ∃ s1 s2 rep,
  prepare true [toy_db; toy_cache] None "20260101T000000Z" no_snapshot = (s1, Some rep) ∧
  snapshot_run (replicate 120 Second ++
    [SnapshotWatchdog (g_now (sn_guest no_snapshot) + spr_watchdog_secs rep) (spr_snapshot_id rep) true [toy_db]]) s1
    = Some s2 ∧ g_frozen (sn_guest s2) = false.
Proof.
  destruct toy_prepared as (s1 & rep & Hp & Hs).
  assert (spr_watchdog_secs rep ≤ Z.of_nat 120)%Z as Hn by (rewrite Hs; done).
  destruct (snapshot_watchdog_unwinds true [toy_db; toy_cache] [toy_db] None "20260101T000000Z" no_snapshot
    s1 rep 120 eq_refl Hp Hn) as (_ & s2 & H2 & Hf & _).
  exists s1, s2, rep. split; [exact Hp|]. split; [exact H2|exact Hf].
Defined.
