(* ===== verification/FileOps.v ===== *)
(** * Files the agent serves

    [src/agent/file_ops.rs]: reading, writing, listing and describing the files of the
    guest below the paths the policy allows.

    The state is a tree of files, directories and symbolic links by absolute path.
    [canonicalize] is [realpath]: components are walked from the left, links are followed,
    at most [MAX_LINKS] of them (Linux refuses the 41st).  [fs::write] and [fs::copy] follow
    a link at the last component and create what it names; [rename] does not follow it.
    A call that fails in the middle leaves what it had written: [faults] says where.
    Base64 and SHA-256 are other crates ([FileCrates]); a parameter of a request is the
    string it holds, if any.  No other process changes the tree during a call. *)
From stdpp Require Import base gmap strings list.
From Stdlib Require Import ZArith Lia Ascii.
From S2P Require Import Prelude RustStr Frame AgentRpc AgentPolicy.

(** ** The tree *)
Inductive node : Type :=
  | File (content : string) (mode : Z) (mtime : option Z)
  | Dir (len : Z) (mode : Z) (mtime : option Z)
  | Link (target : string).
Notation tree := (gmap (list string) node).

Class FileCrates := {
  b64_encode : string → string;
  b64_decode : string → option string;
  file_sha256_hex : string → string;
  (** the working directory of the agent *)
  cwd : list string;
  (** the modification time of what is written now *)
  written_at : option Z;
  (** the mode of a new file *)
  umask_mode : Z
}.

Definition MAX_LINKS : nat := 40.
Definition is_dir (t : tree) (p : list string) : bool :=
  match t !! p with Some (Dir _ _ _) => true | _ => false end.
Definition is_absolute (raw : string) : bool := starts_with "/" raw.
Definition pieces (raw : string) : list string := split_char "/"%char raw.

(** the walk; [create]: the last component need not exist. *)
Fixpoint walk (create : bool) (t : tree) (links : nat) : list string → list string → option (list string) :=
  fix go (cur todo : list string) {struct todo} :=
    match todo with
    | [] => Some cur
    | x :: todo =>
        if is_dir t cur then
          if (String.eqb x "" || String.eqb x ".") then go cur todo
          else if String.eqb x ".." then go (removelast cur) todo
          else
            match t !! (cur ++ [x]) with
            | Some (Link target) =>
                match links with
                | O => None
                | S links =>
                    walk create t links (if is_absolute target then [] else cur) (pieces target ++ todo)
                end
            | Some _ => go (cur ++ [x]) todo
            | None => if create && bool_decide (todo = []) then Some (cur ++ [x]) else None
            end
        else None
    end.
Definition walk_raw `{FileCrates} (create : bool) (t : tree) (raw : string) : option (list string) :=
  if is_empty raw then None
  else walk create t MAX_LINKS (if is_absolute raw then [] else cwd) (pieces raw).
Definition canonicalize `{FileCrates} (t : tree) (raw : string) : option (list string) := walk_raw false t raw.

(** ** [std::path] *)
(** the components of a relative path keep a leading dot. *)
Definition named (x : string) : bool := negb (String.eqb x "") && negb (String.eqb x ".").
Definition components (raw : string) : list string :=
  match pieces raw with
  | x :: l => if String.eqb x "." then x :: filter named l else filter named (x :: l)
  | [] => []
  end.
Definition path_file_name (raw : string) : option string :=
  match last (components raw) with
  | Some x => if String.eqb x ".." || String.eqb x "." then None else Some x
  | None => None
  end.
(** the components of the parent; [None]: the root and the empty path have none. *)
Definition path_parent (raw : string) : option (list string) :=
  match components raw with [] => None | l => Some (removelast l) end.
Definition canonicalize_parent `{FileCrates} (t : tree) (raw : string) (parent : list string) : option (list string) :=
  if is_absolute raw then walk false t MAX_LINKS [] parent
  else if bool_decide (parent = []) then None
  else walk false t MAX_LINKS cwd parent.
Definition display (p : list string) : string := "/" +:+ join "/" p.

(** [Path::with_extension] on the last component. *)
Fixpoint before_last_dot (s : string) : option string :=
  match s with
  | EmptyString => None
  | String c s =>
      match before_last_dot s with
      | Some b => Some (String c b)
      | None => if Ascii.eqb c "."%char then Some EmptyString else None
      end
  end.
Definition file_stem (name : string) : string :=
  match before_last_dot name with
  | Some b => if is_empty b then name else b
  | None => name
  end.
Definition with_extension (p : list string) (ext : string) : list string :=
  match last p with
  | None => p
  | Some name => removelast p ++ [file_stem name +:+ "." +:+ ext]
  end.
(** [starts_with] of paths compares components. *)
Fixpoint path_starts_with (p prefix : list string) : bool :=
  match prefix, p with
  | [], _ => true
  | x :: prefix, y :: p => String.eqb x y && path_starts_with p prefix
  | _ :: _, [] => false
  end.

(** ** The calls of [std::fs] *)
Inductive fo_error : Type :=
  | NothingAllowed | NoParent | NoParentDir | NoFileName | CannotResolve (raw : string)
  | OutsideAllowed (path : string) | MissingParam (name : string) | NotBase64
  | OverCap (size cap : Z) | FoIo.

(** how many bytes are copied or written before the call fails, and whether the rename
    fails. *)
Record faults : Type := mk_faults {
  fl_copy : option nat;
  fl_write : option nat;
  fl_rename : bool
}.
Definition no_faults : faults := mk_faults None None false.
Fixpoint str_take (n : nat) (s : string) : string :=
  match n, s with
  | S n, String c s => String c (str_take n s)
  | _, _ => EmptyString
  end.
Definition written (fault : option nat) (bytes : string) : string :=
  match fault with Some n => str_take n bytes | None => bytes end.

(** an open for writing: created or truncated; [mode] is for a new file. *)
Definition open_truncated `{FileCrates} (mode : Z) (p : list string) (t : tree) : option (tree * list string * Z) :=
  q ← walk true t MAX_LINKS [] p;
  match t !! q with
  | Some (File _ m _) => Some (<[q := File "" m written_at]> t, q, m)
  | None => Some (<[q := File "" mode written_at]> t, q, mode)
  | Some _ => None
  end.
Definition fs_write_bytes `{FileCrates} (fault : option nat) (p : list string) (bytes : string) (t : tree)
    : tree * bool :=
  match open_truncated umask_mode p t with
  | None => (t, false)
  | Some (t, q, m) =>
      (<[q := File (written fault bytes) m written_at]> t, match fault with Some _ => false | None => true end)
  end.
(** the source is opened first, following links, and read after the destination was
    truncated. *)
Definition fs_copy_file `{FileCrates} (fault : option nat) (src dst : list string) (t : tree) : tree * bool :=
  match walk false t MAX_LINKS [] src with
  | Some s =>
      match t !! s with
      | Some (File _ m _) =>
          match open_truncated m dst t with
          | None => (t, false)
          | Some (t, q, _) =>
              let bytes := match t !! s with Some (File c _ _) => c | _ => "" end in
              (<[q := File (written fault bytes) m written_at]> t,
               match fault with Some _ => false | None => true end)
          end
      | _ => (t, false)
      end
  | None => (t, false)
  end.
(** [src] is a file or a link: a directory is not replaced by it. *)
Definition fs_rename (fault : bool) (src dst : list string) (t : tree) : tree * bool :=
  match t !! src, t !! dst with
  | Some _, Some (Dir _ _ _) => (t, false)
  | Some n, _ =>
      if fault then (t, false)
      else if bool_decide (src = dst) then (t, true)
      else (<[dst := n]> (delete src t), true)
  | None, _ => (t, false)
  end.

(** ** Operations *)
Definition authorize_path `{FileCrates} (t : tree) (policy : FileOpsPolicy) (raw : string) (for_write : bool)
    : outcome fo_error (list string) :=
  if bool_decide (fo_allowed_paths policy = []) then Err NothingAllowed
  else
    canonical ←
      match canonicalize t raw with
      | Some p => Ok p
      | None =>
          if for_write then
            match path_parent raw with
            | None => Err NoParent
            | Some parent =>
                match canonicalize_parent t raw parent with
                | None => Err NoParentDir
                | Some parent =>
                    match path_file_name raw with
                    | None => Err NoFileName
                    | Some name => Ok (parent ++ [name])
                    end
                end
            end
          else Err (CannotResolve raw)
      end;
    if existsb (fun prefix => match canonicalize t prefix with
                              | Some p => path_starts_with canonical p
                              | None => false
                              end) (fo_allowed_paths policy)
    then Ok canonical else Err (OutsideAllowed (display canonical)).

Definition required {A} (name : string) (o : option A) : outcome fo_error A :=
  match o with Some a => Ok a | None => Err (MissingParam name) end.
Definition str_len (s : string) : Z := Z.of_nat (String.length s).
Definition node_len (n : node) : Z :=
  match n with File c _ _ => str_len c | Dir len _ _ => len | Link target => str_len target end.
Definition metadata (t : tree) (p : list string) : outcome fo_error node :=
  match t !! p with Some n => Ok n | None => Err FoIo end.
Definition read_bytes (t : tree) (p : list string) : outcome fo_error string :=
  match t !! p with Some (File c _ _) => Ok c | _ => Err FoIo end.

Record ReadAnswer : Type := mk_ReadAnswer { ra_path : string; ra_size : Z; ra_data : string }.
Record WriteAnswer : Type := mk_WriteAnswer { wa_path : string; wa_written : Z; wa_backup : option string }.
Record StatAnswer : Type := mk_StatAnswer {
  sa_path : string; sa_size : Z; sa_is_dir : bool; sa_modified : option Z; sa_mode : string; sa_readonly : bool
}.
Record ListEntry : Type := mk_ListEntry { le_name : string; le_is_dir : bool; le_size : Z }.
Record ChecksumAnswer : Type := mk_ChecksumAnswer { ca_path : string; ca_checksum : string; ca_size : Z }.

Definition file_read `{FileCrates} (t : tree) (policy : FileOpsPolicy) (path : option string)
    : outcome fo_error ReadAnswer :=
  raw ← required "path" path;
  p ← authorize_path t policy raw false;
  meta ← metadata t p;
  if (fo_max_bytes policy <? node_len meta)%Z then Err (OverCap (node_len meta) (fo_max_bytes policy))
  else
    bytes ← read_bytes t p;
    Ok (mk_ReadAnswer (display p) (str_len bytes) (b64_encode bytes)).

(** the part of [write] that changes the tree. *)
Definition replace_file `{FileCrates} (fl : faults) (p : list string) (bytes : string) (t : tree)
    : tree * outcome fo_error WriteAnswer :=
  let bak := with_extension p "guestkit-bak" in
  let exists_ := match walk false t MAX_LINKS [] p with Some _ => true | None => false end in
  let tmp := with_extension p "guestkit-tmp" in
  let '(t, ok) := if exists_ then fs_copy_file (fl_copy fl) p bak t else (t, true) in
  let '(t, ok) := if ok then fs_write_bytes (fl_write fl) tmp bytes t else (t, false) in
  let '(t, ok) := if ok then fs_rename (fl_rename fl) tmp p t else (t, false) in
  (t, if ok then Ok (mk_WriteAnswer (display p) (str_len bytes) (if exists_ then Some (display bak) else None))
      else Err FoIo).
Definition write_request `{FileCrates} (t : tree) (policy : FileOpsPolicy) (path data : option string)
    : outcome fo_error (list string * string) :=
  raw ← required "path" path;
  data ← required "data (base64)" data;
  bytes ← match b64_decode data with Some b => Ok b | None => Err NotBase64 end;
  if (fo_max_bytes policy <? str_len bytes)%Z then Err (OverCap (str_len bytes) (fo_max_bytes policy))
  else
    p ← authorize_path t policy raw true;
    Ok (p, bytes).
Definition file_write `{FileCrates} (fl : faults) (policy : FileOpsPolicy) (path data : option string) (t : tree)
    : tree * outcome fo_error WriteAnswer :=
  match write_request t policy path data with
  | Ok (p, bytes) => replace_file fl p bytes t
  | Err e => (t, Err e)
  | Panic => (t, Panic)
  end.

Definition node_mode (n : node) : Z := match n with File _ m _ | Dir _ m _ => m | Link _ => 511 end.
Definition node_mtime (n : node) : option Z := match n with File _ _ t | Dir _ _ t => t | Link _ => None end.
Definition node_is_dir (n : node) : bool := match n with Dir _ _ _ => true | _ => false end.
(** [modified]: a time before 1970 is left out; [readonly]: no write bit is set. *)
Definition file_stat `{FileCrates} (t : tree) (policy : FileOpsPolicy) (path : option string)
    : outcome fo_error StatAnswer :=
  raw ← required "path" path;
  p ← authorize_path t policy raw false;
  n ← metadata t p;
  Ok (mk_StatAnswer (display p) (node_len n) (node_is_dir n)
    (node_mtime n ≫= fun s => if (s <? 0)%Z then None else Some s)
    (fmt_octal (Z.land (node_mode n) 4095)) (Z.land (node_mode n) 146 =? 0)%Z).

(** the entries of a directory, in the order of the directory ([order]): their metadata is
    that of a link itself. *)
Definition child_name (p q : list string) : option string :=
  if path_starts_with q p && (length q =? S (length p)) then last q else None.
Definition children (t : tree) (p : list string) : list (string * node) :=
  omap (fun x => (fun n => (n, x.2)) <$> child_name p x.1) (map_to_list t).
Definition file_list `{FileCrates} (order : list (string * node) → list (string * node)) (t : tree)
    (policy : FileOpsPolicy) (path : option string) : outcome fo_error (string * list ListEntry) :=
  raw ← required "path" path;
  p ← authorize_path t policy raw false;
  if is_dir t p then
    Ok (display p, (fun x => mk_ListEntry x.1 (node_is_dir x.2) (node_len x.2)) <$> take 1000 (order (children t p)))
  else Err FoIo.

Definition file_checksum `{FileCrates} (t : tree) (policy : FileOpsPolicy) (path : option string)
    : outcome fo_error ChecksumAnswer :=
  raw ← required "path" path;
  p ← authorize_path t policy raw false;
  bytes ← read_bytes t p;
  Ok (mk_ChecksumAnswer (display p) (file_sha256_hex bytes) (str_len bytes)).
