(* ===== verification/FileOpsProps.v ===== *)
(** * What the agent's file operations reach

    Theorems on [FileOps]: what is served lies below an allowed path, what a write changes
    and that it replaces the file as a whole or not at all, and the ways out that the
    canonicalisation leaves open. *)
From stdpp Require Import base gmap strings list.
From Stdlib Require Import ZArith Lia Ascii.
From S2P Require Import Prelude RustStr Frame AgentRpc AgentPolicy Words FileOps.

Implicit Types (t : tree) (p q d cur todo : list string) (pol : FileOpsPolicy).

(** ** Canonical paths *)
(** a name that is neither empty nor a dot. *)
Definition plain_name (x : string) : Prop := x ≠ "" ∧ x ≠ "." ∧ x ≠ "..".
Lemma plain_name_eqb x : plain_name x →
  (String.eqb x "" || String.eqb x ".") = false ∧ String.eqb x ".." = false.
Proof.
  intros (H1 & H2 & H3). apply String.eqb_neq in H1 as ->. apply String.eqb_neq in H2 as ->.
  by apply String.eqb_neq in H3 as ->.
Qed.
Lemma name_eqb_plain x :
  (String.eqb x "" || String.eqb x ".") = false → String.eqb x ".." = false → plain_name x.
Proof. intros [H1 H2]%orb_false_iff H3. split_and!; by apply String.eqb_neq. Qed.

(** every directory on the way is a directory. *)
Record below_dirs t p : Prop := {
  bd_dirs : ∀ q x, (q ++ [x]) `prefix_of` p → is_dir t q = true;
  bd_plain : Forall plain_name p
}.
Definition not_link t p : Prop := ∀ target, t !! p ≠ Some (Link target).
Definition canonical t p : Prop := below_dirs t p ∧ (∃ n, t !! p = Some n) ∧ not_link t p.

Lemma below_dirs_snoc t d x : below_dirs t d → is_dir t d = true → plain_name x → below_dirs t (d ++ [x]).
Proof.
  intros [Hd Hp] Hdir Hx. split; [|by apply Forall_app; split; [|apply Forall_singleton]].
  intros q y [[|z k] E].
  - rewrite app_nil_r in E. apply app_inj_tail in E as [<- _]. done.
  - destruct (exists_last (l := z :: k)) as (k' & z' & Hk); [done|]. rewrite Hk, app_assoc in E.
    apply app_inj_tail in E as [E _]. apply (Hd q y). by exists k'.
Qed.
Lemma below_dirs_removelast t d : below_dirs t d → below_dirs t (removelast d).
Proof.
  intros H. destruct d as [|y l]; [done|].
  destruct (exists_last (l := y :: l)) as (k & z & E); [done|]. rewrite E in *. rewrite removelast_last.
  destruct H as [Hd Hp]. split; [|by apply Forall_app in Hp as [Hp _]].
  intros q x H. apply (Hd q x). by apply prefix_app_r.
Qed.
Lemma is_dir_canonical t d : below_dirs t d → is_dir t d = true → canonical t d.
Proof.
  intros Hb Hd. split; [done|]. unfold is_dir in Hd. destruct (t !! d) as [[]|] eqn:E; try done.
  split; [by eexists|]. intros target. congruence.
Qed.
Lemma canonical_removelast t d : canonical t d → canonical t (removelast d).
Proof.
  intros (Hb & Hn & Hl). destruct d as [|y l]; [done|].
  destruct (exists_last (l := y :: l)) as (k & z & E); [done|]. rewrite E in *.
  apply is_dir_canonical; [by apply below_dirs_removelast|]. rewrite removelast_last.
  by apply (bd_dirs _ _ Hb k z).
Qed.

Lemma walk_cons c t n cur x todo :
  walk c t n cur (x :: todo) =
  if is_dir t cur then
    if (String.eqb x "" || String.eqb x ".") then walk c t n cur todo
    else if String.eqb x ".." then walk c t n (removelast cur) todo
    else match t !! (cur ++ [x]) with
         | Some (Link target) =>
             match n with
             | O => None
             | S n => walk c t n (if is_absolute target then [] else cur) (pieces target ++ todo)
             end
         | Some _ => walk c t n (cur ++ [x]) todo
         | None => if c && bool_decide (todo = []) then Some (cur ++ [x]) else None
         end
  else None.
Proof. by destruct n. Qed.
Lemma walk_nil c t n cur : walk c t n cur [] = Some cur.
Proof. by destruct n. Qed.

(** the walk ends at a canonical path. *)
Lemma walk_canonical t n cur todo p :
  is_dir t [] = true → canonical t cur → walk false t n cur todo = Some p → canonical t p.
Proof.
  intros Hroot. revert cur todo. induction n as [n IHn] using lt_wf_ind.
  intros cur todo. revert cur. induction todo as [|x todo IH]; intros cur Hc.
  { rewrite walk_nil. by intros [= <-]. }
  rewrite walk_cons. destruct (is_dir t cur) eqn:Ed; [|done].
  destruct (_ || _) eqn:E1; [by apply IH|]. destruct (String.eqb x "..") eqn:E2.
  { by apply IH, canonical_removelast. }
  pose proof (name_eqb_plain x E1 E2) as Hx.
  assert (∀ m, t !! (cur ++ [x]) = Some m → (∀ g, m ≠ Link g) → canonical t (cur ++ [x])) as Hnext.
  { intros m Hm Hg. split; [by apply below_dirs_snoc; [apply Hc| |]|]. split; [by exists m|].
    intros g. rewrite Hm. intros [= ->]. by apply (Hg g). }
  destruct (t !! (cur ++ [x])) as [[c m0 tm|len m0 tm|target]|] eqn:El.
  - apply IH. by eapply Hnext.
  - apply IH. by eapply Hnext.
  - destruct n as [|n]; [done|]. apply IHn; [lia|]. destruct (is_absolute target); [|done].
    apply is_dir_canonical; [|done]. split; [|constructor]. intros q y [k E]. by destruct q.
  - done.
Qed.
(** walking down directories. *)
Lemma walk_dirs c t n d cur todo :
  (∀ q, q `prefix_of` d → is_dir t (cur ++ q) = true) → Forall plain_name d →
  walk c t n cur (d ++ todo) = walk c t n (cur ++ d) todo.
Proof.
  revert cur. induction d as [|x d IH]; intros cur Hd Hp; [by rewrite app_nil_r|].
  apply Forall_cons in Hp as [Hx Hp]. cbn [app]. rewrite walk_cons.
  pose proof (Hd [] (prefix_nil _)) as H0. rewrite app_nil_r in H0. rewrite H0.
  destruct (plain_name_eqb x Hx) as [-> ->].
  assert (is_dir t (cur ++ [x]) = true) as H1 by (apply (Hd [x]); by exists d).
  pose proof H1 as H1'. unfold is_dir in H1'. destruct (t !! (cur ++ [x])) as [[]|]; try done.
  rewrite IH; [by rewrite <-app_assoc| |done].
  intros q Hq. rewrite <-app_assoc. apply (Hd (x :: q)). by apply prefix_cons.
Qed.
Lemma walk_parent c t n d x :
  below_dirs t (d ++ [x]) → walk c t n [] (d ++ [x]) = walk c t n d [x].
Proof.
  intros [Hd Hp]. apply Forall_app in Hp as [Hp _]. rewrite (walk_dirs c t n d []); [done| |done].
  intros q [k E]. destruct k as [|y k]; [rewrite app_nil_r in E; subst; by apply (Hd q x)|].
  apply (Hd q y). subst. exists (k ++ [x]). by rewrite <-!app_assoc.
Qed.
(** a path whose last component is no link is where it says. *)
Lemma walk_last c t n d x :
  below_dirs t (d ++ [x]) → not_link t (d ++ [x]) → (c = true ∨ ∃ m, t !! (d ++ [x]) = Some m) →
  walk c t n [] (d ++ [x]) = Some (d ++ [x]).
Proof.
  intros Hb Hl Hc. rewrite walk_parent, walk_cons by done. rewrite (bd_dirs _ _ Hb d x) by done.
  destruct Hb as [_ Hp]. apply Forall_app in Hp as [_ Hx]. rewrite Forall_singleton in Hx.
  destruct (plain_name_eqb x Hx) as [-> ->].
  destruct (t !! (d ++ [x])) as [[]|] eqn:E; rewrite ?walk_nil; try done; [by destruct (Hl target)|].
  destruct Hc as [->|[m Hm]]; done.
Qed.
Lemma walk_canonical_id c t n p : is_dir t [] = true → canonical t p → walk c t n [] p = Some p.
Proof.
  intros Hr (Hb & Hn & Hl). destruct p as [|y l]; [by rewrite walk_nil|].
  destruct (exists_last (l := y :: l)) as (k & z & E); [done|]. rewrite E in *. apply walk_last; auto.
Qed.

(** ** What is served *)
Section serving.
Context `{FileCrates}.

(** the agent starts in a directory, and the root is one. *)
Record sane t : Prop := {
  sane_root : is_dir t [] = true;
  sane_cwd : canonical t cwd
}.
(** [p] is at or below an allowed path. *)
Definition allowed t pol p : Prop :=
  ∃ prefix pre, prefix ∈ fo_allowed_paths pol ∧ canonicalize t prefix = Some pre ∧ pre `prefix_of` p.

Lemma root_canonical t : is_dir t [] = true → canonical t [].
Proof. intros Hr. apply is_dir_canonical; [|done]. split; [|constructor]. intros q x [k E]. by destruct q. Qed.
Lemma canonicalize_canonical t raw p : sane t → canonicalize t raw = Some p → canonical t p.
Proof.
  intros [Hr Hc]. unfold canonicalize, walk_raw. destruct (is_empty raw); [done|].
  apply walk_canonical; [done|]. destruct (is_absolute raw); [by apply root_canonical|done].
Qed.
Lemma path_starts_with_spec p q : path_starts_with p q = true → q `prefix_of` p.
Proof.
  revert p. induction q as [|x q IH]; intros p; [by exists p|]. destruct p as [|y p]; [done|]. cbn.
  intros [->%String.eqb_eq Hp]%andb_true_iff. by apply prefix_cons, IH.
Qed.
Lemma file_name_plain raw x : path_file_name raw = Some x → plain_name x.
Proof.
  unfold path_file_name. destruct (last (components raw)) as [y|] eqn:E; [|done].
  destruct (_ || _) eqn:Ey; [done|]. intros [= <-]. apply orb_false_iff in Ey as [E1 E2].
  split_and!; [|by apply String.eqb_neq|by apply String.eqb_neq].
  apply last_Some_elem_of in E. unfold components in E. intros ->.
  assert (∀ l : list string, "" ∈ filter named l → False) as Hf by (by intros l [Hk _]%list_elem_of_filter).
  destruct (pieces raw) as [|z l]; [by apply elem_of_nil in E|].
  destruct (String.eqb z ".") eqn:Ez; [|by eapply Hf].
  apply elem_of_cons in E as [<-|E]; [done|by eapply Hf].
Qed.

(** the path an operation works on. *)
Lemma authorize_spec t pol raw w p :
  sane t → authorize_path t pol raw w = Ok p →
  allowed t pol p ∧
  (canonical t p ∨ w = true ∧ canonicalize t raw = None ∧ ∃ d x, p = d ++ [x] ∧ canonical t d ∧ plain_name x).
Proof.
  intros Hs. unfold authorize_path. destruct (bool_decide _); [done|].
  rewrite outcome_bind_Ok. intros (q & Hq & Ha).
  destruct (existsb _ _) eqn:E; [|done]. injection Ha as <-. apply existsb_exists in E as (prefix & Hin & Hp).
  destruct (canonicalize t prefix) as [pre|] eqn:Epre; [|done]. split.
  { exists prefix, pre. split; [by apply list_elem_of_In|]. split; [done|]. by apply path_starts_with_spec. }
  destruct (canonicalize t raw) as [q'|] eqn:Er.
  { injection Hq as <-. left. by eapply canonicalize_canonical. }
  right. destruct w; [|done]. split; [done|]. split; [done|].
  destruct (path_parent raw) as [parent|]; [|done].
  destruct (canonicalize_parent t raw parent) as [d|] eqn:Ed; [|done].
  destruct (path_file_name raw) as [x|] eqn:Ex; [|done]. injection Hq as <-. exists d, x.
  split; [done|]. split; [|by eapply file_name_plain].
  destruct Hs as [Hr Hc]. unfold canonicalize_parent in Ed.
  destruct (is_absolute raw); [|destruct (bool_decide _); [done|]];
    (eapply walk_canonical; [done| |exact Ed]); [by apply root_canonical|done].
Qed.

Lemma read_bytes_Ok t p c : read_bytes t p = Ok c → ∃ m tm, t !! p = Some (File c m tm).
Proof. unfold read_bytes. destruct (t !! p) as [[]|]; try done. intros [= <-]. by eexists _, _. Qed.
Lemma authorize_read t pol raw p :
  sane t → authorize_path t pol raw false = Ok p → allowed t pol p ∧ canonical t p.
Proof. intros Hs [Ha [Hc|[? _]]]%authorize_spec; done. Qed.
Lemma children_spec t p x n : (x, n) ∈ children t p → ∃ q, q = p ++ [x] ∧ t !! q = Some n.
Proof.
  unfold children. rewrite list_elem_of_omap. intros ([q m] & Hin & E). apply elem_of_map_to_list in Hin. cbn in E.
  unfold child_name in E. destruct (path_starts_with q p) eqn:Hp; [|done]. cbn in E.
  destruct (Nat.eqb_spec (length q) (S (length p))) as [Hl|]; [|done].
  apply path_starts_with_spec in Hp as [k ->]. exists (p ++ k). rewrite length_app in Hl.
  destruct k as [|y [|z k]]; cbn in Hl; [lia| |lia]. rewrite last_snoc in E. cbn in E. by simplify_eq.
Qed.

(** whatever a read, a checksum, a stat or a listing answers is about a file or a
    directory at or below an allowed path once all links are followed, and about that file
    as it is; a read answers at most the bytes the policy allows, and a listing at most a
    thousand entries of that directory. *)
Theorem served_below_allowed order t pol path :
  sane t → (∀ l (x : string * node), x ∈ order l → x ∈ l) →
  (∀ a, file_read t pol path = Ok a → ∃ p c m tm, allowed t pol p ∧ canonical t p ∧ t !! p = Some (File c m tm) ∧
     a = mk_ReadAnswer (display p) (str_len c) (b64_encode c) ∧ (str_len c ≤ fo_max_bytes pol)%Z) ∧
  (∀ a, file_checksum t pol path = Ok a → ∃ p c m tm, allowed t pol p ∧ canonical t p ∧
     t !! p = Some (File c m tm) ∧ a = mk_ChecksumAnswer (display p) (file_sha256_hex c) (str_len c)) ∧
  (∀ a, file_stat t pol path = Ok a → ∃ p n, allowed t pol p ∧ canonical t p ∧ t !! p = Some n ∧
     sa_path a = display p ∧ sa_size a = node_len n ∧ sa_is_dir a = node_is_dir n) ∧
  (∀ name es, file_list order t pol path = Ok (name, es) → ∃ p, allowed t pol p ∧ canonical t p ∧
     is_dir t p = true ∧ name = display p ∧ length es ≤ 1000 ∧
     ∀ e, e ∈ es → ∃ n, t !! (p ++ [le_name e]) = Some n ∧ le_is_dir e = node_is_dir n ∧ le_size e = node_len n).
Proof.
  intros Hs Ho. split_and!.
  - intros a. unfold file_read. rewrite outcome_bind_Ok. intros (raw & _ & Ha). revert Ha. rewrite outcome_bind_Ok.
    intros (p & [Hal Hc]%authorize_read & Ha); [|done]. revert Ha. rewrite outcome_bind_Ok.
    intros (n & Hn & Ha). destruct (Z.ltb_spec (fo_max_bytes pol) (node_len n)) as [|Hle]; [done|].
    revert Ha. rewrite outcome_bind_Ok. intros (c & (m & tm & Hf)%read_bytes_Ok & [= <-]).
    unfold metadata in Hn. rewrite Hf in Hn. injection Hn as <-. by exists p, c, m, tm.
  - intros a. unfold file_checksum. rewrite outcome_bind_Ok. intros (raw & _ & Ha). revert Ha. rewrite outcome_bind_Ok.
    intros (p & [Hal Hc]%authorize_read & Ha); [|done]. revert Ha. rewrite outcome_bind_Ok.
    intros (c & (m & tm & Hf)%read_bytes_Ok & [= <-]). by exists p, c, m, tm.
  - intros a. unfold file_stat. rewrite outcome_bind_Ok. intros (raw & _ & Ha). revert Ha. rewrite outcome_bind_Ok.
    intros (p & [Hal Hc]%authorize_read & Ha); [|done]. revert Ha. rewrite outcome_bind_Ok.
    intros (n & Hn & [= <-]). exists p, n. unfold metadata in Hn. destruct (t !! p) eqn:E; [|done].
    injection Hn as <-. done.
  - intros name es. unfold file_list. rewrite outcome_bind_Ok. intros (raw & _ & Ha). revert Ha. rewrite outcome_bind_Ok.
    intros (p & [Hal Hc]%authorize_read & Ha); [|done]. destruct (is_dir t p) eqn:Ed; [|done].
    injection Ha as <- <-. exists p. split_and!; try done.
    { rewrite length_fmap, length_take. lia. }
    intros e ([x n] & -> & Hin)%list_elem_of_fmap.
    apply elem_of_take in Hin as (i & Hin & _). apply list_elem_of_lookup_2, Ho in Hin.
    apply children_spec in Hin as (q & -> & Hq). by exists n.
Qed.
End serving.

(** ** What a write changes *)
Lemma below_dirs_insert t d x y n : below_dirs t (d ++ [y]) → below_dirs (<[d ++ [x] := n]> t) (d ++ [y]).
Proof.
  intros [Hd Hp]. split; [|done]. intros q z Hq. specialize (Hd q z Hq). unfold is_dir in *.
  rewrite lookup_insert_ne; [done|]. intros E. apply prefix_length in Hq.
  apply (f_equal length) in E. rewrite !length_app in *. cbn in *. lia.
Qed.
Lemma below_dirs_sibling t d x y : below_dirs t (d ++ [x]) → plain_name y → below_dirs t (d ++ [y]).
Proof.
  intros Hb Hy. apply below_dirs_snoc; [|by apply (bd_dirs _ _ Hb d x)|done].
  pose proof (below_dirs_removelast _ _ Hb) as H. by rewrite removelast_last in H.
Qed.
Lemma with_extension_snoc d x e : with_extension (d ++ [x]) e = d ++ [file_stem x +:+ "." +:+ e].
Proof. unfold with_extension. by rewrite last_snoc, removelast_last. Qed.
Lemma extension_plain s e : 2 ≤ String.length e → plain_name (s +:+ "." +:+ e).
Proof.
  intros He. assert (3 ≤ String.length (s +:+ "." +:+ e)) as Hl.
  { rewrite !text_length_app. cbn. lia. }
  split_and!; intros E; rewrite E in Hl; cbn in Hl; lia.
Qed.

Section writing.
Context `{FileCrates}.

Lemma open_truncated_spec mode t d x :
  below_dirs t (d ++ [x]) → not_link t (d ++ [x]) →
  open_truncated mode (d ++ [x]) t = None ∨
  ∃ m, open_truncated mode (d ++ [x]) t = Some (<[d ++ [x] := File "" m written_at]> t, d ++ [x], m).
Proof.
  intros Hb Hl. unfold open_truncated. rewrite walk_last by auto. cbn.
  destruct (t !! (d ++ [x])) as [[]|]; first [by left|right; by eexists].
Qed.
Lemma write_effect f t d x bytes t' ok :
  below_dirs t (d ++ [x]) → not_link t (d ++ [x]) → fs_write_bytes f (d ++ [x]) bytes t = (t', ok) →
  (t' = t ∧ ok = false) ∨
  ∃ c m, t' = <[d ++ [x] := File c m written_at]> t ∧ (ok = true → c = bytes).
Proof.
  intros Hb Hl. unfold fs_write_bytes. destruct (open_truncated_spec umask_mode t d x Hb Hl) as [->|[m ->]].
  - intros [= <- <-]. by left.
  - intros [= <- <-]. right. eexists _, m. rewrite insert_insert_eq. split; [done|]. by destruct f.
Qed.
Lemma copy_effect f t src d x t' ok :
  below_dirs t (d ++ [x]) → not_link t (d ++ [x]) → fs_copy_file f src (d ++ [x]) t = (t', ok) →
  (t' = t ∧ ok = false) ∨
  ∃ c m, t' = <[d ++ [x] := File c m written_at]> t ∧
    (ok = true → ∃ s c0 tm, walk false t MAX_LINKS [] src = Some s ∧ t !! s = Some (File c0 m tm) ∧
       (s ≠ d ++ [x] → c = c0)).
Proof.
  intros Hb Hl. unfold fs_copy_file. destruct (walk false t MAX_LINKS [] src) as [s|]; [|intros [= <- <-]; by left].
  destruct (t !! s) as [[c0 m0 tm| |]|] eqn:Es; [|intros [= <- <-]; by left..].
  destruct (open_truncated_spec m0 t d x Hb Hl) as [->|[m ->]]; intros [= <- <-]; [by left|].
  right. eexists _, m0. rewrite insert_insert_eq. split; [done|]. intros Hok. destruct f; [done|].
  exists s, c0, tm. split; [done|]. split; [done|]. intros Hne. by rewrite lookup_insert_ne, Es by done.
Qed.
Lemma rename_effect f t src dst t' ok :
  fs_rename f src dst t = (t', ok) →
  (t' = t ∧ (ok = true → src = dst)) ∨ ∃ n, t !! src = Some n ∧ t' = <[dst := n]> (delete src t) ∧ src ≠ dst ∧ ok = true.
Proof.
  unfold fs_rename. intros Hr. destruct (t !! src) as [n|]; [|injection Hr as <- <-; by left].
  destruct (t !! dst) as [[]|], f; try case_bool_decide;
    injection Hr as <- <-; first [by left|right; by exists n].
Qed.

(** the names a write uses beside its target. *)
Definition bak_of p : list string := with_extension p "guestkit-bak".
Definition tmp_of p : list string := with_extension p "guestkit-tmp".
(** what is at [p] when links are followed. *)
Definition resolved t p : option string :=
  match walk false t MAX_LINKS [] p ≫= (t !!.) with Some (File c _ _) => Some c | _ => None end.

Lemma bak_tmp_differ d x : bak_of (d ++ [x]) ≠ tmp_of (d ++ [x]).
Proof.
  unfold bak_of, tmp_of. rewrite !with_extension_snoc. intros [_ E]%app_inj_tail.
  by apply (inj (String.append (file_stem x))) in E.
Qed.

(** nothing but the target, the backup and the temporary file changes. *)
Definition only_at (qs : list (list string)) t t' : Prop := ∀ q, q ∉ qs → t' !! q = t !! q.
Lemma only_at_insert qs t q n : q ∈ qs → only_at qs t (<[q := n]> t).
Proof. intros Hq r Hr. rewrite lookup_insert_ne; [done|]. by intros ->. Qed.
Lemma only_at_delete qs t q : q ∈ qs → only_at qs t (delete q t).
Proof. intros Hq r Hr. rewrite lookup_delete_ne; [done|]. by intros ->. Qed.
Lemma only_at_trans qs t1 t2 t3 : only_at qs t1 t2 → only_at qs t2 t3 → only_at qs t1 t3.
Proof. intros H1 H2 q Hq. by rewrite H2, H1. Qed.

(** where the backup is what was there before. *)
Definition backed_up t t' p : Prop :=
  ∀ s c m tm, walk false t MAX_LINKS [] p = Some s → t !! s = Some (File c m tm) → s ≠ bak_of p →
    t' !! bak_of p = Some (File c m written_at).
Lemma backup_stage f p x d t t1 ok :
  p = d ++ [x] → below_dirs t p → not_link t (bak_of p) → not_link t (tmp_of p) →
  (if match walk false t MAX_LINKS [] p with Some _ => true | None => false end
   then fs_copy_file f p (bak_of p) t else (t, true)) = (t1, ok) →
  only_at [p; bak_of p; tmp_of p] t t1 ∧ (bak_of p ≠ p → t1 !! p = t !! p) ∧ below_dirs t1 (tmp_of p) ∧
  not_link t1 (tmp_of p) ∧ (ok = true → backed_up t t1 p).
Proof.
  intros -> Hb Hlb Hlt. pose proof (bak_tmp_differ d x) as Hbt.
  unfold backed_up, bak_of, tmp_of in *. rewrite !with_extension_snoc in *.
  set (xb := file_stem x +:+ "." +:+ "guestkit-bak") in *. set (xt := file_stem x +:+ "." +:+ "guestkit-tmp") in *.
  assert (plain_name xb ∧ plain_name xt) as [Hxb Hxt] by (split; apply extension_plain; cbn; lia).
  pose proof (below_dirs_sibling _ _ _ _ Hb Hxb) as Hbb. pose proof (below_dirs_sibling _ _ _ _ Hb Hxt) as Hbx.
  destruct (walk false t MAX_LINKS [] (d ++ [x])) as [s|] eqn:Ew; [|intros [= <- <-]; by split_and!].
  intros [[-> ->]|(c & m & -> & Hc)]%copy_effect; [by split_and!| |done..]. split_and!.
  - apply only_at_insert. rewrite !elem_of_cons. auto.
  - intros Hne. by rewrite lookup_insert_ne.
  - by apply below_dirs_insert.
  - intros target. rewrite lookup_insert_ne by done. apply Hlt.
  - intros (s1 & c0 & tm & Hw & Hs & Hcc)%Hc s' c' m' tm' [= ->] Hs' Hne.
    rewrite Ew in Hw. injection Hw as ->. rewrite Hs in Hs'. injection Hs' as -> -> ->.
    rewrite lookup_insert_eq. by rewrite Hcc.
Qed.
Lemma swap_stage f g p d x y bytes t t2 t3 ok2 ok3 :
  p = d ++ [x] → below_dirs t (d ++ [y]) → not_link t (d ++ [y]) →
  fs_write_bytes f (d ++ [y]) bytes t = (t2, ok2) →
  (if ok2 then fs_rename g (d ++ [y]) p t2 else (t2, false)) = (t3, ok3) →
  only_at [p; d ++ [y]] t t3 ∧
  (d ++ [y] ≠ p → if ok3 then (∃ m, t3 !! p = Some (File bytes m written_at)) ∧ t3 !! (d ++ [y]) = None
                  else t3 !! p = t !! p).
Proof.
  intros -> Hb Hl Hw Hr. apply write_effect in Hw as [[-> ->]|(c & m & -> & Hc)]; [| |done..].
  { injection Hr as <- <-. split; [by intros q|done]. }
  set (t2 := <[d ++ [y] := File c m written_at]> t) in *.
  assert (only_at [d ++ [x]; d ++ [y]] t t2) as Ho by (apply only_at_insert; set_solver).
  assert (d ++ [y] ≠ d ++ [x] → t2 !! (d ++ [x]) = t !! (d ++ [x])) as Hx.
  { intros Hne. unfold t2. by rewrite lookup_insert_ne. }
  destruct ok2; [|injection Hr as <- <-; done].
  apply rename_effect in Hr as [[-> Hok]|(n & Hn & -> & Hne & ->)].
  - split; [done|]. intros Hne. destruct ok3; [by destruct (Hne (Hok eq_refl))|by apply Hx].
  - split.
    { eapply only_at_trans; [exact Ho|]. eapply only_at_trans; [apply only_at_delete|apply only_at_insert]; set_solver. }
    intros _. unfold t2 in Hn. rewrite lookup_insert_eq, (Hc eq_refl) in Hn. injection Hn as <-.
    rewrite lookup_insert_eq, lookup_insert_ne, lookup_delete_eq by done. eauto.
Qed.
Lemma replace_spec fl d x p bytes t t' r :
  p = d ++ [x] → below_dirs t p → not_link t (bak_of p) → not_link t (tmp_of p) →
  replace_file fl p bytes t = (t', r) →
  only_at [p; bak_of p; tmp_of p] t t' ∧
  (bak_of p ≠ p → tmp_of p ≠ p →
   match r with
   | Ok a => wa_path a = display p ∧ (∃ m, t' !! p = Some (File bytes m written_at)) ∧ t' !! tmp_of p = None ∧
       backed_up t t' p
   | _ => t' !! p = t !! p
   end).
Proof.
  intros Hp Hb Hlb Hlt. unfold replace_file. fold (bak_of p) (tmp_of p).
  assert (bak_of p ≠ tmp_of p) as Hbt by (subst; apply bak_tmp_differ).
  match goal with |- context [let '(_, _) := ?e in _] => destruct e as [t1 ok1] eqn:E1 end.
  apply (backup_stage _ p x d) in E1 as (Ho1 & Hp1 & Hbd1 & Hl1 & Hbk1); try done.
  destruct ok1; [|intros [= <- <-]; split; [done|intros Hbp _; by apply Hp1]]. specialize (Hbk1 eq_refl).
  destruct (fs_write_bytes (fl_write fl) (tmp_of p) bytes t1) as [t2 ok2] eqn:E2.
  match goal with |- context [let '(_, _) := ?e in _] => destruct e as [t3 ok3] eqn:E3 end.
  intros [= <- <-].
  assert (∃ y, tmp_of p = d ++ [y]) as [y Hy].
  { rewrite Hp. unfold tmp_of. rewrite with_extension_snoc. by eexists. }
  rewrite Hy in *. destruct (swap_stage _ _ p d x y bytes t1 t2 t3 ok2 ok3 Hp Hbd1 Hl1 E2 E3) as [Ho3 H3].
  split; [intros q Hq; rewrite Ho3, Ho1 by set_solver; done|]. intros Hbp Htp. specialize (H3 Htp).
  destruct ok3; [|by rewrite H3, Hp1]. destruct H3 as [H3 H3']. split_and!; [done..|].
  intros s c m tm Hw Hs Hne. rewrite Ho3; [by eapply Hbk1|]. rewrite !elem_of_cons. intros [E|[E|E%elem_of_nil]]; done.
Qed.

Lemma replace_dir fl p bytes t :
  is_dir t [] = true → below_dirs t p → is_dir t p = true → replace_file fl p bytes t = (t, Err FoIo).
Proof.
  intros Hr Hb Hd. unfold replace_file, fs_copy_file.
  rewrite walk_canonical_id by (done || by apply is_dir_canonical). unfold is_dir in Hd.
  by destruct (t !! p) as [[]|].
Qed.
(** no link has the name of a backup or of a temporary file. *)
Definition no_planted t : Prop := ∀ d x, not_link t (bak_of (d ++ [x])) ∧ not_link t (tmp_of (d ++ [x])).
(** the allowed paths are directories. *)
Definition allowed_dirs t pol : Prop :=
  ∀ prefix pre, prefix ∈ fo_allowed_paths pol → canonicalize t prefix = Some pre → is_dir t pre = true.

Lemma walk_under_file c t n d y : is_dir t [] = true → canonical t d → is_dir t d = false → walk c t n [] (d ++ [y]) = None.
Proof.
  intros Hr (Hb & Hn & Hl) Hd. destruct d as [|w l]; [congruence|].
  destruct (exists_last (l := w :: l)) as (k & z & E); [done|]. rewrite E in *. clear E.
  pose proof Hb as [Hdirs Hp]. apply Forall_app in Hp as [Hp Hz]. rewrite Forall_singleton in Hz.
  rewrite <-app_assoc, (walk_dirs c t n k []); [|intros q [j ->]|done].
  - cbn [app]. rewrite walk_cons, (Hdirs k z) by done. destruct (plain_name_eqb z Hz) as [-> ->].
    destruct Hn as [m Hm]. rewrite Hm. destruct m; [by rewrite walk_cons, Hd..|by destruct (Hl target)].
  - destruct j as [|v j]; [rewrite app_nil_r in *; by apply (Hdirs q z)|]. apply (Hdirs q v).
    exists (j ++ [z]). by rewrite <-!app_assoc.
Qed.
Lemma replace_under_file fl d x bytes t :
  is_dir t [] = true → canonical t d → is_dir t d = false → replace_file fl (d ++ [x]) bytes t = (t, Err FoIo).
Proof.
  intros Hr Hc Hd. unfold replace_file. rewrite walk_under_file by done.
  unfold fs_write_bytes, open_truncated. rewrite with_extension_snoc. by rewrite walk_under_file.
Qed.

(** where a write goes: nowhere, or to a name in a directory. *)
Lemma write_goes fl t pol path data t' r :
  sane t → file_write fl pol path data t = (t', r) →
  (t' = t ∧ (∀ a, r ≠ Ok a)) ∨
  ∃ d x bytes, write_request t pol path data = Ok (d ++ [x], bytes) ∧ allowed t pol (d ++ [x]) ∧
    below_dirs t (d ++ [x]) ∧ is_dir t (d ++ [x]) = false ∧ (str_len bytes ≤ fo_max_bytes pol)%Z ∧
    replace_file fl (d ++ [x]) bytes t = (t', r).
Proof.
  intros Hs. unfold file_write. destruct (write_request t pol path data) as [[p bytes]|e|] eqn:Ew;
    [|intros [= <- <-]; by left..].
  intros Hrep. unfold write_request in Ew. apply outcome_bind_Ok in Ew as (raw & _ & Ew).
  apply outcome_bind_Ok in Ew as (dt & _ & Ew). apply outcome_bind_Ok in Ew as (b & _ & Ew).
  destruct (Z.ltb_spec (fo_max_bytes pol) (str_len b)) as [|Hle]; [done|].
  apply outcome_bind_Ok in Ew as (q & Hq & [= -> ->]).
  destruct (authorize_spec t pol raw true p Hs Hq) as [Ha Hc].
  assert ((t' = t ∧ r = Err FoIo) ∨ (below_dirs t p ∧ is_dir t p = false)) as [[-> ->]|[Hb Hd]]; [|by left|].
  { assert (below_dirs t p → (t' = t ∧ r = Err FoIo) ∨ (below_dirs t p ∧ is_dir t p = false)) as Hbd.
    { intros Hb. destruct (is_dir t p) eqn:Ed; [left|by right].
      rewrite replace_dir in Hrep by (done || apply Hs). by injection Hrep as <- <-. }
    destruct Hc as [[Hb _]|(_ & _ & d & x & -> & Hcd & Hx)]; [by apply Hbd|].
    destruct (is_dir t d) eqn:Edir; [apply Hbd, below_dirs_snoc; [apply Hcd|done|done]|].
    left. rewrite replace_under_file in Hrep by (done || apply Hs). by injection Hrep as <- <-. }
  right. destruct p as [|y l]; [by rewrite (sane_root t Hs) in Hd|].
  destruct (exists_last (l := y :: l)) as (k & z & E); [done|]. rewrite E in *. by exists k, z, bytes.
Qed.

(** a name at which a file can be put. *)
Definition free t p : Prop := not_link t p ∧ is_dir t p = false.
Lemma free_lookup t p : free t p → t !! p = None ∨ ∃ c m tm, t !! p = Some (File c m tm).
Proof.
  unfold free, is_dir. intros [Hl Hd]. destruct (t !! p) as [[c m tm| |target]|] eqn:E; [eauto 6|done| |by left].
  by destruct (Hl target).
Qed.
Lemma free_insert t p q c m tm : free t q → free (<[p := File c m tm]> t) q.
Proof.
  intros [Hl Hd]. unfold free, not_link, is_dir in *. destruct (decide (p = q)) as [->|Hne].
  - by rewrite lookup_insert_eq.
  - by rewrite lookup_insert_ne.
Qed.
Lemma open_truncated_free mode t d x :
  below_dirs t (d ++ [x]) → free t (d ++ [x]) →
  ∃ m, open_truncated mode (d ++ [x]) t = Some (<[d ++ [x] := File "" m written_at]> t, d ++ [x], m).
Proof.
  intros Hb Hf. unfold open_truncated. rewrite walk_last by (destruct Hf; auto). cbn.
  destruct (free_lookup _ _ Hf) as [->|(c & m & tm & ->)]; by eexists.
Qed.
Lemma write_free t d x bytes :
  below_dirs t (d ++ [x]) → free t (d ++ [x]) →
  ∃ m, fs_write_bytes None (d ++ [x]) bytes t = (<[d ++ [x] := File bytes m written_at]> t, true).
Proof.
  intros Hb Hf. unfold fs_write_bytes. destruct (open_truncated_free umask_mode t d x Hb Hf) as [m ->].
  exists m. by rewrite insert_insert_eq.
Qed.
Lemma rename_free t src dst n : t !! src = Some n → free t dst → ∃ t', fs_rename false src dst t = (t', true).
Proof.
  intros Hs Hf. unfold fs_rename. rewrite Hs.
  destruct (free_lookup _ _ Hf) as [->|(c & m & tm & ->)]; case_bool_decide; by eexists.
Qed.
Lemma copy_free t d x y :
  below_dirs t (d ++ [x]) → below_dirs t (d ++ [y]) → free t (d ++ [x]) → free t (d ++ [y]) →
  ∃ t1, (if match walk false t MAX_LINKS [] (d ++ [x]) with Some _ => true | None => false end
         then fs_copy_file None (d ++ [x]) (d ++ [y]) t else (t, true)) = (t1, true) ∧
    (t1 = t ∨ ∃ c m tm, t1 = <[d ++ [y] := File c m tm]> t).
Proof.
  intros Hbx Hby Hx Hy. destruct (free_lookup _ _ Hx) as [Hn|(c & m & tm & Hp)].
  - exists t. split; [|by left]. rewrite walk_parent, walk_cons, Hn by done.
    destruct Hbx as [_ Hpl]. apply Forall_app in Hpl as [_ Hpl]. rewrite Forall_singleton in Hpl.
    destruct (plain_name_eqb x Hpl) as [-> ->]. by destruct (is_dir t d).
  - unfold fs_copy_file. rewrite walk_last by (destruct Hx; eauto). rewrite Hp.
    destruct (open_truncated_free m t d y Hby Hy) as [m' ->]. eexists. split; [reflexivity|]. right.
    rewrite insert_insert_eq. by eexists _, _, _.
Qed.
Lemma replace_answers d x bytes t :
  below_dirs t (d ++ [x]) → free t (d ++ [x]) → free t (bak_of (d ++ [x])) → free t (tmp_of (d ++ [x])) →
  ∃ t' a, replace_file no_faults (d ++ [x]) bytes t = (t', Ok a).
Proof.
  intros Hb Hx. unfold replace_file, bak_of, tmp_of. rewrite !with_extension_snoc.
  set (xb := file_stem x +:+ "." +:+ "guestkit-bak"). set (xt := file_stem x +:+ "." +:+ "guestkit-tmp").
  intros Hfb Hft. assert (plain_name xb ∧ plain_name xt) as [Hxb Hxt] by (split; apply extension_plain; cbn; lia).
  pose proof (below_dirs_sibling _ _ _ _ Hb Hxb) as Hbb. pose proof (below_dirs_sibling _ _ _ _ Hb Hxt) as Hbx.
  destruct (copy_free t d x xb Hb Hbb Hx Hfb) as (t1 & Hc & Ht1). cbn [fl_copy fl_write fl_rename no_faults].
  rewrite Hc.
  assert (below_dirs t1 (d ++ [xt]) ∧ free t1 (d ++ [xt]) ∧ free t1 (d ++ [x])) as (Hb1 & Hf1 & Hx1).
  { destruct Ht1 as [->|(c & m & tm & ->)]; [done|].
    split_and!; [by apply below_dirs_insert|by apply free_insert..]. }
  destruct (write_free t1 d xt bytes Hb1 Hf1) as [m ->].
  destruct (rename_free (<[d ++ [xt] := File bytes m written_at]> t1) (d ++ [xt]) (d ++ [x])
    (File bytes m written_at)) as [t' ->]; [by rewrite lookup_insert_eq|by apply free_insert|].
  by eexists _, _.
Qed.

(** C22: a write changes nothing outside the allowed paths, whatever fails on the way and
    whatever links the requested path goes through, provided that the allowed paths are
    directories and that no link carries the name of a backup or temporary file. *)
Theorem write_below_allowed fl t pol path data t' r :
  sane t → no_planted t → allowed_dirs t pol → file_write fl pol path data t = (t', r) →
  ∀ q, t' !! q ≠ t !! q → allowed t pol q.
Proof.
  intros Hs Hn Had [[-> _]|(d & x & bytes & _ & Ha & Hb & Hd & _ & Hrep)]%write_goes q Hq; [done| |done].
  destruct (Hn d x) as [Hlb Hlt].
  destruct (replace_spec fl d x _ bytes t t' r eq_refl Hb Hlb Hlt Hrep) as [Ho _].
  destruct Ha as (prefix & pre & Hin & Hpre & [k Hk]). exists prefix, pre. split; [done|]. split; [done|].
  assert (∃ j, d = pre ++ j) as [j ->].
  { destruct k as [|y k]; [rewrite app_nil_r in Hk; subst pre; by rewrite (Had _ _ Hin Hpre) in Hd|].
    destruct (exists_last (l := y :: k)) as (k' & z & E); [done|]. rewrite E, app_assoc in Hk.
    apply app_inj_tail in Hk as [-> _]. by exists k'. }
  assert (∃ y, q = (pre ++ j) ++ [y]) as [y ->]; [|exists (j ++ [y]); by rewrite app_assoc].
  destruct (decide (q ∈ [(pre ++ j) ++ [x]; bak_of ((pre ++ j) ++ [x]); tmp_of ((pre ++ j) ++ [x])])) as [E|E];
    [|by destruct (Hq (Ho q E))].
  unfold bak_of, tmp_of in E. rewrite !with_extension_snoc in E. rewrite !elem_of_cons in E.
  destruct E as [->|[->|[->|E%elem_of_nil]]]; [by eexists..|done].
Qed.

(** C8: a write that is admitted replaces its target [p] as a whole or not at all, at
    whatever point a call fails, in a tree whose root and working directory are
    directories, when [p] is not itself named like a backup or a temporary file (its
    backup and temporary names differ from it: [backup_of_backup] shows what happens
    otherwise) and no link stands at its backup name or at its temporary name.  When the
    write answers, the target holds the bytes of the request, the temporary file is gone
    and, where the target led to a file that is not itself the backup, the backup holds
    what that file held; when it does not answer, the target is as it was.  A write in
    which no call fails answers when the target is below directories and neither a
    link nor a directory stands at the target, its backup name or its temporary name. *)
Theorem write_all_or_nothing fl t pol path data p bytes t' r :
  sane t → write_request t pol path data = Ok (p, bytes) → bak_of p ≠ p → tmp_of p ≠ p →
  not_link t (bak_of p) → not_link t (tmp_of p) →
  file_write fl pol path data t = (t', r) →
  match r with
  | Ok a => wa_path a = display p ∧ (∃ m, t' !! p = Some (File bytes m written_at)) ∧ t' !! tmp_of p = None ∧
      backed_up t t' p
  | _ => t' !! p = t !! p ∧ (fl = no_faults → below_dirs t p → ¬ (free t p ∧ free t (bak_of p) ∧ free t (tmp_of p)))
  end.
Proof.
  intros Hs Hreq Hbp Htp Hlb Hlt Hw.
  assert ((∀ a, r ≠ Ok a) → fl = no_faults → below_dirs t p →
    ¬ (free t p ∧ free t (bak_of p) ∧ free t (tmp_of p))) as Hans.
  { intros Hr -> Hb (Hf & Hfb & Hft). unfold file_write in Hw. rewrite Hreq in Hw.
    destruct p as [|y l]; [destruct Hf as [_ Hf]; by rewrite (sane_root t Hs) in Hf|].
    destruct (exists_last (l := y :: l)) as (k & z & E); [done|]. rewrite E in *.
    destruct (replace_answers k z bytes t Hb Hf Hfb Hft) as (t'' & a & Ha). rewrite Ha in Hw.
    injection Hw as _ <-. by apply (Hr a). }
  apply write_goes in Hw as [[-> Hr]|(d & x & b & Hreq' & _ & Hb & _ & _ & Hrep)]; [| |done].
  - destruct r as [a|e|]; [by destruct (Hr a)|auto|auto].
  - rewrite Hreq in Hreq'. injection Hreq' as -> ->.
    destruct (replace_spec fl d x _ b t t' r eq_refl Hb Hlb Hlt Hrep) as [_ H1]. specialize (H1 Hbp Htp).
    destruct r as [a|e|]; [done|split; [done|by apply Hans]..].
Qed.
End writing.

(** ** Examples *)
Definition toy_crates : FileCrates := {|
  b64_encode s := "b64:" +:+ s;
  b64_decode s := if starts_with "b64:" s then Some (str_drop 4 s) else None;
  file_sha256_hex s := "sha256 of " +:+ s;
  cwd := [];
  written_at := Some 7%Z;
  umask_mode := 420
|}.
Definition toy_dir : node := Dir 4096 493 None.
Definition toy_file (s : string) : node := File s 420 None.
Definition toy_tree (links : list (list string * node)) : tree :=
  list_to_map (links ++
    [([], toy_dir); (["etc"], toy_dir); (["etc"; "shadow"], toy_file "root:secret"); (["srv"], toy_dir);
     (["srv"; "app"], toy_dir); (["srv"; "app"; "a.conf"], toy_file "old")]).
Definition toy_policy : FileOpsPolicy := mk_FileOpsPolicy true ["/srv/app"] 1024.
Notation toy_write links raw :=
  (@file_write toy_crates no_faults toy_policy (Some raw) (Some "b64:new") (toy_tree links)).
Notation toy_read t raw := (@file_read toy_crates t toy_policy (Some raw)).

(** a link that is there under the name of the temporary file is followed: the write goes
    to the file it names, and the target becomes the link. *)
Example planted_link_escapes :
  let t' := (toy_write [(["srv"; "app"; "a.guestkit-tmp"], Link "/etc/shadow")] "/srv/app/a.conf").1 in
  t' !! ["etc"; "shadow"] = Some (File "new" 420 (Some 7%Z)) ∧ t' !! ["srv"; "app"; "a.conf"] = Some (Link "/etc/shadow").
Proof. split; reflexivity. Qed.
(** a slash after the name of a link to a file outside makes the write back that file up
    where it can be read. *)
Example trailing_slash_leaks :
  let links := [(["srv"; "app"; "log"], Link "/etc/shadow")] in
  toy_read (toy_tree links) "/srv/app/log" = Err (OutsideAllowed "/etc/shadow") ∧
  (let t' := (toy_write links "/srv/app/log/").1 in
   toy_read t' "/srv/app/log.guestkit-bak" = Ok (mk_ReadAnswer "/srv/app/log.guestkit-bak" 11 "b64:root:secret")).
Proof. split; reflexivity. Qed.
(** an allowed path that is a file allows its neighbours. *)
Example single_file_policy :
  let pol := mk_FileOpsPolicy true ["/etc/shadow"] 1024 in
  let t' := (@file_write toy_crates no_faults pol (Some "/etc/shadow") (Some "b64:new") (toy_tree [])).1 in
  t' !! ["etc"; "shadow.guestkit-bak"] = Some (File "root:secret" 420 (Some 7%Z)).
Proof. reflexivity. Qed.
(** names that differ in their extension share their backup. *)
Example shared_backup :
  let t1 := (toy_write [(["srv"; "app"; "a.txt"], toy_file "notes")] "/srv/app/a.conf").1 in
  let t2 := (@file_write toy_crates no_faults toy_policy (Some "/srv/app/a.txt") (Some "b64:new") t1).1 in
  t1 !! ["srv"; "app"; "a.guestkit-bak"] = Some (File "old" 420 (Some 7%Z)) ∧
  t2 !! ["srv"; "app"; "a.guestkit-bak"] = Some (File "notes" 420 (Some 7%Z)).
Proof. split; reflexivity. Qed.
(** a write to a backup empties it before it is copied onto itself. *)
Example backup_of_backup :
  let t' := (@file_write toy_crates (mk_faults None (Some 0) false) toy_policy (Some "/srv/app/a.guestkit-bak")
    (Some "b64:new") (toy_tree [(["srv"; "app"; "a.guestkit-bak"], toy_file "precious")])) in
  t'.1 !! ["srv"; "app"; "a.guestkit-bak"] = Some (File "" 420 (Some 7%Z)) ∧ t'.2 = Err FoIo.
Proof. split; reflexivity. Qed.

Notation toy := (toy_tree []).
Lemma toy_no_links p target : toy !! p ≠ Some (Link target).
Proof.
  intros H%elem_of_list_to_map_2. unfold toy_dir, toy_file in H. cbn [app] in H.
  repeat (apply elem_of_cons in H as [H|H]; [discriminate H|]). apply elem_of_nil in H. destruct H.
Qed.
Lemma toy_sane : @sane toy_crates toy.
Proof. split; [reflexivity|]. by apply root_canonical. Qed.
Lemma toy_no_planted : no_planted toy.
Proof. intros d x. split; intros target; apply toy_no_links. Qed.
Lemma toy_allowed_dirs : @allowed_dirs toy_crates toy toy_policy.
Proof.
  intros prefix pre Hin Hc. cbn in Hin. apply list_elem_of_singleton in Hin as ->.
  vm_compute in Hc. injection Hc as <-. reflexivity.
Qed.

Lemma served_below_allowed_witness :
  ∃ p c m tm, @allowed toy_crates toy toy_policy p ∧ toy !! p = Some (File c m tm) ∧
    mk_ReadAnswer "/srv/app/a.conf" 3 "b64:old" = mk_ReadAnswer (display p) (str_len c) (@b64_encode toy_crates c).
Proof.
  destruct (@served_below_allowed toy_crates id toy toy_policy (Some "/srv/app/../app/a.conf") toy_sane
    (fun l x Hx => Hx)) as [Hr _].
  destruct (Hr (mk_ReadAnswer "/srv/app/a.conf" 3 "b64:old") ltac:(reflexivity)) as (p & c & m & tm & Ha & _ & Hp & E & _).
  exists p, c, m, tm. split; [exact Ha|]. split; [exact Hp|exact E].
Defined.
Lemma write_below_allowed_witness :
  (toy_write [] "/srv/app/a.conf").1 !! ["srv"; "app"; "a.conf"] = Some (File "new" 420 (Some 7%Z)) ∧
  @allowed toy_crates toy toy_policy ["srv"; "app"; "a.conf"].
Proof.
  assert ((toy_write [] "/srv/app/a.conf").1 !! ["srv"; "app"; "a.conf"] = Some (File "new" 420 (Some 7%Z))) as Hn
    by reflexivity.
  split; [exact Hn|]. destruct (toy_write [] "/srv/app/a.conf") as [t' r] eqn:E.
  apply (@write_below_allowed toy_crates no_faults toy toy_policy _ _ t' r toy_sane toy_no_planted toy_allowed_dirs E).
  cbn [fst] in Hn. rewrite Hn. vm_compute. discriminate.
Defined.
Lemma write_all_or_nothing_witness :
  let '(t', r) := @file_write toy_crates (mk_faults None (Some 1) false) toy_policy (Some "/srv/app/a.conf")
    (Some "b64:new") toy in
  match r with Ok _ => False | _ => t' !! ["srv"; "app"; "a.conf"] = toy !! ["srv"; "app"; "a.conf"] end.
Proof.
  destruct (@file_write toy_crates (mk_faults None (Some 1) false) toy_policy (Some "/srv/app/a.conf")
    (Some "b64:new") toy) as [t' r] eqn:E.
  assert (r = Err FoIo) as Hr by (apply (f_equal snd) in E; vm_compute in E; by rewrite <-E).
  assert (bak_of ["srv"; "app"; "a.conf"] ≠ ["srv"; "app"; "a.conf"]) as H1 by (vm_compute; discriminate).
  assert (tmp_of ["srv"; "app"; "a.conf"] ≠ ["srv"; "app"; "a.conf"]) as H2 by (vm_compute; discriminate).
  assert (@write_request toy_crates toy toy_policy (Some "/srv/app/a.conf") (Some "b64:new") =
    Ok (["srv"; "app"; "a.conf"], "new")) as H3 by reflexivity.
  pose proof (@write_all_or_nothing toy_crates _ toy toy_policy _ _ _ "new" t' r toy_sane H3 H1 H2 (toy_no_links _) (toy_no_links _) E) as H.
  rewrite Hr in H |- *. exact (proj1 H).
Defined.
