(* ===== verification/ControlAuth.v ===== *)
(** * Who may call the control plane

    [crates/zyvor-api/src/auth] (types, tokens, revocation, roles, middleware), the route
    table of [routes/mod.rs], the settings and log-in handlers of [routes/settings.rs] and
    [routes/auth.rs], and the start-up checks of [config.rs].

    A request is served by [serve]: the middleware decides, then the router picks the
    handler whose pattern fits the path, a literal segment before a parameter, as the
    router crate documents; a [get] route also answers [HEAD].  Redis is a map of keys
    with an expiry time and a map of sets, the clock is in seconds, and a failing
    connection is [rd_up = false].  Tokens are made and read by the JWT crate
    ([JwtCrate]), whose documented checks are the laws [JwtLaws]: the signature, the issuer
    and, when asked, the expiry with the default leeway of 60 seconds. *)
From stdpp Require Import base gmap strings list.
From Stdlib Require Import ZArith Lia Ascii.
From S2P Require Import Prelude RustStr.

(** ** Types *)
Definition ROLE_ADMIN : string := "admin".
Definition ROLE_OPERATOR : string := "operator".
Definition ROLE_VIEWER : string := "viewer".
Record IdentitySettings : Type := mk_IdentitySettings {
  id_allow_local_bypass : bool;
  id_default_role : string;
  id_session_hours : Z;
  id_role_claim : string;
  id_admin_roles : list string;
  id_admin_emails : list string
}.
Record OidcSettings : Type := mk_OidcSettings {
  oi_enabled : bool;
  oi_issuer_url : string;
  oi_client_id : string;
  oi_client_secret : option string;
  oi_scopes : list string;
  oi_button_label : string
}.
Record SamlSettings : Type := mk_SamlSettings {
  sm_enabled : bool;
  sm_entity_id : string;
  sm_sso_url : string;
  sm_metadata_url : string;
  sm_certificate_pem : string;
  sm_name_id_format : string;
  sm_button_label : string
}.
Record AuthSettings : Type := mk_AuthSettings {
  as_identity : IdentitySettings;
  as_oidc : OidcSettings;
  as_saml : SamlSettings
}.
Record AuthUserClaims : Type := mk_AuthUserClaims {
  au_sub : string;
  au_email : option string;
  au_name : option string;
  au_role : string;
  au_provider : string;
  au_jti : option string
}.
Record ApiError : Type := mk_ApiError { ae_status : Z; ae_error : string; ae_message : string }.
Definition api_bad_request (m : string) : ApiError := mk_ApiError 400 "BAD_REQUEST" m.
Definition api_internal (m : string) : ApiError := mk_ApiError 500 "INTERNAL_ERROR" m.
Definition api_unauthorized (m : string) : ApiError := mk_ApiError 401 "UNAUTHORIZED" m.
Definition api_forbidden (m : string) : ApiError := mk_ApiError 403 "FORBIDDEN" m.
Notation api := (outcome ApiError).

Definition IdentitySettings_defaults : IdentitySettings :=
  mk_IdentitySettings false ROLE_OPERATOR 24 "groups" ["admin"; "guestkit-admin"] [].
(** the derived [Default]s. *)
Definition default_OidcSettings : OidcSettings := mk_OidcSettings false "" "" None [] "".
Definition default_SamlSettings : SamlSettings := mk_SamlSettings false "" "" "" "" "" "".
Definition default_AuthSettings : AuthSettings :=
  mk_AuthSettings (mk_IdentitySettings false "" 0 "" [] []) default_OidcSettings default_SamlSettings.
Definition AuthSettings_defaults : AuthSettings :=
  mk_AuthSettings IdentitySettings_defaults default_OidcSettings default_SamlSettings.
Definition session_secs (s : AuthSettings) : Z := (Z.max (id_session_hours (as_identity s)) 1 * 3600)%Z.

(** ** Configuration *)
Record ApiConfig : Type := mk_ApiConfig {
  cf_auth_enabled : bool;
  cf_jwt_secret : string;
  cf_jwt_issuer : string;
  cf_default_role : string;
  cf_agent_bootstrap_token : option string;
  cf_agent_mtls_bind_addr : option string
}.
Definition truthy `{Platform} (v : string) : bool :=
  existsb (String.eqb (to_lowercase v)) ["1"; "true"; "yes"; "on"].
Definition present (v : option string) : option string :=
  v ≫= fun s => if trim_is_empty s then None else Some s.
Definition jwt_secret_of (auth_enabled : bool) (v : option string) : option string :=
  match v with
  | Some s =>
      if negb (trim_is_empty s) && negb (String.eqb s "change-me-in-production") then Some s
      else if auth_enabled then None else Some "dev-local-auth-disabled"
  | None => if auth_enabled then None else Some "dev-local-auth-disabled"
  end.
Definition validate_agent_bootstrap_requirements (auth_enabled : bool) (mtls token : option string) : bool :=
  negb (auth_enabled && bool_decide (token = None)) &&
  negb (bool_decide (is_Some mtls) && bool_decide (token = None)).
(** the parts of [from_env] that decide on access; [None]: the service does not start. *)
Definition Config_from_env `{Platform} (env : string → option string) : option ApiConfig :=
  let auth_enabled := default false (truthy <$> env "AUTH_ENABLED") in
  secret ← jwt_secret_of auth_enabled (env "JWT_SECRET");
  let token := present (env "AGENT_BOOTSTRAP_TOKEN") in
  let mtls := present (env "AGENT_MTLS_BIND_ADDR") in
  if validate_agent_bootstrap_requirements auth_enabled mtls token then
    Some (mk_ApiConfig auth_enabled secret (default "guestkit" (env "JWT_ISSUER"))
      (default "operator" (env "DEFAULT_ROLE")) token mtls)
  else None.

(** ** Redis *)
Record redis : Type := mk_redis {
  rd_up : bool;
  rd_now : Z;
  rd_keys : gmap string (string * option Z);
  rd_sets : gmap string (gset string)
}.
Definition rd_get (r : redis) (k : string) : option string :=
  match rd_keys r !! k with
  | Some (v, None) => Some v
  | Some (v, Some until) => if (rd_now r <? until)%Z then Some v else None
  | None => None
  end.
Definition rd_put (k : string) (v : string) (ttl : option Z) (r : redis) : redis :=
  mk_redis (rd_up r) (rd_now r) (<[k := (v, (fun s => (rd_now r + s)%Z) <$> ttl)]> (rd_keys r)) (rd_sets r).
Definition rd_members (r : redis) (k : string) : gset string := default ∅ (rd_sets r !! k).
Definition rd_add (k v : string) (r : redis) : redis :=
  mk_redis (rd_up r) (rd_now r) (rd_keys r) (<[k := {[v]} ∪ rd_members r k]> (rd_sets r)).
Definition rd_rem (k v : string) (r : redis) : redis :=
  mk_redis (rd_up r) (rd_now r) (rd_keys r) (<[k := rd_members r k ∖ {[v]}]> (rd_sets r)).
Definition at_time (t : Z) (r : redis) : redis := mk_redis (rd_up r) t (rd_keys r) (rd_sets r).

Definition REVOKED_PREFIX : string := "auth:revoked:".
Definition revoke_jti (jti : string) (ttl_secs : Z) (r : redis) : redis * api () :=
  if is_empty jti || (ttl_secs =? 0)%Z then (r, Ok ())
  else if rd_up r then (rd_put (REVOKED_PREFIX +:+ jti) "1" (Some ttl_secs) r, Ok ())
  else (r, Err (api_internal "redis")).
Definition is_revoked (jti : string) (r : redis) : api bool :=
  if is_empty jti then Ok false
  else if rd_up r then Ok (bool_decide (is_Some (rd_get r (REVOKED_PREFIX +:+ jti))))
  else Err (api_internal "redis").

(** ** Tokens *)
Record JwtClaims : Type := mk_JwtClaims {
  jc_sub : string;
  jc_email : option string;
  jc_name : option string;
  jc_role : string;
  jc_provider : string;
  jc_iss : string;
  jc_exp : Z;
  jc_iat : Z;
  jc_jti : string
}.
Class JwtCrate := {
  (** HS256 with a secret *)
  jwt_encode : string → JwtClaims → option string;
  (** the time, the secret, the issuer, whether the expiry is checked, the token *)
  jwt_decode : Z → string → string → bool → string → option JwtClaims
}.
Definition JWT_LEEWAY : Z := 60.
Class JwtLaws `{JwtCrate} := {
  jwt_decode_encode : ∀ now secret iss check c tok, jwt_encode secret c = Some tok →
    jwt_decode now secret iss check tok =
    if String.eqb (jc_iss c) iss && (negb check || (now - JWT_LEEWAY <=? jc_exp c)%Z) then Some c else None
}.

Section tokens.
Context `{JwtCrate}.

(** [fresh]: a new identifier, for a user without one. *)
Definition claims_of (cf : ApiConfig) (now : Z) (fresh : string) (u : AuthUserClaims) (expiry_secs : Z) : JwtClaims :=
  mk_JwtClaims (au_sub u) (au_email u) (au_name u) (au_role u) (au_provider u) (cf_jwt_issuer cf)
    (now + Z.max expiry_secs 60)%Z now (default fresh (au_jti u)).
Definition issue_token (cf : ApiConfig) (now : Z) (fresh : string) (u : AuthUserClaims) (expiry_secs : Z)
    : option string :=
  jwt_encode (cf_jwt_secret cf) (claims_of cf now fresh u expiry_secs).
Definition verify_jwt (cf : ApiConfig) (now : Z) (token : string) : option AuthUserClaims :=
  (fun c => mk_AuthUserClaims (jc_sub c) (jc_email c) (jc_name c) (jc_role c) (jc_provider c) (Some (jc_jti c)))
  <$> jwt_decode now (cf_jwt_secret cf) (cf_jwt_issuer cf) true token.
Definition token_remaining_secs (cf : ApiConfig) (now : Z) (token : string) : option Z :=
  _ ← verify_jwt cf now token;
  c ← jwt_decode now (cf_jwt_secret cf) (cf_jwt_issuer cf) false token;
  let remaining := (jc_exp c - now)%Z in
  Some (if (remaining <=? 0)%Z then 0%Z else remaining).

(** ** Middleware *)
Definition route_is (method path m p : string) : bool := String.eqb method m && String.eqb path p.
Definition ends_with_str (suffix s : string) : bool :=
  (String.length suffix <=? String.length s) &&
  String.eqb (str_drop (String.length s - String.length suffix) s) suffix.
Definition is_guest_agent_public (method path : string) : bool :=
  starts_with "/api/v1/guest-agents" path &&
  (route_is method path "POST" "/api/v1/guest-agents/register"
   || route_is method path "GET" "/api/v1/guest-agents/bootstrap-info"
   || route_is method path "POST" "/api/v1/guest-agents/bootstrap"
   || (String.eqb method "POST" && ends_with_str "/heartbeat" path)
   || ends_with_str "/report" path).
Definition public_routes : list (string * string) :=
  [("GET", "/api/v1/health"); ("GET", "/api/v1/auth/config"); ("GET", "/api/v1/auth/me");
   ("GET", "/api/v1/auth/oidc/login"); ("GET", "/api/v1/auth/oidc/callback"); ("GET", "/api/v1/auth/saml/login");
   ("POST", "/api/v1/auth/saml/acs"); ("POST", "/api/v1/auth/local"); ("GET", "/api/v1/settings/sso/saml/metadata");
   ("GET", "/api/v1/vmtools/bundle")].
Definition is_public_route (method path : string) : bool :=
  is_guest_agent_public method path || existsb (fun '(m, p) => route_is method path m p) public_routes.
(** the text of the header, if there is one that is text. *)
Definition extract_bearer (authorization : option string) : option string :=
  v ← authorization;
  if starts_with "Bearer " v then Some (str_drop 7 v) else None.
(** [Ok user]: the request goes on, with what the middleware knows of the caller. *)
Definition require_auth (cf : ApiConfig) (r : redis) (method path : string) (authorization : option string)
    : api (option AuthUserClaims) :=
  if negb (cf_auth_enabled cf) then Ok None
  else if is_public_route method path then Ok None
  else
    match extract_bearer authorization with
    | None => Err (api_unauthorized "Bearer token required")
    | Some token =>
        match verify_jwt cf (rd_now r) token with
        | None => Err (api_unauthorized "invalid or expired token")
        | Some verified =>
            match au_jti verified with
            | Some jti =>
                revoked ← is_revoked jti r;
                if (revoked : bool) then Err (api_unauthorized "token revoked") else Ok (Some verified)
            | None => Ok (Some verified)
            end
        end
    end.
End tokens.

(** ** Routes *)
Definition guest_agent_router : list (string * string * string) :=
  [("POST", "/api/v1/guest-agents/register", "register_guest_agent");
   ("GET", "/api/v1/guest-agents/bootstrap-info", "guest_agent_bootstrap_info");
   ("POST", "/api/v1/guest-agents/bootstrap", "guest_agent_bootstrap_cert");
   ("POST", "/api/v1/guest-agents/:agent_id/heartbeat", "guest_agent_heartbeat");
   ("POST", "/api/v1/guest-agents/:agent_id/report", "guest_agent_report");
   ("GET", "/api/v1/guest-agents/:agent_id/report", "get_guest_agent_report")].
Definition api_router : list (string * string * string) :=
  [("GET", "/api/v1/health", "health");
   ("GET", "/api/v1/config", "get_config");
   ("GET", "/api/v1/auth/config", "public_config");
   ("GET", "/api/v1/auth/me", "me");
   ("POST", "/api/v1/auth/logout", "logout");
   ("POST", "/api/v1/auth/local", "local_login");
   ("GET", "/api/v1/auth/oidc/login", "oidc_login");
   ("GET", "/api/v1/auth/oidc/callback", "oidc_callback");
   ("GET", "/api/v1/auth/saml/login", "saml_login");
   ("POST", "/api/v1/auth/saml/acs", "saml_acs");
   ("GET", "/api/v1/settings/identity", "get_identity");
   ("PUT", "/api/v1/settings/identity", "put_identity");
   ("GET", "/api/v1/settings/sso", "get_sso");
   ("PUT", "/api/v1/settings/sso", "put_sso");
   ("GET", "/api/v1/settings/sso/saml/metadata", "saml_metadata");
   ("GET", "/api/v1/system/status", "get_system_status");
   ("GET", "/api/v1/storage/roots", "list_storage_roots");
   ("GET", "/api/v1/storage/browse", "browse_storage");
   ("POST", "/api/v1/vms/import-from-storage", "import_from_storage");
   ("GET", "/api/v1/vmtools/bundle", "get_bundle");
   ("GET", "/api/v1/packetwolf/fleet-snapshot", "get_fleet_snapshot");
   ("POST", "/api/v1/packetwolf/fleet-correlate", "trigger_fleet_correlation");
   ("GET", "/api/v1/vmtools/coverage", "get_coverage");
   ("GET", "/api/v1/vmtools/policy", "get_policy");
   ("PUT", "/api/v1/vmtools/policy", "put_policy");
   ("POST", "/api/v1/vmtools/policy/reconcile", "reconcile_policy");
   ("GET", "/api/v1/kubevirt/vms/:namespace/:name/vmtools", "get_vm_vmtools");
   ("POST", "/api/v1/kubevirt/vms/:namespace/:name/vmtools/install", "install_vm_vmtools");
   ("POST", "/api/v1/kubevirt/vms/:namespace/:name/vmtools/diagnostics", "run_vm_diagnostics");
   ("POST", "/api/v1/kubevirt/vms/:namespace/:name/vmtools/quiesce", "quiesce_vm_handler");
   ("POST", "/api/v1/kubevirt/vms/:namespace/:name/vmtools/unquiesce", "unquiesce_vm_handler");
   ("POST", "/api/v1/kubevirt/vms/:namespace/:name/vmtools/reboot", "reboot_vm_handler");
   ("POST", "/api/v1/kubevirt/vms/:namespace/:name/vmtools/shutdown", "shutdown_vm_handler");
   ("POST", "/api/v1/kubevirt/vms/:namespace/:name/vmtools/exec", "exec_vm_handler");
   ("POST", "/api/v1/vms/import", "import_vm");
   ("POST", "/api/v1/vms/import-from-url", "import_from_url");
   ("POST", "/api/v1/vms/import-from-s3", "import_from_s3");
   ("POST", "/api/v1/vms/import-from-nfs", "import_from_nfs");
   ("POST", "/api/v1/vms/compare", "compare_vms");
   ("POST", "/api/v1/vms/cleanup-shadows", "cleanup_shadow_vms");
   ("GET", "/api/v1/vms", "list_vms");
   ("DELETE", "/api/v1/vms/:id", "delete_vm");
   ("GET", "/api/v1/vms/:id/jobs", "list_vm_jobs");
   ("POST", "/api/v1/vms/:id/inspect", "inspect_vm");
   ("POST", "/api/v1/vms/:id/doctor", "doctor_vm");
   ("POST", "/api/v1/vms/:id/migration-plan", "migration_plan_vm");
   ("POST", "/api/v1/vms/:id/passport", "passport_vm");
   ("POST", "/api/v1/vms/:id/repair-plan", "repair_plan_vm");
   ("POST", "/api/v1/vms/:id/profile", "profile_vm");
   ("POST", "/api/v1/vms/:id/explore", "explore_vm");
   ("POST", "/api/v1/vms/:id/convert", "convert_vm");
   ("POST", "/api/v1/vms/:id/readiness-report", "readiness_report");
   ("POST", "/api/v1/vms/:id/provision", "provision_vm");
   ("GET", "/api/v1/jobs/:id", "get_job");
   ("POST", "/api/v1/vms/:id/copilot/ask", "ask_copilot");
   ("GET", "/api/v1/vms/:id/copilot/briefing", "get_vm_briefing");
   ("POST", "/api/v1/vms/:id/copilot/launch-advice", "launch_advice");
   ("POST", "/api/v1/vms/:id/copilot/explain-check", "explain_check");
   ("POST", "/api/v1/vms/compare/copilot", "compare_copilot");
   ("POST", "/api/v1/copilot/fleet-overview", "fleet_overview");
   ("POST", "/api/v1/vms/:id/agent/ping", "ping_agent");
   ("POST", "/api/v1/vms/:id/agent/evidence", "agent_evidence");
   ("POST", "/api/v1/vms/:id/agent/doctor", "agent_doctor");
   ("POST", "/api/v1/vms/:id/agent/rpc", "agent_rpc");
   ("POST", "/api/v1/vms/:id/agent/fix", "agent_fix")]
  ++ guest_agent_router ++
  [("GET", "/api/v1/guest-actions/pending", "list_pending_guest_actions");
   ("GET", "/api/v1/guest-actions/audit", "list_guest_action_audit");
   ("POST", "/api/v1/guest-actions/:id/approve", "approve_guest_action");
   ("POST", "/api/v1/guest-actions/:id/reject", "reject_guest_action");
   ("GET", "/api/v1/kubevirt/vms/:namespace/:name/guest/info", "get_guest_info");
   ("GET", "/api/v1/kubevirt/vms/:namespace/:name/guest/health", "get_guest_health");
   ("GET", "/api/v1/kubevirt/vms/:namespace/:name/guest/systemd", "get_guest_systemd");
   ("GET", "/api/v1/kubevirt/vms/:namespace/:name/guest/systemd/units/:unit", "get_guest_systemd_unit");
   ("GET", "/api/v1/kubevirt/vms/:namespace/:name/guest/journal", "get_guest_journal");
   ("GET", "/api/v1/kubevirt/vms/:namespace/:name/guest/evidence", "get_guest_evidence");
   ("GET", "/api/v1/kubevirt/vms/:namespace/:name/guest/network", "get_guest_network");
   ("GET", "/api/v1/kubevirt/vms/:namespace/:name/guest/processes", "get_guest_processes");
   ("GET", "/api/v1/kubevirt/vms/:namespace/:name/guest/systemd/events", "get_guest_systemd_events");
   ("POST", "/api/v1/kubevirt/vms/:namespace/:name/guest/actions/restart-unit", "post_restart_unit");
   ("GET", "/api/v1/kubevirt/vms/:namespace/:name/guest/logs", "get_guest_logs");
   ("POST", "/api/v1/kubevirt/vms/:namespace/:name/guest/actions/collect-support-bundle", "post_collect_support_bundle");
   ("POST", "/api/v1/kubevirt/vms/:namespace/:name/guest/actions/pre-snapshot-freeze", "post_pre_snapshot_freeze");
   ("POST", "/api/v1/kubevirt/vms/:namespace/:name/guest/actions/post-snapshot-thaw", "post_post_snapshot_thaw");
   ("GET", "/api/v1/kubevirt/namespaces", "list_kubevirt_namespaces");
   ("GET", "/api/v1/kubevirt/vms", "list_kubevirt_vms");
   ("GET", "/api/v1/kubevirt/vms/:namespace/:name/guest/status", "get_guest_status");
   ("GET", "/api/v1/kubevirt/vms/:namespace/:name/guest/capabilities", "get_guest_capabilities");
   ("GET", "/api/v1/kubevirt/vms/:namespace/:name/guest/doctor", "get_guest_doctor");
   ("POST", "/api/v1/kubevirt/vms/:namespace/:name/guest/doctor", "post_guest_doctor");
   ("GET", "/api/v1/kubevirt/vms/:namespace/:name/guest/readiness", "get_guest_readiness");
   ("POST", "/api/v1/kubevirt/vms/:namespace/:name/guest/install-agent", "post_install_agent");
   ("POST", "/api/v1/kubevirt/vms/:namespace/:name/guest/repair-plan", "post_guest_repair_plan");
   ("POST", "/api/v1/kubevirt/vms/:namespace/:name/guest/file/read", "post_guest_file_read");
   ("POST", "/api/v1/kubevirt/vms/:namespace/:name/guest/file/write", "post_guest_file_write");
   ("POST", "/api/v1/kubevirt/guest/poll-reconcile", "post_guest_poll_reconcile");
   ("GET", "/api/v1/kubevirt/guest/poll-telemetry", "get_guest_poll_fleet_telemetry");
   ("GET", "/api/v1/kubevirt/vms/:namespace/:name/guest/poll-telemetry", "get_guest_poll_telemetry");
   ("GET", "/api/v1/kubevirt/vms/:namespace/:name/guest-agent", "get_guest_agent_info");
   ("POST", "/api/v1/kubevirt/vms/:namespace/:name/guest-agent/install", "install_guest_agent");
   ("GET", "/api/v1/kubevirt/vms/:namespace/:name/boot-inspect", "get_boot_inspect");
   ("POST", "/api/v1/kubevirt/vms/:namespace/:name/boot-inspect", "post_boot_inspect_vm");
   ("GET", "/api/v1/kubevirt/vms/:namespace/:name/inspect/boot", "get_boot_inspect");
   ("POST", "/api/v1/kubevirt/vms/:namespace/:name/inspect/boot", "post_boot_inspect_vm");
   ("POST", "/api/v1/kubevirt/boot-inspect", "post_boot_inspect");
   ("PUT", "/api/v1/kubevirt/vms/:namespace/:name/restart", "restart_vm_handler");
   ("PUT", "/api/v1/kubevirt/vms/:namespace/:name/start", "start_vm_handler");
   ("PUT", "/api/v1/kubevirt/vms/:namespace/:name/stop", "stop_vm_handler");
   ("POST", "/api/v1/kubevirt/vms/:namespace/:name/inspect", "post_inspect_vm");
   ("POST", "/api/v1/kubevirt/vms/:namespace/:name/doctor", "post_doctor_vm");
   ("POST", "/api/v1/kubevirt/vms/:namespace/:name/migration-plan", "post_migration_plan_vm");
   ("POST", "/api/v1/kubevirt/vms/:namespace/:name/repair-plan", "post_repair_plan_vm");
   ("POST", "/api/v1/kubevirt/vms/:namespace/:name/provision", "post_provision_vm");
   ("POST", "/api/v1/kubevirt/vms/:namespace/:name/export-disk", "export_vm_disk");
   ("POST", "/api/v1/kubevirt/vms/:namespace/:name/copilot/briefing", "cluster_briefing");
   ("POST", "/api/v1/kubevirt/vms/:namespace/:name/copilot/ask", "cluster_ask");
   ("POST", "/api/v1/kubevirt/apply", "apply_yaml_handler")].

(** a segment of a pattern is a parameter when it starts with a colon; a parameter fits a
    segment that is not empty. *)
Definition is_param (seg : string) : bool := starts_with ":" seg.
Definition segment_fits (pat seg : string) : bool :=
  if is_param pat then negb (is_empty seg) else String.eqb pat seg.
Fixpoint segments_fit (pats segs : list string) : bool :=
  match pats, segs with
  | [], [] => true
  | p :: pats, s :: segs => segment_fits p s && segments_fit pats segs
  | _, _ => false
  end.
Definition path_fits (pattern path : string) : bool :=
  segments_fit (split_char "/"%char pattern) (split_char "/"%char path).
(** of two patterns that fit, the one with a literal where the other first has a
    parameter. *)
Fixpoint more_literal (p q : list string) : bool :=
  match p, q with
  | x :: p, y :: q => if Bool.eqb (is_param x) (is_param y) then more_literal p q else is_param y
  | _, _ => false
  end.
Definition best_pattern (path : string) : option string :=
  foldl (fun best r =>
    let '(_, pat, _) := r in
    if path_fits pat path then
      match best with
      | Some b => if more_literal (split_char "/"%char pat) (split_char "/"%char b) then Some pat else best
      | None => Some pat
      end
    else best) None api_router.
Definition route_handler (method pattern : string) : option string :=
  (fun r => r.2) <$> find (fun r => route_is method pattern r.1.1 r.1.2) api_router.
Definition api_dispatch (method path : string) : option string :=
  pattern ← best_pattern path;
  match route_handler method pattern with
  | Some h => Some h
  | None => if String.eqb method "HEAD" then route_handler "GET" pattern else None
  end.
(** [None]: nothing at that path, or not for that method. *)
Definition serve `{JwtCrate} (cf : ApiConfig) (r : redis) (method path : string) (authorization : option string)
    : api (option (string * option AuthUserClaims)) :=
  user ← require_auth cf r method path authorization;
  Ok ((fun h => (h, user)) <$> api_dispatch method path).

(** ** Roles *)
Definition is_admin (u : AuthUserClaims) : bool := eq_ignore_ascii_case (au_role u) ROLE_ADMIN.
Definition can_approve_guest_actions (u : AuthUserClaims) : bool :=
  is_admin u || eq_ignore_ascii_case (au_role u) ROLE_OPERATOR.
Definition is_viewer (u : AuthUserClaims) : bool := eq_ignore_ascii_case (au_role u) ROLE_VIEWER.
Definition can_request_guest_remediation (u : AuthUserClaims) : bool := can_approve_guest_actions u.
Definition require_admin (u : AuthUserClaims) : api () :=
  if is_admin u then Ok () else Err (api_forbidden "admin role required").
Definition ensure_settings_admin (cf : ApiConfig) (user : option AuthUserClaims) : api () :=
  if negb (cf_auth_enabled cf) then Ok ()
  else match user with None => Err (api_unauthorized "Bearer token required") | Some u => require_admin u end.
Definition require_guest_action_approver (cf : ApiConfig) (user : option AuthUserClaims) : api () :=
  if negb (cf_auth_enabled cf) then Ok ()
  else match user with
       | None => Err (api_unauthorized "authentication required")
       | Some u => if can_approve_guest_actions u then Ok () else Err (api_forbidden "operator or admin role required")
       end.
Definition require_guest_remediation_requester (cf : ApiConfig) (user : option AuthUserClaims) : api () :=
  if negb (cf_auth_enabled cf) then Ok ()
  else match user with
       | None => Err (api_unauthorized "authentication required")
       | Some u =>
           if can_request_guest_remediation u then Ok ()
           else Err (api_forbidden "operator or admin role required for guest remediation")
       end.
Definition resolve_role (identity : IdentitySettings) (email : option string) (groups : list string) : string :=
  let by_email := match email with
                  | Some e => existsb (fun a => eq_ignore_ascii_case a e) (id_admin_emails identity)
                  | None => false
                  end in
  if by_email then ROLE_ADMIN
  else if existsb (fun g => existsb (fun a => eq_ignore_ascii_case a g) (id_admin_roles identity)) groups
  then ROLE_ADMIN
  else if trim_is_empty (id_default_role identity) then "operator" else id_default_role identity.
Definition email_from_claims (email name : option string) (sub : string) : option string :=
  match email with
  | Some e => Some e
  | None =>
      match name ≫= (fun n => if contains_char "@"%char n then Some n else None) with
      | Some n => Some n
      | None => if contains_char "@"%char sub then Some sub else None
      end
  end.

(** the role each handler asks for before anything else; the others ask for none. *)
Definition handler_guard (h : string) (cf : ApiConfig) (user : option AuthUserClaims) : api () :=
  if existsb (String.eqb h) ["get_identity"; "put_identity"; "get_sso"; "put_sso"] then ensure_settings_admin cf user
  else if existsb (String.eqb h) ["list_pending_guest_actions"; "list_guest_action_audit"; "approve_guest_action";
                                  "reject_guest_action"]
  then require_guest_action_approver cf user
  else if existsb (String.eqb h) ["post_restart_unit"; "post_collect_support_bundle"; "post_pre_snapshot_freeze";
                                  "post_post_snapshot_thaw"; "trigger_fleet_correlation"]
  then require_guest_remediation_requester cf user
  else Ok ().

(** ** Settings *)
(** the row of the settings, if there is one, and what it reads as. *)
Record database : Type := mk_database { db_up : bool; db_settings : option (option AuthSettings) }.
Definition load_settings (db : database) : api AuthSettings :=
  if db_up db then
    Ok match db_settings db with
       | Some (Some s) => s
       | Some None => default_AuthSettings
       | None => AuthSettings_defaults
       end
  else Err (api_internal "database").
Definition save_settings (s : AuthSettings) (db : database) : database * api () :=
  if db_up db then (mk_database true (Some (Some s)), Ok ()) else (db, Err (api_internal "database")).

(** [PutIdentityRequest] has the fields of [IdentitySettings]. *)
Definition identity_of_request (b : IdentitySettings) : IdentitySettings :=
  mk_IdentitySettings (id_allow_local_bypass b) (id_default_role b) (Z.max (id_session_hours b) 1)
    (if trim_is_empty (id_role_claim b) then "groups" else id_role_claim b) (id_admin_roles b) (id_admin_emails b).
Definition get_identity (cf : ApiConfig) (user : option AuthUserClaims) (db : database) : api IdentitySettings :=
  _ ← ensure_settings_admin cf user;
  s ← load_settings db;
  Ok (as_identity s).
Definition put_identity (cf : ApiConfig) (user : option AuthUserClaims) (body : IdentitySettings) (db : database)
    : database * api IdentitySettings :=
  match ensure_settings_admin cf user, load_settings db with
  | Ok _, Ok s =>
      let s := mk_AuthSettings (identity_of_request body) (as_oidc s) (as_saml s) in
      match save_settings s db with
      | (db, Ok _) => (db, Ok (as_identity s))
      | (db, Err e) => (db, Err e)
      | (db, Panic) => (db, Panic)
      end
  | Ok _, Err e => (db, Err e)
  | Err e, _ => (db, Err e)
  | _, _ => (db, Panic)
  end.
Record OidcSettingsView : Type := mk_OidcSettingsView {
  ov_enabled : bool;
  ov_issuer_url : string;
  ov_client_id : string;
  ov_client_secret_set : bool;
  ov_scopes : list string;
  ov_button_label : string
}.
Definition to_oidc_view (v : OidcSettings) : OidcSettingsView :=
  mk_OidcSettingsView (oi_enabled v) (oi_issuer_url v) (oi_client_id v)
    (match oi_client_secret v with Some s => negb (trim_is_empty s) | None => false end)
    (oi_scopes v) (oi_button_label v).
Definition merge_secret (incoming existing : option string) : option string :=
  match incoming with
  | Some v => if trim_is_empty v then existing else Some v
  | None => existing
  end.
Definition oidc_of_request (b old : OidcSettings) : OidcSettings :=
  mk_OidcSettings (oi_enabled b) (trim (oi_issuer_url b)) (trim (oi_client_id b))
    (merge_secret (oi_client_secret b) (oi_client_secret old))
    (if bool_decide (oi_scopes b = []) then oi_scopes old else oi_scopes b) (oi_button_label b).
Definition get_sso (cf : ApiConfig) (user : option AuthUserClaims) (db : database)
    : api (OidcSettingsView * SamlSettings) :=
  _ ← ensure_settings_admin cf user;
  s ← load_settings db;
  Ok (to_oidc_view (as_oidc s), as_saml s).
Definition put_sso (cf : ApiConfig) (user : option AuthUserClaims) (oidc : OidcSettings) (saml : SamlSettings)
    (db : database) : database * api (OidcSettingsView * SamlSettings) :=
  match ensure_settings_admin cf user, load_settings db with
  | Ok _, Ok s =>
      let s := mk_AuthSettings (as_identity s) (oidc_of_request oidc (as_oidc s)) saml in
      match save_settings s db with
      | (db, Ok _) => (db, Ok (to_oidc_view (as_oidc s), as_saml s))
      | (db, Err e) => (db, Err e)
      | (db, Panic) => (db, Panic)
      end
  | Ok _, Err e => (db, Err e)
  | Err e, _ => (db, Err e)
  | _, _ => (db, Panic)
  end.

(** ** Logging in and out *)
Section sessions.
Context `{JwtCrate}.
Implicit Types (cf : ApiConfig) (r : redis).

Definition local_user (role : string) (jti : option string) : AuthUserClaims :=
  mk_AuthUserClaims "local" (Some "local@guestkit") (Some "Local Operator") role "local" jti.
Definition issued (cf : ApiConfig) (now : Z) (s : AuthSettings) (u : AuthUserClaims) : api (string * AuthUserClaims) :=
  match issue_token cf now "" u (session_secs s) with
  | Some jwt => Ok (jwt, u)
  | None => Err (api_internal "JWT issuance failed")
  end.
Definition local_login cf (now : Z) (fresh : string) (db : database) : api (string * AuthUserClaims) :=
  if negb (cf_auth_enabled cf) then Err (api_bad_request "authentication is disabled")
  else
    s ← load_settings db;
    if negb (id_allow_local_bypass (as_identity s)) then Err (api_forbidden "local bypass is disabled")
    else
      issued cf now s (local_user (if is_empty (id_default_role (as_identity s)) then ROLE_OPERATOR
                                   else id_default_role (as_identity s)) (Some fresh)).
(** the query may carry the token too. *)
Definition me cf (now : Z) (authorization query : option string) : api (bool * option AuthUserClaims) :=
  let token := match extract_bearer authorization with Some t => Some t | None => query end in
  if negb (cf_auth_enabled cf) then Ok (true, Some (local_user (cf_default_role cf) None))
  else match token with
       | None => Ok (false, None)
       | Some t =>
           match verify_jwt cf now t with
           | Some u => Ok (true, Some u)
           | None => Err (api_unauthorized "invalid or expired token")
           end
       end.
Definition logout cf (authorization : option string) r : redis * api () :=
  if negb (cf_auth_enabled cf) then (r, Ok ())
  else
    match extract_bearer authorization with
    | None => (r, Ok ())
    | Some token =>
        match verify_jwt cf (rd_now r) token with
        | Some u =>
            match au_jti u with
            | Some jti => revoke_jti jti (default 3600%Z (token_remaining_secs cf (rd_now r) token)) r
            | None => (r, Ok ())
            end
        | None => (r, Ok ())
        end
    end.
End sessions.
