(* ===== verification/ControlAuthProps.v ===== *)
(** * What the control plane's access checks guarantee

    Theorems on [ControlAuth]: exactly which handlers are reached without a token, what a
    token is worth and for how long, before and after its owner logs out, what the start-up
    checks rule out, and who changes the settings. *)
From stdpp Require Import base gmap strings list.
From Stdlib Require Import ZArith Lia Ascii.
From S2P Require Import Prelude RustStr ControlAuth.

Implicit Types (cf : ApiConfig) (r : redis) (u : AuthUserClaims).

(** ** Routes *)
Definition public_handlers : list string :=
  ["health"; "public_config"; "me"; "oidc_login"; "oidc_callback"; "saml_login"; "saml_acs"; "local_login";
   "saml_metadata"; "get_bundle"; "register_guest_agent"; "guest_agent_bootstrap_info"; "guest_agent_bootstrap_cert";
   "guest_agent_heartbeat"; "guest_agent_report"; "get_guest_agent_report"].
(** a request for each. *)
Definition public_requests : list (string * string * string) :=
  [("GET", "/api/v1/health", "health"); ("GET", "/api/v1/auth/config", "public_config"); ("GET", "/api/v1/auth/me", "me");
   ("GET", "/api/v1/auth/oidc/login", "oidc_login"); ("GET", "/api/v1/auth/oidc/callback", "oidc_callback");
   ("GET", "/api/v1/auth/saml/login", "saml_login"); ("POST", "/api/v1/auth/saml/acs", "saml_acs");
   ("POST", "/api/v1/auth/local", "local_login"); ("GET", "/api/v1/settings/sso/saml/metadata", "saml_metadata");
   ("GET", "/api/v1/vmtools/bundle", "get_bundle"); ("POST", "/api/v1/guest-agents/register", "register_guest_agent");
   ("GET", "/api/v1/guest-agents/bootstrap-info", "guest_agent_bootstrap_info");
   ("POST", "/api/v1/guest-agents/bootstrap", "guest_agent_bootstrap_cert");
   ("POST", "/api/v1/guest-agents/web-1/heartbeat", "guest_agent_heartbeat");
   ("POST", "/api/v1/guest-agents/web-1/report", "guest_agent_report");
   ("GET", "/api/v1/guest-agents/web-1/report", "get_guest_agent_report")].
Definition is_public_handler (h : string) : bool := existsb (String.eqb h) public_handlers.

Lemma best_pattern_fits path pat :
  best_pattern path = Some pat → path_fits pat path = true.
Proof.
  unfold best_pattern. assert (∀ l best, (∀ b, best = Some b → path_fits b path = true) →
    ∀ b, foldl (fun best (r : string * string * string) =>
      let '(_, pat, _) := r in
      if path_fits pat path then
        match best with
        | Some b => if more_literal (split_char "/"%char pat) (split_char "/"%char b) then Some pat else best
        | None => Some pat
        end
      else best) best l = Some b → path_fits b path = true) as Hl.
  { intros l. induction l as [|[[m p] h] l IH]; intros best Hb b; [apply Hb|]. cbn. apply IH.
    intros b'. destruct (path_fits p path) eqn:E; [|apply Hb].
    destruct best as [b0|]; [destruct (more_literal _ _)|]; intros [= <-]; auto. }
  intros H. by apply (Hl _ None (fun b Hb => ltac:(discriminate Hb)) _ H).
Qed.
Lemma route_handler_in m pat h : route_handler m pat = Some h → (m, pat, h) ∈ api_router.
Proof.
  unfold route_handler. destruct (find _ api_router) as [[[m' p'] h']|] eqn:E; [|done]. cbn. intros [= ->].
  apply find_some in E as [Hin E]. cbn in E. apply andb_true_iff in E as [->%String.eqb_eq ->%String.eqb_eq].
  by apply list_elem_of_In.
Qed.
Lemma dispatch_in m path h :
  api_dispatch m path = Some h → ∃ m' pat, (m', pat, h) ∈ api_router ∧ path_fits pat path = true.
Proof.
  unfold api_dispatch. destruct (best_pattern path) as [pat|] eqn:E; [|done]. cbn [mbind option_bind]. apply best_pattern_fits in E.
  destruct (route_handler m pat) as [h'|] eqn:Eh; [intros [= ->]; eauto using route_handler_in|].
  destruct (String.eqb m "HEAD"); [|done]. eauto using route_handler_in.
Qed.

(** below the agents' prefix everything is public. *)
Definition agents_route_public (r : string * string * string) : bool :=
  match split_char "/"%char r.1.2 with
  | _ :: _ :: _ :: x :: _ =>
      negb (is_param x) && (negb (starts_with "guest-agents" x) || is_public_handler r.2)
  | _ => false
  end.
Lemma agents_routes_public : forallb agents_route_public api_router = true.
Proof. vm_compute. reflexivity. Qed.
Lemma exact_routes_public :
  forallb (fun '(m, p) => match api_dispatch m p with Some h => is_public_handler h | None => true end)
    public_routes = true.
Proof. vm_compute. reflexivity. Qed.
Lemma prefix_split p s : starts_with p s = true → ∃ t, s = p +:+ t.
Proof.
  unfold starts_with. revert s. induction p as [|c p IH]; intros s; [by exists s|].
  destruct s as [|c' s]; [done|]. cbn. destruct (ascii_dec c c') as [->|]; [|done].
  intros [t ->]%IH. by exists t.
Qed.
#[local] Arguments String.append !_ _ /.
Lemma agents_path_segments path :
  starts_with "/api/v1/guest-agents" path = true →
  ∃ x l, split_char "/"%char path = "" :: "api" :: "v1" :: x :: l ∧ starts_with "guest-agents" x = true.
Proof.
  intros [t ->]%prefix_split. cbn. destruct (split_char "/"%char t) as [|w l]; cbn.
  - eexists _, _. split; [reflexivity|]. reflexivity.
  - eexists _, _. split; [reflexivity|]. cbn. by destruct w.
Qed.
Lemma agents_dispatch_public m path h :
  starts_with "/api/v1/guest-agents" path = true → api_dispatch m path = Some h → is_public_handler h = true.
Proof.
  intros (x & l & Hs & Hx)%agents_path_segments (m' & pat & Hin & Hf)%dispatch_in.
  pose proof agents_routes_public as Ha. rewrite forallb_forall in Ha. specialize (Ha _ (proj1 (list_elem_of_In _ _) Hin)).
  unfold agents_route_public in Ha. unfold path_fits in Hf. rewrite Hs in Hf. cbn in Ha.
  destruct (split_char "/"%char pat) as [|p0 [|p1 [|p2 [|p3 pl]]]]; try done. cbn in Hf.
  apply andb_true_iff in Ha as [Hnp Hp]. apply andb_true_iff in Hf as [_ Hf].
  apply andb_true_iff in Hf as [_ Hf]. apply andb_true_iff in Hf as [_ Hf]. apply andb_true_iff in Hf as [Hf _].
  unfold segment_fits in Hf. destruct (is_param p3); [done|]. apply String.eqb_eq in Hf as ->.
  by rewrite Hx in Hp.
Qed.
Lemma public_dispatch m path h :
  is_public_route m path = true → api_dispatch m path = Some h → is_public_handler h = true.
Proof.
  unfold is_public_route. intros [Ha|He]%orb_true_iff Hd.
  - unfold is_guest_agent_public in Ha. apply andb_true_iff in Ha as [Ha _]. by eapply agents_dispatch_public.
  - apply existsb_exists in He as ([m' p'] & Hin & E).
    apply andb_true_iff in E as [->%String.eqb_eq ->%String.eqb_eq].
    pose proof exact_routes_public as Hx. rewrite forallb_forall in Hx. specialize (Hx _ Hin). cbv beta iota in Hx.
    by rewrite Hd in Hx.
Qed.

Lemma public_requests_reach :
  forallb (fun '(m, p, h) => is_public_route m p && bool_decide (api_dispatch m p = Some h)) public_requests = true.
Proof. vm_compute. reflexivity. Qed.
Lemma public_reachable h :
  h ∈ public_handlers → ∃ m path, is_public_route m path = true ∧ api_dispatch m path = Some h.
Proof.
  intros Hh. change public_handlers with ((fun q : string * string * string => q.2) <$> public_requests) in Hh.
  apply list_elem_of_fmap in Hh as ([[m path] h'] & -> & Hin).
  pose proof public_requests_reach as Hall. rewrite forallb_forall in Hall.
  specialize (Hall _ (proj1 (list_elem_of_In _ _) Hin)). cbv beta iota in Hall.
  apply andb_true_iff in Hall as [Hp Hd]. apply bool_decide_eq_true in Hd. by exists m, path.
Qed.

Section access.
Context `{JwtLaws}.

Definition user_of (c : JwtClaims) : AuthUserClaims :=
  mk_AuthUserClaims (jc_sub c) (jc_email c) (jc_name c) (jc_role c) (jc_provider c) (Some (jc_jti c)).

(** C6: with authentication on, a request reaches a handler without a token only when the
    handler is one of the sixteen public ones, and each of those is reached; every other
    handler runs only for a bearer token that the secret signed for the configured issuer,
    that has not expired (with the leeway) and that is not revoked, and the handler sees
    the identity in the token. *)
Theorem handlers_behind_tokens cf r :
  cf_auth_enabled cf = true →
  (∀ m path a h user, serve cf r m path a = Ok (Some (h, user)) →
     (h ∈ public_handlers ∧ user = None) ∨
     ∃ token c, extract_bearer a = Some token ∧
       jwt_decode (rd_now r) (cf_jwt_secret cf) (cf_jwt_issuer cf) true token = Some c ∧
       is_revoked (jc_jti c) r = Ok false ∧ user = Some (user_of c)) ∧
  (∀ h, h ∈ public_handlers → ∃ m path, serve cf r m path None = Ok (Some (h, None))).
Proof.
  intros Hen. split.
  - intros m path a h user. unfold serve. rewrite outcome_bind_Ok. intros (v & Hv & Hd).
    destruct (api_dispatch m path) as [h'|] eqn:Ed; [|done]. injection Hd as -> ->.
    unfold require_auth in Hv. rewrite Hen in Hv. cbn in Hv.
    destruct (is_public_route m path) eqn:Ep.
    { injection Hv as <-. left. split; [|done]. pose proof (public_dispatch m path h Ep Ed) as Hp.
      unfold is_public_handler in Hp. apply existsb_exists in Hp as (x & Hin & ->%String.eqb_eq).
      by apply list_elem_of_In. }
    destruct (extract_bearer a) as [token|] eqn:Eb; [|done]. unfold verify_jwt in Hv.
    destruct (jwt_decode _ _ _ _ _) as [c|] eqn:Ec; [|done]. cbn in Hv.
    apply outcome_bind_Ok in Hv as (rev & Hrev & Hv). destruct rev; [done|]. injection Hv as <-.
    right. by exists token, c.
  - intros h (m & path & Hp & Hd)%public_reachable.
    exists m, path. unfold serve, require_auth. rewrite Hen, Hp, Hd. done.
Qed.

(** ** Tokens *)
Lemma bearer_token tok : extract_bearer (Some ("Bearer " +:+ tok)) = Some tok.
Proof. unfold extract_bearer, starts_with. cbn. by destruct tok. Qed.

(** the life of a token that was issued. *)
Section issued_token.
Context (cf : ApiConfig) (issued_at : Z) (fresh : string) (u : AuthUserClaims) (secs : Z) (tok : string).
Hypothesis Hissued : issue_token cf issued_at fresh u secs = Some tok.
Hypothesis Henabled : cf_auth_enabled cf = true.
Let expiry : Z := (issued_at + Z.max secs 60)%Z.
Let jti : string := default fresh (au_jti u).
Let bearer : option string := Some ("Bearer " +:+ tok).
Let owner : AuthUserClaims :=
  mk_AuthUserClaims (au_sub u) (au_email u) (au_name u) (au_role u) (au_provider u) (Some jti).

Lemma verify_issued now :
  verify_jwt cf now tok = if (now - JWT_LEEWAY <=? expiry)%Z then Some owner else None.
Proof.
  unfold verify_jwt. rewrite (jwt_decode_encode _ _ _ _ _ _ Hissued). cbn. rewrite String.eqb_refl. cbn.
  fold expiry. by destruct (_ <=? _)%Z.
Qed.
Lemma remaining_issued now : (now ≤ expiry + JWT_LEEWAY)%Z →
  token_remaining_secs cf now tok = Some (Z.max (expiry - now) 0).
Proof.
  intros Hn. unfold token_remaining_secs. rewrite verify_issued.
  destruct (Z.leb_spec (now - JWT_LEEWAY) expiry) as [_|]; [|lia]. cbn [mbind option_bind].
  rewrite (jwt_decode_encode _ _ _ _ _ _ Hissued). cbn. rewrite String.eqb_refl. cbn. fold expiry.
  destruct (Z.leb_spec (expiry - now) 0); f_equal; lia.
Qed.
Lemma require_auth_issued r m path :
  is_public_route m path = false →
  require_auth cf r m path bearer =
  if (rd_now r - JWT_LEEWAY <=? expiry)%Z then
    revoked ← is_revoked jti r;
    if (revoked : bool) then Err (api_unauthorized "token revoked") else Ok (Some owner)
  else Err (api_unauthorized "invalid or expired token").
Proof.
  intros Hp. unfold require_auth, bearer. rewrite Henabled, Hp, bearer_token, verify_issued. cbn.
  by destruct (_ <=? _)%Z.
Qed.
End issued_token.

(** a token is accepted, with the identity it was issued for, until a minute after it
    expires, however short the session was asked to be, unless it is revoked, and not
    after that. *)
Theorem token_round_trip cf issued_at fresh u secs tok r m path :
  issue_token cf issued_at fresh u secs = Some tok → cf_auth_enabled cf = true → is_public_route m path = false →
  is_revoked (default fresh (au_jti u)) r = Ok false →
  (rd_now r ≤ issued_at + Z.max secs 60 + 60)%Z →
  require_auth cf r m path (Some ("Bearer " +:+ tok)) =
    Ok (Some (mk_AuthUserClaims (au_sub u) (au_email u) (au_name u) (au_role u) (au_provider u)
      (Some (default fresh (au_jti u))))) ∧
  ∀ t, (issued_at + Z.max secs 60 + 60 < t)%Z →
    require_auth cf (at_time t r) m path (Some ("Bearer " +:+ tok)) =
    Err (api_unauthorized "invalid or expired token").
Proof.
  intros Hi He Hp Hr Hn. split.
  - rewrite (require_auth_issued _ _ _ _ _ _ Hi He) by done. unfold JWT_LEEWAY.
    destruct (Z.leb_spec (rd_now r - 60) (issued_at + Z.max secs 60)); [|lia]. by rewrite Hr.
  - intros t Ht. rewrite (require_auth_issued _ _ _ _ _ _ Hi He) by done. cbn [rd_now at_time]. unfold JWT_LEEWAY.
    destruct (Z.leb_spec (t - 60) (issued_at + Z.max secs 60)); [lia|done].
Qed.

(** logging out before the token expires makes every protected route refuse it until it
    expires; the revocation is then gone while the token is still in its leeway, so for
    the minute after its expiry the token that was logged out is accepted again.  The
    route that tells who is logged in never looks at revocations. *)
Theorem logged_out_token cf issued_at fresh u secs tok r m path :
  issue_token cf issued_at fresh u secs = Some tok → cf_auth_enabled cf = true → is_public_route m path = false →
  rd_up r = true → default fresh (au_jti u) ≠ "" → (rd_now r < issued_at + Z.max secs 60)%Z →
  ∃ r', logout cf (Some ("Bearer " +:+ tok)) r = (r', Ok ()) ∧
    (∀ t, (t < issued_at + Z.max secs 60)%Z →
       require_auth cf (at_time t r') m path (Some ("Bearer " +:+ tok)) = Err (api_unauthorized "token revoked")) ∧
    (∀ t, (issued_at + Z.max secs 60 ≤ t ≤ issued_at + Z.max secs 60 + 60)%Z →
       ∃ owner, require_auth cf (at_time t r') m path (Some ("Bearer " +:+ tok)) = Ok (Some owner) ∧
         au_sub owner = au_sub u ∧ au_role owner = au_role u) ∧
    (∀ t, (t ≤ issued_at + Z.max secs 60 + 60)%Z →
       ∃ owner, me cf t (Some ("Bearer " +:+ tok)) None = Ok (true, Some owner)).
Proof.
  intros Hi He Hp Hup Hj Hn. unfold logout, me. rewrite He, bearer_token. cbn [negb].
  pose proof (verify_issued _ _ _ _ _ _ Hi) as Hv. pose proof (remaining_issued _ _ _ _ _ _ Hi (rd_now r)) as Hrem.
  unfold JWT_LEEWAY in *. rewrite Hv, Hrem by lia.
  destruct (Z.leb_spec (rd_now r - 60) (issued_at + Z.max secs 60)) as [_|]; [|lia].
  cbn [au_jti]. unfold revoke_jti. rewrite Hup.
  assert (is_empty (default fresh (au_jti u)) = false) as Hne by (by destruct (default fresh (au_jti u))).
  rewrite Hne. cbn [orb default from_option id].
  destruct (Z.eqb_spec (Z.max (issued_at + Z.max secs 60 - rd_now r) 0) 0) as [|_]; [lia|].
  set (key := REVOKED_PREFIX +:+ default fresh (au_jti u)). eexists. split; [reflexivity|].
  assert (∀ t, is_revoked (default fresh (au_jti u)) (at_time t (rd_put key "1"
    (Some (Z.max (issued_at + Z.max secs 60 - rd_now r) 0)) r)) = Ok (t <? issued_at + Z.max secs 60)%Z) as Hrev.
  { intros t. unfold is_revoked. rewrite Hne. cbn [rd_up at_time rd_put]. rewrite Hup. fold key.
    unfold rd_get. cbn [rd_keys at_time rd_put rd_now]. rewrite lookup_insert_eq. cbn. f_equal.
    replace (rd_now r + Z.max (issued_at + Z.max secs 60 - rd_now r) 0)%Z with (issued_at + Z.max secs 60)%Z by lia.
    by destruct (t <? _)%Z. }
  split_and!.
  - intros t Ht. rewrite (require_auth_issued _ _ _ _ _ _ Hi He), Hrev by done. cbn [rd_now at_time]. unfold JWT_LEEWAY.
    destruct (Z.leb_spec (t - 60) (issued_at + Z.max secs 60)); [|lia].
    cbn [mbind outcome_bind]. by destruct (Z.ltb_spec t (issued_at + Z.max secs 60)); [|lia].
  - intros t Ht. rewrite (require_auth_issued _ _ _ _ _ _ Hi He), Hrev by done. cbn [rd_now at_time]. unfold JWT_LEEWAY.
    destruct (Z.leb_spec (t - 60) (issued_at + Z.max secs 60)); [|lia].
    cbn [mbind outcome_bind]. destruct (Z.ltb_spec t (issued_at + Z.max secs 60)); [lia|]. by eexists.
  - intros t Ht. rewrite Hv. destruct (Z.leb_spec (t - 60) (issued_at + Z.max secs 60)); [|lia]. by eexists.
Qed.
End access.

(** ** Start-up *)
(** the service starts with authentication on only with a secret that is neither blank
    nor the published default and with a bootstrap token for agents, and with the mutual
    TLS listener only with that token. *)
Theorem starts_closed `{Platform} env cf :
  Config_from_env env = Some cf →
  (cf_auth_enabled cf = true → trim_is_empty (cf_jwt_secret cf) = false ∧
     cf_jwt_secret cf ≠ "change-me-in-production" ∧ is_Some (cf_agent_bootstrap_token cf)) ∧
  (is_Some (cf_agent_mtls_bind_addr cf) → is_Some (cf_agent_bootstrap_token cf)) ∧
  (∀ t, cf_agent_bootstrap_token cf = Some t → trim_is_empty t = false).
Proof.
  unfold Config_from_env. set (en := default false (truthy <$> env "AUTH_ENABLED")).
  destruct (jwt_secret_of en (env "JWT_SECRET")) as [secret|] eqn:Es; [|done]. cbn [mbind option_bind].
  destruct (validate_agent_bootstrap_requirements _ _ _) eqn:Ev; [|done]. intros [= <-].
  cbn [cf_auth_enabled cf_jwt_secret cf_agent_bootstrap_token cf_agent_mtls_bind_addr].
  unfold validate_agent_bootstrap_requirements in Ev. apply andb_true_iff in Ev as [E1 E2].
  split_and!.
  - intros Hen. rewrite Hen in *. unfold jwt_secret_of in Es.
    destruct (env "JWT_SECRET") as [s|]; [|done]. destruct (negb _ && negb _) eqn:E; [|done]. injection Es as <-.
    apply andb_true_iff in E as [Hb Hd]. apply negb_true_iff in Hb, Hd. apply String.eqb_neq in Hd.
    split_and!; [done|done|]. destruct (present (env "AGENT_BOOTSTRAP_TOKEN")); [by eexists|done].
  - intros Hm. rewrite (bool_decide_eq_true_2 _ Hm) in E2.
    destruct (present (env "AGENT_BOOTSTRAP_TOKEN")); [by eexists|done].
  - intros t. unfold present. destruct (env "AGENT_BOOTSTRAP_TOKEN") as [s|]; [|done]. cbn.
    destruct (trim_is_empty s) eqn:E; [done|]. by intros [= <-].
Qed.

(** ** Settings *)
Section settings.
Context (cf : ApiConfig) (user : option AuthUserClaims).
(** authentication is off, or the caller is an administrator. *)
Definition may_administer : Prop := cf_auth_enabled cf = false ∨ ∃ u, user = Some u ∧ is_admin u = true.
Lemma ensure_settings_admin_spec :
  (ensure_settings_admin cf user = Ok () ∧ may_administer) ∨
  (∃ e, ensure_settings_admin cf user = Err e) ∧ ¬ may_administer.
Proof.
  unfold ensure_settings_admin, require_admin, may_administer. destruct (cf_auth_enabled cf); cbn; [|left; auto].
  destruct user as [u|]; [destruct (is_admin u) eqn:Ea|].
  - left. split; [done|]. right. by exists u.
  - right. split; [by eexists|]. intros [?|(v & [= <-] & Hv)]; congruence.
  - right. split; [by eexists|]. intros [?|(v & ? & _)]; congruence.
Qed.
End settings.

(** only an administrator changes the settings, each handler changes its own part, and
    what is read afterwards is what was answered: a session lasts at least an hour, a
    client secret that is left blank stays as it was, and no answer contains it. *)
Theorem settings_changes cf user db :
  (∀ body db' a, put_identity cf user body db = (db', a) →
     match a with
     | Ok v => may_administer cf user ∧ get_identity cf user db' = Ok v ∧ (1 ≤ id_session_hours v)%Z ∧
         ∃ s, load_settings db = Ok s ∧ load_settings db' = Ok (mk_AuthSettings v (as_oidc s) (as_saml s))
     | _ => db' = db
     end) ∧
  (∀ oidc saml db' a, put_sso cf user oidc saml db = (db', a) →
     match a with
     | Ok v => may_administer cf user ∧ get_sso cf user db' = Ok v ∧
         ∃ s, load_settings db = Ok s ∧
           load_settings db' = Ok (mk_AuthSettings (as_identity s) (oidc_of_request oidc (as_oidc s)) saml) ∧
           (∀ b, oi_client_secret oidc = Some b → trim_is_empty b = true →
              oi_client_secret (oidc_of_request oidc (as_oidc s)) = oi_client_secret (as_oidc s))
     | _ => db' = db
     end).
Proof.
  destruct (ensure_settings_admin_spec cf user) as [[He Hm]|[[e He] Hm]].
  2: { split; intros; unfold put_identity, put_sso in *; rewrite He in *; simplify_eq; done. }
  unfold put_identity, put_sso, get_identity, get_sso, load_settings, save_settings. rewrite He.
  destruct (db_up db) eqn:Eu; cbn; (split; [intros body db' a|intros oidc saml db' a]); rewrite ?Eu; intros [= <- <-];
    try done; cbn.
  - split; [done|]. split; [done|]. split; [lia|]. by eexists.
  - split; [done|]. split; [done|]. eexists. split; [done|]. split; [done|].
    intros b Hb Ht. unfold merge_secret. by rewrite Hb, Ht.
Qed.

(** ** Examples *)
Definition toy_user : AuthUserClaims := mk_AuthUserClaims "u1" None (Some "Uma") "viewer" "oidc" None.
Definition toy_config : ApiConfig := mk_ApiConfig true "s3cret" "guestkit" "operator" (Some "boot") None.
Definition toy_claims : JwtClaims := mk_JwtClaims "u1" None (Some "Uma") "viewer" "oidc" "guestkit" 4600 1000 "id-1".
#[export] Instance JwtClaims_eq_dec : EqDecision JwtClaims.
Proof. solve_decision. Defined.
(** one token, for one user. *)
#[local] Instance toy_jwt : JwtCrate := {|
  jwt_encode secret c := if bool_decide (c = toy_claims ∧ secret = "s3cret") then Some "tok" else None;
  jwt_decode now secret iss check tok :=
    if String.eqb tok "tok" && String.eqb secret "s3cret" then
      if String.eqb (jc_iss toy_claims) iss && (negb check || (now - JWT_LEEWAY <=? jc_exp toy_claims)%Z)
      then Some toy_claims else None
    else None
|}.
#[local] Instance toy_jwt_laws : JwtLaws.
Proof.
  split. intros now secret iss check c tok. unfold jwt_encode, jwt_decode, toy_jwt.
  case_bool_decide as E; [|done]. destruct E as [-> ->]. by intros [= <-].
Qed.
Definition toy_redis (t : Z) : redis := mk_redis true t ∅ ∅.

(** a viewer's token passes to handlers that run commands and write files in guests and
    that apply manifests to the cluster: they ask for no role. *)
Example viewer_runs_commands :
  Forall (fun '(m, path, h) =>
    serve toy_config (toy_redis 2000) m path (Some "Bearer tok") = Ok (Some (h, Some (user_of toy_claims))) ∧
    handler_guard h toy_config (Some (user_of toy_claims)) = Ok ())
    [("POST", "/api/v1/kubevirt/vms/prod/db/vmtools/exec", "exec_vm_handler");
     ("POST", "/api/v1/kubevirt/vms/prod/db/guest/file/write", "post_guest_file_write");
     ("POST", "/api/v1/kubevirt/vms/prod/db/vmtools/shutdown", "shutdown_vm_handler");
     ("POST", "/api/v1/kubevirt/apply", "apply_yaml_handler");
     ("DELETE", "/api/v1/vms/7", "delete_vm")] ∧
  handler_guard "post_restart_unit" toy_config (Some (user_of toy_claims)) =
    Err (api_forbidden "operator or admin role required for guest remediation").
Proof. split; [repeat constructor; vm_compute; reflexivity|vm_compute; reflexivity]. Qed.
(** a report of any agent is read without a token. *)
Example reports_are_public :
  serve toy_config (toy_redis 2000) "GET" "/api/v1/guest-agents/db-1/report" None =
    Ok (Some ("get_guest_agent_report", None)).
Proof. vm_compute. reflexivity. Qed.
(** a value of the switch that is not recognised turns authentication off. *)
Example switch_typo :
  let env v k := if String.eqb k "AUTH_ENABLED" then Some v else None in
  (cf_auth_enabled <$> @Config_from_env ascii_platform (env "enabled")) = Some false ∧
  @Config_from_env ascii_platform (env "true") = None.
Proof. split; vm_compute; reflexivity. Qed.

Lemma toy_issued : issue_token toy_config 1000 "id-1" toy_user 3600 = Some "tok".
Proof. reflexivity. Qed.
Lemma handlers_behind_tokens_witness : ∃ m path, serve toy_config (toy_redis 2000) m path None = Ok (Some ("me", None)).
Proof.
  destruct (handlers_behind_tokens toy_config (toy_redis 2000) eq_refl) as [_ H].
  apply (H "me"). unfold public_handlers. do 2 apply list_elem_of_further. apply list_elem_of_here.
Defined.
Lemma token_round_trip_witness :
  require_auth toy_config (toy_redis 4655) "GET" "/api/v1/vms" (Some ("Bearer " +:+ "tok")) =
  Ok (Some (mk_AuthUserClaims "u1" None (Some "Uma") "viewer" "oidc" (Some "id-1"))).
Proof.
  assert (rd_now (toy_redis 4655) ≤ 1000 + Z.max 3600 60 + 60)%Z as Hn by (vm_compute; discriminate).
  exact (proj1 (token_round_trip toy_config 1000 "id-1" toy_user 3600 "tok" (toy_redis 4655) "GET" "/api/v1/vms"
    toy_issued eq_refl ltac:(vm_compute; reflexivity) ltac:(vm_compute; reflexivity) Hn)).
Defined.
Lemma logged_out_token_witness : ∃ r' owner,
  logout toy_config (Some ("Bearer " +:+ "tok")) (toy_redis 2000) = (r', Ok ()) ∧
  require_auth toy_config (at_time 4630 r') "GET" "/api/v1/vms" (Some ("Bearer " +:+ "tok")) = Ok (Some owner).
Proof.
  assert (rd_now (toy_redis 2000) < 1000 + Z.max 3600 60)%Z as Hn by (vm_compute; reflexivity).
  destruct (logged_out_token toy_config 1000 "id-1" toy_user 3600 "tok" (toy_redis 2000) "GET" "/api/v1/vms"
    toy_issued eq_refl ltac:(vm_compute; reflexivity) eq_refl ltac:(discriminate) Hn) as (r' & Hl & _ & Hb & _).
  assert (1000 + Z.max 3600 60 ≤ 4630 ≤ 1000 + Z.max 3600 60 + 60)%Z as Ht by (vm_compute; split; discriminate).
  destruct (Hb 4630%Z Ht) as (owner & Ho & _). exists r', owner. split; [exact Hl|exact Ho].
Defined.
Lemma starts_closed_witness : ∃ cf, is_Some (cf_agent_bootstrap_token cf) ∧ cf_auth_enabled cf = true.
Proof.
  pose (env := fun k => if String.eqb k "AUTH_ENABLED" then Some "true"
    else if String.eqb k "JWT_SECRET" then Some "s3cret"
    else if String.eqb k "AGENT_BOOTSTRAP_TOKEN" then Some "boot" else None).
  assert (@Config_from_env ascii_platform env = Some toy_config) as He by (vm_compute; reflexivity).
  destruct (@starts_closed ascii_platform env toy_config He) as [H1 _].
  exists toy_config. split; [exact (proj2 (proj2 (H1 eq_refl)))|reflexivity].
Defined.
