(* ===== verification/Saml.v ===== *)
(** * SAML log-in

    [crates/zyvor-api/src/auth/saml.rs] and the [saml_acs] handler of [routes/auth.rs]: the
    response the identity provider posts through the browser is checked and turned into a
    token.

    The XML reader, base64, the RSA check of a certificate and the time parser are other
    crates ([SamlCrates]).  The reader gives the events of a document up to its end, or
    [None] when one of them is an error; a start tag and an empty tag are one event, as the
    code treats them alike. *)
From stdpp Require Import base gmap strings list.
From Stdlib Require Import ZArith Lia Ascii.
From S2P Require Import Prelude RustStr Words ControlAuth.

Inductive xml_event : Type :=
  | XStart (local : string) (attributes : list (string * string))
  | XText (text : string)
  | XEnd (local : string)
  | XOther.

Class SamlCrates := {
  xml_events : string → option (list xml_event);
  saml_b64 : string → option string;
  saml_utf8 : string → bool;
  (** certificate, message and signature; [None]: the certificate cannot be used *)
  rsa_sha256_verify : string → string → string → option bool;
  (** whether a time lies after the second [now]; [None]: it is no time *)
  later_than : Z → string → option bool
}.

(** the text before the first occurrence, and the text from there on. *)
Fixpoint find_at (pat s : string) : option (string * string) :=
  if String.prefix pat s then Some ("", s)
  else match s with
       | EmptyString => None
       | String c s => (fun x => (String c x.1, x.2)) <$> find_at pat s
       end.
Definition extract_between (haystack start_tag end_tag : string) : option string :=
  '(_, after_start) ← find_at start_tag haystack;
  '(_, rest) ← find_at ">" after_start;
  '(content, _) ← find_at end_tag (str_drop 1 rest);
  Some (trim content).
Fixpoint remove_chars (cs : list ascii) (s : string) : string :=
  match s with
  | EmptyString => EmptyString
  | String c s => if existsb (Ascii.eqb c) cs then remove_chars cs s else String c (remove_chars cs s)
  end.
Definition or_else_extract (xml tag : string) : option string :=
  match extract_between xml ("<ds:" +:+ tag) ("</ds:" +:+ tag +:+ ">") with
  | Some s => Some s
  | None => extract_between xml ("<" +:+ tag) ("</" +:+ tag +:+ ">")
  end.
Definition tab_char : ascii := ascii_of_byte 9.
Definition newline_char : ascii := ascii_of_byte 10.

Section saml.
Context `{Platform} `{SamlCrates}.

Definition verify_signature (xml cert_pem : string) : outcome string () :=
  match or_else_extract xml "SignatureValue" with
  | None => Err "SAML response missing SignatureValue"
  | Some sig_value =>
      match saml_b64 (remove_chars [newline_char; " "%char; tab_char] sig_value) with
      | None => Err "invalid SignatureValue base64"
      | Some sig_bytes =>
          match or_else_extract xml "SignedInfo" with
          | None => Err "SAML response missing SignedInfo"
          | Some signed_info =>
              match rsa_sha256_verify cert_pem ("<SignedInfo>" +:+ signed_info +:+ "</SignedInfo>") sig_bytes with
              | None => Err "invalid IdP certificate PEM"
              | Some true => Ok ()
              | Some false => Err "SAML signature verification failed"
              end
          end
      end
  end.

(** the variables of the loop. *)
Record assertion_state : Type := mk_assertion_state {
  st_in_name_id : bool;
  st_in_attr_value : bool;
  st_current_attr : string;
  st_sub : string;
  st_email : option string;
  st_name : option string;
  st_groups : list string;
  st_valid : bool
}.
Definition assertion_init : assertion_state := mk_assertion_state false false "" "" None None [] true.
Definition attribute_ending (suffix : string) (attrs : list (string * string)) : option string :=
  snd <$> find (fun a => ends_with_str suffix a.1) attrs.
Definition start_event (now : Z) (local : string) (attrs : list (string * string)) (s : assertion_state)
    : assertion_state :=
  let 'mk_assertion_state n v cur sub email name groups valid := s in
  if ends_with_str "NameID" local then mk_assertion_state true v cur sub email name groups valid
  else if ends_with_str "Attribute" local then
    mk_assertion_state n v (to_lowercase (default "" (attribute_ending "Name" attrs))) sub email name groups valid
  else if ends_with_str "AttributeValue" local then mk_assertion_state n true cur sub email name groups valid
  else if ends_with_str "Conditions" local then
    mk_assertion_state n v cur sub email name groups
      (default valid (attribute_ending "NotOnOrAfter" attrs ≫= later_than now))
  else s.
Definition get_or_insert (o : option string) (v : string) : option string := Some (default v o).
Definition text_event (text : string) (s : assertion_state) : assertion_state :=
  let 'mk_assertion_state n v cur sub email name groups valid := s in
  if n && is_empty sub then mk_assertion_state n v cur (trim text) email name groups valid
  else if v then
    let val := trim text in
    if contains "mail" cur || contains "email" cur then
      mk_assertion_state n v cur sub (get_or_insert email val) name groups valid
    else if contains "name" cur || contains "displayname" cur then
      mk_assertion_state n v cur sub email (get_or_insert name val) groups valid
    else if contains "group" cur || contains "role" cur then
      mk_assertion_state n v cur sub email name (groups ++ [val]) valid
    else s
  else s.
Definition end_event (local : string) (s : assertion_state) : assertion_state :=
  let 'mk_assertion_state n v cur sub email name groups valid := s in
  if ends_with_str "NameID" local then mk_assertion_state false v cur sub email name groups valid
  else if ends_with_str "AttributeValue" local then mk_assertion_state n false cur sub email name groups valid
  else if ends_with_str "Attribute" local then mk_assertion_state n v "" sub email name groups valid
  else s.
Definition assertion_event (now : Z) (s : assertion_state) (e : xml_event) : assertion_state :=
  match e with
  | XStart local attrs => start_event now local attrs s
  | XText text => text_event text s
  | XEnd local => end_event local s
  | XOther => s
  end.
Record SamlAssertionUser : Type := mk_SamlAssertionUser {
  sau_sub : string;
  sau_email : option string;
  sau_name : option string;
  sau_groups : list string
}.
Definition parse_assertion_user (now : Z) (xml : string) : outcome string SamlAssertionUser :=
  match xml_events xml with
  | None => Err "SAML XML parse error"
  | Some es =>
      let s := foldl (assertion_event now) assertion_init es in
      if negb (st_valid s) then Err "SAML assertion expired"
      else if is_empty (st_sub s) then Err "SAML assertion missing NameID"
      else Ok (mk_SamlAssertionUser (st_sub s) (st_email s) (st_name s) (st_groups s))
  end.

Definition SUCCESS_STATUS : string := "urn:oasis:names:tc:SAML:2.0:status:Success".
Definition status_success (xml : string) : bool :=
  contains ("StatusCode Value=" +:+ dquote +:+ SUCCESS_STATUS +:+ dquote) xml
  || contains ("StatusCode Value='" +:+ SUCCESS_STATUS +:+ "'") xml.

Definition decode_response (response_b64 : string) : option string :=
  match saml_b64 (trim response_b64) with
  | Some d => Some d
  | None => saml_b64 (remove_chars [newline_char] (trim response_b64))
  end.
Definition process_acs_response (now : Z) (saml : SamlSettings) (identity : IdentitySettings) (response_b64 : string)
    : outcome string AuthUserClaims :=
  match decode_response response_b64 with
  | None => Err "invalid SAMLResponse base64"
  | Some xml =>
      if negb (saml_utf8 xml) then Err "SAMLResponse is not UTF-8"
      else if negb (status_success xml) then Err "SAML response status is not Success"
      else if trim_is_empty (sm_certificate_pem saml) then Err "IdP certificate PEM is required for SAML login"
      else
        _ ← verify_signature xml (sm_certificate_pem saml);
        user ← parse_assertion_user now xml;
        Ok (mk_AuthUserClaims (sau_sub user) (email_from_claims (sau_email user) (sau_name user) (sau_sub user))
          (sau_name user) (resolve_role identity (sau_email user) (sau_groups user)) "saml" None)
  end.

(** the token goes to the browser in the address it is sent to. *)
Definition saml_acs `{JwtCrate} (cf : ApiConfig) (now : Z) (fresh : string) (db : database) (response_b64 : string)
    : api string :=
  s ← load_settings db;
  match process_acs_response now (as_saml s) (as_identity s) response_b64 with
  | Ok u =>
      let u := mk_AuthUserClaims (au_sub u) (au_email u) (au_name u) (au_role u) (au_provider u) (Some fresh) in
      match issue_token cf now "" u (session_secs s) with
      | Some jwt => Ok jwt
      | None => Err (api_internal "JWT issuance failed")
      end
  | Err e => Err (api_bad_request ("SAML ACS failed: " +:+ e))
  | Panic => Panic
  end.
End saml.

(** ** What a SAML response proves

    Theorems on [Saml]: the signature check depends on the signature element alone, so a
    signed response can be extended at will, and a user who can log in becomes an
    administrator. *)
(** ** Searching a text that goes on *)
Lemma text_app_cons c s t : String c s +:+ t = String c (s +:+ t).
Proof. done. Qed.
Lemma prefix_app pat s t : String.prefix pat s = true → String.prefix pat (s +:+ t) = true.
Proof.
  revert s. induction pat as [|c pat IH]; intros s; [by destruct (s +:+ t)|].
  destruct s as [|c' s]; [done|]. rewrite text_app_cons. cbn. destruct (ascii_dec c c'); [apply IH|done].
Qed.
Lemma prefix_app_inv pat s t :
  String.length pat ≤ String.length s → String.prefix pat (s +:+ t) = true → String.prefix pat s = true.
Proof.
  revert s. induction pat as [|c pat IH]; intros s Hl; [by destruct s|].
  destruct s as [|c' s]; cbn in Hl; [lia|]. rewrite text_app_cons. cbn.
  destruct (ascii_dec c c'); [apply IH; lia|done].
Qed.
Lemma prefix_length pat s : String.prefix pat s = true → String.length pat ≤ String.length s.
Proof.
  revert s. induction pat as [|c pat IH]; intros s; [cbn; lia|]. destruct s as [|c' s]; [done|]. cbn.
  destruct (ascii_dec c c'); [|done]. intros H%IH. lia.
Qed.
Lemma find_at_unfold pat s :
  find_at pat s =
  if String.prefix pat s then Some ("", s)
  else match s with
       | EmptyString => None
       | String c s => (fun x => (String c x.1, x.2)) <$> find_at pat s
       end.
Proof. by destruct s. Qed.
Lemma find_at_length pat s x : find_at pat s = Some x → String.length pat ≤ String.length s.
Proof.
  revert x. induction s as [|c s IH]; intros x; rewrite find_at_unfold; destruct (String.prefix pat _) eqn:E;
    try (by intros _; apply prefix_length); [done|].
  destruct (find_at pat s) as [y|]; [|done]. intros _. specialize (IH y eq_refl). cbn. lia.
Qed.
Lemma find_at_app pat s t b r : find_at pat s = Some (b, r) → find_at pat (s +:+ t) = Some (b, r +:+ t).
Proof.
  revert b. induction s as [|c s IH]; intros b; rewrite (find_at_unfold pat (_ +:+ t)), find_at_unfold.
  - destruct (String.prefix pat "") eqn:E; [|done]. intros [= <- <-]. by rewrite (prefix_app _ _ t E).
  - destruct (String.prefix pat (String c s)) eqn:E.
    { intros [= <- <-]. by rewrite (prefix_app _ _ t E). }
    destruct (find_at pat s) as [[b' r']|] eqn:Ef; [|done]. intros [= <- <-].
    destruct (String.prefix pat (String c s +:+ t)) eqn:E'.
    { apply prefix_app_inv in E'; [congruence|]. apply find_at_length in Ef. cbn. lia. }
    rewrite text_app_cons. by rewrite (IH b' eq_refl).
Qed.
Lemma find_at_suffix pat s b r : find_at pat s = Some (b, r) → String.prefix pat r = true.
Proof.
  revert b. induction s as [|c s IH]; intros b; rewrite find_at_unfold.
  - destruct (String.prefix pat "") eqn:E; [|done]. by intros [= <- <-].
  - destruct (String.prefix pat (String c s)) eqn:E; [by intros [= <- <-]|].
    destruct (find_at pat s) as [[b' r']|]; [|done]. intros [= _ <-]. by eapply IH.
Qed.
Lemma extract_between_app h t st en x :
  extract_between h st en = Some x → extract_between (h +:+ t) st en = Some x.
Proof.
  unfold extract_between. destruct (find_at st h) as [[b1 r1]|] eqn:E1; [|done].
  rewrite (find_at_app _ _ t _ _ E1). cbn [mbind option_bind].
  destruct (find_at ">" r1) as [[b2 r2]|] eqn:E2; [|done]. rewrite (find_at_app _ _ t _ _ E2).
  cbn [mbind option_bind]. apply find_at_suffix in E2. destruct r2 as [|c r2]; [done|].
  rewrite text_app_cons. cbn [str_drop].
  destruct (find_at en r2) as [[b3 r3]|] eqn:E3; [|done]. by rewrite (find_at_app _ _ t _ _ E3).
Qed.

(** ** The signature and the assertion *)
Section saml_props.
Context `{Platform} `{SamlCrates}.

(** the response has its signature in the usual name space. *)
Definition ds_signed (xml : string) : Prop :=
  is_Some (extract_between xml "<ds:SignatureValue" "</ds:SignatureValue>") ∧
  is_Some (extract_between xml "<ds:SignedInfo" "</ds:SignedInfo>").
Lemma or_else_extract_app h t tag :
  is_Some (extract_between h ("<ds:" +:+ tag) ("</ds:" +:+ tag +:+ ">")) →
  or_else_extract (h +:+ t) tag = or_else_extract h tag.
Proof. intros [x Hx]. unfold or_else_extract. by rewrite (extract_between_app _ t _ _ _ Hx), Hx. Qed.
Lemma verify_signature_app h t pem : ds_signed h → verify_signature (h +:+ t) pem = verify_signature h pem.
Proof.
  intros [H1 H2]. unfold verify_signature.
  by rewrite (or_else_extract_app h t "SignatureValue" H1), (or_else_extract_app h t "SignedInfo" H2).
Qed.
Lemma contains_app pat s t : contains pat s = true → contains pat (s +:+ t) = true.
Proof.
  induction s as [|c s IH]; intros Hc.
  - cbn in Hc. destruct pat; [|done]. by destruct ("" +:+ t).
  - rewrite text_app_cons. cbn in *. apply orb_true_iff in Hc as [Hp|Hc]; apply orb_true_iff.
    + left. by apply (prefix_app pat (String c s) t).
    + right. by apply IH.
Qed.
Lemma status_success_app h t : status_success h = true → status_success (h +:+ t) = true.
Proof.
  unfold status_success. intros [E|E]%orb_true_iff; apply orb_true_iff; [left|right]; by apply contains_app.
Qed.

(** an attribute that names a group: its text and its events. *)
Definition group_text (g : string) : string :=
  "<Attribute Name='groups'><AttributeValue>" +:+ g +:+ "</AttributeValue></Attribute>".
Definition group_attribute (g : string) : list xml_event :=
  [XStart "Attribute" [("Name", "groups")]; XStart "AttributeValue" []; XText g; XEnd "AttributeValue"; XEnd "Attribute"].
Lemma group_attribute_adds now g s :
  st_sub s ≠ "" →
  let s' := foldl (assertion_event now) s (group_attribute g) in
  st_groups s' = st_groups s ++ [trim g] ∧ st_sub s' = st_sub s ∧ st_email s' = st_email s ∧
  st_name s' = st_name s ∧ st_valid s' = st_valid s.
Proof.
  destruct s as [n v cur sub email name groups valid]. cbn [st_sub]. intros Hs.
  assert (is_empty sub = false) as Hne by (by destruct sub).
  cbn -[trim]. rewrite Hne, andb_false_r. cbn. done.
Qed.

(** what the crates are documented to do: every text has an encoding in base64, which has no
    white space; a text in UTF-8 stays one when ASCII is appended; and the reader, which gives
    one event after the other and does not ask for a single root element, gives the events of
    a document and then those of the element that follows it. *)
Definition group_name (g : string) : Prop := word g ∧ contains_char "<" g = false ∧ contains_char "&" g = false.
Record saml_reads : Prop := mk_saml_reads {
  sl_b64 : ∀ x, ∃ e, str_forall word_char e = true ∧ saml_b64 e = Some x;
  sl_utf8 : ∀ h t, saml_utf8 h = true → ascii_text t → saml_utf8 (h +:+ t) = true;
  sl_events : ∀ h es g, group_name g → xml_events h = Some es →
    xml_events (h +:+ group_text g) = Some (es ++ group_attribute g)
}.
Lemma str_forall_app q s t : str_forall q (s +:+ t) = str_forall q s && str_forall q t.
Proof. induction s as [|c s IH]; [done|]. rewrite text_app_cons. cbn. by rewrite IH, andb_assoc. Qed.
Lemma group_text_ascii g : group_name g → ascii_text (group_text g).
Proof.
  intros [[_ Hg] _]. unfold ascii_text, group_text. rewrite !str_forall_app. rewrite andb_true_r. cbn [andb].
  induction g as [|c g IH]; [done|]. apply text_forall_cons in Hg as [Hc Hg]. unfold word_char in Hc.
  apply andb_true_iff in Hc as [Hc _]. apply text_forall_cons. split; [done|by apply IH].
Qed.
Lemma decode_onto x : saml_reads → ∃ resp, decode_response resp = Some x.
Proof.
  intros Hl. destruct (sl_b64 Hl x) as (e & He & Hx). exists e. unfold decode_response.
  by rewrite trim_nowhite, Hx.
Qed.

(** C7: any response that logs a user in, with its signature in elements of the prefix [ds],
    can be extended without touching the signature to one that logs the same user in as an
    administrator: it is enough to append an attribute that names an administrators' group
    (one of visible ASCII characters other than < and &),
    because the signature is checked over the signed information alone and never compared
    with the assertion.  Of the crates it is assumed that every text has a base64 form,
    that appending ASCII keeps UTF-8 valid, and that the XML reader goes on after the end of
    the document. *)
Theorem signed_response_extends now saml identity resp h g u : saml_reads →
  decode_response resp = Some h → ds_signed h → process_acs_response now saml identity resp = Ok u →
  group_name g → existsb (fun a => eq_ignore_ascii_case a g) (id_admin_roles identity) = true →
  ∃ resp' u', decode_response resp' = Some (h +:+ group_text g) ∧
    process_acs_response now saml identity resp' = Ok u' ∧
    au_sub u' = au_sub u ∧ au_email u' = au_email u ∧ au_role u' = ROLE_ADMIN.
Proof.
  intros Hl Hd Hds Hp Hn Hg. destruct (decode_onto (h +:+ group_text g) Hl) as [resp' Hd'].
  exists resp'. unfold process_acs_response in *. rewrite Hd in Hp. rewrite Hd'.
  destruct (saml_utf8 h) eqn:Hu; [|done]. rewrite (sl_utf8 Hl _ _ Hu (group_text_ascii g Hn)).
  destruct (status_success h) eqn:Es; [|done].
  rewrite (status_success_app _ _ Es). cbn [negb] in *. destruct (trim_is_empty _); [done|].
  apply outcome_bind_Ok in Hp as (x & Hv & Hp). apply outcome_bind_Ok in Hp as (user & Hparse & [= <-]).
  rewrite verify_signature_app, Hv by done. cbn [mbind outcome_bind].
  unfold parse_assertion_user in *. destruct (xml_events h) as [es|] eqn:He; [|done].
  rewrite (sl_events Hl h es g Hn He), foldl_app.
  set (s := foldl (assertion_event now) assertion_init es) in *.
  destruct (st_valid s) eqn:Ev; [|done]. destruct (is_empty (st_sub s)) eqn:Esub; [done|]. injection Hparse as <-.
  assert (st_sub s ≠ "") as Hne by (intros E; by rewrite E in Esub).
  destruct (group_attribute_adds now g s Hne) as (Hgr & Hsub & Hem & Hnm & Hval).
  rewrite Hval, Hsub, Hem, Hnm, Hgr, Ev, Esub. cbn -[resolve_role]. eexists. split; [done|].
  split; [done|]. split_and!; try done. cbn [au_role]. unfold resolve_role.
  destruct (match st_email s with Some _ => _ | None => _ end); [done|].
  rewrite existsb_app. cbn [existsb]. destruct Hn as [[_ Hw] _]. by rewrite trim_nowhite, Hg, orb_true_r.
Qed.
End saml_props.

(** ** An example

    A reader of tags and texts, and a base64 made of digits. *)
Definition toy_tag (b : string) : xml_event :=
  if String.eqb b "Attribute Name='groups'" then XStart "Attribute" [("Name", "groups")]
  else if starts_with "/" b then XEnd (str_drop 1 b) else XStart b [].
Definition toy_flush (es : list xml_event) (b : string) : list xml_event :=
  if is_empty b then es else es ++ [XText b].
(** [inl b]: in the text [b]; [inr b]: in a tag. *)
Definition toy_step (st : list xml_event * (string + string)) (c : ascii) : list xml_event * (string + string) :=
  match st with
  | (es, inl b) => if Ascii.eqb c "<" then (toy_flush es b, inr "") else (es, inl (b +:+ String c ""))
  | (es, inr b) => if Ascii.eqb c ">" then (es ++ [toy_tag b], inl "") else (es, inr (b +:+ String c ""))
  end.
Definition toy_scan (st : list xml_event * (string + string)) (s : string) : list xml_event * (string + string) :=
  foldl toy_step st (String.list_ascii_of_string s).
Definition toy_events (xml : string) : option (list xml_event) :=
  match toy_scan ([], inl "") xml with (es, inl b) => Some (toy_flush es b) | (_, inr _) => None end.
Lemma toy_scan_app st s t : toy_scan st (s +:+ t) = toy_scan (toy_scan st s) t.
Proof.
  unfold toy_scan. rewrite <- foldl_app. f_equal. induction s as [|c s IH]; [done|]. exact (f_equal (cons c) IH).
Qed.
Lemma toy_scan_text es b s : contains_char "<" s = false → toy_scan (es, inl b) s = (es, inl (b +:+ s)).
Proof.
  revert b. induction s as [|c s IH]; intros b Hs; [by rewrite text_app_nil|].
  cbn [contains_char] in Hs. apply orb_false_iff in Hs as [Hc Hs]. rewrite Ascii.eqb_sym in Hc.
  change (toy_scan (es, inl b) (String c s)) with (toy_scan (toy_step (es, inl b) c) s).
  cbn [toy_step]. rewrite Hc, IH by done. by rewrite text_app_assoc.
Qed.
Lemma toy_events_app h es g : group_name g → toy_events h = Some es →
  toy_events (h +:+ group_text g) = Some (es ++ group_attribute g).
Proof.
  intros ([Hne _] & Hg & _). unfold toy_events, group_text. rewrite !toy_scan_app.
  destruct (toy_scan ([], inl "") h) as [es0 [b|b]]; [|done]. intros [= <-].
  change (toy_scan (es0, inl b) "<Attribute Name='groups'><AttributeValue>") with
    ((toy_flush es0 b ++ [toy_tag "Attribute Name='groups'"]) ++ [toy_tag "AttributeValue"], inl (A:=string) (B:=string) "").
  rewrite toy_scan_text by done.
  change (toy_scan (?e, inl ("" +:+ g)) "</AttributeValue></Attribute>") with
    ((toy_flush e g ++ [toy_tag "/AttributeValue"]) ++ [toy_tag "/Attribute"], inl (A:=string) (B:=string) "").
  unfold toy_flush at 1 2. cbn [is_empty]. destruct g as [|c g]; [done|]. cbn [is_empty]. rewrite <- !app_assoc. done.
Qed.

Definition toy_response : string :=
  "<R><StatusCode Value='" +:+ SUCCESS_STATUS +:+ "'/><ds:SignedInfo>digest</ds:SignedInfo>" +:+
  "<ds:SignatureValue>" +:+ in_digits "sig" +:+ "</ds:SignatureValue><NameID>uma</NameID></R>".
Definition toy_saml_crates : SamlCrates := {|
  xml_events := toy_events;
  saml_b64 s := match of_digits s with Some (x, EmptyString) => Some x | _ => None end;
  saml_utf8 s := true;
  rsa_sha256_verify pem message sig :=
    Some (String.eqb message "<SignedInfo>digest</SignedInfo>" && String.eqb sig "sig");
  later_than _ _ := None
|}.
Lemma in_digits_words s : str_forall word_char (in_digits s) = true.
Proof. induction s as [|[a b c d e f g h] s IH]; [done|]. cbn. rewrite IH. by destruct a, b, c, d, e, f, g, h. Qed.
Lemma toy_saml_reads : @saml_reads toy_saml_crates.
Proof.
  split; [|done|apply toy_events_app]. intros x. exists (in_digits x). split; [apply in_digits_words|].
  cbn. pose proof (of_in_digits x "") as H. rewrite text_app_nil in H. by rewrite H.
Qed.
Notation toy_acs := (@process_acs_response ascii_platform toy_saml_crates 0
  (mk_SamlSettings false "" "" "" "PEM" "" "") IdentitySettings_defaults).
(** the same signature, another role. *)
Example toy_login : au_role <$> toy_acs (in_digits toy_response) = Ok "operator".
Proof. vm_compute. reflexivity. Qed.

Lemma signed_response_extends_witness : ∃ resp' u',
  @decode_response toy_saml_crates resp' = Some (toy_response +:+ group_text "admin") ∧
  toy_acs resp' = Ok u' ∧ au_sub u' = "uma" ∧ au_role u' = ROLE_ADMIN.
Proof.
  assert (∃ u, toy_acs (in_digits toy_response) = Ok u ∧ au_sub u = "uma") as (u & Hu & Hs)
    by (eexists; split; vm_compute; reflexivity).
  assert (ds_signed toy_response) as Hds by (split; vm_compute; eexists; reflexivity).
  assert (@decode_response toy_saml_crates (in_digits toy_response) = Some toy_response) as H1 by (vm_compute; reflexivity).
  destruct (@signed_response_extends ascii_platform toy_saml_crates 0 _ IdentitySettings_defaults
    (in_digits toy_response) toy_response "admin" u toy_saml_reads H1 Hds Hu) as (resp' & u' & Hd & Hp & Hsub & _ & Hr).
  - split; [split; [discriminate|reflexivity]|split; reflexivity].
  - reflexivity.
  - exists resp', u'. rewrite <- Hs. split; [exact Hd|]. split; [exact Hp|]. split; [exact Hsub|exact Hr].
Defined.
