(* ===== verification/GuestActions.v ===== *)
(** * Guest actions and their approval

    [crates/zyvor-api/src/guest_action_policy.rs], [guest_actions.rs] and the handlers that
    ask for an action in a guest ([kubevirt_guest_intel.rs], [kubevirt_vmtools_ops.rs],
    [guest_control/routes.rs]).

    The policy object of the cluster is an argument ([None]: no cluster, or no object that
    can be read).  Actions wait in Redis as JSON ([ActionJson]); every command to Redis can
    fail, and one that fails may have been carried out all the same ([redis_reply]).  What is
    sent to a guest is logged in [ct_sent] with whether it was answered.  Identifiers are new (version 4
    UUIDs): a step that makes one takes it as an argument and is possible only for one that
    was not used.  An approval reads the action, runs it and writes it back, so it is also
    cut there, to let calls run at the same time. *)
From stdpp Require Import base gmap strings list.
From Stdlib Require Import ZArith Lia Ascii.
From S2P Require Import Prelude RustStr ControlAuth.

(** ** Policy *)
Record GuestActionPolicySpec : Type := mk_GuestActionPolicySpec {
  gp_allowed_actions : list string;
  gp_restart_unit_allowlist : list string;
  gp_exec_allowlist : list string;
  gp_file_read_allowlist : list string;
  gp_file_write_allowlist : list string;
  gp_freeze_allowed : bool;
  gp_max_exec_output_bytes : Z;
  gp_require_approval : bool
}.
Definition default_max_output : Z := (32 * 1024)%Z.
Definition restart_unit_allowed (p : GuestActionPolicySpec) (unit : string) : bool :=
  if negb (bool_decide (gp_allowed_actions p = [])) &&
     negb (existsb (fun a => String.eqb a "restart_unit" || String.eqb a "restart-unit") (gp_allowed_actions p))
  then false
  else if bool_decide (gp_restart_unit_allowlist p = []) then true
  else existsb (fun u => String.eqb u unit) (gp_restart_unit_allowlist p).
Definition dash_to_underscore (s : string) : string :=
  str_map (fun c => if Ascii.eqb c "-"%char then "_"%char else c) s.
Definition action_allowed (p : GuestActionPolicySpec) (action : string) : bool :=
  if bool_decide (gp_allowed_actions p = []) then true
  else existsb (fun a => String.eqb a action || String.eqb (dash_to_underscore a) (dash_to_underscore action))
         (gp_allowed_actions p).
Definition path_matches_allowlist (allowlist : list string) (path : string) (policy_active : bool) : bool :=
  if bool_decide (allowlist = []) then negb policy_active
  else existsb (fun p => starts_with p path || String.eqb path p) allowlist.
Fixpoint trim_end_stars (s : string) : string :=
  match s with
  | EmptyString => EmptyString
  | String c s =>
      match trim_end_stars s with
      | EmptyString => if Ascii.eqb c "*"%char then EmptyString else String c EmptyString
      | t => String c t
      end
  end.
Definition command_fits (command pat : string) : bool :=
  if ends_with_char "*"%char pat then starts_with (trim_end_stars pat) command
  else String.eqb command pat || contains pat command.
Definition command_matches_allowlist (allowlist : list string) (command : string) (policy_active : bool) : bool :=
  if bool_decide (allowlist = []) then negb policy_active else existsb (command_fits command) allowlist.

Section enforcement.
Context (policy : option GuestActionPolicySpec) (skip_approval : bool).

Definition with_policy {A} (otherwise : A) (f : GuestActionPolicySpec → api A) (what : string) : api A :=
  match policy with
  | None => Ok otherwise
  | Some p =>
      if negb skip_approval && gp_require_approval p
      then Err (api_bad_request ("GuestActionPolicy requires approval for " +:+ what))
      else f p
  end.
Definition refuse_unless (b : bool) (message : string) : api () := if b then Ok () else Err (api_bad_request message).
Definition enforce_restart_unit (unit : string) : api () :=
  with_policy () (fun p =>
    refuse_unless (restart_unit_allowed p unit) ("restart_unit denied by GuestActionPolicy for " +:+ unit))
    "remediation actions".
Definition enforce_support_bundle : api () :=
  with_policy () (fun p =>
    refuse_unless (action_allowed p "collect_support_bundle") "collect_support_bundle denied by GuestActionPolicy")
    "support bundle collection".
(** the cap on the output. *)
Definition enforce_exec (command : string) : api Z :=
  with_policy default_max_output (fun p =>
    if negb (action_allowed p "exec") && negb (bool_decide (gp_allowed_actions p = []))
    then Err (api_bad_request "exec denied by GuestActionPolicy")
    else if bool_decide (gp_exec_allowlist p = [])
    then Err (api_bad_request
      "exec denied: configure execAllowlist in GuestActionPolicy (no raw shell by default)")
    else if negb (command_matches_allowlist (gp_exec_allowlist p) command true)
    then Err (api_bad_request "exec command not in GuestActionPolicy allowlist")
    else Ok (gp_max_exec_output_bytes p)) "exec".
Definition enforce_file (action : string) (allowlist : GuestActionPolicySpec → list string) (path what : string)
    (message : string) : api () :=
  with_policy () (fun p =>
    if negb (action_allowed p action) && negb (bool_decide (gp_allowed_actions p = []))
    then Err (api_bad_request (action +:+ " denied by GuestActionPolicy"))
    else refuse_unless (path_matches_allowlist (allowlist p) path true) message) what.
Definition enforce_file_read (path : string) : api () :=
  enforce_file "file_read" gp_file_read_allowlist path "file read"
    "file path not in GuestActionPolicy read allowlist (configure fileReadAllowlist)".
Definition enforce_file_write (path : string) : api () :=
  enforce_file "file_write" gp_file_write_allowlist path "file write"
    "file path not in GuestActionPolicy write allowlist (configure fileWriteAllowlist)".
Definition enforce_freeze : api () :=
  with_policy () (fun p =>
    if negb (gp_freeze_allowed p) then Err (api_bad_request "freeze denied by GuestActionPolicy")
    else if negb (action_allowed p "freeze") && negb (bool_decide (gp_allowed_actions p = []))
    then Err (api_bad_request "freeze denied by GuestActionPolicy")
    else Ok ()) "filesystem freeze".
End enforcement.
Definition policy_requires_approval (policy : option GuestActionPolicySpec) : bool :=
  match policy with Some p => gp_require_approval p | None => false end.

(** ** Commands *)
Record ExecRequest : Type := mk_ExecRequest {
  er_path : option string;
  er_args : list string;
  er_command : option string
}.
Definition non_empty_str (o : option string) : option string :=
  o ≫= fun s => if is_empty s then None else Some s.
(** the command that is checked. *)
Definition checked_command (b : ExecRequest) : api string :=
  match non_empty_str (er_command b) with
  | Some cmd => Ok cmd
  | None =>
      match non_empty_str (er_path b) with
      | Some path => Ok (path +:+ " " +:+ join " " (er_args b))
      | None => Err (api_bad_request "Provide command or path")
      end
  end.
(** the interpreter for a command that looks like one for Windows. *)
Definition powershell : string := "C:\Windows\System32\WindowsPowerShell\v1.0\powershell.exe".
Definition exec_program (b : ExecRequest) : api (string * list string) :=
  match non_empty_str (er_command b) with
  | Some cmd =>
      if contains "\" cmd || contains "powershell" (str_map char_lower cmd) then
        Ok (powershell, ["-NoProfile"; "-NonInteractive"; "-ExecutionPolicy"; "Bypass"; "-Command"; cmd])
      else Ok ("/bin/sh", ["-c"; cmd])
  | None =>
      match non_empty_str (er_path b) with
      | Some path => Ok (path, er_args b)
      | None => Err (api_bad_request "Provide command or path")
      end
  end.
(** what [exec_vm_handler] runs in a guest whose agent is connected, and the cap on the
    output. *)
Definition exec_admitted (policy : option GuestActionPolicySpec) (b : ExecRequest) : api (Z * (string * list string)) :=
  command ← checked_command b;
  max_out ← enforce_exec policy false command;
  program ← exec_program b;
  Ok (max_out, program).
(** the checks of [post_guest_file_read] and [post_guest_file_write]. *)
Definition file_admitted (policy : option GuestActionPolicySpec) (write : bool) (path : string) : api () :=
  _ ← (if write then enforce_file_write policy false path else enforce_file_read policy false path);
  refuse_unless (negb (policy_requires_approval policy))
    ("GuestActionPolicy requires approval for file " +:+ (if write then "write" else "read")).

(** ** Pending actions *)
Record PendingGuestAction : Type := mk_PendingGuestAction {
  pg_id : string;
  pg_action : string;
  pg_namespace : string;
  pg_vm_name : string;
  pg_unit : option string;
  pg_status : string;
  pg_created_at : string;
  pg_requested_by : option string;
  pg_approved_at : option string;
  pg_approved_by : option string;
  pg_rejected_at : option string;
  pg_rejected_by : option string;
  pg_result : option string
}.
Class ActionJson := {
  action_to_json : PendingGuestAction → string;
  action_from_json : string → option PendingGuestAction
}.
Class ActionJsonLaws `{ActionJson} := {
  action_json_round_trip : ∀ a, action_from_json (action_to_json a) = Some a
}.
Definition pending_key (id : string) : string := "guest-action:pending:" +:+ id.
Definition PENDING_INDEX : string := "guest-action:pending:index".
Definition AUDIT_INDEX : string := "guest-action:audit:index".

(** a call to a guest: the action it was made for, if any, and whether it was answered. *)
Record sent_call : Type := mk_sent_call {
  sc_action : option string;
  sc_namespace : string;
  sc_vm : string;
  sc_method : string;
  sc_unit : option string;
  sc_answered : bool
}.
(** approvals and rejections in flight. *)
Inductive flight : Type :=
  | Approving (a : PendingGuestAction) (by_ : option string)
  | Executed (a : PendingGuestAction) (by_ : option string) (result : string)
  | Rejecting (a : PendingGuestAction) (by_ : option string).
Record control : Type := mk_control {
  ct_redis : redis;
  ct_sent : list sent_call;
  ct_used : gset string;
  ct_flights : gmap nat flight
}.
Definition set_redis (r : redis) (c : control) : control :=
  mk_control r (ct_sent c) (ct_used c) (ct_flights c).
Definition log_sent (x : sent_call) (c : control) : control :=
  mk_control (ct_redis c) (ct_sent c ++ [x]) (ct_used c) (ct_flights c).
Definition use_id (id : string) (c : control) : control :=
  mk_control (ct_redis c) (ct_sent c) ({[id]} ∪ ct_used c) (ct_flights c).
Definition set_flights (m : gmap nat flight) (c : control) : control :=
  mk_control (ct_redis c) (ct_sent c) (ct_used c) m.

Definition actor_label (u : AuthUserClaims) : string :=
  match au_email u with
  | Some e => e
  | None => match au_name u with Some n => n | None => au_sub u end
  end.

Section actions.
Context `{ActionJson}.
Implicit Types (cf : ApiConfig) (user : option AuthUserClaims) (policy : option GuestActionPolicySpec).

(** what became of the commands of a call to Redis. *)
Inductive redis_reply : Type := Acked | Failed (carried_out : bool).
Record redis_replies : Type := mk_redis_replies {
  cm_get : redis_reply;
  cm_set : redis_reply;
  cm_index : redis_reply;   (** of the set of waiting actions *)
  cm_audit : redis_reply
}.
Definition all_acked : redis_replies := mk_redis_replies Acked Acked Acked Acked.
Definition carried_out (k : redis_reply) : bool := match k with Acked => true | Failed b => b end.
Definition rd_write (k : redis_reply) (f : redis → redis) (c : control) : control * api () :=
  (if carried_out k then set_redis (f (ct_redis c)) c else c,
   match k with Acked => Ok () | Failed _ => Err (api_internal "redis") end).
(** [m1] and then, unless it fails, [m2]. *)
Definition and_then (m1 m2 : control → control * api ()) (c : control) : control * api () :=
  match m1 c with
  | (c, Ok _) => m2 c
  | (c, e) => (c, e)
  end.

Definition new_action (id action ns vm : string) (unit : option string) (stamp : string) (by_ : option string)
    : PendingGuestAction :=
  mk_PendingGuestAction id action ns vm unit "pending" stamp by_ None None None None None.
Definition save_pending (k : redis_reply) (a : PendingGuestAction) : control → control * api () :=
  rd_write k (rd_put (pending_key (pg_id a)) (action_to_json a) (Some 86400%Z)).
Definition load_pending (k : redis_reply) (r : redis) (id : string) : api PendingGuestAction :=
  match k with
  | Failed _ => Err (api_internal "redis")
  | Acked =>
      match rd_get r (pending_key id) ≫= action_from_json with
      | Some a => Ok a
      | None => Err (api_bad_request "pending action not found")
      end
  end.
(** [enqueue_restart_unit] and [enqueue_support_bundle]. *)
Definition enqueue (io : redis_replies) (a : PendingGuestAction) (c : control) : control * api () :=
  and_then (save_pending (cm_set io) a)
    (and_then (rd_write (cm_index io) (rd_add PENDING_INDEX (pg_id a)))
      (rd_write (cm_audit io) (rd_add AUDIT_INDEX (pg_id a)))) (use_id (pg_id a) c).

(** a call of the guest's agent; [answer]: its result, or what went wrong. *)
Definition pull_for_vm (action : option string) (ns vm method : string) (unit : option string)
    (answer : string + string) (c : control) : control * api string :=
  match answer with
  | inr v => (log_sent (mk_sent_call action ns vm method unit true) c, Ok v)
  | inl e => (log_sent (mk_sent_call action ns vm method unit false) c, Err (api_bad_request e))
  end.
Definition execute_pending policy (a : PendingGuestAction) (answer : string + string) (c : control)
    : control * api string :=
  if String.eqb (pg_action a) "restart_unit" then
    match pg_unit a with
    | None => (c, Err (api_bad_request "unit missing on pending action"))
    | Some unit =>
        match enforce_restart_unit policy true unit with
        | Ok _ => pull_for_vm (Some (pg_id a)) (pg_namespace a) (pg_vm_name a) "guestkit.restartUnit" (Some unit) answer c
        | Err e => (c, Err e)
        | Panic => (c, Panic)
        end
    end
  else if String.eqb (pg_action a) "collect_support_bundle" then
    match enforce_support_bundle policy true with
    | Ok _ => pull_for_vm (Some (pg_id a)) (pg_namespace a) (pg_vm_name a) "guestkit.collectSupportBundle" None answer c
    | Err e => (c, Err e)
    | Panic => (c, Panic)
    end
  else (c, Err (api_bad_request ("unsupported action: " +:+ pg_action a))).
Definition settled (status : string) (stamp : string) (by_ : option string) (result : option string)
    (a : PendingGuestAction) : PendingGuestAction :=
  mk_PendingGuestAction (pg_id a) (pg_action a) (pg_namespace a) (pg_vm_name a) (pg_unit a) status (pg_created_at a)
    (pg_requested_by a)
    (if String.eqb status "approved" then Some stamp else pg_approved_at a)
    (if String.eqb status "approved" then by_ else pg_approved_by a)
    (if String.eqb status "rejected" then Some stamp else pg_rejected_at a)
    (if String.eqb status "rejected" then by_ else pg_rejected_by a)
    (match result with Some v => Some v | None => pg_result a end).
Definition settle (io : redis_replies) (a : PendingGuestAction) (id : string) : control → control * api () :=
  and_then (save_pending (cm_set io) a) (rd_write (cm_index io) (rd_rem PENDING_INDEX id)).

(** the start of both handlers. *)
Definition load_for_decision cf user (io : redis_replies) (id : string) (c : control) : api PendingGuestAction :=
  _ ← require_guest_action_approver cf user;
  a ← load_pending (cm_get io) (ct_redis c) id;
  if String.eqb (pg_status a) "pending" then Ok a else Err (api_bad_request "action is not pending").
Definition approve_guest_action cf user policy (io : redis_replies) (id : string) (answer : string + string) (stamp : string)
    (c : control) : control * api string :=
  match load_for_decision cf user io id c with
  | Ok a =>
      match execute_pending policy a answer c with
      | (c, Ok result) =>
          match settle io (settled "approved" stamp (actor_label <$> user) (Some result) a) id c with
          | (c, Ok _) => (c, Ok result)
          | (c, Err e) => (c, Err e)
          | (c, Panic) => (c, Panic)
          end
      | (c, Err e) => (c, Err e)
      | (c, Panic) => (c, Panic)
      end
  | Err e => (c, Err e)
  | Panic => (c, Panic)
  end.
Definition reject_guest_action cf user (io : redis_replies) (id : string) (stamp : string) (c : control)
    : control * api () :=
  match load_for_decision cf user io id c with
  | Ok a => settle io (settled "rejected" stamp (actor_label <$> user) None a) id c
  | Err e => (c, Err e)
  | Panic => (c, Panic)
  end.
(** the actions that still wait, in the order of the set ([members]); newest first.  One
    that cannot be read is left out. *)
Definition list_pending_guest_actions cf user (gets : string → redis_reply) (index : redis_reply) (members : gset string → list string)
    (newest_first : list PendingGuestAction → list PendingGuestAction) (c : control) : api (list PendingGuestAction) :=
  _ ← require_guest_action_approver cf user;
  match index with
  | Failed _ => Err (api_internal "redis")
  | Acked =>
      Ok (newest_first (filter (fun a => String.eqb (pg_status a) "pending")
        (omap (fun id => match load_pending (gets id) (ct_redis c) id with Ok a => Some a | _ => None end)
          (members (rd_members (ct_redis c) PENDING_INDEX)))))
  end.

(** ** Asking for an action *)
Inductive asked : Type := PendingApproval (id : string) | Done (result : string).
Definition ask cf user policy (io : redis_replies) (enforced : api ()) (a : PendingGuestAction) (method : string)
    (answer : string + string) (c : control) : control * api asked :=
  match require_guest_remediation_requester cf user, enforced with
  | Ok _, Ok _ =>
      if policy_requires_approval policy then
        match enqueue io a c with
        | (c, Ok _) => (c, Ok (PendingApproval (pg_id a)))
        | (c, Err e) => (c, Err e)
        | (c, Panic) => (c, Panic)
        end
      else
        match pull_for_vm None (pg_namespace a) (pg_vm_name a) method (pg_unit a) answer c with
        | (c, Ok v) => (c, Ok (Done v))
        | (c, Err e) => (c, Err e)
        | (c, Panic) => (c, Panic)
        end
  | Err e, _ => (c, Err e)
  | Ok _, Err e => (c, Err e)
  | _, _ => (c, Panic)
  end.
Definition post_restart_unit cf user policy (io : redis_replies) (ns vm : string) (unit : option string) (id stamp : string)
    (answer : string + string) (c : control) : control * api asked :=
  match require_guest_remediation_requester cf user, unit with
  | Ok _, None => (c, Err (api_bad_request "unit is required"))
  | Ok _, Some unit =>
      ask cf user policy io (enforce_restart_unit policy true unit)
        (new_action id "restart_unit" ns vm (Some unit) stamp (actor_label <$> user)) "guestkit.restartUnit" answer c
  | Err e, _ => (c, Err e)
  | Panic, _ => (c, Panic)
  end.
Definition post_collect_support_bundle cf user policy (io : redis_replies) (ns vm : string) (id stamp : string)
    (answer : string + string) (c : control) : control * api asked :=
  ask cf user policy io (enforce_support_bundle policy true)
    (new_action id "collect_support_bundle" ns vm None stamp (actor_label <$> user)) "guestkit.collectSupportBundle"
    answer c.
(** [post_pre_snapshot_freeze] asks for a role and for nothing else. *)
Definition post_pre_snapshot_freeze cf user (ns vm : string) (answer : string + string) (c : control)
    : control * api string :=
  match require_guest_remediation_requester cf user with
  | Ok _ => pull_for_vm None ns vm "guestkit.freezeFilesystem" None answer c
  | Err e => (c, Err e)
  | Panic => (c, Panic)
  end.

(** ** Calls one after the other *)
Inductive call : Type :=
  | CallRestart user policy (io : redis_replies) (ns vm : string) (unit : option string) (id stamp : string) (answer : string + string)
  | CallBundle user policy (io : redis_replies) (ns vm id stamp : string) (answer : string + string)
  | CallApprove user policy (io : redis_replies) (id stamp : string) (answer : string + string)
  | CallReject user (io : redis_replies) (id stamp : string)
  | Pass (seconds : nat).
Definition call_step cf (e : call) (c : control) : option control :=
  match e with
  | CallRestart user policy io ns vm unit id stamp answer =>
      if bool_decide (id ∈ ct_used c) then None
      else Some (post_restart_unit cf user policy io ns vm unit id stamp answer c).1
  | CallBundle user policy io ns vm id stamp answer =>
      if bool_decide (id ∈ ct_used c) then None
      else Some (post_collect_support_bundle cf user policy io ns vm id stamp answer c).1
  | CallApprove user policy io id stamp answer => Some (approve_guest_action cf user policy io id answer stamp c).1
  | CallReject user io id stamp => Some (reject_guest_action cf user io id stamp c).1
  | Pass n => Some (set_redis (at_time (rd_now (ct_redis c) + Z.of_nat n) (ct_redis c)) c)
  end.
Fixpoint calls_run cf (es : list call) (c : control) : option control :=
  match es with
  | [] => Some c
  | e :: es => c ← call_step cf e c; calls_run cf es c
  end.
Definition no_control : control := mk_control (mk_redis true 0 ∅ ∅) [] ∅ ∅.

(** ** Calls at the same time *)
Inductive flight_event : Type :=
  | StartApprove (n : nat) user (io : redis_replies) (id : string)
  | StartReject (n : nat) user (io : redis_replies) (id : string)
  | Run (n : nat) policy (answer : string + string)
  | Finish (n : nat) (io : redis_replies) (stamp : string).
Definition flight_step cf (e : flight_event) (c : control) : option control :=
  match e with
  | StartApprove n user io id =>
      match load_for_decision cf user io id c with
      | Ok a => Some (set_flights (<[n := Approving a (actor_label <$> user)]> (ct_flights c)) c)
      | _ => Some c
      end
  | StartReject n user io id =>
      match load_for_decision cf user io id c with
      | Ok a => Some (set_flights (<[n := Rejecting a (actor_label <$> user)]> (ct_flights c)) c)
      | _ => Some c
      end
  | Run n policy answer =>
      match ct_flights c !! n with
      | Some (Approving a by_) =>
          match execute_pending policy a answer c with
          | (c, Ok result) => Some (set_flights (<[n := Executed a by_ result]> (ct_flights c)) c)
          | (c, _) => Some (set_flights (delete n (ct_flights c)) c)
          end
      | _ => None
      end
  | Finish n io stamp =>
      match ct_flights c !! n with
      | Some (Executed a by_ result) =>
          Some (set_flights (delete n (ct_flights c)) (settle io (settled "approved" stamp by_ (Some result) a) (pg_id a) c).1)
      | Some (Rejecting a by_) =>
          Some (set_flights (delete n (ct_flights c)) (settle io (settled "rejected" stamp by_ None a) (pg_id a) c).1)
      | _ => None
      end
  end.
Fixpoint flights_run cf (es : list flight_event) (c : control) : option control :=
  match es with
  | [] => Some c
  | e :: es => c ← flight_step cf e c; flights_run cf es c
  end.
End actions.
