(* ===== verification/Transport.v ===== *)
(** * How jobs reach the worker

    [crates/guestkit-worker/src/transport]: the trait [JobTransport] of [mod.rs] is a class,
    and its three implementations are instances: the in-memory queue behind the REST
    interface ([http.rs], with the submission handler of [api/handlers.rs]), the Redis
    stream ([redis.rs]) and the watched directory ([file.rs]).  [serve_turns] is the loop of
    [worker.rs] over any of them.

    JSON is another crate ([JobJson]).  The Redis stream is a list of entries whose
    identifiers are their positions, of which the consumer group remembers how many it
    handed out and which of these are not acknowledged; the connection works.  The watched
    directory is a map from file names to texts, with the queue of names the watcher
    filled; file names are relative to the directories. *)
From stdpp Require Import base gmap strings list pretty.
From Stdlib Require Import ZArith Lia Ascii SpecFloat.
From S2P Require Import Prelude RustStr F64 Evidence BootChecks BootEngine Migration Kahn FixPlan Repair JobSpec Worker.

Class JobJson `{Platform} := {
  job_to_json : JobDocument → string;
  job_from_json : string → option JobDocument
}.
Class JobTransport `{Platform} (T : Type) := {
  fetch_job : T → T * fetched;
  ack_job : string → T → T;
  nack_job : string → string → T → T
}.

(** ** The loop over a transport *)
Section serving.
Context `{P : Platform} `{Env : !WorkerEnv}.
Context (worker_id work_dir output_dir : string) (registry : HandlerRegistry).
Context {T : Type} `{!JobTransport T}.

Definition deliver_call (t : T) (call : transport_call) : T :=
  match call with
  | Ack id => ack_job id t
  | Nack id reason => nack_job id reason t
  end.
Fixpoint serve_turns (n : nat) (t : T) (s : wstate) : T * wstate * list transport_call :=
  match n with
  | O => (t, s, [])
  | S n =>
      let '(t, f) := fetch_job t in
      let '(s, calls) := turn worker_id work_dir output_dir registry f s in
      let '(t, s, calls') := serve_turns n (foldl deliver_call t calls) s in
      (t, s, calls ++ calls')
  end.
End serving.

(** ** The queue of the REST interface *)
Record HttpTransportConfig : Type := mk_HttpTransportConfig { hc_max_queue_size : Z }.
Definition default_HttpTransportConfig : HttpTransportConfig := mk_HttpTransportConfig 1000.
Record JobStatusInfo `{Platform} : Type := mk_JobStatusInfo {
  ji_status : JobStatus;
  ji_submitted : bool;
  ji_started : bool;
  ji_completed : bool;
  ji_error : option string;
  ji_result : option json_value
}.
Record HttpTransport `{Platform} : Type := mk_HttpTransport {
  ht_config : HttpTransportConfig;
  ht_queue : list JobDocument;
  ht_status : gmap string JobStatusInfo
}.
Definition HttpTransport_new `{Platform} (config : HttpTransportConfig) : HttpTransport := mk_HttpTransport _ config [] ∅.
Definition update_status `{Platform} (job_id : string) (f : JobStatusInfo → JobStatusInfo) (t : HttpTransport) : HttpTransport :=
  mk_HttpTransport _ (ht_config t) (ht_queue t) (alter f job_id (ht_status t)).
Definition http_fetch `{Platform} (t : HttpTransport) : HttpTransport * fetched :=
  match ht_queue t with
  | job :: queue =>
      (update_status (jd_job_id job)
         (fun i => mk_JobStatusInfo _ StatusAssigned (ji_submitted i) true (ji_completed i) (ji_error i) (ji_result i))
         (mk_HttpTransport _ (ht_config t) queue (ht_status t)), FetchedJob job)
  | [] => (t, NoJob)
  end.
Definition http_ack `{Platform} (job_id : string) (t : HttpTransport) : HttpTransport :=
  update_status job_id
    (fun i => mk_JobStatusInfo _ StatusCompleted (ji_submitted i) (ji_started i) true (ji_error i) (ji_result i)) t.
Definition http_nack `{Platform} (job_id reason : string) (t : HttpTransport) : HttpTransport :=
  update_status job_id
    (fun i => mk_JobStatusInfo _ StatusFailed (ji_submitted i) (ji_started i) true (Some reason) (ji_result i)) t.
#[export] Instance http_transport `{Platform} : JobTransport HttpTransport := {|
  fetch_job := http_fetch;
  ack_job := http_ack;
  nack_job := http_nack
|}.
(** the submitter's side. *)
Definition http_submit `{Platform} (job : JobDocument) (t : HttpTransport) : HttpTransport :=
  mk_HttpTransport _ (ht_config t) (ht_queue t ++ [job])
    (<[jd_job_id job := mk_JobStatusInfo _ StatusPending true false false None None]> (ht_status t)).
Definition http_get_result `{Platform} (t : HttpTransport) (job_id : string) : option json_value :=
  ht_status t !! job_id ≫= ji_result.
(** the handler: a job that does not validate is refused. *)
Definition api_submit_job `{Platform} (job : JobDocument) (t : HttpTransport) : HttpTransport * outcome string string :=
  match validate job with
  | Ok _ => (http_submit job t, Ok (jd_job_id job))
  | Err _ => (t, Err "VALIDATION_ERROR")
  | Panic => (t, Panic)
  end.

(** ** The Redis stream *)
Inductive redis_value : Type :=
  | RArray (items : list redis_value)
  | RBulk (bytes : string)
  | RSimple (text : string)
  | RInt (i : Z)
  | ROther.
Section stream.
Context `{Platform}.
(** [String::from_utf8_lossy]. *)
Context (utf8_lossy : string → string).

Definition value_as_array (v : redis_value) : option (list redis_value) :=
  match v with RArray items => Some items | _ => None end.
Definition value_to_string (v : redis_value) : string :=
  match v with
  | RBulk bytes => utf8_lossy bytes
  | RSimple s => s
  | RInt i => fmt_Z i
  | _ => ""
  end.
Fixpoint job_field (fields : list redis_value) : string :=
  match fields with
  | k :: v :: fields => if String.eqb (value_to_string k) "job" then value_to_string v else job_field fields
  | _ => ""
  end.
Definition second_array (v : redis_value) : option (list redis_value) :=
  match value_as_array v with
  | Some (_ :: x :: _) => value_as_array x
  | _ => None
  end.
Definition parse_stream_reply (reply : redis_value) : option string * string :=
  match value_as_array reply with
  | Some (stream :: _) =>
      match second_array stream with
      | Some (message :: _) =>
          match value_as_array message with
          | Some (id :: fields :: _) =>
              let stream_id := value_to_string id in
              if is_empty stream_id then (None, "")
              else match value_as_array fields with
                   | Some fields => (Some stream_id, job_field fields)
                   | None => (Some stream_id, "")
                   end
          | _ => (None, "")
          end
      | _ => (None, "")
      end
  | _ => (None, "")
  end.
End stream.

Definition JOBS_STREAM : string := "zyvor:jobs".
Definition CONSUMER_GROUP : string := "guestkit-workers".
(** the server: the entries, how many of them the group handed out, and which of those it
    waits for; the status each job has. *)
Record stream_server : Type := mk_stream_server {
  ss_entries : list (list redis_value);
  ss_delivered : nat;
  ss_pending : gset string;
  ss_status : gmap string string
}.
(** one process: the server and the entry of each job it works on. *)
Record RedisTransport : Type := mk_RedisTransport {
  rt_server : stream_server;
  rt_jobs : gmap string string
}.
Definition stream_id (n : nat) : string := "0-" +:+ pretty n.
Definition stream_reply (n : nat) (fields : list redis_value) : redis_value :=
  RArray [RArray [RBulk JOBS_STREAM; RArray [RArray [RBulk (stream_id n); RArray fields]]]].
(** [XREADGROUP] with [>]: the next entry that was not handed out. *)
Definition xreadgroup (s : stream_server) : stream_server * redis_value :=
  match ss_entries s !! ss_delivered s with
  | Some fields =>
      (mk_stream_server (ss_entries s) (S (ss_delivered s)) ({[stream_id (ss_delivered s)]} ∪ ss_pending s)
         (ss_status s), stream_reply (ss_delivered s) fields)
  | None => (s, ROther)
  end.
Definition xack (id : string) (s : stream_server) : stream_server :=
  mk_stream_server (ss_entries s) (ss_delivered s) (ss_pending s ∖ {[id]}) (ss_status s).
Definition publish_status (job_id status : string) (s : stream_server) : stream_server :=
  mk_stream_server (ss_entries s) (ss_delivered s) (ss_pending s) (<[job_id := status]> (ss_status s)).

Section redis_transport.
Context `{JobJson} (utf8_lossy : string → string).
Definition redis_fetch (t : RedisTransport) : RedisTransport * fetched :=
  let '(server, reply) := xreadgroup (rt_server t) in
  match parse_stream_reply utf8_lossy reply with
  | (None, _) => (mk_RedisTransport server (rt_jobs t), NoJob)
  | (Some id, json) =>
      match job_from_json json with
      | None => (mk_RedisTransport server (rt_jobs t), TransportError "Invalid job JSON")
      | Some job =>
          (mk_RedisTransport (publish_status (jd_job_id job) "running" server) (<[jd_job_id job := id]> (rt_jobs t)),
           FetchedJob job)
      end
  end.
Definition acknowledge (job_id : string) (t : RedisTransport) : RedisTransport :=
  match rt_jobs t !! job_id with
  | Some id => mk_RedisTransport (xack id (rt_server t)) (delete job_id (rt_jobs t))
  | None => t
  end.
Definition redis_ack (job_id : string) (t : RedisTransport) : RedisTransport :=
  let t := acknowledge job_id t in mk_RedisTransport (publish_status job_id "completed" (rt_server t)) (rt_jobs t).
Definition redis_nack (job_id reason : string) (t : RedisTransport) : RedisTransport :=
  let t := acknowledge job_id t in mk_RedisTransport (publish_status job_id "failed" (rt_server t)) (rt_jobs t).
(** the control plane's side. *)
Definition enqueue_job (job : JobDocument) (s : stream_server) : stream_server :=
  publish_status (jd_job_id job) "pending"
    (mk_stream_server (ss_entries s ++ [[RBulk "job"; RBulk (job_to_json job)]]) (ss_delivered s) (ss_pending s)
       (ss_status s)).
(** a process that starts: [XGROUP CREATE] fails when the group is there. *)
Definition RedisTransport_new (s : stream_server) : RedisTransport := mk_RedisTransport s ∅.
Definition redis_transport : JobTransport RedisTransport := {|
  fetch_job := redis_fetch;
  ack_job := redis_ack;
  nack_job := redis_nack
|}.
End redis_transport.

(** ** The watched directory *)
Record FileTransport : Type := mk_FileTransport {
  ft_watch : gmap string string;
  ft_done : gmap string string;
  ft_failed : gmap string string;
  ft_queue : list string
}.
Definition json_name (job_id : string) : string := job_id +:+ ".json".
Definition move_to_done (job_id : string) (t : FileTransport) : FileTransport :=
  match ft_watch t !! json_name job_id with
  | Some text =>
      mk_FileTransport (delete (json_name job_id) (ft_watch t)) (<[json_name job_id := text]> (ft_done t))
        (ft_failed t) (ft_queue t)
  | None => t
  end.
Definition move_to_failed (job_id reason : string) (t : FileTransport) : FileTransport :=
  match ft_watch t !! json_name job_id with
  | Some text =>
      mk_FileTransport (delete (json_name job_id) (ft_watch t)) (ft_done t)
        (<[job_id +:+ ".reason.txt" := reason]> (<[json_name job_id := text]> (ft_failed t))) (ft_queue t)
  | None => t
  end.
Section file_transport.
Context `{JobJson}.
Definition read_job (t : FileTransport) (name : string) : fetched :=
  match ft_watch t !! name with
  | None => TransportError "No such file or directory"
  | Some text => match job_from_json text with Some job => FetchedJob job | None => TransportError "JSON" end
  end.
Definition file_fetch (t : FileTransport) : FileTransport * fetched :=
  match ft_queue t with
  | name :: queue => (mk_FileTransport (ft_watch t) (ft_done t) (ft_failed t) queue, read_job t name)
  | [] => (t, NoJob)
  end.
(** a start: the files that are there are queued, in the order of the directory. *)
Definition FileTransport_new (order : gmap string string → list string) (watch done failed : gmap string string)
    : FileTransport := mk_FileTransport watch done failed (order watch).
Definition file_transport : JobTransport FileTransport := {|
  fetch_job := file_fetch;
  ack_job := move_to_done;
  nack_job := move_to_failed
|}.
End file_transport.
