(* ===== verification/TransportProps.v ===== *)
(** * What the worker may rely on

    [TransportSpec] states what a transport promises to the worker's loop: it hands its
    backlog out in order, each item once, and an answer does not disturb what is still to
    come.  The worker over any transport that keeps the promise is the loop over the list of
    its backlog; the three transports are shown to keep it, the watched directory as long as
    files are named after their jobs.  Then where the files of the watched directory end up,
    and what the transports lose. *)
From stdpp Require Import base gmap strings list pretty.
From Stdlib Require Import ZArith Lia Ascii SpecFloat.
From S2P Require Import Prelude RustStr F64 Evidence BootChecks BootEngine Migration Kahn FixPlan Repair JobSpec Worker WorkerProps Transport.

(** ** The promise *)
Definition fetched_of `{Platform} (x : string + JobDocument) : fetched :=
  match x with inr job => FetchedJob job | inl e => TransportError e end.
Class TransportSpec `{Platform} (T : Type) `{!JobTransport T} := {
  transport_ok : T → Prop;
  backlog : T → list (string + JobDocument);
  (** the jobs that may be answered *)
  answerable : T → string → Prop;
  fetch_empty t : transport_ok t → backlog t = [] →
    (fetch_job t).2 = NoJob ∧ transport_ok (fetch_job t).1 ∧ backlog (fetch_job t).1 = [];
  fetch_next t x rest : transport_ok t → backlog t = x :: rest →
    (fetch_job t).2 = fetched_of x ∧ transport_ok (fetch_job t).1 ∧ backlog (fetch_job t).1 = rest ∧
    match x with inr job => answerable (fetch_job t).1 (jd_job_id job) | inl _ => True end;
  ack_keeps t id : transport_ok t → answerable t id → transport_ok (ack_job id t) ∧ backlog (ack_job id t) = backlog t;
  nack_keeps t id reason : transport_ok t → answerable t id →
    transport_ok (nack_job id reason t) ∧ backlog (nack_job id reason t) = backlog t
}.

Section refinement.
Context `{P : Platform} `{Env : !WorkerEnv}.
Context (worker_id work_dir output_dir : string) (registry : HandlerRegistry).
Context {T : Type} `{!JobTransport T} `{!TransportSpec T}.
Implicit Types (t : T) (s : wstate).

Lemma turn_keeps t (x : string + JobDocument) s :
  transport_ok t → match x with inr job => answerable t (jd_job_id job) | inl _ => True end →
  let t' := foldl deliver_call t (turn worker_id work_dir output_dir registry (fetched_of x) s).2 in
  transport_ok t' ∧ backlog t' = backlog t.
Proof.
  intros Hok Ha. destruct x as [e|job]; cbn; [done|].
  destruct (execute worker_id work_dir output_dir registry job s) as [s' [e|v]]; cbn;
    [by apply nack_keeps|by apply ack_keeps].
Qed.

(** the worker over any transport that keeps the promise, given enough turns, empties
    its backlog and does exactly what the loop does with the list of it: the same runs in
    the same order, the same state and the same answers. *)
Theorem worker_refines_loop n t s :
  transport_ok t → length (backlog t) ≤ n →
  ∃ t', serve_turns worker_id work_dir output_dir registry n t s =
    (t', (run_loop worker_id work_dir output_dir registry (fetched_of <$> backlog t) s).1,
     (run_loop worker_id work_dir output_dir registry (fetched_of <$> backlog t) s).2) ∧
    transport_ok t' ∧ backlog t' = [].
Proof.
  revert t s. induction n as [|n IH]; intros t s Hok Hn.
  { destruct (backlog t) as [|x l] eqn:Eb; [|cbn in Hn; lia]. by exists t. }
  cbn [serve_turns]. destruct (backlog t) as [|x l] eqn:Eb.
  - destruct (fetch_empty t Hok Eb) as (Hf & Hok' & Hb'). destruct (fetch_job t) as [t1 f]. cbn in *. subst f. cbn.
    destruct (IH t1 s Hok') as (t' & Hs & Ht); [rewrite Hb'; cbn; lia|].
    rewrite Hb' in Hs. rewrite Hs. by exists t'.
  - destruct (fetch_next t x l Hok Eb) as (Hf & Hok' & Hb' & Ha). destruct (fetch_job t) as [t1 f].
    cbn [fst snd] in *. subst f. destruct (turn_keeps t1 x s Hok' Ha) as [Hok2 Hb2].
    rewrite fmap_cons. cbn [run_loop].
    destruct (turn worker_id work_dir output_dir registry (fetched_of x) s) as [s1 calls]. cbn [fst snd] in *.
    destruct (IH (foldl deliver_call t1 calls) s1 Hok2) as (t' & Hs & Ht); [rewrite Hb2, Hb'; cbn in Hn; lia|].
    rewrite Hb2, Hb' in Hs. rewrite Hs. exists t'. split; [|done].
    by destruct (run_loop _ _ _ _ (fetched_of <$> l) s1).
Qed.
End refinement.

(** ** The transports *)
#[export] Instance http_transport_spec `{Platform} : TransportSpec HttpTransport.
Proof.
  refine {| transport_ok _ := True; backlog t := inr <$> ht_queue t; answerable _ _ := True |}.
  - intros t _ Hb. cbn. unfold http_fetch. destruct (ht_queue t) eqn:E; [|done]. cbn. by rewrite E.
  - intros t x rest _. cbn. unfold http_fetch. destruct (ht_queue t) as [|job q]; [done|]. by intros [= <- <-].
  - done.
  - done.
Defined.

Section stream_spec.
Context `{JobJson} (utf8_lossy : string → string).
(** stream identifiers are ASCII. *)
Hypothesis lossy_ids : ∀ n, utf8_lossy (stream_id n) = stream_id n.
#[local] Instance redis_here : JobTransport RedisTransport := redis_transport utf8_lossy.

Definition entry_item (fields : list redis_value) : string + JobDocument :=
  match job_from_json (job_field utf8_lossy fields) with Some job => inr job | None => inl "Invalid job JSON" end.
Lemma parse_reply n fields :
  parse_stream_reply utf8_lossy (stream_reply n fields) = (Some (stream_id n), job_field utf8_lossy fields).
Proof. unfold parse_stream_reply, stream_reply. cbn. by rewrite lossy_ids. Qed.
Definition to_come (s : stream_server) : list (list redis_value) := drop (ss_delivered s) (ss_entries s).
Lemma to_come_next s :
  match to_come s with
  | [] => xreadgroup s = (s, ROther)
  | fields :: rest => xreadgroup s =
      (mk_stream_server (ss_entries s) (S (ss_delivered s)) ({[stream_id (ss_delivered s)]} ∪ ss_pending s) (ss_status s),
       stream_reply (ss_delivered s) fields) ∧ drop (S (ss_delivered s)) (ss_entries s) = rest
  end.
Proof.
  unfold to_come, xreadgroup. destruct (ss_entries s !! ss_delivered s) as [fields|] eqn:E.
  - by rewrite (drop_S _ _ _ E).
  - apply lookup_ge_None in E. by rewrite drop_ge.
Qed.
Definition redis_transport_spec : TransportSpec RedisTransport.
Proof.
  refine {| transport_ok _ := True; backlog t := entry_item <$> to_come (rt_server t); answerable _ _ := True |}.
  - intros t _ Hb. cbn. unfold redis_fetch. pose proof (to_come_next (rt_server t)) as Hn.
    destruct (to_come (rt_server t)) eqn:E; [|done]. rewrite Hn. cbn. by rewrite E.
  - intros t x rest _ Hb. cbn. unfold redis_fetch. pose proof (to_come_next (rt_server t)) as Hn.
    destruct (to_come (rt_server t)) as [|fields l]; [done|]. destruct Hn as [-> Hd]. rewrite parse_reply.
    injection Hb as <- <-. unfold entry_item. destruct (job_from_json _) as [job|]; cbn; unfold to_come; cbn; by rewrite Hd.
  - intros t id _ _. cbn. unfold redis_ack, acknowledge. by destruct (rt_jobs t !! id).
  - intros t id reason _ _. cbn. unfold redis_nack, acknowledge. by destruct (rt_jobs t !! id).
Defined.
End stream_spec.

Section directory_spec.
Context `{JobJson}.
#[local] Instance file_here : JobTransport FileTransport := file_transport.
(** every queued file is there, holds a job and is named after it, and is queued once. *)
Record well_named (t : FileTransport) : Prop := {
  wn_once : NoDup (ft_queue t);
  wn_named : ∀ name, name ∈ ft_queue t → ∃ job, read_job t name = FetchedJob job ∧ name = json_name (jd_job_id job)
}.
Definition file_item (t : FileTransport) (name : string) : string + JobDocument :=
  match read_job t name with FetchedJob job => inr job | TransportError e => inl e | NoJob => inl "" end.
Definition settled_elsewhere (t t' : FileTransport) : Prop :=
  ft_queue t' = ft_queue t ∧ ∀ name, name ∈ ft_queue t → read_job t' name = read_job t name.
Lemma settled_keeps t t' : settled_elsewhere t t' → well_named t →
  well_named t' ∧ file_item t' <$> ft_queue t' = file_item t <$> ft_queue t.
Proof.
  intros [Hq Hr] [Hn Hw]. split; [split|]; rewrite ?Hq.
  - done.
  - intros name Hin. rewrite Hr by done. by apply Hw.
  - apply list_fmap_ext. intros i name Hi. unfold file_item. rewrite Hr; [done|]. by eapply list_elem_of_lookup_2.
Qed.
Lemma moved_elsewhere t id done' failed' :
  json_name id ∉ ft_queue t →
  settled_elsewhere t (mk_FileTransport (delete (json_name id) (ft_watch t)) done' failed' (ft_queue t)).
Proof.
  intros Hni. split; [done|]. intros name Hin. unfold read_job. cbn.
  rewrite lookup_delete_ne; [done|]. intros E. by rewrite E in Hni.
Qed.
Definition file_transport_spec : TransportSpec FileTransport.
Proof.
  refine {| transport_ok := well_named; backlog t := file_item t <$> ft_queue t;
            answerable t id := json_name id ∉ ft_queue t |}.
  - intros t Hw Hb. cbn. unfold file_fetch. destruct (ft_queue t) eqn:E; [|done]. cbn. by rewrite E.
  - intros t x rest [Hn Hw] Hb. cbn. unfold file_fetch. destruct (ft_queue t) as [|name q]; [done|].
    injection Hb as <- <-. apply NoDup_cons in Hn as [Hni Hn].
    destruct (Hw name) as (job & Hj & Hnm); [by left|]. 
    assert (file_item t name = inr job) as Hi by (unfold file_item; by rewrite Hj).
    rewrite Hi, Hj. split_and!; [done| |done|].
    + split; [done|]. intros name' Hin. apply Hw. by right.
    + cbn. by rewrite <-Hnm.
  - intros t id Hw Ha. cbn. unfold move_to_done. destruct (ft_watch t !! json_name id); [|done].
    by apply (settled_keeps t), Hw; apply moved_elsewhere.
  - intros t id reason Hw Ha. cbn. unfold move_to_failed. destruct (ft_watch t !! json_name id); [|done].
    by apply (settled_keeps t), Hw; apply moved_elsewhere.
Defined.
End directory_spec.

(** ** The files of the watched directory *)
Section directory.
Context `{P : Platform} `{JobJson} `{Env : !WorkerEnv}.
Context (worker_id work_dir output_dir : string) (registry : HandlerRegistry).
Implicit Types (t : FileTransport) (s : wstate) (job : JobDocument).
Notation serve_directory := (@serve_turns _ _ worker_id work_dir output_dir registry _ file_transport).

Definition reason_name (job_id : string) : string := job_id +:+ ".reason.txt".
(** the jobs one after the other: the state they leave, and why each failed, if it did. *)
Fixpoint run_jobs (jobs : list JobDocument) s : wstate * list (option string) :=
  match jobs with
  | [] => (s, [])
  | job :: jobs =>
      let '(s, result) := execute worker_id work_dir output_dir registry job s in
      let '(s, answers) := run_jobs jobs s in
      (s, match result with inr _ => None | inl e => Some (fmt_WorkerError e) end :: answers)
  end.
(** every queued file holds the job it is named after. *)
Definition queued t (jobs : list JobDocument) : Prop :=
  NoDup (ft_queue t) ∧
  Forall2 (fun name job => read_job t name = FetchedJob job ∧ name = json_name (jd_job_id job)) (ft_queue t) jobs.
(** where the file of a job is afterwards. *)
Definition settled_file t t' job (answer : option string) : Prop :=
  let name := json_name (jd_job_id job) in
  ft_watch t' !! name = None ∧
  match answer with
  | None => ft_done t' !! name = ft_watch t !! name ∧ ft_failed t' !! name = ft_failed t !! name
  | Some reason => ft_failed t' !! name = ft_watch t !! name ∧
      ft_failed t' !! reason_name (jd_job_id job) = Some reason ∧ ft_done t' !! name = ft_done t !! name
  end.

Lemma json_name_inj x y : json_name x = json_name y → x = y.
Proof. unfold json_name. intros E. by apply same_length_tails in E as [? _]. Qed.
Lemma reason_name_inj x y : reason_name x = reason_name y → x = y.
Proof. unfold reason_name. intros E. by apply same_length_tails in E as [? _]. Qed.
Lemma json_reason_ne x y : json_name x ≠ reason_name y.
Proof.
  unfold json_name, reason_name. change ".reason.txt" with (".reaso" +:+ "n.txt").
  rewrite <-text_app_assoc. intros E. by apply same_length_tails in E as [_ ?].
Qed.

(** one answered job. *)
Definition answered_transport (name : string) (id text : string) (answer : option string) t : FileTransport :=
  match answer with
  | None => mk_FileTransport (delete name (ft_watch t)) (<[name := text]> (ft_done t)) (ft_failed t) (ft_queue t)
  | Some reason => mk_FileTransport (delete name (ft_watch t)) (ft_done t)
      (<[reason_name id := reason]> (<[name := text]> (ft_failed t))) (ft_queue t)
  end.
Lemma answered_fields name id text answer t :
  let t' := answered_transport name id text answer t in
  ft_queue t' = ft_queue t ∧ ft_watch t' = delete name (ft_watch t) ∧
  (∀ x, x ≠ name → ft_done t' !! x = ft_done t !! x) ∧
  (∀ x, x ≠ name → x ≠ reason_name id → ft_failed t' !! x = ft_failed t !! x).
Proof.
  destruct answer; cbn; split_and!; try done; intros x Hx; [intros Hr|]; by rewrite !lookup_insert_ne.
Qed.

(** what is left alone by the jobs of the queue. *)
Record left_alone t t' (jobs : list JobDocument) : Prop := mk_left_alone {
  la_watch : ∀ x, x ∉ ft_queue t → ft_watch t' !! x = ft_watch t !! x;
  la_done : ∀ x, x ∉ ft_queue t → ft_done t' !! x = ft_done t !! x;
  la_failed : ∀ x, x ∉ ft_queue t → (∀ job, job ∈ jobs → x ≠ reason_name (jd_job_id job)) →
    ft_failed t' !! x = ft_failed t !! x
}.
Lemma queued_names t jobs : queued t jobs → ft_queue t = (json_name ∘ jd_job_id) <$> jobs.
Proof.
  intros [_ Hq]. induction Hq as [|name job q jobs [_ ->] _ IH]; [done|]. rewrite fmap_cons. by f_equal.
Qed.
(** the head of the queue is answered, and the rest is settled from there. *)
Lemma settled_cons t t1 t2 t' name q job jobs answer answers text :
  queued t (job :: jobs) → ft_queue t = name :: q → ft_watch t !! name = Some text →
  t1 = mk_FileTransport (ft_watch t) (ft_done t) (ft_failed t) q →
  t2 = answered_transport name (jd_job_id job) text answer t1 →
  left_alone t2 t' jobs → Forall2 (settled_file t2 t') jobs answers →
  left_alone t t' (job :: jobs) ∧ Forall2 (settled_file t t') (job :: jobs) (answer :: answers).
Proof.
  intros Hq Eq Htext -> E2 Hla Hset. pose proof (queued_names _ _ Hq) as Hnames. destruct Hq as [Hnd _].
  rewrite Eq in Hnd, Hnames. rewrite fmap_cons in Hnames. injection Hnames as Hname Hjs.
  apply NoDup_cons in Hnd as [Hni _].
  destruct (answered_fields name (jd_job_id job) text answer (mk_FileTransport (ft_watch t) (ft_done t) (ft_failed t) q))
    as (F1 & F2 & F3 & F4). rewrite <-E2 in F1, F2, F3, F4. cbn [ft_queue ft_watch ft_done ft_failed] in F1, F2, F3, F4.
  destruct Hla as [La Lb Lc]. rewrite F1 in La, Lb, Lc.
  assert (∀ j, j ∈ jobs → json_name (jd_job_id j) ∈ q) as Hinq.
  { intros j Hj. rewrite Hjs. by apply (list_elem_of_fmap_2 (json_name ∘ jd_job_id)). }
  assert (∀ j, j ∈ jobs → json_name (jd_job_id j) ≠ name) as Hne by (intros j Hj ->%symmetry; by apply Hni, Hinq).
  split; [split|constructor].
  - intros x. rewrite Eq, not_elem_of_cons. intros [Hx Hxq]. by rewrite La, F2, lookup_delete_ne.
  - intros x. rewrite Eq, not_elem_of_cons. intros [Hx Hxq]. by rewrite Lb, F3.
  - intros x. rewrite Eq, not_elem_of_cons. intros [Hx Hxq] Hr. rewrite Lc, F4; [done|done| |done|].
    + apply Hr. by left.
    + intros j Hj. apply Hr. by right.
  - unfold settled_file. cbv zeta. cbn in Hname. rewrite <-Hname.
    assert (∀ j, j ∈ jobs → jd_job_id job ≠ jd_job_id j) as Hids.
    { intros j Hj E. apply (Hne j Hj). by rewrite <-E. }
    split; [by rewrite La, F2, lookup_delete_eq|]. rewrite Htext.
    destruct answer as [reason|]; rewrite E2 in *; cbn [answered_transport ft_queue ft_watch ft_done ft_failed] in *.
    + split_and!; [| |by rewrite Lb].
      * rewrite Lc; [|done|intros j _ E; rewrite Hname in E; by apply json_reason_ne in E].
        rewrite lookup_insert_ne, lookup_insert_eq; [done|]. intros E. rewrite Hname in E. symmetry in E. by apply json_reason_ne in E.
      * rewrite Lc; [by rewrite lookup_insert_eq| |].
        -- intros Hin. rewrite Hjs in Hin. apply list_elem_of_fmap in Hin as (j & E & _). symmetry in E. by apply json_reason_ne in E.
        -- intros j Hj E%reason_name_inj. by apply (Hids j Hj).
    + split; [by rewrite Lb, lookup_insert_eq|].
      apply Lc; [done|]. intros j _ E. rewrite Hname in E. by apply json_reason_ne in E.
  - rewrite Forall2_lookup in Hset |- *. intros i. specialize (Hset i).
    destruct (jobs !! i) as [j|] eqn:Ej; inversion Hset as [? ans Hs|]; constructor. clear Hset.
    apply list_elem_of_lookup_2 in Ej. specialize (Hne j Ej). revert Hs. unfold settled_file. cbv zeta.
    rewrite F2, lookup_delete_ne by done. rewrite F3, F4 by (done || apply json_reason_ne). done.
Qed.

Lemma fetch_head t name q job jobs :
  queued t (job :: jobs) → ft_queue t = name :: q → name = json_name (jd_job_id job) ∧
  read_job t name = FetchedJob job ∧ ∃ text, ft_watch t !! name = Some text.
Proof.
  intros [_ Hf] Eq. rewrite Eq in Hf. apply Forall2_cons in Hf as [[Hr Hn] _]. split_and!; [done|done|].
  unfold read_job in Hr. destruct (ft_watch t !! name); [by eexists|done].
Qed.
Lemma queued_rest t t2 name q job jobs :
  queued t (job :: jobs) → ft_queue t = name :: q → ft_queue t2 = q → ft_watch t2 = delete name (ft_watch t) →
  queued t2 jobs.
Proof.
  intros [Hnd Hf] Eq E2 Ew. rewrite Eq in Hnd, Hf. apply NoDup_cons in Hnd as [Hni Hnd].
  apply Forall2_cons in Hf as [_ Hf]. split; [by rewrite E2|]. rewrite E2.
  eapply Forall2_impl in Hf; [|intros x j Hx; exact Hx].
  rewrite Forall2_lookup in Hf |- *. intros i. specialize (Hf i).
  destruct (q !! i) as [x|] eqn:Ex; inversion Hf as [? j [Hr Hn]|]; constructor. split; [|done].
  unfold read_job in *. rewrite Ew, lookup_delete_ne; [done|]. intros ->. by apply Hni, (list_elem_of_lookup_2 _ _ _ Ex).
Qed.
Definition answer_of {A} (result : WorkerError + A) : option string :=
  match result with inr _ => None | inl e => Some (fmt_WorkerError e) end.
(** one turn over a queued file. *)
Lemma serve_head n t s job q text s1 result :
  let name := json_name (jd_job_id job) in
  let t1 := mk_FileTransport (ft_watch t) (ft_done t) (ft_failed t) q in
  ft_queue t = name :: q → read_job t name = FetchedJob job → ft_watch t !! name = Some text →
  execute worker_id work_dir output_dir registry job s = (s1, result) →
  (serve_directory (S n) t s).1 = (serve_directory n (answered_transport name (jd_job_id job) text (answer_of result) t1) s1).1.
Proof.
  intros name t1 Eq Hr Htext He. cbn [serve_turns fetch_job file_transport]. unfold file_fetch. rewrite Eq, Hr.
  cbn [turn]. rewrite He. destruct result as [e|v]; cbn [foldl deliver_call ack_job nack_job file_transport answer_of];
    unfold move_to_done, move_to_failed; cbn [ft_watch]; fold name; rewrite Htext; cbn [answered_transport];
    match goal with |- _ = (serve_directory n ?x s1).1 =>
      change (serve_turns _ _ _ _ n _ s1) with (serve_directory n x s1); by destruct (serve_directory n x s1) as [[t' s'] c] end.
Qed.

Lemma directory_run n : ∀ t jobs s,
  queued t jobs → length jobs ≤ n →
  let '(t', s') := (serve_directory n t s).1 in
  ft_queue t' = [] ∧ s' = (run_jobs jobs s).1 ∧ left_alone t t' jobs ∧
  Forall2 (settled_file t t') jobs (run_jobs jobs s).2.
Proof.
  induction n as [|n IH]; intros t jobs s Hq Hn; destruct jobs as [|job jobs]; cbn [length] in Hn; try lia.
  1, 2: assert (ft_queue t = []) as Eq by (by rewrite (queued_names _ _ Hq)).
  - cbn. split_and!; [done|done|by split|constructor].
  - specialize (IH t [] s Hq ltac:(cbn; lia)). cbn [serve_turns fetch_job file_transport]. unfold file_fetch.
    rewrite Eq. cbn. by destruct (serve_directory n t s) as [[t' s'] calls].
  - pose proof (queued_names _ _ Hq) as Eq. rewrite fmap_cons in Eq.
    destruct (fetch_head _ _ _ _ _ Hq Eq) as (_ & Hread & text & Htext). cbn [run_jobs].
    destruct (execute worker_id work_dir output_dir registry job s) as [s1 result] eqn:He.
    rewrite (serve_head n t s job _ text s1 result Eq Hread Htext He).
    set (t1 := mk_FileTransport _ _ _ _).
    set (t2 := answered_transport _ _ text (answer_of result) t1).
    destruct (answered_fields (json_name (jd_job_id job)) (jd_job_id job) text (answer_of result) t1) as (F1 & F2 & _).
    fold t2 in F1, F2. assert (queued t2 jobs) as Hq2 by (by eapply queued_rest).
    specialize (IH t2 jobs s1 Hq2 ltac:(lia)). destruct (run_jobs jobs s1) as [s2 answers].
    destruct (serve_directory n t2 s1) as [[t' s'] calls]. cbn [fst snd] in *. destruct IH as (H1 & H2 & H3 & H4).
    destruct (settled_cons t t1 t2 t' _ _ job jobs (answer_of result) answers text Hq Eq Htext eq_refl eq_refl H3 H4). done.
Qed.
(** C36: a worker over a watched directory in which every queued file is queued once and
    holds the job it is named after, given at least as many turns as files and with moves
    that succeed, runs the jobs of the queue in its order and sorts their files: afterwards
    the queue is empty, the state is that of running the jobs one after the other, no file
    of theirs is left in the watched directory, the file of a job that succeeded is in the
    directory of finished jobs, the file of one that failed is in the directory of failed
    jobs beside a file with the reason of the failure, and every other file of the watched
    directory is where it was. *)
Theorem directory_settled n t jobs s :
  queued t jobs → length jobs ≤ n →
  let '(t', s', _) := serve_directory n t s in
  ft_queue t' = [] ∧ s' = (run_jobs jobs s).1 ∧ Forall2 (settled_file t t') jobs (run_jobs jobs s).2 ∧
  ∀ x, x ∉ ft_queue t → ft_watch t' !! x = ft_watch t !! x.
Proof.
  intros Hq Hn. pose proof (directory_run n t jobs s Hq Hn) as H1.
  destruct (serve_directory n t s) as [[t' s'] calls]. destruct H1 as (? & ? & [] & ?). auto.
Qed.
End directory.

(** ** Losses *)
Inductive http_event `{Platform} : Type := HSubmit (job : JobDocument) | HFetch | HAck (id : string) | HNack (id reason : string).
Definition http_step `{Platform} (t : HttpTransport) (e : http_event) : HttpTransport :=
  match e with
  | HSubmit job => (api_submit_job job t).1
  | HFetch => (http_fetch t).1
  | HAck id => http_ack id t
  | HNack id reason => http_nack id reason t
  end.
Lemma update_status_results `{Platform} f id t :
  (∀ i, ji_result (f i) = ji_result i) → map_Forall (fun _ i => ji_result i = None) (ht_status t) →
  map_Forall (fun _ i => ji_result i = None) (ht_status (update_status id f t)).
Proof.
  intros Hf Ht k i. cbn. rewrite lookup_alter_Some. intros [(_ & i' & Hi & ->)|(_ & Hi)]; [|by eapply Ht].
  rewrite Hf. by eapply Ht.
Qed.
(** the status of a submitted job never gets a result, so a result is never found,
    whatever was submitted, fetched and answered. *)
Theorem http_results_never_found `{Platform} config es id :
  http_get_result (foldl http_step (HttpTransport_new config) es) id = None.
Proof.
  assert (∀ t, map_Forall (fun _ i => ji_result i = None) (ht_status t) →
    map_Forall (fun _ i => ji_result i = None) (ht_status (foldl http_step t es))) as Hinv.
  { induction es as [|e es IH]; intros t Ht; [done|]. apply IH. destruct e as [job| |id'|id' reason]; cbn.
    - unfold api_submit_job. destruct (validate job); cbn; try done.
      intros k i. rewrite lookup_insert_Some. intros [[_ <-]|[_ Hi]]; [done|by eapply Ht].
    - unfold http_fetch. destruct (ht_queue t) as [|job q]; [done|].
      by apply (update_status_results _ _ (mk_HttpTransport _ (ht_config t) q (ht_status t))).
    - by apply update_status_results.
    - by apply update_status_results. }
  unfold http_get_result. destruct (ht_status _ !! id) as [i|] eqn:E; [|done]. cbn.
  eapply (Hinv (HttpTransport_new config)); [|exact E]. intros k j. cbn. by rewrite lookup_empty.
Qed.

Section lost.
Context `{JobJson} (utf8_lossy : string → string).
Hypothesis lossy_ids : ∀ n, utf8_lossy (stream_id n) = stream_id n.
Inductive redis_event : Type := RFetch | RAck (id : string) | RNack (id reason : string) | REnqueue (job : JobDocument).
Definition redis_step (t : RedisTransport) (e : redis_event) : RedisTransport :=
  match e with
  | RFetch => (redis_fetch utf8_lossy t).1
  | RAck id => redis_ack id t
  | RNack id reason => redis_nack id reason t
  | REnqueue job => mk_RedisTransport (enqueue_job job (rt_server t)) (rt_jobs t)
  end.
Lemma stream_id_inj n m : stream_id n = stream_id m → n = m.
Proof. intros E. apply (inj (String.append "0-")) in E. by apply (inj pretty) in E. Qed.
(** the process only knows entries handed out from the [d]-th on. *)
Record since (d k : nat) (t : RedisTransport) : Prop := {
  si_delivered : d ≤ ss_delivered (rt_server t);
  si_known : ∀ job id, rt_jobs t !! job = Some id → ∃ m, d ≤ m ∧ id = stream_id m;
  si_pending : stream_id k ∈ ss_pending (rt_server t)
}.
Lemma since_acknowledge d k t id : k < d → since d k t → since d k (acknowledge id t).
Proof.
  intros Hk [Hd Hj Hp]. unfold acknowledge. destruct (rt_jobs t !! id) as [sid|] eqn:E; [|by split].
  destruct (Hj _ _ E) as (m & Hm & ->). split; cbn; [done| |].
  - intros job sid. rewrite lookup_delete_Some. intros [_ ?]. by eapply Hj.
  - apply elem_of_difference. split; [done|]. rewrite elem_of_singleton. intros ?%stream_id_inj. lia.
Qed.
Lemma since_publish d k t id st :
  since d k t → since d k (mk_RedisTransport (publish_status id st (rt_server t)) (rt_jobs t)).
Proof. intros [Hd Hj Hp]. by split. Qed.
Lemma since_step d k t e : k < d → since d k t → since d k (redis_step t e).
Proof.
  intros Hk Hs. destruct e as [|id|id reason|job]; cbn.
  - destruct Hs as [Hd Hj Hp]. unfold redis_fetch. pose proof (to_come_next (rt_server t)) as Hn.
    destruct (to_come (rt_server t)) as [|fields l]; [by rewrite Hn|]. destruct Hn as [-> _].
    rewrite (parse_reply utf8_lossy lossy_ids). destruct (job_from_json _) as [job|]; cbn; split; cbn;
      try lia; try done; try (apply elem_of_union; by right).
    intros j id. rewrite lookup_insert_Some. intros [[_ <-]|[_ ?]]; [by exists (ss_delivered (rt_server t))|by eapply Hj].
  - by apply since_publish, since_acknowledge.
  - by apply since_publish, since_acknowledge.
  - destruct Hs as [Hd Hj Hp]. by split.
Qed.
(** a job that was handed out and not answered when its worker stopped is lost: a
    worker that starts again neither gets it nor acknowledges it, however long it works. *)
Theorem unanswered_job_lost s k es :
  k < ss_delivered s → stream_id k ∈ ss_pending s →
  let t := foldl redis_step (RedisTransport_new s) es in
  stream_id k ∈ ss_pending (rt_server t) ∧ k < ss_delivered (rt_server t) ∧
  (fetch_job (JobTransport := redis_transport utf8_lossy) t).2 =
    match to_come (rt_server t) with [] => NoJob | fields :: _ => fetched_of (entry_item utf8_lossy fields) end.
Proof.
  intros Hk Hp. cbv zeta.
  assert (∀ t, since (ss_delivered s) k t → since (ss_delivered s) k (foldl redis_step t es)) as Hrun.
  { induction es as [|e es IH]; intros t Ht; [done|]. apply IH. by apply since_step. }
  destruct (Hrun (RedisTransport_new s)) as [Hd _ Hp'].
  { split; [done| |done]. intros job id. cbn. by rewrite lookup_empty. }
  set (t := foldl redis_step (RedisTransport_new s) es) in *. split; [done|]. split; [lia|].
  cbn. unfold redis_fetch. pose proof (to_come_next (rt_server t)) as Hn.
  destruct (to_come (rt_server t)) as [|fields l]; [by rewrite Hn|]. destruct Hn as [-> _].
  rewrite (parse_reply utf8_lossy lossy_ids). unfold entry_item. by destruct (job_from_json _).
Qed.
End lost.

(** ** Examples *)
#[local] Existing Instance ascii_platform.
Definition toy_job (id : string) : JobDocument := example_job id "guestkit.inspect.v1" None.
(** the texts of two jobs. *)
#[local] Instance toy_job_json : JobJson := {|
  job_to_json job := jd_job_id job;
  job_from_json s := if contains_char "{"%char s then None else Some (toy_job s)
|}.

(** a file whose job has the name of another file: the answer moves the other file to the
    directory of finished jobs, and its job never runs; the first file stays. *)
Example misnamed_file :
  let t := mk_FileTransport (<["a.json" := "job-00000002"]> (<["job-00000002.json" := "job-00000003"]> ∅)) ∅ ∅
    ["a.json"; "job-00000002.json"] in
  let '(t', _, calls) := @serve_turns _ example_env "w" "/work" "/out" example_registry _ file_transport 2 t
    example_start in
  (calls, map_to_list (ft_done t'), map_to_list (ft_watch t')) =
  ([Ack "job-00000002"], [("job-00000002.json", "job-00000003")], [("a.json", "job-00000002")]).
Proof. vm_compute. reflexivity. Qed.
(** the limit of the queue is not looked at. *)
Example queue_limit_ignored :
  length (ht_queue (foldl (fun t n => http_submit (toy_job (pretty n)) t)
    (HttpTransport_new (mk_HttpTransportConfig 1)) (seq 0 3))) = 3.
Proof. vm_compute. reflexivity. Qed.

(** two jobs in a directory; the second has an id that is too short and fails. *)
Definition two_files : FileTransport :=
  mk_FileTransport (<["job-00000001.json" := "job-00000001"]> (<["x.json" := "x"]> (<["note.txt" := "kept"]> ∅))) ∅ ∅
    ["job-00000001.json"; "x.json"].
Definition two_jobs : list JobDocument := [toy_job "job-00000001"; toy_job "x"].
Definition too_short : string := "Job error: Invalid field value: job_id - must be at least 8 characters".
Lemma two_queued : queued two_files two_jobs.
Proof. split; [by refine (bool_decide_eq_true_1 _ _)|]. repeat constructor. Qed.
Lemma two_answers :
  (@run_jobs _ example_env "w" "/work" "/out" example_registry two_jobs example_start).2 = [None; Some too_short].
Proof. by vm_compute. Qed.
Lemma directory_settled_witness :
  let '(t', _, _) := @serve_turns _ example_env "w" "/work" "/out" example_registry _ file_transport 3 two_files
    example_start in
  ft_queue t' = [] ∧ ft_watch t' !! "note.txt" = Some "kept" ∧ ft_done t' !! "job-00000001.json" = Some "job-00000001" ∧
  ft_failed t' !! "x.json" = Some "x" ∧ ft_failed t' !! "x.reason.txt" = Some too_short.
Proof.
  pose proof (@directory_settled _ _ example_env "w" "/work" "/out" example_registry 3 two_files two_jobs example_start
    two_queued ltac:(cbn; lia)) as Hs.
  destruct (serve_turns _ _ _ _ 3 two_files example_start) as [[t' s'] calls].
  destruct Hs as (H1 & _ & H2 & H3). rewrite two_answers in H2.
  apply Forall2_cons in H2 as [(_ & Hd & _) H2]. apply Forall2_cons in H2 as [(_ & Hf & Hr & _) _].
  split; [exact H1|]. split; [exact (H3 "note.txt" ltac:(by refine (bool_decide_eq_true_1 _ _)))|].
  split; [exact Hd|]. split; [exact Hf|exact Hr].
Defined.
Notation toy_queue := (http_submit (toy_job "job-00000002") (http_submit (toy_job "job-00000001")
  (HttpTransport_new default_HttpTransportConfig))).
Lemma worker_refines_loop_witness : ∃ t' : HttpTransport,
  @serve_turns _ example_env "w" "/work" "/out" example_registry _ http_transport 3 toy_queue example_start =
  (t', (@run_loop _ example_env "w" "/work" "/out" example_registry
          [FetchedJob (toy_job "job-00000001"); FetchedJob (toy_job "job-00000002")] example_start).1,
   (@run_loop _ example_env "w" "/work" "/out" example_registry
          [FetchedJob (toy_job "job-00000001"); FetchedJob (toy_job "job-00000002")] example_start).2) ∧ backlog t' = [].
Proof.
  assert (length (backlog toy_queue) ≤ 3) as Hn by (cbn; lia).
  destruct (@worker_refines_loop _ example_env "w" "/work" "/out" example_registry HttpTransport http_transport
    http_transport_spec 3 toy_queue example_start I Hn) as (t' & Hs & _ & Hb).
  exists t'. split; [exact Hs|exact Hb].
Defined.
Notation toy_stream := (redis_fetch id (RedisTransport_new (enqueue_job (toy_job "job-00000001")
  (mk_stream_server [] 0 ∅ ∅)))).1.
Lemma unanswered_job_lost_witness :
  stream_id 0 ∈ ss_pending (rt_server (foldl (redis_step id) (RedisTransport_new (rt_server toy_stream))
    [RFetch; RAck "job-00000001"; RFetch])).
Proof.
  assert (0 < ss_delivered (rt_server toy_stream)) as Hd by (vm_compute; lia).
  assert (stream_id 0 ∈ ss_pending (rt_server toy_stream)) as Hp by (vm_compute; exact eq_refl).
  exact (proj1 (unanswered_job_lost id (fun n => eq_refl) (rt_server toy_stream) 0
    [RFetch; RAck "job-00000001"; RFetch] Hd Hp)).
Defined.
