(* ===== verification/Integrity.v ===== *)
(** * Tamper monitoring and the inventory cache

    [src/agent/integrity.rs] and [src/agent/inventory_cache.rs] (Linux build): the agent
    records the security-sensitive surface of the guest in a file, and later compares the
    guest with it; a second file keeps what only a running agent can see for offline
    readers.  Both files carry a digest of themselves.

    [guest_os] is what the scans read: directories with their entries in the order the
    system lists them, text files, the output of [systemctl list-timers] and the listening
    sockets that [netintel] collects (not modelled).  File names are UTF-8.  A kept file is
    a [slot]: its content and that of the temporary file beside it, and [store_fault] says
    where storing it fails.  JSON and SHA-256 are other crates ([IntegrityCrates]); the
    audit line and the log are left out. *)
From stdpp Require Import base gmap strings list.
From Stdlib Require Import ZArith Lia Ascii.
From S2P Require Import Prelude RustStr Repair Passport Gate Baseline.

Definition BIN_DIRS : list string :=
  ["/usr/bin"; "/usr/sbin"; "/bin"; "/sbin"; "/usr/local/bin"; "/usr/local/sbin"].
Definition SENSITIVE_WORLD_WRITABLE : list string := ["/etc"; "/etc/cron.d"; "/etc/sudoers.d"].

Record IntegrityBaseline : Type := mk_IntegrityBaseline {
  ib_captured_at : string;
  ib_boot_id : string;
  ib_suid_sgid : gmap string string;
  ib_listeners : gmap string string;
  ib_kernel_modules : list string;
  ib_authorized_keys : gmap string string;
  ib_sudoers : list string;
  ib_cron_jobs : list string;
  ib_systemd_timers : list string;
  ib_world_writable : list string;
  ib_integrity_sha256 : string
}.

(** ** What the scans read *)
Record dir_entry : Type := mk_dir_entry {
  de_name : string;
  (** [DirEntry::metadata], which follows no link: a regular file?, the mode *)
  de_meta : option (bool * Z);
  (** [fs::read] and [fs::read_to_string], which do *)
  de_bytes : option string;
  de_text : option string
}.
Record Listener : Type := mk_Listener {
  li_local_port : Z;
  li_proto : string;
  li_process : string;
  li_pid : Z
}.
Record guest_os : Type := mk_guest_os {
  os_dir : string → option (list dir_entry);
  os_text : string → option string;
  os_timers : option string;
  os_listeners : list Listener;
  (** the boot id of the last heartbeat, if there was one *)
  os_boot_id : option string;
  os_now : string
}.
Definition entry_path (dir : string) (e : dir_entry) : string := dir +:+ "/" +:+ de_name e.

Class IntegrityCrates (Payload : Type) := {
  sha256_digest : string → list Z;
  integrity_to_string : IntegrityBaseline → string;
  integrity_to_vec_pretty : IntegrityBaseline → string;
  integrity_from_slice : string → option IntegrityBaseline;
  payload_to_vec : Payload → string
}.
Definition hex (bytes : list Z) : string := join "" (map fmt_02x bytes).

Section integrity.
Context {Payload : Type} `{!IntegrityCrates Payload}.

Definition sha256_str (s : string) : string := hex (sha256_digest s).

(** ** The scans *)
Definition suid_entry (dir : string) (e : dir_entry) : option (string * string) :=
  '(is_file, mode) ← de_meta e;
  if is_file && negb (Z.land mode 3072 =? 0)%Z
  then (fun c => (entry_path dir e, sha256_str c)) <$> de_bytes e else None.
(** insertion into the [BTreeMap]: the last entry of a key stays. *)
Definition insert_all (l : list (string * string)) : gmap string string :=
  foldl (fun m kv => <[kv.1 := kv.2]> m) ∅ l.
Definition scan_suid_sgid (o : guest_os) : gmap string string :=
  insert_all (BIN_DIRS ≫= fun dir => omap (suid_entry dir) (default [] (os_dir o dir))).

Definition scan_listeners (o : guest_os) : gmap string string :=
  insert_all (map (fun l =>
    (fmt_Z (li_local_port l) +:+ "/" +:+ li_proto l,
     if is_empty (li_process l) then "pid-" +:+ fmt_Z (li_pid l) else li_process l)) (os_listeners o)).

Definition scan_kernel_modules (o : guest_os) : list string :=
  match os_text o "/proc/modules" with
  | Some c => str_sort (omap (fun l => head (split_whitespace l)) (lines c))
  | None => []
  end.

Definition key_entry (o : guest_os) (line : string) : option (string * string) :=
  match split_char ":"%char line with
  | user :: _ :: uid :: _ :: _ :: home :: _ :: _ =>
      let uid := default 0%Z (parse_unsigned u32_max uid) in
      if negb (uid =? 0)%Z && (uid <? 1000)%Z then None
      else (fun content => (user, sha256_str content)) <$> os_text o (home +:+ "/.ssh/authorized_keys")
  | _ => None
  end.
Definition scan_authorized_keys (o : guest_os) : gmap string string :=
  insert_all (omap (key_entry o) (lines (default "" (os_text o "/etc/passwd")))).

Definition group_members (line : string) : list string :=
  if starts_with "sudo:" line || starts_with "wheel:" line then
    match split_char ":"%char line !! 3%nat with
    | Some m => List.filter (fun x => negb (is_empty x)) (split_char ","%char m)
    | None => []
    end
  else [].
Definition sudoers_line (line : string) : option string :=
  let t := trim line in
  if negb (starts_with "#" t) && negb (is_empty t) && negb (starts_with "Defaults" t)
  then Some ("sudoers.d: " +:+ t) else None.
Definition scan_sudoers (o : guest_os) : list string :=
  dedup (str_sort
    ((lines (default "" (os_text o "/etc/group")) ≫= group_members)
     ++ (default [] (os_dir o "/etc/sudoers.d") ≫= fun e =>
           match de_text e with Some content => omap sudoers_line (lines content) | None => [] end))).

Definition CRON_DIRS : list string := ["/etc/cron.d"; "/var/spool/cron/crontabs"; "/var/spool/cron"].
Definition scan_cron (o : guest_os) : list string :=
  str_sort (CRON_DIRS ≫= fun dir => map (entry_path dir) (default [] (os_dir o dir))).

Definition scan_timers (o : guest_os) : list string :=
  match os_timers o with
  | Some out =>
      dedup (str_sort (List.filter (ends_with ".timer")
        (omap (fun l => last (split_whitespace l)) (lines out))))
  | None => []
  end.

Definition writable_entry (dir : string) (e : dir_entry) : option string :=
  '(_, mode) ← de_meta e;
  if negb (Z.land mode 2 =? 0)%Z && (Z.land mode 512 =? 0)%Z then Some (entry_path dir e) else None.
Definition scan_world_writable (o : guest_os) : list string :=
  str_sort (SENSITIVE_WORLD_WRITABLE ≫= fun dir => omap (writable_entry dir) (default [] (os_dir o dir))).

(** ** The baseline *)
Definition with_digest (d : string) (b : IntegrityBaseline) : IntegrityBaseline :=
  mk_IntegrityBaseline (ib_captured_at b) (ib_boot_id b) (ib_suid_sgid b) (ib_listeners b)
    (ib_kernel_modules b) (ib_authorized_keys b) (ib_sudoers b) (ib_cron_jobs b)
    (ib_systemd_timers b) (ib_world_writable b) d.
Definition with_captured_at (t : string) (b : IntegrityBaseline) : IntegrityBaseline :=
  mk_IntegrityBaseline t (ib_boot_id b) (ib_suid_sgid b) (ib_listeners b)
    (ib_kernel_modules b) (ib_authorized_keys b) (ib_sudoers b) (ib_cron_jobs b)
    (ib_systemd_timers b) (ib_world_writable b) (ib_integrity_sha256 b).
Definition digest_baseline (b : IntegrityBaseline) : string :=
  sha256_str (integrity_to_string (with_captured_at "" (with_digest "" b))).
Definition capture (o : guest_os) : IntegrityBaseline :=
  let b := mk_IntegrityBaseline (os_now o) (default "" (os_boot_id o))
    (scan_suid_sgid o) (scan_listeners o) (scan_kernel_modules o) (scan_authorized_keys o)
    (scan_sudoers o) (scan_cron o) (scan_timers o) (scan_world_writable o) "" in
  with_digest (digest_baseline b) b.

Definition baseline_path (state_dir : option string) : string :=
  match state_dir with
  | Some dir => path_join dir "integrity-baseline.json"
  | None => "/var/lib/guestkit/integrity-baseline.json"
  end.

(** a kept file and the temporary file beside it. *)
Record slot : Type := mk_slot { sl_file : option string; sl_tmp : option string }.
Inductive store_fault : Type :=
  | StoreOk
  | DirFails
  | WriteFails (written : option string)
  | RenameFails.
(** [create_dir_all], [write] of the temporary file, [rename]. *)
Definition store_slot (f : store_fault) (content : string) (s : slot) : slot * bool :=
  match f with
  | StoreOk => (mk_slot (Some content) None, true)
  | DirFails => (s, false)
  | WriteFails (Some part) => (mk_slot (sl_file s) (Some part), false)
  | WriteFails None => (s, false)
  | RenameFails => (mk_slot (sl_file s) (Some content), false)
  end.

Record BaselineSummary : Type := mk_BaselineSummary {
  bs_captured_at : string;
  bs_suid_sgid : nat;
  bs_listeners : nat;
  bs_kernel_modules : nat;
  bs_path : string
}.
Definition write_baseline (state_dir : option string) (f : store_fault) (o : guest_os) (s : slot)
    : slot * option BaselineSummary :=
  let b := capture o in
  let '(s, ok) := store_slot f (integrity_to_vec_pretty b) s in
  (s, if ok then
        Some (mk_BaselineSummary (ib_captured_at b) (size (ib_suid_sgid b)) (size (ib_listeners b))
          (length (ib_kernel_modules b)) (baseline_path state_dir))
      else None).
Definition load_integrity_baseline (s : slot) : option IntegrityBaseline :=
  bytes ← sl_file s;
  b ← integrity_from_slice bytes;
  if String.eqb (digest_baseline b) (ib_integrity_sha256 b) then Some b else None.

(** ** The comparison *)
Record IntegrityChange : Type := mk_IntegrityChange {
  ic_category : string;
  ic_kind : string;
  ic_item : string;
  ic_severity : string
}.
Definition map_change (base : gmap string string) (category severity : string) (kv : string * string)
    : option IntegrityChange :=
  match base !! kv.1 with
  | None => Some (mk_IntegrityChange category "added" kv.1 severity)
  | Some bv => if negb (String.eqb bv kv.2) then Some (mk_IntegrityChange category "modified" kv.1 severity) else None
  end.
Definition map_removal (cur : gmap string string) (category : string) (kv : string * string)
    : option IntegrityChange :=
  match cur !! kv.1 with
  | None => Some (mk_IntegrityChange category "removed" kv.1 "low")
  | Some _ => None
  end.
Definition diff_map (base cur : gmap string string) (category severity : string) : list IntegrityChange :=
  omap (map_change base category severity) (btree_iter cur) ++ omap (map_removal cur category) (btree_iter base).

Definition vec_contains (l : list string) (x : string) : bool := existsb (String.eqb x) l.
Definition diff_list (base cur : list string) (category severity : string) (additions_only : bool)
    : list IntegrityChange :=
  map (fun x => mk_IntegrityChange category "added" x severity)
    (List.filter (fun x => negb (vec_contains base x)) cur)
  ++ if additions_only then []
     else map (fun x => mk_IntegrityChange category "removed" x "low")
            (List.filter (fun x => negb (vec_contains cur x)) base).

Definition integrity_changes (base cur : IntegrityBaseline) : list IntegrityChange :=
  diff_map (ib_suid_sgid base) (ib_suid_sgid cur) "suid_sgid" "high"
  ++ diff_list (ib_kernel_modules base) (ib_kernel_modules cur) "kernel_module" "high" true
  ++ diff_map (ib_authorized_keys base) (ib_authorized_keys cur) "authorized_keys" "high"
  ++ diff_list (ib_sudoers base) (ib_sudoers cur) "sudoers" "high" false
  ++ diff_map (ib_listeners base) (ib_listeners cur) "listener" "medium"
  ++ diff_list (ib_cron_jobs base) (ib_cron_jobs cur) "cron" "medium" true
  ++ diff_list (ib_systemd_timers base) (ib_systemd_timers cur) "systemd_timer" "medium" true
  ++ diff_list (ib_world_writable base) (ib_world_writable cur) "world_writable" "medium" true.

Record CheckReport : Type := mk_CheckReport {
  ck_baseline_captured_at : string;
  ck_checked_at : string;
  ck_boot_changed : bool;
  ck_change_count : nat;
  ck_high_severity : nat;
  ck_tampered : bool;
  ck_changes : list IntegrityChange
}.
(** [None]: the answer that there is no baseline. *)
Definition check (s : slot) (o : guest_os) : option CheckReport :=
  base ← load_integrity_baseline s;
  let cur := capture o in
  let changes := integrity_changes base cur in
  let high := length (List.filter (fun c => String.eqb (ic_severity c) "high") changes) in
  Some (mk_CheckReport (ib_captured_at base) (ib_captured_at cur)
    (negb (is_empty (ib_boot_id base)) && negb (String.eqb (ib_boot_id base) (ib_boot_id cur)))
    (length changes) high (0 <? high)%nat changes).
End integrity.

(** ** The inventory cache *)
Definition CACHE_SCHEMA : Z := 1.
Definition CACHE_RELATIVE : string := "var/lib/guestkit/inventory.snapshot".
Definition CACHE_RELATIVE_WINDOWS : string := "ProgramData/Zyvor/GuestKit/inventory.snapshot".

Record OnlineInventoryCache (Payload : Type) : Type := mk_OnlineInventoryCache {
  oc_schema : Z;
  oc_written_at : string;
  oc_agent_version : string;
  oc_hostname : string;
  oc_boot_id : string;
  oc_integrity_sha256 : string;
  oc_payload : Payload
}.
Arguments mk_OnlineInventoryCache {Payload}.
Arguments oc_schema {Payload}.
Arguments oc_written_at {Payload}.
Arguments oc_agent_version {Payload}.
Arguments oc_hostname {Payload}.
Arguments oc_boot_id {Payload}.
Arguments oc_integrity_sha256 {Payload}.
Arguments oc_payload {Payload}.

Section inventory_cache.
Context {Payload : Type} `{!IntegrityCrates Payload}.
Context (cache_to_vec_pretty : OnlineInventoryCache Payload → string)
  (cache_from_slice : string → option (OnlineInventoryCache Payload)).

Definition digest (payload : Payload) : string := hex (sha256_digest (payload_to_vec payload)).
(** the payload, host name and boot id that [build_payload] collects are arguments. *)
Definition new_cache (now version hostname boot_id : string) (payload : Payload) : OnlineInventoryCache Payload :=
  mk_OnlineInventoryCache CACHE_SCHEMA now version hostname boot_id (digest payload) payload.
Definition write_cache (f : store_fault) (now version hostname boot_id : string) (payload : Payload) (s : slot)
    : slot * bool :=
  store_slot f (cache_to_vec_pretty (new_cache now version hostname boot_id payload)) s.
(** [read path]: the bytes of the file, if it can be read. *)
Definition read_cache_file (read : string → option string) (path : string) : option (OnlineInventoryCache Payload) :=
  bytes ← read path;
  cache ← cache_from_slice bytes;
  if String.eqb (digest (oc_payload cache)) (oc_integrity_sha256 cache) then Some cache else None.
Definition read_cache_from_root (read : string → option string) (root : string) : option (OnlineInventoryCache Payload) :=
  match read_cache_file read (path_join root CACHE_RELATIVE) with
  | Some cache => Some cache
  | None => read_cache_file read (path_join root CACHE_RELATIVE_WINDOWS)
  end.
End inventory_cache.
