(* ===== verification/IntegrityProps.v ===== *)
(** * What tamper monitoring notices

    The digest of a baseline ignores its time and its own field, so a stored baseline loads
    back; the comparison is exact by category; a scan finds exactly the set-uid files of its
    directories.  Together: a set-uid file that appears after the baseline is reported.
    The digest has no key: whoever can write the file can seal what they like. *)
From stdpp Require Import base gmap strings list.
From Stdlib Require Import ZArith Lia Ascii.
From S2P Require Import Prelude RustStr Words Repair Passport Gate GateProps Baseline Integrity.

(** ** Maps built by insertion *)
Lemma insert_all_snoc l kv : insert_all (l ++ [kv]) = <[kv.1 := kv.2]> (insert_all l).
Proof. unfold insert_all. by rewrite foldl_app. Qed.
Lemma insert_all_elem l k v : insert_all l !! k = Some v → (k, v) ∈ l.
Proof.
  induction l as [|[k' v'] l IH] using rev_ind; [done|]. rewrite insert_all_snoc, elem_of_app. cbn.
  rewrite lookup_insert_Some. intros [[-> ->]|[_ Hl]]; [right; by left|left; auto].
Qed.
Lemma insert_all_NoDup l k v : NoDup l.*1 → insert_all l !! k = Some v ↔ (k, v) ∈ l.
Proof.
  intros Hnd. split; [apply insert_all_elem|]. revert Hnd.
  induction l as [|[k' v'] l IH] using rev_ind; [intros _ H; inversion H|].
  rewrite fmap_app, NoDup_app. intros (Hnd & Hdis & _). rewrite insert_all_snoc, elem_of_app. cbn.
  intros [Hin|[= -> ->]%list_elem_of_singleton]; [|by rewrite lookup_insert_eq].
  rewrite lookup_insert_ne; [auto|]. intros ->. apply (Hdis k); [|by left].
  apply list_elem_of_fmap. by exists (k, v).
Qed.

(** ** The comparison, by category *)
Lemma vec_contains_spec l x : vec_contains l x = true ↔ x ∈ l.
Proof.
  unfold vec_contains. rewrite existsb_elem_of. setoid_rewrite String.eqb_eq. naive_solver.
Qed.
Lemma elem_of_missing l l' x :
  x ∈ List.filter (fun y => negb (vec_contains l' y)) l ↔ x ∈ l ∧ x ∉ l'.
Proof.
  rewrite elem_of_filterb, negb_true_iff, <-not_true_iff_false, vec_contains_spec. tauto.
Qed.

Definition map_differs (base cur : gmap string string) (kind k : string) : Prop :=
  (kind = "added" ∧ base !! k = None ∧ is_Some (cur !! k)) ∨
  (kind = "modified" ∧ ∃ v v', base !! k = Some v ∧ cur !! k = Some v' ∧ v ≠ v').
Definition map_gone (base cur : gmap string string) (k : string) : Prop :=
  is_Some (base !! k) ∧ cur !! k = None.

Lemma elem_of_diff_map base cur category severity c :
  c ∈ diff_map base cur category severity ↔
  ic_category c = category ∧
  ((map_differs base cur (ic_kind c) (ic_item c) ∧ ic_severity c = severity) ∨
   (ic_kind c = "removed" ∧ map_gone base cur (ic_item c) ∧ ic_severity c = "low")).
Proof.
  unfold diff_map, map_differs, map_gone. rewrite elem_of_app, !list_elem_of_omap. split.
  - intros [([k v] & Hk%elem_of_btree_iter & Hc)|([k v] & Hk%elem_of_btree_iter & Hc)];
      unfold map_change, map_removal in Hc; cbn in Hc.
    + destruct (base !! k) as [bv|] eqn:E.
      * destruct (String.eqb_spec bv v); [done|]. injection Hc as <-. cbn. naive_solver.
      * injection Hc as <-. cbn. rewrite Hk. eauto 10.
    + destruct (cur !! k) eqn:E; [done|]. injection Hc as <-. cbn. rewrite Hk. eauto 10.
  - destruct c as [cat kind item sev]. cbn.
    intros [-> [[[(-> & Hb & [v Hv])|(-> & v & v' & Hb & Hv & Hn)] ->]|(-> & [[v Hv] Hb] & ->)]].
    + left. exists (item, v). rewrite elem_of_btree_iter. unfold map_change. cbn. by rewrite Hb.
    + left. exists (item, v'). rewrite elem_of_btree_iter. unfold map_change. cbn.
      rewrite Hb. by destruct (String.eqb_spec v v').
    + right. exists (item, v). rewrite elem_of_btree_iter. unfold map_removal. cbn. by rewrite Hb.
Qed.

Lemma elem_of_diff_list base cur category severity only c :
  c ∈ diff_list base cur category severity only ↔
  ic_category c = category ∧
  ((ic_kind c = "added" ∧ (ic_item c ∈ cur ∧ ic_item c ∉ base) ∧ ic_severity c = severity) ∨
   (only = false ∧ ic_kind c = "removed" ∧ (ic_item c ∈ base ∧ ic_item c ∉ cur) ∧ ic_severity c = "low")).
Proof.
  unfold diff_list. rewrite elem_of_app. split.
  - intros [Hc|Hc].
    + apply list_elem_of_fmap in Hc as (x & -> & Hx%elem_of_missing). cbn. auto.
    + destruct only; [inversion Hc|].
      apply list_elem_of_fmap in Hc as (x & -> & Hx%elem_of_missing). cbn. auto 10.
  - destruct c as [cat kind item sev]. cbn. intros [-> [(-> & Hx & ->)|(-> & -> & Hx & ->)]].
    + left. apply list_elem_of_fmap. exists item. by rewrite elem_of_missing.
    + right. apply list_elem_of_fmap. exists item. by rewrite elem_of_missing.
Qed.

(** a change of high severity, in terms of the two surfaces. *)
Definition surface_grew (base cur : IntegrityBaseline) : Prop :=
  (∃ k v, ib_suid_sgid cur !! k = Some v ∧ ib_suid_sgid base !! k ≠ Some v) ∨
  (∃ m, m ∈ ib_kernel_modules cur ∧ m ∉ ib_kernel_modules base) ∨
  (∃ k v, ib_authorized_keys cur !! k = Some v ∧ ib_authorized_keys base !! k ≠ Some v) ∨
  (∃ x, x ∈ ib_sudoers cur ∧ x ∉ ib_sudoers base).

Lemma map_differs_exists base cur :
  (∃ kind k, map_differs base cur kind k) ↔ ∃ k v, cur !! k = Some v ∧ base !! k ≠ Some v.
Proof.
  split.
  - intros (kind & k & [(_ & Hb & [v Hv])|(_ & v & v' & Hb & Hv & Hn)]); exists k; eexists; split; eauto;
      rewrite Hb; congruence.
  - intros (k & v & Hv & Hb). destruct (base !! k) as [bv|] eqn:E.
    + exists "modified", k. right. split; [done|]. exists bv, v. repeat split; auto. congruence.
    + exists "added", k. left. rewrite Hv. eauto.
Qed.

Lemma elem_of_changes base cur c :
  c ∈ integrity_changes base cur ↔
  c ∈ diff_map (ib_suid_sgid base) (ib_suid_sgid cur) "suid_sgid" "high" ∨
  c ∈ diff_list (ib_kernel_modules base) (ib_kernel_modules cur) "kernel_module" "high" true ∨
  c ∈ diff_map (ib_authorized_keys base) (ib_authorized_keys cur) "authorized_keys" "high" ∨
  c ∈ diff_list (ib_sudoers base) (ib_sudoers cur) "sudoers" "high" false ∨
  c ∈ diff_map (ib_listeners base) (ib_listeners cur) "listener" "medium" ∨
  c ∈ diff_list (ib_cron_jobs base) (ib_cron_jobs cur) "cron" "medium" true ∨
  c ∈ diff_list (ib_systemd_timers base) (ib_systemd_timers cur) "systemd_timer" "medium" true ∨
  c ∈ diff_list (ib_world_writable base) (ib_world_writable cur) "world_writable" "medium" true.
Proof. unfold integrity_changes. by do 7 rewrite elem_of_app. Qed.
Lemma high_changes base cur :
  (∃ c, c ∈ integrity_changes base cur ∧ ic_severity c = "high") ↔ surface_grew base cur.
Proof.
  unfold surface_grew. setoid_rewrite elem_of_changes. rewrite <-!map_differs_exists. split.
  - intros ([cat kind item sev] & Hc & Hsev). cbn in Hsev, Hc. subst sev.
    destruct Hc as [Hc|[Hc|[Hc|[Hc|[Hc|[Hc|[Hc|Hc]]]]]]];
      first [apply elem_of_diff_map in Hc as (_ & [[Hd Hs]|(_ & _ & Hs)])
            |apply elem_of_diff_list in Hc as (_ & [(_ & Hd & Hs)|(_ & _ & _ & Hs)])];
      try discriminate Hs; cbn in Hd; eauto 7.
  - intros [(kind & k & Hd)|[(m & Hm)|[(kind & k & Hd)|(x & Hx)]]].
    + exists (mk_IntegrityChange "suid_sgid" kind k "high"). split; [|done]. rewrite ?elem_of_diff_map, ?elem_of_diff_list. cbn. tauto.
    + exists (mk_IntegrityChange "kernel_module" "added" m "high"). split; [|done]. rewrite ?elem_of_diff_map, ?elem_of_diff_list. cbn. tauto.
    + exists (mk_IntegrityChange "authorized_keys" kind k "high"). split; [|done]. rewrite ?elem_of_diff_map, ?elem_of_diff_list. cbn. tauto.
    + exists (mk_IntegrityChange "sudoers" "added" x "high"). split; [|done]. rewrite ?elem_of_diff_map, ?elem_of_diff_list. cbn. tauto.
Qed.
Lemma count_pos {A} (p : A → bool) l : (0 <? length (List.filter p l))%nat = true ↔ ∃ x, x ∈ l ∧ p x = true.
Proof.
  rewrite Nat.ltb_lt. setoid_rewrite <-elem_of_filterb.
  destruct (List.filter p l) as [|y l']; cbn; split; try lia.
  - intros (x & Hx). inversion Hx.
  - intros _. exists y. left.
Qed.

Lemma diff_map_same m category severity : diff_map m m category severity = [].
Proof.
  apply elem_of_nil_inv. intros c. rewrite elem_of_diff_map. unfold map_differs, map_gone.
  intros (_ & [[[(_ & H1 & [v H2])|(_ & v & v' & H1 & H2 & Hn)] _]|(_ & [[v H1] H2] & _)]); congruence.
Qed.
Lemma diff_list_same l category severity only : diff_list l l category severity only = [].
Proof. apply elem_of_nil_inv. intros c. rewrite elem_of_diff_list. tauto. Qed.

Section monitoring.
Context {Payload : Type} `{!IntegrityCrates Payload}.
Implicit Types (o : guest_os) (b : IntegrityBaseline) (s : slot).

(** ** The scan of set-uid and set-gid files *)
Definition set_uid_file o (p d : string) : Prop :=
  ∃ dir es e mode c, dir ∈ BIN_DIRS ∧ os_dir o dir = Some es ∧ e ∈ es ∧ p = entry_path dir e ∧
    de_meta e = Some (true, mode) ∧ Z.land mode 3072 ≠ 0%Z ∧ de_bytes e = Some c ∧ d = sha256_str c.
(** the system lists no path twice. *)
Definition well_listed o : Prop :=
  NoDup (BIN_DIRS ≫= fun dir => entry_path dir <$> default [] (os_dir o dir)).

Lemma suid_entry_spec dir e p d :
  suid_entry dir e = Some (p, d) ↔
  p = entry_path dir e ∧
  ∃ mode c, de_meta e = Some (true, mode) ∧ Z.land mode 3072 ≠ 0%Z ∧ de_bytes e = Some c ∧ d = sha256_str c.
Proof.
  unfold suid_entry. destruct (de_meta e) as [[[] mode]|]; cbn; [|naive_solver|naive_solver].
  destruct (Z.eqb_spec (Z.land mode 3072) 0); cbn; [naive_solver|].
  destruct (de_bytes e); cbn; naive_solver.
Qed.
Lemma suid_keys o dirs :
  (dirs ≫= fun dir => omap (suid_entry dir) (default [] (os_dir o dir))).*1 `sublist_of`
  (dirs ≫= fun dir => entry_path dir <$> default [] (os_dir o dir)).
Proof.
  induction dirs as [|dir dirs IH]; [done|]. rewrite !bind_cons, fmap_app.
  apply sublist_app; [|done]. generalize (default [] (os_dir o dir)) as es. clear.
  intros es. induction es as [|e es IH]; [done|]. cbn.
  destruct (suid_entry dir e) as [[p d]|] eqn:E; [|by apply sublist_cons].
  apply suid_entry_spec in E as [-> _]. by apply sublist_skip.
Qed.
Lemma scan_suid_exact o p d :
  well_listed o → scan_suid_sgid o !! p = Some d ↔ set_uid_file o p d.
Proof.
  intros Hnd. unfold scan_suid_sgid. rewrite insert_all_NoDup by (eapply sublist_NoDup; [done|apply suid_keys]).
  rewrite list_elem_of_bind. unfold set_uid_file. setoid_rewrite list_elem_of_omap.
  setoid_rewrite suid_entry_spec. split.
  - intros (dir & (e & He & -> & Hrest) & Hdir). destruct (os_dir o dir) as [es|] eqn:Ees; [|inversion He].
    destruct Hrest as (mode & c & ?). exists dir, es, e, mode, c. tauto.
  - intros (dir & es & e & mode & c & Hdir & Hes & He & Hrest). exists dir. split; [|done].
    exists e. rewrite Hes. split; [done|]. split; [tauto|]. exists mode, c. tauto.
Qed.

(** ** Loading *)
Definition seal b : IntegrityBaseline := with_digest (digest_baseline b) b.
Lemma digest_with_digest d b : digest_baseline (with_digest d b) = digest_baseline b.
Proof. done. Qed.
Lemma capture_sealed o : digest_baseline (capture o) = ib_integrity_sha256 (capture o).
Proof. done. Qed.
Lemma load_stored b tmp :
  integrity_from_slice (integrity_to_vec_pretty b) = Some b → digest_baseline b = ib_integrity_sha256 b →
  load_integrity_baseline (mk_slot (Some (integrity_to_vec_pretty b)) tmp) = Some b.
Proof.
  intros Hj Hd. unfold load_integrity_baseline. cbn [sl_file mbind option_bind]. rewrite Hj. cbn [mbind option_bind].
  by rewrite Hd, String.eqb_refl.
Qed.
Lemma check_loaded s o b :
  load_integrity_baseline s = Some b →
  ∃ r, check s o = Some r ∧ ck_changes r = integrity_changes b (capture o) ∧
    (ck_tampered r = true ↔ surface_grew b (capture o)).
Proof.
  intros Hl. unfold check. rewrite Hl. eexists. split; [reflexivity|]. cbn [ck_changes ck_tampered].
  split; [done|]. rewrite count_pos, <-high_changes. by setoid_rewrite String.eqb_eq.
Qed.
(** what is compared. *)
Definition surface b :=
  (ib_suid_sgid b, ib_listeners b, ib_kernel_modules b, ib_authorized_keys b,
   (ib_sudoers b, ib_cron_jobs b, ib_systemd_timers b, ib_world_writable b)).
Lemma changes_same b b' : surface b = surface b' → integrity_changes b b' = [].
Proof.
  unfold surface, integrity_changes. intros [= -> -> -> -> -> -> -> ->].
  by rewrite !diff_map_same, !diff_list_same.
Qed.

(** ** The theorems *)

(** the verdict of a check is exact.  A check that finds a baseline says "tampered"
    exactly when a set-uid or set-gid file or an authorized-keys file is new or has another
    digest than in the baseline, or a kernel module or a sudoers line is new; nothing that
    disappears and no listener, cron job or timer counts. *)
Theorem tampered_exactly s o b :
  load_integrity_baseline s = Some b →
  ∃ r, check s o = Some r ∧ (ck_tampered r = true ↔ surface_grew b (capture o)).
Proof. intros Hl. destruct (check_loaded s o b Hl) as (r & Hr & _ & Ht). eauto. Qed.

(** C38: a baseline that was written is what the next check compares with: if the surface
    is the same there are no changes, and if a set-uid file is in the scanned directories
    that was not there with that digest, the check says "tampered".  A write that fails
    anywhere leaves the earlier baseline in place. *)
Theorem baseline_then_check dir f o0 o1 s :
  (∀ b, integrity_from_slice (integrity_to_vec_pretty b) = Some b) →
  let '(s', summary) := write_baseline dir f o0 s in
  match summary with
  | None => load_integrity_baseline s' = load_integrity_baseline s
  | Some _ =>
      ∃ r, check s' o1 = Some r ∧
        (surface (capture o0) = surface (capture o1) → ck_changes r = [] ∧ ck_tampered r = false) ∧
        (∀ p d, well_listed o0 → well_listed o1 →
           set_uid_file o1 p d → ¬ set_uid_file o0 p d → ck_tampered r = true)
  end.
Proof.
  intros Hj. unfold write_baseline, store_slot. destruct f as [| |[part|]|]; [|done..].
  destruct (check_loaded (mk_slot (Some (integrity_to_vec_pretty (capture o0))) None) o1 (capture o0))
    as (r & Hr & Hc & Ht).
  { by apply load_stored. }
  exists r. split; [done|]. split.
  - intros Hs. rewrite Hc, changes_same by done. split; [done|].
    apply not_true_iff_false. rewrite Ht, <-high_changes, changes_same by done.
    intros (c & Hin & _). inversion Hin.
  - intros p d Hw0 Hw1 H1 H0. apply Ht. left. exists p, d.
    change (ib_suid_sgid (capture o1)) with (scan_suid_sgid o1).
    change (ib_suid_sgid (capture o0)) with (scan_suid_sgid o0).
    by rewrite !scan_suid_exact.
Qed.

(** the digest of the baseline is not a secret's.  Whatever baseline is sealed with the
    digest of its own fields loads; so a file made from the guest as it is now, dated at
    will, makes the check report no change.  Only an edit that leaves the digest as it was
    is noticed, and then the answer is that of a guest without a baseline. *)
Theorem forged_baseline_accepted o t tmp :
  (∀ b, integrity_from_slice (integrity_to_vec_pretty b) = Some b) →
  (∀ b, load_integrity_baseline (mk_slot (Some (integrity_to_vec_pretty (seal b))) tmp) = Some (seal b)) ∧
  (∃ r, check (mk_slot (Some (integrity_to_vec_pretty (seal (with_captured_at t (capture o))))) tmp) o = Some r ∧
     ck_baseline_captured_at r = t ∧ ck_changes r = [] ∧ ck_tampered r = false) ∧
  (∀ b b', digest_baseline b' ≠ digest_baseline b → ib_integrity_sha256 b' = digest_baseline b →
     check (mk_slot (Some (integrity_to_vec_pretty b')) tmp) o = None).
Proof.
  intros Hj. assert (∀ b, load_integrity_baseline (mk_slot (Some (integrity_to_vec_pretty (seal b))) tmp) = Some (seal b))
    as Hl by (intros b; by apply load_stored).
  split; [done|]. split.
  - unfold check. rewrite Hl. set (b := seal (with_captured_at t (capture o))). cbn [mbind option_bind]. eexists. split; [reflexivity|].
    cbn [ck_baseline_captured_at ck_changes ck_tampered].
    rewrite (changes_same b (capture o)) by done. done.
  - intros b b' Hne Hd. unfold check, load_integrity_baseline. cbn [sl_file mbind option_bind].
    rewrite Hj. cbn [mbind option_bind]. destruct (String.eqb_spec (digest_baseline b') (ib_integrity_sha256 b')) as [E|]; [|done].
    by rewrite Hd in E.
Qed.

(** a cache file is read back from the root of the guest whole, from the Linux place
    before the Windows one; its digest covers the payload only, so this holds for every
    host name, boot id, version and time in it. *)
Theorem cache_read_back (to_vec : OnlineInventoryCache Payload → string) from_slice read root (c : OnlineInventoryCache Payload) :
  (∀ c, from_slice (to_vec c) = Some c) →
  oc_integrity_sha256 c = digest (oc_payload c) →
  read (path_join root CACHE_RELATIVE) = Some (to_vec c) ∨
  (read (path_join root CACHE_RELATIVE) = None ∧ read (path_join root CACHE_RELATIVE_WINDOWS) = Some (to_vec c)) →
  read_cache_from_root from_slice read root = Some c.
Proof.
  intros Hj Hd Hr. unfold read_cache_from_root, read_cache_file.
  destruct Hr as [Hr|[Hr0 Hr]]; [|rewrite Hr0; cbn [mbind option_bind]]; rewrite Hr; cbn [mbind option_bind];
    rewrite Hj; cbn [mbind option_bind]; by rewrite Hd, String.eqb_refl.
Qed.
End monitoring.

(** ** Examples *)
Definition baseline_fields b :=
  (ib_captured_at b, ib_boot_id b, ib_suid_sgid b, ib_listeners b, ib_kernel_modules b, ib_authorized_keys b,
   ib_sudoers b, ib_cron_jobs b, ib_systemd_timers b, ib_world_writable b, ib_integrity_sha256 b).
Definition baseline_of_fields f : IntegrityBaseline :=
  let '(t, bt, su, li, km, ak, sd, cr, ti, ww, d) := f in mk_IntegrityBaseline t bt su li km ak sd cr ti ww d.
(** the digest is the length of the text, to keep the examples small. *)
#[local] Instance toy_crates : IntegrityCrates string := {|
  sha256_digest s := [Z.of_nat (String.length s)];
  integrity_to_string b := digits_of (encode (baseline_fields b));
  integrity_to_vec_pretty b := digits_of (encode (baseline_fields b));
  integrity_from_slice s := baseline_of_fields <$> decode (number_of s);
  payload_to_vec p := p
|}.
Lemma toy_json b : integrity_from_slice (integrity_to_vec_pretty b) = Some b.
Proof. destruct b. cbn. by rewrite number_of_digits, decode_encode. Qed.

Definition toy_entry (name : string) (mode : Z) (content : string) : dir_entry :=
  mk_dir_entry name (Some (true, mode)) (Some content) (Some content).
Definition toy_os (bin : list dir_entry) : guest_os :=
  mk_guest_os (fun d => if String.eqb d "/usr/bin" then Some bin else None)
    (fun f => if String.eqb f "/proc/modules" then Some "ext4 1 0" else None) None
    [mk_Listener 22 "tcp" "sshd" 900] (Some "boot-1") "2026-01-01".
Definition clean_os : guest_os := toy_os [toy_entry "sudo" 2541 "elf"; toy_entry "ls" 493 "elf"].
Definition dropped_os : guest_os := toy_os [toy_entry "sudo" 2541 "elf"; toy_entry "ls" 493 "elf"; toy_entry "sh" 2541 "evil"].
Notation baseline_taken := (write_baseline None StoreOk clean_os (mk_slot None None)).1.
Lemma taken_loads : load_integrity_baseline baseline_taken = Some (capture clean_os).
Proof. exact (load_stored (capture clean_os) None (toy_json _) (capture_sealed clean_os)). Qed.

Lemma tampered_exactly_witness :
  ∃ r, check baseline_taken dropped_os = Some r ∧
    (ck_tampered r = true ↔ surface_grew (capture clean_os) (capture dropped_os)).
Proof. exact (tampered_exactly baseline_taken dropped_os (capture clean_os) taken_loads). Defined.
Lemma dropped_file : set_uid_file dropped_os "/usr/bin/sh" (sha256_str "evil").
Proof.
  exists "/usr/bin". eexists _, (toy_entry "sh" 2541 "evil"), 2541%Z, "evil".
  split; [by left|]. split; [reflexivity|]. split; [rewrite !elem_of_cons; auto|]. by repeat split.
Qed.
Lemma clean_listed : well_listed clean_os.
Proof. apply (bool_decide_unpack _). vm_compute. exact I. Qed.
Lemma dropped_listed : well_listed dropped_os.
Proof. apply (bool_decide_unpack _). vm_compute. exact I. Qed.
Lemma not_before : ¬ set_uid_file clean_os "/usr/bin/sh" (sha256_str "evil").
Proof. rewrite <-scan_suid_exact by apply clean_listed. vm_compute. discriminate. Qed.
Lemma baseline_then_check_witness : ∃ r, check baseline_taken dropped_os = Some r ∧ ck_tampered r = true.
Proof.
  destruct (baseline_then_check None StoreOk clean_os dropped_os (mk_slot None None) toy_json) as (r & Hr & _ & Ht).
  exists r. split; [exact Hr|].
  exact (Ht _ _ clean_listed dropped_listed dropped_file not_before).
Defined.
Lemma forged_baseline_accepted_witness :
  ∃ r, check (mk_slot (Some (integrity_to_vec_pretty (seal (with_captured_at "2025-06-01" (capture dropped_os))))) None)
         dropped_os = Some r ∧
    ck_baseline_captured_at r = "2025-06-01" ∧ ck_changes r = [] ∧ ck_tampered r = false.
Proof. exact (proj1 (proj2 (forged_baseline_accepted dropped_os "2025-06-01" None toy_json))). Defined.

Notation kept_cache := (new_cache "2026-01-01" "1.0" "db-1" "boot-1" "facts").
Definition cache_fields (c : OnlineInventoryCache string) :=
  (oc_schema c, oc_written_at c, oc_agent_version c, oc_hostname c, oc_boot_id c, oc_integrity_sha256 c, oc_payload c).
Definition cache_text (c : OnlineInventoryCache string) : string := digits_of (encode (cache_fields c)).
Definition cache_of_text (s : string) : option (OnlineInventoryCache string) :=
  (fun '(sc, w, v, h, bt, d, p) => mk_OnlineInventoryCache sc w v h bt d p) <$> decode (number_of s).
Lemma cache_text_ok c : cache_of_text (cache_text c) = Some c.
Proof. destruct c. unfold cache_of_text, cache_text. by rewrite number_of_digits, decode_encode. Qed.
Definition image_files (p : string) : option string :=
  if String.eqb p "/mnt/ProgramData/Zyvor/GuestKit/inventory.snapshot" then Some (cache_text kept_cache) else None.
Lemma cache_read_back_witness : read_cache_from_root cache_of_text image_files "/mnt" = Some kept_cache.
Proof.
  exact (cache_read_back cache_text cache_of_text image_files "/mnt" kept_cache cache_text_ok eq_refl
    (or_intror (conj eq_refl eq_refl))).
Defined.

(** a set-uid file that is gone is a change of low severity. *)
Example removals_are_quiet :
  integrity_changes (capture dropped_os) (capture clean_os) =
    [mk_IntegrityChange "suid_sgid" "removed" "/usr/bin/sh" "low"].
Proof. vm_compute. reflexivity. Qed.
