(* ===== verification/Executor.v ===== *)
(** * The privileged helper

    [src/agent/executor.rs], [src/agent/executor_ipc.rs] (Linux build) and the restart call
    of [src/collectors/dbus/systemd1.rs]: the unprivileged agent sends an action over a Unix
    socket to a helper that runs as root; the helper decides with its own copy of the policy
    and acts.  The same [Executor] runs on both sides: in the agent it has a helper to call,
    in the helper (or without one) it acts itself.

    The state is what was done to the guest, in order (files written are the operations' of
    [AgentOps]), and the audit log.  What a command or
    the bus answers is the environment's ([ExecEnv]), as are the support bundle and the
    staged update behind two of the actions ([Updater] models the latter).  JSON values are
    [json]; their text is serde's ([exec_crates]).  Frames are those of [Frame]. *)
From stdpp Require Import base gmap strings list.
From Stdlib Require Import ZArith Lia Ascii.
From S2P Require Import Prelude RustStr Frame AgentRpc AgentPolicy Passport Baseline.

(** ** JSON values *)
Inductive json : Type :=
  | JNull
  | JBool (b : bool)
  | JInt (z : Z)
  | JFloat (text : string)
  | JStr (s : string)
  | JArr (l : list json)
  | JObj (m : list (string * json)).
Definition json_get (k : string) (v : json) : option json :=
  match v with
  | JObj m => snd <$> List.find (fun e => String.eqb (fst e) k) m
  | _ => None
  end.
Definition as_str (v : json) : option string := match v with JStr s => Some s | _ => None end.
Definition as_u64 (v : json) : option Z :=
  match v with JInt z => if (0 <=? z)%Z && (z <? u64_max)%Z then Some z else None | _ => None end.
Definition str_param (k : string) (d : string) (params : json) : string :=
  default d (json_get k params ≫= as_str).

(** ** The guest *)
Inductive effect : Type :=
  | Ran (argv : list string)
  | BusRestart (unit mode : string)
  | Copied (from to : string)
  | Wrote (path content : string).
Record host : Type := mk_host {
  h_done : list effect;
  h_audit : string
}.
Record command_output : Type := mk_command_output {
  co_success : bool;
  co_stdout : string;
  co_stderr : string;
  (** the [Display] of the exit status *)
  co_status : string
}.
(** a reply of the bus: systemd's [RestartUnit] answers with the path of the job. *)
Inductive bus_value : Type := BusU32 (n : Z) | BusObjectPath (p : string).
Inductive bus_outcome : Type :=
  | BusUnreachable (error : string)
  | BusCallError
  | BusReplied (v : bus_value).
(** every answer depends on how much was done before. *)
Class ExecEnv := {
  run_command : nat → list string → string + command_output;
  bus_restart : nat → string → bus_outcome;
  audit_opens : nat → bool;
  audit_now : nat → string;
  support_bundle : nat → string + list Z;
  base64_encode : list Z → string;
  base64_decode : string → option (list Z);
  staged_update : nat → string + string
}.

Definition act (A : Type) : Type := host → host * A.
#[export] Instance act_ret : MRet act := fun A a h => (h, a).
#[export] Instance act_bind : MBind act := fun A B f m h => let '(h, a) := m h in f a h.

Record RemediationActionSpec : Type := mk_RemediationActionSpec { ras_action : string; ras_target : string }.
Record RemediationActionResult : Type := mk_RemediationActionResult {
  rar_action : string;
  rar_success : bool;
  rar_message : string
}.
Record RemediationResult : Type := mk_RemediationResult {
  rr_plan_id : string;
  rr_success : bool;
  rr_actions : list RemediationActionResult
}.

(** the derived serde implementations of the three records; a struct may also be a
    sequence of its fields. *)
Definition spec_to_value (a : RemediationActionSpec) : json :=
  JObj [("action", JStr (ras_action a)); ("target", JStr (ras_target a))].
Definition spec_from_value (v : json) : option RemediationActionSpec :=
  match v with
  | JArr [JStr a; JStr t] => Some (mk_RemediationActionSpec a t)
  | JObj _ =>
      a ← json_get "action" v ≫= as_str;
      t ← json_get "target" v ≫= as_str;
      Some (mk_RemediationActionSpec a t)
  | _ => None
  end.
Definition vec_from_value {A} (f : json → option A) (v : json) : option (list A) :=
  match v with JArr l => mapM f l | _ => None end.
Definition as_bool (v : json) : option bool := match v with JBool b => Some b | _ => None end.
Definition action_result_to_value (r : RemediationActionResult) : json :=
  JObj [("action", JStr (rar_action r)); ("success", JBool (rar_success r)); ("message", JStr (rar_message r))].
Definition action_result_from_value (v : json) : option RemediationActionResult :=
  match v with
  | JArr [JStr a; JBool s; JStr m] => Some (mk_RemediationActionResult a s m)
  | JObj _ =>
      a ← json_get "action" v ≫= as_str;
      s ← json_get "success" v ≫= as_bool;
      m ← json_get "message" v ≫= as_str;
      Some (mk_RemediationActionResult a s m)
  | _ => None
  end.
Definition result_to_value (r : RemediationResult) : json :=
  JObj [("plan_id", JStr (rr_plan_id r)); ("success", JBool (rr_success r));
        ("actions", JArr (map action_result_to_value (rr_actions r)))].
Definition result_from_value (v : json) : option RemediationResult :=
  match v with
  | JArr [JStr p; JBool s; l] => mk_RemediationResult p s <$> vec_from_value action_result_from_value l
  | JObj _ =>
      p ← json_get "plan_id" v ≫= as_str;
      s ← json_get "success" v ≫= as_bool;
      l ← json_get "actions" v ≫= vec_from_value action_result_from_value;
      Some (mk_RemediationResult p s l)
  | _ => None
  end.

Record HelperRequest : Type := mk_HelperRequest { hr_action : string; hr_params : json }.
Record HelperResponse : Type := mk_HelperResponse {
  hs_ok : bool;
  hs_result : option json;
  hs_error : option string
}.
Definition ok_response (v : json) : HelperResponse := mk_HelperResponse true (Some v) None.
Definition error_response (e : string) : HelperResponse := mk_HelperResponse false None (Some e).
(** the [match] on a result that most actions end with. *)
Definition text_response (r : string + string) : HelperResponse :=
  match r with inr msg => ok_response (JStr msg) | inl e => error_response e end.

(** what [call_executor] does with an action and its parameters. *)
Definition caller : Type := string → json → act (string + json).

Section executor.
Context `{ExecEnv}.

Definition spawn (argv : list string) : act (string + command_output) := fun h =>
  (mk_host (h_done h ++ [Ran argv]) (h_audit h), run_command (length (h_done h)) argv).
Definition exec_audit (action target : string) (success : bool) (detail : string) : act () := fun h =>
  let n := length (h_done h) in
  let line := audit_now n +:+ " action=" +:+ action +:+ " target=" +:+ target +:+ " success="
    +:+ fmt_bool success +:+ " detail=" +:+ replace_chars [ascii_of_byte 10] " "%char detail +:+ newline_str in
  (if audit_opens n then mk_host (h_done h) (h_audit h +:+ line) else h, ()).

Definition run_systemctl (op unit : string) : act (string + string) :=
  o ← spawn ["systemctl"; op; unit];
  let result := match o with
                | inr o => inr (if co_success o then op +:+ " " +:+ unit +:+ " ok" else co_stderr o)
                | inl e => inl e
                end in
  let success := match result with inr r => ends_with " ok" r | inl _ => false end in
  exec_audit ("systemctl_" +:+ op) unit success (match result with inr r => r | inl _ => "" end) ;;
  mret result.

(** the reply is decoded as a [u32]. *)
Definition systemd1_restart_unit (name : string) : act (string + string) := fun h =>
  let called := mk_host (h_done h ++ [BusRestart name "replace"]) (h_audit h) in
  match bus_restart (length (h_done h)) name with
  | BusUnreachable e => (h, inl e)
  | BusReplied (BusU32 _) => (called, inr ("restarted " +:+ name))
  | BusReplied (BusObjectPath _) | BusCallError => (called, inl "RestartUnit D-Bus call")
  end.

(** ** [Executor]; [call]: the helper, where there is one to call *)
Definition restart_unit_itself (unit : string) : act (string + string) :=
  r ← systemd1_restart_unit unit;
  match r with
  | inr msg => exec_audit "restart_unit" unit true msg ;; mret (inr msg)
  | inl dbus_err =>
      r ← run_systemctl "restart" unit;
      mret (match r with
            | inr msg => inr msg
            | inl se => inl ("restart via D-Bus failed (" +:+ dbus_err +:+ "); systemctl fallback failed (" +:+ se +:+ ")")
            end)
  end.
Definition try_helper (call : option caller) (action : string) (params : json) : act (option json) :=
  match call with
  | Some call => r ← call action params; mret (match r with inr v => Some v | inl _ => None end)
  | None => mret None
  end.
Definition unit_params (unit : string) : json := JObj [("unit", JStr unit)].
Definition restart_unit (call : option caller) (policy : AgentPolicy) (unit : string) : act (string + string) :=
  if negb (can_restart_unit policy unit) then mret (inl ("restart_unit denied by policy for " +:+ unit))
  else
    answer ← try_helper call "restart_unit" (unit_params unit);
    match answer ≫= as_str with
    | Some msg => mret (inr msg)
    | None => restart_unit_itself unit
    end.
Definition control_unit (call : option caller) (policy : AgentPolicy) (op unit : string) : act (string + string) :=
  if negb (String.eqb op "start" || String.eqb op "stop") then mret (inl ("unsupported unit operation: " +:+ op))
  else if negb (can_restart_unit policy unit) then mret (inl (op +:+ "_unit denied by policy for " +:+ unit))
  else
    answer ← try_helper call (op +:+ "_unit") (unit_params unit);
    match answer ≫= as_str with
    | Some msg => mret (inr msg)
    | None => run_systemctl op unit
    end.

Definition either_text (r : string + string) : string := match r with inl e => e | inr m => m end.
Definition remediate (call : option caller) (policy : AgentPolicy) (a : RemediationActionSpec) : act string :=
  if String.eqb (ras_action a) "restart_unit" then
    r ← restart_unit call policy (ras_target a); mret (either_text r)
  else if String.eqb (ras_action a) "fix_dns" then
    r ← run_systemctl "restart" "systemd-resolved.service"; mret (either_text r)
  else if String.eqb (ras_action a) "rotate_journal" then
    r ← spawn ["journalctl"; "--vacuum-size=500M"];
    mret (match r with inr _ => "journal vacuumed" | inl e => e end)
  else mret ("unsupported action: " +:+ ras_action a).
Definition remediated (result : string) : bool :=
  negb (starts_with "denied" result) && negb (contains "unsupported" result).
Fixpoint remediate_all (call : option caller) (policy : AgentPolicy) (actions : list RemediationActionSpec)
    : act (list RemediationActionResult) :=
  match actions with
  | [] => mret []
  | a :: actions =>
      result ← remediate call policy a;
      let success := remediated result in
      exec_audit (ras_action a) (ras_target a) success result ;;
      rest ← remediate_all call policy actions;
      mret (mk_RemediationActionResult (ras_action a) success result :: rest)
  end.
Definition plan_params (plan_id : string) (actions : list RemediationActionSpec) : json :=
  JObj [("plan_id", JStr plan_id); ("actions", JArr (map spec_to_value actions))].
Definition execute_remediation_plan (call : option caller) (policy : AgentPolicy) (plan_id : string)
    (actions : list RemediationActionSpec) : act RemediationResult :=
  answer ← try_helper call "execute_remediation_plan" (plan_params plan_id actions);
  match answer ≫= result_from_value with
  | Some parsed => mret parsed
  | None =>
      results ← remediate_all call policy actions;
      mret (mk_RemediationResult plan_id (forallb rar_success results) results)
  end.

Definition own_bundle : act (string + list Z) := fun h => (h, support_bundle (length (h_done h))).
Definition collect_support_bundle (call : option caller) : act (string + list Z) :=
  match call with
  | None => own_bundle
  | Some call =>
      r ← call "collect_support_bundle" (JObj []);
      match r with
      | inl e => mret (inl e)
      | inr v =>
          match json_get "data" v ≫= as_str with
          | Some data => mret (match base64_decode data with Some b => inr b | None => inl "decode support bundle" end)
          | None => own_bundle
          end
      end
  end.

(** ** Actions of the helper itself *)
Definition run_power_action (action : string) (delay_secs : Z) : act (string + string) :=
  let minutes := ((delay_secs + 59) / 60)%Z in
  let flag := if String.eqb action "reboot" then "-r" else "-h" in
  o ← spawn ["shutdown"; flag; "+" +:+ fmt_Z minutes];
  mret (match o with
        | inl e => inl e
        | inr o => if co_success o then inr (action +:+ " scheduled in " +:+ fmt_Z delay_secs +:+ "s")
                   else inl ("shutdown command failed: " +:+ co_status o)
        end).
Fixpoint sync_attempts (attempts : list (string * list string)) : act (string + string) :=
  match attempts with
  | [] => mret (inl "no time sync mechanism succeeded (tried chronyc/timedatectl or w32tm)")
  | (cmd, args) :: attempts =>
      o ← spawn (cmd :: args);
      match o with
      | inr o => if co_success o then mret (inr ("time sync triggered via " +:+ cmd)) else sync_attempts attempts
      | inl _ => sync_attempts attempts
      end
  end.
Definition run_time_sync : act (string + string) :=
  sync_attempts [("chronyc", ["makestep"]); ("timedatectl", ["set-ntp"; "true"])].
Definition local_fsfreeze (thaw : bool) : act (string + unit) :=
  let flag := if thaw then "-u" else "-f" in
  o ← spawn ["fsfreeze"; flag; "/"];
  mret (match o with
        | inl _ => inl "run fsfreeze"
        | inr o =>
            if co_success o then inr tt
            else
              let why := trim (co_stderr o) in
              inl ("fsfreeze " +:+ flag +:+ " / failed: " +:+ co_status o
                +:+ if is_empty why then "" else ": " +:+ why)
        end).
Definition fsfreeze (call : option caller) (thaw : bool) : act (string + unit) :=
  match call with
  | Some call =>
      r ← call "fsfreeze" (JObj [("op", JStr (if thaw then "thaw" else "freeze"))]);
      mret (match r with inr _ => inr tt | inl e => inl e end)
  | None => local_fsfreeze thaw
  end.
Definition expansion_allowed (command : string) : bool :=
  (starts_with "xfs_growfs " command || starts_with "resize2fs " command
   || starts_with "btrfs filesystem resize " command || starts_with "lvextend " command)
  && negb (contains_char ";"%char command) && negb (contains_char "|"%char command)
  && negb (contains_char "&"%char command).
Definition expand_filesystem (command : string) : act HelperResponse :=
  if expansion_allowed command then
    o ← spawn ["sh"; "-c"; command];
    mret (match o with
          | inl e => error_response e
          | inr o => if co_success o then ok_response (JStr ("expanded via " +:+ command))
                     else error_response (command +:+ ": " +:+ co_status o)
          end)
  else mret (error_response ("refused expansion command: " +:+ command)).

(** ** The helper *)
Definition request_actions (params : json) : list RemediationActionSpec :=
  default [] (json_get "actions" params ≫= vec_from_value spec_from_value).
Definition helper_dispatch (policy : AgentPolicy) (req : HelperRequest) : act HelperResponse :=
  let params := hr_params req in
  let action := hr_action req in
  if String.eqb action "restart_unit" then
    r ← restart_unit None policy (str_param "unit" "" params); mret (text_response r)
  else if String.eqb action "execute_remediation_plan" then
    r ← execute_remediation_plan None policy (str_param "plan_id" "local" params) (request_actions params);
    mret (mk_HelperResponse (rr_success r) (Some (result_to_value r)) None)
  else if String.eqb action "collect_support_bundle" then
    r ← collect_support_bundle None;
    mret (match r with
          | inr bytes => ok_response (JObj [("format", JStr "tar.zst"); ("encoding", JStr "base64");
                                            ("data", JStr (base64_encode bytes))])
          | inl e => error_response e
          end)
  else if String.eqb action "start_unit" then
    r ← control_unit None policy "start" (str_param "unit" "" params); mret (text_response r)
  else if String.eqb action "stop_unit" then
    r ← control_unit None policy "stop" (str_param "unit" "" params); mret (text_response r)
  else if String.eqb action "power_action" then
    r ← run_power_action (str_param "action" "reboot" params)
          (default 1%Z (json_get "delay_secs" params ≫= as_u64));
    mret (text_response r)
  else if String.eqb action "expand_filesystem" then expand_filesystem (str_param "command" "" params)
  else if String.eqb action "fsfreeze" then
    let op := str_param "op" "" params in
    if String.eqb op "freeze" || String.eqb op "thaw" then
      r ← local_fsfreeze (String.eqb op "thaw");
      mret (match r with inr _ => ok_response (JStr op) | inl e => error_response e end)
    else mret (error_response ("unsupported fsfreeze op: " +:+ op))
  else if String.eqb action "time_sync" then
    r ← run_time_sync; mret (text_response r)
  else if String.eqb action "apply_staged_update" then
    fun h => (h, match staged_update (length (h_done h)) with
                 | inr msg => ok_response (JObj [("message", JStr msg)])
                 | inl e => error_response e
                 end)
  else mret (error_response ("unsupported executor action: " +:+ action)).

(** ** The socket *)
Record exec_crates : Type := mk_exec_crates {
  request_to_vec : HelperRequest → list Z;
  request_from_slice : list Z → option HelperRequest;
  response_to_vec : HelperResponse → list Z;
  response_from_slice : list Z → option HelperResponse
}.
Context (crates : exec_crates).
(** what the helper answers on a connection; nothing, if it gives up. *)
Definition serve_connection (policy : AgentPolicy) (stream : list Z) : act (list Z) :=
  match read_frame stream with
  | Ok (frame, _) =>
      match request_from_slice crates frame with
      | Some req =>
          resp ← helper_dispatch policy req;
          mret (match write_frame (response_to_vec crates resp) with Ok bytes => bytes | _ => [] end)
      | None => mret []
      end
  | _ => mret []
  end.
(** a socket that exists, with a helper that accepts; errors by their first message. *)
Definition call_executor (policy : AgentPolicy) : caller := fun action params =>
  match write_frame (request_to_vec crates (mk_HelperRequest action params)) with
  | Ok sent =>
      answer ← serve_connection policy sent;
      mret (match read_frame answer with
            | Ok (frame, _) =>
                match response_from_slice crates frame with
                | Some resp =>
                    if hs_ok resp then inr (default JNull (hs_result resp))
                    else inl (default "executor failed" (hs_error resp))
                | None => inl "parse exec response"
                end
            | _ => inl "read exec response"
            end)
  | _ => mret (inl "write exec request")
  end.
(** [executor_available]: not inside the helper, and the socket exists. *)
Definition executor_available (in_helper socket_exists : bool) : bool := negb in_helper && socket_exists.
Definition helper_of (in_helper socket_exists : bool) (policy : AgentPolicy) : option caller :=
  if executor_available in_helper socket_exists then Some (call_executor policy) else None.
End executor.
