(* ===== verification/ExecutorProps.v ===== *)
(** * What the privileged helper does

    The commands that can come out of a request, what the verdict on a remediation plan
    means, how a plan that goes through the helper relates to one that is run directly, and
    the audit log. *)
From stdpp Require Import base gmap strings list.
From Stdlib Require Import ZArith Lia Ascii.
From S2P Require Import Prelude RustStr Words Frame AgentRpc AgentPolicy Passport Baseline Executor.

#[local] Arguments String.append !_ _ /.

(** ** Values that come back *)
Lemma mapM_map {A B} (f : A → B) (g : B → option A) l :
  (∀ a, g (f a) = Some a) → mapM g (map f l) = Some l.
Proof. intros Hg. induction l as [|a l IH]; [done|]. cbn. rewrite Hg. cbn. by rewrite IH. Qed.
Lemma spec_value a : spec_from_value (spec_to_value a) = Some a.
Proof. by destruct a. Qed.
Lemma result_value r : result_from_value (result_to_value r) = Some r.
Proof.
  destruct r as [p s l]. cbn. rewrite mapM_map; [done|]. by intros [].
Qed.
Lemma plan_params_actions id actions : request_actions (plan_params id actions) = actions.
Proof. unfold request_actions. cbn. by rewrite (mapM_map _ _ _ spec_value). Qed.

Section helper.
Context `{ExecEnv}.
Implicit Types (policy : AgentPolicy) (h : host).

(** ** What a run adds *)
Definition emits {A} (P : effect → Prop) (m : act A) : Prop :=
  ∀ h, ∃ es, h_done (m h).1 = h_done h ++ es ∧ Forall P es.
Lemma emits_ret {A} P (a : A) : emits P (mret a).
Proof. intros h. exists []. by rewrite app_nil_r. Qed.
Lemma emits_bind {A B} P (m : act A) (f : A → act B) :
  emits P m → (∀ a, emits P (f a)) → emits P (m ≫= f).
Proof.
  intros Hm Hf h. unfold mbind, act_bind. destruct (Hm h) as (es & He & HP).
  destruct (m h) as [h1 a]. cbn in He. destruct (Hf a h1) as (es' & He' & HP').
  exists (es ++ es'). rewrite He', He, app_assoc. split; [done|]. by apply Forall_app.
Qed.
Lemma emits_spawn (P : effect → Prop) argv : P (Ran argv) → emits P (spawn argv).
Proof. intros HP h. exists [Ran argv]. cbn. split; [done|]. by constructor. Qed.
Lemma emits_audit P action target success detail : emits P (exec_audit action target success detail).
Proof. intros h. exists []. rewrite app_nil_r. unfold exec_audit. by destruct (audit_opens _). Qed.
Lemma emits_read {A} P (f : host → A) : emits P (fun h => (h, f h)).
Proof. intros h. exists []. by rewrite app_nil_r. Qed.
End helper.
Create HintDb emits.
#[export] Hint Resolve emits_ret emits_audit emits_read emits_spawn : emits.
#[export] Hint Extern 1 (emits _ (_ ≫= _)) => apply emits_bind; [|intros ?] : emits.
#[export] Hint Extern 1 (emits _ (match ?x with _ => _ end)) => destruct x eqn:? : emits.

Section permitted.
Context `{ExecEnv}.
Implicit Types (policy : AgentPolicy) (h : host).

(** what the helper may do for a request. *)
Inductive permitted policy : effect → Prop :=
  | may_restart unit : can_restart_unit policy unit = true → permitted policy (BusRestart unit "replace")
  | may_control op unit : op ∈ ["restart"; "start"; "stop"] → can_restart_unit policy unit = true →
      permitted policy (Ran ["systemctl"; op; unit])
  | may_fix_dns : permitted policy (Ran ["systemctl"; "restart"; "systemd-resolved.service"])
  | may_rotate : permitted policy (Ran ["journalctl"; "--vacuum-size=500M"])
  | may_power flag minutes : flag ∈ ["-r"; "-h"] → permitted policy (Ran ["shutdown"; flag; "+" +:+ fmt_Z minutes])
  | may_expand command : expansion_allowed command = true → permitted policy (Ran ["sh"; "-c"; command])
  | may_freeze flag : flag ∈ ["-f"; "-u"] → permitted policy (Ran ["fsfreeze"; flag; "/"])
  | may_step_clock : permitted policy (Ran ["chronyc"; "makestep"])
  | may_set_ntp : permitted policy (Ran ["timedatectl"; "set-ntp"; "true"]).

Lemma emits_systemctl (P : effect → Prop) op unit :
  P (Ran ["systemctl"; op; unit]) → emits P (run_systemctl op unit).
Proof. intros HP. unfold run_systemctl. auto 10 with emits. Qed.
Lemma emits_bus (P : effect → Prop) unit : P (BusRestart unit "replace") → emits P (systemd1_restart_unit unit).
Proof.
  intros HP h. unfold systemd1_restart_unit.
  destruct (bus_restart _ _) as [e| |[n|p]]; cbn;
    [exists []; by rewrite app_nil_r|exists [BusRestart unit "replace"]; split; [done|by constructor]..].
Qed.
Lemma emits_restart policy unit : emits (permitted policy) (restart_unit None policy unit).
Proof.
  unfold restart_unit. destruct (can_restart_unit policy unit) eqn:Hc; cbn [negb]; [|auto with emits].
  apply emits_bind; [apply emits_ret|intros a]. destruct (a ≫= as_str); [auto with emits|].
  apply emits_bind; [by apply emits_bus, may_restart|intros [e|m]].
  - apply emits_bind; [|intros ?; auto with emits]. apply emits_systemctl, may_control; [by left|done].
  - auto with emits.
Qed.
Lemma emits_control policy op unit :
  op ∈ ["start"; "stop"] → emits (permitted policy) (control_unit None policy op unit).
Proof.
  intros Hop. unfold control_unit. destruct (negb _); [auto with emits|].
  destruct (can_restart_unit policy unit) eqn:Hc; cbn [negb]; [|auto with emits].
  apply emits_bind; [apply emits_ret|intros a]. destruct (a ≫= as_str); [auto with emits|].
  apply emits_systemctl, may_control; [by right|done].
Qed.
Lemma emits_plan policy id actions : emits (permitted policy) (execute_remediation_plan None policy id actions).
Proof.
  unfold execute_remediation_plan. apply emits_bind; [apply emits_ret|intros a].
  destruct (a ≫= result_from_value); [auto with emits|]. apply emits_bind; [|auto with emits].
  induction actions as [|x actions IH]; [apply emits_ret|]. cbn [remediate_all].
  apply emits_bind; [|auto 10 with emits]. unfold remediate.
  destruct (String.eqb _ _); [apply emits_bind; [apply emits_restart|auto with emits]|].
  destruct (String.eqb _ _); [apply emits_bind; [apply emits_systemctl, may_fix_dns|auto with emits]|].
  destruct (String.eqb _ _); [|auto with emits].
  apply emits_bind; [apply emits_spawn, may_rotate|auto with emits].
Qed.
Lemma emits_sync policy : emits (permitted policy) run_time_sync.
Proof.
  unfold run_time_sync, sync_attempts.
  pose proof (may_step_clock policy). pose proof (may_set_ntp policy). auto 10 with emits.
Qed.
Lemma emits_power policy action secs : emits (permitted policy) (run_power_action action secs).
Proof.
  unfold run_power_action. apply emits_bind; [|auto with emits]. apply emits_spawn, may_power.
  destruct (String.eqb _ _); rewrite !elem_of_cons; auto.
Qed.
Lemma emits_freeze policy thaw : emits (permitted policy) (local_fsfreeze thaw).
Proof.
  unfold local_fsfreeze. apply emits_bind; [|auto with emits]. apply emits_spawn, may_freeze.
  destruct thaw; rewrite !elem_of_cons; auto.
Qed.
Lemma emits_expand policy command : emits (permitted policy) (expand_filesystem command).
Proof.
  unfold expand_filesystem. destruct (expansion_allowed command) eqn:E; [|auto with emits].
  apply emits_bind; [by apply emits_spawn, may_expand|auto with emits].
Qed.

(** whatever request reaches the helper, everything it does to the guest is one of:
    a restart, start or stop of a unit its policy allows, the restart of the resolver, a
    journal vacuum, a scheduled power action, a freeze or thaw of the root, a clock step,
    or a shell line that passed the expansion check. *)
Theorem helper_commands policy req h :
  ∃ es, h_done (helper_dispatch policy req h).1 = h_done h ++ es ∧ Forall (permitted policy) es.
Proof.
  revert h. change (emits (permitted policy) (helper_dispatch policy req)). unfold helper_dispatch.
  destruct (String.eqb _ _); [apply emits_bind; [apply emits_restart|auto with emits]|].
  destruct (String.eqb _ _); [apply emits_bind; [apply emits_plan|auto with emits]|].
  destruct (String.eqb _ _); [apply emits_bind; [apply emits_read|auto with emits]|].
  destruct (String.eqb _ _); [apply emits_bind; [apply emits_control; by left|auto with emits]|].
  destruct (String.eqb _ _); [apply emits_bind; [apply emits_control; by right; left|auto with emits]|].
  destruct (String.eqb _ _); [apply emits_bind; [apply emits_power|auto with emits]|].
  destruct (String.eqb _ _); [apply emits_expand|].
  destruct (String.eqb _ _).
  { destruct (String.eqb _ _ || String.eqb _ _); [apply emits_bind; [apply emits_freeze|auto with emits]|auto with emits]. }
  destruct (String.eqb _ _); [apply emits_bind; [apply emits_sync|auto with emits]|].
  destruct (String.eqb _ _); [apply emits_read|auto with emits].
Qed.
End permitted.

Section plans.
Context `{ExecEnv}.
Implicit Types (policy : AgentPolicy) (h : host).

(** ** The verdict on a plan *)
Lemma remediate_all_actions call policy actions h :
  rar_action <$> (remediate_all call policy actions h).2 = ras_action <$> actions.
Proof.
  revert h. induction actions as [|a actions IH]; intros h; [done|].
  cbn [remediate_all]. unfold mbind, act_bind. destruct (remediate call policy a h) as [h1 m].
  destruct (exec_audit _ _ _ _ h1) as [h2 []]. specialize (IH h2).
  destruct (remediate_all call policy actions h2) as [h3 l]. cbn in *. by f_equal.
Qed.
Lemma remediate_all_verdicts call policy actions h :
  Forall (fun r => rar_success r = remediated (rar_message r)) (remediate_all call policy actions h).2.
Proof.
  revert h. induction actions as [|a actions IH]; intros h; [constructor|].
  cbn [remediate_all]. unfold mbind, act_bind. destruct (remediate call policy a h) as [h1 m].
  destruct (exec_audit _ _ _ _ h1) as [h2 []]. specialize (IH h2).
  destruct (remediate_all call policy actions h2) as [h3 l]. cbn. by constructor.
Qed.
Lemma plan_local policy id actions h :
  execute_remediation_plan None policy id actions h =
  let '(h', results) := remediate_all None policy actions h in
  (h', mk_RemediationResult id (forallb rar_success results) results).
Proof. done. Qed.

Definition denied_restart policy (a : RemediationActionSpec) : Prop :=
  ras_action a = "restart_unit" ∧ can_restart_unit policy (ras_target a) = false.
Lemma denied_text unit :
  remediated ("restart_unit denied by policy for " +:+ unit) = negb (contains "unsupported" unit).
Proof. done. Qed.

(** refusals count as success.  A plan of restarts the policy refuses, on units whose
    names do not contain the word the verdict looks for, changes nothing and is reported
    and audited as carried out, action by action and as a whole. *)
Theorem refused_plan_succeeds policy id actions h :
  Forall (denied_restart policy) actions →
  Forall (fun a => contains "unsupported" (ras_target a) = false) actions →
  let '(h', r) := execute_remediation_plan None policy id actions h in
  h_done h' = h_done h ∧ rr_success r = true ∧
  rr_actions r = (fun a => mk_RemediationActionResult "restart_unit" true
                    ("restart_unit denied by policy for " +:+ ras_target a)) <$> actions.
Proof.
  intros Hd Hu. rewrite plan_local.
  assert (∀ h, ∃ h', remediate_all None policy actions h =
    (h', (fun a => mk_RemediationActionResult "restart_unit" true
            ("restart_unit denied by policy for " +:+ ras_target a)) <$> actions) ∧ h_done h' = h_done h) as Hrun.
  { revert Hu. induction Hd as [|a actions [Ha Hc] Hd IH]; intros Hu h0; [by exists h0|].
    apply Forall_cons in Hu as [Hua Hu]. cbn [remediate_all].
    assert (remediate None policy a h0 = (h0, "restart_unit denied by policy for " +:+ ras_target a)) as Hr
      by (unfold remediate, restart_unit; rewrite Ha, Hc; done).
    unfold mbind, act_bind. rewrite Hr, denied_text, Hua. cbn [negb].
    destruct (exec_audit _ _ _ _ h0) as [h1 []] eqn:E.
    destruct (IH Hu h1) as (h2 & -> & H2). exists h2. rewrite Ha. split; [done|]. rewrite H2.
    unfold exec_audit in E. destruct (audit_opens _); by injection E as <-. }
  destruct (Hrun h) as (h' & -> & Hh). cbn [rr_success rr_actions]. split; [done|]. split; [|done].
  apply forallb_elem_of. by intros x (a & -> & _)%list_elem_of_fmap.
Qed.

(** ** The restart *)
Lemma restart_allowed policy unit h :
  can_restart_unit policy unit = true → restart_unit None policy unit h = restart_unit_itself unit h.
Proof. intros Hc. unfold restart_unit. by rewrite Hc. Qed.
(** a restart the helper makes over the bus is made again.  systemd answers a restart
    with the path of a job, which does not decode as the number the code asks for: the call
    counts as failed after it took effect, and the unit is restarted a second time through
    systemctl.  What the caller gets is the answer of the second. *)
Theorem restart_twice policy unit path h :
  can_restart_unit policy unit = true →
  bus_restart (length (h_done h)) unit = BusReplied (BusObjectPath path) →
  let '(h', r) := restart_unit None policy unit h in
  h_done h' = h_done h ++ [BusRestart unit "replace"; Ran ["systemctl"; "restart"; unit]] ∧
  (∀ o, run_command (S (length (h_done h))) ["systemctl"; "restart"; unit] = inr o →
     r = inr (if co_success o then "restart " +:+ unit +:+ " ok" else co_stderr o)).
Proof.
  intros Hc Hb. rewrite (restart_allowed policy unit h Hc). unfold restart_unit_itself, systemd1_restart_unit, run_systemctl, spawn. unfold mbind, act_bind, mret, act_ret.
  cbn beta iota. rewrite Hb. cbn [h_done h_audit mbind option_bind].
  rewrite length_app, Nat.add_1_r. cbn [length].
  destruct (run_command (S (length (h_done h))) ["systemctl"; "restart"; unit]) as [e|o] eqn:Er;
    cbn beta iota;
    match goal with |- context [exec_audit ?a ?b ?c ?d ?g] => destruct (exec_audit a b c d g) as [h2 []] eqn:E end;
    (assert (h_done h2 = h_done h ++ [BusRestart unit "replace"; Ran ["systemctl"; "restart"; unit]]) as Hd
      by (unfold exec_audit in E; destruct (audit_opens _); injection E as <-; cbn; by rewrite <-app_assoc));
    (split; [done|]); [done|by intros ? [= <-]].
Qed.

(** ** The power action *)
(** a power action asked for in [delay] seconds is scheduled in whole minutes, never
    early and less than a minute late; every action but "reboot" powers the guest off. *)
Theorem power_action_schedule action delay h :
  (0 ≤ delay)%Z →
  ∃ minutes,
    h_done (run_power_action action delay h).1 =
      h_done h ++ [Ran ["shutdown"; if String.eqb action "reboot" then "-r" else "-h"; "+" +:+ fmt_Z minutes]] ∧
    (delay ≤ minutes * 60 < delay + 60)%Z.
Proof.
  intros Hd. exists ((delay + 59) / 60)%Z. split; [done|].
  pose proof (Z.div_mod (delay + 59) 60). pose proof (Z.mod_pos_bound (delay + 59) 60). lia.
Qed.

(** ** The audit log *)
Lemma replaced_without s : without newline_char (replace_chars [ascii_of_byte 10] " "%char s).
Proof.
  unfold without, replace_chars. induction s as [|c s IH]; [done|]. cbn [str_map str_forall].
  destruct (existsb _ _) eqn:E; [by rewrite IH|]. rewrite IH, andb_true_r.
  apply negb_true_iff. rewrite Ascii.eqb_sym. cbn [existsb] in E. by rewrite orb_false_r in E.
Qed.
Lemma without_app c s t : without c (s +:+ t) ↔ without c s ∧ without c t.
Proof. unfold without. rewrite text_forall_app. tauto. Qed.

(** an audit entry is one line, whatever the detail holds, as long as the action, the
    target and the time hold no line end; it is appended to the log or, if the log does not
    open, dropped. *)
Theorem audit_one_line action target success detail h :
  without newline_char action → without newline_char target → without newline_char (audit_now (length (h_done h))) →
  let '(h', _) := exec_audit action target success detail h in
  h_done h' = h_done h ∧
  (h_audit h' = h_audit h ∨
   ∃ line, without newline_char line ∧ h_audit h' = h_audit h +:+ line +:+ newline_str).
Proof.
  intros Ha Ht Hn. unfold exec_audit. destruct (audit_opens _); [|by split; [|left]]. cbn [h_done h_audit]. split; [done|]. right.
  eexists. split; cycle 1.
  { f_equal. rewrite <-!text_app_assoc. reflexivity. }
  repeat (apply without_app; split); try done; try apply replaced_without. by destruct success.
Qed.

(** ** Through the socket *)
Context (crates : exec_crates).
(** one frame holds it. *)
Definition fits (payload : list Z) : Prop :=
  payload ≠ [] ∧ (Z.of_nat (length payload) ≤ MAX_FRAME_SIZE)%Z.
Lemma fits_frame payload : fits payload →
  ∃ bytes, write_frame payload = Ok bytes ∧ read_frame bytes = Ok (payload, []).
Proof.
  intros [Hne Hle]. exists (be_encode 4 (Z.of_nat (length payload)) ++ payload).
  assert (0 < Z.of_nat (length payload))%Z by (destruct payload; [done|cbn; lia]).
  unfold write_frame. rewrite bool_decide_eq_false_2 by done.
  assert (as_u32 (Z.of_nat (length payload)) = Z.of_nat (length payload)) as ->
    by (unfold as_u32; apply Z.mod_small; unfold MAX_FRAME_SIZE in Hle; lia).
  rewrite (proj2 (Z.ltb_ge _ _)) by lia. split; [done|].
  rewrite <-(app_nil_r payload) at 2. by apply read_frame_header.
Qed.
(** serde reads it back. *)
Definition sent (r : HelperRequest) : Prop :=
  fits (request_to_vec crates r) ∧ request_from_slice crates (request_to_vec crates r) = Some r.
Definition answered (r : HelperResponse) : Prop :=
  fits (response_to_vec crates r) ∧ response_from_slice crates (response_to_vec crates r) = Some r.
Definition answer_of (resp : HelperResponse) : string + json :=
  if hs_ok resp then inr (default JNull (hs_result resp)) else inl (default "executor failed" (hs_error resp)).
Lemma call_executor_fits policy action params h h' resp :
  helper_dispatch policy (mk_HelperRequest action params) h = (h', resp) →
  sent (mk_HelperRequest action params) → answered resp →
  call_executor crates policy action params h = (h', answer_of resp).
Proof.
  intros Hd [(out & Hw & Hr)%fits_frame request_ok] [(back & Hw' & Hr')%fits_frame response_ok].
  unfold call_executor, serve_connection. rewrite Hw, Hr, request_ok. unfold mbind, act_bind, mret, act_ret.
  cbn beta iota. rewrite Hd, Hw', Hr', response_ok. done.
Qed.

(** C27: a remediation plan sent through the helper.  If the plan succeeds there, the agent
    returns the helper's result and the guest is as after the helper's run: the socket and
    the two encodings change nothing.  If it fails there, the helper's result is dropped
    and the agent runs the whole plan again, its restarts through the helper once more. *)
Theorem plan_through_helper agent_policy policy plan_id actions h :
  let req := mk_HelperRequest "execute_remediation_plan" (plan_params plan_id actions) in
  let '(h', r) := execute_remediation_plan None policy plan_id actions h in
  sent req → answered (mk_HelperResponse (rr_success r) (Some (result_to_value r)) None) →
  execute_remediation_plan (Some (call_executor crates policy)) agent_policy plan_id actions h =
  if rr_success r then (h', r)
  else
    let '(h'', results) := remediate_all (Some (call_executor crates policy)) agent_policy actions h' in
    (h'', mk_RemediationResult plan_id (forallb rar_success results) results).
Proof.
  intros req. destruct (execute_remediation_plan None policy plan_id actions h) as [h' r] eqn:Er.
  intros Hq Hs.
  assert (helper_dispatch policy req h = (h', mk_HelperResponse (rr_success r) (Some (result_to_value r)) None)) as Hd.
  { unfold helper_dispatch, req. cbn [hr_action hr_params]. cbn [String.eqb Ascii.eqb Bool.eqb].
    change (str_param "plan_id" "local" (plan_params plan_id actions)) with plan_id.
    rewrite plan_params_actions. unfold mbind, act_bind. by rewrite Er. }
  unfold execute_remediation_plan at 1. unfold try_helper, mbind, act_bind, mret, act_ret.
  rewrite (call_executor_fits _ _ _ _ _ _ Hd Hq Hs). unfold answer_of. cbn [hs_ok hs_result hs_error default from_option id].
  destruct (rr_success r); cbn [option_bind]; [|done]. by rewrite result_value.
Qed.
End plans.

(** ** Examples *)
#[local] Instance toy_exec : ExecEnv := {|
  run_command _ argv := inr (mk_command_output true "" "" "exit status: 0");
  bus_restart _ _ := BusReplied (BusObjectPath "/org/freedesktop/systemd1/job/77");
  audit_opens _ := true;
  audit_now n := "t" +:+ fmt_nat n;
  support_bundle _ := inr [1%Z];
  base64_encode _ := "AQ==";
  base64_decode _ := Some [1%Z];
  staged_update _ := inl "read staged update metadata"
|}.
Definition quiet_host : host := mk_host [] "".
Definition nginx_only : AgentPolicy :=
  mk_AgentPolicy
    (mk_PolicyActions (mk_RestartUnitPolicy true ["nginx.service"] false) (mk_ShellPolicy false)
       (mk_ApprovalPolicy true) (mk_SelfUpdatePolicy false false) default_MigrationPolicy
       (mk_CustomizationPolicy false))
    default_CapabilityToggles default_MethodPolicy default_SecurityPolicy.

Definition ssh_plan : list RemediationActionSpec := [mk_RemediationActionSpec "restart_unit" "sshd.service"].
Lemma ssh_refused : Forall (denied_restart nginx_only) ssh_plan.
Proof. by repeat constructor. Qed.
Lemma refused_plan_succeeds_witness :
  rr_success (execute_remediation_plan None nginx_only "p1" ssh_plan quiet_host).2 = true.
Proof.
  exact (proj1 (proj2 (refused_plan_succeeds nginx_only "p1" ssh_plan quiet_host ssh_refused
    ltac:(by repeat constructor)))).
Defined.
Lemma restart_twice_witness :
  h_done (restart_unit None nginx_only "nginx.service" quiet_host).1 =
  [BusRestart "nginx.service" "replace"; Ran ["systemctl"; "restart"; "nginx.service"]].
Proof.
  exact (proj1 (restart_twice nginx_only "nginx.service" "/org/freedesktop/systemd1/job/77" quiet_host eq_refl eq_refl)).
Defined.
Lemma power_action_schedule_witness :
  ∃ minutes, h_done (run_power_action "suspend" 61 quiet_host).1 = [Ran ["shutdown"; "-h"; "+" +:+ fmt_Z minutes]] ∧
    (61 ≤ minutes * 60 < 121)%Z.
Proof. exact (power_action_schedule "suspend" 61 quiet_host ltac:(lia)). Defined.
Lemma audit_one_line_witness :
  let '(h', _) := exec_audit "restart_unit" "nginx.service" true ("a" +:+ newline_str +:+ "b") quiet_host in
  h_done h' = [] ∧
  (h_audit h' = "" ∨ ∃ line, without newline_char line ∧ h_audit h' = "" +:+ line +:+ newline_str).
Proof.
  exact (audit_one_line "restart_unit" "nginx.service" true ("a" +:+ newline_str +:+ "b") quiet_host eq_refl eq_refl eq_refl).
Defined.

(** serde for one request and one answer. *)
Definition one_exchange (req : HelperRequest) (resp : HelperResponse) : exec_crates :=
  mk_exec_crates (fun _ => [123; 125]%Z) (fun _ => Some req) (fun _ => [123; 125]%Z) (fun _ => Some resp).
Notation ssh_request := (mk_HelperRequest "execute_remediation_plan" (plan_params "p1" ssh_plan)).
Notation ssh_result := (execute_remediation_plan None nginx_only "p1" ssh_plan quiet_host).2.
Notation ssh_exchange :=
  (one_exchange ssh_request (mk_HelperResponse (rr_success ssh_result) (Some (result_to_value ssh_result)) None)).
Lemma short_fits : fits [123; 125]%Z.
Proof. split; [done|]. vm_compute. discriminate. Qed.
Lemma plan_through_helper_witness :
  (execute_remediation_plan (Some (call_executor ssh_exchange nginx_only)) nginx_only "p1" ssh_plan quiet_host).2 = ssh_result.
Proof.
  rewrite (plan_through_helper ssh_exchange nginx_only nginx_only "p1" ssh_plan quiet_host
    (conj short_fits eq_refl) (conj short_fits eq_refl)).
  reflexivity.
Defined.

(** a plan with an action the helper does not know fails there, and the other action, which
    took effect, is done again by the agent. *)
Definition mixed_plan : list RemediationActionSpec :=
  [mk_RemediationActionSpec "rotate_journal" ""; mk_RemediationActionSpec "defrag" ""].
Notation mixed_request := (mk_HelperRequest "execute_remediation_plan" (plan_params "p2" mixed_plan)).
Example failed_plan_runs_again :
  h_done (execute_remediation_plan (Some (call_executor (one_exchange mixed_request
    (mk_HelperResponse false (Some JNull) None)) nginx_only)) nginx_only "p2" mixed_plan quiet_host).1 =
  [Ran ["journalctl"; "--vacuum-size=500M"]; Ran ["journalctl"; "--vacuum-size=500M"]].
Proof. reflexivity. Qed.
(** a list of actions that does not parse is an empty plan, which succeeds. *)
Example unreadable_plan_succeeds :
  hs_ok (helper_dispatch nginx_only (mk_HelperRequest "execute_remediation_plan"
    (JObj [("actions", JArr [JObj [("action", JStr "fix_dns")]])])) quiet_host).2 = true.
Proof. reflexivity. Qed.
(** the expansion check lets a command substitution, a redirection and a second line through. *)
Example expansion_runs_anything :
  expansion_allowed "resize2fs $(reboot)" = true ∧ expansion_allowed "lvextend x > /etc/passwd" = true ∧
  expansion_allowed ("resize2fs x" +:+ newline_str +:+ "reboot") = true.
Proof. vm_compute. done. Qed.
(** a target with a line end writes a line of its own into the audit log. *)
Definition forged_target : string := "x" +:+ newline_str +:+ "t9 action=restart_unit target=sshd.service success=true detail=ok".
Example exec_audit_forged :
  lines (h_audit (execute_remediation_plan None nginx_only "p3"
    [mk_RemediationActionSpec "restart_unit" forged_target] quiet_host).1) !! 1%nat =
  Some ("t9 action=restart_unit target=sshd.service success=true detail=ok success=true detail="
    +:+ "restart_unit denied by policy for x t9 action=restart_unit target=sshd.service success=true detail=ok").
Proof. vm_compute. done. Qed.
