(* ===== verification/AgentOps.v ===== *)
(** * Operations of the agent on the guest

    [src/agent/storage_ops.rs], [src/agent/customization.rs] and [src/agent/users.rs]
    (Linux build): growing and trimming file systems, host name, time zone and resolvers,
    and the inventory of accounts.  Growing goes through the helper of [Executor]; commands
    and files are steps of its [host], and [OpsEnv] adds what the file system answers.
    [IpAddr]'s parser is the standard library's, written out.  The audit lines and the bus
    rescan are left out. *)
From stdpp Require Import base gmap strings list.
From Stdlib Require Import ZArith Lia Ascii.
From S2P Require Import Prelude RustStr Passport Baseline Integrity AgentPolicy Executor.

Class OpsEnv := {
  path_exists : nat → string → bool;
  copy_works : nat → string → string → bool;
  write_works : nat → string → bool
}.

(** ** [std::net::IpAddr::from_str] *)
Definition to_digit (radix : Z) (c : ascii) : option Z :=
  let b := byte_of c in
  let d := if (48 <=? b)%Z && (b <=? 57)%Z then (b - 48)%Z
           else if (97 <=? b)%Z && (b <=? 122)%Z then (b - 87)%Z
           else if (65 <=? b)%Z && (b <=? 90)%Z then (b - 55)%Z
           else radix in
  if (d <? radix)%Z then Some d else None.
Definition leading_zero (s : string) : bool := starts_with "0" s.
(** [read_number]: at most [most] digits, below [bound]. *)
Fixpoint read_digits (radix bound : Z) (most count : nat) (s : string) (acc : Z) : option (nat * string) :=
  match s with
  | EmptyString => Some (count, "")
  | String c s' =>
      match to_digit radix c with
      | None => Some (count, s)
      | Some d =>
          let r := (acc * radix + d)%Z in
          if (bound <=? r)%Z || (most <? S count)%nat then None
          else read_digits radix bound most (S count) s' r
      end
  end.
Definition read_number (radix bound : Z) (most : nat) (zero_prefix : bool) (s : string) : option string :=
  '(count, rest) ← read_digits radix bound most 0 s 0;
  if (count =? 0)%nat then None
  else if negb zero_prefix && leading_zero s && (1 <? count)%nat then None
  else Some rest.
Definition read_given (c : ascii) (s : string) : option string :=
  match s with String d s => if Ascii.eqb c d then Some s else None | EmptyString => None end.
(** [read_separator]: the separator stands before every group but the first. *)
Definition read_separated (first : bool) (sep : ascii) (f : string → option string) (s : string) : option string :=
  if first then f s else read_given sep s ≫= f.
Definition read_octet : string → option string := read_number 10 256 3 false.
Definition read_ipv4 (s : string) : option string :=
  s ← read_octet s;
  s ← read_separated false "."%char read_octet s;
  s ← read_separated false "."%char read_octet s;
  read_separated false "."%char read_octet s.
(** [read_groups]: groups read, whether the last two were an IPv4 address, the rest. *)
Fixpoint read_groups (i left : nat) (s : string) : nat * bool * string :=
  match left with
  | O => (i, false, s)
  | S left' =>
      let first := (i =? 0)%nat in
      match (if (0 <? left')%nat then read_separated first ":"%char read_ipv4 s else None) with
      | Some rest => (i + 2, true, rest)%nat
      | None =>
          match read_separated first ":"%char (read_number 16 65536 4 true) s with
          | Some rest => read_groups (S i) left' rest
          | None => (i, false, s)
          end
      end
  end.
Definition read_ipv6 (s : string) : option string :=
  let '(head, head_v4, rest) := read_groups 0 8 s in
  if (head =? 8)%nat then Some rest
  else if head_v4 then None
  else
    rest ← read_given ":"%char rest ≫= read_given ":"%char;
    let '(_, _, rest) := read_groups 0 (8 - (head + 1)) rest in Some rest.
Definition is_ip_addr (s : string) : bool :=
  match read_ipv4 s with
  | Some rest => is_empty rest
  | None => match read_ipv6 s with Some rest => is_empty rest | None => false end
  end.

(** ** Storage *)
Section storage.
Context `{ExecEnv}.

Definition trim_storage (params : json) : act (string + json) :=
  o ← spawn (match json_get "mount" params ≫= as_str with
             | Some mount => ["fstrim"; "-v"; mount]
             | None => ["fstrim"; "-va"]
             end);
  mret (match o with
        | inl _ => inl "fstrim"
        | inr o => if co_success o then inr (JObj [("message", JStr (trim (co_stdout o)))])
                   else inl ("fstrim failed: " +:+ co_stderr o)
        end).

Definition grow_command (fstype source mount : string) : option string :=
  if String.eqb fstype "xfs" then Some ("xfs_growfs " +:+ mount)
  else if String.eqb fstype "ext2" || String.eqb fstype "ext3" || String.eqb fstype "ext4"
    then Some ("resize2fs " +:+ source)
  else if String.eqb fstype "btrfs" then Some ("btrfs filesystem resize max " +:+ mount)
  else None.
Definition full_command (fstype source mount : string) : option string :=
  grow ← grow_command fstype source mount;
  Some (if starts_with "/dev/mapper/" source || contains "/dev/dm-" source
        then "lvextend -l +100%FREE -r " +:+ source else grow).
Definition run_expansion (mount command : string) : act (string + json) :=
  o ← spawn ["sh"; "-c"; command];
  mret (match o with
        | inl e => inl e
        | inr o => if co_success o then inr (JObj [("message", JStr ("expanded " +:+ mount +:+ " via " +:+ command))])
                   else inl ("expansion command failed: " +:+ command)
        end).
Definition expand (call : option caller) (params : json) : act (string + json) :=
  match json_get "mount" params ≫= as_str with
  | None => mret (inl "missing required param: mount")
  | Some mount =>
      let dry_run := default true (json_get "dry_run" params ≫= as_bool) in
      findmnt ← spawn ["findmnt"; "-n"; "-o"; "SOURCE,FSTYPE"; mount];
      match findmnt with
      | inl _ => mret (inl "findmnt")
      | inr findmnt =>
          if negb (co_success findmnt) then mret (inl ("mount point " +:+ mount +:+ " not found"))
          else
            let parts := split_whitespace (co_stdout findmnt) in
            let source := default "" (parts !! 0%nat) in
            let fstype := default "" (parts !! 1%nat) in
            match full_command fstype source mount with
            | None => mret (inl ("unsupported filesystem for expansion: " +:+ fstype))
            | Some command =>
                if dry_run then
                  mret (inr (JObj [("dry_run", JBool true); ("mount", JStr mount); ("device", JStr source);
                                   ("fstype", JStr fstype); ("planned_command", JStr command)]))
                else
                  answer ← try_helper call "expand_filesystem" (JObj [("command", JStr command)]);
                  match answer with
                  | Some result => mret (inr (JObj [("message", result)]))
                  | None => run_expansion mount command
                  end
            end
      end
  end.
End storage.

(** ** Customization *)
Definition is_alphanumeric (c : ascii) : bool :=
  let b := byte_of c in
  ((48 <=? b) && (b <=? 57) || (65 <=? b) && (b <=? 90) || (97 <=? b) && (b <=? 122))%Z.
Definition hostname_char (c : ascii) : bool := is_alphanumeric c || Ascii.eqb c "-" || Ascii.eqb c ".".
Definition valid_hostname (name : string) : bool :=
  negb (is_empty name) && (String.length name <=? 253)%nat && str_forall hostname_char name
  && negb (starts_with "-" name) && negb (starts_with "." name).
Definition timezone_char (c : ascii) : bool :=
  is_alphanumeric c || Ascii.eqb c "/" || Ascii.eqb c "_" || Ascii.eqb c "-" || Ascii.eqb c "+".
Definition invalid_timezone (tz : string) : bool :=
  is_empty tz || contains ".." tz || negb (str_forall timezone_char tz).

Section customization.
Context `{ExecEnv} `{OpsEnv}.

Definition opt_str (o : option string) : json := match o with Some s => JStr s | None => JNull end.
Definition current_hostname : act (option string) :=
  o ← spawn ["hostname"];
  mret (match o with inr o => if co_success o then Some (trim (co_stdout o)) else None | inl _ => None end).
Definition set_hostname (params : json) : act (string + json) :=
  match json_get "hostname" params ≫= as_str with
  | None => mret (inl "missing required param: hostname")
  | Some hostname =>
      if negb (valid_hostname hostname) then mret (inl ("invalid hostname: " +:+ hostname))
      else
        previous ← current_hostname;
        o ← spawn ["hostnamectl"; "set-hostname"; hostname];
        mret (match o with
              | inl e => inl e
              | inr o => if co_success o then inr (JObj [("hostname", JStr hostname); ("previous", opt_str previous)])
                         else inl ("set hostname failed: " +:+ co_status o)
              end)
  end.
Definition set_timezone (params : json) : act (string + json) :=
  match json_get "timezone" params ≫= as_str with
  | None => mret (inl "missing required param: timezone")
  | Some tz =>
      if invalid_timezone tz then mret (inl ("invalid timezone: " +:+ tz))
      else
        o ← spawn ["readlink"; "/etc/localtime"];
        let previous := match o with inr o => Some (trim (co_stdout o)) | inl _ => None end in
        o ← spawn ["timedatectl"; "set-timezone"; tz];
        mret (match o with
              | inl e => inl e
              | inr o => if co_success o then inr (JObj [("timezone", JStr tz); ("previous", opt_str previous)])
                         else inl ("set timezone failed: " +:+ co_status o)
              end)
  end.

Fixpoint after_dev (words : list string) : list string :=
  match words with
  | [] => []
  | w :: ws => if String.eqb w "dev" then words else after_dev ws
  end.
Definition default_interface : act (option string) :=
  o ← spawn ["ip"; "route"; "show"; "default"];
  mret (match o with inr o => after_dev (split_whitespace (co_stdout o)) !! 1%nat | inl _ => None end).
Definition resolv_content (servers : list string) : string :=
  join "" (map (fun s => "nameserver " +:+ s +:+ newline_str) servers).
Definition RESOLV_CONF : string := "/etc/resolv.conf".
(** a copy that fails is ignored, a write that fails may have left a part. *)
Definition write_resolv (servers : list string) : act (string + unit) := fun h =>
  let n := length (h_done h) in
  let h := if path_exists n RESOLV_CONF && copy_works n RESOLV_CONF "/etc/resolv.conf.guestkit-bak"
           then mk_host (h_done h ++ [Copied RESOLV_CONF "/etc/resolv.conf.guestkit-bak"]) (h_audit h) else h in
  if write_works (length (h_done h)) RESOLV_CONF
  then (mk_host (h_done h ++ [Wrote RESOLV_CONF (resolv_content servers)]) (h_audit h), inr tt)
  else (h, inl "write /etc/resolv.conf").
Definition set_dns (params : json) : act (string + json) :=
  let servers := default [] (json_get "servers" params ≫= vec_from_value as_str) in
  match servers with
  | [] => mret (inl "missing required param: servers (non-empty array)")
  | _ =>
      match List.find (fun s => negb (is_ip_addr s)) servers with
      | Some s => mret (inl ("invalid DNS server address: " +:+ s))
      | None =>
          iface ← default_interface;
          resolvectl_ok ← (match iface with
                           | Some iface =>
                               o ← spawn ("resolvectl" :: "dns" :: iface :: servers);
                               mret (match o with inr o => co_success o | inl _ => false end)
                           | None => mret false
                           end);
          let answer := JObj [("servers", JArr (map JStr servers))] in
          if (resolvectl_ok : bool) then mret (inr answer)
          else
            w ← write_resolv servers;
            mret (match w with inr _ => inr answer | inl e => inl e end)
      end
  end.
End customization.

(** ** Accounts *)
Record LocalUser : Type := mk_LocalUser {
  lu_name : string;
  lu_uid : Z;
  lu_gid : Z;
  lu_home : string;
  lu_shell : string;
  lu_is_system : bool;
  lu_can_login : bool
}.
Record UserInventory : Type := mk_UserInventory {
  ui_user_count : nat;
  ui_login_capable : nat;
  ui_users : list LocalUser;
  ui_active_sessions : list string;
  ui_sudoers : list string;
  ui_empty_password_accounts : list string;
  ui_root_ssh_login : string;
  ui_authorized_keys_total : nat
}.
Section users.
Context `{Platform}.
Definition can_login (shell : string) : bool :=
  negb (ends_with "nologin" shell) && negb (ends_with "/false" shell) && negb (is_empty shell).
Definition passwd_user (line : string) : option LocalUser :=
  match split_char ":"%char line with
  | name :: _ :: uid :: gid :: home :: _ :: shell :: _ =>
      let uid := default 0%Z (parse_unsigned u32_max uid) in
      Some (mk_LocalUser name uid (default 0%Z (parse_unsigned u32_max gid)) home shell
        ((uid <? 1000)%Z && negb (uid =? 0)%Z) (can_login shell))
  | _ => None
  end.
Definition empty_password (shadow : option string) (u : LocalUser) : bool :=
  match shadow ≫= fun s => List.find (starts_with (lu_name u +:+ ":")) (lines s) with
  | Some entry => match split_char ":"%char entry with _ :: pw :: _ => is_empty pw | _ => false end
  | None => false
  end.
Definition root_ssh_login (sshd : option string) : string :=
  default "default"
    (sshd ≫= fun c =>
       head (map (fun v => to_lowercase (trim v))
         (omap (strip_prefix "PermitRootLogin") (List.filter (fun l => negb (starts_with "#" l)) (map trim (lines c)))))).
Definition count_keys (read : string → option string) (u : LocalUser) : nat :=
  if (1000 <=? lu_uid u)%Z || (lu_uid u =? 0)%Z then
    match read (lu_home u +:+ "/.ssh/authorized_keys") with
    | Some content => length (List.filter (fun l => starts_with "ssh-" l || starts_with "ecdsa-" l) (lines content))
    | None => 0
    end
  else 0.
(** [read]: the text of a file; [who]: the output of [who], if it ran. *)
Definition inventory (read : string → option string) (who : option string) : UserInventory :=
  let users := omap passwd_user (lines (default "" (read "/etc/passwd"))) in
  mk_UserInventory (length users) (length (List.filter lu_can_login users)) users
    (match who with Some out => lines out | None => [] end)
    (lines (default "" (read "/etc/group")) ≫= group_members)
    (map lu_name (List.filter (empty_password (read "/etc/shadow")) users))
    (root_ssh_login (read "/etc/ssh/sshd_config"))
    (sum_list_with (count_keys read) users).
End users.
