(* ===== verification/AgentOpsProps.v ===== *)
(** * What the operations of the agent do

    Addresses that parse hold nothing but digits, colons and dots, so a resolver file is
    exactly its name servers; which commands the customizations can run; how growing a file
    system relates to the check of the helper; what the inventory of accounts reads. *)
From stdpp Require Import base gmap strings list.
From Stdlib Require Import ZArith Lia Ascii.
From S2P Require Import Prelude RustStr Words Frame AgentRpc AgentPolicy Passport Baseline Integrity Executor ExecutorProps AgentOps.

(** ** Addresses *)
Definition addr_char (c : ascii) : bool :=
  match to_digit 16 c with Some _ => true | None => Ascii.eqb c "." || Ascii.eqb c ":" end.
Definition consumes (f : string → option string) : Prop :=
  ∀ s rest, f s = Some rest → ∃ p, s = p +:+ rest ∧ str_forall addr_char p = true.
Lemma consumes_bind f g : consumes f → consumes g → consumes (fun s => f s ≫= g).
Proof.
  intros Hf Hg s rest (m & Hm & Hr)%bind_Some.
  destruct (Hf _ _ Hm) as (p & -> & Hp), (Hg _ _ Hr) as (q & -> & Hq).
  exists (p +:+ q). by rewrite text_app_assoc, text_forall_app.
Qed.
Lemma consumes_given c : addr_char c = true → consumes (read_given c).
Proof.
  intros Hc [|d s] rest; [done|]. cbn. destruct (Ascii.eqb_spec c d) as [<-|]; [|done].
  intros [= ->]. exists (String c ""). cbn. by rewrite Hc.
Qed.
Lemma consumes_separated first sep f : addr_char sep = true → consumes f → consumes (read_separated first sep f).
Proof. intros Hs Hf. unfold read_separated. destruct first; [done|]. apply consumes_bind; [by apply consumes_given|done]. Qed.
Lemma digit_addr radix c d : radix = 10%Z ∨ radix = 16%Z → to_digit radix c = Some d → addr_char c = true.
Proof. intros [-> | ->]; by destruct c as [[] [] [] [] [] [] [] []]. Qed.
Lemma consumes_digits radix bound most : radix = 10%Z ∨ radix = 16%Z → ∀ s count acc n rest,
  read_digits radix bound most count s acc = Some (n, rest) → ∃ p, s = p +:+ rest ∧ str_forall addr_char p = true.
Proof.
  intros Hr. induction s as [|c s IH]; intros count acc n rest; cbn; [intros [= _ <-]; by exists ""|].
  destruct (to_digit radix c) as [d|] eqn:Hd; [|intros [= _ <-]; by exists ""].
  destruct (_ || _); [done|]. intros (p & -> & Hp)%IH. exists (String c p).
  split; [done|]. rewrite text_forall_cons. split; [by eapply digit_addr|done].
Qed.
Lemma consumes_number radix bound most zp : radix = 10%Z ∨ radix = 16%Z → consumes (read_number radix bound most zp).
Proof.
  intros Hr s rest. unfold read_number. intros ([n r] & Hd & H)%bind_Some.
  destruct (n =? 0)%nat; [done|]. destruct (_ && _); [done|]. injection H as <-. by eapply consumes_digits.
Qed.
Lemma consumes_ipv4 : consumes read_ipv4.
Proof.
  assert (consumes read_octet) by (apply consumes_number; by left).
  assert (consumes (read_separated false "."%char read_octet)) by (by apply consumes_separated).
  unfold read_ipv4. apply consumes_bind; [done|]. apply consumes_bind; [done|]. by apply consumes_bind.
Qed.
Lemma groups_prefix left : ∀ i s n v rest,
  read_groups i left s = (n, v, rest) → ∃ p, s = p +:+ rest ∧ str_forall addr_char p = true.
Proof.
  induction left as [|left IH]; intros i s n v rest; cbn [read_groups]; [intros [= _ _ <-]; by exists ""|].
  destruct (if (0 <? left)%nat then _ else _) as [r|] eqn:E4.
  { intros [= _ _ <-]. destruct (0 <? left)%nat; [|done].
    by eapply (consumes_separated _ ":"%char read_ipv4); [done|apply consumes_ipv4|]. }
  clear E4. destruct (read_separated _ _ (read_number _ _ _ _) s) as [r|] eqn:E; [|intros [= _ _ <-]; by exists ""].
  intros (q & -> & Hq)%IH.
  eapply (consumes_separated _ ":"%char) in E as (p & -> & Hp); [|done|apply consumes_number; by right].
  exists (p +:+ q). by rewrite text_app_assoc, text_forall_app.
Qed.
Lemma consumes_ipv6 : consumes read_ipv6.
Proof.
  intros s rest. unfold read_ipv6. destruct (read_groups 0 8 s) as [[n v] r] eqn:E.
  apply groups_prefix in E as (p & -> & Hp). destruct (n =? 8)%nat; [intros [= <-]; by exists p|].
  destruct v; [done|]. intros (m & Hm & H)%bind_Some.
  apply (consumes_bind _ _ (consumes_given ":"%char eq_refl) (consumes_given ":"%char eq_refl)) in Hm as (q & -> & Hq).
  destruct (read_groups 0 _ m) as [[n' v'] r'] eqn:E. injection H as <-.
  apply groups_prefix in E as (t & -> & Ht). exists (p +:+ q +:+ t).
  by rewrite !text_app_assoc, !text_forall_app.
Qed.
Lemma ip_addr_chars s : is_ip_addr s = true → str_forall addr_char s = true.
Proof.
  unfold is_ip_addr. destruct (read_ipv4 s) as [rest|] eqn:E4; [|destruct (read_ipv6 s) as [rest|] eqn:E6; [|done]];
    intros ->%is_empty_spec; [apply consumes_ipv4 in E4 as (p & -> & Hp)|apply consumes_ipv6 in E6 as (p & -> & Hp)];
    by rewrite text_app_nil.
Qed.
Lemma addr_line_char c : addr_char c = true → line_char c = true.
Proof. by destruct c as [[] [] [] [] [] [] [] []]. Qed.
Lemma resolv_lines servers :
  Forall (fun s => is_ip_addr s = true) servers →
  lines (resolv_content servers) = (fun s => "nameserver " +:+ s) <$> servers.
Proof.
  intros Hs. unfold resolv_content.
  assert (map (fun s => "nameserver " +:+ s +:+ newline_str) servers =
    ended <$> ((fun s => "nameserver " +:+ s) <$> servers)) as ->.
  { induction servers as [|s servers IH]; [done|]. apply Forall_cons in Hs as [_ Hs]. cbn [map fmap list_fmap].
    rewrite IH by done. f_equal. }
  apply lines_join, Forall_fmap. apply (Forall_impl _ _ _ Hs). intros s Hip. unfold compose, plain_line.
  rewrite text_forall_app. split; [done|]. eapply text_forall_impl; [apply addr_line_char|]. by apply ip_addr_chars.
Qed.

(** ** Customization *)
Section customize.
Context `{ExecEnv} `{OpsEnv}.

(** what a customization may do. *)
Inductive customizes : effect → Prop :=
  | reads_hostname : customizes (Ran ["hostname"])
  | reads_timezone : customizes (Ran ["readlink"; "/etc/localtime"])
  | reads_route : customizes (Ran ["ip"; "route"; "show"; "default"])
  | sets_hostname name : valid_hostname name = true → customizes (Ran ["hostnamectl"; "set-hostname"; name])
  | sets_timezone tz : invalid_timezone tz = false → customizes (Ran ["timedatectl"; "set-timezone"; tz])
  | sets_resolvers iface servers : Forall (fun s => is_ip_addr s = true) servers →
      customizes (Ran ("resolvectl" :: "dns" :: iface :: servers))
  | keeps_resolv_conf : customizes (Copied RESOLV_CONF "/etc/resolv.conf.guestkit-bak")
  | writes_resolv_conf content servers : Forall (fun s => is_ip_addr s = true) servers →
      lines content = (fun s => "nameserver " +:+ s) <$> servers → customizes (Wrote RESOLV_CONF content).

Lemma emits_resolv servers :
  Forall (fun s => is_ip_addr s = true) servers → emits customizes (write_resolv servers).
Proof.
  intros Hs h. unfold write_resolv.
  pose proof (writes_resolv_conf (resolv_content servers) servers Hs (resolv_lines servers Hs)) as Hw.
  pose proof keeps_resolv_conf as Hk.
  destruct (_ && _); destruct (write_works _ _); cbn.
  - eexists [_; _]. rewrite <-app_assoc. split; [reflexivity|]. by repeat constructor.
  - eexists [_]. split; [reflexivity|]. by repeat constructor.
  - eexists [_]. split; [reflexivity|]. by repeat constructor.
  - exists []. by rewrite app_nil_r.
Qed.
Lemma find_none_all servers :
  List.find (fun s => negb (is_ip_addr s)) servers = None → Forall (fun s => is_ip_addr s = true) servers.
Proof.
  intros Hf. apply Forall_forall. intros s Hs%list_elem_of_In.
  apply (find_none _ _ Hf) in Hs. by apply negb_false_iff.
Qed.
Lemma emits_dns params : emits customizes (set_dns params).
Proof.
  unfold set_dns. destruct (default [] _) as [|s0 ss]; [auto with emits|].
  generalize (s0 :: ss) as servers. intros servers.
  destruct (List.find _ _) eqn:Ef; [auto with emits|]. apply find_none_all in Ef.
  apply emits_bind; [|intros iface].
  { unfold default_interface. apply emits_bind; [apply emits_spawn; constructor|auto with emits]. }
  apply emits_bind; [|intros ok].
  { destruct iface; [|auto with emits]. apply emits_bind; [by apply emits_spawn; constructor|auto with emits]. }
  destruct ok; [auto with emits|]. apply emits_bind; [by apply emits_resolv|auto with emits].
Qed.

(** whatever the parameters, a customization runs only its own commands, with a host
    name that is valid, a time zone of the allowed characters, or name servers that are
    addresses; and if it replaces the resolver file, the lines of the new file are exactly
    one name server each, in the order given. *)
Theorem customization_commands params h :
  (∃ es, h_done (set_hostname params h).1 = h_done h ++ es ∧ Forall customizes es) ∧
  (∃ es, h_done (set_timezone params h).1 = h_done h ++ es ∧ Forall customizes es) ∧
  (∃ es, h_done (set_dns params h).1 = h_done h ++ es ∧ Forall customizes es).
Proof.
  assert (emits customizes (set_hostname params)) as H1.
  { unfold set_hostname. destruct (_ ≫= as_str) as [name|]; [|auto with emits].
    destruct (valid_hostname name) eqn:Hv; cbn [negb]; [|auto with emits].
    apply emits_bind; [unfold current_hostname; apply emits_bind; [apply emits_spawn; constructor|auto with emits]|].
    intros p. apply emits_bind; [by apply emits_spawn; constructor|auto with emits]. }
  assert (emits customizes (set_timezone params)) as H2.
  { unfold set_timezone. destruct (_ ≫= as_str) as [tz|]; [|auto with emits].
    destruct (invalid_timezone tz) eqn:Hv; [auto with emits|].
    apply emits_bind; [apply emits_spawn; constructor|intros o].
    apply emits_bind; [by apply emits_spawn; constructor|auto with emits]. }
  split; [apply H1|]. split; [apply H2|]. apply emits_dns.
Qed.
End customize.

(** ** Growing a file system *)
Section expanding.
Context `{ExecEnv}.

(** what [expand] makes of an answer of [findmnt]. *)
Definition planned (out : command_output) (mount : string) : option string :=
  let parts := split_whitespace (co_stdout out) in
  full_command (default "" (parts !! 1%nat)) (default "" (parts !! 0%nat)) mount.
Definition findmnt_of (mount : string) : list string := ["findmnt"; "-n"; "-o"; "SOURCE,FSTYPE"; mount].
Definition after_findmnt (mount : string) (h : host) : host := mk_host (h_done h ++ [Ran (findmnt_of mount)]) (h_audit h).

Lemma spawn_bind {A} argv (k : string + command_output → act A) h :
  (spawn argv ≫= k) h =
  k (run_command (length (h_done h)) argv) (mk_host (h_done h ++ [Ran argv]) (h_audit h)).
Proof. done. Qed.
Lemma expand_planned call mount dry params h out command :
  json_get "mount" params ≫= as_str = Some mount →
  json_get "dry_run" params ≫= as_bool = Some dry →
  run_command (length (h_done h)) (findmnt_of mount) = inr out → co_success out = true →
  planned out mount = Some command →
  (dry = true → (expand call params h).1 = after_findmnt mount h) ∧
  (dry = false → expand call params h =
     (answer ← try_helper call "expand_filesystem" (JObj [("command", JStr command)]);
      match answer with
      | Some result => mret (inr (JObj [("message", result)]))
      | None => run_expansion mount command
      end) (after_findmnt mount h)).
Proof.
  intros Hm Hd Hr Hs Hp. unfold expand. rewrite Hm, Hd. cbn [default from_option id].
  rewrite spawn_bind. fold (findmnt_of mount) (after_findmnt mount h). rewrite Hr, Hs. cbn [negb].
  unfold planned in Hp. rewrite Hp. split; intros ->; done.
Qed.

(** the check of the helper holds no expansion back.  A dry run only looks the mount up.
    Otherwise the command is run: by the helper if it is running, accepts the command and
    the command succeeds there; and by the agent itself, unchecked, if the helper refuses
    it or it fails there, or without a helper. *)
Theorem expansion_always_runs crates policy mount params h out command :
  json_get "mount" params ≫= as_str = Some mount →
  json_get "dry_run" params ≫= as_bool = Some false →
  run_command (length (h_done h)) (findmnt_of mount) = inr out → co_success out = true →
  planned out mount = Some command →
  let req := mk_HelperRequest "expand_filesystem" (JObj [("command", JStr command)]) in
  let h1 := after_findmnt mount h in
  let shell := Ran ["sh"; "-c"; command] in
  sent crates req → answered crates (helper_dispatch policy req h1).2 →
  h_done (expand None params h).1 = h_done h1 ++ [shell] ∧
  h_done (expand (Some (call_executor crates policy)) params h).1 =
    h_done h1 ++
    (if expansion_allowed command then
       if hs_ok (helper_dispatch policy req h1).2 then [shell] else [shell; shell]
     else [shell]).
Proof.
  intros Hm Hd Hr Hs Hp req h1 shell Hq Ha.
  destruct (expand_planned None mount false params h out command Hm Hd Hr Hs Hp) as [_ E0].
  destruct (expand_planned (Some (call_executor crates policy)) mount false params h out command Hm Hd Hr Hs Hp) as [_ E1].
  rewrite (E0 eq_refl), (E1 eq_refl). fold h1. split; [done|].
  assert (helper_dispatch policy req h1 = expand_filesystem command h1) as Hdis by done.
  destruct (helper_dispatch policy req h1) as [h2 resp] eqn:Ed. cbn [snd] in Ha |- *.
  unfold mbind, act_bind, try_helper, mret, act_ret, mbind, act_bind.
  rewrite (call_executor_fits _ _ _ _ _ _ _ Ed Hq Ha). unfold answer_of.
  unfold expand_filesystem in Hdis. destruct (expansion_allowed command).
  - rewrite spawn_bind in Hdis. injection Hdis as -> Hresp. destruct (hs_ok resp); [done|]. symmetry. exact (app_assoc (h_done h1) [shell] [shell]).
  - injection Hdis as -> ->. done.
Qed.
End expanding.

(** ** Accounts *)
(** a line of [/etc/passwd]. *)
Definition passwd_line (name pw uid gid gecos home shell : string) : string :=
  join ":" [name; pw; uid; gid; gecos; home; shell].

(** the home directory the inventory records is the comment field.  Of an account line
    of seven fields the name, numbers and shell are read as they stand; as home directory
    the account gets its fifth field, the comment, so that its authorized keys are looked
    up below the comment instead of below the home directory. *)
Theorem home_is_the_comment name pw uid gid gecos home shell :
  Forall (without ":"%char) [name; pw; uid; gid; gecos; home; shell] →
  ∃ u, passwd_user (passwd_line name pw uid gid gecos home shell) = Some u ∧
    lu_name u = name ∧ lu_uid u = default 0%Z (parse_unsigned u32_max uid) ∧ lu_shell u = shell ∧
    lu_can_login u = can_login shell ∧
    lu_home u = gecos ∧
    (∀ read, read (gecos +:+ "/.ssh/authorized_keys") = None → count_keys read u = 0).
Proof.
  intros Hf. unfold passwd_user, passwd_line.
  rewrite (split_char_join ":"%char) by done. eexists. split; [reflexivity|]. cbn.
  repeat split. intros read Hr. unfold count_keys. cbn. rewrite Hr. by destruct (_ || _).
Qed.
Lemma home_is_the_comment_witness :
  ∃ u, passwd_user (passwd_line "uma" "x" "1000" "1000" "Uma" "/home/uma" "/bin/bash") = Some u ∧ lu_home u = "Uma".
Proof.
  destruct (home_is_the_comment "uma" "x" "1000" "1000" "Uma" "/home/uma" "/bin/bash"
    ltac:(by repeat constructor)) as (u & Hu & _ & _ & _ & _ & Hh & _).
  exists u. split; [exact Hu|exact Hh].
Defined.

(** ** Examples *)
#[local] Instance toy_mounts : ExecEnv := {|
  run_command _ argv :=
    inr (mk_command_output true
      (if bool_decide (argv = findmnt_of "/data") then "/dev/sda1 ext4"
       else if bool_decide (argv = findmnt_of "/mnt;reboot") then "/dev/sdb1 xfs" else "") "" "exit status: 0");
  bus_restart _ _ := BusCallError;
  audit_opens _ := true;
  audit_now _ := "now";
  support_bundle _ := inr [1%Z];
  base64_encode _ := "AQ==";
  base64_decode _ := Some [1%Z];
  staged_update _ := inl "read staged update metadata"
|}.
Definition expand_params (mount : string) : json := JObj [("mount", JStr mount); ("dry_run", JBool false)].
Definition expand_request (command : string) : HelperRequest :=
  mk_HelperRequest "expand_filesystem" (JObj [("command", JStr command)]).
Notation fresh_host := (mk_host [] "").
Notation expand_exchange mount command :=
  (one_exchange (expand_request command)
     (helper_dispatch default_permissive_dev (expand_request command) (after_findmnt mount fresh_host)).2).
Lemma expansion_always_runs_witness :
  h_done (expand (Some (call_executor (expand_exchange "/data" "resize2fs /dev/sda1") default_permissive_dev))
    (expand_params "/data") fresh_host).1 =
  [Ran (findmnt_of "/data"); Ran ["sh"; "-c"; "resize2fs /dev/sda1"]].
Proof.
  refine (proj2 (expansion_always_runs (expand_exchange "/data" "resize2fs /dev/sda1") default_permissive_dev "/data"
    (expand_params "/data") fresh_host (mk_command_output true "/dev/sda1 ext4" "" "exit status: 0")
    "resize2fs /dev/sda1" eq_refl eq_refl eq_refl eq_refl eq_refl (conj short_fits eq_refl) (conj short_fits eq_refl))).
Defined.
(** a line the helper refuses is run by the agent. *)
Example refused_expansion_runs :
  expansion_allowed "xfs_growfs /mnt;reboot" = false ∧
  h_done (expand (Some (call_executor (expand_exchange "/mnt;reboot" "xfs_growfs /mnt;reboot") default_permissive_dev))
    (expand_params "/mnt;reboot") fresh_host).1 =
  [Ran (findmnt_of "/mnt;reboot"); Ran ["sh"; "-c"; "xfs_growfs /mnt;reboot"]].
Proof. vm_compute. done. Qed.
(** a time zone may be an option of the command. *)
Example timezone_option : invalid_timezone "--no-ask-password" = false.
Proof. reflexivity. Qed.
Example addresses :
  Forall (fun s => is_ip_addr s = true) ["127.0.0.1"; "::"; "::1"; "1:2:3:4:5:6:7:8"; "fe80::1"; "::ffff:10.0.0.1"; "1::8"] ∧
  Forall (fun s => is_ip_addr s = false)
    [""; "1.2.3"; "01.2.3.4"; "1.2.3.256"; "1.2.3.4.5"; "1::2::3"; ":1"; "1:2:3:4:5:6:7:8:9"; "12345::"; "fe80::1%eth0"].
Proof. split; repeat constructor. Qed.
