(* ===== verification/GuestFs.v ===== *)
(** * Files of a mounted guest

    [src/guestfs/file_ops.rs], the symbolic links of [src/guestfs/utils.rs], [is_symlink] of
    [src/guestfs/metadata.rs] and the path validator of [src/guestfs/security_utils.rs]: the
    file systems of an image are mounted below a directory of the host, and a path of the
    guest is resolved to one of the host.

    The state is the tree of the host ([FileOps]): the kernel follows a link of the guest
    with the root of the host, which is why the resolution checks where it ends.
    [canonicalize] is the walk of [FileOps] with the reason of a failure, since a missing
    path is resolved by its parent.  Mount points are absolute.  A write to a path may fail
    after some bytes ([GuestIo]); operations that call other programs ([cp -a], [chown],
    [ls -l], [grep], [du]) and hard links are not modelled. *)
From stdpp Require Import base gmap strings list.
From Stdlib Require Import ZArith Lia Ascii.
From S2P Require Import Prelude RustStr Repair FileOps.

(** ** Validation *)
Inductive guest_error : Type :=
  | InvalidOperation (msg : string)
  | GuestInvalidState (msg : string)
  | GuestNotFound (msg : string)
  | GuestPermissionDenied (msg : string)
  | GuestInvalidFormat (msg : string)
  | GuestCommandFailed (msg : string)
  | GuestIoError.

Definition DEVICE_DANGEROUS_CHARS : list ascii :=
  [";"; "&"; "|"; "$"; "`"; "("; ")"; "{"; "}"; "["; "]"; "<"; ">"; ascii_of_byte 10; ascii_of_byte 13;
   ascii_of_byte 92; ascii_of_byte 39; ascii_of_byte 34; " "; ascii_of_byte 9; "*"; "?"]%char.
Definition validate_device_path (path : string) : outcome guest_error () :=
  if is_empty path then Err (InvalidOperation "Device path cannot be empty")
  else if negb (starts_with "/dev/" path) then
    Err (InvalidOperation ("Device path must start with /dev/: " +:+ path))
  else
    match List.find (fun ch => contains_char ch path) DEVICE_DANGEROUS_CHARS with
    | Some ch => Err (InvalidOperation ("Device path contains dangerous character '" +:+ String ch "" +:+ "': " +:+ path))
    | None =>
        if (255 <? String.length path)%nat then
          Err (InvalidOperation ("Device path too long (max 255): " +:+ fmt_nat (String.length path)))
        else Ok ()
    end.
Definition validate_fs_path (path : string) : outcome guest_error () :=
  if is_empty path then Err (InvalidOperation "Filesystem path cannot be empty")
  else if contains ".." path then
    Err (InvalidOperation ("Path contains '..' (path traversal attack): " +:+ path))
  else if contains_char (ascii_of_byte 0) path then Err (InvalidOperation "Path contains null byte")
  else if (4096 <? String.length path)%nat then
    Err (InvalidOperation ("Path too long (max 4096): " +:+ fmt_nat (String.length path)))
  else Ok ().
Definition validate_path_component (component : string) : outcome guest_error () :=
  if is_empty component || String.eqb component "." || String.eqb component ".." then
    Err (InvalidOperation ("Invalid path component: " +:+ component))
  else if contains_char "/"%char component || contains_char (ascii_of_byte 0) component then
    Err (InvalidOperation ("Path component contains invalid characters: " +:+ component))
  else Ok ().

(** ** Walking with reasons *)
Inductive walked : Type := Reached (p : list string) | Missing | Blocked.
(** [Missing] is ENOENT; [Blocked] is ENOTDIR or ELOOP. *)
Fixpoint walk_why (t : tree) (links : nat) : list string → list string → walked :=
  fix go (cur todo : list string) {struct todo} :=
    match todo with
    | [] => Reached cur
    | x :: todo =>
        if is_dir t cur then
          if (String.eqb x "" || String.eqb x ".") then go cur todo
          else if String.eqb x ".." then go (removelast cur) todo
          else
            match t !! (cur ++ [x]) with
            | Some (Link target) =>
                match links with
                | O => Blocked
                | S links => walk_why t links (if is_absolute target then [] else cur) (pieces target ++ todo)
                end
            | Some _ => go (cur ++ [x]) todo
            | None => Missing
            end
        else Blocked
    end.

Class GuestIo := {
  (** the bytes written to a path before the write fails, if it does *)
  write_fault : list string → option nat;
  is_utf8 : string → bool
}.

(** ** The handle *)
Record Guestfs : Type := mk_Guestfs {
  gh_ready : bool;
  gh_readonly : bool;
  gh_mount_root : option string;
  (** the values of [mounted], in the order of the map *)
  gh_mountpoints : list string
}.
Definition ensure_ready (g : Guestfs) : outcome guest_error () :=
  if gh_ready g then Ok () else Err (GuestInvalidState "Handle not ready (call launch first)").
Fixpoint min_by_len (best : string) (l : list string) : string :=
  match l with
  | [] => best
  | s :: l => min_by_len (if (String.length s <? String.length best)%nat then s else best) l
  end.
Definition find_root_mountpoint (g : Guestfs) : outcome guest_error string :=
  match gh_mount_root g with
  | Some root =>
      if existsb (String.eqb root) (gh_mountpoints g) then Ok root
      else match gh_mountpoints g with
           | [] => Err (GuestInvalidState "No filesystem mounted. Call mount_ro() first.")
           | s :: l => Ok (min_by_len s l)
           end
  | None =>
      match gh_mountpoints g with
      | [] => Err (GuestInvalidState "No filesystem mounted. Call mount_ro() first.")
      | s :: l => Ok (min_by_len s l)
      end
  end.

(** the path the checks are made on, a host path. *)
Definition candidate_path (t : tree) (guest_path candidate : string) : outcome guest_error (list string) :=
  match walk_why t MAX_LINKS [] (pieces candidate) with
  | Reached p => Ok p
  | Blocked => Err GuestIoError
  | Missing =>
      match path_parent candidate, path_file_name candidate with
      | Some parent, Some file_name =>
          match walk false t MAX_LINKS [] parent with
          | Some canonical_parent => Ok (canonical_parent ++ [file_name])
          | None => Ok (components candidate)
          end
      | _, _ => Err (GuestNotFound ("Path does not exist: " +:+ guest_path))
      end
  end.
Definition resolve_guest_path (g : Guestfs) (t : tree) (guest_path : string) : outcome guest_error (list string) :=
  validate_fs_path guest_path ;;
  root ← find_root_mountpoint g;
  let guest_path_clean := trim_start_matches "/" guest_path in
  canonical ← candidate_path t guest_path (path_join root guest_path_clean);
  root_canonical ←
    match walk false t MAX_LINKS [] (pieces root) with
    | Some p => Ok p
    | None => Err (GuestInvalidState "Failed to canonicalize mount root")
    end;
  if path_starts_with canonical root_canonical then Ok canonical
  else Err (InvalidOperation ("Path '" +:+ guest_path +:+ "' escapes guest root (symlink attack or path traversal)")).

(** ** [std::fs] on host paths *)
Definition follow (t : tree) (p : list string) : option (list string) := walk false t MAX_LINKS [] p.
Definition node_at (t : tree) (p : list string) : option node := follow t p ≫= fun q => t !! q.
(** the entry a path names, its last component not followed. *)
Definition entry_at (t : tree) (p : list string) : option (list string) :=
  match last p with
  | None => None
  | Some x => (fun d => d ++ [x]) <$> follow t (removelast p)
  end.
Inductive mkdir_result : Type := Made (t : tree) | MkMissing | MkFailed.
Definition fs_mkdir `{FileCrates} (t : tree) (p : list string) : mkdir_result :=
  match last p with
  | None => MkFailed
  | Some x =>
      match walk_why t MAX_LINKS [] (removelast p) with
      | Missing => MkMissing
      | Blocked => MkFailed
      | Reached d =>
          if is_dir t d then
            match t !! (d ++ [x]) with
            | None => Made (<[d ++ [x] := Dir 0 493 written_at]> t)
            | Some _ => MkFailed
            end
          else MkFailed
      end
  end.
Definition path_is_dir (t : tree) (p : list string) : bool :=
  match node_at t p with Some (Dir _ _ _) => true | _ => false end.
(** [DirBuilder::create_dir_all]; one unit of fuel per component. *)
Fixpoint create_dir_all `{FileCrates} (fuel : nat) (t : tree) (p : list string) : tree * bool :=
  match p with
  | [] => (t, true)
  | _ =>
      match fs_mkdir t p with
      | Made t => (t, true)
      | MkFailed => (t, path_is_dir t p)
      | MkMissing =>
          match fuel with
          | O => (t, false)
          | S fuel =>
              let '(t, ok) := create_dir_all fuel t (removelast p) in
              if ok then
                match fs_mkdir t p with
                | Made t => (t, true)
                | _ => (t, path_is_dir t p)
                end
              else (t, false)
          end
      end
  end.
Definition fs_unlink (t : tree) (p : list string) : tree * bool :=
  match entry_at t p with
  | Some q => match t !! q with
              | Some (File _ _ _) | Some (Link _) => (delete q t, true)
              | _ => (t, false)
              end
  | None => (t, false)
  end.
Definition fs_symlink_at (target : string) (t : tree) (p : list string) : tree * bool :=
  match entry_at t p with
  | Some q =>
      match t !! q with
      | None => if is_dir t (removelast q) then (<[q := Link target]> t, true) else (t, false)
      | Some _ => (t, false)
      end
  | None => (t, false)
  end.
Definition fs_rmdir (t : tree) (p : list string) : tree * bool :=
  match entry_at t p with
  | Some q =>
      match t !! q with
      | Some (Dir _ _ _) => if bool_decide (children t q = []) then (delete q t, true) else (t, false)
      | _ => (t, false)
      end
  | None => (t, false)
  end.
Definition set_mode (m : Z) (n : node) : node :=
  match n with File c _ tm => File c m tm | Dir l _ tm => Dir l m tm | Link target => Link target end.
Definition fs_set_permissions (m : Z) (t : tree) (p : list string) : tree * bool :=
  match follow t p with
  | Some q => match t !! q with Some n => (<[q := set_mode m n]> t, true) | None => (t, false) end
  | None => (t, false)
  end.

(** ** Operations: a state monad with errors *)
Definition gact (A : Type) : Type := tree → tree * outcome guest_error A.
#[export] Instance gact_ret : MRet gact := fun A a t => (t, Ok a).
#[export] Instance gact_bind : MBind gact := fun A B f m t =>
  match m t with
  | (t, Ok a) => f a t
  | (t, Err e) => (t, Err e)
  | (t, Panic) => (t, Panic)
  end.
Definition gask {A} (f : tree → outcome guest_error A) : gact A := fun t => (t, f t).
Definition gtry (e : guest_error) (f : tree → tree * bool) : gact () := fun t =>
  let '(t, ok) := f t in (t, if ok then Ok () else Err e).

Section operations.
Context `{FileCrates} `{GuestIo} (g : Guestfs).

Definition resolved_path (path : string) : gact (list string) :=
  gask (fun _ => ensure_ready g) ;; gask (fun t => resolve_guest_path g t path).
Definition writable_resolved (refusal path : string) : gact (list string) :=
  gask (fun _ => ensure_ready g) ;;
  gask (fun _ => if gh_readonly g then Err (GuestPermissionDenied refusal) else Ok ()) ;;
  gask (fun t => resolve_guest_path g t path).

Definition g_is_file (path : string) : gact bool :=
  p ← resolved_path path;
  gask (fun t => Ok (match node_at t p with Some (File _ _ _) => true | _ => false end)).
Definition g_is_dir (path : string) : gact bool :=
  p ← resolved_path path; gask (fun t => Ok (path_is_dir t p)).
Definition g_exists (path : string) : gact bool :=
  p ← resolved_path path; gask (fun t => Ok (match node_at t p with Some _ => true | None => false end)).
Definition g_is_symlink (path : string) : gact bool :=
  p ← resolved_path path;
  gask (fun t => match entry_at t p ≫= fun q => t !! q with
                 | Some (Link _) => Ok true
                 | Some _ => Ok false
                 | None => Err GuestIoError
                 end).
Definition g_read_file (path : string) : gact string :=
  p ← resolved_path path;
  gask (fun t => match node_at t p with
                 | Some (File c _ _) => Ok c
                 | _ => Err (GuestNotFound ("Failed to read " +:+ path))
                 end).
Definition g_cat (path : string) : gact string :=
  bytes ← g_read_file path;
  gask (fun _ => if is_utf8 bytes then Ok bytes else Err (GuestInvalidFormat "Not UTF-8")).
Definition g_read_lines (path : string) : gact (list string) := content ← g_cat path; mret (lines content).
Definition g_filesize (path : string) : gact Z :=
  p ← resolved_path path;
  gask (fun t => match node_at t p with
                 | Some n => if (node_len n <? 2 ^ 63)%Z then Ok (node_len n)
                             else Err (InvalidOperation ("File size " +:+ fmt_Z (node_len n) +:+ " exceeds i64::MAX"))
                 | None => Err (GuestNotFound ("Failed to get size of " +:+ path))
                 end).
Definition g_write (path content : string) : gact () :=
  p ← writable_resolved "Cannot write to file on read-only filesystem" path;
  gtry (GuestCommandFailed ("Failed to write " +:+ path)) (fs_write_bytes (write_fault p) p content).
Definition g_mkdir (path : string) : gact () :=
  p ← writable_resolved "Cannot create directory on read-only filesystem" path;
  gtry (GuestCommandFailed ("Failed to create directory " +:+ path))
    (fun t => match fs_mkdir t p with Made t => (t, true) | _ => (t, false) end).
Definition g_mkdir_p (path : string) : gact () :=
  p ← writable_resolved "Cannot create directory on read-only filesystem" path;
  gtry (GuestCommandFailed ("Failed to create directory " +:+ path)) (fun t => create_dir_all (length p) t p).
Definition g_ls (directory : string) : gact (list string) :=
  p ← resolved_path directory;
  gask (fun t => match follow t p with
                 | Some q => if is_dir t q then Ok (str_sort (map fst (children t q)))
                             else Err (GuestNotFound ("Failed to read directory " +:+ directory))
                 | None => Err (GuestNotFound ("Failed to read directory " +:+ directory))
                 end).
Definition g_rmdir (path : string) : gact () :=
  p ← writable_resolved "Cannot remove directory on read-only filesystem" path;
  gtry (GuestCommandFailed ("Failed to remove directory " +:+ path)) (fun t => fs_rmdir t p).
Definition g_chmod (mode : Z) (path : string) : gact () :=
  p ← writable_resolved "Cannot chmod on read-only filesystem" path;
  gtry (GuestCommandFailed ("Failed to chmod " +:+ path)) (fun t => fs_set_permissions mode t p).
Definition g_cp (src dest : string) : gact () :=
  s ← writable_resolved "Cannot copy file on read-only filesystem" src;
  d ← gask (fun t => resolve_guest_path g t dest);
  gtry (GuestCommandFailed ("Failed to copy " +:+ src +:+ " to " +:+ dest)) (fs_copy_file (write_fault d) s d).
(** [fs::copy] of a host file with this content and mode: the destination is truncated,
    gets the mode, and then the bytes.  The handle may be read-only. *)
Definition fs_upload (fault : option nat) (mode : Z) (content : string) (t : tree) (p : list string) : tree * bool :=
  match open_truncated mode p t with
  | None => (t, false)
  | Some (t, q, _) =>
      (<[q := File (written fault content) mode written_at]> t, match fault with Some _ => false | None => true end)
  end.
Definition g_upload (mode : Z) (content remotefilename : string) : gact () :=
  p ← resolved_path remotefilename;
  gtry (GuestCommandFailed ("Failed to upload to " +:+ remotefilename)) (fun t => fs_upload (write_fault p) mode content t p).
Definition g_rm (path : string) : gact () :=
  p ← writable_resolved "Cannot remove file on read-only filesystem" path;
  gask (fun t => match node_at t p with
                 | None => Err (GuestNotFound ("File not found: " +:+ path))
                 | Some (Dir _ _ _) => Err (InvalidOperation ("Cannot rm directory (use rmdir or rm_rf): " +:+ path))
                 | Some _ => Ok ()
                 end) ;;
  gtry GuestIoError (fun t => fs_unlink t p).
Definition g_rm_f (path : string) : gact () := fun t =>
  match g_rm path t with
  | (t, Err (GuestNotFound _)) => (t, Ok ())
  | r => r
  end.
(** neither looks whether the handle is read-only. *)
Definition g_ln_s (target linkname : string) : gact () :=
  p ← resolved_path linkname;
  gtry (GuestCommandFailed "Failed to create symlink") (fun t => fs_symlink_at target t p).
Definition g_ln_sf (target linkname : string) : gact () :=
  p ← resolved_path linkname;
  (fun t => ((fs_unlink t p).1, Ok ())) ;;
  g_ln_s target linkname.
End operations.
