(* ===== verification/GuestFsProps.v ===== *)
(** * What the file operations on a mounted guest reach

    What is read lies below the root of the guest, whatever links the guest holds; what is
    written does too unless the last component is a link that leads nowhere, which the
    resolution cannot tell from a new file; removing goes through links to their targets. *)
From stdpp Require Import base gmap strings list.
From Stdlib Require Import ZArith Lia Ascii.
From S2P Require Import Prelude RustStr Frame AgentRpc AgentPolicy Words Repair FileOps FileOpsProps GuestFs.

Implicit Types (t : tree) (p q d cur todo : list string).

(** ** The walk with reasons *)
Lemma walk_why_cons t n cur x todo :
  walk_why t n cur (x :: todo) =
  if is_dir t cur then
    if (String.eqb x "" || String.eqb x ".") then walk_why t n cur todo
    else if String.eqb x ".." then walk_why t n (removelast cur) todo
    else match t !! (cur ++ [x]) with
         | Some (Link target) =>
             match n with
             | O => Blocked
             | S n => walk_why t n (if is_absolute target then [] else cur) (pieces target ++ todo)
             end
         | Some _ => walk_why t n (cur ++ [x]) todo
         | None => Missing
         end
  else Blocked.
Proof. by destruct n. Qed.
Lemma walk_why_nil t n cur : walk_why t n cur [] = Reached cur.
Proof. by destruct n. Qed.

(** induction on a walk: on the links left, then on the components. *)
Lemma walk_ind (P : nat → list string → Prop) :
  (∀ n, P n []) →
  (∀ n x todo, P n todo → (∀ m ts, m < n → P m (ts ++ todo)) → P n (x :: todo)) →
  ∀ n todo, P n todo.
Proof.
  intros H0 Hs n. induction n as [n IHn] using lt_wf_ind. intros todo.
  induction todo as [|x todo IH]; [apply H0|]. apply Hs; [done|]. intros m ts Hm. by apply IHn.
Qed.

Lemma walk_why_reached t n todo : ∀ cur p,
  walk_why t n cur todo = Reached p ↔ walk false t n cur todo = Some p.
Proof.
  revert n todo. apply (walk_ind (fun n todo => ∀ cur p,
    walk_why t n cur todo = Reached p ↔ walk false t n cur todo = Some p)).
  - intros n cur p. rewrite walk_why_nil, walk_nil. naive_solver.
  - intros n x todo IH IHl cur p. rewrite walk_why_cons, walk_cons.
    destruct (is_dir t cur); [|done]. destruct (_ || _); [apply IH|]. destruct (String.eqb x ".."); [apply IH|].
    destruct (t !! (cur ++ [x])) as [[]|]; [apply IH|apply IH| |done].
    destruct n as [|n]; [done|]. apply IHl. lia.
Qed.
(** what is missing stays missing with more links, and without empty components. *)
Lemma walk_why_more t n todo : ∀ cur m,
  walk_why t n cur todo = Missing → n ≤ m → walk_why t m cur todo = Missing.
Proof.
  revert n todo. apply (walk_ind (fun n todo => ∀ cur m,
    walk_why t n cur todo = Missing → n ≤ m → walk_why t m cur todo = Missing)).
  - intros n cur m. by rewrite walk_why_nil.
  - intros n x todo IH IHl cur m. rewrite !walk_why_cons. destruct (is_dir t cur); [|done].
    destruct (_ || _); [apply IH|]. destruct (String.eqb x ".."); [apply IH|].
    destruct (t !! (cur ++ [x])) as [[]|]; [apply IH|apply IH| |done].
    destruct n as [|n]; [done|]. intros Hw Hm. destruct m as [|m]; [lia|]. eapply IHl; [|done|]; lia.
Qed.
Lemma walk_why_named t n b : ∀ a cur,
  walk_why t n cur (a ++ b) = Missing → walk_why t n cur (a ++ filter named b) = Missing.
Proof.
  revert b. induction n as [n IHn] using lt_wf_ind.
  intros b a. revert a b. assert (∀ k a b cur, length a + length b ≤ k →
    walk_why t n cur (a ++ b) = Missing → walk_why t n cur (a ++ filter named b) = Missing) as H; [|by eauto].
  induction k as [|k IH]; intros a b cur Hk.
  { destruct a, b; cbn in Hk; try lia. done. }
  destruct a as [|x a].
  - destruct b as [|x b]; [done|]. cbn [app]. rewrite filter_cons.
    destruct (String.eqb x "" || String.eqb x ".") eqn:E.
    + rewrite walk_why_cons, E. assert (¬ named x) as Hn
        by (unfold named; intros Hx; by rewrite <-negb_orb, E in Hx). rewrite decide_False by done.
      destruct (is_dir t cur); [|done]. intros Hw. apply (IH [] b); [cbn in *; lia|done].
    + rewrite decide_True by (unfold named; by rewrite <-negb_orb, E). rewrite !walk_why_cons, E.
      destruct (is_dir t cur); [|done].
      destruct (String.eqb x ".."); [apply (IH [] b); cbn in *; lia|].
      destruct (t !! (cur ++ [x])) as [[]|]; [apply (IH [] b); cbn in *; lia|apply (IH [] b); cbn in *; lia| |done].
      destruct n as [|n']; [done|]. apply IHn. lia.
  - cbn [app]. rewrite !walk_why_cons. destruct (is_dir t cur); [|done].
    destruct (_ || _); [apply IH; cbn in *; lia|]. destruct (String.eqb x ".."); [apply IH; cbn in *; lia|].
    destruct (t !! (cur ++ [x])) as [[]|]; [apply IH; cbn in *; lia|apply IH; cbn in *; lia| |done].
    destruct n as [|n']; [done|]. rewrite !app_assoc. apply IHn. lia.
Qed.
(** a walk in two parts. *)
Lemma walk_why_app t n a b : ∀ cur d,
  walk_why t n cur a = Reached d → ∃ m, m ≤ n ∧ walk_why t n cur (a ++ b) = walk_why t m d b.
Proof.
  revert n a. apply (walk_ind (fun n a => ∀ cur d,
    walk_why t n cur a = Reached d → ∃ m, m ≤ n ∧ walk_why t n cur (a ++ b) = walk_why t m d b)).
  - intros n cur d. rewrite walk_why_nil. intros [= <-]. by exists n.
  - intros n x a IH IHl cur d. cbn [app]. rewrite !walk_why_cons. destruct (is_dir t cur); [|done].
    destruct (_ || _); [apply IH|]. destruct (String.eqb x ".."); [apply IH|].
    destruct (t !! (cur ++ [x])) as [[]|]; [apply IH|apply IH| |done].
    destruct n as [|n]; [done|]. intros Hw. destruct (IHl n (pieces target) ltac:(lia) _ _ Hw) as (m & Hm & E).
    exists m. split; [lia|]. by rewrite <-E, app_assoc.
Qed.
Lemma walk_why_dirs t n d cur todo :
  (∀ q, q `prefix_of` d → is_dir t (cur ++ q) = true) → Forall plain_name d →
  walk_why t n cur (d ++ todo) = walk_why t n (cur ++ d) todo.
Proof.
  revert cur. induction d as [|x d IH]; intros cur Hd Hp; [by rewrite app_nil_r|].
  apply Forall_cons in Hp as [Hx Hp]. cbn [app]. rewrite walk_why_cons.
  pose proof (Hd [] (prefix_nil _)) as H0. rewrite app_nil_r in H0. rewrite H0.
  destruct (plain_name_eqb x Hx) as [-> ->].
  assert (is_dir t (cur ++ [x]) = true) as H1 by (apply (Hd [x]); by exists d).
  pose proof H1 as H1'. unfold is_dir in H1'. destruct (t !! (cur ++ [x])) as [[]|]; try done.
  rewrite IH; [by rewrite <-app_assoc| |done].
  intros q Hq. rewrite <-app_assoc. apply (Hd (x :: q)). by apply prefix_cons.
Qed.
Lemma canonical_prefixes t d q : canonical t d → is_dir t d = true → q `prefix_of` d → is_dir t q = true.
Proof.
  intros (Hb & _) Hd [[|y k] E]; [rewrite app_nil_r in E; by subst|].
  apply (bd_dirs _ _ Hb q y). exists k. by rewrite E, <-app_assoc.
Qed.
Lemma walk_why_at t n d todo :
  canonical t d → is_dir t d = true → walk_why t n [] (d ++ todo) = walk_why t n d todo.
Proof.
  intros Hc Hd. apply (walk_why_dirs t n d []); [|apply Hc]. intros q Hq. by eapply canonical_prefixes.
Qed.

(** ** Candidates *)
Lemma absolute_pieces raw : is_absolute raw = true → ∃ l, pieces raw = "" :: l.
Proof.
  unfold is_absolute, pieces. intros (s & ->)%starts_with_spec. cbn.
  destruct (split_char "/"%char s); eauto.
Qed.
Lemma absolute_components raw : is_absolute raw = true → components raw = filter named (pieces raw).
Proof. intros (l & E)%absolute_pieces. unfold components. by rewrite E. Qed.
Lemma absolute_join root path : is_absolute root = true → is_absolute (path_join root path) = true.
Proof.
  intros Hr. unfold path_join, is_absolute in *. destruct (starts_with "/" path) eqn:E; [done|].
  apply starts_with_spec in Hr as (s & ->). change (is_empty ("/" +:+ s)) with false. cbv iota.
  destruct (ends_with_char "/"%char ("/" +:+ s)); apply starts_with_spec; eexists (s +:+ _); reflexivity.
Qed.

(** where a resolved path can be: at an entry that is no link; at a new entry of a
    directory, or a link there that leads nowhere; or below something missing. *)
Inductive located t p : Prop :=
  | located_at : canonical t p → located t p
  | located_new d x : p = d ++ [x] → canonical t d → is_dir t d = true → plain_name x →
      walk_why t MAX_LINKS [] p = Missing → located t p
  | located_nowhere : p ≠ [] → walk_why t MAX_LINKS [] p = Missing → follow t (removelast p) = None → located t p.

Lemma candidate_located t gp cand p :
  is_dir t [] = true → is_absolute cand = true → candidate_path t gp cand = Ok p → located t p.
Proof.
  intros Hr Ha. unfold candidate_path. destruct (walk_why t MAX_LINKS [] (pieces cand)) as [q| |] eqn:E; [| |done].
  { intros [= <-]. apply located_at. apply walk_why_reached in E.
    eapply walk_canonical; [done|by apply root_canonical|done]. }
  apply (walk_why_named t MAX_LINKS (pieces cand) []) in E. cbn [app] in E. rewrite <-absolute_components in E by done.
  unfold path_parent. destruct (components cand) as [|y l] eqn:Ec; [done|]. rewrite <-Ec in *.
  assert (components cand ≠ []) as Hne by (by rewrite Ec).
  assert (∀ x, path_file_name cand = Some x → components cand = removelast (components cand) ++ [x]) as Hsplit.
  { intros x Hx. unfold path_file_name in Hx. destruct (exists_last Hne) as (k & z & Hk). rewrite Hk in Hx |- *.
    rewrite last_snoc in Hx. rewrite removelast_last. destruct (_ || _); [done|]. by injection Hx as ->. }
  destruct (path_file_name cand) as [x|] eqn:Ex; [|done]. apply file_name_plain in Ex as Hx.
  specialize (Hsplit x eq_refl).
  destruct (walk false t MAX_LINKS [] (removelast (components cand))) as [d|] eqn:Ed.
  2: { intros [= <-]. by apply located_nowhere. }
  intros [= <-].
  assert (canonical t d) as Hcd by (eapply walk_canonical; [done|by apply root_canonical|done]).
  apply walk_why_reached in Ed. rewrite Hsplit in E.
  destruct (walk_why_app t MAX_LINKS (removelast (components cand)) [x] [] d Ed) as (m & Hm & Em).
  rewrite Em in E. apply (walk_why_more _ _ _ _ MAX_LINKS) in E; [|done].
  assert (is_dir t d = true) as Hdir by (rewrite walk_why_cons in E; by destruct (is_dir t d)).
  apply (located_new t (d ++ [x]) d x); try done. by rewrite walk_why_at.
Qed.

(** ** Resolution *)
(** a handle that is mounted at [root]: an absolute path that leads to [base]. *)
Record mounted_at (g : Guestfs) t (base : list string) : Prop := {
  ma_root : is_dir t [] = true;
  ma_base : ∃ root, find_root_mountpoint g = Ok root ∧ is_absolute root = true ∧
    walk false t MAX_LINKS [] (pieces root) = Some base
}.
Lemma resolve_located g t base path p :
  mounted_at g t base → resolve_guest_path g t path = Ok p → located t p ∧ base `prefix_of` p.
Proof.
  intros [Hr (root & Hroot & Ha & Hb)]. unfold resolve_guest_path.
  intros ([] & _ & H)%outcome_bind_Ok. rewrite Hroot in H. cbn [mbind outcome_bind] in H.
  apply outcome_bind_Ok in H as (q & Hq & H). rewrite Hb in H. cbn [mbind outcome_bind] in H.
  destruct (path_starts_with q base) eqn:Es; [|done]. injection H as <-.
  split; [|by apply path_starts_with_spec]. eapply candidate_located; [done| |exact Hq]. by apply absolute_join.
Qed.
Lemma follow_missing t p : walk_why t MAX_LINKS [] p = Missing → follow t p = None.
Proof.
  intros E. unfold follow. destruct (walk false t MAX_LINKS [] p) as [q|] eqn:Ew; [|done].
  apply walk_why_reached in Ew. congruence.
Qed.
(** what is found at a resolved path is there itself. *)
Lemma located_node t p n :
  is_dir t [] = true → located t p → node_at t p = Some n → canonical t p ∧ t !! p = Some n.
Proof.
  intros Hr Hl. unfold node_at. destruct Hl as [Hc|d x _ _ _ _ E%follow_missing|_ E%follow_missing _];
    [|by rewrite E..].
  unfold follow. rewrite walk_canonical_id by done. done.
Qed.

(** ** Operations *)
Lemma gact_bind_eq {A B} (m : gact A) (f : A → gact B) t :
  (m ≫= f) t = match m t with
               | (t, Ok a) => f a t
               | (t, Err e) => (t, Err e)
               | (t, Panic) => (t, Panic)
               end.
Proof. done. Qed.
Lemma gact_bind_Ok {A B} (m : gact A) (f : A → gact B) t t' b :
  (m ≫= f) t = (t', Ok b) ↔ ∃ t1 a, m t = (t1, Ok a) ∧ f a t1 = (t', Ok b).
Proof. rewrite gact_bind_eq. destruct (m t) as [t1 [a|e|]]; naive_solver. Qed.
Lemma resolved_path_eq g path t :
  resolved_path g path t = (t, ensure_ready g ;; resolve_guest_path g t path).
Proof. unfold resolved_path, gask, mbind, gact_bind. by destruct (ensure_ready g). Qed.
Lemma writable_resolved_eq g refusal path t :
  writable_resolved g refusal path t =
  (t, ensure_ready g ;; (if gh_readonly g then Err (GuestPermissionDenied refusal) else Ok ()) ;; resolve_guest_path g t path).
Proof.
  unfold writable_resolved, gask, mbind, gact_bind. destruct (ensure_ready g); [|done..].
  by destruct (gh_readonly g).
Qed.
Lemma resolved_path_Ok g path t t' p :
  resolved_path g path t = (t', Ok p) → t' = t ∧ resolve_guest_path g t path = Ok p.
Proof. rewrite resolved_path_eq. intros [= <- H]. by apply outcome_bind_Ok in H as ([] & _ & H). Qed.
Lemma writable_resolved_Ok g refusal path t t' p :
  writable_resolved g refusal path t = (t', Ok p) →
  t' = t ∧ gh_readonly g = false ∧ resolve_guest_path g t path = Ok p.
Proof.
  rewrite writable_resolved_eq. intros [= <- H]. apply outcome_bind_Ok in H as ([] & _ & H).
  apply outcome_bind_Ok in H as ([] & Hw & H). by destruct (gh_readonly g).
Qed.

(** following a link at the end, a path below something missing leads nowhere. *)
Lemma walk_create_none t n a x : ∀ cur, walk false t n cur a = None → walk true t n cur (a ++ [x]) = None.
Proof.
  revert n a. apply (walk_ind (fun n a => ∀ cur, walk false t n cur a = None → walk true t n cur (a ++ [x]) = None)).
  - intros n cur. by rewrite walk_nil.
  - intros n y a IH IHl cur. cbn [app]. rewrite !walk_cons. destruct (is_dir t cur); [|done].
    destruct (_ || _); [apply IH|]. destruct (String.eqb y ".."); [apply IH|].
    destruct (t !! (cur ++ [y])) as [[]|]; [apply IH|apply IH| |].
    + destruct n as [|n]; [done|]. rewrite app_assoc. apply IHl. lia.
    + intros _. rewrite bool_decide_eq_false_2; [done|]. by destruct a.
Qed.
(** where a write to a resolved path goes, unless it is a link. *)
Lemma located_write t p q :
  is_dir t [] = true → located t p → not_link t p → walk true t MAX_LINKS [] p = Some q → q = p.
Proof.
  intros Hr Hl Hn. destruct Hl as [Hc|d x -> Hc Hd Hx _|Hne _ Hf].
  - rewrite walk_canonical_id by done. by intros [= <-].
  - rewrite walk_last; [by intros [= <-]| |done|by left]. by apply below_dirs_snoc; [apply Hc|..].
  - destruct (exists_last Hne) as (k & z & ->). rewrite removelast_last in Hf.
    by rewrite walk_create_none.
Qed.

Section contained.
Context `{FileCrates} `{GuestIo}.

Lemma write_changes fault p bytes t q :
  (fs_write_bytes fault p bytes t).1 !! q ≠ t !! q →
  walk true t MAX_LINKS [] p = Some q ∧ ∃ c m tm, (fs_write_bytes fault p bytes t).1 !! q = Some (File c m tm).
Proof.
  unfold fs_write_bytes, open_truncated. destruct (walk true t MAX_LINKS [] p) as [r|]; cbn [mbind option_bind]; [|done].
  destruct (t !! r) as [[c m tm|len m tm|target]|]; cbn [fst]; try done; rewrite insert_insert_eq;
    (destruct (decide (r = q)) as [<-|]; [rewrite lookup_insert_eq; eauto|by rewrite lookup_insert_ne]).
Qed.

(** what is read from a guest is a file of the guest.  Whatever links its file systems
    hold, the bytes that [read_file] returns are those of a regular file below the mounted
    root, reached without a link; [exists] answers for such an entry only; and reading
    changes nothing. *)
Theorem guest_reads_contained g t base path :
  mounted_at g t base →
  (∀ t' c, g_read_file g path t = (t', Ok c) →
     t' = t ∧ ∃ p m tm, base `prefix_of` p ∧ canonical t p ∧ t !! p = Some (File c m tm)) ∧
  (∀ t', g_exists g path t = (t', Ok true) → t' = t ∧ ∃ p, base `prefix_of` p ∧ canonical t p).
Proof.
  intros Hm. assert (is_dir t [] = true) as Hr by apply Hm. split.
  - intros t' c (t1 & p & (-> & Hp)%resolved_path_Ok & Hc)%gact_bind_Ok. unfold gask in Hc.
    destruct (resolve_located _ _ _ _ _ Hm Hp) as [Hl Hb].
    destruct (node_at t p) as [[c' m tm| |]|] eqn:E; try done. injection Hc as <- <-.
    destruct (located_node _ _ _ Hr Hl E) as [Hcan Hn]. eauto 10.
  - intros t' (t1 & p & (-> & Hp)%resolved_path_Ok & Hc)%gact_bind_Ok. unfold gask in Hc.
    destruct (resolve_located _ _ _ _ _ Hm Hp) as [Hl Hb].
    destruct (node_at t p) as [n|] eqn:E; [|done]. injection Hc as <-.
    destruct (located_node _ _ _ Hr Hl E) as [Hcan _]. eauto.
Qed.

(** C18: a write to a guest stays in the guest, if what the path names is not a link that
    leads nowhere: the only entry that can change is the resolved path, which lies below
    the mounted root, and it becomes a regular file; an error may leave part of it. *)
Theorem guest_write_contained g t base path content t' r :
  mounted_at g t base →
  (∀ p, resolve_guest_path g t path = Ok p → not_link t p) →
  g_write g path content t = (t', r) →
  ∀ q, t' !! q ≠ t !! q →
    base `prefix_of` q ∧ resolve_guest_path g t path = Ok q ∧ ∃ c m tm, t' !! q = Some (File c m tm).
Proof.
  intros Hm Hnl Hw q Hq. unfold g_write in Hw. rewrite gact_bind_eq in Hw.
  destruct (writable_resolved g _ path t) as [t1 [p|e|]] eqn:E.
  2, 3: rewrite writable_resolved_eq in E; injection E as <- _; by injection Hw as <- _.
  apply writable_resolved_Ok in E as (-> & _ & Hp). unfold gtry in Hw.
  pose proof (write_changes (write_fault p) p content t q) as Hc.
  destruct (fs_write_bytes (write_fault p) p content t) as [t2 ok]. injection Hw as <- _. cbn [fst] in Hc.
  destruct (Hc Hq) as [Hwalk Hfile]. destruct (resolve_located _ _ _ _ _ Hm Hp) as [Hl Hb].
  apply located_write in Hwalk as ->; [done|apply Hm|done|by apply Hnl].
Qed.

(** a link that leads nowhere is a way out.  If a path of the guest names a link with
    an absolute target that does not exist on the host, while the directory of the target
    does, a write to the path is let through and creates the target: a file of the host. *)
Theorem dangling_link_escapes g t path content p target h :
  is_dir t [] = true → gh_ready g = true → gh_readonly g = false →
  resolve_guest_path g t path = Ok p → below_dirs t p → t !! p = Some (Link target) → is_absolute target = true →
  walk true t (pred MAX_LINKS) [] (pieces target) = Some h → t !! h = None →
  write_fault p = None →
  g_write g path content t = (<[h := File content umask_mode written_at]> t, Ok ()).
Proof.
  intros Hr Hrdy Hro Hp Hb Hlink Habs Hh Hnone Hf.
  assert (walk true t MAX_LINKS [] p = Some h) as Hwalk.
  { destruct p as [|y l]; [unfold is_dir in Hr; by rewrite Hlink in Hr|].
    destruct (exists_last (l := y :: l)) as (d & x & E); [done|]. rewrite E in *.
    rewrite walk_parent by done. rewrite walk_cons, (bd_dirs _ _ Hb d x) by done.
    destruct (plain_name_eqb x) as [-> ->].
    { pose proof (bd_plain _ _ Hb) as Hpl. apply Forall_app in Hpl as [_ Hpl]. by rewrite Forall_singleton in Hpl. }
    rewrite Hlink, Habs. unfold MAX_LINKS. by rewrite app_nil_r. }
  unfold g_write. rewrite gact_bind_eq, writable_resolved_eq. unfold ensure_ready. rewrite Hrdy, Hro, Hp.
  cbn [mbind outcome_bind]. unfold gtry, fs_write_bytes, open_truncated. rewrite Hwalk. cbn [mbind option_bind].
  rewrite Hnone, Hf, insert_insert_eq. done.
Qed.

(** [rm] removes what a path leads to.  If it succeeds, one entry is gone, and that
    entry was no link, whatever the path named: a link is followed and its target, a file
    of the guest, is removed while the link stays. *)
Theorem rm_removes_the_target g t base path t' :
  mounted_at g t base → g_rm g path t = (t', Ok ()) →
  ∃ p c m tm, base `prefix_of` p ∧ canonical t p ∧ t !! p = Some (File c m tm) ∧ t' = delete p t.
Proof.
  intros Hm (t1 & p & (-> & _ & Hp)%writable_resolved_Ok & Hc)%gact_bind_Ok.
  apply gact_bind_Ok in Hc as (t1 & [] & Ha & Hu). unfold gask in Ha.
  assert (is_dir t [] = true) as Hr by apply Hm. destruct (resolve_located _ _ _ _ _ Hm Hp) as [Hl Hb].
  destruct (node_at t p) as [n|] eqn:E; [|done]. destruct (located_node _ _ _ Hr Hl E) as [Hcan Hn].
  destruct n as [c m tm|len m tm|target]; [|done|by destruct Hcan as (_ & _ & Hno); destruct (Hno target)].
  injection Ha as <-. exists p, c, m, tm. split; [done|]. split; [done|]. split; [done|].
  unfold gtry, fs_unlink in Hu.
  assert (entry_at t p = Some p) as He.
  { destruct p as [|y l]; [unfold is_dir in Hr; by rewrite Hn in Hr|]. unfold entry_at.
    destruct (exists_last (l := y :: l)) as (d & x & Ed); [done|]. rewrite Ed in *.
    rewrite last_snoc. pose proof (canonical_removelast _ _ Hcan) as Hd. rewrite removelast_last in Hd |- *.
    unfold follow. by rewrite walk_canonical_id. }
  rewrite He, Hn in Hu. by injection Hu as <-.
Qed.

(** a read-only handle refuses to write, create, remove, copy and change modes: the
    tree stays as it is and the answer is an error. *)
Theorem readonly_refuses g t :
  gh_readonly g = true →
  (∀ path content, ∃ e, g_write g path content t = (t, Err e)) ∧
  (∀ path, ∃ e, g_mkdir_p g path t = (t, Err e)) ∧
  (∀ path, ∃ e, g_rm g path t = (t, Err e)) ∧
  (∀ src dst, ∃ e, g_cp g src dst t = (t, Err e)) ∧
  (∀ mode path, ∃ e, g_chmod g mode path t = (t, Err e)).
Proof.
  intros Hro. assert (∀ refusal path, ∃ e, writable_resolved g refusal path t = (t, Err e)) as Hw.
  { intros refusal path. rewrite writable_resolved_eq, Hro. unfold ensure_ready. destruct (gh_ready g); eauto. }
  split_and!; intros; unfold g_write, g_mkdir_p, g_rm, g_cp, g_chmod; rewrite gact_bind_eq;
    match goal with |- context [writable_resolved g ?r ?p t] => destruct (Hw r p) as [e ->] end; eauto.
Qed.
End contained.

(** ** Examples *)
#[local] Instance toy_host : FileCrates := {|
  b64_encode s := s; b64_decode s := Some s; file_sha256_hex s := s; cwd := []; written_at := None; umask_mode := 420
|}.
#[local] Instance toy_io : GuestIo := {| write_fault _ := None; is_utf8 _ := true |}.
Definition plain_dir : node := Dir 0 493 None.
(** a host with a guest mounted at /mnt; the guest holds links to the host. *)
Definition host_tree : tree :=
  list_to_map [([], plain_dir); (["mnt"], plain_dir); (["mnt"; "etc"], plain_dir); (["root"], plain_dir);
    (["srv"], plain_dir); (["mnt"; "etc"; "motd"], File "hi" 420 None);
    (["mnt"; "etc"; "issue"], Link "motd"); (["mnt"; "etc"; "keys"], Link "/root/authorized_keys");
    (["mnt"; "out"], Link "/srv")].
Definition mounted_guest : Guestfs := mk_Guestfs true false (Some "/mnt") ["/mnt"].
Lemma mounted_guest_at : mounted_at mounted_guest host_tree ["mnt"].
Proof. split; [done|]. exists "/mnt". split; [done|]. split; [done|]. vm_compute. reflexivity. Qed.

Lemma issue_read : (g_read_file mounted_guest "/etc/issue" host_tree).2 = Ok "hi".
Proof. vm_compute. reflexivity. Qed.
Lemma guest_reads_contained_witness :
  ∃ p m tm, ["mnt"] `prefix_of` p ∧ canonical host_tree p ∧ host_tree !! p = Some (File "hi" m tm).
Proof.
  pose proof issue_read as Hr. destruct (g_read_file mounted_guest "/etc/issue" host_tree) as [t' r] eqn:E.
  cbn [snd] in Hr. subst r.
  exact (proj2 (proj1 (guest_reads_contained mounted_guest host_tree ["mnt"] "/etc/issue" mounted_guest_at) t' "hi" E)).
Defined.
Definition new_motd : tree := (g_write mounted_guest "/etc/issue" "bye" host_tree).1.
Lemma issue_resolves p :
  resolve_guest_path mounted_guest host_tree "/etc/issue" = Ok p → not_link host_tree p.
Proof.
  assert (resolve_guest_path mounted_guest host_tree "/etc/issue" = Ok ["mnt"; "etc"; "motd"]) as ->
    by (vm_compute; reflexivity).
  intros [= <-] target. vm_compute. discriminate.
Qed.
Lemma guest_write_contained_witness :
  ["mnt"] `prefix_of` ["mnt"; "etc"; "motd"] ∧
  resolve_guest_path mounted_guest host_tree "/etc/issue" = Ok ["mnt"; "etc"; "motd"] ∧
  ∃ c m tm, new_motd !! ["mnt"; "etc"; "motd"] = Some (File c m tm).
Proof.
  refine (guest_write_contained mounted_guest host_tree ["mnt"] "/etc/issue" "bye" new_motd
    (g_write mounted_guest "/etc/issue" "bye" host_tree).2 mounted_guest_at issue_resolves _ ["mnt"; "etc"; "motd"] _).
  - unfold new_motd. by destruct (g_write _ _ _ _).
  - vm_compute. discriminate.
Defined.
Lemma keys_below : below_dirs host_tree ["mnt"; "etc"; "keys"].
Proof.
  split; [|by repeat constructor].
  intros q x [k E]. destruct q as [|a [|b [|c q]]]; cbn in E; injection E as E; subst; [vm_compute; reflexivity..|].
  by destruct q.
Qed.
Lemma dangling_link_escapes_witness :
  g_write mounted_guest "/etc/keys" "ssh-rsa" host_tree =
  (<[["root"; "authorized_keys"] := File "ssh-rsa" 420 None]> host_tree, Ok ()).
Proof.
  exact (dangling_link_escapes mounted_guest host_tree "/etc/keys" "ssh-rsa" ["mnt"; "etc"; "keys"]
    "/root/authorized_keys" ["root"; "authorized_keys"] eq_refl eq_refl eq_refl ltac:(vm_compute; reflexivity) keys_below
    eq_refl eq_refl ltac:(vm_compute; reflexivity) ltac:(vm_compute; reflexivity) eq_refl).
Defined.
Lemma rm_issue : (g_rm mounted_guest "/etc/issue" host_tree).2 = Ok ().
Proof. vm_compute. reflexivity. Qed.
Lemma rm_removes_the_target_witness :
  ∃ t' p c m tm, (g_rm mounted_guest "/etc/issue" host_tree).1 = t' ∧
    ["mnt"] `prefix_of` p ∧ canonical host_tree p ∧ host_tree !! p = Some (File c m tm) ∧ t' = delete p host_tree.
Proof.
  pose proof rm_issue as Hr. destruct (g_rm mounted_guest "/etc/issue" host_tree) as [t' r] eqn:E.
  cbn [snd] in Hr. subst r.
  destruct (rm_removes_the_target mounted_guest host_tree ["mnt"] "/etc/issue" t' mounted_guest_at E) as (p & c & m & tm & Hp).
  exists t', p, c, m, tm. split; [reflexivity|exact Hp].
Defined.
Lemma readonly_refuses_witness :
  ∃ e, g_write (mk_Guestfs true true (Some "/mnt") ["/mnt"]) "/etc/motd" "x" host_tree = (host_tree, Err e).
Proof. exact (proj1 (readonly_refuses (mk_Guestfs true true (Some "/mnt") ["/mnt"]) host_tree eq_refl) "/etc/motd" "x"). Defined.

Notation seen r p := ((r : tree * _).1 !! (p : list string)).
(** removing a link removes its target and keeps the link. *)
Example rm_keeps_the_link :
  seen (g_rm mounted_guest "/etc/issue" host_tree) ["mnt"; "etc"; "motd"] = None ∧
  seen (g_rm mounted_guest "/etc/issue" host_tree) ["mnt"; "etc"; "issue"] = Some (Link "motd").
Proof. vm_compute. done. Qed.
(** replacing a link deletes the file it leads to, and then fails because the link is there. *)
Example ln_sf_loses_the_target :
  (g_ln_sf mounted_guest "other" "/etc/issue" host_tree).2 = Err (GuestCommandFailed "Failed to create symlink") ∧
  seen (g_ln_sf mounted_guest "other" "/etc/issue" host_tree) ["mnt"; "etc"; "motd"] = None ∧
  seen (g_ln_sf mounted_guest "other" "/etc/issue" host_tree) ["mnt"; "etc"; "issue"] = Some (Link "motd").
Proof. vm_compute. done. Qed.
(** a link that leads somewhere is not a link. *)
Example is_symlink_never :
  (g_is_symlink mounted_guest "/etc/issue" host_tree).2 = Ok false ∧
  (g_is_symlink mounted_guest "/etc/keys" host_tree).2 = Ok true.
Proof. vm_compute. done. Qed.
(** directories are created on the host, through a link to a directory of it. *)
Example mkdir_p_escapes :
  (g_mkdir_p mounted_guest "/out/a/b" host_tree).2 = Ok () ∧
  seen (g_mkdir_p mounted_guest "/out/a/b" host_tree) ["srv"; "a"; "b"] = Some (Dir 0 493 None).
Proof. vm_compute. done. Qed.
(** a read-only handle uploads, and an upload changes the mode of the file. *)
Example readonly_uploads :
  let r := g_upload (mk_Guestfs true true (Some "/mnt") ["/mnt"]) 384 "new" "/etc/motd" host_tree in
  r.2 = Ok () ∧ seen r ["mnt"; "etc"; "motd"] = Some (File "new" 384 None).
Proof. vm_compute. done. Qed.
(** a device path may leave /dev. *)
Example device_path_leaves : validate_device_path "/dev/../etc/shadow" = Ok ().
Proof. vm_compute. done. Qed.
