(* ===== verification/Serial.v ===== *)
(** * The serial console of an image

    [src/cli/plan/serial_console.rs]: the repair that a migration plan writes as a
    [grubby] command is carried out on the mounted guest ([GuestFs]): with [grubby] in a
    [chroot] when the guest has it, and otherwise by rewriting the files of whatever boot
    loaders are found.  What a program run in the guest's root does is [GuestChroot].

    A slice of a text at a byte inside a character panics; the only such slice is the one
    of [inject_syslinux].  Log output is left out. *)
From stdpp Require Import base gmap strings list.
From Stdlib Require Import ZArith Lia Ascii.
From S2P Require Import Prelude RustStr Passport FileOps GuestFs Baseline.

Class GuestChroot := {
  (** [chroot ROOT args]: the tree afterwards, and whether it succeeded *)
  chroot : list string → tree → tree * bool
}.

Definition SERIAL_ARGS : string := "console=ttyS0,115200 console=tty0".
Definition has_serial (s : string) : bool := contains "console=ttyS0" s.

Definition last_segment (s : string) : string := default s (last (split_char "/"%char s)).
Definition is_grubby_serial (command : string) : bool :=
  let first := default "" (head (split_whitespace command)) in
  String.eqb (last_segment first) "grubby" && contains "console=" command.

(** ** Rewriting lines *)
Definition append_args (cmdline : string) : string :=
  let t := trim cmdline in
  if is_empty t then SERIAL_ARGS
  else if has_serial t then t
  else t +:+ " " +:+ SERIAL_ARGS.

Definition split_quotes (value : string) : option ascii * string :=
  match value with
  | String q rest =>
      if (2 <=? String.length value)%nat
         && (Ascii.eqb q (ascii_of_byte 34) || Ascii.eqb q (ascii_of_byte 39)) && ends_with_char q value
      then (Some q, String.substring 0 (String.length rest - 1) rest)
      else (None, value)
  | EmptyString => (None, value)
  end.

(** the white space before a line that is [t] without it. *)
Definition indent_of (line t : string) : string := String.substring 0 (String.length line - String.length t) line.

Definition rewrite_lines (f : string → string) (text : string) : string :=
  if is_empty text then ""
  else
    let out := join newline_str (map f (lines text)) in
    if ends_with_char (ascii_of_byte 10) text then out +:+ newline_str else out.

Definition append_if_prefix (prefixes : list string) (line : string) : string :=
  let t := trim_start line in
  if existsb (fun p => starts_with p t) prefixes && negb (has_serial t) then line +:+ " " +:+ SERIAL_ARGS else line.

Definition inject_bls : string → string := rewrite_lines (append_if_prefix ["options "]).
Definition inject_grub_cfg : string → string := rewrite_lines (append_if_prefix ["linux "; "linux16 "; "linuxefi "]).
Definition inject_menu_lst : string → string := rewrite_lines (append_if_prefix ["kernel "; "append "]).

Definition inject_plain_cmdline (text : string) : string :=
  let line := trim (default "" (head (lines text))) in
  if has_serial line then text
  else
    let next := append_args line in
    if ends_with_char (ascii_of_byte 10) text || is_empty text then next +:+ newline_str else next.

(** a continuation byte of UTF-8: not the start of a character. *)
Definition is_continuation (c : ascii) : bool := (byte_of c / 64 =? 2)%Z.
Definition is_char_boundary (n : nat) (s : string) : bool :=
  match String.get n s with
  | Some c => negb (is_continuation c)
  | None => (n =? String.length s)%nat
  end.
Definition syslinux_line (ln : string) : outcome Empty_set string :=
  let t := trim_start ln in
  if (7 <=? String.length t)%nat then
    if is_char_boundary 7 t then
      mret (if String.eqb (to_ascii_lowercase (String.substring 0 7 t)) "append " && negb (has_serial t)
            then ln +:+ " " +:+ SERIAL_ARGS else ln)
    else Panic
  else mret ln.
Fixpoint outcome_map {A} (f : string → outcome A string) (l : list string) : outcome A (list string) :=
  match l with
  | [] => mret []
  | x :: l => y ← f x; ys ← outcome_map f l; mret (y :: ys)
  end.
Definition inject_syslinux (text : string) : outcome Empty_set string :=
  if is_empty text then mret ""
  else
    ls ← outcome_map syslinux_line (lines text);
    let out := join newline_str ls in
    mret (if ends_with_char (ascii_of_byte 10) text then out +:+ newline_str else out).

Definition quoted_with (q : ascii) (s : string) : string := String q s +:+ String q "".
Definition zipl_line (ln : string) : string :=
  let t := trim_start ln in
  let '(key, value) := match split_once "="%char t with Some (k, v) => (trim k, trim v) | None => ("", "") end in
  if negb (String.eqb (to_ascii_lowercase key) "parameters") || has_serial t then ln
  else
    let indent := indent_of ln t in
    let '(quote, inner) := split_quotes value in
    let inner := append_args inner in
    match quote with
    | Some q => indent +:+ "parameters=" +:+ quoted_with q inner
    | None => if is_empty value then indent +:+ "parameters=" +:+ dquote +:+ SERIAL_ARGS +:+ dquote
              else indent +:+ "parameters=" +:+ dquote +:+ inner +:+ dquote
    end.
Definition inject_zipl : string → string := rewrite_lines zipl_line.

Definition CMDLINE_DEFAULT : string := "GRUB_CMDLINE_LINUX_DEFAULT=".
Definition CMDLINE : string := "GRUB_CMDLINE_LINUX=".
Definition TERMINAL : string := "GRUB_TERMINAL_OUTPUT=".
Definition SERIAL_COMMAND : string := "GRUB_SERIAL_COMMAND=".
Definition rewrite_grub_cmdline_line (line : string) : string :=
  let trimmed := trim_start line in
  let key := if starts_with CMDLINE_DEFAULT trimmed then Some CMDLINE_DEFAULT
             else if starts_with CMDLINE trimmed then Some CMDLINE else None in
  match key with
  | None => line
  | Some key =>
      let indent := indent_of line trimmed in
      let rest := trim (str_drop (String.length key) trimmed) in
      let '(quote, inner) := split_quotes rest in
      if has_serial inner then line
      else
        let inner := append_args inner in
        match quote with
        | Some q => indent +:+ key +:+ quoted_with q inner
        | None => indent +:+ key +:+ dquote +:+ inner +:+ dquote
        end
  end.
Definition starts_trimmed (p l : string) : bool := starts_with p (trim_start l).
Definition terminal_line (ln : string) : string :=
  let t := trim_start ln in
  if contains "serial" t then ln else indent_of ln t +:+ TERMINAL +:+ dquote +:+ "serial console" +:+ dquote.
(** the first line that sets the terminal is rewritten, or one is added. *)
Fixpoint with_terminal (ls : list string) : list string :=
  match ls with
  | [] => [TERMINAL +:+ dquote +:+ "serial console" +:+ dquote]
  | l :: ls => if starts_trimmed TERMINAL l then terminal_line l :: ls else l :: with_terminal ls
  end.
Definition grub_default_lines (ls : list string) : list string :=
  let ls := map rewrite_grub_cmdline_line ls in
  let ls := if existsb (fun l => starts_trimmed CMDLINE l || starts_trimmed CMDLINE_DEFAULT l) ls then ls
            else ls ++ [CMDLINE +:+ dquote +:+ SERIAL_ARGS +:+ dquote] in
  let ls := with_terminal ls in
  if existsb (starts_trimmed SERIAL_COMMAND) ls then ls
  else ls ++ [SERIAL_COMMAND +:+ dquote +:+ "serial --speed=115200 --unit=0 --word=8 --parity=no --stop=1" +:+ dquote].
Definition inject_grub_default (text : string) : string :=
  join newline_str (grub_default_lines (lines text)) +:+ newline_str.

(** ** Boot loaders *)
Definition FILE_MARKERS : list (string * string) :=
  [("/boot/grub2/grub.cfg", "grub2"); ("/boot/grub/grub.cfg", "grub2"); ("/etc/default/grub", "grub2");
   ("/boot/grub/menu.lst", "grub-legacy"); ("/boot/loader/loader.conf", "systemd-boot");
   ("/boot/syslinux/syslinux.cfg", "syslinux"); ("/syslinux.cfg", "syslinux");
   ("/boot/extlinux/extlinux.conf", "extlinux"); ("/etc/zipl.conf", "zipl")].
Definition DIR_MARKERS : list (string * string) := [("/boot/loader/entries", "bls")].
Definition BIN_MARKERS : list (string * string) :=
  [("/usr/sbin/grub2-mkconfig", "grub2"); ("/usr/bin/grub2-mkconfig", "grub2");
   ("/usr/sbin/grub-mkconfig", "grub2"); ("/usr/bin/grub-mkconfig", "grub2");
   ("/usr/sbin/update-grub", "grub2"); ("/usr/bin/update-grub", "grub2");
   ("/usr/bin/bootctl", "systemd-boot"); ("/usr/sbin/zipl", "zipl"); ("/usr/bin/zipl", "zipl");
   ("/usr/sbin/extlinux", "extlinux"); ("/usr/bin/extlinux", "extlinux");
   ("/usr/sbin/syslinux", "syslinux"); ("/usr/bin/syslinux", "syslinux")].
Definition GRUBBY_PATHS : list string := ["/usr/sbin/grubby"; "/usr/bin/grubby"; "/sbin/grubby"].
Definition GRUB_CFG : list string := ["/boot/grub2/grub.cfg"; "/boot/grub/grub.cfg"].

Definition note_marker (present : list string) (names : list string) (m : string * string) : list string :=
  if existsb (String.eqb m.1) present && negb (existsb (String.eqb m.2) names) then names ++ [m.2] else names.
Definition classify_bootloaders (files dirs : list string) : list string :=
  foldl (note_marker dirs) (foldl (note_marker files) [] (FILE_MARKERS ++ BIN_MARKERS)) DIR_MARKERS.

(** [Result] as an alternative and a default. *)
Definition gor {A} (m m' : gact A) : gact A := fun t =>
  match m t with (t, Err _) => m' t | r => r end.
Definition gignore {A} (m : gact A) : gact () := fun t =>
  match m t with (t, Panic) => (t, Panic) | (t, _) => (t, Ok ()) end.
Definition gdefault {A} (d : A) (m : gact A) : gact A := fun t =>
  match m t with (t, Err _) => (t, Ok d) | r => r end.
Definition gfail {A} (msg : string) : gact A := fun t => (t, Err (GuestCommandFailed msg)).
(** a computation that cannot fail but may panic. *)
Definition glift {A} (m : outcome Empty_set A) : gact A := fun t =>
  (t, match m with Ok a => Ok a | Err e => match e with end | Panic => Panic end).
Fixpoint gsum {A} (f : A → gact nat) (l : list A) : gact nat :=
  match l with
  | [] => mret 0
  | x :: l => n ← f x; m ← gsum f l; mret (n + m)
  end.
Fixpoint gfilter {A} (f : A → gact bool) (l : list A) : gact (list A) :=
  match l with
  | [] => mret []
  | x :: l => b ← f x; rest ← gfilter f l; mret (if b : bool then x :: rest else rest)
  end.
Fixpoint gany {A} (f : A → gact bool) (l : list A) : gact bool :=
  match l with
  | [] => mret false
  | x :: l => b ← f x; if b : bool then mret true else gany f l
  end.

Section serial.
Context `{FileCrates} `{GuestIo} `{GuestChroot} (g : Guestfs).

Definition g_command (args : list string) : gact () :=
  gask (fun _ => ensure_ready g) ;;
  gask (fun _ => if bool_decide (args = []) then Err (GuestInvalidFormat "No command provided") else Ok ()) ;;
  gask (fun _ => find_root_mountpoint g) ;;
  gtry (GuestCommandFailed "Command failed") (chroot args).
Definition file_there (path : string) : gact bool := gdefault false (g_is_file g path).

Definition detect_bootloaders : gact (list string) :=
  files ← gfilter (fun m => file_there m.1) (FILE_MARKERS ++ BIN_MARKERS);
  dirs ← gfilter (fun m => gdefault false (g_is_dir g m.1)) DIR_MARKERS;
  mret (classify_bootloaders (map fst files) (map fst dirs)).

Definition patch_with (rewrite : string → outcome Empty_set string) (path : string) : gact nat :=
  there ← file_there path;
  if negb there then mret 0
  else
    old ← gdefault None (s ← g_cat g path; mret (Some s));
    match old with
    | None => mret 0
    | Some old =>
        new ← glift (rewrite old);
        if String.eqb new old then mret 0
        else g_write g path new ;; mret 1
    end.
Definition patch (rewrite : string → string) : string → gact nat := patch_with (fun s => Ok (rewrite s)).

Definition patch_efi_grub : gact nat :=
  there ← gdefault false (g_is_dir g "/boot/efi/EFI");
  if negb there then mret 0
  else
    vendors ← gdefault [] (g_ls g "/boot/efi/EFI");
    gsum (fun v => patch inject_grub_cfg ("/boot/efi/EFI/" +:+ v +:+ "/grub.cfg")) vendors.
Definition patch_bls_entries : gact nat :=
  there ← gdefault false (g_is_dir g "/boot/loader/entries");
  if negb there then mret 0
  else
    entries ← gdefault [] (g_ls g "/boot/loader/entries");
    gsum (fun name => if ends_with ".conf" name then patch inject_bls ("/boot/loader/entries/" +:+ name) else mret 0)
      entries.

(** the first tool of the list that is a file is run, whatever comes of it. *)
Definition mkconfig_tools : list (string * option string) :=
  [("/usr/sbin/grub2-mkconfig", Some "/boot/grub2/grub.cfg"); ("/usr/bin/grub2-mkconfig", Some "/boot/grub2/grub.cfg");
   ("/usr/sbin/grub-mkconfig", Some "/boot/grub/grub.cfg"); ("/usr/bin/grub-mkconfig", Some "/boot/grub/grub.cfg");
   ("/usr/sbin/update-grub", None); ("/usr/bin/update-grub", None)].
Fixpoint try_tools (tools : list (string * option string)) : gact () :=
  match tools with
  | [] => mret ()
  | (bin, out) :: tools =>
      there ← file_there bin;
      if there : bool then
        gignore (g_command (match out with Some cfg => [bin; "-o"; cfg] | None => [bin] end))
      else try_tools tools
  end.
Definition try_grub_mkconfig : gact () := try_tools mkconfig_tools.

Definition apply_bootloader (name : string) : gact nat :=
  if String.eqb name "grub2" then
    a ← patch inject_grub_default "/etc/default/grub";
    b ← gsum (patch inject_grub_cfg) GRUB_CFG;
    c ← patch_efi_grub;
    try_grub_mkconfig ;;
    mret (a + b + c)
  else if String.eqb name "grub-legacy" then patch inject_menu_lst "/boot/grub/menu.lst"
  else if String.eqb name "systemd-boot" || String.eqb name "bls" then
    a ← patch inject_plain_cmdline "/etc/kernel/cmdline";
    b ← patch_bls_entries;
    mret (a + b)
  else if String.eqb name "syslinux" then
    a ← patch_with inject_syslinux "/boot/syslinux/syslinux.cfg";
    b ← patch_with inject_syslinux "/syslinux.cfg";
    mret (a + b)
  else if String.eqb name "extlinux" then patch_with inject_syslinux "/boot/extlinux/extlinux.conf"
  else if String.eqb name "zipl" then patch inject_zipl "/etc/zipl.conf"
  else mret 0.

Definition guest_has_grubby : gact bool :=
  gany (fun p => b ← file_there p; if b : bool then mret true else gdefault false (g_exists g p)) GRUBBY_PATHS.

(** the files of every boot loader found. *)
Definition write_bootloaders : gact bool :=
  names ← detect_bootloaders;
  match names with
  | [] => mret true
  | names => gsum apply_bootloader names ;; mret true
  end.
Definition apply_serial_console : gact bool :=
  has ← guest_has_grubby;
  set ← (if has : bool
         then gdefault false (g_command ["grubby"; "--update-kernel=ALL"; "--args=console=ttyS0,115200 console=tty0"] ;;
                              mret true)
         else mret false);
  if set : bool then mret true else write_bootloaders.
End serial.
