(* ===== verification/SerialProps.v ===== *)
(** * What the serial console repair writes

    On a text of ASCII characters without carriage returns, every rewriting of a boot
    loader's file keeps the lines it is not about, leaves each kernel line with the console
    argument, and does nothing when it is run again.  The exceptions are examples: the slice
    of [inject_syslinux] panics on a line whose seventh byte is inside a character, and a
    quoted value with a comment behind it is quoted as a whole. *)
From stdpp Require Import base gmap strings list.
From Stdlib Require Import ZArith Lia Ascii.
From S2P Require Import Prelude RustStr Passport Words FileOps GuestFs GuestFsProps Baseline Serial.

(** ** The lines of a rewritten text *)
Lemma lines_of_snoc ps p : lines_of (ps ++ [p]) = map strip_cr ps ++ (if is_empty p then [] else [p]).
Proof.
  induction ps as [|q ps IH]; [done|]. cbn [app lines_of map]. rewrite IH.
  destruct (ps ++ [p]) eqn:E; [by destruct ps|done].
Qed.
Lemma split_char_snoc c s : s ≠ "" →
  ∃ ps p, split_char c s = ps ++ [p] ∧ ends_with_char c s = is_empty p ∧ (p = "" → ps ≠ []).
Proof.
  induction s as [|d s IH]; [done|]. intros _. destruct s as [|e s].
  - cbn. destruct (Ascii.eqb c d) eqn:E; [by exists [""], ""|by exists [], (String d "")].
  - destruct (IH ltac:(done)) as (ps & p & Hs & He & Hp). cbn [split_char ends_with_char].
    cbn [split_char] in Hs. rewrite Hs. destruct (Ascii.eqb c d) eqn:E.
    + exists ("" :: ps), p. by rewrite <-He.
    + destruct ps as [|q ps]; cbn [app].
      * exists [], (String d p). split_and!; [done| |done]. cbn [ends_with_char] in He. rewrite He.
        destruct (decide (p = "")) as [->|Hne]; [by destruct (Hp eq_refl)|by destruct p].
      * exists (String d q :: ps), p. by split_and!.
Qed.
(** the lines of a text that is not empty: the last one is not empty if no line end closes it. *)
Lemma lines_shape t : t ≠ "" →
  lines t ≠ [] ∧
  (ends_with_char newline_char t = false → ∃ ls x, lines t = ls ++ [x] ∧ x ≠ "").
Proof.
  intros Ht. unfold lines. fold newline_char.
  destruct (split_char_snoc newline_char t Ht) as (ps & p & -> & -> & Hp). rewrite lines_of_snoc.
  destruct p as [|d p]; cbn [is_empty].
  - split; [|done]. rewrite app_nil_r. intros E. destruct ps; [by apply Hp|done].
  - split; [by destruct (map strip_cr ps)|]. intros _. by eexists _, _.
Qed.

Lemma join_closed ls : ls ≠ [] → join newline_str ls +:+ newline_str = join "" (ended <$> ls).
Proof.
  induction ls as [|l ls IH]; [done|]. intros _. destruct ls as [|l' ls]; [done|].
  rewrite join_ended, <-IH by done. cbn [join]. rewrite !text_app_assoc. done.
Qed.
Lemma lines_closed ls : ls ≠ [] → Forall plain_line ls → lines (join newline_str ls +:+ newline_str) = ls.
Proof. intros Hne Hls. by rewrite join_closed, lines_join. Qed.
Lemma lines_open ls x : Forall plain_line (ls ++ [x]) → x ≠ "" → lines (join newline_str (ls ++ [x])) = ls ++ [x].
Proof.
  intros Hls Hx. unfold lines. fold newline_char. unfold newline_str. fold newline_char.
  rewrite split_char_join; [|by destruct ls|].
  - rewrite lines_of_snoc. destruct x; [done|]. cbn [is_empty]. f_equal.
    apply Forall_app in Hls as [Hls _]. induction Hls as [|l ls Hl Hls IH]; [done|].
    cbn [map]. by rewrite strip_cr_plain, IH.
  - eapply Forall_impl; [exact Hls|]. apply plain_without.
Qed.
Lemma text_app_ne s t : t ≠ "" → s +:+ t ≠ "".
Proof. by destruct s. Qed.
Lemma ends_char_app c s t : t ≠ "" → ends_with_char c (s +:+ t) = ends_with_char c t.
Proof.
  intros Ht. induction s as [|d s IH]; [done|]. change (String d s +:+ t) with (String d (s +:+ t)).
  cbn [ends_with_char]. destruct (s +:+ t) eqn:E; [|done]. by destruct s, t.
Qed.
Lemma ends_plain x : plain_line x → ends_with_char newline_char x = false.
Proof.
  induction x as [|c x IH]; [done|]. intros [[Hc _]%line_char_spec Hx]%text_forall_cons.
  cbn [ends_with_char]. destruct x; [done|]. by apply IH.
Qed.
Lemma join_snoc_line ls x : ∃ s, join newline_str (ls ++ [x]) = s +:+ x.
Proof.
  induction ls as [|l ls [s IH]]; [by exists ""|]. cbn [app join].
  destruct (ls ++ [x]) eqn:E; [by destruct ls|]. exists (l +:+ newline_str +:+ s). rewrite IH.
  by rewrite !text_app_assoc.
Qed.

Section rewriting.
Context (f : string → string).
Hypothesis f_plain : ∀ l, plain_line l → ascii_text l → plain_line (f l).
Hypothesis f_keeps : ∀ l, l ≠ "" → f l ≠ "".

Lemma map_plain ls : Forall (fun l => plain_line l ∧ ascii_text l) ls → Forall plain_line (map f ls).
Proof. intros Hl. apply Forall_map. eapply Forall_impl; [exact Hl|]. intros l []. by apply f_plain. Qed.

Lemma rewrite_lines_shape t : unix_text t → t ≠ "" →
  rewrite_lines f t ≠ "" ∧ lines (rewrite_lines f t) = map f (lines t) ∧
  ends_with_char newline_char (rewrite_lines f t) = ends_with_char newline_char t.
Proof.
  intros Hu Ht. destruct (lines_shape t Ht) as [Hne Hopen]. unfold rewrite_lines. fold newline_char.
  assert (is_empty t = false) as -> by (by destruct t).
  pose proof (map_plain _ (unix_lines t Hu)) as Hp.
  destruct (ends_with_char newline_char t) eqn:E.
  - split_and!.
    + by apply text_app_ne.
    + apply lines_closed; [by destruct (lines t)|done].
    + by apply ends_char_app.
  - destruct (Hopen eq_refl) as (ls & x & El & Hx). rewrite El, map_app in *. cbn [map] in *.
    destruct (join_snoc_line (map f ls) (f x)) as [s Es]. split_and!.
    + rewrite Es. by apply text_app_ne, f_keeps.
    + apply lines_open; [done|by apply f_keeps].
    + rewrite Es, ends_char_app by (by apply f_keeps). apply ends_plain.
      apply Forall_app in Hp as [_ Hp]. by inversion Hp.
Qed.
Lemma rewrite_lines_lines t : unix_text t → lines (rewrite_lines f t) = map f (lines t).
Proof. intros Hu. destruct (decide (t = "")) as [->|Ht]; [done|]. by apply rewrite_lines_shape. Qed.

Lemma rewrite_lines_again t : unix_text t →
  (∀ l, plain_line l → ascii_text l → f (f l) = f l) →
  rewrite_lines f (rewrite_lines f t) = rewrite_lines f t.
Proof.
  intros Hu Hi. destruct (decide (t = "")) as [->|Ht]; [done|].
  destruct (rewrite_lines_shape t Hu Ht) as (Hne & Hl & He).
  unfold rewrite_lines at 1. fold newline_char. rewrite Hl, He.
  assert (is_empty (rewrite_lines f t) = false) as -> by (by destruct (rewrite_lines f t)).
  unfold rewrite_lines at 1. fold newline_char. assert (is_empty t = false) as -> by (by destruct t).
  assert (map f (map f (lines t)) = map f (lines t)) as ->; [|done].
  rewrite map_map. apply map_ext_Forall. eapply Forall_impl; [by apply unix_lines|]. intros l []. by apply Hi.
Qed.
End rewriting.

(** ** Indentation *)
Definition white_text (s : string) : Prop := str_forall is_white s = true.
Lemma trim_fuel_indent n : ∀ s, ascii_text s → String.length s ≤ n →
  ∃ i, s = i +:+ trim_start_fuel n s ∧ white_text i ∧
    (trim_start_fuel n s = "" ∨ ∃ c u, trim_start_fuel n s = String c u ∧ word_char c = true).
Proof.
  induction n as [|n IH]; intros [|c s] Hs Hn; cbn in Hn; try lia; try by exists ""; auto.
  pose proof Hs as [Hc Ht]%text_forall_cons. cbn [trim_start_fuel]. rewrite find_white by done.
  destruct (is_white c) eqn:E.
  - rewrite drop_one. destruct (IH s Ht ltac:(lia)) as (i & Hi & Hw & Hr). exists (String c i).
    split_and!; [by rewrite Hi at 1|by apply text_forall_cons|done].
  - exists "". split_and!; [done|done|]. right. exists c, s. split; [done|]. by apply word_char_spec.
Qed.
Lemma trim_start_indent s : ascii_text s →
  ∃ i, s = i +:+ trim_start s ∧ white_text i ∧
    (trim_start s = "" ∨ ∃ c u, trim_start s = String c u ∧ word_char c = true).
Proof. intros Hs. by apply trim_fuel_indent. Qed.
Lemma trim_start_white i c u : white_text i → word_char c = true → trim_start (i +:+ String c u) = String c u.
Proof.
  intros Hi Hc. unfold trim_start. rewrite text_length_app.
  induction i as [|d i IH].
  - cbn [Nat.add String.length]. change ("" +:+ ?x) with x. cbn [trim_start_fuel]. by rewrite find_white_word.
  - apply text_forall_cons in Hi as [Hd Hi]. change (String d i +:+ ?x) with (String d (i +:+ x)).
    cbn [String.length Nat.add trim_start_fuel]. rewrite find_white_white by done. rewrite drop_one. by apply IH.
Qed.
(** text behind a line that is not blank. *)
Lemma trim_start_tail l x : ascii_text l → trim_start l ≠ "" → trim_start (l +:+ x) = trim_start l +:+ x.
Proof.
  intros Hl Hne. destruct (trim_start_indent l Hl) as (i & Ei & Hi & [?|(c & u & Et & Hc)]); [done|].
  rewrite Ei at 1. rewrite Et, text_app_assoc. by apply trim_start_white.
Qed.
Lemma substring_head s t : String.substring 0 (String.length s) (s +:+ t) = s.
Proof. induction s as [|c s IH]; [by destruct t|]. exact (f_equal (String c) IH). Qed.
Lemma indent_of_app i t : indent_of (i +:+ t) t = i.
Proof.
  unfold indent_of. rewrite text_length_app, Nat.add_sub. apply substring_head.
Qed.

(** ** Kernel lines *)
Lemma args_plain : plain_line SERIAL_ARGS.
Proof. done. Qed.
Lemma has_serial_args a b : has_serial (a +:+ SERIAL_ARGS +:+ b) = true.
Proof.
  apply contains_spec. exists a, (",115200 console=tty0" +:+ b). done.
Qed.
Lemma starts_with_longer p t x : starts_with p t = true → starts_with p (t +:+ x) = true.
Proof. rewrite !starts_with_spec. intros [u ->]. exists (u +:+ x). by rewrite text_app_assoc. Qed.

Section kernel_lines.
Context (ps : list string).
Hypothesis ps_named : Forall (fun p => p ≠ "") ps.
Notation kernel t := (existsb (fun p => starts_with p t) ps).

Lemma kernel_nonempty t : kernel t = true → t ≠ "".
Proof.
  intros (p & Hp & Hs)%existsb_exists ->. rewrite Forall_forall in ps_named.
  apply (ps_named p); [by apply list_elem_of_In|]. apply starts_with_spec in Hs as [u Hu]. by destruct p.
Qed.
Lemma append_if_prefix_cases l : ascii_text l →
  kernel (trim_start (append_if_prefix ps l)) = kernel (trim_start l) ∧
  (kernel (trim_start l) = true → has_serial (trim_start (append_if_prefix ps l)) = true) ∧
  (kernel (trim_start l) = false → append_if_prefix ps l = l).
Proof.
  intros Hl. unfold append_if_prefix. destruct (kernel (trim_start l)) eqn:E; cbn [andb].
  - destruct (has_serial (trim_start l)) eqn:Es; cbn [negb]; [by rewrite E|].
    rewrite trim_start_tail by (done || by apply kernel_nonempty). split_and!; [|intros _|done].
    + apply existsb_exists in E as (p & Hp & Hs). apply existsb_exists. exists p. split; [done|].
      by apply starts_with_longer.
    + pose proof (has_serial_args (trim_start l +:+ " ") "") as H. by rewrite text_app_assoc in H.
  - by rewrite E.
Qed.
Lemma append_if_prefix_again l : ascii_text l → append_if_prefix ps (append_if_prefix ps l) = append_if_prefix ps l.
Proof.
  intros Hl. destruct (append_if_prefix_cases l Hl) as (Hk & Hs & Hn). unfold append_if_prefix at 1.
  destruct (kernel (trim_start l)) eqn:E; rewrite Hk; cbn [andb]; [|done]. by rewrite Hs.
Qed.
Lemma append_if_prefix_plain l : plain_line l → plain_line (append_if_prefix ps l).
Proof. intros Hl. unfold append_if_prefix. destruct (_ && _); [|done]. by apply text_forall_app. Qed.
Lemma append_if_prefix_keeps l : l ≠ "" → append_if_prefix ps l ≠ "".
Proof. intros Hl. unfold append_if_prefix. destruct (_ && _); [|done]. by destruct l. Qed.

(** the rewriting of a file of kernel lines. *)
Lemma kernel_file t : unix_text t →
  let out := rewrite_lines (append_if_prefix ps) t in
  lines out = map (append_if_prefix ps) (lines t) ∧
  Forall (fun l => kernel (trim_start l) = true → has_serial (trim_start l) = true) (lines out) ∧
  rewrite_lines (append_if_prefix ps) out = out.
Proof.
  intros Hu out. pose proof append_if_prefix_plain. pose proof append_if_prefix_keeps.
  assert (lines out = map (append_if_prefix ps) (lines t)) as El by (apply rewrite_lines_lines; naive_solver).
  split_and!; [done| |apply rewrite_lines_again; [naive_solver|done|done|intros; by apply append_if_prefix_again]].
  rewrite El. apply Forall_map. eapply Forall_impl; [by apply unix_lines|]. intros l [_ Ha]. cbn.
  destruct (append_if_prefix_cases l Ha) as (-> & Hs & _). done.
Qed.
End kernel_lines.

(** the files of [grub], boot loader entries and [menu.lst]: their lines are kept in order,
    those that are not kernel lines unchanged; every kernel line has the console argument;
    and a second run changes nothing. *)
Theorem kernel_files_patched t (patcher : (string → string) * list string) :
  patcher ∈ [(inject_bls, ["options "]); (inject_grub_cfg, ["linux "; "linux16 "; "linuxefi "]);
             (inject_menu_lst, ["kernel "; "append "])] →
  unix_text t →
  let out := patcher.1 t in
  let is_kernel l := existsb (fun p => starts_with p (trim_start l)) patcher.2 in
  length (lines out) = length (lines t) ∧
  (∀ i l, lines t !! i = Some l → is_kernel l = false → lines out !! i = Some l) ∧
  (∀ i l, lines out !! i = Some l → is_kernel l = true → has_serial l = true) ∧
  patcher.1 out = out.
Proof.
  intros Hin Hu out is_kernel.
  assert (∃ ps, patcher = (rewrite_lines (append_if_prefix ps), ps) ∧ Forall (fun p => p ≠ "") ps) as (ps & -> & Hps).
  { rewrite !elem_of_cons in Hin. destruct Hin as [->|[->|[->|Hin]]]; [..|by apply not_elem_of_nil in Hin];
      (eexists; split; [reflexivity|]; by repeat constructor). }
  cbn [fst snd] in *. destruct (kernel_file ps Hps t Hu) as (El & Hs & Hi). fold out in El, Hs, Hi.
  pose proof (unix_lines t Hu) as Hall. split_and!; [by rewrite El, length_map| | |done].
  - intros i l Hl Hk. rewrite El, list_lookup_fmap, Hl. cbn. f_equal.
    rewrite Forall_lookup in Hall. destruct (Hall i l Hl) as [_ Ha].
    by apply append_if_prefix_cases.
  - intros i l Hl Hk. rewrite Forall_lookup in Hs. specialize (Hs i l Hl Hk).
    assert (∃ a, l = a +:+ trim_start l) as [a Ea].
    { rewrite El, list_lookup_fmap in Hl. destruct (lines t !! i) as [l0|] eqn:E0; [|done].
      injection Hl as <-. rewrite Forall_lookup in Hall. destruct (Hall i l0 E0) as [_ Ha].
      destruct (trim_start_indent (append_if_prefix ps l0)) as (a & Ea & _); [|by exists a].
      unfold append_if_prefix. destruct (_ && _); [|done]. by apply text_forall_app. }
    unfold has_serial in *. apply contains_spec in Hs as (x & y & E). apply contains_spec.
    exists (a +:+ x), y. rewrite Ea, E. by rewrite text_app_assoc.
Qed.

(** ** Parts of a text *)
Definition part_of (a s : string) : Prop := ∃ x y, s = x +:+ a +:+ y.
Lemma part_refl s : part_of s s.
Proof. exists "", "". by rewrite text_app_nil. Qed.
Lemma part_trans a b s : part_of a b → part_of b s → part_of a s.
Proof. intros (x & y & ->) (x' & y' & ->). exists (x' +:+ x), (y +:+ y'). by rewrite !text_app_assoc. Qed.
Lemma part_forall q a s : part_of a s → str_forall q s = true → str_forall q a = true.
Proof. intros (x & y & ->). by rewrite !text_forall_app; intros (_ & ? & _). Qed.
Lemma part_contains p a s : part_of a s → contains p a = true → contains p s = true.
Proof. intros Ha Hp%contains_spec. apply contains_spec. by eapply part_trans. Qed.
Lemma part_tail a t : part_of t (a +:+ t).
Proof. exists a, "". by rewrite text_app_nil. Qed.
Lemma part_head a t : part_of a (a +:+ t).
Proof. by exists "", t. Qed.
Lemma str_drop_part n s : part_of (str_drop n s) s.
Proof.
  revert n. induction s as [|c s IH]; intros [|n]; try apply part_refl.
  cbn [str_drop]. eapply part_trans; [apply IH|]. apply (part_tail (String c "")).
Qed.
Lemma trim_end_part s : part_of (trim_end s) s.
Proof.
  assert (∃ y, s = trim_end s +:+ y) as [y Hy]; [|rewrite Hy at 2; apply part_head].
  induction s as [|c s [y IH]]; [by exists ""|]. cbn [trim_end]. destruct (trim_is_empty _); [by exists (String c s)|].
  exists y. by rewrite IH at 1.
Qed.
Lemma trim_start_part s : part_of (trim_start s) s.
Proof.
  unfold trim_start. generalize (String.length s) as n. intros n. revert s.
  induction n as [|n IH]; intros s; [apply part_refl|]. cbn [trim_start_fuel].
  destruct (List.find _ _); [|apply part_refl]. eapply part_trans; [apply IH|apply str_drop_part].
Qed.
Lemma trim_part s : part_of (trim s) s.
Proof. eapply part_trans; [apply trim_end_part|apply trim_start_part]. Qed.
Lemma substring_part m s : part_of (String.substring 0 m s) s.
Proof.
  assert (∃ y, s = String.substring 0 m s +:+ y) as [y Hy]; [|rewrite Hy at 2; apply part_head].
  revert m. induction s as [|c s IH]; intros [|m]; try by eexists. destruct (IH m) as [y Hy]. exists y.
  cbn. by rewrite Hy at 1.
Qed.
Lemma split_quotes_part v : part_of (split_quotes v).2 v.
Proof.
  destruct v as [|q r]; [apply part_refl|]. cbn [split_quotes]. destruct (_ && _); [|apply part_refl].
  eapply part_trans; [apply substring_part|]. apply (part_tail (String q "")).
Qed.

(** ** Quoted values *)
Definition is_quote (q : ascii) : Prop := q = ascii_of_byte 34 ∨ q = ascii_of_byte 39.
Lemma quote_char q : is_quote q → word_char q = true.
Proof. by intros [->| ->]. Qed.
Lemma split_quotes_quote v q i : split_quotes v = (Some q, i) → is_quote q.
Proof.
  destruct v as [|c r]; [done|]. cbn [split_quotes]. destruct (_ && _) eqn:E; [|done]. intros [= <- _].
  apply andb_true_iff in E as [[_ E]%andb_true_iff _]. apply orb_true_iff in E as [E|E];
    apply Ascii.eqb_eq in E; [by left|by right].
Qed.
Lemma quoted_value q s : is_quote q → ascii_text s →
  trim (quoted_with q s) = quoted_with q s ∧ split_quotes (quoted_with q s) = (Some q, s).
Proof.
  intros Hq Hs. pose proof (quote_char q Hq) as Hc. split.
  - unfold trim, quoted_with. change (String q s +:+ String q "") with ("" +:+ String q (s +:+ String q "")).
    rewrite trim_start_white by done. apply (trim_end_app_word (String q s)).
    + apply text_forall_cons. split; [|done]. by apply word_char_spec in Hc as [].
    + split; [done|]. by apply text_forall_cons.
  - unfold quoted_with. change (String q s +:+ ?x) with (String q (s +:+ x)). cbn [split_quotes String.length].
    rewrite text_length_app. cbn [String.length].
    assert (ends_with_char q (String q (s +:+ String q "")) = true) as ->.
    { change (String q (s +:+ String q "")) with (String q s +:+ String q ""). rewrite ends_char_app by done.
      apply Ascii.eqb_refl. }
    assert ((2 <=? S (String.length s + 1))%nat = true) as -> by (apply Nat.leb_le; lia).
    assert ((Ascii.eqb q (ascii_of_byte 34) || Ascii.eqb q (ascii_of_byte 39)) = true) as -> by (by destruct Hq as [->| ->]).
    cbn [andb]. by rewrite Nat.add_sub, substring_head.
Qed.
Lemma append_args_serial s : has_serial (append_args s) = true.
Proof.
  unfold append_args. destruct (is_empty _); [done|]. destruct (has_serial (trim s)) eqn:E; [done|].
  pose proof (has_serial_args (trim s +:+ " ") "") as H. by rewrite text_app_assoc in H.
Qed.
Lemma append_args_forall q s :
  str_forall q s = true → str_forall q (" " +:+ SERIAL_ARGS) = true → str_forall q (append_args s) = true.
Proof.
  intros Hs Ha. unfold append_args. destruct (is_empty _); [by apply text_forall_app in Ha as []|].
  pose proof (part_forall q _ _ (trim_part s) Hs) as Ht. destruct (has_serial _); [done|]. by apply text_forall_app.
Qed.

(** ** The command line of [grub] *)
Definition cmdline_key (t : string) : option string :=
  if starts_with CMDLINE_DEFAULT t then Some CMDLINE_DEFAULT else if starts_with CMDLINE t then Some CMDLINE else None.
Definition sets_cmdline (l : string) : bool := starts_trimmed CMDLINE l || starts_trimmed CMDLINE_DEFAULT l.
Lemma sets_cmdline_key l : sets_cmdline l = match cmdline_key (trim_start l) with Some _ => true | None => false end.
Proof.
  unfold sets_cmdline, starts_trimmed, cmdline_key. destruct (starts_with CMDLINE_DEFAULT _); [by rewrite orb_true_r|].
  by destruct (starts_with CMDLINE _).
Qed.
Definition set_value (l key : string) : string :=
  let rest := trim (str_drop (String.length key) (trim_start l)) in
  let q := default (ascii_of_byte 34) (split_quotes rest).1 in
  indent_of l (trim_start l) +:+ key +:+ quoted_with q (append_args (split_quotes rest).2).
(** a line is kept, or gets a quoted value. *)
Lemma rewrite_cmdline_cases l :
  (rewrite_grub_cmdline_line l = l ∧ (sets_cmdline l = true → has_serial l = true)) ∨
  ∃ key, cmdline_key (trim_start l) = Some key ∧ rewrite_grub_cmdline_line l = set_value l key.
Proof.
  rewrite sets_cmdline_key. unfold rewrite_grub_cmdline_line. fold (cmdline_key (trim_start l)).
  destruct (cmdline_key (trim_start l)) as [key|]; [|by left]. unfold set_value. cbv zeta.
  set (rest := trim _). pose proof (split_quotes_part rest) as Hp.
  destruct (split_quotes rest) as [q inner] eqn:E. cbn [fst snd] in *. destruct (has_serial inner) eqn:Es.
  - left. split; [done|]. intros _. eapply part_contains; [|exact Es].
    eapply part_trans; [exact Hp|]. eapply part_trans; [apply trim_part|].
    eapply part_trans; [apply str_drop_part|apply trim_start_part].
  - right. exists key. split; [done|]. fold rest. rewrite E. by destruct q.
Qed.
Lemma cmdline_key_cases t key : cmdline_key t = Some key → key = CMDLINE_DEFAULT ∨ key = CMDLINE.
Proof. unfold cmdline_key. destruct (starts_with CMDLINE_DEFAULT t); [naive_solver|]. destruct (starts_with _ t); naive_solver. Qed.
(** what a line with a new value is read as. *)
Lemma set_value_read l key : ascii_text l → cmdline_key (trim_start l) = Some key →
  ∃ q s, is_quote q ∧ ascii_text s ∧ has_serial s = true ∧ trim_start (set_value l key) = key +:+ quoted_with q s.
Proof.
  intros Hl Hk. unfold set_value. cbv zeta. set (rest := trim _). destruct (split_quotes rest) as [oq inner] eqn:E. cbn [fst snd].
  exists (default (ascii_of_byte 34) oq), (append_args inner). split_and!.
  - destruct oq; [by eapply split_quotes_quote|by left].
  - apply append_args_forall; [|done]. eapply (part_forall char_is_ascii _ l); [|done].
    pose proof (split_quotes_part rest) as Hp. rewrite E in Hp. eapply part_trans; [exact Hp|].
    eapply part_trans; [apply trim_part|]. eapply part_trans; [apply str_drop_part|apply trim_start_part].
  - apply append_args_serial.
  - destruct (trim_start_indent l Hl) as (i & Ei & Hi & _).
    assert (indent_of l (trim_start l) = i) as -> by (rewrite Ei at 1; apply indent_of_app).
    by destruct (cmdline_key_cases _ _ Hk) as [->| ->]; apply trim_start_white.
Qed.
Lemma rewrite_cmdline_again l : ascii_text l →
  rewrite_grub_cmdline_line (rewrite_grub_cmdline_line l) = rewrite_grub_cmdline_line l ∧
  sets_cmdline (rewrite_grub_cmdline_line l) = sets_cmdline l ∧
  (sets_cmdline l = true → has_serial (rewrite_grub_cmdline_line l) = true).
Proof.
  intros Hl. destruct (rewrite_cmdline_cases l) as [[E Hs]|(key & Hk & E)]; [by rewrite !E|].
  destruct (set_value_read l key Hl Hk) as (q & s & Hq & Hs & Hc & Et).
  destruct (quoted_value q s Hq Hs) as [Htr Hsp].
  assert (cmdline_key (trim_start (set_value l key)) = Some key) as Hk'.
  { rewrite Et. by destruct (cmdline_key_cases _ _ Hk) as [->| ->]. }
  rewrite E, !sets_cmdline_key, Hk, Hk'. split_and!; [|done|intros _].
  - unfold rewrite_grub_cmdline_line. fold (cmdline_key (trim_start (set_value l key))). rewrite Hk', Et.
    assert (str_drop (String.length key) (key +:+ quoted_with q s) = quoted_with q s) as ->
      by (by destruct (cmdline_key_cases _ _ Hk) as [->| ->]).
    by rewrite Htr, Hsp, Hc.
  - eapply part_contains; [apply trim_start_part|]. rewrite Et. eapply part_contains; [|exact Hc].
    exists (key +:+ String q ""), (String q ""). rewrite text_app_assoc. done.
Qed.

(** ** The terminal *)
Lemma terminal_not_cmdline l : starts_trimmed TERMINAL l = true → sets_cmdline l = false.
Proof. unfold sets_cmdline, starts_trimmed. intros [u ->]%starts_with_spec. done. Qed.
Lemma not_cmdline_kept l : sets_cmdline l = false → rewrite_grub_cmdline_line l = l.
Proof.
  rewrite sets_cmdline_key. unfold rewrite_grub_cmdline_line. fold (cmdline_key (trim_start l)).
  by destruct (cmdline_key (trim_start l)).
Qed.
Lemma terminal_line_read l : ascii_text l → starts_trimmed TERMINAL l = true →
  starts_trimmed TERMINAL (terminal_line l) = true ∧ contains "serial" (trim_start (terminal_line l)) = true.
Proof.
  intros Hl Ht. unfold terminal_line. destruct (contains "serial" (trim_start l)) eqn:E; [done|].
  destruct (trim_start_indent l Hl) as (i & Ei & Hi & _).
  assert (indent_of l (trim_start l) = i) as -> by (rewrite Ei at 1; apply indent_of_app).
  assert (trim_start (i +:+ TERMINAL +:+ dquote +:+ "serial console" +:+ dquote)
    = TERMINAL +:+ dquote +:+ "serial console" +:+ dquote) as Et by (by apply trim_start_white).
  unfold starts_trimmed. by rewrite Et.
Qed.
Definition terminal_set (ls : list string) : Prop := ∃ a l b, ls = a ++ l :: b ∧
  Forall (fun x => starts_trimmed TERMINAL x = false) a ∧
  starts_trimmed TERMINAL l = true ∧ contains "serial" (trim_start l) = true.
Lemma terminal_set_kept ls : terminal_set ls → with_terminal ls = ls.
Proof.
  intros (a & l & b & -> & Ha & Hl & Hs). induction Ha as [|x a Hx Ha IH]; cbn [app with_terminal].
  - rewrite Hl. unfold terminal_line. by rewrite Hs.
  - by rewrite Hx, IH.
Qed.
Lemma terminal_set_app ls more : terminal_set ls → terminal_set (ls ++ more).
Proof. intros (a & l & b & -> & H). exists a, l, (b ++ more). split; [by rewrite <-app_assoc|done]. Qed.
Lemma with_terminal_set ls : Forall ascii_text ls → terminal_set (with_terminal ls).
Proof.
  induction 1 as [|l ls Hl Hls IH]; cbn [with_terminal]; [by exists [], (TERMINAL +:+ dquote +:+ "serial console" +:+ dquote), []|].
  destruct (starts_trimmed TERMINAL l) eqn:E.
  - destruct (terminal_line_read l Hl E) as [H1 H2]. by exists [], (terminal_line l), ls.
  - destruct IH as (a & x & b & -> & Ha & Hx). exists (l :: a), x, b. split_and!; [done|by constructor|apply Hx..].
Qed.
(** what holds of every line before, of the line for the terminal, holds after. *)
Lemma with_terminal_forall (P : string → Prop) ls :
  Forall P ls → (∀ l, l ∈ ls → starts_trimmed TERMINAL l = true → P (terminal_line l)) →
  P (TERMINAL +:+ dquote +:+ "serial console" +:+ dquote) → Forall P (with_terminal ls).
Proof.
  intros Hls Ht H0. induction Hls as [|l ls Hl Hls IH]; cbn [with_terminal]; [by constructor|].
  destruct (starts_trimmed TERMINAL l) eqn:E; constructor; try done; [apply Ht; [by left|done]|].
  apply IH. intros x Hx. apply Ht. by right.
Qed.
Lemma with_terminal_cmdline ls : Forall ascii_text ls → existsb sets_cmdline (with_terminal ls) = existsb sets_cmdline ls.
Proof.
  induction 1 as [|l ls Hl Hls IH]; [done|]. cbn [with_terminal]. destruct (starts_trimmed TERMINAL l) eqn:E; cbn [existsb].
  - rewrite (terminal_not_cmdline l E). destruct (terminal_line_read l Hl E) as [H1 _].
    by rewrite (terminal_not_cmdline _ H1).
  - by rewrite IH.
Qed.
Lemma terminal_line_forall q l :
  str_forall q l = true → str_forall q (TERMINAL +:+ dquote +:+ "serial console" +:+ dquote) = true →
  str_forall q (terminal_line l) = true.
Proof.
  intros Hl Ht. unfold terminal_line. destruct (contains _ _); [done|]. apply text_forall_app. split; [|done].
  eapply part_forall; [apply substring_part|done].
Qed.
Lemma rewrite_cmdline_forall q l : ascii_text l →
  str_forall q l = true → str_forall q (" " +:+ SERIAL_ARGS) = true →
  str_forall q CMDLINE_DEFAULT = true → str_forall q CMDLINE = true →
  q (ascii_of_byte 34) = true → q (ascii_of_byte 39) = true →
  str_forall q (rewrite_grub_cmdline_line l) = true.
Proof.
  intros Ha Hl Hs Hd Hc Hq Hq'. destruct (rewrite_cmdline_cases l) as [[-> _]|(key & Hk & ->)]; [done|].
  unfold set_value. cbv zeta. set (rest := trim _). assert (part_of (split_quotes rest).2 l) as Hp.
  { eapply part_trans; [apply split_quotes_part|]. eapply part_trans; [apply trim_part|].
    eapply part_trans; [apply str_drop_part|apply trim_start_part]. }
  assert (q (default (ascii_of_byte 34) (split_quotes rest).1) = true) as Hqq.
  { destruct (split_quotes rest) as [[c|] i] eqn:E; [|done]. by destruct (split_quotes_quote _ _ _ E) as [->| ->]. }
  apply text_forall_app. split; [eapply part_forall; [apply substring_part|done]|].
  apply text_forall_app. split; [by destruct (cmdline_key_cases _ _ Hk) as [->| ->]|]. unfold quoted_with.
  apply text_forall_app. rewrite !text_forall_cons. split_and!; try done.
  apply append_args_forall; [|done]. by eapply part_forall.
Qed.

(** ** [/etc/default/grub] *)
Lemma Forall_rewrite_cmdline (q : ascii → bool) ls : Forall ascii_text ls → Forall (fun l => str_forall q l = true) ls →
  str_forall q (" " +:+ SERIAL_ARGS) = true → str_forall q CMDLINE_DEFAULT = true → str_forall q CMDLINE = true →
  q (ascii_of_byte 34) = true → q (ascii_of_byte 39) = true →
  Forall (fun l => str_forall q l = true) (map rewrite_grub_cmdline_line ls).
Proof.
  intros Ha Hl ? ? ? ? ?. apply Forall_map. rewrite Forall_forall in *. intros l Hin.
  apply rewrite_cmdline_forall; auto.
Qed.
(** the stages of [grub_default_lines]. *)
Definition with_cmdline (ls : list string) : list string :=
  if existsb sets_cmdline ls then ls else ls ++ [CMDLINE +:+ dquote +:+ SERIAL_ARGS +:+ dquote].
Definition with_serial_command (ls : list string) : list string :=
  if existsb (starts_trimmed SERIAL_COMMAND) ls then ls
  else ls ++ [SERIAL_COMMAND +:+ dquote +:+ "serial --speed=115200 --unit=0 --word=8 --parity=no --stop=1" +:+ dquote].
Lemma grub_default_stages ls :
  grub_default_lines ls = with_serial_command (with_terminal (with_cmdline (map rewrite_grub_cmdline_line ls))).
Proof. done. Qed.
Lemma with_cmdline_forall (P : string → Prop) ls :
  Forall P ls → P (CMDLINE +:+ dquote +:+ SERIAL_ARGS +:+ dquote) → Forall P (with_cmdline ls).
Proof. intros Hls H0. unfold with_cmdline. destruct (existsb _ _); [done|]. apply Forall_app. by repeat constructor. Qed.
Lemma with_cmdline_some ls : existsb sets_cmdline (with_cmdline ls) = true.
Proof. unfold with_cmdline. destruct (existsb sets_cmdline ls) eqn:E; [done|]. rewrite existsb_app. by apply orb_true_r. Qed.
Lemma with_serial_forall (P : string → Prop) ls :
  Forall P ls →
  P (SERIAL_COMMAND +:+ dquote +:+ "serial --speed=115200 --unit=0 --word=8 --parity=no --stop=1" +:+ dquote) →
  Forall P (with_serial_command ls).
Proof. intros Hls H0. unfold with_serial_command. destruct (existsb _ _); [done|]. apply Forall_app. by repeat constructor. Qed.
Lemma with_serial_some ls : existsb (starts_trimmed SERIAL_COMMAND) (with_serial_command ls) = true.
Proof. unfold with_serial_command. destruct (existsb _ ls) eqn:E; [done|]. rewrite existsb_app. by apply orb_true_r. Qed.

Lemma grub_default_chars (q : ascii → bool) ls :
  Forall ascii_text ls → Forall (fun l => str_forall q l = true) ls →
  (∀ c, word_char c = true ∨ c = " "%char → q c = true) →
  Forall (fun l => str_forall q l = true) (grub_default_lines ls).
Proof.
  intros Ha Hq Hw.
  assert (∀ s, str_forall (fun c => word_char c || Ascii.eqb c " "%char) s = true → str_forall q s = true) as Hs.
  { intros s. apply text_forall_impl. intros c [H|H%Ascii.eqb_eq]%orb_true_iff; apply Hw; [by left|by right]. }
  assert (Forall (fun l => str_forall q l = true) (with_cmdline (map rewrite_grub_cmdline_line ls))) as H.
  { apply with_cmdline_forall; [|by apply Hs]. apply Forall_rewrite_cmdline; try done; try (by apply Hs);
      apply Hw; by left. }
  rewrite grub_default_stages. apply with_serial_forall; [|by apply Hs].
  apply with_terminal_forall; [done| |by apply Hs]. intros l Hl _. rewrite Forall_forall in H.
  apply terminal_line_forall; [by apply H|by apply Hs].
Qed.
Lemma cmdline_lines_ascii ls : Forall ascii_text ls → Forall ascii_text (with_cmdline (map rewrite_grub_cmdline_line ls)).
Proof. intros Ha. apply with_cmdline_forall; [|done]. by apply (Forall_rewrite_cmdline char_is_ascii). Qed.
Lemma grub_default_fixed ls : Forall ascii_text ls →
  Forall (fun l => rewrite_grub_cmdline_line l = l) (grub_default_lines ls).
Proof.
  intros Ha. rewrite grub_default_stages. apply with_serial_forall; [|done].
  pose proof (cmdline_lines_ascii ls Ha) as Ha'.
  apply with_terminal_forall; [|intros l Hl Ht|done].
  - apply with_cmdline_forall; [|done]. apply Forall_map. eapply Forall_impl; [exact Ha|].
    intros l Hl. by apply rewrite_cmdline_again.
  - rewrite Forall_forall in Ha'. apply not_cmdline_kept, terminal_not_cmdline.
    by apply terminal_line_read; [apply Ha'|].
Qed.
Lemma grub_default_sets ls : Forall ascii_text ls →
  existsb sets_cmdline (grub_default_lines ls) = true ∧ terminal_set (grub_default_lines ls) ∧
  existsb (starts_trimmed SERIAL_COMMAND) (grub_default_lines ls) = true.
Proof.
  intros Ha%cmdline_lines_ascii. rewrite grub_default_stages.
  pose proof (with_cmdline_some (map rewrite_grub_cmdline_line ls)) as Hc.
  rewrite <-with_terminal_cmdline in Hc by done. pose proof (with_terminal_set _ Ha) as Ht.
  split_and!; [| |apply with_serial_some]; unfold with_serial_command; destruct (existsb (starts_trimmed _) _); try done.
  - by rewrite existsb_app, Hc.
  - by apply terminal_set_app.
Qed.
Lemma grub_default_again ls : Forall ascii_text ls → grub_default_lines (grub_default_lines ls) = grub_default_lines ls.
Proof.
  intros Ha. pose proof (grub_default_fixed ls Ha) as Hf. destruct (grub_default_sets ls Ha) as (Hc & Ht & Hs).
  rewrite (grub_default_stages (grub_default_lines ls)).
  assert (map rewrite_grub_cmdline_line (grub_default_lines ls) = grub_default_lines ls) as ->.
  { rewrite <-(map_id (grub_default_lines ls)) at 2. by apply map_ext_Forall. }
  unfold with_cmdline, with_serial_command. by rewrite Hc, terminal_set_kept, Hs.
Qed.

(** [/etc/default/grub] (ASCII, no carriage returns): the lines of the result set the
    command line, the terminal and the serial command; every command line in it has the
    console argument; a second run changes nothing. *)
Theorem grub_default_patched t :
  unix_text t →
  let out := inject_grub_default t in
  (∀ l, l ∈ lines out → sets_cmdline l = true → has_serial l = true) ∧
  existsb sets_cmdline (lines out) = true ∧
  terminal_set (lines out) ∧
  existsb (starts_trimmed SERIAL_COMMAND) (lines out) = true ∧
  inject_grub_default out = out.
Proof.
  intros Hu out. pose proof (unix_lines t Hu) as Hl.
  assert (Forall ascii_text (lines t)) as Ha by (eapply Forall_impl; [exact Hl|]; by intros ? []).
  assert (Forall plain_line (lines t)) as Hp by (eapply Forall_impl; [exact Hl|]; by intros ? []).
  assert (lines out = grub_default_lines (lines t)) as E.
  { apply lines_closed.
    - intros H0. destruct (grub_default_sets (lines t) Ha) as (H & _). by rewrite H0 in H.
    - apply (grub_default_chars line_char); [done..|]. by intros c [?%word_line_char| ->]. }
  destruct (grub_default_sets (lines t) Ha) as (Hc & Ht & Hs).
  rewrite E. split_and!; [|done..|unfold inject_grub_default at 1; by rewrite E, grub_default_again].
  intros l Hin Hset. pose proof (grub_default_fixed (lines t) Ha) as Hf. rewrite Forall_forall in Hf.
  pose proof (grub_default_chars char_is_ascii (lines t) Ha Ha ltac:(by intros c [[]%word_char_spec| ->])) as Hal.
  rewrite Forall_forall in Hal. rewrite <-(Hf l Hin). by apply rewrite_cmdline_again; [apply Hal|].
Qed.

(** ** The slice of [inject_syslinux] *)
Definition bad_slice (l : string) : bool :=
  (7 <=? String.length (trim_start l))%nat && negb (is_char_boundary 7 (trim_start l)).
Definition syslinux_rewrite (ln : string) : string :=
  let t := trim_start ln in
  if (7 <=? String.length t)%nat && String.eqb (to_ascii_lowercase (String.substring 0 7 t)) "append "
     && negb (has_serial t) then ln +:+ " " +:+ SERIAL_ARGS else ln.
Lemma syslinux_line_cases l : syslinux_line l = if bad_slice l then Panic else Ok (syslinux_rewrite l).
Proof.
  unfold syslinux_line, bad_slice, syslinux_rewrite. destruct (7 <=? _)%nat; cbn [andb]; [|done].
  destruct (is_char_boundary 7 _); [|done]. cbn [negb]. by destruct (String.eqb _ _).
Qed.
Lemma outcome_map_syslinux ls :
  outcome_map syslinux_line ls = if existsb bad_slice ls then Panic else Ok (map syslinux_rewrite ls).
Proof.
  induction ls as [|l ls IH]; [done|]. cbn [outcome_map existsb map]. rewrite syslinux_line_cases, IH.
  destruct (bad_slice l); [done|]. cbn [mbind outcome_bind orb]. by destruct (existsb bad_slice ls).
Qed.
Lemma inject_syslinux_cases t :
  inject_syslinux t = if existsb bad_slice (lines t) then Panic else Ok (rewrite_lines syslinux_rewrite t).
Proof.
  unfold inject_syslinux, rewrite_lines. destruct (decide (t = "")) as [->|Ht]; [done|].
  assert (is_empty t = false) as -> by (by destruct t). rewrite outcome_map_syslinux.
  by destruct (existsb bad_slice (lines t)).
Qed.
Lemma get_ascii n s c : ascii_text s → String.get n s = Some c → char_is_ascii c = true.
Proof.
  revert n. induction s as [|d s IH]; intros [|n]; try done; intros [Hd Hs]%text_forall_cons; [by intros [= <-]|].
  cbn. by apply IH.
Qed.
Lemma get_none n s : String.get n s = None → String.length s ≤ n.
Proof. revert n. induction s as [|d s IH]; intros [|n]; cbn; try done; try lia. intros H. apply IH in H. lia. Qed.
Lemma ascii_slices l : ascii_text l → bad_slice l = false.
Proof.
  intros Hl. unfold bad_slice. destruct (Nat.leb_spec 7 (String.length (trim_start l))) as [H7|]; [|done]. cbn [andb].
  apply negb_false_iff. unfold is_char_boundary. destruct (String.get 7 (trim_start l)) as [c|] eqn:E.
  - apply get_ascii in E; [|eapply part_forall; [apply trim_start_part|done]]. by destruct c as [[] [] [] [] [] [] [] []].
  - apply get_none in E. apply Nat.eqb_eq. lia.
Qed.
Lemma substring_tail n s x : n ≤ String.length s → String.substring 0 n (s +:+ x) = String.substring 0 n s.
Proof.
  revert n. induction s as [|c s IH]; intros n Hn; [destruct n; [by destruct x|cbn in Hn; lia]|].
  destruct n as [|n]; [done|]. change (String c s +:+ x) with (String c (s +:+ x)). cbn [String.substring].
  rewrite IH; [done|]. cbn in Hn. lia.
Qed.
Lemma syslinux_rewrite_again l : ascii_text l → syslinux_rewrite (syslinux_rewrite l) = syslinux_rewrite l.
Proof.
  intros Hl. unfold syslinux_rewrite at 2 3. set (t := trim_start l).
  destruct ((7 <=? String.length t)%nat && _ && negb (has_serial t)) eqn:E; [|unfold syslinux_rewrite; fold t; by rewrite E].
  apply andb_true_iff in E as [[H7%Nat.leb_le _]%andb_true_iff _]. unfold syslinux_rewrite.
  rewrite trim_start_tail; [|done|fold t; by destruct t; cbn in H7; [lia|]]. fold t.
  pose proof (has_serial_args (t +:+ " ") "") as H. rewrite text_app_assoc in H.
  change (has_serial (t +:+ " " +:+ SERIAL_ARGS) = true) in H. by rewrite H, andb_false_r.
Qed.

(** a [syslinux] or [extlinux] file: the rewriting panics exactly when a line of it, without
    its indentation, has a character across its seventh byte; on ASCII text it returns, the
    lines are kept but for the console argument, and a second run changes nothing. *)
Theorem syslinux_panics_exactly t :
  (inject_syslinux t = Panic ↔ ∃ l, l ∈ lines t ∧ bad_slice l = true) ∧
  (unix_text t → ∃ out, inject_syslinux t = Ok out ∧ lines out = map syslinux_rewrite (lines t) ∧
     inject_syslinux out = Ok out).
Proof.
  split.
  - rewrite inject_syslinux_cases. destruct (existsb bad_slice (lines t)) eqn:E.
    + apply existsb_exists in E as (l & Hl & Hb). split; [|done]. intros _. exists l.
      by rewrite list_elem_of_In.
    + split; [done|]. intros (l & Hl & Hb). exfalso. apply not_true_iff_false in E. apply E.
      apply existsb_exists. exists l. by rewrite <-list_elem_of_In.
  - intros Hu. set (out := rewrite_lines syslinux_rewrite t).
    assert (∀ q l, str_forall q l = true → str_forall q (" " +:+ SERIAL_ARGS) = true → str_forall q (syslinux_rewrite l) = true) as Hq.
    { intros q l Hl Ha. unfold syslinux_rewrite. destruct (_ && _); [by apply text_forall_app|done]. }
    assert (∀ l, l ≠ "" → syslinux_rewrite l ≠ "") as Hk.
    { intros l Hl. unfold syslinux_rewrite. destruct (_ && _); [by apply text_app_ne|done]. }
    assert (lines out = map syslinux_rewrite (lines t)) as El.
    { apply rewrite_lines_lines; [|done|done]. intros l Hl _. by apply (Hq line_char). }
    assert (∀ ls, Forall (fun l => plain_line l ∧ ascii_text l) ls → existsb bad_slice ls = false) as Hb.
    { induction 1 as [|l ls [_ Ha] _ IH]; [done|]. cbn. by rewrite ascii_slices, IH. }
    exists out. rewrite !inject_syslinux_cases, El, !Hb.
    + split_and!; [done..|]. f_equal. apply rewrite_lines_again; [|done|done|].
      * intros l Hl _. by apply (Hq line_char).
      * intros l _ Ha. by apply syslinux_rewrite_again.
    + apply Forall_map. eapply Forall_impl; [by apply unix_lines|]. intros l [Hp Ha].
      split; [by apply (Hq line_char)|by apply (Hq char_is_ascii)].
    + by apply unix_lines.
Qed.

(** ** Examples *)
Lemma kernel_files_patched_witness :
  inject_bls (inject_bls ("title x" +:+ newline_str +:+ "options root=/dev/vda1")) =
  inject_bls ("title x" +:+ newline_str +:+ "options root=/dev/vda1").
Proof.
  apply (kernel_files_patched ("title x" +:+ newline_str +:+ "options root=/dev/vda1") (inject_bls, ["options "]));
    [by left|reflexivity].
Defined.
Lemma grub_default_patched_witness :
  inject_grub_default (inject_grub_default "GRUB_TIMEOUT=5") = inject_grub_default "GRUB_TIMEOUT=5".
Proof. apply (grub_default_patched "GRUB_TIMEOUT=5"). reflexivity. Defined.
Lemma syslinux_panics_exactly_witness :
  ∃ out, inject_syslinux "APPEND quiet" = Ok out ∧ lines out = map syslinux_rewrite (lines "APPEND quiet") ∧
    inject_syslinux out = Ok out.
Proof. apply (proj2 (syslinux_panics_exactly "APPEND quiet")). reflexivity. Defined.

(** a comment behind the quoted value ends up inside the quotes, with the console argument. *)
Example comment_is_quoted :
  rewrite_grub_cmdline_line ("GRUB_CMDLINE_LINUX=" +:+ dquote +:+ "quiet" +:+ dquote +:+ " # local") =
  "GRUB_CMDLINE_LINUX=" +:+ dquote +:+ dquote +:+ "quiet" +:+ dquote +:+ " # local console=ttyS0,115200 console=tty0" +:+ dquote.
Proof. reflexivity. Qed.

#[local] Instance serial_host : FileCrates := {|
  b64_encode s := s; b64_decode s := Some s; file_sha256_hex s := s; cwd := []; written_at := None; umask_mode := 420
|}.
#[local] Instance serial_io : GuestIo := {| write_fault _ := None; is_utf8 _ := true |}.
#[local] Instance serial_chroot : GuestChroot := {| chroot _ t := (t, true) |}.
Definition boot_tree (name content : string) : tree :=
  list_to_map [([], plain_dir); (["mnt"], plain_dir); (["mnt"; name], File content 420 None)].
Definition e_acute : string := String (ascii_of_byte 195) (String (ascii_of_byte 169) "").
(** the comment [# abcdé] in the guest's [syslinux.cfg] ends the program. *)
Example accent_panics :
  (apply_serial_console mounted_guest (boot_tree "syslinux.cfg" ("# abcd" +:+ e_acute))).2 = Panic.
Proof. vm_compute. reflexivity. Qed.
(** a guest with none of the boot loaders: nothing is written and the repair is applied. *)
Example no_bootloader_applied :
  apply_serial_console mounted_guest (boot_tree "readme" "x") = (boot_tree "readme" "x", Ok true).
Proof. vm_compute. reflexivity. Qed.
