(* ===== verification/Offline.v ===== *)
(** * Applying a plan to an image

    [PlanApplicator] of [src/cli/plan/apply.rs] and the first-boot staging of
    [src/cli/plan/firstboot_stage.rs]: a plan is validated, the image is copied, its file
    systems are mounted, and the operations are carried out on the mounted guest
    ([GuestFs]) in the order of the sorter ([FixPlan]).  The edits of a file are those of
    the live executor ([LiveExec]).

    The images of the host are a map from paths to contents; [OfflineEnv] says how an image
    opens into a tree and what it is when the tree is unmounted, and which calls fail.
    Package staging, the hive library, drivers and [cp -a] are its functions too; programs
    run in the guest's root are those of [Serial].  A temporary file has the mode 0600.  A
    panic stops the run as it is: the image is what the tree was then.  Log output is left
    out. *)
From stdpp Require Import base gmap strings list.
From Stdlib Require Import ZArith Lia Ascii.
From S2P Require Import Prelude RustStr Kahn FixPlan Repair LiveExec Passport Baseline FileOps GuestFs Serial.

(** ** Numbers *)
(** [i32::from_str_radix(s, 8)]. *)
Fixpoint octal_value (s : string) (acc : Z) : option Z :=
  match s with
  | EmptyString => Some acc
  | String c s =>
      let d := (byte_of c - 48)%Z in
      if (0 <=? d)%Z && (d <=? 7)%Z then octal_value s (acc * 8 + d) else None
  end.
Definition parse_octal_i32 (s : string) : option Z :=
  let '(negative, digits) := match s with
                             | String "-"%char rest => (true, rest)
                             | String "+"%char rest => (false, rest)
                             | _ => (false, s)
                             end in
  if is_empty digits then None
  else
    n ← octal_value digits 0;
    let n := if negative : bool then (- n)%Z else n in
    if (- 2 ^ 31 <=? n)%Z && (n <? 2 ^ 31)%Z then Some n else None.

Definition to_ascii_uppercase (s : string) : string := str_map char_upper s.

(** what opening an image comes to: the message of a refusal, the error of [inspect_os],
    or the tree with the handle. *)
Inductive opened : Type :=
  | OpenRefused (message : string)
  | OpenError (error : string)
  | OpenedAt (t : tree) (g : Guestfs).

Class OfflineEnv `{Platform} := {
  cp_a : list string → list string → tree → tree * bool;
  stage_packages : PackageInstall → tree → tree * option bool;
  driver_inject_dir : string → DriverInject → tree → tree * bool;
  (** the hive library on a hive of the guest, and the paths inspection gives *)
  set_registry_value : string → list string → RegistryEdit → tree → tree * bool;
  software_hive : tree → option string;
  system_hive : tree → option string;
  windows_systemroot : tree → option string;
  os_detected : tree → bool;
  open_image : string → opened;
  close_image : string → tree → string;
  copy_image_works : string → string → bool;
  timestamp : string
}.

(** ** First-boot staging *)
Definition FIRSTBOOT_SCRIPT : string := "/usr/lib/guestkit/firstboot-live.sh".
Definition FIRSTBOOT_UNIT : string := "/etc/systemd/system/guestkit-firstboot-live.service".
Definition WANTS_DIR : string := "/etc/systemd/system/multi-user.target.wants".
Definition FIRSTBOOT_WANTS : string := "/etc/systemd/system/multi-user.target.wants/guestkit-firstboot-live.service".
Definition PENDING : string := "/var/lib/guestkit/firstboot-live.cmds".

Definition text_lines (ls : list string) : string := join "" (map (fun l => l +:+ newline_str) ls).
Definition firstboot_script : string := text_lines
  ["#!/bin/bash"; "set -euo pipefail"; "PENDING=" +:+ PENDING;
   "if [[ ! -f " +:+ dquote +:+ "$PENDING" +:+ dquote +:+ " ]]; then"; "  exit 0"; "fi";
   "while IFS= read -r line || [[ -n " +:+ dquote +:+ "$line" +:+ dquote +:+ " ]]; do";
   "  [[ -z " +:+ dquote +:+ "$line" +:+ dquote +:+ " || " +:+ dquote +:+ "$line" +:+ dquote +:+ " =~ ^# ]] && continue";
   "  eval " +:+ dquote +:+ "$line" +:+ dquote +:+ " || true";
   "done < " +:+ dquote +:+ "$PENDING" +:+ dquote;
   "rm -f " +:+ dquote +:+ "$PENDING" +:+ dquote;
   "systemctl disable guestkit-firstboot-live.service >/dev/null 2>&1 || true";
   "rm -f " +:+ FIRSTBOOT_WANTS].
Definition firstboot_unit : string := text_lines
  ["[Unit]"; "Description=GuestKit first-boot staged live commands"; "After=local-fs.target network-online.target";
   "Wants=network-online.target"; "ConditionPathExists=" +:+ PENDING; ""; "[Service]"; "Type=oneshot";
   "ExecStart=" +:+ FIRSTBOOT_SCRIPT; "RemainAfterExit=yes"; ""; "[Install]"; "WantedBy=multi-user.target"].

Definition normalize_unit (name : string) : string :=
  let n := trim name in
  if ends_with ".service" n || ends_with ".socket" n || ends_with ".timer" n then n else n +:+ ".service".

Inductive SysctlAction : Type := SysEnable (unit : string) | SysDisable (unit : string).
Fixpoint skip_options (parts : list string) : list string :=
  match parts with
  | p :: rest => if starts_with "-" p then skip_options rest else parts
  | [] => []
  end.
Definition parse_systemctl_enable_disable (cmd : string) : option SysctlAction :=
  match split_whitespace cmd with
  | first :: rest =>
      if String.eqb first "systemctl" || (negb (bool_decide (rest = [])) && ends_with "systemctl" first) then
        match skip_options rest with
        | action :: unit :: _ =>
            if String.eqb action "enable" then Some (SysEnable (normalize_unit unit))
            else if String.eqb action "disable" then Some (SysDisable (normalize_unit unit))
            else None
        | _ => None
        end
      else None
  | [] => None
  end.

(** [split] at white space outside quotes; quotes are dropped, words may not be empty. *)
Fixpoint shell_words_from (in_single in_double : bool) (cur : string) (s : string) : list string :=
  match s with
  | EmptyString => if is_empty cur then [] else [cur]
  | String c s =>
      if Ascii.eqb c (ascii_of_byte 39) && negb in_double then shell_words_from (negb in_single) in_double cur s
      else if Ascii.eqb c (ascii_of_byte 34) && negb in_single then shell_words_from in_single (negb in_double) cur s
      else if trim_is_empty (String c "") && negb in_single && negb in_double then
        if is_empty cur then shell_words_from in_single in_double "" s
        else cur :: shell_words_from in_single in_double "" s
      else shell_words_from in_single in_double (cur +:+ String c "") s
  end.
Definition shell_words (s : string) : list string := shell_words_from false false "" s.
Definition squote : string := String (ascii_of_byte 39) "".
Fixpoint quote_body (s : string) : string :=
  match s with
  | EmptyString => ""
  | String c s =>
      (if Ascii.eqb c (ascii_of_byte 39) then squote +:+ String (ascii_of_byte 92) squote +:+ squote else String c "")
      +:+ quote_body s
  end.
Definition shell_quote (s : string) : string := squote +:+ quote_body s +:+ squote.

Section applicator.
Context `{OfflineEnv} `{!RepairHost} `{FileCrates} `{GuestIo} `{GuestChroot}.

Definition enable_unit (g : Guestfs) (unit : string) : gact () :=
  g_mkdir_p g WANTS_DIR ;;
  let link := WANTS_DIR +:+ "/" +:+ unit in
  gor (g_ln_sf g ("../" +:+ unit) link) (g_ln_sf g ("/etc/systemd/system/" +:+ unit) link).
Definition disable_unit (g : Guestfs) (unit : string) : gact () :=
  let link := WANTS_DIR +:+ "/" +:+ unit in
  there ← gdefault false (g_exists g link);
  if there : bool then g_rm g link else mret ().

Definition pending_content (existing : string) (cmds : list string) : string :=
  let existing := if negb (is_empty existing) && negb (ends_with_char (ascii_of_byte 10) existing)
                  then existing +:+ newline_str else existing in
  existing +:+ text_lines cmds.
Definition append_firstboot_cmds (g : Guestfs) (cmds : list string) : gact () :=
  g_mkdir_p g "/var/lib/guestkit" ;;
  g_mkdir_p g "/usr/lib/guestkit" ;;
  g_mkdir_p g "/etc/systemd/system" ;;
  g_mkdir_p g WANTS_DIR ;;
  existing ← gdefault "" (g_read_file g PENDING);
  g_write g PENDING (pending_content existing cmds) ;;
  g_write g FIRSTBOOT_SCRIPT firstboot_script ;;
  gignore (g_chmod g 493 FIRSTBOOT_SCRIPT) ;;
  g_write g FIRSTBOOT_UNIT firstboot_unit ;;
  gor (g_ln_sf g "../guestkit-firstboot-live.service" FIRSTBOOT_WANTS)
    (g_ln_sf g "/etc/systemd/system/guestkit-firstboot-live.service" FIRSTBOOT_WANTS).

Definition service_commands (so : ServiceOperation) (unit : string) : list string :=
  (if so_start so then ["systemctl start " +:+ unit] else [])
  ++ (if so_restart so then ["systemctl restart " +:+ unit] else []).
Definition stage_service_offline (g : Guestfs) (so : ServiceOperation) : gact bool :=
  let unit := normalize_unit (so_service so) in
  did ← (match so_state so with
         | Some state =>
             let s := to_ascii_lowercase (trim state) in
             if String.eqb s "enabled" || String.eqb s "enable" then enable_unit g unit ;; mret true
             else if String.eqb s "disabled" || String.eqb s "disable" then disable_unit g unit ;; mret true
             else mret false
         | None => mret false
         end);
  match service_commands so unit with
  | [] => mret did
  | cmds => append_firstboot_cmds g cmds ;; mret true
  end.

Definition staged_line (ce : CommandExec) : string :=
  match cx_interpreter ce with
  | Some interp => interp +:+ " " +:+ shell_quote (cx_command ce)
  | None => "sh -c " +:+ shell_quote (cx_command ce)
  end.
Definition apply_or_stage_command (g : Guestfs) (ce : CommandExec) : gact bool :=
  match parse_systemctl_enable_disable (cx_command ce) with
  | Some (SysEnable u) => enable_unit g u ;; mret true
  | Some (SysDisable u) => disable_unit g u ;; mret true
  | None =>
      if is_grubby_serial (cx_command ce) then apply_serial_console g
      else
        let args := match shell_words (cx_command ce) with [] => ["sh"; "-c"; cx_command ce] | args => args end in
        gor (g_command g args ;; mret true)
          (append_firstboot_cmds g [staged_line ce] ;; mret true)
  end.

(** ** Operations *)
Definition TEMP_MODE : Z := 384.
(** [Path::parent] of the path as text, or the root. *)
Definition guest_parent (path : string) : string :=
  match path_parent path with
  | Some l => (if is_absolute path then "/" else "") +:+ join "/" l
  | None => "/"
  end.
Definition make_parent (g : Guestfs) (path : string) : gact () :=
  let parent := guest_parent path in
  if negb (String.eqb parent "/") && negb (is_empty parent) then g_mkdir_p g parent else mret ().
Definition with_final_newline (s : string) : string :=
  if ends_with_char (ascii_of_byte 10) s then s else s +:+ newline_str.
Definition optional_chmod (g : Guestfs) (mode : option string) (d : Z) (path : string) : gact () :=
  match mode with
  | Some m => gignore (g_chmod g (default d (parse_octal_i32 m)) path)
  | None => mret ()
  end.

(** with the features [registry-write] and [agent]. *)
Definition resolve_registry_hive (key : string) (t : tree) : outcome guest_error (string * list string) :=
  let bslash := ascii_of_byte 92 in
  let parts := List.filter (fun s => negb (is_empty s)) (split_char bslash (replace_chars ["/"%char] bslash key)) in
  match parts with
  | root_key :: hive :: subpath =>
      let root := to_ascii_uppercase root_key in
      if negb (String.eqb root "HKLM" || String.eqb root "HKEY_LOCAL_MACHINE") then
        Err (GuestCommandFailed ("Offline registry writes only support HKLM keys (got " +:+ root_key +:+ ")"))
      else if negb (os_detected t) then Err (GuestCommandFailed "No OS root detected for registry write")
      else
        let hive_name := to_ascii_uppercase hive in
        let named (p : option string) :=
          match p with Some path => Ok path | None => Err (GuestNotFound "hive") end in
        path ← (if String.eqb hive_name "SOFTWARE" then named (software_hive t)
                else if String.eqb hive_name "SYSTEM" then named (system_hive t)
                else if existsb (String.eqb hive_name) ["SAM"; "SECURITY"; "DEFAULT"; "COMPONENTS"] then
                  named ((fun r => r +:+ "/System32/config/" +:+ hive_name) <$> windows_systemroot t)
                else Err (GuestCommandFailed ("Unsupported registry hive: " +:+ hive_name)));
        mret (path, subpath)
  | _ => Err (GuestCommandFailed ("Registry key too short to resolve a hive: " +:+ key))
  end.
Definition apply_registry_edit (re : RegistryEdit) : gact bool :=
  hive ← gask (resolve_registry_hive (re_key re));
  gtry (GuestCommandFailed ("Registry edit failed for " +:+ re_key re)) (set_registry_value hive.1 hive.2 re) ;;
  mret true.
Definition apply_driver_inject (di : DriverInject) : gact bool :=
  match resolve_host_dir di with
  | None => gfail ("DriverInject '" +:+ di_driver_name di +:+ "': set host_dir, or source to a host directory, "
                   +:+ "or GUESTKIT_VIRTIO_WIN pointing at a virtio-win tree")
  | Some dir =>
      gask (fun t => if os_detected t then Ok () else Err (GuestCommandFailed "no OS root for driver inject")) ;;
      gtry (GuestCommandFailed ("offline DriverInject for " +:+ di_driver_name di)) (driver_inject_dir dir di) ;;
      mret true
  end.

Definition offline_operation (g : Guestfs) (op : Operation) : gact bool :=
  match op_type op with
  | OpFileEdit fe =>
      content ← g_cat g (fed_file fe);
      g_upload g TEMP_MODE (edit_content (fed_changes fe) content) (fed_file fe) ;;
      mret true
  | OpFileWrite fw =>
      make_parent g (fw_path fw) ;;
      g_write g (fw_path fw) (with_final_newline (fw_content fw)) ;;
      optional_chmod g (fw_mode fw) 420 (fw_path fw) ;;
      mret true
  | OpSymlink sl =>
      make_parent g (sl_link_path sl) ;;
      gignore (g_rm g (sl_link_path sl)) ;;
      g_ln_sf g (sl_target sl) (sl_link_path sl) ;;
      mret true
  | OpFileDelete fd =>
      there ← gdefault false (g_exists g (fd_path fd));
      link ← (if there : bool then mret true else gdefault false (g_is_symlink g (fd_path fd)));
      if negb link then
        if fd_missing_ok fd then mret true else gfail ("File to delete not found: " +:+ fd_path fd)
      else g_rm g (fd_path fd) ;; mret true
  | OpCommandExec ce => apply_or_stage_command g ce
  | OpFilePermissions fp =>
      match parse_octal_i32 (if is_empty (fp_mode fp) then "0" else fp_mode fp) with
      | None => gfail ("Invalid octal permission mode '" +:+ fp_mode fp +:+ "' for " +:+ fp_path fp)
      | Some mode =>
          if (0 <=? mode)%Z && (mode <=? 4095)%Z then g_chmod g mode (fp_path fp) ;; mret true
          else gfail ("Permission mode '" +:+ fp_mode fp +:+ "' out of range (0000-7777) for " +:+ fp_path fp)
      end
  | OpDirectoryCreate dc =>
      g_mkdir_p g (dc_path dc) ;;
      optional_chmod g (dc_mode dc) 493 (dc_path dc) ;;
      mret true
  | OpFileCopy fc =>
      s ← writable_resolved g "Cannot copy file on read-only filesystem" (cp_source fc);
      d ← gask (fun t => resolve_guest_path g t (cp_destination fc));
      gtry (GuestCommandFailed "cp_a failed") (cp_a s d) ;;
      mret true
  | OpSelinuxMode sm => fun t =>
      match g_cat g (sm_file sm) t with
      | (t, Ok content) =>
          (g_upload g TEMP_MODE (selinux_content sm content) (sm_file sm) ;; mret true) t
      | (t, Err _) => (t, Ok false)
      | (t, Panic) => (t, Panic)
      end
  | OpPackageInstall pi => fun t =>
      match stage_packages pi t with
      | (t, Some applied) => (t, Ok applied)
      | (t, None) => (t, Err (GuestCommandFailed "Package staging failed"))
      end
  | OpServiceOperation so => stage_service_offline g so
  | OpRegistryEdit re => apply_registry_edit re
  | OpDriverInject di => apply_driver_inject di
  end.

Record op_counts : Type := mk_op_counts { oc_applied : nat; oc_failed : nat; oc_skipped : nat }.
Definition count_result (c : op_counts) (r : guest_error + bool) : op_counts :=
  match r with
  | inr true => mk_op_counts (S (oc_applied c)) (oc_failed c) (oc_skipped c)
  | inr false => mk_op_counts (oc_applied c) (oc_failed c) (S (oc_skipped c))
  | inl _ => mk_op_counts (oc_applied c) (S (oc_failed c)) (oc_skipped c)
  end.
Fixpoint apply_all (g : Guestfs) (ops : list Operation) (c : op_counts) (t : tree) : tree * outcome string op_counts :=
  match ops with
  | [] => (t, Ok c)
  | op :: ops =>
      match offline_operation g op t with
      | (t, Ok applied) => apply_all g ops (count_result c (inr applied)) t
      | (t, Err e) => apply_all g ops (count_result c (inl e)) t
      | (t, Panic) => (t, Panic)
      end
  end.

(** ** Validation *)
Definition known_edges (ops : list Operation) : list Operation :=
  map (fun op => mk_Operation _ (op_id op) (op_type op) (op_priority op) (op_description op) (op_risk op)
         (op_reversible op) (List.filter (fun d => existsb (String.eqb d) (ids ops)) (op_depends_on op))
         (op_validation op) (op_undo op)) ops.
(** the loop of [has_circular_dependencies]: nodes visited. *)
Fixpoint visit_loop (oc : bool) (adj : adj_map) (fuel : nat) (deg : deg_map) (queue : list string)
    : outcome Empty_set nat :=
  match queue with
  | [] => Ok 0
  | node :: queue =>
      match fuel with
      | O => Panic
      | S fuel =>
          '(deg, queue) ← release oc adj (deg, queue) node;
          n ← visit_loop oc adj fuel deg queue;
          mret (S n)
      end
  end.
Definition has_circular_dependencies (iter : deg_map → list (string * Z)) (oc : bool) (plan : FixPlan)
    : outcome Empty_set bool :=
  match pl_operations plan with
  | [] => Ok false
  | ops =>
      let known := known_edges ops in
      let deg := ops_in_degree known in
      visited ← visit_loop oc (ops_adj known) (S (length ops)) deg (zero_nodes iter deg);
      mret (negb (visited =? length ops)%nat)
  end.
Definition missing_dependencies (ops : list Operation) : list string :=
  ops ≫= fun op =>
    map (fun d => "Operation " +:+ op_id op +:+ " depends on non-existent operation " +:+ d)
      (List.filter (fun d => negb (existsb (String.eqb d) (ids ops))) (op_depends_on op)).
Record ValidationResult : Type := mk_ValidationResult { vr_errors : list string; vr_warnings : list string }.
Definition is_valid (r : ValidationResult) : bool := bool_decide (vr_errors r = []).
Definition validate_plan (iter : deg_map → list (string * Z)) (oc : bool) (vm_exists : bool) (vm_path : string)
    (plan : FixPlan) : outcome Empty_set ValidationResult :=
  circular ← has_circular_dependencies iter oc plan;
  let non_reversible := map op_id (List.filter (fun op => negb (op_reversible op)) (pl_operations plan)) in
  mret (mk_ValidationResult
    ((if vm_exists then [] else ["VM disk not found: " +:+ vm_path])
     ++ (if circular : bool then ["Plan contains circular dependencies"] else [])
     ++ missing_dependencies (pl_operations plan))
    (if bool_decide (non_reversible = []) then []
     else ["Non-reversible operations: " +:+ join ", " non_reversible])).

(** ** Images *)
Notation images := (gmap string string).
(** [disk.qcow2] becomes [disk.backup_T.qcow2] beside it. *)
Definition image_backup_name (name : string) : string :=
  match before_last_dot name with
  | Some b => if is_empty b then name +:+ ".backup_" +:+ timestamp
              else b +:+ ".backup_" +:+ timestamp +:+ str_drop (String.length b) name
  | None => name +:+ ".backup_" +:+ timestamp
  end.
Definition image_backup (vm_path : string) : option string :=
  match last (components vm_path) with
  | Some name =>
      let parent := removelast (components vm_path) in
      let dir := (if is_absolute vm_path then "/" else "") +:+ join "/" parent in
      Some (path_join dir (image_backup_name name))
  | None => None
  end.
Definition copy_image (src dst : string) (m : images) : images * bool :=
  match m !! src with
  | Some c => if copy_image_works src dst then (<[dst := c]> m, true) else (m, false)
  | None => (m, false)
  end.
Definition create_backup (vm_path : string) (m : images) : images * option string :=
  match image_backup vm_path, m !! vm_path with
  | Some backup, Some _ => let '(m, ok) := copy_image vm_path backup m in (m, if ok then Some backup else None)
  | _, _ => (m, None)
  end.
Definition rollback_image (vm_path backup_path : string) (m : images) : images * bool :=
  match m !! backup_path, m !! vm_path with
  | Some _, Some _ => copy_image backup_path vm_path m
  | _, _ => (m, false)
  end.

(** ** The run *)
Definition refused_result (failed : nat) (plan : FixPlan) (message : string) : ApplyResult :=
  mk_ApplyResult false 0 failed (length (pl_operations plan)) message [] None.
Definition done_message (c : op_counts) (backup_path : option string) : string :=
  if (oc_failed c =? 0)%nat then "Plan applied successfully (" +:+ fmt_nat (oc_applied c) +:+ " operations)"
  else match backup_path with
       | Some bp => fmt_nat (oc_applied c) +:+ " operations applied, " +:+ fmt_nat (oc_failed c)
                      +:+ " failed. Backup available at: " +:+ bp
       | None => fmt_nat (oc_applied c) +:+ " operations applied, " +:+ fmt_nat (oc_failed c) +:+ " failed"
       end.
Record PlanApplicator : Type := mk_PlanApplicator { pa_vm_path : string; pa_dry_run : bool; pa_skip_backup : bool }.
Definition PlanApplicator_new (vm_path : string) (dry_run : bool) : PlanApplicator :=
  mk_PlanApplicator vm_path dry_run false.
Definition skip_backup (self : PlanApplicator) (skip : bool) : PlanApplicator :=
  mk_PlanApplicator (pa_vm_path self) (pa_dry_run self) skip.
(** the backup of a run: none wanted, one made, or none could be made. *)
Definition backup_first (self : PlanApplicator) (m : images) : images * option (option string) :=
  if pa_skip_backup self then (m, Some None)
  else let '(m, b) := create_backup (pa_vm_path self) m in (m, Some <$> b).
(** the operations on the open image, which is closed or left as it is. *)
Definition run_on_image (sorted : list Operation) (g : Guestfs) (image : string) (t : tree) (backup_path : option string)
    : string * outcome string ApplyResult :=
  match apply_all g sorted (mk_op_counts 0 0 0) t with
  | (t, Ok c) =>
      (close_image image t,
       Ok (mk_ApplyResult (oc_failed c =? 0)%nat (oc_applied c) (oc_failed c) (oc_skipped c)
             (done_message c backup_path) [] None))
  | (t, Err e) => (close_image image t, Err e)
  | (t, Panic) => (close_image image t, Panic)
  end.
Definition offline_apply (iter : deg_map → list (string * Z)) (oc : bool) (self : PlanApplicator) (plan : FixPlan)
    (m : images) : images * outcome string ApplyResult :=
  let vm := pa_vm_path self in
  if pa_dry_run self then
    (m, Ok (mk_ApplyResult true 0 0 (length (pl_operations plan)) "Dry run completed - no changes made" [] None))
  else
    match m !! vm with
    | None => (m, Ok (refused_result 0 plan ("VM disk not found: " +:+ vm)))
    | Some image =>
        match backup_first self m with
        | (m, None) => (m, Ok (refused_result 1 plan "Failed to create backup, refusing to apply plan"))
        | (m, Some backup_path) =>
            match open_image image with
            | OpenRefused message => (m, Ok (refused_result 1 plan message))
            | OpenError error => (m, Err error)
            | OpenedAt t g =>
                match topological_sort iter oc plan with
                | Ok sorted => let '(image, r) := run_on_image sorted g image t backup_path in (<[vm := image]> m, r)
                | Err e => match e with end
                | Panic => (m, Panic)
                end
            end
        end
    end.
End applicator.
