(* ===== verification/OfflineProps.v ===== *)
(** * What applying a plan to an image guarantees

    A plan is valid exactly when its image is there, its ids are distinct, its dependencies
    are known and none is circular; every operation of a valid plan is carried out or
    counted as failed; the copy of the image made first brings it back, whatever became of
    the run; and the run returns unless the plan holds the serial console repair.  Staging
    for the first boot goes through links: done twice, it removes the unit it has installed. *)
From stdpp Require Import base gmap strings list.
From Stdlib Require Import ZArith Lia Ascii.
From S2P Require Import Prelude RustStr Kahn FixPlan Repair LiveExec Passport Words FileOps FileOpsProps GuestFs GuestFsProps Serial SerialProps Offline.

Section props.
Context `{OfflineEnv} `{!RepairHost} `{FileCrates} `{GuestIo} `{GuestChroot}.
Implicit Types (plan : FixPlan) (ops : list Operation).

(** ** Validation *)
Lemma visit_loop_order oc adj fuel : ∀ deg q,
  visit_loop oc adj fuel deg q =
  match order_loop oc adj fuel deg q with
  | Ok order => Ok (length order)
  | Err e => Err e
  | Panic => Panic
  end.
Proof.
  induction fuel as [|fuel IH]; intros deg [|u q]; try done. cbn [visit_loop order_loop].
  destruct (release oc adj (deg, q) u) as [[deg' q']| |]; try done. cbn [mbind outcome_bind]. rewrite IH.
  by destruct (order_loop oc adj fuel deg' q').
Qed.

(** distinct ids, known dependencies, none circular: they descend in some rank. *)
Record well_ordered ops (rank : string → nat) : Prop := mk_well_ordered {
  wo_ids : NoDup (ids ops);
  wo_deps : ∀ op x, op ∈ ops → x ∈ op_depends_on op → x ∈ ids ops ∧ rank x < rank (op_id op)
}.

Lemma existsb_known (known : list string) x : existsb (String.eqb x) known = true ↔ x ∈ known.
Proof.
  rewrite existsb_exists, list_elem_of_In. split.
  - intros (y & Hy & ->%String.eqb_eq). done.
  - intros Hx. exists x. by rewrite String.eqb_refl.
Qed.
Lemma filter_nil {A} (f : A → bool) l : List.filter f l = [] ↔ ∀ x, x ∈ l → f x = false.
Proof.
  split.
  - intros Hf x Hx. apply not_true_iff_false. intros Ht.
    assert (x ∈ List.filter f l) as Hin by (by apply elem_of_filterb). rewrite Hf in Hin. by apply not_elem_of_nil in Hin.
  - intros Hall. destruct (List.filter f l) as [|x r] eqn:E; [done|].
    assert (x ∈ x :: r) as Hin by (by left). rewrite <-E in Hin. apply elem_of_filterb in Hin as [Hx Ht].
    by rewrite (Hall x Hx) in Ht.
Qed.
Lemma map_nil_iff {A B} (f : A → B) l : map f l = [] ↔ l = [].
Proof. by destruct l. Qed.
Lemma missing_nil ops : missing_dependencies ops = [] ↔ ∀ op x, op ∈ ops → x ∈ op_depends_on op → x ∈ ids ops.
Proof.
  unfold missing_dependencies. generalize (ids ops) as known. intros known. induction ops as [|op l IH].
  - split; [|done]. intros _ op x Hop. by apply not_elem_of_nil in Hop.
  - cbn [mbind list_bind]. rewrite app_nil, map_nil_iff, IH, filter_nil.
    setoid_rewrite negb_false_iff. setoid_rewrite existsb_known. split.
    + intros [Hf Hl] o x [->|Ho]%elem_of_cons Hx; [by apply Hf|by eapply Hl].
    + intros Hall. split; [intros x Hx; apply (Hall op x); [by left|done]|].
      intros o x Ho. apply Hall. by right.
Qed.
Lemma known_edges_all ops :
  (∀ op x, op ∈ ops → x ∈ op_depends_on op → x ∈ ids ops) → known_edges ops = ops.
Proof.
  intros Hall. unfold known_edges. etransitivity; [|apply map_id]. apply map_ext_in. intros op Hop%list_elem_of_In.
  assert (List.filter (fun d => existsb (String.eqb d) (ids ops)) (op_depends_on op) = op_depends_on op) as ->;
    [|by destruct op].
  specialize (Hall op). induction (op_depends_on op) as [|d ds IH]; [done|]. cbn [List.filter].
  rewrite (proj2 (existsb_known (ids ops) d)) by (apply Hall; [done|by left]). f_equal. apply IH. intros x Hx Hd.
  apply Hall; [done|by right].
Qed.
Lemma known_edges_ids ops : ids (known_edges ops) = ids ops.
Proof. unfold ids, known_edges. by rewrite map_map. Qed.
Lemma known_edges_fewer ops : length (plan_edges (known_edges ops)) ≤ length (plan_edges ops).
Proof.
  unfold plan_edges, known_edges. generalize (ids ops) as known. intros known.
  induction ops as [|op ops' IH]; [done|]. cbn [map List.flat_map]. rewrite !length_app.
  apply Nat.add_le_mono; [|apply IH]. unfold op_edges. rewrite !length_map. cbn [op_depends_on].
  apply List.filter_length_le.
Qed.

(** the position of an id in an order. *)
Definition position (order : list string) (v : string) : nat :=
  match list_find (fun u => u = v) order with Some (i, _) => i | None => 0 end.
Lemma position_lookup order i v : NoDup order → order !! i = Some v → position order v = i.
Proof.
  intros Hn Hi. unfold position. destruct (list_find _ order) as [[j u]|] eqn:E.
  - apply list_find_Some in E as (Hj & -> & _). by eapply NoDup_lookup.
  - rewrite list_find_None, Forall_lookup in E. by destruct (E i v Hi).
Qed.

Lemma circular_spec iter oc plan : sort_ok iter plan →
  ∃ b, has_circular_dependencies iter oc plan = Ok b ∧
    (missing_dependencies (pl_operations plan) = [] →
     (b = false ↔ ∃ rank, well_ordered (pl_operations plan) rank)).
Proof.
  intros [Hit Hu]. unfold has_circular_dependencies. set (ops := pl_operations plan) in *.
  assert (∃ order, visit_loop oc (ops_adj (known_edges ops)) (S (length ops)) (ops_in_degree (known_edges ops))
      (zero_nodes iter (ops_in_degree (known_edges ops))) = Ok (length order) ∧
    NoDup order ∧ (∀ v, v ∈ order → v ∈ ids ops) ∧
    (∀ i v x, order !! i = Some v → (x, v) ∈ plan_edges (known_edges ops) → x ∈ take i order) ∧
    (∀ v, v ∈ ids ops → v ∉ order → ∃ x, (x, v) ∈ plan_edges (known_edges ops) ∧ x ∉ order))
    as (order & Hv & Hn & Hin & Ho & Hst).
  { destruct (plan_order_spec iter oc (known_edges ops) Hit) as (order & Hl & Hn & Hin & Ho & Hst).
    { pose proof (known_edges_fewer ops). lia. }
    exists order. rewrite known_edges_ids in Hin, Hst. split_and!; try done. rewrite visit_loop_order.
    assert (length (known_edges ops) = length ops) as El by apply length_map. by rewrite El in Hl; rewrite Hl. }
  assert (∀ b, (length order = length ops ↔ b = false) → missing_dependencies ops = [] →
    (b = false ↔ ∃ rank, well_ordered ops rank)) as Hmain.
  { intros b <- Hm. rewrite missing_nil in Hm. rewrite (known_edges_all ops Hm) in Ho, Hst. split.
    - intros El. assert (order ≡ₚ ids ops) as Hp.
      { apply submseteq_length_Permutation; [by apply NoDup_submseteq|]. unfold ids. rewrite length_map. lia. }
      exists (position order). split; [by rewrite <-Hp|]. intros op x Hop Hx. split; [by eapply Hm|].
      assert (op_id op ∈ order) as [i Hi]%list_elem_of_lookup.
      { rewrite Hp. apply list_elem_of_fmap. by exists op. }
      assert (x ∈ take i order) as [j Hj]%list_elem_of_lookup.
      { eapply Ho; [exact Hi|]. apply elem_of_plan_edges. by exists op. }
      apply lookup_take_Some in Hj as [Hj Hji]. by rewrite (position_lookup _ _ _ Hn Hj), (position_lookup _ _ _ Hn Hi).
    - intros (rank & Hnd & Hr). assert (order ≡ₚ ids ops) as ->; [|by unfold ids; rewrite length_map].
      apply NoDup_Permutation; [done..|]. intros v. split; [apply Hin|]. by apply (order_all ops order rank). }
  destruct ops as [|op ops'] eqn:E.
  - exists false. split; [done|]. apply Hmain. destruct order as [|v order]; [done|].
    assert (v ∈ ids []) as Hx by (apply Hin; by left). by apply not_elem_of_nil in Hx.
  - rewrite <-E in *. exists (negb (length order =? length ops)%nat). rewrite Hv. split; [done|]. apply Hmain.
    rewrite negb_false_iff. symmetry. apply Nat.eqb_eq.
Qed.

Lemma validate_spec iter oc vm_exists vm_path plan :
  sort_ok iter plan →
  ∃ r, validate_plan iter oc vm_exists vm_path plan = Ok r ∧
    (is_valid r = true ↔ vm_exists = true ∧ ∃ rank, well_ordered (pl_operations plan) rank).
Proof.
  intros Hok. destruct (circular_spec iter oc plan Hok) as (b & Hb & Hiff). unfold validate_plan. rewrite Hb.
  eexists. split; [reflexivity|]. unfold is_valid. cbn [vr_errors]. rewrite bool_decide_eq_true. split.
  - intros [Hv [Hc Hm]%app_eq_nil]%app_eq_nil. destruct vm_exists; [|done]. split; [done|]. apply Hiff; [done|].
    by destruct b.
  - intros [-> Hr]. assert (missing_dependencies (pl_operations plan) = []) as Hm.
    { apply missing_nil. destruct Hr as [rank [_ Hd]]. intros op x Hop Hx. by apply (Hd op x). }
    rewrite Hm. by rewrite (proj2 (Hiff Hm) Hr).
Qed.
(** C20: the validator returns for every plan, and finds no error exactly when the image is
    there, the ids are distinct, every dependency is known and none is circular. *)
Theorem validate_plan_exactly iter oc vm_exists vm_path plan :
  sort_ok iter plan →
  ∃ r, validate_plan iter oc vm_exists vm_path plan = Ok r ∧
    (is_valid r = true ↔ vm_exists = true ∧ ∃ rank, well_ordered (pl_operations plan) rank).
Proof. apply validate_spec. Qed.

(** ** A run that returns *)
Create HintDb returns.
Definition returns {A} (m : gact A) : Prop := ∀ t, (m t).2 ≠ Panic.
Lemma returns_ret {A} (a : A) : returns (mret a).
Proof. by intros t. Qed.
Lemma returns_bind {A B} (m : gact A) (f : A → gact B) : returns m → (∀ a, returns (f a)) → returns (m ≫= f).
Proof.
  intros Hm Hf t. unfold mbind, gact_bind. specialize (Hm t). destruct (m t) as [t' [a|e|]]; [|done|done]. apply Hf.
Qed.
Lemma returns_gask {A} (f : tree → outcome guest_error A) : (∀ t, f t ≠ Panic) → returns (gask f).
Proof. intros Hf t. apply Hf. Qed.
Lemma returns_gtry e f : returns (gtry e f).
Proof. intros t. unfold gtry. by destruct (f t) as [t' []]. Qed.
Lemma returns_gor {A} (m m' : gact A) : returns m → returns m' → returns (gor m m').
Proof. intros Hm Hm' t. unfold gor. specialize (Hm t). destruct (m t) as [t' [a|e|]]; [done|apply Hm'|done]. Qed.
Lemma returns_gignore {A} (m : gact A) : returns m → returns (gignore m).
Proof. intros Hm t. unfold gignore. specialize (Hm t). by destruct (m t) as [t' []]. Qed.
Lemma returns_gdefault {A} (d : A) m : returns m → returns (gdefault d m).
Proof. intros Hm t. unfold gdefault. specialize (Hm t). by destruct (m t) as [t' []]. Qed.
Lemma returns_gfail {A} msg : returns (gfail (A := A) msg).
Proof. by intros t. Qed.
Lemma bind_not_panic {E A B} (m : outcome E A) (f : A → outcome E B) :
  m ≠ Panic → (∀ a, f a ≠ Panic) → m ≫= f ≠ Panic.
Proof. destruct m; [|done|done]. intros _ Hf. apply Hf. Qed.
Lemma resolve_returns g t path : resolve_guest_path g t path ≠ Panic.
Proof.
  unfold resolve_guest_path. apply bind_not_panic; [|intros _; apply bind_not_panic; [|intros root; apply bind_not_panic]].
  - unfold validate_fs_path. by repeat case_match.
  - unfold find_root_mountpoint. by repeat case_match.
  - unfold candidate_path. by repeat case_match.
  - intros p. apply bind_not_panic; [by case_match|]. intros q. by case_match.
Qed.
Lemma resolved_returns g path : returns (resolved_path g path).
Proof. unfold resolved_path, ensure_ready. repeat (apply returns_bind; [|intros ?]); apply returns_gask; intros t;
  [by case_match|apply resolve_returns]. Qed.
Lemma writable_returns g refusal path : returns (writable_resolved g refusal path).
Proof.
  unfold writable_resolved, ensure_ready. repeat (apply returns_bind; [|intros ?]); apply returns_gask; intros t;
    [by case_match|by case_match|apply resolve_returns].
Qed.
Ltac returning := repeat (first
  [ done | apply returns_ret | apply returns_gtry | apply returns_gfail | apply resolve_returns
  | apply resolved_returns | apply writable_returns
  | apply returns_gor | apply returns_gignore | apply returns_gdefault
  | apply returns_bind; [|intros ?]
  | apply returns_gask; intros ? | case_match ]).
Lemma g_exists_returns g path : returns (g_exists g path).
Proof. unfold g_exists. returning. Qed.
Lemma g_is_symlink_returns g path : returns (g_is_symlink g path).
Proof. unfold g_is_symlink. returning. Qed.
Lemma g_read_file_returns g path : returns (g_read_file g path).
Proof. unfold g_read_file. returning. Qed.
Lemma g_cat_returns g path : returns (g_cat g path).
Proof. unfold g_cat, g_read_file. returning. Qed.
Lemma g_write_returns g path content : returns (g_write g path content).
Proof. unfold g_write. returning. Qed.
Lemma g_mkdir_p_returns g path : returns (g_mkdir_p g path).
Proof. unfold g_mkdir_p. returning. Qed.
Lemma g_chmod_returns g mode path : returns (g_chmod g mode path).
Proof. unfold g_chmod. returning. Qed.
Lemma g_upload_returns g mode content path : returns (g_upload g mode content path).
Proof. unfold g_upload. returning. Qed.
Lemma g_rm_returns g path : returns (g_rm g path).
Proof. unfold g_rm. returning. Qed.
Lemma g_ln_sf_returns g target path : returns (g_ln_sf g target path).
Proof. unfold g_ln_sf, g_ln_s. returning. Qed.
Lemma g_command_returns g args : returns (g_command g args).
Proof. unfold g_command, ensure_ready, find_root_mountpoint. returning. Qed.
#[local] Hint Resolve g_exists_returns g_is_symlink_returns g_read_file_returns g_cat_returns g_write_returns
  g_mkdir_p_returns g_chmod_returns g_upload_returns g_rm_returns g_ln_sf_returns g_command_returns writable_returns : returns.
Ltac staged := repeat (lazymatch goal with
  | |- returns (match ?x with _ => _ end) => destruct x
  | |- returns (gask _) => apply returns_gask; intros ?
  | |- returns (gor _ _) => apply returns_gor
  | |- returns (gignore _) => apply returns_gignore
  | |- returns (gdefault _ _) => apply returns_gdefault
  | |- returns (mbind _ _) => apply returns_bind; [|intros ?]
  | |- returns (mret _) => apply returns_ret
  | |- returns (gfail _) => apply returns_gfail
  | |- returns (gtry _ _) => apply returns_gtry
  | |- returns _ => by auto with returns
  end); try done.
Lemma enable_unit_returns g unit : returns (enable_unit g unit).
Proof. unfold enable_unit. staged. Qed.
Lemma disable_unit_returns g unit : returns (disable_unit g unit).
Proof. unfold disable_unit. staged. Qed.
Lemma append_firstboot_returns g cmds : returns (append_firstboot_cmds g cmds).
Proof. unfold append_firstboot_cmds. staged. Qed.
#[local] Hint Resolve enable_unit_returns disable_unit_returns append_firstboot_returns : returns.
Lemma stage_service_returns g so : returns (stage_service_offline g so).
Proof. unfold stage_service_offline. staged. Qed.
Definition grubby_op (op : Operation) : bool :=
  match op_type op with OpCommandExec ce => is_grubby_serial (cx_command ce) | _ => false end.
Lemma hive_returns key t : resolve_registry_hive key t ≠ Panic.
Proof. unfold resolve_registry_hive. repeat (case_match; try done); apply bind_not_panic; repeat case_match; done. Qed.
Lemma offline_operation_returns g op : grubby_op op = false → returns (offline_operation g op).
Proof.
  intros Hg. unfold offline_operation, grubby_op in *. destruct (op_type op) eqn:E.
  all: unfold make_parent, optional_chmod, apply_or_stage_command, apply_registry_edit, apply_driver_inject; cbv zeta.
  all: try rewrite Hg.
  all: staged; auto using stage_service_returns, hive_returns, resolve_returns.
  - intros t. by destruct (stage_packages pi t) as [t' []].
  - intros t. pose proof (g_cat_returns g (sm_file sm) t) as Hc.
    destruct (g_cat g (sm_file sm) t) as [t' [content|e|]]; [|done|done].
    apply (returns_bind (g_upload g TEMP_MODE (selinux_content sm content) (sm_file sm)) (fun _ => mret true)); staged.
  - by destruct (os_detected t).
Qed.

(** ** Accounting *)
Definition counted (c : op_counts) : nat := oc_applied c + oc_failed c + oc_skipped c.
Lemma count_result_counted c r : counted (count_result c r) = S (counted c).
Proof. unfold counted. destruct r as [e|[]]; cbn; lia. Qed.
Lemma apply_all_counts g ops : ∀ c t,
  (∀ op, op ∈ ops → grubby_op op = false) →
  ∃ t' c', apply_all g ops c t = (t', Ok c') ∧ counted c' = counted c + length ops.
Proof.
  induction ops as [|op ops IH]; intros c t Hg; cbn [apply_all length].
  { exists t, c. split; [done|lia]. }
  pose proof (offline_operation_returns g op (Hg op ltac:(by left)) t) as Hr.
  assert (∀ o, o ∈ ops → grubby_op o = false) as Hg' by (intros o Ho; apply Hg; by right).
  destruct (offline_operation g op t) as [t1 [a|e|]]; [| |done];
    match goal with |- context [count_result c ?r] =>
      destruct (IH (count_result c r) t1 Hg') as (t' & c' & E & Hc); exists t', c'; split; [done|];
      rewrite count_result_counted in Hc; lia end.
Qed.

(** the result of a run that opens the image. *)
Lemma offline_apply_opened iter oc self plan m image m1 backup t g sorted :
  pa_dry_run self = false → m !! pa_vm_path self = Some image → backup_first self m = (m1, Some backup) →
  open_image image = OpenedAt t g → topological_sort iter oc plan = Ok sorted →
  offline_apply iter oc self plan m =
  (<[pa_vm_path self := (run_on_image sorted g image t backup).1]> m1, (run_on_image sorted g image t backup).2).
Proof.
  intros Hd Hm Hb Ho Hs. unfold offline_apply. rewrite Hd, Hm, Hb, Ho, Hs. by destruct (run_on_image _ _ _ _ _).
Qed.

(** a valid plan without the serial console repair, applied to an image that can be
    copied and opened: the run returns, every operation of the plan is counted exactly once
    as applied, failed or skipped, it succeeds when none failed, and no other image than
    this one and its copy is touched. *)
Theorem valid_plan_accounted iter oc self plan m image m1 backup t g v :
  sort_ok iter plan → validate_plan iter oc true (pa_vm_path self) plan = Ok v → is_valid v = true →
  (∀ op, op ∈ pl_operations plan → grubby_op op = false) →
  pa_dry_run self = false → m !! pa_vm_path self = Some image →
  backup_first self m = (m1, Some backup) → open_image image = OpenedAt t g →
  ∃ m' r, offline_apply iter oc self plan m = (m', Ok r) ∧
    ar_applied r + ar_failed r + ar_skipped r = length (pl_operations plan) ∧
    (ar_success r = true ↔ ar_failed r = 0) ∧
    ∀ other, other ≠ pa_vm_path self → m' !! other = m1 !! other.
Proof.
  intros Hok Hv Hvalid Hg Hd Hm Hb Ho.
  destruct (validate_spec iter oc true (pa_vm_path self) plan Hok) as (v' & Hv' & Hiff).
  rewrite Hv in Hv'. injection Hv' as <-. destruct (proj1 Hiff Hvalid) as (_ & rank & Hnd & Hr).
  destruct (topological_sort_keeps iter oc plan rank Hok Hnd Hr) as (sorted & Hs & Hp).
  rewrite (offline_apply_opened iter oc self plan m image m1 backup t g sorted) by done.
  destruct (apply_all_counts g sorted (mk_op_counts 0 0 0) t) as (t' & c & E & Hc).
  { intros op Hop. apply Hg. by rewrite <-Hp. }
  unfold run_on_image. rewrite E. eexists _, _. split; [reflexivity|]. cbn.
  split_and!; [rewrite <-Hp; cbn in Hc; unfold counted in Hc; lia|apply Nat.eqb_eq|].
  intros other Hne. by rewrite lookup_insert_ne.
Qed.

(** an operation on a cycle, or behind an unknown id, is in no count: the run does not look
    at the validator's result. *)
Lemma unsorted_uncounted iter oc self plan m image m1 backup t g :
  sort_ok iter plan → (∀ op, op ∈ pl_operations plan → grubby_op op = false) →
  pa_dry_run self = false → m !! pa_vm_path self = Some image →
  backup_first self m = (m1, Some backup) → open_image image = OpenedAt t g →
  ∃ m' r sorted, offline_apply iter oc self plan m = (m', Ok r) ∧ topological_sort iter oc plan = Ok sorted ∧
    ar_applied r + ar_failed r + ar_skipped r = length sorted ∧
    length sorted ≤ length (pl_operations plan) ∧ ∀ op, op ∈ sorted → op ∈ pl_operations plan.
Proof.
  intros Hok Hg Hd Hm Hb Ho. destruct (topological_sort_spec iter oc plan Hok) as (order & Hs & Hn & Hin & _).
  destruct (omap_op_map (pl_operations plan) order Hin) as [Hids Hsub]. set (sorted := omap _ order) in *.
  destruct (apply_all_counts g sorted (mk_op_counts 0 0 0) t) as (t' & c & E & Hc).
  { intros op Hop. apply Hg, Hsub, Hop. }
  rewrite (offline_apply_opened iter oc self plan m image m1 backup t g sorted) by done.
  unfold run_on_image. rewrite E. eexists _, _, sorted. split; [reflexivity|]. cbn.
  split_and!; [done|cbn in Hc; unfold counted in Hc; lia| |done].
  transitivity (length (ids (pl_operations plan))); [|unfold ids; by rewrite length_map].
  transitivity (length order); [rewrite <-Hids; unfold ids; by rewrite length_map|].
  apply submseteq_length. by apply NoDup_submseteq.
Qed.

(** ** Rolling back *)
(** C33: a run that made a copy of the image: whatever the plan is and whatever became of the
    run (an error and a panic included), copying the copy back gives the image as it was. *)
Theorem rollback_restores_image iter oc self plan m image backup :
  pa_dry_run self = false → pa_skip_backup self = false → m !! pa_vm_path self = Some image →
  image_backup (pa_vm_path self) = Some backup → backup ≠ pa_vm_path self →
  copy_image_works (pa_vm_path self) backup = true → copy_image_works backup (pa_vm_path self) = true →
  let after := (offline_apply iter oc self plan m).1 in
  after !! backup = Some image ∧
  ∃ restored, rollback_image (pa_vm_path self) backup after = (restored, true) ∧
    restored !! pa_vm_path self = Some image ∧
    ∀ other, other ≠ backup → other ≠ pa_vm_path self → restored !! other = m !! other.
Proof.
  intros Hd Hk Hm Hb Hne Hc Hc' after. set (vm := pa_vm_path self) in *.
  assert (∃ x, <[vm := x]> (<[backup := image]> m) = after) as [x Hx].
  { assert (create_backup vm m = (<[backup := image]> m, Some backup)) as Hcb.
    { unfold create_backup, copy_image. by rewrite Hb, Hm, Hc. }
    assert (∃ x, <[vm := x]> (<[backup := image]> m) = <[backup := image]> m) as [x0 Hx0].
    { exists image. apply insert_id. by rewrite lookup_insert_ne. }
    unfold after, offline_apply, backup_first. fold vm. rewrite Hd, Hm, Hk, Hcb. cbn.
    destruct (open_image image) as [msg|err|t g]; [by exists x0|by exists x0|].
    destruct (topological_sort iter oc plan) as [sorted|e|]; [|by destruct e|by exists x0].
    destruct (run_on_image _ _ _ _ _) as [image' r]. by exists image'. }
  rewrite <-Hx. assert (<[vm := x]> (<[backup := image]> m) !! backup = Some image) as Hbk
    by (by rewrite lookup_insert_ne, lookup_insert_eq).
  split; [done|]. unfold rollback_image, copy_image. rewrite Hbk, lookup_insert_eq, Hc'.
  eexists. split; [reflexivity|]. split; [by rewrite lookup_insert_eq|].
  intros other Ho1 Ho2. by rewrite !lookup_insert_ne.
Qed.

(** a dry run, an image that is not there, or a copy that cannot be made: no image
    changes but for the copy, no operation is applied, and only the dry run is a success. *)
Theorem refusal_changes_nothing iter oc self plan m :
  (pa_dry_run self = true ∨ m !! pa_vm_path self = None ∨ (backup_first self m).2 = None) →
  ∃ m' r, offline_apply iter oc self plan m = (m', Ok r) ∧ m' = m ∧ ar_applied r = 0 ∧
    ar_skipped r = length (pl_operations plan) ∧ (ar_success r = true ↔ pa_dry_run self = true).
Proof.
  unfold offline_apply. destruct (pa_dry_run self) eqn:Hd; [intros _; by eexists _, _|].
  destruct (m !! pa_vm_path self) as [image|] eqn:Hm; [|intros _; by eexists _, _].
  intros [?|[?|Hb]]; [done..|]. destruct (backup_first self m) as [m1 [b|]] eqn:E; [done|].
  assert (m1 = m) as ->; [|by eexists _, _].
  unfold backup_first, create_backup, copy_image in E. destruct (pa_skip_backup self); [done|]. rewrite Hm in E.
  destruct (image_backup _); [|by injection E]. destruct (copy_image_works _ _); by injection E.
Qed.

(** ** Files that are edited *)
Lemma walk_exists t n todo : ∀ cur p, walk false t n cur todo = Some p → walk true t n cur todo = Some p.
Proof.
  revert n todo. apply (walk_ind (fun n todo => ∀ cur p, walk false t n cur todo = Some p → walk true t n cur todo = Some p)).
  - intros n cur p. by rewrite !walk_nil.
  - intros n x todo IH IHl cur p. rewrite !walk_cons. destruct (is_dir t cur); [|done].
    destruct (_ || _); [apply IH|]. destruct (String.eqb x ".."); [apply IH|].
    destruct (t !! (cur ++ [x])) as [[]|]; [apply IH|apply IH| |done].
    destruct n as [|n]; [done|]. apply IHl. lia.
Qed.
(** an edit of a file that is applied replaces its content by the edited one, and its
    mode, whatever it was, by that of the temporary file, 0600; nothing else changes. *)
Theorem edited_file_is_private g op fe t t' :
  op_type op = OpFileEdit fe → offline_operation g op t = (t', Ok true) →
  ∃ p q c m tm, resolve_guest_path g t (fed_file fe) = Ok p ∧ follow t p = Some q ∧ t !! q = Some (File c m tm) ∧
    t' = <[q := File (edit_content (fed_changes fe) c) TEMP_MODE written_at]> t.
Proof.
  intros Hop. unfold offline_operation. rewrite Hop.
  intros (t1 & content & Hcat & (t2 & [] & Hup & [= <-])%gact_bind_Ok)%gact_bind_Ok.
  unfold g_cat in Hcat. apply gact_bind_Ok in Hcat as (t3 & bytes & Hrd & [= <- Hutf]).
  unfold g_read_file in Hrd. apply gact_bind_Ok in Hrd as (t4 & p & [-> Hp]%resolved_path_Ok & [= <- Hn]).
  destruct (is_utf8 bytes); [|done]. injection Hutf as ->. unfold node_at in Hn.
  destruct (follow t p) as [q|] eqn:Hf; [|done]. cbn in Hn. destruct (t !! q) as [[c m tm| |]|] eqn:Hq; try done.
  injection Hn as ->. exists p, q, content, m, tm. split_and!; try done.
  unfold g_upload in Hup. apply gact_bind_Ok in Hup as (t5 & p' & [-> Hp']%resolved_path_Ok & Htry).
  rewrite Hp in Hp'. injection Hp' as <-. unfold gtry, fs_upload, open_truncated in Htry. unfold follow in Hf.
  rewrite (walk_exists _ _ _ _ _ Hf) in Htry. cbn in Htry. rewrite Hq in Htry.
  destruct (write_fault p); [done|]. injection Htry as <-. by rewrite insert_insert_eq.
Qed.
End props.

(** ** Commands for the first boot *)
Lemma join_open ps : ps ≠ [] → join newline_str (ps ++ [""]) = join newline_str ps +:+ newline_str.
Proof.
  induction ps as [|p ps IH]; [done|]. intros _. destruct ps as [|q ps]; [done|].
  change (join newline_str ((p :: q :: ps) ++ [""])) with (p +:+ newline_str +:+ join newline_str ((q :: ps) ++ [""])).
  rewrite IH by done. cbn [join]. by rewrite !text_app_assoc.
Qed.
(** a text, with a line end added when it has none, is its lines. *)
Lemma text_of_lines t : unix_text t → t ≠ "" →
  (if ends_with_char newline_char t then t else t +:+ newline_str) = join "" (ended <$> lines t).
Proof.
  intros Hu Ht. destruct (split_char_snoc newline_char t Ht) as (ps & p & Es & Ee & Hp).
  pose proof (join_split_char newline_char t) as Ej. rewrite Es in Ej. rewrite Ee.
  assert (map strip_cr ps = ps) as Hcr.
  { pose proof (split_char_pieces newline_char _ _ Hu) as Hall. rewrite Es in Hall. apply Forall_app in Hall as [Hall _].
    etransitivity; [|apply map_id]. apply map_ext_Forall. eapply Forall_impl; [exact Hall|].
    intros x [H1 H2]. apply strip_cr_plain. clear - H1 H2. induction x as [|c x IH]; [done|].
    apply text_forall_cons in H1 as [[_ Hc]%andb_true_iff H1]. apply text_forall_cons in H2 as [Hn H2].
    apply text_forall_cons. split; [|by apply IH]. unfold line_char. by rewrite Hn, Hc. }
  unfold lines. fold newline_char. rewrite Es, lines_of_snoc, Hcr. change (String newline_char "") with newline_str in Ej.
  destruct p as [|c p]; cbn [is_empty].
  - rewrite app_nil_r, <-join_closed by (by apply Hp). rewrite <-Ej at 1. apply join_open. by apply Hp.
  - rewrite <-join_closed by (by destruct ps). by rewrite <-Ej at 1.
Qed.
Lemma join_ended_app a b : join "" (ended <$> (a ++ b)) = join "" (ended <$> a) +:+ join "" (ended <$> b).
Proof.
  induction a as [|l a IH]; [done|]. rewrite <-app_comm_cons, !join_ended, IH. by rewrite text_app_assoc.
Qed.
(** the commands staged for the first boot stand behind those already there, one to a
    line and in their order, when none of them holds a line end. *)
Theorem pending_lines old cmds :
  unix_text old → Forall plain_line cmds → lines (pending_content old cmds) = lines old ++ cmds.
Proof.
  intros Hu Hc. unfold pending_content. fold newline_char.
  assert (Forall plain_line (lines old)) as Hl by (eapply Forall_impl; [by apply unix_lines|]; by intros ? []).
  change (text_lines cmds) with (join "" (ended <$> cmds)).
  assert ((if negb (is_empty old) && negb (ends_with_char newline_char old) then old +:+ newline_str else old)
    = join "" (ended <$> lines old)) as ->.
  { destruct (decide (old = "")) as [->|Ho]; [done|]. rewrite <-text_of_lines by done.
    assert (is_empty old = false) as -> by (by destruct old). by destruct (ends_with_char newline_char old). }
  rewrite <-join_ended_app. apply lines_join. by apply Forall_app.
Qed.

(** ** Examples *)
#[local] Instance offline_host : FileCrates := {|
  b64_encode s := s; b64_decode s := Some s; file_sha256_hex s := s; cwd := []; written_at := None; umask_mode := 420
|}.
#[local] Instance offline_io : GuestIo := {| write_fault _ := None; is_utf8 _ := true |}.
(** no program of the guest runs. *)
#[local] Instance offline_chroot : GuestChroot := {| chroot _ t := (t, false) |}.
#[local] Existing Instance ascii_platform.
#[local] Instance offline_repair : RepairHost := {| Repair.is_dir _ := false; virtio_win_env := None; fmt_f64 _ := ""; json_number _ := () |}.
(** an image is the content of its [/etc/fstab]. *)
Definition fstab_tree (content : string) : tree :=
  list_to_map [([], plain_dir); (["mnt"], plain_dir); (["mnt"; "etc"], plain_dir);
    (["mnt"; "etc"; "fstab"], File content 420 None)].
#[local] Instance offline_env : OfflineEnv := {|
  cp_a _ _ t := (t, true); stage_packages _ t := (t, Some true); driver_inject_dir _ _ t := (t, true);
  set_registry_value _ _ _ t := (t, true); software_hive _ := None; system_hive _ := None;
  windows_systemroot _ := None; os_detected _ := true;
  open_image content := OpenedAt (fstab_tree content) mounted_guest;
  close_image _ t := match t !! ["mnt"; "etc"; "fstab"] with Some (File c _ _) => c | _ => "" end;
  copy_image_works _ _ := true; timestamp := "T"
|}.
Definition edit_op (name before after : string) (deps : list string) : Operation :=
  mk_Operation _ name (OpFileEdit (mk_FileEdit "/etc/fstab" true [mk_FileChange 0 before after None]))
    PrHigh "edit" PrLow true deps None None.
Definition edit_plan : FixPlan := plan_of [edit_op "b" "two" "three" ["a"]; edit_op "a" "one" "two" []].
Definition disk : PlanApplicator := PlanApplicator_new "/vm/disk.qcow2" false.
Definition one_image : gmap string string := {["/vm/disk.qcow2" := "one"]}.

Lemma edit_plan_ok : sort_ok map_to_list edit_plan.
Proof. split; [done|by vm_compute]. Qed.
Lemma validate_plan_exactly_witness :
  ∃ r, validate_plan map_to_list true true "/vm/disk.qcow2" edit_plan = Ok r ∧
    (is_valid r = true ↔ true = true ∧ ∃ rank, well_ordered (pl_operations edit_plan) rank).
Proof. exact (validate_plan_exactly map_to_list true true "/vm/disk.qcow2" edit_plan edit_plan_ok). Defined.
Definition edited_images : gmap string string := (offline_apply map_to_list true disk edit_plan one_image).1.
Example edits_in_order : edited_images !! "/vm/disk.qcow2" = Some ("three" +:+ newline_str).
Proof. vm_compute. reflexivity. Qed.

Lemma edit_plan_valid :
  is_valid (mk_ValidationResult [] []) = true ∧
  validate_plan map_to_list true true "/vm/disk.qcow2" edit_plan = Ok (mk_ValidationResult [] []).
Proof. by vm_compute. Qed.
Lemma valid_plan_accounted_witness :
  ∃ m' r, offline_apply map_to_list true disk edit_plan one_image = (m', Ok r) ∧
    ar_applied r + ar_failed r + ar_skipped r = 2.
Proof.
  destruct (valid_plan_accounted map_to_list true disk edit_plan one_image "one"
    (backup_first disk one_image).1 (Some "/vm/disk.backup_T.qcow2") (fstab_tree "one") mounted_guest
    (mk_ValidationResult [] []) edit_plan_ok (proj2 edit_plan_valid) (proj1 edit_plan_valid))
    as (m' & r & E & Hc & _).
  - intros op Hop. cbn in Hop. rewrite !elem_of_cons in Hop.
    destruct Hop as [->|[->|Hop]]; [done|done|by apply not_elem_of_nil in Hop].
  - reflexivity.
  - vm_compute. reflexivity.
  - vm_compute. reflexivity.
  - reflexivity.
  - exists m', r. split; [exact E|exact Hc].
Defined.
Lemma rollback_restores_image_witness :
  edited_images !! "/vm/disk.backup_T.qcow2" = Some "one".
Proof.
  apply (rollback_restores_image map_to_list true disk edit_plan one_image "one" "/vm/disk.backup_T.qcow2");
    first [reflexivity | vm_compute; reflexivity | discriminate].
Defined.
Lemma refusal_changes_nothing_witness :
  ∃ m' r, offline_apply map_to_list true (PlanApplicator_new "/vm/none.qcow2" false) edit_plan one_image = (m', Ok r) ∧
    m' = one_image ∧ ar_applied r = 0.
Proof.
  destruct (refusal_changes_nothing map_to_list true (PlanApplicator_new "/vm/none.qcow2" false) edit_plan one_image)
    as (m' & r & E & Hm & Ha & _); [right; left; vm_compute; reflexivity|]. by exists m', r.
Defined.
Definition edited_tree : tree := (offline_operation mounted_guest (edit_op "a" "one" "two" []) (fstab_tree "one")).1.
Lemma edit_applied : (offline_operation mounted_guest (edit_op "a" "one" "two" []) (fstab_tree "one")).2 = Ok true.
Proof. vm_compute. reflexivity. Qed.
Lemma edited_file_is_private_witness :
  ∃ q c, edited_tree = <[q := File (edit_content [mk_FileChange 0 "one" "two" None] c) TEMP_MODE None]> (fstab_tree "one").
Proof.
  pose proof edit_applied as He. unfold edited_tree.
  destruct (offline_operation mounted_guest (edit_op "a" "one" "two" []) (fstab_tree "one")) as [t' r] eqn:E.
  cbn [snd] in He. subst r. cbn [fst].
  destruct (edited_file_is_private mounted_guest (edit_op "a" "one" "two" [])
    (mk_FileEdit "/etc/fstab" true [mk_FileChange 0 "one" "two" None]) (fstab_tree "one") t' eq_refl E)
    as (p & q & c & m & tm & _ & _ & _ & Ht). by exists q, c.
Defined.
Lemma pending_lines_witness :
  lines (pending_content "systemctl start a" ["systemctl start b"]) = ["systemctl start a"] ++ ["systemctl start b"].
Proof. apply (pending_lines "systemctl start a" ["systemctl start b"]); [reflexivity|by repeat constructor]. Defined.

(** two operations that depend on each other, and one that is alone: the run is a success
    with one operation, and the other two are in no count. *)
Definition cycle_plan : FixPlan :=
  plan_of [edit_op "a" "one" "two" ["b"]; edit_op "b" "two" "three" ["a"]; edit_op "c" "one" "four" []].
Example cycle_is_a_success :
  match (offline_apply map_to_list true disk cycle_plan one_image).2 with
  | Ok r => (ar_success r, ar_applied r, ar_failed r, ar_skipped r, ar_message r) =
            (true, 1, 0, 0, "Plan applied successfully (1 operations)")
  | _ => False
  end.
Proof. vm_compute. reflexivity. Qed.
(** two operations with one id are reported as a circular dependency. *)
Example duplicate_called_circular :
  validate_plan map_to_list true true "/vm/disk.qcow2" (plan_of [edit_op "a" "one" "two" []; edit_op "a" "two" "three" []]) =
  Ok (mk_ValidationResult ["Plan contains circular dependencies"] []).
Proof. vm_compute. reflexivity. Qed.
(** a second run within the second takes the changed image for the backup. *)
Example second_backup_overwrites :
  let twice := (offline_apply map_to_list true disk edit_plan edited_images).1 in
  (rollback_image "/vm/disk.qcow2" "/vm/disk.backup_T.qcow2" twice).1 !! "/vm/disk.qcow2" = Some ("three" +:+ newline_str).
Proof. vm_compute. reflexivity. Qed.
(** no [before] matches and no line number: the file is rewritten and the edit counted as applied. *)
Example edit_without_match_applied :
  let r := offline_operation mounted_guest (edit_op "a" "absent" "two" []) (fstab_tree "one") in
  r.2 = Ok true ∧ r.1 !! ["mnt"; "etc"; "fstab"] = Some (File ("one" +:+ newline_str) 384 None).
Proof. vm_compute. done. Qed.

(** ** Staging twice *)
Definition staged_once : tree := (append_firstboot_cmds mounted_guest ["true"] (fstab_tree "one")).1.
Definition staged_twice : tree := (append_firstboot_cmds mounted_guest ["false"] staged_once).1.
Definition unit_path : list string := ["mnt"; "etc"; "systemd"; "system"; "guestkit-firstboot-live.service"].
(** the second staging returns as the first one, with both commands in the list, but the
    unit that runs them is gone: [ln_sf] removed it through the link of the first. *)
Example staging_twice_loses_the_unit :
  (append_firstboot_cmds mounted_guest ["true"] (fstab_tree "one")).2 = Ok () ∧
  staged_once !! unit_path = Some (File firstboot_unit 420 None) ∧
  (append_firstboot_cmds mounted_guest ["false"] staged_once).2 = Ok () ∧
  staged_twice !! ["mnt"; "var"; "lib"; "guestkit"; "firstboot-live.cmds"] =
    Some (File (text_lines ["true"; "false"]) 420 None) ∧
  staged_twice !! unit_path = None.
Proof. vm_compute. done. Qed.
(** enabling a unit of [/etc/systemd/system] that is enabled deletes its file. *)
Definition unit_tree : tree :=
  list_to_map [([], plain_dir); (["mnt"], plain_dir); (["mnt"; "etc"], plain_dir); (["mnt"; "etc"; "systemd"], plain_dir);
    (["mnt"; "etc"; "systemd"; "system"], plain_dir); (["mnt"; "etc"; "systemd"; "system"; "app.service"], File "[Unit]" 420 None);
    (["mnt"; "etc"; "systemd"; "system"; "multi-user.target.wants"], plain_dir);
    (["mnt"; "etc"; "systemd"; "system"; "multi-user.target.wants"; "app.service"], Link "../app.service")].
Example enabling_again_deletes :
  let r := enable_unit mounted_guest "app.service" unit_tree in
  r.2 = Ok () ∧ r.1 !! ["mnt"; "etc"; "systemd"; "system"; "app.service"] = None.
Proof. vm_compute. done. Qed.
(** so does disabling it, and the link stays. *)
Example disabling_deletes_the_unit :
  let r := disable_unit mounted_guest "app.service" unit_tree in
  r.2 = Ok () ∧ r.1 !! ["mnt"; "etc"; "systemd"; "system"; "app.service"] = None ∧
  r.1 !! ["mnt"; "etc"; "systemd"; "system"; "multi-user.target.wants"; "app.service"] = Some (Link "../app.service").
Proof. vm_compute. done. Qed.
(** a command of two lines is staged as two commands, neither with balanced quotes. *)
Example two_lines_staged_apart :
  lines (pending_content "" [staged_line (mk_CommandExec ("a" +:+ newline_str +:+ "b") 0 None None)]) =
  ["sh -c " +:+ squote +:+ "a"; "b" +:+ squote].
Proof. vm_compute. reflexivity. Qed.
(** a redirection is an argument: the words are run without a shell. *)
Example redirection_is_an_argument :
  shell_words "echo 1 > /proc/sys/net/ipv4/ip_forward" = ["echo"; "1"; ">"; "/proc/sys/net/ipv4/ip_forward"].
Proof. vm_compute. reflexivity. Qed.
