(* ===== verification/Qga.v ===== *)
(** * The interface of the QEMU guest agent

    [src/agent/qga.rs] (Linux build), [src/agent/exec.rs], the entry [handle_frame_on] of
    [src/agent/handler.rs] and the turn of [run_channel] in [src/agent/daemon.rs]: a frame
    that carries an [execute] field is answered by this interface, with its own table of
    commands that were run; one that is an envelope for a remote procedure, and every other
    frame, goes to the handler ([AgentHandler]).

    The statics of the file are the state [qga_state], with what was done to the guest in
    order.  What programs, files and the helper answer is [QgaEnv]: the [n]-th call sees the
    [n]-th moment.  The commands that only gather the evidence, health, journal, file-system
    and systemd reports of other parts, and the fix plans, are [agent_reply]; that one was
    asked for is recorded.  JSON values are [json] of [Executor], their keys in the order of
    serde's map; a text that is not UTF-8 is what [utf8_lossy] makes of it. *)
From stdpp Require Import base gmap strings list.
From Stdlib Require Import ZArith Lia Ascii.
From S2P Require Import Prelude RustStr Passport Frame AgentRpc AgentPolicy AgentHandler Executor.

Record ExecJob : Type := mk_ExecJob {
  ej_out : string;
  ej_err : string;
  ej_exited : bool;
  ej_exitcode : Z
}.
Inductive qga_effect : Type :=
  | QCaptured (argv : list string)   (** run to its end, its output kept *)
  | QSpawned (argv : list string)    (** started and left *)
  | QFsfreeze (thaw : bool)          (** the helper was asked and did it *)
  | QAsked (command : string) (args : json).
Record qga_state : Type := mk_qga_state {
  q_jobs : gmap Z ExecJob;          (** [EXEC_JOBS] *)
  q_next_pid : Z;                   (** [NEXT_PID] *)
  q_frozen : bool;                  (** [FS_FROZEN] *)
  q_delimited : bool;               (** [QGA_DELIMITED_RESPONSE] *)
  q_done : list qga_effect;
  q_calls : nat
}.
Definition qga_start : qga_state := mk_qga_state ∅ 1000 false false [] 0.

Record program_output : Type := mk_program_output {
  pr_success : bool;
  pr_stdout : string;
  pr_stderr : string;
  pr_code : option Z;
  pr_status : string
}.
Class QgaEnv := {
  json_from_slice : string → string + json;
  json_to_vec : json → string;
  q_base64 : string → string;
  utf8_lossy : string → string;
  run_program : nat → list string → string + program_output;
  spawn_program : nat → list string → option string;
  helper_fsfreeze : nat → bool → option string;
  file_text : nat → string → option string;
  link_text : nat → string → option string;
  unix_seconds : nat → string + Z;
  net_classes : nat → list (string * string);
  agent_reply : nat → string → json → string + json
}.

Definition qact (A : Type) : Type := qga_state → qga_state * outcome string A.
#[export] Instance qact_ret : MRet qact := fun A a q => (q, Ok a).
#[export] Instance qact_bind : MBind qact := fun A B f m q =>
  match m q with
  | (q, Ok a) => f a q
  | (q, Err e) => (q, Err e)
  | (q, Panic) => (q, Panic)
  end.
Definition qfail {A} (e : string) : qact A := fun q => (q, Err e).
Definition qtick (q : qga_state) : qga_state :=
  mk_qga_state (q_jobs q) (q_next_pid q) (q_frozen q) (q_delimited q) (q_done q) (S (q_calls q)).
Definition qask {A} (f : nat → A) : qact A := fun q => (qtick q, Ok (f (q_calls q))).
Definition qdo (e : qga_effect) : qact () := fun q =>
  (mk_qga_state (q_jobs q) (q_next_pid q) (q_frozen q) (q_delimited q) (q_done q ++ [e]) (q_calls q), Ok ()).
Definition set_jobs (jobs : gmap Z ExecJob) : qact () := fun q =>
  (mk_qga_state jobs (q_next_pid q) (q_frozen q) (q_delimited q) (q_done q) (q_calls q), Ok ()).
Definition set_next_pid (pid : Z) : qact () := fun q =>
  (mk_qga_state (q_jobs q) pid (q_frozen q) (q_delimited q) (q_done q) (q_calls q), Ok ()).
Definition set_frozen (b : bool) : qact () := fun q =>
  (mk_qga_state (q_jobs q) (q_next_pid q) b (q_delimited q) (q_done q) (q_calls q), Ok ()).
Definition set_delimited (b : bool) : qact () := fun q =>
  (mk_qga_state (q_jobs q) (q_next_pid q) (q_frozen q) b (q_done q) (q_calls q), Ok ()).
Definition get_state : qact qga_state := fun q => (q, Ok q).
Definition of_sum {A} (r : string + A) : qact A := fun q => (q, match r with inl e => Err e | inr a => Ok a end).

Definition as_i64 (v : json) : option Z :=
  match v with JInt z => if (- 2 ^ 63 <=? z)%Z && (z <? 2 ^ 63)%Z then Some z else None | _ => None end.
Definition as_array (v : json) : option (list json) := match v with JArr l => Some l | _ => None end.
Definition u64_param (k : string) (args : json) : option Z := json_get k args ≫= as_u64.
Definition strings_param (k : string) (args : json) : list string :=
  match json_get k args ≫= as_array with Some l => omap as_str l | None => [] end.

Section qga.
Context `{QgaEnv} (oc : bool).

(** ** Requests and answers *)
Definition is_qga_request (bytes : string) : bool :=
  match json_from_slice bytes with
  | inr v => bool_decide (is_Some (json_get "execute" v ≫= as_str))
  | inl _ => false
  end.
Definition with_id (id : option json) (field : string * json) : json :=
  match id with
  | Some i => JObj (if String.ltb (fst field) "id" then [field; ("id", i)] else [("id", i); field])
  | None => JObj [field]
  end.
Definition qga_ok (id : option json) (ret : json) : string := json_to_vec (with_id id ("return", ret)).
Definition qga_error (id : option json) (desc : string) : string :=
  json_to_vec (with_id id ("error", JObj [("class", JStr "GenericError"); ("desc", JStr desc)])).

(** ** Commands *)
Definition guest_sync (args : json) : qact json :=
  mret (JInt (default 0%Z (json_get "id" args ≫= as_i64))).
Definition guest_sync_delimited (args : json) : qact json := set_delimited true ;; guest_sync args.
Definition supported_commands : list string :=
  ["guest-ping"; "guest-sync"; "guest-sync-delimited"; "guest-info"; "guest-get-osinfo"; "guest-get-fsinfo";
   "guest-get-users"; "guest-get-timezone"; "guest-get-time"; "guest-set-time"; "guest-fstrim";
   "guest-fsfreeze-status"; "guest-fsfreeze-freeze"; "guest-fsfreeze-thaw"; "guest-network-get-interfaces";
   "guest-get-host-name"; "guest-exec"; "guest-exec-status"; "guest-shutdown"; "guest-reboot"; "guestkit-rpc";
   "guestkit-get-evidence"; "guestkit-doctor"; "guestkit-get-capabilities"; "guestkit-get-version";
   "guestkit-run-fix-plan"; "guestkit-migrate-score"; "guestkit-get-metrics"; "guestkit-get-filesystem";
   "guestkit-get-guest-health"; "guestkit-get-guest-info"; "guestkit-get-systemd-units";
   "guestkit-get-systemd-unit"; "guestkit-get-systemd-events"; "guestkit-get-processes";
   "guestkit-get-journal-slice"; "guestkit-get-failed-units"; "guestkit-get-boot-analysis"; "guestkit-exec";
   "guestkit-enable-rdp"; "guestkit-disable-rdp"].
Definition guest_info : json :=
  JObj [("supported_commands", JArr (map JStr supported_commands)); ("supported_events", JArr []);
        ("version", JStr "6.2.0")].

(** the last line of a key counts. *)
Definition os_release_field (content key : string) : string :=
  foldl (fun acc line => match split_once "="%char line with
                         | Some (k, v) => if String.eqb k key
                             then trim_end_char (ascii_of_byte 34) (trim_start_matches dquote v) else acc
                         | None => acc
                         end) "" (lines content).
Definition program_text (argv : list string) : qact string :=
  r ← qask (fun n => run_program n argv);
  mret (match r with inr o => trim (utf8_lossy (pr_stdout o)) | inl _ => "" end).
Definition guest_get_osinfo : qact json :=
  content ← qask (fun n => default "" (file_text n "/etc/os-release"));
  kernel ← program_text ["uname"; "-r"];
  machine ← program_text ["uname"; "-m"];
  let field := os_release_field content in
  let pretty := field "PRETTY_NAME" in
  mret (JObj [("id", JStr (field "ID")); ("kernel-release", JStr kernel); ("machine", JStr machine);
              ("name", JStr (field "NAME")); ("pretty-name", JStr (if is_empty pretty then field "NAME" else pretty));
              ("version", JStr (field "VERSION_ID"))]).
Definition guest_get_users : qact json :=
  r ← qask (fun n => run_program n ["who"]);
  match r with
  | inl e => qfail ("who: " +:+ e)
  | inr o =>
      now ← qask unix_seconds;
      let secs := match now with inr s => s | inl _ => 0%Z end in
      let entry line := match split_whitespace line with
                        | user :: _ :: _ :: _ =>
                            Some (JObj [("domain", JStr ""); ("login-time", JInt secs); ("user", JStr user)])
                        | _ => None
                        end in
      mret (JArr (omap entry (lines (utf8_lossy (pr_stdout o)))))
  end.
Definition guest_get_timezone : qact json :=
  link ← qask (fun n => link_text n "/etc/localtime" ≫= strip_prefix "/usr/share/zoneinfo/");
  tz ← (match link with
        | Some tz => mret tz
        | None => file ← qask (fun n => file_text n "/etc/timezone");
                  mret (match file with Some s => trim s | None => "UTC" end)
        end);
  mret (JObj [("timezone", JStr tz)]).
Definition guest_get_time : qact json :=
  now ← qask unix_seconds;
  secs ← of_sum now;
  mret (JObj [("time", JInt secs)]).
Definition pad_zeros (width : nat) (s : string) : string :=
  Nat.iter (width - String.length s) (fun t => "0" +:+ t) s.
Definition guest_set_time (args : json) : qact json :=
  match u64_param "time" args with
  | None => qfail "missing time"
  | Some secs =>
      let nanos := default 0%Z (u64_param "nanoseconds" args) in
      let argv := ["sh"; "-c"; "date -u --set=@" +:+ fmt_Z secs +:+ "." +:+ pad_zeros 9 (fmt_Z (nanos mod 1000000000))] in
      r ← qask (fun n => run_program n argv);
      match r with
      | inr o => qdo (QCaptured argv) ;;
                 if pr_success o then mret (JObj []) else qfail ("date failed: " +:+ pr_status o)
      | inl e => qfail ("set time: " +:+ e)
      end
  end.

Definition guest_fsfreeze_status : qact json :=
  q ← get_state; mret (JStr (if q_frozen q then "frozen" else "thawed")).
Definition change_freeze (thaw : bool) : qact json :=
  r ← qask (fun n => helper_fsfreeze n thaw);
  match r with
  | Some e => qfail e
  | None => qdo (QFsfreeze thaw) ;; set_frozen (negb thaw) ;; mret (JInt 1)
  end.
Definition guest_fsfreeze_freeze : qact json := change_freeze false.
Definition guest_fsfreeze_thaw : qact json := change_freeze true.

Definition guest_get_host_name : qact json :=
  file ← qask (fun n => file_text n "/etc/hostname");
  name ← (match trim <$> file with
          | Some s => if is_empty s then mret None else mret (Some s)
          | None => mret None
          end);
  name ← (match name with
          | Some s => mret s
          | None => r ← qask (fun n => run_program n ["hostname"]);
                    mret (match r with inr o => trim (utf8_lossy (pr_stdout o)) | inl _ => "localhost" end)
          end);
  mret (JObj [("host-name", JStr name)]).

Definition map_address (info : json) : option json :=
  let family := default "" (json_get "family" info ≫= as_str) in
  ip_type ← (if String.eqb family "inet" then Some "ipv4"
             else if String.eqb family "inet6" then Some "ipv6" else None);
  local ← json_get "local" info ≫= as_str;
  Some (JObj [("ip-address", JStr local); ("ip-address-type", JStr ip_type);
              ("prefix", JInt (default 0%Z (u64_param "prefixlen" info)))]).
Definition map_ip_json_interface (iface : json) : option json :=
  name ← json_get "ifname" iface ≫= as_str;
  if String.eqb name "lo" then None
  else
    let mac := default "" (json_get "address" iface ≫= as_str) in
    let addrs := match json_get "addr_info" iface ≫= as_array with Some l => omap map_address l | None => [] end in
    Some (JObj [("hardware-address", JStr mac); ("ip-addresses", JArr addrs); ("name", JStr name)]).
Definition collect_network_from_sysfs : qact json :=
  classes ← qask net_classes;
  mret (JArr (map (fun c => JObj [("hardware-address", JStr (trim (snd c))); ("ip-addresses", JArr []);
                                  ("name", JStr (fst c))])
                  (List.filter (fun c => negb (String.eqb (fst c) "lo")) classes))).
Definition guest_network_get_interfaces : qact json :=
  r ← qask (fun n => run_program n ["ip"; "-j"; "addr"; "show"]);
  let mapped := match r with
                | inr o => if pr_success o then
                             match json_from_slice (pr_stdout o) with
                             | inr v => omap map_ip_json_interface (default [] (as_array v))
                             | inl _ => []
                             end
                           else []
                | inl _ => []
                end in
  match mapped with
  | [] => collect_network_from_sysfs
  | _ => mret (JArr mapped)
  end.

Definition trim_line (success : bool) (line : string) : option json :=
  if contains_char ":"%char line then
    let mount := trim (default "/" (head (split_char ":"%char line))) in
    Some (JObj [("error", JInt (if success then 0 else 1)); ("minimum", JInt 0); ("path", JStr mount)])
  else None.
Definition guest_fstrim : qact json :=
  r ← qask (fun n => run_program n ["fstrim"; "-a"; "-v"]);
  match r with
  | inl e => qfail ("fstrim: " +:+ e)
  | inr o =>
      qdo (QCaptured ["fstrim"; "-a"; "-v"]) ;;
      let results := omap (trim_line (pr_success o)) (lines (utf8_lossy (pr_stdout o))) in
      mret (JArr (match results with
                  | [] => if pr_success o then [JObj [("error", JInt 0); ("minimum", JInt 0); ("path", JStr "/")]] else []
                  | _ => results
                  end))
  end.

(** [*pid_guard += 1]: checked or wrapping with the build profile. *)
Definition take_pid : qact Z :=
  q ← get_state;
  next ← (fun q' => (q', match u_arith oc 64 (q_next_pid q + 1) with
                         | Ok n => Ok n | Err e => match (e : Empty_set) with end | Panic => Panic end));
  set_next_pid next ;;
  mret (q_next_pid q).
Definition keep_job (pid : Z) (job : ExecJob) : qact () :=
  q ← get_state; set_jobs (<[pid := job]> (q_jobs q)).
Definition guest_exec (args : json) : qact json :=
  match json_get "path" args ≫= as_str with
  | None => qfail "missing path"
  | Some path =>
      let capture := default false (json_get "capture-output" args ≫= as_bool) in
      let argv := path :: strings_param "arg" args in
      pid ← take_pid;
      (if capture : bool then
         r ← qask (fun n => run_program n argv);
         match r with
         | inl e => qfail ("exec: " +:+ e)
         | inr o => qdo (QCaptured argv) ;;
                    keep_job pid (mk_ExecJob (pr_stdout o) (pr_stderr o) true (default 1%Z (pr_code o)))
         end
       else
         r ← qask (fun n => spawn_program n argv);
         match r with
         | Some e => qfail ("spawn: " +:+ e)
         | None => qdo (QSpawned argv) ;; keep_job pid (mk_ExecJob "" "" true 0)
         end) ;;
      mret (JObj [("pid", JInt pid)])
  end.
Definition job_status (job : ExecJob) : json :=
  JObj ((if is_empty (ej_err job) then [] else [("err-data", JStr (q_base64 (ej_err job)))])
        ++ [("exitcode", JInt (ej_exitcode job)); ("exited", JBool (ej_exited job))]
        ++ (if is_empty (ej_out job) then [] else [("out-data", JStr (q_base64 (ej_out job)))])).
Definition guest_exec_status (args : json) : qact json :=
  match u64_param "pid" args with
  | None => qfail "missing pid"
  | Some pid =>
      q ← get_state;
      match q_jobs q !! pid with
      | Some job => mret (job_status job)
      | None => qfail ("unknown pid " +:+ fmt_Z pid)
      end
  end.
Definition start_program (what : string) (argv : list string) : qact () :=
  r ← qask (fun n => spawn_program n argv);
  match r with Some e => qfail (what +:+ ": " +:+ e) | None => qdo (QSpawned argv) end.
Definition guest_shutdown (args : json) : qact json :=
  let mode := str_param "mode" "powerdown" args in
  start_program "shutdown" ["sh"; "-c"; if String.eqb mode "halt" then "systemctl halt" else "systemctl poweroff"] ;;
  mret (JObj []).
Definition guest_reboot : qact json := fun q =>
  match start_program "reboot" ["systemctl"; "reboot"] q with
  | (q, Err _) => (start_program "reboot" ["reboot"] ;; mret (JObj [])) q
  | (q, Ok _) => (q, Ok (JObj []))
  | (q, Panic) => (q, Panic)
  end.

(** [exec_sync] and [exec_sync_qga]. *)
Definition exec_sync (args : json) : qact program_output :=
  match json_get "path" args ≫= as_str with
  | None => qfail "missing path"
  | Some path =>
      let argv := path :: strings_param "arg" args in
      r ← qask (fun n => run_program n argv);
      match r with
      | inl e => qfail ("exec: " +:+ e)
      | inr o => qdo (QCaptured argv) ;; mret o
      end
  end.
Definition guestkit_exec (args : json) : qact json :=
  o ← exec_sync args;
  mret (job_status (mk_ExecJob (utf8_lossy (pr_stdout o)) (utf8_lossy (pr_stderr o)) true (default 1%Z (pr_code o)))).

(** the commands answered by other parts of the agent. *)
Definition queried : list string :=
  ["guest-get-fsinfo"; "guestkit-get-evidence"; "guestkit-doctor"; "guestkit-get-capabilities";
   "guestkit-get-version"; "guestkit-run-fix-plan"; "guestkit-migrate-score"; "guestkit-get-metrics";
   "guestkit-get-filesystem"; "guestkit-get-guest-health"; "guestkit-get-guest-info";
   "guestkit-get-systemd-units"; "guestkit-get-systemd-unit"; "guestkit-get-systemd-events";
   "guestkit-get-processes"; "guestkit-get-journal-slice"; "guestkit-get-failed-units";
   "guestkit-get-boot-analysis"; "guestkit-get-login-state"; "guestkit-get-dns-state";
   "guestkit-get-snapshot-readiness"].
Definition ask_agent (command : string) (args : json) : qact json :=
  qdo (QAsked command args) ;;
  r ← qask (fun n => agent_reply n command args);
  of_sum r.

Definition own_commands : list (string * (json → qact json)) :=
  [("guest-ping", fun _ => mret (JObj [])); ("guest-sync", guest_sync);
   ("guest-sync-delimited", guest_sync_delimited); ("guest-info", fun _ => mret guest_info);
   ("guest-get-osinfo", fun _ => guest_get_osinfo); ("guest-get-users", fun _ => guest_get_users);
   ("guest-get-timezone", fun _ => guest_get_timezone); ("guest-get-time", fun _ => guest_get_time);
   ("guest-set-time", guest_set_time); ("guest-fstrim", fun _ => guest_fstrim);
   ("guest-fsfreeze-status", fun _ => guest_fsfreeze_status);
   ("guest-fsfreeze-freeze", fun _ => guest_fsfreeze_freeze);
   ("guest-fsfreeze-thaw", fun _ => guest_fsfreeze_thaw);
   ("guest-network-get-interfaces", fun _ => guest_network_get_interfaces);
   ("guest-get-host-name", fun _ => guest_get_host_name); ("guest-exec", guest_exec);
   ("guest-exec-status", guest_exec_status); ("guest-shutdown", guest_shutdown);
   ("guest-reboot", fun _ => guest_reboot); ("guestkit-exec", guestkit_exec);
   ("guestkit-enable-rdp", fun _ => qfail "enableRdp is only supported on Windows guests");
   ("guestkit-disable-rdp", fun _ => qfail "disableRdp is only supported on Windows guests");
   ("guest-suspend-disk", fun _ => mret (JObj [])); ("guest-suspend-ram", fun _ => mret (JObj []));
   ("guest-suspend-hybrid", fun _ => mret (JObj []))].
Definition command_of (execute : string) : option (json → qact json) :=
  match List.find (fun c => String.eqb (fst c) execute) own_commands with
  | Some c => Some (snd c)
  | None => if existsb (String.eqb execute) queried then Some (ask_agent execute) else None
  end.

(** the answer to a frame; a panic ends the program. *)
Definition qga_handle (bytes : string) : qga_state → qga_state * outcome Empty_set string := fun q =>
  match json_from_slice bytes with
  | inl e => (q, Ok (qga_error None ("invalid JSON: " +:+ e)))
  | inr req =>
      let id := json_get "id" req in
      match json_get "execute" req ≫= as_str with
      | None => (q, Ok (qga_error id "missing execute"))
      | Some execute =>
          let args := default (JObj []) (json_get "arguments" req) in
          match command_of execute with
          | None => (q, Ok (qga_error id ("unsupported QGA command: " +:+ execute)))
          | Some command =>
              match command args q with
              | (q, Ok ret) => (q, Ok (qga_ok id ret))
              | (q, Err msg) => (q, Ok (qga_error id msg))
              | (q, Panic) => (q, Panic)
              end
          end
      end
  end.
Definition take_delimited_response (q : qga_state) : qga_state * bool :=
  ((set_delimited false q).1, q_delimited q).

Definition extract_rpc_passthrough (bytes : string) : option string :=
  match json_from_slice bytes with
  | inl _ => None
  | inr req =>
      if bool_decide ((json_get "execute" req ≫= as_str) = Some "guestkit-rpc") then
        let args := default (JObj []) (json_get "arguments" req) in
        method ← json_get "method" args ≫= as_str;
        Some (json_to_vec (JObj [("id", default (JInt 1) (json_get "id" args)); ("jsonrpc", JStr "2.0");
                                 ("method", JStr method); ("params", default (JObj []) (json_get "params" args))]))
      else None
  end.
End qga.

(** ** The entry of the agent *)
(** the platform with these JSON values. *)
Definition json_platform (base : Platform) : Platform := {|
  lower_non_ascii := @lower_non_ascii base;
  upper_non_ascii := @upper_non_ascii base;
  debug_non_ascii := @debug_non_ascii base;
  json_value := json
|}.
Section entry.
Context `{QgaEnv} (oc : bool) {base : Platform} {Env : @AgentEnv (json_platform base)}.
Context (response_to_vec : @JsonRpcResponse (json_platform base) → string).
Abbreviation agent_side := (@agent_state (json_platform base)).

Definition wrap_qga_response (resp : @JsonRpcResponse (json_platform base)) : string :=
  match rp_error resp with
  | Some err => qga_error (rp_id resp) (eo_message err)
  | None => qga_ok (rp_id resp) (default JNull (rp_result resp))
  end.
Definition outcome_map_text {A} (f : A → string) (r : outcome Empty_set A) : outcome Empty_set string :=
  match r with Ok a => Ok (f a) | Err e => Err e | Panic => Panic end.
Definition handle_frame_on (chan : option bool) (bytes : string) (st : qga_state * agent_side)
    : (qga_state * agent_side) * outcome Empty_set string :=
  let '(q, a) := st in
  if is_qga_request bytes then
    match extract_rpc_passthrough bytes with
    | Some inner => let '(a, r) := handle_on chan inner a in ((q, a), outcome_map_text wrap_qga_response r)
    | None => let '(q, r) := qga_handle oc bytes q in ((q, a), r)
    end
  else let '(a, r) := handle_on chan bytes a in ((q, a), outcome_map_text response_to_vec r).
(** one turn of [run_channel]: the bytes written, and whether the sentinel goes before them. *)
Definition channel_turn (chan : option bool) (frame : string) (st : qga_state * agent_side)
    : (qga_state * agent_side) * outcome Empty_set (string * bool) :=
  match handle_frame_on chan frame st with
  | ((q, a), Ok payload) => let '(q, delimited) := take_delimited_response q in ((q, a), Ok (payload, delimited))
  | (st, Err e) => (st, Err e)
  | (st, Panic) => (st, Panic)
  end.
(** the loop of [run_channel] over the frames that arrive, each with whether its answer can
    be written: the loop ends with the first write that fails, and the thread with the first
    panic. *)
Fixpoint channel_turns (chan : option bool) (frames : list (string * bool)) (st : qga_state * agent_side)
    : qga_state * agent_side :=
  match frames with
  | [] => st
  | (f, written) :: frames =>
      match channel_turn chan f st with
      | (st, Ok _) => if written : bool then channel_turns chan frames st else st
      | (st, _) => st
      end
  end.
End entry.
