(* ===== verification/QgaProps.v ===== *)
(** * What the guest agent interface does and does not check

    The commands of the interface never pass the handler: a program is run for whoever
    reaches the channel, whatever the policy says, and nothing is written to the audit
    trail.  The table of programs keeps every answer, the freeze
    status is that of the last change the helper made, and the sentinel goes before the
    answers that ask for it. *)
From stdpp Require Import base gmap strings list relations.
From Stdlib Require Import ZArith Lia Ascii.
From S2P Require Import Prelude RustStr Passport Frame AgentRpc AgentPolicy AgentHandler Executor Qga.

(** ** What a command may change *)
Definition moves (R : relation qga_state) {A} (m : qact A) : Prop := ∀ q, R q (m q).1.
(** a command that asks, acts on the guest and answers, but touches none of the statics. *)
Section moves.
Context `{QgaEnv} (oc : bool) (R : relation qga_state) `{!PreOrder R}.
Hypothesis R_tick : ∀ q, R q (qtick q).
Hypothesis R_do : ∀ e, (∀ b, e ≠ QFsfreeze b) → moves R (qdo e).

Lemma moves_ret {A} (a : A) : moves R (mret a).
Proof. intros q. cbn. reflexivity. Qed.
Lemma moves_bind {A B} (m : qact A) (f : A → qact B) : moves R m → (∀ a, moves R (f a)) → moves R (m ≫= f).
Proof.
  intros Hm Hf q. unfold mbind, qact_bind. specialize (Hm q). destruct (m q) as [q' [a|e|]]; cbn in *; [|done|done].
  etransitivity; [exact Hm|apply Hf].
Qed.
Lemma moves_qask {A} (f : nat → A) : moves R (qask f).
Proof. intros q. apply R_tick. Qed.
Lemma moves_qfail {A} e : moves R (qfail (A := A) e).
Proof. intros q. cbn. reflexivity. Qed.
Lemma moves_get : moves R get_state.
Proof. intros q. cbn. reflexivity. Qed.
Lemma moves_of_sum {A} (r : string + A) : moves R (of_sum r).
Proof. intros q. cbn. reflexivity. Qed.
Ltac moving := repeat (lazymatch goal with
  | |- moves _ (match ?x with _ => _ end) => destruct x
  | |- moves _ (mbind _ _) => apply moves_bind; [|intros ?]
  | |- moves _ (mret _) => apply moves_ret
  | |- moves _ (qask _) => apply moves_qask
  | |- moves _ (qfail _) => apply moves_qfail
  | |- moves _ (of_sum _) => apply moves_of_sum
  | |- moves _ get_state => apply moves_get
  | |- moves _ (qdo _) => apply R_do; done
  end).
Lemma start_moves what argv : moves R (start_program what argv).
Proof. unfold start_program. moving. Qed.
Lemma reboot_moves : moves R guest_reboot.
Proof.
  intros q. unfold guest_reboot. pose proof (start_moves "reboot" ["systemctl"; "reboot"] q) as Hs.
  destruct (start_program _ _ q) as [q' [a|e|]]; cbn in *; [done| |done]. etransitivity; [exact Hs|].
  apply (moves_bind (start_program "reboot" ["reboot"]) (fun _ => mret (JObj []))); [apply start_moves|]. intros _. apply moves_ret.
Qed.
(** the commands that change one of the statics. *)
Definition stateful : list string :=
  ["guest-exec"; "guest-sync-delimited"; "guest-fsfreeze-freeze"; "guest-fsfreeze-thaw"].
Lemma own_commands_move : Forall (fun c => fst c ∈ stateful ∨ ∀ args, moves R (snd c args)) (own_commands oc).
Proof.
  unfold own_commands, stateful.
  repeat (apply Forall_cons; split; [first [left; cbn [fst]; solve [repeat constructor]|right; cbn [snd]; intros args]|]);
    [..|constructor].
  all: unfold guest_sync, guest_get_osinfo, program_text, guest_get_users, guest_get_timezone, guest_get_time,
    guest_set_time, guest_fstrim, guest_fsfreeze_status, guest_network_get_interfaces, collect_network_from_sysfs,
    guest_get_host_name, guest_exec_status, guest_shutdown, guestkit_exec, exec_sync; cbv zeta.
  all: try apply reboot_moves; moving; try apply start_moves.
Qed.
Lemma command_moves execute command args :
  command_of oc execute = Some command → execute ∉ stateful → moves R (command args).
Proof.
  unfold command_of. pose proof own_commands_move as Hall. rewrite Forall_forall in Hall.
  destruct (List.find _ (own_commands oc)) as [c|] eqn:E.
  - intros [= <-] Hn. apply find_some in E as [Hin Heq%String.eqb_eq].
    destruct (Hall c ltac:(by apply list_elem_of_In)) as [Hs|Hm]; [|apply Hm]. congruence.
  - destruct (existsb _ queried); [|done]. intros [= <-] _. unfold ask_agent. moving.
Qed.
End moves.

Section props.
Context `{QgaEnv} (oc : bool) {base : Platform} {Env : @AgentEnv (json_platform base)}.
Context (response_to_vec : @JsonRpcResponse (json_platform base) → string).
Abbreviation frame_on := (handle_frame_on oc response_to_vec).
Abbreviation turn := (channel_turn oc response_to_vec).
Abbreviation turns := (channel_turns oc response_to_vec).

(** the command of a frame of the interface, with its arguments. *)
Definition own_command (bytes : string) : option (string * json) :=
  match json_from_slice bytes, extract_rpc_passthrough bytes with
  | inr req, None =>
      execute ← json_get "execute" req ≫= as_str;
      Some (execute, default (JObj []) (json_get "arguments" req))
  | _, _ => None
  end.
(** ** Which side a frame reaches *)
Lemma frame_qga_side chan bytes q a :
  (frame_on chan bytes (q, a)).1.1 =
  match own_command bytes with
  | Some (execute, args) =>
      match command_of oc execute with Some command => (command args q).1 | None => q end
  | None => q
  end.
Proof.
  unfold handle_frame_on, own_command, is_qga_request.
  destruct (extract_rpc_passthrough bytes) as [inner|] eqn:Ex; destruct (json_from_slice bytes) as [e|req] eqn:Ej.
  - by destruct (handle_on chan bytes a).
  - destruct (bool_decide _); [by destruct (handle_on chan inner a)|by destruct (handle_on chan bytes a)].
  - by destruct (handle_on chan bytes a).
  - destruct (json_get "execute" req ≫= as_str) as [execute|] eqn:E; cbn [is_Some].
    + rewrite bool_decide_true by done. unfold qga_handle. rewrite Ej, E. cbn [mbind option_bind].
      destruct (command_of oc execute) as [command|]; [|done]. by destruct (command _ q) as [q' []].
    + rewrite bool_decide_false by (by intros []). by destruct (handle_on chan bytes a).
Qed.
Lemma turn_qga_side chan bytes q a :
  ∃ d, (turn chan bytes (q, a)).1.1 = mk_qga_state
    (q_jobs (frame_on chan bytes (q, a)).1.1) (q_next_pid (frame_on chan bytes (q, a)).1.1)
    (q_frozen (frame_on chan bytes (q, a)).1.1) d (q_done (frame_on chan bytes (q, a)).1.1)
    (q_calls (frame_on chan bytes (q, a)).1.1).
Proof.
  unfold channel_turn. destruct (frame_on chan bytes (q, a)) as [[q' a'] [p|e|]]; cbn;
    [by exists false|exists (q_delimited q'); by destruct q'..].
Qed.

(** ** Programs *)
Record table_ok (q : qga_state) : Prop := mk_table_ok {
  to_start : (1000 ≤ q_next_pid q)%Z;
  to_below : ∀ pid, is_Some (q_jobs q !! pid) → (pid < q_next_pid q)%Z
}.
(** entries stay, and the counter moves by one at most. *)
Definition grows (q q' : qga_state) : Prop :=
  q_jobs q ⊆ q_jobs q' ∧ (q_next_pid q ≤ q_next_pid q' ≤ q_next_pid q + 1)%Z ∧ (table_ok q → table_ok q').
Definition same_table (q q' : qga_state) : Prop := q_jobs q' = q_jobs q ∧ q_next_pid q' = q_next_pid q.
#[local] Instance same_table_order : PreOrder same_table.
Proof. split; [by intros q|]. intros q1 q2 q3 [H1 H2] [H3 H4]. split; congruence. Qed.
Lemma same_table_grows q q' : same_table q q' → grows q q'.
Proof.
  intros [Hj Hp]. unfold grows. rewrite Hj, Hp. split_and!; [done|lia|lia|]. intros [Hs Hb].
  split; rewrite ?Hj, ?Hp; done.
Qed.
Lemma take_pid_spec q : (q_next_pid q + 1 < 2 ^ 64)%Z → (0 ≤ q_next_pid q)%Z →
  take_pid oc q = (mk_qga_state (q_jobs q) (q_next_pid q + 1) (q_frozen q) (q_delimited q) (q_done q) (q_calls q),
                   Ok (q_next_pid q)).
Proof.
  intros Hq H0. unfold take_pid, get_state, mbind, qact_bind. rewrite u_arith_in_range by (unfold in_u; lia). done.
Qed.
Lemma exec_grows args q : (q_next_pid q + 1 < 2 ^ 64)%Z → table_ok q → grows q (guest_exec oc args q).1.
Proof.
  intros Hq [Hs Hb]. unfold guest_exec. destruct (json_get "path" args ≫= as_str) as [path|];
    [|by apply same_table_grows].
  unfold mbind at 1, qact_bind at 1. rewrite take_pid_spec by lia.
  assert (∀ job done calls, grows q (mk_qga_state (<[q_next_pid q := job]> (q_jobs q)) (q_next_pid q + 1)
    (q_frozen q) (q_delimited q) done calls)) as Hnew.
  { intros job dn calls. split_and!; cbn; [|lia|lia|].
    - apply insert_subseteq. destruct (q_jobs q !! q_next_pid q) as [j|] eqn:E; [|done]. exfalso.
      specialize (Hb (q_next_pid q) ltac:(by rewrite E)). lia.
    - intros _. split; cbn; [lia|]. intros pid Hp. destruct (decide (pid = q_next_pid q)) as [->|Hne]; [lia|].
      rewrite lookup_insert_ne in Hp by done. specialize (Hb pid Hp). lia. }
  assert (∀ done calls, grows q (mk_qga_state (q_jobs q) (q_next_pid q + 1) (q_frozen q) (q_delimited q) done calls)) as Hold.
  { intros dn calls. split_and!; cbn; [done|lia|lia|]. intros _. split; cbn; [lia|]. intros pid Hp. specialize (Hb pid Hp). lia. }
  destruct (default false _); unfold mbind, qact_bind, qask; cbn.
  - by destruct (run_program _ _); cbn; [apply Hold|apply Hnew].
  - by destruct (spawn_program _ _); cbn; [apply Hold|apply Hnew].
Qed.
Lemma set_delimited_table b : moves same_table (set_delimited b).
Proof. by intros q. Qed.
Lemma change_freeze_table thaw : moves same_table (change_freeze thaw).
Proof. intros q. unfold change_freeze, mbind, qact_bind, qask. by destruct (helper_fsfreeze _ _). Qed.
Lemma command_grows execute command args q :
  command_of oc execute = Some command → (q_next_pid q + 1 < 2 ^ 64)%Z → table_ok q → grows q (command args q).1.
Proof.
  intros Hc Hq Hok. destruct (decide (execute ∈ stateful)) as [Hs|Hn].
  - unfold stateful in Hs. rewrite !elem_of_cons in Hs.
    destruct Hs as [->|[->|[->|[->|Hs]]]]; [..|by apply not_elem_of_nil in Hs]; injection Hc as <-.
    + by apply exec_grows.
    + by apply same_table_grows.
    + apply same_table_grows, change_freeze_table.
    + apply same_table_grows, change_freeze_table.
  - apply same_table_grows, (command_moves oc same_table) with execute; done.
Qed.
Lemma turn_grows chan bytes q a : (q_next_pid q + 1 < 2 ^ 64)%Z → table_ok q → grows q (turn chan bytes (q, a)).1.1.
Proof.
  intros Hq Hok. destruct (turn_qga_side chan bytes q a) as [d E]. rewrite E.
  assert (grows q (frame_on chan bytes (q, a)).1.1) as (Hj & Hp & Ht).
  { rewrite frame_qga_side. destruct (own_command bytes) as [[execute args]|]; [|by apply same_table_grows].
    destruct (command_of oc execute) as [command|] eqn:Ec; [by eapply command_grows|by apply same_table_grows]. }
  split_and!; cbn [q_jobs q_next_pid]; [done|lia|lia|]. intros Hq'. destruct (Ht Hq') as [Hs Hb]. by split.
Qed.
Lemma turns_keep chan frames : ∀ q a pid job, table_ok q →
  (q_next_pid q + Z.of_nat (length frames) < 2 ^ 64)%Z → q_jobs q !! pid = Some job →
  q_jobs (turns chan frames (q, a)).1 !! pid = Some job.
Proof.
  induction frames as [|[f written] frames IH]; intros q a pid job Hok Hn Hj; [done|]. cbn [channel_turns length] in *.
  destruct (turn_grows chan f q a ltac:(lia) Hok) as (Hsub & Hp & Ht).
  destruct (turn chan f (q, a)) as [[q' a'] r]. cbn [fst snd] in *.
  assert (q_jobs q' !! pid = Some job) as Hj' by (by eapply lookup_weaken).
  destruct r as [p|[]|]; [|done]. destruct written; [|done]. apply IH; [by apply Ht|lia|done].
Qed.

Lemma strings_of args : omap as_str (map JStr args) = args.
Proof. induction args as [|x l IH]; [done|]. cbn. by rewrite IH. Qed.
(** C21: the result of a program that the host started through the guest agent interface is
    there for good: from any state whose table is [table_ok] (pids from 1000, below the
    counter), while the counter does not reach the end of [u64], the pid that is answered is
    not that of another program, and after any further frames of the channel (requests for
    the handler, other programs, malformed frames, a panic or a failed write that ends the
    channel) the status of that pid is the exit code of the program with its output when it
    was captured.  (A program that is not captured is recorded as ended with success when
    it is started.) *)
Theorem exec_status_later chan path args capture q a q1 pid frames :
  table_ok q → (q_next_pid q + Z.of_nat (S (length frames)) < 2 ^ 64)%Z →
  guest_exec oc (JObj [("arg", JArr (map JStr args)); ("capture-output", JBool capture); ("path", JStr path)]) q =
    (q1, Ok (JObj [("pid", JInt pid)])) →
  q_jobs q !! pid = None ∧ (1000 ≤ pid)%Z ∧
  ∃ job, (capture = true → ∃ o, run_program (q_calls q) (path :: args) = inr o ∧
             job = mk_ExecJob (pr_stdout o) (pr_stderr o) true (default 1%Z (pr_code o))) ∧
         (capture = false → job = mk_ExecJob "" "" true 0) ∧
    let q2 := (turns chan frames (q1, a)).1 in
    guest_exec_status (JObj [("pid", JInt pid)]) q2 = (q2, Ok (job_status job)).
Proof.
  intros Hok Hn Hex. pose proof (exec_grows (JObj [("arg", JArr (map JStr args)); ("capture-output", JBool capture);
    ("path", JStr path)]) q ltac:(lia) Hok) as (Hsub & Hp & Ht). rewrite Hex in Hsub, Hp, Ht. cbn [fst] in *.
  destruct Hok as [Hs Hb] eqn:Eok. clear Eok.
  assert (strings_param "arg" (JObj [("arg", JArr (map JStr args)); ("capture-output", JBool capture); ("path", JStr path)])
    = args) as Hargs by apply strings_of.
  unfold guest_exec in Hex. cbn [json_get] in Hex. rewrite Hargs in Hex. cbn in Hex.
  unfold mbind at 1, qact_bind at 1 in Hex. rewrite take_pid_spec in Hex by lia.
  assert (∃ job, (capture = true → ∃ o, run_program (q_calls q) (path :: args) = inr o ∧
      job = mk_ExecJob (pr_stdout o) (pr_stderr o) true (default 1%Z (pr_code o))) ∧
    (capture = false → job = mk_ExecJob "" "" true 0) ∧ pid = q_next_pid q ∧ q_jobs q1 !! pid = Some job) as
    (job & Hc & Hnc & -> & Hj).
  { destruct capture; unfold mbind, qact_bind, qask in Hex; cbn in Hex.
    - destruct (run_program (q_calls q) (path :: args)) as [e|o] eqn:Er; [done|]. injection Hex as <- <-.
      eexists. split_and!; [intros _; exists o; done|done|done|]. cbn. by rewrite lookup_insert_eq.
    - destruct (spawn_program (q_calls q) (path :: args)) as [e|] eqn:Er; [done|]. injection Hex as <- <-.
      eexists. split_and!; [done|done|done|]. cbn. by rewrite lookup_insert_eq. }
  split; [|split; [lia|]].
  { destruct (q_jobs q !! q_next_pid q) as [j|] eqn:E; [|done]. specialize (Hb (q_next_pid q) ltac:(by rewrite E)). lia. }
  exists job. split; [done|]. split; [done|]. cbv zeta.
  pose proof (turns_keep chan frames q1 a (q_next_pid q) job (Ht (mk_table_ok q Hs Hb)) ltac:(lia) Hj) as Hk.
  unfold guest_exec_status, u64_param. cbn [json_get List.find fst snd String.eqb Ascii.eqb Bool.eqb fmap option_fmap option_map].
  cbn. assert ((0 <=? q_next_pid q)%Z && (q_next_pid q <? u64_max)%Z = true) as -> by (unfold u64_max; lia).
  cbn. unfold mbind, qact_bind, get_state. by rewrite Hk.
Qed.

(** a frame of the interface with [guest-exec], in whatever environment and with
    whatever policy: the program is run with its arguments, the answer is its pid, and the
    state of the handler, with its audit trail and its replay cache, stays as it is. *)
Theorem qga_exec_unchecked chan bytes path args q a :
  json_from_slice bytes =
    inr (JObj [("arguments", JObj [("arg", JArr (map JStr args)); ("path", JStr path)]); ("execute", JStr "guest-exec")]) →
  spawn_program (q_calls q) (path :: args) = None → (0 ≤ q_next_pid q)%Z → (q_next_pid q + 1 < 2 ^ 64)%Z →
  ∃ q', frame_on chan bytes (q, a) = ((q', a), Ok (qga_ok None (JObj [("pid", JInt (q_next_pid q))]))) ∧
    q_done q' = q_done q ++ [QSpawned (path :: args)].
Proof.
  intros Hj Hs H0 Hn.
  assert (is_qga_request bytes = true) as Hq by (unfold is_qga_request; rewrite Hj; by apply bool_decide_true).
  assert (extract_rpc_passthrough bytes = None) as Hx by (unfold extract_rpc_passthrough; by rewrite Hj).
  unfold handle_frame_on, qga_handle. rewrite Hq, Hx, Hj.
  cbn [json_get List.find fst snd String.eqb Ascii.eqb Bool.eqb fmap option_fmap option_map mbind option_bind as_str
       default from_option Datatypes.id].
  change (command_of oc "guest-exec") with (Some (guest_exec oc)). cbn beta match.
  assert (∃ q', guest_exec oc (JObj [("arg", JArr (map JStr args)); ("path", JStr path)]) q =
      (q', Ok (JObj [("pid", JInt (q_next_pid q))])) ∧ q_done q' = q_done q ++ [QSpawned (path :: args)]) as (q' & E & Hd).
  { unfold guest_exec. change (strings_param "arg" (JObj [("arg", JArr (map JStr args)); ("path", JStr path)]))
      with (omap as_str (map JStr args)). rewrite strings_of. cbn.
    unfold mbind at 1, qact_bind at 1. rewrite take_pid_spec by lia.
    unfold mbind, qact_bind, qask. cbn. rewrite Hs. cbn. by eexists. }
  exists q'. split; [|done]. change (default (JObj []) (Some ?v)) with v. rewrite E. done.
Qed.

(** the commands that are answered: those that are advertised but [guestkit-rpc], which
    is answered by the handler, and six that are not advertised. *)
Theorem advertised_commands execute :
  is_Some (command_of oc execute) ↔
  (execute ∈ supported_commands ∧ execute ≠ "guestkit-rpc") ∨
  execute ∈ ["guest-suspend-disk"; "guest-suspend-ram"; "guest-suspend-hybrid"; "guestkit-get-login-state";
             "guestkit-get-dns-state"; "guestkit-get-snapshot-readiness"].
Proof.
  assert (is_Some (command_of oc execute) ↔ execute ∈ map fst (own_commands oc) ++ queried) as ->.
  { unfold command_of. rewrite elem_of_app. split.
    - destruct (List.find _ _) as [c|] eqn:E.
      + intros _. left. apply find_some in E as [Hin Heq%String.eqb_eq]. apply list_elem_of_fmap. exists c.
        split; [done|]. by apply list_elem_of_In.
      + destruct (existsb _ queried) eqn:Eq; [|by intros []]. intros _. right.
        apply existsb_exists in Eq as (x & Hx & ->%String.eqb_eq). by apply list_elem_of_In.
    - intros [Hin|Hin].
      + destruct (List.find _ _) as [c|] eqn:E; [done|]. apply list_elem_of_fmap in Hin as (c & -> & Hc).
        pose proof (find_none _ _ E c ltac:(by apply list_elem_of_In)) as Hn. cbn beta in Hn. by rewrite String.eqb_refl in Hn.
      + destruct (List.find _ _); [done|]. assert (existsb (String.eqb execute) queried = true) as ->; [|done].
        apply existsb_exists. exists execute. by rewrite String.eqb_refl, <-list_elem_of_In. }
  assert (Forall (fun c => (c ∈ supported_commands ∧ c ≠ "guestkit-rpc") ∨
    c ∈ ["guest-suspend-disk"; "guest-suspend-ram"; "guest-suspend-hybrid"; "guestkit-get-login-state";
         "guestkit-get-dns-state"; "guestkit-get-snapshot-readiness"]) (map fst (own_commands oc) ++ queried)) as H1.
  { apply (bool_decide_unpack _). vm_compute. exact I. }
  assert (Forall (fun c => c = "guestkit-rpc" ∨ c ∈ map fst (own_commands oc) ++ queried)
    (supported_commands ++ ["guest-suspend-disk"; "guest-suspend-ram"; "guest-suspend-hybrid"; "guestkit-get-login-state";
         "guestkit-get-dns-state"; "guestkit-get-snapshot-readiness"])) as H2.
  { apply (bool_decide_unpack _). vm_compute. exact I. }
  rewrite Forall_forall in H1, H2. split; [apply H1|]. intros [[Hs Hn]|Hs].
  - destruct (H2 execute) as [?|?]; [apply elem_of_app; by left|done|done].
  - destruct (H2 execute) as [->|?]; [apply elem_of_app; by right| |done]. apply (bool_decide_pack _) in Hs. by vm_compute in Hs.
Qed.

(** ** The freeze status *)
Definition frozen_by (done : list qga_effect) : bool :=
  foldl (fun b e => match e with QFsfreeze thaw => negb thaw | _ => b end) false done.
Definition status_true (q q' : qga_state) : Prop :=
  q_frozen q = frozen_by (q_done q) → q_frozen q' = frozen_by (q_done q').
#[local] Instance status_true_order : PreOrder status_true.
Proof. split; [intros q Hq; exact Hq|]. intros q1 q2 q3 H1 H2 H3. apply H2, H1, H3. Qed.
Lemma frozen_by_snoc l e : frozen_by (l ++ [e]) = match e with QFsfreeze thaw => negb thaw | _ => frozen_by l end.
Proof. unfold frozen_by. by rewrite foldl_app. Qed.
Lemma command_status execute command args : command_of oc execute = Some command → moves status_true (command args).
Proof.
  intros Hc. assert (∀ e, (∀ b, e ≠ QFsfreeze b) → moves status_true (qdo e)) as Hdo.
  { intros e He q Hq. cbn. rewrite frozen_by_snoc, Hq. destruct e; try done. by destruct (He thaw). }
  destruct (decide (execute ∈ stateful)) as [Hs|Hn]; [|eapply (command_moves oc status_true); [intros q Hq; exact Hq|exact Hdo|exact Hc|exact Hn]].
  unfold stateful in Hs. rewrite !elem_of_cons in Hs.
  destruct Hs as [->|[->|[->|[->|Hs]]]]; [..|by apply not_elem_of_nil in Hs]; injection Hc as <-.
  - unfold guest_exec. destruct (json_get "path" args ≫= as_str) as [path|]; [|intros q Hq; exact Hq].
    intros q Hq. unfold take_pid, mbind, qact_bind, get_state. cbn.
    destruct (u_arith oc 64 (q_next_pid q + 1)) as [n|[]|]; [|done]. cbn.
    destruct (default false _); cbn; [destruct (run_program _ _)|destruct (spawn_program _ _)]; cbn; try done.
    all: unfold keep_job, mbind, qact_bind, get_state; cbn; by rewrite frozen_by_snoc.
  - intros q Hq. exact Hq.
  - intros q Hq. unfold guest_fsfreeze_freeze, change_freeze, mbind, qact_bind, qask.
    destruct (helper_fsfreeze _ _); cbn; [done|]. by rewrite frozen_by_snoc.
  - intros q Hq. unfold guest_fsfreeze_thaw, change_freeze, mbind, qact_bind, qask.
    destruct (helper_fsfreeze _ _); cbn; [done|]. by rewrite frozen_by_snoc.
Qed.
(** after any frames, the freeze status that is answered is that of the last freeze or
    thaw the helper carried out for this interface. *)
Theorem freeze_status_last chan frames a :
  let q := (turns chan frames (qga_start, a)).1 in
  guest_fsfreeze_status q = (q, Ok (JStr (if frozen_by (q_done q) then "frozen" else "thawed"))).
Proof.
  cbv zeta. assert (q_frozen (turns chan frames (qga_start, a)).1 = frozen_by (q_done (turns chan frames (qga_start, a)).1)) as E.
  { assert (∀ q, q_frozen q = frozen_by (q_done q) → ∀ a, q_frozen (turns chan frames (q, a)).1 =
      frozen_by (q_done (turns chan frames (q, a)).1)) as Hall; [|by apply Hall].
    induction frames as [|[f written] frames IH]; intros q Hq a'; [done|]. cbn [channel_turns].
    destruct (turn_qga_side chan f q a') as [d Et]. destruct (turn chan f (q, a')) as [[q' a2] r]. cbn [fst] in *.
    assert (q_frozen q' = frozen_by (q_done q')) as Hq'.
    { rewrite Et. cbn [q_frozen q_done]. rewrite frame_qga_side.
      destruct (own_command f) as [[execute args]|]; [|done]. destruct (command_of oc execute) as [command|] eqn:Ec; [|done].
      by apply (command_status execute command args Ec q). }
    destruct r as [p|[]|]; [|done]. destruct written; [by apply IH|done]. }
  unfold guest_fsfreeze_status, mbind, qact_bind, get_state. by rewrite E.
Qed.

(** ** The sentinel *)
Definition same_flag (q q' : qga_state) : Prop := q_delimited q' = q_delimited q.
#[local] Instance same_flag_order : PreOrder same_flag.
Proof. split; [by intros q|]. intros q1 q2 q3 H1 H2. unfold same_flag in *. congruence. Qed.
Lemma command_flag execute command args :
  command_of oc execute = Some command → execute ≠ "guest-sync-delimited" → moves same_flag (command args).
Proof.
  intros Hc Hd. destruct (decide (execute ∈ stateful)) as [Hs|Hn]; [|eapply (command_moves oc same_flag); done].
  unfold stateful in Hs. rewrite !elem_of_cons in Hs.
  destruct Hs as [->|[->|[->|[->|Hs]]]]; [..|by apply not_elem_of_nil in Hs]; injection Hc as <-; try done; intros q.
  - unfold guest_exec. destruct (json_get "path" args ≫= as_str) as [path|]; [|done].
    unfold take_pid, mbind, qact_bind, get_state. cbn.
    destruct (u_arith oc 64 (q_next_pid q + 1)) as [n|[]|]; [|done]. cbn.
    destruct (default false _); cbn; [destruct (run_program _ _)|destruct (spawn_program _ _)]; done.
  - unfold guest_fsfreeze_freeze, change_freeze, mbind, qact_bind, qask. by destruct (helper_fsfreeze _ _).
  - unfold guest_fsfreeze_thaw, change_freeze, mbind, qact_bind, qask. by destruct (helper_fsfreeze _ _).
Qed.
(** the sentinel goes before an answer exactly when the frame asks for a delimited
    synchronisation, whatever was served before it. *)
Lemma sentinel_exactly chan bytes q a st payload delimited :
  q_delimited q = false → turn chan bytes (q, a) = (st, Ok (payload, delimited)) →
  q_delimited st.1 = false ∧ (delimited = true ↔ ∃ args, own_command bytes = Some ("guest-sync-delimited", args)).
Proof.
  intros Hq. unfold channel_turn. pose proof (frame_qga_side chan bytes q a) as Hs.
  destruct (frame_on chan bytes (q, a)) as [[q' a'] [p|e|]]; [|done|done]. cbn [fst] in Hs. intros [= <- <- <-].
  split; [done|]. rewrite Hs. destruct (own_command bytes) as [[execute args]|]; [|rewrite Hq; naive_solver].
  destruct (decide (execute = "guest-sync-delimited")) as [->|Hne].
  - split; [by eauto|]. done.
  - assert (q_delimited (match command_of oc execute with Some command => (command args q).1 | None => q end) = false) as ->.
    { destruct (command_of oc execute) as [command|] eqn:Ec; [|done].
      by rewrite (command_flag execute command args Ec Hne q). }
    naive_solver.
Qed.
End props.

(** ** Examples *)
#[local] Instance qga_example : QgaEnv := {|
  json_from_slice s :=
    if String.eqb s "e" then inr (JObj [("arguments", JObj [("arg", JArr (map JStr ["-c"; "id"])); ("path", JStr "/bin/sh")]);
                                        ("execute", JStr "guest-exec")])
    else if String.eqb s "s" then inr (JObj [("execute", JStr "guest-suspend-ram")])
    else inl "eof";
  json_to_vec _ := "{}"; q_base64 s := s; utf8_lossy s := s;
  run_program _ _ := inr (mk_program_output true "uid=0" "" (Some 0%Z) "0");
  spawn_program _ _ := None; helper_fsfreeze _ _ := None; file_text _ _ := None; link_text _ _ := None;
  unix_seconds _ := inr 0%Z; net_classes _ := []; agent_reply _ _ _ := inr JNull
|}.
(** a handler that refuses everything. *)
Definition closed_env : @AgentEnv (json_platform ascii_platform) := {|
  policy_files _ := mk_policy_source None (fun _ => false) (fun _ => None); utc_nanos n := Z.of_nat n; instant n := Z.of_nat n;
  perform _ _ _ := inl (RpcInternalError, "closed"); from_yaml _ := None; glob_new _ := None; utc_rfc3339 _ := "";
  parse_ts _ := inl "bad"; add_millis _ _ := None; AgentHandler.request_from_slice _ := inl "bad"; value_get _ _ := None;
  value_as_bool _ := None; value_as_str _ := None; io_text _ := ""
|}.
Definition agent_idle : @agent_state (json_platform ascii_platform) :=
  mk_agent_state (json_platform ascii_platform) (mk_ReplayCache (json_platform ascii_platform) [] ∅ ∅) [] [] 0.
Definition no_text (_ : @JsonRpcResponse (json_platform ascii_platform)) : string := "".

(** a shell is started although the handler admits no request at all. *)
Lemma qga_exec_unchecked_witness :
  ∃ q', @handle_frame_on _ true ascii_platform closed_env no_text None "e" (qga_start, agent_idle) =
      ((q', agent_idle), Ok (qga_ok None (JObj [("pid", JInt 1000)]))) ∧
    q_done q' = q_done qga_start ++ [QSpawned ["/bin/sh"; "-c"; "id"]].
Proof.
  apply (@qga_exec_unchecked _ true ascii_platform closed_env no_text None "e" "/bin/sh" ["-c"; "id"] qga_start agent_idle);
    [reflexivity|reflexivity|done|done].
Defined.
Lemma start_table : table_ok qga_start.
Proof. split; [done|]. intros pid Hp. cbn in Hp. rewrite lookup_empty in Hp. by destruct Hp. Qed.
Definition shell_request : json :=
  JObj [("arg", JArr (map JStr ["-c"; "id"])); ("capture-output", JBool true); ("path", JStr "/bin/sh")].
Lemma exec_status_later_witness :
  ∃ job, let q2 := (@channel_turns _ true ascii_platform closed_env no_text None [("e", true); ("s", true)]
                      ((guest_exec true shell_request qga_start).1, agent_idle)).1 in
    guest_exec_status (JObj [("pid", JInt 1000)]) q2 = (q2, Ok (job_status job)).
Proof.
  destruct (@exec_status_later _ true ascii_platform closed_env no_text None "/bin/sh" ["-c"; "id"] true qga_start agent_idle
    (guest_exec true shell_request qga_start).1 1000 [("e", true); ("s", true)] start_table) as (_ & _ & job & _ & _ & Hs);
    [done|vm_compute; reflexivity|]. exists job. exact Hs.
Defined.
(** a program that is not captured counts as ended with success while it runs. *)
Example uncaptured_is_ended :
  q_jobs (guest_exec true (JObj [("path", JStr "/bin/sleep")]) qga_start).1 !! 1000%Z = Some (mk_ExecJob "" "" true 0).
Proof. vm_compute. reflexivity. Qed.
(** suspending is answered with success and does nothing. *)
Example suspend_does_nothing :
  qga_handle true "s" qga_start = (qga_start, Ok (qga_ok None (JObj []))).
Proof. vm_compute. reflexivity. Qed.
