(* ===== verification/Export.v ===== *)
(** * Exporting a plan

    [PlanExporter] of [src/cli/plan/export.rs]: a plan as a script of the shell and as an
    Ansible playbook, one definition per kind of line.  The version, the text of a time and
    the text of a JSON value are [ExportText].  The JSON and YAML exports are serde's. *)
From stdpp Require Import base gmap strings list.
From Stdlib Require Import ZArith Lia Ascii.
From S2P Require Import Prelude RustStr Kahn FixPlan Repair Passport FileOps GuestFs Offline.

Class ExportText `{Platform} := {
  cargo_version : string;
  utc_text : Z → string;
  json_text : json_value → string
}.

Definition shell_escape (s : string) : string := squote +:+ quote_body s +:+ squote.
Definition sed_char (c : ascii) : string :=
  if Ascii.eqb c (ascii_of_byte 92) then "\\"
  else if Ascii.eqb c "/"%char then "\/"
  else if Ascii.eqb c "&"%char then "\&"
  else if Ascii.eqb c (ascii_of_byte 10) then "\n"
  else String c "".
(** the four replacements, of which none makes what a later one replaces. *)
Fixpoint sed_escape (s : string) : string :=
  match s with
  | EmptyString => ""
  | String c s => sed_char c +:+ sed_escape s
  end.
Definition line (s : string) : string := s +:+ newline_str.
Definition block (ls : list string) : string := join "" (map line ls).
(** [trim_end_matches('\n')]. *)
Definition trim_newlines (s : string) : string := trim_end_char (ascii_of_byte 10) s.

Section export.
Context `{ExportText}.

(** ** Shell *)
Definition mkdir_parent (path : string) : list string :=
  let parent := guest_parent path in
  if negb (String.eqb parent "/") && negb (is_empty parent) then ["mkdir -p " +:+ shell_escape parent] else [].
Definition bash_lines (t : OperationType) : list string :=
  match t with
  | OpFileEdit fe =>
      ("cp " +:+ shell_escape (fed_file fe) +:+ " " +:+ dquote +:+ "$BACKUP_DIR/" +:+ dquote)
      :: map (fun c => "sed -i 's/" +:+ sed_escape (fc_before c) +:+ "/" +:+ sed_escape (fc_after c)
                       +:+ "/g' " +:+ shell_escape (fed_file fe)) (fed_changes fe)
  | OpFileWrite fw =>
      mkdir_parent (fw_path fw)
      ++ ["cat > " +:+ shell_escape (fw_path fw) +:+ " << 'GUESTKIT_EOF'" +:+ newline_str
          +:+ trim_newlines (fw_content fw) +:+ newline_str +:+ "GUESTKIT_EOF"]
      ++ match fw_mode fw with
         | Some mode => ["chmod " +:+ shell_escape mode +:+ " " +:+ shell_escape (fw_path fw)]
         | None => []
         end
  | OpSymlink sl => ["ln -sfn " +:+ shell_escape (sl_target sl) +:+ " " +:+ shell_escape (sl_link_path sl)]
  | OpFileDelete fd => [(if fd_missing_ok fd then "rm -f " else "rm ") +:+ shell_escape (fd_path fd)]
  | OpPackageInstall pi => ["dnf install -y " +:+ join " " (map shell_escape (pi_packages pi))]
  | OpServiceOperation so =>
      (if bool_decide (so_state so = Some "enabled") then ["systemctl enable " +:+ shell_escape (so_service so)] else [])
      ++ (if so_start so then ["systemctl start " +:+ shell_escape (so_service so)] else [])
      ++ (if so_restart so then ["systemctl restart " +:+ shell_escape (so_service so)] else [])
  | OpSelinuxMode sm =>
      ["sed -i 's/SELINUX=" +:+ sed_escape (sm_current sm) +:+ "/SELINUX=" +:+ sed_escape (sm_target sm)
       +:+ "/g' " +:+ shell_escape (sm_file sm)]
  | OpCommandExec ce => ["# [CommandExec] Review the following command before running:"; cx_command ce]
  | OpFileCopy fc => ["cp " +:+ shell_escape (cp_source fc) +:+ " " +:+ shell_escape (cp_destination fc)]
  | OpDirectoryCreate dc =>
      [match dc_mode dc with
       | Some mode => "mkdir -p -m " +:+ shell_escape mode +:+ " " +:+ shell_escape (dc_path dc)
       | None => "mkdir -p " +:+ shell_escape (dc_path dc)
       end]
  | OpFilePermissions fp =>
      ("chmod " +:+ shell_escape (fp_mode fp) +:+ " " +:+ shell_escape (fp_path fp))
      :: match fp_owner fp with
         | Some owner => ["chown " +:+ shell_escape owner +:+ " " +:+ shell_escape (fp_path fp)]
         | None => []
         end
  | OpDriverInject di =>
      ["pnputil /add-driver " +:+ shell_escape (di_inf_path di) +:+ " /install  # driver: "
       +:+ shell_escape (di_driver_name di)]
  | OpRegistryEdit re =>
      ["echo " +:+ dquote +:+ "Registry edit: " +:+ shell_escape (re_key re) +:+ " \\ " +:+ shell_escape (re_value re)
       +:+ " = " +:+ shell_escape (json_text (re_new_data re)) +:+ " (type: " +:+ shell_escape (re_data_type re)
       +:+ ")" +:+ dquote;
       "echo " +:+ dquote +:+ "WARNING: Registry edits require Windows tools (reg.exe or regedit)" +:+ dquote]
  end.
Definition operation_to_bash (op : Operation) : string :=
  block (("# " +:+ op_id op +:+ ": " +:+ op_description op)
         :: bash_lines (op_type op)
         ++ match op_validation op with
            | Some v => [vc_command v +:+ " || { echo " +:+ dquote +:+ "Validation failed for "
                         +:+ shell_escape (op_id op) +:+ dquote +:+ "; exit 1; }"]
            | None => []
            end
         ++ [""]).
Definition post_action_to_bash (action : PostApplyAction) : string :=
  block (match action with
         | ServiceRestart services => map (fun s => "systemctl restart " +:+ shell_escape s) services
         | Validation command _ => [command]
         | Message message => ["echo " +:+ shell_escape message]
         | RebootRequired reason => ["echo " +:+ shell_escape ("Reboot required: " +:+ reason)]
         end).
(** the check mark of the last line is the text [mark]. *)
Definition to_bash (mark : string) (plan : FixPlan) : string :=
  block ["#!/bin/bash"; "# Generated by GuestKit v" +:+ cargo_version; "# Profile: " +:+ pl_profile plan;
         "# VM: " +:+ pl_vm plan; "# Generated: " +:+ utc_text (pl_generated plan); ""; "set -e"; "";
         "echo " +:+ dquote +:+ "Applying " +:+ pl_profile plan +:+ " fixes..." +:+ dquote; "";
         "# Create backup"; "BACKUP_DIR=" +:+ dquote +:+ "/backup/$(date +%Y%m%d-%H%M%S)" +:+ dquote;
         "mkdir -p " +:+ dquote +:+ "$BACKUP_DIR" +:+ dquote; ""]
  +:+ join "" (map operation_to_bash (pl_operations plan))
  +:+ match pl_post_apply plan with
      | [] => ""
      | actions => line "# Post-apply actions" +:+ join "" (map post_action_to_bash actions)
      end
  +:+ block [""; "echo " +:+ dquote +:+ mark +:+ " All fixes applied successfully" +:+ dquote].

(** ** Ansible *)
Definition ansible_lines (t : OperationType) : list string :=
  match t with
  | OpFileEdit fe =>
      match fed_changes fe with
      | change :: _ => ["      lineinfile:"; "        path: " +:+ fed_file fe;
                        "        regexp: '^" +:+ fc_before change +:+ "$'"; "        line: '" +:+ fc_after change +:+ "'";
                        "        backup: yes"]
      | [] => []
      end
  | OpFileWrite fw =>
      ["      copy:"; "        dest: " +:+ fw_path fw; "        content: |"]
      ++ map (fun l => "          " +:+ l) (lines (fw_content fw))
      ++ match fw_mode fw with Some mode => ["        mode: '" +:+ mode +:+ "'"] | None => [] end
  | OpSymlink sl => ["      file:"; "        src: " +:+ sl_target sl; "        dest: " +:+ sl_link_path sl;
                     "        state: link"; "        force: yes"]
  | OpFileDelete fd => ["      file:"; "        path: " +:+ fd_path fd; "        state: absent"]
  | OpPackageInstall pi =>
      ["      package:"; "        name:"] ++ map (fun p => "          - " +:+ p) (pi_packages pi)
      ++ ["        state: present"]
  | OpServiceOperation so =>
      ["      service:"; "        name: " +:+ so_service so]
      ++ match so_state so with
         | Some state => ["        enabled: " +:+ fmt_bool (String.eqb state "enabled")]
         | None => []
         end
      ++ (if so_start so then ["        state: started"] else [])
  | OpSelinuxMode sm => ["      lineinfile:"; "        path: " +:+ sm_file sm;
                         "        regexp: '^SELINUX=" +:+ sm_current sm +:+ "'";
                         "        line: 'SELINUX=" +:+ sm_target sm +:+ "'"; "        backup: yes"]
  | OpCommandExec ce => ["      command: " +:+ cx_command ce]
  | OpFileCopy fc =>
      ["      copy:"; "        src: " +:+ cp_source fc; "        dest: " +:+ cp_destination fc; "        remote_src: yes"]
      ++ (if cp_backup fc then ["        backup: yes"] else [])
  | OpDirectoryCreate dc =>
      ["      file:"; "        path: " +:+ dc_path dc; "        state: directory"]
      ++ match dc_mode dc with Some mode => ["        mode: '" +:+ mode +:+ "'"] | None => [] end
  | OpFilePermissions fp =>
      ["      file:"; "        path: " +:+ fp_path fp; "        mode: '" +:+ fp_mode fp +:+ "'"]
      ++ match fp_owner fp with Some o => ["        owner: " +:+ o] | None => [] end
      ++ match fp_group fp with Some g => ["        group: " +:+ g] | None => [] end
  | OpRegistryEdit re => ["      win_regedit:"; "        path: " +:+ re_key re; "        name: " +:+ re_value re;
                          "        data: " +:+ json_text (re_new_data re); "        type: " +:+ re_data_type re]
  | OpDriverInject di => ["      win_command: pnputil /add-driver " +:+ di_inf_path di +:+ " /install"]
  end.
Definition operation_to_ansible (op : Operation) : string :=
  block (("    - name: " +:+ op_description op) :: ansible_lines (op_type op) ++ [""]).
Definition agent_tasks : list string :=
  ["    - name: Install GuestKit agent binary"; "      copy:"; "        src: guestkit";
   "        dest: /usr/local/bin/guestkit"; "        mode: '0755'";
   "    - name: Install guestkit-agent systemd unit"; "      copy:"; "        src: guestkit-agent.service";
   "        dest: /etc/systemd/system/guestkit-agent.service"; "    - name: Enable guestkit-agent";
   "      systemd:"; "        name: guestkit-agent"; "        enabled: yes"; "        daemon_reload: yes"].
Definition to_ansible (plan : FixPlan) : string :=
  block (["---"; "- name: GuestKit " +:+ pl_profile plan +:+ " Fixes"; "  hosts: vm"; "  become: yes"; "  tasks:"]
         ++ (if existsb (String.eqb "inject-agent") (pm_tags (pl_metadata plan)) then agent_tasks else []))
  +:+ join "" (map operation_to_ansible (pl_operations plan)).
End export.
