(* ===== verification/ExportProps.v ===== *)
(** * What an exported script runs

    The words a shell finds in the exported lines, by the rules of token recognition for
    plain characters, single quotes, backslashes, comments and separators ([lex]; a text
    that needs more of the shell has no result).  Every value that is quoted is one word
    again, so the operations made of quoted values run exactly the commands they stand for,
    whatever the values are.  The values that are not quoted are examples. *)
From stdpp Require Import base gmap strings list.
From Stdlib Require Import ZArith Lia Ascii.
From S2P Require Import Prelude RustStr Kahn FixPlan Repair Passport Words FileOps GuestFs Serial SerialProps Offline Export.

(** ** Token recognition *)
Inductive lex_mode : Type := Unquoted | Quoted | Escaped | Commented.
(** the characters the shell reads as themselves between words. *)
Definition is_plain (c : ascii) : bool :=
  (48 <=? byte_of c)%Z && (byte_of c <=? 57)%Z || (65 <=? byte_of c)%Z && (byte_of c <=? 90)%Z
  || (97 <=? byte_of c)%Z && (byte_of c <=? 122)%Z || existsb (Ascii.eqb c) ["-"; "_"; "/"; "."; ":"; "="; "+"; ","; "%"; "@"]%char.
Definition end_word (cur : option string) (words : list string) : list string :=
  match cur with Some w => words ++ [w] | None => words end.
Definition end_command (words : list string) (rest : list (list string)) : list (list string) :=
  match words with [] => rest | _ => words :: rest end.
Definition add_char (cur : option string) (c : ascii) : option string := Some (default "" cur +:+ String c "").
(** the commands of a text, each a list of words. *)
Fixpoint lex (mode : lex_mode) (cur : option string) (words : list string) (s : string) : option (list (list string)) :=
  match s with
  | EmptyString =>
      match mode with
      | Unquoted | Commented => Some (end_command (end_word cur words) [])
      | _ => None
      end
  | String c s =>
      match mode with
      | Commented =>
          if Ascii.eqb c newline_char then end_command (end_word cur words) <$> lex Unquoted None [] s
          else lex Commented cur words s
      | Quoted =>
          if Ascii.eqb c (ascii_of_byte 39) then lex Unquoted (Some (default "" cur)) words s
          else lex Quoted (add_char cur c) words s
      | Escaped => if Ascii.eqb c newline_char then None else lex Unquoted (add_char cur c) words s
      | Unquoted =>
          if Ascii.eqb c (ascii_of_byte 39) then lex Quoted (Some (default "" cur)) words s
          else if Ascii.eqb c (ascii_of_byte 92) then lex Escaped cur words s
          else if Ascii.eqb c newline_char || Ascii.eqb c ";"%char then
            end_command (end_word cur words) <$> lex Unquoted None [] s
          else if Ascii.eqb c " "%char then lex Unquoted None (end_word cur words) s
          else if Ascii.eqb c "#"%char then
            match cur with None => lex Commented None words s | Some _ => lex Unquoted (add_char cur c) words s end
          else if is_plain c then lex Unquoted (add_char cur c) words s
          else None
      end
  end.
Definition commands_of (s : string) : option (list (list string)) := lex Unquoted None [] s.

(** ** Quoted values *)
Lemma lex_quoted s : ∀ cur words rest,
  lex Quoted (Some cur) words (quote_body s +:+ squote +:+ rest) = lex Unquoted (Some (cur +:+ s)) words rest.
Proof.
  induction s as [|c s IH]; intros cur words rest.
  - cbn. by rewrite text_app_nil.
  - cbn [quote_body]. destruct (Ascii.eqb c (ascii_of_byte 39)) eqn:E.
    + apply Ascii.eqb_eq in E as ->. rewrite text_app_assoc.
      change (lex Quoted (Some (cur +:+ String "'" "")) words (quote_body s +:+ squote +:+ rest)
              = lex Unquoted (Some (cur +:+ String "'" s)) words rest).
      rewrite IH. by rewrite text_app_assoc.
    + change ((String c "" +:+ quote_body s) +:+ squote +:+ rest) with (String c (quote_body s +:+ squote +:+ rest)).
      cbn [lex]. rewrite E. unfold add_char. cbn [default from_option]. rewrite IH. by rewrite text_app_assoc.
Qed.
Lemma lex_escaped s words rest : lex Unquoted None words (shell_escape s +:+ rest) = lex Unquoted (Some s) words rest.
Proof.
  unfold shell_escape. rewrite !text_app_assoc.
  change (lex Quoted (Some "") words (quote_body s +:+ squote +:+ rest) = lex Unquoted (Some s) words rest).
  by rewrite lex_quoted.
Qed.

(** ** Command lines of words and quoted values *)
Inductive shell_arg : Type := Lit (w : string) | Val (s : string).
Definition arg_text (a : shell_arg) : string := match a with Lit w => w | Val s => shell_escape s end.
Definition arg_value (a : shell_arg) : string := match a with Lit w => w | Val s => s end.
Definition arg_ok (a : shell_arg) : Prop := match a with Lit w => w ≠ "" ∧ str_forall is_plain w = true | Val _ => True end.

Lemma plain_cases c : is_plain c = true →
  Ascii.eqb c (ascii_of_byte 39) = false ∧ Ascii.eqb c (ascii_of_byte 92) = false ∧
  Ascii.eqb c newline_char || Ascii.eqb c ";"%char = false ∧ Ascii.eqb c " "%char = false ∧ Ascii.eqb c "#"%char = false.
Proof. by destruct c as [[] [] [] [] [] [] [] []]. Qed.
Lemma lex_plain w : ∀ cur words rest, str_forall is_plain w = true →
  lex Unquoted (Some cur) words (w +:+ rest) = lex Unquoted (Some (cur +:+ w)) words rest.
Proof.
  induction w as [|c w IH]; intros cur words rest; [by rewrite text_app_nil|].
  intros [Hc Hw]%text_forall_cons. change (String c w +:+ rest) with (String c (w +:+ rest)).
  destruct (plain_cases c Hc) as (E1 & E2 & E3 & E4 & E5). cbn [lex]. rewrite E1, E2, E3, E4, E5, Hc.
  unfold add_char. cbn [default from_option]. rewrite IH by done. by rewrite text_app_assoc.
Qed.
Lemma lex_lit w words rest : w ≠ "" → str_forall is_plain w = true →
  lex Unquoted None words (w +:+ rest) = lex Unquoted (Some w) words rest.
Proof.
  destruct w as [|c w]; [done|]. intros _ [Hc Hw]%text_forall_cons. change (String c w +:+ rest) with (String c (w +:+ rest)).
  destruct (plain_cases c Hc) as (E1 & E2 & E3 & E4 & E5). cbn [lex]. rewrite E1, E2, E3, E4, E5, Hc.
  unfold add_char. cbn [default from_option]. by rewrite lex_plain.
Qed.
Lemma lex_arg a words rest : arg_ok a →
  lex Unquoted None words (arg_text a +:+ rest) = lex Unquoted (Some (arg_value a)) words rest.
Proof. destruct a as [w|s]; [intros []; by apply lex_lit|]. intros _. apply lex_escaped. Qed.
Lemma lex_args args : ∀ words rest, args ≠ [] → Forall arg_ok args →
  lex Unquoted None words (join " " (map arg_text args) +:+ String newline_char rest) =
  end_command (words ++ map arg_value args) <$> lex Unquoted None [] rest.
Proof.
  induction args as [|a args IH]; intros words rest Hne Hok; [done|]. apply Forall_cons in Hok as [Ha Hok].
  destruct args as [|b args].
  - cbn [map join]. rewrite lex_arg by done. done.
  - change (join " " (map arg_text (a :: b :: args))) with (arg_text a +:+ String " " (join " " (map arg_text (b :: args)))).
    rewrite text_app_assoc, lex_arg by done.
    change (lex Unquoted None (words ++ [arg_value a]) (join " " (map arg_text (b :: args)) +:+ String newline_char rest)
            = end_command (words ++ map arg_value (a :: b :: args)) <$> lex Unquoted None [] rest).
    rewrite IH by done. by rewrite <-(assoc_L (++)%list).
Qed.
Lemma lex_comment s rest : without newline_char s →
  lex Unquoted None [] (String "#" s +:+ String newline_char rest) = lex Unquoted None [] rest.
Proof.
  intros Hs. change (lex Commented None [] (s +:+ String newline_char rest) = lex Unquoted None [] rest).
  induction s as [|c s IH].
  - change (end_command [] <$> lex Unquoted None [] rest = lex Unquoted None [] rest).
    by destruct (lex Unquoted None [] rest).
  - apply text_forall_cons in Hs as [Hc Hs]. change (String c s +:+ ?x) with (String c (s +:+ x)). cbn [lex].
    rewrite negb_true_iff, Ascii.eqb_sym in Hc. rewrite Hc. by apply IH.
Qed.

(** a command line of words and quoted values, and what the shell runs for it. *)
Definition render (args : list shell_arg) : string := join " " (map arg_text args).
Definition command_ok (args : list shell_arg) : Prop := args ≠ [] ∧ Forall arg_ok args.

Lemma join_nil_cons x xs : join "" (x :: xs) = x +:+ join "" xs.
Proof. destruct xs; [by rewrite text_app_nil|done]. Qed.
Lemma block_cons l ls rest : block (l :: ls) +:+ rest = l +:+ String newline_char (block ls +:+ rest).
Proof. unfold block. cbn [map]. rewrite join_nil_cons. unfold line. by rewrite !text_app_assoc. Qed.
Lemma block_app ls ls' : block (ls ++ ls') = block ls +:+ block ls'.
Proof.
  induction ls as [|l ls IH]; [done|]. unfold block in *. cbn [app map]. by rewrite !join_nil_cons, IH, text_app_assoc.
Qed.
Lemma commands_of_lines cmds rest : Forall command_ok cmds →
  commands_of (block (map render cmds) +:+ rest) = (map (map arg_value) cmds ++.) <$> commands_of rest.
Proof.
  unfold commands_of. induction 1 as [|args cmds [Hne Hok] _ IH]; cbn [map].
  - by destruct (lex Unquoted None [] rest) eqn:E; change (block [] +:+ rest) with rest; rewrite E.
  - rewrite block_cons. unfold render at 1. rewrite lex_args, IH by done.
    destruct (lex Unquoted None [] rest); [|done]. by destruct args.
Qed.

Section export.
Context `{ExportText}.

(** the commands an operation of quoted values stands for. *)
Definition quoted_commands (t : OperationType) : option (list (list shell_arg)) :=
  match t with
  | OpSymlink sl => Some [[Lit "ln"; Lit "-sfn"; Val (sl_target sl); Val (sl_link_path sl)]]
  | OpFileDelete fd => Some [if fd_missing_ok fd then [Lit "rm"; Lit "-f"; Val (fd_path fd)] else [Lit "rm"; Val (fd_path fd)]]
  | OpPackageInstall pi =>
      match pi_packages pi with
      | [] => None
      | ps => Some [Lit "dnf" :: Lit "install" :: Lit "-y" :: map Val ps]
      end
  | OpServiceOperation so =>
      let cmd verb := [Lit "systemctl"; Lit verb; Val (so_service so)] in
      Some ((if bool_decide (so_state so = Some "enabled") then [cmd "enable"] else [])
            ++ (if so_start so then [cmd "start"] else []) ++ (if so_restart so then [cmd "restart"] else []))
  | OpFileCopy fc => Some [[Lit "cp"; Val (cp_source fc); Val (cp_destination fc)]]
  | OpDirectoryCreate dc =>
      Some [match dc_mode dc with
            | Some mode => [Lit "mkdir"; Lit "-p"; Lit "-m"; Val mode; Val (dc_path dc)]
            | None => [Lit "mkdir"; Lit "-p"; Val (dc_path dc)]
            end]
  | OpFilePermissions fp =>
      Some ([Lit "chmod"; Val (fp_mode fp); Val (fp_path fp)]
            :: match fp_owner fp with Some owner => [[Lit "chown"; Val owner; Val (fp_path fp)]] | None => [] end)
  | _ => None
  end.
Lemma quoted_lines t cmds : quoted_commands t = Some cmds →
  bash_lines t = map render cmds ∧ Forall command_ok cmds.
Proof.
  destruct t as [fe|pi|so|sm|re|ce|fc|dc|fp|di|fw|sl|fd]; cbn [quoted_commands bash_lines]; try done.
  - destruct (pi_packages pi) as [|p ps] eqn:E; [done|]. intros [= <-]. split.
    + cbn [map]. unfold render. cbn [map arg_text]. f_equal. rewrite map_map. done.
    + repeat constructor; try done. apply Forall_map. by apply Forall_true.
  - intros [= <-]. split; [by destruct (bool_decide _), (so_start so), (so_restart so)|].
    repeat apply Forall_app_2; case_match; by repeat constructor.
  - intros [= <-]. split; [done|by repeat constructor].
  - intros [= <-]. destruct (dc_mode dc); split; (done || by repeat constructor).
  - intros [= <-]. destruct (fp_owner fp); split; (done || by repeat constructor).
  - intros [= <-]. split; [done|by repeat constructor].
  - intros [= <-]. destruct (fd_missing_ok fd); split; (done || by repeat constructor).
Qed.
(** an operation made of quoted values: no check command, and a heading of one line. *)
Definition quoted_operation (op : Operation) (cmds : list (list shell_arg)) : Prop :=
  quoted_commands (op_type op) = Some cmds ∧ op_validation op = None
  ∧ without newline_char (op_id op) ∧ without newline_char (op_description op).
Lemma operation_commands op cmds rest : quoted_operation op cmds →
  commands_of (operation_to_bash op +:+ rest) = (map (map arg_value) cmds ++.) <$> commands_of rest.
Proof.
  intros (Ht & Hv & Hid & Hd). destruct (quoted_lines _ _ Ht) as [El Hok]. unfold operation_to_bash. rewrite El, Hv, block_cons.
  unfold commands_of at 1.
  change ("# " +:+ op_id op +:+ ": " +:+ op_description op) with (String "#" (" " +:+ op_id op +:+ ": " +:+ op_description op)).
  rewrite lex_comment; [|by apply text_forall_cons; rewrite !text_forall_app].
  cbn [app]. rewrite block_app, text_app_assoc. fold (commands_of (block (map render cmds) +:+ block [""] +:+ rest)).
  rewrite commands_of_lines by done. f_equal.
  change (end_command [] <$> commands_of rest = commands_of rest). by destruct (commands_of rest).
Qed.

(** C29: the exported lines of operations whose values are all quoted run exactly the commands
    those operations stand for, with every path, package, service, mode and owner one word as it
    was, whatever characters it has. *)
Theorem quoted_operations_run ops cmdss rest : Forall2 quoted_operation ops cmdss →
  commands_of (join "" (map operation_to_bash ops) +:+ rest)
  = (map (map arg_value) (concat cmdss) ++.) <$> commands_of rest.
Proof.
  induction 1 as [|op cmds ops cmdss Hop _ IH]; cbn [map concat].
  - change (join "" [] +:+ rest) with rest. by destruct (commands_of rest).
  - rewrite join_nil_cons, text_app_assoc, (operation_commands _ cmds), IH by done.
    destruct (commands_of rest); [|done]. cbn. by rewrite map_app, app_assoc.
Qed.

(** ** Post-apply actions *)
Definition action_commands (action : PostApplyAction) : option (list (list shell_arg)) :=
  match action with
  | ServiceRestart services => Some (map (fun s => [Lit "systemctl"; Lit "restart"; Val s]) services)
  | Validation _ _ => None
  | Message message => Some [[Lit "echo"; Val message]]
  | RebootRequired reason => Some [[Lit "echo"; Val ("Reboot required: " +:+ reason)]]
  end.
(** so do the lines of the actions after the operations: restarts and messages. *)
Theorem quoted_actions_run action cmds rest : action_commands action = Some cmds →
  commands_of (post_action_to_bash action +:+ rest) = (map (map arg_value) cmds ++.) <$> commands_of rest.
Proof.
  unfold post_action_to_bash. destruct action as [services| |m|r]; cbn [action_commands]; [|done| |]; intros [= <-].
  - rewrite <-(commands_of_lines (map (fun s => [Lit "systemctl"; Lit "restart"; Val s]) services)).
    + by rewrite map_map.
    + apply Forall_map, Forall_true. by repeat constructor.
  - rewrite <-(commands_of_lines [[Lit "echo"; Val m]]); [done|by repeat constructor].
  - rewrite <-(commands_of_lines [[Lit "echo"; Val ("Reboot required: " +:+ r)]]); [done|by repeat constructor].
Qed.
End export.

(** ** On given plans *)
#[local] Existing Instance ascii_platform.
#[local] Instance export_text : ExportText := {| cargo_version := "0.0.0"; utc_text _ := ""; json_text _ := "" |}.
Definition export_op (name description : string) (t : OperationType) : Operation :=
  mk_Operation _ name t PrHigh description PrLow true [] None None.
(** a path with a quote and a command in it, and a package with a space. *)
Definition quoted_ops : list Operation :=
  [export_op "a" "delete" (OpFileDelete (mk_FileDelete "/tmp/x'; reboot; '" true));
   export_op "b" "install" (OpPackageInstall (mk_PackageInstall ["vim"; "two words"] None None))].
Lemma quoted_operations_run_witness : commands_of (join "" (map operation_to_bash quoted_ops))
  = Some [["rm"; "-f"; "/tmp/x'; reboot; '"]; ["dnf"; "install"; "-y"; "vim"; "two words"]].
Proof.
  rewrite <-(text_app_nil (join "" (map operation_to_bash quoted_ops))).
  rewrite (quoted_operations_run quoted_ops
    [[[Lit "rm"; Lit "-f"; Val "/tmp/x'; reboot; '"]]; [[Lit "dnf"; Lit "install"; Lit "-y"; Val "vim"; Val "two words"]]] "").
  - reflexivity.
  - by repeat constructor.
Defined.
Lemma quoted_actions_run_witness : commands_of (post_action_to_bash (Message "it's done; $(reboot)") +:+ "")
  = Some [["echo"; "it's done; $(reboot)"]].
Proof. rewrite (quoted_actions_run _ [[Lit "echo"; Val "it's done; $(reboot)"]]); reflexivity. Defined.

(** the expression of [sed] is between quotes that its text can end: an edit whose text has a
    quote runs what follows it. *)
Example edit_breaks_out : commands_of (block (tail (bash_lines (OpFileEdit
    (mk_FileEdit "/etc/x" true [mk_FileChange 0 "a'; reboot; '" "b" None])))))
  = Some [["sed"; "-i"; "s/a"]; ["reboot"]; ["/b/g"; "/etc/x"]].
Proof. reflexivity. Qed.
(** the text to replace is a pattern there: a dot of it stands for any character, where
    the other ways to run a plan look for the text itself. *)
Example edit_is_a_pattern : tail (bash_lines (OpFileEdit (mk_FileEdit "/etc/x" true [mk_FileChange 0 "a.b" "c" None])))
  = ["sed -i 's/a.b/c/g' '/etc/x'"].
Proof. reflexivity. Qed.
(** a description of two lines is a comment and a command. *)
Example heading_breaks_out : commands_of (operation_to_bash (export_op "a" ("fix" +:+ newline_str +:+ "reboot")
    (OpServiceOperation (mk_ServiceOperation "sshd" None true false))))
  = Some [["reboot"]; ["systemctl"; "start"; "sshd"]].
Proof. reflexivity. Qed.
(** a content with the line that ends the document is cut there, and its other lines are commands. *)
Example document_ends_early : bash_lines (OpFileWrite
    (mk_FileWrite "/x" ("a" +:+ newline_str +:+ "GUESTKIT_EOF" +:+ newline_str +:+ "reboot" +:+ newline_str) None))
  = [join newline_str ["cat > '/x' << 'GUESTKIT_EOF'"; "a"; "GUESTKIT_EOF"; "reboot"; "GUESTKIT_EOF"]].
Proof. reflexivity. Qed.
(** the operations of the script are in the order of the document, not of their dependencies. *)
Example script_ignores_dependencies :
  let first := mk_Operation _ "b" (OpFileDelete (mk_FileDelete "/b" true)) PrHigh "after" PrLow true ["a"] None None in
  let second := export_op "a" "before" (OpFileDelete (mk_FileDelete "/a" true)) in
  commands_of (join "" (map operation_to_bash [first; second])) = Some [["rm"; "-f"; "/b"]; ["rm"; "-f"; "/a"]].
Proof. reflexivity. Qed.
(** a service to be disabled has no line. *)
Example disabling_not_exported : bash_lines (OpServiceOperation (mk_ServiceOperation "telnet" (Some "disabled") false false)) = [].
Proof. reflexivity. Qed.

(** a group to be set has no line in the script, though it has one in the playbook. *)
Lemma group_not_exported `{Platform} `{!ExportText} path mode owner group :
  bash_lines (OpFilePermissions (mk_FilePermissions path mode owner group))
  = bash_lines (OpFilePermissions (mk_FilePermissions path mode owner None)).
Proof. reflexivity. Qed.
(** the playbook has the first change of an edit alone, and a restart of a service not at all. *)
Lemma playbook_first_change `{Platform} `{!ExportText} file backup change changes :
  ansible_lines (OpFileEdit (mk_FileEdit file backup (change :: changes)))
  = ansible_lines (OpFileEdit (mk_FileEdit file backup [change])).
Proof. reflexivity. Qed.
Lemma playbook_no_restart `{Platform} `{!ExportText} service state start restart :
  ansible_lines (OpServiceOperation (mk_ServiceOperation service state start restart))
  = ansible_lines (OpServiceOperation (mk_ServiceOperation service state start false)).
Proof. reflexivity. Qed.
