(* ===== verification/Validate.v ===== *)
(** * Policies over an image

    [src/cli/validate/]: the policies and their rules ([policy.rs]), the expressions over an
    evidence snapshot ([expr.rs]), the checks of a mounted guest and the summary ([mod.rs]),
    the built-in policies ([benchmarks.rs], [cloud_profiles.rs]), and what the command makes
    of them ([validate_command] of [src/cli/commands/tools.rs]).  Reading and writing numbers,
    the package database and opening an image are [ValidateEnv]. *)
From stdpp Require Import base gmap strings list.
From Stdlib Require Import ZArith Lia Ascii SpecFloat.
From S2P Require Import Prelude RustStr F64 Evidence BootChecks BootEngine Filesystem FixPlan Passport Gate LiveExec FileOps GuestFs.

(** ** Policies *)
Inductive RuleType : Type :=
  | RPackageInstalled (package : string)
  | RPackageForbidden (package : string)
  | RFileExists (path : string)
  | RFileNotExists (path : string)
  | RFileContains (path pattern : string)
  | RFilePermissions (path mode : string)
  | RServiceEnabled (service : string)
  | RServiceDisabled (service : string)
  | RUserExists (username : string)
  | RUserNotExists (username : string)
  | RPortClosed (port : Z)
  | RCustom (check : string)
  | RExpression (expr : string).
Record PolicyRule : Type := mk_PolicyRule {
  ru_id : string;
  ru_name : string;
  ru_description : string;
  ru_severity : string;
  ru_type : RuleType;
  ru_expr : option string;
  ru_remediation : option string
}.
Record RulePolicy : Type := mk_RulePolicy {
  rp_name : string;
  rp_version : string;
  rp_description : string;
  rp_rules : list PolicyRule
}.
Inductive ValidationStatus : Set := VPass | VFail | VWarning | VSkip | VError.
#[export] Instance ValidationStatus_eq_dec : EqDecision ValidationStatus.
Proof. solve_decision. Defined.
Record RuleResult : Type := mk_RuleResult {
  vr_rule_id : string;
  vr_rule_name : string;
  vr_status : ValidationStatus;
  vr_message : string;
  vr_severity : string;
  vr_remediation : option string
}.
Record ValidationSummary : Type := mk_ValidationSummary {
  vs_total_rules : nat;
  vs_passed : nat;
  vs_failed : nat;
  vs_warnings : nat;
  vs_skipped : nat;
  vs_errors : nat;
  vs_compliance_score : f64
}.
Record ValidationReport : Type := mk_ValidationReport {
  vp_image_path : string;
  vp_policy_name : string;
  vp_timestamp : string;
  vp_results : list RuleResult;
  vp_summary : ValidationSummary
}.
Definition count_status (s : ValidationStatus) (results : list RuleResult) : nat :=
  length (List.filter (fun r => bool_decide (vr_status r = s)) results).
Definition f64_of_nat (n : nat) : f64 := f64_of_Z (Z.of_nat n).
Definition ValidationSummary_new (results : list RuleResult) : ValidationSummary :=
  let total := length results in
  let passed := count_status VPass results in
  let skipped := count_status VSkip results in
  mk_ValidationSummary total passed (count_status VFail results) (count_status VWarning results) skipped
    (count_status VError results)
    (if (skipped <? total)%nat then (f64_of_nat passed / f64_of_nat (total - skipped) * f64_of_Z 100)%f64 else f64_of_Z 0).

Inductive validate_error : Type :=
  | GuestError (e : guest_error)
  | NoOperatingSystem
  | UnsupportedExpression (expr : string)
  | UnknownField (field : string)
  | NotANumber (text : string)
  | InvalidBootExpression (suffix : string)
  | UnknownBenchmark (name : string)
  | StrictFailure (failed : nat).

Class ValidateEnv `{Platform} := {
  (** [str::parse::<f64>] and [f64::to_string] *)
  parse_f64 : string → option f64;
  f64_text : f64 → string;
  (** the names of [inspect_list_applications2] *)
  list_applications : string → tree → outcome guest_error (list string);
  build_evidence : string → string → tree → outcome guest_error EvidenceSnapshot;
  (** the image launched and inspected: the roots that were found and, with the file systems of
      the first mounted, the handle and the tree of the host *)
  launch_image : string → outcome guest_error (list string * (Guestfs * tree));
  rfc3339_now : string
}.

(** ** Expressions *)
Section expressions.
Context `{ValidateEnv}.

Definition EPSILON : f64 := f64_lit 1 (2 ^ 52).
Definition trim_value (s : string) : string := trim_matches_char dquote_char (trim_matches_char squote_char (trim s)).
Definition comparison_ops : list string := [">="; "<="; "!="; "=="; ">"; "<"].
Fixpoint parse_with (ops : list string) (expr : string) : option (string * string * string) :=
  match ops with
  | [] => None
  | op :: ops =>
      match split_once_str op expr with
      | Some (field, value) => Some (trim field, op, trim_value value)
      | None => parse_with ops expr
      end
  end.
Definition parse_comparison (expr : string) : option (string * string * string) := parse_with comparison_ops expr.
Definition resolve_field (field : string) (evidence : EvidenceSnapshot) (boot_score : option f64) : outcome validate_error string :=
  if String.eqb field "bootability.score" then Ok (f64_text (default (f64_of_Z 0) boot_score))
  else match get_field evidence field with
       | Some v => Ok v
       | None => Err (UnknownField field)
       end.
Definition compare_numbers (a : f64) (op : string) (b : f64) : bool :=
  if String.eqb op ">=" then (b <=? a)%f64
  else if String.eqb op "<=" then (a <=? b)%f64
  else if String.eqb op ">" then (b <? a)%f64
  else if String.eqb op "<" then (a <? b)%f64
  else if String.eqb op "==" then (SFabs (a - b) <? EPSILON)%f64
  else if String.eqb op "!=" then (EPSILON <=? SFabs (a - b))%f64
  else false.
Definition compare_texts (actual op expected : string) : bool :=
  if String.eqb op "==" then eq_ignore_ascii_case actual expected || String.eqb actual expected
  else if String.eqb op "!=" then negb (String.eqb actual expected)
  else false.
Definition eval_op (actual op expected : string) : bool :=
  match parse_f64 actual, parse_f64 expected with
  | Some a, Some b => compare_numbers a op b
  | _, _ => compare_texts actual op expected
  end.
Fixpoint numeric_with (ops : list string) (suffix : string) (score : f64) : outcome validate_error bool :=
  match ops with
  | [] => Err (InvalidBootExpression suffix)
  | op :: ops =>
      match strip_prefix op suffix with
      | Some rest =>
          match parse_f64 (trim rest) with
          | Some expected => Ok (eval_op (f64_text score) op (f64_text expected))
          | None => Err (NotANumber (trim rest))
          end
      | None => numeric_with ops suffix score
      end
  end.
Definition eval_numeric_compare (suffix : string) (score : f64) : outcome validate_error bool :=
  numeric_with [">="; "<="; ">"; "<"; "=="] (trim suffix) score.
Definition evaluate_expr (expr : string) (evidence : EvidenceSnapshot) (boot_score : option f64) : outcome validate_error bool :=
  let expr := trim expr in
  match strip_prefix "bootability.score" expr with
  | Some suffix => eval_numeric_compare suffix (default (f64_of_Z 0) boot_score)
  | None =>
      match parse_comparison expr with
      | Some (field, op, value) => actual ← resolve_field field evidence boot_score; Ok (eval_op actual op value)
      | None => Err (UnsupportedExpression expr)
      end
  end.
End expressions.

(** ** Rules: a state monad over the tree of the host, with the errors of a validation *)
Definition vact (A : Type) : Type := tree → tree * outcome validate_error A.
#[export] Instance vact_ret : MRet vact := fun A a t => (t, Ok a).
#[export] Instance vact_bind : MBind vact := fun A B f m t =>
  match m t with
  | (t, Ok a) => f a t
  | (t, Err e) => (t, Err e)
  | (t, Panic) => (t, Panic)
  end.
Definition of_outcome {A} (o : outcome validate_error A) : vact A := fun t => (t, o).
Definition guest_outcome {A} (o : outcome guest_error A) : outcome validate_error A :=
  match o with Ok a => Ok a | Err e => Err (GuestError e) | Panic => Panic end.
Definition of_guest {A} (m : gact A) : vact A := fun t => let '(t, o) := m t in (t, guest_outcome o).

Section rules.
Context `{ValidateEnv} `{FileCrates} `{GuestIo} (g : Guestfs).

(** [Guestfs::stat], its mode. *)
Definition g_stat_mode (path : string) : gact Z :=
  p ← resolved_path g path;
  gask (fun t => match node_at t p with Some n => Ok (node_mode n) | None => Err GuestIoError end).

Definition pass_if (b : bool) : ValidationStatus := if b then VPass else VFail.
Definition check_package_installed (root package : string) : vact ValidationStatus :=
  apps ← of_guest (gask (list_applications root));
  mret (pass_if (existsb (fun name => String.eqb name package) apps)).
Definition check_package_forbidden (root package : string) : vact ValidationStatus :=
  apps ← of_guest (gask (list_applications root));
  mret (pass_if (negb (existsb (fun name => String.eqb name package) apps))).
Definition check_file_exists (path : string) : vact ValidationStatus :=
  there ← of_guest (g_exists g path); mret (pass_if there).
Definition check_file_not_exists (path : string) : vact ValidationStatus :=
  there ← of_guest (g_exists g path); mret (pass_if (negb there)).
Definition check_file_contains (path pattern : string) : vact ValidationStatus :=
  there ← of_guest (g_exists g path);
  if there : bool then
    content ← of_guest (g_read_file g path);
    mret (pass_if (contains pattern (lossy content)))
  else mret VFail.
Definition check_file_permissions (path expected_mode : string) : vact ValidationStatus :=
  there ← of_guest (g_exists g path);
  if there : bool then
    mode ← of_guest (g_stat_mode path);
    mret (pass_if (String.eqb (fmt_octal (Z.land mode 511)) expected_mode))
  else mret VFail.
Definition wants_path (service : string) : string :=
  "/etc/systemd/system/multi-user.target.wants/" +:+ service +:+ ".service".
Definition check_service_enabled (service : string) : vact ValidationStatus :=
  enabled ← of_guest (g_exists g (wants_path service)); mret (pass_if enabled).
Definition check_service_disabled (service : string) : vact ValidationStatus :=
  enabled ← of_guest (g_exists g (wants_path service)); mret (pass_if (negb enabled)).
Definition has_user (username passwd : string) : bool :=
  existsb (fun l => match split_char ":"%char l with u :: _ => String.eqb u username | [] => false end) (lines passwd).
Definition check_user_exists (username : string) : vact ValidationStatus :=
  there ← of_guest (g_exists g "/etc/passwd");
  if there : bool then
    passwd ← of_guest (g_read_file g "/etc/passwd"); mret (pass_if (has_user username (lossy passwd)))
  else mret VError.
Definition check_user_not_exists (username : string) : vact ValidationStatus :=
  there ← of_guest (g_exists g "/etc/passwd");
  if there : bool then
    passwd ← of_guest (g_read_file g "/etc/passwd"); mret (pass_if (negb (has_user username (lossy passwd))))
  else mret VError.
Definition rule_status (root : string) (evidence : EvidenceSnapshot) (boot_score : f64) (t : RuleType) : vact ValidationStatus :=
  match t with
  | RPackageInstalled package => check_package_installed root package
  | RPackageForbidden package => check_package_forbidden root package
  | RFileExists path => check_file_exists path
  | RFileNotExists path => check_file_not_exists path
  | RFileContains path pattern => check_file_contains path pattern
  | RFilePermissions path mode => check_file_permissions path mode
  | RServiceEnabled service => check_service_enabled service
  | RServiceDisabled service => check_service_disabled service
  | RUserExists username => check_user_exists username
  | RUserNotExists username => check_user_not_exists username
  | RPortClosed _ => mret VSkip
  | RExpression expr =>
      passed ← of_outcome (evaluate_expr expr evidence (Some boot_score)); mret (pass_if passed)
  | RCustom _ => mret VSkip
  end.
Definition validate_rule (root : string) (evidence : EvidenceSnapshot) (boot_score : f64) (rule : PolicyRule)
    : vact RuleResult :=
  let result status message :=
    mk_RuleResult (ru_id rule) (ru_name rule) status message (ru_severity rule) (ru_remediation rule) in
  match ru_expr rule with
  | Some expr =>
      passed ← of_outcome (evaluate_expr expr evidence (Some boot_score));
      mret (result (pass_if passed) ("Expression `" +:+ expr +:+ "` => " +:+ fmt_bool passed))
  | None =>
      status ← rule_status root evidence boot_score (ru_type rule);
      mret (result status (if bool_decide (status = VPass) then ru_name rule +:+ " - Check passed"
                           else ru_name rule +:+ " - Check failed"))
  end.
Fixpoint validate_rules (root : string) (evidence : EvidenceSnapshot) (boot_score : f64) (rules : list PolicyRule)
    : vact (list RuleResult) :=
  match rules with
  | [] => mret []
  | rule :: rules =>
      result ← validate_rule root evidence boot_score rule;
      results ← validate_rules root evidence boot_score rules;
      mret (result :: results)
  end.
End rules.

Section command.
Context `{ValidateEnv} `{FileCrates} `{GuestIo}.

Definition validate_mounted (image_path root : string) (policy : RulePolicy) (g : Guestfs) : vact ValidationReport :=
  evidence ← of_guest (gask (build_evidence image_path root));
  let boot_report := analyze_bootability evidence Generic in
  results ← validate_rules g root evidence (br_score boot_report) (rp_rules policy);
  mret (mk_ValidationReport image_path (rp_name policy) rfc3339_now results (ValidationSummary_new results)).
Definition validate_image (image_path : string) (policy : RulePolicy) : outcome validate_error ValidationReport :=
  '(roots, (g, t)) ← guest_outcome (launch_image image_path);
  match roots with
  | [] => Err NoOperatingSystem
  | root :: _ => (validate_mounted image_path root policy g t).2
  end.
End command.

(** ** Built-in policies *)
Definition example_policy : RulePolicy :=
  mk_RulePolicy "Example Security Policy" "1.0.0" "Example policy for demonstration"
    [mk_PolicyRule "PKG-001" "OpenSSH Server Installed" "Ensure OpenSSH server is installed"
       "medium" (RPackageInstalled "openssh-server") None (Some "Install openssh-server package");
     mk_PolicyRule "PKG-002" "Telnet Not Installed" "Ensure telnet is not installed"
       "high" (RPackageForbidden "telnet") None (Some "Remove telnet package");
     mk_PolicyRule "FILE-001" "Password File Exists" "Ensure /etc/passwd exists"
       "critical" (RFileExists "/etc/passwd") None None;
     mk_PolicyRule "PERM-001" "SSH Config Permissions" "Ensure /etc/ssh/sshd_config has correct permissions"
       "high" (RFilePermissions "/etc/ssh/sshd_config" "600") None (Some "chmod 600 /etc/ssh/sshd_config");
     mk_PolicyRule "SVC-001" "SSH Service Enabled" "Ensure SSH service is enabled"
       "medium" (RServiceEnabled "sshd") None (Some "systemctl enable sshd");
     mk_PolicyRule "USER-001" "Root User Exists" "Ensure root user exists"
       "critical" (RUserExists "root") None None;
     mk_PolicyRule "EXPR-001" "SSH root login disabled" "Root SSH login must be disabled"
       "high" (RCustom "ssh_root_login") (Some "security.ssh.root_login == false") (Some "Set PermitRootLogin no in sshd_config")].
Definition cis_ubuntu_2004_policy : RulePolicy :=
  mk_RulePolicy "CIS Ubuntu 20.04 Benchmark" "1.1.0" "Center for Internet Security Ubuntu 20.04 LTS Benchmark"
    [mk_PolicyRule "CIS-1.1.1.1" "Ensure mounting of cramfs filesystems is disabled" "The cramfs filesystem type is a compressed read-only Linux filesystem"
       "low" (RFileNotExists "/etc/modprobe.d/cramfs.conf") None (Some "echo 'install cramfs /bin/true' > /etc/modprobe.d/cramfs.conf");
     mk_PolicyRule "CIS-1.5.1" "Ensure permissions on bootloader config are configured" "Grub configuration must have restricted permissions"
       "high" (RFilePermissions "/boot/grub/grub.cfg" "400") None (Some "chmod 400 /boot/grub/grub.cfg");
     mk_PolicyRule "CIS-5.2.1" "Ensure permissions on /etc/ssh/sshd_config are configured" "The /etc/ssh/sshd_config file must be owned by root with 600 permissions"
       "high" (RFilePermissions "/etc/ssh/sshd_config" "600") None (Some "chmod 600 /etc/ssh/sshd_config && chown root:root /etc/ssh/sshd_config");
     mk_PolicyRule "CIS-5.2.4" "Ensure SSH root login is disabled" "The PermitRootLogin parameter should be set to no"
       "critical" (RFileContains "/etc/ssh/sshd_config" "PermitRootLogin no") None (Some "Set 'PermitRootLogin no' in /etc/ssh/sshd_config")].
Definition cis_rhel8_policy : RulePolicy :=
  mk_RulePolicy "CIS Red Hat Enterprise Linux 8 Benchmark" "2.0.0" "Center for Internet Security RHEL 8 Benchmark"
    [mk_PolicyRule "CIS-1.1.1.1" "Ensure mounting of cramfs filesystems is disabled" "The cramfs filesystem should be disabled"
       "low" (RFileNotExists "/etc/modprobe.d/cramfs.conf") None (Some "echo 'install cramfs /bin/true' > /etc/modprobe.d/cramfs.conf");
     mk_PolicyRule "CIS-1.5.1" "Ensure permissions on bootloader config are configured" "Bootloader configuration must have restricted permissions"
       "high" (RFilePermissions "/boot/grub2/grub.cfg" "600") None (Some "chmod 600 /boot/grub2/grub.cfg")].
Definition nist_csf_policy : RulePolicy :=
  mk_RulePolicy "NIST Cybersecurity Framework" "1.1" "NIST CSF security controls"
    [mk_PolicyRule "NIST-PR.AC-1" "Identities and credentials are managed" "User accounts and credentials are properly managed"
       "high" (RFileExists "/etc/passwd") None None;
     mk_PolicyRule "NIST-PR.DS-1" "Data-at-rest is protected" "Ensure data at rest protection mechanisms are in place"
       "high" (RPackageInstalled "cryptsetup") None (Some "Install cryptsetup for disk encryption")].
Definition pci_dss_policy : RulePolicy :=
  mk_RulePolicy "PCI DSS Requirements" "3.2.1" "Payment Card Industry Data Security Standard"
    [mk_PolicyRule "PCI-2.2.2" "Enable only necessary services" "Disable all unnecessary services and protocols"
       "high" (RPackageForbidden "telnet") None (Some "Remove telnet and other insecure services");
     mk_PolicyRule "PCI-2.2.4" "Configure security parameters" "Security parameters must be configured to prevent misuse"
       "critical" (RFileContains "/etc/ssh/sshd_config" "PermitRootLogin no") None (Some "Disable root login via SSH")].
Definition hipaa_policy : RulePolicy :=
  mk_RulePolicy "HIPAA Security Rule" "1.0" "Health Insurance Portability and Accountability Act security controls"
    [mk_PolicyRule "HIPAA-164.308" "Access Control" "Implement technical policies and procedures for systems that maintain ePHI"
       "critical" (RFileExists "/etc/passwd") None None;
     mk_PolicyRule "HIPAA-164.312" "Encryption and Decryption" "Implement a mechanism to encrypt and decrypt ePHI"
       "critical" (RPackageInstalled "cryptsetup") None (Some "Install encryption tools")].
Inductive Benchmark : Set := CisUbuntu2004 | CisRhel8 | NistCsf | PciDss | Hipaa.
Definition benchmark_policy (b : Benchmark) : RulePolicy :=
  match b with
  | CisUbuntu2004 => cis_ubuntu_2004_policy
  | CisRhel8 => cis_rhel8_policy
  | NistCsf => nist_csf_policy
  | PciDss => pci_dss_policy
  | Hipaa => hipaa_policy
  end.
Definition file_rule (id name path severity rem : string) : PolicyRule :=
  mk_PolicyRule id name ("Expect " +:+ path +:+ " on a " +:+ name +:+ " image") severity (RFileExists path) None (Some rem).
Definition expr_rule (id name expr severity rem : string) : PolicyRule :=
  mk_PolicyRule id name expr severity (RExpression expr) (Some expr) (Some rem).
Definition aws_policy : RulePolicy :=
  mk_RulePolicy "AWS EC2 cutover profile" "1" "cloud-init + SSH + no telnet; NVMe/Xen tooling is optional"
    [file_rule "AWS-001" "cloud-init present" "/usr/bin/cloud-init" "high" "Install cloud-init so EC2 metadata can set hostname/SSH keys";
     file_rule "AWS-002" "cloud.cfg present" "/etc/cloud/cloud.cfg" "medium" "Ensure /etc/cloud/cloud.cfg exists (datasource: Ec2)";
     mk_PolicyRule "AWS-003" "telnet absent" "telnet has no place on an EC2 image"
       "high" (RPackageForbidden "telnet") None (Some "Remove telnet");
     expr_rule "AWS-004" "boot score floor" "bootability.score >= 80" "high" "Run guestkit doctor --target aws and repair before import"].
Definition azure_policy : RulePolicy :=
  mk_RulePolicy "Azure cutover profile" "1" "WALinuxAgent or cloud-init + SSH"
    [file_rule "AZ-001" "cloud-init or waagent bin" "/usr/bin/cloud-init" "high" "Install cloud-init or WALinuxAgent (waagent)";
     file_rule "AZ-002" "cloud.cfg" "/etc/cloud/cloud.cfg" "medium" "cloud-init datasource Azure";
     expr_rule "AZ-003" "boot score floor" "bootability.score >= 80" "high" "guestkit doctor --target azure"].
Definition gcp_policy : RulePolicy :=
  mk_RulePolicy "GCP GCE cutover profile" "1" "google-guest-agent / cloud-init"
    [file_rule "GCP-001" "cloud-init" "/usr/bin/cloud-init" "high" "Install cloud-init (GCE datasource) or google-guest-agent";
     file_rule "GCP-002" "cloud.cfg" "/etc/cloud/cloud.cfg" "medium" "Ensure cloud-init config exists";
     expr_rule "GCP-003" "boot score floor" "bootability.score >= 80" "high" "guestkit doctor --target gcp"].
Definition openstack_policy : RulePolicy :=
  mk_RulePolicy "OpenStack cutover profile" "1" "cloud-init ConfigDrive/metadata"
    [file_rule "OS-001" "cloud-init" "/usr/bin/cloud-init" "high" "Install cloud-init for metadata/config-drive";
     file_rule "OS-002" "cloud.cfg" "/etc/cloud/cloud.cfg" "medium" "Datasource: OpenStack / ConfigDrive";
     expr_rule "OS-003" "boot score floor" "bootability.score >= 80" "high" "guestkit doctor --target kvm (OpenStack still boots KVM)"].
Inductive CloudProfile : Set := Aws | Azure | Gcp | OpenStack.
Definition cloud_policy (c : CloudProfile) : RulePolicy :=
  match c with
  | Aws => aws_policy
  | Azure => azure_policy
  | Gcp => gcp_policy
  | OpenStack => openstack_policy
  end.
Section names.
Context `{Platform}.
Definition Benchmark_from_str (s : string) : option Benchmark :=
  let s := to_lowercase s in
  let one_of l := existsb (String.eqb s) l in
  if one_of ["cis-ubuntu-20.04"; "cis-ubuntu"] then Some CisUbuntu2004
  else if one_of ["cis-rhel-8"; "cis-rhel"] then Some CisRhel8
  else if one_of ["nist-csf"; "nist"] then Some NistCsf
  else if one_of ["pci-dss"; "pci"] then Some PciDss
  else if one_of ["hipaa"] then Some Hipaa
  else None.
Definition CloudProfile_parse (s : string) : option CloudProfile :=
  let s := to_lowercase s in
  let one_of l := existsb (String.eqb s) l in
  if one_of ["aws"; "ec2"; "amazon"] then Some Aws
  else if one_of ["azure"; "az"; "entra"] then Some Azure
  else if one_of ["gcp"; "gce"; "google"] then Some Gcp
  else if one_of ["openstack"; "os"] then Some OpenStack
  else None.
(** the policy of the command, given the one that was read from a file. *)
Definition choose_policy (from_file : option (outcome validate_error RulePolicy)) (benchmark : option string)
    : outcome validate_error RulePolicy :=
  match from_file, benchmark with
  | Some policy, _ => policy
  | None, Some bench =>
      match CloudProfile_parse bench with
      | Some c => Ok (cloud_policy c)
      | None =>
          match Benchmark_from_str bench with
          | Some b => Ok (benchmark_policy b)
          | None => Err (UnknownBenchmark bench)
          end
      end
  | None, None => Ok example_policy
  end.
End names.
(** the report and the exit of the command; what it prints is the report. *)
Definition validate_command `{ValidateEnv} `{FileCrates} `{GuestIo} (image : string)
    (from_file : option (outcome validate_error RulePolicy)) (benchmark : option string) (strict : bool)
    : option ValidationReport * outcome validate_error () :=
  match (policy ← choose_policy from_file benchmark; validate_image image policy) with
  | Ok report =>
      (Some report, if strict && (0 <? vs_failed (vp_summary report))%nat
                    then Err (StrictFailure (vs_failed (vp_summary report))) else Ok ())
  | Err e => (None, Err e)
  | Panic => (None, Panic)
  end.
