(* ===== verification/ValidateProps.v ===== *)
(** * What a policy decides

    Expressions are read as they are written and compare what they name; a report has one
    result per rule, nothing of the guest is changed, and one rule that cannot be decided
    loses the report; the score is a percentage; an image that passes a cloud profile boots.
    What the built-in policies get wrong are examples on given guests. *)
From stdpp Require Import base gmap strings list.
From Stdlib Require Import ZArith Lia Ascii SpecFloat.
From S2P Require Import Prelude RustStr F64 Evidence BootChecks BootEngine BootScore Filesystem FixPlan Passport Words Gate LiveExec FileOps GuestFs GuestFsProps Validate.

(** ** Expressions *)
(** a character no operator begins with. *)
Definition plain_char (c : ascii) : bool :=
  word_char c && negb (existsb (Ascii.eqb c) ["<"; ">"; "="; "!"; "'"]%char) && negb (Ascii.eqb c dquote_char).
Definition plain_word (s : string) : Prop := s ≠ "" ∧ str_forall plain_char s = true.
Lemma plain_is_word s : plain_word s → word s.
Proof.
  intros [Hn Hs]. split; [done|]. eapply text_forall_impl; [|exact Hs]. intros c. unfold plain_char.
  destruct (word_char c); [done|by intros].
Qed.

Definition operator_char (c : ascii) : bool := existsb (Ascii.eqb c) ["<"; ">"; "="; "!"]%char.
Lemma plain_not_operator c d : plain_char c = true → operator_char d = true → Ascii.eqb d c = false.
Proof.
  intros Hc Hd. destruct (Ascii.eqb d c) eqn:E; [|done]. apply Ascii.eqb_eq in E as ->. exfalso. revert Hc Hd.
  unfold plain_char, operator_char. cbn [existsb]. intros Hc Hd.
  destruct (word_char c), (Ascii.eqb c "<"), (Ascii.eqb c ">"), (Ascii.eqb c "="), (Ascii.eqb c "!"); done.
Qed.
(** an operator is not found before the first character it can begin with. *)
Lemma find_skips d pat a s : operator_char d = true → str_forall (fun c => plain_char c || Ascii.eqb c " ") a = true →
  split_once_str (String d pat) (a +:+ s) = (fun '(x, y) => (a +:+ x, y)) <$> split_once_str (String d pat) s.
Proof.
  intros Hd. induction a as [|c a IH].
  - intros _. change ("" +:+ s) with s. by destruct (split_once_str (String d pat) s) as [[]|].
  - intros [Hc Ha]%text_forall_cons. change (String c a +:+ s) with (String c (a +:+ s)). cbn [split_once_str].
    assert (Ascii.eqb d c = false) as E.
    { apply orb_prop in Hc as [Hc|Hc]; [by apply plain_not_operator|]. apply Ascii.eqb_eq in Hc as ->.
      unfold operator_char in Hd. cbn [existsb] in Hd. destruct (Ascii.eqb d " ") eqn:E; [|done].
      apply Ascii.eqb_eq in E as ->. done. }
    unfold starts_with. cbn [String.prefix]. apply Ascii.eqb_neq in E.
    destruct (ascii_dec d c) as [->|_]; [done|]. rewrite IH by done.
    by destruct (split_once_str (String d pat) s) as [[]|].
Qed.
Lemma find_nowhere d pat a : operator_char d = true → str_forall (fun c => plain_char c || Ascii.eqb c " ") a = true →
  split_once_str (String d pat) a = None.
Proof. intros Hd Ha. rewrite <-(text_app_nil a). by rewrite find_skips. Qed.
Lemma plain_or_space s : str_forall plain_char s = true → str_forall (fun c => plain_char c || Ascii.eqb c " ") s = true.
Proof. apply text_forall_impl. by intros c ->. Qed.

Lemma trim_one_space w : word w → trim (w +:+ " ") = w.
Proof.
  intros Hw. unfold trim. rewrite trim_start_word by done. destruct Hw as [_ Hw].
  induction w as [|c w IH]; [done|]. apply text_forall_cons in Hw as [Hc Hw].
  change (String c w +:+ " ") with (String c (w +:+ " ")). cbn [trim_end]. unfold trim_is_empty.
  cbn [String.length trim_start_fuel]. rewrite find_white_word by done. cbn [is_empty]. by rewrite IH.
Qed.
Lemma trim_space_word w : word w → trim (String " " w) = w.
Proof.
  intros Hw. rewrite <-(trim_word w Hw) at 2. unfold trim. f_equal. unfold trim_start.
  cbn [String.length trim_start_fuel]. by rewrite find_white.
Qed.
Lemma trim_quote_plain c s : str_forall (fun d => negb (Ascii.eqb d c)) s = true → trim_matches_char c s = s.
Proof.
  intros Hs. unfold trim_matches_char.
  assert (trim_start_char c s = s) as ->.
  { destruct s as [|d s]; [done|]. apply text_forall_cons in Hs as [Hd _]. apply negb_true_iff in Hd. cbn. by rewrite Hd. }
  induction s as [|d s IH]; [done|]. apply text_forall_cons in Hs as [Hd Hs]. cbn [trim_end_char].
  rewrite IH by done. apply negb_true_iff in Hd. destruct s; [by rewrite Hd|done].
Qed.
Lemma plain_no_quotes c : plain_char c = true → Ascii.eqb c squote_char = false ∧ Ascii.eqb c dquote_char = false.
Proof.
  unfold plain_char. cbn [existsb]. change "'"%char with squote_char.
  destruct (Ascii.eqb c squote_char), (Ascii.eqb c dquote_char); rewrite ?orb_true_r, ?andb_false_r; done.
Qed.
Lemma trim_value_plain w : plain_word w → trim_value (String " " w) = w.
Proof.
  intros Hw. unfold trim_value. rewrite trim_space_word by (by apply plain_is_word). destruct Hw as [_ Hw].
  rewrite (trim_quote_plain squote_char), (trim_quote_plain dquote_char); [done|..];
    (eapply text_forall_impl; [|exact Hw]; intros c [E1 E2]%plain_no_quotes; cbv beta; by rewrite ?E1, ?E2).
Qed.

Lemma find_cons pat c s : starts_with pat (String c s) = false →
  split_once_str pat (String c s) = (fun '(a, b) => (String c a, b)) <$> split_once_str pat s.
Proof. intros E. cbn [split_once_str]. by rewrite E. Qed.
(** an operator that is not the beginning of another is not found there, nor in the value. *)
Lemma find_other p op value : p ∈ comparison_ops → op ∈ comparison_ops → starts_with p op = false → plain_word value →
  split_once_str p (op +:+ String " " value) = None.
Proof.
  intros Hp Hop Hst [_ Hv%plain_or_space]. unfold comparison_ops in *.
  repeat (apply elem_of_cons in Hp as [->|Hp]); [..|by apply elem_of_nil in Hp];
    repeat (apply elem_of_cons in Hop as [->|Hop]); try (by apply elem_of_nil in Hop); try discriminate Hst;
    cbv [String.append]; rewrite !find_cons by reflexivity; by rewrite find_nowhere.
Qed.
Lemma operator_first p : p ∈ comparison_ops → ∃ d pat, p = String d pat ∧ operator_char d = true.
Proof.
  unfold comparison_ops. intros Hp.
  repeat (apply elem_of_cons in Hp as [->|Hp]); [by do 2 eexists..|by apply elem_of_nil in Hp].
Qed.
Lemma find_itself op s : split_once_str op (op +:+ s) = Some ("", s).
Proof.
  assert (starts_with op (op +:+ s) = true) as E by (apply starts_with_spec; by eexists).
  assert (str_drop (String.length op) (op +:+ s) = s) as D by (clear E; by induction op).
  destruct op as [|c op]; [by destruct s|]. change (String c op +:+ s) with (String c (op +:+ s)) in *.
  cbn [split_once_str]. by rewrite E, D.
Qed.
(** the operators that are tried before one are not its beginning. *)
Lemma tried_first field op value ops : plain_word field → plain_word value → op ∈ comparison_ops →
  ops ⊆ comparison_ops → (∃ ops1 ops2, ops = ops1 ++ op :: ops2 ∧ Forall (fun p => starts_with p op = false) ops1) →
  parse_with ops (field +:+ " " +:+ op +:+ " " +:+ value) = Some (field, op, value).
Proof.
  intros Hf Hv Hop Hsub (ops1 & ops2 & -> & Hst).
  assert (Hfs : str_forall (fun c => plain_char c || Ascii.eqb c " ") (field +:+ " ") = true).
  { apply text_forall_app. split; [apply plain_or_space, Hf|done]. }
  rewrite <-(text_app_assoc field " "). change (" " +:+ value) with (String " " value).
  induction Hst as [|p ops1 Hp _ IH]; cbn [app parse_with].
  - destruct (operator_first op Hop) as (d & pat & E & Hd). rewrite E at 1. rewrite find_skips by done.
    rewrite <-E, find_itself. cbn [fmap option_fmap option_map]. rewrite text_app_nil, trim_one_space, trim_value_plain by auto using plain_is_word. done.
  - assert (p ∈ comparison_ops) as Hin by (apply Hsub; by left).
    destruct (operator_first p Hin) as (d & pat & E & Hd). rewrite E at 1. rewrite find_skips by done.
    rewrite <-E, find_other by done. apply IH. intros x Hx. apply Hsub. by right.
Qed.

(** a comparison is read as it is written. *)
Lemma comparison_read_back field op value : plain_word field → plain_word value → op ∈ comparison_ops →
  parse_comparison (field +:+ " " +:+ op +:+ " " +:+ value) = Some (field, op, value).
Proof.
  intros Hf Hv Hop. apply tried_first; [done..|]. revert Hop. unfold comparison_ops. intros Hop.
  repeat (apply elem_of_cons in Hop as [->|Hop]); [..|by apply elem_of_nil in Hop].
  - by exists [], ["<="; "!="; "=="; ">"; "<"].
  - exists [">="], ["!="; "=="; ">"; "<"]. by repeat constructor.
  - exists [">="; "<="], ["=="; ">"; "<"]. by repeat constructor.
  - exists [">="; "<="; "!="], [">"; "<"]. by repeat constructor.
  - exists [">="; "<="; "!="; "=="], ["<"]. by repeat constructor.
  - exists [">="; "<="; "!="; "=="; ">"], []. by repeat constructor.
Qed.

Lemma prefix_in_word p w r : without " " p → starts_with p (w +:+ String " " r) = true → starts_with p w = true.
Proof.
  revert w. induction p as [|c p IH]; intros w Hp Hst; [by destruct w|]. apply text_forall_cons in Hp as [Hc Hp].
  destruct w as [|d w].
  - change ("" +:+ String " " r) with (String " " r) in Hst. unfold starts_with in Hst. cbn [String.prefix] in Hst.
    destruct (ascii_dec c " ") as [->|]; done.
  - change (String d w +:+ String " " r) with (String d (w +:+ String " " r)) in Hst. unfold starts_with in *.
    cbn [String.prefix] in *. destruct (ascii_dec c d); [|done]. by apply IH.
Qed.
Lemma trim_comparison field op value : plain_word field → plain_word value → op ∈ comparison_ops →
  trim (field +:+ " " +:+ op +:+ " " +:+ value) = field +:+ " " +:+ op +:+ " " +:+ value.
Proof.
  intros Hf Hv Hop. unfold trim. rewrite trim_start_word by (by apply plain_is_word).
  rewrite <-(text_app_assoc op), <-(text_app_assoc " "), <-(text_app_assoc field).
  apply trim_end_app_word; [|by apply plain_is_word]. unfold ascii_text. rewrite !text_forall_app.
  split; [by apply word_ascii, plain_is_word|]. unfold comparison_ops in Hop.
  repeat (apply elem_of_cons in Hop as [->|Hop]); [done..|by apply elem_of_nil in Hop].
Qed.

Lemma trim_op op n : op ∈ comparison_ops → word n → trim (String " " (op +:+ String " " n)) = op +:+ String " " n.
Proof.
  intros Hop Hn. assert (word op ∧ ascii_text (op +:+ " ")) as [Hw Ha].
  { unfold comparison_ops in Hop. repeat (apply elem_of_cons in Hop as [->|Hop]); [by repeat split..|by apply elem_of_nil in Hop]. }
  transitivity (trim (op +:+ String " " n)).
  - unfold trim. f_equal. unfold trim_start. cbn [String.length trim_start_fuel]. by rewrite find_white.
  - unfold trim. rewrite trim_start_word by done. change (String " " n) with (" " +:+ n). rewrite <-text_app_assoc.
    by apply trim_end_app_word.
Qed.

Section expressions.
Context `{ValidateEnv}.

(** a comparison of a field with a value. *)
Lemma comparison_value field op value ev score :
  plain_word field → plain_word value → op ∈ comparison_ops → starts_with "bootability.score" field = false →
  evaluate_expr (field +:+ " " +:+ op +:+ " " +:+ value) ev score =
  match get_field ev field with Some actual => Ok (eval_op actual op value) | None => Err (UnknownField field) end.
Proof.
  intros Hf Hv Hop Hb. unfold evaluate_expr. rewrite trim_comparison, comparison_read_back by done. unfold strip_prefix.
  destruct (starts_with "bootability.score" (field +:+ " " +:+ op +:+ " " +:+ value)) eqn:E.
  { exfalso. change (" " +:+ op +:+ " " +:+ value) with (String " " (op +:+ " " +:+ value)) in E.
    by rewrite (prefix_in_word "bootability.score" field _ eq_refl E) in Hb. }
  unfold resolve_field. destruct (String.eqb_spec field "bootability.score") as [->|_]; [done|].
  by destruct (get_field ev field).
Qed.
(** a comparison of a field with a value, for each of the six operators and for fields and
    values without spaces, quotes and operators, is decided on the value the snapshot has for the
    field; a field the snapshot has no value for is an error and not a failed check. *)
Theorem comparison_decided field op value ev score :
  plain_word field → plain_word value → op ∈ comparison_ops → starts_with "bootability.score" field = false →
  evaluate_expr (field +:+ " " +:+ op +:+ " " +:+ value) ev score =
  match get_field ev field with Some actual => Ok (eval_op actual op value) | None => Err (UnknownField field) end.
Proof. apply comparison_value. Qed.

(** a number whose text is read back as it was: Rust prints as many digits as that needs. *)
Definition reads_back (x : f64) : Prop := parse_f64 (f64_text x) = Some x.
Lemma score_compared op n ev x y : op ∈ [">="; "<="; ">"; "<"; "=="] → plain_word n →
  parse_f64 n = Some y → reads_back x → reads_back y →
  evaluate_expr ("bootability.score " +:+ op +:+ " " +:+ n) ev (Some x) = Ok (compare_numbers x op y).
Proof.
  intros Hop Hn Hy Hx Hyy.
  assert (op ∈ comparison_ops) as Hc.
  { unfold comparison_ops. revert Hop. rewrite !elem_of_cons. tauto. }
  assert (plain_word "bootability.score") as Hf by done.
  pose proof (trim_comparison "bootability.score" op n Hf Hn Hc) as Ht.
  change ("bootability.score " +:+ op +:+ " " +:+ n) with ("bootability.score" +:+ " " +:+ op +:+ " " +:+ n).
  unfold evaluate_expr. rewrite Ht.
  change (strip_prefix "bootability.score" ("bootability.score" +:+ " " +:+ op +:+ " " +:+ n))
    with (Some (String " " (op +:+ String " " n))).
  unfold eval_numeric_compare. rewrite trim_op by auto using plain_is_word. cbn [default from_option].
  transitivity (match parse_f64 (trim (String " " n)) with
                | Some e => Ok (eval_op (f64_text x) op (f64_text e))
                | None => Err (NotANumber (trim (String " " n)))
                end : outcome validate_error bool).
  - repeat (apply elem_of_cons in Hop as [->|Hop]); [reflexivity..|by apply elem_of_nil in Hop].
  - rewrite trim_space_word, Hy by (by apply plain_is_word). unfold eval_op. by rewrite Hx, Hyy.
Qed.

(** texts that are not both numbers: [!=] is the opposite of [==] exactly unless they are equal
    up to the case of letters only, where both hold. *)
Theorem inequality_exactly actual expected : parse_f64 actual = None ∨ parse_f64 expected = None →
  (eval_op actual "!=" expected = negb (eval_op actual "==" expected)
   ↔ (eq_ignore_ascii_case actual expected = true → actual = expected)).
Proof.
  intros Hn. assert (∀ op, eval_op actual op expected = compare_texts actual op expected) as E.
  { intros op. unfold eval_op. destruct Hn as [->| ->]; [done|by destruct (parse_f64 actual)]. }
  rewrite !E. unfold compare_texts. cbn [String.eqb Ascii.eqb Bool.eqb].
  destruct (String.eqb_spec actual expected) as [->|Hne].
  - split; [done|]. intros _. cbn. by rewrite orb_true_r.
  - destruct (eq_ignore_ascii_case actual expected); cbn; naive_solver.
Qed.
End expressions.

(** ** Rules *)
(** an action that reads the guest only. *)
Definition gact_reads {A} (m : gact A) : Prop := ∀ t, (m t).1 = t.
Definition vact_reads {A} (m : vact A) : Prop := ∀ t, (m t).1 = t.
Lemma reads_gask {A} (f : tree → outcome guest_error A) : gact_reads (gask f).
Proof. done. Qed.
Lemma reads_gbind {A B} (m : gact A) (f : A → gact B) : gact_reads m → (∀ a, gact_reads (f a)) → gact_reads (m ≫= f).
Proof.
  intros Hm Hf t. unfold mbind, gact_bind. specialize (Hm t). destruct (m t) as [t' [a|e|]]; cbn in *; subst; [apply Hf|done..].
Qed.
Lemma reads_of_guest {A} (m : gact A) : gact_reads m → vact_reads (of_guest m).
Proof. intros Hm t. unfold of_guest. specialize (Hm t). by destruct (m t). Qed.
Lemma reads_vret {A} (a : A) : vact_reads (mret a).
Proof. done. Qed.
Lemma reads_of_outcome {A} (o : outcome validate_error A) : vact_reads (of_outcome o).
Proof. done. Qed.
Lemma reads_vbind {A B} (m : vact A) (f : A → vact B) : vact_reads m → (∀ a, vact_reads (f a)) → vact_reads (m ≫= f).
Proof.
  intros Hm Hf t. unfold mbind, vact_bind. specialize (Hm t). destruct (m t) as [t' [a|e|]]; cbn in *; subst; [apply Hf|done..].
Qed.
Lemma reads_if {A} (b : bool) (m n : vact A) : vact_reads m → vact_reads n → vact_reads (if b then m else n).
Proof. by destruct b. Qed.
Create HintDb reads.
#[local] Hint Resolve @reads_gask @reads_gbind @reads_of_guest @reads_vret @reads_of_outcome @reads_vbind @reads_if : reads.

Section rules.
Context `{ValidateEnv} `{FileCrates} `{GuestIo} (g : Guestfs).

Lemma reads_resolved path : gact_reads (resolved_path g path).
Proof. unfold resolved_path. auto with reads. Qed.
#[local] Hint Resolve reads_resolved : reads.
Lemma reads_there path : gact_reads (g_exists g path).
Proof. unfold g_exists. auto with reads. Qed.
Lemma reads_file path : gact_reads (g_read_file g path).
Proof. unfold g_read_file. auto with reads. Qed.
Lemma reads_stat path : gact_reads (g_stat_mode g path).
Proof. unfold g_stat_mode. auto with reads. Qed.
#[local] Hint Resolve reads_there reads_file reads_stat : reads.
Lemma reads_rule root ev score rule : vact_reads (validate_rule g root ev score rule).
Proof.
  unfold validate_rule. destruct (ru_expr rule); [auto with reads|]. apply reads_vbind; [|auto with reads].
  destruct (ru_type rule); cbn [rule_status]; auto with reads;
    unfold check_package_installed, check_package_forbidden, check_file_exists, check_file_not_exists,
      check_file_contains, check_file_permissions, check_service_enabled, check_service_disabled,
      check_user_exists, check_user_not_exists; auto 8 with reads.
Qed.

(** the rules one after the other: the first that cannot be decided ends the validation. *)
Lemma rules_decided root ev score rules t :
  validate_rules g root ev score rules t = (t, mapM (fun rule => (validate_rule g root ev score rule t).2) rules).
Proof.
  induction rules as [|rule rules IH]; [done|]. cbn [validate_rules mapM].
  unfold mbind at 1, vact_bind. pose proof (reads_rule root ev score rule t) as Hr.
  destruct (validate_rule g root ev score rule t) as [t' [r|e|]]; cbn in Hr |- *; subst t'; [|done..].
  unfold mbind at 1. rewrite IH. cbn. by destruct (mapM _ rules).
Qed.
Lemma mapM_outcome_Ok {E A B} (f : A → outcome E B) l k : mapM f l = Ok k ↔ Forall2 (fun x y => f x = Ok y) l k.
Proof.
  split.
  - revert k. induction l as [|x l IH]; intros k; cbn; [intros [= <-]; constructor|].
    intros (y & Hy & (k' & Hk & [= <-])%outcome_bind_Ok)%outcome_bind_Ok. constructor; auto.
  - induction 1 as [|x y l k Hxy _ IH]; [done|]. cbn. by rewrite Hxy, IH.
Qed.
End rules.

Section reports.
Context `{ValidateEnv} `{FileCrates} `{GuestIo}.

(** the score the expressions are about. *)
Definition generic_score (ev : EvidenceSnapshot) : f64 := br_score (analyze_bootability ev Generic).

(** what a report is, on the snapshot [ev]. *)
Definition report_on (image root : string) (policy : RulePolicy) (g : Guestfs) (t : tree) (ev : EvidenceSnapshot)
    (report : ValidationReport) : Prop :=
  Forall2 (fun rule r => validate_rule g root ev (generic_score ev) rule t = (t, Ok r)) (rp_rules policy) (vp_results report) ∧
  report = mk_ValidationReport image (rp_name policy) rfc3339_now (vp_results report) (ValidationSummary_new (vp_results report)).
Lemma mounted_report image root policy g t :
  (validate_mounted image root policy g t).1 = t ∧
  ∀ report, (validate_mounted image root policy g t).2 = Ok report ↔
    ∃ ev, build_evidence image root t = Ok ev ∧ report_on image root policy g t ev report.
Proof.
  unfold validate_mounted, mbind, vact_bind, of_guest, gask. destruct (build_evidence image root t) as [ev|e|]; cbn [guest_outcome];
    [|by split; [|naive_solver]..].
  rewrite rules_decided. fold (generic_score ev). set (F := fun rule => (validate_rule g root ev (generic_score ev) rule t).2).
  assert (∀ rule r, F rule = Ok r ↔ validate_rule g root ev (generic_score ev) rule t = (t, Ok r)) as HF.
  { intros rule r. unfold F. pose proof (reads_rule g root ev (generic_score ev) rule t) as Hr.
    destruct (validate_rule g root ev (generic_score ev) rule t) as [t' o]. cbn in Hr |- *. naive_solver. }
  assert (∀ k, mapM F (rp_rules policy) = Ok k ↔
    Forall2 (fun rule r => validate_rule g root ev (generic_score ev) rule t = (t, Ok r)) (rp_rules policy) k) as Hm.
  { intros k. rewrite mapM_outcome_Ok. split; intros Hf; (eapply Forall2_impl; [exact Hf|]); intros; by apply HF. }
  split; [by destruct (mapM F (rp_rules policy))|]. intros report. unfold report_on.
  destruct (mapM F (rp_rules policy)) as [k|e|] eqn:E; unfold mret, vact_ret; cbn [snd].
  - split.
    + intros [= <-]. exists ev. split; [reflexivity|]. split; [exact (proj1 (Hm k) eq_refl)|reflexivity].
    + intros (ev' & [= <-] & Hall & ->). apply Hm in Hall. cbn in Hall. simplify_eq. done.
  - split; [done|]. intros (ev' & [= <-] & Hall%Hm & _). done.
  - split; [done|]. intros (ev' & [= <-] & Hall%Hm & _). done.
Qed.

(** a validation changes nothing of the guest, and it answers with a report exactly when the
    snapshot could be taken and every rule could be decided; the report then has one result per
    rule, in the order of the policy, each with the verdict of its rule, and their summary. *)
Theorem report_exactly image root policy g t :
  (validate_mounted image root policy g t).1 = t ∧
  ∀ report, (validate_mounted image root policy g t).2 = Ok report ↔
    ∃ ev, build_evidence image root t = Ok ev ∧ report_on image root policy g t ev report.
Proof. exact (mounted_report image root policy g t). Qed.

Lemma no_failures results : count_status VFail results = 0 → Forall (fun r => vr_status r ≠ VFail) results.
Proof.
  unfold count_status. induction results as [|r results IH]; [constructor|]. cbn [List.filter].
  case_bool_decide; [done|]. intros Hn. constructor; auto.
Qed.
(** a profile of a cloud asks for a boot score. *)
Lemma cloud_has_floor c : ∃ i rule, rp_rules (cloud_policy c) !! i = Some rule ∧ ru_expr rule = Some "bootability.score >= 80".
Proof. destruct c; [exists 3|exists 2..]; eexists; split; reflexivity. Qed.

Definition numbers_read_back (image : string) : Prop :=
  parse_f64 "80" = Some (f64_of_Z 80) ∧ reads_back (f64_of_Z 80) ∧
  ∀ root roots g t ev, launch_image image = Ok (root :: roots, (g, t)) → build_evidence image root t = Ok ev →
    reads_back (generic_score ev).
Lemma floor_decided ev : parse_f64 "80" = Some (f64_of_Z 80) → reads_back (f64_of_Z 80) → reads_back (generic_score ev) →
  evaluate_expr "bootability.score >= 80" ev (Some (generic_score ev)) = Ok (f64_of_Z 80 <=? generic_score ev)%f64.
Proof. intros H80 R80 Rs. by apply (score_compared ">=" "80"); [left|..]. Qed.

(** C31: an image that passes the profile of a cloud in strict mode boots: the boot report of its
    snapshot has no blocker and a score of 80 or more.  Numbers are read back as they are printed. *)
Theorem strict_cloud_profile_boots name c image report : numbers_read_back image → CloudProfile_parse name = Some c →
  validate_command image None (Some name) true = (Some report, Ok ()) →
  ∃ root roots g t ev, launch_image image = Ok (root :: roots, (g, t)) ∧ build_evidence image root t = Ok ev ∧
    br_blockers (analyze_bootability ev Generic) = [] ∧ (f64_of_Z 80 <=? generic_score ev)%f64 = true.
Proof.
  intros (H80t & R80 & Rs) Hc. unfold validate_command, choose_policy. rewrite Hc. change (Ok (cloud_policy c) ≫= ?f) with (f (cloud_policy c)).
  unfold validate_image. destruct (launch_image image) as [[[|root roots] [g t]]|e|] eqn:El; cbn [guest_outcome mbind outcome_bind]; [done| |done..].
  destruct (mounted_report image root (cloud_policy c) g t) as [_ Hrep].
  destruct (validate_mounted image root (cloud_policy c) g t) as [t' [r|e|]]; cbn [snd] in *; [|done..].
  destruct (0 <? vs_failed (vp_summary r)) eqn:Ef; [done|]. intros [= ->].
  destruct (proj1 (Hrep report) eq_refl) as (ev & Hev & Hall & E).
  exists root, roots, g, t, ev. split; [done|]. split; [done|].
  assert ((f64_of_Z 80 <=? generic_score ev)%f64 = true) as H80.
  { destruct (cloud_has_floor c) as (i & rule & Hi & Hex).
    destruct (Forall2_lookup_l _ _ _ _ _ Hall Hi) as (r & Hr & Hv). revert Hv. unfold validate_rule. rewrite Hex, floor_decided by eauto.
    generalize (f64_of_Z 80 <=? generic_score ev)%f64. cbn. intros b [= <-]. apply Nat.ltb_ge, Nat.le_0_r in Ef. rewrite E in Ef.
    pose proof (Forall_lookup_1 _ _ _ _ (no_failures _ Ef) Hr) as Hs. cbn in Hs. by destruct b. }
  split; [|done]. destruct (boot_score_facts ev Generic) as (_ & Hpos & _ & Hb & _). apply Hb.
  by eapply f64_leb_trans; [..|exact H80]; [apply f64_of_Z_nonneg|apply f64_of_Z_nonneg|apply f64_le_nonneg|].
Qed.
(** the example policy asks for a setting that a guest need not have: such a guest gets no report. *)
Lemma undecided_loses_report image root policy g t ev rule : build_evidence image root t = Ok ev →
  rule ∈ rp_rules policy → (∀ r, (validate_rule g root ev (generic_score ev) rule t).2 ≠ Ok r) →
  ∀ report, (validate_mounted image root policy g t).2 ≠ Ok report.
Proof.
  intros Hev Hin Hno report Hr. apply (proj2 (mounted_report image root policy g t)) in Hr as (ev' & Hev' & Hall & _). rewrite Hev in Hev'. injection Hev' as <-.
  apply list_elem_of_lookup in Hin as [i Hi]. destruct (Forall2_lookup_l _ _ _ _ _ Hall Hi) as (r & _ & Hv).
  apply (Hno r). exact (f_equal snd Hv).
Qed.
(** a guest whose sshd does not say whether root may log in gets no report from the example
    policy, which is the default of the command. *)
Theorem default_policy_needs_sshd image root g t ev report : build_evidence image root t = Ok ev →
  se_ssh_root_login (ev_security ev) = None → (validate_mounted image root example_policy g t).2 ≠ Ok report.
Proof.
  intros Hev Hnone. revert report. eapply (undecided_loses_report _ _ _ _ _ ev); [done|by do 6 right; left|].
  intros r. unfold validate_rule. cbn [ru_expr].
  assert (∀ sc, evaluate_expr "security.ssh.root_login == false" ev sc = Err (UnknownField "security.ssh.root_login")) as E.
  { intros sc. pose proof (comparison_value "security.ssh.root_login" "==" "false" ev sc) as C.
    assert (get_field ev "security.ssh.root_login" = None) as Hg.
    { change (fmt_bool <$> se_ssh_root_login (ev_security ev) = None). by rewrite Hnone. }
    rewrite Hg in C. by apply C; [..|by do 3 right; left|]. }
  by rewrite E.
Qed.
End reports.

(** ** The summary *)
Definition score_ok (n p : Z) : bool :=
  let x := (f64_of_Z p / f64_of_Z n * f64_of_Z 100)%f64 in
  (f64_of_Z 0 <=? x)%f64 && (x <=? f64_of_Z 100)%f64 && Bool.eqb (f64_eqb x (f64_of_Z 100)) (p =? n)%Z.
Lemma scores_ok : forallb (fun n => forallb (score_ok n) (seqZ 0 (n + 1))) (seqZ 1 100) = true.
Proof. vm_cast_no_check (eq_refl true). Qed.
Lemma score_in_table n p : (1 ≤ n ≤ 100)%Z → (0 ≤ p ≤ n)%Z → score_ok n p = true.
Proof.
  intros Hn Hp. pose proof (proj1 (forallb_elem_of _ _) scores_ok n) as Hs. cbv beta in Hs.
  specialize (Hs ltac:(apply elem_of_seqZ; lia)). rewrite forallb_elem_of in Hs. apply Hs, elem_of_seqZ. lia.
Qed.
Lemma counts_total results :
  count_status VPass results + count_status VFail results + count_status VWarning results
  + count_status VSkip results + count_status VError results = length results.
Proof.
  unfold count_status. induction results as [|r results IH]; [done|]. cbn [List.filter length].
  destruct (vr_status r); repeat case_bool_decide; try done; cbn [length]; lia.
Qed.

(** the counts of a summary add up to the number of results; the score is a number between 0
    and 100, and it is 100 exactly when something was decided and all of it passed (for at most a
    hundred results that were not skipped). *)
Theorem summary_exactly results :
  let s := ValidationSummary_new results in
  vs_total_rules s = length results ∧
  vs_passed s + vs_failed s + vs_warnings s + vs_skipped s + vs_errors s = vs_total_rules s ∧
  (vs_total_rules s - vs_skipped s ≤ 100 →
   (f64_of_Z 0 <=? vs_compliance_score s)%f64 = true ∧ (vs_compliance_score s <=? f64_of_Z 100)%f64 = true ∧
   (f64_eqb (vs_compliance_score s) (f64_of_Z 100) = true ↔
    vs_skipped s < vs_total_rules s ∧ vs_passed s = vs_total_rules s - vs_skipped s)).
Proof.
  cbn [ValidationSummary_new vs_total_rules vs_passed vs_failed vs_warnings vs_skipped vs_errors vs_compliance_score].
  pose proof (counts_total results) as Ht. split; [done|]. split; [done|]. intros Hn.
  destruct (Nat.ltb_spec (count_status VSkip results) (length results)) as [Hlt|Hge].
  - unfold f64_of_nat. pose proof (score_in_table (Z.of_nat (length results - count_status VSkip results)) (Z.of_nat (count_status VPass results))
      ltac:(lia) ltac:(lia)) as Hs. unfold score_ok in Hs.
    apply andb_prop in Hs as [[H1 H2]%andb_prop H3%eqb_prop]. rewrite H1, H2, H3. split_and!; [done..|].
    rewrite Z.eqb_eq. lia.
  - split_and!; [done..|]. split; [done|lia].
Qed.

(** a number that is not finite is neither equal to itself nor unequal. *)
Lemma infinite_undecided `{ValidateEnv} a s : parse_f64 a = Some (S754_infinity s) →
  eval_op a "==" a = false ∧ eval_op a "!=" a = false.
Proof. intros E. unfold eval_op. rewrite E. by destruct s. Qed.

(** ** On given guests *)
#[local] Existing Instance ascii_platform.
#[local] Instance sample_host : FileCrates := {|
  b64_encode s := s; b64_decode s := Some s; file_sha256_hex s := s; cwd := []; written_at := None; umask_mode := 420
|}.
#[local] Instance sample_io : GuestIo := {| write_fault _ := None; is_utf8 _ := true |}.
(** a host with a guest at /mnt that has these files and directories. *)
Definition guest_with (entries : list (list string * node)) : tree :=
  list_to_map (([], plain_dir) :: (["mnt"], plain_dir) :: (["mnt"; "etc"], plain_dir)
               :: map (fun '(p, n) => ("mnt" :: p, n)) entries).
Definition cloud_guest : tree := guest_with
  [(["usr"], plain_dir); (["usr"; "bin"], plain_dir); (["usr"; "bin"; "cloud-init"], File "#!" 493 None);
   (["etc"; "cloud"], plain_dir); (["etc"; "cloud"; "cloud.cfg"], File "datasource: Ec2" 420 None)].
(** numbers are 80 and 100 here. *)
#[local] Instance sample_env : ValidateEnv := {|
  parse_f64 s := if String.eqb s "80" then Some (f64_of_Z 80) else if String.eqb s "100" then Some (f64_of_Z 100) else None;
  f64_text x := if f64_eqb x (f64_of_Z 80) then "80" else "100";
  list_applications _ _ := Ok ["openssh-server"]; build_evidence _ _ _ := Ok repaired_guest;
  launch_image _ := Ok (["/dev/sda1"], (mounted_guest, cloud_guest)); rfc3339_now := "now"
|}.
Lemma comparison_decided_witness :
  evaluate_expr ("os.distribution" +:+ " " +:+ "==" +:+ " " +:+ "RHEL") repaired_guest None = Ok true.
Proof.
  rewrite (comparison_decided "os.distribution" "==" "RHEL" repaired_guest None); [reflexivity|done|done| |done].
  by do 3 right; left.
Defined.
Lemma inequality_exactly_witness :
  eval_op "rhel" "!=" "RHEL" = negb (eval_op "rhel" "==" "RHEL") ↔ (eq_ignore_ascii_case "rhel" "RHEL" = true → "rhel" = "RHEL").
Proof. apply inequality_exactly. by left. Defined.
Lemma strict_cloud_profile_boots_witness :
  ∃ root roots g t ev, launch_image "vm.qcow2" = Ok (root :: roots, (g, t)) ∧ build_evidence "vm.qcow2" root t = Ok ev ∧
    br_blockers (analyze_bootability ev Generic) = [] ∧ (f64_of_Z 80 <=? generic_score ev)%f64 = true.
Proof.
  destruct (validate_command "vm.qcow2" None (Some "EC2") true) as [[report|] o] eqn:E; [|by vm_compute in E].
  apply (strict_cloud_profile_boots "EC2" Aws "vm.qcow2" report).
  - split; [done|]. split; [by vm_compute|]. intros root roots g t ev _ [= <-]. by vm_compute.
  - reflexivity.
  - rewrite E. f_equal. vm_compute in E. by injection E.
Defined.
Lemma default_policy_needs_sshd_witness : (validate_mounted "vm.qcow2" "/dev/sda1" example_policy mounted_guest cloud_guest).2
  ≠ Ok (mk_ValidationReport "vm.qcow2" "Example Security Policy" "now" [] (ValidationSummary_new [])).
Proof. apply (default_policy_needs_sshd _ _ _ _ repaired_guest); reflexivity. Defined.

(** both comparisons hold of texts that differ in case. *)
Example both_hold : evaluate_expr "os.distribution == RHEL" repaired_guest None = Ok true ∧
  evaluate_expr "os.distribution != RHEL" repaired_guest None = Ok true.
Proof. by vm_compute. Qed.
(** an operator in the value is taken for the operator of the comparison. *)
Example operator_in_value : evaluate_expr "os.hostname == a>=b" repaired_guest None = Err (UnknownField "os.hostname == a").
Proof. by vm_compute. Qed.
(** the boot score has no [!=]. *)
Example score_without_inequality : evaluate_expr "bootability.score != 80" repaired_guest (Some (f64_of_Z 100))
  = Err (InvalidBootExpression "!= 80").
Proof. by vm_compute. Qed.
(** an enabled unit: systemd links it by an absolute path, which is looked up on the host. *)
Definition sshd_enabled : tree := guest_with
  [(["usr"], plain_dir); (["usr"; "lib"], plain_dir); (["usr"; "lib"; "sshd.service"], File "[Unit]" 420 None);
   (["etc"; "systemd"], plain_dir); (["etc"; "systemd"; "system"], plain_dir);
   (["etc"; "systemd"; "system"; "multi-user.target.wants"], plain_dir);
   (["etc"; "systemd"; "system"; "multi-user.target.wants"; "sshd.service"], Link "/usr/lib/sshd.service")].
Example enabled_unit_is_disabled :
  (check_service_enabled mounted_guest "sshd" sshd_enabled).2 = Ok VFail ∧
  (check_service_disabled mounted_guest "sshd" sshd_enabled).2 = Ok VPass.
Proof. by vm_compute. Qed.
(** the file the remediation of CIS-1.1.1.1 writes is the one the rule forbids. *)
Example remediation_fails_the_rule :
  match rp_rules cis_ubuntu_2004_policy with
  | rule :: _ =>
      ru_remediation rule = Some "echo 'install cramfs /bin/true' > /etc/modprobe.d/cramfs.conf" ∧
      (rule_status mounted_guest "/dev/sda1" repaired_guest (f64_of_Z 100) (ru_type rule)
        (guest_with [(["etc"; "modprobe.d"], plain_dir);
                     (["etc"; "modprobe.d"; "cramfs.conf"], File "install cramfs /bin/true" 420 None)])).2 = Ok VFail
  | [] => False
  end.
Proof. by vm_compute. Qed.
(** a comment satisfies the rule on root log-in. *)
Example comment_satisfies_rule :
  (check_file_contains mounted_guest "/etc/ssh/sshd_config" "PermitRootLogin no"
    (guest_with [(["etc"; "ssh"], plain_dir);
      (["etc"; "ssh"; "sshd_config"], File ("#PermitRootLogin no" +:+ newline_str +:+ "PermitRootLogin yes") 384 None)])).2 = Ok VPass.
Proof. by vm_compute. Qed.
(** without a password file the rules on users are neither passed nor failed, and strict mode
    lets them through. *)
Example strict_ignores_errors :
  let policy := mk_RulePolicy "users" "1" "" [mk_PolicyRule "U" "no toor" "" "high" (RUserNotExists "toor") None None] in
  match validate_command "vm.qcow2" (Some (Ok policy)) None true with
  | (Some report, Ok ()) => map vr_status (vp_results report) = [VError]
  | _ => False
  end.
Proof. by vm_compute. Qed.
