(* ===== verification/Generator.v ===== *)
(** * The plan generator

    [PlanGenerator] of [src/cli/plan/generator.rs]: plans made from the findings of a profile,
    of a boot report or of a migration report, and the plans with a fixed list of operations for
    Windows and Linux guests.  JSON values and the text of an error are [GenText]; the guest is
    read through [GuestFs]. *)
From stdpp Require Import base gmap strings list.
From Stdlib Require Import ZArith Lia Ascii SpecFloat.
From S2P Require Import Prelude RustStr F64 Evidence BootChecks BootEngine Filesystem Migration Kahn FixPlan Passport Gate LiveExec Words Baseline FileOps GuestFs.

(** ** The security profile

    The report types of [src/cli/profiles/mod.rs], the audits of [SecurityProfile] in
    [security.rs] over what was inspected of a guest ([Inspection]), and the two readers of
    [src/guestfs/inspect_enhanced.rs] the audits depend on: [inspect_ssh_config] and
    [inspect_selinux].  The other inspections are arguments. *)
Inductive RiskLevel : Set := RiskCritical | RiskHigh | RiskMedium | RiskLow | RiskInfo.
#[export] Instance RiskLevel_eq_dec : EqDecision RiskLevel.
Proof. solve_decision. Defined.
Inductive FindingStatus : Set := FsPass | FsWarning | FsFail | FsInfo.
Record ProfileFinding : Type := mk_ProfileFinding {
  pf_item : string;
  pf_status : FindingStatus;
  pf_message : string;
  pf_risk_level : option RiskLevel
}.
Record ReportSection : Type := mk_ReportSection { rs_title : string; rs_findings : list ProfileFinding }.
Record ProfileReport : Type := mk_ProfileReport {
  pr_profile_name : string;
  pr_sections : list ReportSection;
  pr_overall_risk : option RiskLevel;
  pr_summary : option string
}.
Definition fmt_RiskLevel (r : RiskLevel) : string :=
  match r with
  | RiskCritical => "CRITICAL"
  | RiskHigh => "HIGH"
  | RiskMedium => "MEDIUM"
  | RiskLow => "LOW"
  | RiskInfo => "INFO"
  end.

(** ** What is inspected *)
Record UserAccount : Type := mk_UserAccount {
  ua_username : string;
  ua_uid : string;
  ua_gid : string;
  ua_home : string;
  ua_shell : string
}.
Record SystemService : Type := mk_SystemService { sv_name : string; sv_enabled : bool; sv_state : string }.
(** a part that could not be read is absent; certificates are a path and a subject. *)
Record Inspection : Type := mk_Inspection {
  in_ssh_config : option (gmap string string);
  in_users : option (list UserAccount);
  in_root_mounts : bool;
  in_services : option (list SystemService);
  in_selinux : option string;
  in_certificates : option (list (string * string))
}.
(** the first white space of a text, with the text before and after it. *)
Fixpoint split_once_white (s : string) : option (string * string) :=
  match List.find (fun w => starts_with w s) white_space_chars with
  | Some w => Some ("", str_drop (String.length w) s)
  | None =>
      match s with
      | EmptyString => None
      | String c s => (fun '(a, b) => (String c a, b)) <$> split_once_white s
      end
  end.
Definition ssh_setting (l : string) : option (string * string) :=
  let l := trim l in
  if is_empty l || starts_with "#" l then None
  else (fun '(key, value) => (key, trim value)) <$> split_once_white l.
(** [HashMap::insert]: a later line replaces an earlier one. *)
Definition ssh_config_of (content : string) : gmap string string :=
  foldl (fun config l => match ssh_setting l with Some (k, v) => <[k := v]> config | None => config end) ∅ (lines content).
Definition inspect_ssh_config (content : option string) : gmap string string :=
  match content with Some c => ssh_config_of c | None => ∅ end.
Fixpoint selinux_of (ls : list string) : string :=
  match ls with
  | [] => "unknown"
  | l :: ls =>
      if starts_with "SELINUX=" l then
        match split_char "="%char l with _ :: v :: _ => v | _ => "unknown" end
      else selinux_of ls
  end.
Definition inspect_selinux (content : option string) : string :=
  match content with Some c => selinux_of (lines c) | None => "disabled" end.

(** ** The audits *)
Definition audit_ssh (config : option (gmap string string)) : ReportSection :=
  mk_ReportSection "SSH Configuration"
    match config with
    | Some ssh_config =>
        match ssh_config !! "PermitRootLogin" with
        | Some permit_root =>
            [if String.eqb permit_root "yes" then
               mk_ProfileFinding "SSH Root Login" FsFail ("PermitRootLogin: " +:+ permit_root +:+ " (should be 'no')") (Some RiskCritical)
             else mk_ProfileFinding "SSH Root Login" FsPass ("PermitRootLogin: " +:+ permit_root) (Some RiskLow)]
        | None => []
        end
        ++ match ssh_config !! "PasswordAuthentication" with
           | Some password_auth =>
               [if String.eqb password_auth "yes" then
                  mk_ProfileFinding "SSH Password Authentication" FsWarning
                    ("PasswordAuthentication: " +:+ password_auth +:+ " (consider using key-based auth only)") (Some RiskMedium)
                else mk_ProfileFinding "SSH Password Authentication" FsPass
                       ("PasswordAuthentication: " +:+ password_auth) (Some RiskLow)]
           | None => []
           end
        ++ match ssh_config !! "Port" with
           | Some port =>
               [if String.eqb port "22" then
                  mk_ProfileFinding "SSH Port" FsInfo "Port: 22 (default - consider non-standard port)" (Some RiskLow)
                else mk_ProfileFinding "SSH Port" FsPass ("Port: " +:+ port +:+ " (non-standard)") (Some RiskLow)]
           | None => []
           end
    | None => [mk_ProfileFinding "SSH Configuration" FsInfo "SSH not installed or configured" None]
    end.
Definition audit_users (users : option (list UserAccount)) : ReportSection :=
  mk_ReportSection "User Account Security"
    match users with
    | Some users =>
        let root_users := List.filter (fun u => String.eqb (ua_uid u) "0") users in
        let no_password_users :=
          List.filter (fun u => contains "nologin" (ua_shell u) || contains "false" (ua_shell u)) users in
        [if (1 <? length root_users)%nat then
           mk_ProfileFinding "Root-Equivalent Users" FsWarning
             (fmt_nat (length root_users) +:+ " users with UID 0: " +:+ join ", " (map ua_username root_users)) (Some RiskHigh)
         else mk_ProfileFinding "Root-Equivalent Users" FsPass "Only 'root' user has UID 0" (Some RiskLow);
         mk_ProfileFinding "System Users" FsInfo (fmt_nat (length no_password_users) +:+ " users with disabled login") None;
         mk_ProfileFinding "Total User Accounts" FsInfo (fmt_nat (length users) +:+ " total users on system") None]
    | None => [mk_ProfileFinding "User Enumeration" FsWarning "Unable to read user accounts" (Some RiskMedium)]
    end.
Fixpoint firewall_finding (services : option (list SystemService)) (names : list string) : option ProfileFinding :=
  match names with
  | [] => None
  | fw :: names =>
      if match services with Some l => existsb (fun s => contains fw (sv_name s)) l | None => false end
      then Some (mk_ProfileFinding (fw +:+ " Service") FsPass (fw +:+ " detected") (Some RiskLow))
      else firewall_finding services names
  end.
Definition audit_firewall (root_mounts : bool) (services : option (list SystemService)) : ReportSection :=
  mk_ReportSection "Firewall & Network Security"
    (if root_mounts then
       [match firewall_finding services ["firewalld"; "iptables"; "ufw"] with
        | Some f => f
        | None => mk_ProfileFinding "Firewall" FsFail "No firewall service detected (firewalld/iptables/ufw)" (Some RiskCritical)
        end]
     else []).
Definition audit_mac (selinux : option string) : ReportSection :=
  mk_ReportSection "Mandatory Access Control"
    [match selinux with
     | Some mode =>
         if String.eqb mode "enforcing" then mk_ProfileFinding "SELinux" FsPass "SELinux: enforcing" (Some RiskLow)
         else if String.eqb mode "permissive" then
           mk_ProfileFinding "SELinux" FsWarning "SELinux: permissive (should be enforcing)" (Some RiskMedium)
         else if String.eqb mode "disabled" then
           mk_ProfileFinding "SELinux" FsFail "SELinux: disabled (should be enforcing)" (Some RiskHigh)
         else mk_ProfileFinding "SELinux" FsInfo ("SELinux: " +:+ mode) None
     | None => mk_ProfileFinding "Mandatory Access Control" FsInfo "SELinux/AppArmor not detected" None
     end].
Definition risky_finding (services : list SystemService) (risky : string) : list ProfileFinding :=
  match List.find (fun s => contains risky (sv_name s)) services with
  | Some service =>
      if sv_enabled service then
        [mk_ProfileFinding (risky +:+ " Service") FsFail (sv_name service +:+ " is enabled (HIGH RISK - unencrypted)") (Some RiskHigh)]
      else []
  | None => []
  end.
Definition audit_services (services : option (list SystemService)) : ReportSection :=
  mk_ReportSection "Service Security"
    match services with
    | Some services =>
        let findings := concat (map (risky_finding services) ["telnet"; "ftp"; "rsh"; "rlogin"; "vsftpd"]) in
        match findings with
        | [] => [mk_ProfileFinding "Insecure Services" FsPass "No known insecure services enabled" (Some RiskLow)]
        | _ => findings
        end
        ++ [mk_ProfileFinding "Enabled Services Count" FsInfo (fmt_nat (length services) +:+ " services enabled") None]
    | None => []
    end.
Fixpoint certificate_findings (i : nat) (certs : list (string * string)) : list ProfileFinding :=
  match certs with
  | [] => []
  | (path, subject) :: certs =>
      mk_ProfileFinding ("Certificate " +:+ fmt_nat (S i)) FsInfo (path +:+ " (" +:+ subject +:+ ")") None
      :: certificate_findings (S i) certs
  end.
Definition audit_certificates (certs : option (list (string * string))) : ReportSection :=
  mk_ReportSection "SSL/TLS Certificates"
    match certs with
    | Some certs =>
        mk_ProfileFinding "SSL/TLS Certificates" FsInfo (fmt_nat (length certs) +:+ " certificate paths found") None
        :: certificate_findings 0 (take 3 certs)
    | None => [mk_ProfileFinding "SSL/TLS Certificates" FsInfo "No certificates found or unable to read" None]
    end.
Definition has_risk (r : RiskLevel) (sections : list ReportSection) : bool :=
  existsb (fun f => bool_decide (pf_risk_level f = Some r)) (concat (map rs_findings sections)).
Definition calculate_risk (sections : list ReportSection) : RiskLevel :=
  if has_risk RiskCritical sections then RiskCritical
  else if has_risk RiskHigh sections then RiskHigh
  else if has_risk RiskMedium sections then RiskMedium
  else RiskLow.
Definition security_inspect (i : Inspection) : ProfileReport :=
  let sections :=
    [audit_ssh (in_ssh_config i); audit_users (in_users i); audit_firewall (in_root_mounts i) (in_services i);
     audit_mac (in_selinux i); audit_services (in_services i); audit_certificates (in_certificates i)] in
  mk_ProfileReport "Security Audit" sections (Some (calculate_risk sections))
    (Some ("Overall security risk level: " +:+ fmt_RiskLevel (calculate_risk sections)
           +:+ ". Review critical and high-risk findings.")).

Class GenText `{Platform} := {
  js_int : Z → json_value;
  js_str : string → json_value;
  js_strs : list string → json_value;
  guest_error_text : guest_error → string
}.

(** ** Reading a remediation *)
Fixpoint trim_start_pred (p : ascii → bool) (s : string) : string :=
  match s with
  | String c s' => if p c then trim_start_pred p s' else s
  | EmptyString => EmptyString
  end.
Fixpoint trim_end_pred (p : ascii → bool) (s : string) : string :=
  match s with
  | EmptyString => EmptyString
  | String c s' =>
      match trim_end_pred p s' with
      | EmptyString => if p c then EmptyString else String c EmptyString
      | t => String c t
      end
  end.
(** [str::trim_matches] for a predicate that holds of all bytes of a character or of none. *)
Definition trim_matches_pred (p : ascii → bool) (s : string) : string := trim_end_pred p (trim_start_pred p s).
Definition alphanumeric (c : ascii) : bool :=
  (48 <=? byte_of c)%Z && (byte_of c <=? 57)%Z || (65 <=? byte_of c)%Z && (byte_of c <=? 90)%Z
  || (97 <=? byte_of c)%Z && (byte_of c <=? 122)%Z.
Definition one_of_chars (cs : list ascii) (c : ascii) : bool := existsb (Ascii.eqb c) cs.

Section remediation.
Context `{Platform}.

Definition edit_one (file before after : string) (context : option string) : OperationType :=
  OpFileEdit (mk_FileEdit file true [mk_FileChange 0 before after context]).
Definition edit_sshd (before after : string) : OperationType := edit_one "/etc/ssh/sshd_config" before after None.
Definition install_one (package size : string) : OperationType :=
  OpPackageInstall (mk_PackageInstall [package] (Some size) None).
Definition systemd_enable_symlink (unit : string) : OperationType :=
  let unit := trim_end_matches ".service" (trim unit) in
  OpSymlink (mk_Symlink ("../../../../usr/lib/systemd/system/" +:+ unit +:+ ".service")
    ("/etc/systemd/system/multi-user.target.wants/" +:+ unit +:+ ".service")).
Definition systemd_disable_delete (unit : string) : OperationType :=
  let unit := trim_end_matches ".service" (trim unit) in
  OpFileDelete (mk_FileDelete ("/etc/systemd/system/multi-user.target.wants/" +:+ unit +:+ ".service") true).
Definition UNITS : list (string * string) :=
  [("fail2ban", "fail2ban"); ("auditd", "auditd"); ("chronyd", "chronyd"); ("chrony", "chronyd"); ("ntpd", "ntpd");
   ("rsyslog", "rsyslog"); ("apparmor", "apparmor"); ("sshd", "sshd"); ("firewalld", "firewalld")].
(** the unit named after a verb. *)
Definition unit_after (verb lower : string) : option string :=
  match split_once_str verb lower with
  | Some (_, after) =>
      let unit := trim_matches_pred (fun c => negb (alphanumeric c) && negb (one_of_chars ["-"; "_"; "."]%char c))
                    (match split_whitespace (trim_start after) with w :: _ => w | [] => "" end) in
      if negb (is_empty unit) && negb (String.eqb unit "and") && negb (String.eqb unit "the") then Some unit else None
  | None => None
  end.
Fixpoint listed_unit (units : list (string * string)) (lower : string) (wants_enable wants_disable : bool)
    : option OperationType :=
  match units with
  | [] => None
  | (needle, unit) :: units =>
      if negb (contains needle lower) || contains "install" lower then listed_unit units lower wants_enable wants_disable
      else if wants_disable && negb wants_enable then Some (systemd_disable_delete unit)
      else if wants_enable then Some (systemd_enable_symlink unit)
      else listed_unit units lower wants_enable wants_disable
  end.
Definition parse_systemd_unit_remediation (lower : string) : option OperationType :=
  let has s := contains s lower in
  let wants_enable := has "enable" || has "systemctl enable" || has "start on boot" || has "start at boot" in
  let wants_disable := has "disable" || has "systemctl disable" || has "stop on boot" in
  let listed := listed_unit UNITS lower wants_enable wants_disable in
  if has "systemctl" then
    match unit_after "enable" lower with
    | Some unit => Some (systemd_enable_symlink unit)
    | None =>
        match unit_after "disable" lower with
        | Some unit => Some (systemd_disable_delete unit)
        | None => listed
        end
    end
  else listed.
(** the operation for a text; the parser has no error. *)
Definition parse_remediation (remediation : string) : OperationType :=
  let lower := to_lowercase remediation in
  let has s := contains s lower in
  if has "ssh" && has "permitrootlogin" then
    edit_one "/etc/ssh/sshd_config" "PermitRootLogin yes" "PermitRootLogin no"
      (Some ("# Authentication:" +:+ newline_str +:+ "PermitRootLogin no"))
  else if has "pubkeyauthentication" || has "ssh" && has "public key" && has "enable" then
    OpFileWrite (mk_FileWrite "/etc/ssh/sshd_config.d/99-guestkit.conf"
      ("# Managed by guestkit plan" +:+ newline_str +:+ "PubkeyAuthentication yes" +:+ newline_str) (Some "0644"))
  else if has "passwordauthentication" && has "no" then edit_sshd "PasswordAuthentication yes" "PasswordAuthentication no"
  else if has "protocol" && has "ssh" && has "2" then edit_sshd "Protocol 1" "Protocol 2"
  else if has "permitemptypasswords" then edit_sshd "PermitEmptyPasswords yes" "PermitEmptyPasswords no"
  else if has "x11forwarding" && (has "disable" || has "no") then edit_sshd "X11Forwarding yes" "X11Forwarding no"
  else if has "ufw" && has "enable" then edit_one "/etc/ufw/ufw.conf" "ENABLED=no" "ENABLED=yes" None
  else if has "ufw" && (has "default deny" || has "deny incoming" || has "default" && has "drop") then
    edit_one "/etc/default/ufw" ("DEFAULT_INPUT_POLICY=" +:+ dquote +:+ "ACCEPT" +:+ dquote)
      ("DEFAULT_INPUT_POLICY=" +:+ dquote +:+ "DROP" +:+ dquote) None
  else match parse_systemd_unit_remediation lower with
  | Some op => op
  | None =>
      if has "firewall" && (has "enable" || has "install") then
        if has "install" then install_one "firewalld" "~5MB" else systemd_enable_symlink "firewalld"
      else if has "selinux" && (has "enforcing" || has "permissive" || has "disabled") then
        OpSelinuxMode (mk_SELinuxMode "/etc/selinux/config" "permissive"
          (if has "enforcing" then "enforcing" else if has "disabled" then "disabled" else "permissive")
          (Some "Requires reboot to take full effect"))
      else if has "fail2ban" && has "install" then install_one "fail2ban" "~15MB"
      else if has "aide" && has "install" then install_one "aide" "~10MB"
      else OpCommandExec (mk_CommandExec remediation 0 (Some 300%Z) None)
  end.
Definition migration_change_to_operation (change : string) : OperationType :=
  let lower := to_lowercase change in
  if contains "vmware tools" lower && contains "qemu-guest-agent" lower then install_one "qemu-guest-agent" "~2MB"
  else if contains "cloud-init" lower then install_one "cloud-init" "~5MB"
  else parse_remediation change.

(** ** Plans from reports *)
(** [{:03}] *)
Definition pad3 (n : nat) : string :=
  let s := fmt_nat n in
  match String.length s with 1 => "00" +:+ s | 2 => "0" +:+ s | _ => s end.
Definition estimate_duration (op_count : nat) : string :=
  match op_count with
  | 0 => "0s"
  | 1 | 2 | 3 => "1-2 minutes"
  | 4 | 5 | 6 | 7 | 8 => "3-5 minutes"
  | n => if (n <=? 15)%nat then "5-10 minutes" else "10+ minutes"
  end.
Definition post_apply_actions (ops : list Operation) : list PostApplyAction :=
  (if existsb (fun op => match op_type op with OpFileEdit fe => contains "sshd_config" (fed_file fe) | _ => false end) ops
   then [ServiceRestart ["sshd"]] else [])
  ++ (if existsb (fun op => match op_type op with
                            | OpServiceOperation so => String.eqb (so_service so) "firewalld"
                            | OpSymlink sl => contains "firewalld" (sl_link_path sl)
                            | _ => false
                            end) ops
      then [Validation "firewall-cmd --state" (Some "running")] else [])
  ++ (if existsb (fun op => match op_type op with OpSelinuxMode _ => true | _ => false end) ops
      then [RebootRequired "SELinux mode change requires reboot"] else []).
Definition risk_text (r : option RiskLevel) : string :=
  match r with
  | Some RiskCritical => "critical"
  | Some RiskHigh => "high"
  | Some RiskMedium => "medium"
  | Some RiskLow => "low"
  | Some RiskInfo => "info"
  | None => "unknown"
  end.
Definition risk_priority (r : option RiskLevel) : Priority :=
  match r with
  | Some RiskCritical => PrCritical
  | Some RiskHigh => PrHigh
  | Some RiskMedium => PrMedium
  | Some RiskLow => PrLow
  | Some RiskInfo | None => PrInfo
  end.
Definition finding_to_operation (id : string) (finding : ProfileFinding) (remediation : string) : Operation :=
  mk_Operation _ id (parse_remediation remediation) (risk_priority (pf_risk_level finding)) (pf_item finding)
    (risk_priority (pf_risk_level finding)) true [] None None.
(** operations numbered from a counter on. *)
Fixpoint numbered {A} (make : nat → A → Operation) (n : nat) (l : list A) : list Operation :=
  match l with
  | [] => []
  | x :: l => make n x :: numbered make (S n) l
  end.
Definition rated (finding : ProfileFinding) : bool := match pf_risk_level finding with Some _ => true | None => false end.
Definition from_security_profile (now : Z) (vm_path : string) (report : ProfileReport) : FixPlan :=
  let profile_name := if is_empty (pr_profile_name report) then "security" else pr_profile_name report in
  let prefix := to_ascii_lowercase (take_chars 3 profile_name) in
  let ops := numbered (fun n f => finding_to_operation (prefix +:+ "-" +:+ pad3 n) f (pf_message f)) 1
               (List.filter rated (concat (map rs_findings (pr_sections report)))) in
  mk_FixPlan _ "1.0" vm_path now profile_name (risk_text (pr_overall_risk report)) (estimate_duration (length ops))
    (mk_PlanMetadata "guestkit-profiles" true true
      (Some ("Fix plan generated from " +:+ profile_name +:+ " profile analysis")) [profile_name; "automated"])
    ops (post_apply_actions ops).
Definition boot_repair_op (n : nat) (finding : Finding) : Operation :=
  mk_Operation _ ("boot-" +:+ pad3 n) (parse_remediation (default (fi_message finding) (fi_remediation finding)))
    PrHigh (fi_title finding) PrMedium true [] None None.
Definition boot_repair_ops (boot : BootabilityReport) : list Operation :=
  numbered boot_repair_op 1 (br_blockers boot ++ br_warnings boot).
Definition from_boot_report (now : Z) (boot : BootabilityReport) (image : string) : FixPlan :=
  let ops := boot_repair_ops boot in
  mk_FixPlan _ "1.0" image now "boot-repair" "unknown" (estimate_duration (length ops))
    (mk_PlanMetadata "guestkit-profiles" true true (Some "Automated boot repair plan from doctor analysis") ["boot"; "doctor"])
    ops (post_apply_actions ops).
Definition migration_op (n : nat) (change : string) : Operation :=
  mk_Operation _ ("mig-" +:+ pad3 n) (migration_change_to_operation change) PrHigh change PrMedium true [] None None.
Definition modules_op (n : nat) (modules : list string) : Operation :=
  mk_Operation _ ("mig-" +:+ pad3 n)
    (OpFileEdit (mk_FileEdit "/etc/modules-load.d/guestkit-migration.conf" true
      [mk_FileChange 1 "" (join newline_str modules) (Some "# GuestKit: virtio modules for migration target")]))
    PrHigh "Load virtio drivers for target hypervisor" PrLow true [] None None.
(** the actions of the boot plan stay, and those of the whole plan come after the messages. *)
Definition from_migration_report (now : Z) (migration : MigrationScoreReport) (boot : BootabilityReport)
    (target image : string) : FixPlan :=
  let plan := from_boot_report now boot image in
  let first := S (length (pl_operations plan)) in
  let changes := numbered migration_op first (ms_required_changes migration) in
  let modules := match ms_driver_injections migration with
                 | [] => []
                 | ds => [modules_op (first + length changes) ds]
                 end in
  let ops := pl_operations plan ++ changes ++ modules in
  mk_FixPlan _ (pl_version plan) (pl_vm plan) now "migration" (pl_overall_risk plan) (estimate_duration (length ops))
    (mk_PlanMetadata "guestkit-migrate-plan" true true
      (Some ("Hypervisor-aware migration plan for " +:+ image +:+ " → " +:+ target)) ["migration"; to_lowercase target])
    ops
    (pl_post_apply plan ++ map Message (ms_licensing_warnings migration)
     ++ (if (0 <? ms_estimated_downtime_minutes migration)%Z
         then [Message ("Estimated migration downtime: " +:+ fmt_Z (ms_estimated_downtime_minutes migration) +:+ " minutes")]
         else [])
     ++ post_apply_actions ops).
(** [append_agent_ops] of [src/agent/inject.rs], which [with_agent_injection] calls: the
    binary, the staging file of the unit and the error of writing it, if it fails, are
    arguments.  (The metadata and the operations are changed before the write; the plan is
    dropped with the error.) *)
Definition GUEST_BINARY_DEST : string := "/usr/local/bin/zyvor-guest-agent".
Definition GUEST_UNIT_DEST : string := "/etc/systemd/system/zyvor-guest-agent.service".
Definition KUBEVIRT_CHANNEL_HINT : string := join newline_str
  ["Add virtio-serial channel (QGA-compatible) to VMI/libvirt domain:"; "spec:"; "  domain:"; "    devices:";
   "      channels:"; "      - name: org.qemu.guest_agent.0"; "        target:"; "          type: virtio";
   "          name: org.qemu.guest_agent.0"; "Guest device: /dev/virtio-ports/org.qemu.guest_agent.0"].
Definition agent_ops (op_base : nat) (binary unit_staging : string) : list Operation :=
  let id n := "agent-" +:+ pad3 (op_base + n) in
  [mk_Operation _ (id 0) (OpFileCopy (mk_FileCopy binary GUEST_BINARY_DEST false)) PrMedium
     "Install guestkit binary for in-guest agent" PrLow true [] None None;
   mk_Operation _ (id 1) (OpFileCopy (mk_FileCopy unit_staging GUEST_UNIT_DEST false)) PrMedium
     "Install guestkit-agent systemd unit" PrLow true [id 0] None None;
   mk_Operation _ (id 2) (OpCommandExec (mk_CommandExec "chmod 0755 /usr/local/bin/zyvor-guest-agent" 0 (Some 30%Z) None))
     PrLow "Make zyvor-guest-agent binary executable" PrLow false [id 0] None None;
   mk_Operation _ (id 3) (OpCommandExec (mk_CommandExec "systemctl enable zyvor-guest-agent || true" 0 (Some 60%Z) None))
     PrMedium "Enable zyvor-guest-agent on boot" PrLow true [id 1] None None].
Definition append_agent_ops (binary unit_staging : string) (write_error : option string) (plan : FixPlan)
    : outcome string FixPlan :=
  match write_error with
  | Some e => Err e
  | None =>
      let m := pl_metadata plan in
      Ok (mk_FixPlan _ (pl_version plan) (pl_vm plan) (pl_generated plan) (pl_profile plan) (pl_overall_risk plan)
        (pl_estimated_duration plan)
        (mk_PlanMetadata (pm_author m) (pm_review_required m) (pm_reversible m) (pm_description m)
          (pm_tags m ++ ["inject-agent"]))
        (pl_operations plan ++ agent_ops (length (pl_operations plan) + 1) binary unit_staging)
        (pl_post_apply plan ++ [Message KUBEVIRT_CHANNEL_HINT]))
  end.
Definition with_agent_injection := append_agent_ops.
End remediation.

(** ** Plans with fixed operations *)
Definition str_len_gt (n : nat) (s : string) : bool := (n <? String.length s)%nat.
Fixpoint count_char (c : ascii) (s : string) : nat :=
  match s with
  | EmptyString => 0
  | String d s => (if Ascii.eqb d c then 1 else 0) + count_char c s
  end.
(** [char::is_control]: C0, DEL and C1 (the two-byte characters from 194 128 to 194 159). *)
Fixpoint has_control (s : string) : bool :=
  match s with
  | EmptyString => false
  | String c s' =>
      (byte_of c <? 32)%Z || (byte_of c =? 127)%Z
      || (byte_of c =? 194)%Z && (match s' with
                                  | String d _ => (128 <=? byte_of d)%Z && (byte_of d <=? 159)%Z
                                  | EmptyString => false
                                  end)
      || has_control s'
  end.
Definition not_blank (o : option string) : option string :=
  match o with Some s => if is_empty (trim s) then None else Some (trim s) | None => None end.

Section fixed.
Context `{GenText} (now : Z) (vm_path : string).

Definition offline_plan (profile risk : string) (review : bool) (description : string) (tags : list string)
    (ops : list Operation) : FixPlan :=
  mk_FixPlan _ "1" vm_path now profile risk "seconds"
    (mk_PlanMetadata "guestkit" review true (Some description) tags) ops [].
Definition reg_op (id key value : string) (current new_data : json_value) (dtype : string) (priority : Priority)
    (desc : string) (risk : Priority) (deps : list string) : Operation :=
  mk_Operation _ id (OpRegistryEdit (mk_RegistryEdit _ key value current new_data dtype)) priority desc risk true deps None None.
Definition plain_op (id : string) (t : OperationType) (priority : Priority) (desc : string) (deps : list string) : Operation :=
  mk_Operation _ id t priority desc PrLow true deps None None.

Definition FIREWALL_RULES : string :=
  "HKLM\SYSTEM\ControlSet001\Services\SharedAccess\Parameters\FirewallPolicy\FirewallRules".
Definition RDP_TCP_KEY : string := "HKLM\SYSTEM\ControlSet001\Control\Terminal Server\WinStations\RDP-Tcp".
Definition windows_rdp_enable_plan : FixPlan :=
  let rule proto name := "v2.29|Action=Allow|Active=TRUE|Dir=In|Protocol=" +:+ proto
    +:+ "|LPort=3389|App=%SystemRoot%\system32\svchost.exe|Svc=termservice|Name=@FirewallAPI.dll,-" +:+ name
    +:+ "|Desc=@FirewallAPI.dll,-28756|EmbedCtxt=@FirewallAPI.dll,-28752|" in
  offline_plan "windows-rdp" "low" false
    "Offline Windows Remote Desktop enablement (Terminal Server + NLA + TermService/UmRdpService + firewall)"
    ["windows"; "rdp"; "firewall"; "offline"]
    [reg_op "enable-rdp" "HKLM\SYSTEM\ControlSet001\Control\Terminal Server" "fDenyTSConnections" (js_int 1) (js_int 0)
       "dword" PrHigh "Allow Remote Desktop connections" PrLow [];
     reg_op "rdp-nla" RDP_TCP_KEY "UserAuthentication" (js_int 1) (js_int 1) "dword" PrLow
       "Keep Network Level Authentication enabled" PrLow [];
     reg_op "rdp-port" RDP_TCP_KEY "PortNumber" (js_int 3389) (js_int 3389) "dword" PrLow
       "Ensure RDP listens on TCP 3389" PrLow [];
     reg_op "termservice-auto" "HKLM\SYSTEM\ControlSet001\Services\TermService" "Start" (js_int 3) (js_int 2) "dword"
       PrHigh "Set TermService startup type to Automatic" PrLow [];
     reg_op "umrdpservice-auto" "HKLM\SYSTEM\ControlSet001\Services\UmRdpService" "Start" (js_int 3) (js_int 2) "dword"
       PrHigh "Set UmRdpService startup type to Automatic" PrLow [];
     reg_op "fw-tcp" FIREWALL_RULES "RemoteDesktop-UserMode-In-TCP" (js_str "") (js_str (rule "6" "28753")) "sz"
       PrHigh "Enable Remote Desktop firewall rule (TCP-In)" PrLow [];
     reg_op "fw-udp" FIREWALL_RULES "RemoteDesktop-UserMode-In-UDP" (js_str "") (js_str (rule "17" "28752")) "sz"
       PrHigh "Enable Remote Desktop firewall rule (UDP-In)" PrLow []].
Definition valid_windows_hostname (name : string) : bool :=
  negb (str_len_gt 63 name) && str_forall (fun c => alphanumeric c || Ascii.eqb c "-"%char) name
  && negb (starts_with "-" name) && negb (ends_with_char "-"%char name).
Definition windows_hostname_plan (hostname : string) : outcome string FixPlan :=
  let name := trim hostname in
  if is_empty name then Err "Hostname is required (use --hostname)"
  else if negb (valid_windows_hostname name) then
    Err ("Invalid hostname '" +:+ name +:+ "' (use ASCII letters, digits, hyphen; no leading/trailing hyphen)")
  else
    let set id key value desc := reg_op id key value (js_str "") (js_str name) "sz" PrHigh desc PrLow [] in
    Ok (offline_plan "windows-hostname" "low" false ("Offline Windows hostname set to '" +:+ name +:+ "'")
      ["windows"; "hostname"; "offline"]
      [set "computername" "HKLM\SYSTEM\ControlSet001\Control\ComputerName\ComputerName" "ComputerName" "Set ComputerName";
       set "active-computername" "HKLM\SYSTEM\ControlSet001\Control\ComputerName\ActiveComputerName" "ComputerName" "Set ActiveComputerName";
       set "tcpip-hostname" "HKLM\SYSTEM\ControlSet001\Services\Tcpip\Parameters" "Hostname" "Set Tcpip Hostname";
       set "tcpip-nv-hostname" "HKLM\SYSTEM\ControlSet001\Services\Tcpip\Parameters" "NV Hostname" "Set Tcpip NV Hostname"]).
Definition windows_winrm_enable_plan : FixPlan :=
  offline_plan "windows-winrm" "medium" true
    "Offline Windows WinRM enablement (WinRM Automatic + WINRM-HTTP-In-TCP). Review auth/encryption before exposing beyond a lab network."
    ["windows"; "winrm"; "firewall"; "offline"]
    [reg_op "winrm-auto" "HKLM\SYSTEM\ControlSet001\Services\WinRM" "Start" (js_int 3) (js_int 2) "dword" PrHigh
       "Set WinRM startup type to Automatic" PrMedium [];
     reg_op "fw-winrm-http" FIREWALL_RULES "WINRM-HTTP-In-TCP" (js_str "")
       (js_str "v2.29|Action=Allow|Active=TRUE|Dir=In|Protocol=6|LPort=5985|Profile=Private,Domain|Name=@FirewallAPI.dll,-30253|Desc=@FirewallAPI.dll,-30256|EmbedCtxt=@FirewallAPI.dll,-30252|")
       "sz" PrHigh "Enable WinRM firewall rule (HTTP-In TCP 5985)" PrMedium []].
Definition leave_command (wg : string) : string :=
  "cmd.exe /c powershell.exe -NoProfile -ExecutionPolicy Bypass -Command " +:+ dquote
  +:+ "try { if ((Get-CimInstance Win32_ComputerSystem).PartOfDomain) { Add-Computer -WorkGroupName '" +:+ wg
  +:+ "' -Force -ErrorAction SilentlyContinue } } catch {}; reg delete \" +:+ dquote
  +:+ "HKLM\SOFTWARE\Microsoft\Windows\CurrentVersion\RunOnce\" +:+ dquote +:+ " /v GuestKitDomainLeave /f" +:+ dquote.
Definition windows_domain_leave_plan (workgroup : string) : outcome string FixPlan :=
  let wg := trim workgroup in
  if is_empty wg then Err "Workgroup name is required (use --workgroup)"
  else if str_len_gt 15 wg || negb (str_forall (fun c => alphanumeric c || one_of_chars ["-"; "_"]%char c) wg) then
    Err ("Invalid workgroup '" +:+ wg +:+ "' (ASCII alnum/hyphen/underscore, max 15 chars)")
  else
    let tcpip := "HKLM\SYSTEM\ControlSet001\Services\Tcpip\Parameters" in
    let winlogon := "HKLM\SOFTWARE\Microsoft\Windows NT\CurrentVersion\Winlogon" in
    let set id key value data desc := reg_op id key value (js_str "") (js_str data) "sz" PrHigh desc PrMedium [] in
    Ok (offline_plan "windows-domain-leave" "medium" true
      ("Offline Windows domain-leave markers → workgroup '" +:+ wg
       +:+ "', plus first-boot RunOnce Add-Computer. DC computer-account delete still needs live AD creds.")
      ["windows"; "domain"; "workgroup"; "offline"; "runonce"]
      [set "tcpip-clear-domain" tcpip "Domain" "" "Clear Tcpip Domain (domain DNS suffix)";
       set "tcpip-nv-domain-workgroup" tcpip "NV Domain" wg "Set Tcpip NV Domain to workgroup";
       set "winlogon-default-domain" winlogon "DefaultDomainName" wg "Set Winlogon DefaultDomainName to workgroup";
       set "winlogon-clear-cache-domain" winlogon "CachePrimaryDomain" "" "Clear Winlogon CachePrimaryDomain";
       reg_op "runonce-domain-leave" "HKLM\SOFTWARE\Microsoft\Windows\CurrentVersion\RunOnce" "GuestKitDomainLeave"
         (js_str "") (js_str (leave_command wg)) "sz" PrHigh
         ("Stage RunOnce Add-Computer -WorkGroupName '" +:+ wg +:+ "' (first boot)") PrMedium
         ["tcpip-nv-domain-workgroup"; "winlogon-default-domain"]]).
Definition windows_timezone_plan (timezone : string) : outcome string FixPlan :=
  let tz := trim timezone in
  if is_empty tz then Err "Timezone is required (use --timezone)"
  else if str_len_gt 128 tz || contains_char "\"%char tz || contains_char "/"%char tz || has_control tz then
    Err ("Invalid timezone '" +:+ tz +:+ "' (use a Windows TimeZoneKeyName like 'UTC' or 'Pacific Standard Time')")
  else Ok (offline_plan "windows-timezone" "low" false ("Offline Windows timezone → TimeZoneKeyName '" +:+ tz +:+ "'")
    ["windows"; "timezone"; "offline"]
    [reg_op "timezone-key-name" "HKLM\SYSTEM\ControlSet001\Control\TimeZoneInformation" "TimeZoneKeyName"
       (js_str "") (js_str tz) "sz" PrMedium ("Set TimeZoneKeyName to " +:+ tz) PrLow []]).
Definition normalize_interface_guid (interface_guid : string) : outcome string string :=
  let guid := trim_matches_pred (one_of_chars ["{"; "}"]%char) (trim interface_guid) in
  if negb (String.length guid =? 36)%nat || negb (count_char "-"%char guid =? 4)%nat then
    Err ("Invalid --interface-guid '" +:+ interface_guid +:+ "' (expected GUID like a1b2c3d4-e5f6-7890-abcd-ef1234567890)")
  else Ok guid.
Definition interface_key (guid : string) : string :=
  "HKLM\SYSTEM\ControlSet001\Services\Tcpip\Parameters\Interfaces\{" +:+ guid +:+ "}".
Definition quad_chars (s : string) : bool := str_forall (fun c => one_of_chars ["0"; "1"; "2"; "3"; "4"; "5"; "6"; "7"; "8"; "9"; "."]%char c) s.
Definition check_quad (label v : string) : outcome string () :=
  if is_empty (trim v) || negb (quad_chars (trim v)) then Err ("Invalid " +:+ label +:+ " '" +:+ v +:+ "' (expected IPv4 dotted quad)")
  else Ok ().
Definition dns_text (servers : string) : string := replace_chars [","%char] " "%char servers.
Definition windows_static_ip_plan (interface_guid ip mask : string) (gateway dns : option string) : outcome string FixPlan :=
  guid ← normalize_interface_guid interface_guid;
  check_quad "ip" ip ;;
  check_quad "mask" mask ;;
  match gateway with
  | Some gw => if negb (is_empty (trim gw)) && negb (quad_chars (trim gw))
               then Err ("Invalid --gateway '" +:+ gw +:+ "' (expected IPv4 dotted quad)") else Ok ()
  | None => Ok ()
  end ;;
  let key := interface_key guid in
  let after := ["iface-disable-dhcp"] in
  let multi id value data desc :=
    reg_op id key value (js_strs []) (js_strs [data]) "multi_sz" PrHigh desc PrMedium after in
  Ok (offline_plan "windows-static-ip" "medium" true
    ("Offline Windows static IPv4 " +:+ ip +:+ "/" +:+ mask +:+ " on interface {" +:+ guid +:+ "}")
    ["windows"; "network"; "static-ip"; "offline"]
    ([reg_op "iface-disable-dhcp" key "EnableDHCP" (js_int 1) (js_int 0) "dword" PrHigh "Disable DHCP on interface" PrMedium [];
      multi "iface-ip" "IPAddress" (trim ip) "Set static IPAddress (MULTI_SZ)";
      multi "iface-mask" "SubnetMask" (trim mask) "Set SubnetMask (MULTI_SZ)"]
     ++ match not_blank gateway with
        | Some gw => [multi "iface-gateway" "DefaultGateway" gw "Set DefaultGateway (MULTI_SZ)"]
        | None => []
        end
     ++ match not_blank dns with
        | Some servers => [reg_op "iface-dns" key "NameServer" (js_str "") (js_str (dns_text servers)) "sz" PrMedium
                             "Set NameServer (space-separated)" PrLow after]
        | None => []
        end)).
Definition windows_dhcp_plan (interface_guid : string) : outcome string FixPlan :=
  guid ← normalize_interface_guid interface_guid;
  Ok (offline_plan "windows-dhcp" "low" false ("Offline Windows DHCP enable on interface {" +:+ guid +:+ "}")
    ["windows"; "network"; "dhcp"; "offline"]
    [reg_op "iface-enable-dhcp" (interface_key guid) "EnableDHCP" (js_int 0) (js_int 1) "dword" PrHigh
       "Enable DHCP on interface" PrLow []]).
Definition windows_dns_plan (interface_guid dns : string) : outcome string FixPlan :=
  guid ← normalize_interface_guid interface_guid;
  if is_empty (trim dns) then Err "--dns is required for windows-dns (space or comma separated)"
  else Ok (offline_plan "windows-dns" "low" false ("Offline Windows DNS NameServer on interface {" +:+ guid +:+ "}")
    ["windows"; "network"; "dns"; "offline"]
    [reg_op "iface-dns" (interface_key guid) "NameServer" (js_str "") (js_str (dns_text (trim dns))) "sz" PrMedium
       "Set NameServer (space-separated)" PrLow []]).
End fixed.

(** ** Plans that read the guest: a state monad over the tree of the host *)
Definition nact (A : Type) : Type := tree → tree * outcome string A.
#[export] Instance nact_ret : MRet nact := fun A a t => (t, Ok a).
#[export] Instance nact_bind : MBind nact := fun A B f m t =>
  match m t with
  | (t, Ok a) => f a t
  | (t, Err e) => (t, Err e)
  | (t, Panic) => (t, Panic)
  end.
Definition nfail {A} (msg : string) : nact A := fun t => (t, Err msg).
(** [if let Ok] and [unwrap_or] on an operation of the guest. *)
Definition attempted {A} (m : gact A) : nact (option A) := fun t =>
  match m t with
  | (t, Ok a) => (t, Ok (Some a))
  | (t, Err _) => (t, Ok None)
  | (t, Panic) => (t, Panic)
  end.
Definition holds (m : gact bool) : nact bool := b ← attempted m; mret (default false b).

(** *** Texts *)
Definition sets_key (key line : string) : bool := starts_with (key +:+ "=") (trim_start line).
Definition upsert_grub_kv (content key value : string) : string :=
  let ls := lines content in
  join newline_str (map (fun l => if sets_key key l then key +:+ "=" +:+ value else l) ls
                    ++ (if existsb (sets_key key) ls then [] else [key +:+ "=" +:+ value])).
Definition grub_cmdline_key (content : string) : string :=
  if existsb (fun l => starts_with "GRUB_CMDLINE_LINUX=" (trim_start l)) (lines content)
  then "GRUB_CMDLINE_LINUX" else "GRUB_CMDLINE_LINUX_DEFAULT".
Definition extended_cmdline (rest extra : string) : string :=
  let unquoted := trim_matches_char dquote_char (trim rest) in
  if existsb (fun t => String.eqb t extra) (split_whitespace unquoted) then unquoted
  else if is_empty unquoted then extra
  else unquoted +:+ " " +:+ extra.
Definition quoted_setting (key value : string) : string := key +:+ "=" +:+ dquote +:+ value +:+ dquote.
Definition append_grub_cmdline (content extra : string) : string :=
  let key := grub_cmdline_key content in
  let ls := lines content in
  join newline_str
    (map (fun l => if sets_key key l
                   then quoted_setting key (extended_cmdline (str_drop (S (String.length key)) (trim_start l)) extra)
                   else l) ls
     ++ (if existsb (sets_key key) ls then [] else [quoted_setting key extra])).
Definition with_newline (s : string) : string := if ends_with_char (ascii_of_byte 10) s then s else s +:+ newline_str.
Definition host_alias_line (l : string) : bool :=
  starts_with "127.0.1.1" (trim_start l) || starts_with "10.0.2.3" (trim_start l).
Definition host_entry (ip name : string) : string := ip +:+ String (ascii_of_byte 9) name.
Definition patched_hosts (name hosts : string) : string :=
  let ls := lines hosts in
  join newline_str
    (map (fun l => if host_alias_line l
                   then host_entry (match split_whitespace (trim_start l) with ip :: _ => ip | [] => "127.0.1.1" end) name
                   else l) ls
     ++ (if existsb host_alias_line ls then [] else [host_entry "127.0.1.1" name])) +:+ newline_str.
Definition with_ssh_key (key content : string) : string :=
  if existsb (fun l => String.eqb (trim l) key) (lines content) then content
  else (if negb (is_empty content) && negb (ends_with_char (ascii_of_byte 10) content) then content +:+ newline_str else content)
       +:+ key +:+ newline_str.
Definition passwd_home (username l : string) : option string :=
  let fields := split_char ":"%char l in
  if (6 <=? length fields)%nat && String.eqb (nth 0 fields "") username then Some (nth 5 fields "") else None.
Fixpoint first_some {A B} (f : A → option B) (l : list A) : option B :=
  match l with
  | [] => None
  | x :: l => match f x with Some y => Some y | None => first_some f l end
  end.

Section linux.
Context `{GenText} `{FileCrates} `{GuestIo} (now : Z) (vm_path : string) (g : Guestfs).

Definition DEFAULT_GRUB : string :=
  "GRUB_TIMEOUT=5" +:+ newline_str +:+ "GRUB_CMDLINE_LINUX_DEFAULT=" +:+ dquote +:+ dquote +:+ newline_str
  +:+ "GRUB_CMDLINE_LINUX=" +:+ dquote +:+ dquote +:+ newline_str.
Definition linux_grub_defaults_plan (timeout : option Z) (cmdline_append : option string) : nact FixPlan :=
  found ← attempted (g_read_file g "/etc/default/grub");
  let current := match found with Some b => lossy b | None => DEFAULT_GRUB end in
  match timeout, not_blank cmdline_append with
  | None, None => nfail "linux-grub requires --grub-timeout and/or --grub-cmdline"
  | _, extra =>
      let next := match timeout with Some s => upsert_grub_kv current "GRUB_TIMEOUT" (fmt_Z s) | None => current end in
      let next := match extra with Some e => append_grub_cmdline next e | None => next end in
      let parts := match timeout with Some s => ["GRUB_TIMEOUT=" +:+ fmt_Z s] | None => [] end
                   ++ match extra with Some e => ["cmdline+=" +:+ e] | None => [] end in
      mret (offline_plan now vm_path "linux-grub" "low" false
        "Offline GRUB defaults (/etc/default/grub). Regenerate grub.cfg in-guest after boot (grub2-mkconfig / update-grub); full grub-install still needs chroot."
        ["linux"; "grub"; "boot"; "offline"]
        [plain_op "grub-defaults" (OpFileWrite (mk_FileWrite "/etc/default/grub" (with_newline next) (Some "0644"))) PrHigh
           ("Write offline /etc/default/grub (" +:+ join ", " parts +:+ ")") []])
  end.
Definition linux_hostname_plan (hostname : string) : nact FixPlan :=
  let name := trim hostname in
  if is_empty name || str_len_gt 253 name then nfail ("Invalid --hostname '" +:+ hostname +:+ "'")
  else
    found ← attempted (g_read_file g "/etc/hosts");
    let hosts := match found with
                 | Some content => patched_hosts name (lossy content)
                 | None => host_entry "127.0.0.1" "localhost" +:+ newline_str +:+ host_entry "127.0.1.1" name +:+ newline_str
                 end in
    mret (offline_plan now vm_path "linux-hostname" "low" false ("Offline Linux hostname → " +:+ name)
      ["linux"; "hostname"; "offline"]
      [plain_op "hostname" (OpFileWrite (mk_FileWrite "/etc/hostname" (name +:+ newline_str) (Some "0644"))) PrHigh
         ("Write /etc/hostname = " +:+ name) [];
       plain_op "hosts" (OpFileWrite (mk_FileWrite "/etc/hosts" hosts (Some "0644"))) PrHigh "Patch /etc/hosts with hostname" []]).
Definition linux_home_for_user (username : string) : nact string :=
  if String.eqb username "root" then mret "/root"
  else
    content ← (fun t => match g_read_file g "/etc/passwd" t with
                        | (t, Ok c) => (t, Ok c)
                        | (t, Err e) => (t, Err ("read /etc/passwd: " +:+ guest_error_text e))
                        | (t, Panic) => (t, Panic)
                        end);
    match first_some (passwd_home username) (lines (lossy content)) with
    | Some home => mret home
    | None => nfail ("User '" +:+ username +:+ "' not found in /etc/passwd")
    end.

(** [detect_ssh_unit] of [src/cli/commands/security.rs]. *)
Fixpoint first_file (candidates : list (string * string)) : nact (option (string * string)) :=
  match candidates with
  | [] => mret None
  | (unit, path) :: candidates =>
      there ← holds (g_is_file g path);
      if there : bool then mret (Some (unit, path)) else first_file candidates
  end.
Definition sshd_installed : nact bool :=
  a ← holds (g_is_file g "/usr/sbin/sshd");
  if a : bool then mret true else holds (g_is_file g "/usr/bin/sshd").
Definition detect_ssh_unit : nact (option (string * string)) :=
  found ← first_file [("ssh.service", "/lib/systemd/system/ssh.service"); ("ssh.service", "/usr/lib/systemd/system/ssh.service");
                      ("sshd.service", "/lib/systemd/system/sshd.service"); ("sshd.service", "/usr/lib/systemd/system/sshd.service")];
  match found with
  | Some u => mret (Some u)
  | None =>
      there ← sshd_installed;
      if there : bool then
        debian ← holds (g_exists g "/etc/debian_version");
        mret (Some (if debian : bool then ("ssh.service", "/lib/systemd/system/ssh.service")
                    else ("sshd.service", "/usr/lib/systemd/system/sshd.service")))
      else mret None
  end.
Definition key_operations (username key : string) : nact (list Operation) :=
  let key := trim key in
  if is_empty key then nfail "SSH public key is empty"
  else
    home ← linux_home_for_user username;
    let ssh_dir := home +:+ "/.ssh" in
    let auth_keys := ssh_dir +:+ "/authorized_keys" in
    existing ← attempted (g_read_file g auth_keys);
    let content := match existing with Some c => lossy c | None => "" end in
    mret [plain_op "ssh-dir" (OpDirectoryCreate (mk_DirectoryCreate ssh_dir (Some "0700"))) PrHigh
            ("Ensure " +:+ username +:+ " .ssh directory exists") [];
          plain_op "inject-ssh-key" (OpFileWrite (mk_FileWrite auth_keys (with_ssh_key key content) (Some "0600"))) PrHigh
            ("Inject SSH public key for " +:+ username) ["ssh-dir"]].
Definition linux_ssh_enable_plan (user pubkey : option string) : nact FixPlan :=
  installed ← sshd_installed;
  if negb installed then nfail "OpenSSH server is not installed (sshd binary missing)"
  else
    detected ← detect_ssh_unit;
    match detected with
    | None => nfail "Could not detect ssh/sshd systemd unit"
    | Some (unit, unit_src) =>
        let wants_dir := "/etc/systemd/system/multi-user.target.wants" in
        let base :=
          [plain_op "remove-sshd-not-to-be-run" (OpFileDelete (mk_FileDelete "/etc/ssh/sshd_not_to_be_run" true)) PrHigh
             "Remove Ubuntu cloud sshd_not_to_be_run flag if present" [];
           plain_op "ssh-wants-dir" (OpDirectoryCreate (mk_DirectoryCreate wants_dir (Some "0755"))) PrHigh
             "Ensure multi-user.target.wants exists" [];
           plain_op "enable-ssh-unit" (OpSymlink (mk_Symlink ("../../../../" +:+ trim_start_matches "/" unit_src) (wants_dir +:+ "/" +:+ unit)))
             PrHigh ("Enable systemd unit " +:+ unit +:+ " via wants symlink") ["ssh-wants-dir"];
           plain_op "sshd-dropin" (OpFileWrite (mk_FileWrite "/etc/ssh/sshd_config.d/99-guestkit.conf"
               ("# Managed by guestkit plan linux-ssh" +:+ newline_str +:+ "PubkeyAuthentication yes" +:+ newline_str) (Some "0644")))
             PrHigh "Write sshd_config.d drop-in (PubkeyAuthentication yes)" []] in
        keys ← match user, pubkey with
               | Some username, Some key => key_operations username key
               | None, None => mret []
               | _, _ => nfail "Both --user and --key/--key-file are required to inject an SSH key"
               end;
        let ops := base ++ keys in
        let plan := offline_plan now vm_path "linux-ssh" "low" false
          "Offline Linux SSH enablement (systemd wants symlink + sshd drop-in)" ["linux"; "ssh"; "offline"; "guestkit"] ops in
        mret (mk_FixPlan _ (pl_version plan) (pl_vm plan) (pl_generated plan) (pl_profile plan) (pl_overall_risk plan)
          (estimate_duration (length ops)) (pl_metadata plan) ops (pl_post_apply plan))
    end.
End linux.
