(* ===== verification/GeneratorProps.v ===== *)
(** * What the generator makes

    Every plan of the generator passes the validator of the offline applicator; the operations
    of a profile plan are its rated findings in their order; a text the parser does not know is
    run as a command, which the findings of the security profile are; the texts written for GRUB
    and for SSH keys keep what was there.  Consequences for given guests are examples. *)
From stdpp Require Import base gmap strings list pretty.
From Stdlib Require Import ZArith Lia Ascii SpecFloat.
From S2P Require Import Prelude RustStr F64 Evidence BootChecks BootEngine BootScore Filesystem Migration Kahn FixPlan Passport Gate LiveExec Words Baseline FileOps GuestFs GuestFsProps Offline SerialProps OfflineProps Export ExportProps Generator.

(** ** Numbers in ids *)
Fixpoint dec_value (s : string) : N :=
  match s with
  | EmptyString => 0
  | String c s => (N_of_ascii c - 48) * 10 ^ N.of_nat (String.length s) + dec_value s
  end.
Lemma dec_char d : (d < 10)%N → (N_of_ascii (pretty_N_char d) - 48 = d)%N.
Proof.
  intros Hd. assert (d = 0 ∨ d = 1 ∨ d = 2 ∨ d = 3 ∨ d = 4 ∨ d = 5 ∨ d = 6 ∨ d = 7 ∨ d = 8 ∨ d = 9)%N as Hc by lia.
  destruct_or! Hc; by subst.
Qed.
Lemma dec_go x s : dec_value (pretty_N_go x s) = (x * 10 ^ N.of_nat (String.length s) + dec_value s)%N.
Proof.
  revert s. induction (N.lt_wf_0 x) as [x _ IH]; intros s. destruct (decide (x = 0)%N) as [->|Hx]; [done|].
  rewrite pretty_N_go_step by lia. rewrite IH by (apply N.div_lt; lia). cbn [dec_value String.length].
  rewrite dec_char by (apply N.mod_lt; lia). rewrite Nat2N.inj_succ, N.pow_succ_r'.
  rewrite (N.div_mod x 10) at 3 by lia. lia.
Qed.
Lemma dec_fmt n : dec_value (fmt_nat n) = N.of_nat n.
Proof.
  unfold fmt_nat. change (pretty n) with (pretty (N.of_nat n)). unfold pretty, pretty_N.
  destruct (decide (N.of_nat n = 0)%N) as [->|_]; [done|]. rewrite dec_go. cbn. lia.
Qed.
Lemma dec_pad3 n : dec_value (pad3 n) = N.of_nat n.
Proof. rewrite <-dec_fmt. unfold pad3. by repeat case_match. Qed.
Lemma pad3_inj n m : pad3 n = pad3 m → n = m.
Proof. intros E. apply Nat2N.inj. by rewrite <-!dec_pad3, E. Qed.

Definition no_dash (s : string) : Prop := str_forall (fun c => negb (Ascii.eqb c "-"%char)) s = true.
Lemma go_no_dash x s : no_dash s → no_dash (pretty_N_go x s).
Proof.
  revert s. induction (N.lt_wf_0 x) as [x _ IH]; intros s Hs. destruct (decide (x = 0)%N) as [->|Hx]; [done|].
  rewrite pretty_N_go_step by lia. apply IH; [apply N.div_lt; lia|]. apply text_forall_cons. split; [|done].
  assert (x `mod` 10 < 10)%N as Hd by (apply N.mod_lt; lia). revert Hd. generalize (x `mod` 10)%N. intros d Hd.
  assert (d = 0 ∨ d = 1 ∨ d = 2 ∨ d = 3 ∨ d = 4 ∨ d = 5 ∨ d = 6 ∨ d = 7 ∨ d = 8 ∨ d = 9)%N as Hc by lia.
  destruct_or! Hc; by subst.
Qed.
Lemma pad3_no_dash n : no_dash (pad3 n).
Proof.
  assert (no_dash (fmt_nat n)) as Hn.
  { unfold fmt_nat. change (pretty n) with (pretty (N.of_nat n)). unfold pretty, pretty_N.
    destruct (decide (N.of_nat n = 0)%N) as [_|_]; [done|]. by apply go_no_dash. }
  unfold pad3, no_dash in *. repeat case_match; rewrite ?text_forall_app; done.
Qed.
(** what follows the last dash. *)
Lemma last_dash x y a b : no_dash a → no_dash b → x +:+ ("-" +:+ a) = y +:+ ("-" +:+ b) → a = b.
Proof.
  assert (∀ z a b, no_dash a → a ≠ z +:+ ("-" +:+ b)) as Hno.
  { clear. intros z a b Ha ->. unfold no_dash in Ha. apply text_forall_app in Ha as [_ Ha]. done. }
  revert y. induction x as [|c x IH]; intros [|d y] Ha Hb E.
  - by injection E.
  - injection E as _ E. by apply Hno in E.
  - injection E as _ E. symmetry in E. by apply Hno in E.
  - injection E as _ E. by eapply IH.
Qed.

Section plans.
Context `{Platform}.

(** operations numbered under one prefix. *)
Lemma numbered_id {A} (make : nat → A → Operation) prefix : (∀ n x, op_id (make n x) = prefix +:+ pad3 n) →
  ∀ l n id, id ∈ ids (numbered make n l) → ∃ k, n ≤ k < n + length l ∧ id = prefix +:+ pad3 k.
Proof.
  intros Hm l. induction l as [|x l IH]; intros n id Hin; [by apply not_elem_of_nil in Hin|].
  cbn [numbered ids map] in Hin. apply elem_of_cons in Hin as [->|Hin].
  - exists n. rewrite Hm. cbn [length]. split; [lia|done].
  - destruct (IH (S n) id Hin) as (k & Hk & ->). exists k. cbn [length]. split; [lia|done].
Qed.
Lemma numbered_NoDup {A} (make : nat → A → Operation) prefix : (∀ n x, op_id (make n x) = prefix +:+ pad3 n) →
  ∀ l n, NoDup (ids (numbered make n l)).
Proof.
  intros Hm l. induction l as [|x l IH]; intros n; [constructor|]. cbn [numbered ids map]. constructor; [|apply IH].
  intros (k & Hk & E)%(numbered_id make prefix Hm). rewrite Hm in E. apply (inj (String.append prefix)) in E.
  apply pad3_inj in E. lia.
Qed.
Lemma numbered_Forall {A} (make : nat → A → Operation) (P : Operation → Prop) : (∀ n x, P (make n x)) →
  ∀ l n, Forall P (numbered make n l).
Proof. intros Hm l. induction l; constructor; auto. Qed.
Lemma numbered_map {A B} (make : nat → A → Operation) (f : Operation → B) (h : A → B) : (∀ n x, f (make n x) = h x) →
  ∀ l n, map f (numbered make n l) = map h l.
Proof. intros Hm l. induction l as [|x l IH]; intros n; [done|]. cbn. by rewrite Hm, IH. Qed.

Lemma numbered_elem {A} (make : nat → A → Operation) x l : x ∈ l → ∀ n, ∃ k, make k x ∈ numbered make n l.
Proof.
  intros Hin. induction l as [|y l IH]; intros n; [by apply not_elem_of_nil in Hin|]. apply elem_of_cons in Hin as [<-|Hin].
  - exists n. by left.
  - destruct (IH Hin (S n)) as [k Hk]. exists k. by right.
Qed.

Lemma length_numbered {A} (make : nat → A → Operation) l : ∀ n, length (numbered make n l) = length l.
Proof. induction l as [|x l IH]; intros n; [done|]. cbn. by rewrite IH. Qed.

(** operations that wait for nothing can be run in any order. *)
Lemma independent_ordered (ops : list Operation) : NoDup (ids ops) → Forall (fun op => op_depends_on op = []) ops →
  ∃ rank, well_ordered ops rank.
Proof.
  intros Hnd Hdep. exists (fun _ => 0). split; [done|]. intros op x Hop Hx.
  rewrite Forall_forall in Hdep. rewrite (Hdep op Hop) in Hx. by apply not_elem_of_nil in Hx.
Qed.
(** operations whose dependencies come before them. *)
Fixpoint listed_in_order (known : list string) (ops : list Operation) : bool :=
  match ops with
  | [] => true
  | op :: ops =>
      bool_decide (op_id op ∉ known) && forallb (fun d => bool_decide (d ∈ known)) (op_depends_on op)
      && listed_in_order (op_id op :: known) ops
  end.
Lemma listed_spec ops : ∀ known, listed_in_order known ops = true →
  NoDup (ids ops) ∧ (∀ x, x ∈ ids ops → x ∉ known) ∧
  ∀ i op d, ops !! i = Some op → d ∈ op_depends_on op → d ∈ known ∨ ∃ j, j < i ∧ ids ops !! j = Some d.
Proof.
  induction ops as [|op ops IH]; intros known Hl.
  { split; [constructor|]. split; [by intros x Hx%not_elem_of_nil|by intros i op d Hi]. }
  cbn [listed_in_order] in Hl. apply andb_prop in Hl as [[Hn%bool_decide_eq_true Hd]%andb_prop Hl].
  destruct (IH _ Hl) as (Hnd & Hnew & Hdeps). rewrite forallb_forall in Hd. split; [|split].
  - cbn. constructor; [|done]. intros Hin. apply (Hnew _ Hin). by left.
  - cbn. intros x [->|Hx]%elem_of_cons; [done|]. intros Hk. apply (Hnew x Hx). by right.
  - intros [|i] o d Hi Hdo; cbn in Hi.
    + injection Hi as <-. left. specialize (Hd d (proj1 (list_elem_of_In _ _) Hdo)). by apply bool_decide_eq_true in Hd.
    + destruct (Hdeps i o d Hi Hdo) as [[->|Hk]%elem_of_cons|(j & Hj & Hx)].
      * right. exists 0. split; [lia|done].
      * by left.
      * right. exists (S j). split; [lia|done].
Qed.
Lemma listed_ordered ops : listed_in_order [] ops = true → ∃ rank, well_ordered ops rank.
Proof.
  intros Hl. destruct (listed_spec ops [] Hl) as (Hnd & _ & Hdeps).
  exists (fun x => default 0 (fst <$> list_find (x =.) (ids ops))).
  assert (∀ i x, ids ops !! i = Some x → default 0 (fst <$> list_find (x =.) (ids ops)) = i) as Hrank.
  { intros i x Hi. rewrite (proj2 (list_find_Some (x =.) (ids ops) i x)); [done|]. split_and!; [done..|].
    intros j y Hj Hlt ->. pose proof (NoDup_lookup _ _ _ _ Hnd Hi Hj). lia. }
  split; [done|]. intros op x [i Hi]%list_elem_of_lookup Hx.
  destruct (Hdeps i op x Hi Hx) as [Hk|(j & Hj & Hjx)]; [by apply not_elem_of_nil in Hk|].
  split; [by eapply list_elem_of_lookup_2|]. rewrite (Hrank j x Hjx), (Hrank i (op_id op)); [done|].
  unfold ids. by rewrite list_lookup_fmap, Hi.
Qed.
(** the operations of the agent after those of a plan with no id of theirs. *)
Lemma well_ordered_app ops ops' :
  (∃ rank, well_ordered ops rank) → listed_in_order [] ops' = true → (∀ x, x ∈ ids ops → x ∉ ids ops') →
  ∃ rank, well_ordered (ops ++ ops') rank.
Proof.
  intros (rank & Hnd & Hr) Hl Hdis. destruct (listed_ordered ops' Hl) as (rank' & Hnd' & Hr').
  assert (ids (ops ++ ops') = ids ops ++ ids ops') as Eids by apply map_app.
  exists (fun x => if bool_decide (x ∈ ids ops) then rank x else rank' x). split.
  - rewrite Eids. by apply NoDup_app.
  - intros op x [Hop|Hop]%elem_of_app Hx; rewrite Eids, elem_of_app.
    + destruct (Hr op x Hop Hx) as [Hin Hlt]. split; [by left|].
      rewrite !bool_decide_eq_true_2; [done| |done]. apply list_elem_of_In, in_map, list_elem_of_In, Hop.
    + destruct (Hr' op x Hop Hx) as [Hin Hlt]. split; [by right|].
      assert (op_id op ∈ ids ops') as Hid by (apply list_elem_of_In, in_map, list_elem_of_In, Hop).
      rewrite !bool_decide_eq_false_2; [done|by intros ?%Hdis|by intros ?%Hdis].
Qed.
Lemma agent_listed n binary staging : listed_in_order [] (agent_ops n binary staging) = true.
Proof.
  unfold agent_ops. cbv zeta.
  assert (∀ i j, i ≠ j → "agent-" +:+ pad3 (n + i) ≠ "agent-" +:+ pad3 (n + j)) as Hne.
  { intros i j Hij E%(inj (String.append "agent-"))%pad3_inj. lia. }
  pose proof (Hne 1 0 ltac:(lia)). pose proof (Hne 2 0 ltac:(lia)). pose proof (Hne 2 1 ltac:(lia)).
  pose proof (Hne 3 0 ltac:(lia)). pose proof (Hne 3 1 ltac:(lia)). pose proof (Hne 3 2 ltac:(lia)). clear Hne.
  cbn [listed_in_order op_id op_depends_on forallb].
  repeat (apply andb_true_intro; split); try apply bool_decide_eq_true_2;
    rewrite ?elem_of_cons, ?elem_of_nil; intuition congruence.
Qed.
(** the numbers of the agent's operations in a plan are those of its positions. *)
Definition agent_below (ops : list Operation) : Prop := ∀ k, "agent-" +:+ pad3 k ∈ ids ops → k ≤ length ops.
Definition foreign (ops : list Operation) : bool := forallb (fun id => negb (starts_with "agent-" id)) (ids ops).
Lemma foreign_below ops : foreign ops = true → agent_below ops.
Proof.
  intros Hf k Hk. unfold foreign in Hf. rewrite forallb_forall in Hf.
  specialize (Hf _ (proj1 (list_elem_of_In _ _) Hk)). rewrite (proj2 (starts_with_spec _ _)) in Hf; [done|by eexists].
Qed.
Lemma agent_ids n binary staging x : x ∈ ids (agent_ops n binary staging) → ∃ i, i < 4 ∧ x = "agent-" +:+ pad3 (n + i).
Proof.
  cbn. rewrite !elem_of_cons, elem_of_nil. intros [->|[->|[->|[->|[]]]]];
    [exists 0|exists 1|exists 2|exists 3]; (split; [lia|done]).
Qed.
End plans.

Section generated.
Context `{GenText} `{FileCrates} `{GuestIo}.

Lemma security_ordered now vm report : ∃ rank, well_ordered (pl_operations (from_security_profile now vm report)) rank.
Proof.
  apply independent_ordered; [|by apply numbered_Forall].
  eapply (numbered_NoDup _ (_ +:+ "-")). intros n f. symmetry. apply text_app_assoc.
Qed.
Lemma boot_ordered now boot image : ∃ rank, well_ordered (pl_operations (from_boot_report now boot image)) rank.
Proof. apply independent_ordered; [by apply (numbered_NoDup _ "boot-")|by apply numbered_Forall]. Qed.
Lemma migration_ordered now migration boot target image :
  ∃ rank, well_ordered (pl_operations (from_migration_report now migration boot target image)) rank.
Proof.
  unfold from_migration_report. cbn [pl_operations from_boot_report]. set (b := boot_repair_ops boot).
  set (c := numbered migration_op (S (length b)) (ms_required_changes migration)).
  set (m := match ms_driver_injections migration with [] => [] | ds => [modules_op (S (length b) + length c) ds] end).
  assert (length c = length (ms_required_changes migration)) as Hlc by apply length_numbered.
  assert (∀ id, id ∈ ids m → id = "mig-" +:+ pad3 (S (length b) + length c)) as Hm.
  { unfold m. destruct (ms_driver_injections migration); [by intros id Hid%not_elem_of_nil|].
    by intros id [->|Hid%not_elem_of_nil]%elem_of_cons. }
  apply independent_ordered.
  - unfold ids. rewrite !map_app. apply NoDup_app. split; [by apply (numbered_NoDup _ "boot-")|]. split.
    + intros id (k & _ & ->)%(numbered_id _ "boot-"); [|done]. rewrite elem_of_app. intros [Hid|Hid%Hm]; [|done].
      apply (numbered_id _ "mig-") in Hid as (j & _ & E); done.
    + apply NoDup_app. split; [by apply (numbered_NoDup _ "mig-")|]. split.
      * intros id (k & Hk & ->)%(numbered_id _ "mig-"); [|done]. intros E%Hm. apply (inj (String.append "mig-")), pad3_inj in E. lia.
      * unfold m. destruct (ms_driver_injections migration); [constructor|]. by apply NoDup_singleton.
  - rewrite !Forall_app. split_and!; [by apply numbered_Forall..|]. unfold m. destruct (ms_driver_injections migration); by constructor.
Qed.

(** a list of operations whose ids start with another letter than those of the agent. *)
Lemma numbered_foreign {A} (make : nat → A → Operation) prefix :
  (∀ n x, op_id (make n x) = prefix +:+ pad3 n) → (∀ x, starts_with "agent-" (prefix +:+ x) = false) →
  ∀ l n, foreign (numbered make n l) = true.
Proof.
  intros Hm Hp l n. apply forallb_forall. intros id Hid%list_elem_of_In.
  apply (numbered_id make prefix Hm) in Hid as (k & _ & ->). by rewrite Hp.
Qed.
Lemma foreign_app ops ops' : foreign (ops ++ ops') = foreign ops && foreign ops'.
Proof. unfold foreign, ids. by rewrite map_app, forallb_app. Qed.
Lemma boot_foreign boot : foreign (boot_repair_ops boot) = true.
Proof. by apply (numbered_foreign _ "boot-"). Qed.
Lemma migration_foreign now migration boot target image :
  foreign (pl_operations (from_migration_report now migration boot target image)) = true.
Proof.
  unfold from_migration_report. cbn [pl_operations from_boot_report]. rewrite !foreign_app, boot_foreign.
  rewrite (numbered_foreign _ "mig-") by done. by destruct (ms_driver_injections migration).
Qed.
(** the prefix of a profile can be any text; its numbers are those of the positions. *)
Lemma security_below now vm report : agent_below (pl_operations (from_security_profile now vm report)).
Proof.
  intros k Hk. unfold from_security_profile in *. cbn [pl_operations] in *. rewrite length_numbered.
  set (prefix := to_ascii_lowercase _) in *.
  apply (numbered_id _ (prefix +:+ "-")) in Hk as (n & Hn & E); [|intros; by rewrite text_app_assoc].
  rewrite text_app_assoc in E. change ("agent-" +:+ pad3 k) with ("agent" +:+ ("-" +:+ pad3 k)) in E.
  apply last_dash in E as ->%pad3_inj; [lia|apply pad3_no_dash|apply pad3_no_dash].
Qed.

(** the plans the generator can make. *)
Inductive generated (vm : string) : FixPlan → Prop :=
  | gen_profile now report : generated vm (from_security_profile now vm report)
  | gen_boot now boot : generated vm (from_boot_report now boot vm)
  | gen_migration now migration boot target : generated vm (from_migration_report now migration boot target vm)
  | gen_rdp now : generated vm (windows_rdp_enable_plan now vm)
  | gen_winrm now : generated vm (windows_winrm_enable_plan now vm)
  | gen_hostname now name plan : windows_hostname_plan now vm name = Ok plan → generated vm plan
  | gen_leave now wg plan : windows_domain_leave_plan now vm wg = Ok plan → generated vm plan
  | gen_timezone now tz plan : windows_timezone_plan now vm tz = Ok plan → generated vm plan
  | gen_static now guid ip mask gw dns plan : windows_static_ip_plan now vm guid ip mask gw dns = Ok plan → generated vm plan
  | gen_dhcp now guid plan : windows_dhcp_plan now vm guid = Ok plan → generated vm plan
  | gen_dns now guid dns plan : windows_dns_plan now vm guid dns = Ok plan → generated vm plan
  | gen_linux_hostname now g name t plan : (linux_hostname_plan now vm g name t).2 = Ok plan → generated vm plan
  | gen_grub now g timeout extra t plan : (linux_grub_defaults_plan now vm g timeout extra t).2 = Ok plan → generated vm plan
  | gen_ssh now g user key t plan : (linux_ssh_enable_plan now vm g user key t).2 = Ok plan → generated vm plan
  | gen_agent binary staging error plan plan' :
      generated vm plan → with_agent_injection binary staging error plan = Ok plan' → generated vm plan'.

(** a plan comes out with one of these properties of its operations. *)
Definition yields {A} (Q : A → Prop) (m : nact A) : Prop := ∀ t a, (m t).2 = Ok a → Q a.
Lemma yields_bind {A B} (P : A → Prop) (Q : B → Prop) (m : nact A) (f : A → nact B) :
  yields P m → (∀ a, P a → yields Q (f a)) → yields Q (m ≫= f).
Proof.
  intros Hm Hf t b. unfold mbind, nact_bind. specialize (Hm t). destruct (m t) as [t' [a|e|]]; [|done..].
  apply Hf. by apply Hm.
Qed.
Lemma yields_any {A} (m : nact A) : yields (fun _ => True) m.
Proof. done. Qed.
Lemma yields_ret {A} (Q : A → Prop) a : Q a → yields Q (mret a).
Proof. by intros Ha t b [= <-]. Qed.
Lemma yields_fail {A} (Q : A → Prop) msg : yields Q (nfail msg).
Proof. by intros t b. Qed.
Notation in_order := (fun plan => listed_in_order [] (pl_operations plan) && foreign (pl_operations plan) = true).
Lemma hostname_in_order now vm g name : yields in_order (linux_hostname_plan now vm g name).
Proof.
  unfold linux_hostname_plan. destruct (_ || _); [apply yields_fail|].
  eapply yields_bind; [apply yields_any|]. intros a _. by apply yields_ret.
Qed.
Lemma grub_in_order now vm g timeout extra : yields in_order (linux_grub_defaults_plan now vm g timeout extra).
Proof.
  unfold linux_grub_defaults_plan. eapply yields_bind; [apply yields_any|]. intros a _.
  destruct timeout, (not_blank extra); (by apply yields_ret) || apply yields_fail.
Qed.
Lemma keys_in_order g user key : yields (fun ops => map op_id ops = ["ssh-dir"; "inject-ssh-key"] ∧
  map op_depends_on ops = [[]; ["ssh-dir"]]) (key_operations g user key).
Proof.
  unfold key_operations. destruct (is_empty _); [apply yields_fail|].
  eapply yields_bind; [apply yields_any|]. intros home _. eapply yields_bind; [apply yields_any|]. intros c _. by apply yields_ret.
Qed.
Lemma ssh_in_order now vm g user key : yields in_order (linux_ssh_enable_plan now vm g user key).
Proof.
  unfold linux_ssh_enable_plan. eapply yields_bind; [apply yields_any|]. intros installed _.
  destruct (negb installed); [apply yields_fail|]. eapply yields_bind; [apply yields_any|]. intros [[unit src]|] _; [|apply yields_fail].
  destruct user as [user|], key as [key|].
  - eapply yields_bind; [apply keys_in_order|]. intros [|a [|b [|]]] [E D]; try done. cbn in E, D.
    injection E as Ea Eb. injection D as Da Db. apply yields_ret. cbn. by rewrite Ea, Eb, Da, Db.
  - eapply yields_bind; [apply (yields_fail (fun _ => False))|]. done.
  - eapply yields_bind; [apply (yields_fail (fun _ => False))|]. done.
  - eapply yields_bind; [by apply (yields_ret (fun ops => ops = []))|]. intros ops ->. by apply yields_ret.
Qed.
Definition sound (ops : list Operation) : Prop := (∃ rank, well_ordered ops rank) ∧ agent_below ops.
Lemma fixed_sound ops : listed_in_order [] ops && foreign ops = true → sound ops.
Proof. intros [Hl Hf]%andb_prop. split; [by apply listed_ordered|by apply foreign_below]. Qed.
Lemma injected_sound ops binary staging : sound ops → sound (ops ++ agent_ops (length ops + 1) binary staging).
Proof.
  intros [Hr Hb]. split.
  - apply well_ordered_app; [done|apply agent_listed|]. intros x Hx (i & Hi & ->)%agent_ids.
    specialize (Hb _ Hx). lia.
  - intros k. unfold ids. rewrite map_app, elem_of_app, length_app. intros [Hk|Hk].
    + specialize (Hb k Hk). lia.
    + apply agent_ids in Hk as (i & Hi & E). apply (inj (String.append "agent-")), pad3_inj in E. cbn [length agent_ops]. lia.
Qed.
Lemma generated_sound vm plan : generated vm plan → sound (pl_operations plan).
Proof.
  induction 1 as [now report|now boot|now migration boot target|now|now|now name p Hp|now wg p Hp|now tz p Hp|now guid ip mask gw dns p Hp
         |now guid p Hp|now guid dns p Hp|now g name t p Hp|now g timeout extra t p Hp|now g user key t p Hp
         |binary staging error p p' Hg IH Hp].
  - split; [apply security_ordered|apply security_below].
  - split; [apply boot_ordered|apply foreign_below, boot_foreign].
  - split; [apply migration_ordered|apply foreign_below, migration_foreign].
  - by apply fixed_sound.
  - by apply fixed_sound.
  - revert Hp. unfold windows_hostname_plan. repeat case_match; intros [= <-]. by apply fixed_sound.
  - revert Hp. unfold windows_domain_leave_plan. repeat case_match; intros [= <-]. by apply fixed_sound.
  - revert Hp. unfold windows_timezone_plan. repeat case_match; intros [= <-]. by apply fixed_sound.
  - revert Hp. unfold windows_static_ip_plan. intros (k & _ & ([] & _ & ([] & _ & ([] & _ & [= <-])%outcome_bind_Ok)%outcome_bind_Ok)%outcome_bind_Ok)%outcome_bind_Ok.
    apply fixed_sound. by destruct (not_blank gw), (not_blank dns).
  - revert Hp. unfold windows_dhcp_plan. intros (k & _ & [= <-])%outcome_bind_Ok. by apply fixed_sound.
  - revert Hp. unfold windows_dns_plan. intros (k & _ & Hp)%outcome_bind_Ok. case_match; [done|]. injection Hp as <-. by apply fixed_sound.
  - apply fixed_sound. by eapply hostname_in_order.
  - apply fixed_sound. by eapply grub_in_order.
  - apply fixed_sound. by eapply ssh_in_order.
  - revert Hp. unfold with_agent_injection, append_agent_ops. destruct error; [done|]. intros [= <-].
    by apply injected_sound.
Qed.

(** C30: every plan the generator makes passes the validator of the applicator: its ids are distinct,
    every dependency is an operation of the plan and none is circular, whatever the report, the
    guest and the arguments were.  The plans are those of all public constructors of the generator,
    and those with the agent's operations added ([with_agent_injection]), also more than once.  The
    map iterations of the validator list the map, and there are fewer than 2^64 dependencies
    ([sort_ok]). *)
Theorem generated_plans_validate vm plan iter oc : generated vm plan → sort_ok iter plan →
  ∃ r, validate_plan iter oc true vm plan = Ok r ∧ is_valid r = true.
Proof.
  intros Hg Hok. destruct (validate_spec iter oc true vm plan Hok) as (r & Hr & Hiff). exists r. split; [done|].
  apply Hiff. split; [done|]. by eapply generated_sound.
Qed.
End generated.

(** ** Texts that become commands *)
Section commands.
Context `{Platform}.

(** the words the parser looks for. *)
Definition KEYWORDS : list string :=
  ["ssh"; "pubkeyauthentication"; "passwordauthentication"; "permitemptypasswords"; "x11forwarding"; "ufw"; "systemctl";
   "fail2ban"; "auditd"; "chrony"; "ntpd"; "rsyslog"; "apparmor"; "sshd"; "chronyd"; "firewalld"; "firewall"; "selinux"; "aide"].
Definition unknown_text (text : string) : bool := forallb (fun w => negb (contains w (to_lowercase text))) KEYWORDS.
Definition run_text (text : string) : OperationType := OpCommandExec (mk_CommandExec text 0 (Some 300%Z) None).

Lemma unknown_contains text w : unknown_text text = true → w ∈ KEYWORDS → contains w (to_lowercase text) = false.
Proof.
  unfold unknown_text. rewrite forallb_forall. intros Ht Hw%list_elem_of_In. apply Ht in Hw. by apply negb_true_iff in Hw.
Qed.
Lemma listed_nothing units lower e d : Forall (fun u => contains u.1 lower = false) units → listed_unit units lower e d = None.
Proof. induction 1 as [|[needle unit] units Hn _ IH]; [done|]. cbn [listed_unit]. cbn in Hn. by rewrite Hn. Qed.
Lemma unknown_is_run text : unknown_text text = true → parse_remediation text = run_text text.
Proof.
  intros Ht. assert (∀ w, bool_decide (w ∈ KEYWORDS) = true → contains w (to_lowercase text) = false) as Hno.
  { intros w Hw%bool_decide_eq_true. by apply unknown_contains. }
  assert (parse_systemd_unit_remediation (to_lowercase text) = None) as Hu.
  { unfold parse_systemd_unit_remediation. rewrite (Hno "systemctl" eq_refl). apply listed_nothing.
    repeat (constructor; [by apply Hno|]). constructor. }
  unfold parse_remediation. revert Hno Hu. generalize (to_lowercase text). intros lower Hno Hu.
  rewrite (Hno "ssh" eq_refl), (Hno "pubkeyauthentication" eq_refl). cbn [andb orb].
  rewrite (Hno "passwordauthentication" eq_refl), andb_false_r. cbn [andb].
  rewrite (Hno "permitemptypasswords" eq_refl), (Hno "x11forwarding" eq_refl), (Hno "ufw" eq_refl), Hu. cbn [andb].
  rewrite (Hno "firewall" eq_refl), (Hno "selinux" eq_refl), (Hno "fail2ban" eq_refl), (Hno "aide" eq_refl). reflexivity.
Qed.

Definition unit_op (op : OperationType) : Prop := match op with OpSymlink _ | OpFileDelete _ => True | _ => False end.
Lemma listed_operation units lower e d op : listed_unit units lower e d = Some op → unit_op op.
Proof.
  induction units as [|[needle unit] units IH]; [done|]. cbn [listed_unit]. destruct (_ || _); [done|].
  destruct (_ && _); [by intros [= <-]|]. destruct e; [by intros [= <-]|done].
Qed.
Lemma unit_operation lower op : parse_systemd_unit_remediation lower = Some op → unit_op op.
Proof.
  unfold parse_systemd_unit_remediation. destruct (contains "systemctl" lower); [|apply listed_operation].
  destruct (unit_after "enable" lower); [by intros [= <-]|].
  destruct (unit_after "disable" lower); [by intros [= <-]|apply listed_operation].
Qed.

(** a text without the words the parser looks for is not refused: the operation runs the text
    itself; and an operation of the parser that runs a command runs the text. *)
Theorem unknown_text_is_run text :
  (unknown_text text = true → parse_remediation text = run_text text) ∧
  ∀ c, parse_remediation text = OpCommandExec c → cx_command c = text.
Proof.
  split; [apply unknown_is_run|]. intros c. unfold parse_remediation.
  repeat match goal with |- (if ?b then _ else _) = _ → _ => destruct b; [done|] end.
  destruct (parse_systemd_unit_remediation (to_lowercase text)) as [op|] eqn:E.
  - intros ->. by apply unit_operation in E.
  - destruct (_ && _); [by destruct (contains "install" _)|].
    repeat match goal with |- (if ?b then _ else _) = _ → _ => destruct b; [done|] end. by intros [= <-].
Qed.
End commands.

(** ** Profile plans *)
Section profiles.
Context `{Platform}.

(** the operations of a profile plan are the findings with a risk level, one each and in their
    order, with that level as their priority; the text of a finding is its remediation, and
    whether the check passed plays no part. *)
Theorem profile_plan_exactly now vm report :
  map (fun op => (op_type op, op_priority op, op_risk op, op_description op))
    (pl_operations (from_security_profile now vm report)) =
  map (fun f => (parse_remediation (pf_message f), risk_priority (pf_risk_level f), risk_priority (pf_risk_level f), pf_item f))
    (List.filter rated (concat (map rs_findings (pr_sections report)))).
Proof. by apply numbered_map. Qed.

Lemma finding_in_plan now vm report f : f ∈ concat (map rs_findings (pr_sections report)) → rated f = true →
  ∃ op, op ∈ pl_operations (from_security_profile now vm report) ∧ op_type op = parse_remediation (pf_message f) ∧
    op_priority op = risk_priority (pf_risk_level f).
Proof.
  intros Hf Hr. cbn [pl_operations from_security_profile].
  assert (f ∈ List.filter rated (concat (map rs_findings (pr_sections report)))) as Hin.
  { apply list_elem_of_In, filter_In. split; [by apply list_elem_of_In|done]. }
  eapply numbered_elem in Hin as [k Hk]. eexists. split; [exact Hk|done].
Qed.
Lemma ssh_finding i f : f ∈ rs_findings (audit_ssh (in_ssh_config i)) →
  f ∈ concat (map rs_findings (pr_sections (security_inspect i))).
Proof. intros Hf. cbn [pr_sections security_inspect map concat]. apply elem_of_app. by left. Qed.

(** a guest that lets root log in gets a plan whose critical operation runs the text of the
    finding as a command; it does not change the setting. *)
Theorem root_login_not_fixed now vm i config : in_ssh_config i = Some config → config !! "PermitRootLogin" = Some "yes" →
  ∃ op, op ∈ pl_operations (from_security_profile now vm (security_inspect i)) ∧ op_priority op = PrCritical ∧
    op_type op = run_text "PermitRootLogin: yes (should be 'no')".
Proof.
  intros Hc Hy. edestruct (finding_in_plan now vm (security_inspect i)) as (op & Hop & Ht & Hp); [apply ssh_finding|..].
  - rewrite Hc. unfold audit_ssh. rewrite Hy. by left.
  - done.
  - exists op. split; [done|]. split; [exact Hp|]. rewrite Ht. by apply unknown_is_run.
Qed.
(** any other value of the setting that a guest has in its configuration is run as a command,
    unless it has a word the parser looks for: the guest decides what the plan runs. *)
Theorem guest_setting_is_run now vm i config value : in_ssh_config i = Some config →
  config !! "PermitRootLogin" = Some value → value ≠ "yes" → unknown_text ("PermitRootLogin: " +:+ value) = true →
  ∃ op, op ∈ pl_operations (from_security_profile now vm (security_inspect i)) ∧
    op_type op = run_text ("PermitRootLogin: " +:+ value).
Proof.
  intros Hc Hy Hne Hu. edestruct (finding_in_plan now vm (security_inspect i)) as (op & Hop & Ht & Hp); [apply ssh_finding|..].
  - rewrite Hc. unfold audit_ssh. rewrite Hy, (proj2 (String.eqb_neq _ _) Hne). by left.
  - done.
  - exists op. split; [done|]. rewrite Ht. by apply unknown_is_run.
Qed.
End profiles.

(** ** Texts of plans *)
(** an SSH key is added as a line of its own behind the lines that were there, unless it is one
    of them already; adding it again changes nothing. *)
Theorem ssh_key_added key content : unix_text content → plain_line key → key ≠ "" → trim key = key →
  lines (with_ssh_key key content) =
    lines content ++ (if existsb (fun l => String.eqb (trim l) key) (lines content) then [] else [key]) ∧
  with_ssh_key key (with_ssh_key key content) = with_ssh_key key content.
Proof.
  intros Hu Hk Hne Ht.
  assert (lines (with_ssh_key key content) =
    lines content ++ (if existsb (fun l => String.eqb (trim l) key) (lines content) then [] else [key])) as E.
  { unfold with_ssh_key. destruct (existsb _ (lines content)); [by rewrite app_nil_r|].
    assert (Forall plain_line (lines content ++ [key])) as Hp.
    { apply Forall_app. split; [|by constructor]. eapply Forall_impl; [by apply unix_lines|]. by intros l []. }
    rewrite <-(lines_join _ Hp) at 1. f_equal. rewrite join_ended_app.
    change (join "" (ended <$> [key])) with (key +:+ newline_str). f_equal.
    destruct (decide (content = "")) as [->|Hc]; [done|]. rewrite <-text_of_lines by done.
    assert (is_empty content = false) as -> by (by destruct content). cbn [negb andb].
    change (ascii_of_byte 10) with newline_char. by destruct (ends_with_char newline_char content). }
  split; [done|]. unfold with_ssh_key at 1. rewrite E. destruct (existsb _ (lines content)) eqn:Ee.
  - by rewrite app_nil_r, Ee.
  - rewrite existsb_app, Ee. cbn [existsb]. by rewrite Ht, String.eqb_refl.
Qed.

Lemma setting_sets key value : word key → sets_key key (key +:+ "=" +:+ value) = true.
Proof.
  intros Hk. unfold sets_key. rewrite trim_start_word by done. apply starts_with_spec. exists value. by rewrite text_app_assoc.
Qed.
(** setting a key of the GRUB defaults sets it on every line that had it, or on a new last line,
    and keeps the other lines; setting it again changes nothing. *)
Theorem grub_key_set key value content : unix_text content → last (lines content) ≠ Some "" → word key → plain_line value →
  lines (upsert_grub_kv content key value) =
    map (fun l => if sets_key key l then key +:+ "=" +:+ value else l) (lines content)
    ++ (if existsb (sets_key key) (lines content) then [] else [key +:+ "=" +:+ value]) ∧
  upsert_grub_kv (upsert_grub_kv content key value) key value = upsert_grub_kv content key value.
Proof.
  intros Hu Hl Hk Hv. set (kv := key +:+ "=" +:+ value). set (f := fun l => if sets_key key l then kv else l).
  assert (sets_key key kv = true) as Hkv by (by apply setting_sets).
  assert (kv ≠ "") as Hne by (unfold kv; destruct Hk as [Hk0 _]; by destruct key).
  assert (plain_line kv) as Hpkv.
  { unfold kv, plain_line. rewrite !text_forall_app. split; [by apply word_plain|by split]. }
  set (out := map f (lines content) ++ (if existsb (sets_key key) (lines content) then [] else [kv])).
  assert (lines (upsert_grub_kv content key value) = out) as E.
  { change (lines (join newline_str out) = out).
    assert (Forall plain_line out) as Hp.
    { apply Forall_app. split; [|by destruct (existsb _ _); repeat constructor].
      apply Forall_map. eapply Forall_impl; [by apply unix_lines|]. intros l [? _]. unfold f. by destruct (sets_key key l). }
    assert (∃ ls x, out = ls ++ [x] ∧ x ≠ "") as (ls & x & Ho & Hx).
    { unfold out. destruct (existsb (sets_key key) (lines content)) eqn:Ee; [|by exists (map f (lines content)), kv].
      destruct (lines content) as [|l0 ls0] eqn:El; [done|]. rewrite <-El in *.
      destruct (exists_last (l := lines content)) as (ls & x & Es); [by rewrite El|]. rewrite Es in Hl |- *.
      rewrite last_snoc in Hl. exists (map f ls), (f x). rewrite map_app, app_nil_r. split; [done|].
      unfold f. destruct (sets_key key x); [done|]. by intros ->. }
    rewrite Ho in *. by apply lines_open. }
  split; [done|]. unfold upsert_grub_kv at 1. rewrite E. change (join newline_str (map f out ++ (if existsb (sets_key key) out then [] else [kv])) = join newline_str out).
  assert (map f out = out) as Hid.
  { unfold out. rewrite map_app, map_map. f_equal.
    - apply map_ext. intros l. unfold f. destruct (sets_key key l) eqn:Es; [by rewrite Hkv|by rewrite Es].
    - destruct (existsb _ _); [done|]. cbn. unfold f. by rewrite Hkv. }
  rewrite Hid. assert (existsb (sets_key key) out = true) as ->; [|by rewrite app_nil_r].
  unfold out. rewrite existsb_app. destruct (existsb (sets_key key) (lines content)) eqn:Ee; [|cbn; by rewrite Hkv, orb_true_r].
  apply orb_true_iff. left. apply existsb_exists in Ee as (l & Hin & Hs). apply existsb_exists. exists kv. split; [|done].
  apply in_map_iff. exists l. split; [|done]. unfold f. by rewrite Hs.
Qed.

(** ** On given guests *)
#[local] Existing Instance ascii_platform.
#[local] Instance sample_text : GenText :=
  {| js_int _ := tt; js_str _ := tt; js_strs _ := tt; guest_error_text _ := "error" |}.
#[local] Instance sample_files : FileCrates := {|
  b64_encode s := s; b64_decode s := Some s; file_sha256_hex s := s; cwd := []; written_at := None; umask_mode := 420
|}.
#[local] Instance sample_guest_io : GuestIo := {| write_fault _ := None; is_utf8 _ := true |}.

Definition leave_plan : FixPlan :=
  match windows_domain_leave_plan 0 "vm.qcow2" "WORKGROUP" with Ok plan => plan | _ => windows_rdp_enable_plan 0 "vm.qcow2" end.
Definition injected_plan : FixPlan :=
  match with_agent_injection "/usr/bin/guestkit" "/tmp/unit" None leave_plan with Ok plan => plan | _ => leave_plan end.
Lemma generated_plans_validate_witness :
  ∃ r, validate_plan map_to_list true true "vm.qcow2" injected_plan = Ok r ∧ is_valid r = true.
Proof.
  apply generated_plans_validate.
  - eapply (gen_agent _ "/usr/bin/guestkit" "/tmp/unit" None leave_plan); [|reflexivity].
    apply (gen_leave _ 0 "WORKGROUP"). reflexivity.
  - split; [done|by vm_compute].
Defined.
Lemma unknown_text_is_run_witness : parse_remediation "Regenerate the boot menu" = run_text "Regenerate the boot menu".
Proof. apply (unknown_text_is_run "Regenerate the boot menu"). reflexivity. Defined.

(** a guest with this [sshd_config]. *)
Definition guest_with_sshd (content : string) : Inspection :=
  mk_Inspection (Some (inspect_ssh_config (Some content))) None true None (Some "enforcing") None.
Lemma root_login_not_fixed_witness :
  ∃ op, op ∈ pl_operations (from_security_profile 0 "vm" (security_inspect (guest_with_sshd "PermitRootLogin yes"))) ∧
    op_priority op = PrCritical ∧ op_type op = run_text "PermitRootLogin: yes (should be 'no')".
Proof. by eapply root_login_not_fixed; vm_compute. Defined.
Definition hostile_config : string := "PermitRootLogin no; reboot".
Lemma guest_setting_is_run_witness :
  ∃ op, op ∈ pl_operations (from_security_profile 0 "vm" (security_inspect (guest_with_sshd hostile_config))) ∧
    op_type op = run_text "PermitRootLogin: no; reboot".
Proof.
  apply (guest_setting_is_run 0 "vm" (guest_with_sshd hostile_config) (ssh_config_of hostile_config) "no; reboot");
    first [reflexivity | vm_compute; reflexivity | discriminate].
Defined.
Lemma ssh_key_added_witness :
  lines (with_ssh_key "ssh-ed25519 AAAA me" "ssh-rsa BBBB you") = ["ssh-rsa BBBB you"; "ssh-ed25519 AAAA me"].
Proof. by rewrite (proj1 (ssh_key_added "ssh-ed25519 AAAA me" "ssh-rsa BBBB you" eq_refl eq_refl ltac:(done) ltac:(by vm_compute))). Defined.
Lemma grub_key_set_witness :
  lines (upsert_grub_kv ("GRUB_TIMEOUT=5" +:+ newline_str +:+ "GRUB_DEFAULT=0") "GRUB_TIMEOUT" "1") = ["GRUB_TIMEOUT=1"; "GRUB_DEFAULT=0"].
Proof.
  by rewrite (proj1 (grub_key_set "GRUB_TIMEOUT" "1" ("GRUB_TIMEOUT=5" +:+ newline_str +:+ "GRUB_DEFAULT=0")
    eq_refl ltac:(by vm_compute) ltac:(done) eq_refl)).
Defined.

(** what the exported script of that plan runs. *)
Example guest_chooses_commands :
  match pl_operations (from_security_profile 0 "vm" (security_inspect (guest_with_sshd hostile_config))) with
  | op :: _ => commands_of (@operation_to_bash _ {| cargo_version := ""; utc_text _ := ""; json_text _ := "" |} op)
               = Some [["PermitRootLogin:"; "no"]; ["reboot"]]
  | [] => False
  end.
Proof. by vm_compute. Qed.
(** the server uses the first of two lines, the audit the last. *)
Example last_setting_wins :
  ssh_config_of ("PermitRootLogin yes" +:+ newline_str +:+ "PermitRootLogin no") !! "PermitRootLogin" = Some "no".
Proof. by vm_compute. Qed.
(** a guest in order gets operations too: its passed checks have a risk level. *)
Example passed_checks_become_operations :
  let plan := from_security_profile 0 "vm" (security_inspect (guest_with_sshd "PasswordAuthentication no")) in
  map op_type (List.filter (fun op => bool_decide (op_priority op = PrLow)) (pl_operations plan)) =
    [edit_sshd "PasswordAuthentication yes" "PasswordAuthentication no";
     OpSelinuxMode (mk_SELinuxMode "/etc/selinux/config" "permissive" "enforcing" (Some "Requires reboot to take full effect"))] ∧
  pl_post_apply plan = [ServiceRestart ["sshd"]; RebootRequired "SELinux mode change requires reboot"].
Proof. by vm_compute. Qed.
(** the advice of a boot check is run as it stands. *)
Example boot_advice_is_run : map op_type (boot_repair_ops (analyze_bootability broken_guest Kvm)) =
  [run_text "Regenerate initramfs: dracut --force or update-initramfs -u"].
Proof. by vm_compute. Qed.
(** asking whether a unit is enabled enables a unit called d. *)
Example is_enabled_enables : parse_remediation "Run systemctl is-enabled sshd" = systemd_enable_symlink "d".
Proof. by vm_compute. Qed.
(** two arguments are added again at every run; a value in single quotes keeps them inside. *)
Example cmdline_added_twice :
  append_grub_cmdline (append_grub_cmdline ("GRUB_CMDLINE_LINUX=" +:+ dquote +:+ dquote) "a b") "a b"
  = "GRUB_CMDLINE_LINUX=" +:+ dquote +:+ "a b a b" +:+ dquote.
Proof. by vm_compute. Qed.
Example single_quotes_kept : append_grub_cmdline "GRUB_CMDLINE_LINUX='quiet'" "ro"
  = "GRUB_CMDLINE_LINUX=" +:+ dquote +:+ "'quiet' ro" +:+ dquote.
Proof. by vm_compute. Qed.
(** another host of the file whose address begins alike loses its names. *)
Example other_host_renamed : patched_hosts "new" (host_entry "127.0.1.10" "db backup") = host_entry "127.0.1.10" "new" +:+ newline_str.
Proof. by vm_compute. Qed.
(** checks of arguments that let anything through. *)
Example dots_are_an_address : check_quad "ip" "..." = Ok ().
Proof. reflexivity. Qed.
Example path_is_a_guid : normalize_interface_guid "-\..\..\..\..\..\..\Control\Lsa-x-y-" = Ok "-\..\..\..\..\..\..\Control\Lsa-x-y-".
Proof. by vm_compute. Qed.
Example hostname_of_two_lines :
  match (linux_hostname_plan 0 "vm" mounted_guest ("a" +:+ newline_str +:+ "b") host_tree).2 with
  | Ok plan => match pl_operations plan with
               | op :: _ => op_type op = OpFileWrite (mk_FileWrite "/etc/hostname" ("a" +:+ newline_str +:+ "b" +:+ newline_str) (Some "0644"))
               | [] => False
               end
  | _ => False
  end.
Proof. by vm_compute. Qed.
