(* ===== verification/Sam.v ===== *)
(** * Password hashes of Windows accounts

    [src/guestfs/sam_aes.rs]: the boot key out of the SYSTEM hive, the hashed boot key of
    the SAM, and the encryption of an NT hash into the [V] value of an account.  Bytes are
    lists of [Z]; a slice out of range is a panic.  The digests and ciphers are the
    methods of [SamCrates], the file read and the random salt are arguments; RC4 and the
    reading of hives are the code's own.  [usize] has 64 bits, so sums of 32-bit
    offsets do not overflow.  [stack] bounds the depth of the recursion over nested key
    lists: the process ends when it is used up. *)
From stdpp Require Import base strings list list_numbers.
From Stdlib Require Import ZArith Lia Ascii.
From S2P Require Import Prelude RustStr DiskReader Partition Filesystem.

(** ** Unicode texts

    A Rust [str] is the UTF-8 encoding of a sequence of scalar values.  [encode_utf16]
    and [String::from_utf16_lossy] of the Standard Library, on which the Windows
    registry code relies, go through the scalar values; both encodings round-trip. *)
(** [char]: code points but the surrogates. *)
Definition scalar (c : Z) : Prop := (0 ≤ c < 55296 ∨ 57344 ≤ c < 1114112)%Z.

Definition string_of_bytes (bs : list Z) : string :=
  String.string_of_list_ascii (ascii_of_byte <$> bs).
Definition bytes_of_string (s : string) : list Z :=
  byte_of <$> String.list_ascii_of_string s.

(** [char::encode_utf8]. *)
Definition utf8_of (c : Z) : list Z :=
  (if c <? 128 then [c]
  else if c <? 2048 then [192 + c / 64; 128 + c mod 64]
  else if c <? 65536 then [224 + c / 4096; 128 + c / 64 mod 64; 128 + c mod 64]
  else [240 + c / 262144; 128 + c / 4096 mod 64; 128 + c / 64 mod 64; 128 + c mod 64])%Z.

(** the value of one valid sequence of [n] bytes. *)
Definition utf8_value (n : nat) (bs : list Z) : Z :=
  match n with
  | 1%nat => idx bs 0
  | 2%nat => (idx bs 0 - 192) * 64 + (idx bs 1 - 128)
  | 3%nat => (idx bs 0 - 224) * 4096 + (idx bs 1 - 128) * 64 + (idx bs 2 - 128)
  | _ => (idx bs 0 - 240) * 262144 + (idx bs 1 - 128) * 4096
         + (idx bs 2 - 128) * 64 + (idx bs 3 - 128)
  end%Z.

(** [str::chars]; a [str] holds valid sequences only. *)
Fixpoint chars_fuel (fuel : nat) (bs : list Z) : list Z :=
  match fuel, bs with
  | S fuel, _ :: _ =>
      let '(n, ok) := utf8_step bs in
      (if ok then utf8_value n bs else 65533%Z) :: chars_fuel fuel (drop n bs)
  | _, _ => []
  end.
Definition chars (s : string) : list Z :=
  chars_fuel (length (bytes_of_string s)) (bytes_of_string s).
(** [String::from_iter] on characters. *)
Definition string_of_chars (cs : list Z) : string := string_of_bytes (mjoin (utf8_of <$> cs)).

(** [char::encode_utf16] and [str::encode_utf16]. *)
Definition utf16_of (c : Z) : list Z :=
  (if c <? 65536 then [c]
   else [55296 + (c - 65536) / 1024; 56320 + (c - 65536) mod 1024])%Z.
Definition encode_utf16 (s : string) : list Z := mjoin (utf16_of <$> chars s).

(** [char::decode_utf16] with U+FFFD for each unpaired surrogate; a unit that does not
    complete a pair is looked at again. *)
Fixpoint decode_utf16 (us : list Z) : list Z :=
  match us with
  | [] => []
  | u :: rest =>
      if negb (in_bytes 55296 57343 u) then u :: decode_utf16 rest
      else if (56320 <=? u)%Z then 65533%Z :: decode_utf16 rest
      else match rest with
           | u2 :: rest' =>
               if in_bytes 56320 57343 u2
               then (65536 + (u - 55296) * 1024 + (u2 - 56320))%Z :: decode_utf16 rest'
               else 65533%Z :: decode_utf16 rest
           | [] => [65533%Z]
           end
  end.
Definition from_utf16_lossy (us : list Z) : string := string_of_chars (decode_utf16 us).

(** units as little-endian bytes and back; [as_chunks::<2>] leaves an odd byte out. *)
Definition utf16_bytes (us : list Z) : list Z := mjoin (le_encode 2 <$> us).
Fixpoint utf16_units (bs : list Z) : list Z :=
  match bs with
  | a :: b :: rest => le_decode [a; b] :: utf16_units rest
  | _ => []
  end.

(** ** The encodings round-trip *)
Lemma mjoin_fmap_cons {A B} (f : A → list B) x l : mjoin (f <$> x :: l) = f x ++ mjoin (f <$> l).
Proof. done. Qed.

Lemma byte_of_ascii_of_byte b : byte_ok b → byte_of (ascii_of_byte b) = b.
Proof.
  unfold byte_ok. intros Hb. unfold byte_of, ascii_of_byte. rewrite N_ascii_embedding; lia.
Qed.

Lemma bytes_of_string_of_bytes bs : Forall byte_ok bs → bytes_of_string (string_of_bytes bs) = bs.
Proof.
  unfold bytes_of_string, string_of_bytes. rewrite String.list_ascii_of_string_of_list_ascii.
  induction 1 as [|b bs Hb _ IH]; [done|]. rewrite !fmap_cons. by rewrite IH, byte_of_ascii_of_byte.
Qed.

#[local] Ltac Zify.zify_post_hook ::= Z.div_mod_to_equations.

Ltac zbool := repeat match goal with
  | |- context [(?a <? ?b)%Z] => (rewrite (proj2 (Z.ltb_lt a b)) by lia) || (rewrite (proj2 (Z.ltb_ge a b)) by lia)
  | |- context [(?a <=? ?b)%Z] => (rewrite (proj2 (Z.leb_le a b)) by lia) || (rewrite (proj2 (Z.leb_gt a b)) by lia)
  | |- context [(?a =? ?b)%Z] => (rewrite (proj2 (Z.eqb_eq a b)) by lia) || (rewrite (proj2 (Z.eqb_neq a b)) by lia)
  end.

Lemma utf8_of_bytes c : scalar c → Forall byte_ok (utf8_of c).
Proof.
  unfold scalar, utf8_of, byte_ok. intros Hc.
  repeat case_match; bool_solve; repeat constructor; lia.
Qed.

Lemma utf8_step_of c rest : scalar c →
  utf8_step (utf8_of c ++ rest) = (length (utf8_of c), true) ∧
  utf8_value (length (utf8_of c)) (utf8_of c ++ rest) = c.
Proof.
  unfold scalar. intros Hc. unfold utf8_of.
  destruct (c <? 128)%Z eqn:E1; [|destruct (c <? 2048)%Z eqn:E2; [|destruct (c <? 65536)%Z eqn:E3]];
    bool_solve; unfold utf8_step, in_bytes, is_cont; cbn; zbool; cbn;
    repeat match goal with
    | |- context [(?a =? ?b)%Z] => let E := fresh in destruct (a =? b)%Z eqn:E; bool_solve; zbool; cbn
    end; (split; [done|]); unfold idx; cbn; lia.
Qed.

Lemma chars_fuel_utf8 cs fuel : Forall scalar cs → length (mjoin (utf8_of <$> cs)) ≤ fuel →
  chars_fuel fuel (mjoin (utf8_of <$> cs)) = cs.
Proof.
  intros Hcs. revert fuel. induction Hcs as [|c cs Hc Hcs IH]; intros fuel Hf.
  { by destruct fuel. }
  rewrite mjoin_fmap_cons in Hf |- *.
  pose proof (utf8_step_of c (mjoin (utf8_of <$> cs)) Hc) as [Hstep Hval].
  assert (length (utf8_of c) ≠ 0) as Hn by (unfold utf8_of; by repeat case_match).
  rewrite length_app in Hf. destruct fuel as [|fuel]; [lia|].
  destruct (utf8_of c ++ _) as [|b bs] eqn:E; [by destruct (utf8_of c)|].
  cbn. rewrite Hstep. rewrite Hval, <-E, drop_app_length. by rewrite IH by lia.
Qed.

Lemma chars_string_of_chars cs : Forall scalar cs → chars (string_of_chars cs) = cs.
Proof.
  intros Hcs. unfold chars, string_of_chars. rewrite bytes_of_string_of_bytes.
  { by apply chars_fuel_utf8. }
  induction Hcs as [|c cs Hc _ IH]; [done|]. rewrite mjoin_fmap_cons.
  apply Forall_app. split; [by apply utf8_of_bytes|done].
Qed.

Lemma decode_encode_utf16 cs : Forall scalar cs → decode_utf16 (mjoin (utf16_of <$> cs)) = cs.
Proof.
  induction 1 as [|c cs Hc _ IH]; [done|]. rewrite mjoin_fmap_cons.
  unfold scalar in Hc. unfold utf16_of at 1. destruct (c <? 65536)%Z eqn:E; bool_solve;
    cbn; unfold in_bytes; [|]; zbool; cbn.
  - destruct (c <? 55296)%Z eqn:E2; bool_solve; zbool; cbn; by rewrite IH.
  - rewrite IH. f_equal. lia.
Qed.

Definition unit_ok (u : Z) : Prop := (0 ≤ u < 65536)%Z.

Lemma utf16_of_units c : scalar c → Forall unit_ok (utf16_of c).
Proof. unfold scalar, utf16_of, unit_ok. intros Hc. case_match; bool_solve; repeat constructor; lia. Qed.

Lemma utf16_units_bytes us : Forall unit_ok us → utf16_units (utf16_bytes us) = us.
Proof.
  induction 1 as [|u us Hu _ IH]; [done|]. unfold utf16_bytes in *. rewrite mjoin_fmap_cons.
  change (le_encode 2 u) with [u mod 256; u / 256 mod 256]%Z. cbn [app utf16_units]. rewrite IH.
  f_equal. unfold unit_ok in Hu. cbn. lia.
Qed.

(** a text: what a Rust string can hold. *)
Definition text (s : string) : Prop := ∃ cs, Forall scalar cs ∧ s = string_of_chars cs.

Lemma utf16_text_round_trip s : text s →
  from_utf16_lossy (utf16_units (utf16_bytes (encode_utf16 s))) = s.
Proof.
  intros (cs & Hcs & ->). unfold encode_utf16. rewrite chars_string_of_chars by done.
  rewrite utf16_units_bytes.
  { unfold from_utf16_lossy. by rewrite decode_encode_utf16. }
  induction Hcs as [|c cs Hc _ IH]; [done|]. rewrite mjoin_fmap_cons.
  apply Forall_app. split; [by apply utf16_of_units|done].
Qed.

Class SamCrates := {
  md4 : list Z → list Z;                           (** [Md4::digest] *)
  md5 : list Z → list Z;                           (** [Md5] over all updates *)
  des_encrypt : list Z → list Z → list Z;          (** key and block of eight bytes *)
  des_decrypt : list Z → list Z → list Z;
  aes_pkcs7 : list Z → list Z → list Z → list Z;   (** [encrypt_padded_vec_mut::<Pkcs7>] *)
  aes_raw : list Z → list Z → list Z → option (list Z)  (** [decrypt_padded_mut::<NoPadding>] *)
}.

(** ** Slices *)
Definition len (bs : list Z) : Z := Z.of_nat (length bs).
(** [bs.get(from..to)]. *)
Definition get_range (bs : list Z) (from to : Z) : option (list Z) :=
  if (0 <=? from)%Z && (from <=? to)%Z && (to <=? len bs)%Z
  then Some (take (Z.to_nat (to - from)) (drop (Z.to_nat from) bs)) else None.
(** [&bs[from..to]]. *)
Definition slice (bs : list Z) (from to : Z) : outcome Error (list Z) :=
  match get_range bs from to with Some l => Ok l | None => Panic end.
(** [v[at..at + data.len()].copy_from_slice(data)]. *)
Definition splice (v : list Z) (at_ : Z) (data : list Z) : outcome Error (list Z) :=
  if (0 <=? at_)%Z && (at_ + len data <=? len v)%Z
  then Ok (take (Z.to_nat at_) v ++ data ++ drop (Z.to_nat (at_ + len data)) v)
  else Panic.
Definition u16_at (bs : list Z) (at_ : Z) : outcome Error Z := le_decode <$> slice bs at_ (at_ + 2).
Definition u32_at (bs : list Z) (at_ : Z) : outcome Error Z := le_decode <$> slice bs at_ (at_ + 4).
Definition or_format {A} (msg : string) (o : option A) : outcome Error A :=
  match o with Some a => Ok a | None => Err (InvalidFormat msg) end.
Definition ascii_bytes (s : string) : list Z := bytes_of_string s.

(** ** Constants *)
Definition BOOTKEY_TRANSFORM : list nat := [8; 5; 4; 2; 11; 9; 13; 3; 0; 6; 1; 12; 14; 10; 15; 7].
Definition QWERTY : list Z := ascii_bytes "!@#$%^&*()qwertyUIOPAzxcvbnmQQQQQQQQQQQQ)(*@&%" ++ [0%Z].
Definition DIGITS : list Z := ascii_bytes "0123456789012345678901234567890123456789" ++ [0%Z].
Definition NTPASSWORD : list Z := ascii_bytes "NTPASSWORD" ++ [0%Z].
Definition V_DATA_BASE : Z := 204.   (** 0xCC *)
Definition V_LM_LENGTH : Z := 160.   (** 0xA0 *)
Definition V_NT_OFFSET : Z := 168.   (** 0xA8 *)
Definition V_NT_LENGTH : Z := 172.   (** 0xAC *)

(** ** RC4 *)
Definition swap (s : list Z) (i j : nat) : list Z := <[i := idx s j]> (<[j := idx s i]> s).

Definition rc4_schedule_step (key : list Z) (st : list Z * Z) (i : nat) : list Z * Z :=
  let '(s, j) := st in
  let j := Z.land (j + idx s i + idx key (i `mod` length key)) 255 in
  (swap s i (Z.to_nat j), j).
Definition rc4_schedule (key : list Z) : list Z :=
  (foldl (rc4_schedule_step key) (Z.of_nat <$> seq 0 256, 0%Z) (seq 0 256)).1.

Fixpoint rc4_stream (s : list Z) (i j : Z) (data : list Z) : list Z :=
  match data with
  | [] => []
  | b :: data =>
      let i := Z.land (i + 1) 255 in
      let j := Z.land (j + idx s (Z.to_nat i)) 255 in
      let s := swap s (Z.to_nat i) (Z.to_nat j) in
      let k := idx s (Z.to_nat (Z.land (idx s (Z.to_nat i) + idx s (Z.to_nat j)) 255)) in
      Z.lxor b k :: rc4_stream s i j data
  end.

(** an empty key divides by zero. *)
Definition rc4_crypt (key data : list Z) : outcome Error (list Z) :=
  match key with
  | [] => Panic
  | _ => Ok (rc4_stream (rc4_schedule key) 0 0 data)
  end.

(** ** DES under keys made of the relative id *)
Definition shl8 (x n : Z) : Z := (Z.shiftl x n mod 256)%Z.

Definition transform_des_key (input : list Z) : list Z :=
  let b := idx input in
  let out :=
    [ Z.shiftr (b 0%nat) 1;
      Z.lor (shl8 (Z.land (b 0%nat) 1) 6) (Z.shiftr (b 1%nat) 2);
      Z.lor (shl8 (Z.land (b 1%nat) 3) 5) (Z.shiftr (b 2%nat) 3);
      Z.lor (shl8 (Z.land (b 2%nat) 7) 4) (Z.shiftr (b 3%nat) 4);
      Z.lor (shl8 (Z.land (b 3%nat) 15) 3) (Z.shiftr (b 4%nat) 5);
      Z.lor (shl8 (Z.land (b 4%nat) 31) 2) (Z.shiftr (b 5%nat) 6);
      Z.lor (shl8 (Z.land (b 5%nat) 63) 1) (Z.shiftr (b 6%nat) 7);
      Z.land (b 6%nat) 127 ] in
  (fun x => Z.land (shl8 x 1) 254) <$> out.

Definition derive_des_keys (rid : Z) : list Z * list Z :=
  let key := idx (le_encode 4 rid) in
  (transform_des_key (key <$> [0; 1; 2; 3; 0; 1; 2]),
   transform_des_key (key <$> [3; 0; 1; 2; 3; 0; 1])).

Section crates.
Context `{SamCrates}.

(** [copy_from_slice] into a block of eight bytes. *)
Definition des_ecb_encrypt (key block : list Z) : outcome Error (list Z) :=
  if (len block =? 8)%Z then Ok (des_encrypt key block) else Panic.
Definition des_ecb_decrypt (key block : list Z) : outcome Error (list Z) :=
  if (len block =? 8)%Z then Ok (des_decrypt key block) else Panic.

Definition des_encrypt_hash (rid : Z) (nt_hash : list Z) : outcome Error (list Z) :=
  let '(k1, k2) := derive_des_keys rid in
  a ← slice nt_hash 0 8;
  a ← des_ecb_encrypt k1 a;
  b ← slice nt_hash 8 (len nt_hash);
  b ← des_ecb_encrypt k2 b;
  Ok (a ++ b).

Definition des_decrypt_hash (rid : Z) (enc : list Z) : outcome Error (list Z) :=
  let '(k1, k2) := derive_des_keys rid in
  a ← slice enc 0 8;
  a ← des_ecb_decrypt k1 a;
  b ← slice enc 8 16;
  b ← des_ecb_decrypt k2 b;
  Ok (a ++ b).

Definition aes_cbc_encrypt (key iv plaintext : list Z) : outcome Error (list Z) :=
  if negb (len key =? 16)%Z then Err (InvalidFormat "AES key must be 16 bytes")
  else if negb (len iv =? 16)%Z then Err (InvalidFormat "AES IV must be 16 bytes")
  else Ok (aes_pkcs7 key iv plaintext).

Definition aes_cbc_decrypt (key iv ciphertext : list Z) : outcome Error (list Z) :=
  if negb (len key =? 16)%Z then Err (InvalidFormat "AES key must be 16 bytes")
  else if negb (len iv =? 16)%Z then Err (InvalidFormat "AES IV must be 16 bytes")
  else if negb (len ciphertext mod 16 =? 0)%Z
       then Err (InvalidFormat "AES ciphertext length not multiple of 16")
  else or_format "AES decrypt: UnpadError" (aes_raw key iv ciphertext).

(** ** NT hashes *)
Definition ntlm_hash (password : string) : list Z := md4 (utf16_bytes (encode_utf16 password)).

Definition rc4_hash_key (hbootkey : list Z) (rid : Z) : outcome Error (list Z) :=
  k ← slice hbootkey 0 16;
  Ok (md5 (k ++ le_encode 4 rid ++ NTPASSWORD)).

Definition encrypt_nt_hash (rid : Z) (nt_hash hbootkey salt : list Z) (aes_style : bool)
    : outcome Error (list Z) :=
  des_enc ← des_encrypt_hash rid nt_hash;
  if aes_style then
    k ← slice hbootkey 0 16;
    enc ← aes_cbc_encrypt k salt des_enc;
    Ok (le_encode 2 0 ++ le_encode 2 2 ++ le_encode 4 16 ++ salt ++ enc)
  else
    rc4_key ← rc4_hash_key hbootkey rid;
    enc ← rc4_crypt rc4_key des_enc;
    Ok (le_encode 2 0 ++ le_encode 2 1 ++ enc).

Definition decrypt_nt_hash (rid : Z) (blob hbootkey : list Z) (aes_style : bool)
    : outcome Error (list Z) :=
  des_enc ← (if aes_style then
               if (len blob <? 24)%Z then Err (InvalidFormat "SAM_HASH_AES too short")
               else salt ← slice blob 8 24;
                    hash ← slice blob 24 (len blob);
                    k ← slice hbootkey 0 16;
                    plain ← aes_cbc_decrypt k salt hash;
                    slice plain 0 16
             else
               if (len blob <? 20)%Z then Err (InvalidFormat "SAM_HASH too short")
               else enc ← slice blob 4 20;
                    rc4_key ← rc4_hash_key hbootkey rid;
                    rc4_crypt rc4_key enc);
  des_decrypt_hash rid des_enc.

(** ** The hashed boot key *)
Definition hashed_bootkey_rc4 (key0 bootkey : list Z) : outcome Error (list Z) :=
  if (len key0 <? 56)%Z then Err (InvalidFormat "SAM_KEY_DATA too short")
  else salt ← slice key0 8 24;
       key_cs ← slice key0 24 56;
       hashed ← rc4_crypt (md5 (salt ++ QWERTY ++ bootkey ++ DIGITS)) key_cs;
       a ← slice hashed 0 16;
       check ← slice hashed 16 (len hashed);
       if bool_decide (md5 (a ++ DIGITS ++ a ++ QWERTY) = check) then Ok hashed
       else Err (InvalidOperation "hashedBootKey checksum failed (Syskey startup password in use?)").

Definition hashed_bootkey_aes (key0 bootkey : list Z) : outcome Error (list Z) :=
  if (len key0 <? 32)%Z then Err (InvalidFormat "SAM_KEY_DATA_AES too short")
  else data_len ← u32_at key0 12;
       salt ← slice key0 16 32;
       data ← or_format "SAM_KEY_DATA_AES Data truncated" (get_range key0 32 (32 + data_len));
       aes_cbc_decrypt bootkey salt data.

Definition fmt_some_u8 (o : option Z) : string :=
  match o with Some b => "Some(" +:+ fmt_Z b +:+ ")" | None => "None" end.

Definition hashed_bootkey (domain_f bootkey : list Z) : outcome Error (list Z) :=
  if (len domain_f <? 108)%Z then Err (InvalidFormat "SAM Domains\Account\F too short for Key0")
  else key0 ← slice domain_f 104 (len domain_f);
       match key0 !! 0 with
       | Some 1%Z => hashed_bootkey_rc4 key0 bootkey
       | Some 2%Z => hashed_bootkey_aes key0 bootkey
       | other => Err (InvalidFormat ("unsupported SAM Key0 revision " +:+ fmt_some_u8 other))
       end.
End crates.

Definition domain_f_is_aes (domain_f : list Z) : bool := bool_decide (domain_f !! 104 = Some 2%Z).

(** ** The [V] value of an account *)
Definition patch_v_with_nt_hash (v nt_blob : list Z) : outcome Error (list Z) :=
  if (len v <? V_DATA_BASE)%Z
  then Err (InvalidOperation ("SAM V too short (" +:+ fmt_Z (len v) +:+ " bytes)"))
  else
    v ← splice v V_LM_LENGTH (le_encode 4 4);
    cur_len ← u32_at v V_NT_LENGTH;
    cur_off ← u32_at v V_NT_OFFSET;
    let abs := (V_DATA_BASE + cur_off)%Z in
    if (cur_len =? len nt_blob)%Z && (abs + cur_len <=? len v)%Z && (20 <=? cur_len)%Z
    then splice v abs nt_blob
    else
      let new_off := (len v - V_DATA_BASE)%Z in
      let v := v ++ nt_blob in
      v ← splice v V_NT_OFFSET (le_encode 4 new_off);
      splice v V_NT_LENGTH (le_encode 4 (len nt_blob)).

(** ** Reading the SYSTEM hive *)
Definition cell_data_offset (offset : Z) : Z := (4096 + offset + 4)%Z.
Definition decode_utf16le_lossy (bytes : list Z) : string := from_utf16_lossy (utf16_units bytes).
Definition has_sig (d : list Z) (sig : string) : bool := bool_decide (take 2 d = ascii_bytes sig).

Record NkInfo : Type := mk_NkInfo {
  nk_flags : Z;
  nk_subkey_count : Z;
  nk_subkeys_off : Z;
  nk_value_count : Z;
  nk_values_off : Z;
  nk_class_off : Z;
  nk_class_len : Z;
  nk_name : string
}.

Definition parse_nk (hive : list Z) (data_off : Z) : outcome Error NkInfo :=
  d ← or_format "nk truncated" (get_range hive data_off (len hive));
  if (len d <? 76)%Z || negb (has_sig d "nk") then Err (InvalidFormat "not an nk cell")
  else
    flags ← u16_at d 2;
    subkey_count ← u32_at d 20;
    subkeys_off ← u32_at d 28;
    value_count ← u32_at d 36;
    values_off ← u32_at d 40;
    class_off ← u32_at d 48;
    name_len ← u16_at d 72;
    class_len ← u16_at d 74;
    name_bytes ← or_format "nk name truncated" (get_range d 76 (76 + name_len));
    let name := if negb (Z.land flags 32 =? 0)%Z then from_utf8_lossy name_bytes
                else decode_utf16le_lossy name_bytes in
    Ok (mk_NkInfo flags subkey_count subkeys_off value_count values_off class_off class_len name).

(** the elements of [lf], [lh] (eight bytes each) and [li] (four) lists. *)
Definition leaf_children (hive d : list Z) (width count : Z) : outcome Error (list (string * Z)) :=
  outcome_foldl (fun out i =>
    off ← u32_at d (4 + i * width);
    let child := cell_data_offset off in
    nk ← parse_nk hive child;
    Ok (out ++ [(nk_name nk, child)])) [] (seqZ 0 count).

Fixpoint list_subkeys_at (stack : nat) (hive : list Z) (list_off : Z)
    : outcome Error (list (string * Z)) :=
  match stack with
  | O => Panic
  | S stack =>
      d ← or_format "subkey list truncated" (get_range hive list_off (len hive));
      if (len d <? 4)%Z then Err (InvalidFormat "subkey list too short")
      else
        count ← u16_at d 2;
        if has_sig d "lf" || has_sig d "lh" then leaf_children hive d 8 count
        else if has_sig d "li" then leaf_children hive d 4 count
        else if has_sig d "ri" then
          outcome_foldl (fun out i =>
            off ← u32_at d (4 + i * 4);
            nested ← list_subkeys_at stack hive (cell_data_offset off);
            Ok (out ++ nested)) [] (seqZ 0 count)
        else Err (InvalidFormat ("unknown subkey list sig " +:+ from_utf8_lossy (take 2 d)))
  end.

Definition list_subkeys (stack : nat) (hive : list Z) (nk : NkInfo) : outcome Error (list (string * Z)) :=
  if (nk_subkey_count nk =? 0)%Z || (nk_subkeys_off nk =? 4294967295)%Z then Ok []
  else list_subkeys_at stack hive (cell_data_offset (nk_subkeys_off nk)).

Definition to_ascii_lowercase (s : string) : string := str_map char_lower s.

Fixpoint find_child (want : string) (children : list (string * Z)) : option Z :=
  match children with
  | [] => None
  | (n, c) :: children =>
      if String.eqb (to_ascii_lowercase n) want then Some c else find_child want children
  end.

Definition find_key_cell (stack : nat) (hive : list Z) (path : list string) : outcome Error Z :=
  root_off ← u32_at hive 36;
  outcome_foldl (fun cell component =>
    nk ← parse_nk hive cell;
    children ← list_subkeys stack hive nk;
    match find_child (to_ascii_lowercase component) children with
    | Some next => Ok next
    | None => Err (NotFound ("SYSTEM path missing '" +:+ join "\" path +:+ "'"))
    end) (cell_data_offset root_off) path.

(** one element of a value list; [None] where the loop goes on without a value. *)
Definition read_value (hive : list Z) (list_off i : Z) : outcome Error (option (string * list Z)) :=
  let eoff := (list_off + i * 4)%Z in
  vk_off ← le_decode <$> or_format "value list truncated" (get_range hive eoff (eoff + 4));
  vk ← or_format "vk truncated" (get_range hive (cell_data_offset vk_off) (len hive));
  if (len vk <? 20)%Z || negb (has_sig vk "vk") then Ok None
  else
    name_len ← u16_at vk 2;
    data_len_raw ← u32_at vk 4;
    data_off ← u32_at vk 8;
    flags ← u16_at vk 16;
    name ← (if (name_len =? 0)%Z then Ok ""
            else bytes ← slice vk 20 (20 + name_len);
                 Ok (if negb (Z.land flags 1 =? 0)%Z then from_utf8_lossy bytes
                     else decode_utf16le_lossy bytes));
    let data_size := Z.land data_len_raw 2147483647 in
    data ← (if negb (Z.land data_len_raw 2147483648 =? 0)%Z
            then Ok (take (Z.to_nat (Z.min data_size 4)) (le_encode 4 data_off))
            else let doff := cell_data_offset data_off in
                 or_format "value data truncated" (get_range hive doff (doff + data_size)));
    Ok (Some (name, data)).

Definition read_values (hive : list Z) (nk : NkInfo) : outcome Error (list (string * list Z)) :=
  if (nk_value_count nk =? 0)%Z || (nk_values_off nk =? 4294967295)%Z then Ok []
  else outcome_foldl (fun out i =>
         v ← read_value hive (cell_data_offset (nk_values_off nk)) i;
         Ok (out ++ option_list v)) [] (seqZ 0 (nk_value_count nk)).

Fixpoint find_dword (value : string) (vals : list (string * list Z)) : option Z :=
  match vals with
  | [] => None
  | (name, data) :: vals =>
      if eq_ignore_ascii_case name value && (4 <=? len data)%Z then Some (le_decode (take 4 data))
      else find_dword value vals
  end.

Definition read_dword_value (stack : nat) (hive : list Z) (path : list string) (value : string)
    : outcome Error Z :=
  cell ← find_key_cell stack hive path;
  nk ← parse_nk hive cell;
  vals ← read_values hive nk;
  match find_dword value vals with
  | Some v => Ok v
  | None => Err (NotFound (join "\" path +:+ "\" +:+ value))
  end.

Definition key_exists (stack : nat) (hive : list Z) (path : list string) : outcome Error bool :=
  match find_key_cell stack hive path with Ok _ => Ok true | Err _ => Ok false | Panic => Panic end.

Definition select_current (stack : nat) (hive : list Z) : outcome Error Z :=
  let fallback :=
    one ← key_exists stack hive ["ControlSet001"; "Control"; "Lsa"; "JD"];
    if (one : bool) then Ok 1%Z
    else two ← key_exists stack hive ["ControlSet002"; "Control"; "Lsa"; "JD"];
         if (two : bool) then Ok 2%Z
         else Err (InvalidFormat "could not resolve SYSTEM CurrentControlSet") in
  match read_dword_value stack hive ["Select"] "Current" with
  | Ok v => if (1 <=? v)%Z && (v <=? 3)%Z then Ok v else fallback
  | Err _ => fallback
  | Panic => Panic
  end.

Definition read_key_classname (stack : nat) (hive : list Z) (path : list string) : outcome Error string :=
  cell ← find_key_cell stack hive path;
  nk ← parse_nk hive cell;
  if (nk_class_len nk =? 0)%Z || (nk_class_off nk =? 0)%Z || (nk_class_off nk =? 4294967295)%Z
  then Err (InvalidFormat ("key " +:+ join "\" path +:+ " has empty class name"))
  else
    let class_cell := cell_data_offset (nk_class_off nk) in
    bytes ← or_format "class name truncated" (get_range hive class_cell (class_cell + nk_class_len nk));
    Ok (trim_end_nul (decode_utf16le_lossy bytes)).

Definition from_hex (b : Z) : option Z :=
  if in_bytes 48 57 b then Some (b - 48)%Z
  else if in_bytes 97 102 b then Some (b - 97 + 10)%Z
  else if in_bytes 65 70 b then Some (b - 65 + 10)%Z
  else None.

Definition bad_hex (b : Z) : string := "bad hex " +:+ string_of_chars [b].

Fixpoint hex_pairs (bytes : list Z) : string + list Z :=
  match bytes with
  | a :: b :: rest =>
      match from_hex a with
      | None => inl (bad_hex a)
      | Some hi =>
          match from_hex b with
          | None => inl (bad_hex b)
          | Some lo =>
              match hex_pairs rest with
              | inl e => inl e
              | inr out => inr (Z.lor (shl8 hi 4) lo :: out)
              end
          end
      end
  | _ => inr []
  end.

Definition decode_hex_ascii (s : string) : string + list Z :=
  let bytes := bytes_of_string (trim s) in
  if negb (len bytes mod 2 =? 0)%Z then inl "odd length" else hex_pairs bytes.

(** [{n:03}]. *)
Definition fmt_03 (n : Z) : string :=
  let s := fmt_Z n in
  match String.length s with 0%nat => "000" | 1%nat => "00" +:+ s | 2%nat => "0" +:+ s | _ => s end.

Definition lsa_part (stack : nat) (data : list Z) (cs name : string) : outcome Error (list Z) :=
  class ← read_key_classname stack data [cs; "Control"; "Lsa"; name];
  match decode_hex_ascii class with
  | inl e => Err (InvalidFormat ("Lsa\" +:+ name +:+ " class name not hex (" +:+ class +:+ "): " +:+ e))
  | inr bytes =>
      if negb (len bytes =? 4)%Z
      then Err (InvalidFormat ("Lsa\" +:+ name +:+ " class name decoded to " +:+ fmt_Z (len bytes) +:+ " bytes (want 4)"))
      else Ok bytes
  end.

(** [read]: what [fs::read] answers, the text of the error or the bytes. *)
Definition extract_bootkey (stack : nat) (system_hive : string) (read : string + list Z)
    : outcome Error (list Z) :=
  match read with
  | inl e => Err (CommandFailed ("read SYSTEM hive " +:+ system_hive +:+ ": " +:+ e))
  | inr data =>
      if (len data <? 4096)%Z || negb (bool_decide (take 4 data = ascii_bytes "regf"))
      then Err (InvalidFormat "SYSTEM path is not a registry hive (missing regf header)")
      else
        current ← select_current stack data;
        let cs := "ControlSet" +:+ fmt_03 current in
        scrambled ← outcome_foldl (fun out name =>
                      bytes ← lsa_part stack data cs name;
                      Ok (out ++ bytes)) [] ["JD"; "Skew1"; "GBG"; "Data"];
        if negb (len scrambled =? 16)%Z then Err (InvalidFormat "bootkey scramble length != 16")
        else Ok (idx scrambled <$> BOOTKEY_TRANSFORM)
  end.
