(* ===== verification/SamProps.v ===== *)
(** * Theorems on password hashes

    RC4 is its own inverse and permutes its table; the keys of DES hold the bits of the
    relative id; an encrypted NT hash decrypts to itself; a patched account value holds
    the hash and nothing else of it changed; and what hives the reader does not survive. *)
From stdpp Require Import base strings list list_numbers.
From Stdlib Require Import ZArith Lia Ascii.
From S2P Require Import Prelude RustStr DiskReader Partition Filesystem Sam.

(** ** Slices by position *)
Lemma slice_inv v a b l : slice v a b = Ok l →
  (0 ≤ a ≤ b ∧ b ≤ len v)%Z ∧ len l = (b - a)%Z ∧
  ∀ i, (0 ≤ i < b - a)%Z → l !! Z.to_nat i = v !! Z.to_nat (a + i).
Proof.
  unfold slice, get_range, len. case_match eqn:E; [|done]. intros [= <-].
  destruct ((_ && _ && _)) eqn:B; [|done]. injection E as <-. bool_solve.
  rewrite length_take, length_drop. split; [lia|split; [lia|]]. intros i Hi.
  rewrite lookup_take_lt by lia. rewrite lookup_drop. f_equal. lia.
Qed.

Lemma slice_Ok v a b : (0 ≤ a ≤ b)%Z → (b ≤ len v)%Z → ∃ l, slice v a b = Ok l.
Proof. intros Ha Hb. unfold slice, get_range. zbool. cbn. eauto. Qed.

Lemma slice_eq v a b l : (0 ≤ a ≤ b)%Z → (b ≤ len v)%Z → len l = (b - a)%Z →
  (∀ i, (0 ≤ i < b - a)%Z → l !! Z.to_nat i = v !! Z.to_nat (a + i)) → slice v a b = Ok l.
Proof.
  intros Ha Hb Hl Hi. destruct (slice_Ok v a b) as [l' Hl']; [done..|].
  rewrite Hl'. f_equal. apply slice_inv in Hl' as (_ & Hlen & Hl').
  unfold len in *. apply list_eq_same_length with (length l); [done|lia|].
  intros i x y Hlt Hx Hy. specialize (Hl' (Z.of_nat i)). specialize (Hi (Z.of_nat i)).
  rewrite Nat2Z.id in *. rewrite <-Hi in Hl' by lia. rewrite Hl' in Hx by lia. congruence.
Qed.

Lemma splice_inv v a d v' : splice v a d = Ok v' →
  (0 ≤ a ∧ a + len d ≤ len v ∧ len v' = len v)%Z ∧
  ∀ i, (0 ≤ i)%Z → v' !! Z.to_nat i =
    if ((a <=? i) && (i <? a + len d))%Z then d !! Z.to_nat (i - a) else v !! Z.to_nat i.
Proof.
  unfold splice, len. destruct (_ && _) eqn:B; [|done]. intros [= <-]. bool_solve.
  rewrite !length_app, length_take, length_drop. split; [lia|]. intros i Hi.
  destruct (decide (i < a)%Z).
  { zbool. cbn. rewrite lookup_app_l by (rewrite length_take; lia). by rewrite lookup_take_lt by lia. }
  rewrite lookup_app_r, length_take, Nat.min_l by (rewrite ?length_take; lia).
  destruct (decide (i < a + Z.of_nat (length d))%Z).
  - zbool. cbn. rewrite lookup_app_l by lia. f_equal. lia.
  - zbool. cbn. rewrite lookup_app_r by lia. rewrite lookup_drop. f_equal. lia.
Qed.

Lemma splice_Ok v a d : (0 ≤ a)%Z → (a + len d ≤ len v)%Z → ∃ v', splice v a d = Ok v'.
Proof. intros Ha Hd. unfold splice. zbool. cbn. eauto. Qed.

(** a slice of an updated vector: the written part, and any part beside it. *)
Lemma slice_splice_same v a d v' : splice v a d = Ok v' → slice v' a (a + len d) = Ok d.
Proof.
  intros (Hb & Hl)%splice_inv. apply slice_eq; [unfold len in *; lia..|]. intros i Hi.
  rewrite Hl by lia. zbool. cbn. f_equal. lia.
Qed.

Lemma slice_splice_other v a d v' b c : splice v a d = Ok v' →
  (c ≤ a ∨ a + len d ≤ b)%Z → slice v' b c = slice v b c.
Proof.
  intros (Hb & Hl)%splice_inv Hout.
  destruct (decide ((0 ≤ b ≤ c) ∧ c ≤ len v)%Z) as [Hin|Hin].
  - destruct (slice_Ok v b c) as [l Hs]; [lia..|]. rewrite Hs.
    apply slice_inv in Hs as (_ & Hlen & Hs). apply slice_eq; [lia..|]. intros i Hi.
    rewrite Hs, Hl by lia. destruct (decide (b + i < a)%Z); zbool; done.
  - unfold slice, get_range. replace (len v') with (len v) by lia.
    destruct (_ && _ && _) eqn:E; [bool_solve; lia|done].
Qed.

Lemma slice_app v w a b : (b ≤ len v)%Z → slice (v ++ w) a b = slice v a b.
Proof.
  intros Hb. unfold slice, get_range, len in *. rewrite length_app.
  destruct (decide (0 ≤ a ≤ b)%Z).
  - zbool. cbn. f_equal. rewrite drop_app_le by lia. apply take_app_le. rewrite length_drop. lia.
  - replace ((0 <=? a) && (a <=? b))%Z with false; [done|]. symmetry. apply andb_false_iff.
    rewrite !Z.leb_gt. lia.
Qed.

(** ** The account value *)

(** the NT hash an account value holds, by its length and offset fields. *)
Definition nt_blob_of (v : list Z) : outcome Error (list Z) :=
  n ← u32_at v V_NT_LENGTH;
  o ← u32_at v V_NT_OFFSET;
  slice v (V_DATA_BASE + o) (V_DATA_BASE + o + n).

(** the fields and bytes a new hash may change: the length of the LM hash, offset and
    length of the NT hash, and the old NT hash itself. *)
Definition nt_part (v : list Z) (i : Z) : Prop :=
  (V_LM_LENGTH ≤ i < V_LM_LENGTH + 4)%Z ∨ (V_NT_OFFSET ≤ i < V_NT_LENGTH + 4)%Z ∨
  ∃ o n, u32_at v V_NT_OFFSET = Ok o ∧ u32_at v V_NT_LENGTH = Ok n ∧
         (V_DATA_BASE + o ≤ i < V_DATA_BASE + o + n)%Z.

Lemma u32_at_Ok v a : Forall byte_ok v → (0 ≤ a)%Z → (a + 4 ≤ len v)%Z →
  ∃ x, u32_at v a = Ok x ∧ (0 ≤ x < 2 ^ 32)%Z.
Proof.
  intros Hv Ha Hl. destruct (slice_Ok v a (a + 4)) as [l Hs]; [lia..|]. unfold u32_at. rewrite Hs.
  eexists. split; [done|]. pose proof (slice_inv _ _ _ _ Hs) as (_ & Hlen & _).
  assert (Forall byte_ok l) as Hb.
  { revert Hs. unfold slice, get_range. case_match eqn:E; [|done]. intros [= <-].
    destruct (_ && _ && _); [|done]. injection E as <-. by apply Forall_take, Forall_drop. }
  apply le_decode_bound in Hb. unfold len in Hlen. replace (length l) with 4 in Hb by lia. exact Hb.
Qed.

Lemma u32_at_splice v a x v' : splice v a (le_encode 4 x) = Ok v' → (0 ≤ x < 2 ^ 32)%Z →
  u32_at v' a = Ok x.
Proof.
  intros Hs Hx. unfold u32_at. apply slice_splice_same in Hs.
  change (len (le_encode 4 x)) with 4%Z in Hs. rewrite Hs. cbn [fmap outcome_fmap]. f_equal.
  by apply (le_decode_encode 4).
Qed.

Lemma u32_at_other v a d v' b : splice v a d = Ok v' → (b + 4 ≤ a ∨ a + len d ≤ b)%Z →
  u32_at v' b = u32_at v b.
Proof. intros Hs Hb. unfold u32_at. by rewrite (slice_splice_other _ _ _ _ _ _ Hs). Qed.

Lemma splice_len v a d v' : splice v a d = Ok v' → len v' = len v.
Proof. by intros ((_ & _ & ?) & _)%splice_inv. Qed.

Lemma splice_other v a d v' i : splice v a d = Ok v' → (0 ≤ i)%Z → (i < a ∨ a + len d ≤ i)%Z →
  v' !! Z.to_nat i = v !! Z.to_nat i.
Proof.
  intros (_ & Hl)%splice_inv Hi Hout. rewrite Hl by done.
  destruct (decide (i < a)%Z); zbool; done.
Qed.

Lemma len_le4 x : len (le_encode 4 x) = 4%Z.
Proof. unfold len. by rewrite length_le_encode. Qed.

Ltac v_field := unfold V_DATA_BASE, V_LM_LENGTH, V_NT_OFFSET, V_NT_LENGTH in *; rewrite ?len_le4; lia.

Lemma nt_blob_of_fields v o n : u32_at v V_NT_OFFSET = Ok o → u32_at v V_NT_LENGTH = Ok n →
  nt_blob_of v = slice v (V_DATA_BASE + o) (V_DATA_BASE + o + n).
Proof. intros Ho Hn. unfold nt_blob_of. by rewrite Hn, Ho. Qed.

(** the two ways the new hash is placed, after the LM length was set. *)
Lemma placed_in_place v o blob v' : (0 ≤ o)%Z →
  u32_at v V_NT_OFFSET = Ok o → u32_at v V_NT_LENGTH = Ok (len blob) →
  splice v (V_DATA_BASE + o) blob = Ok v' → nt_blob_of v' = Ok blob.
Proof.
  intros Hp Ho Hn Hs. rewrite (nt_blob_of_fields _ o (len blob)).
  - by eapply slice_splice_same.
  - rewrite (u32_at_other _ _ _ _ _ Hs); [done|v_field].
  - rewrite (u32_at_other _ _ _ _ _ Hs); [done|v_field].
Qed.

Lemma placed_at_end v blob : (V_DATA_BASE ≤ len v)%Z → (len v + len blob < 2 ^ 32)%Z →
  ∃ v' v'', splice (v ++ blob) V_NT_OFFSET (le_encode 4 (len v - V_DATA_BASE)) = Ok v' ∧
    splice v' V_NT_LENGTH (le_encode 4 (len blob)) = Ok v'' ∧ nt_blob_of v'' = Ok blob.
Proof.
  intros Hv Hmax. assert (len (v ++ blob) = len v + len blob)%Z as Hl by (unfold len; rewrite length_app; lia).
  assert (0 ≤ len blob)%Z by (unfold len; lia).
  destruct (splice_Ok (v ++ blob) V_NT_OFFSET (le_encode 4 (len v - V_DATA_BASE))) as [v1 Hs1]; [v_field..|].
  pose proof (splice_len _ _ _ _ Hs1) as L1.
  destruct (splice_Ok v1 V_NT_LENGTH (le_encode 4 (len blob))) as [v2 Hs2]; [v_field..|].
  exists v1, v2. split; [done|split; [done|]].
  rewrite (nt_blob_of_fields _ (len v - V_DATA_BASE) (len blob)).
  - rewrite (slice_splice_other _ _ _ _ _ _ Hs2), (slice_splice_other _ _ _ _ _ _ Hs1) by v_field.
    apply slice_eq; [v_field..|]. intros i Hi. rewrite lookup_app_r by (unfold len in *; v_field).
    f_equal. unfold len in *. lia.
  - rewrite (u32_at_other _ _ _ _ _ Hs2) by v_field. apply (u32_at_splice _ _ _ _ Hs1). v_field.
  - apply (u32_at_splice _ _ _ _ Hs2). v_field.
Qed.

Lemma patch_v_holds v blob :
  Forall byte_ok v → (V_DATA_BASE ≤ len v)%Z → (len v + len blob < 2 ^ 32)%Z →
  ∃ v', patch_v_with_nt_hash v blob = Ok v' ∧ nt_blob_of v' = Ok blob ∧
    ∀ i, (0 ≤ i < len v)%Z → ¬ nt_part v i → v' !! Z.to_nat i = v !! Z.to_nat i.
Proof.
  intros Hv Hlen Hmax.
  destruct (u32_at_Ok v V_NT_OFFSET) as (o & Ho & Hob); [done|v_field..|].
  destruct (u32_at_Ok v V_NT_LENGTH) as (n & Hn & Hnb); [done|v_field..|].
  destruct (splice_Ok v V_LM_LENGTH (le_encode 4 4)) as [v1 Hs1]; [v_field..|].
  pose proof (splice_len _ _ _ _ Hs1) as L1.
  assert (u32_at v1 V_NT_OFFSET = Ok o) as Ho1 by (rewrite (u32_at_other _ _ _ _ _ Hs1); [done|v_field]).
  assert (u32_at v1 V_NT_LENGTH = Ok n) as Hn1 by (rewrite (u32_at_other _ _ _ _ _ Hs1); [done|v_field]).
  unfold patch_v_with_nt_hash. rewrite (proj2 (Z.ltb_ge _ _)) by done.
  rewrite Hs1. cbn [mbind outcome_bind]. rewrite Hn1, Ho1. cbn [mbind outcome_bind]. rewrite L1.
  destruct (_ && _ && _) eqn:E; bool_solve.
  - destruct (splice_Ok v1 (V_DATA_BASE + o) blob) as [v2 Hs2]; [v_field..|].
    exists v2. split; [done|]. split; [apply (placed_in_place v1 o); [lia|congruence..]|].
    intros i Hi Hout. unfold nt_part in Hout.
    rewrite (splice_other _ _ _ _ i Hs2), (splice_other _ _ _ _ i Hs1); [done|lia| |lia|].
    + rewrite len_le4. lia.
    + destruct (decide (i < V_DATA_BASE + o ∨ V_DATA_BASE + o + len blob ≤ i)%Z); [done|].
      contradict Hout. right; right. exists o, n. repeat split; [done|done|lia..].
  - destruct (placed_at_end v1 blob) as (v2 & v3 & Hs2 & Hs3 & Hb); [lia..|]. exists v3.
    rewrite <-L1, Hs2. cbn [mbind outcome_bind]. split; [done|split; [done|]].
    intros i Hi Hout. unfold nt_part in Hout.
    rewrite (splice_other _ _ _ _ i Hs3), (splice_other _ _ _ _ i Hs2) by v_field.
    rewrite lookup_app_l by (unfold len in *; lia). apply (splice_other _ _ _ _ i Hs1); v_field.
Qed.

(** writing an NT hash into an account value succeeds on every value with a header,
    the value then holds exactly this hash, and every other byte of the old value but
    the length of the LM hash and the old NT hash is what it was. *)
Theorem patched_account_holds_hash v blob :
  Forall byte_ok v → (V_DATA_BASE ≤ len v)%Z → (len v + len blob < 2 ^ 32)%Z →
  ∃ v', patch_v_with_nt_hash v blob = Ok v' ∧ nt_blob_of v' = Ok blob ∧
    ∀ i, (0 ≤ i < len v)%Z → ¬ nt_part v i → v' !! Z.to_nat i = v !! Z.to_nat i.
Proof. apply patch_v_holds. Qed.

Lemma patched_account_holds_hash_witness :
  ∃ v', patch_v_with_nt_hash (replicate 208 0%Z) (replicate 20 7%Z) = Ok v' ∧
    nt_blob_of v' = Ok (replicate 20 7%Z) ∧
    ∀ i, (0 ≤ i < len (replicate 208 0%Z))%Z → ¬ nt_part (replicate 208 0%Z) i →
      v' !! Z.to_nat i = replicate 208 0%Z !! Z.to_nat i.
Proof.
  apply patched_account_holds_hash; [|by vm_compute|by vm_compute].
  apply Forall_replicate. unfold byte_ok. lia.
Defined.

(** ** RC4 *)
Lemma rc4_stream_involutive s i j data :
  rc4_stream s i j (rc4_stream s i j data) = data.
Proof.
  revert s i j. induction data as [|b data IH]; intros s i j; [done|]. cbn. rewrite IH.
  by rewrite Z.lxor_assoc, Z.lxor_nilpotent, Z.lxor_0_r.
Qed.

Lemma length_rc4_stream s i j data : length (rc4_stream s i j data) = length data.
Proof. revert s i j. induction data as [|b data IH]; intros s i j; cbn; [done|by rewrite IH]. Qed.

Lemma idx_lookup l i : i < length l → l !! i = Some (idx l i).
Proof. intros Hi. unfold idx. destruct (lookup_lt_is_Some_2 l i Hi) as [x ->]. done. Qed.

Lemma swap_Permutation s i j : i < length s → j < length s → swap s i j ≡ₚ s.
Proof.
  intros Hi Hj. unfold swap. apply (Permutation_insert_swap s j i (idx s j) (idx s i));
    by apply idx_lookup.
Qed.

Lemma land_255 x : Z.land x 255 = (x mod 256)%Z.
Proof. apply (Z.land_ones x 8). lia. Qed.

(** the table of RC4 is a permutation of the 256 bytes for every key, so that every
    table access of the cipher is in range. *)
Theorem rc4_table_permutation key : rc4_schedule key ≡ₚ (Z.of_nat <$> seq 0 256).
Proof.
  unfold rc4_schedule. assert (∀ l st, Forall (fun i => i < 256) l →
    st.1 ≡ₚ (Z.of_nat <$> seq 0 256) → (foldl (rc4_schedule_step key) st l).1 ≡ₚ (Z.of_nat <$> seq 0 256)) as Hl.
  { induction l as [|i l IH]; intros [s j] Hi Hs; [done|]. apply Forall_cons in Hi as [Hi Hl].
    apply IH; [done|]. cbn [rc4_schedule_step fst].
    assert (length s = 256) as Hlen by (by rewrite Hs).
    rewrite swap_Permutation; [done|lia|]. rewrite land_255, Hlen.
    pose proof (Z.mod_pos_bound (j + idx s i + idx key (i `mod` length key)) 256). lia. }
  apply Hl; [|done]. apply Forall_seq. lia.
Qed.

Lemma rc4_twice key data : key ≠ [] →
  ∃ enc, rc4_crypt key data = Ok enc ∧ length enc = length data ∧ rc4_crypt key enc = Ok data.
Proof.
  intros Hk. destruct key as [|k key]; [done|]. cbn [rc4_crypt]. eexists. split; [done|].
  split; [apply length_rc4_stream|]. by rewrite rc4_stream_involutive.
Qed.

(** deciphering with RC4 is enciphering again: applied twice with one key it returns
    the data, whatever the key, and it never changes their length. *)
Theorem rc4_round_trip key data : key ≠ [] →
  ∃ enc, rc4_crypt key data = Ok enc ∧ length enc = length data ∧ rc4_crypt key enc = Ok data.
Proof. apply rc4_twice. Qed.

Lemma rc4_round_trip_witness :
  ∃ enc, rc4_crypt [75; 101; 121]%Z [1; 2; 3]%Z = Ok enc ∧ length enc = length [1; 2; 3]%Z ∧
    rc4_crypt [75; 101; 121]%Z enc = Ok [1; 2; 3]%Z.
Proof. by apply rc4_round_trip. Defined.

(** the published test vector: key [Key], text [Plaintext]. *)
Example rc4_vector : rc4_crypt (ascii_bytes "Key") (ascii_bytes "Plaintext") =
  Ok [0xBB; 0xF3; 0x16; 0xE8; 0xD9; 0x40; 0xAF; 0x0A; 0xD3]%Z.
Proof. vm_compute. reflexivity. Qed.

(** ** The keys of DES *)
Lemma lor_disjoint a b n : (0 ≤ n)%Z → (0 ≤ b < 2 ^ n)%Z → Z.lor (Z.shiftl a n) b = (a * 2 ^ n + b)%Z.
Proof.
  intros Hn Hb. rewrite Z.shiftl_mul_pow2, <-Z.add_lor_land by done.
  assert (Z.land (a * 2 ^ n) b = 0%Z) as ->; [|lia].
  apply Z.bits_inj'. intros k Hk. rewrite Z.land_spec, Z.bits_0.
  destruct (decide (k < n)%Z); [by rewrite Z.mul_pow2_bits_low|].
  rewrite <-(Z.mod_small b (2 ^ n)), Z.mod_pow2_bits_high by lia. apply andb_false_r.
Qed.

(** the value of an eight-byte key without the lowest bit of each byte. *)
Definition key_bits (key : list Z) : Z := foldl (fun a x => (a * 128 + x / 2)%Z) 0%Z key.

Lemma shl8_land x n m : (0 ≤ n)%Z → (0 ≤ m)%Z → (m + n ≤ 8)%Z →
  shl8 (Z.land x (Z.ones m)) n = Z.shiftl (x mod 2 ^ m) n.
Proof.
  intros Hn Hm Hnm. unfold shl8. rewrite Z.land_ones by done. apply Z.mod_small.
  rewrite Z.shiftl_mul_pow2 by done. pose proof (Z.mod_pos_bound x (2 ^ m)).
  assert (2 ^ m * 2 ^ n ≤ 2 ^ 8)%Z by (rewrite <-Z.pow_add_r by done; apply Z.pow_le_mono_r; lia).
  nia.
Qed.

Lemma spread_byte x : (0 ≤ x < 128)%Z → Z.land (shl8 x 1) 254 = (2 * x)%Z.
Proof.
  intros Hx. unfold shl8. rewrite Z.shiftl_mul_pow2, Z.mod_small by lia.
  rewrite <-(Z.shiftl_mul_pow2 x 1) by done. change 254%Z with (Z.shiftl 127 1).
  rewrite <-Z.shiftl_land. change 127%Z with (Z.ones 7). rewrite Z.land_ones, Z.mod_small by lia.
  rewrite Z.shiftl_mul_pow2; lia.
Qed.

(** one byte of the spread: the low [m] bits of [a] above the high bits of [b]. *)
Lemma spread_part a b m : (1 ≤ m ≤ 6)%Z → byte_ok a → byte_ok b →
  Z.land (shl8 (Z.lor (shl8 (Z.land a (Z.ones m)) (7 - m)) (Z.shiftr b (m + 1))) 1) 254 =
  (2 * ((a mod 2 ^ m) * 2 ^ (7 - m) + b / 2 ^ (m + 1)))%Z.
Proof.
  unfold byte_ok. intros Hm Ha Hb.
  assert (b / 2 ^ (m + 1) < 2 ^ (7 - m))%Z as Hq.
  { apply Z.div_lt_upper_bound; [lia|]. rewrite <-Z.pow_add_r by lia.
    replace (m + 1 + (7 - m))%Z with 8%Z by lia. lia. }
  assert (0 ≤ b / 2 ^ (m + 1))%Z by (apply Z.div_pos; lia).
  rewrite shl8_land, Z.shiftr_div_pow2, lor_disjoint by lia. apply spread_byte.
  pose proof (Z.mod_pos_bound a (2 ^ m)).
  assert (2 ^ m * 2 ^ (7 - m) = 128)%Z.
  { rewrite <-Z.pow_add_r by lia. by replace (m + (7 - m))%Z with 7%Z by lia. }
  nia.
Qed.

Lemma transform_des_key_spec a b c d e f g : Forall byte_ok [a; b; c; d; e; f; g] →
  transform_des_key [a; b; c; d; e; f; g] = (Z.mul 2 <$>
    [a / 2; (a mod 2) * 64 + b / 4; (b mod 4) * 32 + c / 8; (c mod 8) * 16 + d / 16;
     (d mod 16) * 8 + e / 32; (e mod 32) * 4 + f / 64; (f mod 64) * 2 + g / 128; g mod 128])%Z.
Proof.
  rewrite !Forall_cons. intros (Ha & Hb & Hc & Hd & He & Hf & Hg & _). unfold transform_des_key.
  cbn [idx lookup list_lookup default fmap list_fmap]. unfold idx. cbn [lookup list_lookup default].
  unfold id. repeat f_equal.
  - rewrite Z.shiftr_div_pow2 by done. unfold byte_ok in Ha. apply spread_byte.
    split; [apply Z.div_pos; lia|]. apply Z.div_lt_upper_bound; lia.
  - exact (spread_part a b 1 ltac:(lia) Ha Hb).
  - exact (spread_part b c 2 ltac:(lia) Hb Hc).
  - exact (spread_part c d 3 ltac:(lia) Hc Hd).
  - exact (spread_part d e 4 ltac:(lia) Hd He).
  - exact (spread_part e f 5 ltac:(lia) He Hf).
  - exact (spread_part f g 6 ltac:(lia) Hf Hg).
  - change 127%Z with (Z.ones 7). rewrite Z.land_ones by lia. apply spread_byte, Z.mod_pos_bound. lia.
Qed.

(** the DES keys of an account hold the bits of the spread relative id in the upper
    seven bits of each byte: nothing of the input is lost, the lowest bit is clear and no
    parity is set. *)
Theorem des_key_bits input : length input = 7 → Forall byte_ok input →
  key_bits (transform_des_key input) = be_decode input ∧
  Forall (fun x => byte_ok x ∧ (x mod 2 = 0)%Z) (transform_des_key input) ∧
  length (transform_des_key input) = 8.
Proof.
  intros Hl Hb. do 7 (destruct input as [|? input]; [done|]). destruct input; [|done].
  rewrite transform_des_key_spec by done. rewrite !Forall_cons in Hb. unfold byte_ok in *.
  split; [|split; [|done]].
  - unfold key_bits, be_decode. cbn. Z.div_mod_to_equations. lia.
  - repeat apply Forall_cons_2; try apply Forall_nil_2; rewrite Z.mul_comm, Z.mod_mul by lia;
      (split; [Z.div_mod_to_equations; lia|done]).
Qed.

Lemma des_key_bits_witness :
  key_bits (transform_des_key [244; 1; 0; 0; 244; 1; 0]%Z) = be_decode [244; 1; 0; 0; 244; 1; 0]%Z ∧
  Forall (fun x => byte_ok x ∧ (x mod 2 = 0)%Z) (transform_des_key [244; 1; 0; 0; 244; 1; 0]%Z) ∧
  length (transform_des_key [244; 1; 0; 0; 244; 1; 0]%Z) = 8.
Proof.
  apply des_key_bits; [done|]. repeat constructor; done.
Defined.

(** ** Encrypted hashes *)

(** what the code relies on of the ciphers and the digest. *)
Class SamCratesLaws `{SamCrates} : Prop := {
  md5_length bs : length (md5 bs) = 16;
  des_block k b : length k = 8 → length b = 8 → Forall byte_ok b →
    length (des_encrypt k b) = 8 ∧ Forall byte_ok (des_encrypt k b);
  des_inverse k b : length k = 8 → length b = 8 → Forall byte_ok b →
    des_decrypt k (des_encrypt k b) = b;
  aes_blocks k iv p : length k = 16 → length iv = 16 →
    length (aes_pkcs7 k iv p) = (length p / 16 + 1) * 16;
  aes_inverse k iv p : length k = 16 → length iv = 16 → Forall byte_ok p →
    ∃ pad, aes_raw k iv (aes_pkcs7 k iv p) = Some (p ++ pad)
}.

Lemma slice_parts v l1 l2 l3 a b : v = l1 ++ l2 ++ l3 → a = len l1 → b = (len l1 + len l2)%Z →
  slice v a b = Ok l2.
Proof.
  intros -> -> ->. unfold slice, get_range, len. rewrite !length_app. zbool. cbn. f_equal.
  rewrite Nat2Z.id, drop_app_length. apply take_app_length'. lia.
Qed.

Section laws.
Context `{SamCratesLaws}.

Lemma derived_key_length rid : length (derive_des_keys rid).1 = 8 ∧ length (derive_des_keys rid).2 = 8.
Proof. done. Qed.

Lemma ecb_block k b : length b = 8 →
  des_ecb_encrypt k b = Ok (des_encrypt k b) ∧ des_ecb_decrypt k b = Ok (des_decrypt k b).
Proof. intros Hb. unfold des_ecb_encrypt, des_ecb_decrypt, len. by rewrite Hb. Qed.

Lemma des_hash_round_trip rid nt : length nt = 16 → Forall byte_ok nt →
  ∃ enc, des_encrypt_hash rid nt = Ok enc ∧ length enc = 16 ∧ Forall byte_ok enc ∧
    ∀ rest, des_decrypt_hash rid (enc ++ rest) = Ok nt.
Proof.
  intros Hl Hb. pose proof (derived_key_length rid) as [Hk1 Hk2].
  unfold des_encrypt_hash, des_decrypt_hash. destruct (derive_des_keys rid) as [k1 k2]. cbn in Hk1, Hk2.
  rewrite <-(take_drop 8 nt) in Hb. apply Forall_app in Hb as [Hb1 Hb2].
  assert (length (take 8 nt) = 8) as L1 by (rewrite length_take; lia).
  assert (length (drop 8 nt) = 8) as L2 by (rewrite length_drop; lia).
  destruct (des_block k1 _ Hk1 L1 Hb1) as [E1 B1]. destruct (des_block k2 _ Hk2 L2 Hb2) as [E2 B2].
  rewrite (slice_parts nt [] (take 8 nt) (drop 8 nt) 0 8) by (cbn [app]; rewrite ?take_drop; unfold len; rewrite ?L1; done).
  cbn [mbind outcome_bind]. rewrite (proj1 (ecb_block k1 _ L1)). cbn [mbind outcome_bind].
  rewrite (slice_parts nt (take 8 nt) (drop 8 nt) [] 8 (len nt))
    by (rewrite ?app_nil_r, ?take_drop; unfold len; rewrite ?L1, ?L2; rewrite ?Hl; done).
  cbn [mbind outcome_bind]. rewrite (proj1 (ecb_block k2 _ L2)). cbn [mbind outcome_bind].
  eexists. split; [done|]. rewrite length_app, E1, E2. split; [done|split; [by apply Forall_app|]].
  intros rest.
  rewrite (slice_parts _ [] (des_encrypt k1 (take 8 nt)) (des_encrypt k2 (drop 8 nt) ++ rest) 0 8)
    by (rewrite <-?app_assoc; unfold len; rewrite ?E1; done).
  cbn [mbind outcome_bind]. rewrite (proj2 (ecb_block k1 _ E1)). cbn [mbind outcome_bind].
  rewrite (slice_parts _ (des_encrypt k1 (take 8 nt)) (des_encrypt k2 (drop 8 nt)) rest 8 16)
    by (rewrite <-?app_assoc; unfold len; rewrite ?E1, ?E2; done).
  cbn [mbind outcome_bind]. rewrite (proj2 (ecb_block k2 _ E2)). cbn [mbind outcome_bind].
  by rewrite !des_inverse, take_drop.
Qed.

Lemma aes_hash_round_trip k salt enc : length k = 16 → length salt = 16 → length enc = 16 →
  Forall byte_ok enc →
  ∃ c pad, aes_cbc_encrypt k salt enc = Ok c ∧ length c = 32 ∧ aes_cbc_decrypt k salt c = Ok (enc ++ pad).
Proof.
  intros Lk Ls Le Be. destruct (aes_inverse k salt enc Lk Ls Be) as [pad Hpad].
  pose proof (aes_blocks k salt enc Lk Ls) as La. rewrite Le in La. cbn in La.
  exists (aes_pkcs7 k salt enc), pad. unfold aes_cbc_encrypt, aes_cbc_decrypt, len.
  rewrite Lk, Ls, La, Hpad. done.
Qed.

Lemma first_16 hboot : 16 ≤ length hboot →
  length (take 16 hboot) = 16 ∧ slice hboot 0 16 = Ok (take 16 hboot).
Proof.
  intros Hh. assert (length (take 16 hboot) = 16) as L16 by (rewrite length_take; lia). split; [done|].
  apply (slice_parts _ [] _ (drop 16 hboot)); cbn [app]; rewrite ?take_drop; unfold len; rewrite ?L16; done.
Qed.

Lemma nt_hash_decrypts rid nt hboot salt (aes_style : bool) :
  length nt = 16 → Forall byte_ok nt → 16 ≤ length hboot → length salt = 16 →
  ∃ blob, encrypt_nt_hash rid nt hboot salt aes_style = Ok blob ∧
    length blob = (if aes_style then 56 else 20) ∧
    decrypt_nt_hash rid blob hboot aes_style = Ok nt.
Proof.
  intros Hl Hb Hh Hs. destruct (des_hash_round_trip rid nt Hl Hb) as (enc & Henc & Le & Be & Hdec).
  destruct (first_16 hboot Hh) as [L16 Hk].
  unfold encrypt_nt_hash, decrypt_nt_hash, rc4_hash_key. rewrite Henc, Hk. cbn [mbind outcome_bind].
  destruct aes_style.
  - destruct (aes_hash_round_trip _ salt enc L16 Hs Le Be) as (c & pad & -> & Lc & Hc).
    cbn [mbind outcome_bind]. eexists. split; [done|]. set (header := le_encode 2 0 ++ le_encode 2 2 ++ le_encode 4 16).
    replace (le_encode 2 0 ++ _) with (header ++ salt ++ c) by (unfold header; by rewrite <-!app_assoc).
    assert (length header = 8) as Lh by done. rewrite !length_app, Lh, Hs, Lc. split; [done|].
    rewrite (proj2 (Z.ltb_ge _ _)) by (unfold len; rewrite !length_app; lia).
    rewrite (slice_parts _ header salt c 8 24) by (unfold len; rewrite ?Lh, ?Hs; done). cbn [mbind outcome_bind].
    rewrite (slice_parts _ (header ++ salt) c [] 24 (len (header ++ salt ++ c)))
      by (rewrite ?app_nil_r, <-?app_assoc; unfold len; rewrite ?length_app, ?Lh, ?Hs, ?Lc; done).
    cbn [mbind outcome_bind]. rewrite Hc. cbn [mbind outcome_bind].
    rewrite (slice_parts (enc ++ pad) [] enc pad 0 16) by (unfold len; rewrite ?Le; done). cbn [mbind outcome_bind].
    specialize (Hdec []). by rewrite app_nil_r in Hdec.
  - set (key := md5 _). assert (key ≠ []) as Hne.
    { intros E. pose proof (md5_length (take 16 hboot ++ le_encode 4 rid ++ NTPASSWORD)) as L.
      fold key in L. by rewrite E in L. }
    destruct (rc4_twice key enc Hne) as (c & -> & Lc & Hc). cbn [mbind outcome_bind].
    eexists. split; [done|]. rewrite Le in Lc. set (header := le_encode 2 0 ++ le_encode 2 1).
    replace (le_encode 2 0 ++ _) with (header ++ c ++ []) by (unfold header; by rewrite app_nil_r, <-!app_assoc).
    assert (length header = 4) as Lh by done. rewrite !length_app, Lh, Lc. split; [done|].
    rewrite (proj2 (Z.ltb_ge _ _)) by (unfold len; rewrite !length_app; lia).
    rewrite (slice_parts _ header c [] 4 20) by (unfold len; rewrite ?Lh, ?Lc; done). cbn [mbind outcome_bind].
    fold key. rewrite Hc. cbn [mbind outcome_bind]. specialize (Hdec []). by rewrite app_nil_r in Hdec.
Qed.

(** an NT hash encrypted for an account decrypts to itself under the same boot key
    and relative id, in both formats, and the stored value has the size of its format. *)
Theorem nt_hash_round_trip rid nt hboot salt (aes_style : bool) :
  length nt = 16 → Forall byte_ok nt → 16 ≤ length hboot → length salt = 16 →
  ∃ blob, encrypt_nt_hash rid nt hboot salt aes_style = Ok blob ∧
    length blob = (if aes_style then 56 else 20) ∧
    decrypt_nt_hash rid blob hboot aes_style = Ok nt.
Proof. apply nt_hash_decrypts. Qed.
End laws.

(** ciphers that keep the text, to run the code on. *)
#[local] Instance plain_crates : SamCrates := {|
  md4 _ := replicate 16 4%Z;
  md5 _ := replicate 16 5%Z;
  des_encrypt _ b := b;
  des_decrypt _ b := b;
  aes_pkcs7 _ _ p := p ++ replicate ((length p / 16 + 1) * 16 - length p) 16%Z;
  aes_raw _ _ c := Some c |}.

Lemma plain_laws : SamCratesLaws.
Proof.
  split; try done.
  - intros k iv p _ _. cbn [aes_pkcs7 plain_crates]. rewrite length_app, length_replicate.
    pose proof (Nat.div_mod_eq (length p) 16). pose proof (Nat.mod_upper_bound (length p) 16). lia.
  - intros k iv p _ _ _. cbn. eauto.
Qed.

Lemma nt_hash_round_trip_witness :
  ∃ blob, encrypt_nt_hash 500 (replicate 16 9%Z) (replicate 32 1%Z) (replicate 16 2%Z) true = Ok blob ∧
    length blob = 56 ∧ decrypt_nt_hash 500 blob (replicate 32 1%Z) true = Ok (replicate 16 9%Z).
Proof.
  pose proof plain_laws. apply (nt_hash_round_trip 500 (replicate 16 9%Z) (replicate 32 1%Z) (replicate 16 2%Z) true);
    [done| |cbn; lia|done]. apply Forall_replicate. unfold byte_ok. lia.
Defined.

Lemma short_key_panics `{SamCrates} rid nt hboot salt aes_style :
  length nt = 16 → length hboot < 16 → encrypt_nt_hash rid nt hboot salt aes_style = Panic.
Proof.
  intros Hl Hh. unfold encrypt_nt_hash, rc4_hash_key.
  assert (slice hboot 0 16 = Panic) as ->.
  { unfold slice, get_range, len. zbool. done. }
  assert (∃ enc, des_encrypt_hash rid nt = Ok enc) as [enc ->]; [|by destruct aes_style].
  unfold des_encrypt_hash. destruct (derive_des_keys rid) as [k1 k2].
  destruct (slice_Ok nt 0 8) as [a Ha]; [unfold len; lia..|]. rewrite Ha. cbn [mbind outcome_bind].
  apply slice_inv in Ha as (_ & La & _). rewrite (proj1 (ecb_block k1 a ltac:(unfold len in La; lia))).
  cbn [mbind outcome_bind]. destruct (slice_Ok nt 8 (len nt)) as [b Hb]; [unfold len; lia..|].
  rewrite Hb. cbn [mbind outcome_bind]. apply slice_inv in Hb as (_ & Lb & _).
  rewrite (proj1 (ecb_block k2 b ltac:(unfold len in Lb; lia))). cbn. eauto.
Qed.

(** with fewer than sixteen bytes of hashed boot key the encryption does not answer:
    the slice of the key panics, in both formats. *)
Theorem short_boot_key_panics `{SamCrates} rid nt hboot salt aes_style :
  length nt = 16 → length hboot < 16 → encrypt_nt_hash rid nt hboot salt aes_style = Panic.
Proof. apply short_key_panics. Qed.

Lemma short_boot_key_panics_witness :
  encrypt_nt_hash 500 (replicate 16 9%Z) [] (replicate 16 2%Z) true = Panic.
Proof. apply short_boot_key_panics; [done|cbn; lia]. Defined.

(** a domain value whose encrypted key has the length zero gives such a boot key. *)
Example empty_key_data :
  hashed_bootkey (replicate 104 0%Z ++ 2%Z :: replicate 31 0%Z) (replicate 16 1%Z) = Ok [].
Proof. vm_compute. reflexivity. Qed.

(** ** The depth of key lists *)
Lemma outcome_foldl_mono {E A B} (f g : A → B → outcome E A) l a r :
  (∀ a x r, f a x = r → r ≠ Panic → g a x = r) →
  outcome_foldl f a l = r → r ≠ Panic → outcome_foldl g a l = r.
Proof.
  intros Hfg. revert a. induction l as [|x l IH]; intros a Hf Hr; [done|]. cbn in *.
  destruct (f a x) as [b|e|] eqn:Ef; cbn in Hf; [|by rewrite (Hfg _ _ _ Ef)|congruence].
  rewrite (Hfg _ _ _ Ef) by done. cbn. by apply IH.
Qed.

(** what a deeper stack gives is what a shallower one gave, when that returned. *)
Lemma deeper_stack n m hive off r : n ≤ m →
  list_subkeys_at n hive off = r → r ≠ Panic → list_subkeys_at m hive off = r.
Proof.
  revert m off r. induction n as [|n IH]; intros m off r Hm Hn Hr; [by destruct Hr|].
  destruct m as [|m]; [lia|]. cbn [list_subkeys_at] in *.
  destruct (get_range hive off (len hive)) as [d|]; [|done]. cbn [or_format mbind outcome_bind] in *.
  destruct (_ <? _)%Z; [done|]. destruct (u16_at d 2) as [count|e|]; [|done..]. cbn [mbind outcome_bind] in *.
  destruct (has_sig d "lf" || has_sig d "lh"); [done|]. destruct (has_sig d "li"); [done|].
  destruct (has_sig d "ri"); [|done].
  eapply outcome_foldl_mono; [|done|done]. intros a i s Ha Hs. cbn in *.
  destruct (u32_at d (4 + i * 4)) as [o|e|]; [|done..]. cbn in *.
  destruct (list_subkeys_at n hive (cell_data_offset o)) as [l|e|] eqn:El; [| |by rewrite <-Ha in Hs].
  - by rewrite (IH m _ _ ltac:(lia) El).
  - by rewrite (IH m _ _ ltac:(lia) El).
Qed.

(** an index of key lists whose first entry is the index itself. *)
Definition list_in_itself (hive : list Z) (off : Z) : Prop :=
  ∃ d count, get_range hive off (len hive) = Some d ∧ (8 ≤ len d)%Z ∧ has_sig d "ri" = true ∧
    u16_at d 2 = Ok count ∧ (0 < count)%Z ∧ cell_data_offset <$> u32_at d 4 = Ok off.

Lemma sig_distinct d s t : has_sig d s = true → ascii_bytes s ≠ ascii_bytes t → has_sig d t = false.
Proof. unfold has_sig. intros Hs%bool_decide_eq_true Hne. apply bool_decide_eq_false. congruence. Qed.

(** a hive in which an index of key lists refers to itself is never read to the end:
    no depth of the stack is enough. *)
Theorem key_list_cycle hive off : list_in_itself hive off →
  ∀ stack, list_subkeys_at stack hive off = Panic.
Proof.
  intros (d & count & Hd & Hlen & Hsig & Hcount & Hpos & Hoff) stack.
  induction stack as [|stack IH]; [done|]. cbn [list_subkeys_at]. rewrite Hd. cbn [or_format mbind outcome_bind].
  rewrite (proj2 (Z.ltb_ge _ _)) by lia. rewrite Hcount. cbn [mbind outcome_bind].
  rewrite (sig_distinct _ _ "lf" Hsig), (sig_distinct _ _ "lh" Hsig), (sig_distinct _ _ "li" Hsig), Hsig by done.
  cbn [orb]. rewrite seqZ_cons by done. cbn [outcome_foldl]. change (4 + 0 * 4)%Z with 4%Z.
  destruct (u32_at d 4) as [o|e|]; [|done..]. injection Hoff as Hoff. cbn [mbind outcome_bind]. by rewrite Hoff, IH.
Qed.

(** ** A whole hive *)

(** cells of a hive, written at their offsets. *)
Definition nk_cell (subkeys count values vcount class class_len : Z) (name : string) : list Z :=
  ascii_bytes "nk" ++ le_encode 2 32 ++ replicate 16 0%Z ++ le_encode 4 count ++ replicate 4 0%Z ++
  le_encode 4 subkeys ++ replicate 4 0%Z ++ le_encode 4 vcount ++ le_encode 4 values ++
  replicate 4 0%Z ++ le_encode 4 class ++ replicate 20 0%Z ++
  le_encode 2 (Z.of_nat (String.length name)) ++ le_encode 2 class_len ++ ascii_bytes name.
Definition li_cell (offs : list Z) : list Z :=
  ascii_bytes "li" ++ le_encode 2 (Z.of_nat (length offs)) ++ mjoin (le_encode 4 <$> offs).
Definition ri_cell (offs : list Z) : list Z :=
  ascii_bytes "ri" ++ le_encode 2 (Z.of_nat (length offs)) ++ mjoin (le_encode 4 <$> offs).
Definition write_cells (cells : list (Z * list Z)) : list Z :=
  foldl (fun h c => list_inserts (Z.to_nat (cell_data_offset c.1)) c.2 h)
    (ascii_bytes "regf" ++ replicate (4096 + 2048) 0%Z) cells.

Definition sample_hive : list Z := write_cells
  [ (0, nk_cell 100 1 0 0 0 0 "ROOT"); (100, ri_cell [120]); (120, li_cell [200]);
    (200, nk_cell 300 1 0 0 0 0 "ControlSet001"); (300, li_cell [320]);
    (320, nk_cell 420 1 0 0 0 0 "Control"); (420, li_cell [440]);
    (440, nk_cell 540 4 0 0 0 0 "Lsa"); (540, li_cell [600; 700; 800; 900]);
    (600, nk_cell 0 0 0 0 1000 16 "JD"); (1000, utf16_bytes (encode_utf16 "00010203"));
    (700, nk_cell 0 0 0 0 1020 16 "Skew1"); (1020, utf16_bytes (encode_utf16 "04050607"));
    (800, nk_cell 0 0 0 0 1040 16 "GBG"); (1040, utf16_bytes (encode_utf16 "08090a0B"));
    (900, nk_cell 0 0 0 0 1060 16 "Data"); (1060, utf16_bytes (encode_utf16 "0c0d0e0f")) ]%Z.

(** the boot key of a hive without a [Select] key, in the order of the transform. *)
Example sample_boot_key :
  extract_bootkey 2 "SYSTEM" (inr sample_hive) = Ok [8; 5; 4; 2; 11; 9; 13; 3; 0; 6; 1; 12; 14; 10; 15; 7]%Z.
Proof. vm_compute. reflexivity. Qed.

Definition cyclic_hive : list Z :=
  write_cells [(0, nk_cell 100 1 0 0 0 0 "ROOT"); (100, ri_cell [100])]%Z.

Lemma key_list_cycle_witness : ∀ stack, list_subkeys_at stack cyclic_hive 4200 = Panic.
Proof.
  apply key_list_cycle. exists (drop 4200 cyclic_hive), 1%Z. repeat split; vm_compute; done.
Defined.

(** a list that promises more keys than it holds is not an error but a panic. *)
Definition short_list_hive : list Z :=
  write_cells [(0, nk_cell 2030 1 0 0 0 0 "ROOT"); (2030, take 8 (li_cell [0; 0; 0; 0; 0]))]%Z.
Example short_list_panics : extract_bootkey 10 "SYSTEM" (inr short_list_hive) = Panic.
Proof. vm_compute. reflexivity. Qed.
