(* ===== verification/Hive.v ===== *)
(** * Writing registry hives

    [src/guestfs/hivex_ffi.rs] and [src/guestfs/sam_password.rs].  The library libhivex is
    the class [Hivex]: an open hive, its calls as the foreign functions return them (zero
    for no node, a flag for the result code), and what a commit leaves in the file.  Hive
    files are a map from host paths to their contents; a hive that is closed without a
    commit changes nothing.  Buffers that C frees are values. *)
From stdpp Require Import base gmap strings list list_numbers.
From Stdlib Require Import ZArith Lia Ascii.
From S2P Require Import Prelude RustStr DiskReader Partition Filesystem Executor Qga Sam.

Class Hivex := {
  hive_file : Type;                                    (** the contents of a hive file *)
  hive_bytes : hive_file → list Z;                     (** its bytes *)
  hive : Type;                                         (** an open hive *)
  hivex_open : option hive_file → option hive;         (** [None]: the null pointer *)
  hivex_root : hive → Z;
  hivex_node_get_child : hive → Z → string → Z;
  hivex_node_add_child : hive → Z → string → hive * Z;
  hivex_node_children : hive → Z → option (list Z);
  hivex_node_name : hive → Z → option (list Z);
  hivex_node_delete_child : hive → Z → hive * bool;
  hivex_node_get_value : hive → Z → string → Z;
  hivex_value_value : hive → Z → option (Z * list Z);
  hivex_value_type : hive → Z → option Z;
  hivex_node_values : hive → Z → option (list Z);
  hivex_value_key : hive → Z → option (list Z);
  hivex_node_set_value : hive → Z → string → Z → list Z → hive * bool;
  hivex_commit : hive → option hive_file → option hive_file * bool;
  last_os_error : string
}.

Section hives.
Context `{Hivex}.

Definition hosts : Type := gmap string hive_file.

Definition REG_SZ : Z := 1.
Definition REG_EXPAND_SZ : Z := 2.
Definition REG_BINARY : Z := 3.
Definition REG_DWORD : Z := 4.
Definition REG_MULTI_SZ : Z := 7.
Definition REG_QWORD : Z := 11.

(** [CString::new]: a text without the byte zero. *)
Definition has_nul (s : string) : bool := contains_char (ascii_of_byte 0) s.
Definition cstring (s msg : string) : outcome Error string :=
  if has_nul s then Err (InvalidOperation msg) else Ok s.

Definition path_to_cstring (path : string) : outcome Error string :=
  cstring path "hive path contains NUL byte".

Definition open_write (w : hosts) (path : string) : outcome Error hive :=
  c ← path_to_cstring path;
  match hivex_open (w !! c) with
  | None => Err (CommandFailed ("hivex_open(" +:+ path +:+ ") failed: " +:+ last_os_error))
  | Some h => Ok h
  end.

Definition commit (w : hosts) (path : string) (h : hive) : hosts * outcome Error unit :=
  let '(file, rc) := hivex_commit h (w !! path) in
  let w := partial_alter (fun _ => file) path w in
  if (rc : bool) then (w, Ok tt) else (w, Err (CommandFailed ("hivex_commit failed: " +:+ last_os_error))).

(** the value of a computation on an open hive, committed when there is one. *)
Definition then_commit {A} (w : hosts) (path : string) (o : outcome Error (hive * A)) : hosts * outcome Error A :=
  match o with
  | Ok (h, a) =>
      let '(w, r) := commit w path h in
      (w, match r with Ok _ => Ok a | Err e => Err e | Panic => Panic end)
  | Err e => (w, Err e)
  | Panic => (w, Panic)
  end.

(** ** Data of values *)
Definition utf16le_nul (s : string) : list Z := utf16_bytes (encode_utf16 s) ++ [0; 0]%Z.

(** [uN::from_str_radix]: an optional plus sign and at least one digit, in range. *)
Definition digit_of (radix b : Z) : option Z :=
  match from_hex b with Some d => if (d <? radix)%Z then Some d else None | None => None end.
Fixpoint radix_digits (radix bound acc : Z) (bs : list Z) : option Z :=
  match bs with
  | [] => Some acc
  | b :: bs =>
      match digit_of radix b with
      | Some d => if (acc * radix + d <? bound)%Z then radix_digits radix bound (acc * radix + d) bs else None
      | None => None
      end
  end.
Definition from_str_radix (radix bound : Z) (bs : list Z) : option Z :=
  match bs with
  | [] => None
  | 43%Z :: (_ :: _) as ds => radix_digits radix bound 0 (tl bs)
  | _ => radix_digits radix bound 0 bs
  end.

Definition strip_prefix (p s : string) : option string :=
  if starts_with p s then Some (str_drop (String.length p) s) else None.

Definition registry_u64 (data : json) : outcome Error Z :=
  match as_u64 data with
  | Some n => Ok n
  | None =>
      match as_str data with
      | Some s =>
          let s := trim s in
          let parsed :=
            match (match strip_prefix "0x" s with Some h => Some h | None => strip_prefix "0X" s end) with
            | Some hex => from_str_radix 16 u64_max (bytes_of_string hex)
            | None => from_str_radix 10 u64_max (bytes_of_string s)
            end in
          match parsed with
          | Some n => Ok n
          | None => Err (InvalidOperation ("invalid integer registry data: " +:+ s))
          end
      | None => Err (InvalidOperation "expected integer data")
      end
  end.

(** the two bytes at [i] and the boundaries the slice [clean[i..i + 2]] needs. *)
Fixpoint hex_bytes (bs : list Z) : outcome Error (list Z) :=
  match bs with
  | a :: b :: rest =>
      if is_cont a || (match rest with c :: _ => is_cont c | [] => false end) then Panic
      else match from_str_radix 16 256 [a; b] with
           | None => Err (InvalidOperation "invalid hex in binary data")
           | Some n => out ← hex_bytes rest; Ok (n :: out)
           end
  | _ => Ok []
  end.

Definition is_whitespace (c : Z) : bool := existsb (String.eqb (string_of_chars [c])) white_space_chars.

Fixpoint byte_array (l : list json) : outcome Error (list Z) :=
  match l with
  | [] => Ok []
  | v :: l =>
      match as_u64 v with
      | Some n => if (n <=? 255)%Z then out ← byte_array l; Ok (n :: out)
                  else Err (InvalidOperation "binary byte out of range")
      | None => Err (InvalidOperation "binary byte out of range")
      end
  end.

Definition decode_binary (data : json) : outcome Error (list Z) :=
  match as_array data with
  | Some arr => byte_array arr
  | None =>
      match as_str data with
      | Some s =>
          let clean := mjoin (utf8_of <$> List.filter (fun c => negb (is_whitespace c)) (chars s)) in
          if negb (len clean mod 2 =? 0)%Z then Err (InvalidOperation "odd-length hex binary data")
          else hex_bytes clean
      | None => Err (InvalidOperation "expected byte array or hex string for REG_BINARY")
      end
  end.

Fixpoint multi_sz (items : list json) : outcome Error (list Z) :=
  match items with
  | [] => Ok [0; 0]%Z
  | item :: items =>
      match as_str item with
      | Some s => rest ← multi_sz items; Ok (utf16le_nul s ++ rest)
      | None => Err (InvalidOperation "MULTI_SZ items must be strings")
      end
  end.

Definition encode_value (data_type : string) (data : json) : outcome Error (Z * list Z) :=
  let norm := str_map char_upper (trim data_type) in
  let norm := default norm (strip_prefix "REG_" norm) in
  let ty s := String.eqb norm s in
  if ty "SZ" || ty "STRING" || ty "EXPAND_SZ" || ty "EXPANDSTRING" then
    match as_str data with
    | None => Err (InvalidOperation "expected string data")
    | Some s => Ok (if starts_with "EXPAND" norm then REG_EXPAND_SZ else REG_SZ, utf16le_nul s)
    end
  else if ty "DWORD" || ty "DWORD_LITTLE_ENDIAN" then
    n ← registry_u64 data; Ok (REG_DWORD, le_encode 4 n)
  else if ty "QWORD" then n ← registry_u64 data; Ok (REG_QWORD, le_encode 8 n)
  else if ty "MULTI_SZ" || ty "MULTISTRING" then
    match as_array data with
    | None => Err (InvalidOperation "expected array for MULTI_SZ")
    | Some arr => bytes ← multi_sz arr; Ok (REG_MULTI_SZ, bytes)
    end
  else if ty "BINARY" then bytes ← decode_binary data; Ok (REG_BINARY, bytes)
  else Err (InvalidOperation ("unsupported registry data type: " +:+ norm)).

(** ** Values of an offline hive *)
Definition root_node (h : hive) (msg : string) : outcome Error Z :=
  if (hivex_root h =? 0)%Z then Err (CommandFailed msg) else Ok (hivex_root h).

Definition descend_or_create (st : hive * Z) (component : string) : outcome Error (hive * Z) :=
  let '(h, node) := st in
  name ← cstring component ("registry key component has NUL byte: " +:+ component);
  let child := hivex_node_get_child h node name in
  if negb (child =? 0)%Z then Ok (h, child)
  else let '(h, created) := hivex_node_add_child h node name in
       if (created =? 0)%Z
       then Err (CommandFailed ("hivex_node_add_child(" +:+ component +:+ ") failed: " +:+ last_os_error))
       else Ok (h, created).

Definition set_value (h : hive) (node : Z) (key : string) (t : Z) (data : list Z) : outcome Error hive :=
  let '(h, rc) := hivex_node_set_value h node key t data in
  if (rc : bool) then Ok h
  else Err (CommandFailed ("hivex_node_set_value(" +:+ key +:+ ") failed: " +:+ last_os_error)).

Definition set_registry_value (w : hosts) (hive_file : string) (subpath : list string)
    (value_name data_type : string) (new_data : json) : hosts * outcome Error unit :=
  then_commit w hive_file (
    encoded ← encode_value data_type new_data;
    h ← open_write w hive_file;
    root ← root_node h ("hivex_root failed: " +:+ last_os_error);
    at_ ← outcome_foldl descend_or_create (h, root) subpath;
    key ← cstring value_name ("registry value name has NUL byte: " +:+ value_name);
    h ← set_value at_.1 at_.2 key encoded.1 encoded.2;
    Ok (h, tt)).

Fixpoint navigate (h : hive) (start : Z) (subpath : list string) : option Z :=
  match subpath with
  | [] => Some start
  | comp :: subpath =>
      if has_nul comp then None
      else let child := hivex_node_get_child h start comp in
           if (child =? 0)%Z then None else navigate h child subpath
  end.

Definition get_registry_value (w : hosts) (hive_file : string) (subpath : list string) (value_name : string)
    : outcome Error (option (Z * list Z)) :=
  h ← open_write w hive_file;
  root ← root_node h "hivex_root failed";
  match navigate h root subpath with
  | None => Ok None
  | Some node =>
      key ← cstring value_name ("registry value name has NUL byte: " +:+ value_name);
      let value := hivex_node_get_value h node key in
      Ok (if (value =? 0)%Z then None else hivex_value_value h value)
  end.

Definition registry_key_exists (w : hosts) (hive_file : string) (subpath : list string) : outcome Error bool :=
  h ← open_write w hive_file;
  root ← root_node h "hivex_root failed";
  Ok (bool_decide (is_Some (navigate h root subpath))).

Definition split_last (l : list string) : option (string * list string) :=
  match reverse l with [] => None | leaf :: parents => Some (leaf, reverse parents) end.

Definition delete_registry_key (w : hosts) (hive_file : string) (subpath : list string)
    : hosts * outcome Error bool :=
  match split_last subpath with
  | None => (w, Err (InvalidOperation "delete_registry_key: subpath must be non-empty"))
  | Some (leaf, parent_path) =>
      match (h ← open_write w hive_file; root ← root_node h "hivex_root failed"; Ok (h, root)) with
      | Err e => (w, Err e)
      | Panic => (w, Panic)
      | Ok (h, root) =>
          match navigate h root parent_path with
          | None => (w, Ok false)
          | Some parent =>
              match cstring leaf ("registry key component has NUL byte: " +:+ leaf) with
              | Err e => (w, Err e)
              | Panic => (w, Panic)
              | Ok name =>
                  let child := hivex_node_get_child h parent name in
                  if (child =? 0)%Z then (w, Ok false)
                  else let '(h, rc) := hivex_node_delete_child h child in
                       if (rc : bool) then then_commit w hive_file (Ok (h, true)) else (w, Ok false)
              end
          end
      end
  end.

Definition list_registry_value_names (w : hosts) (hive_file : string) (subpath : list string)
    : outcome Error (list string) :=
  h ← open_write w hive_file;
  root ← root_node h "hivex_root failed";
  Ok (match navigate h root subpath with
      | None => []
      | Some node =>
          omap (fun v => from_utf8_lossy <$> hivex_value_key h v) (default [] (hivex_node_values h node))
      end).

(** ** Device keys *)
Definition device_matches (h : hive) (needles : list string) (dev : Z) : bool :=
  let name := str_map char_upper (default "" (from_utf8_lossy <$> hivex_node_name h dev)) in
  existsb (fun n => contains n name) needles.

(** the loop over device keys; [act] changes the hive and counts. *)
Definition device_loop (act : hive → Z → hive * nat) (needles : list string) (st : hive * nat) (dev : Z) : hive * nat :=
  let '(h, n) := st in
  if device_matches h needles dev then let '(h, k) := act h dev in (h, n + k) else (h, n).

Definition on_devices (w : hosts) (hive_file control_set : string) (hwid_needles : list string)
    (act : hive → Z → hive * nat) : hosts * outcome Error nat :=
  let needles := str_map char_upper <$> hwid_needles in
  match (h ← open_write w hive_file; root ← root_node h "hivex_root failed"; Ok (h, root)) with
  | Err e => (w, Err e)
  | Panic => (w, Panic)
  | Ok (h, root) =>
      match navigate h root [control_set; "Enum"; "PCI"] with
      | None => (w, Ok 0)
      | Some pci =>
          then_commit w hive_file
            (Ok (foldl (device_loop act needles) (h, 0) (default [] (hivex_node_children h pci))))
      end
  end.

Definition flag_instance (st : hive * nat) (inst : Z) : hive * nat :=
  let '(h, n) := st in
  let '(h, rc) := hivex_node_set_value h inst "ConfigFlags" REG_DWORD (le_encode 4 32) in
  (h, if (rc : bool) then S n else n).
Definition flag_instances (h : hive) (dev : Z) : hive * nat :=
  foldl flag_instance (h, 0) (default [] (hivex_node_children h dev)).
Definition delete_device (h : hive) (dev : Z) : hive * nat :=
  let '(h, rc) := hivex_node_delete_child h dev in (h, if (rc : bool) then 1 else 0).

Definition set_configflags_reinstall (w : hosts) (hive_file control_set : string) (hwid_needles : list string)
    : hosts * outcome Error nat := on_devices w hive_file control_set hwid_needles flag_instances.
Definition delete_device_nodes (w : hosts) (hive_file control_set : string) (hwid_needles : list string)
    : hosts * outcome Error nat := on_devices w hive_file control_set hwid_needles delete_device.

(** ** Accounts of the SAM *)
Definition sam_open (w : hosts) (path : string) : outcome Error hive :=
  c ← cstring path ("path has NUL: " +:+ path);
  match hivex_open (w !! c) with
  | None => Err (CommandFailed ("hivex_open(" +:+ path +:+ ") failed: " +:+ last_os_error))
  | Some h => Ok h
  end.

Definition sam_navigate (h : hive) (path : list string) : outcome Error Z :=
  root ← root_node h "hivex_root failed";
  outcome_foldl (fun node component =>
    name ← cstring component ("registry path has NUL: " +:+ component);
    let child := hivex_node_get_child h node name in
    if (child =? 0)%Z then Err (InvalidOperation ("SAM path missing component '" +:+ component +:+ "'"))
    else Ok child) root path.

Definition get_binary_value (h : hive) (node : Z) (key : string) : outcome Error (list Z) :=
  key_c ← cstring key ("value name has NUL: " +:+ key);
  let val := hivex_node_get_value h node key_c in
  if (val =? 0)%Z then Err (InvalidOperation ("SAM value '" +:+ key +:+ "' not found"))
  else match hivex_value_value h val with
       | None => Err (CommandFailed ("hivex_value_value(" +:+ key +:+ ") failed: " +:+ last_os_error))
       | Some (_, bytes) => Ok bytes
       end.

Definition set_binary_value (h : hive) (node : Z) (key : string) (data : list Z) : outcome Error hive :=
  key_c ← cstring key ("value name has NUL: " +:+ key);
  set_value h node key_c REG_BINARY data.

(** the relative id is the type of the default value of the key with the user's name. *)
Definition lookup_rid (h : hive) (username : string) : outcome Error Z :=
  names ← sam_navigate h ["SAM"; "Domains"; "Account"; "Users"; "Names"];
  user_c ← cstring username ("username has NUL: " +:+ username);
  let node := hivex_node_get_child h names user_c in
  if (node =? 0)%Z then Err (InvalidOperation ("Windows user '" +:+ username +:+ "' not found in SAM"))
  else
    let val := hivex_node_get_value h node "" in
    if (val =? 0)%Z then Err (InvalidOperation ("SAM Names\" +:+ username +:+ " has no default value (RID)"))
    else match hivex_value_type h val with
         | Some rid_type =>
             if (rid_type <=? 0)%Z
             then Err (InvalidOperation ("SAM Names\" +:+ username +:+ " RID lookup failed"))
             else Ok rid_type
         | None => Err (InvalidOperation ("SAM Names\" +:+ username +:+ " RID lookup failed"))
         end.

Definition clear_account_disabled (h : hive) (user_node : Z) : outcome Error hive :=
  match get_binary_value h user_node "F" with
  | Ok f =>
      if (60 <=? len f)%Z then
        flags ← u32_at f 56;
        let cleared := Z.land flags (Z.lxor 4294967295 2) in
        if negb (cleared =? flags)%Z then
          f ← splice f 56 (le_encode 4 cleared);
          set_binary_value h user_node "F" f
        else Ok h
      else Ok h
  | Err _ => Ok h
  | Panic => Panic
  end.

(** [{rid:08X}]. *)
Definition hex_upper (d : Z) : string := String.substring (Z.to_nat d) 1 "0123456789ABCDEF".
Definition fmt_08X (rid : Z) : string :=
  foldr (fun b s => hex_upper (b / 16) +:+ hex_upper (b mod 16) +:+ s) "" (be_encode 4 rid).

Definition user_node (h : hive) (rid : Z) : outcome Error Z :=
  sam_navigate h ["SAM"; "Domains"; "Account"; "Users"; fmt_08X rid].

Definition clear_windows_password (w : hosts) (sam_hive username : string) : hosts * outcome Error unit :=
  then_commit w sam_hive (
    h ← sam_open w sam_hive;
    rid ← lookup_rid h username;
    node ← user_node h rid;
    v ← get_binary_value h node "V";
    if (len v <? 176)%Z
    then Err (InvalidOperation ("SAM V value for '" +:+ username +:+ "' is too short (" +:+ fmt_Z (len v) +:+ " bytes)"))
    else
      v ← splice v 160 (le_encode 4 4);
      v ← splice v 172 (le_encode 4 4);
      h ← set_binary_value h node "V" v;
      h ← clear_account_disabled h node;
      Ok (h, tt)).

Context `{SamCrates}.


Definition set_user_nt_hash_encrypted (w : hosts) (sam_hive username : string) (bootkey nt_hash salt : list Z)
    : hosts * outcome Error unit :=
  then_commit w sam_hive (
    h ← sam_open w sam_hive;
    account ← sam_navigate h ["SAM"; "Domains"; "Account"];
    domain_f ← get_binary_value h account "F";
    hboot ← hashed_bootkey domain_f bootkey;
    rid ← lookup_rid h username;
    node ← user_node h rid;
    blob ← encrypt_nt_hash rid nt_hash hboot salt (domain_f_is_aes domain_f);
    v ← get_binary_value h node "V";
    v ← patch_v_with_nt_hash v blob;
    h ← set_binary_value h node "V" v;
    h ← clear_account_disabled h node;
    Ok (h, tt)).

Definition set_password_aes (w : hosts) (stack : nat) (sam_hive system_hive : string) (read : string + list Z)
    (username password : string) (salt : list Z) : hosts * outcome Error unit :=
  match extract_bootkey stack system_hive read with
  | Ok bootkey => set_user_nt_hash_encrypted w sam_hive username bootkey (ntlm_hash password) salt
  | Err e => (w, Err e)
  | Panic => (w, Panic)
  end.

Fixpoint double_quotes (s : string) : string :=
  match s with
  | EmptyString => ""
  | String c s =>
      if Ascii.eqb c (ascii_of_byte 34) then String c (String c (double_quotes s))
      else String c (double_quotes s)
  end.
Definition quote_cmd_arg (s : string) : string := dquote +:+ double_quotes s +:+ dquote.

Definition runonce_net_user_command (username password : string) : string :=
  "cmd.exe /c net user " +:+ quote_cmd_arg username +:+ " " +:+ quote_cmd_arg password +:+ " && reg delete "
  +:+ dquote +:+ "HKLM\SOFTWARE\Microsoft\Windows\CurrentVersion\RunOnce" +:+ dquote
  +:+ " /v GuestKitSetPassword /f".

Definition illegal_user_chars : list ascii := String.list_ascii_of_string "\/[]:;|=,+*?<>@".

Definition validate_windows_username (username : string) : outcome Error unit :=
  let u := trim username in
  if is_empty u || (20 <? String.length u)
  then Err (InvalidOperation "Windows username must be 1–20 characters")
  else if existsb (fun c => contains_char c u) illegal_user_chars
  then Err (InvalidOperation ("Windows username contains illegal characters: " +:+ u))
  else Ok tt.

Definition validate_windows_password (password : string) : outcome Error unit :=
  if is_empty password
  then Err (InvalidOperation "password must be non-empty (omit --password to only blank the SAM)")
  else if 127 <? String.length password
  then Err (InvalidOperation "Windows password must be at most 127 characters")
  else Ok tt.

Record WindowsPasswordSetResult : Type := mk_WindowsPasswordSetResult {
  ps_username : string;
  ps_aes_written : bool;
  ps_sam_blanked : bool;
  ps_runonce_staged : bool
}.

Definition blank_and_stage (w : hosts) (sam_hive software_hive username password : string)
    : hosts * outcome Error WindowsPasswordSetResult :=
  let '(w, cleared) := clear_windows_password w sam_hive username in
  match cleared with
  | Err e => (w, Err e)
  | Panic => (w, Panic)
  | Ok _ =>
      let '(w, staged) := set_registry_value w software_hive
        ["Microsoft"; "Windows"; "CurrentVersion"; "RunOnce"] "GuestKitSetPassword" "REG_SZ"
        (JStr (runonce_net_user_command username password)) in
      (w, match staged with
          | Ok _ => Ok (mk_WindowsPasswordSetResult username false true true)
          | Err e => Err e
          | Panic => Panic
          end)
  end.

Definition set_windows_password (w : hosts) (stack : nat) (sam_hive software_hive : string)
    (system_hive : option (string * (string + list Z))) (username password : string) (salt : list Z)
    : hosts * outcome Error WindowsPasswordSetResult :=
  match (validate_windows_password password ≫= fun _ => validate_windows_username username) with
  | Err e => (w, Err e)
  | Panic => (w, Panic)
  | Ok _ =>
      match system_hive with
      | Some (sys, read) =>
          let '(w, r) := set_password_aes w stack sam_hive sys read username password salt in
          match r with
          | Ok _ => (w, Ok (mk_WindowsPasswordSetResult username true false false))
          | Panic => (w, Panic)
          | Err _ => blank_and_stage w sam_hive software_hive username password
          end
      | None => blank_and_stage w sam_hive software_hive username password
      end
  end.

(** ** The password reset of the command line

    The hives of a Windows guest are copied out, changed and copied back.  [guest] is the
    guest's files, [uploads] says which copies back succeed; the host's copies start
    empty.  The optional backup of the SAM only adds a file on the host; errors say what failed,
    without the text of the cause. *)
Definition upload (uploads : string → bool) (guest : hosts) (path : string) (file : option hive_file)
    : hosts * outcome string unit :=
  if uploads path then (partial_alter (fun _ => file) path guest, Ok tt)
  else (guest, Err ("upload " +:+ path)).

Definition reset_windows_password (uploads : string → bool) (guest : hosts) (stack : nat)
    (systemroot username : string) (password : option string) (salt : list Z) : hosts * outcome string unit :=
  let sam_guest := systemroot +:+ "/System32/config/SAM" in
  let software_guest := systemroot +:+ "/System32/config/SOFTWARE" in
  let system_guest := systemroot +:+ "/System32/config/SYSTEM" in
  match guest !! sam_guest with
  | None => (guest, Err "download SAM")
  | Some sam =>
      match password with
      | Some new_password =>
          match guest !! software_guest with
          | None => (guest, Err "download SOFTWARE")
          | Some software =>
              let system := (fun f => ("sys", inr (hive_bytes f))) <$> guest !! system_guest in
              let '(w, r) := set_windows_password (<["sam" := sam]> {["soft" := software]}) stack
                               "sam" "soft" system username new_password salt in
              match r with
              | Err _ => (guest, Err "SAM password set")
              | Panic => (guest, Panic)
              | Ok result =>
                  let '(guest, sent) := upload uploads guest sam_guest (w !! "sam") in
                  match sent with
                  | Ok _ => if ps_runonce_staged result then upload uploads guest software_guest (w !! "soft")
                            else (guest, Ok tt)
                  | e => (guest, e)
                  end
              end
          end
      | None =>
          let '(w, r) := clear_windows_password {["sam" := sam]} "sam" username in
          match r with
          | Err _ => (guest, Err "SAM password clear")
          | Panic => (guest, Panic)
          | Ok _ => upload uploads guest sam_guest (w !! "sam")
          end
      end
  end.
End hives.
