(* ===== verification/HiveProps.v ===== *)
(** * Theorems on offline hives

    What a value written to a hive reads as, that a password hash written to the SAM is
    the one read back under the same boot key, what a failed reset leaves behind, and the
    values the encodings accept. *)
From stdpp Require Import base gmap strings list list_numbers.
From Stdlib Require Import ZArith Lia Ascii.
From S2P Require Import Prelude RustStr DiskReader Partition Filesystem Executor Qga Sam SamProps Hive.

Section reading.
Context `{Hivex}.

(** the value of a key, and of a path of keys from the root. *)
Definition value_of (h : hive) (n : Z) (k : string) : option (Z * list Z) :=
  let v := hivex_node_get_value h n k in
  if (v =? 0)%Z then None else hivex_value_value h v.
Definition path_value (h : hive) (path : list string) (k : string) : option (Z * list Z) :=
  navigate h (hivex_root h) path ≫= fun n => value_of h n k.
End reading.

(** what the code relies on of libhivex: a hive is a tree of keys, a value that was set
    reads as it was set and no other value or key changes, a new key is found and the
    old ones stay, and a committed hive opens again with the same values. *)
Class HivexLaws `{Hivex} : Prop := {
  hive_tree h : ∃ depth : Z → nat, ∀ n c,
    hivex_node_get_child h n c ≠ 0%Z → depth (hivex_node_get_child h n c) = S (depth n);
  value_type_of h v : hivex_value_type h v = fst <$> hivex_value_value h v;
  value_data h n k t d : value_of h n k = Some (t, d) → Forall byte_ok d ∧ (len d < 2 ^ 31)%Z;
  set_keeps_keys h n k t d h' rc : hivex_node_set_value h n k t d = (h', rc) →
    hivex_root h' = hivex_root h ∧ ∀ n' c, hivex_node_get_child h' n' c = hivex_node_get_child h n' c;
  set_value_of h n k t d h' : hivex_node_set_value h n k t d = (h', true) → value_of h' n k = Some (t, d);
  set_value_other h n k t d h' rc n' k' : hivex_node_set_value h n k t d = (h', rc) →
    n' ≠ n ∨ to_ascii_lowercase k' ≠ to_ascii_lowercase k → value_of h' n' k' = value_of h n' k';
  add_child_keeps h n c h' m : hivex_node_add_child h n c = (h', m) → m ≠ 0%Z →
    hivex_node_get_child h' n c = m ∧ hivex_root h' = hivex_root h ∧
    ∀ n' c', hivex_node_get_child h n' c' ≠ 0%Z → hivex_node_get_child h' n' c' = hivex_node_get_child h n' c';
  commit_open h old file : hivex_commit h old = (file, true) →
    ∃ h', hivex_open file = Some h' ∧ hivex_root h' ≠ 0%Z ∧
      ∀ path k, path_value h' path k = path_value h path k
}.

Section laws.
Context `{HivexLaws}.

Lemma navigate_app h n p q : navigate h n (p ++ q) = navigate h n p ≫= fun m => navigate h m q.
Proof.
  revert n. induction p as [|c p IH]; intros n; [done|]. cbn [app navigate].
  destruct (has_nul c); [done|]. destruct (_ =? _)%Z; [done|]. apply IH.
Qed.

(** two hives with the same keys lead to the same nodes. *)
Lemma navigate_keys h h' n p :
  (∀ n' c, hivex_node_get_child h' n' c = hivex_node_get_child h n' c) → navigate h' n p = navigate h n p.
Proof.
  intros Hk. revert n. induction p as [|c p IH]; intros n; [done|]. cbn [navigate]. rewrite Hk.
  destruct (has_nul c); [done|]. destruct (_ =? _)%Z; [done|]. apply IH.
Qed.

Lemma navigate_depth h depth n p m :
  (∀ n c, hivex_node_get_child h n c ≠ 0%Z → depth (hivex_node_get_child h n c) = S (depth n)) →
  navigate h n p = Some m → depth m = depth n + length p.
Proof.
  intros Hd. revert n. induction p as [|c p IH]; intros n; cbn [navigate]; [intros [= ->]; cbn; lia|].
  destruct (has_nul c); [done|]. destruct (_ =? _)%Z eqn:E; [done|]. bool_solve.
  intros Hm%IH. rewrite Hm, Hd by done. cbn. lia.
Qed.

(** keys at different depths are different keys. *)
Lemma depths_differ h p q n m : navigate h (hivex_root h) p = Some n → navigate h (hivex_root h) q = Some m →
  length p ≠ length q → n ≠ m.
Proof.
  intros Hp Hq Hl. destruct (hive_tree h) as [depth Hd].
  apply (navigate_depth _ depth) in Hp; [|done]. apply (navigate_depth _ depth) in Hq; [|done].
  intros ->. lia.
Qed.

Lemma sam_navigate_inv h p n : sam_navigate h p = Ok n →
  hivex_root h ≠ 0%Z ∧ navigate h (hivex_root h) p = Some n.
Proof.
  unfold sam_navigate, root_node. destruct (_ =? _)%Z eqn:E; [done|]. bool_solve.
  cbn [mbind outcome_bind]. intros Hf. split; [done|]. revert Hf. generalize (hivex_root h).
  induction p as [|c p IH]; intros m; cbn [outcome_foldl navigate]; [by intros [= ->]|].
  unfold cstring. destruct (has_nul c); [done|]. cbn [mbind outcome_bind].
  destruct (_ =? _)%Z; [done|]. apply IH.
Qed.

Lemma sam_navigate_path h p n : hivex_root h ≠ 0%Z → navigate h (hivex_root h) p = Some n →
  sam_navigate h p = Ok n.
Proof.
  intros Hr Hn. unfold sam_navigate, root_node. rewrite (proj2 (Z.eqb_neq _ _) Hr).
  cbn [mbind outcome_bind]. revert Hn. generalize (hivex_root h).
  induction p as [|c p IH]; intros m; cbn [outcome_foldl navigate]; [by intros [= ->]|].
  unfold cstring. destruct (has_nul c); [done|]. cbn [mbind outcome_bind].
  destruct (_ =? _)%Z; [done|]. apply IH.
Qed.

Lemma get_binary_value_inv h n k d : get_binary_value h n k = Ok d → ∃ t, value_of h n k = Some (t, d).
Proof.
  unfold get_binary_value, value_of, cstring. destruct (has_nul k); [done|]. cbn [mbind outcome_bind].
  destruct (_ =? _)%Z; [done|]. destruct (hivex_value_value _ _) as [[t d']|]; [|done].
  intros [= ->]. eauto.
Qed.

Lemma get_binary_value_of h n k t d : has_nul k = false → value_of h n k = Some (t, d) →
  get_binary_value h n k = Ok d.
Proof.
  unfold get_binary_value, value_of, cstring. intros ->. cbn [mbind outcome_bind].
  destruct (_ =? _)%Z; [done|]. by intros ->.
Qed.

Definition users_path : list string := ["SAM"; "Domains"; "Account"; "Users"].

Lemma lookup_rid_inv h u rid : lookup_rid h u = Ok rid →
  ∃ n d, navigate h (hivex_root h) (users_path ++ ["Names"; u]) = Some n ∧
    value_of h n "" = Some (rid, d) ∧ (0 < rid)%Z.
Proof.
  unfold lookup_rid. intros (names & Hn & Hr)%outcome_bind_Ok. apply sam_navigate_inv in Hn as [_ Hn].
  apply outcome_bind_Ok in Hr as (u' & Hu & Hr). unfold cstring in Hu.
  destruct (has_nul u) eqn:Enul; [done|]. injection Hu as <-.
  destruct (_ =? _)%Z eqn:E1; [done|]. destruct (hivex_node_get_value _ _ _ =? _)%Z eqn:E2; [done|].
  rewrite value_type_of in Hr. destruct (hivex_value_value _ _) as [[t d]|] eqn:Ev; [|done]. cbn in Hr.
  destruct (t <=? 0)%Z eqn:E3; [done|]. injection Hr as ->. bool_solve.
  exists (hivex_node_get_child h names u), d. split; [|split; [|done]].
  - change (users_path ++ ["Names"; u]) with ((users_path ++ ["Names"]) ++ [u]). rewrite navigate_app.
    unfold users_path. cbn [app]. rewrite Hn. cbn [mbind option_bind navigate]. rewrite Enul.
    by rewrite (proj2 (Z.eqb_neq _ _) E1).
  - unfold value_of. by rewrite (proj2 (Z.eqb_neq _ _) E2).
Qed.

Lemma lookup_rid_path h u rid d : hivex_root h ≠ 0%Z →
  path_value h (users_path ++ ["Names"; u]) "" = Some (rid, d) → (0 < rid)%Z → lookup_rid h u = Ok rid.
Proof.
  unfold path_value. intros Hroot Hp Hpos. change (users_path ++ ["Names"; u]) with ((users_path ++ ["Names"]) ++ [u]) in Hp.
  rewrite navigate_app in Hp. destruct (navigate _ _ (users_path ++ ["Names"])) as [names|] eqn:En; [|done].
  unfold lookup_rid. unfold users_path in En. cbn [app] in En. rewrite (sam_navigate_path _ _ _ Hroot En). cbn [mbind outcome_bind].
  cbn [mbind option_bind navigate] in Hp. unfold cstring. destruct (has_nul u); [done|]. cbn [mbind outcome_bind].
  destruct (_ =? _)%Z; [done|]. cbn [mbind option_bind] in Hp. unfold value_of in Hp.
  destruct (hivex_node_get_value _ _ _ =? _)%Z; [done|]. rewrite value_type_of, Hp. cbn.
  by rewrite (proj2 (Z.leb_gt _ _) Hpos).
Qed.

(** all keys and every value but [k0] of [node] are kept. *)
Definition only_changes (h h' : hive) (node : Z) (k0 : string) : Prop :=
  hivex_root h' = hivex_root h ∧
  (∀ n c, hivex_node_get_child h' n c = hivex_node_get_child h n c) ∧
  ∀ n k, n ≠ node ∨ to_ascii_lowercase k ≠ to_ascii_lowercase k0 → value_of h' n k = value_of h n k.

Lemma set_binary_value_inv h n k d h' : set_binary_value h n k d = Ok h' →
  only_changes h h' n k ∧ value_of h' n k = Some (REG_BINARY, d).
Proof.
  unfold set_binary_value, cstring, set_value. destruct (has_nul k); [done|]. cbn [mbind outcome_bind].
  destruct (hivex_node_set_value _ _ _ _ _) as [h1 rc] eqn:E. destruct rc; [|done]. intros [= ->].
  split; [|by eapply set_value_of]. destruct (set_keeps_keys _ _ _ _ _ _ _ E) as [Hr Hc].
  split; [done|split; [done|]]. intros n' k'. by eapply set_value_other.
Qed.

Lemma clear_account_disabled_inv h n h' : clear_account_disabled h n = Ok h' → only_changes h h' n "F".
Proof.
  assert (only_changes h h n "F") as Hrefl by done. unfold clear_account_disabled.
  destruct (get_binary_value h n "F") as [f|e|]; [|intros [= <-]; done|done].
  destruct (_ <=? _)%Z; [|intros [= <-]; done]. intros (flags & _ & Hf)%outcome_bind_Ok.
  destruct (negb _); [|injection Hf as <-; done]. apply outcome_bind_Ok in Hf as (f' & _ & Hf).
  by apply set_binary_value_inv in Hf as [? _].
Qed.

(** a path that does not lead to the changed value keeps its value. *)
Lemma only_changes_path h h' n0 k0 p k n : only_changes h h' n0 k0 →
  navigate h (hivex_root h) p = Some n → n ≠ n0 ∨ to_ascii_lowercase k ≠ to_ascii_lowercase k0 →
  path_value h' p k = value_of h n k.
Proof.
  intros (Hr & Hc & Hv) Hp Hk. unfold path_value. rewrite Hr, (navigate_keys h h') by done.
  rewrite Hp. cbn. by apply Hv.
Qed.

Lemma only_changes_navigate h h' n0 k0 p : only_changes h h' n0 k0 →
  navigate h' (hivex_root h') p = navigate h (hivex_root h) p.
Proof. intros (Hr & Hc & _). rewrite Hr. by apply navigate_keys. Qed.

Lemma two_changes_path h h1 h2 n0 k1 k2 p k n : only_changes h h1 n0 k1 → only_changes h1 h2 n0 k2 →
  navigate h (hivex_root h) p = Some n → n ≠ n0 → path_value h2 p k = value_of h n k.
Proof.
  intros Hc1 Hc2 Hp Hn. rewrite (only_changes_path h1 h2 n0 k2 p k n); [|done| |by left].
  - apply Hc1. by left.
  - by rewrite (only_changes_navigate _ _ _ _ _ Hc1).
Qed.

Lemma then_commit_Ok {A} w path (o : outcome Error (hive * A)) w' a :
  then_commit w path o = (w', Ok a) →
  ∃ h file, o = Ok (h, a) ∧ hivex_commit h (w !! path) = (file, true) ∧ w' !! path = file.
Proof.
  unfold then_commit. destruct o as [[h b]|e|]; [|done..]. unfold commit.
  destruct (hivex_commit h (w !! path)) as [file rc] eqn:E. destruct rc; [|done].
  intros [= <- ->]. exists h, file. split_and!; [done|done|]. apply (lookup_partial_alter_eq (M:=gmap string)).
Qed.

Lemma sam_open_inv w path h : sam_open w path = Ok h → has_nul path = false ∧ hivex_open (w !! path) = Some h.
Proof.
  unfold sam_open, cstring. destruct (has_nul path); [done|]. cbn [mbind outcome_bind].
  destruct (hivex_open (w !! path)); [|done]. by intros [= ->].
Qed.

(** the SAM after a committed change has the values of the changed hive. *)
Lemma sam_reopened (w : hosts) path h file (w' : hosts) : has_nul path = false →
  hivex_commit h (w !! path) = (file, true) → w' !! path = file →
  ∃ h', sam_open w' path = Ok h' ∧ hivex_root h' ≠ 0%Z ∧ ∀ p k, path_value h' p k = path_value h p k.
Proof.
  intros Hp Hc Hw. destruct (commit_open _ _ _ Hc) as (h' & Ho & Hr & Hv). exists h'.
  split; [|done]. unfold sam_open, cstring. rewrite Hp. cbn [mbind outcome_bind]. by rewrite Hw, Ho.
Qed.

Lemma read_at h p k t d : hivex_root h ≠ 0%Z → has_nul k = false → path_value h p k = Some (t, d) →
  ∃ n, sam_navigate h p = Ok n ∧ get_binary_value h n k = Ok d.
Proof.
  intros Hr Hk Hp. unfold path_value in Hp. destruct (navigate h (hivex_root h) p) as [n|] eqn:En; [|done].
  cbn in Hp. exists n. split; [by apply sam_navigate_path|by eapply get_binary_value_of].
Qed.

(** ** Values of an offline hive *)

(** [h'] has the root of [h] and leads wherever [h] leads. *)
Definition more_keys (h h' : hive) : Prop :=
  hivex_root h' = hivex_root h ∧
  ∀ n c, hivex_node_get_child h n c ≠ 0%Z → hivex_node_get_child h' n c = hivex_node_get_child h n c.

Lemma descend_step h n c h' m : descend_or_create (h, n) c = Ok (h', m) →
  more_keys h h' ∧ has_nul c = false ∧ hivex_node_get_child h' n c = m ∧ m ≠ 0%Z.
Proof.
  unfold descend_or_create, cstring. destruct (has_nul c); [done|]. cbn [mbind outcome_bind].
  destruct (negb _) eqn:E; bool_solve.
  - intros [= <- <-]. done.
  - destruct (hivex_node_add_child h n c) as [h1 m1] eqn:Ea. destruct (m1 =? 0)%Z eqn:Em; [done|]. bool_solve.
    intros [= <- <-]. destruct (add_child_keeps _ _ _ _ _ Ea Em) as (Hg & Hr & Hk). done.
Qed.

Lemma descend_path p h n h' m : outcome_foldl descend_or_create (h, n) p = Ok (h', m) →
  more_keys h h' ∧ navigate h' n p = Some m.
Proof.
  revert h n. induction p as [|c p IH]; intros h n; cbn [outcome_foldl]; [by intros [= <- <-]|].
  intros ([h1 n1] & (Hk1 & Hc & Hg & Hne)%descend_step & (Hk2 & Hn)%IH)%outcome_bind_Ok.
  assert (hivex_node_get_child h' n c = n1) as Hg' by (rewrite (proj2 Hk2), Hg; congruence).
  split.
  - destruct Hk1 as [R1 C1], Hk2 as [R2 C2]. split; [congruence|]. intros n' c' Hne'.
    rewrite C2; rewrite C1 by done; done.
  - cbn [navigate]. rewrite Hc, Hg'. by rewrite (proj2 (Z.eqb_neq _ _) Hne).
Qed.

(** a registry value that was written reads back with the type and the bytes its data
    encode to, at the same path, which then exists. *)
Theorem registry_value_round_trip w f p name ty data w' :
  set_registry_value w f p name ty data = (w', Ok tt) →
  ∃ t bytes, encode_value ty data = Ok (t, bytes) ∧ get_registry_value w' f p name = Ok (Some (t, bytes)).
Proof.
  intros Hset. apply then_commit_Ok in Hset as (h3 & file & Hrun & Hcommit & Hw').
  apply outcome_bind_Ok in Hrun as ([t bytes] & Henc & Hrun). exists t, bytes. split; [done|].
  apply outcome_bind_Ok in Hrun as (h & Ho & Hrun). apply outcome_bind_Ok in Hrun as (root & Hroot & Hrun).
  unfold root_node in Hroot. destruct (_ =? _)%Z; [done|]. injection Hroot as <-.
  apply outcome_bind_Ok in Hrun as ([h1 m] & (Hk & Hn)%descend_path & Hrun). cbn [fst snd] in Hrun.
  apply outcome_bind_Ok in Hrun as (key & Hkey & Hrun). unfold cstring in Hkey.
  destruct (has_nul name) eqn:Enul; [done|]. injection Hkey as <-.
  apply outcome_bind_Ok in Hrun as (h2 & Hs & [= ->]). unfold set_value in Hs.
  destruct (hivex_node_set_value _ _ _ _ _) as [h2 rc] eqn:Ev. destruct rc; [|done]. injection Hs as ->.
  destruct (set_keeps_keys _ _ _ _ _ _ _ Ev) as [R2 C2]. pose proof (set_value_of _ _ _ _ _ _ Ev) as Hv.
  assert (path_value h3 p name = Some (t, bytes)) as Hp.
  { unfold path_value. rewrite R2, (navigate_keys h1 h3), (proj1 Hk), Hn by done. exact Hv. }
  destruct (commit_open _ _ _ Hcommit) as (h4 & Ho4 & Hr4 & Hp4). rewrite <-Hp4 in Hp.
  unfold get_registry_value. unfold open_write, path_to_cstring, cstring in Ho |- *.
  destruct (has_nul f); [done|]. cbn [mbind outcome_bind]. rewrite Hw', Ho4. cbn [mbind outcome_bind].
  unfold root_node. rewrite (proj2 (Z.eqb_neq _ _) Hr4). cbn [mbind outcome_bind].
  unfold path_value in Hp. destruct (navigate h4 (hivex_root h4) p) as [n|]; [|done]. cbn in Hp.
  unfold value_of in Hp. rewrite Enul. cbn [mbind outcome_bind]. destruct (_ =? _)%Z; [done|]. by rewrite Hp.
Qed.

Context `{SamCratesLaws}.

(** the NT hash of a user, read from a SAM under a boot key. *)
Definition stored_nt_hash (w : hosts) (sam username : string) (bootkey : list Z) : outcome Error (list Z) :=
  h ← sam_open w sam;
  account ← sam_navigate h ["SAM"; "Domains"; "Account"];
  domain_f ← get_binary_value h account "F";
  hboot ← hashed_bootkey domain_f bootkey;
  rid ← lookup_rid h username;
  node ← user_node h rid;
  v ← get_binary_value h node "V";
  blob ← nt_blob_of v;
  decrypt_nt_hash rid blob hboot (domain_f_is_aes domain_f).

(** what a hive must hold for the hash of a user to be read. *)
Lemma stored_nt_hash_path w sam u bootkey h tf domain_f hboot rid d tv v blob nt :
  sam_open w sam = Ok h → hivex_root h ≠ 0%Z →
  path_value h ["SAM"; "Domains"; "Account"] "F" = Some (tf, domain_f) →
  hashed_bootkey domain_f bootkey = Ok hboot →
  path_value h (users_path ++ ["Names"; u]) "" = Some (rid, d) → (0 < rid)%Z →
  path_value h (users_path ++ [fmt_08X rid]) "V" = Some (tv, v) →
  nt_blob_of v = Ok blob → decrypt_nt_hash rid blob hboot (domain_f_is_aes domain_f) = Ok nt →
  stored_nt_hash w sam u bootkey = Ok nt.
Proof.
  intros Ho Hr Hf Hb Hu Hpos Hv Hblob Hdec. unfold stored_nt_hash, user_node. rewrite Ho. cbn [mbind outcome_bind].
  destruct (read_at h _ "F" _ _ Hr eq_refl Hf) as (na & -> & Hna). cbn [mbind outcome_bind]. rewrite Hna.
  cbn [mbind outcome_bind]. rewrite Hb. cbn [mbind outcome_bind].
  rewrite (lookup_rid_path _ _ _ _ Hr Hu Hpos). cbn [mbind outcome_bind].
  destruct (read_at h _ "V" _ _ Hr eq_refl Hv) as (nv & Hn & Hnv). unfold users_path in Hn. cbn [app] in Hn.
  rewrite Hn. cbn [mbind outcome_bind]. rewrite Hnv. cbn [mbind outcome_bind]. rewrite Hblob. done.
Qed.

(** the value written for a hash that was encrypted is the hash. *)
Lemma patched_value_decrypts rid nt hboot salt style blob v v' :
  length nt = 16 → Forall byte_ok nt → length salt = 16 → Forall byte_ok v → (len v < 2 ^ 31)%Z →
  encrypt_nt_hash rid nt hboot salt style = Ok blob → patch_v_with_nt_hash v blob = Ok v' →
  nt_blob_of v' = Ok blob ∧ decrypt_nt_hash rid blob hboot style = Ok nt.
Proof.
  intros Hl Hb Hs Bv Lv Henc Hpatch.
  destruct (decide (16 ≤ length hboot)) as [Hh|Hh];
    [|rewrite (short_key_panics rid nt hboot salt style) in Henc by lia; done].
  destruct (nt_hash_decrypts rid nt hboot salt style Hl Hb Hh Hs) as (blob' & Henc' & Lb & Hdec).
  assert (blob' = blob) as -> by congruence. split; [|done].
  assert (V_DATA_BASE ≤ len v)%Z as Hlen.
  { unfold patch_v_with_nt_hash in Hpatch. destruct (_ <? _)%Z eqn:E; [done|]. by bool_solve. }
  assert (len blob ≤ 56)%Z by (unfold len; rewrite Lb; destruct style; lia).
  destruct (patch_v_holds v blob Bv Hlen) as (v2 & Hv2 & Hb2 & _); [lia|]. congruence.
Qed.

(** C39: a password hash that was written to the SAM is the hash read back from it for the
    same user under the same boot key, whether the account was disabled or not. *)
Theorem password_read_back w sam u bootkey nt salt w' :
  length nt = 16 → Forall byte_ok nt → length salt = 16 →
  set_user_nt_hash_encrypted w sam u bootkey nt salt = (w', Ok tt) →
  stored_nt_hash w' sam u bootkey = Ok nt.
Proof.
  intros Hl Hb Hs Hset. apply then_commit_Ok in Hset as (h3 & file & Hrun & Hcommit & Hw').
  apply outcome_bind_Ok in Hrun as (h & Ho & Hrun). apply sam_open_inv in Ho as [Hnul _].
  apply outcome_bind_Ok in Hrun as (na & Hna & Hrun). apply sam_navigate_inv in Hna as [Hroot Hna].
  apply outcome_bind_Ok in Hrun as (domain_f & (tf & Hf)%get_binary_value_inv & Hrun).
  apply outcome_bind_Ok in Hrun as (hboot & Hboot & Hrun).
  apply outcome_bind_Ok in Hrun as (rid & (nn & d & Hnn & Hd & Hpos)%lookup_rid_inv & Hrun).
  apply outcome_bind_Ok in Hrun as (node & Hnode & Hrun). apply sam_navigate_inv in Hnode as [_ Hnode].
  apply outcome_bind_Ok in Hrun as (blob & Henc & Hrun).
  apply outcome_bind_Ok in Hrun as (v & (tv & Hv)%get_binary_value_inv & Hrun).
  apply outcome_bind_Ok in Hrun as (v' & Hpatch & Hrun).
  apply outcome_bind_Ok in Hrun as (h1 & [Hc1 Hv1]%set_binary_value_inv & Hrun).
  apply outcome_bind_Ok in Hrun as (h2 & Hc2%clear_account_disabled_inv & [= ->]).
  destruct (value_data _ _ _ _ _ Hv) as [Bv Lv].
  destruct (patched_value_decrypts _ _ _ _ _ _ _ _ Hl Hb Hs Bv Lv Henc Hpatch) as [Hblob Hdec].
  destruct (sam_reopened _ _ _ _ _ Hnul Hcommit Hw') as (h4 & Ho4 & Hr4 & Hp4).
  assert (na ≠ node) by (eapply (depths_differ h); [exact Hna|exact Hnode|done]).
  assert (nn ≠ node) by (eapply (depths_differ h); [exact Hnn|exact Hnode|done]).
  apply (stored_nt_hash_path w' sam u bootkey h4 tf domain_f hboot rid d REG_BINARY v' blob);
    rewrite ?Hp4; try done.
  - by rewrite (two_changes_path h h1 h3 node "V" "F" _ _ na).
  - by rewrite (two_changes_path h h1 h3 node "V" "F" _ _ nn).
  - rewrite (only_changes_path h1 h3 node "F" _ _ node); [done|done| |by right].
    by rewrite (only_changes_navigate _ _ _ _ _ Hc1).
Qed.

(** ** What a failed reset leaves *)
Lemma uploaded uploads guest path file r g : upload uploads guest path file = (g, r) →
  uploads path = true → r = Ok tt.
Proof. unfold upload. intros Hu Hp. rewrite Hp in Hu. by injection Hu as _ <-. Qed.

(** as long as the copies back into the guest succeed, a password reset that does not
    succeed leaves every hive of the guest as it was, whatever was done to the copies. *)
Theorem failed_reset_keeps_guest uploads guest stack root u password salt g r :
  (∀ p, uploads p = true) →
  reset_windows_password uploads guest stack root u password salt = (g, r) → r ≠ Ok tt → g = guest.
Proof.
  intros Hup Hreset Hr. unfold reset_windows_password in Hreset.
  destruct (guest !! (root +:+ "/System32/config/SAM")) as [sam|]; [|by injection Hreset as <- _].
  destruct password as [pw|].
  - destruct (guest !! (root +:+ "/System32/config/SOFTWARE")) as [software|]; [|by injection Hreset as <- _].
    destruct (set_windows_password _ _ _ _ _ _ _ _) as [w [result|e|]]; try (by injection Hreset as <- _).
    destruct (upload uploads guest _ _) as [g1 r1] eqn:E1.
    pose proof (uploaded _ _ _ _ _ _ E1 (Hup _)) as ->.
    destruct (ps_runonce_staged result); [|injection Hreset as _ <-; done].
    by pose proof (uploaded _ _ _ _ _ _ Hreset (Hup _)).
  - destruct (clear_windows_password _ _ _) as [w [[]|e|]]; try (by injection Hreset as <- _).
    by pose proof (uploaded _ _ _ _ _ _ Hreset (Hup _)).
Qed.
End laws.

(** ** A hive of its own

    Keys by their paths; the handle of a key or value encodes its path. *)
#[local] Notation toy_hive := (gmap (list string) (gmap string (Z * list Z))).
Definition node_handle (p : list string) : Z := Z.pos (encode p).
Definition handle_path (n : Z) : option (list string) :=
  match n with
  | Z.pos q => match decode q with Some p => if Pos.eqb (encode p) q then Some p else None | None => None end
  | _ => None
  end.
Definition good_data (d : list Z) : bool :=
  forallb (fun b => (0 <=? b)%Z && (b <? 256)%Z) d && (len d <? 2 ^ 31)%Z.
Definition toy_get (h : toy_hive) (p : list string) (k : string) : option (Z * list Z) :=
  match h !! p ≫= fun m => m !! k with
  | Some (t, d) => if good_data d then Some (t, d) else None
  | None => None
  end.

#[local] Instance toy_hivex : Hivex := {|
  hive_file := toy_hive;
  hive_bytes _ := [];
  hive := toy_hive;
  hivex_open f := f;
  hivex_root _ := node_handle [];
  hivex_node_get_child h n c :=
    match handle_path n with
    | Some p => match (h : toy_hive) !! (p ++ [c]) with Some _ => node_handle (p ++ [c]) | None => 0%Z end
    | None => 0%Z
    end;
  hivex_node_add_child h n c :=
    match handle_path n with
    | Some p => match (h : toy_hive) !! (p ++ [c]) with
                | Some _ => (h, node_handle (p ++ [c]))
                | None => (<[p ++ [c] := ∅]> h, node_handle (p ++ [c]))
                end
    | None => (h, 0%Z)
    end;
  hivex_node_children h n :=
    match handle_path n with
    | Some p => Some (map (fun e => node_handle e.1)
                       (List.filter (fun e => bool_decide (length e.1 = S (length p) ∧ take (length p) e.1 = p))
                          (map_to_list (h : toy_hive))))
    | None => None
    end;
  hivex_node_name _ n := bytes_of_string <$> (handle_path n ≫= last);
  hivex_node_delete_child h n :=
    match handle_path n with Some p => (delete p h, true) | None => (h, false) end;
  hivex_node_get_value h n k :=
    match handle_path n with
    | Some p => match toy_get h p k with Some _ => Z.pos (encode (p, k)) | None => 0%Z end
    | None => 0%Z
    end;
  hivex_value_value h v :=
    match v with
    | Z.pos q => match decode q with Some (p, k) => toy_get h p k | None => None end
    | _ => None
    end;
  hivex_value_type h v :=
    match v with
    | Z.pos q => match decode q with Some (p, k) => fst <$> toy_get h p k | None => None end
    | _ => None
    end;
  hivex_node_values _ _ := Some [];
  hivex_value_key _ _ := None;
  hivex_node_set_value h n k t d :=
    match handle_path n with
    | Some p => match (h : toy_hive) !! p with
                | Some m => if good_data d then (<[p := <[k := (t, d)]> m]> h, true) else (h, false)
                | None => (h, false)
                end
    | None => (h, false)
    end;
  hivex_commit h _ := (Some h, true);
  last_os_error := "os error" |}.

Lemma handle_path_node p : handle_path (node_handle p) = Some p.
Proof. cbn. by rewrite decode_encode, Pos.eqb_refl. Qed.

Lemma handle_path_Some n p : handle_path n = Some p → n = node_handle p.
Proof.
  unfold handle_path. destruct n as [|q|q]; [done| |done]. destruct (decode q) as [p'|]; [|done].
  destruct (Pos.eqb_spec (encode p') q); [|done]. intros [= ->]. unfold node_handle. congruence.
Qed.

Lemma toy_value_of (h : hive) n k : value_of h n k = handle_path n ≫= fun p => toy_get h p k.
Proof.
  unfold value_of. cbn [hivex_node_get_value toy_hivex]. destruct (handle_path n) as [p|]; [|done]. cbn.
  destruct (toy_get h p k) as [x|] eqn:E; cbn; [|done]. by rewrite decode_encode.
Qed.

Lemma toy_set (h : hive) n k t d h' rc : hivex_node_set_value h n k t d = (h', rc) →
  if rc then ∃ p m, handle_path n = Some p ∧ (h : toy_hive) !! p = Some m ∧ good_data d = true ∧
                    h' = <[p := <[k := (t, d)]> m]> (h : toy_hive)
  else h' = h.
Proof.
  cbn. destruct (handle_path n) as [p|]; [|by intros [= <- <-]].
  destruct ((h : toy_hive) !! p) as [m|] eqn:E; [|by intros [= <- <-]].
  destruct (good_data d) eqn:Ed; intros [= <- <-]; [|done]. by exists p, m.
Qed.

Lemma toy_hive_laws : HivexLaws.
Proof.
  split.
  - intros h. exists (fun n => length (default [] (handle_path n))). intros n c. cbn [hivex_node_get_child toy_hivex].
    destruct (handle_path n) as [p|]; [|done]. destruct (_ !! _); [|done]. intros _.
    rewrite handle_path_node. cbn. rewrite length_app. cbn. lia.
  - intros h v. cbn. destruct v as [|q|q]; [done| |done]. by destruct (decode q) as [[p k]|].
  - intros h n k t d. rewrite toy_value_of. destruct (handle_path n) as [p|]; [|done]. cbn. unfold toy_get.
    destruct (_ ≫= _) as [[t' d']|]; [|done]. destruct (good_data d') eqn:E; [|done]. intros [= -> ->].
    apply andb_true_iff in E as [E1 E2]. bool_solve. split; [|lia].
    apply Forall_forall. intros x Hx. rewrite forallb_elem_of in E1. specialize (E1 x Hx). bool_solve.
    unfold byte_ok. lia.
  - intros h n k t d h' rc Hs%toy_set. destruct rc; [|by subst]. destruct Hs as (p & m & _ & Hm & _ & ->).
    split; [done|]. intros n' c. cbn [hivex_node_get_child toy_hivex]. destruct (handle_path n') as [p'|]; [|done].
    destruct (decide (p' ++ [c] = p)) as [->|Hne].
    + by rewrite lookup_insert_eq, Hm.
    + by rewrite lookup_insert_ne.
  - intros h n k t d h' Hs%toy_set. destruct Hs as (p & m & Hp & Hm & Hd & ->). rewrite toy_value_of, Hp. cbn.
    unfold toy_get. rewrite lookup_insert_eq. cbn. by rewrite lookup_insert_eq, Hd.
  - intros h n k t d h' rc n' k' Hs%toy_set Hne. destruct rc; [|by subst].
    destruct Hs as (p & m & Hp & Hm & Hd & ->). rewrite !toy_value_of.
    destruct (handle_path n') as [p'|] eqn:Hp'; [|done]. cbn. unfold toy_get.
    destruct (decide (p' = p)) as [->|Hpp]; [|by rewrite lookup_insert_ne].
    rewrite lookup_insert_eq, Hm. cbn. rewrite lookup_insert_ne; [done|]. intros ->.
    destruct Hne as [Hne|Hne]; [|done]. apply Hne.
    by rewrite (handle_path_Some _ _ Hp), (handle_path_Some _ _ Hp').
  - intros h n c h' m. cbn [hivex_node_add_child hivex_node_get_child toy_hivex].
    destruct (handle_path n) as [p|] eqn:Hp; [|by intros [= _ <-]].
    destruct ((h : toy_hive) !! (p ++ [c])) as [x|] eqn:E; intros [= <- <-] _; [by rewrite E|].
    rewrite lookup_insert_eq. split; [done|split; [done|]]. intros n' c'.
    destruct (handle_path n') as [p'|]; [|done]. destruct (decide (p' ++ [c'] = p ++ [c])) as [->|Hne].
    + by rewrite lookup_insert_eq, E.
    + by rewrite lookup_insert_ne.
  - intros h old file. cbn. intros [= <-]. eauto.
Qed.

#[local] Existing Instance plain_crates.

(** a SAM with one disabled account, and an empty SOFTWARE hive. *)
Definition sample_domain_f : list Z :=
  replicate 104 0%Z ++ [2; 0; 0; 0]%Z ++ replicate 8 0%Z ++ le_encode 4 16 ++ replicate 16 3%Z ++ replicate 16 1%Z.
Definition sample_user_f : list Z := replicate 56 0%Z ++ le_encode 4 18 ++ replicate 20 0%Z.
Definition sample_sam : toy_hive := list_to_map
  [ ([], ∅); (["SAM"], ∅); (["SAM"; "Domains"], ∅);
    (["SAM"; "Domains"; "Account"], {["F" := (REG_BINARY, sample_domain_f)]});
    (users_path, ∅);
    (users_path ++ ["Names"], ∅); (users_path ++ ["Names"; "Admin"], {["" := (500%Z, [])]});
    (users_path ++ ["000001F4"], <["V" := (REG_BINARY, replicate 260 0%Z)]> {["F" := (REG_BINARY, sample_user_f)]}) ].
Definition sample_guest : hosts :=
  <["C/System32/config/SAM" := sample_sam]> {["C/System32/config/SOFTWARE" := {[ [] := ∅ ]}]}.
Definition sample_hash : list Z := replicate 16 9%Z.
Definition hash_written : hosts * outcome Error unit :=
  set_user_nt_hash_encrypted (<["sam" := sample_sam]> ∅) "sam" "Admin" (replicate 16 1%Z) sample_hash (replicate 16 2%Z).

Lemma password_read_back_witness :
  hash_written.2 = Ok tt ∧ stored_nt_hash hash_written.1 "sam" "Admin" (replicate 16 1%Z) = Ok sample_hash.
Proof.
  pose proof toy_hive_laws. pose proof plain_laws.
  assert (hash_written.2 = Ok tt) as E by (vm_compute; reflexivity). split; [exact E|].
  apply (password_read_back (<["sam" := sample_sam]> ∅) "sam" "Admin" (replicate 16 1%Z) sample_hash (replicate 16 2%Z)
           hash_written.1); [done| |done|rewrite <-E; exact (surjective_pairing hash_written)].
  apply Forall_replicate. unfold byte_ok. lia.
Defined.

Definition value_written : hosts * outcome Error unit :=
  set_registry_value (<["soft" := {[ [] := ∅ ]}]> ∅) "soft" ["A"; "B"] "X" "REG_SZ" (JStr "é").

Lemma registry_value_round_trip_witness :
  ∃ t bytes, encode_value "REG_SZ" (JStr "é") = Ok (t, bytes) ∧
    get_registry_value value_written.1 "soft" ["A"; "B"] "X" = Ok (Some (t, bytes)).
Proof.
  pose proof toy_hive_laws. assert (value_written.2 = Ok tt) as E by (vm_compute; reflexivity).
  apply (registry_value_round_trip (<["soft" := {[ [] := ∅ ]}]> ∅) "soft" ["A"; "B"] "X" "REG_SZ" (JStr "é")
           value_written.1). rewrite <-E. exact (surjective_pairing value_written).
Defined.

Lemma failed_reset_keeps_guest_witness :
  (reset_windows_password (fun _ => true) sample_guest 10 "C" "Nobody" (Some "pw") (replicate 16 2%Z)).1 = sample_guest.
Proof.
  pose proof toy_hive_laws.
  destruct (reset_windows_password (fun _ => true) sample_guest 10 "C" "Nobody" (Some "pw") (replicate 16 2%Z))
    as [g r] eqn:E.
  apply (failed_reset_keeps_guest (fun _ => true) sample_guest 10 "C" "Nobody" (Some "pw") (replicate 16 2%Z) g r);
    [done|done|]. intros ->. apply (f_equal snd) in E. vm_compute in E. discriminate E.
Defined.

(** a reset whose last copy fails reports an error and leaves the account without a password:
    the SAM in the guest is the blanked one, and no command sets the password. *)
Definition half_reset : hosts * outcome string unit :=
  reset_windows_password (fun p => negb (String.eqb p "C/System32/config/SOFTWARE")) sample_guest 10 "C" "Admin"
    (Some "pw") (replicate 16 2%Z).
Example half_reset_blank :
  half_reset.2 = Err "upload C/System32/config/SOFTWARE" ∧
  half_reset.1 !! "C/System32/config/SOFTWARE" = sample_guest !! "C/System32/config/SOFTWARE" ∧
  (half_reset.1 !! "C/System32/config/SAM" ≫= fun h => path_value h (users_path ++ ["000001F4"]) "V")
  = Some (REG_BINARY, replicate 160 0 ++ le_encode 4 4 ++ replicate 8 0 ++ le_encode 4 4 ++ replicate 84 0)%Z.
Proof. vm_compute. repeat split. Qed.

(** a number too large for the type loses its upper half. *)
Example dword_truncated : encode_value "REG_DWORD" (JInt 4294967297) = Ok (REG_DWORD, [1; 0; 0; 0]%Z).
Proof. vm_compute. reflexivity. Qed.

(** a hexadecimal text may hold signs, and a character of two bytes in it is a panic. *)
Example binary_sign : encode_value "REG_BINARY" (JStr "+1+2") = Ok (REG_BINARY, [1; 2]%Z).
Proof. vm_compute. reflexivity. Qed.
Example binary_panics : encode_value "REG_BINARY" (JStr "aéb") = Panic.
Proof. vm_compute. reflexivity. Qed.

(** the limit on names counts bytes: eleven characters are too long. *)
Example username_bytes : validate_windows_username "ééééééééééé" = Err (InvalidOperation "Windows username must be 1–20 characters").
Proof. vm_compute. reflexivity. Qed.

(** flagging a device for reinstallation replaces its flags: a disabled one is enabled. *)
Definition device_hive : toy_hive := list_to_map
  [ ([], ∅); (["CS"], ∅); (["CS"; "Enum"], ∅); (["CS"; "Enum"; "PCI"], ∅);
    (["CS"; "Enum"; "PCI"; "VEN_1AF4"], ∅);
    (["CS"; "Enum"; "PCI"; "VEN_1AF4"; "0"], {["ConfigFlags" := (REG_DWORD, le_encode 4 1)]}) ].
Example flags_replaced :
  let '(w, r) := set_configflags_reinstall (<["sys" := device_hive]> ∅) "sys" "CS" ["ven_1af4"] in
  r = Ok 1 ∧ (w !! "sys" ≫= fun h => path_value h ["CS"; "Enum"; "PCI"; "VEN_1AF4"; "0"] "ConfigFlags")
             = Some (REG_DWORD, le_encode 4 32).
Proof. vm_compute. repeat split. Qed.

(** deleting the device keys counts them and is committed. *)
Example device_deleted :
  let '(w, r) := delete_device_nodes (<["sys" := device_hive]> ∅) "sys" "CS" ["1AF4"] in
  r = Ok 1 ∧ registry_key_exists w "sys" ["CS"; "Enum"; "PCI"; "VEN_1AF4"] = Ok false.
Proof. vm_compute. repeat split. Qed.

(** a text written as a string value is read back from its bytes without the terminator. *)
Lemma string_value_text s : text s →
  encode_value "REG_SZ" (JStr s) = Ok (REG_SZ, utf16le_nul s) ∧
  from_utf16_lossy (utf16_units (take (length (utf16le_nul s) - 2) (utf16le_nul s))) = s.
Proof.
  intros Hs. split; [done|]. unfold utf16le_nul. rewrite length_app. cbn [length].
  replace (_ + 2 - 2) with (length (utf16_bytes (encode_utf16 s))) by lia.
  rewrite take_app_length. by apply utf16_text_round_trip.
Qed.
