(* ===== verification/LvmClone.v ===== *)
(** * Cloning logical volumes

    [src/guestfs/lvm_clone.rs]: a snapshot of the source volume is copied to a new volume,
    the file system of the copy gets a new UUID, and the copy is mounted to rewrite its
    configuration.  Volumes are changed by programs only ([LvmEnv]): a program may change
    the tree of the host (a mount makes files appear, an unmount makes them go away), and
    its answer may depend on everything that was done before.  The state is the tree
    ([FileOps]), the new UUIDs drawn so far and the log of what was done; the files that are
    opened to write them, under which name and where that led, and removing the temporary
    directory when it goes out of scope are part of the log.  Paths are texts;
    [verbose] changes only what is printed, and is left out, as is the host name that the
    full isolation gives its own name space. *)
From stdpp Require Import base gmap strings list.
From Stdlib Require Import ZArith Lia Ascii.
From S2P Require Import Prelude RustStr Partition Filesystem FileOps GuestFs Passport LiveExec Sam Hive DiskReader.

(** ** Data *)
Inductive IsolationLevel : Set := NoIsolation | MountOnly | FullIsolation.
#[export] Instance IsolationLevel_eq_dec : EqDecision IsolationLevel.
Proof. solve_decision. Defined.

Record LvmCloneConfig : Type := mk_LvmCloneConfig {
  lc_source_vg : string;
  lc_source_lv : string;
  lc_clone_lv_name : string;
  lc_target_vg : option string;
  lc_regenerate_uuids : bool;
  lc_update_fstab : bool;
  lc_update_bootloader : bool;
  lc_update_crypttab : bool;
  lc_hostname : option string;
  lc_dry_run : bool;
  lc_snapshot_size : option string;
  lc_regenerate_initramfs : bool;
  lc_isolation_level : IsolationLevel;
  lc_verify_security : bool;
  lc_regenerate_grub : bool;
  lc_verify_boot : bool;
  lc_container_image : option string
}.

Record UuidMapping : Type := mk_UuidMapping {
  um_device : string; um_fs_type : string; um_old_uuid : string; um_new_uuid : string
}.
Record LuksInfo : Type := mk_LuksInfo { lk_device : string; lk_uuid : string; lk_version : Z }.
Record SecurityWarning : Type := mk_SecurityWarning { sw_category : string; sw_message : string }.

Record CloneResult : Type := mk_CloneResult {
  cl_source_path : string;
  cl_clone_path : string;
  cl_uuid_mappings : list UuidMapping;
  cl_timestamp : string;
  cl_fstab_updated : bool;
  cl_bootloader_updated : bool;
  cl_crypttab_updated : bool;
  cl_initramfs_regenerated : bool;
  cl_namespace_isolated : bool;
  cl_grub_regenerated : bool;
  cl_boot_verified : bool;
  cl_kernel_version : option string;
  cl_backup_files : list string;
  cl_security_warnings : list SecurityWarning
}.

(** ** Programs and files of the host *)
Record lvm_out : Type := mk_lvm_out {
  lo_success : bool; lo_code : option Z; lo_stdout : string; lo_stderr : string
}.
Inductive event : Type :=
  | Ran (argv : list string)
  | Wrote (named target : list string)
  | Wiped (dir : list string).
#[export] Instance event_eq_dec : EqDecision event.
Proof. solve_decision. Defined.

Class LvmEnv := {
  (** what a program does and answers after a history, or why it could not be started *)
  program : list event → list string → tree → tree * (string + lvm_out);
  running_as_root : bool;
  (** the message of [unshare], if it fails *)
  unshare_error : option string;
  (** the temporary directory, or why there is none *)
  temp_dir : string + list string;
  (** what [Uuid::new_v4] gives at its calls *)
  new_v4 : nat → string;
  (** the error of a call on a file that fails *)
  io_text : list string → string;
  now_rfc3339 : string;
  (** the directory of the sources, for the container image *)
  project_dir : list string
}.

Record cstate : Type := mk_cstate { cs_tree : tree; cs_log : list event; cs_uuids : nat }.
Definition cact (A : Type) : Type := cstate → cstate * outcome Error A.
#[export] Instance cact_ret : MRet cact := fun A a s => (s, Ok a).
#[export] Instance cact_bind : MBind cact := fun A B f m s =>
  match m s with
  | (s, Ok a) => f a s
  | (s, Err e) => (s, Err e)
  | (s, Panic) => (s, Panic)
  end.
Definition cfail {A} (e : Error) : cact A := fun s => (s, Err e).
Definition cask {A} (f : tree → outcome Error A) : cact A := fun s => (s, f (cs_tree s)).
(** the result of an action as a value: a [match] on it in the source. *)
Definition attempt {A} (m : cact A) : cact (Error + A) := fun s =>
  match m s with
  | (s, Ok a) => (s, Ok (inr a))
  | (s, Err e) => (s, Ok (inl e))
  | (s, Panic) => (s, Panic)
  end.

Inductive CmdBuilder : Type := Sudo | Podman (container : string).

Section clone.
Context `{FileCrates} `{GuestIo} `{LvmEnv}.

Definition run_argv (argv : list string) : cact (string + lvm_out) := fun s =>
  let '(t, r) := program (cs_log s) argv (cs_tree s) in
  (mk_cstate t (cs_log s ++ [Ran argv]) (cs_uuids s), Ok r).

Definition build_sudo_command (prog : string) : list string :=
  if running_as_root then [prog] else ["sudo"; prog].
Definition build_command (cb : CmdBuilder) (prog : string) : list string :=
  match cb with
  | Sudo => build_sudo_command prog
  | Podman name => ["podman"; "exec"; name; prog]
  end.

(** [output()] with an error that starts with [what] when the program does not start. *)
Definition output (cb : CmdBuilder) (prog : string) (args : list string) (what : string) : cact lvm_out :=
  r ← run_argv (build_command cb prog ++ args);
  match r with
  | inl e => cfail (CommandFailed (what +:+ e))
  | inr o => mret o
  end.
Definition succeeds (o : lvm_out) (what : string) : cact () :=
  if lo_success o then mret () else cfail (CommandFailed (what +:+ lossy (lo_stderr o))).

(** ** [std::fs] *)
Definition path_exists (t : tree) (p : list string) : bool :=
  match node_at t p with Some _ => true | None => false end.
Definition read_text (t : tree) (p : list string) : string + string :=
  match node_at t p with
  | Some (File c _ _) => if utf8_valid c then inr c else inl (io_text p)
  | _ => inl (io_text p)
  end.
Definition read_to_string (p : list string) (what : string) : cact string :=
  cask (fun t => match read_text t p with
                 | inr c => Ok c
                 | inl e => Err (CommandFailed (what +:+ e))
                 end).
(** where a file is opened to write it: links are followed. *)
Definition opened_at (p : list string) (t : tree) : list event :=
  match open_truncated umask_mode p t with Some (_, q, _) => [Wrote p q] | None => [] end.
Definition write_file (p : list string) (content what : string) : cact () := fun s =>
  let '(t, ok) := fs_write_bytes (write_fault p) p content (cs_tree s) in
  (mk_cstate t (cs_log s ++ opened_at p (cs_tree s)) (cs_uuids s),
   if ok then Ok () else Err (CommandFailed (what +:+ io_text p))).

(** [TempDir] removes the directory with everything below it, and keeps quiet about what
    it cannot remove. *)
Definition outside (root : list string) (t : tree) : tree :=
  filter (fun e => path_starts_with e.1 root = false) t.
Definition drop_temp_dir (root : list string) (s : cstate) : cstate :=
  mk_cstate (outside root (cs_tree s)) (cs_log s ++ [Wiped root]) (cs_uuids s).
Definition make_temp_dir (root : list string) (s : cstate) : cstate :=
  mk_cstate (<[root := Dir 0 448 written_at]> (cs_tree s)) (cs_log s) (cs_uuids s).
Definition with_temp_dir {A} (body : list string → cact A) : cact A := fun s =>
  match temp_dir with
  | inl e => (s, Err (CommandFailed ("Failed to create temp dir: " +:+ e)))
  | inr root =>
      let '(s, r) := body root (make_temp_dir root s) in
      (drop_temp_dir root s, r)
  end.

(** ** Volumes *)
Definition is_device_mounted (cb : CmdBuilder) (device_or_path : string) : cact bool :=
  o ← output cb "findmnt" [if starts_with "/dev/" device_or_path then "--source" else "--mountpoint"; device_or_path]
        "findmnt failed: ";
  mret (lo_success o).

(** [ParseIntError] of a text that is not a number of the type. *)
Definition parse_int_error (s : string) : string :=
  if is_empty s then "cannot parse integer from empty string"
  else match from_str_radix 10 (10 ^ str_len s) (bytes_of_string s) with
       | Some _ => "number too large to fit in target type"
       | None => "invalid digit found in string"
       end.
Definition parse_u (bound : Z) (s : string) : option Z := from_str_radix 10 bound (bytes_of_string s).

Definition lv_size_bytes (cb : CmdBuilder) (vg lv : string) : cact Z :=
  o ← output cb "lvs" ["--noheadings"; "--nosuffix"; "--units"; "b"; "-o"; "lv_size"; vg +:+ "/" +:+ lv] "lvs failed: ";
  succeeds o ("lvs failed for " +:+ vg +:+ "/" +:+ lv +:+ ": ") ;;
  let raw := trim (lossy (lo_stdout o)) in
  let int_part := default raw (head (split_char "."%char raw)) in
  match parse_u u64_max int_part with
  | Some n => mret n
  | None => cfail (InvalidFormat ("Cannot parse LV size '" +:+ raw +:+ "': " +:+ parse_int_error int_part))
  end.

Definition dev_path (vg lv : string) : string := "/dev/" +:+ vg +:+ "/" +:+ lv.

Definition create_snapshot (cb : CmdBuilder) (source_vg source_lv snapshot_name size : string) : cact string :=
  o ← output cb "lvcreate" ["--snapshot"; "--name"; snapshot_name; "--size"; size; dev_path source_vg source_lv]
        "lvcreate snapshot failed: ";
  succeeds o "lvcreate snapshot failed: " ;;
  mret (dev_path source_vg snapshot_name).

Definition create_target_lv (cb : CmdBuilder) (vg lv_name : string) (size_bytes : Z) : cact string :=
  o ← output cb "lvcreate" ["--name"; lv_name; "--size"; fmt_Z size_bytes +:+ "b"; vg] "lvcreate failed: ";
  succeeds o ("lvcreate failed for " +:+ vg +:+ "/" +:+ lv_name +:+ ": ") ;;
  mret (dev_path vg lv_name).

Definition dd_copy (cb : CmdBuilder) (source target : string) : cact () :=
  o ← output cb "dd" ["if=" +:+ source; "of=" +:+ target; "bs=4M"; "conv=fsync"; "status=progress"] "dd failed: ";
  succeeds o "dd failed: ".

Definition remove_lv (cb : CmdBuilder) (device : string) : cact () :=
  o ← output cb "lvremove" ["-f"; device] "lvremove failed: ";
  succeeds o ("lvremove failed for " +:+ device +:+ ": ").

(** ** UUIDs *)
Definition get_blkid_uuid (cb : CmdBuilder) (device : string) : cact string :=
  o ← output cb "blkid" ["-s"; "UUID"; "-o"; "value"; device] "blkid failed: ";
  if negb (lo_success o) then cfail (CommandFailed ("blkid returned non-zero for " +:+ device))
  else let uuid := trim (lossy (lo_stdout o)) in
       if is_empty uuid then cfail (NotFound ("No UUID found for " +:+ device)) else mret uuid.

Definition detect_filesystem_type (cb : CmdBuilder) (device : string) : cact string :=
  o ← output cb "blkid" ["-s"; "TYPE"; "-o"; "value"; device] "blkid failed: ";
  if negb (lo_success o) then cfail (CommandFailed ("blkid could not detect filesystem on " +:+ device))
  else let fs_type := trim (lossy (lo_stdout o)) in
       if is_empty fs_type then cfail (NotFound ("No filesystem type found on " +:+ device)) else mret fs_type.

Definition xfs_repair_device (cb : CmdBuilder) (device : string) : cact () :=
  mounted ← is_device_mounted cb device;
  if (mounted : bool) then cfail (InvalidState ("Device " +:+ device +:+ " must be unmounted before xfs_repair"))
  else o ← output cb "xfs_repair" [device] "xfs_repair failed: ";
       succeeds o ("xfs_repair failed on " +:+ device +:+ ": ").

Definition ext_check_device (cb : CmdBuilder) (device : string) : cact () :=
  mounted ← is_device_mounted cb device;
  if (mounted : bool) then cfail (InvalidState ("Device " +:+ device +:+ " must be unmounted before e2fsck"))
  else o ← output cb "e2fsck" ["-f"; "-p"; device] "e2fsck failed: ";
       if (1 <? default 255%Z (lo_code o))%Z
       then cfail (CommandFailed ("e2fsck found uncorrectable errors on " +:+ device +:+ ": " +:+ lossy (lo_stderr o)))
       else mret ().

Definition set_uuid_with (cb : CmdBuilder) (tool device new_uuid : string) : cact () :=
  o ← output cb tool ["-U"; new_uuid; device] (tool +:+ " failed: ");
  succeeds o ("Failed to set UUID on " +:+ device +:+ ": ").

Definition set_filesystem_uuid (cb : CmdBuilder) (device new_uuid : string) : cact () :=
  fs_type ← detect_filesystem_type cb device;
  let is_one l := existsb (String.eqb fs_type) l in
  if is_one ["ext2"; "ext3"; "ext4"] then ext_check_device cb device ;; set_uuid_with cb "tune2fs" device new_uuid
  else if is_one ["xfs"] then xfs_repair_device cb device ;; set_uuid_with cb "xfs_admin" device new_uuid
  else if is_one ["btrfs"] then set_uuid_with cb "btrfstune" device new_uuid
  else if is_one ["swap"] then set_uuid_with cb "mkswap" device new_uuid
  else if is_one ["vfat"; "fat32"; "fat16"; "ntfs"] then mret ()
  else cfail (Unsupported ("Cannot set UUID for filesystem type: " +:+ fs_type)).

Definition luks_version_line (line : string) : option string :=
  if starts_with "Version:" line then Some (trim (trim_start_matches "Version:" line)) else None.
Definition detect_luks_version (cb : CmdBuilder) (device : string) : cact Z :=
  o ← output cb "cryptsetup" ["luksDump"; device] "cryptsetup luksDump failed: ";
  match omap luks_version_line (lines (lossy (lo_stdout o))) with
  | [] => mret 2%Z
  | v :: _ => match parse_u u32_max v with
              | Some n => mret n
              | None => cfail (InvalidFormat "Cannot parse LUKS version")
              end
  end.

(** whether the second program succeeds is not looked at. *)
Definition detect_luks (cb : CmdBuilder) (device : string) : cact (option LuksInfo) :=
  r ← run_argv (build_command cb "cryptsetup" ++ ["isLuks"; device]);
  match r with
  | inl _ => mret None
  | inr o =>
      if negb (lo_success o) then mret None
      else
        u ← output cb "cryptsetup" ["luksUUID"; device] "cryptsetup luksUUID failed: ";
        version ← attempt (detect_luks_version cb device);
        mret (Some (mk_LuksInfo device (trim (lossy (lo_stdout u)))
                      (match version with inr v => v | inl _ => 2%Z end)))
  end.

Definition draw_uuid : cact string := fun s =>
  (mk_cstate (cs_tree s) (cs_log s) (S (cs_uuids s)), Ok (new_v4 (cs_uuids s))).

Definition change_luks_uuid (cb : CmdBuilder) (device : string) (info : LuksInfo) : cact UuidMapping :=
  new_uuid ← draw_uuid;
  o ← output cb "cryptsetup" ["luksUUID"; device; "--uuid"; new_uuid; "--batch-mode"] "cryptsetup luksUUID --uuid failed: ";
  succeeds o ("Failed to change LUKS UUID on " +:+ device +:+ ": ") ;;
  mret (mk_UuidMapping device ("crypto_LUKS" +:+ fmt_Z (lk_version info)) (lk_uuid info) new_uuid).

Definition regenerate_clone_uuids (cb : CmdBuilder) (clone_lv_path : string) : cact (list UuidMapping) :=
  luks ← detect_luks cb clone_lv_path;
  match luks with
  | Some info =>
      r ← attempt (change_luks_uuid cb clone_lv_path info);
      mret (match r with inr m => [m] | inl _ => [] end)
  | None =>
      r ← attempt (get_blkid_uuid cb clone_lv_path);
      match r with
      | inl _ => mret []
      | inr old_uuid =>
          fs_type ← detect_filesystem_type cb clone_lv_path;
          new_uuid ← draw_uuid;
          set_filesystem_uuid cb clone_lv_path new_uuid ;;
          mret [mk_UuidMapping clone_lv_path fs_type old_uuid new_uuid]
      end
  end.

(** ** Mounts *)
Definition mount_device (cb : CmdBuilder) (device : string) (mount_point : list string) : cact () :=
  let mp := display mount_point in
  o ← output cb "mount" [device; mp] "mount failed: ";
  succeeds o ("mount " +:+ device +:+ " at " +:+ mp +:+ " failed: ").
Definition unmount_device (cb : CmdBuilder) (mount_point : list string) : cact () :=
  let mp := display mount_point in
  o ← output cb "umount" [mp] "umount failed: ";
  succeeds o ("umount " +:+ mp +:+ " failed: ").

Definition bind_one (cb : CmdBuilder) (root_mount : list string) (dir : string) : cact () :=
  let target := display root_mount +:+ "/" +:+ dir in
  let source := "/" +:+ dir in
  (fun s => let '(t, ok) := create_dir_all (S (length root_mount)) (cs_tree s) (root_mount ++ [dir]) in
            (mk_cstate t (cs_log s) (cs_uuids s),
             if ok then Ok () else Err (CommandFailed ("mkdir " +:+ target +:+ " failed: " +:+ io_text (root_mount ++ [dir]))))) ;;
  o ← output cb "mount" ["--bind"; source; target] ("bind mount " +:+ source +:+ " -> " +:+ target +:+ " failed: ");
  succeeds o ("bind mount " +:+ source +:+ " -> " +:+ target +:+ " failed: ").
Fixpoint each {A} (f : A → cact ()) (l : list A) : cact () :=
  match l with [] => mret () | x :: l => f x ;; each f l end.
Definition mount_chroot_binds (cb : CmdBuilder) (root_mount : list string) : cact () :=
  each (bind_one cb root_mount) ["proc"; "sys"; "dev"].
Definition unmount_chroot_binds (cb : CmdBuilder) (root_mount : list string) : cact () :=
  each (fun dir => run_argv (build_command cb "umount" ++ [display root_mount +:+ "/" +:+ dir]) ;; mret ())
    ["dev"; "sys"; "proc"].
Definition run_in_chroot (cb : CmdBuilder) (root_mount : list string) (command : list string) : cact lvm_out :=
  mount_chroot_binds cb root_mount ;;
  result ← run_argv (build_command cb "chroot" ++ [display root_mount] ++ command);
  unmount_chroot_binds cb root_mount ;;
  match result with
  | inl e => cfail (CommandFailed ("chroot failed: " +:+ e))
  | inr o => mret o
  end.

(** ** Configuration files

    [Regex::replace_all] with an escaped text as the pattern: each occurrence from the
    left, and a replacement without a dollar sign.  The empty pattern matches before every
    character and at the end. *)
Fixpoint sprinkle (by_ s : string) : string :=
  match s with
  | EmptyString => by_
  | String c s => (if is_cont (byte_of c) then "" else by_) +:+ String c (sprinkle by_ s)
  end.
Fixpoint replace_fuel (fuel : nat) (pat by_ s : string) : string :=
  match fuel, s with
  | S fuel, String c s' =>
      if starts_with pat s then by_ +:+ replace_fuel fuel pat by_ (str_drop (String.length pat) s)
      else String c (replace_fuel fuel pat by_ s')
  | _, _ => s
  end.
Definition replace_all (pat by_ s : string) : string :=
  if is_empty pat then sprinkle by_ s else replace_fuel (String.length s) pat by_ s.
Definition replace_uuids (prefix : string) (mappings : list UuidMapping) (content : string) : string :=
  foldl (fun updated m => replace_all (prefix +:+ um_old_uuid m) (prefix +:+ um_new_uuid m) updated) content mappings.

(** read, back up, and write when something changed. *)
Definition rewrite_config (p backup : list string) (name backup_name prefix : string) (mappings : list UuidMapping) : cact string :=
  content ← read_to_string p ("Failed to read " +:+ name +:+ ": ");
  write_file backup content ("Failed to write " +:+ backup_name +:+ " backup: ") ;;
  let updated := replace_uuids prefix mappings content in
  (if String.eqb updated content then mret () else write_file p updated ("Failed to write " +:+ name +:+ ": ")) ;;
  mret (display backup).

Definition update_clone_fstab (root_mount : list string) (mappings : list UuidMapping) : cact (option string) :=
  let p := root_mount ++ ["etc"; "fstab"] in
  found ← cask (fun t => Ok (path_exists t p));
  if (found : bool) then
    bak ← rewrite_config p (root_mount ++ ["etc"; "fstab.bak"]) "fstab" "fstab" "UUID=" mappings;
    mret (Some bak)
  else mret None.

Definition update_clone_crypttab (root_mount : list string) (mappings : list UuidMapping) : cact (option string) :=
  let p := root_mount ++ ["etc"; "crypttab"] in
  found ← cask (fun t => Ok (path_exists t p));
  if (found : bool) then
    bak ← rewrite_config p (root_mount ++ ["etc"; "crypttab.bak"]) "crypttab" "crypttab" "" mappings;
    mret (Some bak)
  else mret None.

Fixpoint update_grub_files (files : list (list string)) (mappings : list UuidMapping) : cact (list string) :=
  match files with
  | [] => mret []
  | p :: files =>
      found ← cask (fun t => Ok (path_exists t p));
      if (found : bool) then
        bak ← rewrite_config p (with_extension p "cfg.bak") "grub.cfg" "grub" "" mappings;
        baks ← update_grub_files files mappings;
        mret (bak :: baks)
      else update_grub_files files mappings
  end.
Definition grub_paths (root_mount : list string) : list (list string) :=
  [root_mount ++ ["boot"; "grub"; "grub.cfg"]; root_mount ++ ["boot"; "grub2"; "grub.cfg"]].
Definition update_clone_bootloader (root_mount : list string) (mappings : list UuidMapping) : cact (list string) :=
  update_grub_files (grub_paths root_mount) mappings.

Definition host_line (hostname line : string) : string :=
  if starts_with "127.0.1.1" line then "127.0.1.1" +:+ String (ascii_of_byte 9) hostname else line.
Definition set_clone_hostname (root_mount : list string) (hostname : string) : cact () :=
  let hostname_path := root_mount ++ ["etc"; "hostname"] in
  named ← cask (fun t => Ok (path_exists t hostname_path || path_exists t (root_mount ++ ["etc"])));
  (if (named : bool) then write_file hostname_path (hostname +:+ newline_str) "Failed to write hostname: " else mret ()) ;;
  let hosts_path := root_mount ++ ["etc"; "hosts"] in
  listed ← cask (fun t => Ok (path_exists t hosts_path));
  if (listed : bool) then
    content ← read_to_string hosts_path "Failed to read hosts: ";
    let updated := join newline_str (host_line hostname <$> lines content) in
    if String.eqb updated content then mret ()
    else
      let nl := ascii_of_byte 10 in
      write_file hosts_path
        (if ends_with_char nl content && negb (ends_with_char nl updated) then updated +:+ newline_str else updated)
        "Failed to write hosts: "
  else mret ().

(** ** Boot *)
Definition initramfs_tools : list (list string) :=
  [["dracut"; "--force"; "--regenerate-all"]; ["update-initramfs"; "-u"]; ["mkinitcpio"; "-P"]].
(** the first tool that succeeds; an error of the mounts ends the search. *)
Fixpoint first_tool (cb : CmdBuilder) (root_mount : list string) (tools : list (list string)) : cact bool :=
  match tools with
  | [] => mret false
  | tool :: tools =>
      o ← run_in_chroot cb root_mount tool;
      if lo_success o then mret true else first_tool cb root_mount tools
  end.
Definition regenerate_initramfs (cb : CmdBuilder) (root_mount : list string) : cact () :=
  done_ ← first_tool cb root_mount initramfs_tools;
  if (done_ : bool) then mret ()
  else cfail (CommandFailed "No supported initramfs tool found (tried dracut, update-initramfs, mkinitcpio)").

Definition grub_targets : list (string * list string) :=
  [("grub2-mkconfig", ["boot"; "grub2"; "grub.cfg"]); ("grub-mkconfig", ["boot"; "grub"; "grub.cfg"])].
(** a copy that fails is passed over. *)
Fixpoint keep_grub_configs (root_mount : list string) (targets : list (string * list string)) : cact (list string) :=
  match targets with
  | [] => mret []
  | (_, rel) :: targets =>
      let p := root_mount ++ rel in
      let backup := with_extension p "cfg.pre-regen" in
      kept ← (fun s => if path_exists (cs_tree s) p
                       then let '(t, ok) := fs_copy_file (write_fault backup) p backup (cs_tree s) in
                            (mk_cstate t (cs_log s ++ match node_at (cs_tree s) p with
                                                      | Some (File _ _ _) => opened_at backup (cs_tree s)
                                                      | _ => []
                                                      end) (cs_uuids s), Ok (ok : bool))
                       else (s, Ok false));
      rest ← keep_grub_configs root_mount targets;
      mret (if (kept : bool) then display backup :: rest else rest)
  end.
Definition regenerate_grub_config (cb : CmdBuilder) (root_mount : list string) : cact (list string) :=
  backups ← keep_grub_configs root_mount grub_targets;
  done_ ← first_tool cb root_mount ((fun x => [x.1; "-o"; display x.2]) <$> grub_targets);
  if (done_ : bool) then mret backups
  else cfail (CommandFailed "Could not regenerate GRUB config (tried grub2-mkconfig, grub-mkconfig)").

(** the names in a directory; [None]: it cannot be read. *)
Definition dir_names (t : tree) (p : list string) : option (list string) :=
  match follow t p with
  | Some q => if is_dir t q then Some (lossy <$> map fst (children t q)) else None
  | None => None
  end.

(** [vmlinuz-(.+)]: the rest of the line after the first match. *)
Definition first_line (s : string) : string := default "" (head (split_char (ascii_of_byte 10) s)).
Fixpoint kernel_of (name : string) : option string :=
  match name with
  | EmptyString => None
  | String _ rest =>
      let version := first_line (str_drop 8 name) in
      if starts_with "vmlinuz-" name && negb (is_empty version) then Some version else kernel_of rest
  end.
Definition detect_kernel_version (t : tree) (root_mount : list string) : outcome Error string :=
  let boot_dir := root_mount ++ ["boot"] in
  if negb (path_exists t boot_dir) then Err (NotFound "No /boot directory found")
  else match dir_names t boot_dir with
       | None => Err (CommandFailed ("Cannot read /boot: " +:+ io_text boot_dir))
       | Some names =>
           match last (str_sort (omap kernel_of names)) with
           | Some v => Ok v
           | None => Err (NotFound "No vmlinuz kernel found in /boot")
           end
       end.

Definition warn_if (b : bool) (category message : string) : list SecurityWarning :=
  if b then [mk_SecurityWarning category message] else [].
Definition text_at (t : tree) (p : list string) : option string :=
  match read_text t p with inr c => Some c | inl _ => None end.
Definition is_comment (trimmed : string) : bool := starts_with "#" trimmed || is_empty trimmed.

Definition has_initramfs_name (name : string) : bool :=
  starts_with "initramfs-" name || starts_with "initrd.img-" name || starts_with "initrd-" name.
Definition boot_dir_warnings (t : tree) (boot_dir : list string) : list SecurityWarning :=
  if path_exists t boot_dir then
    let names := default [] (dir_names t boot_dir) in
    warn_if (negb (existsb (starts_with "vmlinuz") names)) "boot_kernel" "No kernel (vmlinuz) found in /boot"
    ++ warn_if (negb (existsb has_initramfs_name names)) "boot_initramfs" "No initramfs/initrd found in /boot"
  else [mk_SecurityWarning "boot_missing" "No /boot directory found"].

Definition hex_or_dash (c : ascii) : bool :=
  match from_hex (byte_of c) with Some _ => true | None => Ascii.eqb c "-"%char end.
(** [UUID=([a-fA-F0-9-]+)] somewhere in the line. *)
Fixpoint has_uuid_ref (s : string) : bool :=
  match s with
  | EmptyString => false
  | String _ rest =>
      (starts_with "UUID=" s && match str_drop 5 s with String c _ => hex_or_dash c | EmptyString => false end)
      || has_uuid_ref rest
  end.
Definition fstab_uuid_warnings (content : string) : list SecurityWarning :=
  mjoin ((fun line =>
    let trimmed := trim line in
    warn_if (negb (is_comment trimmed) && contains "UUID=" trimmed && negb (has_uuid_ref trimmed))
      "boot_fstab_uuid" ("Malformed UUID in fstab: " +:+ trimmed)) <$> lines content).

Definition verify_boot_configuration (t : tree) (root_mount : list string) : list SecurityWarning :=
  boot_dir_warnings t (root_mount ++ ["boot"])
  ++ warn_if (negb (existsb (path_exists t) (grub_paths root_mount))) "boot_grub"
       "No GRUB configuration found (boot/grub/grub.cfg or boot/grub2/grub.cfg)"
  ++ mjoin ((fun p => match text_at t p with
                      | Some content =>
                          warn_if (negb (contains "UUID=" content) && contains "root=/dev/" content) "boot_grub_uuid"
                            (display p +:+ " uses bare device paths instead of UUID=")
                      | None => []
                      end) <$> grub_paths root_mount)
  ++ match text_at t (root_mount ++ ["etc"; "fstab"]) with
     | Some content => fstab_uuid_warnings content
     | None => []
     end.

(** ** Security *)
Definition shadow_warnings (t : tree) (root_mount : list string) : list SecurityWarning :=
  match node_at t (root_mount ++ ["etc"; "shadow"]) with
  | Some n =>
      let mode := Z.land (node_mode n) 511 in
      warn_if (negb (mode =? 0)%Z && negb (mode =? 384)%Z && negb (mode =? 416)%Z) "shadow_permissions"
        ("/etc/shadow has permissions " +:+ fmt_octal mode +:+ ", expected 000/600/640")
  | None => []
  end.
(** the first line that begins with the setting decides. *)
Fixpoint root_login_lines (ls : list string) : list SecurityWarning :=
  match ls with
  | [] => []
  | line :: ls =>
      if starts_with "PermitRootLogin" (trim line)
      then warn_if (contains "yes" (trim line)) "ssh_root_login" "PermitRootLogin is set to yes"
      else root_login_lines ls
  end.
Definition tmp_line_warnings (line : string) : list SecurityWarning :=
  let trimmed := trim line in
  if is_comment trimmed then []
  else match split_whitespace trimmed with
       | _ :: mount_point :: _ :: opts :: _ =>
           warn_if (String.eqb mount_point "/tmp" && (negb (contains "noexec" opts) || negb (contains "nosuid" opts)))
             "tmp_mount_options" "/tmp missing noexec,nosuid mount options"
       | _ => []
       end.
Definition ssh_key_files : list (list string) :=
  [["etc"; "ssh"; "ssh_host_rsa_key"]; ["etc"; "ssh"; "ssh_host_ecdsa_key"]; ["etc"; "ssh"; "ssh_host_ed25519_key"]].

(** the part that looks at the password of root warns of nothing and is left out. *)
Definition verify_clone_security (t : tree) (root_mount : list string) : list SecurityWarning :=
  shadow_warnings t root_mount
  ++ match text_at t (root_mount ++ ["etc"; "ssh"; "sshd_config"]) with
     | Some content => root_login_lines (lines content)
     | None => []
     end
  ++ match text_at t (root_mount ++ ["etc"; "fstab"]) with
     | Some content => mjoin (tmp_line_warnings <$> lines content)
     | None => []
     end
  ++ warn_if (existsb (fun k => path_exists t (root_mount ++ k)) ssh_key_files) "ssh_host_keys"
       "Clone still contains SSH host keys (consider removing for uniqueness)"
  ++ match text_at t (root_mount ++ ["etc"; "machine-id"]) with
     | Some content =>
         warn_if (negb (is_empty (trim content)) && negb (String.eqb (trim content) "uninitialized")) "machine_id"
           "Clone has a populated machine-id (consider clearing for uniqueness)"
     | None => []
     end.

(** ** The clone *)
Definition setup_namespace_isolation (level : IsolationLevel) : cact () :=
  match level with
  | NoIsolation => mret ()
  | _ =>
      match unshare_error with
      | Some e => cfail (CommandFailed e)
      | None =>
          o ← output Sudo "mount" ["--make-rprivate"; "/"] "mount --make-rprivate failed: ";
          succeeds o "mount --make-rprivate / failed: "
      end
  end.

Definition needs_mount (config : LvmCloneConfig) : bool :=
  lc_update_fstab config || lc_update_bootloader config || lc_update_crypttab config
  || bool_decide (is_Some (lc_hostname config)) || lc_regenerate_initramfs config || lc_regenerate_grub config
  || lc_verify_boot config || lc_verify_security config.

Definition plain_result (config : LvmCloneConfig) (isolated : bool) (source_path clone_path : string)
    (mappings : list UuidMapping) : CloneResult :=
  mk_CloneResult source_path clone_path mappings now_rfc3339 false false false false isolated false false None [] [].

Definition is_nil {A} (l : list A) : bool := match l with [] => true | _ => false end.
(** an optional step whose error is only printed. *)
Definition optionally {A} (b : bool) (m : cact A) : cact (option A) :=
  if b then r ← attempt m; mret (match r with inr a => Some a | inl _ => None end) else mret None.

Definition customize (cb : CmdBuilder) (config : LvmCloneConfig) (root_mount : list string) (r : CloneResult) : cact CloneResult :=
  mount_device cb (cl_clone_path r) root_mount ;;
  let mapped := negb (is_nil (cl_uuid_mappings r)) in
  fstab ← optionally (lc_update_fstab config && mapped) (update_clone_fstab root_mount (cl_uuid_mappings r));
  boot ← optionally (lc_update_bootloader config && mapped) (update_clone_bootloader root_mount (cl_uuid_mappings r));
  crypt ← optionally (lc_update_crypttab config && mapped) (update_clone_crypttab root_mount (cl_uuid_mappings r));
  match lc_hostname config with Some h => set_clone_hostname root_mount h | None => mret () end ;;
  kernel ← cask (fun t => Ok (match detect_kernel_version t root_mount with Ok v => Some v | _ => None end));
  initramfs ← optionally (lc_regenerate_initramfs config) (regenerate_initramfs cb root_mount);
  grub ← optionally (lc_regenerate_grub config) (regenerate_grub_config cb root_mount);
  checks ← cask (fun t => Ok (if lc_verify_boot config then Some (verify_boot_configuration t root_mount) else None));
  audit ← cask (fun t => Ok (if lc_verify_security config then Some (verify_clone_security t root_mount) else None));
  unmount_device cb root_mount ;;
  mret (mk_CloneResult (cl_source_path r) (cl_clone_path r) (cl_uuid_mappings r) (cl_timestamp r)
    (bool_decide (is_Some fstab)) (bool_decide (is_Some boot)) (bool_decide (is_Some crypt))
    (bool_decide (is_Some initramfs)) (cl_namespace_isolated r) (bool_decide (is_Some grub))
    (match checks with Some [] => true | _ => false end)
    kernel
    (option_list (mjoin fstab) ++ default [] boot ++ option_list (mjoin crypt) ++ default [] grub)
    (match audit with Some warnings => warnings | None => default [] checks end)).

(** from the snapshot to the result, the same in both variants. *)
Definition after_copy (cb : CmdBuilder) (config : LvmCloneConfig) (isolated : bool) (target_path : string) : cact CloneResult :=
  mappings ← (if lc_regenerate_uuids config then regenerate_clone_uuids cb target_path else mret []);
  let r := plain_result config isolated (dev_path (lc_source_vg config) (lc_source_lv config)) target_path mappings in
  if needs_mount config then with_temp_dir (fun root => customize cb config root r) else mret r.
Definition after_target (cb : CmdBuilder) (config : LvmCloneConfig) (isolated : bool) (snap_path : string)
    (target : Error + string) : cact CloneResult :=
  match target with
  | inl e => attempt (remove_lv cb snap_path) ;; cfail e
  | inr target_path =>
      copied ← attempt (dd_copy cb snap_path target_path);
      match copied with
      | inl e => attempt (remove_lv cb snap_path) ;; attempt (remove_lv cb target_path) ;; cfail e
      | inr _ => remove_lv cb snap_path ;; after_copy cb config isolated target_path
      end
  end.
Definition copy_volume (cb : CmdBuilder) (config : LvmCloneConfig) (isolated : bool) : cact CloneResult :=
  let target_vg := default (lc_source_vg config) (lc_target_vg config) in
  size_bytes ← lv_size_bytes cb (lc_source_vg config) (lc_source_lv config);
  snap_path ← create_snapshot cb (lc_source_vg config) (lc_source_lv config) (lc_source_lv config +:+ "-clone-snap")
                (default "10G" (lc_snapshot_size config));
  target ← attempt (create_target_lv cb target_vg (lc_clone_lv_name config) size_bytes);
  after_target cb config isolated snap_path target.

(** the checks of the two volumes, and the copy. *)
Definition checked_volumes (config : LvmCloneConfig) (isolated : bool) : cact CloneResult :=
  let source_path := dev_path (lc_source_vg config) (lc_source_lv config) in
  let clone_path := dev_path (default (lc_source_vg config) (lc_target_vg config)) (lc_clone_lv_name config) in
  present ← cask (fun t => Ok (path_exists t (pieces source_path)));
  if negb present then cfail (NotFound ("Source LV does not exist: " +:+ source_path))
  else
    mounted ← is_device_mounted Sudo source_path;
    if (mounted : bool) then cfail (InvalidState ("Source LV is currently mounted: " +:+ source_path))
    else
      taken ← cask (fun t => Ok (path_exists t (pieces clone_path)));
      if (taken : bool) then cfail (InvalidState ("Target LV already exists: " +:+ clone_path))
      else if lc_dry_run config then mret (plain_result config isolated source_path clone_path [])
      else copy_volume Sudo config isolated.
Definition lvm_clone (config : LvmCloneConfig) : cact CloneResult :=
  setup_namespace_isolation (lc_isolation_level config) ;;
  checked_volumes config (negb (bool_decide (lc_isolation_level config = NoIsolation))).

(** ** The variant with a container *)
Definition GUESTKIT_LVM_IMAGE : string := "guestkit-lvm:latest".
Definition container_name : cact string :=
  u ← draw_uuid; mret ("guestkit-lvm-" +:+ String.substring 0 8 u).

Definition build_image (container_image : option string) : cact () :=
  check ← run_argv ["podman"; "image"; "exists"; GUESTKIT_LVM_IMAGE];
  if match check with inr o => lo_success o | inl _ => false end then mret ()
  else
    let dockerfile := project_dir ++ ["Dockerfile"] in
    found ← cask (fun t => Ok (path_exists t dockerfile));
    if negb found then cfail (NotFound ("Dockerfile not found at " +:+ display dockerfile))
    else
      r ← run_argv (["podman"; "build"; "--network=host"; "--target"; "lvm-worker"; "-t"; GUESTKIT_LVM_IMAGE]
             ++ match container_image with Some base => ["--build-arg"; "BASE_IMAGE=" +:+ base] | None => [] end
             ++ ["-f"; display dockerfile; display project_dir]);
      match r with
      | inl e => cfail (CommandFailed ("podman build failed: " +:+ e))
      | inr o => if lo_success o then mret ()
                 else cfail (CommandFailed ("podman build failed: " +:+ trim (lossy (lo_stderr o))))
      end.

Definition start_container (name : string) : cact () :=
  r ← run_argv (["podman"; "run"; "-d"; "--rm"; "--privileged"; "--pid=host"; "--network=host"; "-v"; "/dev:/dev";
                 "-v"; "/run/lvm:/run/lvm"; "-v"; "/run/udev:/run/udev"; "-v"; "/etc/lvm:/etc/lvm"; "--name"; name;
                 GUESTKIT_LVM_IMAGE; "sleep"; "infinity"]);
  match r with
  | inl e => cfail (CommandFailed ("podman not found or failed to start: " +:+ e))
  | inr o => if lo_success o then mret ()
             else cfail (CommandFailed ("podman run failed: " +:+ trim (lossy (lo_stderr o))))
  end.

Definition stop_container (name : string) : cact () :=
  run_argv ["podman"; "stop"; name] ;; run_argv ["podman"; "rm"; "-f"; name] ;; mret ().
(** the container is stopped when it goes out of scope, whatever the result. *)
Definition with_container {A} (name : string) (m : cact A) : cact A := fun s =>
  let '(s, r) := m s in ((stop_container name s).1, r).

Definition exists_in (cb : CmdBuilder) (path what : string) : cact bool :=
  o ← output cb "test" ["-e"; path] what; mret (lo_success o).

Definition lvm_clone_podman (config : LvmCloneConfig) : cact CloneResult :=
  v ← run_argv ["podman"; "--version"];
  match v with
  | inl _ => cfail (CommandFailed "podman not found")
  | inr _ =>
      let target_vg := default (lc_source_vg config) (lc_target_vg config) in
      let source_path := dev_path (lc_source_vg config) (lc_source_lv config) in
      let clone_path := dev_path target_vg (lc_clone_lv_name config) in
      name ← container_name;
      build_image (lc_container_image config) ;;
      start_container name ;;
      with_container name (
        let cb := Podman name in
        present ← exists_in cb source_path "Failed to check source LV: ";
        if negb present then cfail (NotFound ("Source LV does not exist: " +:+ source_path))
        else
          mounted ← is_device_mounted cb source_path;
          if (mounted : bool) then cfail (InvalidState ("Source LV is currently mounted: " +:+ source_path))
          else
            taken ← exists_in cb clone_path "Failed to check clone LV: ";
            if (taken : bool) then cfail (InvalidState ("Target LV already exists: " +:+ clone_path))
            else if lc_dry_run config then mret (plain_result config false source_path clone_path [])
            else copy_volume cb config false)
  end.
End clone.
