(* ===== verification/LvmCloneProps.v ===== *)
(** * Theorems on cloning volumes

    What is done to which volume: the source is written by no program, and by the clone's own
    writes only where a link of the clone leads to it; the snapshot is always removed; a dry
    run only asks; a clone that is reported was unmounted; and what happens
    to a clone that is still mounted when the temporary directory is removed. *)
From stdpp Require Import base gmap strings list.
From Stdlib Require Import ZArith Lia Ascii.
From S2P Require Import Prelude Words RustStr Partition Filesystem FileOps FileOpsProps GuestFs Passport LiveExec Sam Hive DiskReader LvmClone.

(** ** The log of an action *)
Section logs.
Context `{FileCrates} `{GuestIo} `{LvmEnv} (P : event → Prop).

(** an action only adds events of [P] to the log, and does not panic. *)
Definition logs {A} (m : cact A) : Prop := ∀ s s' r, m s = (s', r) →
  r ≠ Panic ∧ ∃ l, cs_log s' = cs_log s ++ l ∧ Forall P l.

Lemma logs_silent {A} (m : cact A) : (∀ s, (m s).2 ≠ Panic ∧ cs_log (m s).1 = cs_log s) → logs m.
Proof.
  intros Hm s s' r Hs. specialize (Hm s). rewrite Hs in Hm. cbn in Hm. destruct Hm as [Hp Hl].
  split; [done|]. exists []. by rewrite Hl, app_nil_r.
Qed.
Lemma logs_ret {A} (a : A) : logs (mret a).
Proof. by apply logs_silent. Qed.
Lemma logs_fail {A} e : logs (cfail (A:=A) e).
Proof. by apply logs_silent. Qed.
Lemma logs_ask {A} (f : tree → outcome Error A) : (∀ t, f t ≠ Panic) → logs (cask f).
Proof. intros Hf. apply logs_silent. intros s. split; [apply Hf|done]. Qed.

Lemma logs_bind {A B} (m : cact A) (f : A → cact B) : logs m → (∀ a, logs (f a)) → logs (m ≫= f).
Proof.
  intros Hm Hf s s' r. unfold mbind, cact_bind. destruct (m s) as [s1 [a|e|]] eqn:E;
    destruct (Hm _ _ _ E) as (Hp & l1 & Hl1 & HP1).
  - intros Hs. destruct (Hf a _ _ _ Hs) as (Hp2 & l2 & Hl2 & HP2). split; [done|].
    exists (l1 ++ l2). rewrite Hl2, Hl1, app_assoc. split; [done|by apply Forall_app].
  - intros [= <- <-]. eauto.
  - done.
Qed.
Lemma logs_attempt {A} (m : cact A) : logs m → logs (attempt m).
Proof.
  intros Hm s s' r. unfold attempt. destruct (m s) as [s1 [a|e|]] eqn:E;
    destruct (Hm _ _ _ E) as (Hp & Hl); [| |done]; intros [= <- <-]; eauto.
Qed.
Lemma logs_if {A} (b : bool) (m n : cact A) : logs m → logs n → logs (if b then m else n).
Proof. by destruct b. Qed.
Lemma logs_run argv : P (Ran argv) → logs (run_argv argv).
Proof.
  intros Hp s s' r. unfold run_argv. destruct (program _ _ _) as [t x]. intros [= <- <-].
  split; [done|]. exists [Ran argv]. split; [done|by constructor].
Qed.
Lemma logs_output cb prog args what : P (Ran (build_command cb prog ++ args)) → logs (output cb prog args what).
Proof.
  intros Hp. apply logs_bind; [by apply logs_run|]. intros [e|o]; [apply logs_fail|apply logs_ret].
Qed.
Lemma logs_succeeds o what : logs (succeeds o what).
Proof. apply logs_if; [apply logs_ret|apply logs_fail]. Qed.
Lemma logs_optionally {A} b (m : cact A) : logs m → logs (optionally b m).
Proof.
  intros Hm. apply logs_if; [|apply logs_ret]. apply logs_bind; [by apply logs_attempt|].
  intros r. apply logs_ret.
Qed.
Lemma opened_forall p t : (∀ q, P (Wrote p q)) → Forall P (opened_at p t).
Proof. intros Hp. unfold opened_at. destruct (open_truncated _ p t) as [[[t' q] m]|]; by repeat constructor. Qed.
Lemma logs_write p content what : (∀ q, P (Wrote p q)) → logs (write_file p content what).
Proof.
  intros Hp s s' r. unfold write_file. destruct (fs_write_bytes _ _ _ _) as [t ok]. intros [= <- <-].
  split; [by destruct ok|]. eexists. split; [reflexivity|by apply opened_forall].
Qed.
Lemma logs_read p what : logs (read_to_string p what).
Proof. apply logs_ask. intros t. by destruct (read_text t p). Qed.
Lemma logs_draw : logs draw_uuid.
Proof. by apply logs_silent. Qed.
Lemma logs_temp_dir {A} (body : list string → cact A) :
  (∀ root, P (Wiped root)) → (∀ root, temp_dir = inr root → logs (body root)) → logs (with_temp_dir body).
Proof.
  intros Hw Hb s s' r. unfold with_temp_dir. destruct temp_dir as [e|root] eqn:Et;
    [by intros [= <- <-]; split; [|exists []; rewrite app_nil_r]|].
  destruct (body root (make_temp_dir root s)) as [s1 r1] eqn:E. destruct (Hb root eq_refl _ _ _ E) as (Hp & l & Hl & HP).
  intros [= <- <-]. split; [done|]. exists (l ++ [Wiped root]). cbn. rewrite Hl, app_assoc.
  split; [done|]. apply Forall_app. auto.
Qed.
End logs.
Create HintDb logs.
#[export] Hint Resolve logs_ret logs_fail logs_succeeds logs_write logs_read logs_draw logs_attempt logs_optionally logs_output logs_run : logs.

(** one step of a proof that an action keeps to the log. *)
Ltac logs_step := match goal with
  | |- logs _ (_ ≫= _) => apply logs_bind; [|intros ?]
  | |- logs _ (if _ then _ else _) => apply logs_if
  | |- logs _ (attempt _) => apply logs_attempt
  | |- logs _ (optionally _ _) => apply logs_optionally
  | |- logs _ (match ?x with _ => _ end) => destruct x
  | |- logs _ (cask _) => apply logs_ask; intros ?
  | |- logs _ _ => solve [auto with logs]
  | |- Ok _ ≠ Panic => done
  end.

Lemma logs_each `{LvmEnv} P {A} (f : A → cact ()) l : (∀ a, logs P (f a)) → logs P (each f l).
Proof. intros Hf. induction l; [apply logs_ret|]. by apply logs_bind. Qed.
(** writes below a directory. *)
Section below.
Context `{FileCrates} `{GuestIo} `{LvmEnv} (P : event → Prop) (root : list string).
Hypothesis Hbelow : ∀ rest q, P (Wrote (root ++ rest) q).

Lemma logs_rewrite p backup name backup_name prefix mappings :
  logs P (rewrite_config (root ++ p) (root ++ backup) name backup_name prefix mappings).
Proof. unfold rewrite_config. repeat logs_step. Qed.
Lemma with_extension_below rest x e : with_extension (root ++ rest ++ [x]) e = root ++ rest ++ [file_stem x +:+ "." +:+ e].
Proof. by rewrite app_assoc, with_extension_snoc, <- app_assoc. Qed.
Lemma logs_bootloader mappings : logs P (update_clone_bootloader root mappings).
Proof.
  unfold update_clone_bootloader, grub_paths. cbn [update_grub_files].
  rewrite (with_extension_below ["boot"; "grub"] "grub.cfg"), (with_extension_below ["boot"; "grub2"] "grub.cfg").
  repeat (apply logs_rewrite || logs_step).
Qed.
Lemma logs_keep_grub : logs P (keep_grub_configs root grub_targets).
Proof.
  unfold grub_targets. cbn [keep_grub_configs].
  rewrite (with_extension_below ["boot"; "grub"] "grub.cfg"), (with_extension_below ["boot"; "grub2"] "grub.cfg").
  assert (∀ p backup, logs P (fun s =>
    if path_exists (cs_tree s) p then
      let '(t, ok) := fs_copy_file (write_fault (root ++ backup)) p (root ++ backup) (cs_tree s) in
      (mk_cstate t (cs_log s ++ match node_at (cs_tree s) p with
                                | Some (File _ _ _) => opened_at (root ++ backup) (cs_tree s) | _ => [] end)
         (cs_uuids s), Ok (ok : bool))
    else (s, Ok false))) as Hcopy.
  { intros p backup s s' r. destruct (path_exists _ _); [|intros [= <- <-]; split; [done|]; exists []; by rewrite app_nil_r].
    destruct (fs_copy_file _ _ _ _) as [t ok]. intros [= <- <-]. split; [done|]. eexists. split; [reflexivity|].
    destruct (node_at _ _) as [[]|]; try apply Forall_nil_2. by apply opened_forall. }
  repeat (apply Hcopy || logs_step).
Qed.
Lemma logs_fstab mappings : logs P (update_clone_fstab root mappings).
Proof. unfold update_clone_fstab. repeat (apply logs_rewrite || logs_step). Qed.
Lemma logs_crypttab mappings : logs P (update_clone_crypttab root mappings).
Proof. unfold update_clone_crypttab. repeat (apply logs_rewrite || logs_step). Qed.
Lemma logs_hostname h : logs P (set_clone_hostname root h).
Proof. unfold set_clone_hostname. repeat logs_step. Qed.
End below.
Lemma logs_mkdir `{FileCrates} P root dir e :
  logs P (fun s => let '(t, ok) := create_dir_all (S (length root)) (cs_tree s) (root ++ [dir]) in
            (mk_cstate t (cs_log s) (cs_uuids s), if ok then Ok () else Err e)).
Proof. apply logs_silent. intros s. destruct (create_dir_all _ _ _) as [t ok]. by destruct ok. Qed.
#[export] Hint Resolve logs_each logs_keep_grub logs_bootloader logs_fstab logs_crypttab logs_hostname logs_mkdir : logs.

(** ** What a program writes

    The volumes a command writes, from what its program is documented to do: a snapshot
    leaves its origin as it is, questions write nothing, a command run in the clone works on
    its files, [podman] itself (to build an image, to start and stop a container) writes no
    volume; every other program is taken to write the volume named last. *)
Definition inner_command (argv : list string) : list string :=
  match argv with
  | x :: argv' =>
      if String.eqb x "sudo" then argv'
      else match argv' with
           | y :: _ :: argv'' => if String.eqb x "podman" && String.eqb y "exec" then argv'' else argv
           | _ => argv
           end
  | [] => []
  end.
Definition questions : list string := ["findmnt"; "lvs"; "blkid"; "test"; "umount"; "chroot"; "podman"].
Definition written_by (argv : list string) : list string :=
  match argv with
  | [] => []
  | prog :: args =>
      if existsb (String.eqb prog) questions then []
      else if String.eqb prog "lvcreate" then
        match args with
        | [_; name; _; _; vg] => [dev_path vg name]
        | x :: _ => if String.eqb x "--snapshot" then [] else args
        | [] => []
        end
      else if String.eqb prog "dd" then match args with _ :: to :: _ => [str_drop 3 to] | _ => args end
      else if String.eqb prog "mount" then
        match args with
        | [x; _] => if String.eqb x "--make-rprivate" then [] else [x]
        | [x; _; _] => if String.eqb x "--bind" then [] else args
        | _ => args
        end
      else if String.eqb prog "cryptsetup" then
        match args with [_; _] => [] | _ :: device :: _ => [device] | _ => args end
      else option_list (last args)
  end.
(** the devices a step writes. *)
Definition touched (e : event) : list string :=
  match e with
  | Ran argv => written_by (inner_command argv)
  | Wrote _ target => [display target]
  | Wiped _ => []
  end.
(** a file of the mounted clone whose name leads somewhere else. *)
Definition through_link `{LvmEnv} (e : event) : Prop :=
  ∃ root rest target, temp_dir = inr root ∧ e = Wrote (root ++ rest) target ∧ target ≠ root ++ rest.
(** a step that does not write the volume, or only through a link. *)
Definition spares `{LvmEnv} (volume : string) (e : event) : Prop := volume ∈ touched e → through_link e.
(** the temporary directory is not above the volume's node. *)
Definition apart `{LvmEnv} (volume : string) : Prop := ∀ root rest, temp_dir = inr root → display (root ++ rest) ≠ volume.

Section spared.
Context `{FileCrates} `{GuestIo} `{LvmEnv} (volume : string).

Lemma inner_build cb prog args : String.eqb prog "sudo" = false → String.eqb prog "podman" = false →
  inner_command (build_command cb prog ++ args) = prog :: args.
Proof.
  intros Hs Hp. destruct cb as [|name]; cbn; [|done]. unfold build_sudo_command.
  destruct running_as_root; cbn; [|done]. rewrite Hs. destruct args as [|y [|z args]]; [done..|by rewrite Hp].
Qed.
Lemma spares_build cb prog args : String.eqb prog "sudo" = false → String.eqb prog "podman" = false →
  volume ∉ written_by (prog :: args) → spares volume (Ran (build_command cb prog ++ args)).
Proof. intros Hs Hp Hv Hin. cbn [touched] in Hin. rewrite inner_build in Hin by done. done. Qed.
Lemma spares_below root : apart volume → temp_dir = inr root → ∀ rest q, spares volume (Wrote (root ++ rest) q).
Proof.
  intros Ha Ht rest q Hin%list_elem_of_singleton. exists root, rest, q. split_and!; [done|done|].
  intros ->. by apply (Ha root rest Ht).
Qed.
Lemma spares_wiped root : spares volume (Wiped root).
Proof. by intros Hin%not_elem_of_nil. Qed.

Lemma snapshot_other vg lv : dev_path vg (lv +:+ "-clone-snap") ≠ dev_path vg lv.
Proof.
  unfold dev_path. intros E. apply (f_equal String.length) in E. rewrite !text_length_app in E. cbn in E. lia.
Qed.
End spared.

(** the goals that a command does not write the volume. *)
Ltac spares_tac := match goal with
  | |- spares _ (Wiped _) => apply spares_wiped
  | |- spares _ (Ran _) => apply spares_build; [reflexivity|reflexivity|spares_tac]
  | |- _ ∉ (if _ then [] else [_]) => case_match; spares_tac
  | |- _ ∉ [] => apply not_elem_of_nil
  | |- _ ∉ [str_drop 3 ("of=" +:+ ?to)] => change (str_drop 3 ("of=" +:+ to)) with to; spares_tac
  | |- _ ∉ [_] => rewrite list_elem_of_singleton; congruence
  | |- _ ∉ written_by _ => cbn -[str_drop]; spares_tac
  end.

Section volumes.
Context `{FileCrates} `{GuestIo} `{LvmEnv} (volume : string).
Notation L := (logs (spares volume)).
Ltac log_all := repeat first [ logs_step | apply logs_output; spares_tac | apply logs_run; spares_tac ].

Lemma spared_mounted cb d : L (is_device_mounted cb d).
Proof. unfold is_device_mounted. log_all. Qed.
Lemma spared_fs_type cb d : L (detect_filesystem_type cb d).
Proof. unfold detect_filesystem_type. log_all. Qed.
Lemma spared_blkid cb d : L (get_blkid_uuid cb d).
Proof. unfold get_blkid_uuid. log_all. Qed.
Lemma spared_size cb vg lv : L (lv_size_bytes cb vg lv).
Proof. unfold lv_size_bytes. log_all. Qed.
Lemma spared_snapshot cb vg lv name size : L (create_snapshot cb vg lv name size).
Proof. unfold create_snapshot. log_all. Qed.
Lemma spared_unmount cb root : L (unmount_device cb root).
Proof. unfold unmount_device. log_all. Qed.
Lemma spared_target cb vg name n : dev_path vg name ≠ volume → L (create_target_lv cb vg name n).
Proof. intros Hd. unfold create_target_lv. log_all. Qed.
Lemma spared_copy cb from to : to ≠ volume → L (dd_copy cb from to).
Proof. intros Hd. unfold dd_copy. log_all. Qed.
Lemma spared_remove cb d : d ≠ volume → L (remove_lv cb d).
Proof. intros Hd. unfold remove_lv. log_all. Qed.
Lemma spared_mount cb d root : d ≠ volume → L (mount_device cb d root).
Proof. intros Hd. unfold mount_device. log_all. Qed.
Hint Resolve spared_mounted spared_fs_type spared_blkid spared_size spared_snapshot spared_unmount spared_target
  spared_copy spared_remove spared_mount : logs.

Lemma spared_set_uuid cb d u : d ≠ volume → L (set_filesystem_uuid cb d u).
Proof.
  intros Hd. unfold set_filesystem_uuid, ext_check_device, xfs_repair_device, set_uuid_with. log_all.
Qed.
Lemma spared_luks cb d : L (detect_luks cb d).
Proof. unfold detect_luks, detect_luks_version. log_all. Qed.
Hint Resolve spared_set_uuid spared_luks : logs.
Lemma spared_regenerate cb d : d ≠ volume → L (regenerate_clone_uuids cb d).
Proof. intros Hd. unfold regenerate_clone_uuids, change_luks_uuid. log_all. Qed.

Lemma spared_chroot cb root command : L (run_in_chroot cb root command).
Proof.
  unfold run_in_chroot, mount_chroot_binds, unmount_chroot_binds, bind_one.
  repeat ((apply logs_each; intros ?) || logs_step || (apply logs_output; spares_tac) || (apply logs_run; spares_tac)).
Qed.
Lemma spared_tool cb root tools : L (first_tool cb root tools).
Proof.
  induction tools as [|tool tools IH]; [apply logs_ret|]. cbn [first_tool].
  apply logs_bind; [apply spared_chroot|]. intros o. by apply logs_if; [apply logs_ret|].
Qed.
Hint Resolve spared_regenerate spared_tool : logs.
Lemma spared_customize cb config root r :
  apart volume → temp_dir = inr root → cl_clone_path r ≠ volume → L (customize cb config root r).
Proof.
  intros Ha Ht Hd. pose proof (spares_below volume root Ha Ht) as Hbelow.
  unfold customize, regenerate_initramfs, regenerate_grub_config. repeat logs_step.
Qed.
Hint Resolve spared_customize : logs.
End volumes.

Section whole.
Context `{FileCrates} `{GuestIo} `{LvmEnv}.

(** the names that creating volumes answers. *)
Lemma snapshot_path cb vg lv name size s s' p : create_snapshot cb vg lv name size s = (s', Ok p) → p = dev_path vg name.
Proof.
  unfold create_snapshot, output, succeeds, mbind, cact_bind, run_argv.
  destruct (program _ _ _) as [t [e|o]]; [done|]. cbn. destruct (lo_success o); [|done]. by intros [= _ <-].
Qed.
Lemma target_path_of cb vg name n s s' p : create_target_lv cb vg name n s = (s', Ok p) → p = dev_path vg name.
Proof.
  unfold create_target_lv, output, succeeds, mbind, cact_bind, run_argv.
  destruct (program _ _ _) as [t [e|o]]; [done|]. cbn. destruct (lo_success o); [|done]. by intros [= _ <-].
Qed.
(** [logs_bind] when the answers of the first action are known. *)
Lemma logs_bind_of P {A B} (m : cact A) (f : A → cact B) (Q : A → Prop) :
  logs P m → (∀ s s' a, m s = (s', Ok a) → Q a) → (∀ a, Q a → logs P (f a)) → logs P (m ≫= f).
Proof.
  intros Hm HQ Hf s s' r. unfold mbind, cact_bind. destruct (m s) as [s1 [a|e|]] eqn:E;
    destruct (Hm _ _ _ E) as (Hp & l1 & Hl1 & HP1); [|by intros [= <- <-]; eauto|done].
  intros Hs. destruct (Hf a (HQ _ _ _ E) _ _ _ Hs) as (Hp2 & l2 & Hl2 & HP2). split; [done|].
  exists (l1 ++ l2). rewrite Hl2, Hl1, app_assoc. split; [done|by apply Forall_app].
Qed.

Lemma attempt_answer {A} (m : cact A) (Q : A → Prop) : (∀ s s' a, m s = (s', Ok a) → Q a) →
  ∀ s s' x, attempt m s = (s', Ok x) → match x with inr a => Q a | inl _ => True end.
Proof. intros Hm s s' x. unfold attempt. destruct (m s) as [s1 [a|e|]] eqn:E; intros [= <- <-]; eauto. Qed.

Lemma spared_volume cb config isolated :
  let volume := dev_path (lc_source_vg config) (lc_source_lv config) in
  apart volume →
  dev_path (default (lc_source_vg config) (lc_target_vg config)) (lc_clone_lv_name config) ≠ volume →
  logs (spares volume) (copy_volume cb config isolated).
Proof.
  intros volume Ha Ht. unfold copy_volume. apply logs_bind; [apply spared_size|]. intros n.
  eapply logs_bind_of; [apply spared_snapshot|intros ???; apply snapshot_path|]. intros snap ->.
  pose proof (snapshot_other (lc_source_vg config) (lc_source_lv config)) as Hs. fold volume in Hs.
  eapply logs_bind_of; [apply logs_attempt, spared_target, Ht|apply attempt_answer; intros ???; apply target_path_of|].
  intros [e|target]; cbn -[mbind]; [intros _|intros ->].
  { repeat (apply spared_remove || logs_step); done. }
  apply logs_bind; [apply logs_attempt; by apply spared_copy|]. intros [e|_].
  { repeat (apply spared_remove || logs_step); done. }
  apply logs_bind; [by apply spared_remove|]. intros _.
  apply logs_bind; [apply logs_if; [by apply spared_regenerate|apply logs_ret]|]. intros maps.
  apply logs_if; [|apply logs_ret]. apply logs_temp_dir; [apply spares_wiped|]. intros root Hroot. by apply spared_customize.
Qed.

(** the questions and the mount that a dry run may make. *)
Definition asks (e : event) : Prop :=
  match e with
  | Ran argv => argv = build_command Sudo "mount" ++ ["--make-rprivate"; "/"]
                ∨ ∃ device, argv = build_command Sudo "findmnt" ++ ["--source"; device]
  | Wrote _ _ | Wiped _ => False
  end.
Lemma isolation_logs (P : event → Prop) level :
  P (Ran (build_command Sudo "mount" ++ ["--make-rprivate"; "/"])) → logs P (setup_namespace_isolation level).
Proof. intros Hp. unfold setup_namespace_isolation. repeat logs_step. Qed.

(** [findmnt] lists mounts and leaves the files as they are, and so does [test], which
    succeeds exactly for a path that is there. *)
Record asking_reads : Prop := mk_asking_reads {
  findmnt_reads : ∀ cb log args t, (program log (build_command cb "findmnt" ++ args) t).1 = t;
  test_reads : ∀ cb log p t, let '(t', r) := program log (build_command cb "test" ++ ["-e"; p]) t in
    t' = t ∧ match r with inr o => lo_success o = path_exists t (pieces p) | inl _ => True end
}.

Lemma dev_path_source vg lv : starts_with "/dev/" (dev_path vg lv) = true.
Proof. unfold dev_path. apply starts_with_spec. eauto. Qed.

(** A dry run changes nothing: whatever it answers, the only programs it starts are the
    question whether the source is mounted and, when an isolation is asked for, the one that
    makes the mounts of its own name space private; and it cannot panic. *)
Theorem dry_run_only_asks config s s' r : lc_dry_run config = true → lvm_clone config s = (s', r) →
  r ≠ Panic ∧ ∃ l, cs_log s' = cs_log s ++ l ∧ Forall asks l.
Proof.
  intros Hd. revert s s' r. change (logs asks (lvm_clone config)). unfold lvm_clone.
  apply logs_bind; [apply isolation_logs; by left|]. intros _. unfold checked_volumes, is_device_mounted. rewrite Hd, dev_path_source.
  assert (∀ d, asks (Ran (build_command Sudo "findmnt" ++ ["--source"; d]))) by (cbn; eauto).
  repeat logs_step.
Qed.

(** an action that asks whether a path is there. *)
Definition asks_for (p : string) (m : cact bool) : Prop := ∀ s s' b, m s = (s', Ok b) →
  cs_tree s' = cs_tree s ∧ b = path_exists (cs_tree s) (pieces p).
Lemma cask_asks p : asks_for p (cask (fun t => Ok (path_exists t (pieces p)))).
Proof. by intros s s' b [= <- <-]. Qed.
Lemma test_asks cb p what : asking_reads → asks_for p (exists_in cb p what).
Proof.
  intros Hr s s' b. unfold exists_in, output, mbind, cact_bind, run_argv.
  pose proof (test_reads Hr cb (cs_log s) p (cs_tree s)) as Ht.
  destruct (program _ _ _) as [t [e|o]]; [done|]. destruct Ht as [-> Ho]. intros [= <- <-]. by rewrite Ho.
Qed.
Lemma mounted_keeps cb d s s' b : asking_reads → is_device_mounted cb d s = (s', Ok b) → cs_tree s' = cs_tree s.
Proof.
  intros Hr. unfold is_device_mounted, output, mbind, cact_bind, run_argv.
  pose proof (findmnt_reads Hr cb (cs_log s) [if starts_with "/dev/" d then "--source" else "--mountpoint"; d] (cs_tree s)) as Hf.
  destruct (program _ _ _) as [t [e|o]]; [done|]. cbn in Hf. by intros [= <- _].
Qed.
Lemma logs_later P {A} (m : cact A) s0 s l s' (r : outcome Error A) :
  logs P m → cs_log s = cs_log s0 ++ l → Forall P l → m s = (s', r) →
  r ≠ Panic ∧ ∃ l, cs_log s' = cs_log s0 ++ l ∧ Forall P l.
Proof.
  intros Hm Hl HP Hs. destruct (Hm _ _ _ Hs) as (Hr & l2 & Hl2 & HP2). split; [done|].
  exists (l ++ l2). rewrite Hl2, Hl, app_assoc. split; [done|by apply Forall_app].
Qed.

Lemma logs_container P {A} name (m : cact A) : logs P (stop_container name) → logs P m → logs P (with_container name m).
Proof.
  intros Hst Hm s s' r. unfold with_container. destruct (m s) as [s1 r1] eqn:E. destruct (Hm _ _ _ E) as (Hr & l & Hl & HP).
  destruct (stop_container name s1) as [s2 x] eqn:E2. intros [= <- <-].
  destruct (logs_later _ _ s s1 l s2 x Hst Hl HP E2) as (_ & Hrest). done.
Qed.

(** the checks let a run go on only when the clone is not the source. *)
Lemma checked_spares cb config isolated (there taken : cact bool) e1 e2 e3 res :
  let source := dev_path (lc_source_vg config) (lc_source_lv config) in
  let clone := dev_path (default (lc_source_vg config) (lc_target_vg config)) (lc_clone_lv_name config) in
  asking_reads → apart source → logs (spares source) there → logs (spares source) taken →
  asks_for source there → asks_for clone taken →
  logs (spares source)
    (present ← there;
     if negb present then cfail e1
     else mounted ← is_device_mounted cb source;
          if (mounted : bool) then cfail e2
          else found ← taken;
               if (found : bool) then cfail e3
               else if lc_dry_run config then mret res else copy_volume cb config isolated).
Proof.
  intros source clone Hread Ha Hl1 Hl2 Hp1 Hp2. destruct (decide (clone = source)) as [E|Hne].
  2:{ pose proof (spared_mounted source cb source). pose proof (spared_volume cb config isolated Ha Hne). repeat logs_step. }
  intros s s' r Hs. destruct (there s) as [s1 x] eqn:E1. unfold mbind, cact_bind in Hs. rewrite E1 in Hs.
  destruct (Hl1 _ _ _ E1) as (Hx & l & Hl & HP). destruct x as [b|e|]; [|injection Hs as <- <-; eauto|done].
  destruct (Hp1 _ _ _ E1) as [Ht1 Hb]. destruct b; [|injection Hs as <- <-; eauto]. cbn [negb] in Hs.
  destruct (is_device_mounted cb source s1) as [s2 x] eqn:Em.
  destruct (logs_later _ _ s s1 l s2 x (spared_mounted source cb source) Hl HP Em) as (Hx2 & l2 & Hm2 & HP2).
  destruct x as [b|e|]; [|injection Hs as <- <-; eauto|done]. pose proof (mounted_keeps _ _ _ _ _ Hread Em) as Ht2.
  destruct b; [injection Hs as <- <-; eauto|]. destruct (taken s2) as [s3 x] eqn:E3.
  destruct (logs_later _ _ s s2 l2 s3 x Hl2 Hm2 HP2 E3) as (Hx3 & l3 & Hm3 & HP3).
  destruct x as [b|e|]; [|injection Hs as <- <-; eauto|done]. destruct (Hp2 _ _ _ E3) as [_ Hb3].
  rewrite E, Ht2, Ht1, <- Hb in Hb3. subst b. injection Hs as <- <-. eauto.
Qed.
Lemma podman_spares config :
  let source := dev_path (lc_source_vg config) (lc_source_lv config) in
  asking_reads → apart source → logs (spares source) (lvm_clone_podman config).
Proof.
  intros source Hread Ha.
  assert (∀ args, spares source (Ran ("podman" :: args)) ∨ ∃ name args', args = "exec" :: name :: args') as Hpod.
  { intros [|x [|y args]]; [left; by intros Hin%not_elem_of_nil..|].
    destruct (String.eqb x "exec") eqn:E; [apply String.eqb_eq in E as ->; right; eauto|].
    left. intros Hin. cbn in Hin. rewrite E in Hin. by apply not_elem_of_nil in Hin. }
  assert (∀ x args, x ≠ "exec" → logs (spares source) (run_argv ("podman" :: x :: args))) as Hrun.
  { intros x args Hx. apply logs_run. destruct (Hpod (x :: args)) as [?|(name & args' & [= -> _])]; done. }
  unfold lvm_clone_podman. apply logs_bind; [by apply Hrun|]. intros [e|_]; [apply logs_fail|].
  apply logs_bind; [unfold container_name; repeat logs_step|]. intros name.
  apply logs_bind; [unfold build_image; repeat first [apply Hrun; done|logs_step]|]. intros _.
  apply logs_bind; [unfold start_container; repeat first [apply Hrun; done|logs_step]|]. intros _.
  apply logs_container; [unfold stop_container; repeat first [apply Hrun; done|logs_step]|].
  assert (∀ p what, logs (spares source) (exists_in (Podman name) p what)) as He.
  { intros p what. unfold exists_in. repeat first [apply logs_output; spares_tac|logs_step]. }
  apply checked_spares; [done|done|apply He|apply He|by apply test_asks|by apply test_asks].
Qed.
(** both variants. *)
Definition clone_with (podman : bool) (config : LvmCloneConfig) : cact CloneResult :=
  if podman then lvm_clone_podman config else lvm_clone config.

(** C23: Cloning leaves the source volume alone, in both variants (with and without a
    container) and whatever the programs answer: the run does not panic, and the only step
    of it that can write the source is one of its own writes to a file of the mounted clone
    whose name leads through a link to another place (the programs are never given the
    source to write, mount, repair or remove).  [link_overwrites_source] is such a run.
    That the clone is another volume is not assumed: the run goes on only when the source
    is there and the clone is not.  Assumed is that [findmnt] and [test] only read, that
    [test -e] succeeds exactly for a path that is there ([asking_reads]), and that the
    temporary directory is not above the node of the source ([apart]).  What a program
    writes is [written_by], after its documentation: a command run in the clone is taken to
    write no device; and removing the temporary directory deletes files, it writes none. *)
Theorem source_not_written podman config s s' r :
  let source := dev_path (lc_source_vg config) (lc_source_lv config) in
  asking_reads → apart source → clone_with podman config s = (s', r) →
  r ≠ Panic ∧ ∃ l, cs_log s' = cs_log s ++ l ∧ ∀ e, e ∈ l → source ∈ touched e → through_link e.
Proof.
  intros source Hread Ha.
  enough (logs (spares source) (clone_with podman config)) as Hl.
  { intros Hs. destruct (Hl _ _ _ Hs) as (Hr & l & El & HP). split; [done|]. exists l. split; [done|].
    intros e He. exact (proj1 (Forall_forall _ _) HP e He). }
  destruct podman; [by apply podman_spares|]. apply logs_bind; [apply isolation_logs; spares_tac|].
  intros _. apply checked_spares; [done|done|by apply logs_ask|by apply logs_ask|apply cask_asks|apply cask_asks].
Qed.

(** ** What is always done *)
Definition runs (e : event) {A} (m : cact A) : Prop := ∀ s s' r, m s = (s', r) →
  ∃ l, cs_log s' = cs_log s ++ l ∧ e ∈ l.
Notation grows := (logs (fun _ => True)).

Lemma runs_first e {A B} (m : cact A) (f : A → cact B) : runs e m → (∀ a, grows (f a)) → runs e (m ≫= f).
Proof.
  intros Hm Hf s s' r. unfold mbind, cact_bind. destruct (m s) as [s1 [a|x|]] eqn:E;
    destruct (Hm _ _ _ E) as (l & Hl & He); try (intros [= <- <-]; eauto).
  intros Hs. destruct (Hf a _ _ _ Hs) as (_ & l2 & Hl2 & _). exists (l ++ l2).
  rewrite Hl2, Hl, app_assoc. split; [done|]. apply elem_of_app. by left.
Qed.
(** an attempt does not end the run, so what comes after it is done. *)
Lemma runs_after e {A B} (m : cact A) (f : Error + A → cact B) :
  grows m → (∀ a, runs e (f a)) → runs e (attempt m ≫= f).
Proof.
  intros Hm Hf s s' r. unfold mbind, cact_bind, attempt. destruct (m s) as [s1 [a|x|]] eqn:E;
    destruct (Hm _ _ _ E) as (Hp & l & Hl & _); [| |done];
    intros Hs; destruct (Hf _ _ _ _ Hs) as (l2 & Hl2 & He); exists (l ++ l2);
    rewrite Hl2, Hl, app_assoc; (split; [done|]; apply elem_of_app; by right).
Qed.
Lemma runs_attempt e {A} (m : cact A) : runs e m → runs e (attempt m).
Proof.
  intros Hm s s' r. unfold attempt. destruct (m s) as [s1 [a|x|]] eqn:E; intros [= <- <-]; eauto.
Qed.
Lemma runs_remove cb d : runs (Ran (build_command cb "lvremove" ++ ["-f"; d])) (remove_lv cb d).
Proof.
  unfold remove_lv, output. apply runs_first; [|intros o; apply logs_succeeds]. apply runs_first; [|intros []; repeat logs_step].
  intros s s' r. unfold run_argv. destruct (program _ _ _) as [t x]. intros [= <- <-]. eexists. split; [done|].
  by apply list_elem_of_singleton.
Qed.
Lemma grows_of P {A} (m : cact A) : logs P m → grows m.
Proof. intros Hm s s' r Hs. destruct (Hm _ _ _ Hs) as (Hr & l & Hl & _). split; [done|]. exists l. split; [done|by apply Forall_true]. Qed.
(** a command that is not forbidden anything. *)
Lemma grows_output cb prog args what : grows (output cb prog args what).
Proof. by apply logs_output. Qed.
Lemma grows_remove cb d : grows (remove_lv cb d).
Proof. unfold remove_lv. apply logs_bind; [apply grows_output|]. intros o. apply logs_succeeds. Qed.

Lemma bind_ok {A B} (m : cact A) (f : A → cact B) s s1 a : m s = (s1, Ok a) → (m ≫= f) s = f a s1.
Proof. unfold mbind, cact_bind. by intros ->. Qed.
(** the steps after the copy, on any volume. *)
Lemma grows_rest cb config isolated target : grows (after_copy cb config isolated target).
Proof.
  assert (∃ volume, apart volume ∧ target ≠ volume) as (volume & Ha & Hv).
  { destruct (decide (target = "x")) as [->|]; [exists "y"|exists "x"]; (split; [by intros|done]). }
  apply logs_bind; [apply logs_if; [eapply grows_of, spared_regenerate, Hv|apply logs_ret]|]. intros maps.
  apply logs_if; [|apply logs_ret]. apply logs_temp_dir; [done|]. intros root Hr.
  by eapply grows_of, (spared_customize volume).
Qed.

(** A snapshot that was taken is not left behind without trying: once the command that takes
    it has succeeded, the run removes it, whether creating the target fails, the copy fails
    or everything after it. *)
Theorem snapshot_always_removed cb config isolated s s1 s2 n snap s' r :
  lv_size_bytes cb (lc_source_vg config) (lc_source_lv config) s = (s1, Ok n) →
  create_snapshot cb (lc_source_vg config) (lc_source_lv config) (lc_source_lv config +:+ "-clone-snap")
    (default "10G" (lc_snapshot_size config)) s1 = (s2, Ok snap) →
  copy_volume cb config isolated s = (s', r) →
  snap = dev_path (lc_source_vg config) (lc_source_lv config +:+ "-clone-snap") ∧
  ∃ l, cs_log s' = cs_log s2 ++ l ∧ Ran (build_command cb "lvremove" ++ ["-f"; snap]) ∈ l.
Proof.
  intros Hn Hsnap Hc. split; [by eapply snapshot_path|]. revert Hc. unfold copy_volume.
  rewrite (bind_ok _ _ _ _ _ Hn), (bind_ok _ _ _ _ _ Hsnap). revert s2 s' r Hsnap.
  enough (runs (Ran (build_command cb "lvremove" ++ ["-f"; snap]))
    (target ← attempt (create_target_lv cb (default (lc_source_vg config) (lc_target_vg config)) (lc_clone_lv_name config) n);
     after_target cb config isolated snap target)) as Hruns by (intros; by eapply Hruns).
  apply runs_after; [apply logs_bind; [apply grows_output|intros o; repeat logs_step]|].
  intros [e|target]; cbn [after_target]; [apply runs_first; [apply runs_attempt, runs_remove|intros; apply logs_fail]|].
  apply runs_after; [apply logs_bind; [apply grows_output|intros o; apply logs_succeeds]|]. intros [e|_].
  - apply runs_first; [apply runs_attempt, runs_remove|]. intros _.
    apply logs_bind; [apply logs_attempt, grows_remove|intros; apply logs_fail].
  - apply runs_first; [apply runs_remove|]. intros _. apply grows_rest.
Qed.

(** ** What a reported clone went through *)
Lemma bind_inv {A B} (m : cact A) (f : A → cact B) s s' b : (m ≫= f) s = (s', Ok b) →
  ∃ s1 a, m s = (s1, Ok a) ∧ f a s1 = (s', Ok b).
Proof. unfold mbind, cact_bind. destruct (m s) as [s1 [a|e|]]; [eauto|done|done]. Qed.
Lemma unmount_ok cb root s s' : unmount_device cb root s = (s', Ok ()) →
  let argv := build_command cb "umount" ++ [display root] in
  ∃ t o, program (cs_log s) argv (cs_tree s) = (t, inr o) ∧ lo_success o = true ∧ cs_log s' = cs_log s ++ [Ran argv].
Proof.
  unfold unmount_device, output, succeeds, mbind, cact_bind, run_argv. destruct (program _ _ _) as [t [e|o]] eqn:E; [done|].
  cbn. destruct (lo_success o) eqn:Ho; [|done]. intros [= <-]. eauto 10.
Qed.
Lemma customized_unmounted cb config root c s s' r : customize cb config root c s = (s', Ok r) →
  ∃ s1, unmount_device cb root s1 = (s', Ok ()).
Proof.
  unfold customize. intros Hc. do 10 (apply bind_inv in Hc; destruct Hc as (?s & ?a & _ & Hc)).
  apply bind_inv in Hc. destruct Hc as (sx & [] & Hu & Hr). injection Hr as <- _. eauto.
Qed.

(** the copy of a run that reports a clone. *)
Lemma copy_reported cb config isolated s s' r : copy_volume cb config isolated s = (s', Ok r) →
  ∃ s1 target, after_copy cb config isolated target s1 = (s', Ok r).
Proof.
  unfold copy_volume. intros Hc. apply bind_inv in Hc as (s1 & n & _ & Hc). apply bind_inv in Hc as (s2 & snap & _ & Hc).
  apply bind_inv in Hc as (s3 & [e|target] & _ & Hc); cbn [after_target] in Hc.
  { by apply bind_inv in Hc as (? & ? & _ & Hc). }
  apply bind_inv in Hc as (s4 & [e|[]] & _ & Hc).
  { apply bind_inv in Hc as (? & ? & _ & Hc). by apply bind_inv in Hc as (? & ? & _ & Hc). }
  apply bind_inv in Hc as (s5 & ? & _ & Hc). eauto.
Qed.
Lemma clone_reported config s s' r : lc_dry_run config = false → lvm_clone config s = (s', Ok r) →
  ∃ s1 isolated, copy_volume Sudo config isolated s1 = (s', Ok r).
Proof.
  intros Hd. unfold lvm_clone, checked_volumes. rewrite Hd. intros Hc. apply bind_inv in Hc as (s1 & ? & _ & Hc).
  apply bind_inv in Hc as (s2 & [] & _ & Hc); [|done]. cbn [negb] in Hc. apply bind_inv in Hc as (s3 & [] & _ & Hc); [done|].
  apply bind_inv in Hc as (s4 & [] & _ & Hc); [done|]. eauto.
Qed.

(** A clone that is reported was unmounted: when a run that works on the files of the clone
    answers a result, the last program was the [umount] of the temporary directory, it
    succeeded, and only then was the directory removed. *)
Theorem reported_clone_unmounted config s s' r :
  lc_dry_run config = false → needs_mount config = true → lvm_clone config s = (s', Ok r) →
  ∃ root s1 t o, let argv := build_command Sudo "umount" ++ [display root] in
    temp_dir = inr root ∧ program (cs_log s1) argv (cs_tree s1) = (t, inr o) ∧ lo_success o = true ∧
    cs_log s' = cs_log s1 ++ [Ran argv; Wiped root].
Proof.
  intros Hd Hm Hc. destruct (clone_reported _ _ _ _ Hd Hc) as (s1 & isolated & Hv).
  destruct (copy_reported _ _ _ _ _ _ Hv) as (s2 & target & Ha). unfold after_copy in Ha. rewrite Hm in Ha.
  apply bind_inv in Ha as (s3 & maps & _ & Ha). unfold with_temp_dir in Ha. destruct temp_dir as [e|root]; [done|].
  destruct (customize _ _ _ _ _) as [s4 [x| |]] eqn:E; [|done|done]. injection Ha as <- <-.
  destruct (customized_unmounted _ _ _ _ _ _ _ E) as [s5 Hu]. destruct (unmount_ok _ _ _ _ Hu) as (t & o & Ho & Hs & Hl).
  exists root, s5, t, o. cbn [drop_temp_dir cs_log]. by rewrite Hl, <- app_assoc.
Qed.
End whole.

(** ** Replacing identifiers *)
Lemma replace_fuel_absent pat by_ s fuel : contains pat s = false → replace_fuel fuel pat by_ s = s.
Proof.
  revert s. induction fuel as [|fuel IH]; [done|]. intros [|c s]; [done|]. cbn [contains]. intros Hc.
  apply orb_false_iff in Hc as [Hp Hc]. cbn [replace_fuel]. rewrite Hp. by rewrite IH.
Qed.
Lemma replace_all_absent pat by_ s : contains pat s = false → replace_all pat by_ s = s.
Proof.
  intros Hc. unfold replace_all. destruct pat as [|c pat]; [exfalso; by destruct s|]. cbn [is_empty]. by apply replace_fuel_absent.
Qed.
Lemma replace_uuids_absent prefix mappings content :
  Forall (fun m => contains (prefix +:+ um_old_uuid m) content = false) mappings →
  replace_uuids prefix mappings content = content.
Proof.
  unfold replace_uuids. induction 1 as [|m maps Hm Hms IH]; [done|]. cbn [foldl]. by rewrite replace_all_absent.
Qed.

(** a file of the clone that names none of the old identifiers gets a backup and is not
    written. *)
Theorem unnamed_config_kept `{FileCrates} `{GuestIo} `{LvmEnv} p backup name backup_name prefix mappings content s :
  read_text (cs_tree s) p = inr content →
  Forall (fun m => contains (prefix +:+ um_old_uuid m) content = false) mappings →
  (rewrite_config p backup name backup_name prefix mappings s).1 =
    (write_file backup content ("Failed to write " +:+ backup_name +:+ " backup: ") s).1.
Proof.
  intros Hr Hm. unfold rewrite_config. unfold read_to_string, cask, mbind, cact_bind. rewrite Hr.
  rewrite replace_uuids_absent by done. rewrite String.eqb_refl. by destruct (write_file _ _ _ _) as [s1 [[]| |]].
Qed.

(** ** The container *)
(** a container that was started is stopped and removed whatever the clone answers, and
    these are the last programs of the run. *)
Theorem container_stopped `{FileCrates} `{GuestIo} `{LvmEnv} {A} name (m : cact A) s :
  cs_log (with_container name m s).1 =
    cs_log (m s).1 ++ [Ran ["podman"; "stop"; name]; Ran ["podman"; "rm"; "-f"; name]] ∧
  (with_container name m s).2 = (m s).2.
Proof.
  unfold with_container. destruct (m s) as [s1 r]. split; [|done]. unfold stop_container, mbind, cact_bind, run_argv.
  destruct (program _ _ _) as [t x]. cbn [cs_log cs_tree]. destruct (program _ _ _) as [t2 x2]. cbn. by rewrite <- app_assoc.
Qed.

(** ** Examples *)
#[local] Instance clone_host : FileCrates := {|
  b64_encode s := s; b64_decode s := Some s; file_sha256_hex s := s; cwd := []; written_at := None; umask_mode := 420
|}.
(** [failing]: the file that cannot be written. *)
Definition clone_io (failing : list (list string)) : GuestIo :=
  {| write_fault p := if bool_decide (p ∈ failing) then Some 0 else None; is_utf8 _ := true |}.
Definition said (ok : bool) (out : string) : lvm_out := mk_lvm_out ok (Some (if ok then 0 else 1)%Z) out "".
Definition clone_dir : node := Dir 0 493 None.
Definition at_root : list string := ["tmp"; "x"].
(** what a mount shows, and what an unmount takes away. *)
Definition shown (at_ : list string) : list (list string * node) :=
  if bool_decide (at_ = at_root) then
    [(at_root, clone_dir); (at_root ++ ["etc"], clone_dir); (at_root ++ ["boot"], clone_dir);
     (at_root ++ ["boot"; "vmlinuz-5.9.0"], File "" 420 None); (at_root ++ ["boot"; "vmlinuz-5.10.0"], File "" 420 None);
     (at_root ++ ["etc"; "fstab"], File ("UUID=1111 / ext4 PARTUUID=1111" +:+ newline_str) 420 None)]
  else [(at_ ++ ["host"], File "of the host" 420 None)].
(** the host name of a clone that was prepared to be cloned. *)
Definition planted (busy : list string) : list (list string * node) :=
  if existsb (String.eqb "planted") busy then [(at_root ++ ["etc"; "hostname"], Link "/dev/vg/root")] else [].
(** [busy]: what cannot be unmounted, the programs that fail, and the file system when it is
    not the usual one. *)
Definition clone_program (busy : list string) (log : list event) (argv : list string) (t : tree) : tree * (string + lvm_out) :=
  match inner_command argv with
  | prog :: args =>
      if String.eqb prog "findmnt" || String.eqb prog "cryptsetup" || existsb (String.eqb prog) busy
      then (t, inr (said false ""))
      else if String.eqb prog "test" then (t, inr (said (path_exists t (pieces (default "" (last args)))) ""))
      else if String.eqb prog "lvs" then (t, inr (said true "1024.00"))
      else if String.eqb prog "blkid" then
        (t, inr (said true (if existsb (String.eqb "UUID") args then "1111" else if existsb (String.eqb "vfat") busy then "vfat" else "ext4")))
      else if String.eqb prog "mount" then
        (list_to_map (planted busy ++ shown (filter named (pieces (default "" (last args))))) ∪ t, inr (said true ""))
      else if String.eqb prog "umount" then
        let p := default "" (head args) in
        if existsb (String.eqb p) busy then (t, inr (said false ""))
        else (outside (filter named (pieces p)) t, inr (said true ""))
      else (t, inr (said true ""))
  | [] => (t, inl "")
  end.
Definition clone_env (busy : list string) : LvmEnv := {|
  program := clone_program busy; running_as_root := true; unshare_error := None; temp_dir := inr at_root;
  new_v4 n := "2222"; io_text _ := "io"; now_rfc3339 := "now"; project_dir := ["src"]
|}.
Definition clone_tree : tree :=
  list_to_map [([], clone_dir); (["dev"], clone_dir); (["dev"; "vg"], clone_dir); (["tmp"], clone_dir);
    (["dev"; "vg"; "root"], File "" 420 None)].
Definition plain_config : LvmCloneConfig :=
  mk_LvmCloneConfig "vg" "root" "copy" None true true false false None false None false NoIsolation false false false None.
Definition clone_start : cstate := mk_cstate clone_tree [] 0.
Definition clone_run (failing : list (list string)) (busy : list string) (config : LvmCloneConfig) :=
  @lvm_clone clone_host (clone_io failing) (clone_env busy) config clone_start.

Lemma clone_asking_reads busy :
  existsb (String.eqb "test") busy = false → @asking_reads (clone_env busy).
Proof.
  intros Hb. split.
  - intros cb log args t. cbn [program clone_env]. unfold clone_program. by rewrite (@inner_build (clone_env busy)).
  - intros cb log p t. cbn [program clone_env]. unfold clone_program. rewrite (@inner_build (clone_env busy)) by done.
    by rewrite Hb.
Qed.
Lemma clone_apart busy : @apart (clone_env busy) "/dev/vg/root".
Proof. by intros root rest [= <-]. Qed.
Definition clone_podman_run (busy : list string) (config : LvmCloneConfig) :=
  @clone_with clone_host (clone_io []) (clone_env busy) true config clone_start.
Lemma source_not_written_witness :
  Ran ["podman"; "exec"; "guestkit-lvm-2222"; "dd"; "if=/dev/vg/root-clone-snap"; "of=/dev/vg/copy"; "bs=4M"; "conv=fsync"; "status=progress"]
    ∈ cs_log (clone_podman_run [] plain_config).1 ∧
  ∃ l, cs_log (clone_podman_run [] plain_config).1 = [] ++ l ∧
    ∀ e, e ∈ l → "/dev/vg/root" ∈ touched e → @through_link (clone_env []) e.
Proof.
  split; [apply (bool_decide_eq_true_1 _); vm_compute; reflexivity|].
  exact (proj2 (@source_not_written clone_host (clone_io []) (clone_env []) true plain_config clone_start
    (clone_podman_run [] plain_config).1 (clone_podman_run [] plain_config).2 (clone_asking_reads [] eq_refl)
    (clone_apart []) (surjective_pairing _))).
Defined.

Definition error_of {A} (x : cstate * outcome Error A) : option Error :=
  match x.2 with Err e => Some e | _ => None end.
Definition result_of {A} (x : cstate * outcome Error A) : option A := match x.2 with Ok a => Some a | _ => None end.
Definition is_umount (e : event) : bool :=
  match e with Ran (prog :: _) => String.eqb prog "umount" | _ => false end.

Definition named_config : LvmCloneConfig :=
  mk_LvmCloneConfig "vg" "root" "copy" None false false false false (Some "web") false None false NoIsolation false false false None.
(** the host name of the clone is a link to the source: writing it overwrites the node of
    the source, and the clone is reported. *)
Example link_overwrites_source :
  let x := clone_run [] ["planted"] named_config in
  Wrote (at_root ++ ["etc"; "hostname"]) ["dev"; "vg"; "root"] ∈ cs_log x.1 ∧
  cs_tree x.1 !! ["dev"; "vg"; "root"] = Some (File ("web" +:+ newline_str) 420 None) ∧
  cl_clone_path <$> result_of x = Some "/dev/vg/copy".
Proof. split; [apply (bool_decide_eq_true_1 _); vm_compute; reflexivity|]. split; vm_compute; reflexivity. Qed.
(** the directory of the temporary mount is removed while the clone is mounted there, when
    its host name cannot be written: the files of the new volume go with it. *)
Example failed_name_erases_clone :
  let x := clone_run [at_root ++ ["etc"; "hostname"]] [] named_config in
  error_of x = Some (CommandFailed "Failed to write hostname: io") ∧
  existsb is_umount (cs_log x.1) = false ∧
  drop 6 (cs_log x.1) = [Ran ["mount"; "/dev/vg/copy"; "/tmp/x"];
    Wrote (at_root ++ ["etc"; "hostname"]) (at_root ++ ["etc"; "hostname"]); Wiped at_root].
Proof. vm_compute. auto. Qed.

(** the same with the directories of the host that are mounted for a command in the clone:
    an unmount that fails is not noticed, the clone cannot be unmounted either, and removing
    the temporary directory removes what is in the /dev of the host. *)
Definition grub_config : LvmCloneConfig :=
  mk_LvmCloneConfig "vg" "root" "copy" None false false false false None false None false NoIsolation false true false None.
Example busy_bind_erases_host :
  let x := clone_run [] ["/tmp/x/dev"; "/tmp/x"] grub_config in
  error_of x = Some (CommandFailed "umount /tmp/x failed: ") ∧
  drop 8 (cs_log x.1) = [Ran ["mount"; "--bind"; "/sys"; "/tmp/x/sys"]; Ran ["mount"; "--bind"; "/dev"; "/tmp/x/dev"];
    Ran ["chroot"; "/tmp/x"; "grub2-mkconfig"; "-o"; "/boot/grub2/grub.cfg"];
    Ran ["umount"; "/tmp/x/dev"]; Ran ["umount"; "/tmp/x/sys"]; Ran ["umount"; "/tmp/x/proc"];
    Ran ["umount"; "/tmp/x"]; Wiped at_root].
Proof. vm_compute. auto. Qed.

(** a snapshot that cannot be removed leaves the target behind as well. *)
Example failed_removal_keeps_target :
  let x := clone_run [] ["lvremove"] plain_config in
  error_of x = Some (CommandFailed "lvremove failed for /dev/vg/root-clone-snap: ") ∧
  drop 3 (cs_log x.1) = [Ran ["lvcreate"; "--name"; "copy"; "--size"; "1024b"; "vg"];
    Ran ["dd"; "if=/dev/vg/root-clone-snap"; "of=/dev/vg/copy"; "bs=4M"; "conv=fsync"; "status=progress"];
    Ran ["lvremove"; "-f"; "/dev/vg/root-clone-snap"]].
Proof. vm_compute. auto. Qed.

(** the warnings of the boot checks are replaced by those of the security checks: a clone
    that would not boot is reported with no warning. *)
Definition audit_config : LvmCloneConfig :=
  mk_LvmCloneConfig "vg" "root" "copy" None false false false false None false None false NoIsolation true false true None.
Example boot_warnings_lost :
  let checked_only := mk_LvmCloneConfig "vg" "root" "copy" None false false false false None false None false NoIsolation
    false false true None in
  (fun r => (cl_boot_verified r, sw_category <$> cl_security_warnings r)) <$> result_of (clone_run [] [] checked_only)
    = Some (false, ["boot_initramfs"; "boot_grub"]) ∧
  (fun r => (cl_boot_verified r, cl_security_warnings r)) <$> result_of (clone_run [] [] audit_config) = Some (false, []).
Proof. vm_compute. auto. Qed.

(** the newest kernel is the last by text: 5.9 comes after 5.10. *)
Example kernel_by_text : cl_kernel_version <$> result_of (clone_run [] [] audit_config) = Some (Some "5.9.0").
Proof. vm_compute. reflexivity. Qed.

(** the identifier of a partition contains [UUID=] and is replaced too, although the
    partition table was copied nowhere; the empty identifier that [cryptsetup] answers when
    it fails matches before every character. *)
Example partition_uuid_replaced :
  replace_uuids "UUID=" [mk_UuidMapping "/dev/vg/copy" "ext4" "1111" "2222"] "UUID=1111 / ext4 PARTUUID=1111"
    = "UUID=2222 / ext4 PARTUUID=2222" ∧
  replace_uuids "" [mk_UuidMapping "/dev/vg/copy" "crypto_LUKS2" "" "2222"] "luks" = "2222l2222u2222k2222s2222".
Proof. vm_compute. auto. Qed.

(** the table is reported as updated when the clone has none. *)
Example missing_table_updated :
  @update_clone_fstab clone_host (clone_io []) (clone_env []) ["nowhere"] [] clone_start = (clone_start, Ok None).
Proof. vm_compute. reflexivity. Qed.

(** the identifier of a FAT file system is not changed, and the table of the clone is still
    rewritten to the new one, which no volume has. *)
Example fat_table_dangles :
  let x := clone_run [] ["vfat"] plain_config in
  (fun r => (um_new_uuid <$> cl_uuid_mappings r, cl_fstab_updated r)) <$> result_of x = Some (["2222"], true) ∧
  existsb (fun e => match e with Ran argv => existsb (String.eqb "2222") argv | _ => false end) (cs_log x.1) = false.
Proof. vm_compute. auto. Qed.
